(* ===== verification/_CoqProject ===== *)
-Q . S2P
Prelude.v
HpackData.v
HpackInt.v
HpackTbl.v
HuffGen.v
HpackHuff.v
HpackHdr.v
TekenData.v
TekenSubr.v
TekenState.v
TekenInv.v
TekenSafe.v
TekenInput.v
TekenCsi.v
Term.v
TermSafe.v
TermShow.v
Vbh.v
VbhShape.v
VbhHeap.v
VbhSpec.v
Vev.v
VevSpec.v
VevLoop.v
CStr.v
Vct.v
Dbl.v
Vnum.v
VnumDec.v
VnumSpec.v
Vav.v
VavSpec.v
Vsb.v
VsbSpec.v
VsbQuote.v
QuoteVav.v
Vjsn.v
VjsnSpec.v
VjsnStr.v
VjsnSafe.v
VjsnParse.v
QuoteJson.v
Macro.v
MacroSpec.v
Interp.v
InterpSpec.v
Vlu.v
VluSpec.v
Logexp.v
LogexpSpec.v
VtcSubr.v
Gzip.v
GzipSpec.v
Vend.v
H2Recv.v
H2Send.v
H2Spec.v
H2Cmds.v
H2Expect.v
H2Obj.v
H2Msg.v
H2Faults.v
H2Flow.v
Barrier.v
BarrierSpec.v
Http1.v
Http1Tx.v
Http1Rx.v
Http1Spec.v
Vsa.v
Proxy.v
ProxySpec.v
Tunnel.v
TunnelSpec.v
Vtim.v
VtimSpec.v
Main.v
MainSpec.v
Sess.v
SessSpec.v
