(* ===== verification/Prelude.v ===== *)
(** * A verification development for VTest2

    VTest2 runs test cases against HTTP clients, servers and proxies.  This
    library models the parts of it that compute: the interpreter of test cases
    with its macros and log expectations, the clients and servers of HTTP/1 and
    HTTP/2 with their HPACK coder, barriers, the terminal emulator behind
    [process -expect-text], and the data structures and parsers of lib/ they
    stand on.  Every definition is a translation of the C (or, for the two
    generators, of the Python and awk) source and runs under [vm_compute].

    How the parts interact: parse_string (Interp.v) cuts a script into words
    (Vav.v), expands macros (Macro.v) and calls a command.  The commands of a
    client or server (Http1.v, Http1Tx.v) and of its streams (H2Cmds.v,
    H2Send.v, H2Obj.v) receive the words that are left, write messages and
    frames to the connection and look words up for [expect]; the receiving
    thread of HTTP/2 (H2Recv.v) decodes header blocks with HpackHdr.v.  Barriers
    (Barrier.v) are the command by which threads wait for each other, tunnels
    (Tunnel.v) hold back the bytes between two of them.  Clients and servers
    themselves are started and joined by Sess.v, and Main.v runs the tests as
    events of Vev.v.

    ** How C is modelled

    This file holds the shared vocabulary.  A C function that can fail is a
    function into [outcome]: [Ok] or a [Fault] that names why the C code would
    not return ([FAssert] a failed assertion, [FBounds] an access outside an
    object, [FShift] an undefined shift, [FIncompl] a call of INCOMPL, [FFree] a
    second free, [FFatal] a call of vtc_fatal, or of vtc_log at level zero,
    which end the test, [FUndef] undefined behaviour of another kind, such as
    arithmetic on NULL or a signed overflow).  [FFuel] marks a loop that ran out
    of fuel.  Theorems that say [Ok] are therefore termination theorems as well.
    Where the C code itself can loop for ever a theorem says that no fuel is
    enough ([quote_hang], [vlu_feed_hang], [gunzip_hang]); a command that waits
    for a connection that brings nothing more has no other result either.
    Objects are lists read and written by [readC] and [writeC]; integers are [Z]
    with [u8] ... [i32] where C wraps; strings and buffers are lists of bytes, a
    pointer into one is an offset, or the list that is left of it.  [malloc] is
    a parameter where the code handles its failure (Vbh.v, Vsb.v) or where what
    it returns shows; elsewhere the code asserts that it succeeds.

    ** HPACK (src/src/vtc_h2_hpack.c, vtc_h2_tbl.c, huffman_gen.py)

    - HpackData.v: hpack.h, vtc_h2_priv.h, the static table and the code table.
    - HpackInt.v: num_decode and num_encode.  They invert each other for all
      values but 2^p - 1 ([num_roundtrip], [num_encode_pmax]); both keep within
      the buffer ([num_encode_no_room], [num_decode_total]).
    - HpackTbl.v: the dynamic table.  push_header, the look-ups and
      HPK_ResizeTbl refine the table of RFC 7541 section 4, and the static table
      is that of its Appendix A ([push_header_refines], [lookup_refines],
      [HPK_ResizeTbl_refines]), with two exceptions: a name taken from an entry
      that must be evicted trips an assertion, and row 16 lacks a blank.
    - HuffGen.v: bit strings, and huffman_gen.py run on tbl/vhp_huffman.h.  [huffman_gen_ok]
      says that the decoding tables it prints decode the code of
      vtc_h2_enctbl.h; the class [DecTbl] is what the decoder relies on.
    - HpackHuff.v: huff_encode and huff_decode, proved against bit strings for
      any instance of [DecTbl], and inverse to each other ([huff_roundtrip]).
    - HpackHdr.v: str_encode, str_decode, HPK_EncHdr and HPK_DecHdr.  Header
      fields survive the trip, and the decoder is memory safe on any input but
      for the faults the theorems name.

    The fuel of the loops is the number of bytes, bits or entries left, and the
    loop lemmas show it is enough.

    ** The terminal (src/src/teken.c, teken_subr.h, vtc_process.c)

    - TekenData.v: teken_wcwidth.h, where the binary search is membership; struct
      __teken and its flags, the hooks, character sets, colours and key
      sequences.
    - TekenSubr.v: the operations of teken_subr.h and teken_subr_compat.h.
    - TekenState.v: the state machine gensequences generates from the file
      sequences (a state is the prefix read so far), the UTF-8 decoder and the
      input functions of teken.c.
    - TekenInv.v: the invariant [tinv], the class [HooksOk] that the drawing
      routines of a client must satisfy, and what [HooksOk] gives.
    - TekenSafe.v: every operation keeps [tinv].
    - TekenInput.v: so does every byte ([teken_input_safe]).
    - Term.v: struct process's screen and the callbacks of vtc_process.c.
    - TermSafe.v: what they do to the cells; they satisfy [HooksOk], so that
      emulator and screen are safe together ([process_terminal_safe]).
      TermShow.v: scrolling and printing seen on the screen, and the searches.

    The bound on the window, three columns and one line or more, is the one
    under which the assertions hold; [winsz_two_columns] shows it is needed.

    ** Data structures, strings and parsers (src/lib)

    - Vbh.v: the binary heap of vbh.c.  VbhShape.v shows that its page-aware
      layout is a tree (class [Layout]), VbhHeap.v that the operations keep the
      heap for any layout, VbhSpec.v that they refine those
      of a bag of items that know their index ([vbh_insert_ok],
      [vbh_delete_ok]).
    - Vev.v: timers, descriptors and signals of vev.c over that heap, with
      callbacks that start and stop events.  The end of VbhSpec.v carries the
      heap's theorems over to a client whose update has checks of its own,
      VevSpec.v shows that VEV_Start and VEV_Stop keep heap and arrays together,
      VevLoop.v that they keep all of the root in step, for events of any kind
      ([vev_tidy]), that no turn of the loop fails and that each event is served
      once ([VEV_Loop_safe], [vev_dispatch_ok]).
      In the theorems about turns no signal happens; [stopped_pending] shows
      what one does whose event is stopped.
    - CStr.v, Vct.v, Vnum.v: loops over strings, the character classes of vct.h,
      integers of vnum.c.  Dbl.v: doubles, as the Standard Library's floats of 53
      bits.  VnumDec.v, VnumSpec.v: decimals, durations and sizes in doubles,
      with the tests of vnum.c; sizes of up to fifteen digits are exact below
      2^63 ([vnum_2bytes_ok]).
    - Vtim.v, VtimSpec.v: dates and durations; what is printed for a second is
      parsed back, and so are the other three formats ([vtim_roundtrip]).
    - Vav.v, VavSpec.v: the argument parser; Vsb.v, VsbSpec.v, VsbQuote.v: the
      string buffer, appending ([vsb_auto_appends]) and quoting
      ([vsb_quote_ok]).  QuoteVav.v and QuoteJson.v compose them: what VSB_quote
      writes is parsed back.
    - Vjsn.v, with VjsnSpec.v, VjsnStr.v, VjsnSafe.v and VjsnParse.v: the JSON
      parser accepts the texts of RFC 8259 and returns their value, but for
      bytes from 128 on, unpaired surrogates, and the value of some pairs
      ([vjsn_parse_json]); on any bytes it is safe ([vjsn_parse_total]).
      The parser's own tests run in VjsnSpec.v.
    - Vlu.v, VluSpec.v: lines from a stream, however it is cut
      ([vlu_feed_ok]).  Vend.v: integers in memory.  Vsa.v: addresses.

    ** Test cases (src/src/vtc.c, vtc_logexp.c, vtc_barrier.c, vtc_tunnel.c,
    vtc_proxy.c, vtc_subr.c, vtc_gzip.c)

    - Macro.v, MacroSpec.v: macros refine a finite map, and expansion replaces
      each reference by what the map gives for it ([macros_refine],
      [macro_expand_ok]).
    - Interp.v, InterpSpec.v: parse_string runs the lines of any script of the
      language in order ([parse_script]).  The effect of a command is a
      parameter here.
    - Logexp.v, LogexpSpec.v: the automaton of logexpect refines an abstract
      one, and for plain expectations ends as a recursive definition says
      ([logexp_thread_ok], [logexp_plain_ok]).
    - Barrier.v, BarrierSpec.v: calls of [sync] interleaved as steps; no call
      passes early unless its wait is cut short, by a spurious wake-up or the end
      of the test, and all pass in the end ([barrier_waits], [barrier_opens]).
    - Tunnel.v, TunnelSpec.v: both threads of a tunnel interleaved as steps;
      bytes pass unchanged, and exactly as many as a command lets through
      as long as no wait is cut short ([tunnel_bytes], [tunnel_sends]), with the
      races that break this.
    - Proxy.v, ProxySpec.v: the PROXY header of a client
      ([client_proxy_ok]).
    - VtcSubr.v: strings as commands use them, vtc_expect, exit statuses.
      Gzip.v, GzipSpec.v: the calls of zlib by [-gzip] and [gunzip]
      ([vtc_gzip_ok], under the documented behaviour of deflate).

    ** HTTP/1 (src/src/vtc_http.c)

    - Http1.v: struct http, [expect], taking headers apart, receiving headers,
      bodies and chunks.  Http1Tx.v: [txreq], [txresp], raw bytes, chunks, the
      upgrade to HTTP/2.
    - Http1Rx.v: bytes arrive in order however they are cut, the
      header ends with the first empty line, and its parts are found.
    - Http1Spec.v: a request survives the trip ([http1_roundtrip]).

    ** HTTP/2 (src/src/vtc_http2.c)

    - H2Recv.v: frame headers, streams, and what the receiving thread
      does with each frame; H2Cmds.v: the commands that wait for frames;
      H2Send.v: the commands that write one; H2Obj.v: [txreq], [txresp],
      [txpush], [txcont]; H2Expect.v: the words of [expect], streams, the
      settings of an upgrade.
    - H2Spec.v, H2Msg.v: what one end sends the other reads
      ([frames_ok], [data_ok]; up to the words of [expect]: [settings_ok],
      [headers_ok]).  H2Flow.v: the windows of two ends agree in every
      interleaving of data and credit on one stream ([flow_agrees]).  H2Faults.v: where the commands fail.

    ** Clients, servers and the program (src/src/vtc_sess.c, vtc_client.c,
    vtc_server.c, vtc_main.c)

    - Sess.v, SessSpec.v: the commands that start and stop clients and servers,
      over the class [Kernel] of sockets and threads, whose laws are the class
      [KernelOk].  A command is one step; the threads it does not wait for run
      between commands.  Each thread is joined and each socket closed, at the
      latest by the reset ([sessions_cleaned]); a session closes the
      connections it makes ([sess_thread_ok]).  The script of a session, which
      Http1.v and H2Cmds.v model, is a parameter.
    - Main.v, MainSpec.v: options, files and macros of the program, and tests
      that run in child processes as events of the loop of Vev.v.  The program
      stops at a failed test, or ends with the verdict on the statuses with which
      the runs of the tests have ended, or is still waiting for jobs after any
      number of turns of its loop ([main_ok]; there is room for two events a job);
      with no jobs allowed it spins ([no_jobs_spins]).

    ** What is not modelled

    The calls of sockets, processes and pipes themselves (vtcp, vsub, ...): input
    and output.  zlib, PCRE, poll, the file system, strtod and the clock are
    parameters of what uses them, and so is the time-dependent text of macros.
    The lines of the log are left out.  varnishd, haproxy and syslog are managed
    from outside, the commands of a process but for its terminal act on a
    program of the system, and the checks of features ask the system what it
    offers. *)

From Stdlib Require Import ZArith Lia.
From stdpp Require Import base option numbers list.

Declare Scope vtest_scope.
Delimit Scope vtest_scope with vtest.
#[global] Open Scope Z_scope.

(** ** Outcomes of C code *)

(** Why a C function did not return: a failed [assert]/[AN]/[AZ], an access
    outside an object, a shift by the width of the type or more, a call of
    [INCOMPL], a second [free] of a block, or a call of [vtc_fatal], which ends
    the test case.  [FFuel] is not a fault of the code: it marks a loop whose
    fuel ran out, and theorems exclude it. *)
Inductive fault :=
  | FAssert
  | FBounds
  | FShift
  | FIncompl
  | FFree
  | FFatal
  | FUndef
  | FFuel.

(** The result of running a C function: a value, or the fault it stopped at. *)
Inductive outcome (A : Type) : Type :=
  | Ok (a : A)
  | Fault (f : fault).
Arguments Ok {A} a.
Arguments Fault {A} f.

#[global] Instance fault_eq_dec : EqDecision fault.
Proof. solve_decision. Defined.

#[global] Instance outcome_ret : MRet outcome := @Ok.
#[global] Instance outcome_bind : MBind outcome :=
  fun A B k m => match m with Ok a => k a | Fault f => Fault f end.
#[global] Instance outcome_fmap : FMap outcome :=
  fun A B g m => match m with Ok a => Ok (g a) | Fault f => Fault f end.

(** [assert(b)]. *)
Definition assertC (b : bool) : outcome unit :=
  if b then Ok tt else Fault FAssert.

(** [p[i]] of an object whose cells are [l]. *)
Definition readC {A} (l : list A) (i : nat) : outcome A :=
  match l !! i with Some x => Ok x | None => Fault FBounds end.

(** [p[i] = x] on an object whose cells are [l]. *)
Definition writeC {A} (l : list A) (i : nat) (x : A) : outcome (list A) :=
  if decide (i < length l)%nat then Ok (<[i := x]> l) else Fault FBounds.

Definition is_ok {A} (m : outcome A) : bool :=
  match m with Ok _ => true | Fault _ => false end.

Lemma bind_ok {A B} (m : outcome A) (k : A -> outcome B) b :
  m ≫= k = Ok b <-> exists a, m = Ok a /\ k a = Ok b.
Proof.
  destruct m as [a|f]; simpl; split; [eauto| |discriminate|].
  - by intros (? & [= ->] & ?).
  - by intros (? & ? & ?).
Qed.

Lemma bind_Ok_l {A B} (a : A) (k : A -> outcome B) : Ok a ≫= k = k a.
Proof. reflexivity. Qed.

Lemma assertC_ok b u : assertC b = Ok u <-> b = true.
Proof. destruct b, u; split; intros; done. Qed.

Lemma assertC_true b : b = true -> assertC b = Ok tt.
Proof. by intros ->. Qed.

Lemma readC_ok {A} (l : list A) i x : readC l i = Ok x <-> l !! i = Some x.
Proof. unfold readC. destruct (l !! i); naive_solver. Qed.

Lemma readC_lt {A} (l : list A) i :
  (i < length l)%nat -> exists x, l !! i = Some x /\ readC l i = Ok x.
Proof.
  intros (x & Hx)%lookup_lt_is_Some_2. exists x. by rewrite readC_ok.
Qed.

Lemma writeC_ok {A} (l : list A) i x l' :
  writeC l i x = Ok l' <-> (i < length l)%nat /\ l' = <[i := x]> l.
Proof. unfold writeC. case_decide; naive_solver. Qed.

Lemma writeC_lt {A} (l : list A) i x :
  (i < length l)%nat -> writeC l i x = Ok (<[i := x]> l).
Proof. intros. by apply writeC_ok. Qed.

(** ** Machine integers *)

(** The value a [w]-bit unsigned object holds after [z] is stored in it. *)
Definition wrapu (w : Z) (z : Z) : Z := z `mod` 2 ^ w.
Abbreviation u8 := (wrapu 8).
Abbreviation u16 := (wrapu 16).
Abbreviation u32 := (wrapu 32).
Abbreviation u64 := (wrapu 64).

(** The two's complement value a [w]-bit signed object holds. *)
Definition wraps (w : Z) (z : Z) : Z :=
  let m := z `mod` 2 ^ w in if m <? 2 ^ (w - 1) then m else m - 2 ^ w.
Abbreviation i32 := (wraps 32).

Definition UINT32_MAX : Z := 4294967295.

(** [x << n] and [x >> n] on [uint64_t]. *)
Definition shl64 (x n : Z) : outcome Z :=
  if (0 <=? n) && (n <? 64) then Ok (u64 (Z.shiftl x n)) else Fault FShift.
Definition shr64 (x n : Z) : outcome Z :=
  if (0 <=? n) && (n <? 64) then Ok (Z.shiftr x n) else Fault FShift.

(** A C integer used as a condition. *)
Definition truth (z : Z) : bool := negb (z =? 0).

Lemma wrapu_small w z : 0 <= z < 2 ^ w -> wrapu w z = z.
Proof. apply Z.mod_small. Qed.

Lemma wrapu_range w z : 0 <= w -> 0 <= wrapu w z < 2 ^ w.
Proof. intros. apply Z.mod_pos_bound. lia. Qed.

Lemma wrapu_idem w z : wrapu w (wrapu w z) = wrapu w z.
Proof. apply Zmod_mod. Qed.

Lemma wraps_small w z : 0 < w -> - 2 ^ (w - 1) <= z < 2 ^ (w - 1) -> wraps w z = z.
Proof.
  intros Hw Hz. unfold wraps.
  assert (2 ^ w = 2 * 2 ^ (w - 1)) as Hp.
  { rewrite <- Z.pow_succ_r by lia. f_equal. lia. }
  destruct (decide (0 <= z)).
  - rewrite Z.mod_small by lia. destruct (Z.ltb_spec z (2 ^ (w - 1))); lia.
  - assert (z `mod` 2 ^ w = z + 2 ^ w) as ->.
    { symmetry. apply Z.mod_unique with (-1); lia. }
    destruct (Z.ltb_spec (z + 2 ^ w) (2 ^ (w - 1))); lia.
Qed.

Lemma truth_true z : truth z = true <-> z <> 0.
Proof. unfold truth. rewrite negb_true_iff. apply Z.eqb_neq. Qed.

Lemma truth_false z : truth z = false <-> z = 0.
Proof. unfold truth. rewrite negb_false_iff. apply Z.eqb_eq. Qed.

(** ** Bit operations as arithmetic *)

Lemma land_low_mod a w : 0 <= w -> Z.land a (2 ^ w - 1) = a `mod` 2 ^ w.
Proof.
  intros. rewrite <- Z.land_ones by done. f_equal. rewrite Z.ones_equiv. lia.
Qed.

(** A disjoint [|] is [+]: [b] fits below the low bits of [a]. *)
Lemma lor_add a b w :
  0 <= w -> 0 <= b < 2 ^ w -> a `mod` 2 ^ w = 0 -> Z.lor a b = a + b.
Proof.
  intros Hw Hb Ha. symmetry. apply Z.add_nocarry_lor.
  apply Z.bits_inj_0. intros i. rewrite Z.land_spec.
  destruct (decide (i < 0)); [by rewrite Z.testbit_neg_r by lia|].
  destruct (decide (i < w)).
  - rewrite <- (Z.mod_pow2_bits_low a w i) by lia. by rewrite Ha, Z.testbit_0_l.
  - rewrite <- (Z.mod_small b (2 ^ w)) by lia.
    by rewrite Z.mod_pow2_bits_high, andb_false_r by lia.
Qed.

(** [1 << k] masks: testing one bit. *)
Lemma land_pow2_truth a k :
  0 <= k -> truth (Z.land a (2 ^ k)) = Z.testbit a k.
Proof.
  intros Hk. destruct (Z.testbit a k) eqn:E.
  - apply truth_true. intros H0.
    assert (Z.testbit (Z.land a (2 ^ k)) k = true) as H1.
    { by rewrite Z.land_spec, E, Z.pow2_bits_true by lia. }
    by rewrite H0, Z.testbit_0_l in H1.
  - apply truth_false, Z.bits_inj_0. intros i. rewrite Z.land_spec.
    destruct (decide (i = k)) as [->|]; [by rewrite E|].
    by rewrite Z.pow2_bits_false, andb_false_r by lia.
Qed.

Create HintDb vt discriminated.
#[export] Hint Resolve wrapu_small wrapu_range : vt.

(** Destructs the outcome-monad equations of the context. *)
Ltac inv_ok :=
  repeat match goal with
  | H : Fault _ = Ok _ |- _ => discriminate H
  | H : Ok _ = Ok _ |- _ => injection H as H; try subst
  | H : _ ≫= _ = Ok _ |- _ =>
      apply bind_ok in H as (? & ? & H)
  | H : assertC _ = Ok _ |- _ => apply assertC_ok in H
  | H : readC _ _ = Ok _ |- _ => apply readC_ok in H
  | H : writeC _ _ _ = Ok _ |- _ => apply writeC_ok in H as [? ->]
  end.

(** Case analysis on the Z comparisons of the goal. *)
Ltac zcase :=
  match goal with
  | |- context [?a <? ?b] => destruct (Z.ltb_spec a b)
  | |- context [?a <=? ?b] => destruct (Z.leb_spec a b)
  | |- context [?a =? ?b] => destruct (Z.eqb_spec a b)
  end.
