(* ===== verification/HpackData.v ===== *)
(** * HPACK data: the types of hpack.h and vtc_h2_priv.h, the static header
    table (vtc_h2_stattbl.h) and the Huffman code (vtc_h2_enctbl.h). *)

From Stdlib Require Import ZArith Lia List String.
From stdpp Require Import base option numbers list.
From S2P Require Import Prelude.
#[local] Open Scope Z_scope.

(** The bytes of a C string literal. *)
Definition str (s : string) : list Z :=
  map (fun b => Z.of_N (Byte.to_N b)) (list_byte_of_string s).

(** [enum hpk_result]. *)
Inductive hpk_result := hpk_more | hpk_done | hpk_err.

(** [enum hpk_indexed]. *)
Inductive hpk_indexed := hpk_unset | hpk_idx | hpk_inc | hpk_not | hpk_never.

#[global] Instance hpk_result_eq_dec : EqDecision hpk_result.
Proof. solve_decision. Defined.
#[global] Instance hpk_indexed_eq_dec : EqDecision hpk_indexed.
Proof. solve_decision. Defined.

(** [struct hpk_txt]: [txt_ptr] is [None] for a NULL pointer, and otherwise the
    bytes the pointer addresses, without the NUL stored after them; the field
    [len] is their number ([txt_len]). *)
Record hpk_txt := mk_txt {
  txt_ptr : option (list Z);
  txt_huff : Z
}.

Definition txt_len (t : hpk_txt) : Z :=
  match txt_ptr t with Some s => Z.of_nat (List.length s) | None => 0 end.

(** [struct hpk_hdr]. *)
Record hpk_hdr := mk_hdr {
  hdr_key : hpk_txt;
  hdr_value : hpk_txt;
  hdr_t : hpk_indexed;
  hdr_i : Z
}.

Definition txt_null : hpk_txt := mk_txt None 0.

(** [struct hpk_iter] without its [ctx], which every operation takes as an
    argument of its own: [it_mem] holds the bytes from [orig] up to [end], and
    [it_buf] is [buf - orig]. *)
Record hpk_iter := mk_iter {
  it_mem : list Z;
  it_buf : nat
}.

(** [end - buf]. *)
Definition it_left (it : hpk_iter) : nat := List.length (it_mem it) - it_buf it.

(** [ITER_DONE(iter)]. *)
Definition ITER_DONE (it : hpk_iter) : hpk_result :=
  if decide (it_buf it = List.length (it_mem it)) then hpk_done else hpk_more.

(** [iter->buf < iter->end]. *)
Definition it_ltend (it : hpk_iter) : bool :=
  bool_decide (it_buf it < List.length (it_mem it))%nat.

(** [*iter->buf], [*iter->buf = x], [iter->buf += n]. *)
Definition it_get (it : hpk_iter) : outcome Z := readC (it_mem it) (it_buf it).

Definition it_put (it : hpk_iter) (x : Z) : outcome hpk_iter :=
  m ← writeC (it_mem it) (it_buf it) (u8 x); Ok (mk_iter m (it_buf it)).

Definition it_adv (it : hpk_iter) (n : nat) : hpk_iter :=
  mk_iter (it_mem it) (it_buf it + n).

(** The rows of vtc_h2_stattbl.h. *)
Definition stat_hdrs : list (string * string) :=
  [(":authority", EmptyString); (":method", "GET");
   (":method", "POST"); (":path", "/");
   (":path", "/index.html"); (":scheme", "http");
   (":scheme", "https"); (":status", "200");
   (":status", "204"); (":status", "206");
   (":status", "304"); (":status", "400");
   (":status", "404"); (":status", "500");
   ("accept-charset", EmptyString); ("accept-encoding", "gzip,deflate");
   ("accept-language", EmptyString); ("accept-ranges", EmptyString);
   ("accept", EmptyString); ("access-control-allow-origin", EmptyString);
   ("age", EmptyString); ("allow", EmptyString);
   ("authorization", EmptyString); ("cache-control", EmptyString);
   ("content-disposition", EmptyString); ("content-encoding", EmptyString);
   ("content-language", EmptyString); ("content-length", EmptyString);
   ("content-location", EmptyString); ("content-range", EmptyString);
   ("content-type", EmptyString); ("cookie", EmptyString);
   ("date", EmptyString); ("etag", EmptyString);
   ("expect", EmptyString); ("expires", EmptyString);
   ("from", EmptyString); ("host", EmptyString);
   ("if-match", EmptyString); ("if-modified-since", EmptyString);
   ("if-none-match", EmptyString); ("if-range", EmptyString);
   ("if-unmodified-since", EmptyString); ("last-modified", EmptyString);
   ("link", EmptyString); ("location", EmptyString);
   ("max-forwards", EmptyString); ("proxy-authenticate", EmptyString);
   ("proxy-authorization", EmptyString); ("range", EmptyString);
   ("referer", EmptyString); ("refresh", EmptyString);
   ("retry-after", EmptyString); ("server", EmptyString);
   ("set-cookie", EmptyString); ("strict-transport-security", EmptyString);
   ("transfer-encoding", EmptyString); ("user-agent", EmptyString);
   ("vary", EmptyString); ("via", EmptyString);
   ("www-authenticate", EmptyString)]%string.

(** One row of [sttbl]: [STAT_HDRS(j, k, v)] of vtc_h2_tbl.c. *)
Definition stat_hdr (j : Z) (kv : string * string) : hpk_hdr :=
  mk_hdr (mk_txt (Some (str kv.1)) 0) (mk_txt (Some (str kv.2)) 0) hpk_idx j.

(** [sttbl]: row 0 is the unused row with NULL texts. *)
Definition sttbl : list hpk_hdr :=
  mk_hdr txt_null txt_null hpk_idx 0 ::
  imap (fun n kv => stat_hdr (Z.of_nat n + 1) kv) stat_hdrs.

(** The rows of vtc_h2_enctbl.h, code and length of each byte: the first 128
    rows, and the rows from 128 on, whose last is EOS. *)
Definition coding_table_lo : list (Z * Z) :=
  [(0x1ff8, 13); (0x7fffd8, 23); (0xfffffe2, 28); (0xfffffe3, 28); (0xfffffe4, 28);
   (0xfffffe5, 28); (0xfffffe6, 28); (0xfffffe7, 28); (0xfffffe8, 28); (0xffffea, 24);
   (0x3ffffffc, 30); (0xfffffe9, 28); (0xfffffea, 28); (0x3ffffffd, 30); (0xfffffeb, 28);
   (0xfffffec, 28); (0xfffffed, 28); (0xfffffee, 28); (0xfffffef, 28); (0xffffff0, 28);
   (0xffffff1, 28); (0xffffff2, 28); (0x3ffffffe, 30); (0xffffff3, 28); (0xffffff4, 28);
   (0xffffff5, 28); (0xffffff6, 28); (0xffffff7, 28); (0xffffff8, 28); (0xffffff9, 28);
   (0xffffffa, 28); (0xffffffb, 28); (0x14, 6); (0x3f8, 10); (0x3f9, 10);
   (0xffa, 12); (0x1ff9, 13); (0x15, 6); (0xf8, 8); (0x7fa, 11);
   (0x3fa, 10); (0x3fb, 10); (0xf9, 8); (0x7fb, 11); (0xfa, 8);
   (0x16, 6); (0x17, 6); (0x18, 6); (0x0, 5); (0x1, 5);
   (0x2, 5); (0x19, 6); (0x1a, 6); (0x1b, 6); (0x1c, 6);
   (0x1d, 6); (0x1e, 6); (0x1f, 6); (0x5c, 7); (0xfb, 8);
   (0x7ffc, 15); (0x20, 6); (0xffb, 12); (0x3fc, 10); (0x1ffa, 13);
   (0x21, 6); (0x5d, 7); (0x5e, 7); (0x5f, 7); (0x60, 7);
   (0x61, 7); (0x62, 7); (0x63, 7); (0x64, 7); (0x65, 7);
   (0x66, 7); (0x67, 7); (0x68, 7); (0x69, 7); (0x6a, 7);
   (0x6b, 7); (0x6c, 7); (0x6d, 7); (0x6e, 7); (0x6f, 7);
   (0x70, 7); (0x71, 7); (0x72, 7); (0xfc, 8); (0x73, 7);
   (0xfd, 8); (0x1ffb, 13); (0x7fff0, 19); (0x1ffc, 13); (0x3ffc, 14);
   (0x22, 6); (0x7ffd, 15); (0x3, 5); (0x23, 6); (0x4, 5);
   (0x24, 6); (0x5, 5); (0x25, 6); (0x26, 6); (0x27, 6);
   (0x6, 5); (0x74, 7); (0x75, 7); (0x28, 6); (0x29, 6);
   (0x2a, 6); (0x7, 5); (0x2b, 6); (0x76, 7); (0x2c, 6);
   (0x8, 5); (0x9, 5); (0x2d, 6); (0x77, 7); (0x78, 7);
   (0x79, 7); (0x7a, 7); (0x7b, 7); (0x7ffe, 15); (0x7fc, 11);
   (0x3ffd, 14); (0x1ffd, 13); (0xffffffc, 28)].

Definition coding_table_hi : list (Z * Z) :=
  [(0xfffe6, 20); (0x3fffd2, 22); (0xfffe7, 20); (0xfffe8, 20); (0x3fffd3, 22);
   (0x3fffd4, 22); (0x3fffd5, 22); (0x7fffd9, 23); (0x3fffd6, 22); (0x7fffda, 23);
   (0x7fffdb, 23); (0x7fffdc, 23); (0x7fffdd, 23); (0x7fffde, 23); (0xffffeb, 24);
   (0x7fffdf, 23); (0xffffec, 24); (0xffffed, 24); (0x3fffd7, 22); (0x7fffe0, 23);
   (0xffffee, 24); (0x7fffe1, 23); (0x7fffe2, 23); (0x7fffe3, 23); (0x7fffe4, 23);
   (0x1fffdc, 21); (0x3fffd8, 22); (0x7fffe5, 23); (0x3fffd9, 22); (0x7fffe6, 23);
   (0x7fffe7, 23); (0xffffef, 24); (0x3fffda, 22); (0x1fffdd, 21); (0xfffe9, 20);
   (0x3fffdb, 22); (0x3fffdc, 22); (0x7fffe8, 23); (0x7fffe9, 23); (0x1fffde, 21);
   (0x7fffea, 23); (0x3fffdd, 22); (0x3fffde, 22); (0xfffff0, 24); (0x1fffdf, 21);
   (0x3fffdf, 22); (0x7fffeb, 23); (0x7fffec, 23); (0x1fffe0, 21); (0x1fffe1, 21);
   (0x3fffe0, 22); (0x1fffe2, 21); (0x7fffed, 23); (0x3fffe1, 22); (0x7fffee, 23);
   (0x7fffef, 23); (0xfffea, 20); (0x3fffe2, 22); (0x3fffe3, 22); (0x3fffe4, 22);
   (0x7ffff0, 23); (0x3fffe5, 22); (0x3fffe6, 22); (0x7ffff1, 23); (0x3ffffe0, 26);
   (0x3ffffe1, 26); (0xfffeb, 20); (0x7fff1, 19); (0x3fffe7, 22); (0x7ffff2, 23);
   (0x3fffe8, 22); (0x1ffffec, 25); (0x3ffffe2, 26); (0x3ffffe3, 26); (0x3ffffe4, 26);
   (0x7ffffde, 27); (0x7ffffdf, 27); (0x3ffffe5, 26); (0xfffff1, 24); (0x1ffffed, 25);
   (0x7fff2, 19); (0x1fffe3, 21); (0x3ffffe6, 26); (0x7ffffe0, 27); (0x7ffffe1, 27);
   (0x3ffffe7, 26); (0x7ffffe2, 27); (0xfffff2, 24); (0x1fffe4, 21); (0x1fffe5, 21);
   (0x3ffffe8, 26); (0x3ffffe9, 26); (0xffffffd, 28); (0x7ffffe3, 27); (0x7ffffe4, 27);
   (0x7ffffe5, 27); (0xfffec, 20); (0xfffff3, 24); (0xfffed, 20); (0x1fffe6, 21);
   (0x3fffe9, 22); (0x1fffe7, 21); (0x1fffe8, 21); (0x7ffff3, 23); (0x3fffea, 22);
   (0x3fffeb, 22); (0x1ffffee, 25); (0x1ffffef, 25); (0xfffff4, 24); (0xfffff5, 24);
   (0x3ffffea, 26); (0x7ffff4, 23); (0x3ffffeb, 26); (0x7ffffe6, 27); (0x3ffffec, 26);
   (0x3ffffed, 26); (0x7ffffe7, 27); (0x7ffffe8, 27); (0x7ffffe9, 27); (0x7ffffea, 27);
   (0x7ffffeb, 27); (0xffffffe, 28); (0x7ffffec, 27); (0x7ffffed, 27); (0x7ffffee, 27);
   (0x7ffffef, 27); (0x7fffff0, 27); (0x3ffffee, 26); (0x3fffffff, 30)].

(** [coding_table] of vtc_h2_hpack.c, with its final row of zeroes. *)
Definition coding_table : list (Z * Z) :=
  coding_table_lo ++ coding_table_hi ++ [(0, 0)].

Lemma it_ltend_true it :
  it_ltend it = true <-> (it_buf it < List.length (it_mem it))%nat.
Proof. unfold it_ltend. apply bool_decide_eq_true. Qed.

Lemma ITER_DONE_not_err it : ITER_DONE it <> hpk_err.
Proof. unfold ITER_DONE. by case_decide. Qed.

Lemma ITER_DONE_more it :
  (it_buf it < List.length (it_mem it))%nat -> ITER_DONE it = hpk_more.
Proof. intros. unfold ITER_DONE. rewrite decide_False by lia. done. Qed.

Lemma coding_table_length : List.length coding_table = 258%nat.
Proof. reflexivity. Qed.

Lemma sttbl_length : List.length sttbl = 62%nat.
Proof. reflexivity. Qed.

(** ** Iterators by what precedes and follows them *)

(** The iterator that stands between [pre] and [l]. *)
Definition it_at (pre l : list Z) : hpk_iter := mk_iter (pre ++ l) (List.length pre).

Lemma it_get_at pre x l : it_get (it_at pre (x :: l)) = Ok x.
Proof. apply readC_ok. simpl. by rewrite list_lookup_middle. Qed.

Lemma it_put_at pre x l y : it_put (it_at pre (x :: l)) y = Ok (it_at pre (u8 y :: l)).
Proof.
  unfold it_put, it_at. simpl.
  rewrite writeC_lt by (rewrite length_app; simpl; lia). simpl.
  replace (List.length pre) with (List.length pre + 0)%nat at 1 by lia.
  by rewrite insert_app_r.
Qed.

Lemma it_adv_at pre x l : it_adv (it_at pre (x :: l)) 1 = it_at (pre ++ [x]) l.
Proof.
  unfold it_adv, it_at. simpl. rewrite length_app, <- app_assoc. done.
Qed.

Lemma it_adv_at_app pre a l n :
  n = List.length a -> it_adv (it_at pre (a ++ l)) n = it_at (pre ++ a) l.
Proof.
  intros ->. unfold it_adv, it_at. simpl. rewrite length_app, <- app_assoc. done.
Qed.

Lemma it_ltend_at pre l : it_ltend (it_at pre l) = bool_decide (l <> []).
Proof.
  unfold it_ltend, it_at. simpl. rewrite length_app. apply bool_decide_ext.
  destruct l; simpl; split; intros; [lia|done|done|lia].
Qed.

Lemma it_left_at pre l : it_left (it_at pre l) = List.length l.
Proof. unfold it_left, it_at. simpl. rewrite length_app. lia. Qed.

Lemma ITER_DONE_at pre l :
  ITER_DONE (it_at pre l) = match l with [] => hpk_done | _ => hpk_more end.
Proof.
  unfold ITER_DONE, it_at. simpl. rewrite length_app.
  destruct l; simpl; case_decide; done || lia.
Qed.

Lemma it_drop_at pre l n :
  drop (List.length pre + n) (it_mem (it_at pre l)) = drop n l.
Proof. simpl. by rewrite <- drop_drop, drop_app_length. Qed.

Lemma drop_S_middle {A} (l : list A) x k : drop (S (List.length l)) (l ++ x :: k) = k.
Proof. by rewrite (cons_middle x), app_assoc, drop_app_length' by (rewrite length_app; simpl; lia). Qed.

(** Moving [buf] back to where [a] starts. *)
Lemma it_at_rewind pre a l :
  mk_iter (it_mem (it_at (pre ++ a) l)) (List.length pre) = it_at pre (a ++ l).
Proof. unfold it_at. simpl. by rewrite <- app_assoc. Qed.

(** Every iterator whose [buf] is not past its [end] has this form. *)
Lemma it_at_intro it :
  (it_buf it <= List.length (it_mem it))%nat ->
  it = it_at (take (it_buf it) (it_mem it)) (drop (it_buf it) (it_mem it)).
Proof.
  intros H. unfold it_at. rewrite take_drop, length_take_le by done. by destruct it.
Qed.

Create Rewrite HintDb hpack.
#[export] Hint Rewrite it_get_at it_put_at it_adv_at it_ltend_at it_left_at : hpack.
