(* ===== verification/HpackInt.v ===== *)
(** * HPACK integers: [num_decode] and [num_encode] of vtc_h2_hpack.c. *)

From Stdlib Require Import ZArith Lia.
From stdpp Require Import base option numbers list.
From S2P Require Import Prelude HpackData.
#[local] Open Scope Z_scope.

(** ** The code *)

(** The [do ... while] loop of [num_decode]: [rest] is what the buffer holds
    after [*iter->buf]. *)
Fixpoint num_decode_loop (rest : list Z) (result shift : Z) (it : hpk_iter) :
    outcome (hpk_result * Z * hpk_iter) :=
  let it := it_adv it 1 in
  match rest with
  | [] => Ok (hpk_err, result, it)
  | b :: rest' =>
      if 32 <=? shift then Fault FShift
      else if Z.shiftr (UINT32_MAX - result) shift <? Z.land b 127
      then Ok (hpk_err, result, it)
      else
        let result := u32 (result + u32 (Z.shiftl (Z.land b 127) shift)) in
        let shift := u8 (shift + 7) in
        if truth (Z.land b 128) then num_decode_loop rest' result shift it
        else
          let it := it_adv it 1 in
          Ok (ITER_DONE it, result, it)
  end.

Definition num_decode (it : hpk_iter) (prefix : Z) :
    outcome (hpk_result * Z * hpk_iter) :=
  _ ← assertC (it_ltend it);
  _ ← assertC (truth prefix);
  _ ← assertC (prefix <=? 8);
  b ← it_get it;
  let result := Z.land b (Z.shiftr 255 (8 - prefix)) in
  if result <? Z.shiftl 1 prefix - 1 then
    let it := it_adv it 1 in
    Ok (ITER_DONE it, result, it)
  else num_decode_loop (drop (S (it_buf it)) (it_mem it)) result 0 it.

(** The [do ... while] loop of [num_encode]: [room] is [end - buf - 1]. *)
Fixpoint num_encode_loop (room : nat) (num : Z) (it : hpk_iter) :
    outcome (hpk_result * hpk_iter) :=
  let it := it_adv it 1 in
  match room with
  | O => Ok (hpk_err, it)
  | S room' =>
      it ← it_put it (num `mod` 128);
      b ← it_get it;
      it ← it_put it (Z.lor b 128);
      let num := num `div` 128 in
      if truth num then num_encode_loop room' num it
      else
        b ← it_get it;
        it ← it_put it (Z.land b 127);
        let it := it_adv it 1 in
        Ok (ITER_DONE it, it)
  end.

Definition num_encode (it : hpk_iter) (prefix num : Z) :
    outcome (hpk_result * hpk_iter) :=
  _ ← assertC (truth prefix);
  _ ← assertC (prefix <=? 8);
  _ ← assertC (it_ltend it);
  let pmax := u8 (Z.shiftl 1 prefix - 1) in
  b ← it_get it;
  it ← it_put it (Z.land b (Z.shiftl 255 prefix));
  b ← it_get it;
  if num <=? pmax then
    it ← it_put it (Z.lor b num);
    let it := it_adv it 1 in
    Ok (ITER_DONE it, it)
  else if bool_decide (it_left it < 2)%nat then Ok (hpk_err, it)
  else
    it ← it_put it (Z.lor b pmax);
    num_encode_loop (it_left it - 1) (num - pmax) it.

(** Small runs: RFC 7541 appendix C.1. *)
Example num_decode_1337 :
  num_decode (mk_iter [31; 154; 10; 0] 0) 5 =
    Ok (hpk_more, 1337, mk_iter [31; 154; 10; 0] 3).
Proof. reflexivity. Qed.

Example num_encode_1337 :
  num_encode (mk_iter [224; 0; 0; 0] 0) 5 1337 =
    Ok (hpk_more, mk_iter [255; 154; 10; 0] 3).
Proof. reflexivity. Qed.

(** ** The representation of RFC 7541 section 5.1 *)

(** The continuation bytes of [n], least significant group first; [k] bytes
    suffice for [n < 128 ^ k]. *)
Fixpoint varint (k : nat) (n : Z) : list Z :=
  match k with
  | O => []
  | S k => if n <? 128 then [n] else (n `mod` 128 + 128) :: varint k (n `div` 128)
  end.

(** [n] with a [p]-bit prefix, in an octet whose other bits are [hi]. *)
Definition rfc_int (p hi n : Z) : list Z :=
  if n <? 2 ^ p - 1 then [hi + n]
  else (hi + (2 ^ p - 1)) :: varint 5 (n - (2 ^ p - 1)).

(** The bits of an octet above its [p]-bit prefix. *)
Definition hi_bits (p b : Z) : Z := b `div` 2 ^ p * 2 ^ p.

Lemma varint_length_pos k n : (0 < k)%nat -> (0 < List.length (varint k n))%nat.
Proof. destruct k; simpl; [lia|]. zcase; simpl; lia. Qed.

(** The prefixes are the numbers from 1 to 8. *)
Ltac prefix_cases p :=
  let H := fresh in
  assert (p = 1 \/ p = 2 \/ p = 3 \/ p = 4 \/ p = 5 \/ p = 6 \/ p = 7 \/ p = 8)
    as H by lia;
  destruct H as [-> | [-> | [-> | [-> | [-> | [-> | [-> | ->]]]]]]].

Lemma prefix_mask p : 1 <= p <= 8 -> Z.shiftr 255 (8 - p) = 2 ^ p - 1.
Proof. intros. by prefix_cases p. Qed.

Lemma prefix_max p : 1 <= p <= 8 -> u8 (Z.shiftl 1 p - 1) = 2 ^ p - 1.
Proof. intros. by prefix_cases p. Qed.

Lemma prefix_shift p : 1 <= p <= 8 -> Z.shiftl 1 p = 2 ^ p.
Proof. intros. by prefix_cases p. Qed.

Lemma hi_bits_range p b : 1 <= p <= 8 -> 0 <= b < 256 ->
  0 <= hi_bits p b /\ hi_bits p b <= 256 - 2 ^ p /\ hi_bits p b `mod` 2 ^ p = 0.
Proof.
  intros Hp Hb. unfold hi_bits. split_and!; [| |apply Z.mod_mul; lia].
  - apply Z.mul_nonneg_nonneg; [apply Z.div_pos|]; lia.
  - prefix_cases p; simpl Z.pow; Z.div_mod_to_equations; lia.
Qed.

(** [*iter->buf & (0xff << prefix)]. *)
Lemma land_hi_bits p b : 1 <= p <= 8 -> 0 <= b < 256 ->
  u8 (Z.land b (Z.shiftl 255 p)) = hi_bits p b.
Proof.
  intros Hp Hb. pose proof (hi_bits_range p b Hp Hb) as (?&?&?).
  assert (0 < 2 ^ p) by lia.
  rewrite <- (wrapu_small 8 (hi_bits p b)) by lia. unfold wrapu, hi_bits.
  rewrite <- !Z.land_ones, <- Z.shiftr_div_pow2, <- Z.shiftl_mul_pow2 by lia.
  apply Z.bits_inj'. intros n Hn.
  rewrite !Z.land_spec. destruct (decide (n < 8)).
  2:{ by rewrite !Z.ones_spec_high, !andb_false_r by lia. }
  rewrite !Z.ones_spec_low, !andb_true_r by lia. rewrite !Z.shiftl_spec by lia.
  destruct (decide (n < p)).
  - by rewrite !(Z.testbit_neg_r _ (n - p)), andb_false_r by lia.
  - rewrite Z.shiftr_spec by lia. replace (n - p + p) with n by lia.
    change 255 with (Z.ones 8). by rewrite Z.ones_spec_low, andb_true_r by lia.
Qed.

Lemma div128_bound n m : 0 <= n < 128 * m -> 0 <= n `div` 128 < m.
Proof. intros. Z.div_mod_to_equations. lia. Qed.

Lemma lor_128 r : 0 <= r < 128 -> Z.lor r 128 = r + 128.
Proof. intros. rewrite Z.lor_comm, (lor_add _ _ 7); [lia|lia|lia|reflexivity]. Qed.

Lemma land_127 r : Z.land r 127 = r `mod` 128.
Proof. change 127 with (2 ^ 7 - 1). by rewrite land_low_mod by lia. Qed.

Lemma land_127_128 r : Z.land (r + 128) 127 = r `mod` 128.
Proof. rewrite land_127. Z.div_mod_to_equations. lia. Qed.

Lemma truth_land_128 r : 0 <= r < 256 -> truth (Z.land r 128) = (128 <=? r).
Proof.
  intros. change 128 with (2 ^ 7). rewrite land_pow2_truth by lia.
  rewrite Z.testbit_eqb by lia. change (2 ^ 7) with 128.
  apply eq_true_iff_eq. rewrite Z.eqb_eq, Z.leb_le. Z.div_mod_to_equations. lia.
Qed.

(** ** The loops compute the representation *)

Lemma num_encode_loop_ok k n tail pre x :
  0 <= n < 128 ^ Z.of_nat k -> (0 < k)%nat ->
  (List.length (varint k n) <= List.length tail)%nat ->
  let it := it_at (pre ++ x :: varint k n) (drop (List.length (varint k n)) tail) in
  num_encode_loop (List.length tail) n (it_at pre (x :: tail)) = Ok (ITER_DONE it, it).
Proof.
  revert n tail pre x. induction k as [|k IH]; [lia|].
  intros n [|y tail] pre x Hn Hk Hlen it.
  { pose proof (varint_length_pos (S k) n Hk). cbn [List.length] in Hlen. lia. }
  rewrite Nat2Z.inj_succ, Z.pow_succ_r in Hn by lia.
  assert (0 <= n `mod` 128 < 128) by (apply Z.mod_pos_bound; lia).
  subst it. cbn [num_encode_loop List.length]. autorewrite with hpack.
  simpl mbind. autorewrite with hpack. simpl mbind. autorewrite with hpack.
  rewrite (wrapu_small 8 (n `mod` 128)), lor_128 by lia.
  simpl mbind. rewrite (wrapu_small 8 (n `mod` 128 + 128)) by lia.
  cbn [varint] in *. zcase.
  - rewrite (Z.div_small n 128) by lia. change (truth 0) with false. cbv iota.
    autorewrite with hpack. simpl mbind. autorewrite with hpack. simpl mbind.
    rewrite land_127_128, Z.mod_mod, (Z.mod_small n), (wrapu_small 8 n) by lia.
    autorewrite with hpack. by rewrite <- app_assoc.
  - assert (truth (n `div` 128) = true) as ->.
    { apply truth_true. Z.div_mod_to_equations. lia. }
    destruct k as [|k]; [change (128 ^ Z.of_nat 0) with 1 in Hn; lia|].
    cbn [List.length] in Hlen.
    rewrite IH; [| by apply div128_bound | lia | lia].
    by rewrite <- app_assoc.
Qed.

Lemma num_encode_loop_full k n tail pre x :
  0 <= n < 128 ^ Z.of_nat k -> (0 < k)%nat ->
  (List.length tail < List.length (varint k n))%nat ->
  exists it, num_encode_loop (List.length tail) n (it_at pre (x :: tail)) = Ok (hpk_err, it).
Proof.
  revert n tail pre x. induction k as [|k IH]; [lia|].
  intros n [|y tail] pre x Hn Hk Hlen; [by eexists|].
  rewrite Nat2Z.inj_succ, Z.pow_succ_r in Hn by lia.
  cbn [num_encode_loop List.length]. autorewrite with hpack.
  simpl mbind. autorewrite with hpack. simpl mbind. autorewrite with hpack.
  simpl mbind. cbn [varint] in *. destruct (Z.ltb_spec n 128); [simpl in Hlen; lia|].
  assert (truth (n `div` 128) = true) as ->.
  { apply truth_true. Z.div_mod_to_equations. lia. }
  destruct k as [|k]; [change (128 ^ Z.of_nat 0) with 1 in Hn; lia|].
  apply IH; [by apply div128_bound | lia | cbn [List.length] in Hlen; lia].
Qed.

Lemma num_decode_loop_ok k n post pre x result shift :
  0 <= n < 128 ^ Z.of_nat k -> (0 < k)%nat -> 0 <= result -> 0 <= shift ->
  shift + 7 * Z.of_nat k <= 35 -> result + n * 2 ^ shift <= UINT32_MAX ->
  let it := it_at (pre ++ x :: varint k n) post in
  num_decode_loop (varint k n ++ post) result shift (it_at pre (x :: varint k n ++ post)) =
    Ok (ITER_DONE it, result + n * 2 ^ shift, it).
Proof.
  revert n pre x result shift. induction k as [|k IH]; [lia|].
  intros n pre x result shift Hn Hk Hr Hs Hsk Hmax it. subst it.
  rewrite Nat2Z.inj_succ, Z.pow_succ_r in Hn by lia.
  assert (0 <= n `mod` 128 < 128) by (apply Z.mod_pos_bound; lia).
  assert (0 < 2 ^ shift) by lia.
  assert (n = 128 * (n `div` 128) + n `mod` 128) as Hdm by (apply Z.div_mod; lia).
  assert (0 <= n `div` 128) by (apply Z.div_pos; lia).
  assert (0 <= n `div` 128 * 2 ^ shift) by nia.
  assert (result + (n `mod` 128) * 2 ^ shift <= UINT32_MAX) as Hm by nia.
  assert (forall b rest, Z.land b 127 = n `mod` 128 ->
    (32 <=? shift) = false /\
    (Z.shiftr (UINT32_MAX - result) shift <? Z.land b 127) = false /\
    u32 (result + u32 (Z.shiftl (Z.land b 127) shift)) = result + (n `mod` 128) * 2 ^ shift
    /\ u8 (shift + 7) = shift + 7
    /\ it_adv (it_at pre (x :: b :: rest)) 1 = it_at (pre ++ [x]) (b :: rest)) as Hstep.
  { intros b rest Hb. rewrite Hb. unfold UINT32_MAX in *. split_and!.
    - apply Z.leb_gt. lia.
    - apply Z.ltb_ge. rewrite Z.shiftr_div_pow2 by lia.
      apply Z.div_le_lower_bound; lia.
    - rewrite Z.shiftl_mul_pow2, (wrapu_small 32 (_ * _)), wrapu_small by nia. done.
    - apply wrapu_small. lia.
    - by autorewrite with hpack. }
  cbn [varint]. destruct (Z.ltb_spec n 128).
  - simpl app. cbn [num_decode_loop].
    destruct (Hstep n post) as (-> & -> & -> & -> & ->).
    { rewrite land_127. done. }
    rewrite truth_land_128 by lia. rewrite (proj2 (Z.leb_gt 128 n)) by lia.
    rewrite it_adv_at, (Z.mod_small n) by lia. by rewrite <- app_assoc.
  - simpl app. cbn [num_decode_loop].
    destruct (Hstep (n `mod` 128 + 128) (varint k (n `div` 128) ++ post))
      as (-> & -> & -> & -> & ->).
    { rewrite land_127_128. by rewrite Z.mod_mod by lia. }
    rewrite truth_land_128 by lia. rewrite (proj2 (Z.leb_le 128 _)) by lia.
    assert (2 ^ (shift + 7) = 128 * 2 ^ shift) as Hp.
    { rewrite Z.pow_add_r by lia. change (2 ^ 7) with 128. lia. }
    destruct k as [|k]; [change (128 ^ Z.of_nat 0) with 1 in Hn; lia|].
    rewrite IH; [|by apply div128_bound|lia|nia|lia|lia|rewrite Hp; nia].
    rewrite <- app_assoc. simpl app. do 2 f_equal. f_equal. rewrite Hp. nia.
Qed.

(** ** The functions compute the representation *)

Lemma rfc_int_nonempty p hi n : rfc_int p hi n <> [].
Proof. unfold rfc_int. by zcase. Qed.

Lemma pmax_bound p n : 1 <= p <= 8 -> 2 ^ p - 1 <= n -> n <= UINT32_MAX ->
  0 <= n - (2 ^ p - 1) < 128 ^ Z.of_nat 5.
Proof.
  intros Hp Hn Hmax. unfold UINT32_MAX in *.
  assert (0 < 2 ^ p) by (apply Z.pow_pos_nonneg; lia).
  change (128 ^ Z.of_nat 5) with 34359738368. lia.
Qed.

Section num_encode.
Context (p n b : Z) (pre tail : list Z).
Hypotheses (Hp : 1 <= p <= 8) (Hb : 0 <= b < 256) (Hn : 0 <= n <= UINT32_MAX).
Let code := rfc_int p (hi_bits p b) n.
Let it := it_at (pre ++ code) (drop (List.length code) (b :: tail)).

(** The guards of [num_encode], and its masking of the first byte. *)
Lemma num_encode_first :
  num_encode (it_at pre (b :: tail)) p n =
    if n <=? 2 ^ p - 1 then
      let it := it_at (pre ++ [hi_bits p b + n]) tail in Ok (ITER_DONE it, it)
    else if bool_decide (S (List.length tail) < 2)%nat
    then Ok (hpk_err, it_at pre (hi_bits p b :: tail))
    else num_encode_loop (List.length tail) (n - (2 ^ p - 1))
           (it_at pre (hi_bits p b + (2 ^ p - 1) :: tail)).
Proof.
  destruct (hi_bits_range p b Hp Hb) as (Hh1 & Hh2 & Hh3).
  assert (0 < 2 ^ p) by (apply Z.pow_pos_nonneg; lia).
  unfold num_encode. rewrite (assertC_true (truth p)) by (apply truth_true; lia).
  rewrite (assertC_true (p <=? 8)) by (apply Z.leb_le; lia). simpl mbind.
  autorewrite with hpack. rewrite bool_decide_eq_true_2 by done. simpl mbind.
  autorewrite with hpack. simpl mbind. autorewrite with hpack. simpl mbind.
  autorewrite with hpack. simpl mbind. rewrite land_hi_bits, prefix_max by lia.
  zcase.
  - rewrite (lor_add _ _ p) by lia. autorewrite with hpack. simpl mbind.
    rewrite (wrapu_small 8) by lia. by autorewrite with hpack.
  - rewrite (lor_add _ _ p) by lia. cbn [List.length]. case_bool_decide; [done|].
    simpl mbind. rewrite (wrapu_small 8), it_left_at by lia. cbn [List.length].
    f_equal. lia.
Qed.

Lemma num_encode_ok :
  n <> 2 ^ p - 1 -> (List.length code <= S (List.length tail))%nat ->
  num_encode (it_at pre (b :: tail)) p n = Ok (ITER_DONE it, it).
Proof.
  intros Hne Hlen. rewrite num_encode_first. subst it code. unfold rfc_int in *.
  destruct (Z.leb_spec n (2 ^ p - 1)).
  - by rewrite (proj2 (Z.ltb_lt n (2 ^ p - 1))) by lia.
  - destruct (Z.ltb_spec n (2 ^ p - 1)); [lia|]. cbn [List.length drop] in *.
    pose proof (varint_length_pos 5 (n - (2 ^ p - 1)) ltac:(lia)).
    rewrite bool_decide_eq_false_2 by lia.
    rewrite (num_encode_loop_ok 5); [done| |lia|lia]. apply pmax_bound; lia.
Qed.

Lemma num_encode_full :
  n <> 2 ^ p - 1 -> (S (List.length tail) < List.length code)%nat ->
  exists it', num_encode (it_at pre (b :: tail)) p n = Ok (hpk_err, it').
Proof.
  intros Hne Hlen. rewrite num_encode_first. subst code. unfold rfc_int in *.
  destruct (Z.leb_spec n (2 ^ p - 1)).
  - rewrite (proj2 (Z.ltb_lt n (2 ^ p - 1))) in Hlen by lia. simpl in Hlen. lia.
  - destruct (Z.ltb_spec n (2 ^ p - 1)); [lia|]. cbn [List.length] in *.
    case_bool_decide; [by eexists|].
    apply (num_encode_loop_full 5); [|lia|lia]. apply pmax_bound; lia.
Qed.
End num_encode.

(** The guards of [num_decode], and the prefix of its first byte. *)
Lemma num_decode_first p pre hi lo post :
  1 <= p <= 8 -> 0 <= lo < 2 ^ p -> hi `mod` 2 ^ p = 0 ->
  num_decode (it_at pre (hi + lo :: post)) p =
    if lo <? 2 ^ p - 1 then
      let it := it_at (pre ++ [hi + lo]) post in Ok (ITER_DONE it, lo, it)
    else num_decode_loop post lo 0 (it_at pre (hi + lo :: post)).
Proof.
  intros Hp Hlo Hhi. unfold num_decode. autorewrite with hpack.
  rewrite (assertC_true (truth p)) by (apply truth_true; lia).
  rewrite (assertC_true (p <=? 8)) by (apply Z.leb_le; lia).
  rewrite bool_decide_eq_true_2 by done. simpl mbind. autorewrite with hpack.
  simpl mbind. rewrite prefix_mask, prefix_shift, land_low_mod by lia.
  replace ((hi + lo) `mod` 2 ^ p) with lo.
  2:{ rewrite <- Zplus_mod_idemp_l, Hhi, Z.add_0_l, Z.mod_small; lia. }
  zcase; [by autorewrite with hpack|]. f_equal. simpl.
  by rewrite (drop_S_middle pre).
Qed.

Lemma num_decode_ok p pre hi n post :
  1 <= p <= 8 -> hi `mod` 2 ^ p = 0 -> 0 <= n <= UINT32_MAX ->
  let it := it_at (pre ++ rfc_int p hi n) post in
  num_decode (it_at pre (rfc_int p hi n ++ post)) p = Ok (ITER_DONE it, n, it).
Proof.
  intros Hp Hhi Hn it. subst it. unfold rfc_int.
  assert (0 < 2 ^ p) by (apply Z.pow_pos_nonneg; lia).
  destruct (Z.ltb_spec n (2 ^ p - 1)); rewrite <- app_comm_cons.
  - rewrite num_decode_first by lia. by rewrite (proj2 (Z.ltb_lt n (2 ^ p - 1))) by lia.
  - rewrite num_decode_first by lia. rewrite Z.ltb_irrefl.
    assert (2 ^ p - 1 + (n - (2 ^ p - 1)) * 2 ^ 0 = n) as Heq by (rewrite Z.pow_0_r; lia).
    rewrite num_decode_loop_ok by first [apply pmax_bound; lia | lia]. by rewrite Heq.
Qed.

(** ** Decoding any input *)

(** What a decoding step may do to its iterator: [buf] only moves forward and
    never past [end]. *)
Definition it_moves (it it' : hpk_iter) : Prop :=
  it_mem it' = it_mem it /\ (it_buf it < it_buf it' <= List.length (it_mem it))%nat.

Lemma it_moves_adv_trans it it' :
  it_moves (it_adv it 1) it' -> it_moves it it'.
Proof. unfold it_moves. simpl. intuition lia. Qed.

Lemma it_moves_adv it :
  (it_buf it < List.length (it_mem it))%nat -> it_moves it (it_adv it 1).
Proof. intros. split; simpl; [done|lia]. Qed.

Lemma num_decode_loop_total rest result shift j it :
  0 <= result <= UINT32_MAX -> shift = 7 * j -> 0 <= j <= 5 ->
  (it_buf it + 1 + List.length rest = List.length (it_mem it))%nat ->
  match num_decode_loop rest result shift it with
  | Ok (r, n, it') =>
      0 <= n <= UINT32_MAX /\ it_moves it it' /\ (r = hpk_err \/ r = ITER_DONE it')
  | Fault f => f = FShift /\ 35 < shift + 7 * Z.of_nat (List.length rest)
  end.
Proof.
  revert result shift j it. induction rest as [|b rest IH];
    intros result shift j it Hr Hs Hj Hlen; cbn [num_decode_loop List.length] in *.
  { split_and!; [lia|lia|apply it_moves_adv; lia|by left]. }
  assert (0 <= Z.land b 127 < 128).
  { rewrite land_127. apply Z.mod_pos_bound. lia. }
  destruct (Z.leb_spec 32 shift); [split; [done|lia]|].
  zcase.
  { split_and!; [lia|lia|apply it_moves_adv; lia|by left]. }
  assert (0 < 2 ^ shift) by (apply Z.pow_pos_nonneg; lia).
  assert (result + Z.land b 127 * 2 ^ shift <= UINT32_MAX) as Hle.
  { rewrite Z.shiftr_div_pow2 in * by lia.
    pose proof (Z.mul_div_le (UINT32_MAX - result) (2 ^ shift)). nia. }
  assert (u32 (result + u32 (Z.shiftl (Z.land b 127) shift)) =
    result + Z.land b 127 * 2 ^ shift) as Heq.
  { unfold UINT32_MAX in *. rewrite Z.shiftl_mul_pow2 by lia.
    rewrite (wrapu_small 32 (_ * _)), wrapu_small by nia. done. }
  rewrite Heq, (wrapu_small 8 (shift + 7)) by lia.
  destruct (truth (Z.land b 128)).
  - specialize (IH (result + Z.land b 127 * 2 ^ shift) (shift + 7) (j + 1) (it_adv it 1)
      ltac:(nia) ltac:(lia) ltac:(lia) ltac:(simpl; lia)).
    destruct (num_decode_loop rest _ _ _) as [[[r n] it']|f].
    + destruct IH as (? & ? & ?). eauto using it_moves_adv_trans.
    + intuition lia.
  - split_and!; [nia|nia| |by right].
    apply it_moves_adv_trans, it_moves_adv. simpl. lia.
Qed.

(** Every octet is its bits above the prefix and its prefix. *)
Lemma octet_split p b : 1 <= p <= 8 -> 0 <= b < 256 ->
  b = hi_bits p b + b `mod` 2 ^ p /\ 0 <= b `mod` 2 ^ p < 2 ^ p.
Proof.
  intros. assert (0 < 2 ^ p) by (apply Z.pow_pos_nonneg; lia).
  split; [|by apply Z.mod_pos_bound]. unfold hi_bits.
  rewrite Z.mul_comm. apply Z.div_mod. lia.
Qed.

Lemma num_decode_total_at p pre b rest :
  1 <= p <= 8 -> 0 <= b < 256 ->
  match num_decode (it_at pre (b :: rest)) p with
  | Ok (r, n, it') =>
      0 <= n <= UINT32_MAX /\ it_moves (it_at pre (b :: rest)) it' /\
      (r = hpk_err \/ r = ITER_DONE it')
  | Fault f => f = FShift /\ (6 <= List.length rest)%nat
  end.
Proof.
  intros Hp Hb. destruct (octet_split p b Hp Hb) as [Heq Hlo].
  destruct (hi_bits_range p b Hp Hb) as (?&?&?).
  assert (2 ^ p <= 256) by (change 256 with (2 ^ 8); apply Z.pow_le_mono_r; lia).
  assert (it_buf (it_at pre (b :: rest)) + 1 + List.length rest =
    List.length (it_mem (it_at pre (b :: rest))))%nat as Hlen.
  { simpl. rewrite length_app. simpl. lia. }
  pose proof (num_decode_first p pre (hi_bits p b) (b `mod` 2 ^ p) rest) as Hf.
  rewrite <- Heq in Hf. rewrite Hf by done. zcase.
  - split_and!; [unfold UINT32_MAX; lia|unfold UINT32_MAX; lia| |by right].
    rewrite <- it_adv_at. apply it_moves_adv. lia.
  - pose proof (num_decode_loop_total rest (b `mod` 2 ^ p) 0 0 (it_at pre (b :: rest))
      ltac:(unfold UINT32_MAX; lia) ltac:(lia) ltac:(lia) Hlen) as H'.
    destruct num_decode_loop as [[[r n] it']|f]; [done|]. intuition lia.
Qed.

(** ** Properties *)

(** C10: an HPACK integer survives the trip through [num_encode] and
    [num_decode]: whatever the prefix length, the bits above the prefix, the
    number (other than the largest prefix value) and the bytes that follow, if
    the buffer has room for the RFC 7541 representation then [num_encode]
    writes exactly that representation over the old bytes, and [num_decode]
    started where the encoder started reads the number back and stops where
    the encoder stopped. *)
Theorem num_roundtrip p n b pre tail :
  1 <= p <= 8 -> 0 <= b < 256 -> 0 <= n <= UINT32_MAX -> n <> 2 ^ p - 1 ->
  let code := rfc_int p (hi_bits p b) n in
  (List.length code <= S (List.length tail))%nat ->
  exists it, num_encode (it_at pre (b :: tail)) p n = Ok (ITER_DONE it, it) /\
    it = it_at (pre ++ code) (drop (List.length code) (b :: tail)) /\
    num_decode (mk_iter (it_mem it) (List.length pre)) p = Ok (ITER_DONE it, n, it).
Proof.
  intros Hp Hb Hn Hne code Hlen.
  destruct (hi_bits_range p b Hp Hb) as (?&?&?).
  eexists. split; [by apply num_encode_ok|]. split; [done|].
  rewrite it_at_rewind. by apply num_decode_ok.
Qed.

Lemma num_roundtrip_witness :
  exists it, num_encode (it_at [9] [240; 0; 0; 0]) 4 300 = Ok (ITER_DONE it, it) /\
    it = it_at ([9] ++ [255; 157; 2]) [0] /\
    num_decode (mk_iter (it_mem it) 1) 4 = Ok (ITER_DONE it, 300, it).
Proof.
  apply (num_roundtrip 4 300 240 [9] [0; 0; 0]);
    [lia|lia|unfold UINT32_MAX; lia|simpl; lia|vm_compute; lia].
Defined.

(** [num_encode] never writes past [end]: when the representation does
    not fit in the buffer it reports [hpk_err], without any fault. *)
Theorem num_encode_no_room p n b pre tail :
  1 <= p <= 8 -> 0 <= b < 256 -> 0 <= n <= UINT32_MAX -> n <> 2 ^ p - 1 ->
  (S (List.length tail) < List.length (rfc_int p (hi_bits p b) n))%nat ->
  exists it, num_encode (it_at pre (b :: tail)) p n = Ok (hpk_err, it).
Proof. apply num_encode_full. Qed.

Lemma num_encode_no_room_witness :
  exists it, num_encode (it_at [] [0; 0]) 5 1337 = Ok (hpk_err, it).
Proof.
  apply (num_encode_no_room 5 1337 0 [] [0]);
    [lia|lia|unfold UINT32_MAX; lia|simpl; lia|vm_compute; lia].
Defined.

(** [num_decode] on arbitrary bytes: it keeps within the buffer, moves
    forward, and yields a 32-bit number and the status of the iterator or
    [hpk_err]; the one way for it to go wrong is a shift by more than 31, which
    takes six or more continuation bytes. *)
Theorem num_decode_total p pre b rest :
  1 <= p <= 8 -> 0 <= b < 256 ->
  match num_decode (it_at pre (b :: rest)) p with
  | Ok (r, n, it') =>
      0 <= n <= UINT32_MAX /\ it_moves (it_at pre (b :: rest)) it' /\
      (r = hpk_err \/ r = ITER_DONE it')
  | Fault f => f = FShift /\ (6 <= List.length rest)%nat
  end.
Proof. apply num_decode_total_at. Qed.

Lemma num_decode_total_witness :
  match num_decode (it_at [1] (255 :: [255; 255; 255; 255; 255])) 7 with
  | Ok (r, n, it') =>
      0 <= n <= UINT32_MAX /\ it_moves (it_at [1] (255 :: [255; 255; 255; 255; 255])) it' /\
      (r = hpk_err \/ r = ITER_DONE it')
  | Fault f => f = FShift /\ (6 <= 5)%nat
  end.
Proof. apply (num_decode_total 7 [1] 255 [255; 255; 255; 255; 255]); lia. Defined.

(** The largest prefix value is the exception to the round trip:
    [num_encode] writes [2 ^ p - 1] as the prefix alone, without the
    continuation byte RFC 7541 asks for, and the decoder takes the byte that
    follows for a continuation: with nothing after it the number is rejected,
    and a following byte [c < 128] is swallowed and added to the number. *)
Theorem num_encode_pmax p b pre c post :
  1 <= p <= 8 -> 0 <= b < 256 -> 0 <= c < 128 ->
  let n := 2 ^ p - 1 in
  let mem := pre ++ [hi_bits p b + n] in
  num_encode (it_at pre [b]) p n = Ok (hpk_done, mk_iter mem (S (List.length pre))) /\
  num_decode (mk_iter mem (List.length pre)) p =
    Ok (hpk_err, n, mk_iter mem (S (List.length pre))) /\
  exists it, num_decode (it_at pre (hi_bits p b + n :: c :: post)) p =
    Ok (ITER_DONE it, n + c, it).
Proof.
  intros Hp Hb Hc n mem. assert (0 < 2 ^ p) by (apply Z.pow_pos_nonneg; lia).
  assert (2 ^ p <= 256) by (change 256 with (2 ^ 8); apply Z.pow_le_mono_r; lia).
  destruct (hi_bits_range p b Hp Hb) as (?&?&?). subst n. split_and!.
  - rewrite num_encode_first by (done || unfold UINT32_MAX; lia). rewrite Z.leb_refl.
    subst mem. cbv zeta. rewrite ITER_DONE_at. unfold it_at.
    by rewrite app_nil_r, length_app, Nat.add_1_r.
  - change (mk_iter mem (List.length pre)) with (it_at pre [hi_bits p b + (2 ^ p - 1)]).
    rewrite num_decode_first by lia. rewrite Z.ltb_irrefl.
    cbn [num_decode_loop]. unfold it_adv. simpl. by rewrite Nat.add_1_r.
  - eexists. rewrite num_decode_first by lia. rewrite Z.ltb_irrefl.
    pose proof (num_decode_loop_ok 1 c post pre (hi_bits p b + (2 ^ p - 1)) (2 ^ p - 1) 0)
      as Hl. cbn [varint] in Hl. rewrite (proj2 (Z.ltb_lt c 128)) in Hl by lia.
    simpl app in Hl. rewrite Z.pow_0_r, Z.mul_1_r in Hl.
    rewrite Z.mul_1_r in Hl. apply Hl; unfold UINT32_MAX; lia.
Qed.

Lemma num_encode_pmax_witness :
  num_encode (it_at [] [0]) 7 127 = Ok (hpk_done, mk_iter [127] 1) /\
  num_decode (mk_iter [127] 0) 7 = Ok (hpk_err, 127, mk_iter [127] 1) /\
  exists it, num_decode (it_at [] (127 :: 5 :: [1])) 7 = Ok (ITER_DONE it, 127 + 5, it).
Proof. apply (num_encode_pmax 7 0 [] 5 [1]); lia. Defined.
