(* ===== verification/HpackTbl.v ===== *)
(** * The HPACK header tables: vtc_h2_tbl.c.

    The dynamic table is a list with the newest entry first, and its [size] and
    [maxsize] counters are 32 bits wide.  The second half of the file states the
    tables RFC 7541 describes, the dynamic one of section 4 and the static one of
    Appendix A, and that the code implements them. *)

From Stdlib Require Import ZArith Lia.
From Stdlib Require Import String.
From stdpp Require Import base option numbers list.
From S2P Require Import Prelude HpackData.
#[local] Open Scope Z_scope.

(** ** The code *)

(** [struct dynhdr]: the key and value texts of an entry, and the [i] that
    [HPK_GetHdr] stores in it ([None] while it is what [malloc] returned; the
    [huff] fields are never set nor read). *)
Record dynhdr := mk_dynhdr {
  dh_key : list Z;
  dh_value : list Z;
  dh_i : option Z
}.

(** [struct hpk_ctx], whose [sttbl] is always the static table. *)
Record hpk_ctx := mk_ctx {
  dyntbl : list dynhdr;
  maxsize : Z;
  size : Z
}.

(** What a [const struct hpk_hdr *] result of [HPK_GetHdr] gives access to. *)
Record hdr_ref := mk_ref {
  ref_key : option (list Z);
  ref_value : option (list Z);
  ref_i : Z
}.

Definition sttbl_ref (h : hpk_hdr) : hdr_ref :=
  mk_ref (txt_ptr (hdr_key h)) (txt_ptr (hdr_value h)) (hdr_i h).

Definition len (s : list Z) : Z := Z.of_nat (List.length s).

Definition pop_header (ctx : hpk_ctx) : outcome hpk_ctx :=
  match last (dyntbl ctx) with
  | None => Fault FAssert
  | Some h =>
      Ok (mk_ctx (removelast (dyntbl ctx)) (maxsize ctx)
            (u32 (size ctx - (len (dh_key h) + len (dh_value h) + 32))))
  end.

(** [while (!VTAILQ_EMPTY(&ctx->dyntbl) && cond) pop_header(ctx);] with [n]
    entries in the table. *)
Fixpoint pop_while (n : nat) (cond : hpk_ctx -> bool) (ctx : hpk_ctx) : outcome hpk_ctx :=
  match n with
  | O => Ok ctx
  | S n =>
      match dyntbl ctx with
      | [] => Ok ctx
      | _ =>
          if cond ctx then ctx ← pop_header ctx; pop_while n cond ctx else Ok ctx
      end
  end.

(** [VTAILQ_FOREACH(dh, ...) if (!idx--) break;]: the final [idx], and the
    position of [dh] unless the loop ran to the end of the list. *)
Fixpoint foreach_idx (l : list dynhdr) (n : nat) (idx : Z) : Z * option nat :=
  match l with
  | [] => (idx, None)
  | _ :: l =>
      if idx =? 0 then (u32 (idx - 1), Some n) else foreach_idx l (S n) (u32 (idx - 1))
  end.

(** The position [tbl_get_field] and [HPK_GetHdr] find for a dynamic [idx]. *)
Definition dyn_pos (ctx : hpk_ctx) (idx : Z) : option nat :=
  let '(idx, dh) := foreach_idx (dyntbl ctx) 0 (u32 (idx - 62)) in
  if truth idx then dh else None.

Definition HPK_GetHdr (ctx : hpk_ctx) (idx : Z) : outcome (option hdr_ref * hpk_ctx) :=
  if u32 (61 + size ctx) <? idx then Ok (None, ctx)
  else if idx <=? 61 then
    h ← readC sttbl (Z.to_nat idx); Ok (Some (sttbl_ref h), ctx)
  else
    match dyn_pos ctx idx with
    | None => Ok (None, ctx)
    | Some n =>
        dh ← readC (dyntbl ctx) n;
        let dh := mk_dynhdr (dh_key dh) (dh_value dh) (Some idx) in
        l ← writeC (dyntbl ctx) n dh;
        Ok (Some (mk_ref (Some (dh_key dh)) (Some (dh_value dh)) idx),
            mk_ctx l (maxsize ctx) (size ctx))
    end.

(** [tbl_get_field]: the text found, as its [ptr]. *)
Definition tbl_get_field (ctx : hpk_ctx) (idx : Z) (key : bool) :
    outcome (option (option (list Z))) :=
  if u32 (61 + size ctx) <? idx then Ok None
  else if idx <=? 61 then
    h ← readC sttbl (Z.to_nat idx);
    Ok (Some (txt_ptr (if key then hdr_key h else hdr_value h)))
  else
    match dyn_pos ctx idx with
    | None => Ok None
    | Some n =>
        dh ← readC (dyntbl ctx) n;
        Ok (Some (Some (if key then dh_key dh else dh_value dh)))
    end.

Definition tbl_get_key (ctx : hpk_ctx) (idx : Z) := tbl_get_field ctx idx true.
Definition tbl_get_value (ctx : hpk_ctx) (idx : Z) := tbl_get_field ctx idx false.

(** [memcpy(dst, src, len + 1)] out of a text: a NULL source faults. *)
Definition copy_txt (p : option (list Z)) : outcome (list Z) :=
  match p with Some s => Ok s | None => Fault FBounds end.

(** The key [push_header] takes: the header's own, or that of entry [oh->i]. *)
Definition push_key (ctx : hpk_ctx) (oh : hpk_hdr) :
    outcome (option (list Z) * hpk_ctx) :=
  match txt_ptr (hdr_key oh) with
  | Some k => Ok (Some k, ctx)
  | None =>
      _ ← assertC (truth (hdr_i oh));
      '(ih, ctx) ← HPK_GetHdr ctx (hdr_i oh);
      match ih with
      | None => Fault FAssert
      | Some ih => Ok (ref_key ih, ctx)
      end
  end.

Definition push_header (ctx : hpk_ctx) (oh : hpk_hdr) : outcome hpk_ctx :=
  _ ← assertC (size ctx <=? maxsize ctx);
  if negb (truth (maxsize ctx)) then Ok ctx
  else
    '(k, ctx) ← push_key ctx oh;
    let l := u32 (txt_len (hdr_value oh) + 32) in
    let l := u32 (l + txt_len (mk_txt k 0)) in
    ctx ← pop_while (List.length (dyntbl ctx))
            (fun ctx => u32 (maxsize ctx - size ctx) <? l) ctx;
    if l <=? u32 (maxsize ctx - size ctx) then
      '(k, ctx) ← push_key ctx oh;
      k ← copy_txt k;
      v ← copy_txt (txt_ptr (hdr_value oh));
      Ok (mk_ctx (mk_dynhdr k v None :: dyntbl ctx) (maxsize ctx) (u32 (size ctx + l)))
    else Ok ctx.

Definition HPK_ResizeTbl (ctx : hpk_ctx) (num : Z) : outcome (hpk_result * hpk_ctx) :=
  let ctx := mk_ctx (dyntbl ctx) num (size ctx) in
  ctx ← pop_while (List.length (dyntbl ctx)) (fun ctx => maxsize ctx <? size ctx) ctx;
  Ok (hpk_done, ctx).

Definition HPK_GetTblSize (ctx : hpk_ctx) : Z := size ctx.
Definition HPK_GetTblMaxSize (ctx : hpk_ctx) : Z := maxsize ctx.
Definition HPK_GetTblLength (ctx : hpk_ctx) : Z :=
  foldl (fun l _ => u32 (l + 1)) 0 (dyntbl ctx).

Definition HPK_NewCtx (max : Z) : hpk_ctx := mk_ctx [] max 0.

Definition HPK_FreeCtx (ctx : hpk_ctx) : outcome hpk_ctx :=
  pop_while (List.length (dyntbl ctx)) (fun _ => true) ctx.

(** ** The table of RFC 7541 section 4 *)

(** An entry without its bookkeeping, its size, and the size of a table. *)
Abbreviation entry := (list Z * list Z)%type.
Definition dh_entry (h : dynhdr) : entry := (dh_key h, dh_value h).
Definition entries (ctx : hpk_ctx) : list entry := dh_entry <$> dyntbl ctx.
Definition esize (e : entry) : Z := len e.1 + len e.2 + 32.
Definition tsize (l : list entry) : Z := foldr (fun e s => esize e + s) 0 l.

(** The newest entries of [l] that fit in [room]. *)
Fixpoint fit (room : Z) (l : list entry) : list entry :=
  match l with
  | [] => []
  | e :: l => if esize e <=? room then e :: fit (room - esize e) l else []
  end.

(** Adding an entry evicts the oldest ones until it fits, and an entry larger
    than the table empties it (section 4.4). *)
Definition rfc_add (max : Z) (e : entry) (l : list entry) : list entry :=
  if esize e <=? max then e :: fit (max - esize e) l else [].

(** Index [idx] of the combined table, with the static rows of the code, as the
    texts found. *)
Definition tbl_lookup (l : list entry) (idx : Z) : option (option (list Z) * option (list Z)) :=
  if idx <=? 61 then
    h ← sttbl !! Z.to_nat idx;
    Some (txt_ptr (hdr_key h), txt_ptr (hdr_value h))
  else e ← l !! Z.to_nat (idx - 62); Some (Some e.1, Some e.2).

(** The static table of RFC 7541, Appendix A: rows 1 to 16 with their values, and
    the names of rows 17 to 61, whose values are empty. *)
Definition rfc_static : list (string * string) :=
  [(":authority", EmptyString); (":method", "GET"); (":method", "POST");
   (":path", "/"); (":path", "/index.html"); (":scheme", "http");
   (":scheme", "https"); (":status", "200"); (":status", "204");
   (":status", "206"); (":status", "304"); (":status", "400");
   (":status", "404"); (":status", "500"); ("accept-charset", EmptyString);
   ("accept-encoding", "gzip, deflate")]%string ++
  map (fun k => (k, EmptyString))
  ["accept-language"; "accept-ranges"; "accept"; "access-control-allow-origin";
   "age"; "allow"; "authorization"; "cache-control"; "content-disposition";
   "content-encoding"; "content-language"; "content-length";
   "content-location"; "content-range"; "content-type"; "cookie"; "date";
   "etag"; "expect"; "expires"; "from"; "host"; "if-match";
   "if-modified-since"; "if-none-match"; "if-range"; "if-unmodified-since";
   "last-modified"; "link"; "location"; "max-forwards"; "proxy-authenticate";
   "proxy-authorization"; "range"; "referer"; "refresh"; "retry-after";
   "server"; "set-cookie"; "strict-transport-security"; "transfer-encoding";
   "user-agent"; "vary"; "via"; "www-authenticate"]%string.
(** Index [idx] of the combined table (section 2.3.3); row 0 is no entry. *)
Definition rfc_lookup (l : list entry) (idx : Z) : option entry :=
  if idx <=? 61 then
    if idx <=? 0 then None else kv ← rfc_static !! Z.to_nat (idx - 1); Some (str kv.1, str kv.2)
  else l !! Z.to_nat (idx - 62).
(** What the code has there: the value of row 16 lacks a blank. *)
Definition code_entry (idx : Z) (e : entry) : entry := (e.1, if idx =? 16 then str "gzip,deflate" else e.2).

Lemma tbl_lookup_rfc l idx : 0 < idx ->
  tbl_lookup l idx = (fun e => (Some e.1, Some e.2)) ∘ code_entry idx <$> rfc_lookup l idx.
Proof.
  intros H0. unfold tbl_lookup, rfc_lookup, code_entry. destruct (Z.leb_spec idx 61) as [H61|H61].
  - rewrite (proj2 (Z.leb_gt idx 0)) by lia.
    assert (Hall : forallb (fun n => bool_decide ((h ← sttbl !! S n; Some (txt_ptr (hdr_key h), txt_ptr (hdr_value h))) =
      (fun e => (Some e.1, Some e.2)) ∘ code_entry (Z.of_nat n + 1) <$> (kv ← rfc_static !! n; Some (str kv.1, str kv.2)))) (seq 0 61) = true) by (vm_compute; reflexivity).
    rewrite forallb_forall in Hall. specialize (Hall (Z.to_nat (idx - 1))). rewrite bool_decide_eq_true in Hall.
    replace (Z.to_nat idx) with (S (Z.to_nat (idx - 1))) by lia. rewrite Hall by (apply in_seq; lia). unfold code_entry. by replace (Z.of_nat (Z.to_nat (idx - 1)) + 1) with idx by lia.
  - destruct (l !! _) as [[k v]|]; [|done]. cbn. by rewrite (proj2 (Z.eqb_neq idx 16)) by lia.
Qed.

(** The counters of a context agree with its entries. *)
Record ctx_ok (ctx : hpk_ctx) : Prop := {
  ok_size : size ctx = tsize (entries ctx);
  ok_max : size ctx <= maxsize ctx <= UINT32_MAX
}.

Lemma len_nonneg s : 0 <= len s.
Proof. unfold len. lia. Qed.

Lemma esize_pos e : 32 <= esize e.
Proof. unfold esize. pose proof (len_nonneg e.1). pose proof (len_nonneg e.2). lia. Qed.

Lemma tsize_app l1 l2 : tsize (l1 ++ l2) = tsize l1 + tsize l2.
Proof. induction l1 as [|e l1 IH]; simpl; [done|]. unfold tsize in *. lia. Qed.

Lemma tsize_ge l : 32 * Z.of_nat (List.length l) <= tsize l.
Proof.
  induction l as [|e l IH]; simpl; [done|]. pose proof (esize_pos e).
  unfold tsize in *. lia.
Qed.

Lemma tsize_nonneg l : 0 <= tsize l.
Proof. pose proof (tsize_ge l). lia. Qed.

#[export] Hint Resolve len_nonneg esize_pos tsize_nonneg : vt.

Lemma fit_all room l : tsize l <= room -> fit room l = l.
Proof.
  revert room. induction l as [|e l IH]; intros room H; simpl in *; [done|].
  pose proof (tsize_nonneg l). zcase; [f_equal; apply IH|]; unfold tsize in *; lia.
Qed.

Lemma fit_snoc room l e : room < tsize (l ++ [e]) -> fit room (l ++ [e]) = fit room l.
Proof.
  revert room. induction l as [|e' l IH]; intros room H; simpl in *.
  - rewrite (proj2 (Z.leb_gt _ _)); [done|lia].
  - zcase; [f_equal; apply IH|done]. lia.
Qed.

Lemma fit_tsize room l : 0 <= room -> tsize (fit room l) <= room.
Proof.
  revert room. induction l as [|e l IH]; intros room H; simpl in *; [done|].
  zcase; simpl; [|done]. specialize (IH (room - esize e)). unfold tsize in *. lia.
Qed.

Lemma fit_prefix room l : fit room l `prefix_of` l.
Proof.
  revert room. induction l as [|e l IH]; intros room; simpl; [done|].
  zcase; [by apply prefix_cons|apply prefix_nil].
Qed.

Lemma fit_tsize_le room l : tsize (fit room l) <= tsize l.
Proof.
  destruct (fit_prefix room l) as [l2 Hl2]. rewrite Hl2 at 2. rewrite tsize_app.
  pose proof (tsize_nonneg l2). lia.
Qed.

(** ** The loops of the code compute it *)

Lemma pop_header_snoc l h max sz :
  pop_header (mk_ctx (l ++ [h]) max sz) =
    Ok (mk_ctx l max (u32 (sz - esize (dh_entry h)))).
Proof. unfold pop_header. simpl. rewrite last_snoc, List.removelast_last. done. Qed.

(** An eviction loop whose condition is [room < size] leaves what fits. *)
Lemma pop_while_fit cond max room bound n l :
  (forall l, l <> [] -> tsize (dh_entry <$> l) <= bound ->
     cond (mk_ctx l max (tsize (dh_entry <$> l))) = (room <? tsize (dh_entry <$> l))) ->
  bound <= UINT32_MAX -> tsize (dh_entry <$> l) <= bound -> (List.length l <= n)%nat ->
  exists l', l' `prefix_of` l /\ dh_entry <$> l' = fit room (dh_entry <$> l) /\
    pop_while n cond (mk_ctx l max (tsize (dh_entry <$> l))) =
      Ok (mk_ctx l' max (tsize (dh_entry <$> l'))).
Proof.
  intros Hcond Hbound. revert l. induction n as [|n IH]; intros l Hmax Hn.
  { destruct l; [|simpl in Hn; lia]. by exists []. }
  destruct l as [|h l _] using rev_ind; [by exists []|].
  assert (exists x xs, l ++ [h] = x :: xs) as (x & xs & Hx) by (destruct l; simpl; eauto).
  rewrite fmap_app, tsize_app in *. simpl in *. pose proof (esize_pos (dh_entry h)).
  pose proof (tsize_nonneg (dh_entry <$> l)). rewrite Z.add_0_r in *.
  assert (tsize (dh_entry <$> l ++ [h]) = tsize (dh_entry <$> l) + esize (dh_entry h)) as Ht.
  { rewrite fmap_app, tsize_app. simpl. lia. }
  pose proof (Hcond (l ++ [h])) as Hc. rewrite Ht in Hc.
  specialize (Hc ltac:(by destruct l) Hmax).
  rewrite Hx in *. rewrite Hc. rewrite <- Hx in *. zcase.
  - rewrite pop_header_snoc. simpl mbind.
    replace (_ + _ - _) with (tsize (dh_entry <$> l)) by lia.
    rewrite (wrapu_small 32) by (unfold UINT32_MAX in *; lia).
    rewrite length_app in Hn. simpl in Hn.
    destruct (IH l ltac:(lia) ltac:(lia)) as (l' & Hp & Hf & Hr).
    exists l'. split_and!; [by apply prefix_app_r| |done].
    rewrite Hf. symmetry. apply fit_snoc. rewrite tsize_app. simpl. lia.
  - exists (l ++ [h]). split_and!; [done| |].
    + rewrite fmap_app. simpl. rewrite fit_all; [done|]. rewrite tsize_app. simpl. lia.
    + by rewrite Ht.
Qed.

Lemma foreach_idx_spec l n idx :
  0 <= idx <= UINT32_MAX -> Z.of_nat (List.length l) <= UINT32_MAX ->
  foreach_idx l n idx =
    (if idx <? Z.of_nat (List.length l)
     then (UINT32_MAX, Some (n + Z.to_nat idx)%nat)
     else (idx - Z.of_nat (List.length l), None)).
Proof.
  revert n idx. induction l as [|h l IH]; intros n idx Hi Hl; cbn [foreach_idx List.length] in *.
  { rewrite (proj2 (Z.ltb_ge _ _)) by lia. by rewrite Z.sub_0_r. }
  destruct (Z.eqb_spec idx 0) as [->|].
  - rewrite (proj2 (Z.ltb_lt _ _)) by lia. by rewrite Nat.add_0_r.
  - rewrite (wrapu_small 32) by (unfold UINT32_MAX in *; lia). rewrite IH by lia.
    repeat zcase; try lia; f_equal; [f_equal|]; lia.
Qed.

(** The position found for a dynamic index is the index from the newest entry. *)
Lemma dyn_pos_spec ctx idx :
  62 <= idx <= UINT32_MAX -> Z.of_nat (List.length (dyntbl ctx)) <= UINT32_MAX ->
  dyn_pos ctx idx =
    if decide (Z.to_nat (idx - 62) < List.length (dyntbl ctx))%nat
    then Some (Z.to_nat (idx - 62)) else None.
Proof.
  intros Hi Hl. unfold dyn_pos.
  rewrite (wrapu_small 32), foreach_idx_spec by (unfold UINT32_MAX in *; lia).
  zcase; case_decide; try lia; [done|]. by case_match.
Qed.

Lemma ctx_ok_length ctx : ctx_ok ctx ->
  32 * Z.of_nat (List.length (dyntbl ctx)) <= size ctx <= UINT32_MAX.
Proof.
  intros [Hs Hm]. pose proof (tsize_ge (entries ctx)) as H.
  unfold entries in *. rewrite length_fmap in H. lia.
Qed.

(** What [HPK_GetHdr] and [tbl_get_field] return, by [tbl_lookup]. *)
Lemma tbl_get_field_spec ctx idx key :
  ctx_ok ctx -> size ctx <= UINT32_MAX - 61 -> 0 <= idx <= UINT32_MAX ->
  tbl_get_field ctx idx key =
    Ok ((fun kv => if key then kv.1 else kv.2) <$> tbl_lookup (entries ctx) idx).
Proof.
  intros Hok Hsz Hi. pose proof (ctx_ok_length ctx Hok) as Hlen.
  unfold tbl_get_field, tbl_lookup. rewrite (wrapu_small 32) by (unfold UINT32_MAX in *; lia).
  destruct (Z.leb_spec idx 61).
  - destruct (Z.ltb_spec (61 + size ctx) idx); [lia|].
    destruct (readC_lt sttbl (Z.to_nat idx)) as (h & -> & ->).
    { rewrite sttbl_length. lia. }
    simpl. by destruct key.
  - rewrite dyn_pos_spec by lia. unfold entries. rewrite list_lookup_fmap.
    destruct (Z.ltb_spec (61 + size ctx) idx).
    + rewrite lookup_ge_None_2 by lia. done.
    + case_decide.
      * destruct (readC_lt (dyntbl ctx) (Z.to_nat (idx - 62))) as (h & -> & ->); [done|].
        simpl. by destruct key.
      * rewrite lookup_ge_None_2 by lia. done.
Qed.

(** [HPK_GetHdr] finds the same row, and changes nothing but its [i]. *)
Lemma HPK_GetHdr_spec ctx idx :
  ctx_ok ctx -> size ctx <= UINT32_MAX - 61 -> 0 <= idx <= UINT32_MAX ->
  exists r ctx', HPK_GetHdr ctx idx = Ok (r, ctx') /\
    (fun h => (ref_key h, ref_value h)) <$> r = tbl_lookup (entries ctx) idx /\
    entries ctx' = entries ctx /\ maxsize ctx' = maxsize ctx /\ size ctx' = size ctx.
Proof.
  intros Hok Hsz Hi. pose proof (ctx_ok_length ctx Hok) as Hlen.
  unfold HPK_GetHdr, tbl_lookup. rewrite (wrapu_small 32) by (unfold UINT32_MAX in *; lia).
  destruct (Z.leb_spec idx 61).
  - destruct (Z.ltb_spec (61 + size ctx) idx); [lia|].
    destruct (readC_lt sttbl (Z.to_nat idx)) as (h & -> & ->).
    { rewrite sttbl_length. lia. }
    simpl. eexists _, _. split_and!; [done|done|done..].
  - rewrite dyn_pos_spec by lia. unfold entries. rewrite list_lookup_fmap.
    destruct (Z.ltb_spec (61 + size ctx) idx).
    + rewrite lookup_ge_None_2 by lia. by eexists _, _.
    + case_decide.
      * destruct (readC_lt (dyntbl ctx) (Z.to_nat (idx - 62))) as (h & Hh & ->); [done|].
        simpl. rewrite writeC_lt by done. simpl. eexists _, _. rewrite Hh. split_and!; try done.
        simpl. rewrite list_fmap_insert. simpl. rewrite list_insert_id; [done|].
        rewrite list_lookup_fmap, Hh. done.
      * rewrite lookup_ge_None_2 by lia. by eexists _, _.
Qed.

(** ** Operations *)

(** [ctx_ok] of a context spelled out. *)
Lemma ctx_ok_mk l max sz :
  sz = tsize (dh_entry <$> l) -> sz <= max -> max <= UINT32_MAX -> ctx_ok (mk_ctx l max sz).
Proof. by constructor. Qed.

(** The room an entry of size [l] leaves, as the code computes it. *)
Lemma room_cond max sz l :
  0 <= sz <= max -> max <= UINT32_MAX -> 0 <= l <= UINT32_MAX ->
  (u32 (max - sz) <? l) = (max - l <? sz).
Proof.
  intros. rewrite wrapu_small by (unfold UINT32_MAX in *; lia). repeat zcase; lia.
Qed.

(** The eviction loop of [push_header], for an entry of size [l]. *)
Lemma push_evict ctx l :
  ctx_ok ctx -> 32 <= l <= UINT32_MAX ->
  exists l', l' `prefix_of` dyntbl ctx /\
    dh_entry <$> l' = fit (Z.max 0 (maxsize ctx - l)) (entries ctx) /\
    pop_while (List.length (dyntbl ctx)) (fun ctx => u32 (maxsize ctx - size ctx) <? l) ctx =
      Ok (mk_ctx l' (maxsize ctx) (tsize (dh_entry <$> l'))) /\
    (l <=? u32 (maxsize ctx - tsize (dh_entry <$> l'))) = (l <=? maxsize ctx).
Proof.
  intros [Hs Hm] Hl. destruct ctx as [tbl max sz]. unfold entries in *. simpl in *. subst sz.
  pose proof (tsize_nonneg (dh_entry <$> tbl)).
  set (cond := fun ctx => u32 (maxsize ctx - size ctx) <? l).
  destruct (pop_while_fit cond max (Z.max 0 (max - l)) max (List.length tbl) tbl)
    as (l' & Hp & Hf & Hr); [|lia|lia|lia|].
  { intros tbl' Hne Hle. subst cond. simpl. pose proof (tsize_nonneg (dh_entry <$> tbl')).
    rewrite room_cond by lia. pose proof (tsize_ge (dh_entry <$> tbl')) as Hge.
    rewrite length_fmap in Hge. destruct tbl'; [done|]. simpl List.length in Hge.
    repeat zcase; lia. }
  exists l'. split_and!; [done|done|done|].
  assert (tsize (dh_entry <$> l') <= Z.max 0 (max - l)) by (rewrite Hf; apply fit_tsize; lia).
  pose proof (tsize_nonneg (dh_entry <$> l')).
  rewrite wrapu_small by (unfold UINT32_MAX in *; lia). repeat zcase; lia.
Qed.

(** Contexts that differ in nothing but the [i] of their entries. *)
Definition ctx_same (ctx ctx' : hpk_ctx) : Prop :=
  entries ctx' = entries ctx /\ maxsize ctx' = maxsize ctx /\ size ctx' = size ctx.

Lemma ctx_ok_same ctx ctx' : ctx_ok ctx -> ctx_same ctx ctx' -> ctx_ok ctx'.
Proof. intros [Hs Hm] (He & Hx & Hz). constructor; congruence. Qed.

Lemma ctx_ok_empty ctx : ctx_ok ctx -> maxsize ctx = 0 -> entries ctx = [].
Proof.
  intros [Hs Hm] H0. pose proof (tsize_ge (entries ctx)).
  destruct (entries ctx); [done|]. simpl List.length in *. lia.
Qed.

(** [push_header] up to its second look at the key, with [ctx2] the context
    after the eviction. *)
Lemma push_header_evicted ctx k v oh ctx1 :
  ctx_ok ctx -> maxsize ctx <> 0 -> txt_ptr (hdr_value oh) = Some v ->
  esize (k, v) <= UINT32_MAX -> push_key ctx oh = Ok (Some k, ctx1) -> ctx_same ctx ctx1 ->
  exists ctx2, ctx_ok ctx2 /\ maxsize ctx2 = maxsize ctx /\
    entries ctx2 = fit (Z.max 0 (maxsize ctx - esize (k, v))) (entries ctx) /\
    push_header ctx oh =
      if esize (k, v) <=? maxsize ctx then
        '(k', ctx3) ← push_key ctx2 oh;
        k' ← copy_txt k';
        Ok (mk_ctx (mk_dynhdr k' v None :: dyntbl ctx3) (maxsize ctx3)
              (u32 (size ctx3 + esize (k, v))))
      else Ok ctx2.
Proof.
  intros Hok H0 Hv Hsz Hpk Hsame. pose proof Hok as [Hs Hm].
  pose proof (esize_pos (k, v)) as Hpos.
  assert (u32 (u32 (txt_len (hdr_value oh) + 32) + txt_len (mk_txt (Some k) 0)) = esize (k, v)) as Hl.
  { unfold txt_len, esize, len in *. rewrite Hv. simpl in *.
    rewrite (wrapu_small 32 (_ + 32)), wrapu_small by (unfold UINT32_MAX in *; lia). lia. }
  unfold push_header. rewrite assertC_true by (apply Z.leb_le; lia). rewrite bind_Ok_l.
  rewrite (proj2 (truth_true _) H0), Hpk. simpl negb. cbv iota. rewrite bind_Ok_l.
  cbv beta iota zeta. rewrite Hl.
  destruct (push_evict ctx1 (esize (k, v)) (ctx_ok_same _ _ Hok Hsame) ltac:(lia))
    as (l' & Hp & Hf & -> & Hroom).
  destruct Hsame as (He1 & Hm1 & Hs1). rewrite He1, Hm1 in *.
  assert (tsize (dh_entry <$> l') <= Z.max 0 (maxsize ctx - esize (k, v)))
    by (rewrite Hf; apply fit_tsize; lia).
  exists (mk_ctx l' (maxsize ctx) (tsize (dh_entry <$> l'))). split_and!; [|done|done|].
  - apply ctx_ok_mk; [done| |lia]. rewrite Hf. etransitivity; [apply fit_tsize; lia|].
    pose proof (tsize_nonneg (entries ctx)). lia.
  - rewrite bind_Ok_l. cbv beta. simpl size. simpl maxsize. rewrite Hroom, Hv. done.
Qed.

Lemma fit_zero l : fit 0 l = [].
Proof. destruct l as [|e l]; [done|]. simpl. pose proof (esize_pos e). zcase; [lia|done]. Qed.

(** Adding an entry to a context that has room for it. *)
Lemma ctx_add_ok ctx k v :
  ctx_ok ctx -> tsize (entries ctx) + esize (k, v) <= maxsize ctx ->
  let ctx' := mk_ctx (mk_dynhdr k v None :: dyntbl ctx) (maxsize ctx)
                (u32 (size ctx + esize (k, v))) in
  ctx_ok ctx' /\ entries ctx' = (k, v) :: entries ctx.
Proof.
  intros [Hs Hm] Hroom ctx'. split; [|done]. pose proof (tsize_nonneg (entries ctx)).
  pose proof (esize_pos (k, v)). subst ctx'.
  rewrite wrapu_small by (unfold UINT32_MAX in *; lia).
  apply ctx_ok_mk; change (dh_entry <$> mk_dynhdr k v None :: dyntbl ctx)
    with ((k, v) :: entries ctx); unfold tsize in *; simpl; lia.
Qed.

(** The header is added when the key can be fetched before and after the
    eviction. *)
Lemma push_header_added ctx k v oh ctx1 :
  ctx_ok ctx -> txt_ptr (hdr_value oh) = Some v -> esize (k, v) <= UINT32_MAX ->
  (maxsize ctx <> 0 -> push_key ctx oh = Ok (Some k, ctx1) /\ ctx_same ctx ctx1) ->
  (forall ctx2, maxsize ctx <> 0 -> esize (k, v) <= maxsize ctx -> ctx_ok ctx2 ->
     entries ctx2 = fit (maxsize ctx - esize (k, v)) (entries ctx) ->
     exists ctx3, push_key ctx2 oh = Ok (Some k, ctx3) /\ ctx_same ctx2 ctx3) ->
  exists ctx', push_header ctx oh = Ok ctx' /\ ctx_ok ctx' /\
    maxsize ctx' = maxsize ctx /\
    entries ctx' = rfc_add (maxsize ctx) (k, v) (entries ctx).
Proof.
  intros Hok Hv Hsz Hpk1 Hpk2. pose proof (esize_pos (k, v)). unfold rfc_add.
  destruct (decide (maxsize ctx = 0)) as [H0|H0].
  { exists ctx. rewrite H0, (proj2 (Z.leb_gt _ _)) by lia.
    split_and!; [|done|done|by apply ctx_ok_empty]. unfold push_header.
    destruct Hok as [_ ?]. rewrite assertC_true by (apply Z.leb_le; lia). by rewrite H0. }
  destruct (Hpk1 H0) as [Hpk Hsame].
  destruct (push_header_evicted ctx k v oh ctx1) as (ctx2 & Hok2 & Hm2 & He2 & ->); try done.
  zcase; [rewrite Z.max_r in He2 by lia|rewrite Z.max_l, fit_zero in He2 by lia; by eauto].
  destruct (Hpk2 ctx2) as (ctx3 & -> & Hsame3); try done.
  pose proof (ctx_ok_same _ _ Hok2 Hsame3) as Hok3. destruct Hsame3 as (He3 & Hm3 & _).
  destruct (ctx_add_ok ctx3 k v) as [Hok4 He4]; [done| |].
  - rewrite He3, He2, Hm3, Hm2.
    pose proof (fit_tsize (maxsize ctx - esize (k, v)) (entries ctx)). lia.
  - eexists. split; [reflexivity|]. split; [done|]. split; [simpl; congruence|].
    rewrite He4, He3, He2. done.
Qed.

(** Where [push_header] gets the key of the header: its own text, ... *)
Lemma push_key_own ctx oh k :
  txt_ptr (hdr_key oh) = Some k -> push_key ctx oh = Ok (Some k, ctx).
Proof. intros Hk. unfold push_key. by rewrite Hk. Qed.

Lemma push_header_own ctx k v oh :
  ctx_ok ctx -> txt_ptr (hdr_key oh) = Some k -> txt_ptr (hdr_value oh) = Some v ->
  esize (k, v) <= UINT32_MAX ->
  exists ctx', push_header ctx oh = Ok ctx' /\ ctx_ok ctx' /\
    maxsize ctx' = maxsize ctx /\
    entries ctx' = rfc_add (maxsize ctx) (k, v) (entries ctx).
Proof.
  intros Hok Hk Hv Hsz. apply (push_header_added ctx k v oh ctx); [done..| |].
  - by rewrite (push_key_own _ _ _ Hk).
  - intros ctx2 _ _ _ _. exists ctx2. by rewrite (push_key_own _ _ _ Hk).
Qed.

(** ... or the table entry it names. *)
Lemma push_key_indexed ctx oh :
  ctx_ok ctx -> size ctx <= UINT32_MAX - 61 -> 0 < hdr_i oh <= UINT32_MAX ->
  txt_ptr (hdr_key oh) = None ->
  match tbl_lookup (entries ctx) (hdr_i oh) with
  | None => push_key ctx oh = Fault FAssert
  | Some (k, _) => exists ctx', push_key ctx oh = Ok (k, ctx') /\ ctx_same ctx ctx'
  end.
Proof.
  intros Hok Hsz Hi Hk. unfold push_key. rewrite Hk.
  rewrite assertC_true by (apply truth_true; lia). simpl.
  destruct (HPK_GetHdr_spec ctx (hdr_i oh) Hok Hsz ltac:(lia)) as (r & ctx' & -> & Hr & ?).
  simpl. rewrite <- Hr. destruct r as [h|]; simpl; [by exists ctx'|done].
Qed.

Lemma tbl_lookup_fit l room idx kw :
  62 <= idx -> tbl_lookup l idx = Some kw ->
  tbl_lookup (fit room l) idx =
    if decide (idx - 62 < Z.of_nat (List.length (fit room l))) then Some kw else None.
Proof.
  unfold tbl_lookup. intros Hi. rewrite (proj2 (Z.leb_gt _ _)) by lia. intros Hl.
  destruct (fit_prefix room l) as [l2 Hl2]. rewrite Hl2 in Hl. case_decide.
  - by rewrite lookup_app_l in Hl by lia.
  - by rewrite lookup_ge_None_2 by lia.
Qed.

Lemma tbl_lookup_static l l' idx : idx <= 61 -> tbl_lookup l idx = tbl_lookup l' idx.
Proof. intros. unfold tbl_lookup. by rewrite (proj2 (Z.leb_le _ _)) by lia. Qed.

(** The header whose name is entry [idx] loses that entry to make room. *)
Definition loses_name (ctx : hpk_ctx) (idx sz : Z) : Prop :=
  maxsize ctx <> 0 /\ sz <= maxsize ctx /\ 62 <= idx /\
  Z.of_nat (List.length (fit (maxsize ctx - sz) (entries ctx))) <= idx - 62.

#[global] Instance loses_name_dec ctx idx sz : Decision (loses_name ctx idx sz).
Proof. unfold loses_name. apply _. Defined.

Lemma lookup_after_evict ctx idx sz kw :
  maxsize ctx <> 0 -> sz <= maxsize ctx -> tbl_lookup (entries ctx) idx = Some kw ->
  tbl_lookup (fit (maxsize ctx - sz) (entries ctx)) idx =
    if decide (loses_name ctx idx sz) then None else Some kw.
Proof.
  intros H0 Hsz Hlk. unfold loses_name. destruct (decide (62 <= idx)).
  - rewrite (tbl_lookup_fit _ _ _ _ ltac:(done) Hlk). repeat case_decide; try done; lia.
  - rewrite (tbl_lookup_static _ (entries ctx) idx), Hlk by lia. by rewrite decide_False by lia.
Qed.

Lemma evicted_size_bound ctx room ctx2 :
  ctx_ok ctx -> ctx_ok ctx2 -> entries ctx2 = fit room (entries ctx) ->
  size ctx <= UINT32_MAX - 61 -> size ctx2 <= UINT32_MAX - 61.
Proof.
  intros [Hs _] [Hs2 _] He Hb. rewrite Hs2, He.
  pose proof (fit_tsize_le room (entries ctx)). lia.
Qed.

Lemma push_header_by_index ctx k w v oh :
  ctx_ok ctx -> size ctx <= UINT32_MAX - 61 -> 0 < hdr_i oh <= UINT32_MAX ->
  txt_ptr (hdr_key oh) = None -> txt_ptr (hdr_value oh) = Some v ->
  tbl_lookup (entries ctx) (hdr_i oh) = Some (Some k, w) -> esize (k, v) <= UINT32_MAX ->
  if decide (loses_name ctx (hdr_i oh) (esize (k, v))) then push_header ctx oh = Fault FAssert
  else exists ctx', push_header ctx oh = Ok ctx' /\ ctx_ok ctx' /\
    maxsize ctx' = maxsize ctx /\
    entries ctx' = rfc_add (maxsize ctx) (k, v) (entries ctx).
Proof.
  intros Hok H61 Hi Hk Hv Hlk Hsz.
  pose proof (push_key_indexed ctx oh Hok H61 Hi Hk) as Hpk. rewrite Hlk in Hpk.
  destruct Hpk as (ctx1 & Hpk & Hsame).
  assert (forall ctx2, maxsize ctx <> 0 -> esize (k, v) <= maxsize ctx -> ctx_ok ctx2 ->
    entries ctx2 = fit (maxsize ctx - esize (k, v)) (entries ctx) ->
    if decide (loses_name ctx (hdr_i oh) (esize (k, v)))
    then push_key ctx2 oh = Fault FAssert
    else exists ctx3, push_key ctx2 oh = Ok (Some k, ctx3) /\ ctx_same ctx2 ctx3) as Hpk2.
  { intros ctx2 H0 Hle Hok2 He2.
    pose proof (push_key_indexed ctx2 oh Hok2 (evicted_size_bound _ _ _ Hok Hok2 He2 H61) Hi Hk)
      as Hpk2.
    rewrite He2, (lookup_after_evict _ _ _ _ H0 Hle Hlk) in Hpk2. by case_decide. }
  case_decide as Hlose; [|by apply (push_header_added ctx k v oh ctx1)].
  destruct Hlose as (H0 & Hle & _).
  destruct (push_header_evicted ctx k v oh ctx1) as (ctx2 & Hok2 & _ & He2 & ->); try done.
  rewrite (proj2 (Z.leb_le _ _)) by lia. rewrite Z.max_r in He2 by lia.
  by rewrite (Hpk2 ctx2) by done.
Qed.

(** [HPK_ResizeTbl] and [HPK_FreeCtx] keep what fits. *)
Lemma resize_fit ctx num :
  ctx_ok ctx -> 0 <= num <= UINT32_MAX ->
  exists ctx', HPK_ResizeTbl ctx num = Ok (hpk_done, ctx') /\ ctx_ok ctx' /\
    maxsize ctx' = num /\ dyntbl ctx' `prefix_of` dyntbl ctx /\
    entries ctx' = fit num (entries ctx).
Proof.
  intros [Hs Hm] Hn. destruct ctx as [tbl max sz]. unfold entries in *. simpl in *. subst sz.
  destruct (pop_while_fit (fun ctx => maxsize ctx <? size ctx) num num
    UINT32_MAX (List.length tbl) tbl) as (l' & Hp & Hf & Hr); try lia; [by intros|].
  unfold HPK_ResizeTbl. simpl. rewrite Hr. simpl. eexists. split_and!; try done.
  apply ctx_ok_mk; [done| |lia]. rewrite Hf. apply fit_tsize. lia.
Qed.

Lemma fit_negative l : fit (-1) l = [].
Proof. destruct l as [|e l]; [done|]. simpl. pose proof (esize_pos e). zcase; [lia|done]. Qed.

Lemma free_empties ctx :
  ctx_ok ctx -> exists ctx', HPK_FreeCtx ctx = Ok ctx' /\ dyntbl ctx' = [] /\ size ctx' = 0.
Proof.
  intros [Hs Hm]. destruct ctx as [tbl max sz]. unfold entries in *. simpl in *. subst sz.
  destruct (pop_while_fit (fun _ => true) max (-1) UINT32_MAX (List.length tbl) tbl)
    as (l' & Hp & Hf & Hr); try lia.
  { intros l _ _. pose proof (tsize_nonneg (dh_entry <$> l)). symmetry. apply Z.ltb_lt. lia. }
  rewrite fit_negative in Hf. apply fmap_nil_inv in Hf. subst l'.
  unfold HPK_FreeCtx. simpl. rewrite Hr. by eexists.
Qed.

Lemma GetTblLength_ok ctx :
  ctx_ok ctx -> HPK_GetTblLength ctx = Z.of_nat (List.length (entries ctx)).
Proof.
  intros Hok%ctx_ok_length. unfold HPK_GetTblLength, entries. rewrite length_fmap.
  assert (forall l a, 0 <= a -> a + Z.of_nat (List.length l) <= UINT32_MAX ->
    foldl (fun l (_ : dynhdr) => u32 (l + 1)) a l = a + Z.of_nat (List.length l)) as Hf.
  { clear. induction l as [|h l IH]; intros a Ha Hl; simpl in *; [lia|].
    rewrite (wrapu_small 32) by (unfold UINT32_MAX in *; lia). rewrite IH; lia. }
  rewrite Hf; lia.
Qed.

Lemma NewCtx_ok max : 0 <= max <= UINT32_MAX -> ctx_ok (HPK_NewCtx max).
Proof. intros. constructor; simpl; [done|lia]. Qed.

(** ** Properties *)

(** The name of a header to add: its own, or that of the RFC's entry at its
    index. *)
Definition names (ctx : hpk_ctx) (oh : hpk_hdr) (k : list Z) : Prop :=
  txt_ptr (hdr_key oh) = Some k \/
  (txt_ptr (hdr_key oh) = None /\ size ctx <= UINT32_MAX - 61 /\ 0 < hdr_i oh <= UINT32_MAX /\
   exists w, rfc_lookup (entries ctx) (hdr_i oh) = Some (k, w)).
Lemma names_tbl l idx k w : 0 < idx -> rfc_lookup l idx = Some (k, w) -> tbl_lookup l idx = Some (Some k, Some (code_entry idx (k, w)).2).
Proof. intros H0 Hl. by rewrite (tbl_lookup_rfc l idx H0), Hl. Qed.

(** C5: [push_header] refines the addition of RFC 7541 section 4.4: on a
    consistent context, a header that carries its own name, or the index of one,
    is added after evicting, oldest first, exactly the entries that no longer
    fit, and an entry larger than the table leaves it empty; no assertion fails,
    the counters stay consistent and [maxsize] is never exceeded.  The exception
    is an index whose entry must itself be evicted to make room: the code looks
    it up again afterwards, and its assertion fails. *)
Theorem push_header_refines ctx k v oh :
  ctx_ok ctx -> names ctx oh k -> txt_ptr (hdr_value oh) = Some v ->
  esize (k, v) <= UINT32_MAX ->
  if decide (txt_ptr (hdr_key oh) = None /\ loses_name ctx (hdr_i oh) (esize (k, v))) then push_header ctx oh = Fault FAssert
  else exists ctx', push_header ctx oh = Ok ctx' /\ ctx_ok ctx' /\
    maxsize ctx' = maxsize ctx /\
    entries ctx' = rfc_add (maxsize ctx) (k, v) (entries ctx).
Proof.
  intros Hok Hn Hv Hsz. destruct Hn as [Hk|(Hk & H61 & Hi & w & Hlk)].
  - rewrite decide_False by (intros [Hx _]; by rewrite Hx in Hk). by apply push_header_own.
  - pose proof (push_header_by_index ctx k _ v oh Hok H61 Hi Hk Hv (names_tbl _ _ _ _ (proj1 Hi) Hlk) Hsz) as H.
    destruct (decide (loses_name _ _ _)) as [Hl|Hl]; [by rewrite decide_True|]. by rewrite decide_False by (by intros [_ ?]).
Qed.

(** The table and headers of the witnesses: two entries of sizes 35 and 34. *)
Definition wit_ctx : hpk_ctx :=
  mk_ctx [mk_dynhdr [97; 98] [99] None; mk_dynhdr [100] [101] None] 100 69.
Definition wit_hdr (k : option (list Z)) (i : Z) : hpk_hdr :=
  mk_hdr (mk_txt k 0) (mk_txt (Some [102; 103]) 0) hpk_inc i.

Lemma wit_ctx_ok : ctx_ok wit_ctx.
Proof. constructor; [reflexivity|unfold UINT32_MAX; simpl; lia]. Qed.

Lemma push_header_refines_witness :
  (exists ctx', push_header wit_ctx (wit_hdr (Some [104]) 0) = Ok ctx' /\ ctx_ok ctx' /\
    maxsize ctx' = 100 /\ entries ctx' = [([104], [102; 103]); ([97; 98], [99])]) /\
  push_header wit_ctx (wit_hdr None 63) = Fault FAssert /\
  exists ctx', push_header wit_ctx (wit_hdr None 62) = Ok ctx' /\ ctx_ok ctx' /\
    maxsize ctx' = 100 /\ entries ctx' = [([97; 98], [102; 103]); ([97; 98], [99])].
Proof.
  assert (Hs : size wit_ctx <= UINT32_MAX - 61) by (vm_compute; discriminate).
  split; [|split].
  - apply (push_header_refines wit_ctx [104] [102; 103] (wit_hdr (Some [104]) 0) wit_ctx_ok);
      [by left|reflexivity|vm_compute; discriminate].
  - apply (push_header_refines wit_ctx [100] [102; 103] (wit_hdr None 63) wit_ctx_ok);
      [|reflexivity|vm_compute; discriminate].
    right. split; [done|]. split; [done|]. split; [vm_compute; split; [reflexivity|discriminate]|by exists [101]].
  - apply (push_header_refines wit_ctx [97; 98] [102; 103] (wit_hdr None 62) wit_ctx_ok);
      [|reflexivity|vm_compute; discriminate].
    right. split; [done|]. split; [done|]. split; [vm_compute; split; [reflexivity|discriminate]|by exists [99]].
Defined.

(** C6: both look-ups agree with the combined index of RFC 7541 section 2.3.3
    and the static table of its Appendix A, but for the value of row 16, which
    lacks a blank: [tbl_get_key] and [tbl_get_value] return the texts of the
    static row (1..61) or of the [idx - 62]th newest dynamic entry and nothing
    past the end of the table; [HPK_GetHdr] finds the same row and changes no
    name, value or counter of the context. *)
Theorem lookup_refines ctx idx :
  ctx_ok ctx -> size ctx <= UINT32_MAX - 61 -> 0 < idx <= UINT32_MAX ->
  let found := code_entry idx <$> rfc_lookup (entries ctx) idx in
  tbl_get_key ctx idx = Ok ((fun e => Some e.1) <$> found) /\
  tbl_get_value ctx idx = Ok ((fun e => Some e.2) <$> found) /\
  exists r ctx', HPK_GetHdr ctx idx = Ok (r, ctx') /\
    (fun h => (ref_key h, ref_value h)) <$> r = (fun e => (Some e.1, Some e.2)) <$> found /\
    ctx_same ctx ctx'.
Proof.
  intros Hok Hsz Hi found. pose proof (tbl_lookup_rfc (entries ctx) idx (proj1 Hi)) as Hl. rewrite option_fmap_compose in Hl. fold found in Hl.
  pose proof (fun key => tbl_get_field_spec ctx idx key Hok Hsz ltac:(lia)) as Hg.
  destruct (HPK_GetHdr_spec ctx idx Hok Hsz ltac:(lia)) as (r & ctx' & Hr & Hh & Hc). rewrite Hl in Hg, Hh. split_and!.
  - unfold tbl_get_key. rewrite Hg. by destruct found.
  - unfold tbl_get_value. rewrite Hg. by destruct found.
  - by exists r, ctx'.
Qed.

Lemma lookup_refines_witness :
  tbl_get_key wit_ctx 63 = Ok (Some (Some [100])) /\
  tbl_get_value wit_ctx 63 = Ok (Some (Some [101])) /\
  exists r ctx', HPK_GetHdr wit_ctx 63 = Ok (r, ctx') /\
    (fun h => (ref_key h, ref_value h)) <$> r = Some (Some [100], Some [101]) /\
    ctx_same wit_ctx ctx'.
Proof.
  apply (lookup_refines wit_ctx 63 wit_ctx_ok); [vm_compute; discriminate|].
  split; vm_compute; [reflexivity|discriminate].
Defined.

(** [HPK_ResizeTbl] sets the bound, keeps exactly the newest entries that
    fit in it and reports [hpk_done]; the counters stay consistent, and
    [HPK_GetTblLength], [HPK_GetTblSize] and [HPK_GetTblMaxSize] report the
    number of entries kept, their total size and the new bound. *)
Theorem HPK_ResizeTbl_refines ctx num :
  ctx_ok ctx -> 0 <= num <= UINT32_MAX ->
  exists ctx', HPK_ResizeTbl ctx num = Ok (hpk_done, ctx') /\ ctx_ok ctx' /\
    entries ctx' = fit num (entries ctx) /\
    HPK_GetTblLength ctx' = Z.of_nat (List.length (fit num (entries ctx))) /\
    HPK_GetTblSize ctx' = tsize (fit num (entries ctx)) /\ HPK_GetTblMaxSize ctx' = num.
Proof.
  intros Hok Hn. destruct (resize_fit ctx num Hok Hn) as (ctx' & -> & Hok' & Hm & _ & He).
  exists ctx'. split_and!; [done..| | |done].
  - by rewrite <- He, GetTblLength_ok.
  - rewrite <- He. apply Hok'.
Qed.

Lemma HPK_ResizeTbl_refines_witness :
  exists ctx', HPK_ResizeTbl wit_ctx 68 = Ok (hpk_done, ctx') /\ ctx_ok ctx' /\
    entries ctx' = [([97; 98], [99])] /\ HPK_GetTblLength ctx' = 1 /\
    HPK_GetTblSize ctx' = 35 /\ HPK_GetTblMaxSize ctx' = 68.
Proof. apply (HPK_ResizeTbl_refines wit_ctx 68 wit_ctx_ok). unfold UINT32_MAX. lia. Defined.
