(* ===== verification/HuffGen.v ===== *)
(** * Strings of bits, most significant first, and the 64-bit windows
    ([uint64_t pack] with [pl] valid bits on top) the Huffman coder keeps. *)

From Stdlib Require Import ZArith Lia.
From stdpp Require Import base option numbers list.
From S2P Require Import Prelude HpackData.
#[local] Open Scope Z_scope.

(** The number a string of bits denotes, and the low [n] bits of a number. *)
Fixpoint bval (b : list bool) : Z :=
  match b with
  | [] => 0
  | x :: b => Z.b2z x * 2 ^ Z.of_nat (length b) + bval b
  end.

Fixpoint bits (n : nat) (v : Z) : list bool :=
  match n with
  | O => []
  | S n => Z.testbit v (Z.of_nat n) :: bits n v
  end.

Definition ones (n : nat) : list bool := replicate n true.
Definition zeros (n : nat) : list bool := replicate n false.

(** The bits of a string of bytes. *)
Definition byte_bits (l : list Z) : list bool := l ≫= bits 8.

(** The 64-bit word whose top bits are [q]. *)
Definition packed (q : list bool) : Z := bval q * 2 ^ (64 - Z.of_nat (length q)).

Lemma pow2_pos n : 0 <= n -> 0 < 2 ^ n.
Proof. intros. apply Z.pow_pos_nonneg; lia. Qed.

Lemma length_ones n : length (ones n) = n.
Proof. apply length_replicate. Qed.

Lemma length_zeros n : length (zeros n) = n.
Proof. apply length_replicate. Qed.

Lemma bval_range b : 0 <= bval b < 2 ^ Z.of_nat (length b).
Proof.
  induction b as [|x b IH]; simpl bval; simpl length; [done|].
  rewrite Nat2Z.inj_succ, Z.pow_succ_r by lia. destruct x; simpl Z.b2z; lia.
Qed.

Lemma bval_app a b : bval (a ++ b) = bval a * 2 ^ Z.of_nat (length b) + bval b.
Proof.
  induction a as [|x a IH]; simpl; [done|].
  rewrite IH, length_app, Nat2Z.inj_add, Z.pow_add_r by lia. ring.
Qed.

Lemma bval_zeros n : bval (zeros n) = 0.
Proof. unfold zeros. induction n as [|n IH]; cbn [replicate bval]; [done|]. by rewrite IH. Qed.

Lemma bval_ones n : bval (ones n) = 2 ^ Z.of_nat n - 1.
Proof.
  induction n as [|n IH]; [done|]. unfold ones in *. cbn [replicate bval].
  rewrite IH, length_replicate, Nat2Z.inj_succ, Z.pow_succ_r by lia. simpl. lia.
Qed.

Lemma length_bits n v : length (bits n v) = n.
Proof. induction n; simpl; congruence. Qed.

Lemma bval_bits n v : bval (bits n v) = v `mod` 2 ^ Z.of_nat n.
Proof.
  induction n as [|n IH]; cbn [bits bval]; [by rewrite Z.mod_1_r|].
  rewrite IH, length_bits, Nat2Z.inj_succ, Z.pow_succ_r by lia.
  rewrite (Z.mul_comm 2), Z.rem_mul_r, Z.testbit_spec' by lia.
  lia.
Qed.

Lemma bval_bits_small n v : 0 <= v < 2 ^ Z.of_nat n -> bval (bits n v) = v.
Proof. intros. by rewrite bval_bits, Z.mod_small. Qed.

Lemma bval_inj a b : length a = length b -> bval a = bval b -> a = b.
Proof.
  revert b. induction a as [|x a IH]; intros [|y b] Hl Hv; simpl in *; try done.
  injection Hl as Hl. pose proof (bval_range a). pose proof (bval_range b).
  rewrite Hl in *. destruct x, y; simpl Z.b2z in *; try lia; f_equal; apply IH; lia.
Qed.

Lemma bits_bval b : bits (length b) (bval b) = b.
Proof.
  apply bval_inj; rewrite ?length_bits; [done|].
  apply bval_bits_small, bval_range.
Qed.

(** A string of bits that denotes the largest number is all ones. *)
Lemma bval_max b : bval b = 2 ^ Z.of_nat (length b) - 1 <-> b = ones (length b).
Proof.
  split; intros Hb; [|by rewrite Hb, bval_ones, length_ones].
  apply bval_inj; [by rewrite length_ones|]. by rewrite bval_ones.
Qed.

Lemma length_byte_bits l : length (byte_bits l) = (8 * length l)%nat.
Proof.
  induction l as [|x l IH]; [done|]. unfold byte_bits in *. cbn [mbind list_bind].
  rewrite length_app, length_bits. simpl in *. lia.
Qed.

Lemma byte_bits_cons x l : byte_bits (x :: l) = bits 8 x ++ byte_bits l.
Proof. done. Qed.

Lemma byte_bits_app a b : byte_bits (a ++ b) = byte_bits a ++ byte_bits b.
Proof. apply bind_app. Qed.

Lemma byte_bits_inj a b :
  Forall (fun x => 0 <= x < 256) a -> Forall (fun x => 0 <= x < 256) b ->
  byte_bits a = byte_bits b -> a = b.
Proof.
  intros Ha. revert b. induction Ha as [|x a Hx Ha IH]; intros b Hb Heq.
  - destruct b as [|y b]; [done|]. by apply (f_equal length) in Heq.
  - destruct Hb as [|y b Hy Hb]; [by apply (f_equal length) in Heq|].
    rewrite !byte_bits_cons in Heq. apply app_inj_1 in Heq as [H8 Heq]; [|done].
    f_equal; [|by apply IH]. rewrite <- (bval_bits_small 8 x), H8 by done.
    by apply bval_bits_small.
Qed.

(** ** The window *)

Lemma packed_range q : (length q <= 64)%nat -> 0 <= packed q < 2 ^ 64.
Proof.
  intros Hq. unfold packed. pose proof (bval_range q) as Hb.
  pose proof (pow2_pos (64 - Z.of_nat (length q)) ltac:(lia)).
  replace (2 ^ 64) with (2 ^ Z.of_nat (length q) * 2 ^ (64 - Z.of_nat (length q))); [nia|].
  rewrite <- Z.pow_add_r by lia. f_equal. lia.
Qed.

(** Zeroes below the valid bits are not seen. *)
Lemma packed_zeros q n :
  (length q + n <= 64)%nat -> packed (q ++ zeros n) = packed q.
Proof.
  intros Hq. unfold packed.
  rewrite bval_app, bval_zeros, length_app, length_zeros.
  rewrite Z.add_0_r, <- Z.mul_assoc, <- Z.pow_add_r by lia. f_equal. f_equal. lia.
Qed.

Lemma packed_split a b :
  (length a + length b <= 64)%nat ->
  packed (a ++ b) =
    bval a * 2 ^ (64 - Z.of_nat (length a)) + bval b * 2 ^ (64 - Z.of_nat (length a + length b)).
Proof.
  intros H. unfold packed. rewrite bval_app, length_app, Z.mul_add_distr_r.
  rewrite <- Z.mul_assoc, <- Z.pow_add_r by lia. do 3 f_equal. lia.
Qed.

(** [pack >> (64 - n)]: the top [n] bits. *)
Lemma packed_top a b n :
  n = Z.of_nat (length a) -> 0 < n -> (length a + length b <= 64)%nat ->
  shr64 (packed (a ++ b)) (64 - n) = Ok (bval a).
Proof.
  intros -> Hn H. unfold shr64.
  rewrite (proj2 (Z.leb_le 0 _)), (proj2 (Z.ltb_lt _ 64)) by lia. simpl. f_equal.
  rewrite Z.shiftr_div_pow2, packed_split by lia.
  pose proof (bval_range b). symmetry.
  apply Z.div_unique_pos with (bval b * 2 ^ (64 - Z.of_nat (length a + length b))); [|ring].
  replace (2 ^ (64 - Z.of_nat (length a))) with
    (2 ^ Z.of_nat (length b) * 2 ^ (64 - Z.of_nat (length a + length b))).
  - pose proof (pow2_pos (64 - Z.of_nat (length a + length b)) ltac:(lia)). nia.
  - rewrite <- Z.pow_add_r by lia. f_equal. lia.
Qed.

(** [pack << n]: the top [n] bits are gone. *)
Lemma packed_shift a b n :
  n = Z.of_nat (length a) -> n < 64 -> (length a + length b <= 64)%nat ->
  shl64 (packed (a ++ b)) n = Ok (packed b).
Proof.
  intros -> Hn H. unfold shl64.
  rewrite (proj2 (Z.leb_le 0 _)), (proj2 (Z.ltb_lt _ 64)) by lia. simpl. f_equal.
  rewrite Z.shiftl_mul_pow2, packed_split by lia. unfold wrapu. symmetry.
  apply Z.mod_unique_pos with (bval a); [apply packed_range; lia|].
  rewrite Z.mul_add_distr_r, <- !Z.mul_assoc, <- !Z.pow_add_r by lia.
  unfold packed. rewrite (Z.mul_comm _ (bval a)).
  f_equal; [f_equal; f_equal; lia|f_equal; f_equal; lia].
Qed.

(** [pack |= v << (64 - pl - n)]: [n] bits appended. *)
Lemma packed_append q n v w :
  0 <= v < 2 ^ Z.of_nat n -> (0 < n + length q <= 64)%nat ->
  w = 64 - Z.of_nat (length q) - Z.of_nat n ->
  exists x, shl64 v w = Ok x /\ Z.lor (packed q) x = packed (q ++ bits n v).
Proof.
  intros Hv Hn ->. unfold shl64.
  rewrite (proj2 (Z.leb_le 0 _)), (proj2 (Z.ltb_lt _ 64)) by lia. simpl.
  set (w := 64 - Z.of_nat (length q) - Z.of_nat n). eexists. split; [done|].
  rewrite Z.shiftl_mul_pow2 by lia.
  pose proof (pow2_pos w ltac:(lia)). pose proof (pow2_pos (Z.of_nat (length q)) ltac:(lia)).
  assert (2 ^ (64 - Z.of_nat (length q)) = 2 ^ Z.of_nat n * 2 ^ w) as E.
  { rewrite <- Z.pow_add_r by lia. f_equal. lia. }
  assert (2 ^ 64 = 2 ^ (64 - Z.of_nat (length q)) * 2 ^ Z.of_nat (length q)) as E2.
  { rewrite <- Z.pow_add_r by lia. f_equal. lia. }
  rewrite wrapu_small by (change (2 ^ 64) with (2 ^ (64)); rewrite E2; nia).
  rewrite (lor_add _ _ (64 - Z.of_nat (length q))).
  - rewrite packed_split by (rewrite length_bits; lia).
    rewrite bval_bits_small, length_bits by done. unfold packed. f_equal. f_equal. f_equal. lia.
  - lia.
  - rewrite E. nia.
  - unfold packed. apply Z_mod_mult.
Qed.

(** ** The Huffman decoding tables: huffman_gen.py applied to tbl/vhp_huffman.h.

    The build writes vtc_h2_dectbl.h with the generator of the repository; the
    generator is translated here and run by the kernel, and [DecTbl] states what
    the decoder relies on: the tables are well formed, and the path of every
    code of vtc_h2_enctbl.h ends at its character. *)

(** ** The input: the rows [HPH(character, code, bits)] of tbl/vhp_huffman.h *)

Definition hph_rows_lo : list (Z * Z * Z) :=
  [(48, 0x0, 5); (49, 0x1, 5); (50, 0x2, 5); (97, 0x3, 5); (99, 0x4, 5); (101, 0x5, 5);
   (105, 0x6, 5); (111, 0x7, 5); (115, 0x8, 5); (116, 0x9, 5); (32, 0x14, 6);
   (37, 0x15, 6); (45, 0x16, 6); (46, 0x17, 6); (47, 0x18, 6); (51, 0x19, 6);
   (52, 0x1a, 6); (53, 0x1b, 6); (54, 0x1c, 6); (55, 0x1d, 6); (56, 0x1e, 6);
   (57, 0x1f, 6); (61, 0x20, 6); (65, 0x21, 6); (95, 0x22, 6); (98, 0x23, 6);
   (100, 0x24, 6); (102, 0x25, 6); (103, 0x26, 6); (104, 0x27, 6); (108, 0x28, 6);
   (109, 0x29, 6); (110, 0x2a, 6); (112, 0x2b, 6); (114, 0x2c, 6); (117, 0x2d, 6);
   (58, 0x5c, 7); (66, 0x5d, 7); (67, 0x5e, 7); (68, 0x5f, 7); (69, 0x60, 7);
   (70, 0x61, 7); (71, 0x62, 7); (72, 0x63, 7); (73, 0x64, 7); (74, 0x65, 7);
   (75, 0x66, 7); (76, 0x67, 7); (77, 0x68, 7); (78, 0x69, 7); (79, 0x6a, 7);
   (80, 0x6b, 7); (81, 0x6c, 7); (82, 0x6d, 7); (83, 0x6e, 7); (84, 0x6f, 7);
   (85, 0x70, 7); (86, 0x71, 7); (87, 0x72, 7); (89, 0x73, 7); (106, 0x74, 7);
   (107, 0x75, 7); (113, 0x76, 7); (118, 0x77, 7); (119, 0x78, 7); (120, 0x79, 7);
   (121, 0x7a, 7); (122, 0x7b, 7); (38, 0xf8, 8); (42, 0xf9, 8); (44, 0xfa, 8);
   (59, 0xfb, 8); (88, 0xfc, 8); (90, 0xfd, 8); (33, 0x3f8, 10); (34, 0x3f9, 10);
   (40, 0x3fa, 10); (41, 0x3fb, 10); (63, 0x3fc, 10); (39, 0x7fa, 11); (43, 0x7fb, 11);
   (124, 0x7fc, 11); (35, 0xffa, 12); (62, 0xffb, 12); (0, 0x1ff8, 13); (36, 0x1ff9, 13);
   (64, 0x1ffa, 13); (91, 0x1ffb, 13); (93, 0x1ffc, 13); (126, 0x1ffd, 13);
   (94, 0x3ffc, 14); (125, 0x3ffd, 14); (60, 0x7ffc, 15); (96, 0x7ffd, 15);
   (123, 0x7ffe, 15); (92, 0x7fff0, 19); (195, 0x7fff1, 19); (208, 0x7fff2, 19);
   (128, 0xfffe6, 20); (130, 0xfffe7, 20); (131, 0xfffe8, 20); (162, 0xfffe9, 20);
   (184, 0xfffea, 20); (194, 0xfffeb, 20); (224, 0xfffec, 20); (226, 0xfffed, 20);
   (153, 0x1fffdc, 21); (161, 0x1fffdd, 21); (167, 0x1fffde, 21); (172, 0x1fffdf, 21);
   (176, 0x1fffe0, 21); (177, 0x1fffe1, 21); (179, 0x1fffe2, 21); (209, 0x1fffe3, 21);
   (216, 0x1fffe4, 21); (217, 0x1fffe5, 21); (227, 0x1fffe6, 21); (229, 0x1fffe7, 21);
   (230, 0x1fffe8, 21); (129, 0x3fffd2, 22); (132, 0x3fffd3, 22); (133, 0x3fffd4, 22);
   (134, 0x3fffd5, 22); (136, 0x3fffd6, 22); (146, 0x3fffd7, 22); (154, 0x3fffd8, 22);
   (156, 0x3fffd9, 22); (160, 0x3fffda, 22)].

Definition hph_rows_hi : list (Z * Z * Z) :=
  [(163, 0x3fffdb, 22); (164, 0x3fffdc, 22); (169, 0x3fffdd, 22); (170, 0x3fffde, 22);
   (173, 0x3fffdf, 22); (178, 0x3fffe0, 22); (181, 0x3fffe1, 22); (185, 0x3fffe2, 22);
   (186, 0x3fffe3, 22); (187, 0x3fffe4, 22); (189, 0x3fffe5, 22); (190, 0x3fffe6, 22);
   (196, 0x3fffe7, 22); (198, 0x3fffe8, 22); (228, 0x3fffe9, 22); (232, 0x3fffea, 22);
   (233, 0x3fffeb, 22); (1, 0x7fffd8, 23); (135, 0x7fffd9, 23); (137, 0x7fffda, 23);
   (138, 0x7fffdb, 23); (139, 0x7fffdc, 23); (140, 0x7fffdd, 23); (141, 0x7fffde, 23);
   (143, 0x7fffdf, 23); (147, 0x7fffe0, 23); (149, 0x7fffe1, 23); (150, 0x7fffe2, 23);
   (151, 0x7fffe3, 23); (152, 0x7fffe4, 23); (155, 0x7fffe5, 23); (157, 0x7fffe6, 23);
   (158, 0x7fffe7, 23); (165, 0x7fffe8, 23); (166, 0x7fffe9, 23); (168, 0x7fffea, 23);
   (174, 0x7fffeb, 23); (175, 0x7fffec, 23); (180, 0x7fffed, 23); (182, 0x7fffee, 23);
   (183, 0x7fffef, 23); (188, 0x7ffff0, 23); (191, 0x7ffff1, 23); (197, 0x7ffff2, 23);
   (231, 0x7ffff3, 23); (239, 0x7ffff4, 23); (9, 0xffffea, 24); (142, 0xffffeb, 24);
   (144, 0xffffec, 24); (145, 0xffffed, 24); (148, 0xffffee, 24); (159, 0xffffef, 24);
   (171, 0xfffff0, 24); (206, 0xfffff1, 24); (215, 0xfffff2, 24); (225, 0xfffff3, 24);
   (236, 0xfffff4, 24); (237, 0xfffff5, 24); (199, 0x1ffffec, 25); (207, 0x1ffffed, 25);
   (234, 0x1ffffee, 25); (235, 0x1ffffef, 25); (192, 0x3ffffe0, 26); (193, 0x3ffffe1, 26);
   (200, 0x3ffffe2, 26); (201, 0x3ffffe3, 26); (202, 0x3ffffe4, 26); (205, 0x3ffffe5, 26);
   (210, 0x3ffffe6, 26); (213, 0x3ffffe7, 26); (218, 0x3ffffe8, 26); (219, 0x3ffffe9, 26);
   (238, 0x3ffffea, 26); (240, 0x3ffffeb, 26); (242, 0x3ffffec, 26); (243, 0x3ffffed, 26);
   (255, 0x3ffffee, 26); (203, 0x7ffffde, 27); (204, 0x7ffffdf, 27); (211, 0x7ffffe0, 27);
   (212, 0x7ffffe1, 27); (214, 0x7ffffe2, 27); (221, 0x7ffffe3, 27); (222, 0x7ffffe4, 27);
   (223, 0x7ffffe5, 27); (241, 0x7ffffe6, 27); (244, 0x7ffffe7, 27); (245, 0x7ffffe8, 27);
   (246, 0x7ffffe9, 27); (247, 0x7ffffea, 27); (248, 0x7ffffeb, 27); (250, 0x7ffffec, 27);
   (251, 0x7ffffed, 27); (252, 0x7ffffee, 27); (253, 0x7ffffef, 27); (254, 0x7fffff0, 27);
   (2, 0xfffffe2, 28); (3, 0xfffffe3, 28); (4, 0xfffffe4, 28); (5, 0xfffffe5, 28);
   (6, 0xfffffe6, 28); (7, 0xfffffe7, 28); (8, 0xfffffe8, 28); (11, 0xfffffe9, 28);
   (12, 0xfffffea, 28); (14, 0xfffffeb, 28); (15, 0xfffffec, 28); (16, 0xfffffed, 28);
   (17, 0xfffffee, 28); (18, 0xfffffef, 28); (19, 0xffffff0, 28); (20, 0xffffff1, 28);
   (21, 0xffffff2, 28); (23, 0xffffff3, 28); (24, 0xffffff4, 28); (25, 0xffffff5, 28);
   (26, 0xffffff6, 28); (27, 0xffffff7, 28); (28, 0xffffff8, 28); (29, 0xffffff9, 28);
   (30, 0xffffffa, 28); (31, 0xffffffb, 28); (127, 0xffffffc, 28); (220, 0xffffffd, 28);
   (249, 0xffffffe, 28); (10, 0x3ffffffc, 30); (13, 0x3ffffffd, 30); (22, 0x3ffffffe, 30)].

(** ** The generator *)

(** [class sym]; [gs_esc] is the prefix of the table named by [esc]. *)
Record gsym := mk_gsym {
  gs_vall : Z;
  gs_val : Z;
  gs_pfx : Z;
  gs_chr : Z;
  gs_esc : option Z
}.

Definition gen_sym (bigval bigvall chr : Z) (esc : option Z) : gsym :=
  let vall := if truth (bigvall `mod` 8) then bigvall `mod` 8 else 8 in
  mk_gsym vall (Z.land bigval (Z.shiftl 1 vall - 1)) (Z.shiftr bigval vall) chr esc.

(** A Python dict with integer keys, in insertion order. *)
Fixpoint dict_set {A} (k : Z) (v : A) (d : list (Z * A)) : list (Z * A) :=
  match d with
  | [] => [(k, v)]
  | (k', v') :: d => if k =? k' then (k, v) :: d else (k', v') :: dict_set k v d
  end.

Fixpoint dict_get {A} (k : Z) (d : list (Z * A)) : option A :=
  match d with
  | [] => None
  | (k', v) :: d => if k =? k' then Some v else dict_get k d
  end.

Definition dict_has {A} (k : Z) (d : list (Z * A)) : bool :=
  match dict_get k d with Some _ => true | None => false end.

Abbreviation gtbls := (list (Z * list (Z * gsym))).

(** [if k not in tbls: tbls[k] = {}], then [tbls[k][v] = s]. *)
Definition gen_put (tbls : gtbls) (k v : Z) (s : gsym) : gtbls :=
  dict_set k (dict_set v s (default [] (dict_get k tbls))) tbls.

(** One line of the input; a value seen twice is an error. *)
Definition gen_row (tbls : gtbls) (row : Z * Z * Z) : outcome gtbls :=
  let '(char, val, vall) := row in
  let s := gen_sym val vall char None in
  _ ← assertC (negb (dict_has (gs_val s) (default [] (dict_get (gs_pfx s) tbls))));
  let tbls := gen_put tbls (gs_pfx s) (gs_val s) s in
  if truth (gs_pfx s) then
    let pp := Z.shiftr (gs_pfx s) 8 in
    let pv := Z.land (gs_pfx s) 0xff in
    Ok (gen_put tbls pp pv (gen_sym pv 8 0 (Some (gs_pfx s))))
  else Ok tbls.

Fixpoint gen_rows (tbls : gtbls) (rows : list (Z * Z * Z)) : outcome gtbls :=
  match rows with
  | [] => Ok tbls
  | row :: rows => tbls ← gen_row tbls row; gen_rows tbls rows
  end.

(** [struct ssym] and [struct stbl]; [nxt] is the prefix of the next table, and
    table 0 is [tbl_0]. *)
Record ssym := mk_ssym {
  csm : Z;
  chr : Z;
  nxt : option Z
}.

Record stbl := mk_stbl {
  msk : Z;
  syms : list ssym
}.

(** [sorted(..., key=lambda x: x.val)]. *)
Fixpoint gen_insert (s : gsym) (l : list gsym) : list gsym :=
  match l with
  | [] => [s]
  | s' :: l' => if gs_val s <? gs_val s' then s :: l else s' :: gen_insert s l'
  end.

(** The array of one table: a symbol shorter than the longest of its table is
    repeated for all the values of the bits it does not use. *)
Definition gen_table (d : list (Z * gsym)) : stbl :=
  let msl := foldr (fun ks m => Z.max (gs_vall ks.2) m) 0 d in
  let shifted s :=
    mk_gsym (gs_vall s) (Z.shiftl (gs_val s) (msl - gs_vall s)) (gs_pfx s) (gs_chr s) (gs_esc s) in
  let tbl := foldl (fun l s => gen_insert s l) [] (shifted <$> d.*2) in
  mk_stbl msl
    (tbl ≫= fun s => replicate (Z.to_nat (2 ^ (msl - gs_vall s)))
                       (mk_ssym (gs_vall s) (gs_chr s `mod` 256) (gs_esc s))).

(** The whole program: the rows, the EOS case, and one table per prefix. *)
Definition huffman_gen (rows : list (Z * Z * Z)) : outcome (list (Z * stbl)) :=
  tbls ← gen_rows [] rows;
  match dict_get 0xffffff tbls with
  | None => Fault FAssert
  | Some _ =>
      Ok ((fun kd => (kd.1, gen_table kd.2)) <$> gen_put tbls 0xffffff 63 (gen_sym 63 6 0 None))
  end.

(** The tables of vtc_h2_dectbl.h, evaluated. *)
Definition dec_tables : list (Z * stbl) :=
  Eval vm_compute in
    match huffman_gen (hph_rows_lo ++ hph_rows_hi) with Ok t => t | Fault _ => [] end.

Definition dectbl (id : Z) : option stbl := dict_get id dec_tables.

(** ** What the decoder relies on *)

(** The code of a byte as bits. *)
Definition hcode (c : Z) : list bool :=
  match coding_table !! Z.to_nat c with
  | Some (v, n) => bits (Z.to_nat n) v
  | None => []
  end.

(** A table indexed by its [msk] bits, whose links take eight bits and whose
    characters take at least one, and at least five in the first table. *)
Definition sym_wf (T : Z -> option stbl) (id : Z) (t : stbl) (s : ssym) : bool :=
  (0 <=? csm s) && (csm s <=? msk t) && (0 <=? chr s) && (chr s <? 256) &&
  match nxt s with
  | Some id' => (csm s =? 8) && negb (id' =? 0) && bool_decide (is_Some (T id'))
  | None => (csm s =? 0) || negb (id =? 0) || (5 <=? csm s)
  end.

Definition tbl_wf (T : Z -> option stbl) (id : Z) (t : stbl) : bool :=
  (1 <=? msk t) && (msk t <=? 8) &&
  (Z.of_nat (List.length (syms t)) =? 2 ^ msk t) && forallb (sym_wf T id t) (syms t).

(** The character at the end of the path [b] from table [id]: links while more
    bits remain, and then a symbol found whatever the bits that follow; a symbol
    shorter than [msk] is not all ones. *)
Definition is_leaf (t : stbl) (b : list bool) (s : ssym) : bool :=
  let n := List.length b in
  let w := (Z.to_nat (msk t) - n)%nat in
  forallb (fun j =>
    match syms t !! (Z.to_nat (bval b) * 2 ^ w + j)%nat with
    | Some s' => (csm s' =? Z.of_nat n) && (chr s' =? chr s) && bool_decide (nxt s' = None)
    | None => false
    end) (seq 0 (2 ^ w)) &&
  ((Z.of_nat n =? msk t) || negb (forallb id b)).

Fixpoint dec_path (T : Z -> option stbl) (fuel : nat) (id : Z) (b : list bool) : option Z :=
  match fuel with
  | O => None
  | S fuel =>
      t ← T id;
      let n := Z.to_nat (msk t) in
      s ← syms t !! Z.to_nat (bval (take n b) * 2 ^ Z.of_nat (n - List.length b));
      match nxt s with
      | Some id' => dec_path T fuel id' (drop 8 b)
      | None =>
          if (1 <=? Z.of_nat (List.length b)) && (Z.of_nat (List.length b) <=? msk t)
             && is_leaf t b s
          then Some (chr s) else None
      end
  end.

(** What huff_decode asks of [tbl_0] and the tables linked from it. *)
Class DecTbl (T : Z -> option stbl) : Prop := {
  dt_root : exists t, T 0 = Some t /\ msk t = 8;
  dt_wf : forall id t, T id = Some t -> tbl_wf T id t = true;
  dt_codes : forall c, 0 <= c < 256 -> dec_path T 4 0 (hcode c) = Some c
}.

(** The two tables of the source give every byte the same code. *)
Lemma enctbl_hph :
  forallb (fun r => bool_decide (coding_table !! Z.to_nat r.1.1 = Some (r.1.2, r.2)))
    (hph_rows_lo ++ hph_rows_hi) = true.
Proof. vm_compute. reflexivity. Qed.

Lemma dec_codes_checked :
  forallb (fun c => bool_decide (dec_path dectbl 4 0 (hcode (Z.of_nat c)) = Some (Z.of_nat c)))
    (seq 0 256) = true.
Proof. vm_compute. reflexivity. Qed.

Lemma dec_tables_checked :
  forallb (fun kt => tbl_wf dectbl kt.1 kt.2) dec_tables = true.
Proof. vm_compute. reflexivity. Qed.

Lemma dict_get_elem {A} k (v : A) d : dict_get k d = Some v -> (k, v) ∈ d.
Proof.
  induction d as [|[k' v'] d IH]; simpl; [done|]. zcase.
  - intros [= ->]. subst k'. by left.
  - intros H. right. by apply IH.
Qed.

#[export] Instance dectbl_ok : DecTbl dectbl.
Proof.
  split.
  - destruct (dectbl 0) as [t|] eqn:E; [|done]. exists t. split; [done|].
    vm_compute in E. by injection E as <-.
  - intros id t Hid%dict_get_elem.
    pose proof dec_tables_checked as H. rewrite forallb_forall in H.
    apply (H (id, t)). by apply list_elem_of_In.
  - intros c Hc. pose proof dec_codes_checked as H. rewrite forallb_forall in H.
    specialize (H (Z.to_nat c)). rewrite Z2Nat.id in H by lia.
    eapply bool_decide_eq_true_1, H. apply in_seq. lia.
Qed.

(** C9: huffman_gen.py, run on tbl/vhp_huffman.h, meets its assertions and
    produces the tables [dectbl], which satisfy everything the decoder asks for
    ([DecTbl]); and the rows of tbl/vhp_huffman.h are those of
    vtc_h2_enctbl.h, the table the encoder uses. *)
Theorem huffman_gen_ok :
  huffman_gen (hph_rows_lo ++ hph_rows_hi) = Ok dec_tables /\ DecTbl dectbl /\
  forallb (fun r => bool_decide (coding_table !! Z.to_nat r.1.1 = Some (r.1.2, r.2)))
    (hph_rows_lo ++ hph_rows_hi) = true.
Proof. split; [vm_compute; reflexivity|]. split; [exact dectbl_ok|exact enctbl_hph]. Qed.

(** ** Reading the checks *)

Definition code_wf (r : Z * Z) : bool :=
  (5 <=? r.2) && (r.2 <=? 30) && (0 <=? r.1) && (r.1 <? 2 ^ r.2).

Lemma coding_table_checked : forallb code_wf (take 257 coding_table) = true.
Proof. vm_compute. reflexivity. Qed.

Lemma coding_table_row c : 0 <= c < 256 ->
  exists v n, coding_table !! Z.to_nat c = Some (v, n) /\ 5 <= n <= 30 /\ 0 <= v < 2 ^ n.
Proof.
  intros Hc. destruct (lookup_lt_is_Some_2 coding_table (Z.to_nat c)) as [[v n] Hvn].
  { rewrite coding_table_length. lia. }
  exists v, n. split; [done|]. pose proof coding_table_checked as H.
  rewrite forallb_forall in H. specialize (H (v, n)).
  assert (code_wf (v, n) = true) as Hwf.
  { apply H, list_elem_of_In, list_elem_of_lookup_2 with (Z.to_nat c).
    rewrite lookup_take_lt by lia. done. }
  unfold code_wf in Hwf. cbn [fst snd] in Hwf.
  rewrite !andb_true_iff, !Z.leb_le, Z.ltb_lt in Hwf. lia.
Qed.

Lemma hcode_spec c : 0 <= c < 256 ->
  exists v n, coding_table !! Z.to_nat c = Some (v, n) /\ 5 <= n <= 30 /\ 0 <= v < 2 ^ n /\
    hcode c = bits (Z.to_nat n) v.
Proof.
  intros Hc. destruct (coding_table_row c Hc) as (v & n & Hr & Hn & Hv).
  exists v, n. unfold hcode. by rewrite Hr.
Qed.

Section tables.
Context {T : Z -> option stbl} `{!DecTbl T}.

(** The symbol a well-formed table has for [b], the next [msk] bits. *)
Lemma tbl_lookup id t b :
  T id = Some t -> Z.of_nat (List.length b) = msk t ->
  1 <= msk t <= 8 /\ exists s, syms t !! Z.to_nat (bval b) = Some s /\ sym_wf T id t s = true.
Proof.
  intros Hid Hb. pose proof (dt_wf id t Hid) as Hwf. unfold tbl_wf in Hwf.
  rewrite !andb_true_iff, !Z.leb_le, Z.eqb_eq in Hwf. destruct Hwf as [[[H1 H8] Hl] Hs].
  split; [lia|]. pose proof (bval_range b).
  destruct (lookup_lt_is_Some_2 (syms t) (Z.to_nat (bval b))) as [s Hlk].
  { rewrite <- Hb in Hl. lia. }
  exists s. split; [done|]. rewrite forallb_forall in Hs. apply Hs, list_elem_of_In.
  by eapply list_elem_of_lookup_2.
Qed.
End tables.
