(* ===== verification/HpackHuff.v ===== *)
(** * The Huffman coder of vtc_h2_hpack.c: huff_encode, huff_simulate and
    huff_decode.

    The decoder takes its tables as an argument [T], which maps a table's prefix
    to the table ([T 0] is [tbl_0]).  [hdec] is the decoder on strings of bits,
    without the 64-bit window, the refills and the bounds. *)

From Stdlib Require Import ZArith Lia.
From stdpp Require Import base option numbers list.
From S2P Require Import Prelude HuffGen HpackData.
#[local] Open Scope Z_scope.

(** ** The code *)

(** [iter->buf == iter->end]. *)
Definition it_end (it : hpk_iter) : bool :=
  bool_decide (it_buf it = List.length (it_mem it)).

(** [while (pl >= 8)] of [huff_encode]: [hpk_done] when it returns from the
    function, [hpk_more] when it goes on. *)
Fixpoint huff_flush (fuel : nat) (it : hpk_iter) (pack pl : Z) :
    outcome (hpk_result * hpk_iter * Z * Z) :=
  if 8 <=? pl then
    match fuel with
    | O => Fault FFuel
    | S fuel =>
        if it_end it then Ok (hpk_done, it, pack, pl)
        else
          x ← shr64 pack 56;
          it ← it_put it x;
          pack ← shl64 pack 8;
          huff_flush fuel (it_adv it 1) pack (pl - 8)
    end
  else Ok (hpk_more, it, pack, pl).

(** [while (len--)] of [huff_encode]. *)
Fixpoint huff_encode_loop (str : list Z) (it : hpk_iter) (pack pl : Z) :
    outcome (hpk_result * hpk_iter * Z * Z) :=
  match str with
  | [] => Ok (hpk_more, it, pack, pl)
  | c :: str =>
      '(v, s) ← readC coding_table (Z.to_nat (u8 c));
      let pl := pl + s in
      x ← shl64 v (64 - pl);
      let pack := Z.lor pack x in
      '(r, it, pack, pl) ← huff_flush (Z.to_nat pl) it pack pl;
      match r with
      | hpk_done => Ok (hpk_done, it, pack, pl)
      | _ => huff_encode_loop str it pack pl
      end
  end.

Definition huff_encode (it : hpk_iter) (str : list Z) : outcome (hpk_result * hpk_iter) :=
  _ ← assertC (it_ltend it);
  '(r, it, pack, pl) ← huff_encode_loop str it 0 0;
  match r with
  | hpk_done => Ok (hpk_done, it)
  | _ =>
      if truth pl then
        _ ← assertC (pl <? 8);
        if it_end it then Ok (hpk_done, it)
        else
          let pl := pl + 8 in
          x ← shl64 0xff (64 - pl);
          let pack := Z.lor pack x in
          x ← shr64 pack 56;
          it ← it_put it x;
          Ok (hpk_more, it_adv it 1)
      else Ok (hpk_more, it)
  end.

(** [huff_simulate]; [olen] is an [int]. *)
Fixpoint huff_simulate_loop (str : list Z) (olen : Z) : outcome Z :=
  match str with
  | [] => Ok olen
  | c :: str =>
      '(v, s) ← readC coding_table (Z.to_nat (u8 c));
      huff_simulate_loop str (i32 (olen + s))
  end.

Definition huff_simulate (str : list Z) (ilen huff : Z) : outcome Z :=
  if negb (truth huff) || negb (truth ilen) then Ok ilen
  else olen ← huff_simulate_loop str 0; Ok (i32 (olen + 7) `quot` 8).

(** [while (pl <= 56 && ilen > 0)] of [huff_decode]. *)
Fixpoint huff_fill (fuel : nat) (it : hpk_iter) (pack pl ilen : Z) :
    outcome (hpk_iter * Z * Z * Z) :=
  if (pl <=? 56) && (0 <? ilen) then
    match fuel with
    | O => Fault FFuel
    | S fuel =>
        x ← it_get it;
        x ← shl64 (Z.land x 0xff) (56 - pl);
        huff_fill fuel (it_adv it 1) (Z.lor pack x) (pl + 8) (ilen - 1)
    end
  else Ok (it, pack, pl, ilen).

(** The test that ends the decoding when less than [msk] bits are left. *)
Definition huff_stop (pack pl ilen : Z) (t : stbl) : outcome bool :=
  if (pl <? msk t) && (ilen =? 0) then
    if pl =? 0 then Ok true
    else m ← shr64 pack (64 - pl); Ok (m =? u32 (Z.shiftl 1 pl - 1))
  else Ok false.

(** [*p] of a table or symbol pointer. *)
Definition derefC {A} (p : option A) : outcome A :=
  match p with Some x => Ok x | None => Fault FBounds end.

Section decoder.
Variable T : Z -> option stbl.

(** The loop of [huff_decode] with [cap] bytes at [str] and [l] of them
    written: the value returned, the iterator and the bytes written. *)
Fixpoint huff_decode_loop (fuel : nat) (cap : Z) (str : list Z) (it : hpk_iter)
    (ilen pack pl tbl : Z) : outcome (Z * hpk_iter * list Z) :=
  let l := Z.of_nat (List.length str) in
  if negb ((0 <? ilen) || truth pl) then Ok (l, it, str)
  else
    match fuel with
    | O => Fault FFuel
    | S fuel =>
        t ← derefC (T tbl);
        stop ← huff_stop pack pl ilen t;
        if (stop : bool) then _ ← assertC (tbl =? 0); Ok (l, it, str)
        else
          '(it, pack, pl, ilen) ←
            (if pl <? msk t then huff_fill 8 it pack pl ilen else Ok (it, pack, pl, ilen));
          _ ← assertC (truth (msk t));
          i ← shr64 pack (64 - msk t);
          sym ← readC (syms t) (Z.to_nat i);
          _ ← assertC (csm sym <=? msk t);
          if (csm sym =? 0) || (pl <? csm sym) then Ok (0, it, str)
          else
            _ ← assertC (csm sym <=? 8);
            pack ← shl64 pack (csm sym);
            _ ← assertC (csm sym <=? pl);
            let pl := pl - csm sym in
            match nxt sym with
            | Some tbl => huff_decode_loop fuel cap str it ilen pack pl tbl
            | None =>
                _ ← (if l <? cap then Ok tt else Fault FBounds);
                huff_decode_loop fuel cap (str ++ [chr sym]) it ilen pack pl 0
            end
    end.

Definition huff_decode (cap : Z) (it : hpk_iter) (ilen : Z) :
    outcome (Z * hpk_iter * list Z) :=
  huff_decode_loop (Z.to_nat (8 * ilen)) cap [] it ilen 0 0 0.
End decoder.

(** ** Specification *)

(** The bits of the codes of [s]. *)
Definition hbits (s : list Z) : list bool := s ≫= hcode.

Definition bytes (l : list Z) : Prop := Forall (fun x => 0 <= x < 256) l.

(** [out] is [s] encoded as RFC 7541 section 5.2 asks: the codes, and less than
    eight ones to the end of the last byte. *)
Definition huff_encodes (s out : list Z) : Prop :=
  bytes out /\ exists k, (k < 8)%nat /\ byte_bits out = hbits s ++ ones k.

(** How decoding a string of bits ends. *)
Inductive dres := Dok (out : list Z) | Dbad | Dassert.

Section spec.
Variable T : Z -> option stbl.

(** The decoder on bits, in table [id] with [out] decoded: at the end of the
    bits, or with only ones left that do not fill the table's index, decoding
    ends; otherwise the next bits (with zeroes below the last one) select a
    symbol. *)
Fixpoint hdec (fuel : nat) (id : Z) (b : list bool) (out : list Z) : option dres :=
  match b with
  | [] => Some (Dok out)
  | _ =>
      match fuel with
      | O => None
      | S fuel =>
          t ← T id;
          let n := Z.to_nat (msk t) in
          if (Z.of_nat (List.length b) <? msk t) && forallb Datatypes.id b
          then Some (if id =? 0 then Dok out else Dassert)
          else
            s ← syms t !! Z.to_nat (bval (take n (b ++ zeros n)));
            if (csm s =? 0) || (Z.of_nat (List.length b) <? csm s) then Some Dbad
            else
              match nxt s with
              | Some id' => hdec fuel id' (drop (Z.to_nat (csm s)) b) out
              | None => hdec fuel 0 (drop (Z.to_nat (csm s)) b) (out ++ [chr s])
              end
      end
  end.
End spec.

(** ** The encoder *)

Lemma it_end_at pre l : it_end (it_at pre l) = bool_decide (l = []).
Proof.
  unfold it_end, it_at. simpl. rewrite length_app. apply bool_decide_ext.
  destruct l; simpl; split; intros; [done|lia|lia|done].
Qed.

Lemma bytes_app a b : bytes (a ++ b) <-> bytes a /\ bytes b.
Proof. apply Forall_app. Qed.

Lemma byte_bits_snoc a x : byte_bits (a ++ [x]) = byte_bits a ++ bits 8 x.
Proof. rewrite byte_bits_app. unfold byte_bits at 2. simpl. done. Qed.

Lemma bits8_bval b : List.length b = 8%nat -> bits 8 (bval b) = b.
Proof. intros <-. apply bits_bval. Qed.

Lemma bval8_byte b : List.length b = 8%nat -> 0 <= bval b < 256.
Proof. intros Hb. pose proof (bval_range b) as H. by rewrite Hb in H. Qed.

(** Putting the top eight bits of a window out. *)
Lemma put_top b q pre x tail :
  List.length b = 8%nat -> (List.length q <= 56)%nat ->
  shr64 (packed (b ++ q)) 56 = Ok (bval b) /\
  it_put (it_at pre (x :: tail)) (bval b) = Ok (it_at pre (bval b :: tail)) /\
  shl64 (packed (b ++ q)) 8 = Ok (packed q).
Proof.
  intros Hb Hq. split_and!.
  - apply (packed_top b q 8); [by rewrite Hb|lia|lia].
  - rewrite it_put_at. rewrite wrapu_small by by apply bval8_byte. done.
  - apply packed_shift; [by rewrite Hb|lia|lia].
Qed.

(** What a loop of the encoder does with [b] to put out, from an iterator before
    [tail]: it writes whole bytes and keeps the rest in the window, or finds no
    room for them. *)
Definition flushed (b : list bool) (pre tail : list Z)
    (res : outcome (hpk_result * hpk_iter * Z * Z)) : Prop :=
  if decide (List.length b < 8 * S (List.length tail))%nat then
    exists out r, b = byte_bits out ++ r /\ bytes out /\ (List.length r < 8)%nat /\
      res = Ok (hpk_more, it_at (pre ++ out) (drop (List.length out) tail),
              packed r, Z.of_nat (List.length r))
  else exists it pack pl, res = Ok (hpk_done, it, pack, pl).

Lemma flushed_cons b8 b pre x tail res :
  List.length b8 = 8%nat ->
  flushed b (pre ++ [bval b8]) tail res -> flushed (b8 ++ b) pre (x :: tail) res.
Proof.
  intros H8. unfold flushed. rewrite length_app, H8.
  destruct (decide (List.length b < 8 * S (List.length tail))%nat) as [Hl|Hl].
  - intros (out & r & -> & Ho & Hr & ->). rewrite decide_True by (simpl; lia).
    exists (bval b8 :: out), r. rewrite byte_bits_cons, bits8_bval, <- app_assoc by done.
    rewrite <- app_assoc. split_and!; try done. constructor; [by apply bval8_byte|done].
  - intros Hd. rewrite decide_False by (simpl; lia). done.
Qed.

Lemma split8 (q : list bool) : (8 <= List.length q)%nat ->
  exists a b, q = a ++ b /\ List.length a = 8%nat.
Proof.
  intros H. exists (take 8 q), (drop 8 q). rewrite take_drop, length_take_le by done. done.
Qed.

Lemma huff_flush_ok fuel q pre tail :
  (List.length q <= 64)%nat -> (List.length q <= fuel)%nat ->
  flushed q pre tail (huff_flush fuel (it_at pre tail) (packed q) (Z.of_nat (List.length q))).
Proof.
  revert q pre tail. induction fuel as [|fuel IH]; intros q pre tail Hq Hf; cbn [huff_flush].
  - destruct q; [|simpl in Hf; lia]. unfold flushed. rewrite decide_True by (simpl; lia).
    exists [], []. simpl. rewrite app_nil_r, drop_0. split_and!; [done|constructor|lia|done].
  - destruct (Z.leb_spec 8 (Z.of_nat (List.length q))) as [H8|H8].
    + destruct (split8 q ltac:(lia)) as (a & b & -> & Ha). rewrite it_end_at.
      rewrite length_app in *. destruct tail as [|x tail].
      * rewrite bool_decide_eq_true_2 by done. unfold flushed.
        rewrite length_app, decide_False by (simpl; lia). eauto.
      * rewrite bool_decide_eq_false_2 by done.
        destruct (put_top a b pre x tail Ha ltac:(lia)) as (-> & Hput & Hshl).
        rewrite bind_Ok_l, Hput, bind_Ok_l, Hshl, bind_Ok_l, it_adv_at.
        apply flushed_cons; [done|].
        replace (Z.of_nat (List.length a + List.length b) - 8)
          with (Z.of_nat (List.length b)) by lia.
        apply IH; lia.
    + unfold flushed. rewrite decide_True by lia.
      exists [], q. simpl. rewrite app_nil_r, drop_0. split_and!; [done|constructor|lia|done].
Qed.

Lemma hbits_cons c s : hbits (c :: s) = hcode c ++ hbits s.
Proof. done. Qed.

(** Two flushes in a row. *)
Lemma flushed_trans a c pre tail out r res :
  a = byte_bits out ++ r -> bytes out -> (List.length a < 8 * S (List.length tail))%nat ->
  flushed (r ++ c) (pre ++ out) (drop (List.length out) tail) res ->
  flushed (a ++ c) pre tail res.
Proof.
  intros -> Ho Hl. unfold flushed. rewrite !length_app, length_byte_bits, length_drop in *.
  case_decide as H1.
  - intros (out' & r' & E & Ho' & Hr' & ->). rewrite decide_True by lia.
    exists (out ++ out'), r'. rewrite drop_drop, byte_bits_app, <- !app_assoc, E, length_app.
    rewrite bytes_app. split_and!; done.
  - intros H. rewrite decide_False by lia. done.
Qed.

Lemma huff_encode_loop_ok s q pre tail :
  bytes s -> (List.length q < 8)%nat ->
  flushed (q ++ hbits s) pre tail
    (huff_encode_loop s (it_at pre tail) (packed q) (Z.of_nat (List.length q))).
Proof.
  intros Hs. revert q pre tail. induction Hs as [|c s Hc Hs IH]; intros q pre tail Hq.
  - cbn [huff_encode_loop]. unfold hbits. rewrite app_nil_r. unfold flushed.
    rewrite decide_True by lia.
    exists [], q. simpl. rewrite app_nil_r, drop_0. split_and!; [done|constructor|lia|done].
  - cbn [huff_encode_loop]. rewrite (wrapu_small 8 c) by done.
    destruct (hcode_spec c Hc) as (v & n & Hr & Hn & Hv & Hcode).
    rewrite (proj2 (readC_ok _ _ _) Hr), bind_Ok_l.
    destruct (packed_append q (Z.to_nat n) v (64 - (Z.of_nat (List.length q) + n)))
      as (x & -> & Hx); [by rewrite Z2Nat.id by lia|lia|lia|].
    rewrite bind_Ok_l, Hx, <- Hcode.
    assert (Z.of_nat (List.length q) + n = Z.of_nat (List.length (q ++ hcode c))) as ->.
    { rewrite length_app, Hcode, length_bits. lia. }
    assert (List.length (q ++ hcode c) <= 64)%nat.
    { rewrite length_app, Hcode, length_bits. lia. }
    pose proof (huff_flush_ok (Z.to_nat (Z.of_nat (List.length (q ++ hcode c))))
      (q ++ hcode c) pre tail ltac:(done) ltac:(lia)) as Hflush.
    rewrite hbits_cons, app_assoc. unfold flushed in Hflush at 1. case_decide as Hd.
    + destruct Hflush as (out & r & E & Ho & Hr8 & ->). rewrite bind_Ok_l.
      apply (flushed_trans _ _ _ _ out r); [done..|]. by apply IH.
    + destruct Hflush as (it & pack & pl & ->). rewrite bind_Ok_l. unfold flushed.
      rewrite length_app, decide_False by lia. eauto.
Qed.

Lemma shl64_0xff w : 0 <= w <= 56 -> shl64 0xff w = Ok (255 * 2 ^ w).
Proof.
  intros Hw. unfold shl64. rewrite (proj2 (Z.leb_le 0 _)), (proj2 (Z.ltb_lt _ 64)) by lia.
  simpl. f_equal. rewrite Z.shiftl_mul_pow2 by lia. apply wrapu_small.
  pose proof (pow2_pos w ltac:(lia)). split; [lia|].
  apply Z.lt_le_trans with (2 ^ 8 * 2 ^ w); [lia|].
  rewrite <- Z.pow_add_r by lia. apply Z.pow_le_mono_r; lia.
Qed.

Lemma bits8_ones : bits 8 0xff = ones 8.
Proof. reflexivity. Qed.

(** The padding: [r] and ones up to a byte. *)
Lemma huff_pad r pre x tail :
  (0 < List.length r < 8)%nat ->
  exists y p o, shl64 0xff (64 - (Z.of_nat (List.length r) + 8)) = Ok p /\
    shr64 (Z.lor (packed r) p) 56 = Ok o /\
    it_put (it_at pre (x :: tail)) o = Ok (it_at pre (y :: tail)) /\
    0 <= y < 256 /\ bits 8 y = r ++ ones (8 - List.length r).
Proof.
  intros Hr.
  destruct (packed_append r 8 0xff (64 - (Z.of_nat (List.length r) + 8)))
    as (p & Hp & Hlor); [done|lia|lia|].
  exists (bval (r ++ ones (8 - List.length r))), p, (bval (r ++ ones (8 - List.length r))).
  assert (List.length (r ++ ones (8 - List.length r)) = 8%nat) as H8.
  { rewrite length_app, length_ones. lia. }
  rewrite Hlor, bits8_ones. assert (ones 8 = ones (8 - List.length r) ++ ones (List.length r)) as ->.
  { unfold ones. rewrite <- replicate_add. f_equal. lia. }
  rewrite app_assoc.
  destruct (put_top (r ++ ones (8 - List.length r)) (ones (List.length r)) pre x tail H8)
    as (Hs & Hput & _); [rewrite length_ones; lia|].
  split_and!; [done|done|done|apply (bval8_byte _ H8)..|by apply bits8_bval].
Qed.

Lemma div8_bounds a k : (k < 8)%nat ->
  ((8 * a + k + 7) / 8 = if decide (k = 0%nat) then a else S a)%nat.
Proof.
  intros Hk. case_decide; [subst k|].
  - symmetry. apply Nat.div_unique with 7%nat; lia.
  - symmetry. apply Nat.div_unique with (k - 1)%nat; lia.
Qed.

Lemma huff_encode_spec s pre tail :
  bytes s -> tail <> [] ->
  if decide ((List.length (hbits s) + 7) / 8 <= List.length tail)%nat then
    exists out, huff_encodes s out /\ List.length out = ((List.length (hbits s) + 7) / 8)%nat /\
      huff_encode (it_at pre tail) s =
        Ok (hpk_more, it_at (pre ++ out) (drop (List.length out) tail))
  else exists it, huff_encode (it_at pre tail) s = Ok (hpk_done, it).
Proof.
  intros Hs Htail. unfold huff_encode.
  rewrite it_ltend_at, assertC_true, bind_Ok_l by by apply bool_decide_eq_true_2.
  pose proof (huff_encode_loop_ok s [] pre tail Hs ltac:(simpl; lia)) as Hl.
  simpl app in Hl. change (packed []) with 0 in Hl. change (Z.of_nat (List.length [])) with 0 in Hl.
  unfold flushed in Hl. destruct (decide (List.length (hbits s) < _)%nat) as [Hd|Hd].
  - destruct Hl as (out & r & E & Ho & Hr & ->). rewrite bind_Ok_l. cbv beta iota.
    rewrite E, length_app, length_byte_bits, div8_bounds in * by done.
    destruct r as [|b r'] eqn:Er.
    + simpl truth. cbv iota. simpl List.length in Hd |- *.
      rewrite (decide_True (P := 0%nat = 0%nat)), decide_True by (done || lia).
      exists out. split_and!; [|simpl; lia|done]. split; [done|].
      exists 0%nat. split; [lia|]. rewrite E. simpl. by rewrite !app_nil_r.
    + rewrite <- Er in *. rewrite (proj2 (truth_true _)) by (subst r; simpl; lia).
      rewrite assertC_true, bind_Ok_l by (apply Z.ltb_lt; lia). rewrite it_end_at.
      rewrite (decide_False (P := List.length r = 0%nat)) by (by subst r).
      destruct (drop (List.length out) tail) as [|x rest] eqn:Edrop.
      * rewrite bool_decide_eq_true_2 by done. apply (f_equal List.length) in Edrop.
        rewrite length_drop in Edrop. simpl in Edrop. rewrite decide_False by lia. eauto.
      * rewrite bool_decide_eq_false_2 by done. cbv zeta.
        destruct (huff_pad r (pre ++ out) x rest) as (y & p & o & -> & Hshr & Hput & Hy & Hbits).
        { subst r. simpl in *. lia. }
        rewrite bind_Ok_l, Hshr, bind_Ok_l, Hput, bind_Ok_l, it_adv_at.
        pose proof (f_equal List.length Edrop) as Hlen. rewrite length_drop in Hlen. simpl in Hlen.
        rewrite decide_True by lia. exists (out ++ [y]). split_and!.
        -- split; [apply bytes_app; split; [done|by constructor]|].
           exists (8 - List.length r)%nat. split; [subst r; simpl; lia|].
           by rewrite byte_bits_snoc, Hbits, E, app_assoc.
        -- rewrite length_app. simpl. lia.
        -- rewrite length_app, <- drop_drop, Edrop, app_assoc. done.
  - destruct Hl as (it & pack & pl & ->). rewrite bind_Ok_l. cbv beta iota.
    rewrite decide_False; [eauto|].
    intros Hle. assert (8 * S (List.length tail) <= List.length (hbits s))%nat by lia.
    pose proof (Nat.Div0.div_mod (List.length (hbits s) + 7) 8).
    pose proof (Nat.mod_upper_bound (List.length (hbits s) + 7) 8). lia.
Qed.

(** ** The length of the encoding *)

Lemma length_hbits_le s : bytes s -> (List.length (hbits s) <= 30 * List.length s)%nat.
Proof.
  induction 1 as [|c s Hc Hs IH]; [simpl; lia|].
  destruct (hcode_spec c Hc) as (v & n & _ & Hn & _ & Hcode).
  rewrite hbits_cons, length_app, Hcode, length_bits. simpl List.length. lia.
Qed.

Lemma huff_simulate_loop_ok s olen :
  bytes s -> 0 <= olen -> olen + 30 * Z.of_nat (List.length s) < 2 ^ 31 ->
  huff_simulate_loop s olen = Ok (olen + Z.of_nat (List.length (hbits s))).
Proof.
  intros Hs. revert olen. induction Hs as [|c s Hc Hs IH]; intros olen H0 Hb;
    cbn [huff_simulate_loop List.length] in *; [f_equal; simpl; lia|].
  rewrite (wrapu_small 8 c) by done.
  destruct (hcode_spec c Hc) as (v & n & Hr & Hn & _ & Hcode).
  rewrite (proj2 (readC_ok _ _ _) Hr), bind_Ok_l, wraps_small by lia.
  rewrite IH by lia. rewrite hbits_cons, length_app, Hcode, length_bits. f_equal. lia.
Qed.

Lemma huff_simulate_ok s huff :
  bytes s -> huff <> 0 -> 30 * Z.of_nat (List.length s) + 7 < 2 ^ 31 ->
  huff_simulate s (Z.of_nat (List.length s)) huff =
    Ok (Z.of_nat ((List.length (hbits s) + 7) / 8)).
Proof.
  intros Hs Hh Hb. unfold huff_simulate. rewrite (proj2 (truth_true _) Hh). simpl negb.
  pose proof (length_hbits_le s Hs). destruct s as [|c s']; [done|].
  rewrite (proj2 (truth_true _)) by (simpl; lia). simpl orb. cbv iota.
  rewrite huff_simulate_loop_ok by (done || lia). rewrite bind_Ok_l.
  rewrite wraps_small by lia. rewrite Z.quot_div_nonneg by lia.
  rewrite Nat2Z.inj_div. f_equal. f_equal. lia.
Qed.

(** ** The decoder against [hdec] *)

Lemma huff_fill_ok fuel q rest pre post :
  bytes rest -> (List.length q <= 64)%nat -> (64 - List.length q <= 8 * fuel)%nat ->
  exists r1 r2, rest = r1 ++ r2 /\ (List.length (q ++ byte_bits r1) <= 64)%nat /\
    (r2 = [] \/ (56 < List.length (q ++ byte_bits r1))%nat) /\
    huff_fill fuel (it_at pre (rest ++ post)) (packed q) (Z.of_nat (List.length q))
        (Z.of_nat (List.length rest)) =
      Ok (it_at (pre ++ r1) (r2 ++ post), packed (q ++ byte_bits r1),
          Z.of_nat (List.length (q ++ byte_bits r1)), Z.of_nat (List.length r2)).
Proof.
  revert q rest pre. induction fuel as [|fuel IH]; intros q rest pre Hrest Hq Hf.
  - assert (64 = List.length q)%nat by lia. exists [], rest. simpl byte_bits.
    rewrite !app_nil_r. split_and!; [done|lia|right; lia|].
    cbn [huff_fill]. by rewrite (proj2 (Z.leb_gt _ 56)) by lia.
  - cbn [huff_fill]. destruct (Z.leb_spec (Z.of_nat (List.length q)) 56) as [H56|H56].
    + destruct Hrest as [|x rest Hx Hrest].
      { exists [], []. simpl. rewrite !app_nil_r. split_and!; [done|done|by left|done]. }
      rewrite (proj2 (Z.ltb_lt 0 _)) by (simpl; lia). simpl andb. cbv iota. simpl app.
      rewrite it_get_at, bind_Ok_l. change 0xff with (2 ^ 8 - 1).
      rewrite land_low_mod, Z.mod_small by (done || lia).
      destruct (packed_append q 8 x (56 - Z.of_nat (List.length q)))
        as (y & -> & Hy); [done|lia|lia|].
      rewrite bind_Ok_l, it_adv_at, Hy.
      destruct (IH (q ++ bits 8 x) rest (pre ++ [x]) Hrest) as (r1 & r2 & -> & Hl & Hor & Hfill).
      { rewrite length_app, length_bits. lia. }
      { rewrite length_app, length_bits. lia. }
      exists (x :: r1), r2. rewrite byte_bits_cons, app_assoc. split_and!; [done..|].
      replace (Z.of_nat (List.length q) + 8) with (Z.of_nat (List.length (q ++ bits 8 x)))
        by (rewrite length_app, length_bits; lia).
      replace (Z.of_nat (List.length (x :: r1 ++ r2)) - 1)
        with (Z.of_nat (List.length (r1 ++ r2))) by (simpl; lia).
      rewrite Hfill, <- app_assoc. done.
    + exists [], rest. simpl byte_bits. rewrite !app_nil_r. split_and!; [done|lia|right; lia|done].
Qed.

(** The bits seen through the window with [n] bits asked for. *)
Lemma window_index q m :
  1 <= m <= 8 -> (List.length q <= 64)%nat ->
  shr64 (packed q) (64 - m) = Ok (bval (take (Z.to_nat m) (q ++ zeros (Z.to_nat m)))).
Proof.
  intros Hm Hq. set (n := Z.to_nat m). replace m with (Z.of_nat n) by lia.
  assert (1 <= n <= 8)%nat as Hn by lia. clearbody n. clear Hm. destruct (decide (List.length q < n)%nat) as [Hlt|Hge].
  - rewrite <- (packed_zeros q (n - List.length q)) by lia.
    assert (take n (q ++ zeros n) = q ++ zeros (n - List.length q)) as ->.
    { rewrite take_app_ge by lia. unfold zeros. rewrite take_replicate. f_equal. f_equal. lia. }
    rewrite <- (app_nil_r (q ++ zeros _)) at 1.
    apply packed_top; rewrite ?length_app, ?length_zeros; simpl; lia.
  - rewrite take_app_le by lia. rewrite <- (take_drop n q) at 1.
    apply packed_top; rewrite ?length_take, ?length_drop; lia.
Qed.

Lemma window_take q r n : (n <= List.length q)%nat ->
  take n (q ++ zeros n) = take n ((q ++ r) ++ zeros n).
Proof. intros. rewrite <- app_assoc, !(take_app_le q) by lia. done. Qed.

Lemma forallb_id_ones b : forallb Datatypes.id b = true <-> b = ones (List.length b).
Proof.
  induction b as [|[] b IH]; simpl; [done| |done]. rewrite IH.
  change (ones (S (List.length b))) with (true :: ones (List.length b)).
  split; [congruence|by intros [=]].
Qed.

(** [huff_stop] tests for a run of ones. *)
Lemma huff_stop_ok q ilen t :
  (List.length q <= 64)%nat -> msk t <= 8 -> q <> [] \/ ilen <> 0 ->
  huff_stop (packed q) (Z.of_nat (List.length q)) ilen t =
    Ok ((Z.of_nat (List.length q) <? msk t) && (ilen =? 0) && forallb Datatypes.id q).
Proof.
  intros Hq Ht Hne. unfold huff_stop. destruct (Z.ltb_spec (Z.of_nat (List.length q)) (msk t)); simpl; [|done].
  destruct (Z.eqb_spec ilen 0); simpl; [|done].
  assert (q <> []) as Hne0 by (by destruct Hne). clear Hne. rename Hne0 into Hne.
  destruct q as [|b0 q0] eqn:Eq; [done|]. rewrite <- Eq in *. clear Hne.
  assert (0 < List.length q)%nat by (subst q; simpl; lia).
  rewrite (proj2 (Z.eqb_neq _ 0)) by lia.
  rewrite <- (app_nil_r q) at 1. rewrite (packed_top q []) by (simpl; lia).
  rewrite bind_Ok_l. f_equal. apply eq_bool_prop_intro.
  rewrite !Is_true_true, Z.eqb_eq, forallb_id_ones, <- bval_max.
  rewrite Z.shiftl_mul_pow2, Z.mul_1_l by lia. rewrite wrapu_small; [done|].
  pose proof (pow2_pos (Z.of_nat (List.length q)) ltac:(lia)). split; [lia|].
  apply Z.lt_trans with (2 ^ Z.of_nat (List.length q)); [lia|].
  apply Z.pow_lt_mono_r; lia.
Qed.

Section decoder_ok.
Context {T : Z -> option stbl} `{!DecTbl T}.

Lemma root_some : is_Some (T 0).
Proof. destruct dt_root as (t & -> & _). by eexists. Qed.

Lemma stop_bits q rest t :
  (List.length q <= 64)%nat -> 1 <= msk t <= 8 -> q ++ byte_bits rest <> [] ->
  huff_stop (packed q) (Z.of_nat (List.length q)) (Z.of_nat (List.length rest)) t =
    Ok ((Z.of_nat (List.length (q ++ byte_bits rest)) <? msk t) &&
        forallb Datatypes.id (q ++ byte_bits rest)).
Proof.
  intros Hq Ht Hne. rewrite huff_stop_ok; [|done|lia|].
  - f_equal. destruct rest as [|x rest].
    + simpl. rewrite app_nil_r, andb_true_r. done.
    + rewrite (proj2 (Z.eqb_neq _ 0)) by (simpl; lia). rewrite andb_false_r, andb_false_l.
      rewrite (proj2 (Z.ltb_ge _ (msk t))), andb_false_l; [done|].
      rewrite length_app, length_byte_bits. simpl List.length. lia.
  - destruct rest; [left|right; simpl; lia]. simpl in Hne. by rewrite app_nil_r in Hne.
Qed.

(** The refill leaves enough bits in the window for the next index. *)
Lemma refill_ok q rest pre post t :
  bytes rest -> (List.length q <= 64)%nat -> 1 <= msk t <= 8 ->
  exists r1 r2, rest = r1 ++ r2 /\ (List.length (q ++ byte_bits r1) <= 64)%nat /\
    (r2 = [] \/ (Z.to_nat (msk t) <= List.length (q ++ byte_bits r1))%nat) /\
    (if Z.of_nat (List.length q) <? msk t
     then huff_fill 8 (it_at pre (rest ++ post)) (packed q) (Z.of_nat (List.length q))
            (Z.of_nat (List.length rest))
     else Ok (it_at pre (rest ++ post), packed q, Z.of_nat (List.length q),
            Z.of_nat (List.length rest))) =
      Ok (it_at (pre ++ r1) (r2 ++ post), packed (q ++ byte_bits r1),
          Z.of_nat (List.length (q ++ byte_bits r1)), Z.of_nat (List.length r2)).
Proof.
  intros Hrest Hq Ht. destruct (Z.ltb_spec (Z.of_nat (List.length q)) (msk t)).
  - destruct (huff_fill_ok 8 q rest pre post Hrest Hq ltac:(lia))
      as (r1 & r2 & -> & Hl & Hor & ->).
    exists r1, r2. split_and!; [done..| |done]. destruct Hor; [by left|right; lia].
  - exists [], rest. simpl byte_bits. rewrite !app_nil_r. split_and!; [done|done|right; lia|done].
Qed.

Definition dres_agrees (rest pre post : list Z) (d : option dres)
    (res : outcome (Z * hpk_iter * list Z)) : Prop :=
  match d with
  | Some (Dok out) =>
      res = Ok (Z.of_nat (List.length out), it_at (pre ++ rest) post, out)
  | Some Dbad => exists it out, res = Ok (0, it, out)
  | Some Dassert => res = Fault FAssert
  | None => False
  end.

Lemma dres_agrees_app r1 r2 pre post d res :
  dres_agrees r2 (pre ++ r1) post d res -> dres_agrees (r1 ++ r2) pre post d res.
Proof. destruct d as [[]|]; simpl; [by rewrite <- app_assoc|done..]. Qed.

(** What the decoder knows of the symbol selected by the next bits. *)
Lemma sym_cases id t b :
  T id = Some t -> exists s, syms t !! Z.to_nat (bval (take (Z.to_nat (msk t)) (b ++ zeros (Z.to_nat (msk t))))) = Some s /\
    1 <= msk t <= 8 /\ 0 <= csm s <= msk t /\
    match nxt s with
    | Some id' => csm s = 8 /\ id' <> 0 /\ is_Some (T id')
    | None => csm s = 0 \/ id <> 0 \/ 5 <= csm s
    end.
Proof.
  intros Hid. pose proof (dt_wf id t Hid) as Hwf. unfold tbl_wf in Hwf.
  rewrite !andb_true_iff, !Z.leb_le in Hwf.
  destruct (tbl_lookup id t (take (Z.to_nat (msk t)) (b ++ zeros (Z.to_nat (msk t)))) Hid)
    as (Hm & s & Hs & Hw).
  { rewrite length_take, length_app, length_zeros. lia. }
  exists s. split; [done|]. split; [lia|]. unfold sym_wf in Hw.
  rewrite !andb_true_iff, !Z.leb_le in Hw. destruct Hw as [[[[? ?] _] _] Hn]. split; [lia|].
  destruct (nxt s) as [id'|].
  - rewrite !andb_true_iff, Z.eqb_eq, negb_true_iff, Z.eqb_neq in Hn.
    destruct Hn as [[? ?] ?%bool_decide_eq_true_1]. done.
  - rewrite !orb_true_iff, negb_true_iff, Z.eqb_eq, Z.eqb_neq, Z.leb_le in Hn. tauto.
Qed.
(** The bits consumed by a symbol leave the window and the string together. *)
Lemma consume q r c :
  0 <= c <= 8 -> c <= Z.of_nat (List.length q) -> (List.length q <= 64)%nat ->
  shl64 (packed q) c = Ok (packed (drop (Z.to_nat c) q)) /\
  Z.of_nat (List.length q) - c = Z.of_nat (List.length (drop (Z.to_nat c) q)) /\
  drop (Z.to_nat c) (q ++ r) = drop (Z.to_nat c) q ++ r.
Proof.
  intros H0 Hc Hq. split_and!.
  - rewrite <- (take_drop (Z.to_nat c) q) at 1.
    apply packed_shift; rewrite ?length_take, ?length_drop; lia.
  - rewrite length_drop. lia.
  - apply drop_app_le. lia.
Qed.

(** Room left in [str]: every character still to come takes five bits, and a
    character of a table other than the first has had eight already. *)
Definition room_ok (cap : Z) (str : list Z) (id : Z) (b : list bool) : Prop :=
  5 * Z.of_nat (List.length str) + (if id =? 0 then 0 else 5) + Z.of_nat (List.length b) <= 5 * cap.

Lemma room_put cap str id b c :
  room_ok cap str id b -> 1 <= c <= Z.of_nat (List.length b) -> id <> 0 \/ 5 <= c ->
  (Z.of_nat (List.length str) <? cap) = true /\
  forall x, room_ok cap (str ++ [x]) 0 (drop (Z.to_nat c) b).
Proof.
  unfold room_ok. intros Hr Hc Hid. split.
  - apply Z.ltb_lt. destruct (Z.eqb_spec id 0); lia.
  - intros x. rewrite length_app, length_drop. simpl.
    destruct (Z.eqb_spec id 0); lia.
Qed.

Lemma room_link cap str id b id' :
  room_ok cap str id b -> id' <> 0 -> 8 <= Z.of_nat (List.length b) ->
  room_ok cap str id' (drop 8 b).
Proof.
  unfold room_ok. intros Hr Hid Hb. rewrite length_drop.
  rewrite (proj2 (Z.eqb_neq id' 0)) by done. destruct (Z.eqb_spec id 0); lia.
Qed.

Lemma more_bits q rest :
  q ++ byte_bits rest <> [] ->
  (0 <? Z.of_nat (List.length rest)) || truth (Z.of_nat (List.length q)) = true.
Proof.
  intros H. apply orb_true_iff. destruct rest as [|x rest]; [right|left; apply Z.ltb_lt; simpl; lia].
  simpl in H. rewrite app_nil_r in H. apply truth_true. destruct q; [done|simpl; lia].
Qed.

(** The window shows as much as the next symbol needs. *)
Lemma seen_index q r2 n :
  r2 = [] \/ (n <= List.length q)%nat ->
  take n (q ++ zeros n) = take n ((q ++ byte_bits r2) ++ zeros n).
Proof.
  intros [->|Hn]; [simpl; by rewrite app_nil_r|by apply window_take].
Qed.

Lemma seen_enough q r2 m c :
  r2 = [] \/ (Z.to_nat m <= List.length q)%nat -> c <= m ->
  (Z.of_nat (List.length q) <? c) = (Z.of_nat (List.length (q ++ byte_bits r2)) <? c).
Proof.
  intros [->|Hn] Hc; [simpl; by rewrite app_nil_r|].
  rewrite length_app. repeat zcase; lia.
Qed.

Lemma huff_decode_loop_ok fuel cap str q rest pre post id :
  is_Some (T id) -> bytes rest -> (List.length q <= 64)%nat ->
  (List.length (q ++ byte_bits rest) <= fuel)%nat ->
  room_ok cap str id (q ++ byte_bits rest) ->
  dres_agrees rest pre post (hdec T fuel id (q ++ byte_bits rest) str)
    (huff_decode_loop T fuel cap str (it_at pre (rest ++ post))
       (Z.of_nat (List.length rest)) (packed q) (Z.of_nat (List.length q)) id).
Proof.
  revert str q rest pre id. induction fuel as [|fuel IH];
    intros str q rest pre id [t Hid] Hrest Hq Hfuel Hroom.
  { destruct rest as [|x rest]; [destruct q; [|simpl in Hfuel; lia]|
      rewrite length_app, length_byte_bits in Hfuel; simpl in Hfuel; lia].
    simpl. by rewrite app_nil_r. }
  destruct (decide (q ++ byte_bits rest = [])) as [He|Hne].
  { apply app_nil in He as [-> Hr]. destruct rest; [|by apply (f_equal List.length) in Hr].
    simpl. by rewrite app_nil_r. }
  destruct (sym_cases id t (q ++ byte_bits rest) Hid) as (s & Hs & Hm & Hc & Hn).
  cbn [huff_decode_loop]. rewrite (more_bits q rest Hne). simpl negb. cbv iota.
  rewrite Hid. cbn [derefC]. rewrite bind_Ok_l, stop_bits, bind_Ok_l by done.
  cbn [hdec]. destruct (q ++ byte_bits rest) as [|b0 b1] eqn:Eb; [done|]. rewrite <- Eb in *.
  clear b0 b1 Eb. rewrite Hid. cbn [mbind option_bind].
  destruct ((Z.of_nat (List.length (q ++ byte_bits rest)) <? msk t) &&
    forallb Datatypes.id (q ++ byte_bits rest)) eqn:Estop.
  { apply andb_true_iff in Estop as [Hlt%Z.ltb_lt _].
    destruct rest as [|x rest]; [|rewrite length_app, length_byte_bits in Hlt; simpl in Hlt; lia].
    destruct (id =? 0); simpl; [by rewrite app_nil_r|done]. }
  destruct (refill_ok q rest pre post t Hrest Hq Hm) as (r1 & r2 & -> & Hl & Hor & ->).
  rewrite bind_Ok_l. cbv beta iota. apply dres_agrees_app. apply bytes_app in Hrest as [_ Hr2].
  rewrite byte_bits_app, app_assoc in *. set (q1 := q ++ byte_bits r1) in *.
  rewrite assertC_true, bind_Ok_l by (apply truth_true; lia).
  rewrite window_index, bind_Ok_l by lia. rewrite (seen_index q1 r2) by done.
  rewrite (proj2 (readC_ok _ _ _) Hs), bind_Ok_l, Hs. cbn [mbind option_bind].
  rewrite (assertC_true (csm s <=? msk t)), bind_Ok_l by (apply Z.leb_le; lia).
  rewrite (seen_enough q1 r2 (msk t)) by (done || lia).
  destruct ((csm s =? 0) || (Z.of_nat (List.length (q1 ++ byte_bits r2)) <? csm s)) eqn:Ebad.
  { simpl. eauto. }
  apply orb_false_iff in Ebad as [Hc0%Z.eqb_neq Hcl%Z.ltb_ge].
  assert (csm s <= Z.of_nat (List.length q1)) as Hcq.
  { destruct Hor as [->|]; [simpl in Hcl; by rewrite app_nil_r in Hcl|lia]. }
  destruct (consume q1 (byte_bits r2) (csm s)) as (-> & -> & ->); [lia..|].
  rewrite (assertC_true (csm s <=? 8)), !bind_Ok_l by (apply Z.leb_le; lia).
  rewrite (assertC_true (csm s <=? Z.of_nat _)), bind_Ok_l by (apply Z.leb_le; lia).
  pose proof (length_drop q1 (Z.to_nat (csm s))) as Hld.
  destruct (nxt s) as [id'|].
  - destruct Hn as (H8 & Hid' & HT). apply IH; [done|done|lia| |].
    + rewrite length_app in *. lia.
    + rewrite <- drop_app_le, H8 by lia. by apply (room_link _ _ id); [|done|lia].
  - destruct (room_put cap str id _ (csm s) Hroom) as [-> Hroom']; [lia|lia|].
    rewrite bind_Ok_l. apply IH; [apply root_some|done|lia| |].
    + rewrite length_app in *. lia.
    + rewrite <- drop_app_le by lia. apply Hroom'.
Qed.
End decoder_ok.

(** ** Decoding what the encoder writes *)

Section round_trip.
Context {T : Z -> option stbl} `{!DecTbl T}.

Lemma dec_path_nil n id : dec_path T n id [] = None.
Proof.
  revert id. induction n as [|n IH]; intros id; [done|]. cbn [dec_path].
  destruct (T id) as [t|]; [|done]. cbn [mbind option_bind].
  destruct (syms t !! _) as [s|]; [|done]. cbn [mbind option_bind].
  destruct (nxt s); [rewrite drop_nil; apply IH|done].
Qed.

(** One step of [hdec] at a symbol that ends a character. *)
Lemma hdec_leaf fuel id t s b rest out :
  T id = Some t -> 1 <= msk t <= 8 -> 1 <= Z.of_nat (List.length b) <= msk t ->
  is_leaf t b s = true ->
  hdec T (S fuel) id (b ++ rest) out = hdec T fuel 0 rest (out ++ [chr s]).
Proof.
  intros Hid Hm Hb Hleaf. unfold is_leaf in Hleaf. rewrite andb_true_iff in Hleaf.
  destruct Hleaf as [Hall Hones]. rewrite orb_true_iff, Z.eqb_eq, negb_true_iff in Hones.
  set (n := Z.to_nat (msk t)) in *.
  assert (take n ((b ++ rest) ++ zeros n) =
    b ++ take (n - List.length b) (rest ++ zeros n)) as Htake.
  { rewrite <- app_assoc, take_app_ge by lia. done. }
  set (w := take (n - List.length b) (rest ++ zeros n)) in *.
  assert (List.length w = (n - List.length b)%nat) as Hw.
  { subst w. rewrite length_take, length_app, length_zeros. lia. }
  pose proof (bval_range b) as Hbr. pose proof (bval_range w) as Hwr. rewrite Hw in Hwr.
  rewrite forallb_forall in Hall. specialize (Hall (Z.to_nat (bval w))).
  rewrite in_seq, Nat.add_0_l in Hall.
  assert (Z.of_nat (2 ^ (n - List.length b)) = 2 ^ Z.of_nat (n - List.length b)) as Hp
    by (by rewrite Nat2Z.inj_pow).
  specialize (Hall ltac:(lia)).
  assert (Z.to_nat (bval b) * 2 ^ (n - List.length b) + Z.to_nat (bval w) =
    Z.to_nat (bval (b ++ w)))%nat as Hidx.
  { rewrite bval_app, Hw. nia. }
  rewrite Hidx in Hall. destruct (syms t !! _) as [s1|] eqn:Hs1; [|done].
  rewrite !andb_true_iff, !Z.eqb_eq in Hall. destruct Hall as [[Hc Hchr] Hnx%bool_decide_eq_true_1].
  cbn [hdec]. destruct (b ++ rest) as [|b0 b1] eqn:Eb.
  { apply app_nil in Eb as [-> _]. simpl in Hb. lia. }
  rewrite <- Eb in *. clear b0 b1 Eb. rewrite Hid. cbn [mbind option_bind].
  fold n. rewrite Htake, Hs1, length_app. cbn [mbind option_bind].
  destruct ((Z.of_nat (List.length b + List.length rest) <? msk t) &&
    forallb Datatypes.id (b ++ rest)) eqn:Estop.
  { exfalso. apply andb_true_iff in Estop as [Hlt%Z.ltb_lt Ho].
    rewrite forallb_app, andb_true_iff in Ho. destruct Hones as [|Hf]; [lia|].
    destruct Ho as [Ho _]. congruence. }
  rewrite Hc, (proj2 (Z.eqb_neq _ 0)), (proj2 (Z.ltb_ge _ _)) by lia. simpl orb. cbv iota.
  by rewrite Hnx, Hchr, Nat2Z.id, drop_app_length.
Qed.

(** A whole code takes [hdec] back to the first table with its character. *)
Lemma hdec_code n fuel id b rest out c :
  dec_path T n id b = Some c -> (List.length (b ++ rest) <= fuel)%nat ->
  exists fuel', (List.length rest <= fuel')%nat /\
    hdec T fuel id (b ++ rest) out = hdec T fuel' 0 rest (out ++ [c]).
Proof.
  revert fuel id b. induction n as [|n IH]; intros fuel id b Hp Hf; [done|].
  cbn [dec_path] in Hp. destruct (T id) as [t|] eqn:Hid; [|done]. cbn [mbind option_bind] in Hp.
  destruct (syms t !! _) as [s|] eqn:Hs in Hp; [|done]. cbn [mbind option_bind] in Hp.
  destruct (sym_cases id t (b ++ rest) Hid) as (s' & Hs' & Hm & Hc & Hn).
  destruct (nxt s) as [id'|] eqn:Hnx.
  - destruct (decide (List.length b < 8)%nat) as [Hlt|Hge].
    { by rewrite drop_ge, dec_path_nil in Hp by lia. }
    rewrite <- app_assoc, take_app_le in Hs' by lia.
    replace (Z.to_nat (msk t) - List.length b)%nat with 0%nat in Hs by lia.
    rewrite Z.mul_1_r, Hs' in Hs. injection Hs as ->. rewrite Hnx in Hn.
    destruct Hn as (H8 & Hid' & HT). rewrite length_app in Hf.
    destruct fuel as [|fuel]; [lia|].
    destruct (IH fuel id' (drop 8 b) Hp) as (fuel' & Hf' & Heq).
    { rewrite length_app, length_drop. lia. }
    exists fuel'. split; [done|]. rewrite <- Heq. cbn [hdec].
    destruct (b ++ rest) as [|b0 b1] eqn:Eb.
    { apply app_nil in Eb as [-> _]. simpl in Hge. lia. }
    rewrite <- Eb in *. clear b0 b1 Eb. rewrite Hid. cbn [mbind option_bind].
    rewrite (proj2 (Z.ltb_ge _ (msk t))) by (rewrite length_app; lia). rewrite andb_false_l.
    rewrite <- app_assoc, take_app_le, Hs' by lia. cbn [mbind option_bind].
    rewrite H8, length_app. rewrite (proj2 (Z.ltb_ge _ 8)) by lia. simpl orb. cbv iota.
    rewrite Hnx. change (Z.to_nat 8) with 8%nat. by rewrite drop_app_le by lia.
  - destruct (_ && _) eqn:E in Hp; [|done]. injection Hp as <-.
    rewrite !andb_true_iff, !Z.leb_le in E. destruct E as [[H1 H2] Hleaf].
    rewrite length_app in Hf. destruct fuel as [|fuel]; [lia|].
    exists fuel. split; [lia|]. apply (hdec_leaf _ _ t s); done || lia.
Qed.

Lemma hdec_ones fuel k out :
  (k < 8)%nat -> (k <= fuel)%nat -> hdec T fuel 0 (ones k) out = Some (Dok out).
Proof.
  intros Hk Hf. destruct k as [|k]; [by destruct fuel|].
  destruct fuel as [|fuel]; [lia|]. destruct dt_root as (t & Ht & Hm).
  change (ones (S k)) with (true :: ones k). cbn [hdec]. rewrite Ht. cbn [mbind option_bind].
  rewrite (proj2 (Z.ltb_lt _ (msk t))) by (simpl List.length; rewrite length_ones; lia).
  change (true :: ones k) with (ones (S k)). rewrite (proj2 (forallb_id_ones _)); [done|].
  by rewrite length_ones.
Qed.

Lemma hdec_hbits s fuel k out :
  bytes s -> (k < 8)%nat -> (List.length (hbits s ++ ones k) <= fuel)%nat ->
  hdec T fuel 0 (hbits s ++ ones k) out = Some (Dok (out ++ s)).
Proof.
  intros Hs Hk. revert fuel out. induction Hs as [|c s Hc Hs IH]; intros fuel out Hf.
  - simpl app in *. rewrite app_nil_r. apply hdec_ones; [done|].
    by rewrite length_ones in Hf.
  - rewrite hbits_cons, <- app_assoc in *.
    destruct (hdec_code 4 fuel 0 (hcode c) (hbits s ++ ones k) out c (dt_codes c Hc) Hf)
      as (fuel' & Hf' & ->).
    rewrite IH by done. by rewrite <- app_assoc.
Qed.
End round_trip.

(** ** Properties *)

(** [huff_decode] on a whole string, from the loop. *)
Lemma huff_decode_agrees `{!DecTbl T} cap inp pre post :
  bytes inp -> 8 * Z.of_nat (List.length inp) <= 5 * cap ->
  dres_agrees inp pre post (hdec T (8 * List.length inp) 0 (byte_bits inp) [])
    (huff_decode T cap (it_at pre (inp ++ post)) (Z.of_nat (List.length inp))).
Proof.
  intros Hin Hcap. unfold huff_decode.
  replace (Z.to_nat (8 * Z.of_nat (List.length inp))) with (8 * List.length inp)%nat by lia.
  apply (huff_decode_loop_ok (8 * List.length inp) cap [] [] inp pre post 0);
    [apply root_some|done|simpl; lia|simpl app; rewrite length_byte_bits; lia|].
  unfold room_ok. simpl app. rewrite length_byte_bits. simpl. lia.
Qed.

(** [huff_encode] implements the string encoding of RFC 7541 section 5.2:
    for every string of bytes, if the buffer has room for the number of bytes
    [huff_simulate] predicts, it writes over the old bytes exactly the codes of
    the string padded with less than eight ones, stops after them, and leaves
    the rest of the buffer alone; otherwise it reports [hpk_done] without
    writing past the end. *)
Theorem huff_encode_ok s pre tail :
  bytes s -> tail <> [] -> 30 * Z.of_nat (List.length s) + 7 < 2 ^ 31 ->
  exists n, huff_simulate s (Z.of_nat (List.length s)) 1 = Ok (Z.of_nat n) /\
  if decide (n <= List.length tail)%nat then
    exists out, huff_encodes s out /\ List.length out = n /\
      huff_encode (it_at pre tail) s = Ok (hpk_more, it_at (pre ++ out) (drop n tail))
  else exists it, huff_encode (it_at pre tail) s = Ok (hpk_done, it).
Proof.
  intros Hs Ht Hb. exists ((List.length (hbits s) + 7) / 8)%nat.
  split; [by apply huff_simulate_ok|].
  pose proof (huff_encode_spec s pre tail Hs Ht) as H. case_decide; [|done].
  destruct H as (out & ? & Hl & He). exists out. by rewrite He, Hl.
Qed.

Lemma huff_encode_ok_witness :
  exists n, huff_simulate [119; 119; 119] 3 1 = Ok (Z.of_nat n) /\
  if decide (n <= 4)%nat then
    exists out, huff_encodes [119; 119; 119] out /\ List.length out = n /\
      huff_encode (it_at [1] [0; 0; 0; 9]) [119; 119; 119] =
        Ok (hpk_more, it_at ([1] ++ out) (drop n [0; 0; 0; 9]))
  else exists it, huff_encode (it_at [1] [0; 0; 0; 9]) [119; 119; 119] = Ok (hpk_done, it).
Proof.
  apply (huff_encode_ok [119; 119; 119] [1] [0; 0; 0; 9]); [|done|simpl; lia].
  repeat constructor; lia.
Defined.

(** [huff_decode] on a valid encoding of [s] of any length, followed by
    anything. *)
Lemma huff_decode_encodes (T : Z -> option stbl) `{!DecTbl T} s inp pre post cap :
  bytes s -> huff_encodes s inp -> 8 * Z.of_nat (List.length inp) <= 5 * cap ->
  huff_decode T cap (it_at pre (inp ++ post)) (Z.of_nat (List.length inp)) =
    Ok (Z.of_nat (List.length s), it_at (pre ++ inp) post, s).
Proof.
  intros Hs [Hin (k & Hk & Hbits)] Hcap.
  pose proof (huff_decode_agrees (T := T) cap inp pre post Hin Hcap) as H.
  rewrite <- length_byte_bits, Hbits, hdec_hbits in H by (done || lia). exact H.
Qed.

(** C7: [huff_decode] inverts [huff_encode], whatever tables satisfy [DecTbl]:
    for every string of bytes, if the buffer has room for the number of bytes
    that [huff_simulate] predicts, [huff_encode] succeeds and writes [out], so
    many bytes; and on [out], followed by anything, [huff_decode] returns the
    length of the string, leaves the string, consumes [out] and no more, and
    meets none of its assertions on the way, where a string buffer of 8/5 of the
    input is large enough.  Without the room [huff_encode] reports [hpk_done]. *)
Theorem huff_roundtrip (T : Z -> option stbl) `{!DecTbl T} s pre tail :
  bytes s -> tail <> [] -> 30 * Z.of_nat (List.length s) + 7 < 2 ^ 31 ->
  exists n, huff_simulate s (Z.of_nat (List.length s)) 1 = Ok (Z.of_nat n) /\
  if decide (n <= List.length tail)%nat then
    exists out, List.length out = n /\
      huff_encode (it_at pre tail) s = Ok (hpk_more, it_at (pre ++ out) (drop n tail)) /\
      forall pre' post cap, 8 * Z.of_nat n <= 5 * cap ->
        huff_decode T cap (it_at pre' (out ++ post)) (Z.of_nat n) =
          Ok (Z.of_nat (List.length s), it_at (pre' ++ out) post, s)
  else exists it, huff_encode (it_at pre tail) s = Ok (hpk_done, it).
Proof.
  intros Hs Ht Hb. destruct (huff_encode_ok s pre tail Hs Ht Hb) as (n & Hn & H). exists n. split; [done|].
  destruct (decide _); [|done]. destruct H as (out & He & Hl & Ho). exists out. do 2 (split; [done|]). intros pre' post cap Hcap.
  rewrite <-Hl in Hcap |- *. by apply huff_decode_encodes.
Qed.

Lemma huff_roundtrip_witness :
  DecTbl dectbl /\ exists n, huff_simulate [119; 119; 119] 3 1 = Ok (Z.of_nat n) /\
  if decide (n <= 4)%nat then
    exists out, List.length out = n /\
      huff_encode (it_at [1] [0; 0; 0; 9]) [119; 119; 119] = Ok (hpk_more, it_at ([1] ++ out) (drop n [0; 0; 0; 9])) /\
      forall pre' post cap, 8 * Z.of_nat n <= 5 * cap ->
        huff_decode dectbl cap (it_at pre' (out ++ post)) (Z.of_nat n) =
          Ok (3, it_at (pre' ++ out) post, [119; 119; 119])
  else exists it, huff_encode (it_at [1] [0; 0; 0; 9]) [119; 119; 119] = Ok (hpk_done, it).
Proof.
  split; [exact dectbl_ok|].
  apply (huff_roundtrip dectbl [119; 119; 119] [1] [0; 0; 0; 9]); [repeat constructor; lia|done|simpl; lia].
Defined.

(** C8: [huff_decode] on arbitrary input, valid or not: it terminates,
    never reads outside the input, never indexes outside a table, never shifts
    out of range and never writes outside a string of 8/5 of the input, and its
    result is that of the decoder on bits [hdec]; the only way for it to go
    wrong is the assertion [tbl == &tbl_0]. *)
Theorem huff_decode_refines (T : Z -> option stbl) `{!DecTbl T} inp pre post cap :
  bytes inp -> 8 * Z.of_nat (List.length inp) <= 5 * cap ->
  match hdec T (8 * List.length inp) 0 (byte_bits inp) [] with
  | Some (Dok out) =>
      huff_decode T cap (it_at pre (inp ++ post)) (Z.of_nat (List.length inp)) =
        Ok (Z.of_nat (List.length out), it_at (pre ++ inp) post, out)
  | Some Dbad => exists it out,
      huff_decode T cap (it_at pre (inp ++ post)) (Z.of_nat (List.length inp)) = Ok (0, it, out)
  | Some Dassert =>
      huff_decode T cap (it_at pre (inp ++ post)) (Z.of_nat (List.length inp)) = Fault FAssert
  | None => False
  end.
Proof. apply huff_decode_agrees. Qed.

Lemma huff_decode_refines_witness :
  huff_decode dectbl 4 (it_at [] ([0x07; 0xff] ++ [])) 2 = Fault FAssert.
Proof.
  apply (huff_decode_refines dectbl [0x07; 0xff] [] [] 4); [|simpl; lia].
  repeat constructor; lia.
Defined.

(** Too much padding, on bits. *)
Lemma hdec_overpad s fuel k out :
  bytes s -> (8 <= k < 16)%nat -> (List.length (hbits s ++ ones k) <= fuel)%nat ->
  hdec dectbl fuel 0 (hbits s ++ ones k) out =
    Some (if decide (k = 8)%nat then Dok (out ++ s) else Dassert).
Proof.
  intros Hs Hk. revert fuel out. induction Hs as [|c s Hc Hs IH]; intros fuel out Hf.
  - simpl app in *. rewrite app_nil_r. rewrite length_ones in Hf.
    destruct fuel as [|[|fuel]]; [lia..|].
    do 16 (destruct k as [|k]; [first [lia|vm_compute; reflexivity]|]). lia.
  - rewrite hbits_cons, <- app_assoc in *.
    destruct (hdec_code (T := dectbl) 4 fuel 0 (hcode c) (hbits s ++ ones k) out c (dt_codes c Hc) Hf)
      as (fuel' & Hf' & ->).
    rewrite IH by done. by rewrite <- app_assoc.
Qed.

(** Padding of a whole byte or more, which RFC 7541 section 5.2 wants
    treated as a decoding error: exactly eight ones are accepted, and nine to
    fifteen make the assertion [tbl == &tbl_0] of [huff_decode] fail, so that a
    peer's header block stops the program. *)
Theorem huff_decode_overpad s inp k pre post cap :
  bytes s -> bytes inp -> byte_bits inp = hbits s ++ ones k -> (8 <= k < 16)%nat ->
  8 * Z.of_nat (List.length inp) <= 5 * cap ->
  huff_decode dectbl cap (it_at pre (inp ++ post)) (Z.of_nat (List.length inp)) =
    if decide (k = 8)%nat
    then Ok (Z.of_nat (List.length s), it_at (pre ++ inp) post, s) else Fault FAssert.
Proof.
  intros Hs Hin Hbits Hk Hcap.
  pose proof (huff_decode_agrees (T := dectbl) cap inp pre post Hin Hcap) as H.
  rewrite <- length_byte_bits, Hbits, hdec_overpad in H by (done || lia). by case_decide.
Qed.

Lemma huff_decode_overpad_witness :
  huff_decode dectbl 4 (it_at [] ([0x07; 0xff] ++ [])) 2 = Fault FAssert.
Proof.
  apply (huff_decode_overpad [48] [0x07; 0xff] 11 [] [] 4);
    [repeat constructor; lia|repeat constructor; lia|vm_compute; reflexivity|lia|simpl; lia].
Defined.
