(* ===== verification/HpackHdr.v ===== *)
(** * String literals and header fields: str_encode, str_decode, HPK_DecHdr and
    HPK_EncHdr of vtc_h2_hpack.c, and HPK_NewIter of vtc_h2_tbl.c.

    The decoder frees some of the strings it allocated when it fails; a [slot]
    records whether the block a text points to has been freed, so that a second
    [free] of it is a fault. *)

From Stdlib Require Import ZArith Lia String.
From stdpp Require Import base option numbers list.
From S2P Require Import Prelude HuffGen HpackData HpackInt HpackTbl.
From S2P Require Import HpackHuff.
#[local] Open Scope Z_scope.

(** ** The code *)

(** A [struct hpk_txt] the decoder fills: [sl_freed] says its [ptr] dangles. *)
Record slot := mk_slot {
  sl_txt : hpk_txt;
  sl_freed : bool
}.

(** [free(t->ptr)]; freeing NULL does nothing. *)
Definition free_slot (t : slot) : outcome slot :=
  match txt_ptr (sl_txt t) with
  | None => Ok t
  | Some _ => if sl_freed t then Fault FFree else Ok (mk_slot (sl_txt t) true)
  end.

(** The header [HPK_DecHdr] fills. *)
Record hdr_slots := mk_hdr_slots {
  hs_key : slot;
  hs_value : slot;
  hs_t : hpk_indexed;
  hs_i : Z
}.

Definition hs_hdr (h : hdr_slots) : hpk_hdr :=
  mk_hdr (sl_txt (hs_key h)) (sl_txt (hs_value h)) (hs_t h) (hs_i h).

(** The header of a caller that zeroed it. *)
Definition hdr_zero : hdr_slots :=
  mk_hdr_slots (mk_slot txt_null false) (mk_slot txt_null false) hpk_unset 0.

Definition HPK_NewIter (buf : list Z) (sz : Z) : outcome hpk_iter :=
  _ ← assertC (truth sz); Ok (mk_iter (take (Z.to_nat sz) buf) 0).

Definition gethpk_iterLen (it : hpk_iter) : Z := Z.of_nat (it_buf it).

(** [memcpy(iter->buf, src, n); iter->buf += n] and
    [memcpy(dst, iter->buf, n); iter->buf += n]. *)
Definition it_write (it : hpk_iter) (src : list Z) : outcome hpk_iter :=
  let n := List.length src in
  if decide (it_buf it + n <= List.length (it_mem it))%nat then
    Ok (mk_iter (take (it_buf it) (it_mem it) ++ src ++ drop (it_buf it + n) (it_mem it))
          (it_buf it + n))
  else Fault FBounds.

Definition it_read (it : hpk_iter) (n : nat) : outcome (list Z * hpk_iter) :=
  if decide (it_buf it + n <= List.length (it_mem it))%nat then
    Ok (take n (drop (it_buf it) (it_mem it)), it_adv it n)
  else Fault FBounds.

Definition str_encode (it : hpk_iter) (t : hpk_txt) : outcome (hpk_result * hpk_iter) :=
  let s := default [] (txt_ptr t) in
  slen ← huff_simulate s (txt_len t) (txt_huff t);
  _ ← assertC (it_ltend it);
  it ← it_put it (if truth (txt_huff t) then 0x80 else 0);
  '(r, it) ← num_encode it 7 (u32 slen);
  match r with
  | hpk_err => Ok (hpk_err, it)
  | _ =>
      if Z.of_nat (it_left it) <? slen then Ok (hpk_err, it)
      else if truth (txt_huff t) then huff_encode it s
      else it ← it_write it s; Ok (ITER_DONE it, it)
  end.

Section decoder.
Variable T : Z -> option stbl.

Definition str_decode (it : hpk_iter) (t : slot) : outcome (hpk_result * hpk_iter * slot) :=
  _ ← assertC (it_ltend it);
  b ← it_get it;
  let huff := Z.land b 0x80 in
  '(r, num, it) ← num_decode it 7;
  match r with
  | hpk_more =>
      _ ← assertC (it_ltend it);
      if u32 (Z.of_nat (it_left it)) <? num then Ok (hpk_err, it, t)
      else if truth huff then
        '(n, it, s) ← huff_decode T ((num * 8) `quot` 5 + 1) it (i32 num);
        let num := u32 n in
        let t := mk_slot (mk_txt (Some s) (txt_huff (sl_txt t))) false in
        if negb (truth num) then t ← free_slot t; Ok (hpk_err, it, t)
        else Ok (ITER_DONE it, it, mk_slot (mk_txt (Some s) 1) false)
      else
        '(s, it) ← it_read it (Z.to_nat num);
        Ok (ITER_DONE it, it, mk_slot (mk_txt (Some s) 0) false)
  | _ => Ok (hpk_err, it, t)
  end.

(** [txtcpy(to, from)]; [huff] is not copied. *)
Definition txtcpy (to : slot) (from : option (list Z)) : outcome slot :=
  s ← copy_txt from; Ok (mk_slot (mk_txt (Some s) (txt_huff (sl_txt to))) false).

Abbreviation dec_res := (hpk_result * hpk_iter * hpk_ctx * hdr_slots)%type.

(** The branch of an indexed header field. *)
Definition dec_indexed (it : hpk_iter) (ctx : hpk_ctx) (h : hdr_slots) : outcome dec_res :=
  let h := mk_hdr_slots (hs_key h) (hs_value h) hpk_idx (hs_i h) in
  '(r, num, it) ← num_decode it 7;
  match r with
  | hpk_err => Ok (hpk_err, it, ctx, h)
  | _ =>
      if truth num then
        t ← tbl_get_key ctx num;
        match t with
        | None => Ok (hpk_err, it, ctx, h)
        | Some t =>
            k ← txtcpy (hs_key h) t;
            let h := mk_hdr_slots k (hs_value h) (hs_t h) (hs_i h) in
            t ← tbl_get_value ctx num;
            match t with
            | None =>
                k ← free_slot (hs_key h);
                Ok (hpk_err, it, ctx, mk_hdr_slots k (hs_value h) (hs_t h) (hs_i h))
            | Some t =>
                v ← txtcpy (hs_value h) t;
                let h := mk_hdr_slots (hs_key h) v (hs_t h) (hs_i h) in
                Ok (if it_ltend it then hpk_more else hpk_done, it, ctx, h)
            end
        end
      else Ok (hpk_err, it, ctx, h)
  end.

(** The key of a literal field: [hpk_err] when the function returns it. *)
Definition dec_key (it : hpk_iter) (ctx : hpk_ctx) (h : hdr_slots) (num : Z) :
    outcome (hpk_result * hpk_iter * slot) :=
  if truth num then
    t ← tbl_get_key ctx num;
    match t with
    | None => Ok (hpk_err, it, hs_key h)
    | Some t => k ← txtcpy (hs_key h) t; Ok (hpk_more, it, k)
    end
  else
    '(r, it, k) ← str_decode it (hs_key h);
    match r with
    | hpk_more => Ok (hpk_more, it, k)
    | _ => k ← free_slot k; Ok (hpk_err, it, k)
    end.

(** The literal fields, after the first bits of [*iter->buf]. *)
Definition dec_literal (it : hpk_iter) (ctx : hpk_ctx) (h : hdr_slots)
    (t : hpk_indexed) (pref : Z) (must_index : bool) : outcome dec_res :=
  let h := mk_hdr_slots (hs_key h) (hs_value h) t (hs_i h) in
  _ ← assertC (truth pref);
  '(r, num, it) ← num_decode it pref;
  match r with
  | hpk_more =>
      let h := mk_hdr_slots (hs_key h) (hs_value h) t num in
      '(r, it, k) ← dec_key it ctx h num;
      let h := mk_hdr_slots k (hs_value h) t num in
      match r with
      | hpk_err => Ok (hpk_err, it, ctx, h)
      | _ =>
          '(r, it, v) ← str_decode it (hs_value h);
          let h := mk_hdr_slots (hs_key h) v t num in
          match r with
          | hpk_err =>
              k ← free_slot (hs_key h);
              Ok (hpk_err, it, ctx, mk_hdr_slots k v t num)
          | _ =>
              ctx ← (if must_index then push_header ctx (hs_hdr h) else Ok ctx);
              Ok (ITER_DONE it, it, ctx, h)
          end
      end
  | _ => Ok (hpk_err, it, ctx, h)
  end.

Definition HPK_DecHdr (it : hpk_iter) (ctx : hpk_ctx) (h : hdr_slots) : outcome dec_res :=
  _ ← assertC (it_ltend it);
  b ← it_get it;
  if truth (Z.land b 128) then dec_indexed it ctx h
  else if Z.shiftr b 6 =? 1 then dec_literal it ctx h hpk_inc 6 true
  else if Z.shiftr b 4 =? 0 then dec_literal it ctx h hpk_not 4 false
  else if Z.shiftr b 4 =? 1 then dec_literal it ctx h hpk_never 4 false
  else if Z.shiftr b 5 =? 1 then
    '(r, num, it) ← num_decode it 5;
    match r with
    | hpk_done => '(r, ctx) ← HPK_ResizeTbl ctx num; Ok (r, it, ctx, h)
    | _ => Ok (hpk_err, it, ctx, h)
    end
  else Ok (hpk_err, it, ctx, h).
End decoder.

(** The key, the value and the table, after the first byte. *)
Definition enc_literal (it : hpk_iter) (ctx : hpk_ctx) (h : hpk_hdr) (pref : Z)
    (must_index : bool) : outcome (hpk_result * hpk_iter * hpk_ctx) :=
  '(r, it) ←
    (if truth (hdr_i h) then num_encode it pref (hdr_i h)
     else str_encode (it_adv it 1) (hdr_key h));
  match r with
  | hpk_more =>
      '(ret, it) ← str_encode it (hdr_value h);
      match ret with
      | hpk_err => Ok (hpk_err, it, ctx)
      | _ =>
          ctx ← (if must_index then push_header ctx h else Ok ctx);
          Ok (ret, it, ctx)
      end
  | _ => Ok (hpk_err, it, ctx)
  end.

Definition HPK_EncHdr (it : hpk_iter) (ctx : hpk_ctx) (h : hpk_hdr) :
    outcome (hpk_result * hpk_iter * hpk_ctx) :=
  match hdr_t h with
  | hpk_idx =>
      it ← it_put it 0x80;
      '(r, it) ← num_encode it 7 (hdr_i h);
      _ ← assertC (negb (bool_decide (r = hpk_err)));
      Ok (ITER_DONE it, it, ctx)
  | hpk_inc => it ← it_put it 0x40; enc_literal it ctx h 6 true
  | hpk_not => it ← it_put it 0x00; enc_literal it ctx h 4 false
  | hpk_never => it ← it_put it 0x10; enc_literal it ctx h 4 false
  | hpk_unset => Fault FIncompl
  end.

(** A double free: a literal field with an empty Huffman-coded name. *)
Example dec_empty_huff_key :
  HPK_DecHdr dectbl (mk_iter [0x40; 0x80; 0x01; 0x61] 0) (HPK_NewCtx 4096) hdr_zero =
    Fault FFree.
Proof. vm_compute. reflexivity. Qed.

(** RFC 7541 appendix C.2.1 and C.4.1. *)
Example dec_c21 :
  HPK_DecHdr dectbl
    (mk_iter (0x40 :: 10 :: str "custom-key"%string ++ 13 :: str "custom-header"%string) 0)
    (HPK_NewCtx 4096) hdr_zero =
  Ok (hpk_done, mk_iter (0x40 :: 10 :: str "custom-key"%string ++ 13 :: str "custom-header"%string) 26,
    mk_ctx [mk_dynhdr (str "custom-key"%string) (str "custom-header"%string) None] 4096 55,
    mk_hdr_slots (mk_slot (mk_txt (Some (str "custom-key"%string)) 0) false)
      (mk_slot (mk_txt (Some (str "custom-header"%string)) 0) false) hpk_inc 0).
Proof. vm_compute. reflexivity. Qed.

(** ** The wire format of RFC 7541 sections 5.2 and 6 *)

(** The bytes of a string, as such or Huffman-coded, and their number. *)
Definition payload (t : hpk_txt) : nat :=
  let s := default [] (txt_ptr t) in
  if truth (txt_huff t) then (List.length (hbits s) + 7) / 8 else List.length s.

Definition str_hi (t : hpk_txt) : Z := if truth (txt_huff t) then 128 else 0.

Definition str_code (t : hpk_txt) (out : list Z) : Prop :=
  exists body, out = rfc_int 7 (str_hi t) (Z.of_nat (payload t)) ++ body /\
    if truth (txt_huff t) then huff_encodes (default [] (txt_ptr t)) body
    else body = default [] (txt_ptr t).

Definition str_len (t : hpk_txt) : nat :=
  List.length (rfc_int 7 (str_hi t) (Z.of_nat (payload t))) + payload t.

(** The texts the encoder takes: bytes, short enough for [int] bit counts, not
    the length its integers cannot express, and not an empty Huffman string. *)
Record txt_ok (t : hpk_txt) (s : list Z) : Prop := {
  tx_ptr : txt_ptr t = Some s;
  tx_bytes : bytes s;
  tx_short : 30 * Z.of_nat (List.length s) + 7 < 2 ^ 31;
  tx_127 : payload t <> 127%nat;
  tx_huff : truth (txt_huff t) = true -> s <> []
}.

Lemma huff_encodes_length s o :
  huff_encodes s o -> List.length o = ((List.length (hbits s) + 7) / 8)%nat.
Proof.
  intros (_ & k & Hk & Hb). apply (f_equal List.length) in Hb.
  rewrite length_byte_bits, length_app, length_ones in Hb.
  apply Nat.div_unique with (7 - k)%nat; lia.
Qed.

Lemma str_code_length t out : str_code t out -> List.length out = str_len t.
Proof.
  intros (body & -> & Hb). unfold str_len. rewrite length_app. f_equal. unfold payload.
  destruct (truth (txt_huff t)); [by apply huff_encodes_length|by subst].
Qed.

Lemma payload_le t s :
  txt_ok t s -> (payload t <= 4 * List.length s)%nat.
Proof.
  intros [Hp Hs _ _ _]. unfold payload. rewrite Hp. change (default [] (Some s)) with s.
  pose proof (length_hbits_le s Hs). destruct (truth (txt_huff t)); [|lia].
  apply Nat.lt_succ_r, Nat.Div0.div_lt_upper_bound. lia.
Qed.

Lemma payload_pos t s :
  txt_ok t s -> truth (txt_huff t) = true -> (0 < payload t)%nat.
Proof.
  intros Ht Hh. pose proof Ht as [Hp Hs _ _ Hne]. unfold payload. rewrite Hp, Hh.
  change (default [] (Some s)) with s. cbv iota.
  destruct Hs as [|c s Hc Hs]; [by specialize (Hne Hh)|].
  destruct (hcode_spec c Hc) as (v & n & _ & Hn & _ & Hcode).
  rewrite hbits_cons, length_app, Hcode, length_bits.
  apply Nat.div_str_pos. lia.
Qed.

Lemma str_hi_bits t : hi_bits 7 (str_hi t) = str_hi t.
Proof. unfold str_hi. by destruct (truth _). Qed.

Lemma str_hi_range t : 0 <= str_hi t < 256 /\ str_hi t `mod` 2 ^ 7 = 0.
Proof. unfold str_hi. destruct (truth _); split; done || lia. Qed.

Lemma it_write_at pre tail s :
  (List.length s <= List.length tail)%nat ->
  it_write (it_at pre tail) s = Ok (it_at (pre ++ s) (drop (List.length s) tail)).
Proof.
  intros Hl. unfold it_write, it_at. simpl. rewrite length_app, decide_True by lia.
  rewrite take_app_length, <- drop_drop, drop_app_length, length_app, app_assoc. done.
Qed.

Lemma it_read_at pre s post n :
  n = List.length s ->
  it_read (it_at pre (s ++ post)) n = Ok (s, it_at (pre ++ s) post).
Proof.
  intros ->. unfold it_read. rewrite decide_True.
  - rewrite it_adv_at_app by done. unfold it_at. simpl. by rewrite drop_app_length, take_app_length.
  - unfold it_at. simpl. rewrite !length_app. lia.
Qed.

Lemma simulate_payload t s :
  txt_ok t s -> huff_simulate s (txt_len t) (txt_huff t) = Ok (Z.of_nat (payload t)).
Proof.
  intros [Hp Hs Hsh _ _]. unfold payload, txt_len. rewrite Hp.
  change (default [] (Some s)) with s. cbv iota.
  destruct (truth (txt_huff t)) eqn:Eh.
  - apply huff_simulate_ok; [done|by apply truth_true|done].
  - unfold huff_simulate. by rewrite Eh.
Qed.

Lemma ITER_DONE_match {A} it (a b : A) :
  match ITER_DONE it with hpk_err => a | _ => b end = b.
Proof. destruct (ITER_DONE it) eqn:E; [done..|by apply ITER_DONE_not_err in E]. Qed.

(** [str_encode] writes the code of the text when it fits. *)
Lemma str_encode_fits t s pre tail :
  txt_ok t s -> tail <> [] ->
  if decide (str_len t <= List.length tail)%nat then
    exists out, str_code t out /\
      let it := it_at (pre ++ out) (drop (List.length out) tail) in
      str_encode (it_at pre tail) t =
        Ok (if truth (txt_huff t) then hpk_more else ITER_DONE it, it)
  else exists it, str_encode (it_at pre tail) t = Ok (hpk_err, it).
Proof.
  intros Ht Htail. pose proof Ht as [Hp Hs Hsh H127 Hne].
  destruct (str_hi_range t) as [Hhi _]. pose proof (payload_le t s Ht) as Hpl.
  unfold str_encode. rewrite Hp. cbn [default]. unfold Datatypes.id.
  rewrite (simulate_payload t s Ht), bind_Ok_l, it_ltend_at.
  rewrite assertC_true, bind_Ok_l by by apply bool_decide_eq_true_2.
  destruct tail as [|x tail]; [done|]. fold (str_hi t). change 0x80 with 128. fold (str_hi t).
  rewrite it_put_at, bind_Ok_l, (wrapu_small 8 (str_hi t)) by done.
  rewrite wrapu_small by lia. set (n := payload t) in *.
  assert (Z.of_nat n <> 2 ^ 7 - 1) as Hn127 by lia.
  pose proof (str_hi_bits t) as Hhb. unfold str_len. fold n.
  set (code := rfc_int 7 (str_hi t) (Z.of_nat n)) in *.
  assert (0 < List.length code)%nat as Hcode.
  { pose proof (rfc_int_nonempty 7 (str_hi t) (Z.of_nat n)) as Hne'. fold code in Hne'.
    destruct code; [done|simpl; lia]. }
  destruct (decide (List.length code <= S (List.length tail))%nat) as [Hc|Hc].
  2:{ destruct (num_encode_full 7 (Z.of_nat n) (str_hi t) pre tail) as (it & ->);
        [lia|lia|unfold UINT32_MAX; lia|done|rewrite Hhb; fold code; lia|].
      rewrite decide_False by (simpl; lia). rewrite bind_Ok_l. eauto. }
  rewrite num_encode_ok; rewrite ?Hhb; fold code; [|lia|lia|unfold UINT32_MAX; lia|done|done].
  rewrite bind_Ok_l. cbv beta iota zeta. rewrite ITER_DONE_match.
  assert (drop (List.length code) (str_hi t :: tail) = drop (List.length code) (x :: tail)) as ->.
  { destruct (List.length code); [lia|done]. }
  set (rest := drop (List.length code) (x :: tail)).
  assert (List.length rest = S (List.length tail) - List.length code)%nat as Hrest.
  { subst rest. by rewrite length_drop. }
  rewrite it_left_at.
  destruct (Z.ltb_spec (Z.of_nat (List.length rest)) (Z.of_nat n));
    [rewrite decide_False by (simpl; lia); eauto|rewrite decide_True by (simpl; lia)].
  destruct (truth (txt_huff t)) eqn:Eh.
  - pose proof (huff_encode_spec s (pre ++ code) rest Hs) as Henc.
    assert (n = (List.length (hbits s) + 7) / 8)%nat as Hn by (subst n; unfold payload; by rewrite Eh, Hp).
    pose proof (payload_pos t s Ht Eh). rewrite <- Hn, decide_True in Henc by lia.
    destruct Henc as (o & Ho & Hol & Heq); [intros ->; simpl in *; lia|].
    exists (code ++ o). split; [exists o; by rewrite Eh, Hp|].
    rewrite Heq, length_app, app_assoc, <- drop_drop. done.
  - assert (n = List.length s) as Hn by (subst n; unfold payload; by rewrite Eh, Hp).
    rewrite it_write_at, bind_Ok_l by lia. exists (code ++ s). split; [exists s; by rewrite Eh, Hp|].
    cbv zeta. by rewrite length_app, app_assoc, <- drop_drop.
Qed.

(** ** Reading it back *)

(** The first octet of an integer. *)
Lemma rfc_int_head p hi n :
  1 <= p <= 8 -> 0 <= n -> exists lo rest, rfc_int p hi n = hi + lo :: rest /\ 0 <= lo < 2 ^ p.
Proof.
  intros Hp Hn. assert (1 < 2 ^ p) by (apply Z.pow_gt_1; lia).
  unfold rfc_int. zcase; [exists n, []|eexists (2 ^ p - 1), _]; split; done || lia.
Qed.

Lemma num_decode_more p pre hi n post :
  1 <= p <= 8 -> hi `mod` 2 ^ p = 0 -> 0 <= n <= UINT32_MAX -> post <> [] ->
  num_decode (it_at pre (rfc_int p hi n ++ post)) p =
    Ok (hpk_more, n, it_at (pre ++ rfc_int p hi n) post).
Proof.
  intros Hp Hhi Hn Hpost. rewrite num_decode_ok by done. rewrite ITER_DONE_at.
  by destruct post.
Qed.

(** The bit that says how a string is encoded. *)
Lemma truth_hi t lo : 0 <= lo < 2 ^ 7 -> truth (Z.land (str_hi t + lo) 0x80) = truth (txt_huff t).
Proof.
  change (2 ^ 7) with 128. intros Hlo. unfold str_hi. rewrite truth_land_128.
  - destruct (truth (txt_huff t)); [apply Z.leb_le|apply Z.leb_gt]; lia.
  - destruct (truth (txt_huff t)); lia.
Qed.

(** The copy of a text the decoder makes. *)
Definition live (s : list Z) (huff : Z) : slot := mk_slot (mk_txt (Some s) huff) false.

Lemma decode_cap n : 0 <= n -> 8 * n <= 5 * ((n * 8) `quot` 5 + 1).
Proof.
  intros Hn. rewrite Z.quot_div_nonneg by lia.
  pose proof (Z.div_mod (n * 8) 5). pose proof (Z.mod_pos_bound (n * 8) 5). lia.
Qed.

Section str_decode.
Context {T : Z -> option stbl} `{!DecTbl T}.

Lemma str_decode_code t s out pre post t0 :
  txt_ok t s -> str_code t out -> (s = [] -> post <> []) ->
  Z.of_nat (List.length out + List.length post) < 2 ^ 31 ->
  let it := it_at (pre ++ out) post in
  str_decode T (it_at pre (out ++ post)) t0 =
    Ok (ITER_DONE it, it, live s (if truth (txt_huff t) then 1 else 0)).
Proof.
  intros Ht (body & -> & Hbody) Hpost Hlen. pose proof Ht as [Hp Hs _ _ _].
  destruct (str_hi_range t) as [Hhi Hmod]. pose proof (payload_le t s Ht) as Hpl.
  rewrite !length_app in Hlen. set (n := payload t) in *.
  assert (List.length body = n) as Hbl.
  { subst n. unfold payload. destruct (truth (txt_huff t)); [by apply huff_encodes_length|by subst]. }
  assert (body ++ post <> []) as Hne.
  { intros [-> ->]%app_nil. simpl in Hbl. destruct (truth (txt_huff t)) eqn:Eh.
    - pose proof (payload_pos t s Ht Eh). lia.
    - rewrite Hp in Hbody. by apply Hpost. }
  destruct (rfc_int_head 7 (str_hi t) (Z.of_nat n)) as (lo & rest & Hcode & Hlo); [lia..|].
  unfold str_decode. cbv zeta. rewrite <- app_assoc.
  rewrite it_ltend_at, bool_decide_eq_true_2 by (rewrite Hcode; done).
  cbn [assertC]. rewrite bind_Ok_l. rewrite Hcode at 1. rewrite <- app_comm_cons, it_get_at, bind_Ok_l.
  rewrite (truth_hi t lo Hlo). rewrite num_decode_more, bind_Ok_l by (done || unfold UINT32_MAX; lia).
  cbv beta iota. rewrite it_ltend_at, bool_decide_eq_true_2 by done.
  cbn [assertC]. rewrite bind_Ok_l, it_left_at, length_app.
  rewrite wrapu_small, (proj2 (Z.ltb_ge _ _)) by lia. rewrite wraps_small by lia.
  rewrite app_assoc. destruct (truth (txt_huff t)) eqn:Eh.
  - rewrite Hp in Hbody. pose proof (huff_decode_agrees (T := T)
      ((Z.of_nat n * 8) `quot` 5 + 1) body (pre ++ rfc_int 7 (str_hi t) (Z.of_nat n)) post) as Hd.
    destruct Hbody as [Hby (k & Hk & Hbits)].
    rewrite <- length_byte_bits, Hbits, hdec_hbits in Hd by (done || lia).
    specialize (Hd Hby ltac:(rewrite Hbl; apply decode_cap; lia)). simpl in Hd.
    rewrite Hbl in Hd. rewrite Hd, bind_Ok_l. cbv beta iota zeta.
    pose proof (tx_huff t s Ht Eh). destruct s as [|c s]; [done|].
    rewrite wrapu_small by (pose proof (tx_short t _ Ht); lia).
    by rewrite (proj2 (truth_true _)) by (simpl; lia).
  - rewrite Hp in Hbody. rewrite it_read_at by (rewrite Hbl, Nat2Z.id; done).
    rewrite bind_Ok_l. cbv beta iota. by rewrite Hbody.
Qed.
End str_decode.

(** ** Literal header fields *)

(** The first octet of a literal field, and the length of its integer's prefix. *)
Definition lit_pat (t : hpk_indexed) : option (Z * Z) :=
  match t with
  | hpk_inc => Some (0x40, 6)
  | hpk_not => Some (0x00, 4)
  | hpk_never => Some (0x10, 4)
  | _ => None
  end.

Definition lit_index (t : hpk_indexed) : bool := bool_decide (t = hpk_inc).

(** The representation of a literal field, and its length. *)
Definition lit_code (first pref : Z) (h : hpk_hdr) (out : list Z) : Prop :=
  exists kc vc, out = rfc_int pref first (hdr_i h) ++ kc ++ vc /\
    (if truth (hdr_i h) then kc = [] else str_code (hdr_key h) kc) /\
    str_code (hdr_value h) vc.

Definition lit_len (first pref : Z) (h : hpk_hdr) : nat :=
  List.length (rfc_int pref first (hdr_i h)) +
  (if truth (hdr_i h) then 0 else str_len (hdr_key h)) + str_len (hdr_value h).

(** A header to encode with name [k] and value [v], in a context with the
    entries [l]: a name of its own, or the index of one, other than the one its
    integers cannot express. *)
Record lit_ok (l : list entry) (pref : Z) (h : hpk_hdr) (k v : list Z) : Prop := {
  lo_name :
    (hdr_i h = 0 /\ txt_ok (hdr_key h) k) \/
    (0 < hdr_i h <= UINT32_MAX /\ hdr_i h <> 2 ^ pref - 1 /\ txt_ptr (hdr_key h) = None /\
     exists w, tbl_lookup l (hdr_i h) = Some (Some k, w));
  lo_value : txt_ok (hdr_value h) v;
  lo_size : esize (k, v) <= UINT32_MAX
}.

Lemma lit_pat_cases t first pref :
  lit_pat t = Some (first, pref) ->
  (t = hpk_inc /\ first = 64 /\ pref = 6) \/ (t = hpk_not /\ first = 0 /\ pref = 4) \/
  (t = hpk_never /\ first = 16 /\ pref = 4).
Proof. destruct t; intros [=]; subst; auto. Qed.

Lemma lit_pat_facts t first pref :
  lit_pat t = Some (first, pref) ->
  1 <= pref <= 8 /\ 0 <= first < 256 /\ first `mod` 2 ^ pref = 0 /\ hi_bits pref first = first.
Proof.
  intros [(_ & -> & ->)|[(_ & -> & ->)|(_ & -> & ->)]]%lit_pat_cases;
    split_and!; done || lia.
Qed.

Lemma str_len_pos t : (0 < str_len t)%nat.
Proof.
  unfold str_len. pose proof (rfc_int_nonempty 7 (str_hi t) (Z.of_nat (payload t))).
  destruct (rfc_int _ _ _); [done|simpl; lia].
Qed.

Lemma lit_code_length first pref h out :
  lit_code first pref h out -> List.length out = lit_len first pref h.
Proof.
  intros (kc & vc & -> & Hk & Hv). unfold lit_len. rewrite !length_app, (str_code_length _ _ Hv).
  destruct (truth (hdr_i h)); [subst; simpl; lia|]. rewrite (str_code_length _ _ Hk). lia.
Qed.

(** The name of the field, written. *)
Lemma enc_name l h k v first pref pre tail :
  lit_ok l pref h k v -> 1 <= pref <= 8 -> 0 <= first < 256 -> hi_bits pref first = first ->
  (lit_len first pref h <= S (List.length tail))%nat ->
  exists kc, (if truth (hdr_i h) then kc = [] else str_code (hdr_key h) kc) /\
    let out := rfc_int pref first (hdr_i h) ++ kc in
    (if truth (hdr_i h) then num_encode (it_at pre (first :: tail)) pref (hdr_i h)
     else str_encode (it_adv (it_at pre (first :: tail)) 1) (hdr_key h)) =
      Ok (hpk_more, it_at (pre ++ out) (drop (List.length out) (first :: tail))).
Proof.
  intros [Hname Hv _] Hp Hf Hhi Hroom. unfold lit_len in Hroom.
  pose proof (str_len_pos (hdr_value h)) as Hvp.
  destruct Hname as [[Hi Hk]|(Hi & Hne & _)].
  - rewrite Hi in *. change (truth 0) with false in *. cbv iota in *.
    assert (rfc_int pref first 0 = [first]) as Hr.
    { unfold rfc_int. assert (1 < 2 ^ pref) by (apply Z.pow_gt_1; lia).
      rewrite (proj2 (Z.ltb_lt 0 _)) by lia. by rewrite Z.add_0_r. }
    rewrite Hr in *. simpl List.length in Hroom. rewrite it_adv_at.
    pose proof (str_encode_fits (hdr_key h) k (pre ++ [first]) tail Hk) as He.
    rewrite decide_True in He by lia.
    destruct He as (kc & Hkc & He); [intros ->; simpl in *; lia|].
    exists kc. split; [done|]. cbv zeta. rewrite He, (str_code_length _ _ Hkc), <- app_assoc.
    simpl app. simpl List.length. rewrite (str_code_length _ _ Hkc). f_equal. f_equal. f_equal.
    destruct (truth (txt_huff (hdr_key h))); [done|]. apply ITER_DONE_more.
    unfold it_at. simpl. rewrite !length_app, length_drop. lia.
  - rewrite (proj2 (truth_true _)) in * by lia. exists []. split; [done|]. cbv zeta.
    rewrite app_nil_r. rewrite num_encode_ok; rewrite ?Hhi; try lia; try done.
    f_equal. f_equal. apply ITER_DONE_more.
    unfold it_at. simpl. rewrite !length_app, length_drop. simpl List.length. lia.
Qed.

Lemma enc_literal_ok l ctx h k v first pref mi pre tail :
  lit_ok l pref h k v -> 1 <= pref <= 8 -> 0 <= first < 256 -> hi_bits pref first = first ->
  (lit_len first pref h <= S (List.length tail))%nat ->
  exists out r, lit_code first pref h out /\ r <> hpk_err /\
    enc_literal (it_at pre (first :: tail)) ctx h pref mi =
      ctx' ← (if mi then push_header ctx h else Ok ctx);
      Ok (r, it_at (pre ++ out) (drop (List.length out) (first :: tail)), ctx').
Proof.
  intros Hok Hp Hf Hhi Hroom.
  destruct (enc_name l h k v first pref pre tail Hok Hp Hf Hhi Hroom) as (kc & Hkc & Hname).
  unfold enc_literal. rewrite Hname, bind_Ok_l. cbv beta iota zeta.
  set (pre' := pre ++ _). set (rest := drop _ _).
  pose proof (str_encode_fits (hdr_value h) v pre' rest (lo_value _ _ _ _ _ Hok)) as He.
  assert (str_len (hdr_value h) <= List.length rest)%nat as Hlen.
  { subst rest. rewrite length_drop, length_app. unfold lit_len in Hroom. simpl List.length.
    destruct (truth (hdr_i h)); [subst kc|rewrite (str_code_length _ _ Hkc)]; simpl List.length; lia. }
  pose proof (str_len_pos (hdr_value h)). rewrite decide_True in He by done.
  destruct He as (vc & Hvc & He); [intros Hnil; rewrite Hnil in Hlen; simpl in Hlen; lia|].
  cbv zeta in He. set (r := if truth (txt_huff (hdr_value h)) then _ else _) in He.
  assert (r <> hpk_err) as Hr.
  { subst r. destruct (truth (txt_huff _)); [discriminate|apply ITER_DONE_not_err]. }
  exists (rfc_int pref first (hdr_i h) ++ kc ++ vc), r. split; [by exists kc, vc|]. split; [done|].
  rewrite He, bind_Ok_l. cbv beta iota zeta. subst pre' rest.
  rewrite (app_assoc (rfc_int _ _ _) kc vc), (app_assoc pre _ vc), (length_app (_ ++ kc) vc),
    <- drop_drop.
  by destruct r.
Qed.

Section dec_literal.
Context {T : Z -> option stbl} `{!DecTbl T}.

(** The name of the field, read; [kp] is the [huff] flag it is left with. *)
Lemma dec_name ctx h k v pref kc pre post hs :
  ctx_ok ctx -> size ctx <= UINT32_MAX - 61 -> lit_ok (entries ctx) pref h k v ->
  (if truth (hdr_i h) then kc = [] else str_code (hdr_key h) kc) ->
  post <> [] -> Z.of_nat (List.length kc + List.length post) < 2 ^ 31 ->
  exists kp, dec_key T (it_at pre (kc ++ post)) ctx hs (hdr_i h) =
    Ok (hpk_more, it_at (pre ++ kc) post, live k kp).
Proof.
  intros Hok Hsz [Hname _ _] Hkc Hpost Hlen. unfold dec_key.
  destruct Hname as [[Hi Hk]|(Hi & Hne & _ & w & Hlk)].
  - rewrite Hi in *. change (truth 0) with false in *. cbv iota in *. eexists.
    rewrite (str_decode_code (hdr_key h) k kc pre post); [|done..].
    rewrite bind_Ok_l, ITER_DONE_at. destruct post; [done|]. reflexivity.
  - rewrite (proj2 (truth_true _)) in * by lia. subst kc. rewrite app_nil_r.
    unfold tbl_get_key. rewrite tbl_get_field_spec by (done || lia). rewrite Hlk.
    simpl. by eexists.
Qed.

Lemma dec_literal_ok ctx h k v first pref t mi out pre post :
  ctx_ok ctx -> size ctx <= UINT32_MAX - 61 -> lit_ok (entries ctx) pref h k v ->
  1 <= pref <= 8 -> first `mod` 2 ^ pref = 0 -> lit_code first pref h out ->
  (v = [] -> post <> []) -> Z.of_nat (List.length out + List.length post) < 2 ^ 31 ->
  exists kp vp, dec_literal T (it_at pre (out ++ post)) ctx hdr_zero t pref mi =
    ctx' ← (if mi then push_header ctx (mk_hdr (mk_txt (Some k) kp) (mk_txt (Some v) vp) t (hdr_i h))
            else Ok ctx);
    let it := it_at (pre ++ out) post in
    Ok (ITER_DONE it, it, ctx', mk_hdr_slots (live k kp) (live v vp) t (hdr_i h)).
Proof.
  intros Hok Hsz Hlit Hp Hmod (kc & vc & -> & Hkc & Hvc) Hpost Hlen.
  rewrite !length_app in Hlen. pose proof (str_len_pos (hdr_value h)) as Hvp.
  rewrite <- (str_code_length _ _ Hvc) in Hvp.
  assert (forall l, vc ++ l <> []) as Hvne by (destruct vc; [simpl in Hvp; lia|done]).
  assert (0 <= hdr_i h <= UINT32_MAX) as Hi.
  { destruct (lo_name _ _ _ _ _ Hlit) as [[-> _]|(? & _)]; unfold UINT32_MAX in *; lia. }
  unfold dec_literal. cbv zeta.
  rewrite (assertC_true (truth pref)), bind_Ok_l by (apply truth_true; lia).
  rewrite <- !app_assoc, num_decode_more, bind_Ok_l; [|done..|by intros [_ ?%Hvne]%app_nil].
  cbv beta iota. cbn [hs_key hs_value hs_t hs_i].
  destruct (dec_name ctx h k v pref kc (pre ++ rfc_int pref first (hdr_i h))
    (vc ++ post) (mk_hdr_slots (hs_key hdr_zero) (hs_value hdr_zero) t (hdr_i h)))
    as (kp & ->); try done.
  { rewrite length_app. lia. }
  rewrite bind_Ok_l. cbv beta iota. exists kp.
  rewrite (str_decode_code (hdr_value h) v vc); [|by eapply lo_value|done..|lia].
  eexists. rewrite bind_Ok_l. cbv beta iota zeta. rewrite ITER_DONE_match.
  cbn [hs_key hs_value]. unfold hs_hdr. cbn [hs_key hs_value hs_t hs_i sl_txt live].
  by rewrite <- !app_assoc.
Qed.

(** The first octet says which field it is. *)
Lemma dec_dispatch ctx t first pref lo rest pre hs :
  lit_pat t = Some (first, pref) -> 0 <= lo < 2 ^ pref ->
  HPK_DecHdr T (it_at pre (first + lo :: rest)) ctx hs =
    dec_literal T (it_at pre (first + lo :: rest)) ctx hs t pref (lit_index t).
Proof.
  intros Hpat Hlo. unfold HPK_DecHdr.
  rewrite it_ltend_at, it_get_at, bool_decide_eq_true_2 by done. cbn [assertC].
  rewrite !bind_Ok_l. rewrite !Z.shiftr_div_pow2 by lia.
  change (2 ^ 6) with 64. change (2 ^ 4) with 16. change (2 ^ 5) with 32.
  apply lit_pat_cases in Hpat as [(-> & -> & ->)|[(-> & -> & ->)|(-> & -> & ->)]];
    [change (2 ^ 6) with 64 in Hlo|change (2 ^ 4) with 16 in Hlo..];
    rewrite truth_land_128, (proj2 (Z.leb_gt 128 _)) by lia.
  - by rewrite <- (Z.div_unique_pos (64 + lo) 64 1 lo) by lia.
  - rewrite <- (Z.div_unique_pos (0 + lo) 64 0 lo) by lia.
    by rewrite <- (Z.div_unique_pos (0 + lo) 16 0 lo) by lia.
  - rewrite <- (Z.div_unique_pos (16 + lo) 64 0 (16 + lo)) by lia.
    by rewrite <- (Z.div_unique_pos (16 + lo) 16 1 lo) by lia.
Qed.

Lemma dec_dispatch_idx ctx b rest pre hs :
  128 <= b < 256 ->
  HPK_DecHdr T (it_at pre (b :: rest)) ctx hs = dec_indexed (it_at pre (b :: rest)) ctx hs.
Proof.
  intros Hb. unfold HPK_DecHdr.
  rewrite it_ltend_at, it_get_at, bool_decide_eq_true_2 by done. cbn [assertC].
  by rewrite !bind_Ok_l, truth_land_128, (proj2 (Z.leb_le 128 _)) by lia.
Qed.
End dec_literal.

(** What adding a literal field does to a table. *)
Lemma push_lit_enc ctx h k v pref :
  ctx_ok ctx -> size ctx <= UINT32_MAX - 61 -> lit_ok (entries ctx) pref h k v ->
  ~ loses_name ctx (hdr_i h) (esize (k, v)) ->
  exists ctx', push_header ctx h = Ok ctx' /\ ctx_ok ctx' /\ maxsize ctx' = maxsize ctx /\
    entries ctx' = rfc_add (maxsize ctx) (k, v) (entries ctx).
Proof.
  intros Hok Hsz [Hname Hv Hle] Hlose. pose proof (tx_ptr _ _ Hv) as Hvp.
  destruct Hname as [[_ Hk]|(Hi & _ & Hk & w & Hlk)].
  - apply push_header_own; [done|by apply tx_ptr|done|done].
  - pose proof (push_header_by_index ctx k w v h Hok Hsz Hi Hk Hvp Hlk Hle) as H.
    by rewrite decide_False in H.
Qed.

Lemma ctx_same_intro ctx ctx' :
  ctx_ok ctx -> ctx_ok ctx' -> entries ctx' = entries ctx -> maxsize ctx' = maxsize ctx ->
  ctx_same ctx ctx'.
Proof. intros [Hs _] [Hs' _] He Hm. split_and!; congruence. Qed.

(** The first octet of a literal field on the wire. *)
Lemma lit_code_head t first pref h out :
  lit_pat t = Some (first, pref) -> 0 <= hdr_i h -> lit_code first pref h out ->
  exists lo rest, out = first + lo :: rest /\ 0 <= lo < 2 ^ pref.
Proof.
  intros Hpat Hi (kc & vc & -> & _). destruct (lit_pat_facts _ _ _ Hpat) as (Hp & _).
  destruct (rfc_int_head pref first (hdr_i h) Hp Hi) as (lo & rest & -> & Hlo).
  by exists lo, (rest ++ kc ++ vc).
Qed.

(** ** Decoding any input *)

(** The faults the decoder can meet; running out of bounds is not one. *)
Definition dec_fault (f : fault) : Prop := f = FShift \/ f = FAssert \/ f = FFree.

(** What [str_decode] may return from an iterator with [n] bytes left. *)
Definition str_dec_ok (it : hpk_iter) (n : nat) (res : outcome (hpk_result * hpk_iter * slot)) : Prop :=
  match res with
  | Ok (hpk_err, _, _) => True
  | Ok (r, it', t) =>
      r = ITER_DONE it' /\ it_moves it it' /\
      exists s hf, t = live s hf /\ 5 * Z.of_nat (List.length s) <= 8 * Z.of_nat n
  | Fault f => dec_fault f
  end.

Lemma it_moves_at pre l it' :
  it_moves (it_at pre l) it' ->
  exists a l', a <> [] /\ l = a ++ l' /\ it' = it_at (pre ++ a) l'.
Proof.
  intros [Hm Hb]. unfold it_at in *. simpl in *. rewrite length_app in Hb.
  set (n := (it_buf it' - List.length pre)%nat).
  exists (take n l), (drop n l). split_and!.
  - intros H%(f_equal List.length). rewrite length_take in H. simpl in H. lia.
  - by rewrite take_drop.
  - destruct it' as [m b]. simpl in *. subst m.
    rewrite <- app_assoc, take_drop, length_app, length_take. f_equal. lia.
Qed.

Lemma it_moves_trans it1 it2 it3 : it_moves it1 it2 -> it_moves it2 it3 -> it_moves it1 it3.
Proof. intros [Hm1 H1] [Hm2 H2]. split; [congruence|]. rewrite Hm1 in *. lia. Qed.

Lemma it_moves_app pre a l : a <> [] -> it_moves (it_at pre (a ++ l)) (it_at (pre ++ a) l).
Proof.
  intros Ha. unfold it_at. split; simpl; [by rewrite app_assoc|].
  rewrite !length_app. destruct a; [done|simpl; lia].
Qed.

(** The bits decoded bound the characters decoded. *)
Lemma hdec_length `{!DecTbl T} n id b out out' :
  is_Some (T id) -> hdec T n id b out = Some (Dok out') ->
  5 * Z.of_nat (List.length out') <=
    5 * Z.of_nat (List.length out) + (if id =? 0 then 0 else 5) + Z.of_nat (List.length b).
Proof.
  revert id b out. induction n as [|n IH]; intros id b out [t Hid] Hd.
  { destruct b; [|done]. injection Hd as ->. destruct (id =? 0); simpl; lia. }
  cbn [hdec] in Hd. destruct b as [|b0 b1] eqn:Eb.
  { injection Hd as ->. destruct (id =? 0); simpl; lia. }
  rewrite <- Eb in *. clear b0 b1 Eb.
  destruct (sym_cases id t b Hid) as (s & Hs & Hm & Hc & Hn).
  rewrite Hid in Hd. cbn [mbind option_bind] in Hd. rewrite Hs in Hd. cbn [mbind option_bind] in Hd.
  destruct (_ && _) in Hd; [destruct (id =? 0); by simplify_eq; lia|].
  destruct ((csm s =? 0) || _) eqn:E in Hd; [done|].
  apply orb_false_iff in E as [E1%Z.eqb_neq E2%Z.ltb_ge].
  destruct (nxt s) as [id'|].
  - destruct Hn as (H8 & Hid' & HT). apply IH in Hd; [|done].
    rewrite (proj2 (Z.eqb_neq id' 0)), length_drop in Hd by done. destruct (id =? 0); lia.
  - apply IH in Hd; [|by apply root_some]. rewrite length_app, length_drop in Hd. simpl in Hd.
    destruct (Z.eqb_spec id 0); lia.
Qed.

Section safe.
Context {T : Z -> option stbl} `{!DecTbl T}.

Lemma huff_decode_safe n inp pre post :
  bytes inp -> n = Z.of_nat (List.length inp) -> n < 2 ^ 31 ->
  match huff_decode T ((n * 8) `quot` 5 + 1) (it_at pre (inp ++ post)) (i32 n) with
  | Ok (m, it', s) =>
      m = 0 \/ (m = Z.of_nat (List.length s) /\ it' = it_at (pre ++ inp) post /\
                5 * m <= 8 * n)
  | Fault f => f = FAssert
  end.
Proof.
  intros Hin -> Hn. rewrite wraps_small by lia.
  pose proof (huff_decode_agrees (T := T) _ inp pre post Hin
    (decode_cap (Z.of_nat (List.length inp)) ltac:(lia))) as H.
  destruct (hdec _ _ _ _ _) as [[out| |]|] eqn:E; simpl in H; [| | |done].
  - rewrite H. right. split_and!; [done|done|].
    apply hdec_length in E; [|by apply root_some]. rewrite length_byte_bits in E. simpl in E. lia.
  - destruct H as (it & out & ->). by left.
  - by rewrite H.
Qed.

Lemma str_decode_safe b rest pre t0 :
  bytes (b :: rest) -> Z.of_nat (List.length rest) < 2 ^ 30 ->
  str_dec_ok (it_at pre (b :: rest)) (S (List.length rest))
    (str_decode T (it_at pre (b :: rest)) t0).
Proof.
  intros Hbytes Hlen. assert (0 <= b < 256) as Hb by by inversion Hbytes.
  unfold str_decode. rewrite it_ltend_at, bool_decide_eq_true_2 by done.
  cbn [assertC]. rewrite bind_Ok_l, it_get_at, bind_Ok_l.
  pose proof (num_decode_total_at 7 pre b rest ltac:(lia) Hb) as Hnum.
  destruct (num_decode _ _) as [[[r num] it']|f]; [|by left; destruct Hnum].
  rewrite bind_Ok_l. cbv beta iota zeta.
  destruct Hnum as (Hn & Hmv & Hr). pose proof Hmv as Hmv0.
  apply it_moves_at in Hmv as (a & l & Ha & Hal & ->).
  destruct r; [|done..]. destruct Hr as [|Hr]; [done|].
  rewrite ITER_DONE_at in Hr. destruct l as [|y l]; [done|].
  rewrite it_ltend_at, bool_decide_eq_true_2 by done. cbn [assertC]. rewrite bind_Ok_l.
  rewrite it_left_at. pose proof (f_equal List.length Hal) as Hl. rewrite length_app in Hl.
  simpl in Hl. rewrite (wrapu_small 32) by (simpl; lia).
  destruct (Z.ltb_spec (Z.of_nat (List.length (y :: l))) num) as [|Hfit]; [done|].
  rewrite <- (take_drop (Z.to_nat num) (y :: l)). set (inp := take _ _). set (post := drop _ _).
  assert (List.length inp = Z.to_nat num) as Hinp by (subst inp; rewrite length_take; lia).
  assert (bytes inp) as Hby.
  { rewrite Hal in Hbytes. apply bytes_app in Hbytes as [_ Hbytes].
    rewrite <- (take_drop (Z.to_nat num) (y :: l)) in Hbytes. by apply bytes_app in Hbytes as [? _]. }
  assert (it_moves (it_at pre (b :: rest)) (it_at ((pre ++ a) ++ inp) post)) as Hmv.
  { rewrite Hal, <- (take_drop (Z.to_nat num) (y :: l)), <- app_assoc, app_assoc.
    apply it_moves_app. by destruct a. }
  simpl in Hfit. destruct (truth (Z.land b 0x80)).
  - pose proof (huff_decode_safe num inp (pre ++ a) post Hby ltac:(lia) ltac:(lia)) as Hh.
    destruct (huff_decode _ _ _ _) as [[[m it'] s]|f]; [|by right; left].
    rewrite bind_Ok_l. cbv beta iota zeta.
    destruct Hh as [->|(-> & -> & Hs)]; [done|].
    rewrite wrapu_small by lia. destruct (truth (Z.of_nat (List.length s))); [|done]. simpl negb.
    cbv iota. simpl str_dec_ok. destruct (ITER_DONE _) eqn:E; [| |done];
      (split_and!; [done|done|exists s, 1; split; [done|lia]]).
  - rewrite it_read_at by done. rewrite bind_Ok_l. cbv beta iota.
    simpl str_dec_ok. destruct (ITER_DONE _) eqn:E; [| |done];
      (split_and!; [done|done|exists inp, 0; split; [done|lia]]).
Qed.
End safe.

(** Every row of the static table but row 0 has texts. *)
Definition row_live (h : hpk_hdr) : bool :=
  match txt_ptr (hdr_key h), txt_ptr (hdr_value h) with
  | Some k, Some _ => len k <=? 100
  | _, _ => false
  end.

Lemma sttbl_live : forallb row_live (drop 1 sttbl) = true.
Proof. vm_compute. reflexivity. Qed.

Lemma tsize_elem e l : e ∈ l -> esize e <= tsize l.
Proof.
  induction 1 as [e l|e e' l _ IH]; simpl; pose proof (tsize_nonneg l).
  - unfold tsize in *. lia.
  - pose proof (esize_pos e'). unfold tsize in *. lia.
Qed.

Lemma tbl_lookup_live l idx p q :
  0 < idx -> tbl_lookup l idx = Some (p, q) ->
  exists k w, p = Some k /\ q = Some w /\ len k <= 100 + tsize l.
Proof.
  intros Hi Hl. unfold tbl_lookup in Hl. pose proof (tsize_nonneg l). destruct (Z.leb_spec idx 61).
  - destruct (sttbl !! Z.to_nat idx) as [h|] eqn:Hh; [|done]. injection Hl as <- <-.
    pose proof sttbl_live as Hall. rewrite forallb_forall in Hall. specialize (Hall h).
    assert (row_live h = true) as Hrow.
    { apply Hall, list_elem_of_In, list_elem_of_lookup_2 with (Z.to_nat idx - 1)%nat.
      rewrite lookup_drop, <- Hh. f_equal. lia. }
    unfold row_live in Hrow. destruct (txt_ptr (hdr_key h)) as [k|]; [|done].
    destruct (txt_ptr (hdr_value h)) as [w|]; [|done]. apply Z.leb_le in Hrow.
    exists k, w. split_and!; [done|done|lia].
  - destruct (l !! _) as [e|] eqn:He; [|done]. injection Hl as <- <-.
    exists e.1, e.2. split_and!; [done|done|].
    apply list_elem_of_lookup_2, tsize_elem in He. unfold esize in He.
    pose proof (len_nonneg e.2). lia.
Qed.

Section dec_safe.
Context {T : Z -> option stbl} `{!DecTbl T}.
Context (ctx : hpk_ctx) (b : Z) (rest pre : list Z).
Hypotheses (Hok : ctx_ok ctx) (Hmax : maxsize ctx <= 2 ^ 30)
  (Hbytes : bytes (b :: rest)) (Hlen : Z.of_nat (List.length rest) < 2 ^ 30).

Definition dec_safe (res : outcome (hpk_result * hpk_iter * hpk_ctx * hdr_slots)) : Prop :=
  match res with
  | Ok (r, it', ctx', hs) =>
      ctx_ok ctx' /\ (r <> hpk_err -> it_moves (it_at pre (b :: rest)) it')
  | Fault f => dec_fault f
  end.

Local Lemma first_byte : 0 <= b < 256.
Proof. by inversion Hbytes. Qed.

Local Lemma size_bound : 0 <= size ctx <= 2 ^ 30.
Proof.
  pose proof Hok as [Hs Hm]. pose proof (tsize_nonneg (entries ctx)). rewrite Hs in *. lia.
Qed.

Local Lemma find idx key :
  0 <= idx <= UINT32_MAX ->
  tbl_get_field ctx idx key =
    Ok ((fun kv => if key then kv.1 else kv.2) <$> tbl_lookup (entries ctx) idx).
Proof.
  intros Hi. pose proof size_bound. apply tbl_get_field_spec; [done| |done].
  unfold UINT32_MAX. lia.
Qed.

Lemma dec_indexed_safe hs : dec_safe (dec_indexed (it_at pre (b :: rest)) ctx hs).
Proof.
  unfold dec_indexed.
  pose proof (num_decode_total_at 7 pre b rest ltac:(lia) first_byte) as Hnum.
  destruct (num_decode _ _) as [[[r num] it']|f]; [|by left; destruct Hnum].
  destruct Hnum as (Hn & Hmv & _). rewrite bind_Ok_l. cbv beta iota zeta.
  destruct r; [| |by split].
  all: destruct (truth num) eqn:Et; [|by split].
  all: apply truth_true in Et; unfold tbl_get_key, tbl_get_value; rewrite !find by done.
  all: destruct (tbl_lookup _ _) as [[p q]|] eqn:Hl; simpl; [|by split].
  all: destruct (tbl_lookup_live (entries ctx) num p q ltac:(lia) Hl) as (k & w & -> & -> & _); simpl.
  all: by split.
Qed.

(** The name of a literal field: a text of its own, not longer than a table
    entry or what the bytes can hold. *)
Lemma dec_key_safe pre' y l hs num :
  bytes (y :: l) -> (List.length l <= List.length rest)%nat -> 0 <= num <= UINT32_MAX ->
  match dec_key T (it_at pre' (y :: l)) ctx hs num with
  | Ok (hpk_err, _, _) => True
  | Ok (_, it', t) =>
      (exists a y' l', y :: l = a ++ y' :: l' /\ it' = it_at (pre' ++ a) (y' :: l')) /\
      exists k hk, t = live k hk /\ len k <= 2 ^ 31
  | Fault f => dec_fault f
  end.
Proof.
  intros Hby Hl Hn. unfold dec_key. destruct (truth num) eqn:Et.
  - apply truth_true in Et. unfold tbl_get_key. rewrite find by done.
    destruct (tbl_lookup _ _) as [[p q]|] eqn:Hlk; simpl; [|done].
    destruct (tbl_lookup_live (entries ctx) num p q ltac:(lia) Hlk) as (k & w & -> & -> & Hk). simpl.
    split; [exists [], y, l; by rewrite app_nil_r|]. eexists k, _. split; [done|].
    pose proof Hok as [Hs Hm]. pose proof size_bound. lia.
  - pose proof (str_decode_safe (T := T) y l pre' (hs_key hs) Hby ltac:(lia)) as Hs.
    destruct (str_decode _ _ _) as [[[r it'] t]|f]; [|done]. rewrite bind_Ok_l. simpl in Hs.
    destruct r; [|destruct Hs as (_ & _ & s & hf & -> & _); done|].
    + destruct Hs as (Hr & Hmv & s & hf & -> & Hsl).
      apply it_moves_at in Hmv as (a & l' & _ & Hal & ->). rewrite ITER_DONE_at in Hr.
      destruct l' as [|y' l']; [done|]. split; [by exists a, y', l'|].
      exists s, hf. split; [done|]. unfold len. lia.
    + unfold free_slot. destruct (txt_ptr _); [|done].
      destruct (sl_freed t); [by right; right|done].
Qed.
Lemma dec_literal_safe t pref mi : 1 <= pref <= 8 ->
  dec_safe (dec_literal T (it_at pre (b :: rest)) ctx hdr_zero t pref mi).
Proof.
  intros Hp. unfold dec_literal. cbv zeta.
  rewrite (assertC_true (truth pref)), bind_Ok_l by (apply truth_true; lia).
  pose proof (num_decode_total_at pref pre b rest Hp first_byte) as Hnum.
  destruct (num_decode _ _) as [[[r num] it']|f]; [|by left; destruct Hnum].
  destruct Hnum as (Hn & Hmv & Hr). rewrite bind_Ok_l. cbv beta iota.
  destruct r; [|by split..]. destruct Hr as [|Hr]; [done|].
  pose proof Hmv as Hmv1. apply it_moves_at in Hmv as (a & l & Ha & Hal & ->).
  rewrite ITER_DONE_at in Hr. destruct l as [|y l]; [done|]. clear Hr.
  pose proof (f_equal List.length Hal) as Hl. rewrite length_app in Hl. simpl in Hl.
  pose proof Hbytes as Hby. rewrite Hal in Hby. apply bytes_app in Hby as [_ Hby].
  pose proof (dec_key_safe (pre ++ a) y l
    (mk_hdr_slots (hs_key hdr_zero) (hs_value hdr_zero) t num) num Hby ltac:(lia) Hn) as Hkey.
  cbn [hs_key hs_value].
  destruct (dec_key _ _ _ _ _) as [[[r it'] k]|f]; [|done]. rewrite bind_Ok_l. cbv beta iota.
  destruct r; [| |by split].
  all: destruct Hkey as ((a' & y' & l' & Hal' & ->) & kk & hk & -> & Hkl).
  all: pose proof (f_equal List.length Hal') as Hl'; rewrite length_app in Hl'; simpl in Hl'.
  all: rewrite Hal' in Hby; apply bytes_app in Hby as [_ Hby].
  all: pose proof (str_decode_safe (T := T) y' l' ((pre ++ a) ++ a')
         (hs_value hdr_zero) Hby ltac:(lia)) as Hs.
  all: cbn [hs_key hs_value].
  all: destruct (str_decode _ _ _) as [[[r it'] v]|f]; [|done]; rewrite bind_Ok_l; cbv beta iota.
  all: assert (it_moves (it_at pre (b :: rest)) (it_at ((pre ++ a) ++ a') (y' :: l'))) as Hmv2
    by (rewrite Hal, Hal', app_assoc, <- (app_assoc pre); apply it_moves_app;
        intros [-> _]%app_nil; done).
  all: destruct r; simpl in Hs; [| |by split].
  all: destruct Hs as (_ & Hmv & s & hf & -> & Hsl); cbn [hs_key hs_value].
  all: pose proof (it_moves_trans _ _ _ Hmv2 Hmv) as Hmv3.
  all: destruct mi; [|by split].
  all: unfold hs_hdr; cbn [hs_key hs_value hs_t hs_i sl_txt live].
  all: destruct (push_header_own ctx kk s (mk_hdr (mk_txt (Some kk) hk) (mk_txt (Some s) hf) t num))
         as (ctx' & -> & Hok' & _); [done..|unfold esize, len in *; simpl in *; unfold UINT32_MAX; lia|].
  all: by split.
Qed.

Lemma HPK_DecHdr_any : dec_safe (HPK_DecHdr T (it_at pre (b :: rest)) ctx hdr_zero).
Proof.
  unfold HPK_DecHdr. rewrite it_ltend_at, it_get_at, bool_decide_eq_true_2 by done.
  cbn [assertC]. rewrite !bind_Ok_l.
  destruct (truth _); [apply dec_indexed_safe|].
  destruct (_ =? 1); [by apply dec_literal_safe|].
  destruct (_ =? 0); [by apply dec_literal_safe|].
  destruct (_ =? 1); [by apply dec_literal_safe|].
  destruct (_ =? 1); [|by split].
  pose proof (num_decode_total_at 5 pre b rest ltac:(lia) first_byte) as Hnum.
  destruct (num_decode _ _) as [[[r num] it']|f]; [|by left; destruct Hnum].
  destruct Hnum as (Hn & Hmv & _). rewrite bind_Ok_l. cbv beta iota.
  destruct r; [by split| |by split].
  destruct (resize_fit ctx num Hok Hn) as (ctx' & -> & Hok' & _). by split.
Qed.
End dec_safe.

(** [HPK_EncHdr] on a literal field. *)
Lemma HPK_EncHdr_lit ctx h k v first pref pre x tail :
  ctx_ok ctx -> size ctx <= UINT32_MAX - 61 ->
  lit_pat (hdr_t h) = Some (first, pref) -> lit_ok (entries ctx) pref h k v ->
  ~ loses_name ctx (hdr_i h) (esize (k, v)) -> (lit_len first pref h <= S (List.length tail))%nat ->
  exists out r ctx', lit_code first pref h out /\ r <> hpk_err /\
    HPK_EncHdr (it_at pre (x :: tail)) ctx h =
      Ok (r, it_at (pre ++ out) (drop (List.length out) (x :: tail)), ctx') /\
    ctx_ok ctx' /\ maxsize ctx' = maxsize ctx /\
    entries ctx' = if lit_index (hdr_t h) then rfc_add (maxsize ctx) (k, v) (entries ctx)
                   else entries ctx.
Proof.
  intros Hok Hsz Hpat Hlit Hlose Hroom.
  destruct (lit_pat_facts _ _ _ Hpat) as (Hp & Hf & _ & Hhi).
  destruct (enc_literal_ok (entries ctx) ctx h k v first pref (lit_index (hdr_t h)) pre tail)
    as (out & r & Hout & Hr & Henc); [done..|].
  assert (drop (List.length out) (first :: tail) = drop (List.length out) (x :: tail)) as Hdrop.
  { destruct Hout as (kc & vc & -> & _). pose proof (rfc_int_nonempty pref first (hdr_i h)).
    by destruct (rfc_int _ _ _). }
  assert (HPK_EncHdr (it_at pre (x :: tail)) ctx h =
    enc_literal (it_at pre (first :: tail)) ctx h pref (lit_index (hdr_t h))) as ->.
  { unfold HPK_EncHdr. destruct (lit_pat_cases _ _ _ Hpat) as
      [(-> & -> & ->)|[(-> & -> & ->)|(-> & -> & ->)]]; by rewrite it_put_at. }
  rewrite Henc, Hdrop. exists out, r. destruct (lit_index (hdr_t h)).
  - destruct (push_lit_enc ctx h k v pref) as (ctx' & -> & ? & ? & ?); [done..|].
    by exists ctx'.
  - by exists ctx.
Qed.

(** [HPK_DecHdr] on a literal field goes to [dec_literal]. *)
Lemma HPK_DecHdr_lit (T : Z -> option stbl) l ctx h k v first pref out pre post hs :
  lit_pat (hdr_t h) = Some (first, pref) -> lit_ok l pref h k v -> lit_code first pref h out ->
  HPK_DecHdr T (it_at pre (out ++ post)) ctx hs =
    dec_literal T (it_at pre (out ++ post)) ctx hs (hdr_t h) pref (lit_index (hdr_t h)).
Proof.
  intros Hpat Hlit Hout.
  destruct (lit_code_head _ _ _ h out Hpat) as (lo & rest & -> & Hlo); [|done|].
  - destruct (lo_name _ _ _ _ _ Hlit) as [[-> _]|(? & _)]; lia.
  - rewrite <- app_comm_cons. by apply dec_dispatch with (first := first).
Qed.

(** An empty string with nothing after it. *)
Lemma str_decode_empty_end (T : Z -> option stbl) pre t0 :
  str_decode T (it_at pre [0]) t0 = Ok (hpk_err, it_at (pre ++ [0]) [], t0).
Proof.
  unfold str_decode. rewrite it_ltend_at, it_get_at, bool_decide_eq_true_2 by done.
  cbn [assertC]. rewrite !bind_Ok_l.
  pose proof (num_decode_first 7 pre 0 0 []) as Hz. change (0 + 0) with 0 in Hz.
  rewrite Hz by (done || lia). change (0 <? 2 ^ 7 - 1) with true. cbv iota zeta.
  by rewrite bind_Ok_l, ITER_DONE_at.
Qed.

Lemma str_code_empty t out : txt_ok t [] -> str_code t out -> out = [0].
Proof.
  intros [Hp _ _ _ Hne] (body & -> & Hb).
  destruct (truth (txt_huff t)) eqn:Eh; [by specialize (Hne eq_refl)|].
  rewrite Hp in Hb. subst body. unfold str_hi, payload. by rewrite Eh, Hp.
Qed.

(** ** Properties *)

(** C2: a literal header field survives the trip through [HPK_EncHdr] and
    [HPK_DecHdr], and the two dynamic tables stay in step.  For every context
    pair with the same contents and every literal header (with, without or
    never indexed; its name literal or a table index; texts plain or
    Huffman-coded) that fits the buffer: encoding succeeds and writes [out];
    decoding [out], followed by anything, with any tables that satisfy
    [DecTbl], stops exactly after it and yields the same name, value, type and
    index; and afterwards both tables hold the same entries, the new one added
    by RFC 7541 section 4.4 when the field is indexed.  The exceptions are
    those of the integers (index [2 ^ p - 1], strings of 127 bytes), an empty
    Huffman string, an empty value that ends the block, and the name lost to
    its own eviction. *)
Theorem HPK_lit_roundtrip (T : Z -> option stbl) `{!DecTbl T} ectx dctx h k v first pref
    pre x tail pre' post :
  ctx_ok ectx -> ctx_ok dctx -> ctx_same ectx dctx -> size ectx <= UINT32_MAX - 61 ->
  lit_pat (hdr_t h) = Some (first, pref) -> lit_ok (entries ectx) pref h k v ->
  ~ loses_name ectx (hdr_i h) (esize (k, v)) ->
  (lit_len first pref h <= S (List.length tail))%nat -> (v = [] -> post <> []) ->
  Z.of_nat (lit_len first pref h + List.length post) < 2 ^ 31 ->
  exists out r ectx' dctx' kp vp,
    HPK_EncHdr (it_at pre (x :: tail)) ectx h =
      Ok (r, it_at (pre ++ out) (drop (List.length out) (x :: tail)), ectx') /\
    r <> hpk_err /\
    (let it := it_at (pre' ++ out) post in
     HPK_DecHdr T (it_at pre' (out ++ post)) dctx hdr_zero =
       Ok (ITER_DONE it, it, dctx', mk_hdr_slots (live k kp) (live v vp) (hdr_t h) (hdr_i h))) /\
    ctx_same ectx' dctx' /\ ctx_ok ectx' /\ ctx_ok dctx' /\
    entries ectx' = if lit_index (hdr_t h) then rfc_add (maxsize ectx) (k, v) (entries ectx)
                    else entries ectx.
Proof.
  intros Hoke Hokd Hsame Hsz Hpat Hlit Hlose Hroom Hpost Hlen.
  pose proof Hsame as (He & Hm & Hs). destruct (lit_pat_facts _ _ _ Hpat) as (Hp & _ & Hmod & _).
  destruct (HPK_EncHdr_lit ectx h k v first pref pre x tail)
    as (out & r & ectx' & Hout & Hr & -> & Hoke' & Hme & Hee); [done..|].
  rewrite <- (lit_code_length _ _ _ _ Hout) in Hlen.
  destruct (dec_literal_ok (T := T) dctx h k v first pref (hdr_t h) (lit_index (hdr_t h)) out pre' post)
    as (kp & vp & Hdec); [done|lia|by rewrite He|done..|].
  exists out, r, ectx'. rewrite (HPK_DecHdr_lit T _ dctx h k v first pref out), Hdec by done.
  destruct (lit_index (hdr_t h)).
  - destruct (push_header_own dctx k v (mk_hdr (mk_txt (Some k) kp) (mk_txt (Some v) vp) (hdr_t h) (hdr_i h)))
      as (dctx' & -> & Hokd' & Hmd & Hed); [done..|by eapply lo_size|].
    exists dctx', kp, vp. split_and!; try done. apply ctx_same_intro; try done; congruence.
  - exists dctx, kp, vp. split_and!; try done. apply ctx_same_intro; try done; congruence.
Qed.

(** The header of the witness: the name of index 62 of [wit_ctx], a Huffman-coded
    value, with incremental indexing. *)
Definition wit_lit : hpk_hdr := mk_hdr txt_null (mk_txt (Some [102; 103]) 1) hpk_inc 62.

Lemma wit_lit_ok : lit_ok (entries wit_ctx) 6 wit_lit [97; 98] [102; 103].
Proof.
  split; [right|split|].
  - split_and!; [done|unfold UINT32_MAX; simpl; lia|simpl; lia|done|by eexists].
  - done.
  - repeat constructor; lia.
  - simpl; lia.
  - vm_compute; lia.
  - done.
  - vm_compute. discriminate.
Qed.

Lemma HPK_lit_roundtrip_witness :
  exists out r ectx' dctx' kp vp,
    HPK_EncHdr (it_at [] (0 :: [0; 0; 0; 0; 0; 0; 0])) wit_ctx wit_lit =
      Ok (r, it_at ([] ++ out) (drop (List.length out) (0 :: [0; 0; 0; 0; 0; 0; 0])), ectx') /\
    r <> hpk_err /\
    (let it := it_at ([9] ++ out) [130] in
     HPK_DecHdr dectbl (it_at [9] (out ++ [130])) wit_ctx hdr_zero =
       Ok (ITER_DONE it, it, dctx', mk_hdr_slots (live [97; 98] kp) (live [102; 103] vp) hpk_inc 62)) /\
    ctx_same ectx' dctx' /\ ctx_ok ectx' /\ ctx_ok dctx' /\
    entries ectx' = [([97; 98], [102; 103]); ([97; 98], [99])].
Proof.
  apply (HPK_lit_roundtrip dectbl wit_ctx wit_ctx wit_lit [97; 98] [102; 103] 64 6
    [] 0 [0; 0; 0; 0; 0; 0; 0] [9] [130]).
  - exact wit_ctx_ok.
  - exact wit_ctx_ok.
  - split_and!; reflexivity.
  - vm_compute. discriminate.
  - reflexivity.
  - exact wit_lit_ok.
  - apply (bool_decide_unpack _). vm_compute. exact I.
  - vm_compute. lia.
  - discriminate.
  - vm_compute. reflexivity.
Defined.

(** C3: [HPK_DecHdr] on arbitrary bytes from a peer: on any consistent
    context it terminates, reads nothing outside the block, indexes nothing
    outside a table and writes nothing outside the strings it allocates; when
    it reports a field it has moved forward and stayed within the block, and
    whatever it reports the table stays consistent.  It can only go wrong in
    the three ways of [dec_fault]: a shift by more than 31 in [num_decode], an
    assertion, or a second [free] of the name. *)
Theorem HPK_DecHdr_safe (T : Z -> option stbl) `{!DecTbl T} ctx b rest pre :
  ctx_ok ctx -> maxsize ctx <= 2 ^ 30 -> bytes (b :: rest) ->
  Z.of_nat (List.length rest) < 2 ^ 30 ->
  match HPK_DecHdr T (it_at pre (b :: rest)) ctx hdr_zero with
  | Ok (r, it', ctx', hs) =>
      ctx_ok ctx' /\ (r <> hpk_err -> it_moves (it_at pre (b :: rest)) it')
  | Fault f => dec_fault f
  end.
Proof. intros. by apply HPK_DecHdr_any. Qed.

Lemma HPK_DecHdr_safe_witness :
  match HPK_DecHdr dectbl (it_at [] (0x40 :: [0x80; 0x01; 0x61])) wit_ctx hdr_zero with
  | Ok (r, it', ctx', hs) =>
      ctx_ok ctx' /\ (r <> hpk_err -> it_moves (it_at [] (0x40 :: [0x80; 0x01; 0x61])) it')
  | Fault f => dec_fault f
  end.
Proof.
  apply (HPK_DecHdr_safe dectbl wit_ctx 0x40 [0x80; 0x01; 0x61] []);
    [exact wit_ctx_ok|vm_compute; discriminate|repeat constructor; lia|vm_compute; reflexivity].
Defined.

(** An indexed field survives the trip: for an index that is in the table
    and is not 127, [HPK_EncHdr] writes its representation and [HPK_DecHdr]
    yields the name and value the table has there, leaving the table alone. *)
Theorem HPK_idx_roundtrip (T : Z -> option stbl) ctx h k v pre x tail pre' post :
  ctx_ok ctx -> size ctx <= UINT32_MAX - 61 -> hdr_t h = hpk_idx ->
  0 < hdr_i h <= UINT32_MAX -> hdr_i h <> 127 ->
  tbl_lookup (entries ctx) (hdr_i h) = Some (Some k, Some v) ->
  let out := rfc_int 7 128 (hdr_i h) in
  (List.length out <= S (List.length tail))%nat ->
  (let it := it_at (pre ++ out) (drop (List.length out) (x :: tail)) in
   HPK_EncHdr (it_at pre (x :: tail)) ctx h = Ok (ITER_DONE it, it, ctx)) /\
  (let it := it_at (pre' ++ out) post in
   HPK_DecHdr T (it_at pre' (out ++ post)) ctx hdr_zero =
     Ok (ITER_DONE it, it, ctx, mk_hdr_slots (live k 0) (live v 0) hpk_idx 0)).
Proof.
  intros Hok Hsz Ht Hi H127 Hlk out Hroom. split.
  - unfold HPK_EncHdr. rewrite Ht, it_put_at, bind_Ok_l.
    change (u8 0x80) with 128. change (rfc_int 7 128) with (rfc_int 7 (hi_bits 7 128)) in out.
    rewrite num_encode_ok, bind_Ok_l by (done || lia). cbv beta iota zeta.
    rewrite bool_decide_eq_false_2 by apply ITER_DONE_not_err. cbn [negb assertC].
    rewrite bind_Ok_l. assert (drop (List.length out) (128 :: tail) = drop (List.length out) (x :: tail)) as H.
    { pose proof (rfc_int_nonempty 7 (hi_bits 7 128) (hdr_i h)). fold out in H. by destruct out. }
    fold out. by rewrite H.
  - destruct (rfc_int_head 7 128 (hdr_i h)) as (lo & rest & Hout & Hlo); [lia..|].
    change (2 ^ 7) with 128 in Hlo. cbv zeta. fold out in Hout.
    rewrite Hout at 1. rewrite <- app_comm_cons, dec_dispatch_idx, app_comm_cons, <- Hout by lia.
    subst out. unfold dec_indexed. rewrite num_decode_ok, bind_Ok_l by (done || lia).
    cbv beta iota zeta. rewrite ITER_DONE_match, (proj2 (truth_true _)) by lia.
    unfold tbl_get_key, tbl_get_value. rewrite !tbl_get_field_spec, Hlk by (done || lia).
    simpl mbind. rewrite it_ltend_at, ITER_DONE_at.
    destruct post; reflexivity.
Qed.

Lemma HPK_idx_roundtrip_witness :
  (let it := it_at ([] ++ [191]) [0] in
   HPK_EncHdr (it_at [] (0 :: [0])) wit_ctx (mk_hdr txt_null txt_null hpk_idx 63) =
     Ok (ITER_DONE it, it, wit_ctx)) /\
  (let it := it_at ([] ++ [191]) [5] in
   HPK_DecHdr dectbl (it_at [] ([191] ++ [5])) wit_ctx hdr_zero =
     Ok (ITER_DONE it, it, wit_ctx, mk_hdr_slots (live [100] 0) (live [101] 0) hpk_idx 0)).
Proof.
  apply (HPK_idx_roundtrip dectbl wit_ctx (mk_hdr txt_null txt_null hpk_idx 63) [100] [101] [] 0 [0] [] [5]).
  - exact wit_ctx_ok.
  - vm_compute. discriminate.
  - reflexivity.
  - split; vm_compute; [reflexivity|discriminate].
  - discriminate.
  - vm_compute. reflexivity.
  - vm_compute. lia.
Defined.

(** A literal field whose name is an empty Huffman string makes the decoder
    free the name twice: [str_decode] frees it before it returns [hpk_err], and
    [HPK_DecHdr] frees it again.  No hypothesis on the tables or the bytes that
    follow is needed. *)
Theorem dec_double_free (T : Z -> option stbl) ctx first b post pre :
  first = 0x40 \/ first = 0x00 \/ first = 0x10 ->
  HPK_DecHdr T (it_at pre (first :: 0x80 :: b :: post)) ctx hdr_zero = Fault FFree.
Proof.
  intros Hfirst. unfold HPK_DecHdr. rewrite it_ltend_at, it_get_at, bool_decide_eq_true_2 by done.
  cbn [assertC]. rewrite !bind_Ok_l.
  assert (forall pref t mi, 1 <= pref <= 8 -> first `mod` 2 ^ pref = 0 ->
    dec_literal T (it_at pre (first :: 0x80 :: b :: post)) ctx hdr_zero t pref mi = Fault FFree) as H.
  2:{ by destruct Hfirst as [->|[->| ->]]; simpl; apply H. }
  intros pref t mi Hp Hmod. unfold dec_literal. cbv zeta.
  rewrite (assertC_true (truth pref)), bind_Ok_l by (apply truth_true; lia).
  assert (1 < 2 ^ pref) by (apply Z.pow_gt_1; lia).
  rewrite <- (Z.add_0_r first). rewrite num_decode_first by (done || lia).
  rewrite (proj2 (Z.ltb_lt 0 _)) by lia. cbv zeta. rewrite bind_Ok_l, ITER_DONE_at.
  unfold dec_key. change (truth 0) with false. cbv iota. unfold str_decode.
  rewrite it_ltend_at, it_get_at, bool_decide_eq_true_2 by done. cbn [assertC]. rewrite !bind_Ok_l.
  pose proof (num_decode_first 7 (pre ++ [first + 0]) 128 0 (b :: post)) as Hz.
  change (128 + 0) with 0x80 in Hz. rewrite Hz by (done || lia). clear Hz.
  change (0 <? 2 ^ 7 - 1) with true. cbv iota zeta. rewrite bind_Ok_l, ITER_DONE_at. cbv iota.
  rewrite it_ltend_at, bool_decide_eq_true_2 by done. cbn [assertC]. rewrite bind_Ok_l.
  rewrite (proj2 (Z.ltb_ge _ 0)) by by apply wrapu_range. reflexivity.
Qed.

Lemma dec_double_free_witness :
  HPK_DecHdr dectbl (it_at [] (0x40 :: 0x80 :: 0x01 :: [0x61])) wit_ctx hdr_zero = Fault FFree.
Proof. apply (dec_double_free dectbl wit_ctx 0x40 0x01 [0x61] []). left. reflexivity. Defined.

(** An empty value that ends the header block is rejected: [str_decode]
    wants more bytes after the length of a string even when the length is
    zero, so what [HPK_EncHdr] writes for such a header is reported as
    [hpk_err]. *)
Theorem dec_empty_last_value (T : Z -> option stbl) `{!DecTbl T} ctx h k first pref pre x tail pre' :
  ctx_ok ctx -> size ctx <= UINT32_MAX - 61 ->
  lit_pat (hdr_t h) = Some (first, pref) -> lit_ok (entries ctx) pref h k [] ->
  ~ loses_name ctx (hdr_i h) (esize (k, [])) -> (lit_len first pref h <= S (List.length tail))%nat ->
  Z.of_nat (lit_len first pref h) < 2 ^ 31 ->
  exists out r ctx' it hs,
    HPK_EncHdr (it_at pre (x :: tail)) ctx h =
      Ok (r, it_at (pre ++ out) (drop (List.length out) (x :: tail)), ctx') /\ r <> hpk_err /\
    HPK_DecHdr T (it_at pre' out) ctx hdr_zero = Ok (hpk_err, it, ctx, hs).
Proof.
  intros Hok Hsz Hpat Hlit Hlose Hroom Hlen.
  destruct (lit_pat_facts _ _ _ Hpat) as (Hp & _ & Hmod & _).
  destruct (HPK_EncHdr_lit ctx h k [] first pref pre x tail)
    as (out & r & ctx' & Hout & Hr & -> & _); [done..|].
  exists out, r, ctx'.
  pose proof (HPK_DecHdr_lit T _ ctx h k [] first pref out pre' [] hdr_zero Hpat Hlit Hout) as Hd.
  rewrite app_nil_r in Hd. rewrite Hd. clear Hd.
  rewrite <- (lit_code_length _ _ _ _ Hout) in Hlen.
  destruct Hout as (kc & vc & -> & Hkc & Hvc).
  apply str_code_empty in Hvc as ->; [|by eapply lo_value]. rewrite !length_app in Hlen.
  assert (0 <= hdr_i h <= UINT32_MAX) as Hi.
  { destruct (lo_name _ _ _ _ _ Hlit) as [[-> _]|(? & _)]; unfold UINT32_MAX in *; lia. }
  unfold dec_literal. cbv zeta.
  rewrite (assertC_true (truth pref)), bind_Ok_l by (apply truth_true; lia).
  rewrite num_decode_more, bind_Ok_l; [|done..|by destruct kc]. cbv beta iota.
  cbn [hs_key hs_value hs_t hs_i].
  destruct (dec_name ctx h k [] pref kc (pre' ++ rfc_int pref first (hdr_i h)) [0]
    (mk_hdr_slots (hs_key hdr_zero) (hs_value hdr_zero) (hdr_t h) (hdr_i h)))
    as (kp & ->); [done..|lia|]. rewrite bind_Ok_l. cbv beta iota.
  rewrite str_decode_empty_end, bind_Ok_l. cbv beta iota.
  by eexists _, _.
Qed.

Lemma dec_empty_last_value_witness :
  exists out r ctx' it hs,
    HPK_EncHdr (it_at [] (9 :: [9; 9; 9; 9])) wit_ctx
        (mk_hdr (mk_txt (Some [97]) 0) (mk_txt (Some []) 0) hpk_not 0) =
      Ok (r, it_at ([] ++ out) (drop (List.length out) (9 :: [9; 9; 9; 9])), ctx') /\ r <> hpk_err /\
    HPK_DecHdr dectbl (it_at [] out) wit_ctx hdr_zero = Ok (hpk_err, it, wit_ctx, hs).
Proof.
  apply (dec_empty_last_value dectbl wit_ctx
    (mk_hdr (mk_txt (Some [97]) 0) (mk_txt (Some []) 0) hpk_not 0) [97] 0 4 [] 9 [9; 9; 9; 9] []).
  - exact wit_ctx_ok.
  - vm_compute. discriminate.
  - reflexivity.
  - split; [left; split; [reflexivity|split]|split|vm_compute; discriminate]; try done;
      try (repeat constructor; lia).
  - apply (bool_decide_unpack _). vm_compute. exact I.
  - vm_compute. lia.
  - vm_compute. reflexivity.
Defined.
