(* ===== verification/TekenData.v ===== *)
(** * Character widths and UTF-8 code points: teken_wcwidth.h.

    The binary search over the table of non-spacing characters is shown to be
    membership in the table, and so [teken_wcwidth] a function of the code point
    alone. *)

From Stdlib Require Import ZArith Lia String.
From stdpp Require Import base option numbers list.
From S2P Require Import Prelude HpackData.
#[local] Open Scope Z_scope.

(** ** The code *)

(** [combining[]]: pairs [first], [last]. *)
Definition combining : list (Z * Z) :=
  [(0x0300, 0x036F); (0x0483, 0x0486); (0x0488, 0x0489); (0x0591, 0x05BD);
   (0x05BF, 0x05BF); (0x05C1, 0x05C2); (0x05C4, 0x05C5); (0x05C7, 0x05C7);
   (0x0600, 0x0603); (0x0610, 0x0615); (0x064B, 0x065E); (0x0670, 0x0670);
   (0x06D6, 0x06E4); (0x06E7, 0x06E8); (0x06EA, 0x06ED); (0x070F, 0x070F);
   (0x0711, 0x0711); (0x0730, 0x074A); (0x07A6, 0x07B0); (0x07EB, 0x07F3);
   (0x0901, 0x0902); (0x093C, 0x093C); (0x0941, 0x0948); (0x094D, 0x094D);
   (0x0951, 0x0954); (0x0962, 0x0963); (0x0981, 0x0981); (0x09BC, 0x09BC);
   (0x09C1, 0x09C4); (0x09CD, 0x09CD); (0x09E2, 0x09E3); (0x0A01, 0x0A02);
   (0x0A3C, 0x0A3C); (0x0A41, 0x0A42); (0x0A47, 0x0A48); (0x0A4B, 0x0A4D);
   (0x0A70, 0x0A71); (0x0A81, 0x0A82); (0x0ABC, 0x0ABC); (0x0AC1, 0x0AC5);
   (0x0AC7, 0x0AC8); (0x0ACD, 0x0ACD); (0x0AE2, 0x0AE3); (0x0B01, 0x0B01);
   (0x0B3C, 0x0B3C); (0x0B3F, 0x0B3F); (0x0B41, 0x0B43); (0x0B4D, 0x0B4D);
   (0x0B56, 0x0B56); (0x0B82, 0x0B82); (0x0BC0, 0x0BC0); (0x0BCD, 0x0BCD);
   (0x0C3E, 0x0C40); (0x0C46, 0x0C48); (0x0C4A, 0x0C4D); (0x0C55, 0x0C56);
   (0x0CBC, 0x0CBC); (0x0CBF, 0x0CBF); (0x0CC6, 0x0CC6); (0x0CCC, 0x0CCD);
   (0x0CE2, 0x0CE3); (0x0D41, 0x0D43); (0x0D4D, 0x0D4D); (0x0DCA, 0x0DCA);
   (0x0DD2, 0x0DD4); (0x0DD6, 0x0DD6); (0x0E31, 0x0E31); (0x0E34, 0x0E3A);
   (0x0E47, 0x0E4E); (0x0EB1, 0x0EB1); (0x0EB4, 0x0EB9); (0x0EBB, 0x0EBC);
   (0x0EC8, 0x0ECD); (0x0F18, 0x0F19); (0x0F35, 0x0F35); (0x0F37, 0x0F37);
   (0x0F39, 0x0F39); (0x0F71, 0x0F7E); (0x0F80, 0x0F84); (0x0F86, 0x0F87);
   (0x0F90, 0x0F97); (0x0F99, 0x0FBC); (0x0FC6, 0x0FC6); (0x102D, 0x1030);
   (0x1032, 0x1032); (0x1036, 0x1037); (0x1039, 0x1039); (0x1058, 0x1059);
   (0x1160, 0x11FF); (0x135F, 0x135F); (0x1712, 0x1714); (0x1732, 0x1734);
   (0x1752, 0x1753); (0x1772, 0x1773); (0x17B4, 0x17B5); (0x17B7, 0x17BD);
   (0x17C6, 0x17C6); (0x17C9, 0x17D3); (0x17DD, 0x17DD); (0x180B, 0x180D);
   (0x18A9, 0x18A9); (0x1920, 0x1922); (0x1927, 0x1928); (0x1932, 0x1932);
   (0x1939, 0x193B); (0x1A17, 0x1A18); (0x1B00, 0x1B03); (0x1B34, 0x1B34);
   (0x1B36, 0x1B3A); (0x1B3C, 0x1B3C); (0x1B42, 0x1B42); (0x1B6B, 0x1B73);
   (0x1DC0, 0x1DCA); (0x1DFE, 0x1DFF); (0x200B, 0x200F); (0x202A, 0x202E);
   (0x2060, 0x2063); (0x206A, 0x206F); (0x20D0, 0x20EF); (0x302A, 0x302F);
   (0x3099, 0x309A); (0xA806, 0xA806); (0xA80B, 0xA80B); (0xA825, 0xA826);
   (0xFB1E, 0xFB1E); (0xFE00, 0xFE0F); (0xFE20, 0xFE23); (0xFEFF, 0xFEFF);
   (0xFFF9, 0xFFFB); (0x10A01, 0x10A03); (0x10A05, 0x10A06); (0x10A0C, 0x10A0F);
   (0x10A38, 0x10A3A); (0x10A3F, 0x10A3F); (0x1D167, 0x1D169); (0x1D173, 0x1D182);
   (0x1D185, 0x1D18B); (0x1D1AA, 0x1D1AD); (0x1D242, 0x1D244); (0xE0001, 0xE0001);
   (0xE0020, 0xE007F); (0xE0100, 0xE01EF)].

(** The loop of [bisearch]; [min] and [max] are [int]s. *)
Fixpoint bisearch_loop (fuel : nat) (ucs : Z) (table : list (Z * Z)) (min max : Z) :
    outcome bool :=
  if max <? min then Ok false
  else
    match fuel with
    | O => Fault FFuel
    | S fuel =>
        let mid := (min + max) `quot` 2 in
        iv ← readC table (Z.to_nat mid);
        if iv.2 <? ucs then bisearch_loop fuel ucs table (mid + 1) max
        else if ucs <? iv.1 then bisearch_loop fuel ucs table min (mid - 1)
        else Ok true
    end.

Definition bisearch (ucs : Z) (table : list (Z * Z)) (max : Z) : outcome bool :=
  lo ← readC table 0;
  hi ← readC table (Z.to_nat max);
  if (ucs <? lo.1) || (hi.2 <? ucs) then Ok false
  else bisearch_loop (S (Z.to_nat max)) ucs table 0 max.

(** The ranges of double-width characters. *)
Definition is_wide (ucs : Z) : bool :=
  (0x1100 <=? ucs) &&
  ((ucs <=? 0x115f) ||
   (ucs =? 0x2329) || (ucs =? 0x232a) ||
   ((0x2e80 <=? ucs) && (ucs <=? 0xa4cf) && negb (ucs =? 0x303f)) ||
   ((0xac00 <=? ucs) && (ucs <=? 0xd7a3)) ||
   ((0xf900 <=? ucs) && (ucs <=? 0xfaff)) ||
   ((0xfe10 <=? ucs) && (ucs <=? 0xfe19)) ||
   ((0xfe30 <=? ucs) && (ucs <=? 0xfe6f)) ||
   ((0xff00 <=? ucs) && (ucs <=? 0xff60)) ||
   ((0xffe0 <=? ucs) && (ucs <=? 0xffe6)) ||
   ((0x20000 <=? ucs) && (ucs <=? 0x2fffd)) ||
   ((0x30000 <=? ucs) && (ucs <=? 0x3fffd))).

Definition teken_wcwidth (ucs : Z) : outcome Z :=
  if ucs =? 0 then Ok 0
  else if (ucs <? 32) || ((0x7f <=? ucs) && (ucs <? 0xa0)) then Ok (-1)
  else
    b ← bisearch ucs combining (Z.of_nat (length combining) - 1);
    if (b : bool) then Ok 0 else Ok (1 + Z.b2z (is_wide ucs)).

(** [TEKEN_UTF8_INVALID_CODEPOINT] as a [teken_char_t]. *)
Definition TEKEN_UTF8_INVALID_CODEPOINT : Z := u32 (-1).

(** [teken_utf8_bytes_to_codepoint], of the four bytes of its array. *)
Definition teken_utf8_bytes_to_codepoint (b0 b1 b2 b3 nbytes : Z) : Z :=
  let cont b := Z.land b 0x3f in
  if nbytes =? 1 then
    if truth (Z.land b0 0x80) then TEKEN_UTF8_INVALID_CODEPOINT else Z.land b0 0x7f
  else if nbytes =? 2 then
    if negb (Z.land b0 0xe0 =? 0xc0) then TEKEN_UTF8_INVALID_CODEPOINT
    else Z.lor (Z.shiftl (Z.land b0 0x1f) 6) (cont b1)
  else if nbytes =? 3 then
    if negb (Z.land b0 0xf0 =? 0xe0) then TEKEN_UTF8_INVALID_CODEPOINT
    else Z.lor (Z.lor (Z.shiftl (Z.land b0 0xf) 12) (Z.shiftl (cont b1) 6)) (cont b2)
  else if nbytes =? 4 then
    if negb (Z.land b0 0xf8 =? 0xf0) then TEKEN_UTF8_INVALID_CODEPOINT
    else Z.lor (Z.lor (Z.lor (Z.shiftl (Z.land b0 0x7) 18) (Z.shiftl (cont b1) 12))
           (Z.shiftl (cont b2) 6)) (cont b3)
  else TEKEN_UTF8_INVALID_CODEPOINT.

(** ** The search is membership *)

Definition in_interval (ucs : Z) (iv : Z * Z) : bool := (iv.1 <=? ucs) && (ucs <=? iv.2).
Definition in_table (ucs : Z) (table : list (Z * Z)) : bool := existsb (in_interval ucs) table.

(** Sorted and non-overlapping, as the comment on the table says. *)
Definition table_ok (table : list (Z * Z)) : Prop :=
  forall i j a b, (i < j)%nat -> table !! i = Some a -> table !! j = Some b -> a.2 < b.1.

Definition table_pos (table : list (Z * Z)) : Prop :=
  forall i a, table !! i = Some a -> a.1 <= a.2.

(** The checks [table_ok] and [table_pos] follow from, on a concrete table. *)
Fixpoint sorted_from (lo : Z) (table : list (Z * Z)) : bool :=
  match table with
  | [] => true
  | iv :: table => (lo <? iv.1) && (iv.1 <=? iv.2) && sorted_from iv.2 table
  end.

Lemma sorted_from_lb lo table i a :
  sorted_from lo table = true -> table !! i = Some a -> lo < a.1 <= a.2.
Proof.
  revert lo i. induction table as [|iv table IH]; intros lo i Hs Hi; [done|].
  cbn [sorted_from] in Hs. rewrite !andb_true_iff, Z.ltb_lt, Z.leb_le in Hs.
  destruct i as [|i]; [injection Hi as <-; lia|].
  specialize (IH _ i (proj2 Hs) Hi). lia.
Qed.

Lemma sorted_from_ok lo table : sorted_from lo table = true -> table_ok table /\ table_pos table.
Proof.
  intros Hs. split; [|intros i a Hi; by eapply sorted_from_lb in Hi as [_ ?]].
  intros i j a b Hij Hi Hj. revert lo i j Hs Hij Hi Hj.
  induction table as [|iv table IH]; intros lo i j Hs Hij Hi Hj; [done|].
  cbn [sorted_from] in Hs. rewrite !andb_true_iff in Hs. destruct Hs as [_ Hs].
  destruct j as [|j]; [lia|]. destruct i as [|i].
  - injection Hi as <-. by apply (sorted_from_lb _ _ j b) in Hs as [? _].
  - apply (IH iv.2 i j); [done|lia|done|done].
Qed.

Lemma combining_ok : table_ok combining /\ table_pos combining.
Proof. apply (sorted_from_ok 0). vm_compute. reflexivity. Qed.

Lemma in_table_spec ucs table :
  in_table ucs table = true <-> exists i iv, table !! i = Some iv /\ iv.1 <= ucs <= iv.2.
Proof.
  unfold in_table. rewrite existsb_exists. unfold in_interval.
  setoid_rewrite andb_true_iff. setoid_rewrite Z.leb_le. split.
  - intros (iv & Hin%list_elem_of_In & Hr). apply list_elem_of_lookup in Hin as [i Hi]. eauto.
  - intros (i & iv & Hi & Hr). exists iv. split; [|lia].
    by apply list_elem_of_In, list_elem_of_lookup_2 with i.
Qed.

(** No interval outside [min .. max] holds [ucs]. *)
Definition outside (ucs : Z) (table : list (Z * Z)) (min max : Z) : Prop :=
  forall i iv, table !! i = Some iv -> Z.of_nat i < min \/ max < Z.of_nat i ->
    ~ (iv.1 <= ucs <= iv.2).

Lemma bisearch_loop_ok fuel ucs table min max :
  table_ok table -> table_pos table -> 0 <= min -> max < Z.of_nat (length table) ->
  max - min < Z.of_nat fuel -> outside ucs table min max ->
  bisearch_loop fuel ucs table min max = Ok (in_table ucs table).
Proof.
  intros Hok Hpos. revert min max.
  induction fuel as [|fuel IH]; intros min max Hmin Hmax Hfuel Hout; cbn [bisearch_loop];
    destruct (Z.ltb_spec max min); try lia.
  1,2: f_equal; symmetry; apply not_true_iff_false; rewrite in_table_spec;
    intros (i & iv & Hi & Hr); apply (Hout i iv Hi); [lia|done].
  rewrite Z.quot_div_nonneg by lia.
  pose proof (Z.div_mod (min + max) 2 ltac:(lia)).
  pose proof (Z.mod_pos_bound (min + max) 2 ltac:(lia)).
  set (mid := (min + max) / 2) in *. assert (min <= mid <= max) as Hmid by lia.
  destruct (readC_lt table (Z.to_nat mid)) as (iv & Hiv & ->); [lia|].
  rewrite bind_Ok_l. pose proof (Hpos _ _ Hiv).
  destruct (Z.ltb_spec iv.2 ucs); [|destruct (Z.ltb_spec ucs iv.1)].
  - apply IH; [lia..|]. intros i iv' Hi' Hor Hr.
    destruct (decide (Z.of_nat i < min \/ max < Z.of_nat i)); [by apply (Hout i iv')|].
    destruct (decide (i = Z.to_nat mid)) as [->|]; [rewrite Hiv in Hi'; injection Hi' as <-; lia|].
    pose proof (Hok i (Z.to_nat mid) iv' iv ltac:(lia) Hi' Hiv). lia.
  - apply IH; [lia..|]. intros i iv' Hi' Hor Hr.
    destruct (decide (Z.of_nat i < min \/ max < Z.of_nat i)); [by apply (Hout i iv')|].
    destruct (decide (i = Z.to_nat mid)) as [->|]; [rewrite Hiv in Hi'; injection Hi' as <-; lia|].
    pose proof (Hok (Z.to_nat mid) i iv iv' ltac:(lia) Hiv Hi'). lia.
  - f_equal. symmetry. apply in_table_spec. exists (Z.to_nat mid), iv. split; [done|lia].
Qed.

Lemma bisearch_ok ucs table :
  table_ok table -> table_pos table -> table <> [] ->
  bisearch ucs table (Z.of_nat (length table) - 1) = Ok (in_table ucs table).
Proof.
  intros Hok Hpos Hne. assert (0 < length table)%nat by (destruct table; [done|simpl; lia]).
  unfold bisearch. set (n := Z.to_nat (Z.of_nat (length table) - 1)).
  destruct (readC_lt table 0) as (lo & Hlo & ->); [done|]. rewrite bind_Ok_l.
  destruct (readC_lt table n) as (hi & Hhi & ->); [lia|]. rewrite bind_Ok_l.
  destruct (_ || _) eqn:E.
  - f_equal. symmetry. apply not_true_iff_false. rewrite in_table_spec. intros (i & iv & Hi & Hr).
    pose proof (lookup_lt_Some _ _ _ Hi). rewrite orb_true_iff, !Z.ltb_lt in E. destruct E.
    + destruct (decide (i = 0%nat)) as [->|]; [rewrite Hlo in Hi; injection Hi as <-; lia|].
      pose proof (Hok 0%nat i lo iv ltac:(lia) Hlo Hi). pose proof (Hpos _ _ Hlo). lia.
    + destruct (decide (i = n)) as [->|]; [rewrite Hhi in Hi; injection Hi as <-; lia|].
      pose proof (Hok i n iv hi ltac:(lia) Hi Hhi). pose proof (Hpos _ _ Hhi). lia.
  - apply bisearch_loop_ok; [done..|lia|lia|lia|]. intros i iv Hi. apply lookup_lt_Some in Hi. lia.
Qed.

(** The width of a character by the tables alone. *)
Definition width_ref (ucs : Z) : Z :=
  if ucs =? 0 then 0
  else if (ucs <? 32) || ((0x7f <=? ucs) && (ucs <? 0xa0)) then -1
  else if in_table ucs combining then 0
  else if is_wide ucs then 2 else 1.

Lemma teken_wcwidth_ref ucs : teken_wcwidth ucs = Ok (width_ref ucs).
Proof.
  unfold teken_wcwidth, width_ref. destruct (ucs =? 0); [done|]. destruct (_ || _); [done|].
  destruct combining_ok. rewrite bisearch_ok by done. rewrite bind_Ok_l.
  destruct (in_table _ _); [done|]. by destruct (is_wide ucs).
Qed.

Lemma width_ref_range ucs : -1 <= width_ref ucs <= 2.
Proof.
  unfold width_ref. destruct (ucs =? 0); [lia|]. destruct (_ || _); [lia|].
  destruct (in_table _ _); [lia|]. destruct (is_wide ucs); lia.
Qed.

(** [bisearch] is membership: on every sorted table of non-overlapping
    intervals it terminates, never reads outside the table, and answers whether
    some interval holds the character; the table of [teken_wcwidth] is such a
    table, so that [teken_wcwidth] is total and is -1 on controls, 0 on the
    table's characters, 2 on the wide ranges and 1 on everything else. *)
Theorem teken_wcwidth_total ucs table :
  table_ok table -> table_pos table -> table <> [] ->
  bisearch ucs table (Z.of_nat (length table) - 1) = Ok (in_table ucs table) /\
  teken_wcwidth ucs = Ok (width_ref ucs).
Proof. intros. split; [by apply bisearch_ok|apply teken_wcwidth_ref]. Qed.

Lemma teken_wcwidth_total_witness :
  bisearch 0x301 combining (Z.of_nat (length combining) - 1) = Ok true /\
  teken_wcwidth 0x301 = Ok 0.
Proof.
  apply (teken_wcwidth_total 0x301 combining); [apply combining_ok..|discriminate].
Defined.

(** ** The terminal emulator's data: teken.h, the hook wrappers of teken.c, the
    character sets of teken_scs.h and the color tables of teken.c. *)

(** ** Types *)

Record teken_pos := mk_pos { tp_row : Z; tp_col : Z }.
Record teken_rect := mk_rect { tr_begin : teken_pos; tr_end : teken_pos }.
Record teken_attr := mk_attr { ta_format : Z; ta_fgcolor : Z; ta_bgcolor : Z }.
Record teken_span := mk_span { ts_begin : Z; ts_end : Z }.

#[global] Instance teken_pos_eq_dec : EqDecision teken_pos.
Proof. solve_decision. Defined.
#[global] Instance teken_span_eq_dec : EqDecision teken_span.
Proof. solve_decision. Defined.

Definition TF_BOLD : Z := 0x01.
Definition TF_UNDERLINE : Z := 0x02.
Definition TF_BLINK : Z := 0x04.
Definition TF_REVERSE : Z := 0x08.
Definition TF_CJK_RIGHT : Z := 0x10.

Definition TC_WHITE : Z := 7.
Definition TC_BLACK : Z := 0.
Definition TC_LIGHT : Z := 8.

Definition TP_SHOWCURSOR : Z := 0.
Definition TP_KEYPADAPP : Z := 1.
Definition TP_AUTOREPEAT : Z := 2.
Definition TP_SWITCHVT : Z := 3.
Definition TP_132COLS : Z := 4.
Definition TP_SETBELLPD : Z := 5.
Definition TP_MOUSE : Z := 6.
Definition TP_SETBORDER : Z := 7.
Definition TP_SETLOCALCURSOR : Z := 8.
Definition TP_SETGLOBALCURSOR : Z := 9.

(** The flags of [t_stateflags]. *)
Definition TS_FIRSTDIGIT : Z := 0x0001.
Definition TS_INSERT : Z := 0x0002.
Definition TS_AUTOWRAP : Z := 0x0004.
Definition TS_ORIGIN : Z := 0x0008.
Definition TS_WRAPPED : Z := 0x0010.
Definition TS_8BIT : Z := 0x0020.
Definition TS_CONS25 : Z := 0x0040.
Definition TS_INSTRING : Z := 0x0080.
Definition TS_CURSORKEYS : Z := 0x0100.

Definition BLANK : Z := 32.
Definition T_NUMSIZE : Z := 8.
Definition T_NUMCOL : Z := 160.
Definition UINT_MAX : Z := 4294967295.

(** The functions a [teken_scs_t *] of the source points to. *)
Inductive teken_scs :=
  | teken_scs_us_ascii
  | teken_scs_uk_national
  | teken_scs_special_graphics.

(** [struct __teken] without [t_funcs] and [t_softc], which the operations take
    as arguments.  [t_nextstate] is the prefix of an escape sequence that the
    state function of the generated teken_state.h is named for. *)
Record teken := mk_teken {
  t_nextstate : list Z;
  t_stateflags : Z;
  t_nums : list Z;
  t_curnum : Z;
  t_cursor : teken_pos;
  t_curattr : teken_attr;
  t_saved_cursor : teken_pos;
  t_saved_curattr : teken_attr;
  t_defattr : teken_attr;
  t_winsize : teken_pos;
  t_scrollreg : teken_span;
  t_originreg : teken_span;
  t_tabstops : list Z;
  t_utf8_left : Z;
  t_utf8_partial : Z;
  t_last : Z;
  t_curscs : Z;
  t_saved_curscs : teken_scs;
  t_scs : list teken_scs
}.

(** ** Assignments to the fields *)

Section updates.
Variable t : teken.

Definition upd_nextstate x : teken :=
  mk_teken x (t_stateflags t) (t_nums t) (t_curnum t) (t_cursor t) (t_curattr t)
    (t_saved_cursor t) (t_saved_curattr t) (t_defattr t) (t_winsize t) (t_scrollreg t)
    (t_originreg t) (t_tabstops t) (t_utf8_left t) (t_utf8_partial t) (t_last t)
    (t_curscs t) (t_saved_curscs t) (t_scs t).
Definition upd_stateflags x : teken :=
  mk_teken (t_nextstate t) x (t_nums t) (t_curnum t) (t_cursor t) (t_curattr t)
    (t_saved_cursor t) (t_saved_curattr t) (t_defattr t) (t_winsize t) (t_scrollreg t)
    (t_originreg t) (t_tabstops t) (t_utf8_left t) (t_utf8_partial t) (t_last t)
    (t_curscs t) (t_saved_curscs t) (t_scs t).
Definition upd_nums x : teken :=
  mk_teken (t_nextstate t) (t_stateflags t) x (t_curnum t) (t_cursor t) (t_curattr t)
    (t_saved_cursor t) (t_saved_curattr t) (t_defattr t) (t_winsize t) (t_scrollreg t)
    (t_originreg t) (t_tabstops t) (t_utf8_left t) (t_utf8_partial t) (t_last t)
    (t_curscs t) (t_saved_curscs t) (t_scs t).
Definition upd_curnum x : teken :=
  mk_teken (t_nextstate t) (t_stateflags t) (t_nums t) x (t_cursor t) (t_curattr t)
    (t_saved_cursor t) (t_saved_curattr t) (t_defattr t) (t_winsize t) (t_scrollreg t)
    (t_originreg t) (t_tabstops t) (t_utf8_left t) (t_utf8_partial t) (t_last t)
    (t_curscs t) (t_saved_curscs t) (t_scs t).
Definition upd_cursor x : teken :=
  mk_teken (t_nextstate t) (t_stateflags t) (t_nums t) (t_curnum t) x (t_curattr t)
    (t_saved_cursor t) (t_saved_curattr t) (t_defattr t) (t_winsize t) (t_scrollreg t)
    (t_originreg t) (t_tabstops t) (t_utf8_left t) (t_utf8_partial t) (t_last t)
    (t_curscs t) (t_saved_curscs t) (t_scs t).
Definition upd_curattr x : teken :=
  mk_teken (t_nextstate t) (t_stateflags t) (t_nums t) (t_curnum t) (t_cursor t) x
    (t_saved_cursor t) (t_saved_curattr t) (t_defattr t) (t_winsize t) (t_scrollreg t)
    (t_originreg t) (t_tabstops t) (t_utf8_left t) (t_utf8_partial t) (t_last t)
    (t_curscs t) (t_saved_curscs t) (t_scs t).
Definition upd_saved_cursor x : teken :=
  mk_teken (t_nextstate t) (t_stateflags t) (t_nums t) (t_curnum t) (t_cursor t)
    (t_curattr t) x (t_saved_curattr t) (t_defattr t) (t_winsize t) (t_scrollreg t)
    (t_originreg t) (t_tabstops t) (t_utf8_left t) (t_utf8_partial t) (t_last t)
    (t_curscs t) (t_saved_curscs t) (t_scs t).
Definition upd_saved_curattr x : teken :=
  mk_teken (t_nextstate t) (t_stateflags t) (t_nums t) (t_curnum t) (t_cursor t)
    (t_curattr t) (t_saved_cursor t) x (t_defattr t) (t_winsize t) (t_scrollreg t)
    (t_originreg t) (t_tabstops t) (t_utf8_left t) (t_utf8_partial t) (t_last t)
    (t_curscs t) (t_saved_curscs t) (t_scs t).
Definition upd_defattr x : teken :=
  mk_teken (t_nextstate t) (t_stateflags t) (t_nums t) (t_curnum t) (t_cursor t)
    (t_curattr t) (t_saved_cursor t) (t_saved_curattr t) x (t_winsize t) (t_scrollreg t)
    (t_originreg t) (t_tabstops t) (t_utf8_left t) (t_utf8_partial t) (t_last t)
    (t_curscs t) (t_saved_curscs t) (t_scs t).
Definition upd_winsize x : teken :=
  mk_teken (t_nextstate t) (t_stateflags t) (t_nums t) (t_curnum t) (t_cursor t)
    (t_curattr t) (t_saved_cursor t) (t_saved_curattr t) (t_defattr t) x (t_scrollreg t)
    (t_originreg t) (t_tabstops t) (t_utf8_left t) (t_utf8_partial t) (t_last t)
    (t_curscs t) (t_saved_curscs t) (t_scs t).
Definition upd_scrollreg x : teken :=
  mk_teken (t_nextstate t) (t_stateflags t) (t_nums t) (t_curnum t) (t_cursor t)
    (t_curattr t) (t_saved_cursor t) (t_saved_curattr t) (t_defattr t) (t_winsize t) x
    (t_originreg t) (t_tabstops t) (t_utf8_left t) (t_utf8_partial t) (t_last t)
    (t_curscs t) (t_saved_curscs t) (t_scs t).
Definition upd_originreg x : teken :=
  mk_teken (t_nextstate t) (t_stateflags t) (t_nums t) (t_curnum t) (t_cursor t)
    (t_curattr t) (t_saved_cursor t) (t_saved_curattr t) (t_defattr t) (t_winsize t)
    (t_scrollreg t) x (t_tabstops t) (t_utf8_left t) (t_utf8_partial t) (t_last t)
    (t_curscs t) (t_saved_curscs t) (t_scs t).
Definition upd_tabstops x : teken :=
  mk_teken (t_nextstate t) (t_stateflags t) (t_nums t) (t_curnum t) (t_cursor t)
    (t_curattr t) (t_saved_cursor t) (t_saved_curattr t) (t_defattr t) (t_winsize t)
    (t_scrollreg t) (t_originreg t) x (t_utf8_left t) (t_utf8_partial t) (t_last t)
    (t_curscs t) (t_saved_curscs t) (t_scs t).
Definition upd_utf8_left x : teken :=
  mk_teken (t_nextstate t) (t_stateflags t) (t_nums t) (t_curnum t) (t_cursor t)
    (t_curattr t) (t_saved_cursor t) (t_saved_curattr t) (t_defattr t) (t_winsize t)
    (t_scrollreg t) (t_originreg t) (t_tabstops t) x (t_utf8_partial t) (t_last t)
    (t_curscs t) (t_saved_curscs t) (t_scs t).
Definition upd_utf8_partial x : teken :=
  mk_teken (t_nextstate t) (t_stateflags t) (t_nums t) (t_curnum t) (t_cursor t)
    (t_curattr t) (t_saved_cursor t) (t_saved_curattr t) (t_defattr t) (t_winsize t)
    (t_scrollreg t) (t_originreg t) (t_tabstops t) (t_utf8_left t) x (t_last t)
    (t_curscs t) (t_saved_curscs t) (t_scs t).
Definition upd_last x : teken :=
  mk_teken (t_nextstate t) (t_stateflags t) (t_nums t) (t_curnum t) (t_cursor t)
    (t_curattr t) (t_saved_cursor t) (t_saved_curattr t) (t_defattr t) (t_winsize t)
    (t_scrollreg t) (t_originreg t) (t_tabstops t) (t_utf8_left t) (t_utf8_partial t) x
    (t_curscs t) (t_saved_curscs t) (t_scs t).
Definition upd_curscs x : teken :=
  mk_teken (t_nextstate t) (t_stateflags t) (t_nums t) (t_curnum t) (t_cursor t)
    (t_curattr t) (t_saved_cursor t) (t_saved_curattr t) (t_defattr t) (t_winsize t)
    (t_scrollreg t) (t_originreg t) (t_tabstops t) (t_utf8_left t) (t_utf8_partial t)
    (t_last t) x (t_saved_curscs t) (t_scs t).
Definition upd_saved_curscs x : teken :=
  mk_teken (t_nextstate t) (t_stateflags t) (t_nums t) (t_curnum t) (t_cursor t)
    (t_curattr t) (t_saved_cursor t) (t_saved_curattr t) (t_defattr t) (t_winsize t)
    (t_scrollreg t) (t_originreg t) (t_tabstops t) (t_utf8_left t) (t_utf8_partial t)
    (t_last t) (t_curscs t) x (t_scs t).
Definition upd_scs x : teken :=
  mk_teken (t_nextstate t) (t_stateflags t) (t_nums t) (t_curnum t) (t_cursor t)
    (t_curattr t) (t_saved_cursor t) (t_saved_curattr t) (t_defattr t) (t_winsize t)
    (t_scrollreg t) (t_originreg t) (t_tabstops t) (t_utf8_left t) (t_utf8_partial t)
    (t_last t) (t_curscs t) (t_saved_curscs t) x.
End updates.

(** [t->t_cursor.tp_row = x], a [teken_unit_t], and the like. *)
Definition upd_cursor_row (t : teken) (x : Z) : teken :=
  upd_cursor t (mk_pos (u16 x) (tp_col (t_cursor t))).
Definition upd_cursor_col (t : teken) (x : Z) : teken :=
  upd_cursor t (mk_pos (tp_row (t_cursor t)) (u16 x)).

(** [t->t_stateflags & f], [|= f] and [&= ~f]. *)
Definition has (t : teken) (f : Z) : bool := truth (Z.land (t_stateflags t) f).
Definition setf (t : teken) (f : Z) : teken := upd_stateflags t (Z.lor (t_stateflags t) f).
Definition clrf (t : teken) (f : Z) : teken :=
  upd_stateflags t (Z.land (t_stateflags t) (u32 (Z.lnot f))).

(** ** Character sets (teken_scs.h) *)

Definition teken_boxdrawing_unicode : list Z :=
  [0x25c6; 0x2592; 0x2409; 0x240c; 0x240d; 0x240a; 0x00b0; 0x00b1;
   0x2424; 0x240b; 0x2518; 0x2510; 0x250c; 0x2514; 0x253c; 0x23ba;
   0x23bb; 0x2500; 0x23bc; 0x23bd; 0x251c; 0x2524; 0x2534; 0x252c;
   0x2502; 0x2264; 0x2265; 0x03c0; 0x2260; 0x00a3; 0x00b7].

Definition teken_boxdrawing_8bit : list Z := str "??HFCL??NV+++++-----++++|??????"%string.

(** [teken_scs_special_graphics] and the like, called through the pointer. *)
Definition scs_call (f : teken_scs) (t : teken) (c : Z) : outcome Z :=
  match f with
  | teken_scs_us_ascii => Ok c
  | teken_scs_uk_national =>
      Ok (if c =? 35 then if has t TS_8BIT then 0x9c else 0xa3 else c)
  | teken_scs_special_graphics =>
      if (96 <=? c) && (c <=? 126) then
        readC (if has t TS_8BIT then teken_boxdrawing_8bit else teken_boxdrawing_unicode)
          (Z.to_nat (c - 96))
      else Ok c
  end.

Definition teken_scs_process (t : teken) (c : Z) : outcome Z :=
  f ← readC (t_scs t) (Z.to_nat (t_curscs t)); scs_call f t c.

(** ** The drawing routines supplied by the user *)

(** [teken_funcs_t], over the states [S] of [t_softc].  A NULL function is
    [None].  [tf_param] also gets the terminal, which its implementation
    reaches through [t_softc] (vtc_process.c resizes it). *)
Record teken_funcs (S : Type) := mk_funcs {
  tf_bell : option (S -> outcome S);
  tf_cursor : option (S -> teken_pos -> outcome S);
  tf_putchar : option (S -> teken_pos -> Z -> teken_attr -> outcome S);
  tf_fill : option (S -> teken_rect -> Z -> teken_attr -> outcome S);
  tf_copy : option (S -> teken_rect -> teken_pos -> outcome S);
  tf_pre_input : option (S -> outcome S);
  tf_post_input : option (S -> outcome S);
  tf_param : option (teken -> S -> Z -> Z -> outcome (teken * S));
  tf_respond : option (S -> list Z -> outcome S)
}.
Arguments mk_funcs {S}.
Arguments tf_bell {S}.
Arguments tf_cursor {S}.
Arguments tf_putchar {S}.
Arguments tf_fill {S}.
Arguments tf_copy {S}.
Arguments tf_pre_input {S}.
Arguments tf_post_input {S}.
Arguments tf_param {S}.
Arguments tf_respond {S}.

(** [teken_assert(f != NULL)] and the call through [f]. *)
Definition calledC {A} (f : option A) : outcome A :=
  match f with Some f => Ok f | None => Fault FAssert end.

Section wrappers.
Context {S : Type} (F : teken_funcs S).

Definition teken_funcs_bell (t : teken) (s : S) : outcome S :=
  match tf_bell F with Some f => f s | None => Ok s end.

Definition teken_funcs_cursor (t : teken) (s : S) : outcome S :=
  _ ← assertC (tp_row (t_cursor t) <? tp_row (t_winsize t));
  _ ← assertC (tp_col (t_cursor t) <? tp_col (t_winsize t));
  f ← calledC (tf_cursor F);
  f s (t_cursor t).

Definition teken_funcs_putchar (t : teken) (s : S) (p : teken_pos) (c : Z) (a : teken_attr) :
    outcome S :=
  _ ← assertC (tp_row p <? tp_row (t_winsize t));
  _ ← assertC (tp_col p <? tp_col (t_winsize t));
  f ← calledC (tf_putchar F);
  f s p c a.

Definition teken_funcs_fill (t : teken) (s : S) (r : teken_rect) (c : Z) (a : teken_attr) :
    outcome S :=
  _ ← assertC (tp_row (tr_begin r) <? tp_row (tr_end r));
  _ ← assertC (tp_row (tr_end r) <=? tp_row (t_winsize t));
  _ ← assertC (tp_col (tr_begin r) <? tp_col (tr_end r));
  _ ← assertC (tp_col (tr_end r) <=? tp_col (t_winsize t));
  f ← calledC (tf_fill F);
  f s r c a.

Definition teken_funcs_copy (t : teken) (s : S) (r : teken_rect) (p : teken_pos) : outcome S :=
  _ ← assertC (tp_row (tr_begin r) <? tp_row (tr_end r));
  _ ← assertC (tp_row (tr_end r) <=? tp_row (t_winsize t));
  _ ← assertC (tp_col (tr_begin r) <? tp_col (tr_end r));
  _ ← assertC (tp_col (tr_end r) <=? tp_col (t_winsize t));
  _ ← assertC (tp_row p + (tp_row (tr_end r) - tp_row (tr_begin r)) <=? tp_row (t_winsize t));
  _ ← assertC (tp_col p + (tp_col (tr_end r) - tp_col (tr_begin r)) <=? tp_col (t_winsize t));
  f ← calledC (tf_copy F);
  f s r p.

Definition teken_funcs_pre_input (t : teken) (s : S) : outcome S :=
  match tf_pre_input F with Some f => f s | None => Ok s end.

Definition teken_funcs_post_input (t : teken) (s : S) : outcome S :=
  match tf_post_input F with Some f => f s | None => Ok s end.

Definition teken_funcs_param (t : teken) (s : S) (cmd value : Z) : outcome (teken * S) :=
  f ← calledC (tf_param F);
  f t s cmd value.

Definition teken_funcs_respond (t : teken) (s : S) (buf : list Z) : outcome S :=
  f ← calledC (tf_respond F);
  f s buf.
End wrappers.

(** ** Colors *)

(** The letters of the tables: [k], [r], [g], [y], [b], [m], [c], [w], and the
    same ORed with [TC_LIGHT] in capitals. *)
Definition color_of (x : Z) : Z :=
  let base l :=
    if l =? 107 then 0 else if l =? 114 then 1 else if l =? 103 then 2 else if l =? 121 then 3
    else if l =? 98 then 4 else if l =? 109 then 5 else if l =? 99 then 6 else 7 in
  if x <? 97 then Z.lor (base (x + 32)) TC_LIGHT else base x.

Definition teken_256to8tab : list Z :=
  color_of <$> ([
     "krgybmcw"; "krgybmcw";
     "kbbbbb"; "gccbbb"; "gcccbb"; "ggcccb"; "gggccc"; "ggggcc";
     "rmmbbb"; "ykbbbb"; "ygccbb"; "ggcccb"; "gggccc"; "ggggcc";
     "rmmmbb"; "yrmmbb"; "yywbbb"; "yygccb"; "gggccc"; "ggggcc";
     "rrmmmb"; "rrmmmb"; "yyrmmb"; "yyywbb"; "yyygcc"; "ggggcc";
     "rrrmmm"; "rrrmmm"; "rrrmmm"; "yyyrmm"; "yyyywb"; "yyyygc";
     "rrrrmm"; "rrrrmm"; "rrrrmm"; "rrrrmm"; "yyyyrm"; "yyyyyw";
     "kkkkkk"; "kkkkkk"; "wwwwww"; "wwwwww"]%string ≫= str).

Definition teken_256to16tab : list Z :=
  color_of <$> ([
     "krgybmcw"; "KRGYBMCW";
     "kbbbbb"; "gccbbb"; "gcccbb"; "ggcccb"; "gggccc"; "ggggcc";
     "rmmbbb"; "yKbbBB"; "ygccBB"; "ggccCB"; "gGGCCC"; "gGGGCC";
     "rmmmbb"; "yrmmBB"; "yywBBB"; "yyGCCB"; "gGGCCC"; "gGGGCC";
     "rrmmmb"; "rrmmMB"; "yyRMMB"; "yyYWBB"; "yYYGCC"; "gGGGCC";
     "rrrmmm"; "rRRMMM"; "rRRMMM"; "yYYRMM"; "yYYYWB"; "yYYYGC";
     "rrrrmm"; "rRRRMM"; "rRRRMM"; "rRRRMM"; "yYYYRM"; "yYYYYW";
     "kkkkkk"; "KKKKKK"; "wwwwww"; "WWWWWW"]%string ≫= str).

Definition teken_256to8 (c : Z) : outcome Z := readC teken_256to8tab (Z.to_nat (c `mod` 256)).
Definition teken_256to16 (c : Z) : outcome Z := readC teken_256to16tab (Z.to_nat (c `mod` 256)).

(** ** Key sequences *)

Definition TKEY_UP : Z := 0x00.
Definition TKEY_F1 : Z := 0x0a.

Definition esc_str (s : string) : list Z := 27 :: str s.

Definition special_strings_cons25 : list (list Z) :=
  [esc_str "[A"; esc_str "[B"; esc_str "[D"; esc_str "[C";
   esc_str "[H"; esc_str "[F"; esc_str "[L"; [127]; esc_str "[I"; esc_str "[G";
   esc_str "[M"; esc_str "[N"; esc_str "[O"; esc_str "[P"; esc_str "[Q"; esc_str "[R";
   esc_str "[S"; esc_str "[T"; esc_str "[U"; esc_str "[V"; esc_str "[W"; esc_str "[X"]%string.

Definition special_strings_ckeys : list (list Z) :=
  [esc_str "OA"; esc_str "OB"; esc_str "OD"; esc_str "OC"; esc_str "OH"; esc_str "OF"]%string.

Definition special_strings_normal : list (list Z) :=
  [esc_str "[A"; esc_str "[B"; esc_str "[D"; esc_str "[C";
   esc_str "[H"; esc_str "[F"; esc_str "[2~"; esc_str "[3~"; esc_str "[5~"; esc_str "[6~";
   esc_str "OP"; esc_str "OQ"; esc_str "OR"; esc_str "OS"; esc_str "[15~"; esc_str "[17~";
   esc_str "[18~"; esc_str "[19~"; esc_str "[20~"; esc_str "[21~"; esc_str "[23~"; esc_str "[24~"]%string.

(** [None] is the NULL of an unknown key. *)
Definition teken_get_sequence (t : teken) (k : Z) : option (list Z) :=
  if has t TS_CONS25 && (k <? Z.of_nat (List.length special_strings_cons25))
  then special_strings_cons25 !! Z.to_nat k
  else if has t TS_CURSORKEYS && (k <? Z.of_nat (List.length special_strings_ckeys))
  then special_strings_ckeys !! Z.to_nat k
  else if k <? Z.of_nat (List.length special_strings_normal)
  then special_strings_normal !! Z.to_nat k
  else None.
