(* ===== verification/TekenSubr.v ===== *)
(** * The operations of the terminal emulator: teken_subr.h and
    teken_subr_compat.h.

    Every operation takes the terminal and the state of the hooks' softc; those
    that take a [const teken_t *] and cannot reach the terminal through a hook
    return the softc alone. *)

From Stdlib Require Import ZArith Lia String.
From stdpp Require Import base option numbers list.
From S2P Require Import Prelude HpackData TekenData.
#[local] Open Scope Z_scope.

(** ** Tab stops *)

Definition teken_tab_isset (t : teken) (col : Z) : outcome bool :=
  if T_NUMCOL <=? col then Ok (col `mod` 8 =? 0)
  else
    w ← readC (t_tabstops t) (Z.to_nat (col `div` 32));
    Ok (truth (Z.land w (Z.shiftl 1 (col `mod` 32)))).

Definition teken_tab_clear (t : teken) (col : Z) : outcome teken :=
  if T_NUMCOL <=? col then Ok t
  else
    let b := Z.to_nat (col `div` 32) in
    w ← readC (t_tabstops t) b;
    l ← writeC (t_tabstops t) b (Z.land w (u32 (Z.lnot (Z.shiftl 1 (col `mod` 32)))));
    Ok (upd_tabstops t l).

Definition teken_tab_set (t : teken) (col : Z) : outcome teken :=
  if T_NUMCOL <=? col then Ok t
  else
    let b := Z.to_nat (col `div` 32) in
    w ← readC (t_tabstops t) b;
    l ← writeC (t_tabstops t) b (Z.lor w (Z.shiftl 1 (col `mod` 32)));
    Ok (upd_tabstops t l).

(** [memset(t->t_tabstops, 0, T_NUMCOL / 8)]. *)
Definition tabs_zero (t : teken) : teken := upd_tabstops t (replicate 5 0).

Fixpoint tab_default_loop (fuel : nat) (t : teken) (i : Z) : outcome teken :=
  if i <? T_NUMCOL then
    match fuel with
    | O => Fault FFuel
    | Datatypes.S fuel => t ← teken_tab_set t i; tab_default_loop fuel t (i + 8)
    end
  else Ok t.

Definition teken_tab_default (t : teken) : outcome teken :=
  tab_default_loop 19 (tabs_zero t) 8.

(** ** Resets, which draw nothing *)

Definition teken_subr_save_cursor (t : teken) : outcome teken :=
  scs ← readC (t_scs t) (Z.to_nat (t_curscs t));
  let t := upd_saved_cursor t (t_cursor t) in
  let t := upd_saved_curattr t (t_curattr t) in
  Ok (upd_saved_curscs t scs).

Definition teken_subr_do_resize (t : teken) : teken :=
  let t := upd_scrollreg t (mk_span 0 (tp_row (t_winsize t))) in
  upd_originreg t (t_scrollreg t).

Definition teken_subr_do_reset (t : teken) : outcome teken :=
  let t := upd_curattr t (t_defattr t) in
  let t := upd_cursor t (mk_pos 0 0) in
  let t := upd_scrollreg t (mk_span 0 (tp_row (t_winsize t))) in
  let t := upd_originreg t (t_scrollreg t) in
  let t := upd_stateflags t (Z.land (t_stateflags t) (Z.lor TS_8BIT TS_CONS25)) in
  let t := setf t TS_AUTOWRAP in
  let t := upd_scs t [teken_scs_us_ascii; teken_scs_us_ascii] in
  let t := upd_curscs t 0 in
  t ← teken_subr_save_cursor t;
  teken_tab_default t.

(** ** Responses *)

(** [%u]. *)
Fixpoint decimal_loop (fuel : nat) (n : Z) (acc : list Z) : list Z :=
  match fuel with
  | O => acc
  | Datatypes.S fuel =>
      let acc := (48 + n `mod` 10) :: acc in
      if n <? 10 then acc else decimal_loop fuel (n `div` 10) acc
  end.

Definition decimal (n : Z) : list Z := decimal_loop 10 n [].

(** [teken_subr_do_cpr]: the text stored in [response], or [None] for -1. *)
Definition teken_subr_do_cpr (t : teken) (cmd : Z) : option (list Z) :=
  if cmd =? 5 then Some (str "0n")
  else if cmd =? 6 then
    let s := decimal (u32 ((tp_row (t_cursor t) - ts_begin (t_originreg t)) + 1)) ++ str ";" ++
             decimal (u32 (tp_col (t_cursor t) + 1)) ++ str "R" in
    if (16 <=? List.length s)%nat then None else Some s
  else if cmd =? 15 then Some (str "13n")
  else if cmd =? 25 then Some (str "20n")
  else if cmd =? 26 then Some (str "27;1n")
  else None.

Section subr.
Context {S : Type} (F : teken_funcs S).
Implicit Types (t : teken) (s : S).

Abbreviation res := (outcome (teken * S)).

(** The result of an operation that leaves the terminal alone. *)
Definition keep t (m : outcome S) : res := s ← m; Ok (t, s).

(** [teken_funcs_cursor(t);] at the end of an operation. *)
Definition moved t s : res := keep t (teken_funcs_cursor F t s).

Definition fill t s (r0 c0 r1 c1 : Z) : outcome S :=
  teken_funcs_fill F t s (mk_rect (mk_pos (u16 r0) (u16 c0)) (mk_pos (u16 r1) (u16 c1)))
    BLANK (t_curattr t).

Definition copy t s (r0 c0 r1 c1 pr pc : Z) : outcome S :=
  teken_funcs_copy F t s (mk_rect (mk_pos (u16 r0) (u16 c0)) (mk_pos (u16 r1) (u16 c1)))
    (mk_pos (u16 pr) (u16 pc)).

(** ** Scrolling *)

Definition teken_subr_do_scroll t s (amount : Z) : outcome S :=
  _ ← assertC (tp_row (t_cursor t) <=? tp_row (t_winsize t));
  _ ← assertC (ts_end (t_scrollreg t) <=? tp_row (t_winsize t));
  _ ← assertC (negb (amount =? 0));
  let top := ts_begin (t_scrollreg t) in
  let bot := ts_end (t_scrollreg t) in
  let wcol := tp_col (t_winsize t) in
  if 0 <? amount then
    if top + amount <? bot then
      s ← copy t s (top + amount) 0 bot wcol top 0;
      fill t s (bot - amount) 0 bot wcol
    else fill t s top 0 bot wcol
  else
    let amount := - amount in
    if top + amount <? bot then
      s ← copy t s top 0 (bot - amount) wcol (top + amount) 0;
      fill t s top 0 (top + amount) wcol
    else fill t s top 0 bot wcol.

Definition teken_subr_alignment_test t s : res :=
  let t := upd_cursor t (mk_pos 0 0) in
  let t := upd_scrollreg t (mk_span 0 (tp_row (t_winsize t))) in
  let t := upd_originreg t (t_scrollreg t) in
  let t := clrf t (Z.lor TS_WRAPPED TS_ORIGIN) in
  s ← teken_funcs_cursor F t s;
  keep t (teken_funcs_fill F t s (mk_rect (mk_pos 0 0) (t_winsize t)) 69 (t_defattr t)).

(** ** Cursor movement *)

Definition teken_subr_backspace t s : res :=
  if has t TS_CONS25 then
    if tp_col (t_cursor t) =? 0 then
      if tp_row (t_cursor t) =? ts_begin (t_originreg t) then Ok (t, s)
      else
        let t := upd_cursor_row t (tp_row (t_cursor t) - 1) in
        let t := upd_cursor_col t (tp_col (t_winsize t) - 1) in
        moved t s
    else moved (upd_cursor_col t (tp_col (t_cursor t) - 1)) s
  else if tp_col (t_cursor t) =? 0 then Ok (t, s)
  else
    let t := upd_cursor_col t (tp_col (t_cursor t) - 1) in
    moved (clrf t TS_WRAPPED) s.

Definition teken_subr_bell t s : outcome S := teken_funcs_bell F t s.

Definition teken_subr_carriage_return t s : res :=
  let t := upd_cursor_col t 0 in
  moved (clrf t TS_WRAPPED) s.

Definition teken_subr_cursor_backward t s (ncols : Z) : res :=
  let t := if tp_col (t_cursor t) <? ncols then upd_cursor_col t 0
           else upd_cursor_col t (tp_col (t_cursor t) - ncols) in
  moved (clrf t TS_WRAPPED) s.

(** [do ... while (ntabs > 0)]. *)
Fixpoint backward_tabs (fuel : nat) t (ntabs : Z) : outcome teken :=
  match fuel with
  | O => Fault FFuel
  | Datatypes.S fuel =>
      if tp_col (t_cursor t) =? 0 then Ok t
      else
        let t := upd_cursor_col t (tp_col (t_cursor t) - 1) in
        b ← teken_tab_isset t (tp_col (t_cursor t));
        let ntabs := if (b : bool) then u32 (ntabs - 1) else ntabs in
        if 0 <? ntabs then backward_tabs fuel t ntabs else Ok t
  end.

Definition teken_subr_cursor_backward_tabulation t s (ntabs : Z) : res :=
  t ← backward_tabs (Datatypes.S (Z.to_nat (tp_col (t_cursor t)))) t ntabs;
  moved t s.

Definition teken_subr_cursor_down t s (nrows : Z) : res :=
  let t := if ts_end (t_scrollreg t) <=? u32 (tp_row (t_cursor t) + nrows)
           then upd_cursor_row t (ts_end (t_scrollreg t) - 1)
           else upd_cursor_row t (tp_row (t_cursor t) + nrows) in
  moved (clrf t TS_WRAPPED) s.

Definition teken_subr_cursor_forward t s (ncols : Z) : res :=
  let t := if tp_col (t_winsize t) <=? u32 (tp_col (t_cursor t) + ncols)
           then upd_cursor_col t (tp_col (t_winsize t) - 1)
           else upd_cursor_col t (tp_col (t_cursor t) + ncols) in
  moved (clrf t TS_WRAPPED) s.

Fixpoint forward_tabs (fuel : nat) t (ntabs : Z) : outcome teken :=
  match fuel with
  | O => Fault FFuel
  | Datatypes.S fuel =>
      if tp_col (t_cursor t) =? tp_col (t_winsize t) - 1 then Ok t
      else
        let t := upd_cursor_col t (tp_col (t_cursor t) + 1) in
        b ← teken_tab_isset t (tp_col (t_cursor t));
        let ntabs := if (b : bool) then u32 (ntabs - 1) else ntabs in
        if 0 <? ntabs then forward_tabs fuel t ntabs else Ok t
  end.

Definition teken_subr_cursor_forward_tabulation t s (ntabs : Z) : res :=
  t ← forward_tabs (Z.to_nat (tp_col (t_winsize t) - tp_col (t_cursor t))) t ntabs;
  moved t s.

Definition teken_subr_cursor_next_line t s (ncols : Z) : res :=
  teken_subr_cursor_down (upd_cursor_col t 0) s ncols.

(** [x < hi ? x : hi - 1] on [unsigned]. *)
Definition clamp (x hi : Z) : Z := if x <? hi then x else hi - 1.

Definition teken_subr_cursor_position t s (row col : Z) : res :=
  let row := u32 (u32 (row - 1) + ts_begin (t_originreg t)) in
  let t := upd_cursor_row t (clamp row (ts_end (t_originreg t))) in
  let col := u32 (col - 1) in
  let t := upd_cursor_col t (clamp col (tp_col (t_winsize t))) in
  moved (clrf t TS_WRAPPED) s.

Definition teken_subr_cursor_position_report t s (cmd : Z) : outcome S :=
  match teken_subr_do_cpr t cmd with
  | None => Ok s
  | Some r => teken_funcs_respond F t s (27 :: str "[" ++ r)
  end.

Definition teken_subr_cursor_up t s (nrows : Z) : res :=
  let t := if tp_row (t_cursor t) <=? u32 (ts_begin (t_scrollreg t) + nrows)
           then upd_cursor_row t (ts_begin (t_scrollreg t))
           else upd_cursor_row t (tp_row (t_cursor t) - nrows) in
  moved (clrf t TS_WRAPPED) s.

Definition teken_subr_cursor_previous_line t s (ncols : Z) : res :=
  teken_subr_cursor_up (upd_cursor_col t 0) s ncols.

Definition teken_subr_set_cursor_style t s (style : Z) : res := Ok (t, s).

(** ** Erasing, inserting, deleting *)

Definition teken_subr_delete_character t s (ncols : Z) : outcome S :=
  let row := tp_row (t_cursor t) in
  let col := tp_col (t_cursor t) in
  let wcol := tp_col (t_winsize t) in
  if wcol <=? u32 (col + ncols) then fill t s row col (row + 1) wcol
  else
    s ← copy t s row (col + ncols) (row + 1) wcol row col;
    fill t s row (wcol - ncols) (row + 1) wcol.

Definition outside_scrollreg t : bool :=
  (tp_row (t_cursor t) <? ts_begin (t_scrollreg t)) ||
  (ts_end (t_scrollreg t) <=? tp_row (t_cursor t)).

Definition teken_subr_delete_line t s (nrows : Z) : outcome S :=
  if outside_scrollreg t then Ok s
  else
    let row := tp_row (t_cursor t) in
    let bot := ts_end (t_scrollreg t) in
    let wcol := tp_col (t_winsize t) in
    if bot <=? u32 (row + nrows) then fill t s row 0 bot wcol
    else
      s ← copy t s (row + nrows) 0 bot wcol row 0;
      fill t s (bot - nrows) 0 bot wcol.

Definition teken_subr_device_control_string t s : res := Ok (setf t TS_INSTRING, s).

Definition teken_subr_device_status_report t s (cmd : Z) : outcome S :=
  match teken_subr_do_cpr t cmd with
  | None => Ok s
  | Some r => teken_funcs_respond F t s (27 :: str "[?" ++ r)
  end.

Definition teken_subr_erase_character t s (ncols : Z) : outcome S :=
  let row := tp_row (t_cursor t) in
  let col := tp_col (t_cursor t) in
  let wcol := tp_col (t_winsize t) in
  if wcol <=? u32 (col + ncols) then fill t s row col (row + 1) wcol
  else fill t s row col (row + 1) (col + ncols).

Definition teken_subr_erase_line t s (mode : Z) : outcome S :=
  let row := tp_row (t_cursor t) in
  if mode =? 1 then fill t s row 0 (row + 1) (tp_col (t_cursor t) + 1)
  else if mode =? 2 then fill t s row 0 (row + 1) (tp_col (t_winsize t))
  else fill t s row (tp_col (t_cursor t)) (row + 1) (tp_col (t_winsize t)).

Definition teken_subr_erase_display t s (mode : Z) : outcome S :=
  let row := tp_row (t_cursor t) in
  let wrow := tp_row (t_winsize t) in
  let wcol := tp_col (t_winsize t) in
  if mode =? 1 then
    s ← teken_subr_erase_line t s 1;
    if row =? 0 then Ok s else fill t s 0 0 row wcol
  else if mode =? 2 then fill t s 0 0 wrow wcol
  else
    s ← teken_subr_erase_line t s 0;
    if row =? wrow - 1 then Ok s else fill t s (row + 1) 0 wrow wcol.

(** [t->t_scs[n] = f]. *)
Definition set_scs t s (n : nat) (f : teken_scs) : res :=
  l ← writeC (t_scs t) n f; Ok (upd_scs t l, s).

Definition teken_subr_horizontal_position_absolute t s (col : Z) : res :=
  let col := u32 (col - 1) in
  let t := upd_cursor_col t (clamp col (tp_col (t_winsize t))) in
  moved (clrf t TS_WRAPPED) s.

Definition teken_subr_horizontal_tab t s : res :=
  teken_subr_cursor_forward_tabulation t s 1.

Definition teken_subr_horizontal_tab_set t s : res :=
  t ← teken_tab_set t (tp_col (t_cursor t)); Ok (t, s).

Definition teken_subr_index t s : res :=
  if tp_row (t_cursor t) <? ts_end (t_scrollreg t) - 1 then
    let t := upd_cursor_row t (tp_row (t_cursor t) + 1) in
    moved (clrf t TS_WRAPPED) s
  else keep t (teken_subr_do_scroll t s 1).

Definition teken_subr_insert_character t s (ncols : Z) : outcome S :=
  let row := tp_row (t_cursor t) in
  let col := tp_col (t_cursor t) in
  let wcol := tp_col (t_winsize t) in
  if wcol <=? u32 (col + ncols) then fill t s row col (row + 1) wcol
  else
    s ← copy t s row col (row + 1) (wcol - ncols) row (col + ncols);
    fill t s row col (row + 1) (col + ncols).

Definition teken_subr_insert_line t s (nrows : Z) : outcome S :=
  if outside_scrollreg t then Ok s
  else
    let row := tp_row (t_cursor t) in
    let bot := ts_end (t_scrollreg t) in
    let wcol := tp_col (t_winsize t) in
    if bot <=? u32 (row + nrows) then fill t s row 0 bot wcol
    else
      s ← copy t s row 0 (bot - nrows) wcol (row + nrows) 0;
      fill t s row 0 (row + nrows) wcol.

Definition teken_subr_keypad_application_mode t s : res := teken_funcs_param F t s TP_KEYPADAPP 1.
Definition teken_subr_keypad_numeric_mode t s : res := teken_funcs_param F t s TP_KEYPADAPP 0.

Definition teken_subr_newline t s : res :=
  let t := upd_cursor_row t (tp_row (t_cursor t) + 1) in
  '(t, s) ←
    (if ts_end (t_scrollreg t) <=? tp_row (t_cursor t) then
       s ← teken_subr_do_scroll t s 1;
       Ok (upd_cursor_row t (ts_end (t_scrollreg t) - 1), s)
     else Ok (t, s));
  moved (clrf t TS_WRAPPED) s.

Definition teken_subr_newpage t s : res :=
  if has t TS_CONS25 then
    s ← fill t s (ts_begin (t_originreg t)) 0 (ts_end (t_originreg t)) (tp_col (t_winsize t));
    let t := upd_cursor t (mk_pos (ts_begin (t_originreg t)) 0) in
    moved (clrf t TS_WRAPPED) s
  else teken_subr_newline t s.

Definition teken_subr_next_line t s : res := teken_subr_newline (upd_cursor_col t 0) s.

Definition teken_subr_operating_system_command t s : res := Ok (setf t TS_INSTRING, s).

Definition teken_subr_pan_down t s (nrows : Z) : outcome S := teken_subr_do_scroll t s (i32 nrows).
Definition teken_subr_pan_up t s (nrows : Z) : outcome S :=
  teken_subr_do_scroll t s (- i32 nrows).

Definition teken_subr_primary_device_attributes t s (request : Z) : outcome S :=
  if request =? 0 then teken_funcs_respond F t s (27 :: str "[?1;2c") else Ok s.

Definition teken_subr_secondary_device_attributes t s (request : Z) : outcome S :=
  if request =? 0 then teken_funcs_respond F t s (27 :: str "[>0;10;0c") else Ok s.

(** ** Printing *)

(** The two halves of [teken_subr_do_putchar]: make room in insert mode, and
    draw the character. *)
Definition putchar_insert t s (tp : teken_pos) (width : Z) : outcome S :=
  if has t TS_INSERT && (tp_col tp <? tp_col (t_winsize t) - width) then
    copy t s (tp_row tp) (tp_col tp) (tp_row tp + 1) (tp_col (t_winsize t) - width)
      (tp_row tp) (tp_col tp + width)
  else Ok s.

Definition putchar_draw t s (tp : teken_pos) (c width : Z) : outcome S :=
  s ← teken_funcs_putchar F t s tp c (t_curattr t);
  if (width =? 2) && (tp_col tp + 1 <? tp_col (t_winsize t)) then
    let a := t_curattr t in
    teken_funcs_putchar F t s (mk_pos (tp_row tp) (u16 (tp_col tp + 1))) c
      (mk_attr (Z.lor (ta_format a) TF_CJK_RIGHT) (ta_fgcolor a) (ta_bgcolor a))
  else Ok s.

Definition teken_subr_do_putchar t s (tp : teken_pos) (c width : Z) : res :=
  let t := upd_last t c in
  s ← putchar_insert t s tp width;
  keep t (putchar_draw t s tp c width).

(** The character to print and its width, unless nothing is printed. *)
Definition char_width t (c : Z) : outcome (option (Z * Z)) :=
  if has t TS_8BIT then
    if negb (has t TS_CONS25) && ((c <=? 0x1b) || (c =? 0x7f)) then Ok None
    else c ← teken_scs_process t c; Ok (Some (c, 1))
  else
    c ← teken_scs_process t c;
    width ← teken_wcwidth c;
    if width <=? 0 then Ok None else Ok (Some (c, width)).

(** The three ways to print: cons25, wrapping to the next line, or in place. *)
Definition print_cons25 t s (c width : Z) : res :=
  '(t, s) ← teken_subr_do_putchar t s (t_cursor t) c width;
  let t := upd_cursor_col t (tp_col (t_cursor t) + width) in
  if tp_col (t_winsize t) <=? tp_col (t_cursor t) then
    '(t, s) ←
      (if tp_row (t_cursor t) =? ts_end (t_scrollreg t) - 1 then
         keep t (teken_subr_do_scroll t s 1)
       else if tp_row (t_cursor t) <? tp_row (t_winsize t) - 1 then
         Ok (upd_cursor_row t (tp_row (t_cursor t) + 1), s)
       else Ok (t, s));
    moved (upd_cursor_col t 0) s
  else moved t s.

Definition print_at t s (row c width : Z) : res :=
  '(t, s) ← teken_subr_do_putchar t s (mk_pos row 0) c width;
  let t := upd_cursor t (mk_pos row (u16 width)) in
  moved (clrf t TS_WRAPPED) s.

Definition print_wrap t s (c width : Z) : res :=
  if tp_row (t_cursor t) =? ts_end (t_scrollreg t) - 1 then
    s ← teken_subr_do_scroll t s 1;
    print_at t s (u16 (ts_end (t_scrollreg t) - 1)) c width
  else
    let row := u16 (tp_row (t_cursor t) + 1) in
    if row =? tp_row (t_winsize t) then teken_subr_do_putchar t s (t_cursor t) c width
    else print_at t s row c width.

Definition print_here t s (c width : Z) : res :=
  '(t, s) ← teken_subr_do_putchar t s (t_cursor t) c width;
  let t := upd_cursor_col t (tp_col (t_cursor t) + width) in
  let t :=
    if tp_col (t_winsize t) <=? tp_col (t_cursor t) then
      let t := setf t TS_WRAPPED in upd_cursor_col t (tp_col (t_winsize t) - 1)
    else clrf t TS_WRAPPED in
  moved t s.

Definition must_wrap t (width : Z) : bool :=
  has t TS_AUTOWRAP &&
  ((has t TS_WRAPPED && (tp_col (t_cursor t) + 1 =? tp_col (t_winsize t))) ||
   (tp_col (t_winsize t) <? tp_col (t_cursor t) + width)).

Definition teken_subr_regular_character t s (c : Z) : res :=
  cw ← char_width t c;
  match cw with
  | None => Ok (t, s)
  | Some (c, width) =>
      if has t TS_CONS25 then print_cons25 t s c width
      else if must_wrap t width then print_wrap t s c width
      else print_here t s c width
  end.

(** [for (; t->t_last != 0 && rpts > 0; rpts--)]. *)
Fixpoint repeat_loop (rpts : nat) t s : res :=
  match rpts with
  | O => Ok (t, s)
  | Datatypes.S rpts =>
      if truth (t_last t) then
        '(t, s) ← teken_subr_regular_character t s (t_last t);
        repeat_loop rpts t s
      else Ok (t, s)
  end.

Definition teken_subr_repeat_last_graphic_char t s (rpts : Z) : res :=
  let max_repetitions := u32 (tp_row (t_winsize t) * tp_col (t_winsize t)) in
  let rpts := if max_repetitions <? rpts then max_repetitions else rpts in
  repeat_loop (Z.to_nat rpts) t s.

(** ** Modes *)

Definition teken_subr_reset_to_initial_state t s : res :=
  t ← teken_subr_do_reset t;
  s ← teken_subr_erase_display t s 2;
  '(t, s) ← teken_funcs_param F t s TP_SHOWCURSOR 1;
  moved t s.

(** Leaving origin mode, and the cursor at the top left of [reg]. *)
Definition home t (row : Z) : teken :=
  let t := upd_cursor t (mk_pos row 0) in clrf t TS_WRAPPED.

Definition teken_subr_reset_dec_mode t s (cmd : Z) : res :=
  if cmd =? 1 then Ok (clrf t TS_CURSORKEYS, s)
  else if cmd =? 3 then
    '(t, s) ← teken_funcs_param F t s TP_132COLS 0;
    teken_subr_reset_to_initial_state t s
  else if cmd =? 6 then
    let t := clrf t TS_ORIGIN in
    let t := upd_originreg t (mk_span 0 (tp_row (t_winsize t))) in
    moved (home t 0) s
  else if cmd =? 7 then Ok (clrf t TS_AUTOWRAP, s)
  else if cmd =? 8 then teken_funcs_param F t s TP_AUTOREPEAT 0
  else if cmd =? 25 then teken_funcs_param F t s TP_SHOWCURSOR 0
  else if cmd =? 1000 then teken_funcs_param F t s TP_MOUSE 0
  else Ok (t, s).

Definition teken_subr_set_dec_mode t s (cmd : Z) : res :=
  if cmd =? 1 then Ok (setf t TS_CURSORKEYS, s)
  else if cmd =? 3 then
    '(t, s) ← teken_funcs_param F t s TP_132COLS 1;
    teken_subr_reset_to_initial_state t s
  else if cmd =? 6 then
    let t := setf t TS_ORIGIN in
    let t := upd_originreg t (t_scrollreg t) in
    moved (home t (ts_begin (t_scrollreg t))) s
  else if cmd =? 7 then Ok (setf t TS_AUTOWRAP, s)
  else if cmd =? 8 then teken_funcs_param F t s TP_AUTOREPEAT 1
  else if cmd =? 25 then teken_funcs_param F t s TP_SHOWCURSOR 1
  else if cmd =? 1000 then teken_funcs_param F t s TP_MOUSE 1
  else Ok (t, s).

Definition teken_subr_reset_mode t s (cmd : Z) : res :=
  Ok (if cmd =? 4 then clrf t TS_INSERT else t, s).

Definition teken_subr_set_mode t s (cmd : Z) : res :=
  Ok (if cmd =? 4 then setf t TS_INSERT else t, s).

Definition teken_subr_restore_cursor t s : res :=
  let t := upd_cursor t (t_saved_cursor t) in
  let t := upd_curattr t (t_saved_curattr t) in
  l ← writeC (t_scs t) (Z.to_nat (t_curscs t)) (t_saved_curscs t);
  let t := upd_scs t l in
  let t := clrf t TS_WRAPPED in
  let t :=
    if (tp_row (t_cursor t) <? ts_begin (t_originreg t)) ||
       (ts_end (t_originreg t) <=? tp_row (t_cursor t))
    then
      let t := clrf t TS_ORIGIN in
      upd_originreg t (mk_span 0 (tp_row (t_winsize t)))
    else t in
  moved t s.

Definition teken_subr_reverse_index t s : res :=
  if ts_begin (t_scrollreg t) <? tp_row (t_cursor t) then
    let t := upd_cursor_row t (tp_row (t_cursor t) - 1) in
    moved (clrf t TS_WRAPPED) s
  else keep t (teken_subr_do_scroll t s (-1)).

Definition teken_subr_set_top_and_bottom_margins t s (top bottom : Z) : res :=
  let wrow := tp_row (t_winsize t) in
  let top := if 0 <? top then top - 1 else top in
  let bottom := if (bottom =? 0) || (wrow <? bottom) then wrow else bottom in
  let '(top, bottom) := if u32 (bottom - 1) <=? top then (0, wrow) else (top, bottom) in
  let t := upd_scrollreg t (mk_span (u16 top) (u16 bottom)) in
  let t := if has t TS_ORIGIN then upd_originreg t (t_scrollreg t) else t in
  moved (home t (ts_begin (t_originreg t))) s.

Definition teken_subr_tab_clear t s (cmd : Z) : res :=
  if cmd =? 0 then t ← teken_tab_clear t (tp_col (t_cursor t)); Ok (t, s)
  else if cmd =? 3 then Ok (tabs_zero t, s)
  else Ok (t, s).

Definition teken_subr_vertical_position_absolute t s (row : Z) : res :=
  let row := u32 (u32 (row - 1) + ts_begin (t_originreg t)) in
  let t := upd_cursor_row t (clamp row (ts_end (t_originreg t))) in
  moved (clrf t TS_WRAPPED) s.

(** ** Graphic rendition *)

Definition set_format t (f : Z) : teken :=
  let a := t_curattr t in upd_curattr t (mk_attr f (ta_fgcolor a) (ta_bgcolor a)).
Definition set_fgcolor t (c : Z) : teken :=
  let a := t_curattr t in upd_curattr t (mk_attr (ta_format a) (u8 c) (ta_bgcolor a)).
Definition set_bgcolor t (c : Z) : teken :=
  let a := t_curattr t in upd_curattr t (mk_attr (ta_format a) (ta_fgcolor a) (u8 c)).

Definition add_format t (f : Z) : teken := set_format t (Z.lor (ta_format (t_curattr t)) f).
Definition del_format t (f : Z) : teken :=
  set_format t (u8 (Z.land (ta_format (t_curattr t)) (Z.lnot f))).

Definition between (lo n hi : Z) : bool := (lo <=? n) && (n <=? hi).

(** The commands that take no further argument. *)
Definition sgr_one t (n : Z) : teken :=
  if n =? 0 then upd_curattr t (t_defattr t)
  else if n =? 1 then add_format t TF_BOLD
  else if n =? 4 then add_format t TF_UNDERLINE
  else if n =? 5 then add_format t TF_BLINK
  else if n =? 7 then add_format t TF_REVERSE
  else if n =? 22 then del_format t TF_BOLD
  else if n =? 24 then del_format t TF_UNDERLINE
  else if n =? 25 then del_format t TF_BLINK
  else if n =? 27 then del_format t TF_REVERSE
  else if between 30 n 37 then set_fgcolor t (n - 30)
  else if n =? 39 then set_fgcolor t (ta_fgcolor (t_defattr t))
  else if between 40 n 47 then set_bgcolor t (n - 40)
  else if n =? 49 then set_bgcolor t (ta_bgcolor (t_defattr t))
  else if between 90 n 97 then set_fgcolor t ((n - 90) + 8)
  else if between 100 n 107 then set_bgcolor t ((n - 100) + 8)
  else t.

(** The [for] loop; [fuel] is [ncmds - i]. *)
Fixpoint sgr_loop (fuel : nat) t (ncmds : Z) (cmds : list Z) (i : Z) : outcome teken :=
  match fuel with
  | O => Ok t
  | Datatypes.S fuel =>
      if ncmds <=? i then Ok t
      else
        n ← readC cmds (Z.to_nat i);
        if (n =? 38) || (n =? 48) then
          if ncmds <=? i + 2 then sgr_loop fuel t ncmds cmds (i + 1)
          else
            m ← readC cmds (Z.to_nat (i + 1));
            if negb (m =? 5) then sgr_loop fuel t ncmds cmds (i + 1)
            else
              x ← readC cmds (Z.to_nat (i + 2));
              sgr_loop fuel (if n =? 38 then set_fgcolor t x else set_bgcolor t x)
                ncmds cmds (i + 3)
        else sgr_loop fuel (sgr_one t n) ncmds cmds (i + 1)
  end.

Definition teken_subr_set_graphic_rendition t s (ncmds : Z) (cmds : list Z) : res :=
  if ncmds =? 0 then Ok (upd_curattr t (t_defattr t), s)
  else t ← sgr_loop (Z.to_nat ncmds) t ncmds cmds 0; Ok (t, s).

(** ** cons25 (teken_subr_compat.h) *)

Definition teken_subr_cons25_set_border t s (c : Z) : res := teken_funcs_param F t s TP_SETBORDER c.

(** [for (i = ncmds; i > 0; i--)]. *)
Fixpoint cursor_shape_code (i : nat) (cmds : list Z) (code : Z) : outcome Z :=
  match i with
  | O => Ok code
  | Datatypes.S i =>
      c ← readC cmds i;
      cursor_shape_code i cmds (Z.lor (u32 (Z.shiftl code 8)) (Z.land c 0xff))
  end.

Definition teken_subr_cons25_set_global_cursor_shape t s (ncmds : Z) (cmds : list Z) : res :=
  if 3 <? ncmds then Ok (t, s)
  else
    code ← cursor_shape_code (Z.to_nat ncmds) cmds 0;
    teken_funcs_param F t s TP_SETGLOBALCURSOR (Z.lor (u32 (Z.shiftl code 8)) ncmds).

Definition teken_subr_cons25_set_local_cursor_type t s (type : Z) : res :=
  teken_funcs_param F t s TP_SETLOCALCURSOR type.

Definition cons25_colors : list Z := [0; 4; 2; 6; 1; 5; 3; 7].

Definition cons25_color (c : Z) : outcome Z :=
  x ← readC cons25_colors (Z.to_nat (c `mod` 8)); Ok (Z.lor x (Z.land c 8)).

Definition set_defbg t (c : Z) : teken :=
  let a := t_defattr t in upd_defattr t (mk_attr (ta_format a) (ta_fgcolor a) c).
Definition set_deffg t (c : Z) : teken :=
  let a := t_defattr t in upd_defattr t (mk_attr (ta_format a) c (ta_bgcolor a)).

Definition teken_subr_cons25_set_default_background t s (c : Z) : res :=
  x ← cons25_color c; Ok (set_bgcolor (set_defbg t x) x, s).
Definition teken_subr_cons25_set_default_foreground t s (c : Z) : res :=
  x ← cons25_color c; Ok (set_fgcolor (set_deffg t x) x, s).

Definition teken_subr_cons25_switch_virtual_terminal t s (vt : Z) : res :=
  teken_funcs_param F t s TP_SWITCHVT vt.

Definition teken_subr_cons25_set_bell_pitch_duration t s (pitch duration : Z) : res :=
  teken_funcs_param F t s TP_SETBELLPD
    (Z.lor (u32 (Z.shiftl pitch 16)) (Z.land duration 0xffff)).

Definition teken_subr_cons25_set_graphic_rendition t s (cmd param : Z) : res :=
  Ok (if cmd =? 0 then upd_curattr t (t_defattr t) else t, s).

Definition teken_subr_cons25_set_terminal_mode t s (mode : Z) : res :=
  Ok (if mode =? 0 then clrf t TS_CONS25 else if mode =? 1 then setf t TS_CONS25 else t, s).
End subr.

Definition cons25_revcolors : list Z := [0; 4; 2; 6; 1; 5; 3; 7].

Definition teken_get_defattr_cons25 (t : teken) : outcome (Z * Z) :=
  f8 ← teken_256to8 (ta_fgcolor (t_defattr t));
  fg ← readC cons25_revcolors (Z.to_nat f8);
  let fg := if truth (Z.land (ta_format (t_defattr t)) TF_BOLD) then fg + 8 else fg in
  b8 ← teken_256to8 (ta_bgcolor (t_defattr t));
  bg ← readC cons25_revcolors (Z.to_nat b8);
  Ok (fg, bg).
