(* ===== verification/TekenState.v ===== *)
(** * The escape sequence parser and the input functions of teken.c, and the
    state machine gensequences generates from the file sequences.

    A state function of the generated teken_state.h is named for a prefix of
    the sequences; here the prefix itself is the state, and [teken_state] is
    the body gensequences prints for it. *)

From Stdlib Require Import ZArith Lia String.
From stdpp Require Import base option numbers list.
From S2P Require Import Prelude HpackData TekenData TekenSubr.
#[local] Open Scope Z_scope.

(** ** The rows of sequences *)

(** The fourth column: [n]s and [r]s, or [v]. *)
Inductive seq_arg := arg_n | arg_r.
Inductive seq_args := args (l : list seq_arg) | args_v.

(** The second column: the function called. *)
Inductive tcmd :=
  | cursor_backward_tabulation | cursor_forward_tabulation | cursor_next_line
  | cursor_previous_line | cursor_position_report | cursor_backward | cursor_down
  | cursor_forward | cursor_position | cursor_up | primary_device_attributes
  | secondary_device_attributes | delete_character | device_control_string
  | alignment_test | double_height_double_width_line_top
  | double_height_double_width_line_bottom | single_height_double_width_line
  | keypad_application_mode | keypad_numeric_mode | restore_cursor | reset_dec_mode
  | save_cursor | set_cursor_style | set_dec_mode | set_top_and_bottom_margins
  | single_height_single_width_line | delete_line | device_status_report
  | erase_character | erase_display | erase_line
  | g0_scs_special_graphics | g0_scs_us_ascii | g0_scs_uk_national
  | g1_scs_special_graphics | g1_scs_us_ascii | g1_scs_uk_national
  | horizontal_position_absolute | horizontal_tab_set | insert_character | insert_line
  | index | next_line | operating_system_command | reverse_index
  | reset_to_initial_state | reset_mode | pan_up | set_graphic_rendition | set_mode
  | string_terminator | pan_down | tab_clear | vertical_position_absolute
  | cons25_set_bell_pitch_duration | cons25_set_border | cons25_set_default_background
  | cons25_set_default_foreground | cons25_set_global_cursor_shape
  | cons25_set_local_cursor_type | cons25_set_terminal_mode | cons25_set_graphic_rendition
  | cons25_switch_virtual_terminal | repeat_last_graphic_char.

(** A row: the bytes after the escape that starts them all, the arguments and
    the function. *)
Record seq_row := mk_row { sq_bytes : list Z; sq_args : seq_args; sq_cmd : tcmd }.

Definition row (s : string) (a : seq_args) (c : tcmd) : seq_row := mk_row (27 :: str s) a c.

Definition sequences : list seq_row :=
  [row "[Z" (args [arg_n]) cursor_backward_tabulation;
   row "[I" (args [arg_n]) cursor_forward_tabulation;
   row "[E" (args [arg_n]) cursor_next_line;
   row "[F" (args [arg_n]) cursor_previous_line;
   row "[n" (args [arg_r]) cursor_position_report;
   row "[D" (args [arg_n]) cursor_backward;
   row "[B" (args [arg_n]) cursor_down;
   row "[e" (args [arg_n]) cursor_down;
   row "[C" (args [arg_n]) cursor_forward;
   row "[a" (args [arg_n]) cursor_forward;
   row "[H" (args [arg_n; arg_n]) cursor_position;
   row "[f" (args [arg_n; arg_n]) cursor_position;
   row "[A" (args [arg_n]) cursor_up;
   row "[c" (args [arg_r]) primary_device_attributes;
   row "[>c" (args [arg_r]) secondary_device_attributes;
   row "[P" (args [arg_n]) delete_character;
   row "P" (args []) device_control_string;
   row "#8" (args []) alignment_test;
   row "#3" (args []) double_height_double_width_line_top;
   row "#4" (args []) double_height_double_width_line_bottom;
   row "#6" (args []) single_height_double_width_line;
   row "=" (args []) keypad_application_mode;
   row ">" (args []) keypad_numeric_mode;
   row "8" (args []) restore_cursor;
   row "[u" (args []) restore_cursor;
   row "[?l" (args [arg_r]) reset_dec_mode;
   row "7" (args []) save_cursor;
   row "[s" (args []) save_cursor;
   row "[ q" (args [arg_r]) set_cursor_style;
   row "[?h" (args [arg_r]) set_dec_mode;
   row "[r" (args [arg_r; arg_r]) set_top_and_bottom_margins;
   row "#5" (args []) single_height_single_width_line;
   row "[M" (args [arg_n]) delete_line;
   row "[?n" (args [arg_r]) device_status_report;
   row "[X" (args [arg_n]) erase_character;
   row "[J" (args [arg_r]) erase_display;
   row "[K" (args [arg_r]) erase_line;
   row "(0" (args []) g0_scs_special_graphics;
   row "(1" (args []) g0_scs_us_ascii;
   row "(2" (args []) g0_scs_special_graphics;
   row "(A" (args []) g0_scs_uk_national;
   row "(B" (args []) g0_scs_us_ascii;
   row ")0" (args []) g1_scs_special_graphics;
   row ")1" (args []) g1_scs_us_ascii;
   row ")2" (args []) g1_scs_special_graphics;
   row ")A" (args []) g1_scs_uk_national;
   row ")B" (args []) g1_scs_us_ascii;
   row "[G" (args [arg_n]) horizontal_position_absolute;
   row "[`" (args [arg_n]) horizontal_position_absolute;
   row "H" (args []) horizontal_tab_set;
   row "[@" (args [arg_n]) insert_character;
   row "[L" (args [arg_n]) insert_line;
   row "D" (args []) index;
   row "E" (args []) next_line;
   row "]" (args []) operating_system_command;
   row "M" (args []) reverse_index;
   row "c" (args []) reset_to_initial_state;
   row "[l" (args [arg_r]) reset_mode;
   row "[T" (args [arg_n]) pan_up;
   row "[m" args_v set_graphic_rendition;
   row "[h" (args [arg_r]) set_mode;
   row "\" (args []) string_terminator;
   row "[S" (args [arg_n]) pan_down;
   row "[g" (args [arg_r]) tab_clear;
   row "[d" (args [arg_n]) vertical_position_absolute;
   row "[=B" (args [arg_r; arg_r]) cons25_set_bell_pitch_duration;
   row "[=A" (args [arg_r]) cons25_set_border;
   row "[=G" (args [arg_r]) cons25_set_default_background;
   row "[=F" (args [arg_r]) cons25_set_default_foreground;
   row "[=C" args_v cons25_set_global_cursor_shape;
   row "[=S" (args [arg_r]) cons25_set_local_cursor_type;
   row "[=T" (args [arg_r]) cons25_set_terminal_mode;
   row "[x" (args [arg_r; arg_r]) cons25_set_graphic_rendition;
   row "[z" (args [arg_r]) cons25_switch_virtual_terminal;
   row "[b" (args [arg_n]) repeat_last_graphic_char]%string.

(** ** What gensequences derives from them *)

(** [l_cmd_prefix], [l_prefix_numbercmds] and [l_prefix_parent]. *)
Definition row_for (prefix : list Z) (c : Z) (r : seq_row) : bool :=
  bool_decide (sq_bytes r = prefix ++ [c]).

Definition find_cmd (prefix : list Z) (c : Z) : option seq_row :=
  List.find (row_for prefix c) sequences.

Definition takes_args (r : seq_row) : bool :=
  match sq_args r with args [] => false | _ => true end.

Definition has_numbers (prefix : list Z) : bool :=
  existsb (fun r => bool_decide (removelast (sq_bytes r) = prefix) && takes_args r) sequences.

Definition is_prefix (prefix : list Z) : bool :=
  existsb (fun r => bool_decide (take (List.length prefix) (removelast (sq_bytes r)) = prefix))
    sequences.

(** ** The parser's state *)

Definition teken_state_switch (t : teken) (st : list Z) : teken :=
  let t := upd_nextstate t st in
  let t := upd_curnum t 0 in
  setf t TS_FIRSTDIGIT.

(** [t->t_nums[t->t_curnum] = x]. *)
Definition set_num (t : teken) (x : Z) : outcome teken :=
  l ← writeC (t_nums t) (Z.to_nat (t_curnum t)) x; Ok (upd_nums t l).

(** [teken_state_numbers]: whether it took the character, and the terminal. *)
Definition teken_state_numbers (t : teken) (c : Z) : outcome (bool * teken) :=
  _ ← assertC (t_curnum t <? T_NUMSIZE);
  if (48 <=? c) && (c <=? 57) then
    if has t TS_FIRSTDIGIT then
      t ← set_num (clrf t TS_FIRSTDIGIT) (c - 48); Ok (true, t)
    else
      n ← readC (t_nums t) (Z.to_nat (t_curnum t));
      if n <? UINT_MAX / 100 then t ← set_num t (u32 (n * 10 + c - 48)); Ok (true, t)
      else Ok (true, t)
  else if c =? 59 then
    t ← (if has t TS_FIRSTDIGIT then set_num t 0 else Ok t);
    let t := upd_curnum t (u32 (t_curnum t + 1)) in
    if t_curnum t =? T_NUMSIZE then Ok (true, teken_state_switch t [])
    else Ok (true, setf t TS_FIRSTDIGIT)
  else if has t TS_FIRSTDIGIT && (0 <? t_curnum t) then
    t ← set_num t 0;
    Ok (false, upd_curnum t (u32 (t_curnum t + 1)))
  else if negb (has t TS_FIRSTDIGIT) then
    Ok (false, upd_curnum t (u32 (t_curnum t + 1)))
  else Ok (false, t).

(** The [a]th argument of a call. *)
Definition arg_value (t : teken) (a : Z) (k : seq_arg) : outcome Z :=
  match k with
  | arg_n =>
      if t_curnum t <? a then Ok 1
      else n ← readC (t_nums t) (Z.to_nat (a - 1)); Ok (if n =? 0 then 1 else n)
  | arg_r => if t_curnum t <? a then Ok 0 else readC (t_nums t) (Z.to_nat (a - 1))
  end.

Fixpoint arg_values (t : teken) (a : Z) (l : list seq_arg) : outcome (list Z) :=
  match l with
  | [] => Ok []
  | k :: l => x ← arg_value t a k; xs ← arg_values t (a + 1) l; Ok (x :: xs)
  end.

Section state.
Context {S : Type} (F : teken_funcs S).
Implicit Types (t : teken) (s : S).

(** The call of [teken_subr_...]: [x] and [y] are its arguments, [t_curnum]
    and [t_nums] those of a [v] row. *)
Definition call_cmd (c : tcmd) t s (x y : Z) : outcome (teken * S) :=
  match c with
  | cursor_backward_tabulation => teken_subr_cursor_backward_tabulation F t s x
  | cursor_forward_tabulation => teken_subr_cursor_forward_tabulation F t s x
  | cursor_next_line => teken_subr_cursor_next_line F t s x
  | cursor_previous_line => teken_subr_cursor_previous_line F t s x
  | cursor_position_report => keep t (teken_subr_cursor_position_report F t s x)
  | cursor_backward => teken_subr_cursor_backward F t s x
  | cursor_down => teken_subr_cursor_down F t s x
  | cursor_forward => teken_subr_cursor_forward F t s x
  | cursor_position => teken_subr_cursor_position F t s x y
  | cursor_up => teken_subr_cursor_up F t s x
  | primary_device_attributes => keep t (teken_subr_primary_device_attributes F t s x)
  | secondary_device_attributes => keep t (teken_subr_secondary_device_attributes F t s x)
  | delete_character => keep t (teken_subr_delete_character F t s x)
  | device_control_string => teken_subr_device_control_string t s
  | alignment_test => teken_subr_alignment_test F t s
  | double_height_double_width_line_top
  | double_height_double_width_line_bottom
  | single_height_double_width_line
  | single_height_single_width_line
  | string_terminator => Ok (t, s)
  | keypad_application_mode => teken_subr_keypad_application_mode F t s
  | keypad_numeric_mode => teken_subr_keypad_numeric_mode F t s
  | restore_cursor => teken_subr_restore_cursor F t s
  | reset_dec_mode => teken_subr_reset_dec_mode F t s x
  | save_cursor => t ← teken_subr_save_cursor t; Ok (t, s)
  | set_cursor_style => teken_subr_set_cursor_style t s x
  | set_dec_mode => teken_subr_set_dec_mode F t s x
  | set_top_and_bottom_margins => teken_subr_set_top_and_bottom_margins F t s x y
  | delete_line => keep t (teken_subr_delete_line F t s x)
  | device_status_report => keep t (teken_subr_device_status_report F t s x)
  | erase_character => keep t (teken_subr_erase_character F t s x)
  | erase_display => keep t (teken_subr_erase_display F t s x)
  | erase_line => keep t (teken_subr_erase_line F t s x)
  | g0_scs_special_graphics => set_scs t s 0 teken_scs_special_graphics
  | g0_scs_us_ascii => set_scs t s 0 teken_scs_us_ascii
  | g0_scs_uk_national => set_scs t s 0 teken_scs_uk_national
  | g1_scs_special_graphics => set_scs t s 1 teken_scs_special_graphics
  | g1_scs_us_ascii => set_scs t s 1 teken_scs_us_ascii
  | g1_scs_uk_national => set_scs t s 1 teken_scs_uk_national
  | horizontal_position_absolute => teken_subr_horizontal_position_absolute F t s x
  | horizontal_tab_set => teken_subr_horizontal_tab_set t s
  | insert_character => keep t (teken_subr_insert_character F t s x)
  | insert_line => keep t (teken_subr_insert_line F t s x)
  | index => teken_subr_index F t s
  | next_line => teken_subr_next_line F t s
  | operating_system_command => teken_subr_operating_system_command t s
  | reverse_index => teken_subr_reverse_index F t s
  | reset_to_initial_state => teken_subr_reset_to_initial_state F t s
  | reset_mode => teken_subr_reset_mode t s x
  | pan_up => keep t (teken_subr_pan_up F t s x)
  | set_graphic_rendition => teken_subr_set_graphic_rendition t s (t_curnum t) (t_nums t)
  | set_mode => teken_subr_set_mode t s x
  | pan_down => keep t (teken_subr_pan_down F t s x)
  | tab_clear => teken_subr_tab_clear t s x
  | vertical_position_absolute => teken_subr_vertical_position_absolute F t s x
  | cons25_set_bell_pitch_duration => teken_subr_cons25_set_bell_pitch_duration F t s x y
  | cons25_set_border => teken_subr_cons25_set_border F t s x
  | cons25_set_default_background => teken_subr_cons25_set_default_background t s x
  | cons25_set_default_foreground => teken_subr_cons25_set_default_foreground t s x
  | cons25_set_global_cursor_shape =>
      teken_subr_cons25_set_global_cursor_shape F t s (t_curnum t) (t_nums t)
  | cons25_set_local_cursor_type => teken_subr_cons25_set_local_cursor_type F t s x
  | cons25_set_terminal_mode => teken_subr_cons25_set_terminal_mode t s x
  | cons25_set_graphic_rendition => teken_subr_cons25_set_graphic_rendition t s x y
  | cons25_switch_virtual_terminal => teken_subr_cons25_switch_virtual_terminal F t s x
  | repeat_last_graphic_char => teken_subr_repeat_last_graphic_char F t s x
  end.

Definition run_row (r : seq_row) t s : outcome (teken * S) :=
  match sq_args r with
  | args_v => call_cmd (sq_cmd r) t s 0 0
  | args l =>
      xs ← arg_values t 1 l;
      call_cmd (sq_cmd r) t s (nth 0 xs 0) (nth 1 xs 0)
  end.

(** The end of a state function other than [teken_state_init]. *)
Definition state_done (prefix : list Z) t : teken :=
  match prefix with
  | [] => t
  | _ => teken_state_switch (upd_last t 0) []
  end.

(** The state function of [prefix]. *)
Definition teken_state (prefix : list Z) t s (c : Z) : outcome (teken * S) :=
  '(taken, t) ← (if has_numbers prefix then teken_state_numbers t c else Ok (false, t));
  if (taken : bool) then Ok (t, s)
  else
    match find_cmd prefix c with
    | Some r => '(t, s) ← run_row r t s; Ok (state_done prefix t, s)
    | None =>
        if is_prefix (prefix ++ [c]) then Ok (teken_state_switch t (prefix ++ [c]), s)
        else
          '(t, s) ←
            match prefix with
            | [] => teken_subr_regular_character F t s c
            | _ => Ok (t, s)
            end;
          Ok (state_done prefix t, s)
    end.

(** ** Input *)

(** The assertions at the end of [teken_input_char]. *)
Definition post_asserts t : outcome unit :=
  let cur := t_cursor t in
  let org := t_originreg t in
  let scr := t_scrollreg t in
  let win := t_winsize t in
  _ ← assertC (ts_begin org <=? tp_row cur);
  _ ← assertC (tp_row cur <? ts_end org);
  _ ← assertC (tp_row cur <? tp_row win);
  _ ← assertC (tp_col cur <? tp_col win);
  _ ← assertC (tp_row (t_saved_cursor t) <? tp_row win);
  _ ← assertC (tp_col (t_saved_cursor t) <? tp_col win);
  _ ← assertC (ts_end scr <=? tp_row win);
  _ ← assertC (ts_begin scr <? ts_end scr);
  assertC ((((ts_begin org =? ts_begin scr) && (ts_end org =? ts_end scr))
           || ((ts_begin org =? 0) && (ts_end org =? tp_row win)))).

(** The [switch] of [teken_input_char]. *)
Definition input_switch t s (c : Z) : outcome (teken * S) :=
  if c =? 0 then Ok (t, s)
  else if c =? 7 then keep t (teken_subr_bell F t s)
  else if c =? 8 then teken_subr_backspace F t s
  else if (c =? 10) || (c =? 11) then teken_subr_newline F t s
  else if c =? 12 then teken_subr_newpage F t s
  else if c =? 14 then
    if has t TS_CONS25 then teken_state (t_nextstate t) t s c else Ok (upd_curscs t 1, s)
  else if c =? 15 then
    if has t TS_CONS25 then teken_state (t_nextstate t) t s c else Ok (upd_curscs t 0, s)
  else if c =? 13 then teken_subr_carriage_return F t s
  else if c =? 9 then teken_subr_horizontal_tab F t s
  else teken_state (t_nextstate t) t s c.

Definition teken_input_char t s (c : Z) : outcome (teken * S) :=
  if has t TS_INSTRING && negb (c =? 27) then
    Ok (if c =? 7 then clrf t TS_INSTRING else t, s)
  else
    let t := if has t TS_INSTRING then clrf t TS_INSTRING else t in
    '(t, s) ← input_switch t s c;
    _ ← post_asserts t;
    Ok (t, s).

Definition teken_input_byte t s (c : Z) : outcome (teken * S) :=
  if (Z.land c 0x80 =? 0) || has t TS_8BIT then teken_input_char (upd_utf8_left t 0) s c
  else if Z.land c 0xe0 =? 0xc0 then
    Ok (upd_utf8_partial (upd_utf8_left t 1) (Z.land c 0x1f), s)
  else if Z.land c 0xf0 =? 0xe0 then
    Ok (upd_utf8_partial (upd_utf8_left t 2) (Z.land c 0x0f), s)
  else if Z.land c 0xf8 =? 0xf0 then
    Ok (upd_utf8_partial (upd_utf8_left t 3) (Z.land c 0x07), s)
  else if Z.land c 0xc0 =? 0x80 then
    if t_utf8_left t =? 0 then Ok (t, s)
    else
      let t := upd_utf8_left t (u32 (t_utf8_left t - 1)) in
      let t := upd_utf8_partial t
                 (Z.lor (u32 (Z.shiftl (t_utf8_partial t) 6)) (Z.land c 0x3f)) in
      if t_utf8_left t =? 0 then teken_input_char t s (t_utf8_partial t) else Ok (t, s)
  else Ok (t, s).

Fixpoint input_bytes t s (buf : list Z) : outcome (teken * S) :=
  match buf with
  | [] => Ok (t, s)
  | c :: buf => '(t, s) ← teken_input_byte t s c; input_bytes t s buf
  end.

Definition teken_input t s (buf : list Z) : outcome (teken * S) :=
  s ← teken_funcs_pre_input F t s;
  '(t, s) ← input_bytes t s buf;
  s ← teken_funcs_post_input F t s;
  Ok (t, s).
End state.

(** ** Programming interface *)

Definition teken_get_cursor (t : teken) : teken_pos := t_cursor t.
Definition teken_get_curattr (t : teken) : teken_attr := t_curattr t.
Definition teken_get_defattr (t : teken) : teken_attr := t_defattr t.
Definition teken_get_winsize (t : teken) : teken_pos := t_winsize t.

Definition teken_set_cursor (t : teken) (p : teken_pos) : outcome teken :=
  _ ← assertC (tp_row p <? tp_row (t_winsize t));
  _ ← assertC (tp_col p <? tp_col (t_winsize t));
  Ok (upd_cursor t p).

Definition teken_set_curattr (t : teken) (a : teken_attr) : teken := upd_curattr t a.

Definition teken_set_defattr (t : teken) (a : teken_attr) : teken :=
  let t := upd_defattr t a in
  let t := upd_saved_curattr t a in
  upd_curattr t a.

Definition teken_trim_cursor_pos (t : teken) (new : teken_pos) : teken :=
  if (tp_row (t_winsize t) <? tp_row new) || (tp_col (t_winsize t) <? tp_col new) then t
  else
    let t := if tp_row new <=? tp_row (t_cursor t) then upd_cursor_row t (tp_row new - 1) else t in
    if tp_col new <=? tp_col (t_cursor t) then upd_cursor_col t (tp_col new - 1) else t.

Definition teken_set_winsize (t : teken) (p : teken_pos) : outcome teken :=
  let t := teken_trim_cursor_pos t p in
  let t := upd_winsize t p in
  teken_subr_do_reset t.

Definition teken_set_winsize_noreset (t : teken) (p : teken_pos) : teken :=
  let t := teken_trim_cursor_pos t p in
  let t := upd_winsize t p in
  teken_subr_do_resize t.

Definition teken_set_8bit (t : teken) : teken := setf t TS_8BIT.
Definition teken_set_cons25 (t : teken) : teken := setf t TS_CONS25.

(** [teken_init] of a structure with any contents. *)
Definition teken_init (t : teken) : outcome teken :=
  let t := upd_nextstate t [] in
  let t := upd_stateflags t 0 in
  let t := upd_utf8_left t 0 in
  let t := upd_defattr t (mk_attr 0 TC_WHITE TC_BLACK) in
  t ← teken_subr_do_reset t;
  teken_set_winsize t (mk_pos 24 80).
