(* ===== verification/TekenInv.v ===== *)
(** * The terminal emulator never fails an assertion.

    [tinv] is the invariant of [struct __teken] between two characters, [HooksOk]
    the contract of the drawing routines: they succeed on positions and
    rectangles inside the window.  Under that contract every operation of
    TekenSubr.v succeeds, draws inside the window only and keeps [tinv], and so
    does the input of any bytes. *)

From Stdlib Require Import ZArith Lia.
From stdpp Require Import base option numbers list.
From S2P Require Import Prelude TekenData TekenSubr TekenState.
#[local] Open Scope Z_scope.

(** ** The invariant *)

(** The part the drawing operations need: a window, of three columns or more,
    and a scrolling region inside it. *)
Record geom (t : teken) : Prop := {
  ge_row : 1 <= tp_row (t_winsize t) <= 65535;
  ge_col : 3 <= tp_col (t_winsize t) <= 65535;
  ge_top : 0 <= ts_begin (t_scrollreg t);
  ge_scroll : ts_begin (t_scrollreg t) < ts_end (t_scrollreg t) <= tp_row (t_winsize t)
}.

(** [p] is inside the rows of [reg] and the columns of the window. *)
Definition pos_in (t : teken) (reg : teken_span) (p : teken_pos) : Prop :=
  ts_begin reg <= tp_row p < ts_end reg /\ 0 <= tp_col p < tp_col (t_winsize t).

Definition whole (t : teken) : teken_span := mk_span 0 (tp_row (t_winsize t)).

(** Numbers stop growing once they reach [UINT_MAX / 100]. *)
Definition NUM_MAX : Z := 429496719.

Record tinv (t : teken) : Prop := {
  iv_geom : geom t;
  iv_cursor : pos_in t (t_originreg t) (t_cursor t);
  iv_saved : pos_in t (whole t) (t_saved_cursor t);
  iv_origin : t_originreg t = if has t TS_ORIGIN then t_scrollreg t else whole t;
  iv_tabs : length (t_tabstops t) = 5%nat;
  iv_nums : length (t_nums t) = 8%nat /\ Forall (fun n => 0 <= n <= NUM_MAX) (t_nums t);
  iv_curnum : 0 <= t_curnum t <= 8;
  iv_scs : length (t_scs t) = 2%nat /\ 0 <= t_curscs t < 2
}.

(** The contract of the hooks: [hinv win s] is the softc's own invariant while
    the window is [win]. *)
Class HooksOk {S} (F : teken_funcs S) (hinv : teken_pos -> S -> Prop) := {
  ho_bell : forall f win s, tf_bell F = Some f -> hinv win s -> exists s', f s = Ok s' /\ hinv win s';
  ho_pre : forall f win s, tf_pre_input F = Some f -> hinv win s -> exists s', f s = Ok s' /\ hinv win s';
  ho_post : forall f win s, tf_post_input F = Some f -> hinv win s -> exists s', f s = Ok s' /\ hinv win s';
  ho_cursor : exists f, tf_cursor F = Some f /\ forall win s p,
    hinv win s -> 0 <= tp_row p < tp_row win -> 0 <= tp_col p < tp_col win ->
    exists s', f s p = Ok s' /\ hinv win s';
  ho_putchar : exists f, tf_putchar F = Some f /\ forall win s p c a,
    hinv win s -> 0 <= tp_row p < tp_row win -> 0 <= tp_col p < tp_col win ->
    exists s', f s p c a = Ok s' /\ hinv win s';
  ho_fill : exists f, tf_fill F = Some f /\ forall win s r0 c0 r1 c1 c a,
    hinv win s -> 0 <= r0 < r1 -> r1 <= tp_row win -> 0 <= c0 < c1 -> c1 <= tp_col win ->
    exists s', f s (mk_rect (mk_pos r0 c0) (mk_pos r1 c1)) c a = Ok s' /\ hinv win s';
  ho_copy : exists f, tf_copy F = Some f /\ forall win s r0 c0 r1 c1 pr pc,
    hinv win s -> 0 <= r0 < r1 -> r1 <= tp_row win -> 0 <= c0 < c1 -> c1 <= tp_col win ->
    0 <= pr -> pr + (r1 - r0) <= tp_row win -> 0 <= pc -> pc + (c1 - c0) <= tp_col win ->
    exists s', f s (mk_rect (mk_pos r0 c0) (mk_pos r1 c1)) (mk_pos pr pc) = Ok s' /\ hinv win s';
  ho_param : exists f, tf_param F = Some f /\ forall t s cmd v,
    tinv t -> hinv (t_winsize t) s ->
    exists t' s', f t s cmd v = Ok (t', s') /\ tinv t' /\ hinv (t_winsize t') s' /\
      t_curnum t' = t_curnum t;
  ho_respond : exists f, tf_respond F = Some f /\ forall win s buf,
    hinv win s -> exists s', f s buf = Ok s' /\ hinv win s'
}.

(** ** Flags *)

(** [f] does not contain [TS_ORIGIN]. *)
Definition no_origin (f : Z) : Prop := Z.testbit f 3 = false.

Lemma has_pow t k : 0 <= k -> has t (2 ^ k) = Z.testbit (t_stateflags t) k.
Proof. apply land_pow2_truth. Qed.

Lemma has_origin t : has t TS_ORIGIN = Z.testbit (t_stateflags t) 3.
Proof. apply (land_pow2_truth _ 3). lia. Qed.

Lemma u32_lnot_testbit f i : 0 <= i < 32 -> Z.testbit (u32 (Z.lnot f)) i = negb (Z.testbit f i).
Proof. intros Hi. unfold wrapu. rewrite Z.mod_pow2_bits_low by lia. apply Z.lnot_spec. lia. Qed.

Lemma has_origin_setf t f : no_origin f -> has (setf t f) TS_ORIGIN = has t TS_ORIGIN.
Proof. intros Hf. rewrite !has_origin. cbn [setf upd_stateflags t_stateflags].
  by rewrite Z.lor_spec, Hf, orb_false_r. Qed.

Lemma has_origin_clrf t f : no_origin f -> has (clrf t f) TS_ORIGIN = has t TS_ORIGIN.
Proof.
  intros Hf. rewrite !has_origin. cbn [clrf upd_stateflags t_stateflags].
  by rewrite Z.land_spec, u32_lnot_testbit, Hf, andb_true_r by lia.
Qed.

Lemma has_origin_clear t f : Z.testbit f 3 = true -> has (clrf t f) TS_ORIGIN = false.
Proof.
  intros Hf. rewrite has_origin. cbn [clrf upd_stateflags t_stateflags].
  by rewrite Z.land_spec, u32_lnot_testbit, Hf, andb_false_r by lia.
Qed.

Lemma has_origin_set t : has (setf t TS_ORIGIN) TS_ORIGIN = true.
Proof. rewrite has_origin. cbn [setf upd_stateflags t_stateflags].
  by rewrite Z.lor_spec, orb_true_r. Qed.

Lemma u16_small x : 0 <= x <= 65535 -> u16 x = x.
Proof. intros. apply wrapu_small. lia. Qed.

Lemma u32_small x : 0 <= x <= 4294967295 -> u32 x = x.
Proof. intros. apply wrapu_small. lia. Qed.

(** ** Assignments that keep the invariant *)

Section keep.
Context (t : teken).

Lemma tinv_bounds : tinv t ->
  geom t /\ 0 <= ts_begin (t_originreg t) /\ ts_end (t_originreg t) <= tp_row (t_winsize t) /\
  ts_begin (t_originreg t) <= tp_row (t_cursor t) < ts_end (t_originreg t) /\
  0 <= tp_col (t_cursor t) < tp_col (t_winsize t).
Proof.
  intros H. destruct (iv_geom t H) as [? ? ? ?]. destruct (iv_cursor t H) as [? ?].
  pose proof (iv_origin t H) as Ho.
  assert (0 <= ts_begin (t_originreg t) /\ ts_end (t_originreg t) <= tp_row (t_winsize t))
    by (rewrite Ho; destruct (has t TS_ORIGIN); simpl; lia).
  split_and!; try done; lia.
Qed.

Lemma tinv_upd_cursor p : tinv t -> pos_in t (t_originreg t) p -> tinv (upd_cursor t p).
Proof. intros [[]] Hp. constructor; done. Qed.

Lemma tinv_setf f : no_origin f -> tinv t -> tinv (setf t f).
Proof.
  intros Hf [[]]. constructor; try done. by rewrite has_origin_setf.
Qed.

Lemma tinv_clrf f : no_origin f -> tinv t -> tinv (clrf t f).
Proof.
  intros Hf [[]]. constructor; try done. by rewrite has_origin_clrf.
Qed.

Lemma tinv_upd_last x : tinv t -> tinv (upd_last t x).
Proof. intros [[]]. constructor; done. Qed.
Lemma tinv_upd_curattr x : tinv t -> tinv (upd_curattr t x).
Proof. intros [[]]. constructor; done. Qed.
Lemma tinv_upd_defattr x : tinv t -> tinv (upd_defattr t x).
Proof. intros [[]]. constructor; done. Qed.
Lemma tinv_upd_nextstate x : tinv t -> tinv (upd_nextstate t x).
Proof. intros [[]]. constructor; done. Qed.
Lemma tinv_upd_utf8_left x : tinv t -> tinv (upd_utf8_left t x).
Proof. intros [[]]. constructor; done. Qed.
Lemma tinv_upd_utf8_partial x : tinv t -> tinv (upd_utf8_partial t x).
Proof. intros [[]]. constructor; done. Qed.
Lemma tinv_upd_curnum x : 0 <= x <= 8 -> tinv t -> tinv (upd_curnum t x).
Proof. intros Hx [[]]. constructor; done. Qed.
Lemma tinv_upd_tabstops x : length x = 5%nat -> tinv t -> tinv (upd_tabstops t x).
Proof. intros Hx [[]]. constructor; done. Qed.
Lemma tinv_upd_scs x : length x = 2%nat -> tinv t -> tinv (upd_scs t x).
Proof. intros Hx [[] ? ? ? ? ? ? []]. constructor; done. Qed.
Lemma tinv_upd_curscs x : 0 <= x < 2 -> tinv t -> tinv (upd_curscs t x).
Proof. intros Hx [[] ? ? ? ? ? ? []]. constructor; done. Qed.
Lemma tinv_upd_nums x : length x = 8%nat -> Forall (fun n => 0 <= n <= NUM_MAX) x ->
  tinv t -> tinv (upd_nums t x).
Proof. intros Hx Hf [[]]. constructor; done. Qed.
End keep.

Create HintDb teken discriminated.
#[export] Hint Resolve tinv_upd_cursor tinv_setf tinv_clrf tinv_upd_last tinv_upd_curattr
  tinv_upd_defattr tinv_upd_nextstate tinv_upd_utf8_left tinv_upd_utf8_partial
  tinv_upd_tabstops tinv_upd_scs tinv_upd_curscs tinv_upd_curnum iv_geom : teken.
#[export] Hint Extern 0 (no_origin _) => reflexivity : teken.

(** The projections of assigned terminals. *)
Ltac tproj := cbn [t_nextstate t_stateflags t_nums t_curnum t_cursor t_curattr t_saved_cursor
  t_saved_curattr t_defattr t_winsize t_scrollreg t_originreg t_tabstops t_utf8_left
  t_utf8_partial t_last t_curscs t_saved_curscs t_scs upd_nextstate upd_stateflags upd_nums
  upd_curnum upd_cursor upd_curattr upd_saved_cursor upd_saved_curattr upd_defattr upd_winsize
  upd_scrollreg upd_originreg upd_tabstops upd_utf8_left upd_utf8_partial upd_last upd_curscs
  upd_saved_curscs upd_scs upd_cursor_row upd_cursor_col setf clrf
  tp_row tp_col ts_begin ts_end tr_begin tr_end whole] in *.

(** ** The operations *)

Section ops.
Context {S : Type} (F : teken_funcs S) (hinv : teken_pos -> S -> Prop) `{!HooksOk F hinv}.
Implicit Types (t : teken) (s : S).

(** Results that draw, and results of whole operations: [n] is the [t_curnum]
    the operation must leave alone. *)
Definition drawn (win : teken_pos) (m : outcome S) : Prop :=
  exists s, m = Ok s /\ hinv win s.

Definition good (n : Z) (r : outcome (teken * S)) : Prop :=
  exists t s, r = Ok (t, s) /\ tinv t /\ hinv (t_winsize t) s /\ t_curnum t = n.

Lemma drawn_bind win m k :
  drawn win m -> (forall s, hinv win s -> drawn win (k s)) -> drawn win (m ≫= k).
Proof. intros (s & -> & Hs) Hk. apply Hk, Hs. Qed.

Lemma drawn_then win m n (k : S -> outcome (teken * S)) :
  drawn win m -> (forall s, hinv win s -> good n (k s)) -> good n (m ≫= k).
Proof. intros (s & -> & Hs) Hk. apply Hk, Hs. Qed.

Lemma drawn_ok win s : hinv win s -> drawn win (Ok s).
Proof. by exists s. Qed.

Lemma good_ok n t s : tinv t -> hinv (t_winsize t) s -> t_curnum t = n -> good n (Ok (t, s)).
Proof. by exists t, s. Qed.

Lemma good_bind n m k :
  good n m -> (forall t s, tinv t -> hinv (t_winsize t) s -> t_curnum t = n -> good n (k (t, s))) ->
  good n (m ≫= k).
Proof. intros (t & s & -> & Ht & Hs & Hn) Hk. by apply Hk. Qed.

Lemma keep_good n t m : tinv t -> t_curnum t = n -> drawn (t_winsize t) m -> good n (keep t m).
Proof. intros Ht Hn Hm. eapply drawn_then; [done|]. intros s Hs. by apply good_ok. Qed.

Lemma cursor_drawn t s :
  hinv (t_winsize t) s -> 0 <= tp_row (t_cursor t) < tp_row (t_winsize t) ->
  0 <= tp_col (t_cursor t) < tp_col (t_winsize t) ->
  drawn (t_winsize t) (teken_funcs_cursor F t s).
Proof.
  intros Hs Hr Hc. destruct ho_cursor as (f & Hf & Hok). unfold teken_funcs_cursor.
  rewrite (assertC_true (_ <? _)), bind_Ok_l by (apply Z.ltb_lt; lia).
  rewrite (assertC_true (_ <? _)), bind_Ok_l by (apply Z.ltb_lt; lia).
  rewrite Hf. by apply Hok.
Qed.

Lemma putchar_drawn t s p c a :
  hinv (t_winsize t) s -> 0 <= tp_row p < tp_row (t_winsize t) ->
  0 <= tp_col p < tp_col (t_winsize t) ->
  drawn (t_winsize t) (teken_funcs_putchar F t s p c a).
Proof.
  intros Hs Hr Hc. destruct ho_putchar as (f & Hf & Hok). unfold teken_funcs_putchar.
  rewrite (assertC_true (_ <? _)), bind_Ok_l by (apply Z.ltb_lt; lia).
  rewrite (assertC_true (_ <? _)), bind_Ok_l by (apply Z.ltb_lt; lia).
  rewrite Hf. by apply Hok.
Qed.

Lemma funcs_fill_drawn t s r0 c0 r1 c1 c a :
  hinv (t_winsize t) s -> 0 <= r0 < r1 -> r1 <= tp_row (t_winsize t) ->
  0 <= c0 < c1 -> c1 <= tp_col (t_winsize t) ->
  drawn (t_winsize t) (teken_funcs_fill F t s (mk_rect (mk_pos r0 c0) (mk_pos r1 c1)) c a).
Proof.
  intros Hs Hr Hr' Hc Hc'. destruct ho_fill as (f & Hf & Hok). unfold teken_funcs_fill. tproj.
  rewrite (assertC_true (r0 <? r1)), bind_Ok_l by (apply Z.ltb_lt; lia).
  rewrite (assertC_true (r1 <=? _)), bind_Ok_l by (apply Z.leb_le; lia).
  rewrite (assertC_true (c0 <? c1)), bind_Ok_l by (apply Z.ltb_lt; lia).
  rewrite (assertC_true (c1 <=? _)), bind_Ok_l by (apply Z.leb_le; lia).
  rewrite Hf. by apply Hok.
Qed.

Lemma fill_drawn t s r0 c0 r1 c1 :
  geom t -> hinv (t_winsize t) s -> 0 <= r0 < r1 -> r1 <= tp_row (t_winsize t) ->
  0 <= c0 < c1 -> c1 <= tp_col (t_winsize t) ->
  drawn (t_winsize t) (fill F t s r0 c0 r1 c1).
Proof.
  intros [] Hs Hr Hr' Hc Hc'. unfold fill. rewrite !u16_small by lia.
  by apply funcs_fill_drawn.
Qed.

Lemma copy_drawn t s r0 c0 r1 c1 pr pc :
  geom t -> hinv (t_winsize t) s -> 0 <= r0 < r1 -> r1 <= tp_row (t_winsize t) ->
  0 <= c0 < c1 -> c1 <= tp_col (t_winsize t) ->
  0 <= pr -> pr + (r1 - r0) <= tp_row (t_winsize t) ->
  0 <= pc -> pc + (c1 - c0) <= tp_col (t_winsize t) ->
  drawn (t_winsize t) (copy F t s r0 c0 r1 c1 pr pc).
Proof.
  intros [] Hs Hr Hr' Hc Hc' Hpr Hpr' Hpc Hpc'. unfold copy. rewrite !u16_small by lia.
  destruct ho_copy as (f & Hf & Hok). unfold teken_funcs_copy. tproj.
  rewrite (assertC_true (r0 <? r1)), bind_Ok_l by (apply Z.ltb_lt; lia).
  rewrite (assertC_true (r1 <=? _)), bind_Ok_l by (apply Z.leb_le; lia).
  rewrite (assertC_true (c0 <? c1)), bind_Ok_l by (apply Z.ltb_lt; lia).
  rewrite (assertC_true (c1 <=? _)), bind_Ok_l by (apply Z.leb_le; lia).
  rewrite (assertC_true (pr + _ <=? _)), bind_Ok_l by (apply Z.leb_le; lia).
  rewrite (assertC_true (pc + _ <=? _)), bind_Ok_l by (apply Z.leb_le; lia).
  rewrite Hf. by apply Hok.
Qed.

Lemma respond_drawn t s win buf : hinv win s -> drawn win (teken_funcs_respond F t s buf).
Proof.
  intros Hs. destruct ho_respond as (f & Hf & Hok). unfold teken_funcs_respond. rewrite Hf.
  by apply Hok.
Qed.

Lemma param_good n t s cmd v :
  tinv t -> hinv (t_winsize t) s -> t_curnum t = n -> good n (teken_funcs_param F t s cmd v).
Proof.
  intros Ht Hs <-. destruct ho_param as (f & Hf & Hok). unfold teken_funcs_param. rewrite Hf.
  destruct (Hok t s cmd v Ht Hs) as (t' & s' & He & ? & ? & ?). by exists t', s'.
Qed.

Lemma moved_good n t s : tinv t -> hinv (t_winsize t) s -> t_curnum t = n -> good n (moved F t s).
Proof.
  intros Ht Hs Hn. apply keep_good; [done..|].
  destruct (tinv_bounds t Ht) as ([] & ? & ? & ? & ?). apply cursor_drawn; [done|lia..].
Qed.

(** The end of most operations: the cursor at [p] and [TS_WRAPPED] cleared. *)
Lemma goto_good n t s p f :
  tinv t -> hinv (t_winsize t) s -> t_curnum t = n -> pos_in t (t_originreg t) p ->
  no_origin f -> good n (moved F (clrf (upd_cursor t p) f) s).
Proof. intros. apply moved_good; auto with teken. Qed.

Lemma do_scroll_drawn t s amount :
  geom t -> hinv (t_winsize t) s -> tp_row (t_cursor t) <= tp_row (t_winsize t) ->
  amount <> 0 -> drawn (t_winsize t) (teken_subr_do_scroll F t s amount).
Proof.
  intros Hg Hs Hrow Ha. pose proof Hg as []. unfold teken_subr_do_scroll.
  rewrite (assertC_true (tp_row (t_cursor t) <=? _)), bind_Ok_l by (apply Z.leb_le; lia).
  rewrite (assertC_true (ts_end _ <=? _)), bind_Ok_l by (apply Z.leb_le; lia).
  rewrite (proj2 (Z.eqb_neq amount 0)) by done. cbn [negb assertC]. rewrite bind_Ok_l.
  destruct (Z.ltb_spec 0 amount); zcase.
  - eapply drawn_bind; [apply copy_drawn; done || lia|]. intros. apply fill_drawn; done || lia.
  - apply fill_drawn; done || lia.
  - eapply drawn_bind; [apply copy_drawn; done || lia|]. intros. apply fill_drawn; done || lia.
  - apply fill_drawn; done || lia.
Qed.

Lemma scroll_good n t s amount :
  tinv t -> hinv (t_winsize t) s -> t_curnum t = n -> amount <> 0 ->
  good n (keep t (teken_subr_do_scroll F t s amount)).
Proof.
  intros Ht Hs Hn Ha. apply keep_good; [done..|].
  destruct (tinv_bounds t Ht) as (? & ? & ? & ? & ?). apply do_scroll_drawn; done || lia.
Qed.
End ops.

Arguments drawn {S} hinv win m.
Arguments good {S} hinv n r.
