(* ===== verification/TekenSafe.v ===== *)
(** * Every operation of the terminal emulator keeps the invariant, and so does
    the input of any bytes. *)

From Stdlib Require Import ZArith Lia.
From stdpp Require Import base option numbers list.
From S2P Require Import Prelude HpackData TekenData TekenSubr TekenState.
From S2P Require Import TekenInv.
#[local] Open Scope Z_scope.

(** The inequalities of the invariant, and the assignments undone. *)
Ltac teken_bounds :=
  match goal with
  | H : tinv ?t |- _ =>
      let Hg := fresh "Hg" in
      destruct (tinv_bounds t H) as (Hg & ? & ? & [? ?] & [? ?]); destruct (id Hg)
  end.

Ltac in_range := unfold pos_in; tproj; split; lia.

Lemma surjective_pos p : p = mk_pos (tp_row p) (tp_col p).
Proof. by destruct p. Qed.

(** The numbers an escape sequence can carry. *)
Definition num_ok (x : Z) : Prop := 0 <= x <= NUM_MAX.
Definition num_pos (x : Z) : Prop := 1 <= x <= NUM_MAX.

Section subr.
Context {S : Type} (F : teken_funcs S) (hinv : teken_pos -> S -> Prop) `{!HooksOk F hinv}.
Context (t : teken) (s : S) (n : Z).
Hypotheses (Ht : tinv t) (Hs : hinv (t_winsize t) s) (Hn : t_curnum t = n).

Lemma clamp_range x hi : 0 <= x -> 0 < hi -> 0 <= clamp x hi < hi.
Proof. intros. unfold clamp. zcase; lia. Qed.

Lemma clamp_ge x lo hi : lo <= x -> lo < hi -> lo <= clamp x hi < hi.
Proof. intros. unfold clamp. zcase; lia. Qed.

Lemma ok_flag_set f : no_origin f -> good hinv n (Ok (setf t f, s)).
Proof. intros. apply good_ok; auto with teken. Qed.

Lemma ok_flag_clr f : no_origin f -> good hinv n (Ok (clrf t f, s)).
Proof. intros. apply good_ok; auto with teken. Qed.

Lemma ok_same : good hinv n (Ok (t, s)).
Proof. by apply good_ok. Qed.

(** *** Cursor movement *)

Lemma goto_row_good x f :
  ts_begin (t_originreg t) <= x < ts_end (t_originreg t) -> no_origin f ->
  good hinv n (moved F (clrf (upd_cursor_row t x) f) s).
Proof.
  intros Hx Hf. teken_bounds. unfold upd_cursor_row. rewrite u16_small by lia.
  apply goto_good; auto with teken; in_range.
Qed.

Lemma goto_col_good x f :
  0 <= x < tp_col (t_winsize t) -> no_origin f ->
  good hinv n (moved F (clrf (upd_cursor_col t x) f) s).
Proof.
  intros Hx Hf. teken_bounds. unfold upd_cursor_col. rewrite u16_small by lia.
  apply goto_good; auto with teken; in_range.
Qed.

Lemma carriage_return_good : good hinv n (teken_subr_carriage_return F t s).
Proof. teken_bounds. apply goto_col_good; [lia|done]. Qed.

Lemma backspace_good : good hinv n (teken_subr_backspace F t s).
Proof.
  unfold teken_subr_backspace. teken_bounds. destruct (has t TS_CONS25).
  - destruct (Z.eqb_spec (tp_col (t_cursor t)) 0);
      [destruct (Z.eqb_spec (tp_row (t_cursor t)) (ts_begin (t_originreg t)))|].
    + apply ok_same.
    + apply moved_good; [done|..]; tproj; [|done..].
      unfold upd_cursor_col, upd_cursor_row. tproj. rewrite !u16_small by lia.
      apply (tinv_upd_cursor (upd_cursor t _) (mk_pos _ _));
        [apply tinv_upd_cursor; [done|]|]; in_range.
    + apply moved_good; [done|..]; [|done..]. unfold upd_cursor_col.
      rewrite u16_small by lia. apply tinv_upd_cursor; [done|]. in_range.
  - zcase; [apply ok_same|]. apply goto_col_good; [lia|done].
Qed.

Lemma cursor_backward_good x : num_pos x -> good hinv n (teken_subr_cursor_backward F t s x).
Proof.
  intros Hx. unfold teken_subr_cursor_backward. teken_bounds.
  zcase; apply goto_col_good; done || unfold num_pos in *; lia.
Qed.

Lemma cursor_forward_good x : num_pos x -> good hinv n (teken_subr_cursor_forward F t s x).
Proof.
  intros Hx. unfold num_pos, NUM_MAX in *. unfold teken_subr_cursor_forward. teken_bounds.
  rewrite u32_small by lia. zcase; apply goto_col_good; done || lia.
Qed.

(** Moving down stops at the last row of the scrolling region, which is in the
    origin region whichever it is. *)
Lemma scroll_in_origin :
  ts_begin (t_originreg t) <= ts_begin (t_scrollreg t) /\
  ts_end (t_scrollreg t) <= ts_end (t_originreg t).
Proof.
  teken_bounds. pose proof (iv_origin t Ht) as Ho. rewrite Ho.
  destruct (has t TS_ORIGIN); simpl; lia.
Qed.

Lemma cursor_down_good x : num_pos x -> good hinv n (teken_subr_cursor_down F t s x).
Proof.
  intros Hx. unfold num_pos, NUM_MAX in *. unfold teken_subr_cursor_down. teken_bounds.
  pose proof scroll_in_origin. rewrite u32_small by lia.
  zcase; apply goto_row_good; done || lia.
Qed.

Lemma cursor_up_good x : num_pos x -> good hinv n (teken_subr_cursor_up F t s x).
Proof.
  intros Hx. unfold num_pos, NUM_MAX in *. unfold teken_subr_cursor_up. teken_bounds.
  pose proof scroll_in_origin. rewrite u32_small by lia.
  zcase; apply goto_row_good; done || lia.
Qed.

Lemma cursor_position_good x y :
  num_pos x -> num_pos y -> good hinv n (teken_subr_cursor_position F t s x y).
Proof.
  intros Hx Hy. unfold num_pos, NUM_MAX in *. unfold teken_subr_cursor_position. teken_bounds.
  rewrite (u32_small (x - 1)), (u32_small (_ + _)), (u32_small (y - 1)) by lia.
  pose proof (clamp_ge (x - 1 + ts_begin (t_originreg t)) (ts_begin (t_originreg t))
    (ts_end (t_originreg t)) ltac:(lia) ltac:(lia)).
  pose proof (clamp_range (y - 1) (tp_col (t_winsize t)) ltac:(lia) ltac:(lia)).
  unfold upd_cursor_col, upd_cursor_row. tproj. rewrite !u16_small by lia.
  apply (goto_good F hinv n t s (mk_pos _ _)); auto with teken; in_range.
Qed.

Lemma horizontal_position_absolute_good x :
  num_pos x -> good hinv n (teken_subr_horizontal_position_absolute F t s x).
Proof.
  intros Hx. unfold num_pos, NUM_MAX in *. teken_bounds.
  unfold teken_subr_horizontal_position_absolute. rewrite u32_small by lia.
  apply goto_col_good; [|done]. apply clamp_range; lia.
Qed.

Lemma vertical_position_absolute_good x :
  num_pos x -> good hinv n (teken_subr_vertical_position_absolute F t s x).
Proof.
  intros Hx. unfold num_pos, NUM_MAX in *. teken_bounds.
  unfold teken_subr_vertical_position_absolute. rewrite (u32_small (x - 1)), u32_small by lia.
  apply goto_row_good; [|done]. apply clamp_ge; lia.
Qed.

Lemma index_good : good hinv n (teken_subr_index F t s).
Proof.
  unfold teken_subr_index. teken_bounds. pose proof scroll_in_origin.
  zcase; [apply goto_row_good; done || lia|]. by apply scroll_good.
Qed.

Lemma reverse_index_good : good hinv n (teken_subr_reverse_index F t s).
Proof.
  unfold teken_subr_reverse_index. teken_bounds. pose proof scroll_in_origin.
  zcase; [apply goto_row_good; done || lia|]. by apply scroll_good.
Qed.

Lemma newline_good : good hinv n (teken_subr_newline F t s).
Proof.
  unfold teken_subr_newline. teken_bounds. pose proof scroll_in_origin.
  unfold upd_cursor_row. tproj. rewrite !u16_small by lia. zcase.
  - destruct (do_scroll_drawn F hinv (upd_cursor t (mk_pos (tp_row (t_cursor t) + 1) (tp_col (t_cursor t)))) s 1)
      as (s' & -> & Hs'); [by constructor; tproj|done|tproj; lia|done|].
    rewrite !bind_Ok_l. cbv beta iota.
    apply (goto_good F hinv n t s' (mk_pos (ts_end (t_scrollreg t) - 1) (tp_col (t_cursor t))));
      auto with teken; in_range.
  - rewrite bind_Ok_l. cbv beta iota.
    pose proof (iv_origin t Ht) as Ho.
    apply (goto_good F hinv n t s (mk_pos (tp_row (t_cursor t) + 1) (tp_col (t_cursor t)))); auto with teken;
    in_range.
Qed.

Lemma newpage_good : good hinv n (teken_subr_newpage F t s).
Proof.
  unfold teken_subr_newpage. teken_bounds. destruct (has t TS_CONS25); [|apply newline_good].
  eapply drawn_then; [apply fill_drawn; done || lia|]. intros s' Hs'.
  apply (goto_good F hinv n t s' (mk_pos _ 0)); auto with teken; in_range.
Qed.

(** *** Drawing without moving *)

Lemma delete_character_good x :
  num_pos x -> good hinv n (keep t (teken_subr_delete_character F t s x)).
Proof.
  intros Hx. unfold num_pos, NUM_MAX in *. teken_bounds. apply keep_good; [done..|].
  unfold teken_subr_delete_character. rewrite u32_small by lia.
  zcase; [apply fill_drawn; done || lia|].
  eapply drawn_bind; [apply copy_drawn; done || lia|]. intros. apply fill_drawn; done || lia.
Qed.

Lemma insert_character_good x :
  num_pos x -> good hinv n (keep t (teken_subr_insert_character F t s x)).
Proof.
  intros Hx. unfold num_pos, NUM_MAX in *. teken_bounds. apply keep_good; [done..|].
  unfold teken_subr_insert_character. rewrite u32_small by lia.
  zcase; [apply fill_drawn; done || lia|].
  eapply drawn_bind; [apply copy_drawn; done || lia|]. intros. apply fill_drawn; done || lia.
Qed.

Lemma erase_character_good x :
  num_pos x -> good hinv n (keep t (teken_subr_erase_character F t s x)).
Proof.
  intros Hx. unfold num_pos, NUM_MAX in *. teken_bounds. apply keep_good; [done..|].
  unfold teken_subr_erase_character. rewrite u32_small by lia.
  zcase; apply fill_drawn; done || lia.
Qed.

Lemma in_scrollreg :
  outside_scrollreg t = false ->
  ts_begin (t_scrollreg t) <= tp_row (t_cursor t) < ts_end (t_scrollreg t).
Proof.
  unfold outside_scrollreg. rewrite orb_false_iff, Z.ltb_ge, Z.leb_gt. lia.
Qed.

Lemma delete_line_good x : num_pos x -> good hinv n (keep t (teken_subr_delete_line F t s x)).
Proof.
  intros Hx. unfold num_pos, NUM_MAX in *. teken_bounds. apply keep_good; [done..|].
  unfold teken_subr_delete_line. destruct (outside_scrollreg t) eqn:E; [by apply drawn_ok|].
  apply in_scrollreg in E. rewrite u32_small by lia.
  zcase; [apply fill_drawn; done || lia|].
  eapply drawn_bind; [apply copy_drawn; done || lia|]. intros. apply fill_drawn; done || lia.
Qed.

Lemma insert_line_good x : num_pos x -> good hinv n (keep t (teken_subr_insert_line F t s x)).
Proof.
  intros Hx. unfold num_pos, NUM_MAX in *. teken_bounds. apply keep_good; [done..|].
  unfold teken_subr_insert_line. destruct (outside_scrollreg t) eqn:E; [by apply drawn_ok|].
  apply in_scrollreg in E. rewrite u32_small by lia.
  zcase; [apply fill_drawn; done || lia|].
  eapply drawn_bind; [apply copy_drawn; done || lia|]. intros. apply fill_drawn; done || lia.
Qed.

Lemma erase_line_drawn mode : drawn hinv (t_winsize t) (teken_subr_erase_line F t s mode).
Proof.
  unfold teken_subr_erase_line. teken_bounds. repeat zcase; apply fill_drawn; done || lia.
Qed.

Lemma pan_good x : num_pos x ->
  good hinv n (keep t (teken_subr_pan_down F t s x)) /\
  good hinv n (keep t (teken_subr_pan_up F t s x)).
Proof.
  intros Hx. unfold num_pos, NUM_MAX in *. unfold teken_subr_pan_down, teken_subr_pan_up.
  rewrite wraps_small by lia. split; apply scroll_good; auto; lia.
Qed.

Lemma do_cpr_respond cmd pre :
  drawn hinv (t_winsize t)
    match teken_subr_do_cpr t cmd with
    | None => Ok s
    | Some r => teken_funcs_respond F t s (pre ++ r)
    end.
Proof. destruct (teken_subr_do_cpr t cmd); [by apply respond_drawn|by apply drawn_ok]. Qed.

Lemma attributes_drawn (request : Z) buf :
  drawn hinv (t_winsize t)
    (if request =? 0 then teken_funcs_respond F t s buf else Ok s).
Proof. zcase; [by apply respond_drawn|by apply drawn_ok]. Qed.
End subr.

Section subr2.
Context {S : Type} (F : teken_funcs S) (hinv : teken_pos -> S -> Prop) `{!HooksOk F hinv}.

Lemma erase_display_drawn t s mode :
  tinv t -> hinv (t_winsize t) s -> drawn hinv (t_winsize t) (teken_subr_erase_display F t s mode).
Proof.
  intros Ht Hs. unfold teken_subr_erase_display. teken_bounds.
  destruct (mode =? 1); [|destruct (mode =? 2)].
  - eapply drawn_bind; [by apply erase_line_drawn|]. intros s' Hs'.
    zcase; [by apply drawn_ok|]. apply fill_drawn; done || lia.
  - apply fill_drawn; done || lia.
  - eapply drawn_bind; [by apply erase_line_drawn|]. intros s' Hs'.
    zcase; [by apply drawn_ok|]. apply fill_drawn; done || lia.
Qed.

Lemma alignment_test_good n t s :
  tinv t -> hinv (t_winsize t) s -> t_curnum t = n -> good hinv n (teken_subr_alignment_test F t s).
Proof.
  intros Ht Hs Hn. teken_bounds. unfold teken_subr_alignment_test.
  set (t' := clrf _ _). assert (tinv t') as Ht'.
  { destruct Ht as [[]]. constructor; try done; [constructor; subst t'; tproj; lia|subst t'; in_range|].
    subst t'. by rewrite has_origin_clear. }
  eapply drawn_then; [apply (cursor_drawn F hinv t'); subst t'; tproj; done || lia|].
  intros s' Hs'. apply keep_good; [done..|].
  pose proof (funcs_fill_drawn F hinv t' s' 0 0 (tp_row (t_winsize t)) (tp_col (t_winsize t))
    69 (t_defattr t)) as Hfill.
  rewrite <- surjective_pos in Hfill. apply Hfill; subst t'; tproj; done || lia.
Qed.

(** *** Tab stops *)

Lemma tab_word t col : tinv t -> 0 <= col < T_NUMCOL ->
  (Z.to_nat (col `div` 32) < length (t_tabstops t))%nat.
Proof.
  intros Ht Hcol. rewrite (iv_tabs t Ht). unfold T_NUMCOL in *.
  assert (col `div` 32 < 5) by (apply Z.div_lt_upper_bound; lia). lia.
Qed.

Lemma tab_isset_ok t col : tinv t -> 0 <= col -> exists b, teken_tab_isset t col = Ok b.
Proof.
  intros Ht Hcol. unfold teken_tab_isset. destruct (Z.leb_spec T_NUMCOL col); [by eexists|].
  destruct (readC_lt (t_tabstops t) (Z.to_nat (col `div` 32))) as (w & _ & ->);
    [by apply tab_word|by eexists].
Qed.

Lemma tab_set_ok t col : tinv t -> 0 <= col ->
  exists t', teken_tab_set t col = Ok t' /\ tinv t' /\ t_winsize t' = t_winsize t /\
    t_curnum t' = t_curnum t.
Proof.
  intros Ht Hcol. unfold teken_tab_set. destruct (Z.leb_spec T_NUMCOL col); [by exists t|].
  pose proof (tab_word t col Ht ltac:(lia)) as Hw.
  destruct (readC_lt _ _ Hw) as (w & _ & ->). rewrite bind_Ok_l, writeC_lt, bind_Ok_l by done.
  eexists. split_and!; [done| |done..]. apply tinv_upd_tabstops; [|done].
  by rewrite length_insert, iv_tabs.
Qed.

Lemma tab_clear_ok t col : tinv t -> 0 <= col ->
  exists t', teken_tab_clear t col = Ok t' /\ tinv t' /\ t_winsize t' = t_winsize t /\
    t_curnum t' = t_curnum t.
Proof.
  intros Ht Hcol. unfold teken_tab_clear. destruct (Z.leb_spec T_NUMCOL col); [by exists t|].
  pose proof (tab_word t col Ht ltac:(lia)) as Hw.
  destruct (readC_lt _ _ Hw) as (w & _ & ->). rewrite bind_Ok_l, writeC_lt, bind_Ok_l by done.
  eexists. split_and!; [done| |done..]. apply tinv_upd_tabstops; [|done].
  by rewrite length_insert, iv_tabs.
Qed.

(** What a tabulation may change: the column. *)
Definition same_but_cursor t t' : Prop :=
  tinv t' /\ t_winsize t' = t_winsize t /\ t_curnum t' = t_curnum t.

Lemma backward_tabs_ok fuel t ntabs :
  tinv t -> tp_col (t_cursor t) < Z.of_nat fuel ->
  exists t', backward_tabs fuel t ntabs = Ok t' /\ same_but_cursor t t'.
Proof.
  revert t ntabs. induction fuel as [|fuel IH]; intros t ntabs Ht Hf; teken_bounds; [lia|].
  cbn [backward_tabs]. zcase; [by exists t|].
  set (t1 := upd_cursor_col t _).
  assert (tp_col (t_cursor t1) = tp_col (t_cursor t) - 1) as Hc
    by (subst t1; tproj; apply u16_small; lia).
  assert (tinv t1) as Ht1.
  { subst t1. unfold upd_cursor_col. rewrite u16_small by lia.
    apply tinv_upd_cursor; [done|]. in_range. }
  destruct (tab_isset_ok t1 (tp_col (t_cursor t1)) Ht1 ltac:(lia)) as (b & ->).
  rewrite bind_Ok_l. cbv zeta.
  destruct (0 <? _); [|by exists t1].
  destruct (IH t1 (if b then u32 (ntabs - 1) else ntabs) Ht1 ltac:(lia)) as (t' & -> & Hsame).
  exists t'. done.
Qed.

Lemma forward_tabs_ok fuel t ntabs :
  tinv t -> tp_col (t_winsize t) - tp_col (t_cursor t) <= Z.of_nat fuel ->
  exists t', forward_tabs fuel t ntabs = Ok t' /\ same_but_cursor t t'.
Proof.
  revert t ntabs. induction fuel as [|fuel IH]; intros t ntabs Ht Hf; teken_bounds; [lia|].
  cbn [forward_tabs]. zcase; [by exists t|].
  set (t1 := upd_cursor_col t _).
  assert (tp_col (t_cursor t1) = tp_col (t_cursor t) + 1) as Hc
    by (subst t1; tproj; apply u16_small; lia).
  assert (tinv t1) as Ht1.
  { subst t1. unfold upd_cursor_col. rewrite u16_small by lia.
    apply tinv_upd_cursor; [done|]. in_range. }
  destruct (tab_isset_ok t1 (tp_col (t_cursor t1)) Ht1 ltac:(lia)) as (b & ->).
  rewrite bind_Ok_l. cbv zeta.
  destruct (0 <? _); [|by exists t1].
  destruct (IH t1 (if b then u32 (ntabs - 1) else ntabs) Ht1) as (t' & -> & Hsame).
  { rewrite Hc. subst t1. tproj. lia. }
  exists t'. done.
Qed.

Lemma tabulation_good n t s x :
  tinv t -> hinv (t_winsize t) s -> t_curnum t = n ->
  good hinv n (teken_subr_cursor_backward_tabulation F t s x) /\
  good hinv n (teken_subr_cursor_forward_tabulation F t s x).
Proof.
  intros Ht Hs Hn. teken_bounds. unfold teken_subr_cursor_backward_tabulation.
  unfold teken_subr_cursor_forward_tabulation. split.
  - destruct (backward_tabs_ok (Datatypes.S (Z.to_nat (tp_col (t_cursor t)))) t x Ht)
      as (t' & -> & Ht' & Hw & Hc); [lia|]. rewrite bind_Ok_l.
    apply moved_good; [done|done|by rewrite Hw|congruence].
  - destruct (forward_tabs_ok (Z.to_nat (tp_col (t_winsize t) - tp_col (t_cursor t))) t x Ht)
      as (t' & -> & Ht' & Hw & Hc); [lia|]. rewrite bind_Ok_l.
    apply moved_good; [done|done|by rewrite Hw|congruence].
Qed.
End subr2.

(** ** Resets *)

(** A tab stop every eight columns, but none in column 0. *)
Definition default_tabs : list Z := [0x01010100; 0x01010101; 0x01010101; 0x01010101; 0x01010101].

Lemma tab_default_eq t : teken_tab_default t = Ok (upd_tabstops t default_tabs).
Proof. vm_compute. reflexivity. Qed.

(** The terminal [teken_subr_do_reset] leaves. *)
Definition reset_state (t : teken) : teken :=
  mk_teken (t_nextstate t)
    (Z.lor (Z.land (t_stateflags t) (Z.lor TS_8BIT TS_CONS25)) TS_AUTOWRAP)
    (t_nums t) (t_curnum t) (mk_pos 0 0) (t_defattr t) (mk_pos 0 0) (t_defattr t) (t_defattr t)
    (t_winsize t) (whole t) (whole t) default_tabs (t_utf8_left t) (t_utf8_partial t) (t_last t)
    0 teken_scs_us_ascii [teken_scs_us_ascii; teken_scs_us_ascii].

Lemma do_reset_eq t : teken_subr_do_reset t = Ok (reset_state t).
Proof.
  unfold teken_subr_do_reset, teken_subr_save_cursor. cbv zeta.
  change (t_scs (upd_curscs _ 0)) with [teken_scs_us_ascii; teken_scs_us_ascii].
  change (t_curscs (upd_curscs _ 0)) with 0.
  change (readC _ (Z.to_nat 0)) with (Ok teken_scs_us_ascii).
  rewrite !bind_Ok_l, tab_default_eq. reflexivity.
Qed.

(** A window and numbers a terminal can be reset with. *)
Record resettable (t : teken) : Prop := {
  rs_row : 1 <= tp_row (t_winsize t) <= 65535;
  rs_col : 3 <= tp_col (t_winsize t) <= 65535;
  rs_nums : length (t_nums t) = 8%nat /\ Forall (fun n => 0 <= n <= NUM_MAX) (t_nums t);
  rs_curnum : 0 <= t_curnum t <= 8
}.

Lemma tinv_resettable t : tinv t -> resettable t.
Proof. intros [[]]. by constructor. Qed.

Lemma reset_tinv t : resettable t -> tinv (reset_state t).
Proof.
  intros []. unfold reset_state. constructor; try done.
  - constructor; unfold whole; tproj; lia.
  - unfold whole. in_range.
  - in_range.
  - rewrite has_origin. tproj. rewrite Z.lor_spec, Z.land_spec.
    change (Z.testbit (Z.lor TS_8BIT TS_CONS25) 3) with false.
    by rewrite andb_false_r.
Qed.

Lemma set_winsize_eq t p : exists t',
  teken_set_winsize t p = Ok (reset_state t') /\ t_winsize t' = p /\ t_nums t' = t_nums t /\
  t_curnum t' = t_curnum t /\ t_nextstate t' = t_nextstate t.
Proof.
  exists (upd_winsize (teken_trim_cursor_pos t p) p). unfold teken_set_winsize.
  rewrite do_reset_eq. unfold teken_trim_cursor_pos.
  split_and!; try done; by repeat case_match.
Qed.

(** A new window of three columns or more. *)
Lemma set_winsize_ok t p :
  tinv t -> 1 <= tp_row p <= 65535 -> 3 <= tp_col p <= 65535 ->
  exists t', teken_set_winsize t p = Ok t' /\ tinv t' /\ t_winsize t' = p /\
    t_curnum t' = t_curnum t.
Proof.
  intros Ht Hr Hc. destruct (set_winsize_eq t p) as (t' & -> & Hw & Hnu & Hcn & _).
  exists (reset_state t'). split_and!; [done| |done|done].
  apply reset_tinv. constructor; rewrite ?Hw, ?Hnu, ?Hcn; [done|done|apply Ht..].
Qed.

(** The row below is in the origin region, unless it is below the scrolling
    region or the window. *)
Lemma next_row t :
  tinv t -> tp_row (t_cursor t) <> ts_end (t_scrollreg t) - 1 ->
  tp_row (t_cursor t) + 1 < ts_end (t_originreg t) \/
  tp_row (t_cursor t) + 1 = tp_row (t_winsize t).
Proof.
  intros Ht Hne. teken_bounds. pose proof (iv_origin t Ht) as Ho.
  destruct (has t TS_ORIGIN); rewrite Ho in *; tproj; lia.
Qed.

Section print.
Context {S : Type} (F : teken_funcs S) (hinv : teken_pos -> S -> Prop) `{!HooksOk F hinv}.

(** *** Printing *)

Lemma do_putchar_good n t s p c width :
  tinv t -> hinv (t_winsize t) s -> t_curnum t = n ->
  0 <= tp_row p < tp_row (t_winsize t) -> 0 <= tp_col p < tp_col (t_winsize t) ->
  1 <= width <= 2 ->
  exists s', teken_subr_do_putchar F t s p c width = Ok (upd_last t c, s') /\
    hinv (t_winsize t) s'.
Proof.
  intros Ht Hs Hn Hr Hc Hw. teken_bounds. unfold teken_subr_do_putchar. cbv zeta.
  assert (geom (upd_last t c)) as Hgl by (apply iv_geom; auto with teken).
  destruct (drawn_bind hinv (t_winsize t) (putchar_insert F (upd_last t c) s p width)
    (fun s => putchar_draw F (upd_last t c) s p c width)) as (s' & He & Hs').
  - unfold putchar_insert. tproj. destruct (has _ _); simpl andb; [|by apply drawn_ok].
    destruct (Z.ltb_spec (tp_col p) (tp_col (t_winsize t) - width)); [|by apply drawn_ok].
    apply (copy_drawn F hinv (upd_last t c)); tproj; done || lia.
  - intros s1 Hs1. unfold putchar_draw.
    eapply drawn_bind; [by apply (putchar_drawn F hinv (upd_last t c))|].
    intros s2 Hs2. tproj. destruct (width =? 2); simpl andb; [|by apply drawn_ok].
    destruct (Z.ltb_spec (tp_col p + 1) (tp_col (t_winsize t))); [|by apply drawn_ok].
    rewrite u16_small by lia.
    apply (putchar_drawn F hinv (upd_last t c)); tproj; done || lia.
  - exists s'. split; [|done]. unfold keep.
    destruct (putchar_insert F (upd_last t c) s p width); [|done].
    rewrite bind_Ok_l in He. by rewrite bind_Ok_l, He.
Qed.

Lemma print_at_good n t s row c width :
  tinv t -> hinv (t_winsize t) s -> t_curnum t = n ->
  ts_begin (t_originreg t) <= row < ts_end (t_originreg t) -> 1 <= width <= 2 ->
  good hinv n (print_at F t s row c width).
Proof.
  intros Ht Hs Hn Hr Hw. teken_bounds. unfold print_at.
  destruct (do_putchar_good n t s (mk_pos row 0) c width) as (s' & -> & Hs'); tproj; try lia; [done..|].
  rewrite bind_Ok_l. cbv beta iota zeta. rewrite u16_small by lia.
  apply (goto_good F hinv n (upd_last t c) s' (mk_pos row width)); auto with teken; in_range.
Qed.

Lemma print_wrap_good n t s c width :
  tinv t -> hinv (t_winsize t) s -> t_curnum t = n -> 1 <= width <= 2 ->
  good hinv n (print_wrap F t s c width).
Proof.
  intros Ht Hs Hn Hw. unfold print_wrap. pose proof (scroll_in_origin t Ht). teken_bounds.
  destruct (Z.eqb_spec (tp_row (t_cursor t)) (ts_end (t_scrollreg t) - 1)).
  - eapply drawn_then; [apply do_scroll_drawn; done || lia|]. intros s' Hs'.
    rewrite u16_small by lia. apply print_at_good; done || lia.
  - rewrite u16_small by lia. zcase.
    + destruct (do_putchar_good n t s (t_cursor t) c width) as (s' & -> & Hs'); [done|done|done|lia|done|done|].
      apply good_ok; auto with teken.
    + apply print_at_good; try done. pose proof (next_row t Ht ltac:(done)). lia.
Qed.

Lemma print_here_good n t s c width :
  tinv t -> hinv (t_winsize t) s -> t_curnum t = n -> 1 <= width <= 2 ->
  good hinv n (print_here F t s c width).
Proof.
  intros Ht Hs Hn Hw. unfold print_here. teken_bounds.
  destruct (do_putchar_good n t s (t_cursor t) c width) as (s' & -> & Hs'); [done|done|done|lia|done|done|].
  rewrite bind_Ok_l. cbv beta iota zeta. unfold upd_cursor_col. tproj.
  destruct (Z.leb_spec (tp_col (t_winsize t)) (u16 (tp_col (t_cursor t) + width))) as [Hle|Hlt].
  - apply moved_good; [done| |done|done].
    rewrite (u16_small (tp_col (t_winsize t) - 1)) by lia.
    apply (tinv_upd_cursor (setf (upd_last t c) TS_WRAPPED) (mk_pos _ _)); auto with teken.
    in_range.
  - assert (0 <= u16 (tp_col (t_cursor t) + width)) by by apply wrapu_range.
    apply (goto_good F hinv n (upd_last t c) s' (mk_pos _ _)); auto with teken; in_range.
Qed.

Lemma print_cons25_good n t s c width :
  tinv t -> hinv (t_winsize t) s -> t_curnum t = n -> 1 <= width <= 2 ->
  good hinv n (print_cons25 F t s c width).
Proof.
  intros Ht Hs Hn Hw. unfold print_cons25. pose proof (scroll_in_origin t Ht). teken_bounds.
  destruct (do_putchar_good n t s (t_cursor t) c width) as (s' & -> & Hs'); [done|done|done|lia|done|done|].
  rewrite bind_Ok_l. cbv beta iota zeta. unfold upd_cursor_col, upd_cursor_row. tproj.
  assert (0 <= u16 (tp_col (t_cursor t) + width)) by by apply wrapu_range.
  destruct (Z.leb_spec (tp_col (t_winsize t)) (u16 (tp_col (t_cursor t) + width))) as [Hle|Hlt].
  - destruct (Z.eqb_spec (tp_row (t_cursor t)) (ts_end (t_scrollreg t) - 1)) as [He|Hne].
    + unfold keep.
      destruct (do_scroll_drawn F hinv (upd_cursor (upd_last t c)
        (mk_pos (tp_row (t_cursor t)) (u16 (tp_col (t_cursor t) + width)))) s' 1)
        as (s2 & -> & Hs2); [by constructor; tproj|done|tproj; lia|done|].
      rewrite !bind_Ok_l. cbv beta iota. apply moved_good; [done| |done|done].
      rewrite (u16_small 0) by lia.
      apply (tinv_upd_cursor (upd_last t c) (mk_pos _ _)); auto with teken; in_range.
    + destruct (Z.ltb_spec (tp_row (t_cursor t)) (tp_row (t_winsize t) - 1)).
      * rewrite bind_Ok_l. cbv beta iota. tproj. apply moved_good; [done| |done|done].
        rewrite (u16_small 0), (u16_small (_ + 1)) by lia. pose proof (next_row t Ht Hne).
        apply (tinv_upd_cursor (upd_last t c) (mk_pos _ _)); auto with teken; in_range.
      * rewrite bind_Ok_l. cbv beta iota. tproj. apply moved_good; [done| |done|done].
        rewrite (u16_small 0) by lia.
        apply (tinv_upd_cursor (upd_last t c) (mk_pos _ _)); auto with teken; in_range.
  - apply moved_good; [done| |done|done].
    apply (tinv_upd_cursor (upd_last t c) (mk_pos _ _)); auto with teken; in_range.
Qed.

Lemma scs_call_ok t f c : exists x, scs_call f t c = Ok x.
Proof.
  destruct f; simpl; [by eexists..|].
  destruct (Z.leb_spec 96 c); [|by eexists]. destruct (Z.leb_spec c 126); [|by eexists]. simpl.
  destruct (has t TS_8BIT).
  - destruct (readC_lt teken_boxdrawing_8bit (Z.to_nat (c - 96))) as (x & _ & ->); [|by eexists].
    change (length teken_boxdrawing_8bit) with 31%nat. lia.
  - destruct (readC_lt teken_boxdrawing_unicode (Z.to_nat (c - 96))) as (x & _ & ->); [|by eexists].
    change (length teken_boxdrawing_unicode) with 31%nat. lia.
Qed.

Lemma scs_process_ok t c : tinv t -> exists x, teken_scs_process t c = Ok x.
Proof.
  intros Ht. destruct (iv_scs t Ht) as [Hl Hc]. unfold teken_scs_process.
  destruct (readC_lt (t_scs t) (Z.to_nat (t_curscs t))) as (f & _ & ->); [lia|].
  apply scs_call_ok.
Qed.

Lemma char_width_ok t c : tinv t ->
  exists r, char_width t c = Ok r /\
    match r with Some (_, width) => 1 <= width <= 2 | None => True end.
Proof.
  intros Ht. unfold char_width. destruct (scs_process_ok t c Ht) as (x & ->).
  destruct (has t TS_8BIT).
  - destruct (_ && _); [by eexists|]. eexists. split; [done|]. simpl. lia.
  - rewrite bind_Ok_l, teken_wcwidth_ref, bind_Ok_l. pose proof (width_ref_range x).
    zcase; eexists; (split; [done|]); simpl; [done|lia].
Qed.

Lemma regular_character_good n t s c :
  tinv t -> hinv (t_winsize t) s -> t_curnum t = n ->
  good hinv n (teken_subr_regular_character F t s c).
Proof.
  intros Ht Hs Hn. unfold teken_subr_regular_character.
  destruct (char_width_ok t c Ht) as ([[x width]|] & -> & Hw); rewrite bind_Ok_l; [|by apply good_ok].
  destruct (has t TS_CONS25); [by apply print_cons25_good|].
  destruct (must_wrap t width); [by apply print_wrap_good|by apply print_here_good].
Qed.

Lemma repeat_good n rpts t s :
  tinv t -> hinv (t_winsize t) s -> t_curnum t = n -> good hinv n (repeat_loop F rpts t s).
Proof.
  revert t s. induction rpts as [|rpts IH]; intros t s Ht Hs Hn; cbn [repeat_loop];
    [by apply good_ok|].
  destruct (truth (t_last t)); [|by apply good_ok].
  eapply good_bind; [by apply regular_character_good|]. intros t' s' Ht' Hs' Hn'. by apply IH.
Qed.
End print.

(** A terminal that differs in its attributes only. *)
Definition attr_only (t t' : teken) : Prop :=
  exists a d, t' = upd_defattr (upd_curattr t a) d.

Lemma attr_only_refl t : attr_only t t.
Proof. exists (t_curattr t), (t_defattr t). by destruct t. Qed.

Lemma attr_only_cur t t' a : attr_only t t' -> attr_only t (upd_curattr t' a).
Proof. intros (a' & d & ->). by exists a, d. Qed.

Lemma attr_only_def t t' d : attr_only t t' -> attr_only t (upd_defattr t' d).
Proof. intros (a' & d' & ->). by exists a', d. Qed.

Lemma attr_only_good {S} (hinv : teken_pos -> S -> Prop) n t t' s :
  tinv t -> hinv (t_winsize t) s -> t_curnum t = n -> attr_only t t' -> good hinv n (Ok (t', s)).
Proof. intros Ht Hs Hn (a & d & ->). apply good_ok; auto with teken. Qed.

#[export] Hint Resolve attr_only_refl attr_only_cur attr_only_def : teken.

Lemma sgr_one_attr t0 t x : attr_only t0 t -> attr_only t0 (sgr_one t x).
Proof.
  intros H. unfold sgr_one, add_format, del_format, set_format, set_fgcolor, set_bgcolor.
  repeat case_match; auto with teken.
Qed.

Lemma sgr_loop_ok fuel t0 t ncmds cmds i :
  attr_only t0 t -> 0 <= i -> ncmds <= Z.of_nat (length cmds) ->
  exists t', sgr_loop fuel t ncmds cmds i = Ok t' /\ attr_only t0 t'.
Proof.
  revert t i. induction fuel as [|fuel IH]; intros t i Hat Hi Hn; cbn [sgr_loop]; [by exists t|].
  destruct (Z.leb_spec ncmds i); [by exists t|].
  destruct (readC_lt cmds (Z.to_nat i)) as (x & _ & ->); [lia|]. rewrite bind_Ok_l.
  destruct (_ || _); [|apply IH; [by apply sgr_one_attr|lia|done]].
  destruct (Z.leb_spec ncmds (i + 2)); [apply IH; done || lia|].
  destruct (readC_lt cmds (Z.to_nat (i + 1))) as (y & _ & ->); [lia|]. rewrite bind_Ok_l.
  destruct (negb _); [apply IH; done || lia|].
  destruct (readC_lt cmds (Z.to_nat (i + 2))) as (z & _ & ->); [lia|]. rewrite bind_Ok_l.
  apply IH; [|lia|done]. destruct (x =? 38); unfold set_fgcolor, set_bgcolor; auto with teken.
Qed.

Lemma cons25_color_ok c : 0 <= c -> exists x, cons25_color c = Ok x.
Proof.
  intros Hc. unfold cons25_color.
  destruct (readC_lt cons25_colors (Z.to_nat (c `mod` 8))) as (x & _ & ->); [|by eexists].
  pose proof (Z.mod_pos_bound c 8). change (length cons25_colors) with 8%nat. lia.
Qed.

Lemma cursor_shape_code_ok i cmds code :
  (i <= length cmds)%nat -> exists x, cursor_shape_code i cmds code = Ok x.
Proof.
  revert code. induction i as [|i IH]; intros code Hi; cbn [cursor_shape_code]; [by eexists|].
  destruct (readC_lt cmds i) as (x & _ & ->); [lia|]. rewrite bind_Ok_l. apply IH. lia.
Qed.

Lemma reset_to_initial_state_good {S} (F : teken_funcs S) hinv `{!HooksOk F hinv} n t s :
  tinv t -> hinv (t_winsize t) s -> t_curnum t = n ->
  good hinv n (teken_subr_reset_to_initial_state F t s).
Proof.
  intros Ht Hs Hn. unfold teken_subr_reset_to_initial_state. rewrite do_reset_eq, bind_Ok_l.
  pose proof (reset_tinv t (tinv_resettable t Ht)) as Hr.
  eapply drawn_then; [by apply erase_display_drawn|]. intros s1 Hs1.
  eapply good_bind; [by apply param_good|].
  intros t' s' Ht' Hs' Hn'. by apply moved_good.
Qed.

Section modes.
Context {S : Type} (F : teken_funcs S) (hinv : teken_pos -> S -> Prop) `{!HooksOk F hinv}.
Context (t : teken) (s : S) (n : Z).
Hypotheses (Ht : tinv t) (Hs : hinv (t_winsize t) s) (Hn : t_curnum t = n).

(** *** Modes *)

Lemma home_origin_good :
  good hinv n (moved F (home (upd_originreg (clrf t TS_ORIGIN) (whole t)) 0) s).
Proof.
  teken_bounds. apply moved_good; [done| |done|done]. unfold home.
  destruct Ht as [[]]. constructor; try done; [in_range|].
  rewrite has_origin_clrf by done.
  change (has (upd_cursor (upd_originreg (clrf t TS_ORIGIN) _) _) TS_ORIGIN)
    with (has (clrf t TS_ORIGIN) TS_ORIGIN).
  by rewrite has_origin_clear.
Qed.

Lemma enter_origin_good :
  good hinv n (moved F (home (upd_originreg (setf t TS_ORIGIN) (t_scrollreg t))
    (ts_begin (t_scrollreg t))) s).
Proof.
  teken_bounds. apply moved_good; [done| |done|done]. unfold home.
  destruct Ht as [[]]. constructor; try done; [in_range|].
  rewrite has_origin_clrf by done.
  change (has (upd_cursor (upd_originreg (setf t TS_ORIGIN) _) _) TS_ORIGIN)
    with (has (setf t TS_ORIGIN) TS_ORIGIN).
  by rewrite has_origin_set.
Qed.

(** Switching to 80 or 132 columns. *)
Lemma columns_good v :
  good hinv n ('(t, s) ← teken_funcs_param F t s TP_132COLS v;
               teken_subr_reset_to_initial_state F t s).
Proof.
  eapply good_bind; [by apply param_good|]. intros t' s' Ht' Hs' Hn'.
  by apply reset_to_initial_state_good.
Qed.

Lemma reset_dec_mode_good x : good hinv n (teken_subr_reset_dec_mode F t s x).
Proof.
  unfold teken_subr_reset_dec_mode.
  destruct (x =? 1); [by apply ok_flag_clr|]. destruct (x =? 3); [apply columns_good|].
  destruct (x =? 6); [apply home_origin_good|]. destruct (x =? 7); [by apply ok_flag_clr|].
  repeat (destruct (x =? _); [by apply param_good|]). by apply ok_same.
Qed.

Lemma set_dec_mode_good x : good hinv n (teken_subr_set_dec_mode F t s x).
Proof.
  unfold teken_subr_set_dec_mode.
  destruct (x =? 1); [by apply ok_flag_set|]. destruct (x =? 3); [apply columns_good|].
  destruct (x =? 6); [apply enter_origin_good|]. destruct (x =? 7); [by apply ok_flag_set|].
  repeat (destruct (x =? _); [by apply param_good|]). by apply ok_same.
Qed.

Lemma restore_cursor_good : good hinv n (teken_subr_restore_cursor F t s).
Proof.
  unfold teken_subr_restore_cursor. cbv zeta. tproj.
  destruct (iv_scs t Ht) as [Hl Hc]. rewrite writeC_lt, bind_Ok_l by lia.
  set (l := <[_ := _]> _). assert (length l = 2%nat) as Hl' by (subst l; by rewrite length_insert).
  teken_bounds. destruct (iv_saved t Ht) as [? ?]. tproj.
  destruct (_ || _) eqn:E; apply moved_good; try done.
  - destruct Ht as [[]]. constructor; try done.
    change (has (upd_originreg ?t' _) TS_ORIGIN) with (has t' TS_ORIGIN).
    by rewrite has_origin_clear.
  - rewrite orb_false_iff, Z.ltb_ge, Z.leb_gt in E.
    apply tinv_clrf; [done|]. apply tinv_upd_scs; [done|]. apply tinv_upd_curattr.
    apply tinv_upd_cursor; [done|]. in_range.
Qed.

Lemma save_cursor_good : good hinv n (t ← teken_subr_save_cursor t; Ok (t, s)).
Proof.
  unfold teken_subr_save_cursor. destruct (iv_scs t Ht) as [Hl Hc]. teken_bounds.
  destruct (readC_lt (t_scs t) (Z.to_nat (t_curscs t))) as (f & _ & ->); [lia|].
  rewrite !bind_Ok_l. apply good_ok; [|done|done].
  destruct Ht as [[]]. constructor; try done. in_range.
Qed.

(** The margins the code computes are inside the window. *)
Lemma margins_good x y :
  num_ok x -> num_ok y -> good hinv n (teken_subr_set_top_and_bottom_margins F t s x y).
Proof.
  intros Hx Hy. unfold num_ok, NUM_MAX in *. teken_bounds.
  unfold teken_subr_set_top_and_bottom_margins.
  set (top0 := if 0 <? x then x - 1 else x). set (wrow := tp_row (t_winsize t)) in *.
  set (bot0 := if (y =? 0) || (wrow <? y) then wrow else y).
  assert (0 <= top0) by (subst top0; zcase; lia).
  assert (1 <= bot0 <= wrow) as Hbot.
  { subst bot0. destruct (Z.eqb_spec y 0); simpl; [lia|]. zcase; lia. }
  rewrite u32_small by lia.
  destruct (if bot0 - 1 <=? top0 then (0, wrow) else (top0, bot0)) as [top bot] eqn:E.
  assert (0 <= top /\ top < bot <= wrow) as [? ?] by (destruct (Z.leb_spec (bot0 - 1) top0); injection E as <- <-; lia).
  rewrite !u16_small by lia. unfold home.
  set (t1 := upd_scrollreg t (mk_span top bot)).
  change (has t1 TS_ORIGIN) with (has t TS_ORIGIN).
  pose proof (iv_origin t Ht) as Ho.
  apply moved_good; [done| |by destruct (has t TS_ORIGIN)|by destruct (has t TS_ORIGIN)].
  destruct (has t TS_ORIGIN) eqn:Eo; subst t1 wrow; destruct Ht as [[]];
    (constructor; try done; [in_range|]);
    rewrite has_origin_clrf by done; unfold has in *; tproj; by rewrite Eo.
Qed.

Lemma tab_clear_good x : good hinv n (teken_subr_tab_clear t s x).
Proof.
  unfold teken_subr_tab_clear. teken_bounds. zcase.
  - destruct (tab_clear_ok t (tp_col (t_cursor t)) Ht) as (t' & -> & Ht' & Hw & Hc); [lia|].
    rewrite bind_Ok_l. apply good_ok; [done|by rewrite Hw|congruence].
  - zcase; [|by apply ok_same]. apply good_ok; [|done|done]. by apply tinv_upd_tabstops.
Qed.

Lemma horizontal_tab_set_good : good hinv n (teken_subr_horizontal_tab_set t s).
Proof.
  unfold teken_subr_horizontal_tab_set. teken_bounds.
  destruct (tab_set_ok t (tp_col (t_cursor t)) Ht) as (t' & -> & Ht' & Hw & Hc); [lia|].
  rewrite bind_Ok_l. apply good_ok; [done|by rewrite Hw|congruence].
Qed.

Lemma set_scs_good k f : (k < 2)%nat -> good hinv n (set_scs t s k f).
Proof.
  intros Hk. unfold set_scs. destruct (iv_scs t Ht) as [Hl _].
  rewrite writeC_lt, bind_Ok_l by lia. apply good_ok; [|done|done].
  apply tinv_upd_scs; [by rewrite length_insert|done].
Qed.

Lemma set_graphic_rendition_good :
  good hinv n (teken_subr_set_graphic_rendition t s (t_curnum t) (t_nums t)).
Proof.
  unfold teken_subr_set_graphic_rendition.
  destruct (iv_nums t Ht) as [Hl _]. destruct (iv_curnum t Ht) as [? ?].
  destruct (_ =? 0); [eapply attr_only_good; eauto with teken|].
  destruct (sgr_loop_ok (Z.to_nat (t_curnum t)) t t (t_curnum t) (t_nums t) 0)
    as (t' & -> & Hat); [apply attr_only_refl|lia|lia|].
  rewrite bind_Ok_l. by eapply attr_only_good.
Qed.

Lemma cursor_shape_good :
  good hinv n (teken_subr_cons25_set_global_cursor_shape F t s (t_curnum t) (t_nums t)).
Proof.
  unfold teken_subr_cons25_set_global_cursor_shape. destruct (iv_nums t Ht) as [Hl _].
  zcase; [by apply ok_same|].
  destruct (cursor_shape_code_ok (Z.to_nat (t_curnum t)) (t_nums t) 0) as (x & ->); [lia|].
  rewrite bind_Ok_l. by apply param_good.
Qed.

Lemma cons25_default_good x : 0 <= x ->
  good hinv n (teken_subr_cons25_set_default_background t s x) /\
  good hinv n (teken_subr_cons25_set_default_foreground t s x).
Proof.
  intros Hx. destruct (cons25_color_ok x Hx) as (c & Hc).
  unfold teken_subr_cons25_set_default_background, teken_subr_cons25_set_default_foreground.
  rewrite Hc, !bind_Ok_l.
  split; (eapply attr_only_good; [done|done|done|]);
    unfold set_bgcolor, set_defbg, set_fgcolor, set_deffg; auto with teken.
Qed.
End modes.
