(* ===== verification/TekenInput.v ===== *)
(** * The input functions of teken.c on any bytes.

    The numbers a sequence carries, the calls of the state functions, and the
    theorem that the input of any bytes keeps the invariant of TekenInv.v:
    no assertion fails, no array is read or written out of range, and the
    drawing routines are only called inside the window.  Then what the UTF-8
    decoder and the escape sequence parser compute. *)

From Stdlib Require Import ZArith Lia String.
From stdpp Require Import base option numbers list.
From S2P Require Import Prelude HpackData TekenData TekenSubr TekenState.
From S2P Require Import TekenInv TekenSafe.
#[local] Open Scope Z_scope.

(** ** Numbers *)

(** The invariant between two characters: room for one more number. *)
Definition idle (t : teken) : Prop := tinv t /\ t_curnum t < T_NUMSIZE.

Lemma set_num_ok t x :
  tinv t -> t_curnum t < T_NUMSIZE -> num_ok x ->
  exists t', set_num t x = Ok t' /\ tinv t' /\ t_winsize t' = t_winsize t /\
    t_curnum t' = t_curnum t.
Proof.
  intros Ht Hc Hx. destruct (iv_nums t Ht) as [Hl Hf]. pose proof (iv_curnum t Ht).
  unfold set_num, T_NUMSIZE in *. rewrite writeC_lt, bind_Ok_l by lia. eexists. split; [done|].
  split; [|done]. apply tinv_upd_nums; [by rewrite length_insert| |done].
  by apply Forall_insert.
Qed.

Lemma nums_read t a : tinv t -> (a < 8)%nat -> exists x, readC (t_nums t) a = Ok x /\ num_ok x.
Proof.
  intros Ht Ha. destruct (iv_nums t Ht) as [Hl Hf].
  destruct (readC_lt (t_nums t) a) as (x & Hx & Hr); [lia|]. exists x. split; [done|].
  by eapply Forall_lookup_1 in Hf.
Qed.

(** [teken_state_numbers] takes a digit or a semicolon and stays idle, or
    counts the last number. *)
Lemma state_numbers_ok t c :
  idle t -> exists taken t', teken_state_numbers t c = Ok (taken, t') /\ tinv t' /\
    t_winsize t' = t_winsize t /\ (taken = true -> t_curnum t' < T_NUMSIZE).
Proof.
  intros [Ht Hc]. pose proof (iv_curnum t Ht) as Hn. unfold teken_state_numbers.
  rewrite assertC_true, bind_Ok_l by (by apply Z.ltb_lt).
  assert (u32 (t_curnum t + 1) = t_curnum t + 1) as Hu
    by (apply u32_small; unfold T_NUMSIZE in *; lia).
  assert (forall t', tinv t' -> t_curnum t' = t_curnum t -> t_winsize t' = t_winsize t ->
    tinv (upd_curnum t' (u32 (t_curnum t' + 1)))) as Hbump.
  { intros t' Ht' -> Hw. rewrite Hu. apply tinv_upd_curnum; [unfold T_NUMSIZE in *; lia|done]. }
  destruct ((48 <=? c) && (c <=? 57)) eqn:Ed.
  - rewrite andb_true_iff, !Z.leb_le in Ed. destruct (has t TS_FIRSTDIGIT).
    + destruct (set_num_ok (clrf t TS_FIRSTDIGIT) (c - 48)) as (t' & -> & ? & ? & Hc');
        [auto with teken|done|unfold num_ok, NUM_MAX; lia|].
      exists true, t'. rewrite bind_Ok_l. split_and!; try done. by rewrite Hc'.
    + destruct (nums_read t (Z.to_nat (t_curnum t)) Ht) as (x & -> & Hx);
        [unfold T_NUMSIZE in *; lia|]. rewrite bind_Ok_l. unfold num_ok, NUM_MAX in Hx.
      change (UINT_MAX / 100) with 42949672. destruct (Z.ltb_spec x 42949672).
      * destruct (set_num_ok t (u32 (x * 10 + c - 48))) as (t' & -> & ? & ? & Hc');
          [done..|rewrite u32_small; unfold num_ok, NUM_MAX; lia|].
        exists true, t'. rewrite bind_Ok_l. split_and!; try done. by rewrite Hc'.
      * by exists true, t.
  - destruct (c =? 59).
    + assert (exists t', (if has t TS_FIRSTDIGIT then set_num t 0 else Ok t) = Ok t' /\
        tinv t' /\ t_winsize t' = t_winsize t /\ t_curnum t' = t_curnum t)
        as (t' & -> & Ht' & Hw & Hc').
      { destruct (has t TS_FIRSTDIGIT); [apply set_num_ok|by exists t]; done. }
      rewrite bind_Ok_l. specialize (Hbump t' Ht' Hc' Hw). rewrite Hc', Hu in *. tproj.
      destruct (Z.eqb_spec (t_curnum t + 1) T_NUMSIZE).
      * eexists true, _. split; [done|]. split_and!; [|done|done]. unfold teken_state_switch.
        apply tinv_setf; [done|]. apply tinv_upd_curnum; [lia|]. by apply tinv_upd_nextstate.
      * eexists true, _. split; [done|]. split_and!; [auto with teken|done|].
        intros _. tproj. lia.
    + destruct (has t TS_FIRSTDIGIT && (0 <? t_curnum t)).
      * destruct (set_num_ok t 0) as (t' & -> & Ht' & Hw & Hc'); [done..|].
        rewrite bind_Ok_l. eexists false, _. split; [done|]. by split_and!; [apply Hbump|..].
      * destruct (negb _); eexists false, _; (split; [done|]); [|done].
        by split_and!; [apply Hbump|..].
Qed.

(** ** Arguments *)

Definition arg_sat (k : seq_arg) (x : Z) : Prop :=
  match k with arg_n => num_pos x | arg_r => num_ok x end.

Lemma arg_value_ok t a k : tinv t -> 1 <= a <= 8 -> exists x, arg_value t a k = Ok x /\ arg_sat k x.
Proof.
  intros Ht Ha. unfold arg_value. destruct (nums_read t (Z.to_nat (a - 1)) Ht) as (x & -> & Hx);
    [lia|]. unfold num_ok in Hx.
  destruct k; simpl; unfold num_pos, num_ok; destruct (t_curnum t <? a);
    (eexists; split; [done|]); unfold NUM_MAX in *; try zcase; lia.
Qed.

Lemma arg_values_ok t a l :
  tinv t -> 1 <= a -> a + Z.of_nat (List.length l) <= 9 ->
  exists xs, arg_values t a l = Ok xs /\ Forall2 arg_sat l xs.
Proof.
  intros Ht. revert a. induction l as [|k l IH]; intros a Ha Hl; cbn [arg_values length] in *;
    [by exists []|].
  destruct (arg_value_ok t a k Ht) as (x & -> & Hx); [lia|].
  destruct (IH (a + 1)) as (xs & -> & Hxs); [lia..|]. exists (x :: xs). by split; [|constructor].
Qed.

(** What each function needs of its arguments. *)
Definition cmd_pre (c : tcmd) (x y : Z) : Prop :=
  match c with
  | cursor_next_line | cursor_previous_line | cursor_backward | cursor_down | cursor_forward
  | cursor_up | delete_character | delete_line | erase_character | horizontal_position_absolute
  | insert_character | insert_line | pan_up | pan_down | vertical_position_absolute => num_pos x
  | cursor_position => num_pos x /\ num_pos y
  | set_top_and_bottom_margins => num_ok x /\ num_ok y
  | cons25_set_default_background | cons25_set_default_foreground => 0 <= x
  | _ => True
  end.

Definition row_kinds (r : seq_row) : list seq_arg :=
  match sq_args r with args l => l | args_v => [] end.

Definition row_fits (r : seq_row) : Prop :=
  (List.length (row_kinds r) <= 2)%nat /\
  forall xs, Forall2 arg_sat (row_kinds r) xs -> cmd_pre (sq_cmd r) (nth 0 xs 0) (nth 1 xs 0).

(** Every row of sequences passes the arguments its function needs. *)
Lemma sequences_fit : Forall row_fits sequences.
Proof.
  unfold sequences. repeat apply Forall_cons_2; try apply Forall_nil_2;
    (split; [apply Nat.leb_le; reflexivity|]); cbn [row row_kinds sq_args sq_cmd cmd_pre];
    intros xs Hxs; try exact I; inversion Hxs as [|? x ? xs' Hx Hxs']; subst;
    try exact Hx; try (destruct Hx; assumption);
    inversion Hxs' as [|? y ? xs'' Hy Hxs'']; subst; by split.
Qed.

(** ** The state functions *)

Create HintDb tgood discriminated.
#[local] Hint Constants Opaque : tgood.
#[local] Hint Resolve good_ok keep_good ok_same ok_flag_set ok_flag_clr param_good
  cursor_backward_good cursor_forward_good cursor_down_good cursor_up_good cursor_position_good
  horizontal_position_absolute_good vertical_position_absolute_good index_good
  reverse_index_good newline_good delete_character_good insert_character_good
  erase_character_good delete_line_good insert_line_good alignment_test_good
  reset_to_initial_state_good reset_dec_mode_good set_dec_mode_good restore_cursor_good
  save_cursor_good margins_good tab_clear_good horizontal_tab_set_good
  set_graphic_rendition_good cursor_shape_good erase_line_drawn erase_display_drawn
  do_cpr_respond attributes_drawn repeat_good : tgood.

Section input.
Context {S : Type} (F : teken_funcs S) (hinv : teken_pos -> S -> Prop) `{!HooksOk F hinv}.

(** Column 0 of the cursor's row. *)
Lemma tinv_col0 t : tinv t -> tinv (upd_cursor_col t 0).
Proof.
  intros Ht. teken_bounds. unfold upd_cursor_col. change (u16 0) with 0.
  apply tinv_upd_cursor; [done|]. in_range.
Qed.

Lemma call_cmd_good n c t s x y :
  tinv t -> hinv (t_winsize t) s -> t_curnum t = n -> cmd_pre c x y ->
  good hinv n (call_cmd F c t s x y).
Proof.
  intros Ht Hs Hn Hp. pose proof (tinv_col0 t Ht) as H0.
  assert (forall b u v, tinv u -> tinv v -> t_winsize u = t_winsize t ->
    t_winsize v = t_winsize t -> t_curnum u = n -> t_curnum v = n ->
    good hinv n (Ok (if b : bool then u else v, s))) as Hif
    by (intros [] u v ? ? Hu Hv ? ?; apply good_ok; congruence || by rewrite ?Hu, ?Hv).
  destruct c; cbn [call_cmd cmd_pre] in *; try (solve [eauto with tgood]);
    try (by apply tabulation_good); try (by apply pan_good); try (by apply cons25_default_good);
    try (apply set_scs_good; done || lia).
  all: unfold teken_subr_cursor_next_line, teken_subr_cursor_previous_line,
    teken_subr_cursor_position_report, teken_subr_device_status_report,
    teken_subr_primary_device_attributes, teken_subr_secondary_device_attributes,
    teken_subr_device_control_string, teken_subr_operating_system_command,
    teken_subr_keypad_application_mode, teken_subr_keypad_numeric_mode,
    teken_subr_set_cursor_style, teken_subr_next_line, teken_subr_reset_mode,
    teken_subr_set_mode, teken_subr_cons25_set_bell_pitch_duration,
    teken_subr_cons25_set_border, teken_subr_cons25_set_local_cursor_type,
    teken_subr_cons25_set_graphic_rendition, teken_subr_cons25_switch_virtual_terminal,
    teken_subr_repeat_last_graphic_char, teken_subr_cons25_set_terminal_mode.
  all: try (by apply ok_flag_set); try (by apply Hif; auto with teken);
    try (solve [eauto with tgood]); try (by apply keep_good, (do_cpr_respond F hinv t s) with (pre := 27 :: str "["));
    try (by apply keep_good, (do_cpr_respond F hinv t s) with (pre := 27 :: str "[?"));
    try (by apply keep_good, attributes_drawn).
  - apply cursor_position_good; tauto.
  - apply margins_good; tauto.
  - destruct (x =? 0); [by apply ok_flag_clr|]. by apply Hif; auto with teken.
Qed.

Lemma run_row_good r t s :
  r ∈ sequences -> tinv t -> hinv (t_winsize t) s -> good hinv (t_curnum t) (run_row F r t s).
Proof.
  intros Hr Ht Hs. destruct (proj1 (Forall_forall _ _) sequences_fit r Hr) as [Hl Hfit].
  unfold run_row, row_kinds in *. destruct (sq_args r) as [l|].
  - destruct (arg_values_ok t 1 l Ht) as (xs & -> & Hxs); [lia..|]. rewrite bind_Ok_l.
    apply call_cmd_good; auto.
  - apply call_cmd_good; auto. apply (Hfit []). constructor.
Qed.

(** Results after which the next character may come. *)
Definition ready (r : outcome (teken * S)) : Prop :=
  exists t s, r = Ok (t, s) /\ idle t /\ hinv (t_winsize t) s.

Lemma ready_ok t s : idle t -> hinv (t_winsize t) s -> ready (Ok (t, s)).
Proof. by exists t, s. Qed.

Lemma good_ready n r : n < T_NUMSIZE -> good hinv n r -> ready r.
Proof. intros Hn (t & s & -> & Ht & Hs & <-). by apply ready_ok. Qed.

Lemma ready_bind m k :
  ready m -> (forall t s, idle t -> hinv (t_winsize t) s -> ready (k (t, s))) -> ready (m ≫= k).
Proof. intros (t & s & -> & Ht & Hs) Hk. by apply Hk. Qed.

Lemma state_switch_idle t st : tinv t -> idle (teken_state_switch t st).
Proof.
  intros Ht. split; [|done]. unfold teken_state_switch. apply tinv_setf; [done|].
  apply tinv_upd_curnum; [lia|]. by apply tinv_upd_nextstate.
Qed.

Lemma state_done_idle prefix t :
  tinv t -> (prefix = [] -> t_curnum t < T_NUMSIZE) -> idle (state_done prefix t).
Proof.
  intros Ht Hc. destruct prefix; simpl; [by split; auto|]. apply state_switch_idle.
  auto with teken.
Qed.

Lemma state_done_winsize prefix t : t_winsize (state_done prefix t) = t_winsize t.
Proof. by destruct prefix. Qed.

Lemma init_no_numbers : has_numbers [] = false.
Proof. vm_compute. reflexivity. Qed.

Lemma state_ready prefix t s c :
  idle t -> hinv (t_winsize t) s -> ready (teken_state F prefix t s c).
Proof.
  intros Ht Hs. unfold teken_state.
  assert (exists taken t',
    (if has_numbers prefix then teken_state_numbers t c else Ok (false, t)) = Ok (taken, t') /\
    tinv t' /\ t_winsize t' = t_winsize t /\
    (taken = true \/ prefix = [] -> t_curnum t' < T_NUMSIZE))
    as (taken & t' & -> & Ht' & Hw & Hc).
  { destruct (has_numbers prefix) eqn:E.
    - destruct (state_numbers_ok t c Ht) as (tk & t' & He & ? & ? & Hc'). exists tk, t'.
      split_and!; try done. intros [?| ->]; [auto|]. by rewrite init_no_numbers in E.
    - destruct Ht as [? ?]. by exists false, t. }
  rewrite bind_Ok_l, <-Hw in *. destruct taken.
  { apply ready_ok; [|done]. by split; auto. }
  assert (forall t2 s2, tinv t2 -> hinv (t_winsize t2) s2 -> t_curnum t2 = t_curnum t' ->
    ready (Ok (state_done prefix t2, s2))) as Hdone.
  { intros t2 s2 Ht2 Hs2 Hc2. apply ready_ok; [|by rewrite state_done_winsize].
    apply state_done_idle; [done|]. rewrite Hc2. auto. }
  destruct (find_cmd prefix c) as [r|] eqn:Ef.
  - apply find_some in Ef as [Hr _]. apply list_elem_of_In in Hr.
    destruct (run_row_good r t' s Hr Ht' Hs) as (t2 & s2 & -> & ? & ? & ?).
    rewrite bind_Ok_l. by apply Hdone.
  - destruct (is_prefix _); [by apply ready_ok; [apply state_switch_idle|]|].
    destruct prefix; [|rewrite bind_Ok_l; by apply Hdone].
    destruct (regular_character_good F hinv _ t' s c Ht' Hs eq_refl)
      as (t2 & s2 & -> & ? & ? & ?). rewrite bind_Ok_l. by apply Hdone.
Qed.

(** ** Input *)

Lemma post_asserts_ok t : tinv t -> post_asserts t = Ok tt.
Proof.
  intros Ht. teken_bounds. destruct (iv_saved t Ht) as [? ?]. tproj.
  pose proof (iv_origin t Ht) as Ho. unfold post_asserts. cbv zeta.
  rewrite !(proj2 (Z.leb_le _ _)), !(proj2 (Z.ltb_lt _ _)) by lia. cbn [assertC].
  rewrite !bind_Ok_l. apply assertC_true. rewrite Ho.
  destruct (has t TS_ORIGIN); tproj; rewrite ?Z.eqb_refl; simpl; [done|apply orb_true_r].
Qed.

Lemma input_switch_ready t s c :
  idle t -> hinv (t_winsize t) s -> ready (input_switch F t s c).
Proof.
  intros [Ht Hc] Hs. pose proof (state_ready (t_nextstate t) t s c (conj Ht Hc) Hs) as Hst.
  assert (forall r, good hinv (t_curnum t) r -> ready r) as Hg by (intros r; by apply good_ready).
  assert (forall x, 0 <= x < 2 -> idle (upd_curscs t x)) as Hcs
    by (intros; split; auto with teken).
  unfold input_switch. teken_bounds.
  destruct (c =? 0); [by apply ready_ok|].
  destruct (c =? 7).
  { apply Hg, keep_good; [done..|]. unfold teken_subr_bell, teken_funcs_bell.
    destruct (tf_bell F) eqn:E; [by eapply ho_bell|by apply drawn_ok]. }
  destruct (c =? 8); [by apply Hg, backspace_good|].
  destruct (_ || _); [by apply Hg, newline_good|].
  destruct (c =? 12); [by apply Hg, newpage_good|].
  destruct (c =? 14); [destruct (has t TS_CONS25); [done|by apply ready_ok; [apply Hcs; lia|]]|].
  destruct (c =? 15); [destruct (has t TS_CONS25); [done|by apply ready_ok; [apply Hcs; lia|]]|].
  destruct (c =? 13); [by apply Hg, carriage_return_good|].
  destruct (c =? 9); [|done]. by apply Hg, tabulation_good.
Qed.

Lemma input_char_ready t s c :
  idle t -> hinv (t_winsize t) s -> ready (teken_input_char F t s c).
Proof.
  intros [Ht Hc] Hs. unfold teken_input_char.
  destruct (has t TS_INSTRING && negb (c =? 27)).
  { destruct (c =? 7); apply ready_ok; try split; auto with teken. }
  eapply ready_bind.
  { apply input_switch_ready; destruct (has t TS_INSTRING); try split; auto with teken. }
  intros t' s' Ht' Hs'. rewrite post_asserts_ok by apply Ht'. by apply ready_ok.
Qed.

Lemma input_byte_ready t s c :
  idle t -> hinv (t_winsize t) s -> ready (teken_input_byte F t s c).
Proof.
  intros Ht Hs.
  assert (forall x y, idle (upd_utf8_partial (upd_utf8_left t x) y)) as Hu
    by (intros; destruct Ht; split; auto with teken).
  unfold teken_input_byte.
  destruct (_ || _); [apply input_char_ready; [|done]; destruct Ht; split; auto with teken|].
  repeat (destruct (Z.land c _ =? _); [try by apply ready_ok|]); [|by apply ready_ok].
  destruct (t_utf8_left t =? 0); [by apply ready_ok|]. cbv zeta.
  destruct (_ =? 0); [by apply input_char_ready|by apply ready_ok].
Qed.

Lemma input_bytes_ready buf t s :
  idle t -> hinv (t_winsize t) s -> ready (input_bytes F t s buf).
Proof.
  revert t s. induction buf as [|c buf IH]; intros t s Ht Hs; cbn [input_bytes];
    [by apply ready_ok|].
  eapply ready_bind; [by apply input_byte_ready|]. auto.
Qed.
End input.

(** C4: Whatever bytes come in, [teken_input] succeeds on a terminal that
    satisfies the invariant: no assertion of teken.c or teken_subr.h fails, no
    array is accessed out of range, and every hook is called inside the window,
    for all drawing routines that keep their own contract.  The invariant holds
    again afterwards. *)
Theorem teken_input_safe {S} (F : teken_funcs S) hinv `{!HooksOk F hinv} t s buf :
  idle t -> hinv (t_winsize t) s ->
  exists t' s', teken_input F t s buf = Ok (t', s') /\ idle t' /\ hinv (t_winsize t') s'.
Proof.
  intros Ht Hs. unfold teken_input, teken_funcs_pre_input, teken_funcs_post_input.
  assert (exists s1, match tf_pre_input F with Some f => f s | None => Ok s end = Ok s1 /\
    hinv (t_winsize t) s1) as (s1 & -> & Hs1).
  { destruct (tf_pre_input F) eqn:E; [by eapply ho_pre|by exists s]. }
  destruct (input_bytes_ready F hinv buf t s1 Ht Hs1) as (t2 & s2 & He & Ht2 & Hs2).
  rewrite bind_Ok_l, He, bind_Ok_l.
  assert (exists s3, match tf_post_input F with Some f => f s2 | None => Ok s2 end = Ok s3 /\
    hinv (t_winsize t2) s3) as (s3 & -> & Hs3).
  { destruct (tf_post_input F) eqn:E; [by eapply ho_post|by exists s2]. }
  by exists t2, s3.
Qed.

(** ** A fresh terminal *)

(** A zeroed structure, as [ALLOC_OBJ] leaves the [tek] of a process. *)
Definition zero_teken : teken :=
  mk_teken [] 0 (replicate 8 0) 0 (mk_pos 0 0) (mk_attr 0 0 0) (mk_pos 0 0) (mk_attr 0 0 0)
    (mk_attr 0 0 0) (mk_pos 0 0) (mk_span 0 0) (mk_span 0 0) (replicate 5 0) 0 0 0 0
    teken_scs_us_ascii [teken_scs_us_ascii; teken_scs_us_ascii].

(** A terminal of [lin] lines and [col] columns after a reset. *)
Definition fresh_term (lin col : Z) : teken :=
  reset_state (upd_winsize zero_teken (mk_pos lin col)).

Lemma fresh_idle lin col :
  1 <= lin <= 65535 -> 3 <= col <= 65535 -> idle (fresh_term lin col).
Proof.
  intros Hl Hc. split; [|reflexivity]. apply reset_tinv. constructor; try done.
  split; [done|]. apply (Forall_replicate _ 8%nat 0). unfold NUM_MAX. lia.
Qed.
