(* ===== verification/TekenCsi.v ===== *)
(** * What the UTF-8 decoder and the escape sequence parser compute

    The incremental decoder agrees with [teken_utf8_bytes_to_codepoint], and the
    decimal arguments of a control sequence reach the function it calls. *)

From Stdlib Require Import ZArith Lia String.
From stdpp Require Import base option numbers list.
From S2P Require Import Prelude HpackData TekenData TekenSubr TekenState TekenInv TekenSafe TekenInput.
#[local] Open Scope Z_scope.

(** ** UTF-8 *)

(** What the leading byte of a sequence of [n] bytes, or a continuation byte,
    makes of the tests of [teken_input_byte]. *)
Definition lead_ok (n m v b : Z) : bool :=
  negb (Z.land b m =? v) ||
  (negb (Z.land b 0x80 =? 0) &&
   bool_decide (Z.land b 0xe0 = 0xc0 <-> n = 2) && bool_decide (Z.land b 0xf0 = 0xe0 <-> n = 3) &&
   bool_decide (Z.land b 0xf8 = 0xf0 <-> n = 4)).

Lemma byte_check (P : Z -> bool) b :
  forallb P (seqZ 0 256) = true -> 0 <= b < 256 -> P b = true.
Proof.
  intros H Hb. rewrite forallb_forall in H. apply H, list_elem_of_In, elem_of_seqZ. lia.
Qed.

Lemma lead_facts n m v b :
  In (n, m, v) [(1, 0xc0, 0x80); (2, 0xe0, 0xc0); (3, 0xf0, 0xe0); (4, 0xf8, 0xf0)] ->
  0 <= b < 256 -> Z.land b m = v ->
  (Z.land b 0x80 =? 0) = false /\ (Z.land b 0xe0 =? 0xc0) = (n =? 2) /\
  (Z.land b 0xf0 =? 0xe0) = (n =? 3) /\ (Z.land b 0xf8 =? 0xf0) = (n =? 4).
Proof.
  intros Hin Hb Hv. assert (lead_ok n m v b = true) as Hok.
  { apply byte_check; [|done].
    destruct Hin as [[= <- <- <-]|[[= <- <- <-]|[[= <- <- <-]|[[= <- <- <-]|[]]]]];
      vm_compute; reflexivity. }
  unfold lead_ok in Hok. rewrite Hv, Z.eqb_refl in Hok. cbn [negb orb] in Hok.
  rewrite !andb_true_iff, negb_true_iff, !bool_decide_eq_true in Hok.
  destruct Hok as (((H8 & H2) & H3) & H4). split_and!; [done|..]; apply eq_true_iff_eq;
    by rewrite !Z.eqb_eq.
Qed.

Lemma low_bits b k : 0 <= k -> 0 <= Z.land b (Z.ones k) < 2 ^ k.
Proof. intros. rewrite Z.land_ones by done. apply Z.mod_pos_bound. lia. Qed.

Section utf8.
Context {S : Type} (F : teken_funcs S).

(** The terminal with [left] bytes to come and the bits [x] so far. *)
Definition awaiting (t : teken) (left x : Z) : teken :=
  upd_utf8_partial (upd_utf8_left t left) x.

Lemma lead_byte t s n m v b :
  In (n, m, v) [(2, 0xe0, 0xc0); (3, 0xf0, 0xe0); (4, 0xf8, 0xf0)] ->
  has t TS_8BIT = false -> 0 <= b < 256 -> Z.land b m = v ->
  teken_input_byte F t s b = Ok (awaiting t (n - 1) (Z.land b (Z.ones (7 - n))), s).
Proof.
  intros Hin H8 Hb Hv. destruct (lead_facts n m v b) as (E80 & E2 & E3 & E4); [by right|done..|].
  unfold teken_input_byte. rewrite E80, H8, E2, E3, E4. cbn [orb].
  by destruct Hin as [[= <- <- <-]|[[= <- <- <-]|[[= <- <- <-]|[]]]].
Qed.

Lemma cont_byte t s left x b :
  has t TS_8BIT = false -> 0 <= b < 256 -> Z.land b 0xc0 = 0x80 -> 1 <= left <= 3 ->
  0 <= x < 2 ^ 26 ->
  let x' := Z.lor (Z.shiftl x 6) (Z.land b 0x3f) in
  teken_input_byte F (awaiting t left x) s b =
    if left =? 1 then teken_input_char F (awaiting t 0 x') s x'
    else Ok (awaiting t (left - 1) x', s).
Proof.
  intros H8 Hb Hv Hl Hx x'.
  destruct (lead_facts 1 0xc0 0x80 b) as (E80 & E2 & E3 & E4); [by left|done..|].
  unfold teken_input_byte. change (has (awaiting t left x) TS_8BIT) with (has t TS_8BIT).
  rewrite E80, H8, E2, E3, E4, Hv. cbn [orb Z.eqb Pos.eqb].
  cbn [awaiting t_utf8_left t_utf8_partial upd_utf8_left upd_utf8_partial].
  rewrite (proj2 (Z.eqb_neq left 0)) by lia. cbv zeta. cbn [t_utf8_left t_utf8_partial].
  assert (u32 (Z.shiftl x 6) = Z.shiftl x 6) as ->
    by (apply u32_small; rewrite Z.shiftl_mul_pow2 by lia; lia).
  rewrite (u32_small (left - 1)) by lia.
  replace (left - 1 =? 0) with (left =? 1) by (apply eq_true_iff_eq; rewrite !Z.eqb_eq; lia).
  destruct (Z.eqb_spec left 1) as [->|]; done.
Qed.

Lemma input_last t s c : input_bytes F t s [c] = teken_input_byte F t s c.
Proof. cbn [input_bytes]. by destruct (teken_input_byte F t s c) as [[]|]. Qed.
End utf8.

Lemma lor_shift6 x b :
  Z.lor (Z.shiftl x 6) (Z.land b 0x3f) = x * 64 + Z.land b 0x3f.
Proof.
  pose proof (low_bits b 6 ltac:(lia)). change (Z.ones 6) with 0x3f in *.
  rewrite (lor_add _ _ 6); [|lia|lia|]; rewrite Z.shiftl_mul_pow2 by lia; [done|].
  apply Z.mod_mul. done.
Qed.

(** The two decoders assemble the same number. *)
Lemma assemble3 a b c :
  Z.lor (Z.shiftl (Z.lor (Z.shiftl a 6) b) 6) c =
    Z.lor (Z.lor (Z.shiftl a 12) (Z.shiftl b 6)) c.
Proof. by rewrite Z.shiftl_lor, Z.shiftl_shiftl by lia. Qed.

Lemma assemble4 a b c d :
  Z.lor (Z.shiftl (Z.lor (Z.shiftl (Z.lor (Z.shiftl a 6) b) 6) c) 6) d =
    Z.lor (Z.lor (Z.lor (Z.shiftl a 18) (Z.shiftl b 12)) (Z.shiftl c 6)) d.
Proof. by rewrite !Z.shiftl_lor, !Z.shiftl_shiftl by lia. Qed.

Definition is_cont (b : Z) : Prop := 0 <= b < 256 /\ Z.land b 0xc0 = 0x80.

(** The two UTF-8 decoders of the program agree: on a leading byte and
    its continuation bytes, the incremental decoder of [teken_input_byte]
    inputs exactly the code point that [teken_utf8_bytes_to_codepoint]
    computes, once the last byte is there and not before. *)
Theorem utf8_agree {S} (F : teken_funcs S) t s b0 b1 b2 b3 n :
  has t TS_8BIT = false -> 2 <= n <= 4 -> 0 <= b0 < 256 ->
  is_cont b1 -> is_cont b2 -> is_cont b3 ->
  let cp := teken_utf8_bytes_to_codepoint b0 b1 b2 b3 n in
  cp <> TEKEN_UTF8_INVALID_CODEPOINT ->
  input_bytes F t s (take (Z.to_nat n) [b0; b1; b2; b3]) =
    teken_input_char F (awaiting t 0 cp) s cp.
Proof.
  intros H8 Hn Hb0 [Hb1 Hc1] [Hb2 Hc2] [Hb3 Hc3] cp Hcp. subst cp.
  pose proof (low_bits b0 (7 - n) ltac:(lia)) as Hl0.
  pose proof (low_bits b1 6 ltac:(lia)) as Hl1. pose proof (low_bits b2 6 ltac:(lia)) as Hl2.
  change (Z.ones 6) with 0x3f in *.
  assert (n = 2 \/ n = 3 \/ n = 4) as [-> | [-> | ->]] by lia;
    cbv beta delta [teken_utf8_bytes_to_codepoint] in *; cbn [Z.eqb Pos.eqb] in *;
    cbv zeta in *;
    match type of Hcp with (if negb (?x =? ?y) then _ else _) <> _ =>
      destruct (Z.eqb_spec x y) as [Hlead|]; [|done] end; cbn [negb] in *;
    match goal with |- context [take (Z.to_nat ?k) ?l] =>
      let r := eval compute in (Z.to_nat k) in change (Z.to_nat k) with r end;
    cbn [take input_bytes].
  - rewrite (lead_byte F t s 2 0xe0 0xc0) by (done || by left). rewrite bind_Ok_l.
    rewrite (cont_byte F t s (2 - 1)) by (done || lia). cbn [Z.sub Z.eqb Pos.eqb Z.add Z.opp].
    by destruct (teken_input_char _ _ _ _) as [[]|].
  - rewrite (lead_byte F t s 3 0xf0 0xe0) by (done || by right; left). rewrite bind_Ok_l.
    rewrite (cont_byte F t s (3 - 1)) by (done || lia). change (3 - 1 =? 1) with false. cbv iota.
    rewrite bind_Ok_l, lor_shift6.
    rewrite (cont_byte F t s (3 - 1 - 1)) by (done || lia). change (3 - 1 - 1 =? 1) with true. cbv iota.
    rewrite <-lor_shift6, assemble3. by destruct (teken_input_char _ _ _ _) as [[]|].
  - rewrite (lead_byte F t s 4 0xf8 0xf0) by (done || by right; right; left). rewrite bind_Ok_l.
    rewrite (cont_byte F t s (4 - 1)) by (done || lia). change (4 - 1 =? 1) with false. cbv iota.
    rewrite bind_Ok_l, lor_shift6.
    rewrite (cont_byte F t s (4 - 1 - 1)) by (done || lia). change (4 - 1 - 1 =? 1) with false. cbv iota.
    rewrite bind_Ok_l, lor_shift6.
    rewrite (cont_byte F t s (4 - 1 - 1 - 1)) by (done || lia).
    change (4 - 1 - 1 - 1 =? 1) with true. cbv iota.
    rewrite <-!lor_shift6, assemble4. by destruct (teken_input_char _ _ _ _) as [[]|].
Qed.

(** Hooks for the examples: they collect the characters drawn. *)
Definition null_hooks : teken_funcs (list Z) :=
  mk_funcs None (Some (fun s _ => Ok s)) (Some (fun s _ c _ => Ok (s ++ [c])))
    (Some (fun s _ _ _ => Ok s)) (Some (fun s _ _ => Ok s)) None None
    (Some (fun t s _ _ => Ok (t, s))) (Some (fun s _ => Ok s)).

(** Hooks that always succeed meet the contract. *)
#[global] Instance null_hooks_ok : HooksOk null_hooks (fun _ _ => True).
Proof.
  constructor; try discriminate; eexists; (split; [reflexivity|]); intros; try by eexists.
  by eexists _, _.
Qed.

Lemma utf8_agree_witness :
  has (fresh_term 24 80) TS_8BIT = false /\
  input_bytes null_hooks (fresh_term 24 80) [] [0xE2; 0x82; 0xAC] =
    teken_input_char null_hooks (awaiting (fresh_term 24 80) 0 0x20AC) [] 0x20AC.
Proof.
  split; [reflexivity|].
  apply (utf8_agree null_hooks (fresh_term 24 80) [] 0xE2 0x82 0xAC 0x80 3);
    try reflexivity; try lia; try (split; [lia|reflexivity]); discriminate.
Defined.

(** ** Control sequences: from the text of the arguments to the call.

    A control sequence is ESC [, decimal numbers separated by semicolons, and a
    final character that names a row of the file sequences. *)

(** The state after ESC [. *)
Definition CSI : list Z := [27; 91].

(** ** The text of the arguments *)

Fixpoint digits (fuel : nat) (n : Z) : list Z :=
  match fuel with
  | O => []
  | Datatypes.S fuel =>
      if n <? 10 then [48 + n] else digits fuel (n `div` 10) ++ [48 + n `mod` 10]
  end.

Lemma decimal_loop_digits fuel n acc :
  0 <= n < 10 ^ Z.of_nat fuel -> decimal_loop fuel n acc = digits fuel n ++ acc.
Proof.
  revert n acc. induction fuel as [|fuel IH]; intros n acc Hn; [done|]. cbn [decimal_loop digits].
  destruct (Z.ltb_spec n 10) as [Hlt|Hge]; [by rewrite Z.mod_small by lia|].
  rewrite IH; [by rewrite <-app_assoc|]. rewrite Nat2Z.inj_succ, Z.pow_succ_r in Hn by lia.
  split; [apply Z.div_pos; lia|]. apply Z.div_lt_upper_bound; lia.
Qed.

Lemma decimal_digits n : num_ok n -> decimal n = digits 10 n.
Proof.
  intros Hn. unfold decimal. rewrite decimal_loop_digits, app_nil_r; [done|].
  unfold num_ok, NUM_MAX in Hn. change (10 ^ Z.of_nat 10) with 10000000000. lia.
Qed.

(** The numbers in decimal, separated by semicolons. *)
Fixpoint numbers (xs : list Z) : list Z :=
  match xs with
  | [] => []
  | [x] => decimal x
  | x :: xs => decimal x ++ 59 :: numbers xs
  end.

(** The arguments of a call: 1 for a missing or zero [n], 0 for a missing [r]. *)
Fixpoint arguments (l : list seq_arg) (xs : list Z) : list Z :=
  match l with
  | [] => []
  | k :: l =>
      match k with
      | arg_n => match head xs with Some x => if x =? 0 then 1 else x | None => 1 end
      | arg_r => default 0 (head xs)
      end :: arguments l (tail xs)
  end.

(** ** Terminals that differ in the parser's own fields only *)

Definition parser_only (t0 t : teken) : Prop :=
  exists st fl nu cu,
    t = upd_utf8_left (upd_curnum (upd_nums (upd_stateflags (upd_nextstate t0 st) fl) nu) cu) 0 /\
    (forall k, 1 <= k < 32 -> Z.testbit fl k = Z.testbit (t_stateflags t0) k).

Section parser_only.
Context (t0 : teken).

Lemma parser_only_has t k : parser_only t0 t -> 1 <= k < 32 -> has t (2 ^ k) = has t0 (2 ^ k).
Proof. intros (st & fl & nu & cu & -> & Hk) Hr. rewrite !has_pow by lia. by apply Hk. Qed.

Lemma parser_only_setf t : parser_only t0 t -> parser_only t0 (setf t TS_FIRSTDIGIT).
Proof.
  intros (st & fl & nu & cu & -> & Hk). exists st, (Z.lor fl TS_FIRSTDIGIT), nu, cu.
  split; [reflexivity|]. intros k Hr. rewrite Z.lor_spec, <-Hk by done.
  rewrite (Z.pow2_bits_false 0) by lia. apply orb_false_r.
Qed.

Lemma parser_only_clrf t : parser_only t0 t -> parser_only t0 (clrf t TS_FIRSTDIGIT).
Proof.
  intros (st & fl & nu & cu & -> & Hk). exists st, (Z.land fl (u32 (Z.lnot TS_FIRSTDIGIT))), nu, cu.
  split; [reflexivity|]. intros k Hr. rewrite Z.land_spec, <-Hk, u32_lnot_testbit by lia.
  rewrite (Z.pow2_bits_false 0) by lia. apply andb_true_r.
Qed.

Lemma parser_only_nums t l : parser_only t0 t -> parser_only t0 (upd_nums t l).
Proof. intros (st & fl & nu & cu & -> & Hk). by eexists st, fl, _, cu. Qed.
Lemma parser_only_curnum t x : parser_only t0 t -> parser_only t0 (upd_curnum t x).
Proof. intros (st & fl & nu & cu & -> & Hk). by eexists st, fl, nu, _. Qed.
Lemma parser_only_state t x : parser_only t0 t -> parser_only t0 (upd_nextstate t x).
Proof. intros (st & fl & nu & cu & -> & Hk). by eexists _, fl, nu, cu. Qed.
Lemma parser_only_utf8 t : parser_only t0 t -> parser_only t0 (upd_utf8_left t 0).
Proof. intros (st & fl & nu & cu & -> & Hk). by eexists st, fl, nu, cu. Qed.

Lemma parser_only_set_num t x t' :
  set_num t x = Ok t' -> parser_only t0 t -> parser_only t0 t'.
Proof. unfold set_num. intros H Hp. inv_ok. by apply parser_only_nums. Qed.
End parser_only.

#[export] Hint Resolve parser_only_setf parser_only_clrf parser_only_nums parser_only_curnum
  parser_only_state parser_only_utf8 : teken.

(** ** Reading numbers *)

(** In the state CSI with the numbers [l] read, and [cur] of the next one. *)
Record reading (t0 t : teken) (l : list Z) (cur : option Z) : Prop := {
  rd_inv : tinv t;
  rd_only : parser_only t0 t;
  rd_state : t_nextstate t = CSI;
  rd_curnum : t_curnum t = Z.of_nat (List.length l);
  rd_nums : forall i x, l !! i = Some x -> t_nums t !! i = Some x;
  rd_room : (List.length l < 8)%nat;
  rd_cur : match cur with
           | None => has t TS_FIRSTDIGIT = true
           | Some v => has t TS_FIRSTDIGIT = false /\ t_nums t !! List.length l = Some v
           end
}.

Lemma first_setf t : has (setf t TS_FIRSTDIGIT) TS_FIRSTDIGIT = true.
Proof.
  rewrite (has_pow _ 0) by lia. tproj. rewrite Z.lor_spec. apply orb_true_iff. by right.
Qed.

Lemma first_clrf t : has (clrf t TS_FIRSTDIGIT) TS_FIRSTDIGIT = false.
Proof.
  rewrite (has_pow _ 0) by lia. tproj. rewrite Z.land_spec, u32_lnot_testbit by lia.
  apply andb_false_iff. by right.
Qed.

(** Storing the number being read. *)
Lemma set_num_reading t0 t t1 l v cur :
  reading t0 t l cur -> num_ok v ->
  tinv t1 -> parser_only t0 t1 -> has t1 TS_FIRSTDIGIT = false ->
  t_nextstate t1 = CSI -> t_curnum t1 = t_curnum t -> t_nums t1 = t_nums t ->
  exists t', set_num t1 v = Ok t' /\ reading t0 t' l (Some v).
Proof.
  intros Hr Hv Ht1 Ho Hf Hst Hc Hn.
  pose proof (rd_room _ _ _ _ Hr). pose proof (rd_curnum _ _ _ _ Hr) as Hcn.
  destruct (iv_nums t1 Ht1) as [Hl Hfa].
  unfold set_num. rewrite Hc, Hcn, Nat2Z.id, writeC_lt, bind_Ok_l by lia.
  eexists. split; [done|]. constructor; try done; auto with teken; tproj.
  - apply tinv_upd_nums; [by rewrite length_insert|by apply Forall_insert|done].
  - by rewrite Hc.
  - intros i x Hi. pose proof (lookup_lt_Some _ _ _ Hi). rewrite list_lookup_insert_ne by lia.
    rewrite Hn. by apply (rd_nums _ _ _ _ Hr).
  - split; [done|]. apply list_lookup_insert_eq. lia.
Qed.

(** A digit, first or not. *)
Lemma digit_step t0 t l cur d :
  reading t0 t l cur -> 0 <= d <= 9 ->
  match cur with Some v => 0 <= v < 42949672 | None => True end ->
  exists t', teken_state_numbers t (48 + d) = Ok (true, t') /\
    reading t0 t' l (Some (default 0 cur * 10 + d)).
Proof.
  intros Hr Hd Hv. pose proof Hr as []. unfold teken_state_numbers.
  rewrite assertC_true, bind_Ok_l by (apply Z.ltb_lt; unfold T_NUMSIZE; lia).
  rewrite (proj2 (Z.leb_le 48 _)), (proj2 (Z.leb_le _ 57)) by lia. cbn [andb].
  destruct cur as [v|]; simpl default.
  - destruct rd_cur0 as [Hf Hcur]. rewrite Hf. unfold readC. rewrite rd_curnum0, Nat2Z.id, Hcur.
    rewrite bind_Ok_l. change (UINT_MAX / 100) with 42949672. rewrite (proj2 (Z.ltb_lt _ _)) by lia.
    replace (v * 10 + (48 + d) - 48) with (v * 10 + d) by lia. rewrite u32_small by lia.
    destruct (set_num_reading t0 t t l (v * 10 + d) (Some v)) as (t' & -> & Hr'); try done.
    { unfold num_ok, NUM_MAX. lia. }
    by exists t'.
  - rewrite rd_cur0. replace (48 + d - 48) with (0 * 10 + d) by lia.
    destruct (set_num_reading t0 t (clrf t TS_FIRSTDIGIT) l (0 * 10 + d) None)
      as (t' & -> & Hr'); try done; auto with teken.
    + unfold num_ok, NUM_MAX. lia.
    + apply first_clrf.
    + by exists t'.
Qed.

(** A semicolon after a number. *)
Lemma semicolon_step t0 t l v :
  reading t0 t l (Some v) -> (List.length l < 7)%nat ->
  exists t', teken_state_numbers t 59 = Ok (true, t') /\ reading t0 t' (l ++ [v]) None.
Proof.
  intros Hr Hl. pose proof Hr as []. destruct rd_cur0 as [Hf Hcur]. unfold teken_state_numbers.
  rewrite assertC_true, bind_Ok_l by (apply Z.ltb_lt; unfold T_NUMSIZE; lia).
  change ((48 <=? 59) && (59 <=? 57)) with false. change (59 =? 59) with true. cbv iota.
  rewrite Hf, bind_Ok_l. cbv zeta. tproj. rewrite rd_curnum0, u32_small by lia.
  rewrite (proj2 (Z.eqb_neq _ _)) by (unfold T_NUMSIZE; lia).
  eexists. split; [done|]. constructor; try done; auto with teken; tproj.
  - apply tinv_setf; [done|]. apply tinv_upd_curnum; [lia|done].
  - rewrite length_app. simpl. lia.
  - intros i x [Hi|[Hge Hi]]%lookup_app_Some; [by apply rd_nums0|].
    apply list_lookup_singleton_Some in Hi as [Hz <-].
    by replace i with (List.length l) by lia.
  - rewrite length_app. simpl. lia.
  - apply first_setf.
Qed.

(** The character after the last number. *)
Lemma final_step t0 t l v c :
  reading t0 t l (Some v) -> ~ (48 <= c <= 57) -> c <> 59 ->
  exists t', teken_state_numbers t c = Ok (false, t') /\ tinv t' /\ parser_only t0 t' /\
    t_nextstate t' = CSI /\ t_curnum t' = Z.of_nat (List.length (l ++ [v])) /\
    forall i x, (l ++ [v]) !! i = Some x -> t_nums t' !! i = Some x.
Proof.
  intros Hr Hd Hs. pose proof Hr as []. destruct rd_cur0 as [Hf Hcur]. unfold teken_state_numbers.
  rewrite assertC_true, bind_Ok_l by (apply Z.ltb_lt; unfold T_NUMSIZE; lia).
  replace ((48 <=? c) && (c <=? 57)) with false
    by (symmetry; apply andb_false_iff; rewrite !Z.leb_gt; lia).
  rewrite (proj2 (Z.eqb_neq c 59)) by done. rewrite Hf. cbn [andb negb]. cbv iota.
  rewrite rd_curnum0, u32_small by lia. eexists. split; [done|]. split_and!; auto with teken.
  - apply tinv_upd_curnum; [lia|done].
  - tproj. rewrite length_app. simpl. lia.
  - intros i x [Hi|[Hge Hi]]%lookup_app_Some; [by apply rd_nums0|].
    apply list_lookup_singleton_Some in Hi as [Hz <-].
    by replace i with (List.length l) by lia.
Qed.

(** ** Bytes *)

Section bytes.
Context {S : Type} (F : teken_funcs S) (t0 : teken) (s : S).
Hypothesis no_string : has t0 TS_INSTRING = false.

Lemma reading_utf8 t l cur : reading t0 t l cur -> reading t0 (upd_utf8_left t 0) l cur.
Proof. intros []. constructor; try done; auto with teken. Qed.

(** A byte that is not a control character, other than ESC, goes to the state
    function. *)
Lemma state_byte t c :
  has t TS_INSTRING = false -> c = 27 \/ 32 <= c < 128 ->
  teken_input_byte F t s c =
    ('(t', s') ← teken_state F (t_nextstate t) (upd_utf8_left t 0) s c;
     _ ← post_asserts t'; Ok (t', s')).
Proof.
  intros Hf Hc. unfold teken_input_byte.
  replace (Z.land c 0x80) with 0; [cbn [Z.eqb orb]|].
  - unfold teken_input_char. change (has (upd_utf8_left t 0) TS_INSTRING) with (has t TS_INSTRING).
    rewrite Hf. cbn [andb]. cbv zeta. unfold input_switch.
    repeat (rewrite (proj2 (Z.eqb_neq c _)) by lia). done.
  - symmetry. apply truth_false. change 0x80 with (2 ^ 7). rewrite land_pow2_truth by lia.
    apply Z.testbit_false; [lia|]. rewrite Z.div_small by lia. done.
Qed.

Lemma csi_numbers : has_numbers CSI = true.
Proof. vm_compute. reflexivity. Qed.

Lemma only_no_string t : parser_only t0 t -> has t TS_INSTRING = false.
Proof. intros H. rewrite <-no_string. by apply (parser_only_has t0 t 7). Qed.

(** A byte the number parser takes. *)
Lemma taken_byte t l cur c t' :
  reading t0 t l cur -> 32 <= c < 128 -> tinv t' ->
  teken_state_numbers (upd_utf8_left t 0) c = Ok (true, t') ->
  teken_input_byte F t s c = Ok (t', s).
Proof.
  intros Hr Hc Ht' Hn. rewrite state_byte; [|by apply only_no_string, Hr|by right].
  rewrite (rd_state _ _ _ _ Hr). unfold teken_state. rewrite csi_numbers, Hn, bind_Ok_l.
  cbn [mbind outcome_bind]. rewrite post_asserts_ok by done. done.
Qed.

Lemma input_bytes_app t a b :
  input_bytes F t s (a ++ b) = ('(t', s') ← input_bytes F t s a; input_bytes F t' s' b).
Proof.
  revert t. generalize s as s0. induction a as [|c a IH]; intros s0 t; [done|].
  cbn [app input_bytes]. destruct (teken_input_byte F t s0 c) as [[t1 s1]|]; [|done].
  rewrite !bind_Ok_l. apply IH.
Qed.

Lemma digits_run fuel n t l :
  reading t0 t l None -> 0 <= n <= NUM_MAX -> n < 10 ^ Z.of_nat fuel -> (0 < fuel)%nat ->
  exists t', input_bytes F t s (digits fuel n) = Ok (t', s) /\ reading t0 t' l (Some n).
Proof.
  revert n. induction fuel as [|fuel IH]; intros n Hr Hn Hf Hpos; [lia|]. cbn [digits].
  unfold NUM_MAX in *. destruct (Z.ltb_spec n 10) as [Hlt|Hge].
  - destruct (digit_step t0 (upd_utf8_left t 0) l None n) as (t' & He & Hr');
      [by apply reading_utf8|lia|done|].
    exists t'. rewrite input_last. erewrite taken_byte; [by split|done|lia|apply Hr'|done].
  - rewrite Nat2Z.inj_succ, Z.pow_succ_r in Hf by lia.
    assert (n `div` 10 < 10 ^ Z.of_nat fuel) by (apply Z.div_lt_upper_bound; lia).
    assert (0 <= n `div` 10 < 42949672) by
      (split; [apply Z.div_pos; lia|apply Z.div_lt_upper_bound; lia]).
    assert (0 < fuel)%nat by (destruct fuel; [simpl in *; lia|lia]).
    destruct (IH (n `div` 10) Hr) as (t1 & He1 & Hr1); [lia..|].
    pose proof (Z.mod_pos_bound n 10 ltac:(lia)).
    destruct (digit_step t0 (upd_utf8_left t1 0) l (Some (n `div` 10)) (n `mod` 10))
      as (t' & He & Hr'); [by apply reading_utf8|lia|lia|].
    exists t'. rewrite input_bytes_app, He1, bind_Ok_l, input_last.
    erewrite taken_byte; [|done|lia|apply Hr'|done]. split; [done|].
    simpl default in Hr'. replace n with (n `div` 10 * 10 + n `mod` 10) at 1; [done|].
    pose proof (Z.div_mod n 10 ltac:(lia)). lia.
Qed.

Lemma numbers_run xs t l :
  reading t0 t l None -> xs <> [] -> (List.length l + List.length xs <= 8)%nat ->
  Forall num_ok xs ->
  exists t' l' v, input_bytes F t s (numbers xs) = Ok (t', s) /\ l ++ xs = l' ++ [v] /\
    reading t0 t' l' (Some v).
Proof.
  revert t l. induction xs as [|x xs IH]; intros t l Hr Hne Hlen Hx; [done|].
  apply Forall_cons in Hx as [Hx Hxs]. simpl List.length in Hlen.
  destruct (digits_run 10 x t l Hr) as (t1 & He1 & Hr1); [apply Hx| |lia|].
  { unfold num_ok, NUM_MAX in Hx. change (10 ^ Z.of_nat 10) with 10000000000. lia. }
  rewrite <-decimal_digits in He1 by done.
  destruct xs as [|y xs]; [by exists t1, l, x|].
  change (numbers (x :: y :: xs)) with (decimal x ++ 59 :: numbers (y :: xs)).
  simpl List.length in Hlen.
  destruct (semicolon_step t0 (upd_utf8_left t1 0) l x) as (t2 & He2 & Hr2);
    [by apply reading_utf8|lia|].
  destruct (IH t2 (l ++ [x]) Hr2) as (t' & l' & v & He & Hl & Hr'); [done| |done|].
  { rewrite length_app. simpl. lia. }
  exists t', l', v. rewrite input_bytes_app, He1, bind_Ok_l. cbn [input_bytes].
  erewrite taken_byte; [|done|lia|apply Hr2|done]. rewrite bind_Ok_l.
  split; [done|]. split; [|done]. by rewrite <-Hl, <-app_assoc.
Qed.

(** The two bytes that open the sequence. *)
Lemma csi_open t :
  tinv t -> parser_only t0 t -> t_nextstate t = [] ->
  exists t', input_bytes F t s CSI = Ok (t', s) /\ reading t0 t' [] None.
Proof.
  intros Ht Ho Hst. cbn [input_bytes CSI].
  rewrite state_byte, Hst by (by apply only_no_string || by left).
  unfold teken_state at 1. rewrite init_no_numbers, bind_Ok_l.
  change (find_cmd [] 27) with (@None seq_row). change (is_prefix ([] ++ [27])) with true.
  cbv iota. rewrite bind_Ok_l. set (t1 := teken_state_switch _ _).
  assert (forall u st, tinv u -> tinv (teken_state_switch u st)) as Hsw
    by (intros; by apply state_switch_idle).
  assert (tinv t1) as Ht1 by (apply Hsw; auto with teken).
  assert (parser_only t0 t1) as Ho1 by (apply parser_only_setf; auto with teken).
  rewrite post_asserts_ok, !bind_Ok_l by done.
  rewrite state_byte; [|by apply only_no_string|right; lia].
  change (t_nextstate t1) with [27]. unfold teken_state.
  change (has_numbers [27]) with false. change (find_cmd [27] 91) with (@None seq_row).
  change (is_prefix ([27] ++ [91])) with true. cbv iota. rewrite !bind_Ok_l.
  set (t2 := teken_state_switch _ _).
  assert (tinv t2) as Ht2 by (apply Hsw; auto with teken).
  rewrite post_asserts_ok, !bind_Ok_l by done. exists t2. split; [done|].
  constructor; try done; [apply parser_only_setf; auto with teken|simpl; lia|apply first_setf].
Qed.
End bytes.

(** ** The call *)

(** Every row after ESC [ is found by its final character, which is no control
    character, digit or semicolon. *)
Lemma csi_rows :
  Forall (fun r => forall c, sq_bytes r = CSI ++ [c] ->
    find_cmd CSI c = Some r /\ 60 <= c < 128) sequences.
Proof.
  unfold sequences. repeat apply Forall_cons_2; try apply Forall_nil_2;
    intros c Hc; vm_compute in Hc; try discriminate Hc; injection Hc as <-;
    (split; [vm_compute; reflexivity|lia]).
Qed.

Lemma tail_drop {A} k (xs : list A) : tail (drop k xs) = drop (Datatypes.S k) xs.
Proof. revert k. induction xs as [|x xs IH]; intros [|k]; simpl; auto using drop_0. Qed.

Lemma arg_values_arguments t xs l k :
  t_curnum t = Z.of_nat (List.length xs) -> (forall i x, xs !! i = Some x -> t_nums t !! i = Some x) ->
  arg_values t (1 + Z.of_nat k) l = Ok (arguments l (drop k xs)).
Proof.
  intros Hc Hn. revert k. induction l as [|a l IH]; intros k; cbn [arg_values arguments]; [done|].
  replace (1 + Z.of_nat k + 1) with (1 + Z.of_nat (Datatypes.S k)) by lia.
  rewrite IH, <-(tail_drop k xs). unfold arg_value. rewrite Hc.
  replace (Z.to_nat (1 + Z.of_nat k - 1)) with k by lia.
  destruct (xs !! k) as [x|] eqn:E.
  - pose proof (lookup_lt_Some _ _ _ E). rewrite (drop_S xs x k E). simpl head. unfold readC.
    rewrite (Hn k x E), (proj2 (Z.ltb_ge _ _)) by lia. by destruct a.
  - apply lookup_ge_None in E. rewrite drop_ge by done. simpl head.
    rewrite (proj2 (Z.ltb_lt _ _)) by lia. by destruct a.
Qed.

Section call.
Context {S : Type} (F : teken_funcs S).

Lemma csi_call_run r l c t s xs :
  r ∈ sequences -> sq_bytes r = CSI ++ [c] -> sq_args r = args l ->
  tinv t -> t_nextstate t = [] -> has t TS_INSTRING = false -> t_utf8_left t = 0 ->
  (1 <= List.length xs <= 8)%nat -> Forall num_ok xs ->
  exists t1, tinv t1 /\ parser_only t t1 /\
    input_bytes F t s (CSI ++ numbers xs ++ [c]) =
      ('(t', s') ← call_cmd F (sq_cmd r) t1 s (nth 0 (arguments l xs) 0)
                     (nth 1 (arguments l xs) 0);
       let t' := state_done CSI t' in
       _ ← post_asserts t'; Ok (t', s')).
Proof.
  intros Hr Hb Ha Ht Hst Hstr Hu8 Hlen Hxs.
  destruct (proj1 (Forall_forall _ _) csi_rows r Hr c Hb) as [Hf Hc].
  assert (parser_only t t) as Hself.
  { exists (t_nextstate t), (t_stateflags t), (t_nums t), (t_curnum t). split; [|done].
    destruct t; simpl in *; by rewrite Hu8. }
  destruct (csi_open F t s Hstr t Ht Hself Hst) as (ta & Hea & Hra).
  destruct (numbers_run F t s Hstr xs ta [] Hra) as (tb & l' & v & Heb & Hl & Hrb);
    [by destruct xs; [simpl in *; lia|]|simpl; lia|done|].
  destruct (final_step t (upd_utf8_left tb 0) l' v c) as (t1 & Hen & Ht1 & Ho1 & Hs1 & Hc1 & Hn1);
    [by apply reading_utf8|lia|lia|].
  rewrite <-Hl in Hc1, Hn1. cbn [app] in Hc1, Hn1.
  exists t1. split_and!; [done..|].
  rewrite input_bytes_app, Hea, bind_Ok_l, input_bytes_app, Heb, bind_Ok_l, input_last.
  rewrite state_byte; [|by apply (only_no_string t Hstr), Hrb|lia].
  rewrite (rd_state _ _ _ _ Hrb). unfold teken_state.
  rewrite csi_numbers, Hen, bind_Ok_l, Hf. unfold run_row. rewrite Ha.
  pose proof (arg_values_arguments t1 xs l 0 Hc1 Hn1) as Hargs. cbn [drop] in Hargs.
  change (1 + Z.of_nat 0) with 1 in Hargs. rewrite Hargs, bind_Ok_l.
  by destruct (call_cmd _ _ _ _ _ _) as [[]|].
Qed.
End call.

(** The arguments of a control sequence reach the function it calls:
    whatever numbers are written in decimal between ESC [ and the final
    character, up to eight of them, the row's function is called with them (1
    in place of a 0 or missing [n]), on a terminal that differs from the one
    before in the parser's own fields only. *)
Theorem csi_call {S} (F : teken_funcs S) r l c t s xs :
  r ∈ sequences -> sq_bytes r = CSI ++ [c] -> sq_args r = args l ->
  tinv t -> t_nextstate t = [] -> has t TS_INSTRING = false -> t_utf8_left t = 0 ->
  (1 <= List.length xs <= 8)%nat -> Forall num_ok xs ->
  exists t1, tinv t1 /\ parser_only t t1 /\
    input_bytes F t s (CSI ++ numbers xs ++ [c]) =
      ('(t', s') ← call_cmd F (sq_cmd r) t1 s (nth 0 (arguments l xs) 0)
                     (nth 1 (arguments l xs) 0);
       let t' := state_done CSI t' in
       _ ← post_asserts t'; Ok (t', s')).
Proof. apply csi_call_run. Qed.

Lemma csi_call_witness :
  row "[d" (args [arg_n]) vertical_position_absolute ∈ sequences /\
  exists t1, tinv t1 /\ parser_only (fresh_term 24 80) t1 /\
    input_bytes null_hooks (fresh_term 24 80) [] [27; 91; 49; 50; 100] =
      ('(t', s') ← call_cmd null_hooks vertical_position_absolute t1 [] 12 0;
       let t' := state_done CSI t' in
       _ ← post_asserts t'; Ok (t', s')).
Proof.
  assert (row "[d" (args [arg_n]) vertical_position_absolute ∈ sequences) as Hin.
  { apply list_elem_of_In. unfold sequences. simpl In. tauto. }
  split; [exact Hin|].
  apply (csi_call null_hooks _ [arg_n] 100 (fresh_term 24 80) [] [12] Hin);
    try reflexivity; [apply fresh_idle; lia|simpl; lia|].
  repeat constructor; unfold NUM_MAX; lia.
Defined.

(** ESC [ line ; column H moves the cursor there: to that line of the
    origin region and that column of the window, or to the last ones when they
    are too large; the parser is ready for the next character. *)
Theorem cup_moves {S} (F : teken_funcs S) hinv `{!HooksOk F hinv} t s y x :
  tinv t -> hinv (t_winsize t) s -> t_nextstate t = [] -> has t TS_INSTRING = false ->
  t_utf8_left t = 0 -> 1 <= y <= NUM_MAX -> 1 <= x <= NUM_MAX ->
  exists t' s', input_bytes F t s (CSI ++ numbers [y; x] ++ [72]) = Ok (t', s') /\
    tinv t' /\ hinv (t_winsize t') s' /\ t_winsize t' = t_winsize t /\ t_nextstate t' = [] /\
    t_cursor t' =
      mk_pos (Z.min (y - 1 + ts_begin (t_originreg t)) (ts_end (t_originreg t) - 1))
        (Z.min (x - 1) (tp_col (t_winsize t) - 1)).
Proof.
  intros Ht Hs Hst Hstr Hu8 Hy Hx.
  assert (row "[H" (args [arg_n; arg_n]) cursor_position ∈ sequences) as Hin
    by (apply list_elem_of_In; unfold sequences; simpl In; tauto).
  destruct (csi_call_run F _ [arg_n; arg_n] 72 t s [y; x] Hin) as (t1 & Ht1 & Ho1 & ->); try done.
  { simpl. lia. }
  { repeat apply Forall_cons_2; try apply Forall_nil_2; unfold num_ok; lia. }
  assert (t_winsize t1 = t_winsize t /\ t_originreg t1 = t_originreg t) as [Hw Ho]
    by (by destruct Ho1 as (? & ? & ? & ? & -> & _)).
  cbn [row sq_cmd arguments head tail nth call_cmd].
  rewrite (proj2 (Z.eqb_neq y 0)), (proj2 (Z.eqb_neq x 0)) by lia.
  destruct (tinv_bounds t1 Ht1) as ([] & ? & ? & [? ?] & [? ?]). rewrite Hw, Ho in *.
  unfold NUM_MAX in *.
  unfold teken_subr_cursor_position. cbv zeta. unfold upd_cursor_row, upd_cursor_col. tproj.
  rewrite Hw, Ho, (u32_small (y - 1)), (u32_small (_ + _)), (u32_small (x - 1)) by lia.
  set (r := clamp _ _). set (cc := clamp _ _).
  assert (r = Z.min (y - 1 + ts_begin (t_originreg t)) (ts_end (t_originreg t) - 1)) as Hr
    by (subst r; unfold clamp; zcase; lia).
  assert (cc = Z.min (x - 1) (tp_col (t_winsize t) - 1)) as Hcc
    by (subst cc; unfold clamp; zcase; lia).
  rewrite !u16_small by lia.
  destruct (goto_good F hinv (t_curnum t1) t1 s (mk_pos r cc) TS_WRAPPED) as (t2 & s2 & He & Ht2 & Hs2 & _);
    [done|by rewrite Hw|done| |done|].
  { unfold pos_in. rewrite Hw, Ho. tproj. lia. }
  unfold moved, keep in He |- *.
  destruct (teken_funcs_cursor F (clrf (upd_cursor t1 (mk_pos r cc)) TS_WRAPPED) s) as [s3|] eqn:Ec;
    [|done].
  change (upd_cursor (upd_cursor t1 ?p) ?q) with (upd_cursor t1 q) in *.
  rewrite bind_Ok_l in He. injection He as He Hes. subst s3.
  rewrite Ec, !bind_Ok_l, He. cbv beta iota zeta.
  pose proof (state_done_idle CSI t2 Ht2) as [Htd _]; [done|].
  rewrite post_asserts_ok, bind_Ok_l by done.
  assert (t_winsize t2 = t_winsize t) as Hw2 by (subst t2; done).
  exists (state_done CSI t2), s2. split_and!; try done.
  rewrite <-He. cbn. by rewrite Hr, Hcc.
Qed.

Lemma cup_moves_witness :
  exists t' s', input_bytes null_hooks (fresh_term 24 80) [] [27; 91; 51; 59; 57; 57; 72] = Ok (t', s') /\
    t_cursor t' = mk_pos 2 79.
Proof.
  destruct (cup_moves null_hooks (fun _ _ => True) (fresh_term 24 80) [] 3 99)
    as (t' & s' & He & _ & _ & _ & _ & Hc);
    try reflexivity; try (unfold NUM_MAX; lia); try exact I; [apply fresh_idle; lia|].
  exists t', s'. split; [exact He|]. rewrite Hc. reflexivity.
Defined.
