(* ===== verification/Term.v ===== *)
(** * The terminal of a process (vtc_process.c)

    The screen memory [vram], the drawing routines handed to teken, resizing,
    and the text searches of [-expect-text] and [-match-text]. *)

From Stdlib Require Import ZArith Lia.
From stdpp Require Import base option numbers list.
From S2P Require Import Prelude TekenData TekenSubr TekenState.
#[local] Open Scope Z_scope.

(** ** Data *)

(** The fields of [struct process] the terminal uses; [p_tty] is what was
    written to [fd_term].  [pp->tek] is passed along as teken's own state, and
    the NULL [vram] of a new process is the empty list. *)
Record process := mk_process {
  p_nlin : Z;
  p_ncol : Z;
  p_ansi_response : bool;
  p_vram : list (list Z);
  p_tty : list Z
}.

Definition upd_vram (pp : process) (v : list (list Z)) : process :=
  mk_process (p_nlin pp) (p_ncol pp) (p_ansi_response pp) v (p_tty pp).

(** ** The standard library *)

(** [memcpy] and [memmove] of [n] bytes between two objects, or inside one:
    from [src + si] to [dst + di]. *)
Definition memmoveC (dst : list Z) (di : Z) (src : list Z) (si n : Z) : outcome (list Z) :=
  if (0 <=? n) && (0 <=? di) && (0 <=? si) &&
     (di + n <=? Z.of_nat (length dst)) && (si + n <=? Z.of_nat (length src))
  then Ok (list_inserts (Z.to_nat di) (take (Z.to_nat n) (drop (Z.to_nat si) src)) dst)
  else Fault FBounds.

(** The bytes of a C string, without its NUL. *)
Fixpoint cstr (l : list Z) : list Z :=
  match l with
  | [] => []
  | c :: l => if c =? 0 then [] else c :: cstr l
  end.

Definition starts_with (s pat : list Z) : bool := bool_decide (take (length pat) s = pat).

(** [strstr] on the bytes of two C strings: the offset of the first match. *)
Fixpoint strstr (s pat : list Z) : option nat :=
  if starts_with s pat then Some 0%nat
  else match s with [] => None | _ :: s => option_map S (strstr s pat) end.

(** ** Drawing *)

Definition term_cursor (pp : process) (pos : teken_pos) : outcome process := Ok pp.

Definition term_putchar (pp : process) (pos : teken_pos) (ch : Z) (at_ : teken_attr)
    : outcome process :=
  let ch := if (126 <? ch) || (ch <? 32) then 63 else ch in
  _ ← assertC (tp_row pos <? p_nlin pp);
  _ ← assertC (tp_col pos <? p_ncol pp);
  row ← readC (p_vram pp) (Z.to_nat (tp_row pos));
  row ← writeC row (Z.to_nat (tp_col pos)) ch;
  v ← writeC (p_vram pp) (Z.to_nat (tp_row pos)) row;
  Ok (upd_vram pp v).

(** The two loops of [term_fill]: [n] columns from [col], [n] rows from [row]. *)
Fixpoint fill_cols (n : nat) (pp : process) (row col c : Z) (a : teken_attr) : outcome process :=
  match n with
  | O => Ok pp
  | S n => pp ← term_putchar pp (mk_pos row col) c a; fill_cols n pp row (col + 1) c a
  end.

Fixpoint fill_rows (n : nat) (pp : process) (row c0 c1 c : Z) (a : teken_attr) : outcome process :=
  match n with
  | O => Ok pp
  | S n => pp ← fill_cols (Z.to_nat (c1 - c0)) pp row c0 c a; fill_rows n pp (row + 1) c0 c1 c a
  end.

Definition term_fill (pp : process) (r : teken_rect) (c : Z) (a : teken_attr) : outcome process :=
  fill_rows (Z.to_nat (tp_row (tr_end r) - tp_row (tr_begin r))) pp (tp_row (tr_begin r))
    (tp_col (tr_begin r)) (tp_col (tr_end r)) c a.

(** The [memmove] of both loops of [term_copy]. *)
Definition copy_line (pp : process) (r : teken_rect) (p : teken_pos) (ncol y : Z) : outcome process :=
  dst ← readC (p_vram pp) (Z.to_nat (tp_row p + y));
  src ← readC (p_vram pp) (Z.to_nat (tp_row (tr_begin r) + y));
  dst ← memmoveC dst (tp_col p) src (tp_col (tr_begin r)) ncol;
  v ← writeC (p_vram pp) (Z.to_nat (tp_row p + y)) dst;
  Ok (upd_vram pp v).

(** [for (y = 0; y < nrow; y++)]; [n] is [nrow - y]. *)
Fixpoint copy_down (n : nat) (pp : process) (r : teken_rect) (p : teken_pos) (ncol y : Z)
    : outcome process :=
  match n with
  | O => Ok pp
  | S n => pp ← copy_line pp r p ncol y; copy_down n pp r p ncol (y + 1)
  end.

(** [for (y = nrow - 1; y >= 0; y--)]; [n] is [y + 1]. *)
Fixpoint copy_up (n : nat) (pp : process) (r : teken_rect) (p : teken_pos) (ncol : Z)
    : outcome process :=
  match n with
  | O => Ok pp
  | S n => pp ← copy_line pp r p ncol (Z.of_nat n); copy_up n pp r p ncol
  end.

Definition term_copy (pp : process) (r : teken_rect) (p : teken_pos) : outcome process :=
  let nrow := tp_row (tr_end r) - tp_row (tr_begin r) in
  let ncol := tp_col (tr_end r) - tp_col (tr_begin r) in
  if tp_row p <? tp_row (tr_begin r) then copy_down (Z.to_nat nrow) pp r p ncol 0
  else copy_up (Z.to_nat nrow) pp r p ncol.

(** ** Resizing *)

(** A new line: [calloc], [memset] and the NUL. *)
Definition blank_line (col : Z) : list Z := replicate (Z.to_nat col) 32 ++ [0].

(** Line [i] of the new memory. *)
Definition resize_line (pp : process) (col : Z) (i : nat) : outcome (list Z) :=
  if Z.of_nat i <? p_nlin pp then
    let j := if p_ncol pp <? col then p_ncol pp else col in
    old ← readC (p_vram pp) i;
    memmoveC (blank_line col) 0 old 0 j
  else Ok (blank_line col).

Fixpoint resize_lines (pp : process) (col : Z) (n i : nat) : outcome (list (list Z)) :=
  match n with
  | O => Ok []
  | S n => l ← resize_line pp col i; ls ← resize_lines pp col n (S i); Ok (l :: ls)
  end.

(** The [free]s of the old lines, each of which must exist. *)
Definition free_lines (pp : process) : outcome unit :=
  if decide (Z.to_nat (p_nlin pp) <= length (p_vram pp))%nat then Ok tt else Fault FBounds.

Definition term_resize (t : teken) (pp : process) (lin col : Z) : outcome (teken * process) :=
  vram ← resize_lines pp col (Z.to_nat lin) 0;
  _ ← free_lines pp;
  let pp := mk_process lin col (p_ansi_response pp) vram (p_tty pp) in
  t ← teken_set_winsize t (mk_pos (u16 lin) (u16 col));
  Ok (t, pp).

Definition term_param (t : teken) (pp : process) (p v : Z) : outcome (teken * process) :=
  '(t, pp) ← (if (p =? TP_132COLS) && truth v then term_resize t pp (p_nlin pp) 132
              else Ok (t, pp));
  if (p =? TP_132COLS) && negb (truth v) then term_resize t pp (p_nlin pp) 80 else Ok (t, pp).

(** ** Responses *)

Section term.
(** [write(2)] on the process's terminal: the number of bytes it took. *)
Variable write : list Z -> Z.

Definition term_respond (pp : process) (p : list Z) : outcome process :=
  if p_ansi_response pp then
    if write p =? Z.of_nat (length p) then
      Ok (mk_process (p_nlin pp) (p_ncol pp) (p_ansi_response pp) (p_vram pp) (p_tty pp ++ p))
    else Fault FFatal
  else Ok pp.

Definition process_teken_func : teken_funcs process :=
  mk_funcs None (Some term_cursor) (Some term_putchar) (Some term_fill) (Some term_copy)
    None None (Some term_param) (Some term_respond).
End term.

(** ** Searching *)

(** The result is whether the text was found, and [*x]. *)
Definition term_find_textline (pp : process) (x y : Z) (pat : list Z) : outcome (bool * Z) :=
  row ← readC (p_vram pp) (Z.to_nat y);
  if x =? 0 then
    match strstr (cstr row) pat with
    | Some o => Ok (true, 1 + Z.of_nat o)
    | None => Ok (false, x)
    end
  else if x <=? p_ncol pp then
    let l := Z.of_nat (length pat) in
    _ ← assertC ((x - 1) + (l - 1) <? p_ncol pp);
    Ok (starts_with (drop (Z.to_nat (x - 1)) row) pat, x)
  else Ok (false, x).

(** [for (yy = 0; yy < pp->nlin; yy++)]; [n] is [nlin - yy]. *)
Fixpoint find_text_lines (n : nat) (pp : process) (x yy : Z) (pat : list Z)
    : outcome (bool * Z * Z) :=
  match n with
  | O => Ok (false, x, 0)
  | S n =>
      '(found, x) ← term_find_textline pp x yy pat;
      if (found : bool) then Ok (true, x, yy + 1) else find_text_lines n pp x (yy + 1) pat
  end.

Definition term_find_text (pp : process) (x y : Z) (pat : list Z) : outcome (bool * Z * Z) :=
  if y =? 0 then find_text_lines (Z.to_nat (p_nlin pp)) pp x 0 pat
  else if y <=? p_nlin pp then
    '(found, x) ← term_find_textline pp x (y - 1) pat; Ok (found : bool, x, y)
  else Ok (false, x, y).

(** The text [term_match_text] collects from 0-based line [y] and column [x],
    and the length it hands to [VRE_match]. *)
Definition match_lines (pp : process) (x y : Z) : list Z :=
  concat (map (fun row => take (Z.to_nat (p_ncol pp - x)) (drop (Z.to_nat x) row) ++ [10])
            (take (Z.to_nat (p_nlin pp - y)) (drop (Z.to_nat y) (p_vram pp)))).

Definition match_len (pp : process) (x y : Z) : Z := (p_nlin pp - y) * (p_ncol pp - x).

(** ** A new process *)

(** [process_coverage]. *)
Definition process_coverage (t : teken) : outcome teken :=
  let _ := teken_get_sequence t TKEY_UP in
  let _ := teken_get_sequence t TKEY_F1 in
  _ ← teken_256to8 0;
  _ ← teken_256to16 0;
  let t := teken_set_defattr t (teken_get_defattr t) in
  let t := teken_set_curattr t (teken_get_curattr t) in
  t ← teken_set_cursor t (mk_pos 0 8);
  _ ← teken_get_defattr_cons25 t;
  Ok t.

(** The terminal half of [process_new], with [t] the zeroed [pp->tek]. *)
Definition process_new (t : teken) : outcome (teken * process) :=
  t ← teken_init t;
  '(t, pp) ← term_resize t (mk_process 0 0 false [] []) 24 80;
  t ← process_coverage t;
  Ok (t, pp).
