(* ===== verification/TermSafe.v ===== *)
(** * What the terminal of a process shows

    [screen_ok] is the invariant of the screen memory, the [HooksOk] instance
    connects vtc_process.c to the theorem of TekenInput.v, and the theorems say
    what copying, filling, scrolling, resizing and searching do to the cells. *)

From Stdlib Require Import ZArith Lia.
From stdpp Require Import base option numbers list.
From S2P Require Import Prelude TekenData TekenSubr TekenState TekenInv TekenSafe TekenInput Term.
#[local] Open Scope Z_scope.

(** ** The screen *)

Definition printable (c : Z) : Prop := 32 <= c <= 126.

(** A line: [ncol] printable characters and the NUL. *)
Definition line_ok (ncol : Z) (row : list Z) : Prop :=
  exists s, row = s ++ [0] /\ Z.of_nat (length s) = ncol /\ Forall printable s.

Record screen_ok (win : teken_pos) (pp : process) : Prop := {
  so_nlin : p_nlin pp = tp_row win;
  so_ncol : p_ncol pp = tp_col win;
  so_len : Z.of_nat (length (p_vram pp)) = tp_row win;
  so_lines : Forall (line_ok (tp_col win)) (p_vram pp)
}.

(** The character at 0-based line [r] and column [c]. *)
Definition cell (v : list (list Z)) (r c : nat) : option Z := row ← v !! r; row !! c.

Lemma line_ok_length ncol row : line_ok ncol row -> Z.of_nat (length row) = ncol + 1.
Proof. intros (s & -> & <- & _). rewrite length_app. simpl. lia. Qed.

Lemma so_line win pp r :
  screen_ok win pp -> (Z.of_nat r < tp_row win) ->
  exists row, p_vram pp !! r = Some row /\ readC (p_vram pp) r = Ok row /\
    line_ok (tp_col win) row.
Proof.
  intros [] Hr. destruct (readC_lt (p_vram pp) r) as (row & Hl & Hrd); [lia|].
  exists row. split_and!; [done..|]. by eapply Forall_lookup_1.
Qed.

Lemma line_ok_insert ncol row i c :
  line_ok ncol row -> 0 <= i < ncol -> printable c -> line_ok ncol (<[Z.to_nat i := c]> row).
Proof.
  intros (s & -> & Hl & Hf) Hi Hc. exists (<[Z.to_nat i := c]> s).
  rewrite insert_app_l by lia. rewrite length_insert. split_and!; [done..|].
  by apply Forall_insert.
Qed.

Lemma screen_ok_insert win pp r row :
  screen_ok win pp -> line_ok (tp_col win) row ->
  screen_ok win (upd_vram pp (<[r := row]> (p_vram pp))).
Proof.
  intros [] Hrow. constructor; cbn [p_nlin p_ncol p_vram upd_vram]; [done..| |].
  - by rewrite length_insert.
  - by apply Forall_insert.
Qed.

(** ** Drawing one character *)

(** The character [term_putchar] stores. *)
Definition shown (ch : Z) : Z := if (126 <? ch) || (ch <? 32) then 63 else ch.

Lemma shown_printable ch : printable (shown ch).
Proof.
  unfold shown, printable. destruct (Z.ltb_spec 126 ch), (Z.ltb_spec ch 32); simpl; lia.
Qed.

Lemma putchar_eq win pp r c ch a :
  screen_ok win pp -> 0 <= r < tp_row win -> 0 <= c < tp_col win ->
  exists row, p_vram pp !! Z.to_nat r = Some row /\ line_ok (tp_col win) row /\
    term_putchar pp (mk_pos r c) ch a =
      Ok (upd_vram pp (<[Z.to_nat r := <[Z.to_nat c := shown ch]> row]> (p_vram pp))).
Proof.
  intros Hs Hr Hc. destruct (so_line win pp (Z.to_nat r) Hs) as (row & Hl & Hrd & Hok); [lia|].
  exists row. split_and!; [done..|]. unfold term_putchar. cbn [tp_row tp_col].
  rewrite (so_nlin _ _ Hs), (so_ncol _ _ Hs), !assertC_true, !bind_Ok_l, Hrd
    by (apply Z.ltb_lt; lia).
  rewrite bind_Ok_l. pose proof (line_ok_length _ _ Hok). pose proof (so_len _ _ Hs).
  rewrite writeC_lt, bind_Ok_l by lia. rewrite writeC_lt, bind_Ok_l by lia. done.
Qed.

Lemma putchar_ok win pp r c ch a :
  screen_ok win pp -> 0 <= r < tp_row win -> 0 <= c < tp_col win ->
  exists pp', term_putchar pp (mk_pos r c) ch a = Ok pp' /\ screen_ok win pp'.
Proof.
  intros Hs Hr Hc. destruct (putchar_eq win pp r c ch a Hs Hr Hc) as (row & Hl & Hok & ->).
  eexists. split; [done|]. apply screen_ok_insert; [done|].
  apply line_ok_insert; [done..|apply shown_printable].
Qed.

Lemma cell_insert v r c x r' c' row :
  v !! r = Some row -> (c < length row)%nat ->
  cell (<[r := <[c := x]> row]> v) r' c' =
    if decide (r' = r /\ c' = c) then Some x else cell v r' c'.
Proof.
  intros Hr Hc. unfold cell. pose proof (lookup_lt_Some _ _ _ Hr).
  destruct (decide (r' = r)) as [->|Hne].
  - rewrite list_lookup_insert_eq, Hr by done. simpl. case_decide as Hd.
    + destruct Hd as [_ ->]. by rewrite list_lookup_insert_eq.
    + rewrite list_lookup_insert_ne by naive_solver. done.
  - rewrite list_lookup_insert_ne by done. by rewrite decide_False by naive_solver.
Qed.

(** ** Filling *)

Section fill.
Context (win : teken_pos) (ch : Z) (a : teken_attr).

Lemma fill_cols_ok n pp r c :
  screen_ok win pp -> 0 <= r < tp_row win -> 0 <= c -> c + Z.of_nat n <= tp_col win ->
  exists pp', fill_cols n pp r c ch a = Ok pp' /\ screen_ok win pp' /\
    p_tty pp' = p_tty pp /\ p_ansi_response pp' = p_ansi_response pp /\
    forall i j, cell (p_vram pp') i j =
      if decide (i = Z.to_nat r /\ c <= Z.of_nat j < c + Z.of_nat n)
      then Some (shown ch) else cell (p_vram pp) i j.
Proof.
  revert pp c. induction n as [|n IH]; intros pp c Hs Hr Hc Hn; cbn [fill_cols].
  { exists pp. split_and!; [done..|]. intros i j. by rewrite decide_False by lia. }
  destruct (putchar_eq win pp r c ch a Hs Hr) as (row & Hl & Hok & ->); [lia|].
  rewrite bind_Ok_l. set (pp1 := upd_vram _ _).
  assert (screen_ok win pp1) as Hs1.
  { apply screen_ok_insert; [done|]. apply line_ok_insert; [done|lia|apply shown_printable]. }
  destruct (IH pp1 (c + 1) Hs1 Hr ltac:(lia) ltac:(lia)) as (pp' & -> & Hs' & Ht & Ha & Hcell).
  exists pp'. split_and!; [done..|]. intros i j. rewrite Hcell. subst pp1.
  cbn [p_vram upd_vram]. pose proof (line_ok_length _ _ Hok).
  rewrite (cell_insert _ _ _ _ _ _ row) by (done || lia).
  repeat case_decide; try done; lia.
Qed.

Lemma fill_rows_ok n pp r c0 c1 :
  screen_ok win pp -> 0 <= r -> r + Z.of_nat n <= tp_row win -> 0 <= c0 -> c0 <= c1 ->
  c1 <= tp_col win ->
  exists pp', fill_rows n pp r c0 c1 ch a = Ok pp' /\ screen_ok win pp' /\
    p_tty pp' = p_tty pp /\ p_ansi_response pp' = p_ansi_response pp /\
    forall i j, cell (p_vram pp') i j =
      if decide (r <= Z.of_nat i < r + Z.of_nat n /\ c0 <= Z.of_nat j < c1)
      then Some (shown ch) else cell (p_vram pp) i j.
Proof.
  revert pp r. induction n as [|n IH]; intros pp r Hs Hr Hn H0 H01 H1; cbn [fill_rows].
  { exists pp. split_and!; [done..|]. intros i j. by rewrite decide_False by lia. }
  destruct (fill_cols_ok (Z.to_nat (c1 - c0)) pp r c0 Hs) as (pp1 & -> & Hs1 & Ht1 & Ha1 & Hc1);
    [lia..|].
  rewrite bind_Ok_l.
  destruct (IH pp1 (r + 1) Hs1) as (pp' & -> & Hs' & Ht & Ha & Hcell); [lia..|].
  exists pp'. split_and!; [done..|congruence|congruence|]. intros i j. rewrite Hcell, Hc1.
  repeat case_decide; try done; lia.
Qed.
End fill.

(** [term_fill] of a rectangle of the window. *)
Lemma term_fill_ok win pp r0 c0 r1 c1 ch a :
  screen_ok win pp -> 0 <= r0 <= r1 -> r1 <= tp_row win -> 0 <= c0 <= c1 -> c1 <= tp_col win ->
  exists pp', term_fill pp (mk_rect (mk_pos r0 c0) (mk_pos r1 c1)) ch a = Ok pp' /\
    screen_ok win pp' /\ p_tty pp' = p_tty pp /\ p_ansi_response pp' = p_ansi_response pp /\
    forall i j, cell (p_vram pp') i j =
      if decide (r0 <= Z.of_nat i < r1 /\ c0 <= Z.of_nat j < c1)
      then Some (shown ch) else cell (p_vram pp) i j.
Proof.
  intros Hs Hr Hr1 Hc Hc1. unfold term_fill. cbn [tr_begin tr_end tp_row tp_col].
  destruct (fill_rows_ok win ch a (Z.to_nat (r1 - r0)) pp r0 c0 c1 Hs)
    as (pp' & -> & Hs' & Ht & Ha & Hcell); [lia..|].
  exists pp'. split_and!; [done..|]. intros i j. rewrite Hcell. repeat case_decide; try done; lia.
Qed.

(** ** Copying *)

Lemma inserts_app_l i (k s l : list Z) :
  (i + length k <= length s)%nat -> list_inserts i k (s ++ l) = list_inserts i k s ++ l.
Proof.
  revert i. induction k as [|x k IH]; intros i Hi; [done|]. simpl in *.
  rewrite IH by lia. apply insert_app_l. rewrite length_inserts. lia.
Qed.

(** The line [dst] after [memmove] of [n] bytes to [di] from [src + si]. *)
Definition blit (di si n : nat) (dst src : list Z) : list Z :=
  list_inserts di (take n (drop si src)) dst.

Lemma memmoveC_eq (di si n : Z) dst src :
  0 <= n -> 0 <= di -> 0 <= si -> di + n <= Z.of_nat (length dst) ->
  si + n <= Z.of_nat (length src) ->
  memmoveC dst di src si n = Ok (blit (Z.to_nat di) (Z.to_nat si) (Z.to_nat n) dst src).
Proof.
  intros. unfold memmoveC. by rewrite !(proj2 (Z.leb_le _ _)) by lia.
Qed.

Lemma blit_line_ok ncol ncol' di si n dst src :
  line_ok ncol dst -> line_ok ncol' src -> Z.of_nat (di + n) <= ncol ->
  Z.of_nat (si + n) <= ncol' -> line_ok ncol (blit di si n dst src).
Proof.
  intros (d & -> & Hd & Hdf) (s & -> & Hsl & Hsf) Hdn Hsn. unfold blit.
  rewrite drop_app_le, take_app_le by (rewrite ?length_drop; lia).
  exists (list_inserts di (take n (drop si s)) d). rewrite length_inserts. split_and!; [|done|].
  - apply inserts_app_l. rewrite length_take. lia.
  - by apply Forall_inserts; [|apply Forall_take, Forall_drop].
Qed.

Lemma blit_lookup di si n (dst src : list Z) j :
  (di + n <= length dst)%nat -> (si + n <= length src)%nat ->
  blit di si n dst src !! j =
    if decide (di <= j < di + n)%nat then src !! (j - di + si)%nat else dst !! j.
Proof.
  intros Hd Hs. unfold blit. set (k := take n (drop si src)).
  assert (length k = n) as Hk by (subst k; rewrite length_take, length_drop; lia).
  case_decide as Hj.
  - rewrite list_lookup_inserts by lia. subst k.
    rewrite lookup_take_lt by lia. rewrite lookup_drop. f_equal. lia.
  - destruct (decide (j < di)%nat); [by apply list_lookup_inserts_lt|].
    apply list_lookup_inserts_ge. lia.
Qed.

Section copy.
Context (win : teken_pos) (r0 c0 r1 c1 pr pc : Z).
Hypotheses (Hr0 : 0 <= r0) (Hc0 : 0 <= c0 <= c1) (Hr1 : r1 <= tp_row win)
  (Hc1 : c1 <= tp_col win) (Hpr : 0 <= pr) (Hpr' : pr + (r1 - r0) <= tp_row win)
  (Hpc : 0 <= pc) (Hpc' : pc + (c1 - c0) <= tp_col win).
Local Abbreviation rect := (mk_rect (mk_pos r0 c0) (mk_pos r1 c1)).
Local Abbreviation dest := (mk_pos pr pc).
Local Abbreviation ncol := (c1 - c0).

Lemma copy_line_ok pp y :
  screen_ok win pp -> 0 <= y < r1 - r0 ->
  exists dst src, p_vram pp !! Z.to_nat (pr + y) = Some dst /\
    p_vram pp !! Z.to_nat (r0 + y) = Some src /\
    let line := blit (Z.to_nat pc) (Z.to_nat c0) (Z.to_nat ncol) dst src in
    line_ok (tp_col win) line /\
    copy_line pp rect dest ncol y =
      Ok (upd_vram pp (<[Z.to_nat (pr + y) := line]> (p_vram pp))).
Proof.
  intros Hs Hy.
  destruct (so_line win pp (Z.to_nat (pr + y)) Hs) as (dst & Hd & Hdr & Hdok); [lia|].
  destruct (so_line win pp (Z.to_nat (r0 + y)) Hs) as (src & Hsr & Hsrr & Hsok); [lia|].
  exists dst, src. split_and!; [done..|]. cbv zeta.
  pose proof (line_ok_length _ _ Hdok). pose proof (line_ok_length _ _ Hsok).
  split; [apply (blit_line_ok _ (tp_col win)); done || lia|].
  unfold copy_line. cbn [tp_row tp_col tr_begin]. rewrite Hdr, Hsrr, !bind_Ok_l.
  rewrite memmoveC_eq by lia. rewrite bind_Ok_l. pose proof (so_len _ _ Hs).
  rewrite writeC_lt by lia. done.
Qed.

(** Line [i] once the lines [lo .. hi) of the rectangle are copied. *)
Definition copied (v : list (list Z)) (lo hi : Z) (i : nat) : option (list Z) :=
  if decide (pr + lo <= Z.of_nat i < pr + hi) then
    dst ← v !! i; src ← v !! Z.to_nat (Z.of_nat i - pr + r0);
    Some (blit (Z.to_nat pc) (Z.to_nat c0) (Z.to_nat ncol) dst src)
  else v !! i.

Definition copies (v : list (list Z)) (lo hi : Z) (pp pp' : process) : Prop :=
  screen_ok win pp' /\ p_tty pp' = p_tty pp /\ p_ansi_response pp' = p_ansi_response pp /\
  forall i, p_vram pp' !! i = copied v lo hi i.

(** One more line, at either end of what is copied, as long as its source is
    untouched. *)
Lemma copy_line_step v lo hi pp0 pp y :
  copies v lo hi pp0 pp -> 0 <= y < r1 - r0 -> (y = hi \/ y = lo - 1) -> lo <= hi ->
  (r0 + y < pr + lo \/ pr + hi <= r0 + y) ->
  exists pp', copy_line pp rect dest ncol y = Ok pp' /\
    copies v (Z.min lo y) (Z.max hi (y + 1)) pp0 pp'.
Proof.
  intros (Hs & Ht & Ha & Hl) Hy Hend Hle Hsrc.
  destruct (copy_line_ok pp y Hs Hy) as (dst & src & Hd & Hsr & Hok & ->). cbv zeta in Hok.
  eexists. split; [done|]. split_and!; [by apply screen_ok_insert|done|done|].
  rewrite Hl in Hd, Hsr. unfold copied in Hd, Hsr. rewrite decide_False in Hd by lia.
  rewrite decide_False in Hsr by lia.
  intros i. cbn [p_vram upd_vram]. pose proof (so_len _ _ Hs).
  destruct (decide (i = Z.to_nat (pr + y))) as [->|Hne].
  - rewrite list_lookup_insert_eq by lia. unfold copied. rewrite decide_True by lia.
    rewrite Hd. simpl. replace (Z.to_nat (_ - pr + r0)) with (Z.to_nat (r0 + y)) by lia.
    by rewrite Hsr.
  - rewrite list_lookup_insert_ne, Hl by done. unfold copied.
    repeat case_decide; try done; lia.
Qed.

Lemma copy_down_ok v n pp0 pp y :
  pr < r0 -> copies v 0 y pp0 pp -> 0 <= y -> y + Z.of_nat n = r1 - r0 ->
  exists pp', copy_down n pp rect dest ncol y = Ok pp' /\ copies v 0 (r1 - r0) pp0 pp'.
Proof.
  intros Hlt. revert pp y. induction n as [|n IH]; intros pp y Hc Hy Hn; cbn [copy_down].
  { exists pp. by replace (r1 - r0) with y by lia. }
  destruct (copy_line_step v 0 y pp0 pp y Hc) as (pp1 & -> & Hcp); [lia..|].
  rewrite bind_Ok_l. rewrite Z.min_l, Z.max_r in Hcp by lia. apply IH; done || lia.
Qed.

Lemma copy_up_ok v n pp0 pp :
  r0 <= pr -> copies v (Z.of_nat n) (r1 - r0) pp0 pp -> Z.of_nat n <= r1 - r0 ->
  exists pp', copy_up n pp rect dest ncol = Ok pp' /\ copies v 0 (r1 - r0) pp0 pp'.
Proof.
  intros Hle. revert pp. induction n as [|n IH]; intros pp Hc Hn; cbn [copy_up]; [by exists pp|].
  destruct (copy_line_step v (Z.of_nat (S n)) (r1 - r0) pp0 pp (Z.of_nat n) Hc)
    as (pp1 & -> & Hcp); [lia..|].
  rewrite bind_Ok_l. rewrite Z.min_r, Z.max_l in Hcp by lia. apply IH; done || lia.
Qed.

Lemma copies_refl pp lo : screen_ok win pp -> copies (p_vram pp) lo lo pp pp.
Proof.
  intros Hs. split_and!; [done..|]. intros i. unfold copied. by rewrite decide_False by lia.
Qed.

Lemma term_copy_lines pp :
  screen_ok win pp -> r0 <= r1 ->
  exists pp', term_copy pp rect dest = Ok pp' /\ copies (p_vram pp) 0 (r1 - r0) pp pp'.
Proof.
  intros Hs Hle. unfold term_copy. cbn [tr_begin tr_end tp_row tp_col]. zcase.
  - apply copy_down_ok; [done|by apply copies_refl|lia..].
  - apply copy_up_ok; [done| |lia].
    rewrite Z2Nat.id by lia. by apply copies_refl.
Qed.
End copy.

(** Cell by cell. *)
Lemma term_copy_cells win pp r0 c0 r1 c1 pr pc :
  screen_ok win pp -> 0 <= r0 <= r1 -> r1 <= tp_row win -> 0 <= c0 <= c1 -> c1 <= tp_col win ->
  0 <= pr -> pr + (r1 - r0) <= tp_row win -> 0 <= pc -> pc + (c1 - c0) <= tp_col win ->
  exists pp', term_copy pp (mk_rect (mk_pos r0 c0) (mk_pos r1 c1)) (mk_pos pr pc) = Ok pp' /\
    screen_ok win pp' /\
    forall i j, cell (p_vram pp') i j =
      if decide (pr <= Z.of_nat i < pr + (r1 - r0) /\ pc <= Z.of_nat j < pc + (c1 - c0))
      then cell (p_vram pp) (Z.to_nat (Z.of_nat i - pr + r0)) (Z.to_nat (Z.of_nat j - pc + c0))
      else cell (p_vram pp) i j.
Proof.
  intros Hs Hr Hr1 Hc Hc1 Hpr Hpr' Hpc Hpc'.
  destruct (term_copy_lines win r0 c0 r1 c1 pr pc ltac:(lia) Hc Hr1 Hc1 Hpr Hpr' Hpc Hpc' pp Hs
    ltac:(lia)) as (pp' & -> & Hs' & _ & _ & Hl).
  exists pp'. split_and!; [done..|]. intros i j. unfold cell at 1. rewrite Hl. unfold copied.
  rewrite Z.add_0_r. case_decide as Hi; [|by rewrite decide_False by lia].
  destruct (so_line win pp i Hs) as (dst & Hd & _ & Hdok); [lia|].
  destruct (so_line win pp (Z.to_nat (Z.of_nat i - pr + r0)) Hs) as (src & Hsr & _ & Hsok); [lia|].
  rewrite Hd, Hsr. simpl.
  pose proof (line_ok_length _ _ Hdok). pose proof (line_ok_length _ _ Hsok).
  rewrite blit_lookup by lia. unfold cell. rewrite Hd, Hsr. simpl.
  repeat case_decide; try lia; try done. f_equal. lia.
Qed.

(** [term_copy] is a copy of the whole rectangle, however source and
    destination overlap: every cell of the destination holds what its source
    held before the call, every other cell is untouched, and the lines stay C
    strings of printable characters. *)
Theorem term_copy_ok win pp r0 c0 r1 c1 pr pc :
  screen_ok win pp -> 0 <= r0 <= r1 -> r1 <= tp_row win -> 0 <= c0 <= c1 -> c1 <= tp_col win ->
  0 <= pr -> pr + (r1 - r0) <= tp_row win -> 0 <= pc -> pc + (c1 - c0) <= tp_col win ->
  exists pp', term_copy pp (mk_rect (mk_pos r0 c0) (mk_pos r1 c1)) (mk_pos pr pc) = Ok pp' /\
    screen_ok win pp' /\
    forall i j, cell (p_vram pp') i j =
      if decide (pr <= Z.of_nat i < pr + (r1 - r0) /\ pc <= Z.of_nat j < pc + (c1 - c0))
      then cell (p_vram pp) (Z.to_nat (Z.of_nat i - pr + r0)) (Z.to_nat (Z.of_nat j - pc + c0))
      else cell (p_vram pp) i j.
Proof. apply term_copy_cells. Qed.

Lemma term_copy_ok_witness :
  screen_ok (mk_pos 2 3) (mk_process 2 3 false [[65; 66; 67; 0]; [68; 69; 70; 0]] []) /\
  exists pp', term_copy (mk_process 2 3 false [[65; 66; 67; 0]; [68; 69; 70; 0]] [])
      (mk_rect (mk_pos 0 0) (mk_pos 2 2)) (mk_pos 0 1) = Ok pp' /\
    cell (p_vram pp') 1 2 = Some 69.
Proof.
  assert (screen_ok (mk_pos 2 3)
    (mk_process 2 3 false [[65; 66; 67; 0]; [68; 69; 70; 0]] [])) as Hs.
  { constructor; try done. repeat constructor;
      [exists [65; 66; 67]|exists [68; 69; 70]]; (split; [done|]); (split; [done|]);
      repeat constructor; done. }
  split; [exact Hs|].
  destruct (term_copy_ok _ _ 0 0 2 2 0 1 Hs) as (pp' & He & _ & Hc); try (simpl; lia).
  exists pp'. split; [exact He|]. rewrite Hc. reflexivity.
Defined.

(** ** Resizing *)

Lemma blank_line_ok col : 0 <= col -> line_ok col (blank_line col).
Proof.
  intros Hc. exists (replicate (Z.to_nat col) 32). rewrite length_replicate.
  split_and!; [done|lia|]. apply Forall_replicate. done.
Qed.

Lemma blank_lookup col j :
  (Z.of_nat j < col) -> blank_line col !! j = Some 32.
Proof.
  intros Hj. unfold blank_line. rewrite lookup_app_l by (rewrite length_replicate; lia).
  apply lookup_replicate. lia.
Qed.

(** Any screen: also the empty one of a new process. *)
Definition any_screen (pp : process) : Prop :=
  0 <= p_nlin pp /\ 0 <= p_ncol pp /\ screen_ok (mk_pos (p_nlin pp) (p_ncol pp)) pp.

Lemma screen_any win pp : 0 <= tp_row win -> 0 <= tp_col win -> screen_ok win pp -> any_screen pp.
Proof.
  intros Hr Hc Hs. unfold any_screen. rewrite (so_nlin _ _ Hs), (so_ncol _ _ Hs).
  split_and!; [done..|]. by destruct win.
Qed.

Section resize.
Context (pp : process) (col : Z).
Hypotheses (Hpp : any_screen pp) (Hcol : 0 <= col).

(** Line [i] of the resized screen: what fits of the old line, then blanks. *)
Lemma resize_line_ok i :
  exists l, resize_line pp col i = Ok l /\ line_ok col l /\
    forall j, Z.of_nat j < col -> l !! j =
      if decide (Z.of_nat i < p_nlin pp /\ Z.of_nat j < p_ncol pp)
      then cell (p_vram pp) i j else Some 32.
Proof.
  destruct Hpp as (Hl0 & Hc0 & Hs). unfold resize_line. zcase.
  - destruct (so_line _ pp i Hs) as (old & Ho & Hor & Hok); [done|].
    rewrite Hor, bind_Ok_l. cbn [tp_col] in Hok.
    pose proof (blank_line_ok col Hcol) as Hb.
    pose proof (line_ok_length _ _ Hok). pose proof (line_ok_length _ _ Hb).
    set (j0 := if p_ncol pp <? col then p_ncol pp else col).
    assert (j0 = Z.min (p_ncol pp) col) as Hj0 by (subst j0; zcase; lia).
    rewrite memmoveC_eq by lia. eexists. split; [done|]. split.
    + apply (blit_line_ok col (p_ncol pp)); done || lia.
    + intros j Hj. rewrite blit_lookup by lia. unfold cell. rewrite Ho. simpl.
      repeat case_decide; try lia.
      * f_equal. lia.
      * by apply blank_lookup.
  - exists (blank_line col). split_and!; [done|by apply blank_line_ok|].
    intros j Hj. rewrite decide_False by lia. by apply blank_lookup.
Qed.

Lemma resize_lines_ok n i :
  exists v, resize_lines pp col n i = Ok v /\ length v = n /\ Forall (line_ok col) v /\
    forall k j, (k < n)%nat -> Z.of_nat j < col -> cell v k j =
      if decide (Z.of_nat (i + k) < p_nlin pp /\ Z.of_nat j < p_ncol pp)
      then cell (p_vram pp) (i + k) j else Some 32.
Proof.
  revert i. induction n as [|n IH]; intros i; cbn [resize_lines].
  { exists []. split_and!; [done..|constructor|lia]. }
  destruct (resize_line_ok i) as (l & -> & Hl & Hcell).
  destruct (IH (S i)) as (v & -> & Hlen & Hv & Hcells). rewrite !bind_Ok_l.
  exists (l :: v). split_and!; [done|simpl; lia|by constructor|].
  intros [|k] j Hk Hj.
  - unfold cell at 1. simpl. rewrite Hcell by done. by rewrite Nat.add_0_r.
  - change (cell (l :: v) (S k) j) with (cell v k j). rewrite Hcells by lia.
    by rewrite <-Nat.add_succ_comm.
Qed.
End resize.

(** What [-winsz] and the column switch may ask for. *)
Definition size_ok (lin col : Z) : Prop := 1 <= lin <= 65535 /\ 3 <= col <= 65535.

Lemma term_resize_screen t pp lin col :
  any_screen pp -> resettable t -> size_ok lin col ->
  exists t' pp', term_resize t pp lin col = Ok (t', pp') /\ tinv t' /\
    t_winsize t' = mk_pos lin col /\ t_curnum t' = t_curnum t /\
    screen_ok (mk_pos lin col) pp' /\ p_ansi_response pp' = p_ansi_response pp /\
    p_tty pp' = p_tty pp /\
    forall i j, Z.of_nat i < lin -> Z.of_nat j < col -> cell (p_vram pp') i j =
      if decide (Z.of_nat i < p_nlin pp /\ Z.of_nat j < p_ncol pp)
      then cell (p_vram pp) i j else Some 32.
Proof.
  intros Hpp Ht [Hlin Hcol]. unfold term_resize.
  destruct (resize_lines_ok pp col Hpp ltac:(lia) (Z.to_nat lin) 0)
    as (v & -> & Hlen & Hv & Hcell). rewrite bind_Ok_l.
  unfold free_lines. destruct Hpp as (Hl0 & Hc0 & Hs). pose proof (so_len _ _ Hs) as Hlen0.
  cbn [tp_row] in Hlen0. rewrite decide_True, bind_Ok_l by lia. cbv zeta.
  rewrite !u16_small by lia.
  destruct (set_winsize_eq t (mk_pos lin col)) as (t' & -> & Hw & Hnu & Hcn & _).
  exists (reset_state t'). eexists. split; [done|]. split_and!; try done.
  - apply reset_tinv. destruct Ht. by constructor; rewrite ?Hw, ?Hnu, ?Hcn.
  - by constructor; cbn [p_nlin p_ncol p_vram tp_row tp_col]; [..|rewrite Hlen; lia|].
  - intros i j Hi Hj. apply Hcell; lia.
Qed.

(** ** The terminal of a process, end to end

    The drawing routines of vtc_process.c keep the contract of TekenInv.v, so
    that the emulator and the screen are safe together; and what the screen
    shows after scrolling, after printing a text, and to the searches. *)

(** ** The contract *)

(** What the code relies on of write(2) on a terminal: it takes all it is given.
    Otherwise [term_respond] ends the test case. *)
Definition takes_all (write : list Z -> Z) : Prop :=
  forall p, write p = Z.of_nat (length p).

Section hooks.
Context (write : list Z -> Z).
Hypothesis write_all : takes_all write.

#[local] Instance process_hooks_ok : HooksOk (process_teken_func write) screen_ok.
Proof using write_all.
  constructor; try discriminate; eexists; (split; [reflexivity|]).
  - intros win s p Hs _ _. by exists s.
  - intros win s [r c] ch a Hs Hr Hc. by apply putchar_ok.
  - intros win s r0 c0 r1 c1 c a Hs Hr Hr1 Hc Hc1.
    destruct (term_fill_ok win s r0 c0 r1 c1 c a Hs) as (s' & He & Hs' & _); [lia..|].
    by exists s'.
  - intros win s r0 c0 r1 c1 pr pc Hs Hr Hr1 Hc Hc1 Hpr Hpr' Hpc Hpc'.
    destruct (term_copy_lines win r0 c0 r1 c1 pr pc ltac:(lia) ltac:(lia) Hr1 Hc1 Hpr Hpr' Hpc
      Hpc' s Hs) as (s' & He & Hs' & _); [lia|]. by exists s'.
  - intros t s cmd v Ht Hs. destruct (iv_geom t Ht) as [[] [] ? ?].
    assert (forall col, 3 <= col <= 65535 -> exists t' s',
      term_resize t s (p_nlin s) col = Ok (t', s') /\ tinv t' /\
      screen_ok (t_winsize t') s' /\ t_curnum t' = t_curnum t) as Hr.
    { intros col Hcol.
      destruct (term_resize_screen t s (p_nlin s) col) as (t' & s' & He & Ht' & Hw & Hc & Hs' & _).
      - eapply screen_any; [| |done]; lia.
      - by apply tinv_resettable.
      - rewrite (so_nlin _ _ Hs). by split.
      - exists t', s'. by rewrite Hw. }
    unfold term_param. destruct (cmd =? TP_132COLS); simpl; [|by exists t, s].
    destruct (truth v); simpl.
    + destruct (Hr 132) as (t' & s' & -> & ? & ? & ?); [lia|]. by exists t', s'.
    + destruct (Hr 80) as (t' & s' & -> & ? & ? & ?); [lia|]. by exists t', s'.
  - intros win s buf Hs. unfold term_respond. rewrite write_all, Z.eqb_refl.
    destruct (p_ansi_response s); [|by exists s]. eexists. split; [done|].
    destruct Hs. by constructor.
Qed.
End hooks.

(** ** A new process *)

Lemma new_process_ready :
  exists t, process_new zero_teken =
      Ok (t, mk_process 24 80 false (replicate 24 (blank_line 80)) []) /\
    idle t /\ t_winsize t = mk_pos 24 80 /\
    screen_ok (mk_pos 24 80) (mk_process 24 80 false (replicate 24 (blank_line 80)) []) /\
    t_cursor t = mk_pos 0 8 /\ t_nextstate t = [] /\ t_stateflags t = TS_AUTOWRAP /\
    t_curscs t = 0 /\ t_scs t = [teken_scs_us_ascii; teken_scs_us_ascii].
Proof.
  destruct (process_new zero_teken) as [[t pp]|] eqn:E; [|vm_compute in E; discriminate].
  vm_compute in E. injection E as <- <-. eexists. split; [reflexivity|].
  split_and!; try reflexivity.
  - split; [|reflexivity]. constructor; try done; try (split; done || reflexivity).
    split; [done|]. apply (Forall_replicate _ 8%nat 0). unfold NUM_MAX. lia.
  - constructor; [done..|]. apply (Forall_replicate _ 24%nat). by apply (blank_line_ok 80).
Qed.

(** Nothing but blanks on [lin] lines of [col] columns. *)
Definition all_blank (lin col : nat) (pp : process) : Prop :=
  forall i j, (i < lin)%nat -> (j < col)%nat -> cell (p_vram pp) i j = Some 32.

(** A new process has a blank screen of 24 lines and 80 columns and a
    terminal ready for input, its cursor in column 8 of the first line, where
    [process_coverage] leaves it. *)
Theorem process_new_ok :
  exists t pp, process_new zero_teken = Ok (t, pp) /\ idle t /\
    t_winsize t = mk_pos 24 80 /\ t_cursor t = mk_pos 0 8 /\ t_stateflags t = TS_AUTOWRAP /\
    screen_ok (mk_pos 24 80) pp /\
    all_blank 24 80 pp.
Proof.
  destruct new_process_ready as (t & He & Ht & Hw & Hs & Hc & _ & Hf & _).
  exists t. eexists. split_and!; [done..|]. intros i j Hi Hj. unfold cell. cbn [p_vram].
  rewrite lookup_replicate_2 by done. simpl. apply blank_lookup. lia.
Qed.

(** C1: The emulator and the screen of a process together: on any output of
    the process, the terminal of three columns or more never fails an
    assertion of teken.c, teken_subr.h or vtc_process.c and never touches
    memory outside the lines of the screen; afterwards the screen is again as
    many lines as the window has, each of them a C string of as many printable
    characters as the window has columns. *)
Theorem process_terminal_safe write t pp buf :
  takes_all write ->
  idle t -> screen_ok (t_winsize t) pp ->
  exists t' pp', teken_input (process_teken_func write) t pp buf = Ok (t', pp') /\
    idle t' /\ screen_ok (t_winsize t') pp'.
Proof.
  intros Hw Ht Hs. pose proof (process_hooks_ok write Hw) as Hooks.
  destruct (input_bytes_ready (process_teken_func write) screen_ok buf t pp Ht Hs)
    as (t' & pp' & He & Ht' & Hs').
  exists t', pp'. split; [|done]. unfold teken_input. cbn. by rewrite He.
Qed.

Lemma teken_input_safe_witness :
  exists t t' pp', idle t /\
    teken_input (process_teken_func (fun p => Z.of_nat (length p))) t
      (mk_process 24 80 false (replicate 24 (blank_line 80)) []) [27; 91; 50; 74; 200]
      = Ok (t', pp') /\ idle t' /\ screen_ok (t_winsize t') pp'.
Proof.
  destruct new_process_ready as (t & _ & Ht & Hw & Hs & _).
  assert (screen_ok (t_winsize t) (mk_process 24 80 false (replicate 24 (blank_line 80)) []))
    as Hs' by (rewrite Hw; exact Hs).
  pose proof (process_hooks_ok (fun p => Z.of_nat (length p)) (fun p => eq_refl)) as Hooks.
  destruct (teken_input_safe (process_teken_func (fun p => Z.of_nat (length p))) screen_ok t _
    [27; 91; 50; 74; 200] Ht Hs') as (t' & pp' & He & Ht' & Hp).
  exists t, t', pp'. exact (conj Ht (conj He (conj Ht' Hp))).
Defined.

Lemma process_terminal_safe_witness :
  exists t t' pp', idle t /\
    teken_input (process_teken_func (fun p => Z.of_nat (length p))) t
      (mk_process 24 80 false (replicate 24 (blank_line 80)) []) [27; 91; 72; 65; 255; 10]
      = Ok (t', pp') /\ idle t' /\ screen_ok (t_winsize t') pp'.
Proof.
  destruct new_process_ready as (t & _ & Ht & Hw & Hs & _).
  assert (screen_ok (t_winsize t) (mk_process 24 80 false (replicate 24 (blank_line 80)) []))
    as Hs' by (rewrite Hw; exact Hs).
  destruct (process_terminal_safe (fun p => Z.of_nat (length p)) t _ [27; 91; 72; 65; 255; 10]
    (fun p => eq_refl) Ht Hs') as (t' & pp' & He & Ht' & Hp).
  exists t, t', pp'. exact (conj Ht (conj He (conj Ht' Hp))).
Defined.

(** A new process after [-winsz 24 2]. *)
Definition two_columns : outcome (teken * process) :=
  '(t, pp) ← process_new zero_teken; term_resize t pp 24 2.

(** A window of two columns, which [-winsz] accepts, is too narrow: a
    double-width character after a wrap leaves the cursor outside the window,
    and the process's output fails an assertion of teken.c. *)
Theorem winsz_two_columns write :
  is_ok two_columns = true /\
  ('(t, pp) ← two_columns;
   teken_input (process_teken_func write) t pp [97; 0xE4; 0xB8; 0x80]) = Fault FAssert.
Proof. split; vm_compute; reflexivity. Qed.
