(* ===== verification/TermShow.v ===== *)
(** * What the screen of a process shows

    Scrolling and printing through the emulator, cell by cell, and the searches
    of [-expect-text] and [-match-text]. *)

From Stdlib Require Import ZArith Lia.
From stdpp Require Import base option numbers list.
From S2P Require Import Prelude TekenData TekenSubr TekenState TekenInv TekenSafe TekenInput Term TermSafe.
#[local] Open Scope Z_scope.

(** ** Scrolling *)

Section scroll.
Context (write : list Z -> Z).
Local Abbreviation F := (process_teken_func write).

Lemma fill_cells t pp r0 c0 r1 c1 :
  geom t -> screen_ok (t_winsize t) pp -> 0 <= r0 < r1 -> r1 <= tp_row (t_winsize t) ->
  0 <= c0 < c1 -> c1 <= tp_col (t_winsize t) ->
  exists pp', fill F t pp r0 c0 r1 c1 = Ok pp' /\ screen_ok (t_winsize t) pp' /\
    forall i j, cell (p_vram pp') i j =
      if decide (r0 <= Z.of_nat i < r1 /\ c0 <= Z.of_nat j < c1)
      then Some 32 else cell (p_vram pp) i j.
Proof.
  intros [] Hs Hr Hr1 Hc Hc1. unfold fill, teken_funcs_fill. rewrite !u16_small by lia. tproj.
  rewrite !assertC_true, !bind_Ok_l by (apply Z.ltb_lt || apply Z.leb_le; lia).
  destruct (term_fill_ok (t_winsize t) pp r0 c0 r1 c1 BLANK (t_curattr t) Hs)
    as (pp' & He & Hs' & _ & _ & Hcell); [lia..|].
  by exists pp'.
Qed.

Lemma copy_cells t pp r0 c0 r1 c1 pr pc :
  geom t -> screen_ok (t_winsize t) pp -> 0 <= r0 < r1 -> r1 <= tp_row (t_winsize t) ->
  0 <= c0 < c1 -> c1 <= tp_col (t_winsize t) ->
  0 <= pr -> pr + (r1 - r0) <= tp_row (t_winsize t) ->
  0 <= pc -> pc + (c1 - c0) <= tp_col (t_winsize t) ->
  exists pp', copy F t pp r0 c0 r1 c1 pr pc = Ok pp' /\ screen_ok (t_winsize t) pp' /\
    forall i j, cell (p_vram pp') i j =
      if decide (pr <= Z.of_nat i < pr + (r1 - r0) /\ pc <= Z.of_nat j < pc + (c1 - c0))
      then cell (p_vram pp) (Z.to_nat (Z.of_nat i - pr + r0)) (Z.to_nat (Z.of_nat j - pc + c0))
      else cell (p_vram pp) i j.
Proof.
  intros [] Hs Hr Hr1 Hc Hc1 Hpr Hpr' Hpc Hpc'. unfold copy, teken_funcs_copy.
  rewrite !u16_small by lia. tproj.
  rewrite !assertC_true, !bind_Ok_l by (apply Z.ltb_lt || apply Z.leb_le; lia).
  destruct (term_copy_cells (t_winsize t) pp r0 c0 r1 c1 pr pc Hs)
    as (pp' & He & Hs' & Hcell); [lia..|].
  by exists pp'.
Qed.
End scroll.

(** The cell [(i, j)] of a screen scrolled up by [amount] lines between [top]
    and [bot]; down if [amount] is negative. *)
Definition scrolled (v : list (list Z)) (top bot amount : Z) (i j : nat) : option Z :=
  if decide (top <= Z.of_nat i < bot) then
    if decide (top <= Z.of_nat i + amount < bot)
    then cell v (Z.to_nat (Z.of_nat i + amount)) j else Some 32
  else cell v i j.

(** C25: [teken_subr_do_scroll] on a process's screen, for every amount but 0:
    inside the scrolling region each line moves by [amount], the lines that
    come in are blank, and nothing changes outside the region. *)
Theorem do_scroll_shows write t pp amount :
  tinv t -> screen_ok (t_winsize t) pp -> amount <> 0 ->
  exists pp', teken_subr_do_scroll (process_teken_func write) t pp amount = Ok pp' /\
    screen_ok (t_winsize t) pp' /\
    forall i j, Z.of_nat j < tp_col (t_winsize t) -> cell (p_vram pp') i j =
      scrolled (p_vram pp) (ts_begin (t_scrollreg t)) (ts_end (t_scrollreg t)) amount i j.
Proof.
  intros Ht Hs Ha. pose proof (tinv_bounds t Ht) as (Hg & _ & Ho & ? & ?). pose proof Hg as [].
  unfold teken_subr_do_scroll, scrolled.
  rewrite (assertC_true (_ <=? _)), bind_Ok_l by (apply Z.leb_le; lia).
  rewrite (assertC_true (_ <=? _)), bind_Ok_l by (apply Z.leb_le; lia).
  rewrite (proj2 (Z.eqb_neq amount 0)) by done. cbn [negb assertC]. rewrite bind_Ok_l.
  cbv zeta. set (top := ts_begin (t_scrollreg t)) in *.
  set (bot := ts_end (t_scrollreg t)) in *.
  destruct (Z.ltb_spec 0 amount); zcase.
  - edestruct (copy_cells write t pp (top + amount) 0 bot (tp_col (t_winsize t)) top 0)
      as (p1 & -> & Hs1 & Hc1); [done|done|lia..|]. rewrite bind_Ok_l.
    edestruct (fill_cells write t p1 (bot - amount) 0 bot (tp_col (t_winsize t)))
      as (p2 & -> & Hs2 & Hc2); [done|done|lia..|].
    exists p2. split_and!; [done..|]. intros i j Hj. rewrite Hc2, Hc1.
    repeat case_decide; try lia; try done. f_equal; lia.
  - edestruct (fill_cells write t pp top 0 bot (tp_col (t_winsize t)))
      as (p2 & -> & Hs2 & Hc2); [done|done|lia..|].
    exists p2. split_and!; [done..|]. intros i j Hj. rewrite Hc2.
    repeat case_decide; try lia; done.
  - edestruct (copy_cells write t pp top 0 (bot - - amount) (tp_col (t_winsize t)) (top + - amount) 0)
      as (p1 & -> & Hs1 & Hc1); [done|done|lia..|]. rewrite bind_Ok_l.
    edestruct (fill_cells write t p1 top 0 (top + - amount) (tp_col (t_winsize t)))
      as (p2 & -> & Hs2 & Hc2); [done|done|lia..|].
    exists p2. split_and!; [done..|]. intros i j Hj. rewrite Hc2, Hc1.
    repeat case_decide; try lia; try done. f_equal; lia.
  - edestruct (fill_cells write t pp top 0 bot (tp_col (t_winsize t)))
      as (p2 & -> & Hs2 & Hc2); [done|done|lia..|].
    exists p2. split_and!; [done..|]. intros i j Hj. rewrite Hc2.
    repeat case_decide; try lia; done.
Qed.

Lemma do_scroll_shows_witness :
  exists t pp', tinv t /\
    teken_subr_do_scroll (process_teken_func (fun p => Z.of_nat (length p))) t
      (mk_process 24 80 false (replicate 24 (blank_line 80)) []) (-3) = Ok pp' /\
    cell (p_vram pp') 2 5 = Some 32.
Proof.
  destruct new_process_ready as (t & _ & [Ht _] & Hw & Hs & _).
  destruct (do_scroll_shows (fun p => Z.of_nat (length p)) t
    (mk_process 24 80 false (replicate 24 (blank_line 80)) []) (-3) Ht)
    as (pp' & He & _ & Hc); [rewrite Hw; exact Hs|discriminate|].
  exists t, pp'. split; [exact Ht|]. split; [exact He|]. rewrite Hc by (rewrite Hw; simpl; lia).
  pose proof (ge_top t (iv_geom t Ht)). unfold scrolled. destruct (decide _) as [H1|H1].
  - destruct (decide _); [lia|reflexivity].
  - reflexivity.
Defined.

(** ** Printing *)

(** A terminal in its initial state between two sequences, in UTF-8 and
    replace mode, with the ASCII character set selected. *)
Record plain (t : teken) : Prop := {
  pl_state : t_nextstate t = [];
  pl_string : has t TS_INSTRING = false;
  pl_insert : has t TS_INSERT = false;
  pl_8bit : has t TS_8BIT = false;
  pl_cons25 : has t TS_CONS25 = false;
  pl_scs : t_scs t !! Z.to_nat (t_curscs t) = Some teken_scs_us_ascii
}.

Lemma has_unwrap t k : 0 <= k < 32 -> k <> 4 -> has (clrf t TS_WRAPPED) (2 ^ k) = has t (2 ^ k).
Proof.
  intros Hk Hne. rewrite !has_pow by lia. tproj. rewrite Z.land_spec, u32_lnot_testbit by done.
  replace (Z.testbit TS_WRAPPED k) with false; [apply andb_true_r|].
  symmetry. apply (Z.pow2_bits_false 4). lia.
Qed.

Lemma plain_unwrap t : plain t -> plain (clrf t TS_WRAPPED).
Proof.
  intros [Hn Hst Hin H8 H25 Hscs].
  assert (forall k, 0 <= k < 32 -> k <> 4 -> has t (2 ^ k) = false ->
    has (clrf t TS_WRAPPED) (2 ^ k) = false) as Hk by (intros k ? ? <-; by apply has_unwrap).
  constructor; [done|by apply (Hk 7)|by apply (Hk 1)|by apply (Hk 5)|by apply (Hk 6)|done].
Qed.

(** What the tables say of a printable character. *)
Definition ascii_facts (c : Z) : bool :=
  (width_ref c =? 1) && bool_decide (find_cmd [] c = None) && negb (is_prefix [c]) &&
  (Z.land c 0x80 =? 0) && (shown c =? c).

Lemma printable_facts c : printable c -> ascii_facts c = true.
Proof.
  intros Hc. assert (Forall (fun c => ascii_facts c = true) (seqZ 32 95)) as Hall.
  { apply Forall_forall. intros x Hx.
    assert (forallb ascii_facts (seqZ 32 95) = true) as Hb by (vm_compute; reflexivity).
    rewrite forallb_forall in Hb. by apply Hb, list_elem_of_In. }
  rewrite Forall_forall in Hall. apply Hall, elem_of_seqZ. unfold printable in Hc. lia.
Qed.

(** The terminal after one character that fits on the line. *)
Definition printed (t : teken) (c : Z) : teken :=
  clrf (upd_cursor_col (upd_last (upd_utf8_left t 0) c) (tp_col (t_cursor t) + 1)) TS_WRAPPED.

Section print.
Context (write : list Z -> Z).
Local Abbreviation F := (process_teken_func write).

Lemma plain_char_width t c : plain t -> printable c -> char_width t c = Ok (Some (c, 1)).
Proof.
  intros [] Hc. pose proof (printable_facts c Hc) as Hf. unfold ascii_facts in Hf.
  rewrite !andb_true_iff, Z.eqb_eq in Hf. destruct Hf as ((((Hw & _) & _) & _) & _).
  unfold char_width. rewrite pl_8bit0. unfold teken_scs_process, readC. rewrite pl_scs0. simpl.
  by rewrite teken_wcwidth_ref, Hw.
Qed.

Lemma plain_regular t pp c :
  tinv t -> plain t -> screen_ok (t_winsize t) pp -> printable c ->
  tp_col (t_cursor t) + 1 < tp_col (t_winsize t) ->
  exists pp', teken_subr_regular_character F t pp c = Ok
      (clrf (upd_cursor_col (upd_last t c) (tp_col (t_cursor t) + 1)) TS_WRAPPED, pp') /\
    screen_ok (t_winsize t) pp' /\
    forall i j, cell (p_vram pp') i j =
      if decide (Z.of_nat i = tp_row (t_cursor t) /\ Z.of_nat j = tp_col (t_cursor t))
      then Some c else cell (p_vram pp) i j.
Proof.
  intros Ht Hp Hs Hc Hcol. destruct (tinv_bounds t Ht) as ([] & ? & ? & [? ?] & [? ?]).
  unfold teken_subr_regular_character. rewrite plain_char_width, bind_Ok_l by done.
  rewrite (pl_cons25 t Hp).
  assert (must_wrap t 1 = false) as ->.
  { unfold must_wrap. rewrite (proj2 (Z.eqb_neq _ _)) by lia.
    by rewrite (proj2 (Z.ltb_ge _ _)), !andb_false_r by lia. }
  unfold print_here, teken_subr_do_putchar, putchar_insert, putchar_draw.
  replace (has (upd_last t c) TS_INSERT) with false by (symmetry; apply Hp).
  change (1 =? 2) with false. cbn [andb]. rewrite !bind_Ok_l. unfold keep, teken_funcs_putchar.
  tproj. rewrite !assertC_true, !bind_Ok_l by (apply Z.ltb_lt; lia).
  destruct (putchar_eq (t_winsize t) pp (tp_row (t_cursor t)) (tp_col (t_cursor t)) c
    (t_curattr t) Hs) as (row & Hrow & Hok & He); [lia..|].
  rewrite <-surjective_pos in He. cbn [tf_putchar process_teken_func calledC].
  rewrite !bind_Ok_l, He, !bind_Ok_l. tproj. rewrite !u16_small by lia.
  rewrite (proj2 (Z.leb_gt _ _)) by lia. unfold moved, keep, teken_funcs_cursor.
  unfold upd_cursor_col. tproj. rewrite !u16_small by lia.
  rewrite !assertC_true, !bind_Ok_l by (apply Z.ltb_lt; lia).
  eexists. split; [reflexivity|].
  pose proof (printable_facts c Hc) as Hf. unfold ascii_facts in Hf.
  rewrite !andb_true_iff, !Z.eqb_eq in Hf. destruct Hf as (_ & ->).
  split.
  - apply screen_ok_insert; [done|]. by apply line_ok_insert.
  - intros i j. cbn [p_vram upd_vram]. pose proof (line_ok_length _ _ Hok).
    rewrite (cell_insert _ _ _ _ _ _ row) by (done || lia). repeat case_decide; done || lia.
Qed.

Lemma printed_idle t c :
  idle t -> tp_col (t_cursor t) + 1 < tp_col (t_winsize t) -> idle (printed t c).
Proof.
  intros [Ht Hn] Hcol. destruct (tinv_bounds t Ht) as ([] & ? & ? & [? ?] & [? ?]).
  split; [|done]. unfold printed, upd_cursor_col. rewrite u16_small by lia.
  apply tinv_clrf; [done|]. apply tinv_upd_cursor; [auto with teken|]. in_range.
Qed.

Lemma printed_plain t c : plain t -> plain (printed t c).
Proof. intros []. apply plain_unwrap. by constructor. Qed.

Lemma plain_byte t pp c :
  idle t -> plain t -> screen_ok (t_winsize t) pp -> printable c ->
  tp_col (t_cursor t) + 1 < tp_col (t_winsize t) ->
  exists pp', teken_input_byte F t pp c = Ok (printed t c, pp') /\
    screen_ok (t_winsize t) pp' /\
    forall i j, cell (p_vram pp') i j =
      if decide (Z.of_nat i = tp_row (t_cursor t) /\ Z.of_nat j = tp_col (t_cursor t))
      then Some c else cell (p_vram pp) i j.
Proof.
  intros Ht Hp Hs Hc Hcol. pose proof (printable_facts c Hc) as Hf. unfold ascii_facts in Hf.
  rewrite !andb_true_iff, bool_decide_eq_true, negb_true_iff in Hf.
  destruct Hf as ((((_ & Hcmd) & Hpre) & H80) & _).
  set (t0 := upd_utf8_left t 0).
  destruct (plain_regular t0 pp c) as (pp' & Hreg & Hs' & Hcell); try done;
    [destruct Ht; by apply tinv_upd_utf8_left|destruct Hp; by constructor|].
  exists pp'. split; [|done]. unfold teken_input_byte. rewrite H80. cbn [orb].
  unfold teken_input_char. change (has (upd_utf8_left t 0) TS_INSTRING) with (has t TS_INSTRING).
  rewrite (pl_string t Hp). cbn [andb]. cbv zeta.
  assert (input_switch F (upd_utf8_left t 0) pp c = Ok (printed t c, pp')) as ->.
  { unfold printable in Hc. unfold input_switch.
    repeat (rewrite (proj2 (Z.eqb_neq c _)) by lia). cbn [orb].
    change (t_nextstate (upd_utf8_left t 0)) with (t_nextstate t). rewrite (pl_state t Hp).
    unfold teken_state. rewrite init_no_numbers, bind_Ok_l, Hcmd. cbn [app]. rewrite Hpre.
    fold t0. rewrite Hreg. reflexivity. }
  rewrite bind_Ok_l, post_asserts_ok; [done|]. by apply printed_idle.
Qed.

Lemma plain_bytes text t pp :
  idle t -> plain t -> screen_ok (t_winsize t) pp -> Forall printable text ->
  tp_col (t_cursor t) + Z.of_nat (length text) < tp_col (t_winsize t) ->
  exists t' pp', input_bytes F t pp text = Ok (t', pp') /\ idle t' /\ plain t' /\
    t_winsize t' = t_winsize t /\ screen_ok (t_winsize t) pp' /\
    t_cursor t' = mk_pos (tp_row (t_cursor t))
      (tp_col (t_cursor t) + Z.of_nat (length text)) /\
    forall i j, cell (p_vram pp') i j =
      if decide (Z.of_nat i = tp_row (t_cursor t) /\ tp_col (t_cursor t) <= Z.of_nat j <
                 tp_col (t_cursor t) + Z.of_nat (length text))
      then text !! (Z.to_nat (Z.of_nat j - tp_col (t_cursor t))) else cell (p_vram pp) i j.
Proof.
  revert t pp. induction text as [|c text IH]; intros t pp Ht Hp Hs Hf Hcol; cbn [input_bytes].
  { exists t, pp. split_and!; try done.
    - simpl. rewrite Z.add_0_r. apply surjective_pos.
    - intros i j. simpl. by rewrite decide_False by lia. }
  apply Forall_cons in Hf as [Hc Hf]. simpl length in *.
  destruct (tinv_bounds t (proj1 Ht)) as ([] & ? & ? & [? ?] & [? ?]).
  destruct (plain_byte t pp c Ht Hp Hs Hc) as (p1 & -> & Hs1 & Hc1); [lia|]. rewrite bind_Ok_l.
  assert (t_cursor (printed t c) = mk_pos (tp_row (t_cursor t)) (tp_col (t_cursor t) + 1)) as Hcur
    by (unfold printed, upd_cursor_col; tproj; by rewrite u16_small by lia).
  destruct (IH (printed t c) p1) as (t' & pp' & -> & Ht' & Hp' & Hw & Hs' & Hcu & Hcell);
    [apply printed_idle; done || lia|by apply printed_plain|done|done| |].
  { rewrite Hcur. tproj. change (t_winsize (printed t c)) with (t_winsize t). lia. }
  exists t', pp'. split_and!; try done.
  - rewrite Hcu, Hcur. tproj. f_equal. lia.
  - intros i j. rewrite Hcell, Hc1, Hcur. tproj. repeat case_decide; try lia; try done.
    + replace (Z.to_nat (Z.of_nat j - tp_col (t_cursor t))) with
        (S (Z.to_nat (Z.of_nat j - (tp_col (t_cursor t) + 1)))) by lia. done.
    + replace (Z.to_nat (Z.of_nat j - tp_col (t_cursor t))) with 0%nat by lia. done.
Qed.
End print.

(** A text of printable characters that ends before the last column
    appears on the screen at the cursor, one character to a cell, and nothing
    else changes; the cursor is then behind the text. *)
Theorem text_shows write t pp text :
  idle t -> plain t -> screen_ok (t_winsize t) pp -> Forall printable text ->
  tp_col (t_cursor t) + Z.of_nat (length text) < tp_col (t_winsize t) ->
  exists t' pp', teken_input (process_teken_func write) t pp text = Ok (t', pp') /\
    screen_ok (t_winsize t') pp' /\ plain t' /\
    t_cursor t' = mk_pos (tp_row (t_cursor t)) (tp_col (t_cursor t) + Z.of_nat (length text)) /\
    forall i j, cell (p_vram pp') i j =
      if decide (Z.of_nat i = tp_row (t_cursor t) /\ tp_col (t_cursor t) <= Z.of_nat j <
                 tp_col (t_cursor t) + Z.of_nat (length text))
      then text !! (Z.to_nat (Z.of_nat j - tp_col (t_cursor t))) else cell (p_vram pp) i j.
Proof.
  intros Ht Hp Hs Hf Hcol.
  destruct (plain_bytes write text t pp Ht Hp Hs Hf Hcol)
    as (t' & pp' & He & _ & Hp' & Hw & Hs' & Hcur & Hcell).
  exists t', pp'. unfold teken_input. cbn. rewrite He, Hw. by split_and!.
Qed.

Lemma text_shows_witness :
  exists t t' pp', plain t /\
    teken_input (process_teken_func (fun p => Z.of_nat (length p))) t
      (mk_process 24 80 false (replicate 24 (blank_line 80)) []) [72; 105; 33] = Ok (t', pp') /\
    cell (p_vram pp') 0 9 = Some 105.
Proof.
  destruct new_process_ready as (t & _ & Ht & Hw & Hs & Hc & Hn & Hf & Hg & Hscs).
  assert (plain t) as Hp.
  { constructor; [exact Hn| | | | |rewrite Hg, Hscs; reflexivity]; unfold has; rewrite Hf;
      reflexivity. }
  destruct (text_shows (fun p => Z.of_nat (length p)) t
    (mk_process 24 80 false (replicate 24 (blank_line 80)) []) [72; 105; 33] Ht Hp)
    as (t' & pp' & He & _ & _ & _ & Hcell).
  - rewrite Hw. exact Hs.
  - repeat constructor; discriminate.
  - rewrite Hw, Hc. reflexivity.
  - exists t, t', pp'. split; [exact Hp|]. split; [exact He|]. rewrite Hcell, Hc. reflexivity.
Defined.

(** ** Searching the screen of a process: [-expect-text] and [-match-text]. *)

(** [pat] is on the screen from 0-based line [i] and column [o] on. *)
Definition shows (pp : process) (pat : list Z) (i o : nat) : Prop :=
  forall k c, pat !! k = Some c -> cell (p_vram pp) i (o + k) = Some c.

(** ** The C string functions *)

Lemma starts_with_true s pat :
  starts_with s pat = true <-> forall k c, pat !! k = Some c -> s !! k = Some c.
Proof.
  unfold starts_with. rewrite bool_decide_eq_true. split.
  - intros <- k c [Hk _]%lookup_take_Some. done.
  - intros Hall. apply list_eq. intros k. destruct (pat !! k) as [c|] eqn:E.
    + rewrite lookup_take_lt by (by eapply lookup_lt_Some). by apply Hall.
    + apply lookup_take_ge. by apply lookup_ge_None.
Qed.

Lemma starts_with_false s pat : starts_with s pat = false <-> starts_with s pat <> true.
Proof. by destruct (starts_with s pat). Qed.

Lemma strstr_ok s pat :
  match strstr s pat with
  | Some o => starts_with (drop o s) pat = true /\ (o <= length s)%nat /\
      forall o', (o' < o)%nat -> starts_with (drop o' s) pat = false
  | None => forall o, starts_with (drop o s) pat = false
  end.
Proof.
  induction s as [|c s IH]; cbn [strstr]; destruct (starts_with _ pat) eqn:E.
  - split_and!; [done|simpl; lia|lia].
  - intros o. by rewrite drop_nil.
  - split_and!; [done|simpl; lia|lia].
  - destruct (strstr s pat) as [o|]; simpl.
    + destruct IH as (Ho & Hl & Hfirst). split_and!; [done|lia|].
      intros [|o'] Ho'; [done|]. apply Hfirst. lia.
    + intros [|o]; [done|]. apply IH.
Qed.

Lemma cstr_line s : Forall printable s -> cstr (s ++ [0]) = s.
Proof.
  induction 1 as [|c s Hc _ IH]; [done|]. simpl. rewrite (proj2 (Z.eqb_neq c 0)), IH; [done|].
  unfold printable in Hc. lia.
Qed.

(** ** One line *)

Section search.
Context (win : teken_pos) (pp : process) (pat : list Z).
Hypotheses (Hs : screen_ok win pp) (Hpat : pat <> []) (Hprint : Forall printable pat).

(** A match in the line is a match of its characters: no printable character
    is the NUL. *)
Lemma shows_line i s o :
  p_vram pp !! i = Some (s ++ [0]) -> Forall printable s ->
  (shows pp pat i o <-> starts_with (drop o s) pat = true) /\
  (shows pp pat i o <-> starts_with (drop o (s ++ [0])) pat = true).
Proof.
  intros Hi Hf. rewrite !starts_with_true. unfold shows, cell. rewrite Hi. simpl.
  assert (forall k c, pat !! k = Some c ->
    (s ++ [0]) !! (o + k)%nat = Some c -> s !! (o + k)%nat = Some c) as Hin.
  { intros k c Hk [Hl|[Hl1 Hl2]]%lookup_app_Some; [done|].
    apply list_lookup_singleton_Some in Hl2 as [_ <-].
    rewrite Forall_lookup in Hprint. specialize (Hprint k 0 Hk). unfold printable in Hprint. lia. }
  split; split.
  - intros H k c Hk. rewrite lookup_drop. by apply (Hin k c Hk), H.
  - intros H k c Hk. apply lookup_app_l_Some. specialize (H k c Hk). by rewrite lookup_drop in H.
  - intros H k c Hk. rewrite lookup_drop. by apply H.
  - intros H k c Hk. specialize (H k c Hk). by rewrite lookup_drop in H.
Qed.

Lemma textline_any i :
  Z.of_nat i < tp_row win ->
  exists found x, term_find_textline pp 0 (Z.of_nat i) pat = Ok (found, x) /\
    if found then 1 <= x /\ shows pp pat i (Z.to_nat (x - 1)) /\
      (forall o, shows pp pat i o -> x - 1 <= Z.of_nat o)
    else x = 0 /\ forall o, ~ shows pp pat i o.
Proof.
  intros Hi. destruct (so_line win pp i Hs Hi) as (row & Hl & Hr & s & -> & Hlen & Hf).
  unfold term_find_textline. rewrite Nat2Z.id, Hr, bind_Ok_l. cbn [Z.eqb].
  rewrite cstr_line by done. pose proof (strstr_ok s pat) as Hstr.
  destruct (strstr s pat) as [o|].
  - destruct Hstr as (Ho & _ & Hfirst). eexists true, _. split; [done|]. split; [lia|].
    replace (Z.to_nat (1 + Z.of_nat o - 1)) with o by lia.
    split; [by apply (proj1 (shows_line i s o Hl Hf))|]. intros o' Ho'.
    destruct (decide (o' < o)%nat) as [Hlt|]; [|lia]. specialize (Hfirst o' Hlt).
    apply (proj1 (shows_line i s o' Hl Hf)) in Ho'. congruence.
  - eexists false, _. split; [done|]. split; [done|]. intros o Ho.
    apply (proj1 (shows_line i s o Hl Hf)) in Ho. by rewrite Hstr in Ho.
Qed.

Lemma lines_any n yy :
  yy + Z.of_nat n = tp_row win -> 0 <= yy ->
  exists found x y, find_text_lines n pp 0 yy pat = Ok (found, x, y) /\
    if found : bool then yy < y <= tp_row win /\ 1 <= x /\
      shows pp pat (Z.to_nat (y - 1)) (Z.to_nat (x - 1)) /\
      (forall i o, yy <= Z.of_nat i -> shows pp pat i o ->
        y - 1 < Z.of_nat i \/ (Z.of_nat i = y - 1 /\ x - 1 <= Z.of_nat o))
    else x = 0 /\ y = 0 /\ forall i o, yy <= Z.of_nat i -> ~ shows pp pat i o.
Proof.
  revert yy. induction n as [|n IH]; intros yy Hn Hyy; cbn [find_text_lines].
  { exists false, 0, 0. split_and!; [done..|]. intros i o Hi Hsh.
    destruct pat as [|c pat']; [done|]. specialize (Hsh 0%nat c eq_refl). unfold cell in Hsh.
    rewrite lookup_ge_None_2 in Hsh; [done|]. pose proof (so_len _ _ Hs). lia. }
  destruct (textline_any (Z.to_nat yy)) as (found & x & He & Hr); [lia|].
  rewrite Z2Nat.id in He by done. rewrite He, bind_Ok_l. destruct found.
  - destruct Hr as (Hx & Hsh & Hfirst). exists true, x, (yy + 1). split; [done|].
    replace (Z.to_nat (yy + 1 - 1)) with (Z.to_nat yy) by lia.
    split_and!; [lia|lia|done|done|]. intros i o Hi Ho.
    destruct (decide (i = Z.to_nat yy)) as [->|]; [right|left; lia].
    split; [lia|by apply Hfirst].
  - destruct Hr as [-> Hno]. destruct (IH (yy + 1)) as (found & x & y & -> & Hr); [lia..|].
    exists found, x, y. split; [done|]. destruct found.
    + destruct Hr as (Hy & Hx & Hsh & Hfirst). split_and!; [lia|lia|done|done|].
      intros i o Hi Ho. destruct (decide (i = Z.to_nat yy)) as [->|]; [by destruct (Hno o)|].
      apply Hfirst; [lia|done].
    + destruct Hr as (-> & -> & Hno'). split_and!; [done..|]. intros i o Hi Ho.
      destruct (decide (i = Z.to_nat yy)) as [->|]; [by apply (Hno o)|].
      by apply (Hno' i o); [lia|].
Qed.
End search.

(** [term_find_text] without a position finds the first occurrence of a
    printable text on the screen, in reading order, and reports its 1-based
    line and column, or that there is none. *)
Theorem find_text_anywhere win pp pat :
  screen_ok win pp -> 0 <= tp_row win -> pat <> [] -> Forall printable pat ->
  exists found x y, term_find_text pp 0 0 pat = Ok (found, x, y) /\
    if found : bool then 1 <= y <= tp_row win /\ 1 <= x /\
      shows pp pat (Z.to_nat (y - 1)) (Z.to_nat (x - 1)) /\
      (forall i o, shows pp pat i o ->
        y - 1 < Z.of_nat i \/ (Z.of_nat i = y - 1 /\ x - 1 <= Z.of_nat o))
    else forall i o, ~ shows pp pat i o.
Proof.
  intros Hs Hwin Hpat Hf. unfold term_find_text. cbn [Z.eqb]. rewrite (so_nlin _ _ Hs).
  destruct (lines_any win pp pat Hs Hpat Hf (Z.to_nat (tp_row win)) 0)
    as (found & x & y & -> & Hr); [lia..|].
  exists found, x, y. split; [done|]. destruct found.
  - destruct Hr as (? & ? & ? & Hfirst). split_and!; [lia..|done|done|].
    intros i o Ho. apply Hfirst; [lia|done].
  - destruct Hr as (_ & _ & Hno). intros i o. apply Hno. lia.
Qed.

Definition wit_screen : process :=
  mk_process 2 4 false [[111; 107; 32; 32; 0]; [32; 111; 107; 33; 0]] [].

Lemma wit_screen_ok : screen_ok (mk_pos 2 4) wit_screen.
Proof.
  constructor; try done.
  repeat constructor; [exists [111; 107; 32; 32]|exists [32; 111; 107; 33]];
    (split; [done|]); (split; [done|]); repeat constructor; done.
Qed.

Lemma find_text_anywhere_witness :
  exists found x y, term_find_text wit_screen 0 0 [107; 33] = Ok (found, x, y) /\
    found = true /\ y = 2 /\ x = 3.
Proof.
  destruct (find_text_anywhere (mk_pos 2 4) wit_screen [107; 33] wit_screen_ok)
    as (found & x & y & He & _).
  - discriminate.
  - discriminate.
  - repeat constructor; discriminate.
  - exists found, x, y. split; [exact He|]. vm_compute in He. injection He as <- <- <-.
    repeat split; reflexivity.
Defined.

(** [term_find_text] at a position answers whether the text is there, as
    long as it fits on the line; one that does not fit fails the assertion. *)
Theorem find_text_at win pp pat x y :
  screen_ok win pp -> pat <> [] -> Forall printable pat ->
  1 <= y <= tp_row win -> 1 <= x <= tp_col win ->
  if x + Z.of_nat (length pat) - 1 <=? tp_col win then
    exists found, term_find_text pp x y pat = Ok (found, x, y) /\
      (found = true <-> shows pp pat (Z.to_nat (y - 1)) (Z.to_nat (x - 1)))
  else term_find_text pp x y pat = Fault FAssert.
Proof.
  intros Hs Hpat Hf Hy Hx. unfold term_find_text, term_find_textline.
  rewrite (so_nlin _ _ Hs), (so_ncol _ _ Hs), (proj2 (Z.eqb_neq y 0)), (proj2 (Z.leb_le y _)) by lia.
  destruct (so_line win pp (Z.to_nat (y - 1)) Hs) as (row & Hl & Hr & s & -> & Hlen & Hfs); [lia|].
  rewrite Hr, bind_Ok_l, (proj2 (Z.eqb_neq x 0)), (proj2 (Z.leb_le x _)) by lia.
  destruct (Z.leb_spec (x + Z.of_nat (length pat) - 1) (tp_col win)).
  - rewrite assertC_true, !bind_Ok_l by (apply Z.ltb_lt; lia). eexists. split; [done|].
    symmetry. by apply (proj2 (shows_line pp pat Hf _ s _ Hl Hfs)).
  - by rewrite (proj2 (Z.ltb_ge _ _)) by lia.
Qed.

Lemma find_text_at_witness :
  term_find_text wit_screen 2 2 [111; 107] = Ok (true, 2, 2) /\
  term_find_text wit_screen 3 2 [111; 107; 33] = Fault FAssert.
Proof.
  pose proof (find_text_at (mk_pos 2 4) wit_screen [111; 107] 2 2 wit_screen_ok) as H1.
  pose proof (find_text_at (mk_pos 2 4) wit_screen [111; 107; 33] 3 2 wit_screen_ok) as H2.
  split.
  - destruct H1 as (found & He & _); [discriminate| |simpl; lia..|].
    + repeat constructor; discriminate.
    + rewrite He. vm_compute in He. injection He as <-. reflexivity.
  - apply H2; [discriminate| |simpl; lia..]. repeat constructor; discriminate.
Defined.

(** The part of the collected text that [VRE_match] is told of. *)
Definition matched (pp : process) (x y : Z) : list Z :=
  take (Z.to_nat (match_len pp x y)) (match_lines pp x y).

(** [term_match_text] collects a newline after every line but leaves the
    newlines out of the length it hands to [VRE_match]: the expression is
    matched without the last characters of the text, as many as there are
    lines. *)
Theorem match_text_short win pp x y :
  screen_ok win pp -> 0 <= y <= tp_row win -> 0 <= x <= tp_col win ->
  Z.of_nat (length (match_lines pp x y)) =
    Z.of_nat (length (matched pp x y)) + (tp_row win - y).
Proof.
  intros Hs Hy Hx.
  cut (Z.of_nat (length (match_lines pp x y)) = match_len pp x y + (tp_row win - y)).
  { intros Hl. unfold matched. rewrite length_take. unfold match_len in *.
    rewrite (so_nlin _ _ Hs), (so_ncol _ _ Hs) in *. nia. }
  unfold match_lines, match_len. rewrite (so_nlin _ _ Hs), (so_ncol _ _ Hs).
  set (v := take _ (drop (Z.to_nat y) (p_vram pp))).
  assert (Z.of_nat (length v) = tp_row win - y) as Hv.
  { subst v. rewrite length_take, length_drop. pose proof (so_len _ _ Hs). lia. }
  assert (Forall (line_ok (tp_col win)) v) as Hok
    by (apply Forall_take, Forall_drop, (so_lines _ _ Hs)).
  rewrite <-Hv. clear Hv. induction Hok as [|row v' Hrow _ IH]; [simpl; lia|].
  pose proof (line_ok_length _ _ Hrow). cbn [map concat length].
  rewrite !length_app, length_take, length_drop. simpl length. lia.
Qed.

Lemma match_text_short_witness :
  Z.of_nat (length (match_lines wit_screen 0 0)) =
    Z.of_nat (length (matched wit_screen 0 0)) + 2 /\
  matched wit_screen 0 0 = [111; 107; 32; 32; 10; 32; 111; 107].
Proof.
  split; [|vm_compute; reflexivity].
  apply (match_text_short (mk_pos 2 4) wit_screen 0 0 wit_screen_ok); simpl; lia.
Defined.
