(* ===== verification/Vbh.v ===== *)
(** * The binary heap of lib/vbh.c

    A heap whose nodes are laid out so that a path from the root touches few
    pages of memory.  This file holds the code; VbhShape.v proves that the
    layout is a tree, VbhHeap.v that the operations keep the heap order for any
    layout that is one. *)

From Stdlib Require Import ZArith Lia.
From stdpp Require Import base option numbers list gmap.
From S2P Require Import Prelude.
#[local] Open Scope Z_scope.

Definition ROW_SHIFT : Z := 16.
Definition ROOT_IDX : Z := 1.
Definition ROW_WIDTH : Z := Z.shiftl 1 ROW_SHIFT.
Definition VBH_NOIDX : Z := 0.
Definition VBH_UINT_MAX : Z := 4294967295.

(** [struct vbh] without its callbacks.  [h_array] says of each row pointer
    whether it is not NULL; [rows] is its length.  [h_cells] holds the pointers
    stored in the rows that are not NULL: a cell that was never written, or
    was set to NULL, is absent. *)
Record vbh (A : Type) := mk_vbh {
  h_array : list bool;
  h_cells : gmap Z A;
  h_length : Z;
  h_next : Z;
  page_size : Z;
  page_mask : Z;
  page_shift : Z
}.
Arguments mk_vbh {A}.
Arguments h_array {A}.
Arguments h_cells {A}.
Arguments h_length {A}.
Arguments h_next {A}.
Arguments page_size {A}.
Arguments page_mask {A}.
Arguments page_shift {A}.

Definition rows {A} (bh : vbh A) : Z := Z.of_nat (length (h_array bh)).

Definition upd_cells {A} (bh : vbh A) (c : gmap Z A) : vbh A :=
  mk_vbh (h_array bh) c (h_length bh) (h_next bh) (page_size bh) (page_mask bh) (page_shift bh).
Definition upd_rows {A} (bh : vbh A) (a : list bool) (l : Z) : vbh A :=
  mk_vbh a (h_cells bh) l (h_next bh) (page_size bh) (page_mask bh) (page_shift bh).
Definition upd_next {A} (bh : vbh A) (n : Z) : vbh A :=
  mk_vbh (h_array bh) (h_cells bh) (h_length bh) n (page_size bh) (page_mask bh) (page_shift bh).

(** ** The layout *)

(** [parent] and [child] of the [VM_AWARE] layout, which is the one compiled. *)
Definition parent {A} (bh : vbh A) (u : Z) : outcome Z :=
  _ ← assertC (negb (u =? VBH_UINT_MAX));
  let po := Z.land u (page_mask bh) in
  if (u <? page_size bh) || (3 <? po) then
    Ok (Z.lor (Z.land u (u32 (Z.lnot (page_mask bh)))) (Z.shiftr po 1))
  else if po <? 2 then
    let v := Z.shiftr (u32 (u - page_size bh)) (page_shift bh) in
    let v := u32 (v + Z.land v (u32 (Z.lnot (Z.shiftr (page_mask bh) 1)))) in
    Ok (Z.lor v (page_size bh / 2))
  else Ok (u32 (u - 2)).

Definition child {A} (bh : vbh A) (u : Z) : Z * Z :=
  if (page_mask bh <? u) && (Z.land u (page_mask bh - 1) =? 0) then
    let a := u32 (u + 2) in (a, a)
  else if truth (Z.land u (Z.shiftr (page_size bh) 1)) then
    let a := Z.shiftr (Z.land u (u32 (Z.lnot (page_mask bh)))) 1 in
    let a := Z.lor a (Z.land u (Z.shiftr (page_mask bh) 1)) in
    let a := u32 (a + 1) in
    let uu := u64 (Z.shiftl a (page_shift bh)) in
    let a := u32 uu in
    if a =? uu then (a, u32 (a + 1)) else (VBH_UINT_MAX, VBH_UINT_MAX)
  else
    let a := u32 (u + Z.land u (page_mask bh)) in (a, u32 (a + 1)).

(** The layout of the [#else] branch. *)
Definition parent_plain {A} (bh : vbh A) (u : Z) : outcome Z := Ok (u `div` 2).
Definition child_plain {A} (bh : vbh A) (u : Z) : Z * Z :=
  let a := u32 (u * 2) in (a, u32 (a + 1)).

(** ** Cells *)

(** [ROW(b, n)] as the condition that it is a row that exists. *)
Definition row_at {A} (bh : vbh A) (n : Z) : outcome unit :=
  r ← readC (h_array bh) (Z.to_nat (Z.shiftr n ROW_SHIFT));
  if (r : bool) then Ok tt else Fault FBounds.

(** [A(b, n)] as a value, and as the target of an assignment. *)
Definition A_get {A} (bh : vbh A) (n : Z) : outcome (option A) :=
  _ ← row_at bh n; Ok (h_cells bh !! n).

Definition A_set {A} (bh : vbh A) (n : Z) (p : option A) : outcome (vbh A) :=
  _ ← row_at bh n;
  Ok (upd_cells bh (match p with Some a => <[n := a]> (h_cells bh) | None => delete n (h_cells bh) end)).

(** [assert(A(bh, u) != NULL)] and the pointer. *)
Definition A_live {A} (bh : vbh A) (u : Z) : outcome A :=
  p ← A_get bh u;
  match p with Some a => Ok a | None => Fault FAssert end.

(** ** Rows *)

Definition vbh_addrow {A} (bh : vbh A) : outcome (vbh A) :=
  let a := if rows bh <=? Z.shiftr (h_length bh) ROW_SHIFT
           then h_array bh ++ replicate (Z.to_nat (rows bh)) false else h_array bh in
  let i := Z.to_nat (Z.shiftr (h_length bh) ROW_SHIFT) in
  r ← readC a i;
  _ ← assertC (negb r);
  a ← writeC a i true;
  Ok (upd_rows bh a (u32 (h_length bh + ROW_WIDTH))).

(** [for (u = 1; (1U << u) != bh->page_size; u++)]. *)
Fixpoint find_shift (fuel : nat) (u size : Z) : outcome Z :=
  if 32 <=? u then Fault FShift
  else if Z.shiftl 1 u =? size then Ok u
  else match fuel with O => Fault FFuel | S fuel => find_shift fuel (u + 1) size end.

(** [VBH_new] on a machine with pages of [pagesz] bytes and pointers of 8. *)
Definition VBH_new {A} (pagesz : Z) : outcome (vbh A) :=
  let size := pagesz / 8 in
  let mask := size - 1 in
  _ ← assertC (Z.land size mask =? 0);
  shift ← find_shift 32 1 size;
  _ ← assertC (size <=? 8 * ROW_WIDTH);
  bh ← vbh_addrow (mk_vbh (replicate 16 false) ∅ 0 ROOT_IDX size mask shift);
  A_set bh ROOT_IDX None.

(** ** Operations *)

Section ops.
Context {A P : Type}.

(** The layout, [bh->cmp] and [bh->update]; [P] is the state [update] works on. *)
Variables (par : vbh A -> Z -> outcome Z) (chl : vbh A -> Z -> Z * Z).
Variables (cmp : A -> A -> bool) (update : option (P -> A -> Z -> P)).

Definition vbh_update (bh : vbh A) (p : P) (u : Z) : outcome P :=
  _ ← assertC (u <? h_next bh);
  a ← A_live bh u;
  match update with None => Ok p | Some f => Ok (f p a u) end.

Definition binhead_swap (bh : vbh A) (p : P) (u v : Z) : outcome (vbh A * P) :=
  _ ← assertC (u <? h_next bh);
  a ← A_live bh u;
  _ ← assertC (v <? h_next bh);
  b ← A_live bh v;
  bh ← A_set bh u (Some b);
  bh ← A_set bh v (Some a);
  p ← vbh_update bh p u;
  p ← vbh_update bh p v;
  Ok (bh, p).

(** The loop; [fuel] is [u]. *)
Fixpoint trickleup_loop (fuel : nat) (bh : vbh A) (p : P) (u : Z) : outcome (vbh A * P * Z) :=
  if ROOT_IDX <? u then
    match fuel with
    | O => Fault FFuel
    | S fuel =>
        _ ← assertC (u <? h_next bh);
        a ← A_live bh u;
        v ← par bh u;
        _ ← assertC (v <? u);
        _ ← assertC (v <? h_next bh);
        b ← A_live bh v;
        if negb (cmp a b) then Ok (bh, p, u)
        else '(bh, p) ← binhead_swap bh p u v; trickleup_loop fuel bh p v
    end
  else Ok (bh, p, u).

Definition vbh_trickleup (bh : vbh A) (p : P) (u : Z) : outcome (vbh A * P * Z) :=
  _ ← assertC (u <? h_next bh);
  _ ← A_live bh u;
  trickleup_loop (Z.to_nat u) bh p u.

(** Which of the two children comes first. *)
Definition smaller_child (bh : vbh A) (v1 v2 : Z) : outcome Z :=
  a ← A_live bh v1;
  if negb (v1 =? v2) && (v2 <? h_next bh) then
    b ← A_live bh v2;
    Ok (if cmp b a then v2 else v1)
  else Ok v1.

(** The loop; [fuel] is [next - u]. *)
Fixpoint trickledown_loop (fuel : nat) (bh : vbh A) (p : P) (u : Z) : outcome (vbh A * P * Z) :=
  match fuel with
  | O => Fault FFuel
  | S fuel =>
      _ ← assertC (u <? h_next bh);
      a ← A_live bh u;
      let '(v1, v2) := chl bh u in
      _ ← assertC (0 <? v1);
      _ ← assertC (0 <? v2);
      _ ← assertC (v1 <=? v2);
      if h_next bh <=? v1 then Ok (bh, p, u)
      else
        v1 ← smaller_child bh v1 v2;
        _ ← assertC (v1 <? h_next bh);
        b ← A_live bh v1;
        if cmp a b then Ok (bh, p, u)
        else '(bh, p) ← binhead_swap bh p u v1; trickledown_loop fuel bh p v1
  end.

Definition vbh_trickledown (bh : vbh A) (p : P) (u : Z) : outcome (vbh A * P * Z) :=
  _ ← assertC (u <? h_next bh);
  _ ← A_live bh u;
  trickledown_loop (Z.to_nat (h_next bh - u)) bh p u.

Definition VBH_insert (bh : vbh A) (p : P) (x : A) : outcome (vbh A * P) :=
  _ ← assertC (h_next bh <=? h_length bh);
  bh ← (if h_length bh =? h_next bh then vbh_addrow bh else Ok bh);
  _ ← assertC (h_next bh <? h_length bh);
  let u := h_next bh in
  let bh := upd_next bh (u32 (h_next bh + 1)) in
  bh ← A_set bh u (Some x);
  p ← vbh_update bh p u;
  '(bh, p, _) ← vbh_trickleup bh p u;
  _ ← assertC (u <? h_next bh);
  _ ← A_live bh u;
  Ok (bh, p).

Definition VBH_root (bh : vbh A) : outcome (option A) := A_get bh ROOT_IDX.

(** [assert(idx < bh->next); assert(idx > 0); assert(A(bh, idx) != NULL)]. *)
Definition idx_live (bh : vbh A) (idx : Z) : outcome A :=
  _ ← assertC (idx <? h_next bh);
  _ ← assertC (0 <? idx);
  A_live bh idx.

(** The two trickles at the end of [VBH_delete] and [VBH_reorder]. *)
Definition settle (bh : vbh A) (p : P) (idx : Z) : outcome (vbh A * P) :=
  '(bh, p, idx) ← vbh_trickleup bh p idx;
  _ ← idx_live bh idx;
  '(bh, p, idx) ← vbh_trickledown bh p idx;
  _ ← idx_live bh idx;
  Ok (bh, p).

(** Returning a row once a full one is spare. *)
Definition free_row (bh : vbh A) : outcome (vbh A) :=
  if u32 (h_next bh + 2 * ROW_WIDTH) <=? h_length bh then
    let i := Z.to_nat (Z.shiftr (h_length bh - 1) ROW_SHIFT) in
    a ← writeC (h_array bh) i false;
    Ok (upd_rows bh a (u32 (h_length bh - ROW_WIDTH)))
  else Ok bh.

Definition VBH_delete (bh : vbh A) (p : P) (idx : Z) : outcome (vbh A * P) :=
  _ ← assertC (ROOT_IDX <? h_next bh);
  a ← idx_live bh idx;
  p ← match update with None => Fault FBounds | Some f => Ok (f p a VBH_NOIDX) end;
  let bh := upd_next bh (u32 (h_next bh - 1)) in
  if idx =? h_next bh then bh ← A_set bh (h_next bh) None; Ok (bh, p)
  else
    t ← A_get bh (h_next bh);
    bh ← A_set bh idx t;
    bh ← A_set bh (h_next bh) None;
    p ← vbh_update bh p idx;
    '(bh, p) ← settle bh p idx;
    bh ← free_row bh;
    Ok (bh, p).

Definition VBH_reorder (bh : vbh A) (p : P) (idx : Z) : outcome (vbh A * P) :=
  _ ← assertC (ROOT_IDX <? h_next bh);
  _ ← idx_live bh idx;
  settle bh p idx.

(** The loop that frees the rows, with the row pointers freed; [fuel] is [rows]. *)
Fixpoint free_rows (fuel : nat) (bh : vbh A) (u : Z) : outcome (list Z) :=
  if u <? h_length bh then
    match fuel with
    | O => Fault FFuel
    | S fuel =>
        _ ← readC (h_array bh) (Z.to_nat (Z.shiftr u ROW_SHIFT));
        l ← free_rows fuel bh (u32 (u + ROW_WIDTH));
        Ok (Z.shiftr u ROW_SHIFT :: l)
    end
  else Ok [].

Definition VBH_destroy (bh : vbh A) : outcome (list Z) :=
  r ← VBH_root bh;
  _ ← assertC (match r with None => true | Some _ => false end);
  free_rows (Z.to_nat (rows bh)) bh 0.
End ops.
