(* ===== verification/VbhShape.v ===== *)
(** * The page-aware layout of lib/vbh.c is a tree

    [parent] and [child] are inverse to each other, which is what the PARANOIA
    assertions of vbh.c check.  The class [Layout] says so of any pair of
    functions; both layouts of vbh.c are instances. *)

From Stdlib Require Import ZArith Lia.
From stdpp Require Import base option numbers list gmap.
From S2P Require Import Prelude Vbh.
#[local] Open Scope Z_scope.

(** ** Layouts *)

Definition same_pages {A} (bh bh' : vbh A) : Prop :=
  page_size bh' = page_size bh /\ page_mask bh' = page_mask bh /\ page_shift bh' = page_shift bh.

(** [pf bh] is the parent function of a tree rooted at 1, and [par] and [chl]
    compute it, for the indices below [lim]. *)
Class Layout {A} (par : vbh A -> Z -> outcome Z) (chl : vbh A -> Z -> Z * Z) (lim : Z)
    (pages_ok : vbh A -> Prop) (pf : vbh A -> Z -> Z) := {
  lay_same : forall bh bh', same_pages bh bh' -> pages_ok bh ->
    pages_ok bh' /\ forall u, pf bh' u = pf bh u;
  lay_par : forall bh u, pages_ok bh -> 2 <= u < lim -> par bh u = Ok (pf bh u);
  lay_lt : forall bh u, pages_ok bh -> 2 <= u < lim -> 1 <= pf bh u < u;
  lay_chl : forall bh u, pages_ok bh -> 1 <= u < lim ->
    0 < (chl bh u).1 <= (chl bh u).2 /\ u < (chl bh u).1 /\
    forall x, 2 <= x < lim -> pf bh x = u <-> x = (chl bh u).1 \/ x = (chl bh u).2
}.

(** ** Pages as arithmetic *)

Section pages.
Context (s : Z) (Hs : 2 <= s <= 19).
Local Abbreviation Page := (2 ^ s).
Local Abbreviation Half := (2 ^ (s - 1)).

Lemma page_half : Page = 2 * Half /\ 2 <= Half /\ Page <= 524288.
Proof.
  assert (Page = 2 * Half) as HP by (rewrite <-Z.pow_succ_r by lia; f_equal; lia).
  pose proof (Z.pow_le_mono_r 2 1 (s - 1) ltac:(lia) ltac:(lia)).
  pose proof (Z.pow_le_mono_r 2 s 19 ltac:(lia) ltac:(lia)). simpl in *. lia.
Qed.

Lemma div_page q r : 0 <= r < Page -> (q * Page + r) / Page = q /\ (q * Page + r) `mod` Page = r.
Proof.
  intros Hr. split.
  - rewrite Z.div_add_l, Z.div_small by lia. lia.
  - rewrite Z.add_comm, Z.mod_add, Z.mod_small by lia. done.
Qed.

(** [x & ~mask] on an [unsigned] and a mask of [k] low bits. *)
Lemma land_high x k : 0 <= k <= 32 -> 0 <= x < 2 ^ 32 ->
  Z.land x (u32 (Z.lnot (2 ^ k - 1))) = x / 2 ^ k * 2 ^ k.
Proof.
  intros Hk Hx. rewrite <-Z.shiftr_div_pow2, <-Z.shiftl_mul_pow2 by lia.
  apply Z.bits_inj'. intros i Hi. rewrite Z.land_spec. unfold wrapu.
  replace (2 ^ k - 1) with (Z.ones k) by (rewrite Z.ones_equiv; lia).
  destruct (decide (i < 32)).
  - rewrite Z.mod_pow2_bits_low, Z.lnot_spec by lia. destruct (decide (i < k)).
    + by rewrite Z.ones_spec_low, andb_false_r, Z.shiftl_spec_low by lia.
    + rewrite Z.ones_spec_high, andb_true_r, Z.shiftl_spec_high, Z.shiftr_spec by lia.
      f_equal. lia.
  - assert (forall j, 32 <= j -> Z.testbit x j = false) as Hx0.
    { intros j Hj. rewrite <-(Z.mod_small x (2 ^ 32)) by lia. by apply Z.mod_pow2_bits_high. }
    rewrite Hx0 by lia. symmetry. rewrite Z.shiftl_spec_high, Z.shiftr_spec by lia.
    apply Hx0. lia.
Qed.

Lemma land_even x m : Z.land x (Z.shiftl m 1) = Z.shiftl (Z.land (Z.shiftr x 1) m) 1.
Proof.
  apply Z.bits_inj'. intros i Hi. rewrite Z.land_spec. destruct (decide (i < 1)).
  - by rewrite !Z.shiftl_spec_low, andb_false_r by lia.
  - rewrite !Z.shiftl_spec_high, Z.land_spec, Z.shiftr_spec by lia.
    by replace (i - 1 + 1) with i by lia.
Qed.

Lemma mod_page x : x `mod` Page = x `mod` 2 + 2 * ((x / 2) `mod` Half).
Proof. destruct page_half as (-> & ? & _). apply Z.rem_mul_r; lia. Qed.

(** [x & (mask - 1)] is zero for the first two places of a page. *)
Lemma land_mask2 x : 0 <= x -> (Z.land x (Page - 1 - 1) =? 0) = (x `mod` Page <? 2).
Proof.
  intros Hx. pose proof page_half as (HP & HH & _).
  replace (Page - 1 - 1) with (Z.shiftl (Half - 1) 1) by (rewrite Z.shiftl_mul_pow2; lia).
  rewrite land_even, land_low_mod, Z.shiftl_mul_pow2, Z.shiftr_div_pow2 by lia.
  change (2 ^ 1) with 2. pose proof (mod_page x) as Hm.
  pose proof (Z.mod_pos_bound x 2 ltac:(lia)). pose proof (Z.mod_pos_bound (x / 2) Half ltac:(lia)).
  apply eq_true_iff_eq. rewrite Z.eqb_eq, Z.ltb_lt. lia.
Qed.

(** [x & (page_size >> 1)]: the second half of a page. *)
Lemma land_half x : 0 <= x -> truth (Z.land x Half) = (Half <=? x `mod` Page).
Proof.
  intros Hx. pose proof page_half as (HP & HH & _). rewrite land_pow2_truth by lia.
  apply eq_true_iff_eq. rewrite Z.leb_le, Z.testbit_true by lia.
  rewrite HP, (Z.mul_comm 2 Half), Z.rem_mul_r by lia.
  pose proof (Z.mod_pos_bound x Half ltac:(lia)). pose proof (Z.mod_pos_bound (x / Half) 2 ltac:(lia)).
  split; [nia|]. intros. destruct (decide ((x / Half) `mod` 2 = 0)); lia.
Qed.

(** ** The functions in terms of page number and place *)

Definition page_parent (x : Z) : Z :=
  let q := x / Page in
  let r := x `mod` Page in
  if (x <? Page) || (3 <? r) then q * Page + r / 2
  else if r <? 2 then (q - 1) / Half * Page + Half + (q - 1) `mod` Half
  else x - 2.

Definition page_children (u : Z) : Z * Z :=
  let q := u / Page in
  let r := u `mod` Page in
  if (Page <=? u) && (r <? 2) then (u + 2, u + 2)
  else if Half <=? r then ((q * Half + (r - Half) + 1) * Page, (q * Half + (r - Half) + 1) * Page + 1)
  else (u + r, u + r + 1).

(** *** They are inverse to each other *)

Lemma parent_first q r :
  0 <= r < Page -> 0 <= q -> q = 0 \/ 3 < r -> page_parent (q * Page + r) = q * Page + r / 2.
Proof.
  intros Hr Hq Ho. unfold page_parent. destruct (div_page q r Hr) as [-> ->].
  destruct (Z.ltb_spec (q * Page + r) Page), (Z.ltb_spec 3 r); simpl; try done.
  destruct Ho as [->|]; lia.
Qed.

Lemma parent_root w e :
  0 <= w -> 0 <= e < 2 -> page_parent ((w + 1) * Page + e) = w / Half * Page + Half + w `mod` Half.
Proof.
  intros Hw He. pose proof page_half. unfold page_parent.
  destruct (div_page (w + 1) e ltac:(lia)) as [-> ->].
  rewrite (proj2 (Z.ltb_ge _ Page)), (proj2 (Z.ltb_ge 3 e)), (proj2 (Z.ltb_lt e 2)) by nia. simpl.
  by replace (w + 1 - 1) with w by lia.
Qed.

Lemma parent_second q e :
  1 <= q -> 2 <= e < 4 -> page_parent (q * Page + e) = q * Page + (e - 2).
Proof.
  intros Hq He. pose proof page_half. unfold page_parent.
  destruct (div_page q e ltac:(lia)) as [-> ->].
  rewrite (proj2 (Z.ltb_ge _ Page)), (proj2 (Z.ltb_ge 3 e)), (proj2 (Z.ltb_ge e 2)) by nia. simpl.
  lia.
Qed.

Lemma children_first q r :
  0 <= r < 2 -> 1 <= q -> page_children (q * Page + r) = (q * Page + r + 2, q * Page + r + 2).
Proof.
  intros Hr Hq. pose proof page_half. unfold page_children.
  destruct (div_page q r ltac:(lia)) as [-> ->].
  by rewrite (proj2 (Z.leb_le Page _)), (proj2 (Z.ltb_lt r 2)) by nia.
Qed.

Lemma children_bottom q r :
  0 <= r < Half -> 0 <= q ->
  page_children (q * Page + (Half + r)) = ((q * Half + r + 1) * Page, (q * Half + r + 1) * Page + 1).
Proof.
  intros Hr Hq. pose proof page_half. unfold page_children.
  destruct (div_page q (Half + r) ltac:(lia)) as [-> ->].
  rewrite (proj2 (Z.ltb_ge (Half + r) 2)), andb_false_r, (proj2 (Z.leb_le Half _)) by lia.
  by replace (Half + r - Half) with r by lia.
Qed.

Lemma children_inner q r :
  0 <= r < Half -> 0 <= q -> q = 0 \/ 2 <= r ->
  page_children (q * Page + r) = (q * Page + 2 * r, q * Page + 2 * r + 1).
Proof.
  intros Hr Hq Ho. pose proof page_half. unfold page_children.
  destruct (div_page q r ltac:(lia)) as [-> ->].
  replace ((Page <=? q * Page + r) && (r <? 2)) with false.
  - rewrite (proj2 (Z.leb_gt Half _)) by lia. f_equal; lia.
  - symmetry. apply andb_false_iff. rewrite Z.leb_gt, Z.ltb_ge.
    destruct Ho as [->|]; [left; lia|right; lia].
Qed.

(** The three kinds of nodes. *)
Lemma node_cases u : 1 <= u ->
  (exists q r, u = q * Page + r /\ 0 <= r < 2 /\ 1 <= q) \/
  (exists q r, u = q * Page + (Half + r) /\ 0 <= r < Half /\ 0 <= q) \/
  (exists q r, u = q * Page + r /\ 0 <= r < Half /\ 0 <= q /\ (q = 0 /\ 1 <= r \/ 2 <= r)).
Proof.
  intros Hu. pose proof page_half. pose proof (Z.div_mod u Page ltac:(lia)) as Hd.
  pose proof (Z.mod_pos_bound u Page ltac:(lia)). pose proof (Z.div_pos u Page ltac:(lia) ltac:(lia)).
  set (q := u / Page) in *. set (r := u `mod` Page) in *.
  destruct (decide (Half <= r)); [right; left; exists q, (r - Half); lia|].
  destruct (decide (r < 2 /\ 1 <= q)); [left; exists q, r; lia|].
  right. right. exists q, r. split; [lia|]. split; [lia|]. split; [lia|].
  destruct (decide (q = 0)) as [E|]; [left; rewrite E in *; lia|right; lia].
Qed.

Lemma page_children_range u : 1 <= u ->
  u < (page_children u).1 /\
  (page_children u).1 <= (page_children u).2 <= (page_children u).1 + 1.
Proof.
  intros Hu. pose proof page_half.
  destruct (node_cases u Hu) as
    [(q & r & -> & Hr & Hq)|[(q & r & -> & Hr & Hq)|(q & r & -> & Hr & Hq & Ho)]].
  - rewrite children_first by lia. simpl. lia.
  - rewrite children_bottom by lia. cbn [fst snd]. nia.
  - rewrite children_inner by lia. cbn [fst snd]. lia.
Qed.

Lemma page_parent_children u x : 1 <= u ->
  x = (page_children u).1 \/ x = (page_children u).2 -> page_parent x = u.
Proof.
  intros Hu Hx. pose proof page_half.
  destruct (node_cases u Hu) as
    [(q & r & -> & Hr & Hq)|[(q & r & -> & Hr & Hq)|(q & r & -> & Hr & Hq & Ho)]].
  - rewrite children_first in Hx by lia. cbn [fst snd] in Hx.
    replace x with (q * Page + (r + 2)) by lia. rewrite parent_second by lia. lia.
  - rewrite children_bottom in Hx by lia. cbn [fst snd] in Hx.
    assert (exists e, 0 <= e < 2 /\ x = (q * Half + r + 1) * Page + e) as (e & He & ->)
      by (destruct Hx; [exists 0|exists 1]; lia).
    rewrite parent_root by nia.
    rewrite Z.div_add_l, Z.div_small, Z.add_comm, (Z.add_comm (q * Half)), Z.mod_add, Z.mod_small by lia.
    lia.
  - rewrite children_inner in Hx by lia. cbn [fst snd] in Hx.
    assert (exists e, 0 <= e < 2 /\ x = q * Page + (2 * r + e)) as (e & He & ->)
      by (destruct Hx; [exists 0|exists 1]; lia).
    rewrite parent_first by lia. rewrite <-(Z.div_unique (2 * r + e) 2 r e); lia.
Qed.

Lemma page_children_parent x : 2 <= x ->
  let u := page_parent x in
  1 <= u < x /\ (x = (page_children u).1 \/ x = (page_children u).2).
Proof.
  intros Hx. pose proof page_half. pose proof (Z.div_mod x Page ltac:(lia)) as Hd.
  pose proof (Z.mod_pos_bound x Page ltac:(lia)). pose proof (Z.div_pos x Page ltac:(lia) ltac:(lia)).
  set (q := x / Page) in *. set (r := x `mod` Page) in *.
  replace x with (q * Page + r) by lia.
  destruct (decide (q = 0 \/ 3 < r)) as [Ho|Ho].
  - rewrite parent_first by lia. cbv zeta. pose proof (Z.div_mod r 2 ltac:(lia)).
    pose proof (Z.mod_pos_bound r 2 ltac:(lia)).
    assert (q = 0 /\ 2 <= r \/ 3 < r) as Ho' by (destruct Ho as [->|]; lia).
    rewrite children_inner by lia. cbn [fst snd]. lia.
  - destruct (decide (r < 2)).
    + replace (q * Page + r) with ((q - 1 + 1) * Page + r) by lia. rewrite parent_root by lia.
      pose proof (Z.div_mod (q - 1) Half ltac:(lia)) as Hq.
      pose proof (Z.mod_pos_bound (q - 1) Half ltac:(lia)).
      pose proof (Z.div_pos (q - 1) Half ltac:(lia) ltac:(lia)).
      set (a := (q - 1) / Half) in *. set (b := (q - 1) `mod` Half) in *. cbv zeta.
      replace (a * Page + Half + b) with (a * Page + (Half + b)) by lia.
      rewrite children_bottom by lia. cbn [fst snd].
      replace (a * Half + b + 1) with (q - 1 + 1) by lia.
      split; [|lia]. split; [lia|]. nia.
    + rewrite parent_second by lia. cbv zeta. rewrite children_first by lia. cbn [fst snd]. nia.
Qed.
End pages.

(** ** The code computes them *)

Lemma lor_half s a b :
  2 <= s -> 0 <= a -> 0 <= b < 2 ^ (s - 1) ->
  Z.lor (a * 2 ^ s + b) (2 ^ (s - 1)) = a * 2 ^ s + 2 ^ (s - 1) + b.
Proof.
  intros Hs Ha Hb. assert (2 ^ s = 2 * 2 ^ (s - 1)) as HP
    by (rewrite <-Z.pow_succ_r by lia; f_equal; lia).
  rewrite <-(lor_add _ b s), <-Z.lor_assoc, (Z.lor_comm b) by (lia || by apply Z.mod_mul; lia).
  rewrite (lor_add _ b (s - 1)) by (lia || by apply Z.mod_same; lia).
  rewrite (lor_add _ _ s) by (lia || by apply Z.mod_mul; lia). lia.
Qed.

Lemma mod_half s u :
  2 <= s -> 2 ^ (s - 1) <= u `mod` 2 ^ s -> u `mod` 2 ^ (s - 1) = u `mod` 2 ^ s - 2 ^ (s - 1).
Proof.
  intros Hs Hr. assert (2 ^ s = 2 * 2 ^ (s - 1)) as HP
    by (rewrite <-Z.pow_succ_r by lia; f_equal; lia).
  pose proof (Z.div_mod u (2 ^ s) ltac:(lia)). pose proof (Z.mod_pos_bound u (2 ^ s) ltac:(lia)).
  symmetry. apply (Z.mod_unique _ _ (2 * (u / 2 ^ s) + 1)); nia.
Qed.

(** Nothing inside the page of [u] is beyond an [unsigned]. *)
Lemma page_end s q r x :
  2 <= s <= 19 -> q * 2 ^ s + r < 2 ^ 32 -> 0 <= r -> 0 <= q -> x < (q + 1) * 2 ^ s -> x < 2 ^ 32.
Proof.
  intros Hs Hq Hr Hq0 Hx. assert (2 ^ 32 = 2 ^ (32 - s) * 2 ^ s) as E
    by (rewrite <-Z.pow_add_r by lia; f_equal; lia).
  rewrite E in *. assert (0 < 2 ^ s) by lia. nia.
Qed.

Lemma even_page s a : 2 <= s -> a * 2 ^ s <> 2 ^ 32 - 1.
Proof.
  intros Hs. assert (2 ^ s = 2 * 2 ^ (s - 1)) as HP
    by (rewrite <-Z.pow_succ_r by lia; f_equal; lia).
  change (2 ^ 32 - 1) with 4294967295. lia.
Qed.

Section code.
Context {A : Type}.
Implicit Types bh : vbh A.

(** What [VBH_new] establishes of the page fields. *)
Definition pages_ok bh : Prop :=
  2 <= page_shift bh <= 19 /\ page_size bh = 2 ^ page_shift bh /\
  page_mask bh = 2 ^ page_shift bh - 1.

Lemma parent_page bh u :
  pages_ok bh -> 2 <= u < VBH_UINT_MAX -> parent bh u = Ok (page_parent (page_shift bh) u).
Proof.
  intros (Hs & Hsz & Hmk) Hu. unfold VBH_UINT_MAX in Hu. pose proof (page_half _ Hs) as (HP & HH & HM).
  unfold parent, page_parent. rewrite Hsz, Hmk. set (s := page_shift bh) in *.
  rewrite assertC_true, bind_Ok_l by (apply negb_true_iff, Z.eqb_neq; unfold VBH_UINT_MAX; lia).
  rewrite land_low_mod by lia. cbv zeta.
  pose proof (Z.div_mod u (2 ^ s) ltac:(lia)) as Hd.
  pose proof (Z.mod_pos_bound u (2 ^ s) ltac:(lia)).
  pose proof (Z.div_pos u (2 ^ s) ltac:(lia) ltac:(lia)).
  destruct ((u <? 2 ^ s) || (3 <? u `mod` 2 ^ s)) eqn:E.
  - f_equal. rewrite land_high by lia. rewrite Z.shiftr_div_pow2 by lia. change (2 ^ 1) with 2.
    apply lor_add with (w := s); [lia| |by apply Z.mod_mul; lia].
    split; [apply Z.div_pos; lia|apply Z.div_lt_upper_bound; lia].
  - rewrite orb_false_iff, !Z.ltb_ge in E. destruct E as [E1 E2].
    destruct (Z.ltb_spec (u `mod` 2 ^ s) 2); [|do 2 f_equal; rewrite wrapu_small; lia].
    f_equal. rewrite (wrapu_small 32 (u - 2 ^ s)) by lia. rewrite Z.shiftr_div_pow2 by lia.
    replace ((u - 2 ^ s) / 2 ^ s) with (u / 2 ^ s - 1)
      by (replace (u - 2 ^ s) with (u + (-1) * 2 ^ s) by lia; rewrite Z.div_add by lia; lia).
    set (w := u / 2 ^ s - 1). assert (0 <= w) by (subst w; nia).
    assert (w < 2 ^ 30) by (subst w; nia).
    replace (Z.shiftr (2 ^ s - 1) 1) with (2 ^ (s - 1) - 1)
      by (rewrite Z.shiftr_div_pow2 by lia; change (2 ^ 1) with 2;
          apply Z.div_unique with 1; lia).
    rewrite land_high by lia. rewrite HP. replace (2 * 2 ^ (s - 1) / 2) with (2 ^ (s - 1))
      by (apply Z.div_unique with 0; lia).
    pose proof (Z.div_mod w (2 ^ (s - 1)) ltac:(lia)) as Hw.
    pose proof (Z.mod_pos_bound w (2 ^ (s - 1)) ltac:(lia)).
    pose proof (Z.div_pos w (2 ^ (s - 1)) ltac:(lia) ltac:(lia)).
    set (a := w / 2 ^ (s - 1)) in *. set (b := w `mod` 2 ^ (s - 1)) in *.
    rewrite wrapu_small by nia.
    replace (w + a * 2 ^ (s - 1)) with (a * 2 ^ s + b) by (rewrite HP; lia).
    rewrite (lor_half s) by lia. lia.
Qed.

(** The children, unless they are too far for an [unsigned]. *)
Lemma child_page bh u :
  pages_ok bh -> 1 <= u < VBH_UINT_MAX ->
  child bh u =
    let c := page_children (page_shift bh) u in
    if c.1 <? 2 ^ 32 then c else (VBH_UINT_MAX, VBH_UINT_MAX).
Proof.
  intros (Hs & Hsz & Hmk) Hu. unfold VBH_UINT_MAX in Hu. pose proof (page_half _ Hs) as (HP & HH & HM).
  unfold child, page_children. rewrite Hsz, Hmk. set (s := page_shift bh) in *.
  rewrite land_mask2, !land_low_mod by lia.
  replace (Z.shiftr (2 ^ s) 1) with (2 ^ (s - 1)) by
    (rewrite Z.shiftr_div_pow2 by lia; change (2 ^ 1) with 2; apply Z.div_unique with 0; lia).
  rewrite land_half by lia.
  replace (2 ^ s - 1 <? u) with (2 ^ s <=? u)
    by (apply eq_true_iff_eq; rewrite Z.leb_le, Z.ltb_lt; lia).
  pose proof (Z.div_mod u (2 ^ s) ltac:(lia)) as Hd.
  pose proof (Z.mod_pos_bound u (2 ^ s) ltac:(lia)).
  pose proof (Z.div_pos u (2 ^ s) ltac:(lia) ltac:(lia)).
  set (q := u / 2 ^ s) in *. set (r := u `mod` 2 ^ s) in *.
  destruct ((2 ^ s <=? u) && (r <? 2)) eqn:E1; [|destruct (Z.leb_spec (2 ^ (s - 1)) r)].
  - rewrite andb_true_iff, Z.leb_le, Z.ltb_lt in E1. cbv zeta. cbn [fst snd].
    assert (u + 2 < 2 ^ 32) by (apply (page_end s q r); nia).
    rewrite wrapu_small, (proj2 (Z.ltb_lt _ _)) by lia. done.
  - cbv zeta. cbn [fst snd].
    rewrite land_high by lia. fold q. rewrite Z.shiftr_div_pow2 by lia. change (2 ^ 1) with 2.
    replace (q * 2 ^ s / 2) with (q * 2 ^ (s - 1))
      by (apply Z.div_unique with 0; lia).
    replace (Z.shiftr (2 ^ s - 1) 1) with (2 ^ (s - 1) - 1)
      by (rewrite Z.shiftr_div_pow2 by lia; change (2 ^ 1) with 2; apply Z.div_unique with 1; lia).
    rewrite land_low_mod by lia. rewrite (mod_half s u) by lia. fold r.
    rewrite (lor_add _ _ (s - 1)) by (lia || by apply Z.mod_mul; lia).
    set (a := q * 2 ^ (s - 1) + (r - 2 ^ (s - 1)) + 1).
    assert (1 <= a < 2 ^ 32) by (subst a; nia).
    rewrite (wrapu_small 32 a) by lia. rewrite Z.shiftl_mul_pow2 by lia.
    assert (0 <= a * 2 ^ s < 2 ^ 64) by nia. rewrite (wrapu_small 64) by done.
    destruct (Z.ltb_spec (a * 2 ^ s) (2 ^ 32)).
    + rewrite (wrapu_small 32) by lia. rewrite Z.eqb_refl, wrapu_small; [done|].
      assert (a * 2 ^ s <> 2 ^ 32 - 1) by (apply (even_page s); lia). lia.
    + rewrite (proj2 (Z.eqb_neq _ _)); [done|]. unfold wrapu.
      pose proof (Z.mod_pos_bound (a * 2 ^ s) (2 ^ 32) ltac:(lia)). lia.
  - cbv zeta. cbn [fst snd].
    assert (u + r + 1 < 2 ^ 32) by (apply (page_end s q r); nia).
    rewrite (wrapu_small 32 (u + r)), (proj2 (Z.ltb_lt _ _)), wrapu_small by lia. done.
Qed.

#[global] Instance paged_layout : Layout (A:=A) parent child VBH_UINT_MAX pages_ok
  (fun bh => page_parent (page_shift bh)).
Proof.
  split.
  - intros bh bh' (E1 & E2 & E3) Hok. unfold pages_ok in *. rewrite E1, E2, E3. done.
  - intros bh u. apply parent_page.
  - intros bh u (Hs & _) Hu. apply (page_children_parent _ Hs). lia.
  - intros bh u Hok Hu. rewrite child_page by done. cbv zeta. pose proof Hok as (Hs & _).
    pose proof (page_children_range _ Hs u ltac:(lia)) as (Hlt & Hle & _).
    pose proof (page_parent_children _ Hs u) as Hpc.
    pose proof (page_children_parent _ Hs) as Hcp. unfold VBH_UINT_MAX in *.
    destruct (Z.ltb_spec (page_children (page_shift bh) u).1 (2 ^ 32)) as [Hsm|Hbig].
    + split; [lia|]. split; [lia|]. intros x Hx. split.
      * intros <-. apply Hcp. lia.
      * intros Hor. apply Hpc; [lia|done].
    + cbn [fst snd]. split; [lia|]. split; [lia|]. intros x Hx. split; [|lia].
      intros <-. destruct (Hcp x ltac:(lia)) as [_ [E|E]]; lia.
Qed.

(** The plain binary layout has no clamp: its indices stop at [2^31]. *)
#[global] Instance plain_layout : Layout (A:=A) parent_plain child_plain (2 ^ 31) (fun _ => True)
  (fun _ u => u / 2).
Proof.
  split.
  - done.
  - done.
  - intros bh u _ Hu. split; [apply Z.div_le_lower_bound; lia|apply Z.div_lt; lia].
  - intros bh u _ Hu. unfold child_plain. cbn [fst snd].
    rewrite (wrapu_small 32 (u * 2)), wrapu_small by lia. split; [lia|]. split; [lia|].
    intros x _. pose proof (Z.div_mod x 2 ltac:(lia)). pose proof (Z.mod_pos_bound x 2 ltac:(lia)).
    split; [lia|]. intros [->| ->]; symmetry; [apply Z.div_unique with 0|apply Z.div_unique with 1]; lia.
Qed.

(** The page-aware layout is a tree: below [UINT_MAX] every index but the
    root has exactly one parent, which is smaller, and it is one of the
    parent's children; and what [child] returns for an index is either beyond
    what an [unsigned] can count or has that index as its parent, which is what
    the PARANOIA assertions of [child] check. *)
Theorem layout_is_tree bh u (Hok : pages_ok bh) (Hu : 1 <= u < VBH_UINT_MAX) :
  let '(a, b) := child bh u in
  u < a <= b /\
  (forall c, c = a \/ c = b -> c < VBH_UINT_MAX -> parent bh c = Ok u) /\
  (2 <= u -> exists v, parent bh u = Ok v /\ 1 <= v < u /\ (u = (child bh v).1 \/ u = (child bh v).2)).
Proof.
  destruct (child bh u) as [a b] eqn:E.
  pose proof (lay_chl bh u Hok Hu) as (H1 & H2 & H3). rewrite E in H1, H2, H3. cbn [fst snd] in *.
  split; [lia|]. split.
  - intros c Hc Hlt. rewrite lay_par by (done || destruct Hc; lia). f_equal. apply H3; [|done].
    destruct Hc; lia.
  - intros Hu2. pose proof (lay_lt (par:=parent) (chl:=child) (lim:=VBH_UINT_MAX) bh u Hok) as Hv. cbv beta in Hv.
    specialize (Hv ltac:(lia)). eexists. split; [apply lay_par; [done|lia]|].
    split; [done|]. apply (lay_chl (par:=parent) (lim:=VBH_UINT_MAX) bh); done || lia.
Qed.
End code.

(** A heap with pages of 4096 bytes: the last place of the first page has its
    children on the next two pages. *)
Lemma layout_is_tree_witness :
  child (mk_vbh (A:=nat) [true] ∅ 65536 1 512 511 9) 511 = (131072, 131073) /\
  parent (mk_vbh (A:=nat) [true] ∅ 65536 1 512 511 9) 131073 = Ok 511.
Proof.
  split; [by vm_compute|].
  apply (layout_is_tree (mk_vbh (A:=nat) [true] ∅ 65536 1 512 511 9) 511); [split; [simpl; lia|done]|done| |done].
  by right.
Defined.
