(* ===== verification/VbhHeap.v ===== *)
(** * Heap order on the cells of lib/vbh.c

    What the swaps of vbh.c do to a map from indices to items: the order of
    children against their parents, the items held, and the index that the
    [update] callback keeps for each item. *)

From Stdlib Require Import ZArith Lia.
From stdpp Require Import base option numbers list gmap fin_maps.
From S2P Require Import Prelude Vbh VbhShape.
#[local] Open Scope Z_scope.

(** ** The callbacks *)

(** [cmp a b] says that [a] comes before [b]: a strict weak order. *)
Class Before {A} (cmp : A -> A -> bool) := {
  before_asym : forall a b, cmp a b = true -> cmp b a = false;
  before_trans : forall a b c, cmp a b = false -> cmp b c = false -> cmp a c = false
}.

(** [update] stores the index in the item: [idx_of] reads it back. *)
Class Index {A P} (upd : P -> A -> Z -> P) (idx_of : P -> A -> Z) := {
  idx_same : forall p a u, idx_of (upd p a u) a = u;
  idx_other : forall p a b u, a <> b -> idx_of (upd p a u) b = idx_of p b
}.

(** ** Items *)

Definition items {A} (c : gmap Z A) : list A := (map_to_list c).*2.

Section items.
Context {A : Type}.
Implicit Types c : gmap Z A.

Lemma elem_of_items c a : a ∈ items c <-> exists x, c !! x = Some a.
Proof.
  unfold items. rewrite list_elem_of_fmap. split.
  - intros ([x b] & -> & Hx%elem_of_map_to_list). by exists x.
  - intros (x & Hx). exists (x, a). by rewrite elem_of_map_to_list.
Qed.

Lemma items_insert c x a : c !! x = None -> items (<[x := a]> c) ≡ₚ a :: items c.
Proof. intros Hx. unfold items. by rewrite map_to_list_insert. Qed.

Lemma items_delete c x a : c !! x = Some a -> items c ≡ₚ a :: items (delete x c).
Proof.
  intros Hx. rewrite <-(insert_delete_id c x a Hx) at 1. apply items_insert, lookup_delete_eq.
Qed.

Lemma items_nil c : items c = [] <-> c = ∅.
Proof.
  unfold items. split; [|intros ->; by rewrite map_to_list_empty].
  intros E%fmap_nil_inv. by apply map_to_list_empty_iff.
Qed.

(** [binhead_swap] on the cells. *)
Definition swap c (u v : Z) (a b : A) : gmap Z A := <[v := a]> (<[u := b]> c).

Lemma lookup_swap c u v a b x :
  c !! u = Some a -> c !! v = Some b ->
  swap c u v a b !! x = if decide (x = v) then Some a else if decide (x = u) then Some b else c !! x.
Proof.
  intros Ha Hb. unfold swap. repeat case_decide; subst; rewrite ?lookup_insert_eq; try done.
  - by rewrite lookup_insert_ne, lookup_insert_eq by congruence.
  - by rewrite !lookup_insert_ne by congruence.
Qed.

Lemma swap_items c u v a b :
  c !! u = Some a -> c !! v = Some b -> u <> v -> items (swap c u v a b) ≡ₚ items c.
Proof.
  intros Ha Hb Hne. unfold swap. rewrite <-(insert_delete_eq _ v), delete_insert_ne by done.
  rewrite <-(insert_delete_eq _ u), items_insert.
  - rewrite items_insert by apply lookup_delete_eq. rewrite (items_delete c v b Hb).
    rewrite (items_delete (delete v c) u a) by (by rewrite lookup_delete_ne). apply perm_swap.
  - rewrite lookup_insert_ne, lookup_delete_ne by done. apply lookup_delete_eq.
Qed.
End items.

(** ** Order *)

Section order.
Context {A : Type} (cmp : A -> A -> bool) `{!Before cmp}.
Implicit Types c : gmap Z A.

(** The item at [x] does not come before the one at [y]. *)
Definition ge_at c (x y : Z) : Prop :=
  forall a b, c !! x = Some a -> c !! y = Some b -> cmp a b = false.

Lemma ge_at_trans c x y z : is_Some (c !! y) -> ge_at c x y -> ge_at c y z -> ge_at c x z.
Proof. intros [b Hb] H1 H2 a d Ha Hd. apply (before_trans a b d); eauto. Qed.

Context (n : Z) (pf : Z -> Z).

(** What [chk] of vbh.c checks. *)
Definition heap_ordered c : Prop := forall x, 2 <= x < n -> ge_at c x (pf x).

(** The order holds but for the item at [u], against its parent and its
    children, which are in order with each other. *)
Definition hole c u : Prop :=
  (forall x, 2 <= x < n -> x <> u -> pf x <> u -> ge_at c x (pf x)) /\
  (forall x, 2 <= x < n -> 2 <= u -> pf x = u -> ge_at c x (pf u)).
Definition up_ok c u : Prop := 2 <= u -> ge_at c u (pf u).
Definition down_ok c u : Prop := forall x, 2 <= x < n -> pf x = u -> ge_at c x u.

Lemma ordered_of_hole c u : hole c u -> up_ok c u -> down_ok c u -> heap_ordered c.
Proof.
  intros [Hh _] Hu Hd x Hx. destruct (decide (x = u)) as [->|]; [apply Hu; lia|].
  destruct (decide (pf x = u)) as [E|]; [rewrite E; by apply Hd|by apply Hh].
Qed.

Context (Hpf : forall x, 2 <= x < n -> 1 <= pf x < x).

Lemma hole_of_ordered c u :
  (forall x, 1 <= x < n -> is_Some (c !! x)) -> 1 <= u < n -> heap_ordered c -> hole c u.
Proof.
  intros Hl Hu Ho. split; [auto|]. intros x Hx Hu2 E. apply (ge_at_trans _ _ u); [apply Hl; lia| |].
  - rewrite <-E. by apply Ho.
  - apply Ho. lia.
Qed.

Section swaps.
Context c (u v : Z) (a b : A).
Context (Ha : c !! u = Some a) (Hb : c !! v = Some b).
Local Abbreviation c' := (swap c u v a b).

Lemma ge_swap_other x y :
  x <> u -> x <> v -> y <> u -> y <> v -> ge_at c x y -> ge_at c' x y.
Proof.
  intros ? ? ? ? Hge d e. rewrite !lookup_swap by done. rewrite !decide_False by done. apply Hge.
Qed.

Lemma ge_swap_from x y z :
  x <> u -> x <> v -> c' !! y = c !! z -> ge_at c x z -> ge_at c' x y.
Proof.
  intros ? ? E Hge d e. rewrite E, lookup_swap by done. rewrite !decide_False by done. apply Hge.
Qed.

Lemma ge_swap_to x y z :
  y <> u -> y <> v -> c' !! x = c !! z -> ge_at c z y -> ge_at c' x y.
Proof.
  intros ? ? E Hge d e. rewrite E, (lookup_swap _ _ _ _ _ y) by done.
  rewrite !decide_False by done. apply Hge.
Qed.

Lemma swap_at_v : c' !! v = c !! u.
Proof. rewrite lookup_swap by done. by rewrite decide_True. Qed.

Lemma swap_at_u : u <> v -> c' !! u = c !! v.
Proof. intros. rewrite lookup_swap by done. by rewrite decide_False, decide_True. Qed.

(** [vbh_trickleup] swaps [u] with its parent [v]. *)
Lemma swap_up :
  2 <= u < n -> pf u = v -> cmp a b = true -> hole c u -> hole c' v /\ down_ok c' v.
Proof.
  intros Hu Hv Hlt [Hh Hg]. pose proof (Hpf u Hu) as Hvu. rewrite Hv in Hvu.
  assert (ge_at c v u) as Hvu' by (intros ? ? ? ?; simplify_eq; by apply before_asym).
  split; [split|].
  - intros x Hx Hxv Hpv. assert (x <> u) by (by intros ->).
    destruct (decide (pf x = u)) as [E|].
    + rewrite E. apply (ge_swap_from _ _ v); [done|done|apply swap_at_u; lia|].
      rewrite <-Hv. apply Hg; done || lia.
    + apply ge_swap_other; auto.
  - intros x Hx Hv2 E. assert (ge_at c v (pf v)) as Hvv.
    { pose proof (Hpf v ltac:(lia)). apply Hh; lia. }
    pose proof (Hpf v ltac:(lia)). destruct (decide (x = u)) as [->|].
    + apply (ge_swap_to _ _ v); [lia|lia|apply swap_at_u; lia|done].
    + pose proof (Hpf x Hx). apply ge_swap_other; [lia..|].
      apply (ge_at_trans _ _ v); [done| |done]. rewrite <-E. apply Hh; lia.
  - intros x Hx E. pose proof (Hpf x Hx). destruct (decide (x = u)) as [->|].
    + intros d e. rewrite swap_at_u, swap_at_v by lia. apply Hvu'.
    + apply (ge_swap_from _ _ u); [done|lia|apply swap_at_v|].
      apply (ge_at_trans _ _ v); [done| |done]. rewrite <-E. apply Hh; lia.
Qed.

(** [vbh_trickledown] swaps [u] with its smaller child [v]. *)
Lemma swap_down :
  2 <= v < n -> pf v = u -> cmp a b = false ->
  (forall x, 2 <= x < n -> pf x = u -> ge_at c x v) ->
  hole c u -> hole c' v /\ up_ok c' v.
Proof.
  intros Hv Hu Hge Hmin [Hh Hg]. pose proof (Hpf v Hv) as Huv. rewrite Hu in Huv.
  split; [split|].
  - intros x Hx Hxv Hpv. pose proof (Hpf x Hx). destruct (decide (x = u)) as [->|].
    + apply (ge_swap_to _ _ v); [lia|lia|apply swap_at_u; lia|]. apply Hg; lia.
    + destruct (decide (pf x = u)) as [E|].
      * rewrite E. apply (ge_swap_from _ _ v); [done|done|apply swap_at_u; lia|]. by apply Hmin.
      * apply ge_swap_other; auto.
  - intros x Hx _ E. rewrite Hu. pose proof (Hpf x Hx).
    apply (ge_swap_from _ _ v); [lia|lia|apply swap_at_u; lia|]. rewrite <-E. apply Hh; lia.
  - intros _ d e. rewrite Hu, swap_at_v, swap_at_u by lia. intros ? ?. by simplify_eq.
Qed.
End swaps.

(** The item at the root is a first one. *)
Lemma root_first c a :
  (forall x, 1 <= x < n -> is_Some (c !! x)) -> heap_ordered c -> c !! 1 = Some a ->
  forall x b, 1 <= x < n -> c !! x = Some b -> cmp b a = false.
Proof.
  intros Hl Ho Ha x. induction x as [x IH] using (well_founded_induction (Z.lt_wf 0)).
  intros b Hx Hb. destruct (decide (x = 1)) as [->|].
  - assert (b = a) as -> by congruence. destruct (cmp a a) eqn:E; [|done].
    by rewrite (before_asym a a E) in E.
  - destruct (Hl (pf x)) as [d Hd]; [pose proof (Hpf x); lia|]. pose proof (Hpf x ltac:(lia)).
    apply (before_trans b d a); [|apply (IH (pf x)); done || lia]. apply (Ho x); done || lia.
Qed.
End order.

(** ** The operations of lib/vbh.c keep a heap

    Proved for any [Layout]: the rows are the ones the length says, every index
    below [next] holds an item and no other does, items are in heap order, and
    the [update] callback knows where each one is. *)

(** ** Rows and cells *)

(** The first [k] rows exist, and [length] counts their cells. *)
Definition rows_ok {A} (bh : vbh A) : Prop :=
  exists k m, h_array bh = replicate k true ++ replicate m false /\ (1 <= k)%nat /\
    h_length bh = Z.of_nat k * ROW_WIDTH /\ h_length bh < 2 ^ 32.

(** The cells below [n] are the ones in use. *)
Definition cells_ok {A} (n : Z) (c : gmap Z A) : Prop := forall x, is_Some (c !! x) <-> 1 <= x < n.

Section cells.
Context {A : Type}.
Implicit Types bh : vbh A.

Lemma row_at_ok bh x : rows_ok bh -> 0 <= x < h_length bh -> row_at bh x = Ok tt.
Proof.
  intros (k & m & Ha & Hk & Hl & _) Hx. unfold row_at. unfold ROW_WIDTH, ROW_SHIFT in *.
  change (Z.shiftl 1 16) with (2 ^ 16) in Hl.
  assert (0 <= Z.shiftr x 16 < Z.of_nat k).
  { rewrite Z.shiftr_div_pow2 by lia. split; [apply Z.div_pos; lia|apply Z.div_lt_upper_bound; lia]. }
  assert (readC (h_array bh) (Z.to_nat (Z.shiftr x 16)) = Ok true) as ->; [|done].
  rewrite readC_ok, Ha, lookup_app_l by (rewrite length_replicate; lia).
  apply lookup_replicate_2. lia.
Qed.

Lemma A_get_ok bh x : rows_ok bh -> 0 <= x < h_length bh -> A_get bh x = Ok (h_cells bh !! x).
Proof. intros. unfold A_get. by rewrite row_at_ok. Qed.

Lemma A_set_ok bh x p : rows_ok bh -> 0 <= x < h_length bh ->
  A_set bh x p = Ok (upd_cells bh
    (match p with Some a => <[x := a]> (h_cells bh) | None => delete x (h_cells bh) end)).
Proof. intros. unfold A_set. by rewrite row_at_ok. Qed.

Lemma A_live_ok bh x a : rows_ok bh -> 0 <= x < h_length bh -> h_cells bh !! x = Some a ->
  A_live bh x = Ok a.
Proof. intros. unfold A_live. rewrite A_get_ok by done. simpl. by rewrite H1. Qed.

Lemma upd_cells_same bh : upd_cells bh (h_cells bh) = bh.
Proof. by destruct bh. Qed.

Lemma upd_cells_twice bh c d : upd_cells (upd_cells bh c) d = upd_cells bh d.
Proof. done. Qed.

Lemma shiftr_rows k : Z.to_nat (Z.shiftr (Z.of_nat k * ROW_WIDTH) ROW_SHIFT) = k.
Proof.
  unfold ROW_WIDTH, ROW_SHIFT. change (Z.shiftl 1 16) with (2 ^ 16).
  rewrite Z.shiftr_div_pow2, Z.div_mul by lia. lia.
Qed.

(** [vbh_addrow] on a heap whose rows are all there. *)
Lemma addrow_ok bh k m :
  h_array bh = replicate k true ++ replicate m false -> (1 <= k + m)%nat ->
  h_length bh = Z.of_nat k * ROW_WIDTH -> h_length bh + ROW_WIDTH < 2 ^ 32 ->
  exists a, vbh_addrow bh = Ok (upd_rows bh a (h_length bh + ROW_WIDTH)) /\
    rows_ok (upd_rows bh a (h_length bh + ROW_WIDTH)).
Proof.
  intros Ha Hkm Hl Hlim. assert (0 < ROW_WIDTH) as HR by done.
  unfold vbh_addrow. rewrite Hl, shiftr_rows.
  assert (Z.shiftr (Z.of_nat k * ROW_WIDTH) ROW_SHIFT = Z.of_nat k) as ->
    by (pose proof (shiftr_rows k); pose proof (Z.shiftr_nonneg (Z.of_nat k * ROW_WIDTH) ROW_SHIFT); lia).
  set (a := if _ : bool then _ else _).
  assert (exists m', a = replicate k true ++ replicate (S m') false) as (m' & ->).
  { subst a. unfold rows. rewrite Ha, length_app, !length_replicate.
    destruct (Z.leb_spec (Z.of_nat (k + m)) (Z.of_nat k)) as [Hle|Hgt].
    - rewrite <-app_assoc, <-replicate_add. exists (m + (k + m) - 1)%nat. repeat f_equal. lia.
    - exists (m - 1)%nat. repeat f_equal. lia. }
  assert (readC (replicate k true ++ replicate (S m') false) k = Ok false) as ->.
  { rewrite readC_ok, lookup_app_r by (rewrite length_replicate; lia).
    by rewrite length_replicate, Nat.sub_diag. }
  simpl. rewrite writeC_lt by (rewrite length_app, length_replicate; simpl; lia). simpl.
  rewrite wrapu_small by lia. eexists. split; [done|]. exists (S k), m'.
  unfold upd_rows. cbn [h_array h_length]. split; [|split; [lia|split; lia]].
  rewrite insert_app_r_alt by (rewrite length_replicate; lia).
  rewrite length_replicate, Nat.sub_diag. by rewrite (replicate_S_end k), <-app_assoc.
Qed.

(** [free_row] gives back the last row, when the sum does not wrap. *)
Lemma free_row_ok bh :
  rows_ok bh -> 1 <= h_next bh <= h_length bh -> h_next bh + 2 * ROW_WIDTH < 2 ^ 32 ->
  exists a l, free_row bh = Ok (upd_rows bh a l) /\ rows_ok (upd_rows bh a l) /\ h_next bh <= l.
Proof.
  intros (k & m & Ha & Hk & Hl & Hlim) Hn Hw. unfold free_row. assert (0 < ROW_WIDTH) as HR by done.
  rewrite (wrapu_small 32 (h_next bh + _)) by lia.
  destruct (Z.leb_spec (h_next bh + 2 * ROW_WIDTH) (h_length bh)) as [Hle|Hgt].
  - assert (exists k', k = S (S k')) as (k' & ->).
    { exists (k - 2)%nat. destruct k as [|[|k]]; [lia|nia|lia]. }
    assert (Z.to_nat (Z.shiftr (h_length bh - 1) ROW_SHIFT) = S k') as ->.
    { rewrite Hl. unfold ROW_WIDTH, ROW_SHIFT in *. change (Z.shiftl 1 16) with (2 ^ 16) in *.
      rewrite Z.shiftr_div_pow2 by lia. rewrite <-(Z.div_unique (Z.of_nat (S (S k')) * 2 ^ 16 - 1) (2 ^ 16) (Z.of_nat (S k')) (2 ^ 16 - 1)); lia. }
    rewrite writeC_lt by (rewrite Ha, length_app, !length_replicate; lia). cbn [mbind outcome_bind].
    rewrite wrapu_small by lia. do 2 eexists. split; [done|]. split; [|lia].
    exists (S k'), (S m). unfold upd_rows. cbn [h_array h_length]. rewrite Ha.
    split; [|split; [lia|split; lia]].
    replace (S (S k')) with (S k' + 1)%nat by lia.
    rewrite replicate_add, <-app_assoc, insert_app_r_alt by (rewrite length_replicate; lia).
    by rewrite length_replicate, Nat.sub_diag.
  - exists (h_array bh), (h_length bh). replace (upd_rows _ _ _) with bh by (by destruct bh).
    split; [done|]. split; [by exists k, m|lia].
Qed.
End cells.

(** ** The heap *)

(** Above this many items [next + 2 * ROW_WIDTH] wraps; see [free_row_wraps]. *)
Definition VBH_CAP : Z := 2 ^ 32 - 2 * ROW_WIDTH.

(** With more than [2^32 - 2 * ROW_WIDTH] items the sum in the test that
    gives rows back wraps, and the row of the last items is freed while they
    are in it. *)
Theorem free_row_wraps {A} (a : list bool) (c : gmap Z A) sz mk sh n
    (Ha : Z.of_nat (length a) = 65536) (Hn : VBH_CAP < n < 2 ^ 32 - ROW_WIDTH) :
  exists a', free_row (mk_vbh a c (2 ^ 32 - ROW_WIDTH) n sz mk sh) =
      Ok (mk_vbh a' c (2 ^ 32 - 2 * ROW_WIDTH) n sz mk sh) /\
    row_at (mk_vbh a' c (2 ^ 32 - 2 * ROW_WIDTH) n sz mk sh) (n - 1) = Fault FBounds.
Proof.
  unfold VBH_CAP in *. assert (ROW_WIDTH = 65536) as HRW by done. rewrite HRW in *.
  unfold free_row. cbn [h_next h_length h_array]. rewrite HRW.
  assert (u32 (n + 2 * 65536) = n + 2 * 65536 - 2 ^ 32) as ->.
  { symmetry. apply Z.mod_unique with 1; lia. }
  rewrite (proj2 (Z.leb_le _ _)) by lia.
  assert (Z.shiftr (2 ^ 32 - 65536 - 1) ROW_SHIFT = 65534) as -> by done.
  rewrite writeC_lt by lia. cbn [mbind outcome_bind]. rewrite wrapu_small by lia.
  eexists. split; [done|]. unfold row_at. cbn [h_array].
  assert (Z.shiftr (n - 1) ROW_SHIFT = 65534) as ->.
  { unfold ROW_SHIFT. rewrite Z.shiftr_div_pow2 by lia. symmetry.
    apply Z.div_unique with (n - 1 - 65534 * 65536); lia. }
  assert (readC (<[Z.to_nat 65534:=false]> a) (Z.to_nat 65534) = Ok false) as ->; [|done].
  rewrite readC_ok. apply list_lookup_insert_eq. lia.
Qed.

Lemma free_row_wraps_witness :
  exists a', row_at (mk_vbh a' (∅ : gmap Z Z) (2 ^ 32 - 2 * ROW_WIDTH) (VBH_CAP + 1) 512 511 9) VBH_CAP = Fault FBounds.
Proof.
  destruct (free_row_wraps (replicate (Z.to_nat 65535) true ++ [false]) (∅ : gmap Z Z) 512 511 9 (VBH_CAP + 1))
    as (a' & _ & E); [|done|by exists a'].
  rewrite length_app, length_replicate, Nat2Z.inj_add, Z2Nat.id; done.
Defined.

Section heap.
Context {A P : Type}.
Context (par : vbh A -> Z -> outcome Z) (chl : vbh A -> Z -> Z * Z) (lim : Z).
Context (pages : vbh A -> Prop) (pf : vbh A -> Z -> Z) `{HL : !Layout par chl lim pages pf}.
Context (cmp : A -> A -> bool) `{!Before cmp}.
Context (upd : P -> A -> Z -> P) (idx_of : P -> A -> Z) `{!Index upd idx_of}.
Implicit Types (bh : vbh A) (c : gmap Z A) (p : P).

Lemma pages_same bh bh' : same_pages bh bh' -> pages bh ->
  pages bh' /\ forall u, pf bh' u = pf bh u.
Proof. apply (@lay_same _ _ _ _ _ _ HL). Qed.

Record heap_wf bh : Prop := {
  wf_pages : pages bh;
  wf_rows : rows_ok bh;
  wf_next : 1 <= h_next bh <= h_length bh;
  wf_lim : h_next bh <= lim;
  wf_cap : h_next bh <= VBH_CAP;
  wf_cells : cells_ok (h_next bh) (h_cells bh)
}.

(** The [update] callback knows the index of each item. *)
Definition tracked p c : Prop := forall x a, c !! x = Some a -> idx_of p a = x.

(** Items moved within the heap: none is lost or made, and no other item is
    touched. *)
Record moved p c p' c' : Prop := {
  mv_live : forall x, is_Some (c' !! x) <-> is_Some (c !! x);
  mv_items : items c' ≡ₚ items c;
  mv_tracked : tracked p c -> tracked p' c';
  mv_frame : forall a, a ∉ items c -> idx_of p' a = idx_of p a
}.

Lemma moved_refl p c : moved p c p c.
Proof. by split. Qed.

Lemma moved_trans p c p' c' p'' c'' : moved p c p' c' -> moved p' c' p'' c'' -> moved p c p'' c''.
Proof.
  intros [L1 I1 T1 F1] [L2 I2 T2 F2]. split.
  - intros x. by rewrite L2.
  - by rewrite I2.
  - auto.
  - intros a Ha. rewrite F2; [by apply F1|]. by rewrite I1.
Qed.

Lemma wf_moved bh p p' c : heap_wf bh -> moved p (h_cells bh) p' c -> heap_wf (upd_cells bh c).
Proof.
  intros [H1 H2 H3 H4 H5 H6] [L _ _ _]. split; try done.
  - by apply (pages_same bh).
  - intros x. cbn [h_cells upd_cells h_next]. rewrite L. apply H6.
Qed.

Lemma wf_lookup bh x : heap_wf bh -> 1 <= x < h_next bh -> exists a, h_cells bh !! x = Some a.
Proof. intros Hwf Hx. by apply (wf_cells bh Hwf). Qed.

Lemma wf_live bh x a : heap_wf bh -> h_cells bh !! x = Some a ->
  1 <= x < h_next bh /\ A_live bh x = Ok a.
Proof.
  intros Hwf Ha. assert (1 <= x < h_next bh) by (apply (wf_cells bh Hwf); eauto).
  pose proof (wf_next bh Hwf). split; [done|]. apply A_live_ok; [apply Hwf|lia|done].
Qed.

Lemma wf_tree bh : heap_wf bh -> forall x, 2 <= x < h_next bh -> 1 <= pf bh x < x.
Proof. intros Hwf x Hx. pose proof (wf_lim bh Hwf). apply (@lay_lt _ _ _ _ _ _ HL); [apply Hwf|lia]. Qed.

Lemma pf_cells bh c x : heap_wf bh -> pf (upd_cells bh c) x = pf bh x.
Proof. intros Hwf. by apply (pages_same bh); [|apply Hwf]. Qed.

(** *** [binhead_swap] *)

Lemma swap_moved p c u v a b :
  c !! u = Some a -> c !! v = Some b -> u <> v ->
  moved p c (upd (upd p b u) a v) (swap c u v a b).
Proof.
  intros Ha Hb Hne. split.
  - intros x. rewrite lookup_swap by done. repeat case_decide; subst; split; eauto.
  - by apply swap_items.
  - intros Ht x d. rewrite lookup_swap by done.
    assert (a <> b) by (intros ->; pose proof (Ht u b Ha); pose proof (Ht v b Hb); lia).
    repeat case_decide; intros E; simplify_eq.
    + apply idx_same.
    + by rewrite idx_other, idx_same.
    + pose proof (Ht x d E). assert (d <> a) by (intros ->; rewrite (Ht u a Ha) in *; lia).
      assert (d <> b) by (intros ->; rewrite (Ht v b Hb) in *; lia). by rewrite !idx_other.
  - intros d Hd. rewrite elem_of_items in Hd. rewrite !idx_other; [done| |]; intros <-; eauto.
Qed.

Lemma update_ok bh p x a :
  heap_wf bh -> h_cells bh !! x = Some a -> vbh_update (Some upd) bh p x = Ok (upd p a x).
Proof.
  intros Hwf Ha. destruct (wf_live bh x a Hwf Ha) as [Hx Hl]. unfold vbh_update.
  rewrite assertC_true by lia. simpl. by rewrite Hl.
Qed.

Lemma swap_ok bh p u v a b :
  heap_wf bh -> h_cells bh !! u = Some a -> h_cells bh !! v = Some b -> u <> v ->
  binhead_swap (Some upd) bh p u v =
    Ok (upd_cells bh (swap (h_cells bh) u v a b), upd (upd p b u) a v).
Proof.
  intros Hwf Ha Hb Hne. destruct (wf_live _ _ _ Hwf Ha) as [Hu Hla], (wf_live _ _ _ Hwf Hb) as [Hv Hlb].
  pose proof (wf_next bh Hwf). pose proof (wf_rows bh Hwf) as Hr. unfold binhead_swap.
  rewrite assertC_true by lia. simpl. rewrite Hla. simpl. rewrite assertC_true by lia. simpl.
  rewrite Hlb. simpl. rewrite A_set_ok by (done || lia). simpl.
  rewrite A_set_ok by (done || (simpl; lia)). simpl.
  change (upd_cells (upd_cells bh ?c) ?d) with (upd_cells bh d).
  fold (swap (h_cells bh) u v a b).
  pose proof (wf_moved bh p _ _ Hwf (swap_moved p _ u v a b Ha Hb Hne)) as Hwf'.
  rewrite (update_ok _ p u b) by (done || (simpl; by rewrite (swap_at_u _ u v a b))). simpl.
  rewrite (update_ok _ _ v a); [done|done|]. simpl. rewrite (swap_at_v _ u v a b Ha Hb). done.
Qed.

(** *** The trickles *)

Local Abbreviation Hole bh u := (hole cmp (h_next bh) (pf bh) (h_cells bh) u).
Local Abbreviation UpOk bh u := (up_ok cmp (pf bh) (h_cells bh) u).
Local Abbreviation DownOk bh u := (down_ok cmp (h_next bh) (pf bh) (h_cells bh) u).

(** What both loops promise from a hole at [u]: items only move, and a hole
    is left at the index they return, in [Q]. *)
Definition trickled bh p (Q : vbh A -> Z -> Prop) (o : outcome (vbh A * P * Z)) : Prop :=
  exists c p' u, o = Ok (upd_cells bh c, p', u) /\ moved p (h_cells bh) p' c /\
    1 <= u < h_next bh /\ Q (upd_cells bh c) u.

Lemma trickled_swap bh p u v a b Q o :
  h_cells bh !! u = Some a -> h_cells bh !! v = Some b -> u <> v ->
  trickled (upd_cells bh (swap (h_cells bh) u v a b)) (upd (upd p b u) a v) Q o -> trickled bh p Q o.
Proof.
  intros Ha Hb Hne (c & p' & x & E & Hm & Hx & HQ). exists c, p', x.
  split; [done|]. split; [|done]. eapply moved_trans; [|exact Hm]. by apply swap_moved.
Qed.

Lemma hole_after bh c v :
  heap_wf bh -> hole cmp (h_next bh) (pf bh) c v -> Hole (upd_cells bh c) v.
Proof.
  intros Hwf [H1 H2]. split; intros x; cbn [h_next h_cells upd_cells]; rewrite ?pf_cells by done.
  - apply H1.
  - apply H2.
Qed.

Lemma up_after bh c v : heap_wf bh -> up_ok cmp (pf bh) c v -> UpOk (upd_cells bh c) v.
Proof. intros Hwf Hu H2. rewrite pf_cells by done. by apply Hu. Qed.

Lemma down_after bh c v :
  heap_wf bh -> down_ok cmp (h_next bh) (pf bh) c v -> DownOk (upd_cells bh c) v.
Proof. intros Hwf Hd x Hx. rewrite pf_cells by done. by apply Hd. Qed.

Lemma wf_some bh : heap_wf bh -> forall x, 1 <= x < h_next bh -> is_Some (h_cells bh !! x).
Proof. intros Hwf x Hx. by apply (wf_cells bh Hwf). Qed.

Lemma trickleup_loop_ok fuel : forall bh p u,
  heap_wf bh -> 1 <= u < h_next bh -> u <= Z.of_nat fuel + 1 -> Hole bh u ->
  trickled bh p (fun b v => Hole b v /\ UpOk b v /\ (DownOk bh u -> DownOk b v))
    (trickleup_loop par cmp (Some upd) fuel bh p u).
Proof.
  induction fuel as [|fuel IH]; intros bh p u Hwf Hu Hfuel Hh;
    cbn [trickleup_loop]; change ROOT_IDX with 1; destruct (Z.ltb_spec 1 u) as [H1u|H1u]; [lia| | |].
  1,3: exists (h_cells bh), p, u; rewrite upd_cells_same; split; [done|];
    split; [apply moved_refl|]; split; [done|]; split; [done|]; split; [intros ?; lia|done].
  pose proof (wf_tree bh Hwf u ltac:(lia)) as Hv. pose proof (wf_lim bh Hwf).
  destruct (wf_lookup bh u Hwf Hu) as [a Ha]. destruct (wf_live bh u a Hwf Ha) as [_ Hla].
  destruct (wf_lookup bh (pf bh u) Hwf ltac:(lia)) as [b Hb].
  destruct (wf_live bh _ b Hwf Hb) as [_ Hlb].
  rewrite assertC_true by lia. simpl. rewrite Hla. simpl.
  rewrite (@lay_par _ _ _ _ _ _ HL) by (apply Hwf || lia). simpl.
  rewrite !assertC_true by lia. simpl. rewrite Hlb. simpl. destruct (cmp a b) eqn:Hcmp; simpl.
  - rewrite (swap_ok bh p u (pf bh u) a b) by (done || lia). simpl.
    apply (trickled_swap bh p u (pf bh u) a b); [done|done|lia|].
    destruct (swap_up cmp (h_next bh) (pf bh) (wf_tree bh Hwf) (h_cells bh) u (pf bh u) a b
      Ha Hb ltac:(lia) eq_refl Hcmp Hh) as [Hh' Hd'].
    destruct (IH (upd_cells bh (swap (h_cells bh) u (pf bh u) a b)) (upd (upd p b u) a (pf bh u)) (pf bh u))
      as (c & p' & x & E & Hm & Hx & HQ1 & HQ2 & HQ3).
    + eapply wf_moved; [done|apply (swap_moved p); done || lia].
    + simpl. lia.
    + lia.
    + by apply hole_after.
    + exists c, p', x. split; [done|]. split; [done|]. split; [done|]. split; [done|].
      split; [done|]. intros _. apply HQ3. by apply down_after.
  - exists (h_cells bh), p, u. rewrite upd_cells_same. split; [done|]. split; [apply moved_refl|].
    split; [done|]. split; [done|]. split; [|done]. intros _ d e ? ?. by simplify_eq.
Qed.

(** *** The smaller child *)

Lemma smaller_child_ok bh u v1 v2 :
  heap_wf bh -> 1 <= u -> chl bh u = (v1, v2) -> v1 < h_next bh -> u < h_next bh ->
  exists v, smaller_child cmp bh v1 v2 = Ok v /\ 2 <= v < h_next bh /\ u < v /\ pf bh v = u /\
    forall x, 2 <= x < h_next bh -> pf bh x = u -> ge_at cmp (h_cells bh) x v.
Proof.
  intros Hwf Hu E Hv1 Hun. pose proof (wf_lim bh Hwf).
  destruct (@lay_chl _ _ _ _ _ _ HL bh u (wf_pages bh Hwf) ltac:(lia)) as (H1 & H2 & H3).
  rewrite E in *. cbn [fst snd] in *.
  assert (forall d, cmp d d = false) as Hirr
    by (intros d; destruct (cmp d d) eqn:Hc; [by rewrite (before_asym d d Hc) in Hc|done]).
  destruct (wf_lookup bh v1 Hwf ltac:(lia)) as [a Ha]. destruct (wf_live bh _ a Hwf Ha) as [_ Hla].
  unfold smaller_child. rewrite Hla. simpl.
  destruct (Z.eqb_spec v1 v2) as [->|Hne]; simpl.
  { exists v2. split; [done|]. split; [lia|]. split; [lia|]. split; [apply H3; lia|].
    intros x Hx Hp d e ? ?. assert (x = v2) as -> by (apply H3 in Hp; lia). by simplify_eq. }
  destruct (Z.ltb_spec v2 (h_next bh)) as [Hlt|Hge]; simpl.
  - destruct (wf_lookup bh v2 Hwf ltac:(lia)) as [b Hb]. destruct (wf_live bh _ b Hwf Hb) as [_ Hlb].
    rewrite Hlb. simpl. destruct (cmp b a) eqn:Hcmp.
    + exists v2. split; [done|]. split; [lia|]. split; [lia|]. split; [apply H3; lia|].
      intros x Hx Hp d e ? ?. assert (x = v1 \/ x = v2) as [->| ->] by (apply H3 in Hp; lia); simplify_eq; [|done].
      by apply before_asym.
    + exists v1. split; [done|]. split; [lia|]. split; [lia|]. split; [apply H3; lia|].
      intros x Hx Hp d e ? ?. assert (x = v1 \/ x = v2) as [->| ->] by (apply H3 in Hp; lia); by simplify_eq.
  - exists v1. split; [done|]. split; [lia|]. split; [lia|]. split; [apply H3; lia|].
    intros x Hx Hp d e ? ?. assert (x = v1) as -> by (apply H3 in Hp; lia). by simplify_eq.
Qed.

Lemma trickledown_loop_ok fuel : forall bh p u,
  heap_wf bh -> 1 <= u < h_next bh -> h_next bh - u <= Z.of_nat fuel -> Hole bh u -> UpOk bh u ->
  trickled bh p (fun b v => Hole b v /\ UpOk b v /\ DownOk b v)
    (trickledown_loop chl cmp (Some upd) fuel bh p u).
Proof.
  induction fuel as [|fuel IH]; intros bh p u Hwf Hu Hfuel Hh Hup; [lia|]. cbn [trickledown_loop].
  destruct (wf_lookup bh u Hwf Hu) as [a Ha]. destruct (wf_live bh u a Hwf Ha) as [_ Hla].
  pose proof (wf_lim bh Hwf). rewrite assertC_true by lia. simpl. rewrite Hla. simpl.
  destruct (@lay_chl _ _ _ _ _ _ HL bh u (wf_pages bh Hwf) ltac:(lia)) as (H1 & H2 & H3).
  destruct (chl bh u) as [v1 v2] eqn:E. cbn [fst snd] in *.
  rewrite !assertC_true by lia. cbn [mbind outcome_bind].
  destruct (Z.leb_spec (h_next bh) v1) as [Hge|Hlt].
  { exists (h_cells bh), p, u. rewrite upd_cells_same. split; [done|]. split; [apply moved_refl|].
    split; [done|]. split; [done|]. split; [done|]. intros x Hx Hp. apply H3 in Hp; lia. }
  destruct (smaller_child_ok bh u v1 v2 Hwf ltac:(lia) E Hlt ltac:(lia)) as (v & -> & Hv & Huv & Hp & Hmin).
  cbn [mbind outcome_bind]. rewrite assertC_true by lia. cbn [mbind outcome_bind].
  destruct (wf_lookup bh v Hwf ltac:(lia)) as [b Hb]. destruct (wf_live bh _ b Hwf Hb) as [_ Hlb].
  rewrite Hlb. cbn [mbind outcome_bind]. destruct (cmp a b) eqn:Hcmp.
  - exists (h_cells bh), p, u. rewrite upd_cells_same. split; [done|]. split; [apply moved_refl|].
    split; [done|]. split; [done|]. split; [done|]. intros x Hx Hpx.
    apply (ge_at_trans cmp _ _ v); [eauto|by apply Hmin|]. intros d e ? ?. simplify_eq. by apply before_asym.
  - rewrite (swap_ok bh p u v a b) by (done || lia). simpl.
    apply (trickled_swap bh p u v a b); [done|done|lia|].
    destruct (swap_down cmp (h_next bh) (pf bh) (wf_tree bh Hwf) (h_cells bh) u v a b
      Ha Hb Hv Hp Hcmp Hmin Hh) as [Hh' Hu'].
    apply IH; [eapply wf_moved; [done|apply (swap_moved p); done || lia]|simpl; lia|simpl; lia| |].
    + by apply hole_after.
    + by apply up_after.
Qed.
End heap.
