(* ===== verification/VbhSpec.v ===== *)
(** * What lib/vbh.c promises

    The heap as a client sees it: a bag of items, each of which knows its
    index, with a first item at the root.  Every operation refines the
    corresponding change of the bag and returns without a fault, for any layout
    that is a tree. *)

From Stdlib Require Import ZArith Lia ZifyBool.
From stdpp Require Import base option numbers list gmap.
From S2P Require Import Prelude Vbh VbhShape VbhHeap.
#[local] Open Scope Z_scope.

Section spec.
Context {A P : Type}.
Context (par : vbh A -> Z -> outcome Z) (chl : vbh A -> Z -> Z * Z) (lim : Z).
Context (pages : vbh A -> Prop) (pf : vbh A -> Z -> Z) `{HL : !Layout par chl lim pages pf}.
Context (cmp : A -> A -> bool) `{HB : !Before cmp}.
Context (upd : P -> A -> Z -> P) (idx_of : P -> A -> Z) `{HI : !Index upd idx_of}.
Implicit Types (bh : vbh A) (c : gmap Z A) (p : P).

(** The heap, as a client may find it between two calls. *)
Definition heap_ok bh p : Prop :=
  heap_wf lim pages bh /\ heap_ordered cmp (h_next bh) (pf bh) (h_cells bh) /\
  tracked idx_of p (h_cells bh).

(** The items it holds. *)
Definition contents bh : list A := items (h_cells bh).

Local Abbreviation wf := (heap_wf lim pages).
Local Abbreviation Moved := (moved idx_of).
Local Abbreviation HoleAt bh u := (hole cmp (h_next bh) (pf bh) (h_cells bh) u).

Lemma settle_ok bh p u :
  wf bh -> 1 <= u < h_next bh -> HoleAt bh u ->
  exists c p', settle par chl cmp (Some upd) bh p u = Ok (upd_cells bh c, p') /\
    Moved p (h_cells bh) p' c /\ wf (upd_cells bh c) /\
    heap_ordered cmp (h_next bh) (pf bh) c.
Proof.
  intros Hwf Hu Hh. unfold settle, vbh_trickleup, vbh_trickledown, idx_live.
  destruct (wf_lookup _ _ bh u Hwf Hu) as [a Ha].
  destruct (wf_live _ _ bh u a Hwf Ha) as [_ Hla].
  rewrite assertC_true by lia. simpl. rewrite Hla. simpl.
  destruct (trickleup_loop_ok par chl lim pages pf cmp upd idx_of (Z.to_nat u) bh p u Hwf Hu ltac:(lia) Hh)
    as (c & p1 & v & -> & Hm & Hv & Hh1 & Hu1 & _). simpl.
  pose proof (wf_moved par chl lim pages pf idx_of bh p p1 c Hwf Hm) as Hwf1.
  destruct (wf_lookup _ _ _ v Hwf1 Hv) as [b Hb].
  destruct (wf_live _ _ _ v b Hwf1 Hb) as [_ Hlb].
  rewrite !assertC_true by lia. simpl. rewrite Hlb. simpl. rewrite ?assertC_true by lia. simpl.
  rewrite ?Hlb. simpl.
  destruct (trickledown_loop_ok par chl lim pages pf cmp upd idx_of (Z.to_nat (h_next bh - v))
    (upd_cells bh c) p1 v Hwf1 Hv ltac:(simpl; lia) Hh1 Hu1)
    as (d & p2 & w & -> & Hm2 & Hw & Hh2 & Hu2 & Hd2). simpl.
  pose proof (wf_moved par chl lim pages pf idx_of _ p1 p2 d Hwf1 Hm2) as Hwf2.
  destruct (wf_lookup _ _ _ w Hwf2 Hw) as [e He].
  destruct (wf_live _ _ _ w e Hwf2 He) as [_ Hle].
  change (upd_cells (upd_cells bh c) d) with (upd_cells bh d) in *. simpl in Hw.
  rewrite !assertC_true by lia. simpl. rewrite Hle. simpl. exists d, p2. split; [done|].
  split; [by eapply moved_trans|]. split; [done|].
  pose proof (ordered_of_hole cmp _ _ _ w Hh2 Hu2 Hd2) as Ho. intros x Hx.
  specialize (Ho x Hx). by rewrite (pf_cells par chl lim pages pf) in Ho.
Qed.

(** *** Room for one more *)

Lemma room_ok bh :
  wf bh -> h_next bh < VBH_CAP ->
  exists a l, (if h_length bh =? h_next bh then vbh_addrow bh else Ok bh) = Ok (upd_rows bh a l) /\
    rows_ok (upd_rows bh a l) /\ h_next bh < l.
Proof.
  intros Hwf Hcap. pose proof (wf_next _ _ bh Hwf) as Hn. unfold VBH_CAP in Hcap.
  assert (0 < ROW_WIDTH) as HR by done.
  destruct (Z.eqb_spec (h_length bh) (h_next bh)) as [E|Hne].
  - destruct (wf_rows _ _ bh Hwf) as (k & m & Ha & Hk & Hl & Hlim).
    destruct (addrow_ok bh k m Ha ltac:(lia) Hl ltac:(lia)) as (a & -> & Hr).
    exists a, (h_length bh + ROW_WIDTH). split; [done|]. split; [done|lia].
  - exists (h_array bh), (h_length bh). replace (upd_rows _ _ _) with bh by (by destruct bh).
    split; [done|]. split; [apply Hwf|lia].
Qed.

(** A change of the rows and of the cells that stays well formed. *)
Lemma wf_change bh a l n c :
  wf bh -> rows_ok (upd_rows bh a l) -> 1 <= n <= l -> n <= lim -> n <= VBH_CAP -> cells_ok n c ->
  wf (upd_cells (upd_next (upd_rows bh a l) n) c) /\
  forall x, pf (upd_cells (upd_next (upd_rows bh a l) n) c) x = pf bh x.
Proof.
  intros Hwf Hr Hn Hl Hc Hcs.
  pose proof (pages_same par chl lim pages pf bh (upd_cells (upd_next (upd_rows bh a l) n) c)) as Hp.
  destruct Hp as [Hp Hpf]; [done|apply Hwf|]. split; [|done]. by split.
Qed.

(** *** Insertion *)

Lemma insert_hole bh x :
  heap_ordered cmp (h_next bh) (pf bh) (h_cells bh) ->
  (forall y, 2 <= y < h_next bh + 1 -> 1 <= pf bh y < y) ->
  hole cmp (h_next bh + 1) (pf bh) (<[h_next bh := x]> (h_cells bh)) (h_next bh).
Proof.
  intros Ho Hpf. split.
  - intros y Hy Hyn _ d e. pose proof (Hpf y Hy). rewrite !lookup_insert_ne by lia. apply Ho. lia.
  - intros y Hy _ E. pose proof (Hpf y Hy). lia.
Qed.

Lemma insert_cells bh x :
  1 <= h_next bh -> cells_ok (h_next bh) (h_cells bh) ->
  cells_ok (h_next bh + 1) (<[h_next bh := x]> (h_cells bh)).
Proof.
  intros Hn Hc y. rewrite lookup_insert. case_decide; subst.
  - split; [lia|eauto].
  - rewrite (Hc y). lia.
Qed.

Lemma insert_tracked p c n x :
  x ∉ items c -> tracked idx_of p c -> tracked idx_of (upd p x n) (<[n := x]> c).
Proof.
  intros Hx Ht y b. rewrite lookup_insert. case_decide; subst.
  - intros [= <-]. apply idx_same.
  - intros Hb. rewrite idx_other; [by apply Ht|]. intros ->. apply Hx. rewrite elem_of_items. eauto.
Qed.

Lemma next_free bh : wf bh -> h_cells bh !! h_next bh = None.
Proof.
  intros Hwf. destruct (h_cells bh !! h_next bh) eqn:E; [|done].
  assert (1 <= h_next bh < h_next bh) by (apply (wf_cells _ _ bh Hwf); eauto). lia.
Qed.

(** Inserting a new item into a heap with room in its index range returns,
    and leaves a heap that holds the old items and the new one, each of which
    knows its index; no other item is told a new index. *)
Theorem vbh_insert_ok bh p x
    (Hok : heap_ok bh p) (Hnew : x ∉ contents bh) (Hlim : h_next bh < lim) (Hcap : h_next bh < VBH_CAP) :
  exists bh' p', VBH_insert par cmp (Some upd) bh p x = Ok (bh', p') /\ heap_ok bh' p' /\
    contents bh' ≡ₚ x :: contents bh /\
    forall b, b ∉ x :: contents bh -> idx_of p' b = idx_of p b.
Proof.
  destruct Hok as (Hwf & Ho & Ht). pose proof (wf_next _ _ bh Hwf) as Hn.
  destruct (room_ok bh Hwf Hcap) as (a & l & Hroom & Hr & Hl).
  unfold VBH_CAP in Hcap. unfold VBH_insert. rewrite assertC_true by lia. simpl.
  rewrite Hroom. simpl. rewrite assertC_true by lia. simpl.
  assert (ROW_WIDTH = 65536) as HRW by done. rewrite (wrapu_small 32) by lia.
  rewrite A_set_ok by (done || (simpl; lia)). simpl.
  set (c1 := <[h_next bh := x]> (h_cells bh)).
  destruct (wf_change bh a l (h_next bh + 1) c1 Hwf Hr) as [Hwf1 Hpf1];
    [lia|lia|unfold VBH_CAP; lia|apply insert_cells; [lia|apply Hwf]|].
  set (bh1 := upd_cells (upd_next (upd_rows bh a l) (h_next bh + 1)) c1) in *.
  assert (h_cells bh1 !! h_next bh = Some x) as Hx1 by apply lookup_insert_eq.
  rewrite (update_ok _ _ _ bh1 p (h_next bh) x Hwf1 Hx1). simpl.
  destruct (wf_live _ _ bh1 _ x Hwf1 Hx1) as [Hu1 Hl1].
  assert (HoleAt bh1 (h_next bh)) as Hh1.
  { pose proof (wf_tree par chl lim pages pf bh1 Hwf1) as Htree.
    assert (forall y, 2 <= y < h_next bh + 1 -> 1 <= pf bh y < y) as Htree'
      by (intros y Hy; rewrite <-Hpf1; by apply Htree).
    destruct (insert_hole bh x Ho Htree') as [H1 H2].
    split; intros y; rewrite !Hpf1; [apply H1|apply H2]. }
  unfold vbh_trickleup. rewrite assertC_true by lia. simpl. rewrite Hl1. simpl.
  destruct (trickleup_loop_ok par chl lim pages pf cmp upd idx_of (Z.to_nat (h_next bh)) bh1
    (upd p x (h_next bh)) (h_next bh) Hwf1 Hu1 ltac:(lia) Hh1)
    as (c2 & p2 & v & -> & Hm & Hv & Hh2 & Hu2 & Hd2). simpl.
  pose proof (wf_moved par chl lim pages pf idx_of _ _ p2 c2 Hwf1 Hm) as Hwf2.
  destruct (wf_lookup _ _ _ (h_next bh) Hwf2 Hu1) as [b Hb].
  destruct (wf_live _ _ _ _ b Hwf2 Hb) as [_ Hlb].
  rewrite ?assertC_true by lia. simpl. rewrite Hlb. simpl.
  assert (x ∉ items (h_cells bh)) as Hnx by exact Hnew.
  do 2 eexists. split; [done|]. split; [split; [done|split]|split].
  - apply (ordered_of_hole cmp _ _ _ v Hh2 Hu2). apply Hd2. intros y Hy E.
    pose proof (wf_tree par chl lim pages pf bh1 Hwf1 y Hy). simpl in *. lia.
  - apply Hm. by apply insert_tracked.
  - unfold contents. simpl. rewrite (mv_items _ _ _ _ _ Hm). unfold bh1, c1. simpl.
    by apply items_insert, next_free.
  - intros d Hd. rewrite not_elem_of_cons in Hd. destruct Hd as [Hdx Hdc].
    rewrite (mv_frame _ _ _ _ _ Hm).
    + by rewrite idx_other.
    + simpl. unfold c1. rewrite items_insert; [by rewrite not_elem_of_cons|].
      by apply next_free.
Qed.

(** *** Deletion *)

Lemma tracked_once p c x y a : tracked idx_of p c -> c !! x = Some a -> c !! y = Some a -> x = y.
Proof. intros Ht Hx Hy. rewrite <-(Ht x a Hx). by apply Ht. Qed.

(** Taking the item at [u] out. *)
Lemma take_tracked p c u a k :
  tracked idx_of p c -> c !! u = Some a -> tracked idx_of (upd p a k) (delete u c).
Proof.
  intros Ht Ha x b. rewrite lookup_delete. case_decide; [done|]. intros Hb.
  rewrite idx_other; [by apply Ht|]. intros ->. by apply H, (tracked_once p c u x b).
Qed.

Lemma take_fresh p c u a : tracked idx_of p c -> c !! u = Some a -> a ∉ items (delete u c).
Proof.
  intros Ht Ha (x & Hx)%elem_of_items. rewrite lookup_delete in Hx. case_decide; [done|].
  by apply H, (tracked_once p c u x a).
Qed.

Lemma take_last_cells n c : cells_ok n c -> 1 < n -> cells_ok (n - 1) (delete (n - 1) c).
Proof.
  intros Hc Hn x. rewrite lookup_delete. case_decide.
  - split; [by intros []|lia].
  - rewrite (Hc x). lia.
Qed.

(** The last item takes the place of the one at [u]. *)
Definition refill (c : gmap Z A) (u n : Z) (t : A) : gmap Z A := delete n (<[u := t]> c).

Lemma lookup_refill c u n t x :
  u <> n -> refill c u n t !! x = if decide (x = n) then None else if decide (x = u) then Some t else c !! x.
Proof.
  intros. unfold refill. rewrite lookup_delete, lookup_insert.
  repeat case_decide; subst; done.
Qed.

Lemma refill_eq c u n t : u <> n -> refill c u n t = <[u := t]> (delete n (delete u c)).
Proof.
  intros. unfold refill. by rewrite delete_delete, insert_delete_eq, delete_insert_ne.
Qed.

Lemma refill_items c u n a t :
  u <> n -> c !! u = Some a -> c !! n = Some t ->
  items c ≡ₚ a :: items (refill c u n t) /\ items (refill c u n t) ≡ₚ items (delete u c).
Proof.
  intros Hne Ha Ht. assert (items (refill c u n t) ≡ₚ items (delete u c)) as E.
  { rewrite refill_eq, items_insert by (done || (rewrite lookup_delete_ne, lookup_delete_eq; done)).
    symmetry. apply items_delete. by rewrite lookup_delete_ne. }
  split; [|done]. rewrite E. by apply items_delete.
Qed.

Lemma refill_tracked p c u n a t k :
  u <> n -> tracked idx_of p c -> c !! u = Some a -> c !! n = Some t ->
  tracked idx_of (upd (upd p a k) t u) (refill c u n t).
Proof.
  intros Hne Htr Ha Ht x b. rewrite lookup_refill by done. repeat case_decide; [done| |].
  - intros [= <-]. subst. apply idx_same.
  - intros Hb. rewrite !idx_other; [by apply Htr| |]; intros <-.
    + by apply (tracked_once p c u x a Htr) in Hb; [subst|].
    + by apply (tracked_once p c n x t Htr) in Hb; [subst|].
Qed.

Lemma refill_cells c u n t : cells_ok (n + 1) c -> 1 <= u < n -> cells_ok n (refill c u n t).
Proof.
  intros Hc Hu x. rewrite lookup_refill by lia. repeat case_decide.
  - split; [by intros []|lia].
  - split; [lia|eauto].
  - rewrite (Hc x). lia.
Qed.

Lemma refill_hole bh c u n t :
  hole cmp (n + 1) (pf bh) c u -> 1 <= u < n ->
  (forall y, 2 <= y < n + 1 -> 1 <= pf bh y < y) -> hole cmp n (pf bh) (refill c u n t) u.
Proof.
  intros [H1 H2] Hu Hpf. split.
  - intros x Hx Hxu Hpu d e. pose proof (Hpf x ltac:(lia)). rewrite !lookup_refill by lia.
    rewrite !decide_False by lia. apply H1; lia.
  - intros x Hx Hu2 E d e. pose proof (Hpf x ltac:(lia)). pose proof (Hpf u ltac:(lia)).
    rewrite !lookup_refill by lia. rewrite !decide_False by lia. apply H2; lia.
Qed.

(** A heap that is in order but for the item at [u]. *)
Definition heap_but bh p u : Prop := wf bh /\ HoleAt bh u /\ tracked idx_of p (h_cells bh).

Lemma heap_but_any bh p u : heap_ok bh p -> 1 <= u < h_next bh -> heap_but bh p u.
Proof.
  intros (Hwf & Ho & Ht) Hu. split; [done|]. split; [|done].
  apply hole_of_ordered; try done. apply (wf_some _ _ bh Hwf).
Qed.

(** The heap without its last item, when that is the one to delete. *)
Lemma take_last_ok bh p a :
  heap_but bh p (h_next bh - 1) -> h_cells bh !! (h_next bh - 1) = Some a -> 1 < h_next bh ->
  heap_ok (upd_cells (upd_next bh (h_next bh - 1)) (delete (h_next bh - 1) (h_cells bh))) (upd p a VBH_NOIDX).
Proof.
  intros (Hwf & Ho & Ht) Ha Hn. pose proof (wf_next _ _ bh Hwf). pose proof (wf_lim _ _ bh Hwf).
  pose proof (wf_cap _ _ bh Hwf).
  destruct (wf_change bh (h_array bh) (h_length bh) (h_next bh - 1) (delete (h_next bh - 1) (h_cells bh)) Hwf)
    as [Hwf1 Hpf1]; [|lia..|by apply take_last_cells; [apply Hwf|]|].
  { replace (upd_rows bh _ _) with bh by (by destruct bh). apply Hwf. }
  replace (upd_rows bh _ _) with bh in * by (by destruct bh).
  split; [done|]. split; [|by apply take_tracked].
  intros x Hx d e. pose proof (wf_tree par chl lim pages pf _ Hwf1 x Hx) as Hp. rewrite Hpf1 in *.
  simpl in *. rewrite !lookup_delete_ne by lia. apply (proj1 Ho); lia.
Qed.

Lemma refill_heap_ok bh p u a t :
  heap_but bh p u -> 1 <= u < h_next bh - 1 -> h_cells bh !! u = Some a ->
  h_cells bh !! (h_next bh - 1) = Some t ->
  let bh1 := upd_cells (upd_next bh (h_next bh - 1)) (refill (h_cells bh) u (h_next bh - 1) t) in
  wf bh1 /\ HoleAt bh1 u.
Proof.
  intros (Hwf & Ho & Ht) Hu Ha Ht'. pose proof (wf_next _ _ bh Hwf). pose proof (wf_lim _ _ bh Hwf).
  pose proof (wf_cap _ _ bh Hwf). pose proof (wf_cells _ _ bh Hwf) as Hc.
  replace (h_next bh) with (h_next bh - 1 + 1) in Hc, Ho by lia. intros bh1.
  destruct (wf_change bh (h_array bh) (h_length bh) (h_next bh - 1) (refill (h_cells bh) u (h_next bh - 1) t) Hwf)
    as [Hwf1 Hpf1]; [|lia..|by apply refill_cells|].
  { replace (upd_rows bh _ _) with bh by (by destruct bh). apply Hwf. }
  replace (upd_rows bh _ _) with bh in * by (by destruct bh). fold bh1 in Hwf1, Hpf1.
  split; [done|]. destruct (refill_hole bh (h_cells bh) u (h_next bh - 1) t Ho Hu) as [Hf1 Hf2].
  { intros y Hy. apply (wf_tree par chl lim pages pf bh Hwf). lia. }
  split; intros y; rewrite !Hpf1; [apply Hf1|apply Hf2].
Qed.

(** Deleting that item needs no order of its own. *)
Lemma delete_but_ok bh p u a (Hok : heap_but bh p u) (Ha : h_cells bh !! u = Some a) :
  exists bh' p', VBH_delete par chl cmp (Some upd) bh p u = Ok (bh', p') /\ heap_ok bh' p' /\
    contents bh ≡ₚ a :: contents bh' /\ idx_of p' a = VBH_NOIDX.
Proof.
  pose proof Hok as (Hwf & Ho & Ht). pose proof (wf_next _ _ bh Hwf) as Hn.
  pose proof (wf_cap _ _ bh Hwf) as Hcap. unfold VBH_CAP in Hcap.
  assert (ROW_WIDTH = 65536) as HRW by done. pose proof (wf_rows _ _ bh Hwf) as Hr.
  destruct (wf_live _ _ bh u a Hwf Ha) as [Hu Hl].
  unfold VBH_delete, idx_live. change ROOT_IDX with 1. rewrite !assertC_true by lia. simpl. rewrite Hl. simpl.
  rewrite (wrapu_small 32) by lia. destruct (Z.eqb_spec u (h_next bh - 1)) as [->|Hne].
  - rewrite A_set_ok by (done || (simpl; lia)). simpl. do 2 eexists. split; [done|].
    split; [by apply take_last_ok; [..|lia]|]. split; [by apply items_delete|apply idx_same].
  - destruct (wf_lookup _ _ bh (h_next bh - 1) Hwf ltac:(lia)) as [t Ht'].
    rewrite A_get_ok by (done || (simpl; lia)). simpl. rewrite Ht'.
    rewrite A_set_ok by (done || (simpl; lia)). simpl.
    rewrite A_set_ok by (done || (simpl; lia)). simpl.
    fold (refill (h_cells bh) u (h_next bh - 1) t).
    destruct (refill_heap_ok bh p u a t Hok ltac:(lia) Ha Ht') as [Hwf1 Hh1].
    set (bh1 := upd_cells (upd_next bh (h_next bh - 1)) (refill (h_cells bh) u (h_next bh - 1) t)) in *.
    change (upd_cells (upd_cells _ _) _) with bh1.
    rewrite (update_ok _ _ _ bh1 _ u t Hwf1)
      by (simpl; rewrite lookup_refill, decide_False, decide_True by lia; done). simpl.
    destruct (settle_ok bh1 (upd (upd p a VBH_NOIDX) t u) u Hwf1 ltac:(simpl; lia) Hh1)
      as (c & p' & -> & Hm & Hwf2 & Ho2). simpl.
    destruct (free_row_ok (upd_cells bh1 c) (wf_rows _ _ _ Hwf2) (wf_next _ _ _ Hwf2) ltac:(simpl; lia))
      as (ar & l & -> & Hr3 & Hl3). simpl.
    destruct (refill_items (h_cells bh) u (h_next bh - 1) a t Hne Ha Ht') as [Hi1 Hi2].
    destruct (wf_change (upd_cells bh1 c) ar l (h_next bh - 1) c Hwf2 Hr3) as [Hwf3 Hpf3];
      [simpl in *; lia|pose proof (wf_lim _ _ bh Hwf); lia|unfold VBH_CAP; lia|apply Hwf2|].
    do 2 eexists. split; [done|]. split; [split; [exact Hwf3|split]|split].
    + intros x Hx. change (upd_rows (upd_cells bh1 c) ar l) with
        (upd_cells (upd_next (upd_rows (upd_cells bh1 c) ar l) (h_next bh - 1)) c).
      rewrite Hpf3, (pf_cells par chl lim pages pf) by done. by apply Ho2.
    + apply Hm. apply refill_tracked; done || lia.
    + unfold contents. simpl. rewrite (mv_items _ _ _ _ _ Hm). exact Hi1.
    + rewrite (mv_frame _ _ _ _ _ Hm); simpl.
      * rewrite idx_other; [apply idx_same|]. intros <-. apply Hne. eapply tracked_once; done.
      * rewrite Hi2. by eapply take_fresh.
Qed.

(** Deleting the item at an index in use returns, and leaves a heap that
    holds the other items; the deleted item is told [VBH_NOIDX]. *)
Theorem vbh_delete_ok bh p u a (Hok : heap_ok bh p) (Ha : h_cells bh !! u = Some a) :
  exists bh' p', VBH_delete par chl cmp (Some upd) bh p u = Ok (bh', p') /\ heap_ok bh' p' /\
    contents bh ≡ₚ a :: contents bh' /\ idx_of p' a = VBH_NOIDX.
Proof. destruct (wf_live _ _ bh u a (proj1 Hok) Ha) as [Hu _]. by apply delete_but_ok, Ha; apply heap_but_any. Qed.

(** *** Changing a key *)

(** [cmp0] and [cmp] compare the items but [a] alike: the key of [a] changed. *)
Definition key_changed (cmp0 : A -> A -> bool) (a : A) : Prop :=
  forall x y, x <> a -> y <> a -> cmp x y = cmp0 x y.

Lemma changed_hole cmp0 `{!Before cmp0} bh p u a :
  key_changed cmp0 a -> wf bh -> heap_ordered cmp0 (h_next bh) (pf bh) (h_cells bh) ->
  tracked idx_of p (h_cells bh) -> h_cells bh !! u = Some a -> HoleAt bh u.
Proof.
  intros Hch Hwf Ho Ht Ha. destruct (wf_live _ _ bh u a Hwf Ha) as [Hu _].
  pose proof (wf_tree par chl lim pages pf bh Hwf) as Htree.
  assert (hole cmp0 (h_next bh) (pf bh) (h_cells bh) u) as [Ho1 Ho2].
  { apply hole_of_ordered; try done. apply (wf_some _ _ bh Hwf). }
  assert (forall x, x <> u -> forall d, h_cells bh !! x = Some d -> d <> a) as Hna
    by (intros x Hx d Hd ->; by apply Hx, (tracked_once p (h_cells bh) x u a)).
  split.
  - intros x Hx Hxu Hpu d e Hd He. rewrite (Hch d e) by eauto. by apply (Ho1 x Hx Hxu Hpu).
  - intros x Hx Hu2 E d e Hd He. pose proof (Htree x Hx). pose proof (Htree u ltac:(lia)).
    rewrite (Hch d e); [by apply (Ho2 x Hx Hu2 E)|apply (Hna x); done || lia|apply (Hna (pf bh u)); done || lia].
Qed.

(** When the key of one item has changed, reordering it returns, and
    leaves a heap for the new keys that holds the same items. *)
Theorem vbh_reorder_ok cmp0 (HB0 : Before cmp0) bh p u a
    (Hwf : heap_wf lim pages bh) (Ho : heap_ordered cmp0 (h_next bh) (pf bh) (h_cells bh))
    (Ht : tracked idx_of p (h_cells bh)) (Ha : h_cells bh !! u = Some a) (Hch : key_changed cmp0 a) :
  exists bh' p', VBH_reorder par chl cmp (Some upd) bh p u = Ok (bh', p') /\ heap_ok bh' p' /\
    contents bh' ≡ₚ contents bh.
Proof.
  destruct (wf_live _ _ bh u a Hwf Ha) as [Hu Hl]. unfold VBH_reorder, idx_live. change ROOT_IDX with 1.
  rewrite !assertC_true by lia. simpl. rewrite Hl. simpl.
  destruct (settle_ok bh p u Hwf Hu) as (c & p' & -> & Hm & Hwf' & Ho'); [by eapply changed_hole|].
  do 2 eexists. split; [done|]. split; [split; [done|split]|apply Hm].
  - intros x Hx. rewrite (pf_cells par chl lim pages pf) by done. by apply Ho'.
  - by apply Hm.
Qed.

(** *** The root *)

Lemma root_none bh p : heap_ok bh p -> h_cells bh !! 1 = None <-> contents bh = [].
Proof.
  intros (Hwf & _). unfold contents. rewrite items_nil. split; [|by intros ->].
  intros Ha. apply map_empty. intros x. destruct (h_cells bh !! x) eqn:E; [|done].
  destruct (wf_live _ _ bh x _ Hwf E) as [Hx _].
  destruct (wf_lookup _ _ bh 1 Hwf ltac:(lia)) as [? ?]. congruence.
Qed.

(** The root is NULL when the heap is empty, and otherwise an item that no
    other item comes before. *)
Theorem vbh_root_first bh p (Hok : heap_ok bh p) :
  exists r, VBH_root bh = Ok r /\
    match r with
    | None => contents bh = []
    | Some a => a ∈ contents bh /\ forall b, b ∈ contents bh -> cmp b a = false
    end.
Proof.
  pose proof Hok as (Hwf & Ho & _). pose proof (wf_next _ _ bh Hwf) as Hn.
  assert (1 < h_length bh) as Hlen.
  { destruct (wf_rows _ _ bh Hwf) as (k & m & _ & Hk & Hl & _). assert (ROW_WIDTH = 65536) by done. lia. }
  unfold VBH_root. change ROOT_IDX with 1. rewrite A_get_ok by (apply Hwf || lia).
  eexists. split; [done|]. destruct (h_cells bh !! 1) as [a|] eqn:Ha.
  - split; [apply elem_of_items; eauto|]. intros b (x & Hx)%elem_of_items.
    apply (root_first cmp (h_next bh) (pf bh) (wf_tree par chl lim pages pf bh Hwf) (h_cells bh) a) with (x := x);
      [apply (wf_some _ _ bh Hwf)|done|done| |done]. apply (wf_cells _ _ bh Hwf). eauto.
  - by apply (root_none bh p).
Qed.

(** *** The end *)

Lemma free_rows_ok bh k m fuel : forall j,
  h_array bh = replicate k true ++ replicate m false -> h_length bh = Z.of_nat k * ROW_WIDTH ->
  h_length bh < 2 ^ 32 -> (j <= k)%nat -> (k <= fuel + j)%nat ->
  free_rows fuel bh (Z.of_nat j * ROW_WIDTH) = Ok (Z.of_nat <$> seq j (k - j)).
Proof.
  assert (ROW_WIDTH = 65536) as HRW by done.
  induction fuel as [|fuel IH]; intros j Ha Hl Hlim Hj Hf; cbn [free_rows]; rewrite Hl, HRW in *.
  - rewrite (proj2 (Z.ltb_ge _ _)) by lia. by replace (k - j)%nat with 0%nat by lia.
  - destruct (Z.ltb_spec (Z.of_nat j * 65536) (Z.of_nat k * 65536)) as [Hlt|Hge].
    + rewrite <-HRW, shiftr_rows.
      assert (readC (h_array bh) j = Ok true) as ->.
      { rewrite readC_ok, Ha, lookup_app_l by (rewrite length_replicate; lia).
        apply lookup_replicate_2. lia. }
      cbn [mbind outcome_bind]. rewrite wrapu_small by lia.
      replace (Z.of_nat j * ROW_WIDTH + ROW_WIDTH) with (Z.of_nat (S j) * ROW_WIDTH) by lia.
      rewrite IH by (done || lia). cbn [mbind outcome_bind]. f_equal.
      replace (k - j)%nat with (S (k - S j)) by lia. simpl. f_equal. unfold ROW_SHIFT.
      rewrite HRW, Z.shiftr_div_pow2 by lia. apply Z.div_mul. lia.
    + by replace (k - j)%nat with 0%nat by lia.
Qed.

(** An empty heap is destroyed, each of its rows being freed once and no
    other; a heap with items in it fails the assertion. *)
Theorem vbh_destroy_ok bh p (Hok : heap_ok bh p) :
  (contents bh <> [] -> VBH_destroy bh = Fault FAssert) /\
  (contents bh = [] -> exists l, VBH_destroy bh = Ok l /\ NoDup l /\
     forall i, i ∈ l <-> 0 <= i /\ h_array bh !! Z.to_nat i = Some true).
Proof.
  pose proof (root_none bh p Hok) as Hroot. pose proof Hok as (Hwf & _).
  destruct (wf_rows _ _ bh Hwf) as (k & m & Ha & Hk & Hl & Hlim).
  assert (ROW_WIDTH = 65536) as HRW by done.
  unfold VBH_destroy, VBH_root. change ROOT_IDX with 1. rewrite A_get_ok by (apply Hwf || lia). simpl.
  split.
  - intros Hne. destruct (h_cells bh !! 1); [done|]. by destruct Hne; apply Hroot.
  - intros Hc. apply Hroot in Hc. rewrite Hc. simpl. eexists. split; [|split].
    + change 0 with (Z.of_nat 0 * ROW_WIDTH). apply (free_rows_ok bh k m); try done; [lia|].
      unfold rows. rewrite Ha, length_app, !length_replicate. lia.
    + apply NoDup_fmap_2; [apply _|apply NoDup_seq].
    + intros i. rewrite list_elem_of_fmap, Ha. split.
      * intros (j & -> & Hj%elem_of_seq). split; [lia|]. rewrite Nat2Z.id.
        rewrite lookup_app_l by (rewrite length_replicate; lia). apply lookup_replicate_2. lia.
      * intros [Hi [Hj|[_ Hj]]%lookup_app_Some].
        -- apply lookup_replicate in Hj as [_ Hj]. exists (Z.to_nat i). split; [lia|]. apply elem_of_seq. lia.
        -- by apply lookup_replicate in Hj as [? _].
Qed.
End spec.

(** ** A new heap *)

Lemma find_shift_ok s fuel : forall u,
  0 <= u <= s -> s < 32 -> s - u <= Z.of_nat fuel -> find_shift fuel u (2 ^ s) = Ok s.
Proof.
  induction fuel as [|fuel IH]; intros u Hu Hs Hf; cbn [find_shift];
    rewrite (proj2 (Z.leb_gt 32 u)), Z.shiftl_mul_pow2, Z.mul_1_l by lia.
  - by replace u with s by lia; rewrite Z.eqb_refl.
  - destruct (Z.eqb_spec (2 ^ u) (2 ^ s)) as [E|Hne].
    + f_equal. by apply (Z.pow_inj_r 2) in E; [|lia..].
    + apply IH; [|done|lia]. destruct (decide (u = s)) as [->|]; [done|lia].
Qed.

(** On a machine whose pages have between 32 bytes and 4 megabytes
    [VBH_new] returns an empty heap. *)
Theorem vbh_new_ok {A P} (cmp : A -> A -> bool) (idx_of : P -> A -> Z) (p : P) s (Hs : 2 <= s <= 19) :
  exists bh, VBH_new (A:=A) (2 ^ (s + 3)) = Ok bh /\ contents bh = [] /\
    heap_ok VBH_UINT_MAX pages_ok (fun bh => page_parent (page_shift bh)) cmp idx_of bh p.
Proof.
  pose proof (page_half s Hs) as (HP & HH & HM).
  assert (2 ^ (s + 3) / 8 = 2 ^ s) as E
    by (rewrite Z.pow_add_r by lia; change (2 ^ 3) with 8; apply Z.div_mul; lia).
  unfold VBH_new. rewrite E, (assertC_true (Z.land _ _ =? 0)).
  2: { apply Z.eqb_eq. rewrite land_low_mod by lia. apply Z.mod_same. lia. }
  cbn [mbind outcome_bind]. rewrite find_shift_ok by lia. cbn [mbind outcome_bind].
  rewrite assertC_true by (apply Z.leb_le; exact HM). cbn [mbind outcome_bind].
  destruct (addrow_ok (mk_vbh (A:=A) (replicate 16 false) ∅ 0 ROOT_IDX (2 ^ s) (2 ^ s - 1) s) 0 16)
    as (a & -> & Hr); [done|lia|done|done|]. cbn [mbind outcome_bind].
  assert (ROW_WIDTH = 65536) as HRW by done.
  rewrite A_set_ok by (done || (cbn [h_length upd_rows]; rewrite HRW; unfold ROOT_IDX; lia)).
  eexists. split; [done|]. simpl. rewrite delete_empty. split; [by unfold contents, items; simpl; rewrite map_to_list_empty|].
  split; [split|split].
  - split; [simpl; lia|done].
  - exact Hr.
  - simpl. rewrite HRW. unfold ROOT_IDX. lia.
  - done.
  - done.
  - unfold ROOT_IDX. intros x. simpl. rewrite lookup_empty. split; [by intros []|lia].
  - intros x Hx. simpl in Hx. unfold ROOT_IDX in Hx. lia.
  - intros x d. simpl. by rewrite lookup_empty.
Qed.

(** ** An example

    Items are numbers, ordered by a weight, on pages of 4096 bytes. *)

#[global] Instance weight_before (w : Z -> Z) : Before (fun a b => w a <? w b).
Proof. split; intros *; rewrite ?Z.ltb_lt, ?Z.ltb_ge; lia. Qed.

#[global] Instance map_index :
  Index (fun (p : gmap Z Z) a u => <[a := u]> p) (fun p a => default 0 (p !! a)).
Proof. split; intros; by rewrite ?lookup_insert_eq, ?lookup_insert_ne. Qed.

Definition example_heap : vbh Z :=
  mk_vbh (true :: replicate 15 false) {[1 := 3; 2 := 5; 3 := 4]} 65536 4 512 511 9.
Definition example_index : gmap Z Z := {[3 := 1; 5 := 2; 4 := 3]}.

Local Abbreviation Pf := (fun bh => page_parent (page_shift bh)).
Local Abbreviation Upd := (fun (p : gmap Z Z) a u => <[a := u]> p).
Local Abbreviation Idx := (fun (p : gmap Z Z) a => default 0 (p !! a)).

Lemma example_lookup x a : h_cells example_heap !! x = Some a ->
  x = 1 /\ a = 3 \/ x = 2 /\ a = 5 \/ x = 3 /\ a = 4.
Proof.
  simpl. rewrite !lookup_insert, lookup_singleton. repeat case_decide; naive_solver.
Qed.

Lemma example_ok :
  heap_ok VBH_UINT_MAX pages_ok Pf (fun a b => id a <? id b) Idx example_heap example_index.
Proof.
  split; [split|split].
  - split; [simpl; lia|done].
  - exists 1%nat, 15%nat. simpl. done.
  - simpl. lia.
  - done.
  - done.
  - intros x. split.
    + intros [a Ha]. apply example_lookup in Ha. simpl. lia.
    + intros Hx. assert (x = 1 \/ x = 2 \/ x = 3) as [->|[->| ->]] by (simpl in Hx; lia); eexists; reflexivity.
  - intros x Hx a b Ha Hb. cbv beta in Hb. apply example_lookup in Ha.
    assert (page_parent (page_shift example_heap) x = 1) as E
      by (assert (x = 2 \/ x = 3) as [->| ->] by (simpl in Hx; lia); reflexivity).
    rewrite E in Hb. apply example_lookup in Hb. apply Z.ltb_ge. unfold id. lia.
  - intros x a [[-> ->]|[[-> ->]|[-> ->]]]%example_lookup; reflexivity.
Qed.

Lemma vbh_insert_ok_witness :
  exists bh' p', VBH_insert parent (fun a b => id a <? id b) (Some Upd) example_heap example_index 2 = Ok (bh', p') /\
    contents bh' ≡ₚ 2 :: contents example_heap.
Proof.
  destruct (vbh_insert_ok parent child VBH_UINT_MAX pages_ok Pf (fun a b => id a <? id b) Upd Idx
    example_heap example_index 2 example_ok) as (bh' & p' & E & _ & Hc & _); [|done|done|by exists bh', p'].
  intros (x & Hx)%elem_of_items. apply example_lookup in Hx. lia.
Defined.

Lemma vbh_delete_ok_witness :
  exists bh' p', VBH_delete parent child (fun a b => id a <? id b) (Some Upd) example_heap example_index 1 = Ok (bh', p') /\
    contents example_heap ≡ₚ 3 :: contents bh'.
Proof.
  destruct (vbh_delete_ok parent child VBH_UINT_MAX pages_ok Pf (fun a b => id a <? id b) Upd Idx
    example_heap example_index 1 3 example_ok) as (bh' & p' & E & _ & Hc & _); [done|by exists bh', p'].
Defined.

(** The key of the item 3 becomes 9: it leaves the root. *)
Definition heavier (a : Z) : Z := if a =? 3 then 9 else a.

Lemma vbh_reorder_ok_witness :
  exists bh' p', VBH_reorder parent child (fun a b => heavier a <? heavier b) (Some Upd) example_heap example_index 1 = Ok (bh', p') /\
    contents bh' ≡ₚ contents example_heap.
Proof.
  destruct (vbh_reorder_ok parent child VBH_UINT_MAX pages_ok Pf (fun a b => heavier a <? heavier b) Upd Idx
    (fun a b => id a <? id b) _ example_heap example_index 1 3) as (bh' & p' & E & _ & Hc);
    [apply example_ok..|done| |by exists bh', p'].
  intros x y Hx Hy. unfold heavier, id. by rewrite !(proj2 (Z.eqb_neq _ _)).
Defined.

Lemma vbh_root_first_witness : exists r, VBH_root example_heap = Ok r.
Proof.
  destruct (vbh_root_first parent child VBH_UINT_MAX pages_ok Pf (fun a b => id a <? id b) Idx
    example_heap example_index example_ok) as (r & E & _). by exists r.
Defined.

Lemma vbh_new_ok_witness : exists bh, VBH_new (A:=Z) 4096 = Ok bh /\ contents bh = [].
Proof.
  destruct (vbh_new_ok (fun a b => id a <? id b) Idx example_index 9 ltac:(lia)) as (bh & E & Hc & _).
  by exists bh.
Defined.

Lemma vbh_destroy_ok_witness : VBH_destroy example_heap = Fault FAssert.
Proof.
  apply (vbh_destroy_ok VBH_UINT_MAX pages_ok Pf (fun a b => id a <? id b) Idx
    example_heap example_index example_ok). by vm_compute.
Defined.

(** ** Two clients of a heap

    The operations of vbh.c call [update] only for an item that is at the index
    they name: what two clients keep about the heap stays related, when the
    relation is kept by each way in which the cells change. *)

(** A relation of two states that follows the cells of the heap, for indices below [N]
    and new items that are as [new] says. *)
Class Follows {A P1 P2 : Type} (upd1 : P1 -> A -> Z -> P1) (upd2 : P2 -> A -> Z -> P2) (N : Z) (new : A -> Prop) (R : gmap Z A -> P1 -> P2 -> Prop) := {
  fol_new c p1 p2 u x : new x -> c !! u = None -> 0 < u < N -> R c p1 p2 -> R (<[u := x]> c) (upd1 p1 x u) (upd2 p2 x u);
  fol_swap c p1 p2 u v a b : c !! u = Some a -> c !! v = Some b -> u < N -> v < N -> R c p1 p2 -> R (swap c u v a b) (upd1 (upd1 p1 b u) a v) (upd2 (upd2 p2 b u) a v);
  fol_move c p1 p2 u n t : c !! n = Some t -> c !! u = None -> 0 < u < N -> R c p1 p2 -> R (<[u := t]> (delete n c)) (upd1 p1 t u) (upd2 p2 t u)
}.

Section rel.
Context {A P1 P2 : Type} (par : vbh A -> Z -> outcome Z) (chl : vbh A -> Z -> Z * Z) (cmp : A -> A -> bool).
Context (upd1 : P1 -> A -> Z -> P1) (upd2 : P2 -> A -> Z -> P2) (N : Z) (new : A -> Prop) (R : gmap Z A -> P1 -> P2 -> Prop) `{HF : !Follows upd1 upd2 N new R}.
Implicit Types (bh : vbh A).

Lemma A_live_some bh u a : A_live bh u = Ok a -> h_cells bh !! u = Some a.
Proof. unfold A_live, A_get. destruct (row_at bh u); [|done]. cbn. by destruct (h_cells bh !! u) as [b|]; [intros [= ->]|]. Qed.
Lemma A_set_cells bh u p bh' : A_set bh u p = Ok bh' -> bh' = upd_cells bh (match p with Some a => <[u := a]> (h_cells bh) | None => delete u (h_cells bh) end).
Proof. unfold A_set. destruct (row_at bh u); [|done]. by intros [= <-]. Qed.
Lemma A_get_some bh u p : A_get bh u = Ok p -> p = h_cells bh !! u.
Proof. unfold A_get. destruct (row_at bh u); [|done]. by intros [= <-]. Qed.

(** One bind of a run that is known to return. *)
Ltac runs H :=
  repeat match type of H with
  | (_ ≫= _) = Ok _ => let x := fresh in let E := fresh in apply bind_ok in H as (x & E & H); repeat (match goal with p : (_ * _)%type |- _ => destruct p as [? ?] end); rewrite ?E; cbn [mbind outcome_bind]; cbn [mbind outcome_bind] in H
  end.

Lemma update_rel bh p1 p2 u q : vbh_update (Some upd2) bh p2 u = Ok q ->
  exists a, h_cells bh !! u = Some a /\ u < h_next bh /\ q = upd2 p2 a u /\ vbh_update (Some upd1) bh p1 u = Ok (upd1 p1 a u).
Proof.
  unfold vbh_update. intros H. runs H. injection H as <-. match goal with E : A_live _ _ = Ok ?a |- _ => exists a; apply A_live_some in E end. match goal with E : assertC _ = Ok _ |- _ => apply assertC_ok in E end. repeat split; done || lia.
Qed.

Lemma swap_rel bh p1 p2 u v bh' q : h_next bh <= N -> R (h_cells bh) p1 p2 -> binhead_swap (Some upd2) bh p2 u v = Ok (bh', q) ->
  exists p1', binhead_swap (Some upd1) bh p1 u v = Ok (bh', p1') /\ R (h_cells bh') p1' q /\ h_next bh' = h_next bh.
Proof.
  intros HN HR H. unfold binhead_swap in *. runs H. injection H as <- <-.
  repeat match goal with E : A_live _ _ = Ok _ |- _ => apply A_live_some in E | E : assertC _ = Ok _ |- _ => apply assertC_ok in E | E : A_set _ _ _ = Ok _ |- _ => apply A_set_cells in E end.
  subst. cbn [h_cells upd_cells] in *.
  match goal with E1 : vbh_update _ _ p2 u = Ok _ |- _ => apply (update_rel _ p1) in E1 as (x & Hx & _ & -> & ->) end. cbn [mbind outcome_bind].
  match goal with E1 : vbh_update _ _ _ v = Ok _ |- _ => apply (update_rel _ (upd1 p1 x u)) in E1 as (y & Hy & _ & -> & ->) end. cbn [mbind outcome_bind]. cbn [h_cells upd_cells] in *.
  eexists. split; [done|]. split; [|done]. rewrite lookup_insert_eq in Hy. injection Hy as <-.
  match goal with E1 : h_cells bh !! u = Some ?a, E2 : h_cells bh !! v = Some ?b |- _ => assert (x = b) as -> by (rewrite lookup_insert in Hx; case_decide; [subst; congruence|rewrite lookup_insert_eq in Hx; congruence]); apply fol_swap; done || lia end.
Qed.

Lemma trickleup_rel fuel : forall bh p1 p2 u bh' q v, h_next bh <= N -> R (h_cells bh) p1 p2 -> trickleup_loop par cmp (Some upd2) fuel bh p2 u = Ok (bh', q, v) ->
  exists p1', trickleup_loop par cmp (Some upd1) fuel bh p1 u = Ok (bh', p1', v) /\ R (h_cells bh') p1' q /\ h_next bh' = h_next bh.
Proof.
  induction fuel as [|fuel IH]; intros bh p1 p2 u bh' q v HN HR H; cbn [trickleup_loop] in *; destruct (ROOT_IDX <? u); try done.
  1,3: injection H as <- <- <-; eauto.
  runs H. destruct (negb _); [injection H as <- <- <-; eauto|]. apply bind_ok in H as ([bh1 q1] & E & H). eapply swap_rel in E as (p1' & -> & HR1 & Hn); [|done..]. cbn [mbind outcome_bind]. rewrite <-Hn. eapply IH; [lia|done|done].
Qed.
Lemma trickledown_rel fuel : forall bh p1 p2 u bh' q v, h_next bh <= N -> R (h_cells bh) p1 p2 -> trickledown_loop chl cmp (Some upd2) fuel bh p2 u = Ok (bh', q, v) ->
  exists p1', trickledown_loop chl cmp (Some upd1) fuel bh p1 u = Ok (bh', p1', v) /\ R (h_cells bh') p1' q /\ h_next bh' = h_next bh.
Proof.
  induction fuel as [|fuel IH]; intros bh p1 p2 u bh' q v HN HR H; cbn [trickledown_loop] in *; [done|]. apply bind_ok in H as ([] & -> & H). apply bind_ok in H as (a & -> & H). cbn [mbind outcome_bind] in *. destruct (chl bh u) as [v1 v2]. runs H.
  destruct (_ <=? v1); [injection H as <- <- <-; eauto|]. runs H. destruct (cmp a _); [injection H as <- <- <-; eauto|].
  apply bind_ok in H as ([bh1 q1] & E & H). eapply swap_rel in E as (p1' & -> & HR1 & Hn); [|done..]. cbn [mbind outcome_bind]. rewrite <-Hn. eapply IH; [lia|done|done].
Qed.

Lemma insert_rel bh p1 p2 x bh' q : new x -> h_next bh + 1 <= N -> N < 2 ^ 32 -> 0 < h_next bh -> h_cells bh !! h_next bh = None -> R (h_cells bh) p1 p2 -> VBH_insert par cmp (Some upd2) bh p2 x = Ok (bh', q) ->
  exists p1', VBH_insert par cmp (Some upd1) bh p1 x = Ok (bh', p1') /\ R (h_cells bh') p1' q /\ h_next bh' = h_next bh + 1.
Proof.
  intros Hx HN HN2 H0 Hno HR H. unfold VBH_insert in *. apply bind_ok in H as ([] & -> & H). apply bind_ok in H as (bh1 & E1 & H). rewrite E1. cbn [mbind outcome_bind].
  assert (h_cells bh1 = h_cells bh /\ h_next bh1 = h_next bh) as [Hc1 Hn1].
  { destruct (_ =? _); [|by injection E1 as <-]. unfold vbh_addrow in E1. runs E1. by injection E1 as <-. }
  runs H. match goal with E : A_set _ _ _ = Ok _ |- _ => apply A_set_cells in E; subst end. rewrite Hn1, wrapu_small in * by lia.
  match goal with E : vbh_update _ _ p2 _ = Ok _ |- _ => apply (update_rel _ p1) in E as (y & Hy & _ & -> & ->) end. cbn [mbind outcome_bind]. cbn [h_cells upd_cells upd_next] in Hy. rewrite lookup_insert_eq in Hy. injection Hy as <-.
  match goal with E : vbh_trickleup _ _ _ _ _ _ = Ok _ |- _ => unfold vbh_trickleup in *; apply bind_ok in E as ([] & E2 & E); apply bind_ok in E as (y & E3 & E); rewrite E2; cbn [mbind outcome_bind]; rewrite E3; cbn [mbind outcome_bind]; eapply (trickleup_rel _ _ (upd1 p1 x (h_next bh))) in E as (p1' & E4 & HR1 & Hn2) end.
  - rewrite E4. cbn [mbind outcome_bind]. repeat match goal with E : ?m = Ok _ |- context [?m ≫= _] => rewrite E; cbn [mbind outcome_bind] end. injection H as <- <-. eexists. split; [done|]. split; [done|]. by rewrite Hn2.
  - cbn. lia.
  - cbn [h_cells upd_cells upd_next]. rewrite Hc1. apply fol_new; done || lia.
Qed.

Lemma settle_rel bh p1 p2 u bh' q : h_next bh <= N -> R (h_cells bh) p1 p2 -> settle par chl cmp (Some upd2) bh p2 u = Ok (bh', q) ->
  exists p1', settle par chl cmp (Some upd1) bh p1 u = Ok (bh', p1') /\ R (h_cells bh') p1' q /\ h_next bh' = h_next bh.
Proof.
  intros HN HR H. unfold settle, vbh_trickleup, vbh_trickledown in *. apply bind_ok in H as ([[bh1 q1] u1] & E & H). runs E. eapply trickleup_rel in E as (p1' & -> & HR1 & Hn1); [|done..]. cbn [mbind outcome_bind].
  apply bind_ok in H as (y & -> & H). cbn [mbind outcome_bind]. apply bind_ok in H as ([[bh2 q2] u2] & E & H). runs E. eapply trickledown_rel in E as (p2' & -> & HR2 & Hn2); [|lia|done]. cbn [mbind outcome_bind].
  runs H. injection H as <- <-. eexists. split; [done|]. split; [done|]. lia.
Qed.

(** The item that is taken out need not be related before. *)
Lemma delete_rel bh p1 p2 u bh' q : h_next bh <= N -> N < 2 ^ 32 -> (forall a, h_cells bh !! u = Some a -> R (delete u (h_cells bh)) (upd1 p1 a VBH_NOIDX) (upd2 p2 a VBH_NOIDX)) -> VBH_delete par chl cmp (Some upd2) bh p2 u = Ok (bh', q) ->
  exists p1', VBH_delete par chl cmp (Some upd1) bh p1 u = Ok (bh', p1') /\ R (h_cells bh') p1' q /\ h_next bh' = h_next bh - 1.
Proof.
  intros HN HN2 HR H. unfold VBH_delete in *. apply bind_ok in H as ([] & E0 & H). rewrite E0. apply assertC_ok in E0. unfold ROOT_IDX in E0. cbn [mbind outcome_bind]. apply bind_ok in H as (a & E & H). rewrite E. cbn [mbind outcome_bind] in *.
  unfold idx_live in E. runs E. apply A_live_some in E. repeat match goal with E : assertC _ = Ok _ |- _ => apply assertC_ok in E end. rewrite wrapu_small in * by lia. pose proof (HR a E) as HR1. destruct (u =? _) eqn:Hu.
  - runs H. injection H as <- <-. match goal with E : A_set _ _ _ = Ok _ |- _ => apply A_set_cells in E; subst end. eexists. split; [done|]. split; [|done]. cbn [h_cells upd_cells upd_next h_next]. apply Z.eqb_eq in Hu. cbn [h_next upd_next] in Hu. by rewrite <-Hu.
  - apply bind_ok in H as (t & Et & H). rewrite Et. apply A_get_some in Et. cbn [mbind outcome_bind]. apply bind_ok in H as (bh1 & E1 & H). rewrite E1. apply A_set_cells in E1. cbn [mbind outcome_bind]. apply bind_ok in H as (bh2 & E2 & H). rewrite E2. apply A_set_cells in E2. cbn [mbind outcome_bind].
    apply bind_ok in H as (q1 & E3 & H). apply (update_rel _ (upd1 p1 a VBH_NOIDX)) in E3 as (y & Hy & Hlt & -> & ->). cbn [mbind outcome_bind]. subst. cbn [h_cells upd_cells upd_next h_next] in *.
    rewrite lookup_delete_ne in Hy by lia. destruct (h_cells bh !! (h_next bh - 1)) as [t|] eqn:Ht; [|by rewrite lookup_delete_eq in Hy]. rewrite lookup_insert_eq in Hy. injection Hy as <-.
    apply bind_ok in H as ([bh3 q3] & E4 & H). eapply (settle_rel _ (upd1 (upd1 p1 a VBH_NOIDX) t u)) in E4 as (p3 & -> & HR3 & Hn3).
    + cbn [mbind outcome_bind]. apply bind_ok in H as (bh4 & E5 & H). rewrite E5. cbn [mbind outcome_bind]. injection H as <- <-. exists p3. split; [done|].
      assert (h_cells bh4 = h_cells bh3 /\ h_next bh4 = h_next bh3) as [-> ->]; [|done]. unfold free_row in E5. destruct (_ <=? _); [runs E5|]; by injection E5 as <-.
    + cbn. lia.
    + cbn [h_cells upd_cells upd_next h_next]. replace (delete (h_next bh - 1) (<[u:=t]> (h_cells bh))) with (<[u:=t]> (delete (h_next bh - 1) (delete u (h_cells bh)))) by (rewrite delete_delete, insert_delete_eq, delete_insert_ne; [done|lia]).
      apply fol_move; [by rewrite lookup_delete_ne by lia|apply lookup_delete_eq|lia|done].
Qed.
End rel.
