(* ===== verification/Vev.v ===== *)
(** * Events (lib/vev.c)

    Timers, descriptors and signals.  The events are kept in the binary heap of
    vbh.c, ordered by the time at which they are due, and the index of an event
    in the heap is its place in the two arrays that poll works on.  A struct vev
    is an object of a store; the callbacks, the clock and poll act on a world [W],
    and a callback may start and stop other events. *)

From Stdlib Require Import ZArith Lia ZifyBool.
From stdpp Require Import base option numbers list gmap.
From S2P Require Import Prelude Vbh.
#[local] Open Scope Z_scope.

(** Times: doubles that are not NaN, of which the code uses the order, the sum,
    zero, 9e99 and the milliseconds between two. *)
Class Time (T : Type) := {
  tlt : T -> T -> bool;
  tadd : T -> T -> T;
  tzero : T;
  tforever : T;
  millis : T -> T -> Z;
  tlt_asym : forall a b, tlt a b = true -> tlt b a = false;
  tlt_trans : forall a b c, tlt a b = false -> tlt b c = false -> tlt a c = false
}.

Definition VEV__RD : Z := 1.
Definition VEV__WR : Z := 4.
Definition VEV__ERR : Z := 8.
Definition VEV__HUP : Z := 16.
Definition VEV__SIG : Z := -1.
Definition INFTIM : Z := -1.
Definition ENOMEM : Z := 12.
Definition EBUSY : Z := 16.

(** [struct vev]; [e_magic] says whether [magic] is set, [e_callback] and
    [e_vevb] whether the pointers are, the latter to the one root there is. *)
Record vev (T : Type) := mk_vev {
  e_magic : bool;
  e_fd : Z;
  e_flags : Z;
  e_events : Z;
  e_sig : Z;
  e_sig_flags : Z;
  e_timeout : T;
  e_callback : bool;
  e_siginfo : bool;
  e_when : T;
  e_idx : Z;
  e_vevb : bool
}.
Arguments mk_vev {T}.
Arguments e_magic {T}. Arguments e_fd {T}. Arguments e_flags {T}. Arguments e_events {T}. Arguments e_sig {T}. Arguments e_sig_flags {T}.
Arguments e_timeout {T}. Arguments e_callback {T}. Arguments e_siginfo {T}. Arguments e_when {T}. Arguments e_idx {T}. Arguments e_vevb {T}.

Section vev_fields.
Context {T : Type}.
Implicit Types e : vev T.
Definition set_magic e b := mk_vev b (e_fd e) (e_flags e) (e_events e) (e_sig e) (e_sig_flags e) (e_timeout e) (e_callback e) (e_siginfo e) (e_when e) (e_idx e) (e_vevb e).
Definition set_fd e x := mk_vev (e_magic e) x (e_flags e) (e_events e) (e_sig e) (e_sig_flags e) (e_timeout e) (e_callback e) (e_siginfo e) (e_when e) (e_idx e) (e_vevb e).
Definition set_events e x := mk_vev (e_magic e) (e_fd e) (e_flags e) x (e_sig e) (e_sig_flags e) (e_timeout e) (e_callback e) (e_siginfo e) (e_when e) (e_idx e) (e_vevb e).
Definition set_siginfo e b := mk_vev (e_magic e) (e_fd e) (e_flags e) (e_events e) (e_sig e) (e_sig_flags e) (e_timeout e) (e_callback e) b (e_when e) (e_idx e) (e_vevb e).
Definition set_when e x := mk_vev (e_magic e) (e_fd e) (e_flags e) (e_events e) (e_sig e) (e_sig_flags e) (e_timeout e) (e_callback e) (e_siginfo e) x (e_idx e) (e_vevb e).
Definition set_idx e x := mk_vev (e_magic e) (e_fd e) (e_flags e) (e_events e) (e_sig e) (e_sig_flags e) (e_timeout e) (e_callback e) (e_siginfo e) (e_when e) x (e_vevb e).
Definition set_vevb e b := mk_vev (e_magic e) (e_fd e) (e_flags e) (e_events e) (e_sig e) (e_sig_flags e) (e_timeout e) (e_callback e) (e_siginfo e) (e_when e) (e_idx e) b.
End vev_fields.

Record pollfd := mk_pollfd { p_fd : Z; p_events : Z }.

(** [struct vevsig]: its base, its event, the flags and the handler given to
    sigaction, and whether it happened. *)
Record vevsig := mk_vevsig { sg_vevb : bool; sg_vev : option Z; sg_flags : Z; sg_handler : bool; sg_happened : bool }.
Definition no_sig : vevsig := mk_vevsig false None 0 false false.
Definition SA_SIGINFO : Z := 4.

(** [struct vev_root]; [pfd] and [pev] have [npfd] elements. *)
Record vev_root := mk_root {
  r_n_events : Z;
  r_pfd : list pollfd;
  r_pev : list (option Z);
  r_lpfd : Z;
  r_heap : vbh Z;
  r_psig : Z
}.
Definition r_npfd (r : vev_root) : Z := Z.of_nat (length (r_pfd r)).
Definition set_n_events r n := mk_root n (r_pfd r) (r_pev r) (r_lpfd r) (r_heap r) (r_psig r).
Definition set_arrays r a b := mk_root (r_n_events r) a b (r_lpfd r) (r_heap r) (r_psig r).
Definition set_lpfd r n := mk_root (r_n_events r) (r_pfd r) (r_pev r) n (r_heap r) (r_psig r).
Definition set_heap r h := mk_root (r_n_events r) (r_pfd r) (r_pev r) (r_lpfd r) h (r_psig r).
Definition set_psig r n := mk_root (r_n_events r) (r_pfd r) (r_pev r) (r_lpfd r) (r_heap r) n.

(** The events that are allocated, a root, and [vev_sigs]. *)
Record vstate (T : Type) := mk_vstate { s_events : gmap Z (vev T); s_root : vev_root; s_sigs : list vevsig }.
Arguments mk_vstate {T}. Arguments s_events {T}. Arguments s_root {T}. Arguments s_sigs {T}.

Section vev.
Context {T : Type} `{!Time T}.
Implicit Types (s : vstate T) (a : Z).

Definition put_root s r : vstate T := mk_vstate (s_events s) r (s_sigs s).
Definition put_event s a e : vstate T := mk_vstate (<[a := e]> (s_events s)) (s_root s) (s_sigs s).
Definition put_sigs s l : vstate T := mk_vstate (s_events s) (s_root s) l.
Definition free_event s a : vstate T := mk_vstate (delete a (s_events s)) (s_root s) (s_sigs s).
Definition event_at s a : outcome (vev T) := match s_events s !! a with Some e => Ok e | None => Fault FBounds end.
(** [CHECK_OBJ_NOTNULL(e, VEV_MAGIC)]. *)
Definition check_event s a : outcome (vev T) := e ← event_at s a; _ ← assertC (e_magic e); Ok e.

(** ** The heap *)

Definition poll_mask (e : vev T) : Z := Z.land (e_flags e) (Z.lor VEV__RD (Z.lor VEV__WR (Z.lor VEV__ERR VEV__HUP))).
Definition vev_bh_update s a u : outcome (vstate T) :=
  e ← check_event s a;
  _ ← assertC (u <? r_lpfd (s_root s));
  let s := put_event s a (set_idx e u) in
  if u =? VBH_NOIDX then Ok s
  else
    pev ← writeC (r_pev (s_root s)) (Z.to_nat u) (Some a);
    pfd ← writeC (r_pfd (s_root s)) (Z.to_nat u) (mk_pollfd (e_fd e) (poll_mask e));
    Ok (put_root s (set_arrays (s_root s) pfd pev)).
(** As the heap calls it: a fault ends the run. *)
Definition bh_update (p : outcome (vstate T)) a u : outcome (vstate T) := s ← p; vev_bh_update s a u.
(** [__when] does not change while the heap is at work. *)
Definition when_of (m : gmap Z (vev T)) a : T := default tzero (e_when <$> m !! a).
Definition vev_bh_cmp s (a b : Z) : bool := tlt (when_of (s_events s) a) (when_of (s_events s) b).

(** A call of the heap with the state around it. *)
Definition with_heap s (o : outcome (vbh Z * outcome (vstate T))) : outcome (vstate T) :=
  '(h, p) ← o; s ← p; Ok (put_root s (set_heap (s_root s) h)).
Definition heap_insert s a : outcome (vstate T) := with_heap s (VBH_insert parent (vev_bh_cmp s) (Some bh_update) (r_heap (s_root s)) (Ok s) a).
Definition heap_delete s u : outcome (vstate T) := with_heap s (VBH_delete parent child (vev_bh_cmp s) (Some bh_update) (r_heap (s_root s)) (Ok s) u).

(** ** Room *)

Definition vev_get_pfd s : vstate T :=
  let r := s_root s in
  if u32 (r_lpfd r + 1) <? r_npfd r then s
  else
    let u := if r_npfd r <? 8 then 8 else if 256 <? r_npfd r then u32 (r_npfd r + 256) else u32 (r_npfd r * 2) in
    put_root s (set_arrays r (resize (Z.to_nat u) (mk_pollfd 0 0) (r_pfd r)) (resize (Z.to_nat u) None (r_pev r))).

Section calls.
(** Whether there is memory for [n] signals, and whether sigaction accepts one. *)
Context (calloc_ok : Z -> bool) (sigaction_ok : Z -> bool).

Definition vev_get_sig s (sig : Z) : option (vstate T) :=
  if sig <? Z.of_nat (length (s_sigs s)) then Some s
  else if calloc_ok (sig + 1) then Some (put_sigs s (resize (Z.to_nat (sig + 1)) no_sig (s_sigs s))) else None.

(** The signal handler. *)
Definition vev_sigaction s (sig : Z) : outcome (vstate T) :=
  _ ← assertC (sig <? Z.of_nat (length (s_sigs s)));
  es ← readC (s_sigs s) (Z.to_nat sig);
  if sg_happened es then Ok s
  else
    match (if sg_vevb es then sg_vev es else None) with
    | None => Fault FUndef
    | Some a =>
        e ← event_at s a;
        let s := put_event (put_root s (set_psig (s_root s) (u32 (r_psig (s_root s) + 1)))) a (set_siginfo e true) in
        l ← writeC (s_sigs s) (Z.to_nat sig) (mk_vevsig true (Some a) (sg_flags es) (sg_handler es) true);
        Ok (put_sigs s l)
    end.

(** A root without events, and a new event. *)
Definition VEV_New (pagesz : Z) : outcome vev_root :=
  h ← VBH_new pagesz;
  Ok (set_heap (s_root (vev_get_pfd (mk_vstate ∅ (mk_root 0 [] [] (VBH_NOIDX + 1) h 0) []))) h).
Definition VEV_Alloc : vev T := mk_vev false (-1) 0 0 0 0 tzero false false tzero 0 false.

(** ** Starting and stopping *)

(** The checks and the signal of [VEV_Start]: zero, or the error it returns. *)
Definition start_sig s a (e : vev T) : outcome (Z * vstate T) :=
  if 0 <? e_sig e then
    match vev_get_sig s (e_sig e) with
    | None => Ok (ENOMEM, s)
    | Some s =>
        _ ← assertC (e_fd e <? 0);
        es ← readC (s_sigs s) (Z.to_nat (e_sig e));
        if negb (bool_decide (sg_vev es = None)) then Ok (EBUSY, s)
        else
          _ ← assertC (negb (sg_happened es));
          l ← writeC (s_sigs s) (Z.to_nat (e_sig e)) (mk_vevsig true (Some a) (Z.lor (e_sig_flags e) SA_SIGINFO) true false);
          Ok (0, put_sigs s l)
    end
  else Ok (0, s).
(** [now] is what [VTIM_mono] returns. *)
Definition VEV_Start s a (now : T) : outcome (Z * vstate T) :=
  e ← event_at s a;
  _ ← assertC (negb (e_magic e));
  _ ← assertC (e_callback e);
  _ ← assertC (0 <=? e_sig e);
  _ ← assertC (negb (tlt (e_timeout e) tzero));
  _ ← assertC ((e_fd e <? 0) || negb (e_flags e =? 0));
  let s := vev_get_pfd s in
  '(err, s) ← start_sig s a e;
  if negb (err =? 0) then Ok (err, s)
  else
    let when := if tlt tzero (e_timeout e) then tadd (e_when e) (tadd now (e_timeout e)) else tforever in
    let s := put_event s a (set_when (set_magic e true) when) in
    let s := put_root s (set_lpfd (s_root s) (u32 (r_lpfd (s_root s) + 1))) in
    s ← heap_insert s a;
    e ← event_at s a;
    _ ← assertC (negb (e_idx e =? VBH_NOIDX));
    let s := put_event s a (set_vevb e true) in
    _ ← assertC (negb (0 <? e_sig e) || sigaction_ok (e_sig e));
    Ok (0, s).

Definition stop_events s a : outcome (vstate T) :=
  e ← event_at s a;
  if e_events e =? 0 then Ok s
  else
    _ ← assertC (0 <? r_n_events (s_root s));
    let s := put_root s (set_n_events (s_root s) (r_n_events (s_root s) - 1)) in
    Ok (put_event s a (set_events e 0)).
Definition stop_sig s a : outcome (vstate T) :=
  e ← event_at s a;
  if 0 <? e_sig e then
    _ ← assertC (e_sig e <? Z.of_nat (length (s_sigs s)));
    es ← readC (s_sigs s) (Z.to_nat (e_sig e));
    _ ← assertC (bool_decide (sg_vev es = Some a));
    _ ← assertC (sigaction_ok (e_sig e));
    l ← writeC (s_sigs s) (Z.to_nat (e_sig e)) (mk_vevsig false None 0 false false);
    Ok (put_sigs s l)
  else Ok s.
Definition VEV_Stop s a : outcome (vstate T) :=
  e ← check_event s a;
  _ ← assertC (e_vevb e);
  pe ← readC (r_pev (s_root s)) (Z.to_nat (e_idx e));
  _ ← assertC (bool_decide (pe = Some a));
  _ ← assertC (negb (e_idx e =? VBH_NOIDX));
  let s := put_event s a (set_fd e (-1)) in
  s ← heap_delete s (e_idx e);
  e ← event_at s a;
  _ ← assertC (e_idx e =? VBH_NOIDX);
  let s := put_root s (set_lpfd (s_root s) (u32 (r_lpfd (s_root s) - 1))) in
  s ← stop_events s a;
  s ← stop_sig s a;
  e ← event_at s a;
  Ok (put_event s a (set_magic (set_vevb e false) false)).

(** ** The loop *)

Section loop.
(** What a callback does to the events while it runs: an event it has allocated
    is given with its address. *)
Inductive vop := Start (a : Z) (e : vev T) | Stop (a : Z).
(** What poll finds: an interruption, another error, or the number of descriptors
    with events and the events of all.  Signals arrive while it waits. *)
Inductive poll_res := PollIntr | PollErr | PollOk (n : Z) (revents : list Z).
Context {W : Type} (callback : W -> Z -> Z -> W * list vop * Z) (mono : W -> W * T) (poll : W -> list pollfd -> Z -> W * list Z * poll_res).

Definition run_op (ws : W * vstate T) (o : vop) : outcome (W * vstate T) :=
  let '(w, s) := ws in
  match o with
  | Start a e => _ ← assertC (bool_decide (s_events s !! a = None)); let '(w, now) := mono w in '(err, s) ← VEV_Start (put_event s a e) a now; _ ← assertC (err =? 0); Ok (w, s)
  | Stop a => s ← VEV_Stop s a; Ok (w, free_event s a)
  end.
Fixpoint run_ops (ws : W * vstate T) (l : list vop) : outcome (W * vstate T) :=
  match l with [] => Ok ws | o :: l => ws ← run_op ws o; run_ops ws l end.
(** [e->callback(e, what)]. *)
Definition call w s a what : outcome (W * vstate T * Z) :=
  let '(w, ops, k) := callback w a what in
  ws ← run_ops (w, s) ops; Ok (ws, k).

(** [VEV_Stop(evb, e); free(e);] *)
Definition drop_event s a : outcome (vstate T) := s ← VEV_Stop s a; Ok (free_event s a).

Definition vev_sched_timeout w s a t : outcome (W * vstate T * Z) :=
  '(w, s, i) ← call w s a 0;
  if negb (i =? 0) then s ← drop_event s a; Ok (w, s, 1)
  else
    e ← event_at s a;
    let s := put_event s a (set_when e (tadd t (e_timeout e))) in
    s ← heap_delete s (e_idx e);
    s ← heap_insert s a;
    Ok (w, s, 1).

(** The loop over [vev_sigs] from [j]; a pointer into the array dangles when a
    callback has made it longer. *)
Fixpoint sched_signal_loop (n : nat) w s (j : nat) (retval : Z) : outcome (W * vstate T * Z) :=
  match n with
  | O => Fault FFuel
  | S n =>
      if (j <? length (s_sigs s))%nat then
        es ← readC (s_sigs s) j;
        if negb (sg_happened es) || negb (sg_vevb es) then sched_signal_loop n w s (S j) retval
        else
          let s := put_root s (set_psig (s_root s) (u32 (r_psig (s_root s) - 1))) in
          l ← writeC (s_sigs s) j (mk_vevsig (sg_vevb es) (sg_vev es) (sg_flags es) (sg_handler es) false);
          let s := put_sigs s l in
          match sg_vev es with
          | None => Fault FAssert
          | Some a =>
              '(w, s', i) ← call w s a VEV__SIG;
              if (length (s_sigs s) <? length (s_sigs s'))%nat then Fault FUndef
              else
                let s := s' in
                e ← event_at s a;
                let s := put_event s a (set_siginfo e false) in
                s ← (if negb (i =? 0) then drop_event s a else Ok s);
                sched_signal_loop n w s (S j) (if i <? 0 then i else retval)
          end
      else Ok (w, s, retval)
  end.
Definition vev_sched_signal w s : outcome (W * vstate T * Z) := sched_signal_loop (S (length (s_sigs s))) w s 0 1.

Fixpoint deliver s (sigs : list Z) : outcome (vstate T) := match sigs with [] => Ok s | g :: sigs => s ← vev_sigaction s g; deliver s sigs end.

(** [for (u = 1; u < evb->lpfd; u++)] storing what poll found. *)
Fixpoint store_loop (n : nat) s (u : Z) (rev : list Z) : outcome (vstate T) :=
  match n with
  | O => Fault FFuel
  | S n =>
      if u <? r_lpfd (s_root s) then
        pe ← readC (r_pev (s_root s)) (Z.to_nat u);
        match pe with
        | None => Fault FUndef
        | Some a =>
            e ← event_at s a;
            _ ← assertC (e_events e =? 0);
            ev ← readC rev (Z.to_nat (u - 1));
            let s := put_event s a (set_events e ev) in
            let s := if ev =? 0 then s else put_root s (set_n_events (s_root s) (r_n_events (s_root s) + 1)) in
            store_loop n s (u + 1) rev
        end
      else Ok s
  end.

(** One pass over the events: the world, the state, [progress] and [retval]. *)
Fixpoint pass_loop (n : nat) w s (u progress retval : Z) : outcome (W * vstate T * Z * Z) :=
  match n with
  | O => Fault FFuel
  | S n =>
      if u <? r_lpfd (s_root s) then
        pe ← readC (r_pev (s_root s)) (Z.to_nat u);
        match pe with
        | None => Fault FUndef
        | Some a =>
            e ← event_at s a;
            if e_events e =? 0 then pass_loop n w s (u + 1) progress retval
            else
              '(w, s, k) ← call w s a (e_events e);
              e ← event_at s a;
              let s := put_event s a (set_events e 0) in
              _ ← assertC (0 <? r_n_events (s_root s));
              let s := put_root s (set_n_events (s_root s) (r_n_events (s_root s) - 1)) in
              s ← (if negb (k =? 0) then drop_event s a else Ok s);
              pass_loop n w s (u + 1) (progress + 1) (if k <? 0 then k else retval)
        end
      else Ok (w, s, progress, retval)
  end.
(** [while (evb->n_fd_events > 0)]; a pass takes at most [m] steps. *)
Fixpoint passes (n m : nat) w s (retval : Z) : outcome (W * vstate T * Z) :=
  if 0 <? r_n_events (s_root s) then
    match n with
    | O => Fault FFuel
    | S n =>
        '(w, s, progress, retval) ← pass_loop m w s (VBH_NOIDX + 1) 0 retval;
        _ ← assertC (0 <? progress);
        passes n m w s retval
    end
  else Ok (w, s, retval).

(** The events that poll found. *)
Definition vev_dispatch (n m : nat) w s (i : Z) (rev : list Z) : outcome (W * vstate T * Z) :=
  _ ← assertC (r_n_events (s_root s) =? 0);
  s ← store_loop m s 1 rev;
  _ ← assertC (r_n_events (s_root s) =? i);
  passes n m w s 1.

(** The half of [VEV_Once] that waits, when [root] is the event due first. *)
Definition wait_events (n m : nat) w s (root : option Z) (tmo : Z) : outcome (W * vstate T * Z) :=
  let r := s_root s in
  if (tmo =? INFTIM) && (r_lpfd r =? VBH_NOIDX + 1) then Ok (w, s, 0)
  else
    let '(w, sigs, res) := poll w (take (Z.to_nat (r_lpfd r - 1)) (drop 1 (r_pfd r))) tmo in
    s ← deliver s sigs;
    match res with
    | PollIntr => vev_sched_signal w s
    | PollErr => Ok (w, s, -1)
    | PollOk i rev =>
        if i =? 0 then
          match root with
          | None => Fault FAssert
          | Some a =>
              e ← event_at s a;
              let '(w, t) := mono w in
              if negb (tlt t (e_when e)) then vev_sched_timeout w s a t else vev_dispatch n m w s i rev
          end
        else vev_dispatch n m w s i rev
    end.
(** The first timer is due, or how long poll may wait. *)
Definition VEV_Once (n m : nat) w s : outcome (W * vstate T * Z) :=
  let r := s_root s in
  _ ← assertC (r_lpfd r <? r_npfd r);
  if negb (r_psig r =? 0) then vev_sched_signal w s
  else
    root ← VBH_root (r_heap r);
    match root with
    | None => wait_events n m w s None INFTIM
    | Some a =>
        e ← check_event s a;
        _ ← assertC (e_idx e =? VBH_NOIDX + 1);
        let '(w, t) := mono w in
        if negb (tlt t (e_when e)) then vev_sched_timeout w s a t
        else
          let tmo := if tlt (e_when e) tforever then millis (e_when e) t else INFTIM in
          wait_events n m w s (Some a) (if tmo =? 0 then 1 else tmo)
    end.

(** [k] is a bound on the iterations. *)
Fixpoint VEV_Loop (k n m : nat) w s : outcome (W * vstate T * Z) :=
  match k with
  | O => Fault FFuel
  | S k => '(w, s, i) ← VEV_Once n m w s; if i =? 1 then VEV_Loop k n m w s else Ok (w, s, i)
  end.
End loop.

(** Stopping what is left; [n] bounds the events. *)
Fixpoint VEV_Destroy (n : nat) s : outcome (gmap Z (vev T) * list Z) :=
  root ← VBH_root (r_heap (s_root s));
  match root with
  | None => rows ← VBH_destroy (r_heap (s_root s)); Ok (s_events s, rows)
  | Some a => match n with O => Fault FFuel | S n => s ← VEV_Stop s a; VEV_Destroy n (free_event s a) end
  end.
End calls.
End vev.
