(* ===== verification/VevSpec.v ===== *)
(** * The events and their heap

    What vev.c keeps about the heap: the place of an event in the arrays of poll
    is its index.  The heap's own theorems are about a client whose [update]
    never fails; [Follows] carries them over to vev_bh_update with its checks. *)

From Stdlib Require Import ZArith Lia ZifyBool.
From stdpp Require Import base option numbers list gmap.
From S2P Require Import Prelude Vbh VbhShape VbhHeap VbhSpec Vev.
#[local] Open Scope Z_scope.

Abbreviation Pf := (fun bh => page_parent (page_shift bh)).

Abbreviation heap_of s := (r_heap (s_root s)).
Abbreviation cells_of s := (h_cells (heap_of s)).

Section inv.
Context {T : Type} `{!Time T}.
Implicit Types (s : vstate T) (a u : Z) (e : vev T).

Definition idx_at s a : Z := default 0 (e_idx <$> s_events s !! a).
(** vev_bh_update without its checks. *)
Definition vupd s a u : vstate T :=
  let e := default VEV_Alloc (s_events s !! a) in
  let s := put_event s a (set_idx e u) in
  if u =? VBH_NOIDX then s
  else put_root s (set_arrays (s_root s) (<[Z.to_nat u := mk_pollfd (e_fd e) (poll_mask e)]> (r_pfd (s_root s))) (<[Z.to_nat u := Some a]> (r_pev (s_root s)))).

#[global] Instance vupd_index : Index vupd idx_at.
Proof.
  split; intros p a; intros; unfold vupd, idx_at; destruct (_ =? VBH_NOIDX); cbn [s_events put_root put_event].
  1,2: by rewrite lookup_insert_eq. all: by rewrite lookup_insert_ne.
Qed.
#[global] Instance when_before (f : Z -> T) : Before (fun a b => tlt (f a) (f b)).
Proof. split; intros; [by apply tlt_asym|by eapply tlt_trans]. Qed.
#[global] Instance vev_before s : Before (vev_bh_cmp s).
Proof. apply when_before. Qed.

(** Events without their index. *)
Definition erase (m : gmap Z (vev T)) : gmap Z (vev T) := (fun e => set_idx e 0) <$> m.
(** Nothing but indices and the arrays differs. *)
Record frame s s' : Prop := {
  fr_events : erase (s_events s') = erase (s_events s);
  fr_sigs : s_sigs s' = s_sigs s;
  fr_n : r_n_events (s_root s') = r_n_events (s_root s);
  fr_lpfd : r_lpfd (s_root s') = r_lpfd (s_root s);
  fr_psig : r_psig (s_root s') = r_psig (s_root s);
  fr_pfd : length (r_pfd (s_root s')) = length (r_pfd (s_root s));
  fr_pev : length (r_pev (s_root s')) = length (r_pev (s_root s))
}.
Lemma frame_refl s : frame s s.
Proof. by split. Qed.
Lemma frame_trans s1 s2 s3 : frame s1 s2 -> frame s2 s3 -> frame s1 s3.
Proof. intros [] []. split; congruence. Qed.

Lemma frame_event s s' a e : frame s s' -> s_events s !! a = Some e -> exists e', s_events s' !! a = Some e' /\ set_idx e' 0 = set_idx e 0.
Proof.
  intros Hf He. pose proof (fr_events _ _ Hf) as Hm. apply (f_equal (lookup a)) in Hm. unfold erase in Hm. rewrite !lookup_fmap, He in Hm. destruct (s_events s' !! a) as [e'|]; [|done]. cbn in Hm. exists e'. split; [done|congruence].
Qed.
Lemma frame_none s s' a : frame s s' -> s_events s !! a = None <-> s_events s' !! a = None.
Proof.
  intros Hf. pose proof (fr_events _ _ Hf) as Hm. apply (f_equal (lookup a)) in Hm. unfold erase in Hm. rewrite !lookup_fmap in Hm. destruct (s_events s !! a), (s_events s' !! a); done.
Qed.
Lemma frame_when s s' a : frame s s' -> when_of (s_events s') a = when_of (s_events s) a.
Proof.
  intros Hf. pose proof (fr_events _ _ Hf) as Hm. apply (f_equal (lookup a)) in Hm. unfold erase, when_of in *. rewrite !lookup_fmap in Hm. apply (f_equal (fmap e_when)) in Hm. destruct (s_events s !! a), (s_events s' !! a); cbn in *; congruence.
Qed.
(** What a field of an event that is not the index keeps. *)
Lemma erase_fields e e' : set_idx e' 0 = set_idx e 0 -> e_magic e' = e_magic e /\ e_fd e' = e_fd e /\ e_flags e' = e_flags e /\ e_events e' = e_events e /\ e_sig e' = e_sig e /\ e_timeout e' = e_timeout e /\ e_callback e' = e_callback e /\ e_when e' = e_when e /\ e_vevb e' = e_vevb e.
Proof. destruct e, e'. unfold set_idx. cbn. intros [= -> -> -> -> -> -> -> -> -> -> ->]. done. Qed.

(** An event that is started, at an index, and its place. *)
Definition known s a : Prop := exists e, s_events s !! a = Some e /\ e_magic e = true.
Definition at_place s a u : Prop :=
  exists e, s_events s !! a = Some e /\ e_magic e = true /\ r_pev (s_root s) !! Z.to_nat u = Some (Some a) /\ r_pfd (s_root s) !! Z.to_nat u = Some (mk_pollfd (e_fd e) (poll_mask e)).
Definition slots (c : gmap Z Z) s : Prop := forall u a, c !! u = Some a -> 0 < u < r_lpfd (s_root s) /\ at_place s a u.
Definition room s : Prop := 0 < r_lpfd (s_root s) < r_npfd (s_root s) /\ length (r_pev (s_root s)) = length (r_pfd (s_root s)).

(** The relation of the two runs. *)
Definition related s0 (c : gmap Z Z) (p : outcome (vstate T)) s : Prop := p = Ok s /\ frame s0 s /\ slots c s.

Lemma vupd_frame s0 s a u : frame s0 s -> known s0 a -> frame s0 (vupd s a u).
Proof.
  intros Hf (e0 & He0 & _). destruct (frame_event s0 s a e0 Hf He0) as (e & He & Hee). apply (frame_trans _ s); [done|]. unfold vupd. rewrite He. cbn [default from_option id].
  assert (erase (<[a := set_idx e u]> (s_events s)) = erase (s_events s)) as Hm.
  { unfold erase. apply map_eq. intros x. rewrite !lookup_fmap, lookup_insert. case_decide; [subst|done]. by rewrite He. }
  destruct (u =? VBH_NOIDX); split; cbn; rewrite ?length_insert; done.
Qed.

Lemma vupd_run s0 s a u : room s0 -> frame s0 s -> known s0 a -> 0 <= u < r_lpfd (s_root s0) -> bh_update (Ok s) a u = Ok (vupd s a u).
Proof.
  intros [Hr Hl] Hf (e0 & He0 & Hmg) Hu. destruct (frame_event s0 s a e0 Hf He0) as (e & He & Hee). apply erase_fields in Hee as (Hmg' & _). unfold bh_update, vev_bh_update, check_event, event_at, vupd. cbn [mbind outcome_bind]. rewrite He. cbn [mbind outcome_bind default from_option id].
  rewrite Hmg', Hmg. cbn [assertC mbind outcome_bind]. rewrite (fr_lpfd _ _ Hf), assertC_true by lia. cbn [mbind outcome_bind]. destruct (u =? VBH_NOIDX) eqn:E; [done|]. unfold r_npfd in Hr. pose proof (fr_pfd _ _ Hf). pose proof (fr_pev _ _ Hf).
  cbn [put_event s_root]. rewrite !writeC_lt by lia. done.
Qed.

(** The place of an event after an update of another or of itself. *)
Lemma place_same s a u : 0 < u -> known s a -> (Z.to_nat u < length (r_pfd (s_root s)))%nat -> length (r_pev (s_root s)) = length (r_pfd (s_root s)) -> at_place (vupd s a u) a u.
Proof.
  intros Hu (e & He & Hm) Hl Hl2. exists (set_idx e u). unfold vupd. rewrite He. cbn [default from_option id]. replace (u =? VBH_NOIDX) with false by (unfold VBH_NOIDX; lia). cbn. rewrite lookup_insert_eq, !list_lookup_insert_eq by lia. done.
Qed.
Lemma place_other s a u b v : 0 < v -> v <> u -> 0 <= u -> known s a -> at_place s b v -> at_place (vupd s a u) b v.
Proof.
  intros Hv Hne Hu (e & He & Hm) (e' & He' & Hm' & Hp & Hq). unfold vupd. rewrite He. cbn [default from_option id].
  assert (exists e'', <[a:=set_idx e u]> (s_events s) !! b = Some e'' /\ e_magic e'' = true /\ e_fd e'' = e_fd e' /\ poll_mask e'' = poll_mask e') as (e'' & He'' & Hmm & Hfd & Hmk).
  { rewrite lookup_insert. case_decide; [subst|by exists e']. exists (set_idx e u). rewrite He in He'. injection He' as <-. done. }
  exists e''. rewrite Hfd, Hmk. destruct (u =? VBH_NOIDX) eqn:E; cbn; [done|]. rewrite !list_lookup_insert_ne by (unfold VBH_NOIDX in *; lia). done.
Qed.
Lemma frame_known s0 s a : frame s0 s -> known s0 a -> known s a.
Proof. intros Hf (e & He & Hm). destruct (frame_event _ _ _ _ Hf He) as (e' & He' & Hee). apply erase_fields in Hee as (Hmg & _). exists e'. split; [done|congruence]. Qed.
Lemma known_back s0 s a : frame s0 s -> known s a -> known s0 a.
Proof.
  intros Hf (e & He & Hm). destruct (s_events s0 !! a) as [e0|] eqn:E; [|apply (frame_none _ _ a Hf) in E; congruence]. destruct (frame_event _ _ _ _ Hf E) as (e' & He' & Hee). apply erase_fields in Hee as (Hmg & _). exists e0. split; [done|congruence].
Qed.
Lemma place_known s a u : at_place s a u -> known s a.
Proof. intros (e & He & Hm & _). by exists e. Qed.

#[global] Instance vev_follows s0 (Hroom : room s0) : Follows bh_update vupd (r_lpfd (s_root s0)) (known s0) (related s0).
Proof.
  pose proof Hroom as [Hr Hl]. unfold r_npfd in Hr. split.
  - intros c p s u x Hx Hc Hu (-> & Hf & Hs). rewrite (vupd_run s0) by (done || lia). pose proof (vupd_frame s0 s x u Hf Hx) as Hf'. split; [done|]. split; [done|]. pose proof (fr_pfd _ _ Hf). pose proof (fr_pev _ _ Hf).
    intros v b Hv. rewrite (fr_lpfd _ _ Hf'). rewrite lookup_insert in Hv. case_decide; [injection Hv as <-; subst v|].
    + split; [lia|]. apply place_same; [lia|by eapply frame_known|lia|lia].
    + destruct (Hs v b Hv) as [Hvr Hpl]. rewrite (fr_lpfd _ _ Hf) in Hvr. split; [lia|]. apply place_other; [lia|lia|lia|by eapply frame_known|done].
  - intros c p s u v a b Ha Hb Hu Hv (-> & Hf & Hs). destruct (Hs u a Ha) as [Hur Hpa]. destruct (Hs v b Hb) as [Hvr Hpb]. rewrite (fr_lpfd _ _ Hf) in *. pose proof (known_back _ _ _ Hf (place_known _ _ _ Hpa)) as Hka. pose proof (known_back _ _ _ Hf (place_known _ _ _ Hpb)) as Hkb.
    rewrite (vupd_run s0 s b u) by (done || lia). pose proof (vupd_frame s0 s b u Hf Hkb) as Hf1. rewrite (vupd_run s0 _ a v) by (done || lia). pose proof (vupd_frame s0 _ a v Hf1 Hka) as Hf2. split; [done|]. split; [done|].
    pose proof (fr_pfd _ _ Hf). pose proof (fr_pev _ _ Hf). pose proof (fr_pfd _ _ Hf1). pose proof (fr_pev _ _ Hf1). intros x d Hd. rewrite (fr_lpfd _ _ Hf2). rewrite (lookup_swap c u v a b x Ha Hb) in Hd. case_decide; [|case_decide].
    + subst x. injection Hd as <-. split; [lia|]. apply place_same; [lia|by eapply frame_known|lia|lia].
    + subst x. injection Hd as <-. split; [lia|]. apply place_other; [lia|lia|lia|by eapply frame_known|]. apply place_same; [lia|by eapply frame_known|lia|lia].
    + destruct (Hs x d Hd) as [Hxr Hpd]. rewrite (fr_lpfd _ _ Hf) in Hxr. split; [lia|]. apply place_other; [lia|lia|lia|by eapply frame_known|]. apply place_other; [lia|lia|lia|by eapply frame_known|done].
  - intros c p s u n t Ht Hu Hur (-> & Hf & Hs). destruct (Hs n t Ht) as [Hnr Hpt]. pose proof (known_back _ _ _ Hf (place_known _ _ _ Hpt)) as Hkt. rewrite (vupd_run s0 s t u) by (done || lia). pose proof (vupd_frame s0 s t u Hf Hkt) as Hf1. split; [done|]. split; [done|].
    pose proof (fr_pfd _ _ Hf). pose proof (fr_pev _ _ Hf). intros x d Hd. rewrite (fr_lpfd _ _ Hf1). rewrite lookup_insert in Hd. case_decide; [injection Hd as <-; subst x|].
    + split; [lia|]. apply place_same; [lia|by eapply frame_known|lia|lia].
    + rewrite lookup_delete in Hd. case_decide; [done|]. destruct (Hs x d Hd) as [Hxr Hpd]. rewrite (fr_lpfd _ _ Hf) in Hxr. split; [lia|]. apply place_other; [lia|lia|lia|by eapply frame_known|done].
Qed.

(** ** The two calls of the heap *)

Definition started s : list Z := contents (heap_of s).
Definition hinv s : Prop := heap_ok VBH_UINT_MAX pages_ok Pf (vev_bh_cmp s) idx_at (heap_of s) s.
Definition hinv_but s u : Prop := heap_but VBH_UINT_MAX pages_ok Pf (vev_bh_cmp s) idx_at (heap_of s) s u.

Lemma heap_ok_ext cmp cmp' bh s s' : (forall a b, a ∈ contents bh -> b ∈ contents bh -> cmp' a b = cmp a b) -> (forall a, a ∈ contents bh -> idx_at s' a = idx_at s a) ->
  heap_ok VBH_UINT_MAX pages_ok Pf cmp idx_at bh s -> heap_ok VBH_UINT_MAX pages_ok Pf cmp' idx_at bh s'.
Proof.
  intros Hc Hi (Hwf & Ho & Ht). assert (forall x a, h_cells bh !! x = Some a -> a ∈ contents bh) as Hin by (intros x a Hx; apply elem_of_items; eauto).
  split; [done|]. split; [|intros x a Hx; rewrite Hi by eauto; by apply Ht]. intros x Hx a b Ha Hb. rewrite Hc by eauto. by apply (Ho x Hx).
Qed.

(** What the heap and the arrays depend on. *)
Definition core e : bool * Z * Z * T * Z := (e_magic e, e_fd e, e_flags e, e_when e, e_idx e).
Lemma core_some s s' a e : core <$> s_events s' !! a = core <$> s_events s !! a -> s_events s !! a = Some e -> exists e', s_events s' !! a = Some e' /\ core e' = core e.
Proof. intros Hc He. rewrite He in Hc. destruct (s_events s' !! a) as [e'|]; [|done]. injection Hc as Hc. exists e'. split; [done|]. unfold core. congruence. Qed.
Lemma core_when s s' a : core <$> s_events s' !! a = core <$> s_events s !! a -> when_of (s_events s') a = when_of (s_events s) a /\ idx_at s' a = idx_at s a.
Proof.
  intros Hc. unfold when_of, idx_at. destruct (s_events s' !! a) as [e'|], (s_events s !! a) as [e|]; try done. injection Hc as H1 H2 H3 H4 H5. cbn. by rewrite H4, H5.
Qed.
Lemma core_hinv s s' : heap_of s' = heap_of s -> (forall a, a ∈ started s -> core <$> s_events s' !! a = core <$> s_events s !! a) -> hinv s -> hinv s'.
Proof.
  intros Hh Hc Hi. unfold hinv. rewrite Hh. eapply heap_ok_ext; [| |exact Hi].
  - intros a b Ha Hb. unfold vev_bh_cmp. by rewrite (proj1 (core_when s s' a (Hc a Ha))), (proj1 (core_when s s' b (Hc b Hb))).
  - intros a Ha. by rewrite (proj2 (core_when s s' a (Hc a Ha))).
Qed.
Lemma core_slots c s s' : r_pfd (s_root s') = r_pfd (s_root s) -> r_pev (s_root s') = r_pev (s_root s) -> r_lpfd (s_root s) <= r_lpfd (s_root s') -> (forall u a, c !! u = Some a -> core <$> s_events s' !! a = core <$> s_events s !! a) -> slots c s -> slots c s'.
Proof.
  intros H1 H2 H3 Hc Hs u a Hu. destruct (Hs u a Hu) as [Hr (e & He & Hm & Hp & Hq)]. split; [lia|]. destruct (core_some s s' a e (Hc u a Hu) He) as (e' & He' & Hce). injection Hce as E1 E2 E3 _ _. exists e'. rewrite H1, H2, E2. split; [done|]. split; [congruence|]. split; [done|]. unfold poll_mask in *. by rewrite E3.
Qed.
(** Another state in which one event may differ. *)
Lemma core_but s s' u a : heap_of s' = heap_of s -> cells_of s !! u = Some a -> (forall b, b ∈ started s -> b <> a -> core <$> s_events s' !! b = core <$> s_events s !! b) -> idx_at s' a = idx_at s a -> hinv s -> hinv_but s' u.
Proof.
  intros Hh Ha Hc Hi (Hwf & Ho & Ht). assert (forall x b, cells_of s !! x = Some b -> b ∈ started s) as Hin by (intros x b Hx; apply elem_of_items; eauto). unfold hinv_but. rewrite Hh. split; [done|]. split.
  - pose proof (wf_tree parent child VBH_UINT_MAX pages_ok Pf (heap_of s) Hwf) as Htree. destruct (wf_live _ _ (heap_of s) u a Hwf Ha) as [Hu _].
    assert (hole (vev_bh_cmp s) (h_next (heap_of s)) (Pf (heap_of s)) (cells_of s) u) as [Ho1 Ho2] by (apply hole_of_ordered; try done; [apply _|apply (wf_some _ _ (heap_of s) Hwf)]).
    assert (forall x b, x <> u -> cells_of s !! x = Some b -> when_of (s_events s') b = when_of (s_events s) b) as Hw.
    { intros x b Hx Hb. apply core_when, Hc; [by eapply Hin|]. intros ->. apply Hx. by rewrite <-(Ht x a Hb), <-(Ht u a Ha). }
    split; unfold vev_bh_cmp.
    + intros x Hx Hxu Hpu d e Hd He. rewrite (Hw x d), (Hw _ e) by done. by apply (Ho1 x Hx Hxu Hpu).
    + intros x Hx Hu2 E d e Hd He. pose proof (Htree x Hx). pose proof (Htree u ltac:(lia)). cbv beta in *. rewrite (Hw x d), (Hw (page_parent (page_shift (heap_of s)) u) e) by (done || lia). by apply (Ho2 x Hx Hu2 E).
  - intros x b Hx. rewrite <-(Ht x b Hx). destruct (decide (b = a)) as [->|Hne]; [done|]. by apply core_when, Hc; [eapply Hin|].
Qed.

(** The state with the heap that the run has left. *)
Lemma with_heap_ok s s2 bh : frame s s2 -> heap_ok VBH_UINT_MAX pages_ok Pf (vev_bh_cmp s) idx_at bh s2 -> slots (h_cells bh) s2 ->
  let s' := put_root s2 (set_heap (s_root s2) bh) in frame s s' /\ hinv s' /\ slots (cells_of s') s'.
Proof.
  intros Hf Hh Hs. split; [apply (frame_trans _ s2); [done|by split]|]. split; [|exact Hs].
  eapply heap_ok_ext; [| |exact Hh]; [|done]. intros a b _ _. unfold vev_bh_cmp. cbn. by rewrite !(frame_when s s2).
Qed.

Lemma heap_insert_ok s x : room s -> hinv s -> slots (cells_of s) s -> known s x -> x ∉ started s -> h_next (heap_of s) + 1 = r_lpfd (s_root s) -> r_lpfd (s_root s) < VBH_CAP ->
  exists s', heap_insert s x = Ok s' /\ frame s s' /\ hinv s' /\ slots (cells_of s') s' /\ started s' ≡ₚ x :: started s /\ h_next (heap_of s') = r_lpfd (s_root s) /\ idx_at s' x <> VBH_NOIDX.
Proof.
  intros Hroom Hh Hs Hk Hx Hn Hcap. pose proof Hh as (Hwf & _). pose proof (wf_next _ _ _ Hwf) as Hn1. assert (VBH_CAP = 2 ^ 32 - 131072) as Hc by done. assert (VBH_UINT_MAX = 2 ^ 32 - 1) as Hu by done. pose proof (vev_follows s Hroom) as HF.
  destruct (vbh_insert_ok parent child VBH_UINT_MAX pages_ok Pf (vev_bh_cmp s) vupd idx_at (heap_of s) s x Hh Hx) as (bh' & s2 & Hrun & Hh2 & Hp & _); [lia..|].
  assert (h_cells (heap_of s) !! h_next (heap_of s) = None) as Hfree by (eapply next_free; exact Hwf).
  destruct (insert_rel parent (vev_bh_cmp s) bh_update vupd (r_lpfd (s_root s)) (known s) (related s) (heap_of s) (Ok s) s x bh' s2 Hk) as (p1 & Hrun1 & (-> & Hf & Hs2) & Hn2); [lia|lia|lia|done|by split; [|split; [apply frame_refl|]]|done|].
  destruct (with_heap_ok s s2 bh' Hf Hh2 Hs2) as (Hf3 & Hh3 & Hs3). exists (put_root s2 (set_heap (s_root s2) bh')). unfold heap_insert, with_heap. rewrite Hrun1. split; [done|]. do 3 (split; [done|]). split; [exact Hp|]. split; [cbn; lia|].
  assert (x ∈ contents bh') as Hin by (rewrite Hp; left). unfold contents in Hin. apply elem_of_items in Hin as (u & Hu2). destruct (Hs3 u x Hu2) as [Hur _]. destruct Hh3 as (_ & _ & Ht). rewrite (Ht u x Hu2). unfold VBH_NOIDX. lia.
Qed.

Lemma heap_delete_ok s u a : room s -> hinv_but s u -> slots (delete u (cells_of s)) s -> known s a -> cells_of s !! u = Some a -> h_next (heap_of s) <= r_lpfd (s_root s) -> r_lpfd (s_root s) < VBH_CAP ->
  exists s', heap_delete s u = Ok s' /\ frame s s' /\ hinv s' /\ slots (cells_of s') s' /\ started s ≡ₚ a :: started s' /\ h_next (heap_of s') = h_next (heap_of s) - 1 /\ idx_at s' a = VBH_NOIDX.
Proof.
  intros Hroom Hh Hs Hk Ha Hn Hcap. pose proof Hroom as [Hr Hl]. assert (VBH_CAP = 2 ^ 32 - 131072) as Hc by done. pose proof (vev_follows s Hroom) as HF.
  destruct (delete_but_ok parent child VBH_UINT_MAX pages_ok Pf (vev_bh_cmp s) vupd idx_at (heap_of s) s u a Hh Ha) as (bh' & s2 & Hrun & Hh2 & Hp & Hi).
  destruct (delete_rel parent child (vev_bh_cmp s) bh_update vupd (r_lpfd (s_root s)) (known s) (related s) (heap_of s) (Ok s) s u bh' s2) as (p1 & Hrun1 & (-> & Hf & Hs2) & Hn2); [lia|lia| |done|].
  { intros b Hb. rewrite Ha in Hb. injection Hb as <-. unfold VBH_NOIDX. rewrite (vupd_run s) by (done || lia || apply frame_refl). split; [done|]. split; [by apply vupd_frame; [apply frame_refl|]|].
    intros x d Hd. destruct (Hs x d Hd) as [Hxr Hpd]. split; [done|]. by apply place_other; [lia..| |]. }
  destruct (with_heap_ok s s2 bh' Hf Hh2 Hs2) as (Hf3 & Hh3 & Hs3). exists (put_root s2 (set_heap (s_root s2) bh')). unfold heap_delete, with_heap. rewrite Hrun1. by do 6 (split; [done|]).
Qed.
End inv.

(** ** What vev.c promises

    [vinv] is what holds between two calls.  Starting and stopping keep it, and
    no assertion fails; so does a turn of the loop, whatever events the callbacks
    start and stop, and each event that poll found is given to its callback
    once. *)

Section spec.
Context {T : Type} `{!Time T} (calloc_ok : Z -> bool) (sigaction_ok : Z -> bool).
Implicit Types (s : vstate T) (a u : Z) (e : vev T) (l : list Z).

(** ** The invariant *)

(** What the heap does not look at. *)
Definition attr e : Z * Z * T * bool * bool := (e_events e, e_sig e, e_timeout e, e_callback e, e_vevb e).
Definition live e : Prop := e_vevb e = true /\ e_callback e = true /\ 0 <= e_sig e /\ tlt (e_timeout e) tzero = false /\ (0 < e_sig e -> sigaction_ok (e_sig e) = true).
Definition ready s a : bool := match s_events s !! a with Some e => negb (e_events e =? 0) | None => false end.
Definition n_ready s l : Z := Z.of_nat (length (filter (fun a => ready s a = true) l)).

(** The signals of the started events, and the events of the signals; none has
    happened. *)
Definition sigs_ok s l : Prop :=
  (forall a e, a ∈ l -> s_events s !! a = Some e -> 0 < e_sig e -> exists es, s_sigs s !! Z.to_nat (e_sig e) = Some es /\ sg_vev es = Some a) /\
  (forall j es, s_sigs s !! j = Some es -> match sg_vev es with
     | Some a => (sg_vevb es = true /\ sg_happened es = false) /\ a ∈ l /\ exists e, s_events s !! a = Some e /\ e_sig e = Z.of_nat j /\ 0 < e_sig e
     | None => sg_vevb es = false /\ sg_happened es = false end).
Record events_ok s l : Prop := {
  ev_live : forall a, a ∈ l -> exists e, s_events s !! a = Some e /\ live e;
  ev_count : r_n_events (s_root s) = n_ready s l;
  ev_sigs : sigs_ok s l
}.
Record heap_part s : Prop := {
  hp_room : room s;
  hp_heap : hinv s;
  hp_slots : slots (cells_of s) s;
  hp_lpfd : h_next (heap_of s) = r_lpfd (s_root s);
  hp_npfd : r_npfd (s_root s) <= 2 ^ 31
}.
Definition vinv s : Prop := heap_part s /\ events_ok s (started s).

(** *** Changes that keep parts of it *)

Lemma ready_attr s s' a : attr <$> s_events s' !! a = attr <$> s_events s !! a -> ready s' a = ready s a.
Proof. unfold ready. destruct (s_events s' !! a), (s_events s !! a); intros H; try done. injection H as H1 _ _ _ _. by rewrite H1. Qed.
Lemma n_ready_ext s s' l : (forall a, a ∈ l -> ready s' a = ready s a) -> n_ready s' l = n_ready s l.
Proof.
  intros H. unfold n_ready. f_equal. f_equal. induction l as [|a l IH]; [done|]. rewrite !filter_cons, (H a) by left. rewrite IH by (intros b Hb; apply H; by right). done.
Qed.
Lemma n_ready_perm s l l' : l ≡ₚ l' -> n_ready s l = n_ready s l'.
Proof. intros H. unfold n_ready. by rewrite H. Qed.
Lemma n_ready_cons s a l : n_ready s (a :: l) = (if ready s a then 1 else 0) + n_ready s l.
Proof. unfold n_ready. rewrite filter_cons. destruct (ready s a); case_decide; try done; cbn [length]; lia. Qed.
Lemma n_ready_nonneg s l : 0 <= n_ready s l.
Proof. unfold n_ready. lia. Qed.

Lemma events_ok_ext s s' l l' : l ≡ₚ l' -> (forall a, a ∈ l -> attr <$> s_events s' !! a = attr <$> s_events s !! a) -> s_sigs s' = s_sigs s -> r_n_events (s_root s') = r_n_events (s_root s) -> events_ok s l -> events_ok s' l'.
Proof.
  intros Hl Ha Hs Hn [Hlv Hc [H1 H2]]. assert (forall a, a ∈ l' -> a ∈ l) as Hin by (intros a; by rewrite Hl). assert (forall a e, a ∈ l -> s_events s !! a = Some e -> exists e', s_events s' !! a = Some e' /\ attr e' = attr e) as Hat.
  { intros a e Hal He. pose proof (Ha a Hal) as H. rewrite He in H. destruct (s_events s' !! a) as [e'|]; [|done]. injection H as H. exists e'. unfold attr. split; [done|congruence]. }
  split.
  - intros a Hal. destruct (Hlv a (Hin a Hal)) as (e & He & Hv). destruct (Hat a e (Hin a Hal) He) as (e' & He' & Hae). exists e'. split; [done|]. unfold attr, live in *. injection Hae as E1 E2 E3 E4 E5. by rewrite E2, E3, E4, E5.
  - rewrite Hn, Hc, (n_ready_perm s _ _ Hl). symmetry. apply n_ready_ext. intros a Hal. apply ready_attr, Ha, Hin, Hal.
  - rewrite <-Hs in H1, H2. split.
    + intros a e Hal He Hsig. destruct (s_events s !! a) as [e0|] eqn:E0; [|pose proof (Ha a (Hin a Hal)) as H; by rewrite E0, He in H]. destruct (Hat a e0 (Hin a Hal) E0) as (e' & He' & Hae). rewrite He in He'. injection He' as <-. unfold attr in Hae. injection Hae as E1 E2 E3 E4 E5. rewrite E2 in *. by eapply H1; [apply Hin| |].
    + intros j es Hj. specialize (H2 j es Hj). destruct (sg_vev es) as [a|]; [|done]. destruct H2 as (Hb & Hal & e & He & Hse). destruct (Hat a e Hal He) as (e' & He' & Hae). split; [done|]. split; [by rewrite <-Hl|]. exists e'. unfold attr in Hae. injection Hae as E1 E2 E3 E4 E5. by rewrite E2.
Qed.

Lemma frame_attr s s' a : frame s s' -> attr <$> s_events s' !! a = attr <$> s_events s !! a.
Proof.
  intros Hf. pose proof (fr_events _ _ Hf) as Hm. apply (f_equal (lookup a)) in Hm. unfold erase in Hm. rewrite !lookup_fmap in Hm. apply (f_equal (fmap attr)) in Hm. destruct (s_events s !! a), (s_events s' !! a); done.
Qed.

Lemma started_lookup s a : a ∈ started s <-> exists u, cells_of s !! u = Some a.
Proof. apply elem_of_items. Qed.
Lemma started_once s u v a : hinv s -> cells_of s !! u = Some a -> cells_of s !! v = Some a -> u = v.
Proof. intros (_ & _ & Ht) Hu Hv. by rewrite <-(Ht u a Hu), <-(Ht v a Hv). Qed.
Lemma started_NoDup s : hinv s -> NoDup (started s).
Proof.
  intros Hh. unfold started, contents, items. apply NoDup_fmap_2_strong; [|apply NoDup_map_to_list]. intros [u a] [v b] Hu%elem_of_map_to_list Hv%elem_of_map_to_list Hab. cbn in Hab. subst b. by rewrite (started_once s u v a Hh Hu Hv).
Qed.

(** The event at an index, and its own knowledge of it. *)
Lemma started_event s a : heap_part s -> a ∈ started s -> exists e, s_events s !! a = Some e /\ e_magic e = true /\ cells_of s !! e_idx e = Some a /\ 0 < e_idx e < r_lpfd (s_root s) /\ r_pev (s_root s) !! Z.to_nat (e_idx e) = Some (Some a).
Proof.
  intros [_ Hh Hs _ _] (u & Hu)%started_lookup. destruct (Hs u a Hu) as [Hur (e & He & Hm & Hp & Hq)]. destruct Hh as (_ & _ & Ht). pose proof (Ht u a Hu) as Hi. unfold idx_at in Hi. rewrite He in Hi. cbn in Hi. exists e. rewrite Hi. done.
Qed.

(** ** Room for one more *)

Lemma get_pfd_ok s : room s -> r_lpfd (s_root s) < 2 ^ 30 -> r_npfd (s_root s) <= 2 ^ 31 ->
  let s' := vev_get_pfd s in
  s_events s' = s_events s /\ s_sigs s' = s_sigs s /\ heap_of s' = heap_of s /\ r_lpfd (s_root s') = r_lpfd (s_root s) /\ r_n_events (s_root s') = r_n_events (s_root s) /\ r_psig (s_root s') = r_psig (s_root s) /\
  r_lpfd (s_root s') + 1 < r_npfd (s_root s') <= 2 ^ 31 /\ length (r_pev (s_root s')) = length (r_pfd (s_root s')) /\ forall c, slots c s -> slots c s'.
Proof.
  intros [Hr Hl] Hlim Hn s'. unfold s', vev_get_pfd, r_npfd in *. rewrite wrapu_small by lia. destruct (_ + 1 <? _) eqn:E; [split_and!; (done || lia)|].
  set (n := Z.of_nat (length (r_pfd (s_root s)))) in *. set (u := if n <? 8 then _ else _). assert (r_lpfd (s_root s) + 1 < u <= 2 ^ 31) as Hu.
  { unfold u. destruct (n <? 8) eqn:E1; [lia|]. destruct (256 <? n) eqn:E2; rewrite wrapu_small by lia; lia. }
  clearbody u. cbn. rewrite !length_resize. split_and!; try done; try lia. intros c Hc v a Hv. destruct (Hc v a Hv) as [Hvr (e & He & Hm & Hp & Hq)]. split; [done|]. exists e. cbn. rewrite !lookup_resize by lia. done.
Qed.

(** ** Starting *)

(** An event but for its index. *)
Definition keeps s s' a : Prop := (fun e => set_idx e 0) <$> s_events s' !! a = (fun e => set_idx e 0) <$> s_events s !! a.
Lemma keeps_attr s s' a : keeps s s' a -> attr <$> s_events s' !! a = attr <$> s_events s !! a.
Proof. unfold keeps. intros H. apply (f_equal (fmap attr)) in H. destruct (s_events s !! a), (s_events s' !! a); done. Qed.
Lemma keeps_refl s a : keeps s s a.
Proof. done. Qed.
Lemma keeps_trans s1 s2 s3 a : keeps s1 s2 a -> keeps s2 s3 a -> keeps s1 s3 a.
Proof. unfold keeps. congruence. Qed.
Lemma frame_keeps s s' a : frame s s' -> keeps s s' a.
Proof. intros Hf. pose proof (fr_events _ _ Hf) as Hm. apply (f_equal (lookup a)) in Hm. unfold erase in Hm. by rewrite !lookup_fmap in Hm. Qed.
Lemma keeps_none s s' a : keeps s s' a -> s_events s' !! a = None <-> s_events s !! a = None.
Proof. unfold keeps. destruct (s_events s' !! a), (s_events s !! a); done. Qed.

(** What the caller of [VEV_Start] has to see to. *)
Record startable s e : Prop := {
  st_magic : e_magic e = false;
  st_callback : e_callback e = true;
  st_timeout : tlt (e_timeout e) tzero = false;
  st_fd : e_fd e < 0 \/ e_flags e <> 0;
  st_events : e_events e = 0;
  st_sig : 0 <= e_sig e;
  st_signal : 0 < e_sig e -> e_fd e < 0 /\ calloc_ok (e_sig e + 1) = true /\ sigaction_ok (e_sig e) = true /\ forall es, s_sigs s !! Z.to_nat (e_sig e) = Some es -> sg_vev es = None
}.

Lemma attr_sig s s' b eb : attr <$> s_events s' !! b = attr <$> s_events s !! b -> s_events s !! b = Some eb -> exists eb', s_events s' !! b = Some eb' /\ e_sig eb' = e_sig eb.
Proof. intros Ha Heb. rewrite Heb in Ha. destruct (s_events s' !! b) as [eb'|]; [|done]. injection Ha as _ Hsg _ _ _. by exists eb'. Qed.

(** The table of signals has room for one. *)
Lemma get_sig_ok s sig : 0 < sig -> calloc_ok (sig + 1) = true ->
  exists t, vev_get_sig calloc_ok s sig = Some (put_sigs s t) /\ (Z.to_nat sig < length t)%nat /\ (forall j es, s_sigs s !! j = Some es -> t !! j = Some es) /\ forall j es, t !! j = Some es -> s_sigs s !! j = Some es \/ s_sigs s !! j = None /\ es = no_sig.
Proof.
  intros Hs Hc. unfold vev_get_sig. destruct (sig <? _) eqn:E.
  - exists (s_sigs s). split; [by destruct s|]. split; [lia|]. auto.
  - rewrite Hc. eexists. split; [done|]. rewrite length_resize. split; [lia|]. split.
    + intros j es Hj. pose proof (lookup_lt_Some _ _ _ Hj). by rewrite lookup_resize by lia.
    + intros j es Hj. destruct (decide (j < length (s_sigs s))%nat) as [Hl|Hl].
      * rewrite lookup_resize in Hj by lia. by left.
      * right. split; [by apply lookup_ge_None; lia|]. pose proof (lookup_lt_Some _ _ _ Hj) as Hl2. rewrite length_resize in Hl2. rewrite lookup_resize_new in Hj by lia. congruence.
Qed.

Lemma start_sig_ok s s0 a e l : startable s0 e -> s_sigs s = s_sigs s0 -> sigs_ok s0 l ->
  exists t, start_sig calloc_ok s a e = Ok (0, put_sigs s t) /\
    forall s', s_sigs s' = t -> (forall b, b ∈ l -> attr <$> s_events s' !! b = attr <$> s_events s0 !! b) -> (exists e', s_events s' !! a = Some e' /\ e_sig e' = e_sig e) -> sigs_ok s' (a :: l).
Proof.
  intros Hst Hss [H1 H2]. assert (forall s' (Ha : forall b, b ∈ l -> attr <$> s_events s' !! b = attr <$> s_events s0 !! b) b eb, b ∈ l -> s_events s0 !! b = Some eb -> exists eb', s_events s' !! b = Some eb' /\ e_sig eb' = e_sig eb) as Hat by (intros s' Ha b eb Hb; apply attr_sig, Ha, Hb).
  assert (forall s' (Ha : forall b, b ∈ l -> attr <$> s_events s' !! b = attr <$> s_events s0 !! b) b eb, b ∈ l -> s_events s' !! b = Some eb -> exists eb', s_events s0 !! b = Some eb' /\ e_sig eb' = e_sig eb) as Hat2 by (intros s' Ha b eb Hb; apply attr_sig; by rewrite Ha).
  unfold start_sig. destruct (0 <? e_sig e) eqn:E.
  - destruct (st_signal _ _ Hst ltac:(lia)) as (Hfd & Hca & Hsa & Hfree). destruct (get_sig_ok s (e_sig e) ltac:(lia) Hca) as (t & -> & Hlt & Hkeep & Hold). rewrite Hss in Hkeep, Hold. rewrite assertC_true by lia. cbn [mbind outcome_bind s_sigs put_sigs].
    destruct (readC_lt t _ Hlt) as (es & Hes & ->). cbn [mbind outcome_bind]. assert (sg_vev es = None /\ sg_happened es = false) as [Hno Hhap].
    { destruct (Hold _ _ Hes) as [Ho|[_ ->]]; [|done]. pose proof (Hfree es Ho) as Hn. specialize (H2 _ _ Ho). rewrite Hn in H2. tauto. }
    rewrite Hno, Hhap, bool_decide_true by done. cbn [negb assertC mbind outcome_bind]. rewrite writeC_lt by done. cbn [mbind outcome_bind]. eexists. split; [done|]. intros s' Hs' Hb (e' & He' & Hse). unfold sigs_ok. rewrite Hs'. split.
    + intros b eb Hbl Heb Hsb. apply elem_of_cons in Hbl as [->|Hbl].
      * rewrite He' in Heb. injection Heb as <-. rewrite Hse, list_lookup_insert_eq by done. by eexists.
      * destruct (Hat2 s' Hb b eb Hbl Heb) as (eb0 & Heb0 & Hs0). rewrite <-Hs0 in *. destruct (H1 b eb0 Hbl Heb0 Hsb) as (es0 & Hes0 & Hv0). exists es0. split; [|done]. rewrite list_lookup_insert_ne; [by apply Hkeep|]. intros Heq. rewrite <-Heq in Hes0. specialize (Hfree es0 Hes0). congruence.
    + intros j es' Hj. destruct (decide (j = Z.to_nat (e_sig e))) as [->|Hne].
      * rewrite list_lookup_insert_eq in Hj by done. injection Hj as <-. cbn. split; [done|]. split; [left|]. exists e'. split; [done|]. lia.
      * rewrite list_lookup_insert_ne in Hj by done. destruct (Hold j es' Hj) as [Ho|[_ ->]]; [|done]. specialize (H2 j es' Ho). destruct (sg_vev es') as [b|]; [|done]. destruct H2 as (Hvb & Hbl & eb & Heb & Hsb & Hp). split; [done|]. split; [by right|]. destruct (Hat s' Hb b eb Hbl Heb) as (eb' & Heb' & Hs0'). exists eb'. rewrite Hs0'. done.
  - exists (s_sigs s). split; [by destruct s|]. intros s' Hs' Hb (e' & He' & Hse). rewrite Hss in Hs'. rewrite <-Hs' in H1, H2. split.
    + intros b eb Hbl Heb Hsb. apply elem_of_cons in Hbl as [->|Hbl]; [rewrite He' in Heb; injection Heb as <-; lia|]. destruct (Hat2 s' Hb b eb Hbl Heb) as (eb0 & Heb0 & Hs0). rewrite <-Hs0 in *. by eapply H1.
    + intros j es' Hj. specialize (H2 j es' Hj). destruct (sg_vev es') as [b|]; [|done]. destruct H2 as (Hvb & Hbl & eb & Heb & Hsb & Hp). split; [done|]. split; [by right|]. destruct (Hat s' Hb b eb Hbl Heb) as (eb' & Heb' & Hs0). exists eb'. rewrite Hs0. done.
Qed.

(** Setting a field the heap does not look at. *)
Lemma soft_update s a e e' : s_events s !! a = Some e -> core e' = core e -> forall b, core <$> s_events (put_event s a e') !! b = core <$> s_events s !! b.
Proof. intros He Hc b. cbn. rewrite lookup_insert. case_decide; [subst; rewrite He; cbn; by rewrite Hc|done]. Qed.
Lemma soft_heap_part s s' : (forall b, core <$> s_events s' !! b = core <$> s_events s !! b) -> heap_of s' = heap_of s -> r_pfd (s_root s') = r_pfd (s_root s) -> r_pev (s_root s') = r_pev (s_root s) -> r_lpfd (s_root s') = r_lpfd (s_root s) -> heap_part s -> heap_part s'.
Proof.
  intros Hc Hh H1 H2 H3 [Hr Hi Hs Hl Hn]. unfold room, r_npfd in *. split; unfold room, r_npfd; rewrite ?Hh, ?H1, ?H2, ?H3; try done.
  - by apply (core_hinv s); auto.
  - eapply core_slots; [done|done|lia|by intros|done].
Qed.

Lemma VEV_Start_ok s a e now : vinv s -> s_events s !! a = Some e -> startable s e -> r_lpfd (s_root s) < 2 ^ 30 ->
  exists s', VEV_Start calloc_ok sigaction_ok s a now = Ok (0, s') /\ vinv s' /\ started s' ≡ₚ a :: started s /\ r_lpfd (s_root s') = r_lpfd (s_root s) + 1 /\ r_psig (s_root s') = r_psig (s_root s) /\ (forall b, b <> a -> keeps s s' b) /\ exists e', s_events s' !! a = Some e' /\ e_events e' = 0.
Proof.
  intros [Hh Hev] He Hst Hlim. pose proof Hh as [Hroom Hi Hs Hn Hnp]. pose proof Hroom as [Hr Hl]. destruct Hev as [Hlive Hcnt Hsig]. assert (VBH_CAP = 2 ^ 32 - 131072) as HC by done.
  assert (a ∉ started s) as Hna. { intros Hin. destruct (started_event s a Hh Hin) as (e0 & He0 & Hm & _). rewrite He in He0. injection He0 as <-. by rewrite (st_magic _ _ Hst) in Hm. }
  destruct (get_pfd_ok s Hroom Hlim Hnp) as (G1 & G2 & G3 & G4 & G5 & G6 & G7 & G8 & G9). set (s1 := vev_get_pfd s) in *.
  destruct (start_sig_ok s1 s a e (started s) Hst G2 Hsig) as (t & Hrun & Hsig2). unfold VEV_Start, event_at. rewrite He. cbn [mbind outcome_bind].
  destruct Hst as [T1 T2 T3 T4 T5 T6 T7]. rewrite T1, T2, T3. rewrite !assertC_true by (done || lia). cbn [mbind outcome_bind]. fold s1. rewrite Hrun. cbn [mbind outcome_bind Z.eqb negb].
  set (e4 := set_when (set_magic e true) _). set (s3 := put_event (put_sigs s1 t) a e4). set (s4 := put_root s3 _).
  assert (forall b, b <> a -> s_events s4 !! b = s_events s !! b) as Hoth by (intros b Hb; cbn; by rewrite lookup_insert_ne, G1 by done).
  assert (s_events s4 !! a = Some e4) as He4 by (cbn; apply lookup_insert_eq).
  assert (r_lpfd (s_root s4) = r_lpfd (s_root s) + 1) as Hl4 by (cbn; rewrite G4, wrapu_small by lia; done).
  destruct (heap_insert_ok s4 a) as (s5 & -> & Hf & Hi5 & Hs5 & Hp5 & Hn5 & Hx5).
  - split; [|cbn; lia]. unfold r_npfd in *. cbn. rewrite wrapu_small by lia. lia.
  - apply (core_hinv s); [cbn; done| |done]. intros b Hb. rewrite Hoth; [done|]. by intros ->.
  - change (cells_of s4) with (cells_of s1). rewrite G3. eapply (core_slots _ s1); [done|done|cbn; rewrite wrapu_small by lia; lia| |by apply G9]. intros u b Hu. rewrite Hoth, G1; [done|]. intros ->. apply Hna, started_lookup. eauto.
  - by exists e4.
  - unfold started in *. change (heap_of s4) with (heap_of s1). by rewrite G3.
  - rewrite Hl4. change (heap_of s4) with (heap_of s1). rewrite G3. lia.
  - lia.
  - cbv [mbind outcome_bind]. destruct (frame_event _ _ a e4 Hf He4) as (e5 & He5 & Hee). unfold idx_at in Hx5. rewrite He5 in Hx5. cbn in Hx5. apply erase_fields in Hee as (E1 & E2 & E3 & E4 & E5 & E6 & E7 & E8 & E9). rewrite He5. rewrite (assertC_true (negb (e_idx e5 =? _))) by (clear - Hx5; lia). cbn [mbind outcome_bind].
    rewrite E5. change (e_sig e4) with (e_sig e). rewrite (assertC_true (negb (0 <? _) || _)) by (clear - T7; destruct (0 <? e_sig e) eqn:E; [destruct (T7 ltac:(lia)) as (_ & _ & -> & _)|]; done). cbn [mbind outcome_bind].
    set (s6 := put_event s5 a (set_vevb e5 true)). assert (started s4 = started s) as Hst4 by (unfold started; change (heap_of s4) with (heap_of s1); by rewrite G3).
    assert (forall b, b <> a -> keeps s s6 b) as Hkp. { intros b Hb. apply (keeps_trans _ s5); [|unfold keeps, s6; cbn; by rewrite lookup_insert_ne]. apply (keeps_trans _ s4); [unfold keeps; by rewrite Hoth|by apply frame_keeps]. }
    assert (s_events s6 !! a = Some (set_vevb e5 true)) as He6 by (cbn; apply lookup_insert_eq). pose proof (fr_pfd _ _ Hf) as F1. pose proof (fr_pev _ _ Hf) as F2. pose proof (fr_lpfd _ _ Hf) as F3. rewrite Hl4 in F3, Hn5. change (length (r_pfd (s_root s4))) with (length (r_pfd (s_root s1))) in F1. change (length (r_pev (s_root s4))) with (length (r_pev (s_root s1))) in F2. rewrite G4 in G7.
    exists s6. split; [done|]. split; [split|split; [|split; [exact F3|split; [|split; [done|]]]]].
    + apply (soft_heap_part s5); [by apply (soft_update s5 a e5)|done..|]. unfold r_npfd in G7. split; [|done|done|by rewrite Hn5, F3|unfold r_npfd; rewrite F1; clear - G7; lia]. split; [|by rewrite F1, F2]. unfold r_npfd. rewrite F3, F1. clear - G7 Hr. lia.
    + assert (events_ok s6 (a :: started s)) as Hev6; [|eapply (events_ok_ext s6 s6); [|done..|exact Hev6]; change (started s6) with (started s5); by rewrite Hp5, Hst4].
      split.
      * intros b Hb. destruct (decide (b = a)) as [->|Hne]; [exists (set_vevb e5 true); split; [done|]; unfold live; cbn; rewrite E7, E5, E6; do 4 (split; [done|]); intros Hp; by destruct (T7 Hp) as (_ & _ & ? & _)|]. apply elem_of_cons in Hb as [?|Hb]; [done|]. destruct (Hlive b Hb) as (eb & Heb & Hlb). pose proof (keeps_attr _ _ _ (Hkp b Hne)) as Hk. rewrite Heb in Hk. destruct (s_events s6 !! b) as [eb'|]; [|done]. exists eb'. split; [done|]. injection Hk as K1 K2 K3 K4 K5. unfold live in *. by rewrite K2, K3, K4, K5.
      * rewrite n_ready_cons. unfold ready at 1. rewrite He6. cbn [e_events set_vevb]. rewrite E4. change (e_events e4) with (e_events e). rewrite T5. cbn. rewrite (fr_n _ _ Hf). cbn. rewrite G5, Hcnt. symmetry. apply n_ready_ext. intros b Hb. apply ready_attr, keeps_attr, Hkp. by intros ->.
      * apply Hsig2; [cbn; by rewrite (fr_sigs _ _ Hf)| |by eexists]. intros b Hb. apply keeps_attr, Hkp. by intros ->.
    + change (started s6) with (started s5). by rewrite Hp5, Hst4.
    + change (r_psig (s_root s6)) with (r_psig (s_root s5)). rewrite (fr_psig _ _ Hf). exact G6.
    + eexists. split; [done|]. cbn. by rewrite E4.
Qed.
(** ** Stopping *)

Lemma stop_events_ok s a e : s_events s !! a = Some e -> (e_events e <> 0 -> 0 < r_n_events (s_root s)) ->
  exists s', stop_events s a = Ok s' /\ s_events s' = <[a := set_events e 0]> (s_events s) /\ s_sigs s' = s_sigs s /\ s_root s' = set_n_events (s_root s) (r_n_events (s_root s) - if e_events e =? 0 then 0 else 1).
Proof.
  intros He Hn. unfold stop_events, event_at. rewrite He. cbn [mbind outcome_bind]. destruct (e_events e =? 0) eqn:E.
  - exists s. split; [done|]. rewrite insert_id by (rewrite He; f_equal; destruct e; cbn in *; unfold set_events; cbn; f_equal; lia). split; [done|]. split; [done|]. rewrite Z.sub_0_r. by destruct s as [? [] ?].
  - rewrite assertC_true by lia. eexists. split; [done|]. done.
Qed.

Lemma stop_sig_ok s s0 a e l : s_events s !! a = Some e -> s_sigs s = s_sigs s0 -> a ∉ l -> (0 < e_sig e -> sigaction_ok (e_sig e) = true) -> (exists e0, s_events s0 !! a = Some e0 /\ e_sig e0 = e_sig e) -> sigs_ok s0 (a :: l) ->
  exists t, stop_sig sigaction_ok s a = Ok (put_sigs s t) /\
    forall s', s_sigs s' = t -> (forall b, b ∈ l -> attr <$> s_events s' !! b = attr <$> s_events s0 !! b) -> sigs_ok s' l.
Proof.
  intros He Hss Hna Hsa (e0 & He0 & Hse0) [H1 H2]. unfold stop_sig, event_at. rewrite He. cbn [mbind outcome_bind].
  assert (forall s' (Ha : forall b, b ∈ l -> attr <$> s_events s' !! b = attr <$> s_events s0 !! b) b eb, b ∈ l -> s_events s0 !! b = Some eb -> exists eb', s_events s' !! b = Some eb' /\ e_sig eb' = e_sig eb) as Hat by (intros s' Ha b eb Hb; apply attr_sig, Ha, Hb).
  assert (forall s' (Ha : forall b, b ∈ l -> attr <$> s_events s' !! b = attr <$> s_events s0 !! b) b eb, b ∈ l -> s_events s' !! b = Some eb -> exists eb', s_events s0 !! b = Some eb' /\ e_sig eb' = e_sig eb) as Hat2 by (intros s' Ha b eb Hb; apply attr_sig; by rewrite Ha).
  destruct (0 <? e_sig e) eqn:E.
  - destruct (H1 a e0 ltac:(left) He0 ltac:(lia)) as (es & Hes & Hv). rewrite Hse0, <-Hss in Hes. pose proof (lookup_lt_Some _ _ _ Hes) as Hlt. rewrite (assertC_true (e_sig e <? _)), (assertC_true (sigaction_ok _)) by (lia || apply Hsa; lia). cbn [mbind outcome_bind]. unfold readC. rewrite Hes. cbn [mbind outcome_bind]. rewrite Hv. rewrite (assertC_true (bool_decide _)) by (by rewrite bool_decide_true). cbn [mbind outcome_bind]. rewrite writeC_lt by done. cbn [mbind outcome_bind]. eexists. split; [done|]. intros s' Hs' Ha. rewrite Hss in *. split; rewrite Hs'.
    + intros b eb Hb Heb Hsb. destruct (Hat2 s' Ha b eb Hb Heb) as (eb0 & Heb0 & Hsb0). rewrite <-Hsb0 in *. destruct (H1 b eb0 ltac:(by right) Heb0 Hsb) as (es1 & Hes1 & Hv1). exists es1. split; [|done]. rewrite list_lookup_insert_ne; [done|]. intros Heq. rewrite <-Heq, Hes in Hes1. injection Hes1 as <-. rewrite Hv in Hv1. by injection Hv1 as <-.
    + intros j es1 Hj. destruct (decide (j = Z.to_nat (e_sig e))) as [->|Hne]; [rewrite list_lookup_insert_eq in Hj by done; by injection Hj as <-|]. rewrite list_lookup_insert_ne in Hj by done. specialize (H2 j es1 Hj). destruct (sg_vev es1) as [b|]; [|done]. destruct H2 as (Hvb & Hbl & eb & Heb & Hsb & Hp). split; [done|]. apply elem_of_cons in Hbl as [->|Hbl]; [rewrite He0 in Heb; injection Heb as <-; lia|]. split; [done|]. destruct (Hat s' Ha b eb Hbl Heb) as (eb' & Heb' & Hse'). exists eb'. by rewrite Hse'.
  - exists (s_sigs s). split; [by destruct s|]. intros s' Hs' Ha. rewrite Hss in Hs'. split; rewrite Hs'.
    + intros b eb Hb Heb Hsb. destruct (Hat2 s' Ha b eb Hb Heb) as (eb0 & Heb0 & Hsb0). rewrite <-Hsb0 in *. eapply H1; [by right|done|done].
    + intros j es1 Hj. specialize (H2 j es1 Hj). destruct (sg_vev es1) as [b|]; [|done]. destruct H2 as (Hvb & Hbl & eb & Heb & Hsb & Hp). split; [done|]. apply elem_of_cons in Hbl as [->|Hbl]; [rewrite He0 in Heb; injection Heb as <-; lia|]. split; [done|]. destruct (Hat s' Ha b eb Hbl Heb) as (eb' & Heb' & Hse'). exists eb'. by rewrite Hse'.
Qed.

(** The heap forgets the event. *)
Lemma stop_heap_ok s a e : heap_part s -> s_events s !! a = Some e -> cells_of s !! e_idx e = Some a -> r_lpfd (s_root s) < VBH_CAP -> e_magic e = true ->
  let s1 := put_event s a (set_fd e (-1)) in
  exists s2, heap_delete s1 (e_idx e) = Ok s2 /\ frame s1 s2 /\ hinv s2 /\ slots (cells_of s2) s2 /\ started s ≡ₚ a :: started s2 /\ h_next (heap_of s2) = r_lpfd (s_root s) - 1 /\ idx_at s2 a = VBH_NOIDX.
Proof.
  intros [Hroom Hi Hs Hn Hnp] He Hcell Hcap Hm s1. assert (forall b, b <> a -> s_events s1 !! b = s_events s !! b) as Hoth by (intros b Hb; cbn; by rewrite lookup_insert_ne). rewrite <-Hn.
  change (heap_of s) with (heap_of s1). change (started s) with (started s1). apply (heap_delete_ok s1 (e_idx e) a); [done| | |exists (set_fd e (-1)); split; [cbn; apply lookup_insert_eq|done]|done|cbn; lia|done].
  - apply (core_but s s1 _ a); [done|done| | |done]; [intros b _ Hb; by rewrite Hoth|]. unfold idx_at. cbn. by rewrite lookup_insert_eq, He.
  - apply (core_slots _ s); [done|done|cbn; lia| |intros u b [_ Hu]%lookup_delete_Some; by apply Hs]. intros v c [Hv Hc]%lookup_delete_Some. rewrite Hoth; [done|]. intros ->. apply Hv. by eapply started_once.
Qed.

Lemma VEV_Stop_ok s a : vinv s -> a ∈ started s -> r_lpfd (s_root s) < VBH_CAP ->
  exists s', VEV_Stop sigaction_ok s a = Ok s' /\ vinv s' /\ started s ≡ₚ a :: started s' /\ r_lpfd (s_root s') = r_lpfd (s_root s) - 1 /\ r_psig (s_root s') = r_psig (s_root s) /\ forall b, b <> a -> keeps s s' b.
Proof.
  intros [Hh Hev] Ha Hcap. destruct (started_event s a Hh Ha) as (e & He & Hm & Hcell & Hidx & Hpev). pose proof Hh as [Hroom Hi Hs Hn Hnp]. pose proof Hroom as [Hr Hl]. destruct Hev as [Hlive Hcnt Hsig]. destruct (Hlive a Ha) as (e0 & He0 & L1 & L2 & L3 & L4 & L5). rewrite He in He0. injection He0 as <-.
  unfold VEV_Stop, check_event, event_at. rewrite He. cbn [mbind outcome_bind]. rewrite Hm. cbn [assertC mbind outcome_bind]. rewrite L1. cbn [assertC mbind outcome_bind]. unfold readC. rewrite Hpev. cbn [mbind outcome_bind]. rewrite (assertC_true (bool_decide _)), (assertC_true (negb _)) by (by rewrite bool_decide_true || (clear - Hidx; unfold VBH_NOIDX; lia)). cbn [mbind outcome_bind].
  destruct (stop_heap_ok s a e Hh He Hcell Hcap Hm) as (s2 & -> & Hf & Hi2 & Hs2 & Hp2 & Hn2 & Hx2). set (s1 := put_event s a (set_fd e (-1))) in *. cbv [mbind outcome_bind].
  assert (s_events s1 !! a = Some (set_fd e (-1))) as He1 by (cbn; apply lookup_insert_eq). destruct (frame_event _ _ a _ Hf He1) as (e2 & He2 & Hee). apply erase_fields in Hee as (E1 & E2 & E3 & E4 & E5 & E6 & E7 & E8 & E9). unfold idx_at in Hx2. rewrite He2 in *. cbn in Hx2, E4, E5. rewrite (assertC_true (e_idx e2 =? _)) by (clear - Hx2; lia).
  assert (a ∉ started s2) as Hna. { pose proof (started_NoDup s Hi) as Hnd. rewrite Hp2 in Hnd. by apply NoDup_cons in Hnd as [? _]. }
  set (s3 := put_root s2 _). assert (forall b, b <> a -> keeps s s2 b) as Hkp. { intros b Hb. apply (keeps_trans _ s1); [unfold keeps; cbn; by rewrite lookup_insert_ne|by apply frame_keeps]. }
  assert (n_ready s (a :: started s2) = r_n_events (s_root s3)) as Hn3 by (cbn; rewrite (fr_n _ _ Hf); cbn; rewrite Hcnt; symmetry; by apply n_ready_perm). rewrite n_ready_cons in Hn3. unfold ready in Hn3 at 1. rewrite He in Hn3. pose proof (n_ready_nonneg s (started s2)) as Hnn.
  destruct (stop_events_ok s3 a e2 He2) as (s4 & -> & A1 & A2 & A3); [rewrite E4; clear - Hn3 Hnn; destruct (e_events e =? 0) eqn:E; cbn in *; lia|].
  assert (s_events s4 !! a = Some (set_events e2 0)) as He4 by (rewrite A1; apply lookup_insert_eq).
  destruct (stop_sig_ok s4 s a _ (started s2) He4) as (t & -> & Ht); [rewrite A2; cbn; apply (fr_sigs _ _ Hf)|done|cbn; by rewrite E5|exists e; split; [done|cbn; by rewrite E5]|destruct Hsig as [H1 H2]; split|].
  { intros b eb Hb. apply H1. by rewrite Hp2. }
  { intros j es Hj. specialize (H2 j es Hj). destruct (sg_vev es); [|done]. by rewrite <-Hp2. }
  cbn [s_events put_sigs]. rewrite He4. eexists. split; [done|]. set (s6 := put_event (put_sigs s4 t) a _).
  assert (forall b, b <> a -> s_events s6 !! b = s_events s2 !! b) as Hoth6 by (intros b Hb; cbn; rewrite lookup_insert_ne, A1, lookup_insert_ne by done; done).
  assert (forall b, b <> a -> keeps s s6 b) as Hkp6 by (intros b Hb; apply (keeps_trans _ s2); [auto|unfold keeps; by rewrite Hoth6]).
  assert (s_root s6 = set_n_events (s_root s3) (n_ready s (started s2))) as Hr6. { cbn. rewrite A3. f_equal. rewrite E4. clear - Hn3. cbn in *. destruct (e_events e =? 0); cbn in *; lia. }
  pose proof (fr_pfd _ _ Hf) as F1. pose proof (fr_pev _ _ Hf) as F2. pose proof (fr_lpfd _ _ Hf) as F3. change (r_pfd (s_root s1)) with (r_pfd (s_root s)) in F1. change (r_pev (s_root s1)) with (r_pev (s_root s)) in F2. change (r_lpfd (s_root s1)) with (r_lpfd (s_root s)) in F3.
  assert (0 < e_idx e < h_next (heap_of s)) as Hne by (destruct Hi as (Hwf & _); destruct (wf_live _ _ (heap_of s) _ a Hwf Hcell) as [Hx _]; clear - Hx; lia).
  assert (r_lpfd (s_root s6) = r_lpfd (s_root s) - 1) as Hl6. { rewrite Hr6. cbn. rewrite F3. clear - Hr Hcap Hne Hn. assert (VBH_CAP < 2 ^ 32) by done. apply wrapu_small. lia. }
  assert (heap_of s6 = heap_of s2) as Hh6 by (by rewrite Hr6). assert (started s6 = started s2) as Hst6 by (unfold started; by rewrite Hh6).
  split; [split|rewrite Hst6; split; [done|]; split; [exact Hl6|]; split; [rewrite Hr6; exact (fr_psig _ _ Hf)|done]].
  - assert (r_pfd (s_root s6) = r_pfd (s_root s2) /\ r_pev (s_root s6) = r_pev (s_root s2)) as [Q1 Q2] by (by rewrite Hr6).
    assert (forall b, b ∈ started s2 -> core <$> s_events s6 !! b = core <$> s_events s2 !! b) as Hc6 by (intros b Hb; rewrite Hoth6; [done|by intros ->]).
    split; unfold room, r_npfd in *; rewrite ?Q1, ?Q2, ?Hl6, ?Hh6, ?F1, ?F2; [|by apply (core_hinv s2)| |done|done].
    + split; [|done]. clear - Hr Hne Hn. lia.
    + intros u b Hu. assert (b ∈ started s2) as Hb by (apply started_lookup; eauto). destruct (core_slots (cells_of s2) (put_root s2 (s_root s2)) (put_root s6 (set_lpfd (s_root s6) (r_lpfd (s_root s2))))) with u b as [_ (eb & Hpl)]; [by rewrite Hr6..|rewrite Hr6; cbn; clear; lia|intros v c Hc; apply Hc6, started_lookup; eauto|exact Hs2|done|]. split; [|by exists eb]. destruct Hi2 as (Hwf & _). destruct (wf_live _ _ (heap_of s2) u b Hwf Hu) as [Hu2 _]. rewrite Hl6. clear - Hu2 Hn2. lia.
  - rewrite Hst6. assert (forall b, b ∈ started s2 -> attr <$> s_events s6 !! b = attr <$> s_events s !! b) as Ha6 by (intros b Hb; apply keeps_attr, Hkp6; by intros ->). split.
    + intros b Hb. destruct (Hlive b) as (eb & Heb & Hlb); [rewrite Hp2; by right|]. specialize (Ha6 b Hb). rewrite Heb in Ha6. destruct (s_events s6 !! b) as [eb'|]; [|done]. exists eb'. split; [done|]. injection Ha6 as K1 K2 K3 K4 K5. unfold live in *. by rewrite K2, K3, K4, K5.
    + rewrite Hr6. cbn. symmetry. apply n_ready_ext. intros b Hb. by apply ready_attr, Ha6.
    + by apply Ht.
Qed.
End spec.
