(* ===== verification/VevLoop.v ===== *)
(** * The loop of vev.c

    What VEV_Once asks of its surroundings, and what it gives for it: no
    assertion fails, each event that poll found is handed to its callback once,
    and the loop over the events ends.  Events of all kinds are started and
    stopped in any order; what a signal leaves behind is shown at the end. *)

From Stdlib Require Import ZArith Lia ZifyBool.
From stdpp Require Import base option numbers list gmap.
From S2P Require Import Prelude Vbh VbhShape VbhHeap VbhSpec Vev VevSpec.
#[local] Open Scope Z_scope.

Section tidy.
Context {T : Type} `{!Time T} (calloc_ok sigaction_ok : Z -> bool).
Implicit Types (s : vstate T) (a u : Z) (e : vev T).

(** Between two calls, when no other event is allocated than those that are
    started. *)
Record tidy s : Prop := { td_inv : vinv sigaction_ok s; td_all : forall a, is_Some (s_events s !! a) -> a ∈ started s }.
(** The events there are. *)
Definition addrs s : gset Z := dom (s_events s).
(** The events an event has that poll found. *)
Definition found s a : Z := default 0 (e_events <$> s_events s !! a).

Lemma started_addrs s a : tidy s -> a ∈ started s <-> a ∈ addrs s.
Proof.
  intros Ht. unfold addrs. rewrite elem_of_dom. split; [|apply Ht]. intros Ha. destruct Ht as [[Hh _] _]. destruct (started_event s a Hh Ha) as (e & He & _). by exists e.
Qed.
Lemma cells_size n (c : gmap Z Z) : 1 <= n -> cells_ok n c -> Z.of_nat (size c) = n - 1.
Proof.
  intros Hn Hc. rewrite <-size_dom. assert (dom c = list_to_set (seqZ 1 (n - 1))) as ->.
  { apply leibniz_equiv. intros x. rewrite elem_of_dom, elem_of_list_to_set, elem_of_seqZ, (Hc x). lia. }
  rewrite size_list_to_set by apply NoDup_seqZ. rewrite length_seqZ. lia.
Qed.
Lemma lpfd_size s : tidy s -> r_lpfd (s_root s) = Z.of_nat (size (addrs s)) + 1.
Proof.
  intros Ht. pose proof (fun a => started_addrs s a Ht) as Hs. destruct Ht as [[[Hr Hi _ Hn _] _] _]. pose proof (started_NoDup s Hi) as Hnd. destruct Hi as (Hwf & _).
  assert (addrs s = list_to_set (started s)) as -> by (apply leibniz_equiv; intros x; by rewrite elem_of_list_to_set, Hs). rewrite size_list_to_set by done. unfold started, contents, items in *. rewrite length_fmap in *.
  rewrite length_map_to_list, (cells_size (h_next (heap_of s))); [lia|destruct (wf_next _ _ _ Hwf); lia|apply (wf_cells _ _ _ Hwf)].
Qed.
Lemma keeps_found s s' a : keeps s s' a -> found s' a = found s a.
Proof. unfold keeps, found. intros H. apply (f_equal (fmap e_events)) in H. destruct (s_events s !! a), (s_events s' !! a); cbn in *; congruence. Qed.
Lemma keeps_some s s' a : keeps s s' a -> is_Some (s_events s' !! a) <-> is_Some (s_events s !! a).
Proof. unfold keeps, is_Some. destruct (s_events s !! a), (s_events s' !! a); intros H; try done; split; eauto. Qed.

(** An event that a callback may start. *)
Record plain e : Prop := {
  pl_magic : e_magic e = false;
  pl_callback : e_callback e = true;
  pl_timeout : tlt (e_timeout e) tzero = false;
  pl_fd : e_fd e < 0 \/ e_flags e <> 0;
  pl_events : e_events e = 0;
  pl_sig : e_sig e = 0
}.
Lemma plain_startable s e : plain e -> startable calloc_ok sigaction_ok s e.
Proof. intros []. split; try done; lia. Qed.

(** ** What a callback does *)

Lemma start_ok s a e now : tidy s -> a ∉ addrs s -> startable calloc_ok sigaction_ok s e -> r_lpfd (s_root s) < 2 ^ 30 ->
  exists s', VEV_Start calloc_ok sigaction_ok (put_event s a e) a now = Ok (0, s') /\ tidy s' /\ addrs s' = {[a]} ∪ addrs s /\ r_psig (s_root s') = r_psig (s_root s) /\ found s' a = 0 /\ forall b, b <> a -> keeps s s' b.
Proof.
  intros Ht Ha He Hl. assert (a ∉ started s) as Hna by (by rewrite started_addrs). destruct Ht as [[Hh Hev] Hall]. set (s1 := put_event s a e).
  assert (forall b, b <> a -> s_events s1 !! b = s_events s !! b) as Hoth by (intros b Hb; cbn; by rewrite lookup_insert_ne). assert (vinv sigaction_ok s1) as Hv1.
  { pose proof Hh as [Hr Hi Hs Hn Hnp]. assert (forall b, b ∈ started s -> s_events s1 !! b = s_events s !! b) as Hst by (intros b Hb; apply Hoth; by intros ->). split.
    - split; [done| | |done|done]; [apply (core_hinv s); [done| |done]; intros b Hb; by rewrite Hst|]. eapply (core_slots _ s); [done|done|done| |done]. intros u b Hu. rewrite Hst; [done|]. apply started_lookup. eauto.
    - eapply (events_ok_ext _ s s1); [|intros b Hb; by rewrite Hst|done..]. done. }
  destruct (VEV_Start_ok calloc_ok sigaction_ok s1 a e now Hv1) as (s' & Hrun & Hv' & Hp & Hlp & Hps & Hk & e' & He' & Hz); [cbn; apply lookup_insert_eq|by destruct He|done|].
  assert (forall b, b <> a -> keeps s s' b) as Hks by (intros b Hb; apply (keeps_trans _ s1); [unfold keeps; by rewrite Hoth|auto]).
  exists s'. split; [done|]. split; [split; [done|]|split; [|split; [done|split; [|done]]]].
  - intros b Hb. rewrite Hp. destruct (decide (b = a)) as [->|Hne]; [left|right]. change (started s1) with (started s). apply Hall. by apply (keeps_some _ _ _ (Hks b Hne)).
  - apply leibniz_equiv. intros b. unfold addrs. rewrite elem_of_union, elem_of_singleton, !elem_of_dom. destruct (decide (b = a)) as [->|Hne]; [rewrite He'; split; eauto|]. rewrite (keeps_some _ _ _ (Hks b Hne)). tauto.
  - unfold found. rewrite He'. by cbn.
Qed.

Lemma drop_ok s a : tidy s -> a ∈ addrs s -> r_lpfd (s_root s) < 2 ^ 30 ->
  exists s', drop_event sigaction_ok s a = Ok s' /\ tidy s' /\ addrs s' = addrs s ∖ {[a]} /\ r_psig (s_root s') = r_psig (s_root s) /\ found s' a = 0 /\ forall b, b <> a -> keeps s s' b.
Proof.
  intros Ht Ha Hl. assert (VBH_CAP = 2 ^ 32 - 131072) as HC by done. rewrite <-(started_addrs s a Ht) in Ha. destruct Ht as [Hv Hall]. destruct (VEV_Stop_ok sigaction_ok s a Hv Ha) as (s1 & Hrun & Hv1 & Hp & Hlp & Hps & Hk); [lia|].
  assert (a ∉ started s1) as Hna. { destruct Hv as [[_ Hi _ _ _] _]. pose proof (started_NoDup s Hi) as Hnd. rewrite Hp in Hnd. by apply NoDup_cons in Hnd as [? _]. }
  unfold drop_event. rewrite Hrun. cbn [mbind outcome_bind]. set (s' := free_event s1 a). assert (forall b, b <> a -> s_events s' !! b = s_events s1 !! b) as Hoth by (intros b Hb; cbn; by rewrite lookup_delete_ne).
  assert (forall b, b ∈ started s1 -> s_events s' !! b = s_events s1 !! b) as Hst by (intros b Hb; apply Hoth; by intros ->). assert (forall b, b <> a -> keeps s s' b) as Hks by (intros b Hb; apply (keeps_trans _ s1); [auto|unfold keeps; by rewrite Hoth]).
  exists s'. split; [done|]. split; [split|split; [|split; [done|split; [|done]]]].
  - destruct Hv1 as [[Hr Hi Hs Hn Hnp] Hev]. split.
    + split; [done| | |done|done]; [apply (core_hinv s1); [done| |done]; intros b Hb; by rewrite Hst|]. eapply (core_slots _ s1); [done|done|done| |done]. intros u b Hu. rewrite Hst; [done|]. apply started_lookup. eauto.
    + eapply (events_ok_ext _ s1 s'); [|intros b Hb; by rewrite Hst|done..]. done.
  - intros b Hb. destruct (decide (b = a)) as [->|Hne]; [cbn in Hb; rewrite lookup_delete_eq in Hb; by destruct Hb|]. apply (keeps_some _ _ _ (Hks b Hne)) in Hb. apply Hall in Hb. rewrite Hp in Hb. apply elem_of_cons in Hb as [?|Hb]; [done|exact Hb].
  - apply leibniz_equiv. intros b. unfold addrs. rewrite elem_of_difference, elem_of_singleton, !elem_of_dom. destruct (decide (b = a)) as [->|Hne]; [cbn; rewrite lookup_delete_eq; split; [by intros []|tauto]|]. rewrite (keeps_some _ _ _ (Hks b Hne)). tauto.
  - unfold found. cbn. by rewrite lookup_delete_eq.
Qed.

(** Writing the events of a started event, with their count. *)
Lemma mark_ok s a e k : tidy s -> s_events s !! a = Some e ->
  let s' := put_root (put_event s a (set_events e k)) (set_n_events (s_root s) (r_n_events (s_root s) - (if e_events e =? 0 then 0 else 1) + if k =? 0 then 0 else 1)) in
  tidy s' /\ addrs s' = addrs s /\ found s' a = k /\ forall b, b <> a -> s_events s' !! b = s_events s !! b.
Proof.
  intros Ht He s'. assert (forall b, b <> a -> s_events s' !! b = s_events s !! b) as Hoth by (intros b Hb; cbn; by rewrite lookup_insert_ne).
  assert (addrs s' = addrs s) as Had. { unfold addrs. cbn. rewrite dom_insert_L. assert (a ∈ dom (s_events s)) by (apply elem_of_dom; eauto). set_solver. }
  split; [|split; [done|split; [unfold found; cbn; by rewrite lookup_insert_eq|done]]]. pose proof (proj2 (started_addrs s a Ht) ltac:(by apply elem_of_dom)) as Ha. destruct Ht as [[Hh [Hlive Hcnt [H1 H2]]] Hall]. pose proof Hh as [_ Hi _ _ _]. split; [split|].
  - apply (soft_heap_part s); [|done..]. by apply (soft_update s a e).
  - change (started s') with (started s). destruct (Hlive a Ha) as (e0 & He0 & Hl0). rewrite He in He0. injection He0 as <-. split.
    + intros b Hb. destruct (decide (b = a)) as [->|Hne]; [|rewrite Hoth by done; auto]. exists (set_events e k). split; [cbn; apply lookup_insert_eq|]. exact Hl0.
    + cbn. rewrite Hcnt. destruct (elem_of_Permutation (started s) a) as [Hpm _]. destruct (Hpm Ha) as [l Hl]. rewrite !(n_ready_perm _ _ _ Hl), !n_ready_cons. pose proof (started_NoDup s Hi) as Hnd. rewrite Hl in Hnd. apply NoDup_cons in Hnd as [Hna _].
      rewrite (n_ready_ext s s' l) by (intros b Hb; unfold ready; rewrite Hoth; [done|by intros ->]). unfold ready. cbn. rewrite He, lookup_insert_eq. cbn. destruct (e_events e =? 0), (k =? 0); cbn; lia.
    + split.
      * intros b eb Hb Heb Hsb. destruct (decide (b = a)) as [->|Hne]; [|rewrite Hoth in Heb by done; by eapply H1]. cbn in Heb. rewrite lookup_insert_eq in Heb. injection Heb as <-. by eapply (H1 a e).
      * intros j es Hj. specialize (H2 j es Hj). destruct (sg_vev es) as [b|]; [|done]. destruct H2 as (Hvb & Hbl & eb & Heb & Hsb). split; [done|]. split; [done|]. destruct (decide (b = a)) as [->|Hne]; [|exists eb; by rewrite Hoth]. rewrite He in Heb. injection Heb as <-. exists (set_events e k). split; [cbn; apply lookup_insert_eq|done].
  - intros b Hb. change (started s') with (started s). destruct (decide (b = a)) as [->|Hne]; [done|]. apply Hall. by rewrite <-Hoth.
Qed.
Lemma size_add (A : gset Z) b : b ∉ A -> size ({[b]} ∪ A) = S (size A).
Proof. intros Hb. rewrite size_union by set_solver. by rewrite size_singleton. Qed.
Lemma size_drop (A : gset Z) b : (size (A ∖ {[b]}) <= size A)%nat.
Proof. apply subseteq_size. set_solver. Qed.

Lemma event_at_ok s a e : s_events s !! a = Some e -> event_at s a = Ok e.
Proof. unfold event_at. by intros ->. Qed.
Lemma found_none s b : b ∉ addrs s -> found s b = 0.
Proof. unfold addrs. intros Hb. apply not_elem_of_dom in Hb. unfold found. by rewrite Hb. Qed.


(** The events that are to be served. *)
Definition waiting s : gset Z := filter (fun b => found s b <> 0) (addrs s).
Lemma elem_of_waiting s b : b ∈ waiting s <-> found s b <> 0.
Proof. unfold waiting. rewrite elem_of_filter. split; [by intros []|]. intros Hb. split; [done|]. destruct (decide (b ∈ addrs s)) as [|Hn]; [done|]. by rewrite (found_none s b Hn) in Hb. Qed.
Lemma n_events_waiting s : tidy s -> r_n_events (s_root s) = Z.of_nat (size (waiting s)).
Proof.
  intros Ht. pose proof (fun a => started_addrs s a Ht) as Hs. destruct Ht as [[[_ Hi _ _ _] [_ -> _]] _]. pose proof (started_NoDup s Hi) as Hnd. unfold n_ready.
  assert (waiting s = list_to_set (filter (fun a => ready s a = true) (started s))) as ->.
  { apply leibniz_equiv. intros b. rewrite elem_of_list_to_set, list_elem_of_filter. unfold waiting. rewrite elem_of_filter, <-Hs. apply and_iff_compat_r. unfold ready, found. destruct (s_events s !! b); cbn; lia. }
  rewrite size_list_to_set; [done|]. by apply NoDup_filter.
Qed.
Lemma at_index s u : tidy s -> 1 <= u < r_lpfd (s_root s) -> exists a e, r_pev (s_root s) !! Z.to_nat u = Some (Some a) /\ s_events s !! a = Some e /\ e_idx e = u /\ a ∈ addrs s.
Proof.
  intros [[[_ Hi Hs Hn _] _] _] Hu. destruct Hi as (Hwf & _ & Ht). destruct (proj2 (wf_cells _ _ _ Hwf u)) as [a Ha]; [lia|]. destruct (Hs u a Ha) as [_ (e & He & _ & Hp & _)]. exists a, e. split; [done|]. split; [done|]. split; [|apply elem_of_dom; eauto]. pose proof (Ht u a Ha) as Hx. unfold idx_at in Hx. by rewrite He in Hx.
Qed.
Lemma index_of s a : tidy s -> a ∈ addrs s -> 1 <= idx_at s a < r_lpfd (s_root s) /\ r_pev (s_root s) !! Z.to_nat (idx_at s a) = Some (Some a).
Proof.
  intros Ht Ha. rewrite <-(started_addrs s a Ht) in Ha. destruct Ht as [[Hh _] _]. destruct (started_event s a Hh Ha) as (e & He & _ & _ & Hx & Hp). unfold idx_at. rewrite He. cbn. split; [lia|done].
Qed.

(** Nothing is left to serve. *)
Lemma idle_found s b : tidy s -> r_n_events (s_root s) = 0 -> found s b = 0.
Proof.
  intros Ht Hz. pose proof (n_events_waiting s Ht) as Hc. destruct (decide (found s b = 0)) as [|Hb]; [done|]. apply elem_of_waiting in Hb. rewrite Hz in Hc. assert (waiting s = ∅) as Hw0 by (apply leibniz_equiv, size_empty_inv; lia). rewrite Hw0 in Hb. set_solver.
Qed.
Lemma found_idle s : tidy s -> (forall b, found s b = 0) -> r_n_events (s_root s) = 0.
Proof. intros Ht Hf. rewrite (n_events_waiting s Ht). assert (waiting s = ∅) as ->; [|by rewrite size_empty]. apply leibniz_equiv. intros b. rewrite elem_of_waiting. split; [|set_solver]. intros Hb. by destruct (Hb (Hf b)). Qed.

(** ** A new root *)

Lemma new_ok k : 2 <= k <= 19 -> exists r, VEV_New (T:=T) (2 ^ (k + 3)) = Ok r /\ let s := mk_vstate ∅ r [] in tidy s /\ addrs s = ∅ /\ r_n_events r = 0 /\ r_psig r = 0.
Proof.
  intros Hk. unfold VEV_New. destruct (vbh_new_ok (A:=Z) (P:=vstate T) (fun a b => tlt (when_of ∅ a) (when_of ∅ b)) idx_at (mk_vstate ∅ (mk_root 0 [] [] 1 (mk_vbh [] ∅ 0 0 0 0 0) 0) []) k Hk) as (bh & -> & Hc & Hok). cbn [mbind outcome_bind]. eexists. split; [done|]. match goal with |- tidy ?x /\ _ => set (s := x) end. pose proof Hok as (Hwf & _ & _).
  assert (cells_of s = ∅) as Hce by (by apply items_nil). assert (h_next (heap_of s) = 1) as Hn. { pose proof (wf_cells _ _ _ Hwf) as Hcl. pose proof (wf_next _ _ _ Hwf) as Hn. change (heap_of s) with bh in *. destruct (decide (h_next bh = 1)) as [|Hne]; [done|]. destruct (proj2 (Hcl 1)) as [x Hx]; [lia|]. by rewrite Hce in Hx. }
  assert (started s = []) as Hst by exact Hc. split; [split; [split|]|done].
  - split; [done| |by rewrite Hce|done|done]. unfold hinv. eapply heap_ok_ext; [| |exact Hok]; intros a; change (contents _) with (started s); rewrite Hst; intros; by destruct (not_elem_of_nil a).
  - rewrite Hst. split; [intros a Ha; by destruct (not_elem_of_nil a)|done|split; [intros a e Ha; by destruct (not_elem_of_nil a)|done]].
  - intros a [? Ha]. done.
Qed.

(** ** The first event, and the end *)

(** The timer that is due first. *)
Definition first s a : Prop := a ∈ addrs s /\ forall b, b ∈ addrs s -> tlt (when_of (s_events s) b) (when_of (s_events s) a) = false.
Lemma root_ok s : tidy s -> exists r, VBH_root (heap_of s) = Ok r /\
  match r with None => True | Some a => first s a /\ exists e, s_events s !! a = Some e /\ e_magic e = true /\ e_idx e = 1 end.
Proof.
  intros Ht. pose proof (fun a => started_addrs s a Ht) as Hs. destruct Ht as [[Hh _] _]. pose proof Hh as [_ Hi _ _ _]. destruct (vbh_root_first parent child VBH_UINT_MAX pages_ok Pf (vev_bh_cmp s) idx_at (heap_of s) s Hi) as (r & Hr & Hrest). exists r. split; [done|]. destruct r as [a|]; [|done]. destruct Hrest as [Ha Hf].
  split; [split; [by apply Hs|]; intros b Hb; apply Hf; by apply Hs in Hb|]. destruct (started_event s a Hh Ha) as (e & He & Hm & _). exists e. split; [done|]. split; [done|]. destruct Hi as (Hwf & _ & Ht). pose proof (wf_next _ _ (heap_of s) Hwf) as Hn.
  assert (1 < h_length (heap_of s)) as Hlen. { destruct (wf_rows _ _ (heap_of s) Hwf) as (k & m & _ & Hk & Hl & _). assert (ROW_WIDTH = 65536) by done. lia. }
  unfold VBH_root in Hr. change ROOT_IDX with 1 in Hr. rewrite A_get_ok in Hr by (apply Hwf || lia). injection Hr as Hr. pose proof (Ht 1 a Hr) as Hx. unfold idx_at in Hx. by rewrite He in Hx.
Qed.

Lemma root_empty s : tidy s -> VBH_root (heap_of s) = Ok None -> addrs s = ∅.
Proof.
  intros Ht Hr. pose proof (fun a => started_addrs s a Ht) as Hs. destruct Ht as [[[_ Hi _ _ _] _] _]. destruct (vbh_root_first parent child VBH_UINT_MAX pages_ok Pf (vev_bh_cmp s) idx_at (heap_of s) s Hi) as (r & Hr' & Hrest). rewrite Hr in Hr'. injection Hr' as <-.
  apply leibniz_equiv. intros a. rewrite <-Hs. unfold started. rewrite Hrest. set_solver.
Qed.
Lemma destroy_empty s : tidy s -> addrs s = ∅ -> exists rows, VBH_destroy (heap_of s) = Ok rows.
Proof.
  intros Ht He. pose proof (fun a => started_addrs s a Ht) as Hs. destruct Ht as [[[_ Hi _ _ _] _] _]. destruct (vbh_destroy_ok VBH_UINT_MAX pages_ok Pf (vev_bh_cmp s) idx_at (heap_of s) s Hi) as [_ Hd]. destruct Hd as (rows & Hd & _); [|by exists rows].
  apply elem_of_nil_inv. intros a Ha. apply Hs in Ha. rewrite He in Ha. set_solver.
Qed.

(** Destroying the base stops and frees every event that is left, and then
    the heap; the loop ends after as many rounds as there are events. *)
Theorem VEV_Destroy_ok n : forall s, tidy s -> r_lpfd (s_root s) < 2 ^ 30 -> (size (addrs s) <= n)%nat -> exists rows, VEV_Destroy sigaction_ok n s = Ok (∅, rows).
Proof.
  induction n as [|n IH]; intros s Ht Hl Hn; destruct (root_ok s Ht) as (r & Hr & Hroot); cbn [VEV_Destroy]; rewrite Hr; cbn [mbind outcome_bind]; destruct r as [a|].
  1: { destruct Hroot as [[Ha _] _]. assert (addrs s = ∅) as He by (apply leibniz_equiv, size_empty_inv; lia). rewrite He in Ha. set_solver. }
  1,3: pose proof (root_empty s Ht Hr) as He; destruct (destroy_empty s Ht He) as [rows Hd]; rewrite Hd; cbn [mbind outcome_bind]; exists rows; do 2 f_equal; by apply dom_empty_inv_L.
  destruct Hroot as [[Ha _] _]. destruct (drop_ok s a Ht Ha Hl) as (s' & Hrun & Ht' & Hd' & _). unfold drop_event in Hrun. destruct (VEV_Stop sigaction_ok s a) as [s2|]; [|done]. cbn [mbind outcome_bind] in *. injection Hrun as Hrun. rewrite Hrun.
  assert (size (addrs s') < size (addrs s))%nat as Hlt by (rewrite Hd'; apply subset_size; set_solver). pose proof (lpfd_size s Ht). pose proof (lpfd_size s' Ht'). apply IH; [done|lia|lia].
Qed.

(** ** Callbacks *)

Context (LIM : Z) (Hlim : LIM < 2 ^ 30).

(** The events that are there after what a callback does, and what it may do
    while the event [a] is being served. *)
Fixpoint after (A : gset Z) (l : list (vop (T:=T))) : gset Z :=
  match l with [] => A | Start b _ :: l => after ({[b]} ∪ A) l | Stop b :: l => after (A ∖ {[b]}) l end.
Fixpoint allowed a (A : gset Z) (l : list (vop (T:=T))) : Prop :=
  match l with
  | [] => True
  | Start b e :: l => b ∉ A /\ plain e /\ Z.of_nat (size A) + 1 < LIM /\ allowed a ({[b]} ∪ A) l
  | Stop b :: l => b ∈ A /\ b <> a /\ allowed a (A ∖ {[b]}) l
  end.

(** What may be done between two turns. *)
Definition target (o : vop (T:=T)) : Z := match o with Start b _ => b | Stop b => b end.
Definition may (A : gset Z) (o : vop (T:=T)) : Prop := match o with Start b e => b ∉ A /\ plain e /\ Z.of_nat (size A) + 1 < LIM | Stop b => b ∈ A end.
(** The same in a state, with signals. *)
Definition fits s (o : vop (T:=T)) : Prop :=
  match o with Start b e => b ∉ addrs s /\ startable calloc_ok sigaction_ok s e /\ Z.of_nat (size (addrs s)) + 1 < LIM | Stop b => b ∈ addrs s end.
Lemma may_fits s o : may (addrs s) o -> fits s o.
Proof. destruct o; [|done]. intros (? & ? & ?). split; [done|]. split; [by apply plain_startable|done]. Qed.

Context {W : Type} (callback : W -> Z -> Z -> W * list (vop (T:=T)) * Z) (mono : W -> W * T) (poll : W -> list pollfd -> Z -> W * list Z * poll_res).

Lemma run_op_tidy o w s : tidy s -> Z.of_nat (size (addrs s)) < LIM -> fits s o ->
  exists s', run_op calloc_ok sigaction_ok mono (w, s) o = Ok (match o with Start _ _ => fst (mono w) | Stop _ => w end, s') /\ tidy s' /\ Z.of_nat (size (addrs s')) < LIM /\ r_psig (s_root s') = r_psig (s_root s) /\
    found s' (target o) = 0 /\ (forall b, b <> target o -> keeps s s' b) /\ addrs s' = after (addrs s) [o].
Proof.
  intros Ht Hl Ha. pose proof (lpfd_size s Ht) as Hsz. destruct o as [b e|b]; cbn in Ha; cbn [run_op after target].
  - destruct Ha as (Hb & He & Hlt). rewrite assertC_true by (apply bool_decide_eq_true, not_elem_of_dom, Hb). cbn [mbind outcome_bind]. destruct (mono w) as [w1 now] eqn:Em.
    destruct (start_ok s b e now Ht Hb He) as (s1 & -> & Hv1 & Hd1 & Hp1 & Hf1 & Hk1); [lia|]. cbn [mbind outcome_bind Z.eqb assertC]. exists s1. split; [done|]. split; [done|]. split; [rewrite Hd1, size_add by done; lia|done].
  - destruct (drop_ok s b Ht Ha) as (s1 & Hrun & Hv1 & Hd1 & Hp1 & Hf1 & Hk1); [lia|]. unfold drop_event in Hrun. destruct (VEV_Stop sigaction_ok s b) as [s2|]; [|done]. cbn [mbind outcome_bind] in *. injection Hrun as Hrun. rewrite Hrun. exists s1. split; [done|]. split; [done|]. split; [rewrite Hd1; pose proof (size_drop (addrs s) b); lia|done].
Qed.

(** Operations each of which fits the state it finds. *)
Fixpoint valid (w : W) s (l : list (vop (T:=T))) : Prop :=
  match l with
  | [] => True
  | o :: l => fits s o /\ forall w' s', run_op calloc_ok sigaction_ok mono (w, s) o = Ok (w', s') -> addrs s' = after (addrs s) [o] -> valid w' s' l
  end.

Lemma run_valid l : forall w s, tidy s -> Z.of_nat (size (addrs s)) < LIM -> valid w s l ->
  exists w' s', run_ops calloc_ok sigaction_ok mono (w, s) l = Ok (w', s') /\ tidy s' /\ addrs s' = after (addrs s) l.
Proof.
  induction l as [|o l IH]; intros w s Ht Hl Hv; [by exists w, s|]. destruct Hv as [Ho Hv]. destruct (run_op_tidy o w s Ht Hl Ho) as (s1 & Hrun & Ht1 & Hl1 & _ & _ & _ & Hd1). cbn [run_ops]. rewrite Hrun. cbn [mbind outcome_bind].
  destruct (IH _ s1 Ht1 Hl1 (Hv _ _ Hrun Hd1)) as (w' & s' & -> & Ht' & Hd'). exists w', s'. split; [done|]. split; [done|]. rewrite Hd', Hd1. by destruct o.
Qed.

(** C33: A new root is well formed, and whatever events on descriptors, timers and
    signals are started and stopped on a well-formed one, in any order and also
    while events that poll found are still to be served, no call fails and the
    root stays well formed: the heap is ordered and its indices are the places of
    the events in the arrays of poll, signals and events point at each other, the
    count of events to serve is right, and the events there are those that were
    there or were started, and not stopped.  A signal has one event at most, and
    none is pending: an event that is stopped while its signal is leaves [psig]
    above zero for good. *)
Theorem vev_tidy k : 2 <= k <= 19 ->
  (exists r, VEV_New (T:=T) (2 ^ (k + 3)) = Ok r /\ tidy (mk_vstate ∅ r []) /\ addrs (mk_vstate ∅ r []) = ∅) /\
  forall w s l, tidy s -> Z.of_nat (size (addrs s)) < LIM -> valid w s l ->
    exists w' s', run_ops calloc_ok sigaction_ok mono (w, s) l = Ok (w', s') /\ tidy s' /\ addrs s' = after (addrs s) l.
Proof.
  intros Hk. destruct (new_ok k Hk) as (r & Hr & Ht & Ha & _). cbv zeta in Ht, Ha. split; [by exists r|]. intros w s l. apply run_valid.
Qed.

(** What poll may find, what the callbacks know about the events there are, and
    the calls so far. *)
Context (what_ok : Z -> Prop) (J : W -> gset Z -> Prop) (trace : W -> list (Z * Z * list (vop (T:=T)))).
Definition remaining (k : Z) a (A : gset Z) : gset Z := if k =? 0 then A else A ∖ {[a]}.
Record world_ok : Prop := {
  wo_callback : forall w A a what w' ops k, J w A -> a ∈ A -> (what = 0 \/ what_ok what) -> callback w a what = (w', ops, k) ->
    allowed a A ops /\ J w' (remaining k a (after A ops)) /\ trace w' = trace w ++ [(a, what, ops)];
  wo_mono : forall w w' t, mono w = (w', t) -> (forall A, J w A -> J w' A) /\ trace w' = trace w;
  wo_poll : forall w fds tmo w' sigs res, poll w fds tmo = (w', sigs, res) -> (forall A, J w A -> J w' A) /\ trace w' = trace w /\ sigs = [] /\
    (match res with PollOk n rev => length rev = length fds /\ (forall r, r ∈ rev -> r = 0 \/ what_ok r) /\ n = Z.of_nat (length (filter (fun r => r <> 0) rev)) /\ (n = 0 -> tmo <> INFTIM) | _ => True end)
}.
Context (Hw : world_ok).

Lemma tidy_lim s : tidy s -> Z.of_nat (size (addrs s)) < LIM -> 0 < r_lpfd (s_root s) <= LIM /\ r_lpfd (s_root s) < 2 ^ 30.
Proof. intros Ht Hl. pose proof (lpfd_size s Ht). lia. Qed.
(** One operation: the event served stays, and what poll found for the others. *)
Record stepped a (l : list (vop (T:=T))) s s' : Prop := {
  sp_tidy : tidy s';
  sp_small : Z.of_nat (size (addrs s')) < LIM;
  sp_psig : r_psig (s_root s') = r_psig (s_root s);
  sp_here : keeps s s' a;
  sp_found : forall b, found s' b = found s b \/ found s' b = 0 /\ (found s b = 0 \/ Stop b ∈ l)
}.
Lemma stepped_trans a l1 l2 s1 s2 s3 : stepped a l1 s1 s2 -> stepped a l2 s2 s3 -> stepped a (l1 ++ l2) s1 s3.
Proof.
  intros [] [? ? ? ? Hf]. split; [done|done|congruence|by eapply keeps_trans|]. intros b. rewrite elem_of_app. destruct (Hf b) as [->|[Hz Hx]]; [destruct (sp_found0 b) as [->|[? [?|?]]]; tauto|]. destruct (sp_found0 b) as [Heq|[? [?|?]]]; [rewrite Heq in Hx; tauto|tauto..].
Qed.
Lemma run_op_ok a o w s : tidy s -> Z.of_nat (size (addrs s)) < LIM -> a ∈ addrs s -> allowed a (addrs s) [o] ->
  exists w' s', run_op calloc_ok sigaction_ok mono (w, s) o = Ok (w', s') /\ stepped a [o] s s' /\ addrs s' = after (addrs s) [o] /\ (forall A, J w A -> J w' A) /\ trace w' = trace w.
Proof.
  intros Ht Hl Haa Ha. destruct (run_op_tidy o w s Ht Hl) as (s' & Hrun & Ht' & Hl' & Hp' & Hf' & Hk' & Hd'); [apply may_fits; destruct o; cbn in *; tauto|]. eexists _, s'. split; [exact Hrun|].
  assert (a <> target o) as Hne by (destruct o; cbn in *; [intros ->|intros Heq; symmetry in Heq]; tauto). split; [|split; [done|]].
  - split; [done|done|done|by apply Hk'|]. intros b. destruct (decide (b = target o)) as [->|Hb]; [|left; by apply keeps_found, Hk']. right. split; [done|]. destruct o as [c e|c]; cbn in *; [left; apply found_none, Ha|right; left].
  - destruct o; [|done]. destruct (mono w) as [w1 now] eqn:Em. destruct (wo_mono Hw w w1 now Em). done.
Qed.

Lemma stepped_refl a l s : tidy s -> Z.of_nat (size (addrs s)) < LIM -> stepped a l s s.
Proof. intros. split; try done. by left. Qed.
Lemma stepped_addr a l s s' : stepped a l s s' -> a ∈ addrs s -> a ∈ addrs s'.
Proof. intros [_ _ _ Hk _]. unfold addrs. rewrite !elem_of_dom. apply keeps_some, Hk. Qed.
Lemma run_ops_ok a l : forall w s, tidy s -> Z.of_nat (size (addrs s)) < LIM -> a ∈ addrs s -> allowed a (addrs s) l ->
  exists w' s', run_ops calloc_ok sigaction_ok mono (w, s) l = Ok (w', s') /\ stepped a l s s' /\ addrs s' = after (addrs s) l /\ (forall A, J w A -> J w' A) /\ trace w' = trace w.
Proof.
  induction l as [|o l IH]; intros w s Ht Hl Haa Ha; [exists w, s; split; [done|]; split; [by apply stepped_refl|done]|].
  assert (allowed a (addrs s) [o] /\ allowed a (after (addrs s) [o]) l /\ after (addrs s) (o :: l) = after (after (addrs s) [o]) l) as (Ho & Hrest & Haft) by (destruct o; cbn in *; tauto).
  destruct (run_op_ok a o w s Ht Hl Haa Ho) as (w1 & s1 & Hrun & Hst & Hd & HJ & Htr). cbn [run_ops]. rewrite Hrun, Haft, <-Hd in *. cbn [mbind outcome_bind]. pose proof Hst as [Ht1 Hl1 _ _ _].
  destruct (IH w1 s1 Ht1 Hl1 (stepped_addr _ _ _ _ Hst Haa) Hrest) as (w' & s' & -> & Hst' & Hd' & HJ' & Htr'). exists w', s'. split; [done|]. split; [by apply (stepped_trans a [o] l s s1 s')|]. split; [done|]. split; [auto|congruence].
Qed.

Lemma call_ok a what w s : tidy s -> Z.of_nat (size (addrs s)) < LIM -> a ∈ addrs s -> J w (addrs s) -> (what = 0 \/ what_ok what) ->
  exists w' s' ops k, call calloc_ok sigaction_ok callback mono w s a what = Ok (w', s', k) /\ stepped a ops s s' /\ J w' (remaining k a (addrs s')) /\ trace w' = trace w ++ [(a, what, ops)].
Proof.
  intros Ht Hl Ha HJ Hwh. unfold call. destruct (callback w a what) as [[w1 ops] k] eqn:Ec. destruct (wo_callback Hw w (addrs s) a what w1 ops k HJ Ha Hwh Ec) as (Hal & HJ1 & Ht1).
  destruct (run_ops_ok a ops w1 s Ht Hl Ha Hal) as (w' & s' & -> & Hst & Hd & HJ' & Htr). exists w', s', ops, k. cbn [mbind outcome_bind]. split; [done|]. split; [done|]. rewrite Hd. split; [by apply HJ'|congruence].
Qed.
(** After the call the event is freed unless the callback says otherwise. *)
Lemma settle_call_ok a k s : tidy s -> Z.of_nat (size (addrs s)) < LIM -> a ∈ addrs s -> found s a = 0 ->
  exists s', (if negb (k =? 0) then drop_event sigaction_ok s a else Ok s) = Ok s' /\ tidy s' /\ Z.of_nat (size (addrs s')) < LIM /\ addrs s' = remaining k a (addrs s) /\ r_psig (s_root s') = r_psig (s_root s) /\ forall b, found s' b = found s b.
Proof.
  intros Ht Hl Ha Hf. unfold remaining. destruct (k =? 0); cbn [negb]; [by exists s|]. destruct (tidy_lim s Ht Hl) as [_ Hr]. destruct (drop_ok s a Ht Ha Hr) as (s' & -> & Ht' & Hd & Hp & Hf' & Hk). exists s'. split; [done|]. split; [done|]. split; [rewrite Hd; pose proof (size_drop (addrs s) a); lia|]. do 2 (split; [done|]).
  intros b. destruct (decide (b = a)) as [->|Hne]; [congruence|by apply keeps_found, Hk].
Qed.

(** ** A pass over the events *)

(** The calls since the loop began in the state [s0] and the world [w0]. *)
Definition called (l : list (Z * Z * list (vop (T:=T)))) : list Z := l.*1.*1.
Record served s0 w0 w s l : Prop := {
  sv_tidy : tidy s;
  sv_small : Z.of_nat (size (addrs s)) < LIM;
  sv_world : J w (addrs s);
  sv_trace : trace w = trace w0 ++ l;
  sv_psig : r_psig (s_root s) = r_psig (s_root s0);
  sv_left : forall b, found s b <> 0 -> found s b = found s0 b /\ b ∉ called l;
  sv_what : forall a what ops, (a, what, ops) ∈ l -> what = found s0 a /\ what <> 0;
  sv_all : forall b, found s0 b <> 0 -> found s b <> 0 \/ b ∈ called l \/ exists x, x ∈ l /\ Stop b ∈ x.2;
  sv_once : NoDup (called l)
}.

(** What was found was something poll may find. *)
Definition finds s0 : Prop := forall b, found s0 b = 0 \/ what_ok (found s0 b).
Lemma serve_ok s0 w0 w s l a e : finds s0 -> served s0 w0 w s l -> s_events s !! a = Some e -> e_events e <> 0 ->
  exists w1 s1 k e1 s2 ops, call calloc_ok sigaction_ok callback mono w s a (e_events e) = Ok (w1, s1, k) /\ s_events s1 !! a = Some e1 /\ 0 < r_n_events (s_root s1) /\
    (let s' := put_event s1 a (set_events e1 0) in let s' := put_root s' (set_n_events (s_root s') (r_n_events (s_root s') - 1)) in if negb (k =? 0) then drop_event sigaction_ok s' a else Ok s') = Ok s2 /\
    served s0 w0 w1 s2 (l ++ [(a, e_events e, ops)]) /\ r_n_events (s_root s2) < r_n_events (s_root s).
Proof.
  intros Hfs [Ht Hl HJ Htr Hps H1 H2 H3 H4] He Hne. assert (a ∈ addrs s) as Ha by (apply elem_of_dom; eauto). assert (found s a = e_events e) as Hfa by (unfold found; by rewrite He).
  destruct (call_ok a (e_events e) w s Ht Hl Ha HJ) as (w1 & s1 & ops & k & Hcall & [Ht1 Hl1 Hp1 Hk1 Hf1] & HJ1 & Htr1); [destruct (H1 a) as [Hfa0 _]; [by rewrite Hfa|]; rewrite <-Hfa, Hfa0; apply Hfs|]. pose proof (keeps_found _ _ _ Hk1) as Hfa1. pose proof (proj2 (keeps_some _ _ _ Hk1) ltac:(eauto)) as [e1 He1].
  assert (e_events e1 = e_events e) as Hev by (rewrite <-Hfa, <-Hfa1; unfold found; by rewrite He1). destruct (mark_ok s1 a e1 0 Ht1 He1) as (Ht2 & Hd2 & Hf2 & Ho2). rewrite Hev in *. replace (e_events e =? 0) with false in * by lia. cbn [Z.eqb] in *. rewrite Z.add_0_r in *. set (s' := put_root _ _) in *.
  destruct (settle_call_ok a k s' Ht2) as (s2 & Hs2 & Ht3 & Hl3 & Hd3 & Hp3 & Hf3); [by rewrite Hd2|rewrite Hd2; apply elem_of_dom; eauto|done|].
  assert (forall b, found s2 b = if decide (b = a) then 0 else found s1 b) as Hf. { intros b. rewrite Hf3. case_decide; [by subst|]. unfold found. by rewrite Ho2. }
  assert (called (l ++ [(a, e_events e, ops)]) = called l ++ [a]) as Hc by (unfold called; by rewrite !fmap_app). destruct (H1 a) as [Hfa0 Hna]; [by rewrite Hfa|].
  exists w1, s1, k, e1, s2, ops. split; [done|]. split; [done|]. assert (size (waiting s2) < size (waiting s1) <= size (waiting s))%nat as Hsz.
  { split; [apply subset_size; split; [intros b; rewrite !elem_of_waiting, Hf; by case_decide|]|apply subseteq_size; intros b; rewrite !elem_of_waiting; destruct (Hf1 b) as [->|[-> _]]; done]. intros Hsub. specialize (Hsub a). rewrite !elem_of_waiting, Hf, decide_True in Hsub by done. apply Hsub; [congruence|done]. }
  rewrite (n_events_waiting s1 Ht1), (n_events_waiting s2 Ht3), (n_events_waiting s Ht). split; [lia|]. split; [exact Hs2|]. split; [|lia]. split; [done|done|by rewrite Hd3, Hd2| | | | | |].
  - by rewrite Htr1, Htr, app_assoc.
  - rewrite Hp3. cbn. congruence.
  - intros b. rewrite Hf, Hc, not_elem_of_app, list_elem_of_singleton. case_decide; [done|]. destruct (Hf1 b) as [->|[-> _]]; [|done]. intros Hb. by destruct (H1 b Hb).
  - intros b what os [Hin|Hin%list_elem_of_singleton]%elem_of_app; [by eapply H2|]. injection Hin as -> -> ->. split; [congruence|done].
  - intros b Hb. rewrite Hf, Hc, elem_of_app, list_elem_of_singleton. case_decide; [auto|]. destruct (H3 b Hb) as [Hx|[?|(x & Hx & Hso)]]; [|auto|right; right; exists x; rewrite elem_of_app; auto].
    destruct (Hf1 b) as [->|[_ [?|Hso]]]; [auto|done|]. right. right. exists (a, e_events e, ops). rewrite elem_of_app, list_elem_of_singleton. auto.
  - rewrite Hc. apply NoDup_app. split; [done|]. split; [|apply NoDup_singleton]. intros b Hb. rewrite list_elem_of_singleton. by intros ->.
Qed.

Lemma pass_loop_ok s0 w0 n (Hfs : finds s0) : forall w s u p r l, served s0 w0 w s l -> 1 <= u <= LIM -> LIM - u < Z.of_nat n ->
  exists w' s' p' r' l', pass_loop calloc_ok sigaction_ok callback mono n w s u p r = Ok (w', s', p', r') /\ served s0 w0 w' s' l' /\ p <= p' /\ r_n_events (s_root s') + (p' - p) <= r_n_events (s_root s) /\
    (p' = p -> forall b, b ∈ addrs s -> u <= idx_at s b -> found s b = 0) /\ (r <> 0 -> r' <> 0).
Proof.
  induction n as [|n IH]; intros w s u p r l Hs Hu Hn; [lia|]. pose proof Hs as [Ht Hl _ _ _ _ _ _ _]. destruct (tidy_lim s Ht Hl) as [Hr _]. cbn [pass_loop]. destruct (u <? r_lpfd (s_root s)) eqn:E.
  2: { exists w, s, p, r, l. split; [done|]. split; [done|]. split; [lia|]. split; [lia|]. split; [|done]. intros _ b Hb Hub. destruct (index_of s b Ht Hb). lia. }
  destruct (at_index s u Ht) as (a & e & Hp & He & Hx & Ha); [lia|]. rewrite (proj2 (readC_ok _ _ _) Hp). cbn [mbind outcome_bind]. rewrite (event_at_ok s a e He). cbn [mbind outcome_bind]. destruct (e_events e =? 0) eqn:Ez.
  - destruct (IH w s (u + 1) p r l Hs) as (w' & s' & p' & r' & l' & Hrun & Hs' & Hp1 & Hp2 & Hq & Hrr); [lia|lia|]. exists w', s', p', r', l'. split; [done|]. split; [done|]. split; [done|]. split; [done|]. split; [|done]. intros Hpp b Hb Hub. destruct (decide (idx_at s b = u)) as [Hbu|]; [|apply Hq; [done|done|lia]].
    destruct (index_of s b Ht Hb) as [_ Hpb]. rewrite Hbu, Hp in Hpb. injection Hpb as <-. unfold found. rewrite He. cbn. lia.
  - destruct (serve_ok s0 w0 w s l a e Hfs Hs He) as (w1 & s1 & k & e1 & s2 & ops & -> & He1 & Hpos & Hrun2 & Hs2 & Hlt); [lia|]. cbn [mbind outcome_bind]. rewrite (event_at_ok s1 a e1 He1). cbn [mbind outcome_bind]. cbv zeta in Hrun2. rewrite assertC_true by (cbn; clear - Hpos; lia). cbn [mbind outcome_bind]. rewrite Hrun2. cbn [mbind outcome_bind].
    destruct (IH w1 s2 (u + 1) (p + 1) (if k <? 0 then k else r) _ Hs2) as (w' & s' & p' & r' & l' & -> & Hs' & Hp1 & Hp2 & _ & Hrr); [lia|lia|]. exists w', s', p', r', l'. split; [done|]. split; [done|]. split; [lia|]. split; [lia|]. split; [intros ->; lia|]. intros Hne. apply Hrr. destruct (k <? 0) eqn:Ek; lia.
Qed.

Lemma passes_ok s0 w0 m (Hfs : finds s0) (Hm : LIM <= Z.of_nat m) n : forall w s r l, served s0 w0 w s l -> r_n_events (s_root s) <= Z.of_nat n ->
  exists w' s' r' l', passes calloc_ok sigaction_ok callback mono n m w s r = Ok (w', s', r') /\ served s0 w0 w' s' l' /\ r_n_events (s_root s') = 0 /\ (r <> 0 -> r' <> 0).
Proof.
  induction n as [|n IH]; intros w s r l Hs Hn; pose proof Hs as [Ht Hl _ _ _ _ _ _ _]; destruct (tidy_lim s Ht Hl) as [Hr _]; pose proof (n_events_waiting s Ht) as Hc; cbn [passes]; destruct (0 <? r_n_events (s_root s)) eqn:E; try lia.
  1,3: exists w, s, r, l; split; [done|]; split; [done|]; split; [lia|done].
  destruct (pass_loop_ok s0 w0 m Hfs w s 1 0 r l Hs) as (w1 & s1 & p & r1 & l1 & Hrun & Hs1 & Hp1 & Hp2 & Hq & Hr1); [lia|lia|]. change (VBH_NOIDX + 1) with 1. rewrite Hrun. cbn [mbind outcome_bind].
  assert (0 < p) as Hp. { destruct (decide (p = 0)) as [->|]; [|lia]. exfalso. specialize (Hq eq_refl). assert (waiting s = ∅) as Hw0; [|rewrite Hw0, size_empty in Hc; lia]. apply leibniz_equiv. intros b. rewrite elem_of_waiting. split; [|set_solver]. intros Hb. exfalso. destruct (decide (b ∈ addrs s)) as [Hba|Hba]; [|by apply Hb, found_none]. apply Hb, Hq; [done|]. destruct (index_of s b Ht Hba). lia. }
  rewrite assertC_true by (clear - Hp; lia). cbn [mbind outcome_bind]. destruct (IH w1 s1 r1 l1 Hs1) as (w' & s' & r' & l' & Hrun' & Hs' & Hz' & Hr'); [lia|]. exists w', s', r', l'. split; [done|]. split; [done|]. split; [done|]. auto.
Qed.

(** ** What poll found *)

Lemma store_loop_ok rev n : forall s u, tidy s -> Z.of_nat (length rev) = r_lpfd (s_root s) - 1 -> 1 <= u <= r_lpfd (s_root s) -> r_lpfd (s_root s) - u < Z.of_nat n -> (forall b, u <= idx_at s b -> found s b = 0) ->
  exists s', store_loop n s u rev = Ok s' /\ tidy s' /\ addrs s' = addrs s /\ s_root s' = set_n_events (s_root s) (r_n_events (s_root s) + Z.of_nat (length (filter (fun r => r <> 0) (drop (Z.to_nat (u - 1)) rev)))) /\
    (forall b, idx_at s' b = idx_at s b) /\ forall b, b ∈ addrs s -> found s' b = if u <=? idx_at s b then default 0 (rev !! Z.to_nat (idx_at s b - 1)) else found s b.
Proof.
  induction n as [|n IH]; intros s u Ht Hrev Hu Hn Hz; [lia|]. cbn [store_loop]. destruct (u <? r_lpfd (s_root s)) eqn:E.
  2: { exists s. split; [done|]. split; [done|]. split; [done|]. split; [rewrite drop_ge by lia; cbn; rewrite Z.add_0_r; by destruct s as [? [] ?]|]. split; [done|]. intros b Hb. destruct (index_of s b Ht Hb) as [Hi _]. replace (u <=? idx_at s b) with false by lia. done. }
  destruct (at_index s u Ht) as (a & e & Hp & He & Hx & Ha); [lia|]. rewrite (proj2 (readC_ok _ _ _) Hp). cbn [mbind outcome_bind]. rewrite (event_at_ok s a e He). cbn [mbind outcome_bind]. assert (e_events e = 0) as Hze. { assert (found s a = 0) as Hfa by (apply Hz; unfold idx_at; rewrite He; cbn; lia). unfold found in Hfa. by rewrite He in Hfa. }
  rewrite assertC_true by (clear - Hze; lia). cbn [mbind outcome_bind]. destruct (lookup_lt_is_Some_2 rev (Z.to_nat (u - 1))) as [ev Hev]; [lia|]. rewrite (proj2 (readC_ok _ _ _) Hev). cbn [mbind outcome_bind].
  destruct (mark_ok s a e ev Ht He) as (Ht1 & Hd1 & Hf1 & Ho1). set (s1 := put_root _ _) in *. assert ((if ev =? 0 then put_event s a (set_events e ev) else put_root (put_event s a (set_events e ev)) (set_n_events (s_root (put_event s a (set_events e ev))) (r_n_events (s_root (put_event s a (set_events e ev))) + 1))) = s1) as ->.
  { unfold s1. rewrite Hze. cbn. destruct (ev =? 0); [|by rewrite Z.sub_0_r]. rewrite Z.sub_0_r, Z.add_0_r. by destruct s as [? [] ?]. }
  assert (forall b, idx_at s1 b = idx_at s b) as Hi1. { intros b. destruct (decide (b = a)) as [->|Hne]; unfold idx_at; [cbn; by rewrite lookup_insert_eq, He|by rewrite Ho1]. }
  assert (forall b, b <> a -> found s1 b = found s b) as Hf by (intros b Hb; unfold found; by rewrite Ho1). assert (forall b, b ∈ addrs s -> idx_at s b = u -> b = a) as Hone. { intros b Hb Hbu. destruct (index_of s b Ht Hb) as [_ Hpb]. rewrite Hbu, Hp in Hpb. by injection Hpb. }
  destruct (IH s1 (u + 1) Ht1) as (s' & -> & Ht' & Hd' & Hr' & Hi' & Hf'); [done|cbn; lia|cbn; lia| |].
  { intros b Hb. rewrite Hi1 in Hb. destruct (decide (b = a)) as [->|Hne]; [unfold idx_at in Hb; rewrite He in Hb; cbn in Hb; lia|]. rewrite Hf by done. apply Hz. lia. }
  exists s'. split; [done|]. split; [done|]. split; [congruence|]. split; [|split; [intros b; by rewrite Hi', Hi1|]].
  - rewrite Hr', (drop_S rev ev _ Hev). replace (Z.to_nat (u + 1 - 1)) with (S (Z.to_nat (u - 1))) by lia. rewrite filter_cons. unfold s1. cbn [s_root put_root r_n_events set_n_events]. rewrite Hze. unfold set_n_events. cbn [r_pfd r_pev r_lpfd r_heap r_psig]. f_equal. cbn [Z.eqb]. destruct (ev =? 0) eqn:Ee; case_decide; cbn [length]; lia.
  - intros b Hb. rewrite Hf' by (by rewrite Hd1). rewrite Hi1. destruct (decide (b = a)) as [->|Hne].
    + assert (idx_at s a = u) as -> by (unfold idx_at; by rewrite He). replace (u + 1 <=? u) with false by lia. replace (u <=? u) with true by lia. by rewrite Hf1, Hev.
    + rewrite (Hf b Hne). assert (idx_at s b <> u) by (intros Hbu; by apply Hne, Hone). destruct (u <=? idx_at s b) eqn:E1, (u + 1 <=? idx_at s b) eqn:E2; done || lia.
Qed.

(** What poll found for an event. *)
Definition revents s (rev : list Z) b : Z := if bool_decide (b ∈ addrs s) then default 0 (rev !! Z.to_nat (idx_at s b - 1)) else 0.

Lemma dispatch_run w s i rev n m : tidy s -> Z.of_nat (size (addrs s)) < LIM -> J w (addrs s) -> r_n_events (s_root s) = 0 ->
  Z.of_nat (length rev) = r_lpfd (s_root s) - 1 -> i = Z.of_nat (length (filter (fun r => r <> 0) rev)) -> (forall r, r ∈ rev -> r = 0 \/ what_ok r) -> i <= Z.of_nat n -> LIM <= Z.of_nat m ->
  exists w' s' k l s0, vev_dispatch calloc_ok sigaction_ok callback mono n m w s i rev = Ok (w', s', k) /\ served s0 w w' s' l /\ r_n_events (s_root s') = 0 /\ r_psig (s_root s0) = r_psig (s_root s) /\ (forall b, found s0 b = revents s rev b) /\ k <> 0.
Proof.
  intros Ht Hl HJ Hz Hrev Hi Hwh Hn Hm. destruct (tidy_lim s Ht Hl) as [Hr _]. unfold vev_dispatch. rewrite Hz. cbn [Z.eqb assertC mbind outcome_bind].
  destruct (store_loop_ok rev m s 1 Ht Hrev) as (s0 & -> & Ht0 & Hd0 & Hr0 & Hi0 & Hf); [lia|lia|intros b _; by apply idle_found|]. cbn [mbind outcome_bind]. rewrite Hr0. cbn [r_n_events set_n_events]. rewrite Hz, drop_0, <-Hi, Z.add_0_l, assertC_true by lia. cbn [mbind outcome_bind].
  assert (forall b, found s0 b = revents s rev b) as Hfr. { intros b. unfold revents. case_bool_decide as Hb; [|apply found_none; by rewrite Hd0]. rewrite (Hf b Hb). destruct (index_of s b Ht Hb). by replace (1 <=? idx_at s b) with true by lia. }
  assert (finds s0) as Hfs. { intros b. rewrite Hfr. unfold revents. case_bool_decide; [|by left]. destruct (rev !! _) as [x|] eqn:Ex; [|by left]. cbn. apply Hwh. by eapply list_elem_of_lookup_2. }
  destruct (passes_ok s0 w m Hfs Hm n w s0 1 []) as (w' & s' & k & l & -> & Hsv & Hz' & Hk); [split; try done; [by rewrite Hd0|by rewrite Hd0|by rewrite app_nil_r|intros b _; split; [done|apply not_elem_of_nil]|by intros ? ? ? ?%not_elem_of_nil|by left|apply NoDup_nil_2]|rewrite Hr0; cbn [r_n_events set_n_events]; rewrite Hz, drop_0, <-Hi; lia|].
  exists w', s', k, l, s0. split; [done|]. split; [done|]. split; [done|]. split; [by rewrite Hr0|]. split; [done|]. by apply Hk.
Qed.

(** C18: Dispatching calls each event that poll found, once and with what poll
    found for it, and no other event, unless the callback of another has stopped
    it first; whatever the callbacks start and stop, no assertion fails, the loop
    ends with nothing left to serve, and the events are as tidy as before. *)
Theorem vev_dispatch_ok w s i rev n m : tidy s -> Z.of_nat (size (addrs s)) < LIM -> J w (addrs s) -> r_n_events (s_root s) = 0 ->
  Z.of_nat (length rev) = r_lpfd (s_root s) - 1 -> i = Z.of_nat (length (filter (fun r => r <> 0) rev)) -> (forall r, r ∈ rev -> r = 0 \/ what_ok r) -> i <= Z.of_nat n -> LIM <= Z.of_nat m ->
  exists w' s' k l, vev_dispatch calloc_ok sigaction_ok callback mono n m w s i rev = Ok (w', s', k) /\
    tidy s' /\ r_n_events (s_root s') = 0 /\ trace w' = trace w ++ l /\ NoDup (called l) /\
    (forall a what ops, (a, what, ops) ∈ l -> what = revents s rev a /\ what <> 0) /\
    (forall a, revents s rev a <> 0 -> a ∈ called l \/ exists x, x ∈ l /\ Stop a ∈ x.2).
Proof.
  intros Ht Hl HJ Hz Hrev Hi Hwh Hn Hm. destruct (dispatch_run w s i rev n m Ht Hl HJ Hz Hrev Hi Hwh Hn Hm) as (w' & s' & k & l & s0 & -> & [Ht' _ _ Htr _ H1 H2 H3 H4] & Hz' & _ & Hfr & _).
  exists w', s', k, l. do 5 (split; [done|]). split; [intros a what ops Hin; rewrite <-Hfr; by eapply H2|]. intros a Ha. rewrite <-Hfr in Ha. destruct (H3 a Ha) as [Hx|?]; [|done]. by rewrite (idle_found s' a Ht' Hz') in Hx.
Qed.

(** ** A turn of the loop *)

(** A timer has a new time. *)
Lemma reinsert_ok s a e t : tidy s -> s_events s !! a = Some e -> r_lpfd (s_root s) < 2 ^ 30 ->
  exists s', (s ← heap_delete (put_event s a (set_when e t)) (e_idx e); heap_insert s a) = Ok s' /\ tidy s' /\ addrs s' = addrs s /\ r_psig (s_root s') = r_psig (s_root s) /\ forall b, found s' b = found s b.
Proof.
  intros Ht He Hl. assert (VBH_CAP = 2 ^ 32 - 131072) as HC by done. pose proof (proj2 (started_addrs s a Ht) ltac:(by apply elem_of_dom)) as Ha. destruct Ht as [[Hh Hev] Hall]. destruct (started_event s a Hh Ha) as (e0 & He0 & Hm & Hcell & Hidx & _). rewrite He in He0. injection He0 as <-. pose proof Hh as [Hr Hi Hs Hn Hnp].
  set (s1 := put_event s a (set_when e t)). assert (forall b, b <> a -> s_events s1 !! b = s_events s !! b) as Hoth by (intros b Hb; cbn; by rewrite lookup_insert_ne). assert (s_events s1 !! a = Some (set_when e t)) as He1 by (cbn; apply lookup_insert_eq).
  destruct (heap_delete_ok s1 (e_idx e) a) as (s2 & -> & Hf2 & Hi2 & Hs2 & Hp2 & Hn2 & Hx2); [done| | |by exists (set_when e t)|done|cbn; lia|cbn; lia|].
  { apply (core_but s s1 _ a); [done|done|intros b _ Hb; by rewrite Hoth| |done]. unfold idx_at. by rewrite He1, He. }
  { apply (core_slots _ s); [done|done|cbn; lia| |intros u b [_ Hu]%lookup_delete_Some; by apply Hs]. intros v c [Hv Hc]%lookup_delete_Some. rewrite Hoth; [done|]. intros ->. apply Hv. by eapply started_once. }
  assert (room s2) as Hr2. { destruct Hr as [Hr Hrl]. pose proof (fr_pfd _ _ Hf2) as F1. pose proof (fr_pev _ _ Hf2) as F2. pose proof (fr_lpfd _ _ Hf2) as F3. unfold room, r_npfd in *. rewrite F1, F2, F3. done. }
  assert (a ∉ started s2) as Hna. { pose proof (started_NoDup s Hi) as Hnd. change (started s) with (started s1) in Hnd. rewrite Hp2 in Hnd. by apply NoDup_cons in Hnd as [? _]. }
  destruct (heap_insert_ok s2 a Hr2 Hi2 Hs2) as (s3 & Hrun & Hf3 & Hi3 & Hs3 & Hp3 & Hn3 & _); [apply (frame_known s1); [done|by exists (set_when e t)]|done|rewrite Hn2, (fr_lpfd _ _ Hf2); cbn; rewrite Hn; lia|rewrite (fr_lpfd _ _ Hf2); cbn; lia|]. cbn [mbind outcome_bind]. rewrite Hrun.
  pose proof (frame_trans _ _ _ Hf2 Hf3) as Hf. assert (started s3 ≡ₚ started s) as Hp by (rewrite Hp3, <-Hp2; done). exists s3. split; [done|].
  assert (forall b, keeps s1 s3 b) as Hk by (intros b; by apply frame_keeps). assert (forall b, attr <$> s_events s1 !! b = attr <$> s_events s !! b) as Ha1. { intros b. destruct (decide (b = a)) as [->|Hne]; [by rewrite He1, He|by rewrite Hoth]. }
  assert (forall b, is_Some (s_events s3 !! b) <-> is_Some (s_events s !! b)) as Hsome. { intros b. rewrite (keeps_some _ _ _ (Hk b)). destruct (decide (b = a)) as [->|Hne]; [rewrite He1, He; split; eauto|by rewrite Hoth]. }
  pose proof (fr_pfd _ _ Hf) as F1. pose proof (fr_pev _ _ Hf) as F2. pose proof (fr_lpfd _ _ Hf) as F3. split; [split; [split|]|split; [|split; [exact (fr_psig _ _ Hf)|]]].
  - split; [|done|done| |]; unfold room, r_npfd in *; rewrite ?F1, ?F2, ?F3; [done| |done]. rewrite Hn3, (fr_lpfd _ _ Hf2). done.
  - eapply (events_ok_ext _ s s3); [by symmetry| |by rewrite (fr_sigs _ _ Hf)|by rewrite (fr_n _ _ Hf)|done]. intros b _. rewrite (frame_attr _ _ _ Hf). apply Ha1.
  - intros b Hb. rewrite Hp. by apply Hall, Hsome.
  - apply leibniz_equiv. intros b. unfold addrs. by rewrite !elem_of_dom, Hsome.
  - intros b. rewrite (keeps_found _ _ _ (Hk b)). unfold found. destruct (decide (b = a)) as [->|Hne]; [by rewrite He1, He|by rewrite Hoth].
Qed.

(** Between two turns. *)
Record idle w s : Prop := {
  id_tidy : tidy s;
  id_small : Z.of_nat (size (addrs s)) < LIM;
  id_world : J w (addrs s);
  id_psig : r_psig (s_root s) = 0;
  id_events : r_n_events (s_root s) = 0
}.

(** The first timer is due. *)
Lemma timeout_ok w s a t : idle w s -> a ∈ addrs s ->
  exists w' s' ops, vev_sched_timeout calloc_ok sigaction_ok callback mono w s a t = Ok (w', s', 1) /\ idle w' s' /\ trace w' = trace w ++ [(a, 0, ops)].
Proof.
  intros [Ht Hl HJ Hps Hz] Ha. destruct (call_ok a 0 w s Ht Hl Ha HJ) as (w1 & s1 & ops & k & Hcall & [Ht1 Hl1 Hp1 Hk1 Hf1] & HJ1 & Htr); [by left|]. unfold vev_sched_timeout. rewrite Hcall. cbn [mbind outcome_bind].
  assert (forall b, found s1 b = 0) as Hf0. { intros b. destruct (Hf1 b) as [->|[? _]]; [by apply idle_found|done]. } pose proof (proj2 (keeps_some _ _ _ Hk1) ltac:(by apply elem_of_dom)) as [e1 He1]. destruct (tidy_lim s1 Ht1 Hl1) as [_ Hr1]. destruct (k =? 0) eqn:Ek; cbn [negb].
  - rewrite (event_at_ok s1 a e1 He1). cbn [mbind outcome_bind]. destruct (reinsert_ok s1 a e1 (tadd t (e_timeout e1)) Ht1 He1 Hr1) as (s2 & Hrun & Ht2 & Hd2 & Hp2 & Hf2). destruct (heap_delete _ _) as [s3|]; cbn [mbind outcome_bind] in *; [|done]. rewrite Hrun. cbn [mbind outcome_bind].
    exists w1, s2, ops. split; [done|]. split; [|done]. unfold remaining in HJ1. rewrite Ek in HJ1. split; [done|by rewrite Hd2|by rewrite Hd2|congruence|apply found_idle; [done|intros b; by rewrite Hf2]].
  - destruct (settle_call_ok a k s1 Ht1 Hl1) as (s2 & Hrun & Ht2 & Hl2 & Hd2 & Hp2 & Hf2); [apply elem_of_dom; eauto|done|]. rewrite Ek in Hrun. cbn [negb] in Hrun. rewrite Hrun. cbn [mbind outcome_bind]. exists w1, s2, ops. split; [done|]. split; [|done]. split; [done|done|by rewrite Hd2|congruence|apply found_idle; [done|intros b; by rewrite Hf2]].
Qed.

Lemma idle_dispatch w s i rev n m : idle w s -> Z.of_nat (length rev) = r_lpfd (s_root s) - 1 -> i = Z.of_nat (length (filter (fun r => r <> 0) rev)) -> (forall r, r ∈ rev -> r = 0 \/ what_ok r) -> LIM <= Z.of_nat n -> LIM <= Z.of_nat m ->
  exists w' s' k l, vev_dispatch calloc_ok sigaction_ok callback mono n m w s i rev = Ok (w', s', k) /\ idle w' s' /\ trace w' = trace w ++ l /\ NoDup (called l) /\ k <> 0 /\ forall a what ops, (a, what, ops) ∈ l -> a ∈ addrs s /\ what <> 0.
Proof.
  intros [Ht Hl HJ Hps Hz] Hrev Hi Hwh Hn Hm. destruct (tidy_lim s Ht Hl) as [Hr _]. destruct (dispatch_run w s i rev n m Ht Hl HJ Hz Hrev Hi Hwh) as (w' & s' & k & l & s0 & -> & [Ht' Hl' HJ' Htr Hps' H1 H2 H3 H4] & Hz' & Hps0 & Hfr & Hk); [|done|].
  { rewrite Hi. pose proof (length_filter (fun r : Z => r <> 0) rev). lia. }
  exists w', s', k, l. split; [done|]. split; [split; try done; congruence|]. split; [done|]. split; [done|]. split; [done|]. intros a what ops Hin. destruct (H2 a what ops Hin) as [Hw1 Hw2]. split; [|done]. destruct (decide (a ∈ addrs s)) as [|Hna]; [done|]. exfalso. apply Hw2. rewrite Hw1, Hfr. unfold revents. by rewrite bool_decide_false.
Qed.

(** What a turn of the loop has done. *)
Definition turned w s (o : outcome (W * vstate T * Z)) : Prop :=
  exists w' s' k l, o = Ok (w', s', k) /\ idle w' s' /\ trace w' = trace w ++ l /\ NoDup (called l) /\ (k = 0 -> addrs s' = ∅) /\ forall a what ops, (a, what, ops) ∈ l -> a ∈ addrs s /\ (what = 0 -> first s a).
Lemma timeout_turn w w1 s a t : idle w1 s -> trace w1 = trace w -> first s a -> turned w s (vev_sched_timeout calloc_ok sigaction_ok callback mono w1 s a t).
Proof.
  intros Hid Htr Ha. destruct (timeout_ok w1 s a t Hid (proj1 Ha)) as (w' & s' & ops & -> & Hid' & Htr'). exists w', s', 1, [(a, 0, ops)]. split; [done|]. split; [done|]. split; [congruence|]. split; [apply NoDup_singleton|]. split; [done|]. intros b what os [= -> -> ->]%list_elem_of_singleton. split; [apply Ha|done].
Qed.
Lemma dispatch_turn w w1 s i rev n m : idle w1 s -> trace w1 = trace w -> Z.of_nat (length rev) = r_lpfd (s_root s) - 1 -> i = Z.of_nat (length (filter (fun r => r <> 0) rev)) -> (forall r, r ∈ rev -> r = 0 \/ what_ok r) -> LIM <= Z.of_nat n -> LIM <= Z.of_nat m ->
  turned w s (vev_dispatch calloc_ok sigaction_ok callback mono n m w1 s i rev).
Proof.
  intros Hid Htr Hr Hi Hwh Hn Hm. destruct (idle_dispatch w1 s i rev n m Hid Hr Hi Hwh Hn Hm) as (w' & s' & k & l & -> & Hid' & Htr' & Hnd & Hk & Hl). exists w', s', k, l. split; [done|]. split; [done|]. split; [congruence|]. split; [done|]. split; [done|]. intros a what ops Hin. destruct (Hl a what ops Hin). done.
Qed.
Lemma nothing_turn w w1 s k : idle w1 s -> trace w1 = trace w -> (k = 0 -> addrs s = ∅) -> turned w s (Ok (w1, s, k)).
Proof. intros Hid Htr Hk. exists w1, s, k, []. split; [done|]. split; [done|]. split; [by rewrite app_nil_r|]. split; [apply NoDup_nil_2|]. split; [done|]. by intros ? ? ? ?%not_elem_of_nil. Qed.
Lemma idle_world w w' s : (forall A, J w A -> J w' A) -> idle w s -> idle w' s.
Proof. intros HJ []. split; auto. Qed.

(** Signals that have not happened. *)
Lemma no_signals w s n : tidy s -> forall j, (length (s_sigs s) - j < n)%nat -> sched_signal_loop calloc_ok sigaction_ok callback mono n w s j 1 = Ok (w, s, 1).
Proof.
  intros Ht. destruct Ht as [[_ [_ _ [_ H2]]] _]. induction n as [|n IH]; intros j Hn; [lia|]. cbn [sched_signal_loop]. destruct (j <? length (s_sigs s))%nat eqn:E; [|done].
  destruct (readC_lt (s_sigs s) j) as (es & Hes & ->); [lia|]. cbn [mbind outcome_bind]. assert (sg_happened es = false) as ->; [|apply IH; lia]. specialize (H2 j es Hes). destruct (sg_vev es); [by destruct H2 as [[? ?] _]|by destruct H2 as [_ ?]].
Qed.

Lemma wait_ok w w1 s root tmo n m : idle w1 s -> trace w1 = trace w -> (match root with None => tmo = INFTIM | Some a => first s a end) -> LIM <= Z.of_nat n -> LIM <= Z.of_nat m ->
  turned w s (wait_events calloc_ok sigaction_ok callback mono poll n m w1 s root tmo).
Proof.
  intros Hid Htr Hroot Hn Hm. unfold wait_events. destruct (_ && _) eqn:E; [apply nothing_turn; [done|done|]; intros _; apply leibniz_equiv, size_empty_inv; pose proof (lpfd_size s (id_tidy _ _ Hid)) as Hsz; unfold VBH_NOIDX in E; lia|]. destruct (poll w1 _ tmo) as [[w2 sigs] res] eqn:Ep. destruct (wo_poll Hw _ _ _ _ _ _ Ep) as (HJ2 & Ht2 & -> & Hres). cbn [deliver mbind outcome_bind]. pose proof (idle_world _ _ _ HJ2 Hid) as Hid2.
  pose proof Hid as [[[[[Hr Hrl] _ _ _ _] _] _] _ _ _ _]. destruct res as [| |i rev]; [unfold vev_sched_signal; rewrite no_signals by (lia || apply Hid); apply nothing_turn; [done|congruence|done]|apply nothing_turn; [done|congruence|done]|]. destruct Hres as (Hlen & Hwh & Hi & Hi0). rewrite length_take, length_drop in Hlen. unfold r_npfd in Hr. assert (Z.of_nat (length rev) = r_lpfd (s_root s) - 1) as Hrev by lia.
  destruct (i =? 0) eqn:E0; [|apply dispatch_turn; (done || congruence)]. destruct root as [a|]; [|by destruct (Hi0 ltac:(lia))]. pose proof Hroot as [Ha _]. unfold addrs in Ha. apply elem_of_dom in Ha as [e He]. rewrite (event_at_ok s a e He). cbn [mbind outcome_bind]. destruct (mono w2) as [w3 t] eqn:Em. destruct (wo_mono Hw _ _ _ Em) as [HJ3 Ht3]. pose proof (idle_world _ _ _ HJ3 Hid2) as Hid3.
  destruct (negb _); [apply timeout_turn; (done || congruence)|apply dispatch_turn; (done || congruence)].
Qed.

Lemma VEV_Once_ok w s n m : idle w s -> LIM <= Z.of_nat n -> LIM <= Z.of_nat m -> turned w s (VEV_Once calloc_ok sigaction_ok callback mono poll n m w s).
Proof.
  intros Hid Hn Hm. pose proof Hid as [Ht Hl HJ Hps Hz]. pose proof Ht as [[[[Hr Hrl] _ _ _ _] _] _]. unfold VEV_Once. rewrite assertC_true by lia. cbn [mbind outcome_bind]. rewrite Hps. cbn [Z.eqb negb].
  destruct (root_ok s Ht) as (r & -> & Hroot). cbn [mbind outcome_bind]. destruct r as [a|]; [|by apply wait_ok]. destruct Hroot as [Ha (e & He & Hm' & Hx)]. unfold check_event. rewrite (event_at_ok s a e He). cbn [mbind outcome_bind]. rewrite Hm'. cbn [assertC mbind outcome_bind]. rewrite Hx. cbn [Z.eqb VBH_NOIDX assertC mbind outcome_bind].
  destruct (mono w) as [w1 t] eqn:Em. destruct (wo_mono Hw _ _ _ Em) as [HJ1 Ht1]. pose proof (idle_world _ _ _ HJ1 Hid) as Hid1. change (1 =? VBH_NOIDX + 1) with true. cbn [assertC mbind outcome_bind]. destruct (negb _); [by apply timeout_turn|by apply wait_ok].
Qed.

(** C16: However many turns the loop makes, and whatever events on descriptors and
    timers the callbacks start and stop, no assertion of the code fails and no
    access is out of bounds: the loop ends with a value other than one, or the
    bound on the turns is reached; a turn serves an event at most once, events
    that there were when it began, and a timer only when no other was due before
    it.  poll may be interrupted or fail.  Signals are outside: an event for one
    may be there, but it does not happen, and callbacks start no others. *)
Theorem VEV_Loop_safe k : forall w s n m, idle w s -> LIM <= Z.of_nat n -> LIM <= Z.of_nat m ->
  turned w s (VEV_Once calloc_ok sigaction_ok callback mono poll n m w s) /\
  ((exists w' s' i, VEV_Loop calloc_ok sigaction_ok callback mono poll k n m w s = Ok (w', s', i) /\ i <> 1 /\ idle w' s') \/
   VEV_Loop calloc_ok sigaction_ok callback mono poll k n m w s = Fault FFuel).
Proof.
  induction k as [|k IH]; intros w s n m Hid Hn Hm; (split; [by apply VEV_Once_ok|]); [by right|]. cbn [VEV_Loop]. destruct (VEV_Once_ok w s n m Hid Hn Hm) as (w' & s' & i & l & -> & Hid' & _). cbn [mbind outcome_bind]. destruct (i =? 1) eqn:E; [|left; exists w', s', i; split; [done|]; split; [lia|done]]. by apply IH.
Qed.
End tidy.

(** ** An example

    Times are milliseconds; event 1 is called first, stops event 2 and starts
    event 3. *)

#[global] Program Instance millis_time : Time Z := {| tlt := Z.ltb; tadd := Z.add; tzero := 0; tforever := 10 ^ 12; millis a b := a - b |}.
Next Obligation. lia. Qed.
Next Obligation. lia. Qed.

Definition example_event (fd : Z) : vev Z := mk_vev false fd VEV__RD 0 0 0 0 true false 0 0 false.
Lemma example_plain fd : plain (example_event fd).
Proof. split; try done. by right. Qed.
Definition example_world : Type := list (Z * Z * list (vop (T:=Z))) * bool.
Definition example_callback (w : example_world) (a what : Z) : example_world * list (vop (T:=Z)) * Z :=
  let ops := if negb (snd w) && (a =? 1) then [Stop 2; Start 3 (example_event 7)] else [] in
  ((fst w ++ [(a, what, ops)], snd w || (a =? 1)), ops, 0).
Definition example_mono (w : example_world) : example_world * Z := (w, 5).
Definition example_poll (w : example_world) (fds : list pollfd) (tmo : Z) : example_world * list Z * poll_res :=
  (w, [], match fds with [] => PollErr | _ => PollOk (Z.of_nat (length fds)) (map (fun _ => 1) fds) end).
Definition example_known (w : example_world) (A : gset Z) : Prop := A = if snd w then {[1; 3]} else {[1; 2]}.

Lemma example_world_ok : world_ok 8 example_callback example_mono example_poll (fun _ => True) example_known fst.
Proof.
  split.
  - intros [l b] A a what w' ops k HJ Ha _ [= <- <- <-]. unfold example_known in *. cbn [fst snd] in *. destruct b; cbn [negb andb orb remaining Z.eqb after].
    + split; [done|]. by split.
    + destruct (a =? 1) eqn:E; cbn [after allowed]; [|by split].
      subst A. split; [|split; [set_solver|done]]. split; [set_solver|]. split; [lia|]. split; [set_solver|]. split; [apply example_plain|]. split; [|done]. pose proof (size_drop {[1; 2]} 2) as Hs. rewrite (size_union {[1]} {[2]}) in Hs by set_solver. rewrite !size_singleton in Hs. lia.
  - by intros w w' t [= <- <-].
  - intros w fds tmo w' sigs res [= <- <- <-]. split; [done|]. split; [done|]. split; [done|]. destruct fds as [|f fds]; [done|]. split; [by rewrite length_map|]. split; [by right|]. split; [|cbn; lia].
    assert (forall l : list pollfd, filter (fun r : Z => r <> 0) (map (fun _ => 1) l) = map (fun _ => 1) l) as -> by (induction l as [|? l IH]; [done|]; cbn [map]; rewrite filter_cons, decide_True by done; by rewrite IH). by rewrite length_map.
Qed.

(** Two events are started on a new root. *)
Lemma example_state_ok : exists s, idle (fun _ => true) 8 example_known ([], false) s /\ addrs s = {[1; 2]} /\ r_lpfd (s_root s) = 3.
Proof.
  destruct (new_ok (T:=Z) (fun _ => true) 9) as (r & Hr & Ht & Ha & Hn & Hp); [lia|]. set (s0 := mk_vstate ∅ r []) in *. pose proof (lpfd_size _ s0 Ht) as Hl0. rewrite Ha in Hl0. change (size ∅) with O in Hl0.
  destruct (start_ok (fun _ => true) (fun _ => true) s0 2 (example_event 6) 0 Ht) as (s1 & _ & Ht1 & Ha1 & Hp1 & Hf1 & Hk1); [rewrite Ha; set_solver|apply plain_startable, example_plain|lia|]. rewrite Ha in Ha1. pose proof (lpfd_size _ s1 Ht1) as Hl1. assert (addrs s1 = {[2]}) as Hd1 by (rewrite Ha1; set_solver). rewrite Hd1, size_singleton in Hl1.
  destruct (start_ok (fun _ => true) (fun _ => true) s1 1 (example_event 5) 0 Ht1) as (s2 & _ & Ht2 & Ha2 & Hp2 & Hf2 & Hk2); [rewrite Hd1; set_solver|apply plain_startable, example_plain|lia|]. rewrite Hd1 in Ha2. pose proof (lpfd_size _ s2 Ht2) as Hl2.
  assert (addrs s2 = {[1; 2]}) as Hd by (rewrite Ha2; set_solver). rewrite Hd in Hl2. assert (size ({[1; 2]} : gset Z) = 2%nat) as Hsz by (rewrite size_union by set_solver; by rewrite !size_singleton). rewrite Hsz in Hl2. exists s2. split; [|by split].
  split; [done|rewrite Hd, Hsz; lia|exact Hd|by rewrite Hp2, Hp1|]. apply (found_idle (fun _ => true) s2 Ht2). intros b. destruct (decide (b = 1)) as [->|Hb]; [done|]. rewrite (keeps_found _ _ _ (Hk2 b Hb)). destruct (decide (b = 2)) as [->|Hb2]; [done|]. rewrite (keeps_found _ _ _ (Hk1 b Hb2)). by apply (idle_found (fun _ => true) s0).
Qed.
Lemma example_size : (size ({[1%Z; 2%Z]} : gset Z) <= 2)%nat.
Proof. rewrite (size_union {[1]} {[2]}) by set_solver. by rewrite !size_singleton. Qed.
Lemma example_small : 8 < 2 ^ 30.
Proof. done. Qed.

Lemma vev_dispatch_ok_witness : exists s w' s' k l, vev_dispatch (fun _ => true) (fun _ => true) example_callback example_mono 2 8 ([], false) s 2 [1; 4] = Ok (w', s', k) /\ r_n_events (s_root s') = 0 /\ fst w' = l /\ NoDup (called l).
Proof.
  destruct example_state_ok as (s & [Ht Hl HJ Hp Hn] & Ha & Hr). exists s.
  destruct (vev_dispatch_ok (fun _ => true) (fun _ => true) 8 example_small example_callback example_mono example_poll (fun _ => True) example_known fst example_world_ok ([], false) s 2 [1; 4] 2 8 Ht Hl HJ Hn) as (w' & s' & k & l & Hrun & _ & Hz & Htr & Hnd & _ & _); [rewrite Hr; reflexivity|reflexivity|by right|lia|lia|].
  exists w', s', k, l. split; [exact Hrun|]. split; [exact Hz|]. split; [exact Htr|exact Hnd].
Defined.

Lemma VEV_Loop_safe_witness : exists s, turned (fun _ => true) 8 example_known fst ([], false) s (VEV_Once (fun _ => true) (fun _ => true) example_callback example_mono example_poll 8 8 ([], false) s).
Proof. destruct example_state_ok as (s & Hid & _). exists s. apply (VEV_Loop_safe (fun _ => true) (fun _ => true) 8 example_small example_callback example_mono example_poll (fun _ => True) example_known fst example_world_ok 1 ([], false) s 8 8 Hid); lia. Defined.

Lemma VEV_Destroy_ok_witness : exists s rows, addrs s = {[1; 2]} /\ VEV_Destroy (fun _ => true) 2 s = Ok (∅, rows).
Proof.
  destruct example_state_ok as (s & [Ht Hl HJ Hp Hn] & Ha & Hr). destruct (VEV_Destroy_ok (fun _ => true) (fun _ => true) 2 s Ht) as [rows Hd]; [rewrite Hr; reflexivity|rewrite Ha; exact example_size|]. exists s, rows. split; [exact Ha|exact Hd].
Defined.

(** An event for the signal 15 is started on a new root, stopped, and another is
    started for it. *)
Definition example_signal : vev Z := mk_vev false (-1) 0 0 15 0 0 true false 0 0 false.
Definition example_ops : list (vop (T:=Z)) := [Start 1 example_signal; Stop 1; Start 2 example_signal].
Abbreviation example_start := (run_op (T:=Z) (fun _ => true) (fun _ => true) example_mono).

Lemma example_startable s : (forall es, s_sigs s !! 15%nat = Some es -> sg_vev es = None) -> startable (fun _ => true) (fun _ => true) s example_signal.
Proof. intros H. split; try done; by left. Qed.
(** No signal has an event when there is no event. *)
Lemma example_free s : tidy (fun _ => true) s -> addrs s = ∅ -> forall es, s_sigs s !! 15%nat = Some es -> sg_vev es = None.
Proof.
  intros Ht Ha es Hes. destruct (sg_vev es) as [a|] eqn:E; [|done]. pose proof (started_addrs (fun _ => true) s a Ht) as Hs. rewrite Ha in Hs. destruct Ht as [[_ [_ _ [_ H2]]] _]. specialize (H2 _ _ Hes). rewrite E in H2. destruct H2 as (_ & Hin & _). apply Hs in Hin. set_solver.
Qed.
Lemma example_valid r : tidy (fun _ => true) (mk_vstate ∅ r []) -> addrs (mk_vstate (T:=Z) ∅ r []) = ∅ -> valid (fun _ => true) (fun _ => true) 8 example_mono ([], false) (mk_vstate ∅ r []) example_ops.
Proof.
  intros Ht Ha. assert (fits (fun _ => true) (fun _ => true) 8 (mk_vstate ∅ r []) (Start 1 example_signal)) as H1.
  { split; [rewrite Ha; set_solver|]. split; [apply example_startable; by intros es|rewrite Ha, size_empty; lia]. }
  destruct (run_op_tidy (fun _ => true) (fun _ => true) 8 example_small example_mono (Start 1 example_signal) ([], false) _ Ht) as (s1 & E1 & Ht1 & Hl1 & _ & _ & _ & Ha1); [rewrite Ha, size_empty; lia|done|].
  rewrite Ha in Ha1. cbn [after] in Ha1. assert (fits (fun _ => true) (fun _ => true) 8 s1 (Stop 1)) as H2 by (unfold fits; rewrite Ha1; set_solver).
  destruct (run_op_tidy (fun _ => true) (fun _ => true) 8 example_small example_mono (Stop 1) (fst (example_mono ([], false))) s1 Ht1 Hl1 H2) as (s2 & E2 & Ht2 & Hl2 & _ & _ & _ & Ha2).
  assert (addrs s2 = ∅) as He2 by (rewrite Ha2; cbn [after]; rewrite Ha1; set_solver).
  split; [done|]. intros w' s' E _. rewrite E1 in E. injection E as <- <-. split; [done|]. intros w' s' E _. cbn [fst example_mono] in E2, E. rewrite E2 in E. injection E as <- <-. split; [|done].
  split; [rewrite He2; set_solver|]. split; [apply example_startable, example_free; done|rewrite He2, size_empty; lia].
Qed.

(** Stopping an event whose signal has happened leaves it counted: every turn from
    then on looks for signals and finds none, and nothing is waited for. *)
Lemma stopped_pending :
  match (r ← VEV_New (T:=Z) 4096; ws ← example_start (([], false), mk_vstate ∅ r []) (Start 1 example_signal); s ← vev_sigaction (snd ws) 15; VEV_Stop (fun _ => true) s 1) with
  | Ok s => r_psig (s_root s) = 1 /\ exists s', VEV_Once (fun _ => true) (fun _ => true) example_callback example_mono example_poll 8 8 ([], false) s = Ok ([], false, s', 1) /\ r_psig (s_root s') = 1
  | Fault _ => False
  end.
Proof. vm_compute. split; [done|]. eexists. done. Qed.

Lemma vev_tidy_witness : exists r w' s', run_ops (fun _ => true) (fun _ => true) example_mono (([], false), mk_vstate ∅ r []) example_ops = Ok (w', s') /\ addrs s' = after ∅ example_ops.
Proof.
  destruct (vev_tidy (T:=Z) (fun _ => true) (fun _ => true) 8 example_small example_mono 9) as [(r & Hr & Ht & Ha) H]; [lia|]. exists r.
  destruct (H ([], false) (mk_vstate ∅ r []) example_ops Ht) as (w' & s' & Hrun & _ & Haft); [rewrite Ha; exact eq_refl|by apply example_valid|]. exists w', s'. split; [exact Hrun|]. rewrite Haft, Ha. reflexivity.
Defined.
