(* ===== verification/CStr.v ===== *)
(** * Strings and their loops

    A pointer into a string is the list of the bytes of its object from there
    on, so that [*p] is [readC p 0], [p++] takes the tail and the distance of
    two pointers is a difference of lengths.  Reading past the object is a
    fault. *)

From Stdlib Require Import ZArith Lia ZifyBool.
From stdpp Require Import base option numbers list.
From S2P Require Import Prelude.
#[local] Open Scope Z_scope.

Definition byte (c : Z) : Prop := 0 <= c < 256.
Abbreviation Bytes := (Forall byte).

#[global] Instance byte_dec c : Decision (byte c).
Proof. unfold byte. apply _. Defined.

(** [*p]. *)
Definition deref (p : list Z) : outcome Z := readC p 0.

(** [while (f ( *p)) p++;]. *)
Fixpoint skip (f : Z -> bool) (p : list Z) : outcome (list Z) :=
  match p with
  | [] => Fault FBounds
  | c :: q => if f c then skip f q else Ok p
  end.

(** [while (p < e && f( *p)) p++;] where [p] ends at [e]. *)
Fixpoint skip_to (f : Z -> bool) (p : list Z) : list Z :=
  match p with
  | [] => []
  | c :: q => if f c then skip_to f q else p
  end.

(** [memcmp(p, s, n) == 0], which may read all of the [n] bytes. *)
Definition memeq (p s : list Z) : outcome bool :=
  if (length s <=? length p)%nat then Ok (bool_decide (take (length s) p = s)) else Fault FBounds.

(** [strncmp(p, s, strlen(s)) == 0]. *)
Fixpoint strneq (p s : list Z) {struct s} : outcome bool :=
  match s with
  | [] => Ok true
  | c :: s => match p with
              | [] => Fault FBounds
              | d :: p => if d =? c then strneq p s else Ok false
              end
  end.

(** The string at [p], which [strchr(p, '\0')] and [strlen(p)] walk. *)
Fixpoint string_at (p : list Z) : outcome (list Z) :=
  match p with
  | [] => Fault FBounds
  | c :: p => if c =? 0 then Ok [] else s ← string_at p; Ok (c :: s)
  end.

(** [isspace], [isdigit] of the C locale. *)
Definition isspace (c : Z) : bool := (c =? 32) || ((9 <=? c) && (c <=? 13)).
Definition isdigit (c : Z) : bool := (48 <=? c) && (c <=? 57).

Definition no_nul (s : list Z) : Prop := Forall (fun c => c <> 0) s.

Lemma deref_cons c p : deref (c :: p) = Ok c.
Proof. done. Qed.

Lemma skip_app f s p : Forall (fun c => f c = true) s -> skip f (s ++ p) = skip f p.
Proof. induction 1 as [|c s Hc _ IH]; [done|]. simpl. by rewrite Hc. Qed.

Lemma skip_stop f c p : f c = false -> skip f (c :: p) = Ok (c :: p).
Proof. simpl. by intros ->. Qed.

Lemma skip_suffix f p q : skip f p = Ok q -> exists s, p = s ++ q /\ Forall (fun c => f c = true) s /\
  exists c r, q = c :: r /\ f c = false.
Proof.
  revert q. induction p as [|c p IH]; [done|]. intros q. simpl. destruct (f c) eqn:E.
  - intros (s & -> & Hs & Hq)%IH. exists (c :: s). split; [done|]. split; [by constructor|done].
  - intros [= <-]. exists []. split; [done|]. split; [done|]. eauto.
Qed.

(** A string with a byte that stops the loop stops it. *)
Lemma skip_total f p : Exists (fun c => f c = false) p -> exists q, skip f p = Ok q.
Proof.
  induction 1 as [c p Hc|c p _ [q Hq]]; simpl; [rewrite Hc; eauto|]. destruct (f c); eauto.
Qed.

Lemma string_at_app s p : no_nul s -> string_at (s ++ 0 :: p) = Ok s.
Proof.
  induction 1 as [|c s Hc _ IH]; [done|]. simpl. rewrite (proj2 (Z.eqb_neq c 0)) by done.
  by rewrite IH.
Qed.

Lemma strneq_app s p : strneq (s ++ p) s = Ok true.
Proof. induction s as [|c s IH]; [done|]. simpl. by rewrite Z.eqb_refl. Qed.

(** [strchr(s, c)] and [strstr(s, pat)] on the bytes of a string, as offsets. *)
Fixpoint strchr (c : Z) (s : list Z) : option nat :=
  match s with
  | [] => None
  | d :: s => if d =? c then Some 0%nat else option_map S (strchr c s)
  end.
Fixpoint str_find (pat s : list Z) : option nat :=
  if bool_decide (take (length pat) s = pat) then Some 0%nat
  else match s with [] => None | _ :: s => option_map S (str_find pat s) end.

Lemma strchr_app c s p : c ∉ s -> strchr c (s ++ c :: p) = Some (length s).
Proof.
  induction s as [|d s IH]; intros Hc; cbn [app strchr]; [by rewrite Z.eqb_refl|].
  apply not_elem_of_cons in Hc as [Hd Hs]. by rewrite (proj2 (Z.eqb_neq d c)), IH.
Qed.

Lemma strchr_none c s : c ∉ s -> strchr c s = None.
Proof.
  induction s as [|d s IH]; intros Hc; cbn [strchr]; [done|].
  apply not_elem_of_cons in Hc as [Hd Hs]. by rewrite (proj2 (Z.eqb_neq d c)), IH.
Qed.
