(* ===== verification/Vct.v ===== *)
(** * Character classes (lib/vct.c, lib/vct.h)

    The tables of vct.c are the classes of RFC 2616, RFC 7230 and ASCII, and
    the comparisons of vct.h compare in lower case. *)

From Stdlib Require Import ZArith Lia ZifyBool.
From stdpp Require Import base option numbers list.
From S2P Require Import Prelude CStr.
#[local] Open Scope Z_scope.

#[local] Notation "a .| b" := (Z.lor a b) (at level 45, left associativity).

(** ** Flags and tables *)

Definition VCT_OWS : Z := Z.shiftl 1 0.
Definition VCT_CRLF : Z := Z.shiftl 1 1.
Definition VCT_LWS : Z := VCT_CRLF .| VCT_OWS.
Definition VCT_CTL : Z := Z.shiftl 1 2.
Definition VCT_ALPHA : Z := Z.shiftl 1 3.
Definition VCT_SEPARATOR : Z := Z.shiftl 1 4.
Definition VCT_DIGIT : Z := Z.shiftl 1 5.
Definition VCT_HEX : Z := Z.shiftl 1 6.
Definition VCT_XMLNAMESTART : Z := Z.shiftl 1 7.
Definition VCT_XMLNAME : Z := Z.shiftl 1 8.
Definition VCT_TCHAR : Z := Z.shiftl 1 9.
Definition VCT_ID : Z := Z.shiftl 1 10.
Definition VCT_IDENT : Z := VCT_ALPHA .| VCT_DIGIT .| VCT_ID.
Definition VCT_BASE64 : Z := Z.shiftl 1 11.
Definition VCT_VT : Z := Z.shiftl 1 12.
Definition VCT_SPACE : Z := VCT_LWS .| VCT_VT.
Definition VCT_UPPER : Z := Z.shiftl 1 13.
Definition VCT_LOWER : Z := Z.shiftl 1 14.

Definition VCT_UPALPHA : Z := VCT_ALPHA .| VCT_UPPER .| VCT_BASE64.
Definition VCT_LOALPHA : Z := VCT_ALPHA .| VCT_LOWER .| VCT_BASE64.

Definition vct_typtab : list Z := Eval vm_compute in [
  VCT_CTL; VCT_CTL; VCT_CTL; VCT_CTL; VCT_CTL; VCT_CTL; VCT_CTL; VCT_CTL; VCT_CTL; VCT_CTL .| VCT_OWS;
  VCT_CTL .| VCT_CRLF; VCT_CTL .| VCT_VT; VCT_CTL; VCT_CTL .| VCT_CRLF; VCT_CTL; VCT_CTL;
  VCT_CTL; VCT_CTL; VCT_CTL; VCT_CTL; VCT_CTL; VCT_CTL; VCT_CTL; VCT_CTL; VCT_CTL; VCT_CTL; VCT_CTL;
  VCT_CTL; VCT_CTL; VCT_CTL; VCT_CTL; VCT_CTL;
  VCT_OWS; VCT_TCHAR; VCT_SEPARATOR; VCT_TCHAR; VCT_TCHAR; VCT_TCHAR; VCT_TCHAR; VCT_TCHAR; VCT_SEPARATOR;
  VCT_SEPARATOR; VCT_TCHAR; VCT_TCHAR .| VCT_BASE64; VCT_SEPARATOR; VCT_XMLNAME .| VCT_TCHAR .| VCT_ID;
  VCT_XMLNAME .| VCT_TCHAR; VCT_SEPARATOR .| VCT_BASE64;
  VCT_DIGIT .| VCT_HEX .| VCT_XMLNAME .| VCT_BASE64; VCT_DIGIT .| VCT_HEX .| VCT_XMLNAME .| VCT_BASE64;
  VCT_DIGIT .| VCT_HEX .| VCT_XMLNAME .| VCT_BASE64; VCT_DIGIT .| VCT_HEX .| VCT_XMLNAME .| VCT_BASE64;
  VCT_DIGIT .| VCT_HEX .| VCT_XMLNAME .| VCT_BASE64; VCT_DIGIT .| VCT_HEX .| VCT_XMLNAME .| VCT_BASE64;
  VCT_DIGIT .| VCT_HEX .| VCT_XMLNAME .| VCT_BASE64; VCT_DIGIT .| VCT_HEX .| VCT_XMLNAME .| VCT_BASE64;
  VCT_DIGIT .| VCT_HEX .| VCT_XMLNAME .| VCT_BASE64; VCT_DIGIT .| VCT_HEX .| VCT_XMLNAME .| VCT_BASE64;
  VCT_SEPARATOR .| VCT_XMLNAMESTART; VCT_SEPARATOR; VCT_SEPARATOR; VCT_SEPARATOR .| VCT_BASE64;
  VCT_SEPARATOR; VCT_SEPARATOR;
  VCT_SEPARATOR; VCT_UPALPHA .| VCT_HEX .| VCT_XMLNAMESTART; VCT_UPALPHA .| VCT_HEX .| VCT_XMLNAMESTART;
  VCT_UPALPHA .| VCT_HEX .| VCT_XMLNAMESTART; VCT_UPALPHA .| VCT_HEX .| VCT_XMLNAMESTART;
  VCT_UPALPHA .| VCT_HEX .| VCT_XMLNAMESTART; VCT_UPALPHA .| VCT_HEX .| VCT_XMLNAMESTART;
  VCT_UPALPHA .| VCT_XMLNAMESTART; VCT_UPALPHA .| VCT_XMLNAMESTART; VCT_UPALPHA .| VCT_XMLNAMESTART;
  VCT_UPALPHA .| VCT_XMLNAMESTART; VCT_UPALPHA .| VCT_XMLNAMESTART; VCT_UPALPHA .| VCT_XMLNAMESTART;
  VCT_UPALPHA .| VCT_XMLNAMESTART; VCT_UPALPHA .| VCT_XMLNAMESTART; VCT_UPALPHA .| VCT_XMLNAMESTART;
  VCT_UPALPHA .| VCT_XMLNAMESTART; VCT_UPALPHA .| VCT_XMLNAMESTART; VCT_UPALPHA .| VCT_XMLNAMESTART;
  VCT_UPALPHA .| VCT_XMLNAMESTART; VCT_UPALPHA .| VCT_XMLNAMESTART; VCT_UPALPHA .| VCT_XMLNAMESTART;
  VCT_UPALPHA .| VCT_XMLNAMESTART; VCT_UPALPHA .| VCT_XMLNAMESTART; VCT_UPALPHA .| VCT_XMLNAMESTART;
  VCT_UPALPHA .| VCT_XMLNAMESTART; VCT_UPALPHA .| VCT_XMLNAMESTART; VCT_SEPARATOR; VCT_SEPARATOR;
  VCT_SEPARATOR; VCT_TCHAR; VCT_XMLNAMESTART .| VCT_TCHAR .| VCT_ID;
  VCT_TCHAR; VCT_LOALPHA .| VCT_HEX .| VCT_XMLNAMESTART; VCT_LOALPHA .| VCT_HEX .| VCT_XMLNAMESTART;
  VCT_LOALPHA .| VCT_HEX .| VCT_XMLNAMESTART; VCT_LOALPHA .| VCT_HEX .| VCT_XMLNAMESTART;
  VCT_LOALPHA .| VCT_HEX .| VCT_XMLNAMESTART; VCT_LOALPHA .| VCT_HEX .| VCT_XMLNAMESTART;
  VCT_LOALPHA .| VCT_XMLNAMESTART; VCT_LOALPHA .| VCT_XMLNAMESTART; VCT_LOALPHA .| VCT_XMLNAMESTART;
  VCT_LOALPHA .| VCT_XMLNAMESTART; VCT_LOALPHA .| VCT_XMLNAMESTART; VCT_LOALPHA .| VCT_XMLNAMESTART;
  VCT_LOALPHA .| VCT_XMLNAMESTART; VCT_LOALPHA .| VCT_XMLNAMESTART; VCT_LOALPHA .| VCT_XMLNAMESTART;
  VCT_LOALPHA .| VCT_XMLNAMESTART; VCT_LOALPHA .| VCT_XMLNAMESTART; VCT_LOALPHA .| VCT_XMLNAMESTART;
  VCT_LOALPHA .| VCT_XMLNAMESTART; VCT_LOALPHA .| VCT_XMLNAMESTART; VCT_LOALPHA .| VCT_XMLNAMESTART;
  VCT_LOALPHA .| VCT_XMLNAMESTART; VCT_LOALPHA .| VCT_XMLNAMESTART; VCT_LOALPHA .| VCT_XMLNAMESTART;
  VCT_LOALPHA .| VCT_XMLNAMESTART; VCT_LOALPHA .| VCT_XMLNAMESTART; VCT_SEPARATOR; VCT_TCHAR;
  VCT_SEPARATOR; VCT_TCHAR; VCT_CTL;
  0; 0; 0; 0; 0; 0; 0; 0; 0; 0; 0; 0; 0; 0; 0; 0;
  0; 0; 0; 0; 0; 0; 0; 0; 0; 0; 0; 0; 0; 0; 0; 0;
  0; 0; 0; 0; 0; 0; 0; 0; 0; 0; 0; 0; 0; 0; 0; 0;
  0; 0; 0; 0; 0; 0; 0; VCT_XMLNAME; 0; 0; 0; 0; 0; 0; 0; 0;
  VCT_XMLNAMESTART; VCT_XMLNAMESTART; VCT_XMLNAMESTART; VCT_XMLNAMESTART; VCT_XMLNAMESTART;
  VCT_XMLNAMESTART; VCT_XMLNAMESTART; VCT_XMLNAMESTART; VCT_XMLNAMESTART; VCT_XMLNAMESTART;
  VCT_XMLNAMESTART; VCT_XMLNAMESTART; VCT_XMLNAMESTART; VCT_XMLNAMESTART; VCT_XMLNAMESTART;
  VCT_XMLNAMESTART;
  VCT_XMLNAMESTART; VCT_XMLNAMESTART; VCT_XMLNAMESTART; VCT_XMLNAMESTART; VCT_XMLNAMESTART;
  VCT_XMLNAMESTART; VCT_XMLNAMESTART; 0; VCT_XMLNAMESTART; VCT_XMLNAMESTART; VCT_XMLNAMESTART;
  VCT_XMLNAMESTART; VCT_XMLNAMESTART; VCT_XMLNAMESTART; VCT_XMLNAMESTART; VCT_XMLNAMESTART;
  VCT_XMLNAMESTART; VCT_XMLNAMESTART; VCT_XMLNAMESTART; VCT_XMLNAMESTART; VCT_XMLNAMESTART;
  VCT_XMLNAMESTART; VCT_XMLNAMESTART; VCT_XMLNAMESTART; VCT_XMLNAMESTART; VCT_XMLNAMESTART;
  VCT_XMLNAMESTART; VCT_XMLNAMESTART; VCT_XMLNAMESTART; VCT_XMLNAMESTART; VCT_XMLNAMESTART;
  VCT_XMLNAMESTART;
  VCT_XMLNAMESTART; VCT_XMLNAMESTART; VCT_XMLNAMESTART; VCT_XMLNAMESTART; VCT_XMLNAMESTART;
  VCT_XMLNAMESTART; VCT_XMLNAMESTART; 0; VCT_XMLNAMESTART; VCT_XMLNAMESTART; VCT_XMLNAMESTART;
  VCT_XMLNAMESTART; VCT_XMLNAMESTART; VCT_XMLNAMESTART; VCT_XMLNAMESTART; VCT_XMLNAMESTART
].

Definition vct_lowertab : list Z := [
  0; 1; 2; 3; 4; 5; 6; 7; 8; 9; 10; 11; 12; 13; 14; 15;
  16; 17; 18; 19; 20; 21; 22; 23; 24; 25; 26; 27; 28; 29; 30; 31;
  32; 33; 34; 35; 36; 37; 38; 39; 40; 41; 42; 43; 44; 45; 46; 47;
  48; 49; 50; 51; 52; 53; 54; 55; 56; 57; 58; 59; 60; 61; 62; 63;
  64; 97; 98; 99; 100; 101; 102; 103; 104; 105; 106; 107; 108; 109; 110; 111;
  112; 113; 114; 115; 116; 117; 118; 119; 120; 121; 122; 91; 92; 93; 94; 95;
  96; 97; 98; 99; 100; 101; 102; 103; 104; 105; 106; 107; 108; 109; 110; 111;
  112; 113; 114; 115; 116; 117; 118; 119; 120; 121; 122; 123; 124; 125; 126; 127;
  128; 129; 130; 131; 132; 133; 134; 135; 136; 137; 138; 139; 140; 141; 142; 143;
  144; 145; 146; 147; 148; 149; 150; 151; 152; 153; 154; 155; 156; 157; 158; 159;
  160; 161; 162; 163; 164; 165; 166; 167; 168; 169; 170; 171; 172; 173; 174; 175;
  176; 177; 178; 179; 180; 181; 182; 183; 184; 185; 186; 187; 188; 189; 190; 191;
  192; 193; 194; 195; 196; 197; 198; 199; 200; 201; 202; 203; 204; 205; 206; 207;
  208; 209; 210; 211; 212; 213; 214; 215; 216; 217; 218; 219; 220; 221; 222; 223;
  224; 225; 226; 227; 228; 229; 230; 231; 232; 233; 234; 235; 236; 237; 238; 239;
  240; 241; 242; 243; 244; 245; 246; 247; 248; 249; 250; 251; 252; 253; 254; 255
].

(** ** Classes *)

Definition vct_is (x y : Z) : bool :=
  truth (Z.land (nth (Z.to_nat (Z.land x 255)) vct_typtab 0) y).

Definition vct_isows (x : Z) : bool := vct_is x VCT_OWS.
Definition vct_issp (x : Z) : bool := vct_is x VCT_OWS.
Definition vct_ishex (x : Z) : bool := vct_is x VCT_HEX.
Definition vct_islws (x : Z) : bool := vct_is x VCT_LWS.
Definition vct_isctl (x : Z) : bool := vct_is x VCT_CTL.
Definition vct_isspace (x : Z) : bool := vct_is x VCT_SPACE.
Definition vct_isdigit (x : Z) : bool := vct_is x VCT_DIGIT.
Definition vct_isalpha (x : Z) : bool := vct_is x VCT_ALPHA.
Definition vct_islower (x : Z) : bool := vct_is x VCT_LOWER.
Definition vct_isupper (x : Z) : bool := vct_is x VCT_UPPER.
Definition vct_isalnum (x : Z) : bool := vct_is x (VCT_ALPHA .| VCT_DIGIT).
Definition vct_isbase64 (x : Z) : bool := vct_is x VCT_BASE64.
Definition vct_issep (x : Z) : bool := vct_is x VCT_SEPARATOR.
Definition vct_issepctl (x : Z) : bool := vct_is x (VCT_SEPARATOR .| VCT_CTL).
Definition vct_isident1 (x : Z) : bool := vct_isalpha x.
Definition vct_isident (x : Z) : bool := vct_is x VCT_IDENT.
Definition vct_isxmlnamestart (x : Z) : bool := vct_is x VCT_XMLNAMESTART.
Definition vct_isxmlname (x : Z) : bool := vct_is x (VCT_XMLNAMESTART .| VCT_XMLNAME).
Definition vct_istchar (x : Z) : bool := vct_is x (VCT_ALPHA .| VCT_DIGIT .| VCT_TCHAR).
Definition vct_ishdrval (x : Z) : bool :=
  ((32 <=? u8 x) && negb (u8 x =? 127)) || (u8 x =? 9).

(** ** Lines *)

(** [p] runs to [end]. *)
Definition vct_iscrlf (p : list Z) : Z :=
  match p with
  | 13 :: 10 :: _ => 2
  | 10 :: _ => 1
  | _ => 0
  end.

Definition vct_skipcrlf (p : list Z) : list Z := drop (Z.to_nat (vct_iscrlf p)) p.

(** ** Comparison without regard to case *)

Definition lower (c : Z) : outcome Z := readC vct_lowertab (Z.to_nat c).

(** The tests after both loops. *)
Definition case_end (a b : list Z) : outcome Z :=
  x ← deref a; y ← deref b;
  if negb (truth x) && negb (truth y) then Ok 0
  else if negb (truth x) then Ok (-1)
  else if negb (truth y) then Ok 1
  else lx ← lower x; ly ← lower y; Ok (lx - ly).

Fixpoint vct_casecmp (a b : list Z) : outcome Z :=
  x ← deref a;
  if truth x then
    y ← deref b; lx ← lower x; ly ← lower y;
    if lx =? ly then match a, b with
                     | _ :: a', _ :: b' => vct_casecmp a' b'
                     | _, _ => Fault FBounds
                     end
    else case_end a b
  else case_end a b.

(** [sz] counts down to zero. *)
Fixpoint caselencmp_loop (sz : nat) (a b : list Z) : outcome Z :=
  match sz with
  | O => Ok 0
  | S sz =>
      x ← deref a;
      if truth x then
        y ← deref b; lx ← lower x; ly ← lower y;
        if lx =? ly then caselencmp_loop sz (tail a) (tail b)
        else case_end a b
      else case_end a b
  end.

Definition vct_caselencmp (a b : list Z) (sz : Z) : outcome Z :=
  _ ← assertC (0 <=? sz); caselencmp_loop (Z.to_nat sz) a b.

(** ** Names *)

(** The position of the first byte that is no part of a name, or [None]; [b]
    runs to [e]. *)
Fixpoint invalid_name_loop (b : list Z) (i : nat) : option nat :=
  match b with
  | [] => None
  | c :: b => if negb (vct_isident c) then Some i else invalid_name_loop b (S i)
  end.

Definition VCT_invalid_name (b : list Z) : outcome (option nat) :=
  _ ← assertC (0 <? Z.of_nat (length b));
  c ← deref b;
  Ok (if negb (vct_isident1 c) then Some 0%nat else invalid_name_loop b 0).

(** ** What the tables mean *)

Definition within (a b c : Z) : bool := (a <=? c) && (c <=? b).
Definition ascii_upper : Z -> bool := within 65 90.
Definition ascii_lower : Z -> bool := within 97 122.
Definition ascii_alpha (c : Z) : bool := ascii_upper c || ascii_lower c.

(** [tchar] of RFC 7230 section 3.2.6. *)
Definition rfc7230_tchar (c : Z) : bool :=
  ascii_alpha c || isdigit c ||
  bool_decide (c ∈ [33; 35; 36; 37; 38; 39; 42; 43; 45; 46; 94; 95; 96; 124; 126]).

(** The alphabet of RFC 4648 section 4, with the padding. *)
Definition rfc4648_base64 (c : Z) : bool :=
  ascii_alpha c || isdigit c || bool_decide (c ∈ [43; 47; 61]).

Definition class_facts (c : Z) : bool :=
  eqb (vct_isupper c) (ascii_upper c) && eqb (vct_islower c) (ascii_lower c) &&
  eqb (vct_isalpha c) (ascii_alpha c) && eqb (vct_isdigit c) (isdigit c) &&
  eqb (vct_isalnum c) (ascii_alpha c || isdigit c) &&
  eqb (vct_ishex c) (isdigit c || within 65 70 c || within 97 102 c) &&
  eqb (vct_issp c) ((c =? 32) || (c =? 9)) && eqb (vct_isctl c) ((c <? 32) || (c =? 127)) &&
  eqb (vct_islws c) ((c =? 32) || (c =? 9) || (c =? 13) || (c =? 10)) &&
  eqb (vct_isspace c) (isspace c && negb (c =? 12)) &&
  eqb (vct_istchar c) (rfc7230_tchar c) && eqb (vct_isbase64 c) (rfc4648_base64 c) &&
  eqb (vct_isident c) (ascii_alpha c || isdigit c || (c =? 45) || (c =? 95)) &&
  negb (vct_istchar c && vct_issepctl c).

Definition tolower (c : Z) : Z := if ascii_upper c then c + 32 else c.

Lemma vct_bytes f : forallb f (seqZ 0 256) = true -> forall c, byte c -> f c = true.
Proof.
  intros Hf c Hc. rewrite forallb_forall in Hf. apply Hf. apply list_elem_of_In, elem_of_seqZ.
  unfold byte in Hc. lia.
Qed.

Lemma class_facts_ok c : byte c -> class_facts c = true.
Proof. apply vct_bytes. by vm_compute. Qed.

(** Each class of vct_typtab is the set of characters it is named after:
    the letters, digits and hexadecimal digits of ASCII, its control
    characters, the blanks of HTTP, the token characters of RFC 7230 and the
    alphabet of base 64; [vct_isspace] is [isspace] without the form feed; and
    no token character is a separator or a control character. *)
Theorem vct_classes c (Hc : byte c) :
  vct_isupper c = ascii_upper c /\ vct_islower c = ascii_lower c /\ vct_isalpha c = ascii_alpha c /\
  vct_isdigit c = isdigit c /\ vct_isalnum c = (ascii_alpha c || isdigit c) /\
  vct_ishex c = (isdigit c || within 65 70 c || within 97 102 c) /\
  vct_issp c = ((c =? 32) || (c =? 9)) /\ vct_isctl c = ((c <? 32) || (c =? 127)) /\
  vct_islws c = ((c =? 32) || (c =? 9) || (c =? 13) || (c =? 10)) /\
  vct_isspace c = (isspace c && negb (c =? 12)) /\
  vct_istchar c = rfc7230_tchar c /\ vct_isbase64 c = rfc4648_base64 c /\
  vct_isident c = (ascii_alpha c || isdigit c || (c =? 45) || (c =? 95)) /\
  (vct_istchar c && vct_issepctl c) = false.
Proof.
  pose proof (class_facts_ok c Hc) as Hf. unfold class_facts in Hf.
  rewrite !andb_true_iff, !eqb_true_iff, negb_true_iff in Hf. tauto.
Qed.

Lemma vct_classes_witness : byte 65 /\ vct_isupper 65 = true.
Proof. split; [done|]. rewrite (proj1 (vct_classes 65 ltac:(done))). done. Defined.

Lemma lower_ok c : byte c -> lower c = Ok (tolower c).
Proof.
  intros Hc. unfold lower. rewrite readC_ok.
  assert (bool_decide (vct_lowertab !! Z.to_nat c = Some (tolower c)) = true) as Hb
    by (revert c Hc; apply vct_bytes; by vm_compute).
  by apply bool_decide_eq_true in Hb.
Qed.

(** ** Comparison *)

(** Lexicographic order, the shorter of two strings first. *)
Fixpoint lex (a b : list Z) : comparison :=
  match a, b with
  | [], [] => Eq
  | [], _ :: _ => Lt
  | _ :: _, [] => Gt
  | x :: a, y :: b => match x ?= y with Eq => lex a b | c => c end
  end.

Definition sign (c : comparison) : Z := match c with Eq => 0 | Lt => -1 | Gt => 1 end.

Definition text (s : list Z) : Prop := Forall (fun c => 1 <= c < 256) s.

Lemma lower_text c : 1 <= c < 256 -> lower c = Ok (tolower c) /\ truth c = true.
Proof. intros Hc. split; [apply lower_ok; unfold byte; lia|]. apply truth_true. lia. Qed.

Lemma sgn_compare x y : x <> y -> Z.sgn (x - y) = sign (x ?= y).
Proof. intros. destruct (Z.compare_spec x y); cbn [sign]; lia. Qed.

Lemma case_end_ok a b p q :
  text a -> text b ->
  (forall x y a' b', a = x :: a' -> b = y :: b' -> tolower x <> tolower y) ->
  exists r, case_end (a ++ 0 :: p) (b ++ 0 :: q) = Ok r /\
    Z.sgn r = sign (lex (tolower <$> a) (tolower <$> b)).
Proof.
  intros Ha Hb Hne. destruct Ha as [|x a Hx Ha], Hb as [|y b Hy Hb]; unfold case_end; simpl.
  - by exists 0.
  - destruct (lower_text y Hy) as [_ ->]. by exists (-1).
  - destruct (lower_text x Hx) as [_ ->]. by exists 1.
  - destruct (lower_text x Hx) as [-> ->], (lower_text y Hy) as [-> ->]. simpl.
    eexists. split; [done|]. pose proof (Hne x y a b eq_refl eq_refl) as Hn. rewrite sgn_compare by done.
    by destruct (Z.compare_spec (tolower x) (tolower y)).
Qed.

(** [vct_casecmp] on two C strings has the sign of the lexicographic order
    of the strings in lower case; so it is zero for strings that differ in case
    only. *)
Theorem vct_casecmp_ok a b p q (Ha : text a) (Hb : text b) :
  exists r, vct_casecmp (a ++ 0 :: p) (b ++ 0 :: q) = Ok r /\
    Z.sgn r = sign (lex (tolower <$> a) (tolower <$> b)).
Proof.
  revert b Hb. induction Ha as [|x a Hx Ha IH]; intros b Hb.
  - simpl. apply (case_end_ok [] b p q); [constructor|done|done].
  - cbn [app vct_casecmp]. rewrite deref_cons. destruct (lower_text x Hx) as [Hlx Htx].
    cbn [mbind outcome_bind]. rewrite Htx. destruct Hb as [|y b Hy Hb].
    + cbn [app]. rewrite deref_cons. cbn [mbind outcome_bind]. rewrite Hlx, (lower_ok 0) by done.
      cbn [mbind outcome_bind]. destruct (Z.eqb_spec (tolower x) (tolower 0)) as [E|_].
      * exfalso. unfold tolower, ascii_upper, within in E.
        destruct ((65 <=? x) && (x <=? 90)); simpl in E; lia.
      * apply (case_end_ok (x :: a) [] p q); [by constructor|constructor|done].
    + cbn [app]. rewrite deref_cons. cbn [mbind outcome_bind]. destruct (lower_text y Hy) as [Hly _].
      rewrite Hlx, Hly. cbn [mbind outcome_bind]. destruct (Z.eqb_spec (tolower x) (tolower y)) as [E|Hne].
      * destruct (IH b Hb) as (r & -> & Hr). exists r. split; [done|]. simpl. by rewrite E, Z.compare_refl.
      * apply (case_end_ok (x :: a) (y :: b) p q); [by constructor|by constructor|].
        intros ? ? ? ? [= <- <-] [= <- <-]. done.
Qed.

Lemma vct_casecmp_ok_witness : exists r, vct_casecmp [65; 98; 0] [97; 66; 0] = Ok r /\ Z.sgn r = 0.
Proof. apply (vct_casecmp_ok [65; 98] [97; 66] [] []); repeat constructor; lia. Defined.

(** ** Names *)

Lemma invalid_name_loop_ok b i :
  match invalid_name_loop b i with
  | None => Forall (fun c => vct_isident c = true) b
  | Some j => exists s c r, b = s ++ c :: r /\ j = (i + length s)%nat /\
      Forall (fun c => vct_isident c = true) s /\ vct_isident c = false
  end.
Proof.
  revert i. induction b as [|c b IH]; intros i; [constructor|]. simpl.
  destruct (vct_isident c) eqn:E; simpl.
  - specialize (IH (S i)). destruct (invalid_name_loop b (S i)) as [j|].
    + destruct IH as (s & d & r & -> & -> & Hs & Hd). exists (c :: s), d, r.
      split; [done|]. split; [simpl; lia|]. split; [by constructor|done].
    + by constructor.
  - exists [], c, b. split; [done|]. split; [simpl; lia|done].
Qed.

(** [VCT_invalid_name] returns NULL for the identifiers, a letter followed
    by letters, digits, [-] and [_], and otherwise points at the first byte that
    breaks the rule. *)
Theorem VCT_invalid_name_ok b (Hb : b <> []) :
  exists r, VCT_invalid_name b = Ok r /\
    match r with
    | None => Forall (fun c => vct_isident c = true) b /\ exists c, head b = Some c /\ vct_isident1 c = true
    | Some j => exists s c r, b = s ++ c :: r /\ j = length s /\
        Forall (fun c => vct_isident c = true) s /\
        (vct_isident c = false \/ s = [] /\ vct_isident1 c = false)
    end.
Proof.
  destruct b as [|c b]; [done|]. unfold VCT_invalid_name. rewrite assertC_true by (apply Z.ltb_lt; rewrite length_cons; lia).
  cbn [mbind outcome_bind]. rewrite deref_cons. cbn [mbind outcome_bind]. eexists. split; [done|].
  destruct (vct_isident1 c) eqn:E; simpl negb; cbv iota.
  - pose proof (invalid_name_loop_ok (c :: b) 0) as Hl.
    destruct (invalid_name_loop (c :: b) 0) as [j|].
    + destruct Hl as (s & d & r & Hs & -> & Hf & Hd). exists s, d, r. auto.
    + split; [done|]. eauto.
  - exists [], c, b. split; [done|]. split; [done|]. split; [constructor|]. auto.
Qed.

Lemma VCT_invalid_name_ok_witness :
  exists r, VCT_invalid_name [97; 49; 32; 98] = Ok r /\ r = Some 2%nat.
Proof.
  destruct (VCT_invalid_name_ok [97; 49; 32; 98]) as (r & E & _); [done|]. exists r. split; [done|].
  by injection E as <-.
Defined.
