(* ===== verification/Dbl.v ===== *)
(** * Doubles

    The C code's [double] as the number of IEEE 754 that the Standard Library
    specifies for 53 bits: the operations are executable and round as the
    machine does.  The lemmas are about whole numbers of at most 53 bits and
    powers of two, on which nothing is rounded. *)

From Stdlib Require Import ZArith Lia ZifyBool SpecFloat.
From stdpp Require Import base numbers.
From S2P Require Import Prelude.
#[local] Open Scope Z_scope.

Abbreviation dbl := spec_float.
Abbreviation PREC := 53.
Abbreviation EMAX := 1024.

(** A conversion from an integer type, and a literal [n / d], rounded once. *)
Definition d_of (n : Z) : dbl := binary_normalize PREC EMAX n 0 false.
Definition d_lit (n d : Z) : dbl := SFdiv PREC EMAX (d_of n) (d_of d).
Definition dmul : dbl -> dbl -> dbl := SFmul PREC EMAX.
Definition dadd : dbl -> dbl -> dbl := SFadd PREC EMAX.
Definition dsub : dbl -> dbl -> dbl := SFsub PREC EMAX.
Definition dlt : dbl -> dbl -> bool := SFltb.
Definition dle : dbl -> dbl -> bool := SFleb.
Definition deq : dbl -> dbl -> bool := SFeqb.
Definition isnan (x : dbl) : bool := match x with S754_nan => true | _ => false end.
Definition isinf (x : dbl) : bool := match x with S754_infinity _ => true | _ => false end.
(** [exp2(k)]. *)
Definition exp2 (k : Z) : dbl := d_of (2 ^ k).

(** The whole part, towards zero; None when there is none. *)
Definition whole (x : dbl) : option Z :=
  match x with
  | S754_zero _ => Some 0
  | S754_finite s m e => Some (cond_Zopp s (if 0 <=? e then Z.pos m * 2 ^ e else Z.pos m / 2 ^ (- e)))
  | _ => None
  end.
(** [modf(x, &tmp) != 0.0]. *)
Definition fractional (x : dbl) : bool :=
  match x with
  | S754_finite _ m e => (e <? 0) && negb (Z.pos m mod 2 ^ (- e) =? 0)
  | S754_nan => true
  | _ => false
  end.
(** The conversion, which cuts the fraction off, to a type with the values from
    [lo] to [hi]. *)
Definition to_int (lo hi : Z) (x : dbl) : outcome Z :=
  match whole x with Some n => if (lo <=? n) && (n <=? hi) then Ok n else Fault FUndef | None => Fault FUndef end.

(** ** Whole numbers *)

(** [m * 2^e] with all bits in use. *)
Definition normal (m : positive) : Prop := 2 ^ 52 <= Z.pos m < 2 ^ 53.

Lemma digits2_range m : 2 ^ (Z.pos (digits2_pos m) - 1) <= Z.pos m < 2 ^ Z.pos (digits2_pos m).
Proof.
  induction m as [m IH|m IH|]; cbn [digits2_pos]; [| |by vm_compute].
  all: rewrite Pos2Z.inj_succ; replace (Z.succ _ - 1) with (Z.succ (Z.pos (digits2_pos m) - 1)) by lia; rewrite !Z.pow_succ_r by lia; lia.
Qed.
Lemma digits2_eq m k : 0 <= k -> 2 ^ k <= Z.pos m < 2 ^ (k + 1) -> Z.pos (digits2_pos m) = k + 1.
Proof.
  intros Hk Hm. pose proof (digits2_range m) as Hd. assert (Z.pos (digits2_pos m) - 1 < k + 1) by (apply (Z.pow_lt_mono_r_iff 2); lia). assert (k < Z.pos (digits2_pos m)) by (apply (Z.pow_lt_mono_r_iff 2); lia). lia.
Qed.
Lemma digits2_normal m : normal m -> Z.pos (digits2_pos m) = 53.
Proof. intros H. by rewrite (digits2_eq m 52). Qed.

Lemma fexp_normal m e : normal m -> -1074 <= e -> fexp PREC EMAX (Z.pos (digits2_pos m) + e) = e.
Proof. intros Hm He. rewrite digits2_normal by done. unfold fexp, emin. lia. Qed.

Lemma round_aux_normal s m e : normal m -> -1074 <= e <= 971 -> binary_round_aux PREC EMAX s (Z.pos m) e loc_Exact = S754_finite s m e.
Proof.
  intros Hm He. assert (shr_fexp PREC EMAX (Z.pos m) e loc_Exact = (Build_shr_record (Z.pos m) false false, e)) as Hs.
  { unfold shr_fexp. cbn [Zdigits2]. rewrite fexp_normal by (done || lia). by rewrite Z.sub_diag. }
  unfold binary_round_aux. rewrite Hs. cbn [shr_m loc_of_shr_record round_nearest_even]. rewrite Hs. cbn [shr_m]. by replace (e <=? EMAX - PREC) with true by lia.
Qed.

(** Shifting zeros out is exact. *)
Lemma iter_pos_iter {A} (f : A -> A) n x : SpecFloat.iter_pos f n x = Pos.iter f x n.
Proof. revert x. induction n as [n IH|n IH|]; intros x; cbn [SpecFloat.iter_pos Pos.iter]; [|by rewrite !IH|done]. rewrite !IH. by rewrite <-!Pos.iter_swap. Qed.
Lemma shr_shl p d : SpecFloat.iter_pos shr_1 d (Build_shr_record (Z.pos (Pos.iter xO p d)) false false) = Build_shr_record (Z.pos p) false false.
Proof.
  rewrite iter_pos_iter. revert p. induction d as [|d IH] using Pos.peano_ind; intros p; [done|]. rewrite !Pos.iter_succ. rewrite <-Pos.iter_swap. cbn [shr_1 orb]. apply IH.
Qed.
Lemma iter_xO p d : Z.pos (Pos.iter xO p d) = Z.pos p * 2 ^ Z.pos d.
Proof. induction d as [|d IH] using Pos.peano_ind; [rewrite Z.pow_1_r; cbn [Pos.iter]; lia|]. rewrite Pos.iter_succ, Pos2Z.inj_succ, Z.pow_succ_r by lia. lia. Qed.

Lemma round_aux_shl s p d e : normal p -> -1074 <= e + Z.pos d <= 971 -> binary_round_aux PREC EMAX s (Z.pos (Pos.iter xO p d)) e loc_Exact = S754_finite s p (e + Z.pos d).
Proof.
  intros Hp He. rewrite <-(round_aux_normal s p (e + Z.pos d)) by done. unfold binary_round_aux.
  assert (shr_fexp PREC EMAX (Z.pos (Pos.iter xO p d)) e loc_Exact = (Build_shr_record (Z.pos p) false false, e + Z.pos d)) as ->.
  { unfold shr_fexp. cbn [Zdigits2 shr_record_of_loc]. rewrite (digits2_eq _ (52 + Z.pos d)); [|lia|].
    - replace (fexp PREC EMAX (52 + Z.pos d + 1 + e) - e) with (Z.pos d) by (unfold fexp, emin; lia). cbn [shr]. by rewrite shr_shl.
    - rewrite iter_xO. destruct Hp. replace (52 + Z.pos d + 1) with (53 + Z.pos d) by lia. rewrite !Z.pow_add_r by lia. nia. }
  assert (shr_fexp PREC EMAX (Z.pos p) (e + Z.pos d) loc_Exact = (Build_shr_record (Z.pos p) false false, e + Z.pos d)) as ->; [|done].
  unfold shr_fexp. cbn [Zdigits2]. rewrite fexp_normal by (done || lia). by rewrite Z.sub_diag.
Qed.

(** The double of a number below 2^53. *)
Lemma d_of_pos n : 0 < n < 2 ^ 53 -> exists m k, d_of n = S754_finite false m (- k) /\ normal m /\ 0 <= k <= 52 /\ Z.pos m = n * 2 ^ k.
Proof.
  intros Hn. destruct n as [|n|n]; [lia| |lia]. unfold d_of, binary_normalize, binary_round. pose proof (digits2_range n) as Hd.
  assert (Z.pos (digits2_pos n) - 1 < 53) by (apply (Z.pow_lt_mono_r_iff 2); lia). set (k := 53 - Z.pos (digits2_pos n)).
  replace (fexp PREC EMAX (Z.pos (digits2_pos n) + 0)) with (- k) by (unfold fexp, emin; lia). unfold shl_align. rewrite Z.sub_0_r.
  assert (2 ^ 52 <= Z.pos n * 2 ^ k < 2 ^ 53) as Hk.
  { replace 52 with (Z.pos (digits2_pos n) - 1 + k) by lia. replace 53 with (Z.pos (digits2_pos n) + k) by lia. rewrite !Z.pow_add_r by lia. assert (0 < 2 ^ k) by (apply Z.pow_pos_nonneg; lia). nia. }
  assert (0 <= k <= 52) as Hr by lia. clearbody k. destruct k as [|k|k]; [change (- 0) with 0|change (- Z.pos k) with (Z.neg k)|lia].
  - rewrite Z.mul_1_r in Hk. exists n, 0. rewrite round_aux_normal by (done || lia). rewrite Z.mul_1_r. repeat split; done || lia.
  - rewrite <-iter_xO in Hk. exists (Pos.iter xO n k), (Z.pos k). rewrite round_aux_normal by (done || lia). rewrite iter_xO. repeat split; done || lia.
Qed.

Lemma exp2_ok k : 0 <= k <= 52 -> exp2 k = S754_finite false (Pos.iter xO 1%positive 52) (k - 52).
Proof.
  intros Hk. unfold exp2. assert (0 < 2 ^ k) by (apply Z.pow_pos_nonneg; lia). destruct (d_of_pos (2 ^ k)) as (m & j & -> & Hm & Hj & He). { split; [done|]. apply Z.pow_lt_mono_r; lia. }
  rewrite <-Z.pow_add_r in He by lia. unfold normal in Hm. rewrite He in Hm. assert (52 <= k + j) by (apply (Z.pow_le_mono_r_iff 2); lia). assert (k + j < 53) by (apply (Z.pow_lt_mono_r_iff 2); lia).
  assert (Z.pos m = Z.pos (Pos.iter xO 1%positive 52)) as [= ->] by (rewrite He; replace (k + j) with 52 by lia; done). f_equal. lia.
Qed.

Lemma iter_xO_mul p q d : (p * Pos.iter xO q d)%positive = Pos.iter xO (p * q)%positive d.
Proof. apply Pos2Z.inj. rewrite Pos2Z.inj_mul, !iter_xO, Pos2Z.inj_mul. lia. Qed.

(** Scaling by a power of two moves the exponent. *)
Lemma dmul_exp2 s m e k : normal m -> 0 <= k <= 52 -> -1074 <= e + k <= 971 -> dmul (exp2 k) (S754_finite s m e) = S754_finite s m (e + k).
Proof.
  intros Hm Hk He. rewrite exp2_ok by done. unfold dmul, SFmul. rewrite Pos.mul_comm, iter_xO_mul, Pos.mul_1_r. rewrite round_aux_shl by (done || lia). rewrite xorb_false_l. f_equal. lia.
Qed.

Lemma whole_normal m n j k : Z.pos m = n * 2 ^ j -> 0 <= j -> 0 <= k -> whole (S754_finite false m (k - j)) = Some (n * 2 ^ k).
Proof.
  intros Hm Hj Hk. unfold whole. f_equal. cbn [cond_Zopp]. rewrite Hm. destruct (Z.leb_spec 0 (k - j)).
  - rewrite <-Z.mul_assoc, <-Z.pow_add_r by lia. f_equal. f_equal. lia.
  - replace (- (k - j)) with (j - k) by lia. replace j with (k + (j - k)) at 1 by lia. rewrite Z.pow_add_r by lia. rewrite Z.mul_assoc. apply Z.div_mul. pose proof (Z.pow_pos_nonneg 2 (j - k)). lia.
Qed.

(** [sc * r] for a whole number and a power of two, cut to an integer. *)
Lemma scaled_whole n k : 0 <= n < 2 ^ 53 -> 0 <= k <= 52 -> whole (dmul (exp2 k) (d_of n)) = Some (n * 2 ^ k).
Proof.
  intros Hn Hk. destruct (decide (n = 0)) as [->|Hne]; [by rewrite exp2_ok|]. destruct (d_of_pos n) as (m & j & -> & Hm & Hj & He); [lia|]. rewrite dmul_exp2 by (done || lia). replace (- j + k) with (k - j) by lia. apply whole_normal; done || lia.
Qed.
Lemma d_of_whole n : 0 <= n < 2 ^ 53 -> whole (d_of n) = Some n.
Proof.
  intros Hn. destruct (decide (n = 0)) as [->|Hne]; [done|]. destruct (d_of_pos n) as (m & j & -> & Hm & Hj & He); [lia|]. replace (- j) with (0 - j) by lia. rewrite (whole_normal m n j 0) by (done || lia). by rewrite Z.mul_1_r.
Qed.
Lemma d_of_integral n : 0 <= n < 2 ^ 53 -> fractional (d_of n) = false.
Proof.
  intros Hn. destruct (decide (n = 0)) as [->|Hne]; [done|]. destruct (d_of_pos n) as (m & j & -> & Hm & Hj & He); [lia|]. unfold fractional. rewrite He, Z.opp_involutive, Z.mod_mul by (pose proof (Z.pow_pos_nonneg 2 j); lia). by rewrite andb_false_r.
Qed.

Lemma dmul_comm x y : dmul x y = dmul y x.
Proof. destruct x, y; cbn; rewrite ?(xorb_comm s), ?(Pos.mul_comm m), ?(Z.add_comm e); done. Qed.
Lemma dmul_1 n : 0 <= n < 2 ^ 53 -> dmul (d_of n) (d_of 1) = d_of n.
Proof.
  intros Hn. rewrite dmul_comm. destruct (decide (n = 0)) as [->|Hne]; [done|]. destruct (d_of_pos n) as (m & j & -> & Hm & Hj & He); [lia|].
  change (d_of 1) with (exp2 0). rewrite dmul_exp2 by (done || lia). by rewrite Z.add_0_r.
Qed.
Lemma dlt_0 n : 0 <= n < 2 ^ 53 -> dlt (d_of n) (S754_zero false) = false.
Proof. intros Hn. destruct (decide (n = 0)) as [->|Hne]; [done|]. by destruct (d_of_pos n) as (m & j & -> & Hm & Hj & He); [lia|]. Qed.

(** Converting a whole number with 53 bits and zeros behind them. *)
Lemma d_of_scaled n k : 0 <= n < 2 ^ 53 -> 0 <= k <= 52 -> whole (d_of (n * 2 ^ k)) = Some (n * 2 ^ k).
Proof.
  intros Hn Hk. assert (0 < 2 ^ k) as Hp by (apply Z.pow_pos_nonneg; lia). destruct (Z_lt_dec (n * 2 ^ k) (2 ^ 53)); [apply d_of_whole; nia|].
  destruct (d_of_pos n) as (m & j & _ & Hm & Hj & He); [nia|]. assert (2 ^ j < 2 ^ k) as Hjk by (unfold normal in Hm; nia). apply Z.pow_lt_mono_r_iff in Hjk; [|lia..].
  destruct (k - j) as [|d|d] eqn:Hd; [lia| |lia]. assert (n * 2 ^ k = Z.pos (Pos.iter xO m d)) as ->.
  { rewrite iter_xO, He, <-Z.mul_assoc, <-Z.pow_add_r by lia. do 2 f_equal. lia. }
  unfold d_of, binary_normalize, binary_round. rewrite (digits2_eq _ (52 + Z.pos d)); [|lia|].
  - replace (fexp PREC EMAX _) with (Z.pos d) by (unfold fexp, emin; lia). unfold shl_align. rewrite Z.sub_0_r, round_aux_shl by (done || lia). by rewrite iter_xO.
  - rewrite iter_xO. destruct Hm. replace (52 + Z.pos d + 1) with (53 + Z.pos d) by lia. rewrite !Z.pow_add_r by lia. nia.
Qed.
