(* ===== verification/Vnum.v ===== *)
(** * Numbers (lib/vnum.c)

    The parsers of integers, decimal and hexadecimal, with their limits. *)

From Stdlib Require Import ZArith Lia ZifyBool.
From stdpp Require Import base option numbers list.
From S2P Require Import Prelude CStr Vct.
#[local] Open Scope Z_scope.

(** The error texts; [err_invalid_num] and [err_no_digits] are two objects with
    the same contents, which the code tells apart. *)
Inductive num_err := err_invalid_num | err_no_digits | err_fatnum.
#[global] Instance num_err_eq_dec : EqDecision num_err.
Proof. solve_decision. Defined.

(** ** Integers of RFC 8941 *)

(** The digits; [ndig] have been read into [retval].  The result is the value,
    the pointer, the number of digits and whether they were too many. *)
Fixpoint sf_digits (ip : list Z) (retval ndig maxdig : Z) : outcome (Z * list Z * Z * bool) :=
  match ip with
  | [] => Fault FBounds
  | c :: q =>
      if vct_isdigit c then
        let ndig := ndig + 1 in
        if maxdig <? ndig then Ok (retval, ip, ndig, true)
        else sf_digits q (retval * 10 + (c - 48)) ndig maxdig
      else Ok (retval, ip, ndig, false)
  end.

(** The value, the pointer to what is left, the sign, and the error. *)
Definition sf_parse_int (ip : list Z) (maxdig : Z) : outcome (Z * list Z * Z * option num_err) :=
  ip ← skip vct_isows ip;
  c ← deref ip;
  let '(sign, ip) := if c =? 45 then (-1, tail ip) else (1, ip) in
  '(retval, ip, ndig, fat) ← sf_digits ip 0 0 maxdig;
  if fat : bool then Ok (retval, ip, sign, Some err_fatnum)
  else if ndig =? 0 then Ok (retval, ip, sign, Some err_no_digits)
  else ip ← skip vct_isows ip; Ok (retval, ip, sign, None).

(** The value, the pointer, and the error. *)
Definition SF_Parse_Integer (ip : list Z) : outcome (Z * list Z * option num_err) :=
  '(retval, ip, sign, err) ← sf_parse_int ip 15;
  Ok (retval * sign, ip, err).

(** ** Unsigned integers *)

Definition SSIZE_MAX : Z := 2 ^ 63 - 1.

Definition hex_table : list Z := [
  0;   1;   2;   3;   4;   5;   6;   7;   8;   9;
  127; 127; 127; 127; 127; 127; 127; 10;  11;  12;
  13;  14;  15;  127; 127; 127; 127; 127; 127; 127;
  127; 127; 127; 127; 127; 127; 127; 127; 127; 127;
  127; 127; 127; 127; 127; 127; 127; 127; 127; 10;
  11;  12;  13;  14;  15
].

(** [hex_table[c - '0']]. *)
Definition hex_at (c : Z) : outcome Z :=
  if 48 <=? c then readC hex_table (Z.to_nat (c - 48)) else Fault FBounds.

(** [vct_ishex(c) && hex_table[c - '0'] < base]. *)
Definition is_dig (base c : Z) : outcome bool :=
  if vct_ishex c then n ← hex_at c; Ok (n <? base) else Ok false.

(** The loop over the [n] bytes that are left before [e]. *)
Fixpoint uint_loop (n : nat) (b : list Z) (u base : Z) : outcome (Z * list Z) :=
  match n with
  | O => Ok (u, b)
  | S n =>
      c ← deref b;
      d ← is_dig base c;
      if d : bool then
        if SSIZE_MAX / base <? u then Ok (-2, b)
        else
          let u := u * base in
          d ← hex_at c;
          if SSIZE_MAX - d <? u then Ok (-2, b)
          else uint_loop n (tail b) (u + d) base
      else Ok (u, b)
  end.

(** [e] is the length of the range, and NULL when absent. *)
Definition vnum_uint (b : list Z) (e : option nat) (base : Z) : outcome (Z * list Z) :=
  n ← match e with Some n => Ok n | None => s ← string_at b; Ok (length s) end;
  c ← deref b;
  d ← is_dig base c;
  if negb d then Ok (-1, b) else uint_loop n b 0 base.

Definition VNUM_uint (b : list Z) (e : option nat) : outcome (Z * list Z) := vnum_uint b e 10.
Definition VNUM_hex (b : list Z) (e : option nat) : outcome (Z * list Z) := vnum_uint b e 16.

(** ** Values *)

(** The value of a string of digits. *)
Definition dec_value (ds : list Z) : Z := foldl (fun v c => v * 10 + (c - 48)) 0 ds.

Definition hex_digit (c : Z) : Z :=
  if isdigit c then c - 48 else if ascii_upper c then c - 55 else c - 87.
Definition base_value (base : Z) (ds : list Z) : Z := foldl (fun v c => v * base + hex_digit c) 0 ds.

(** The digits of a base up to 16. *)
Definition base_digit (base c : Z) : bool :=
  (isdigit c || within 65 70 c || within 97 102 c) && (hex_digit c <? base).

Definition hex_fact (c : Z) : bool :=
  negb (vct_ishex c) || match hex_at c with Ok d => d =? hex_digit c | Fault _ => false end.

Lemma hex_at_ok c : byte c -> vct_ishex c = true -> hex_at c = Ok (hex_digit c).
Proof.
  intros Hc Hx. assert (hex_fact c = true) as Hf by (clear Hx; revert c Hc; apply vct_bytes; by vm_compute).
  unfold hex_fact in Hf. rewrite Hx in Hf. simpl in Hf. destruct (hex_at c); [|done]. f_equal. lia.
Qed.

Lemma ishex_ok c : byte c -> vct_ishex c = (isdigit c || within 65 70 c || within 97 102 c).
Proof. intros Hc. apply eqb_prop. revert c Hc. apply vct_bytes. by vm_compute. Qed.

Lemma isdigit_ok c : byte c -> vct_isdigit c = isdigit c.
Proof. intros Hc. apply eqb_prop. revert c Hc. apply vct_bytes. by vm_compute. Qed.

Lemma isows_ok c : byte c -> vct_isows c = ((c =? 32) || (c =? 9)).
Proof. intros Hc. apply eqb_prop. revert c Hc. apply vct_bytes. by vm_compute. Qed.

Lemma is_dig_ok base c : byte c -> is_dig base c = Ok (base_digit base c).
Proof.
  intros Hc. unfold is_dig, base_digit. rewrite <-ishex_ok by done.
  destruct (vct_ishex c) eqn:E; [|done]. by rewrite (hex_at_ok c Hc E).
Qed.

Lemma base_digit_hex base c : byte c -> base_digit base c = true ->
  hex_at c = Ok (hex_digit c) /\ 0 <= hex_digit c < base.
Proof.
  intros Hc Hd. unfold base_digit in Hd. rewrite andb_true_iff in Hd. destruct Hd as [Hx Hl].
  rewrite <-ishex_ok in Hx by done. split; [by apply hex_at_ok|]. split; [|lia].
  assert ((negb (vct_ishex c) || (0 <=? hex_digit c)) = true) as Hf
    by (clear Hx Hl; revert c Hc; apply (vct_bytes (fun c => negb (vct_ishex c) || (0 <=? hex_digit c))); by vm_compute).
  rewrite Hx in Hf. simpl in Hf. lia.
Qed.

(** *** The unsigned parser *)

Lemma base_value_app base v ds : 0 < base -> 0 <= v ->
  foldl (fun v c => v * base + hex_digit c) v ds = v * base ^ Z.of_nat (length ds) + base_value base ds.
Proof.
  intros Hb. unfold base_value. revert v. induction ds as [|c ds IH] using rev_ind; intros v Hv; [simpl; lia|].
  rewrite !foldl_snoc, IH, length_app by done. simpl length. rewrite Nat2Z.inj_add, Z.pow_add_r by lia.
  change (base ^ Z.of_nat 1) with (base ^ 1). rewrite Z.pow_1_r. ring.
Qed.

Lemma base_value_nonneg base ds :
  0 < base -> Bytes ds -> Forall (fun c => base_digit base c = true) ds -> 0 <= base_value base ds.
Proof.
  intros Hb Hy Hd. unfold base_value. induction ds as [|c ds IH] using rev_ind; [simpl; lia|].
  apply Forall_app in Hy as [Hy Hc], Hd as [Hd Hdc]. inversion_clear Hc. inversion_clear Hdc.
  rewrite foldl_snoc. destruct (base_digit_hex base c) as [_ ?]; [done|done|]. specialize (IH Hy Hd). nia.
Qed.

(** The value of a prefix is smaller. *)
Lemma base_value_mono base ds v :
  0 < base -> Bytes ds -> Forall (fun c => base_digit base c = true) ds -> 0 <= v ->
  v <= foldl (fun v c => v * base + hex_digit c) v ds.
Proof.
  intros Hb Hy Hd Hv. rewrite base_value_app by done. pose proof (base_value_nonneg base ds Hb Hy Hd).
  pose proof (Z.pow_pos_nonneg base (Z.of_nat (length ds)) Hb ltac:(lia)). nia.
Qed.

(** What stops the loop: the end of the range or a byte that is no digit. *)
Definition stops (base : Z) (n : nat) (p : list Z) : Prop :=
  n = 0%nat \/ exists c q, p = c :: q /\ byte c /\ base_digit base c = false.

Lemma uint_loop_ok base ds : forall n p u,
  2 <= base <= 16 -> Bytes ds -> Forall (fun c => base_digit base c = true) ds -> 0 <= u <= SSIZE_MAX ->
  stops base n p ->
  let v := foldl (fun v c => v * base + hex_digit c) u ds in
  if v <=? SSIZE_MAX then uint_loop (length ds + n) (ds ++ p) u base = Ok (v, p)
  else exists q, uint_loop (length ds + n) (ds ++ p) u base = Ok (-2, q).
Proof.
  intros n p u Hb Hy Hd. revert u. induction Hd as [|c ds Hc Hd IH]; intros u Hu Hs; cbv zeta.
  - simpl. rewrite (proj2 (Z.leb_le u _)) by lia. destruct Hs as [->|(c & q & -> & Hc & Hn)]; [done|].
    destruct n; [done|]. cbn [uint_loop]. rewrite deref_cons. cbn [mbind outcome_bind].
    rewrite is_dig_ok by done. cbn [mbind outcome_bind]. by rewrite Hn.
  - inversion_clear Hy as [|? ? Hcb Hyb]. destruct (base_digit_hex base c Hcb Hc) as [Hx Hr].
    cbn [length Nat.add app uint_loop foldl]. rewrite deref_cons. cbn [mbind outcome_bind].
    rewrite is_dig_ok by done. cbn [mbind outcome_bind]. rewrite Hc, Hx. cbn [mbind outcome_bind tail].
    pose proof (Z.div_mod SSIZE_MAX base ltac:(lia)). pose proof (Z.mod_pos_bound SSIZE_MAX base ltac:(lia)).
    pose proof (base_value_mono base ds (u * base + hex_digit c) ltac:(lia) Hyb Hd ltac:(nia)) as Hmono.
    destruct (Z.ltb_spec (SSIZE_MAX / base) u); [|destruct (Z.ltb_spec (SSIZE_MAX - hex_digit c) (u * base))].
    + rewrite (proj2 (Z.leb_gt _ SSIZE_MAX)) by nia. eauto.
    + rewrite (proj2 (Z.leb_gt _ SSIZE_MAX)) by lia. eauto.
    + apply (IH Hyb); [lia|done].
Qed.

(** On a string of digits of the base, in front of the end of the range or
    of another character, [VNUM_uint] and [VNUM_hex] return the value and point
    behind the digits, or return -2 when the value does not fit an [ssize_t]. *)
Theorem vnum_uint_ok base ds n p
    (Hb : base = 10 \/ base = 16) (Hne : ds <> []) (Hy : Bytes ds)
    (Hd : Forall (fun c => base_digit base c = true) ds) (Hs : stops base n p) :
  let v := base_value base ds in
  if v <=? SSIZE_MAX then vnum_uint (ds ++ p) (Some (length ds + n)%nat) base = Ok (v, p)
  else exists q, vnum_uint (ds ++ p) (Some (length ds + n)%nat) base = Ok (-2, q).
Proof.
  pose proof (uint_loop_ok base ds n p 0 ltac:(lia) Hy Hd ltac:(done) Hs) as Hl. cbv zeta in *.
  unfold vnum_uint, base_value in *. destruct ds as [|c ds]; [done|].
  inversion_clear Hy. inversion_clear Hd. cbn [app mbind outcome_bind] in *. rewrite deref_cons.
  cbn [mbind outcome_bind]. rewrite is_dig_ok by done. cbn [mbind outcome_bind]. by rewrite H1.
Qed.

Lemma vnum_uint_ok_witness : vnum_uint [52; 102; 0] (Some 2%nat) 16 = Ok (79, [0]).
Proof.
  apply (vnum_uint_ok 16 [52; 102] 0 [0]); [by right|done|repeat constructor; done|repeat constructor|by left].
Defined.

(** *** The signed parser *)

Lemma dec_value_snoc ds c : dec_value (ds ++ [c]) = dec_value ds * 10 + (c - 48).
Proof. unfold dec_value. by rewrite foldl_snoc. Qed.

Lemma sf_digits_ok ds c p maxdig : forall v nd,
  Forall (fun c => isdigit c = true) ds -> byte c -> isdigit c = false ->
  nd + Z.of_nat (length ds) <= maxdig ->
  sf_digits (ds ++ c :: p) v nd maxdig =
    Ok (foldl (fun v c => v * 10 + (c - 48)) v ds, c :: p, nd + Z.of_nat (length ds), false).
Proof.
  intros v nd Hd Hc Hn. revert v nd. induction Hd as [|d ds Hd Hds IH]; intros v nd Hl.
  - simpl. rewrite isdigit_ok, Hn by done. repeat f_equal. lia.
  - cbn [app sf_digits length foldl] in *. rewrite isdigit_ok, Hd by (unfold isdigit, byte in *; lia).
    rewrite (proj2 (Z.ltb_ge _ _)) by lia. rewrite IH by lia.
    by replace (nd + Z.of_nat (S (length ds))) with (nd + 1 + Z.of_nat (length ds)) by lia.
Qed.

Lemma sf_digits_fat ds p maxdig : forall v nd,
  Forall (fun c => isdigit c = true) ds -> 0 <= nd <= maxdig -> maxdig < nd + Z.of_nat (length ds) ->
  exists r q k, sf_digits (ds ++ p) v nd maxdig = Ok (r, q, k, true).
Proof.
  intros v nd Hd. revert v nd. induction Hd as [|d ds Hd Hds IH]; intros v nd Hn Hl; [simpl in Hl; lia|].
  cbn [app sf_digits length] in *. rewrite isdigit_ok, Hd by (unfold isdigit, byte in *; lia).
  destruct (Z.ltb_spec maxdig (nd + 1)); [by do 3 eexists|]. apply IH; lia.
Qed.

Lemma ows_skip w : Forall (fun c => c = 32 \/ c = 9) w -> Forall (fun c => vct_isows c = true) w.
Proof. intros Hw. eapply Forall_impl; [exact Hw|]. by intros c [-> | ->]. Qed.

Lemma dec_value_bound ds : Forall (fun c => isdigit c = true) ds ->
  0 <= dec_value ds < 10 ^ Z.of_nat (length ds).
Proof.
  induction ds as [|c ds IH] using rev_ind; [done|]. intros [Hd Hc]%Forall_app.
  inversion_clear Hc as [|? ? Hc' _]. specialize (IH Hd). rewrite dec_value_snoc, length_app. cbn [length].
  rewrite Nat2Z.inj_add, Z.pow_add_r by lia. unfold isdigit in Hc'. change (10 ^ Z.of_nat 1) with 10. lia.
Qed.

Lemma ows_byte c : vct_isows c = true -> byte c -> isdigit c = false /\ c <> 45.
Proof.
  intros Ho Hc. rewrite isows_ok in Ho by done. apply orb_true_iff in Ho. unfold isdigit. lia.
Qed.

(** The end of a number: blanks and a character that is neither blank nor digit. *)
Lemma sf_digits_end ds w c p nd maxdig :
  Forall (fun c => isdigit c = true) ds -> Forall (fun c => c = 32 \/ c = 9) w ->
  byte c -> isdigit c = false -> nd + Z.of_nat (length ds) <= maxdig ->
  exists d q, w ++ c :: p = d :: q /\
    sf_digits (ds ++ w ++ c :: p) 0 nd maxdig = Ok (dec_value ds, d :: q, nd + Z.of_nat (length ds), false).
Proof.
  intros Hd Hw Hc Hn Hl. destruct Hw as [|d w Hw Hws]; cbn [app].
  - exists c, p. split; [done|]. by apply sf_digits_ok.
  - exists d, (w ++ c :: p). split; [done|]. apply sf_digits_ok; try done; destruct Hw as [-> | ->]; done.
Qed.

(** What is read of a number, up to the blanks behind it. *)
Lemma sf_parse_int_ok w (neg : bool) ds w' c p :
  Forall (fun c => c = 32 \/ c = 9) w -> Forall (fun c => c = 32 \/ c = 9) w' -> Forall (fun c => isdigit c = true) ds -> ds <> [] ->
  byte c -> isdigit c = false -> vct_isows c = false ->
  let s := w ++ (if neg then [45] else []) ++ ds ++ w' ++ c :: p in
  if (length ds <=? 15)%nat then sf_parse_int s 15 = Ok (dec_value ds, c :: p, (if neg then -1 else 1), None)
  else exists v q, sf_parse_int s 15 = Ok (v, q, (if neg then -1 else 1), Some err_fatnum).
Proof.
  intros Hw Hw' Hd Hne Hc Hnd Hno s. unfold sf_parse_int, s. clear s. rewrite skip_app by by apply ows_skip.
  destruct ds as [|d ds]; [done|]. pose proof Hd as Hd0. inversion_clear Hd as [|? ? Hdd Hds].
  assert (byte d) as Hdb by (unfold isdigit, byte in *; lia).
  assert (vct_isows d = false /\ (d =? 45) = false) as [Hdo Hd45].
  { rewrite isows_ok by done. unfold isdigit in Hdd. split; [apply orb_false_iff|]; lia. }
  set (r := (d :: ds) ++ w' ++ c :: p).
  assert (exists x y, (if neg then [45] else []) ++ r = x :: y /\ vct_isows x = false /\
    (if x =? 45 then (-1, tail (x :: y)) else (1, x :: y)) = ((if neg then -1 else 1), r))
    as (x & y & -> & Hx & Hsel).
  { destruct neg; [by exists 45, r|]. exists d, (ds ++ w' ++ c :: p). by rewrite Hd45. }
  rewrite skip_stop by done. cbn [mbind outcome_bind]. rewrite deref_cons. cbn [mbind outcome_bind].
  rewrite Hsel. subst r. destruct (Nat.leb_spec (length (d :: ds)) 15) as [Hle|Hgt].
  - destruct (sf_digits_end (d :: ds) w' c p 0 15 Hd0 Hw' Hc Hnd ltac:(lia)) as (e & q & E & ->).
    cbn [mbind outcome_bind]. rewrite (proj2 (Z.eqb_neq _ 0)) by (cbn [length]; lia).
    by rewrite <-E, skip_app, skip_stop by (done || by apply ows_skip).
  - destruct (sf_digits_fat (d :: ds) (w' ++ c :: p) 15 0 0 Hd0) as (v & q & k & ->); [lia|lia|].
    cbn [mbind outcome_bind]. eauto.
Qed.

(** An integer of RFC 8941, at most fifteen digits with an optional sign
    and blanks around it, is parsed to its value, which is below 10^15; a
    sixteenth digit is an error. *)
Theorem SF_Parse_Integer_ok w (neg : bool) ds w' c p
    (Hw : Forall (fun c => c = 32 \/ c = 9) w) (Hw' : Forall (fun c => c = 32 \/ c = 9) w')
    (Hd : Forall (fun c => isdigit c = true) ds) (Hne : ds <> [])
    (Hc : byte c) (Hnd : isdigit c = false) (Hno : vct_isows c = false) :
  let s := w ++ (if neg then [45] else []) ++ ds ++ w' ++ c :: p in
  if (length ds <=? 15)%nat then
    SF_Parse_Integer s = Ok (dec_value ds * (if neg then -1 else 1), c :: p, None) /\
    0 <= dec_value ds < 10 ^ 15
  else exists v q, SF_Parse_Integer s = Ok (v, q, Some err_fatnum).
Proof.
  intros s. pose proof (sf_parse_int_ok w neg ds w' c p Hw Hw' Hd Hne Hc Hnd Hno) as H. cbv zeta in H. fold s in H. unfold SF_Parse_Integer.
  destruct (Nat.leb_spec (length ds) 15) as [Hle|Hgt].
  - rewrite H. split; [done|]. pose proof (dec_value_bound ds Hd). pose proof (Z.pow_le_mono_r 10 (Z.of_nat (length ds)) 15). lia.
  - destruct H as (v & q & ->). cbn [mbind outcome_bind]. eauto.
Qed.

Lemma SF_Parse_Integer_ok_witness : SF_Parse_Integer [32; 45; 52; 50; 0] = Ok (-42, [0], None).
Proof.
  apply (SF_Parse_Integer_ok [32] true [52; 50] [] 0 []); try done; repeat constructor.
Defined.
