(* ===== verification/VnumDec.v ===== *)
(** * Decimal numbers, durations and sizes (lib/vnum.c)

    The parsers whose results are doubles.  NULL for [errtxt] is possible in
    SF_Parse_Number alone, and is an argument there. *)

From Stdlib Require Import ZArith Lia ZifyBool SpecFloat.
From stdpp Require Import base option numbers list.
From S2P Require Import Prelude CStr Vct Vnum Dbl.
#[local] Open Scope Z_scope.

Definition VRT_DECIMAL_MAX : dbl := S754_finite false 0x1d1a94a1fffff8 (-13).
Definition VRT_DECIMAL_MIN : dbl := S754_finite true 0x1d1a94a1fffff8 (-13).

(** At most [n] digits of the fraction; the third part of the result counts them. *)
Fixpoint frac_digits (n : nat) (ip : list Z) (retval scale : dbl) (ndig : Z) : outcome (dbl * list Z * Z) :=
  match n with
  | O => Ok (retval, ip, ndig)
  | S n =>
      let scale := dmul scale (d_lit 1 10) in
      c ← deref ip;
      if vct_isdigit c then frac_digits n (tail ip) (dadd retval (dmul scale (d_of (c - 48)))) scale (ndig + 1)
      else Ok (retval, ip, ndig)
  end.

(** The value, the pointer, and the error; [errno] is set with it. *)
Definition SF_Parse_Number (ip : list Z) (strict errtxt : bool) : outcome (dbl * list Z * option num_err) :=
  '(n, ip, sign, err) ← sf_parse_int ip 15;
  let retval := d_of n in
  if strict && negb (bool_decide (err = None)) then Ok (S754_zero false, ip, err)
  else
    c ← deref ip;
    if negb (c =? 46) then Ok (dmul retval (d_of sign), ip, err)
    else if dlt retval VRT_DECIMAL_MIN || dlt VRT_DECIMAL_MAX retval then Ok (retval, ip, Some err_fatnum)
    else if negb errtxt then Fault FUndef
    else
      none ← (if bool_decide (err = Some err_no_digits) then c ← readC ip 1; Ok (negb (vct_isdigit c)) else Ok false);
      if none : bool then Ok (retval, ip, Some err_no_digits)
      else
        '(retval, ip, ndig) ← frac_digits 3 (tail ip) retval (d_of 1) 0;
        if strict && (ndig =? 0) then Ok (retval, ip, Some err_invalid_num)
        else
          c ← deref ip;
          if strict && vct_isdigit c then Ok (retval, ip, Some err_fatnum)
          else ip ← skip vct_isdigit ip; ip ← skip vct_isows ip; Ok (dmul retval (d_of sign), ip, None).

Definition SF_Parse_Decimal (ip : list Z) (strict errtxt : bool) : outcome (dbl * list Z * option num_err) :=
  '(retval, ip, err) ← SF_Parse_Number ip strict errtxt;
  match err with
  | Some _ => Ok (retval, ip, err)
  | None => if dlt retval VRT_DECIMAL_MIN || dlt VRT_DECIMAL_MAX retval then Ok (retval, ip, Some err_fatnum) else Ok (retval, ip, None)
  end.

Definition VNUM (p : list Z) : outcome dbl :=
  '(r, p, err) ← SF_Parse_Number p false true;
  c ← deref p;
  Ok (if negb (bool_decide (err = None)) || negb (c =? 0) then S754_nan else r).

(** The bytes of [b] to [e], which is NULL when absent. *)
Definition range (b : list Z) (e : option nat) : outcome (list Z) := match e with Some n => Ok (take n b) | None => string_at b end.

(** [sc] of a unit of time, and the pointer. *)
Definition dur_unit (c : Z) (b : list Z) : option (dbl * list Z) :=
  if c =? 115 then Some (d_of 1, b)
  else if c =? 109 then if bool_decide (head b = Some 115) then Some (d_lit 1 1000, tail b) else Some (d_of 60, b)
  else if c =? 104 then Some (d_of (60 * 60), b)
  else if c =? 100 then Some (d_of (60 * 60 * 24), b)
  else if c =? 119 then Some (d_of (60 * 60 * 24 * 7), b)
  else if c =? 121 then Some (d_of (60 * 60 * 24 * 365), b)
  else None.
Definition VNUM_duration_unit (r : dbl) (b : list Z) (e : option nat) : outcome dbl :=
  b ← range b e;
  match skip_to vct_issp b with
  | [] => Ok S754_nan
  | c :: b =>
      match dur_unit c b with
      | None => Ok S754_nan
      | Some (sc, b) => match skip_to vct_issp b with [] => Ok (dmul r sc) | _ => Ok S754_nan end
      end
  end.
Definition VNUM_duration (p : option (list Z)) : outcome dbl :=
  match p with
  | None => Ok S754_nan
  | Some p => '(r, p, err) ← SF_Parse_Number p false true; match err with Some _ => Ok S754_nan | None => VNUM_duration_unit r p None end
  end.

(** Errors of sizes. *)
Inductive bytes_err := bytes_num (e : num_err) | err_unknown_bytes | err_fractional_bytes.

(** [(int64_t)trunc(x)]; the conversion would cut the fraction off itself. *)
Definition to_int64 (x : dbl) : outcome Z := to_int (- 2 ^ 63) (2 ^ 63 - 1) x.

(** The power of two of a letter. *)
Definition size_unit (c : Z) : option Z :=
  if (c =? 107) || (c =? 75) then Some 10
  else if (c =? 109) || (c =? 77) then Some 20
  else if (c =? 103) || (c =? 71) then Some 30
  else if (c =? 116) || (c =? 84) then Some 40
  else if (c =? 112) || (c =? 80) then Some 50
  else None.
Definition is_b (c : Z) : bool := (c =? 98) || (c =? 66).
(** [sc], [r] and [b] behind the unit, or the error. *)
Definition bytes_scale (r : dbl) (rel : Z) (c : Z) (b : list Z) : bytes_err + dbl * dbl * list Z :=
  if negb (rel =? 0) && (c =? 37) then inr (d_of 1, dmul r (dmul (d_of rel) (d_lit 1 100)), b)
  else
    match (match size_unit c with
           | Some k => inr (exp2 k, b)
           | None => if is_b c then if fractional r then inl err_fractional_bytes else inr (d_of 1, c :: b) else inl err_unknown_bytes
           end) with
    | inl e => inl e
    | inr (sc, b) => inr (sc, r, match b with d :: b' => if is_b d then b' else b | [] => [] end)
    end.
(** The value, and the error that sets [errno]. *)
Definition VNUM_bytes_unit (r : dbl) (b : list Z) (e : option nat) (rel : Z) : outcome (Z * option bytes_err) :=
  b ← range b e;
  match skip_to vct_issp b with
  | [] => v ← to_int64 (dmul (d_of 1) r); Ok (v, if fractional r then Some err_fractional_bytes else None)
  | c :: b =>
      match bytes_scale r rel c b with
      | inl e => Ok (0, Some e)
      | inr (sc, r, b) => match skip_to vct_issp b with [] => v ← to_int64 (dmul sc r); Ok (v, None) | _ => Ok (0, Some err_unknown_bytes) end
      end
  end.

(** The error text, or what is stored in [r]. *)
Definition VNUM_2bytes (p : option (list Z)) (rel : Z) : outcome (bytes_err + Z) :=
  match p with
  | None => Ok (inl (bytes_num err_invalid_num))
  | Some p =>
      c ← deref p;
      if c =? 0 then Ok (inl (bytes_num err_invalid_num))
      else
        '(fval, p, err) ← SF_Parse_Number p true true;
        match err with
        | Some e => Ok (inl (bytes_num e))
        | None =>
            if dlt fval (S754_zero false) then Ok (inl (bytes_num err_invalid_num))
            else
              '(v, err) ← VNUM_bytes_unit fval p None rel;
              match err with Some e => Ok (inl e) | None => r ← to_int 0 (2 ^ 64 - 1) (d_of v); Ok (inr r) end
        end
  end.

(** A text with its NUL. *)
Definition with_nul (s : list Z) : list Z := s ++ [0].
