(* ===== verification/VnumSpec.v ===== *)
(** * Numbers: the tests of vnum.c, and the size of a size

    The four tables of tests at the end of lib/vnum.c pass; what they check by
    printing is checked here by comparing doubles.  [vnum_2bytes_ok] is about
    all whole sizes. *)

From Stdlib Require Import ZArith Lia ZifyBool SpecFloat String.
From stdpp Require Import base option numbers list.
From S2P Require Import Prelude CStr Vct HpackData Vnum Dbl VnumDec.
#[local] Open Scope Z_scope.

(** ** Tests *)

(** Input, [maxdig], value, bytes consumed, sign and error. *)
Definition test_sf_parse_int : list (list Z * Z * Z * nat * Z * option num_err) := [
  (str "1234", 3, 123, 3%nat, 1, Some err_fatnum);
  (str "1234", 4, 1234, 4%nat, 1, None);
  (str "1234", 5, 1234, 4%nat, 1, None);
  (str "-", 5, 0, 1%nat, (-1), Some err_no_digits);
  (str "  ", 5, 0, 2%nat, 1, Some err_no_digits);
  (str "-1234", 3, 123, 4%nat, (-1), Some err_fatnum);
  (str "-1234", 4, 1234, 5%nat, (-1), None);
  (str "-1234", 5, 1234, 5%nat, (-1), None);
  (str " -1234", 5, 1234, 6%nat, (-1), None);
  (str " -1234 ", 5, 1234, 7%nat, (-1), None);
  (str " -12 34 ", 5, 12, 5%nat, (-1), None);
  (str " - 12 34 ", 5, 0, 2%nat, (-1), Some err_no_digits)].
(** Input, [strict], value in thousandths, bytes consumed and error. *)
Definition test_sf_parse_number : list (list Z * bool * Z * nat * option num_err) := [
  (str "1234", true, 1234000, 4%nat, None);
  (str " 1234", true, 1234000, 5%nat, None);
  (str " 1234 ", true, 1234000, 6%nat, None);
  (str " 1234. ", true, 1234000, 6%nat, Some err_invalid_num);
  (str " 123456789012.0 ", true, 123456789012000, 16%nat, None);
  (str " 1234567890123.0 ", true, 1234567890123000, 14%nat, Some err_fatnum);
  (str " 123456789012.123 ", true, 123456789012123, 18%nat, None);
  (str " 123456789012.1234 ", true, 123456789012123, 17%nat, Some err_fatnum);
  (str " -0.123456 ", true, 123, 7%nat, Some err_fatnum);
  (str " -.123456 ", true, 0, 2%nat, Some err_no_digits);
  (str " .123456 ", true, 0, 1%nat, Some err_no_digits);
  (str " 0. ", true, 0, 3%nat, Some err_invalid_num);
  (str " .0 ", true, 0, 1%nat, Some err_no_digits);
  (str " 123456789012.1234 ", false, 123456789012123, 19%nat, None);
  (str " -0.123456 ", false, (-123), 11%nat, None);
  (str " -.123456 ", false, (-123), 10%nat, None);
  (str " .123456 ", false, 123, 9%nat, None);
  (str " 0. ", false, 0, 4%nat, None);
  (str " .0 ", false, 0, 4%nat, None);
  (str " -0. ", false, 0, 5%nat, None);
  (str " -.0 ", false, 0, 5%nat, None);
  (str " - ", false, 0, 2%nat, Some err_no_digits);
  (str " -. ", false, 0, 2%nat, Some err_no_digits);
  (str " . ", false, 0, 1%nat, Some err_no_digits)].
(** Input, [rel], and the value or the error. *)
Definition test_vnum_2bytes : list (list Z * Z * (bytes_err + Z)) := [
  (str "1", 0, inr 1);
  (str "1B", 0, inr 1);
  (str "1 B", 0, inr 1);
  (str "1.3B", 0, inl err_fractional_bytes);
  (str "1.7B", 0, inl err_fractional_bytes);
  (str "1024", 0, inr 1024);
  (str "1k", 0, inr 1024);
  (str "1kB", 0, inr 1024);
  (str "0.75kB", 0, inr 768);
  (str "1.3kB", 0, inr 1331);
  (str "1.70kB", 0, inr 1740);
  (str "1048576", 0, inr 1048576);
  (str "1M", 0, inr 1048576);
  (str "1MB", 0, inr 1048576);
  (str "1.3MB", 0, inr 1363148);
  (str "1.700MB", 0, inr 1782579);
  (str "1073741824", 0, inr 1073741824);
  (str "1G", 0, inr 1073741824);
  (str "1GB", 0, inr 1073741824);
  (str "1.3GB", 0, inr 1395864371);
  (str "1.7GB", 0, inr 1825361100);
  (str "1099511627776", 0, inr 1099511627776);
  (str "1T", 0, inr 1099511627776);
  (str "1TB", 0, inr 1099511627776);
  (str "1.3TB", 0, inr 1429365116108);
  (str "1.7	TB", 0, inr 1869169767219);
  (str "999999999999999", 0, inr 999999999999999);
  (str "1125899906842624", 0, inl (bytes_num err_fatnum));
  (str "1P	", 0, inr 1125899906842624);
  (str "1PB ", 0, inr 1125899906842624);
  (str "1.3 PB", 0, inr 1463669878895411);
  (str "1.5%", 1024, inr 15);
  (str "1.501%", 1024, inr 15);
  (str "2%", 1024, inr 20);
  (str "3%", 1024, inr 30);
  (str "4294967295b", 0, inr 4294967295);
  (str "4294967294b", 0, inr 4294967294);
  ([], 0, inl (bytes_num err_invalid_num));
  (str "-1", 0, inl (bytes_num err_invalid_num));
  (str "1.3", 0, inl err_fractional_bytes);
  (str "1.5011%", 0, inl (bytes_num err_fatnum));
  (str "-", 0, inl (bytes_num err_no_digits));
  (str "m", 0, inl (bytes_num err_no_digits));
  (str "4%", 0, inl err_unknown_bytes);
  (str "3*", 0, inl err_unknown_bytes)].
(** N for not a number. *)
Definition vec : list (list Z) := [
  str " 1"; str " 12"; str " 12."; str " 12.3"; str " 12.34"; str "N12.34e-3"; str "N12.34e3"; str "N12.34e+3"; str "N+12.34e-3"; str "N-12.34e3"; str "N."; str "N.12."; str "N12.."; str "N12.,"; str "N12e,"; str "N12e+,"; str "N12ee,"; str "N1..2"; str "NA"; str "N1A"; str "Ne-3"].

Definition close (a b tol : dbl) : bool := dlt (SFabs (dsub a b)) tol.
Definition test_int (t : list Z * Z * Z * nat * Z * option num_err) : bool :=
  let '(s, maxdig, v, n, sg, e) := t in
  match sf_parse_int (with_nul s) maxdig with
  | Ok (v', p, sg', e') => (v =? v') && (length (with_nul s) - length p =? n)%nat && (sg =? sg') && bool_decide (e = e')
  | Fault _ => false
  end.
Definition test_number (t : list Z * bool * Z * nat * option num_err) : bool :=
  let '(s, strict, v, n, e) := t in
  match SF_Parse_Number (with_nul s) strict true with
  | Ok (v', p, e') => close v' (d_lit v 1000) (d_lit 1 20000) && (length (with_nul s) - length p =? n)%nat && bool_decide (e = e')
  | Fault _ => false
  end.
#[global] Instance bytes_err_eq_dec : EqDecision bytes_err.
Proof. solve_decision. Defined.
Definition test_2bytes (t : list Z * Z * (bytes_err + Z)) : bool :=
  let '(s, rel, r) := t in match VNUM_2bytes (Some (with_nul s)) rel with Ok r' => bool_decide (r = r') | Fault _ => false end.
(** [atof], for the numbers of [vec]. *)
Definition vec_value : list (list Z * dbl) := [(str "1", d_of 1); (str "12", d_of 12); (str "12.", d_of 12); (str "12.3", d_lit 123 10); (str "12.34", d_lit 1234 100)].
Definition test_vec (s : list Z) : bool :=
  match s with
  | [] => false
  | c :: s =>
      match VNUM (with_nul s), find (fun x => bool_decide (x.1 = s)) vec_value with
      | Ok d, v => if c =? 78 then isnan d else match v with Some (_, v) => close d v (dmul (d_lit 1 (10 ^ 15)) v) | None => false end
      | Fault _, _ => false
      end
  end.

Lemma tests_pass : forallb test_int test_sf_parse_int && forallb test_number test_sf_parse_number && forallb test_2bytes test_vnum_2bytes && forallb test_vec vec = true.
Proof. by vm_compute. Qed.
Lemma duration_tests : VNUM_duration None = Ok S754_nan /\ match VNUM_duration (Some (with_nul (str " 365.24219d "))) with Ok d => close d (d_lit 315569088 10) (d_lit 1 (10 ^ 9)) | Fault _ => false end = true.
Proof. split; [done|by vm_compute]. Qed.

(** Without [errtxt] a decimal point is a crash. *)
Lemma no_errtxt : SF_Parse_Number (with_nul (str "1.5")) false false = Fault FUndef.
Proof. by vm_compute. Qed.

(** ** Sizes *)

(** The units k, m, g, t and p with their powers of two, and b. *)
Definition units : list (string * Z) :=
  [("k", 10); ("K", 10); ("m", 20); ("M", 20); ("g", 30); ("G", 30); ("t", 40); ("T", 40); ("p", 50); ("P", 50)]%string.
Definition bytes_unit (b : list Z) : Prop := b = [] \/ b = str "b" \/ b = str "B".

(** The texts of a unit with their power of two. *)
Inductive unit_text : list Z -> Z -> Prop :=
  | plain_unit b : bytes_unit b -> unit_text b 0
  | power_unit c k b : (c, k) ∈ units -> bytes_unit b -> unit_text (str c ++ b) k.

(** As the code has them. *)
Inductive code_unit : list Z -> Z -> Prop :=
  | no_unit : code_unit [] 0
  | code_bytes c : is_b c = true -> code_unit [c] 0
  | code_power c k : size_unit c = Some k -> code_unit [c] k
  | code_power_bytes c b k : size_unit c = Some k -> is_b b = true -> code_unit [c; b] k.

Lemma unit_text_code u k : unit_text u k -> code_unit u k.
Proof.
  assert (forall c, (c = 98 \/ c = 66) -> is_b c = true) as Hb by (unfold is_b; lia).
  intros [b [->|[->| ->]]|c k0 b Hc Hbu]; [constructor|constructor; by apply Hb; left|constructor; by apply Hb; right|].
  assert (exists x, str c = [x] /\ size_unit x = Some k0) as (x & -> & Hx).
  { unfold units in Hc. repeat (apply elem_of_cons in Hc as [[= -> ->]|Hc]; [by eexists|]). by apply elem_of_nil in Hc. }
  destruct Hbu as [->|[->| ->]]; [by apply code_power|by apply code_power_bytes|by apply code_power_bytes].
Qed.

Lemma size_unit_cases c k : size_unit c = Some k -> (c = 107 \/ c = 75 \/ c = 109 \/ c = 77 \/ c = 103 \/ c = 71 \/ c = 116 \/ c = 84 \/ c = 112 \/ c = 80) /\ 0 <= k <= 52.
Proof. unfold size_unit. intros H. repeat (destruct (_ || _) eqn:?E in H; [injection H as <-; lia|]). discriminate. Qed.

(** The size of a whole double in a unit. *)
Lemma bytes_unit_ok u k r rel : code_unit u k -> fractional r = false -> VNUM_bytes_unit r (u ++ [0]) None rel = (v ← to_int64 (dmul (exp2 k) r); Ok (v, None)).
Proof.
  assert (forall c b, size_unit c = Some k -> (b = [] \/ exists d, is_b d = true /\ b = [d]) -> VNUM_bytes_unit r ((c :: b) ++ [0]) None rel = (v ← to_int64 (dmul (exp2 k) r); Ok (v, None))) as Hp.
  { intros c b Hc Hb. pose proof (size_unit_cases c k Hc) as [Hcc _]. unfold VNUM_bytes_unit, range. assert (string_at ((c :: b) ++ [0]) = Ok (c :: b)) as ->.
    { unfold is_b in Hb. destruct Hb as [->|(d & Hd & ->)]; cbn [app string_at]; [by replace (c =? 0) with false by lia|]. by replace (d =? 0) with false by lia; replace (c =? 0) with false by lia. }
    cbn [mbind outcome_bind skip_to]. replace (vct_issp c) with false by (repeat destruct Hcc as [->|Hcc]; try subst c; done). unfold bytes_scale. replace (c =? 37) with false by lia. rewrite andb_false_r, Hc.
    by destruct Hb as [->|(d & Hd & ->)]; [|rewrite Hd]. }
  intros Hu Hr. destruct Hu as [|c Hc|c k Hc|c b k Hc Hb]; [|..|by apply (Hp c []); auto|by apply (Hp c [b]); eauto].
  - unfold VNUM_bytes_unit. cbn. by rewrite Hr.
  - assert (c = 98 \/ c = 66) as [-> | ->] by (unfold is_b in Hc; lia); unfold VNUM_bytes_unit, range, bytes_scale; cbn [app string_at mbind outcome_bind skip_to Z.eqb Pos.eqb]; destruct (rel =? 0); cbn; rewrite Hr; done.
Qed.

(** C34: A size of at most fifteen digits, with a unit or without and with blanks in
    front of it, is the number times the power of two of the unit while that is
    below 2^63; at 2^63 and above the conversion of the double is undefined. *)
Theorem vnum_2bytes_ok ds w u k rel : Forall (fun c => isdigit c = true) ds -> ds <> [] -> (length ds <= 15)%nat -> Forall (fun c => c = 32 \/ c = 9) w -> unit_text u k ->
  VNUM_2bytes (Some (ds ++ w ++ u ++ [0])) rel = if dec_value ds * 2 ^ k <? 2 ^ 63 then Ok (inr (dec_value ds * 2 ^ k)) else Fault FUndef.
Proof.
  intros Hd Hne Hlen Hw Hu%unit_text_code. pose proof (dec_value_bound ds Hd) as Hv. assert (10 ^ Z.of_nat (length ds) <= 10 ^ 15) as Hb by (apply Z.pow_le_mono_r; lia). set (n := dec_value ds) in *. assert (0 <= n < 2 ^ 53) as Hn by lia.
  assert (exists c p, u ++ [0] = c :: p /\ byte c /\ isdigit c = false /\ vct_isows c = false /\ (c =? 46) = false /\ 0 <= k <= 52) as (c & p & Hcp & Hc & Hcd & Hco & Hdot & Hk).
  { destruct Hu as [|c Hc|c k Hc|c b k Hc Hb'].
    - exists 0, []. done.
    - unfold is_b in Hc. exists c, [0]. assert (c = 98 \/ c = 66) as [-> | ->] by lia; done.
    - apply size_unit_cases in Hc as [Hc Hk]. exists c, [0]. repeat destruct Hc as [->|Hc]; try subst c; done.
    - apply size_unit_cases in Hc as [Hc Hk]. exists c, (b :: [0]). repeat destruct Hc as [->|Hc]; try subst c; done. }
  destruct ds as [|d ds]; [done|]. assert (d <> 0) by (inversion_clear Hd; unfold isdigit in *; lia). set (t := d :: ds) in *.
  unfold VNUM_2bytes. change (deref (t ++ w ++ u ++ [0])) with (Ok d). cbn [mbind outcome_bind]. replace (d =? 0) with false by lia. unfold SF_Parse_Number.
  pose proof (sf_parse_int_ok [] false t w c p (proj2 (Forall_nil _) I) Hw Hd Hne Hc Hcd Hco) as Hp. cbn [app] in Hp. rewrite (proj2 (Nat.leb_le _ _) Hlen), <-Hcp in Hp. rewrite Hp. cbn [mbind outcome_bind]. fold n.
  rewrite bool_decide_true by done. cbn [negb andb]. rewrite Hcp. rewrite deref_cons. cbn [mbind outcome_bind]. rewrite Hdot. cbn [negb]. rewrite dmul_1 by done. cbn [mbind outcome_bind]. rewrite dlt_0 by done. rewrite <-Hcp, (bytes_unit_ok u k) by (done || by apply d_of_integral).
  unfold to_int64, to_int. rewrite scaled_whole by done. assert (0 <= n * 2 ^ k) by (pose proof (Z.pow_pos_nonneg 2 k); nia). destruct (n * 2 ^ k <? 2 ^ 63) eqn:E.
  - replace (_ && _) with true by lia. cbn [mbind outcome_bind]. unfold to_int. rewrite d_of_scaled by done. by replace (_ && _) with true by lia.
  - by replace (_ && _) with false by lia.
Qed.

(** "1 kB" and "10000P". *)
Lemma vnum_2bytes_ok_witness : VNUM_2bytes (Some (str "1" ++ [32] ++ str "kB" ++ [0])) 0 = Ok (inr 1024) /\ VNUM_2bytes (Some (str "10000" ++ [] ++ str "P" ++ [0])) 0 = Fault FUndef.
Proof.
  split.
  - apply (vnum_2bytes_ok (str "1") [32] (str "kB") 10); [repeat constructor|done|cbn; lia|repeat constructor; by left|apply (power_unit "k" 10 (str "B")); [left|by right; right]].
  - apply (vnum_2bytes_ok (str "10000") [] (str "P") 50); [repeat constructor|done|cbn; lia|constructor|apply (power_unit "P" 50 []); [do 9 right; left|by left]].
Defined.
