(* ===== verification/Vav.v ===== *)
(** * Splitting a line into arguments (lib/vav.c)

    Backslash sequences, quotes, commas and comments.  A range of bytes from a
    pointer to [e] is a list; the argument vector is a list of slots, where the
    slots that [realloc] adds are indeterminate. *)

From Stdlib Require Import ZArith Lia ZifyBool.
From stdpp Require Import base option numbers list.
From S2P Require Import Prelude CStr Vct Vnum.
#[local] Open Scope Z_scope.

Definition ARGV_COMMENT : Z := Z.shiftl 1 0.
Definition ARGV_COMMA : Z := Z.shiftl 1 1.
Definition ARGV_NOESC : Z := Z.shiftl 1 2.

Definition has (flag f : Z) : bool := truth (Z.land flag f).

(** ** Backslash sequences *)

(** [for (r = 1; r < 4 && r < l; r++)] on the bytes from [s[r]] on; [n] is what
    is left of the three turns.  A [char] is kept as its byte. *)
Fixpoint octal_loop (n : nat) (s : list Z) (r c : Z) : Z * Z :=
  match n, s with
  | S n, d :: s =>
      if negb (isdigit d) then (r, c)
      else if 7 <? d - 48 then (r, c)
      else octal_loop n s (r + 1) (Z.lor (u8 (Z.shiftl c 3)) (d - 48))
  | _, _ => (r, c)
  end.

(** The length of the sequence, 0 when it is not one, and the character. *)
Definition vav_backslash_txt (s : list Z) : outcome (Z * Z) :=
  let l := Z.of_nat (length s) in
  if l <? 2 then Ok (0, 0)
  else
    c0 ← deref s;
    _ ← assertC (c0 =? 92);
    c1 ← readC s 1;
    if c1 =? 110 then Ok (2, 10)
    else if c1 =? 114 then Ok (2, 13)
    else if c1 =? 116 then Ok (2, 9)
    else if c1 =? 34 then Ok (2, 34)
    else if c1 =? 92 then Ok (2, 92)
    else if (48 <=? c1) && (c1 <=? 55) then Ok (octal_loop 3 (drop 1 s) 1 0)
    else if c1 =? 120 then
      if 4 <=? l then
        '(i, p) ← VNUM_hex (drop 2 s) (Some 2%nat);
        if (0 <=? i) && (length p =? length s - 4)%nat then
          _ ← assertC (Z.land i (Z.lnot 255) =? 0); Ok (4, u8 i)
        else Ok (0, 0)
      else Ok (0, 0)
    else Ok (0, 0).

Definition VAV_BackSlash (s : list Z) : outcome (Z * Z) :=
  s ← string_at s; vav_backslash_txt s.

(** The loop: [p] is the buffer, [r] the place to write to. *)
Fixpoint decode_loop (fuel : nat) (q p : list Z) (r : nat) : outcome (option (list Z * nat)) :=
  match q with
  | [] => Ok (Some (p, r))
  | c :: q' =>
      match fuel with
      | O => Fault FFuel
      | S fuel =>
          if negb (c =? 92) then p ← writeC p r c; decode_loop fuel q' p (S r)
          else
            '(i, c) ← vav_backslash_txt q;
            p ← writeC p r c;
            if i =? 0 then Ok None else decode_loop fuel (drop (Z.to_nat i) q) p (S r)
      end
  end.

(** The buffer, or NULL with [errno] set to [EINVAL]. *)
Definition VAV_BackSlashDecode (s : list Z) : outcome (option (list Z)) :=
  res ← decode_loop (length s) s (replicate (S (length s)) 0) 0;
  match res with
  | None => Ok None
  | Some (p, r) => p ← writeC p r 0; Ok (Some p)
  end.

(** ** The argument vector *)

Inductive vav_err := invalid_backslash | invalid_quote | missing_quote | missing_separator.
#[global] Instance vav_err_eq_dec : EqDecision vav_err.
Proof. solve_decision. Defined.

Inductive slot := Garbage | Null | Arg (s : list Z).
#[global] Instance slot_eq_dec : EqDecision slot.
Proof. solve_decision. Defined.

(** [argv] without its error text, [argv[0]], and [nargv]; [largv] is the length
    of [v_argv]. *)
Record vav := mk_vav { v_argv : list slot; v_nargv : nat; v_err : option vav_err }.

(** Where the scan of one argument stops: at an error, or at a pointer with
    [sep] and [quote]. *)
Definition scan_res : Type := vav_err + (list Z * option (list Z) * bool).

Fixpoint scan_arg (fuel : nat) (b : list Z) (quote : bool) (flag : Z) : outcome scan_res :=
  match b with
  | [] => Ok (inr ([], None, quote))
  | c :: b' =>
      match fuel with
      | O => Fault FFuel
      | S fuel =>
          if (c =? 92) && negb (has flag ARGV_NOESC) then
            '(i, _) ← vav_backslash_txt b;
            if i =? 0 then Ok (inl invalid_backslash)
            else scan_arg fuel (drop (Z.to_nat i) b) quote flag
          else if negb quote then
            if isspace c then Ok (inr (b, Some b, quote))
            else if has flag ARGV_COMMA && (c =? 44) then Ok (inr (b, Some b, quote))
            else if negb (has flag ARGV_NOESC) && (c =? 34) then Ok (inl invalid_quote)
            else scan_arg fuel b' quote flag
          else if (c =? 34) && negb (has flag ARGV_NOESC) then Ok (inr (b, Some b, false))
          else scan_arg fuel b' quote flag
      end
  end.

(** Room for one more argument and the end. *)
Definition grow (v : vav) : vav :=
  if (length (v_argv v) <=? v_nargv v + 2)%nat
  then mk_vav (v_argv v ++ replicate (length (v_argv v)) Garbage) (v_nargv v) (v_err v) else v.

Definition set_slot (v : vav) (s : slot) : outcome vav :=
  a ← writeC (v_argv v) (v_nargv v) s; Ok (mk_vav a (v_nargv v) (v_err v)).
Definition next_slot (v : vav) : vav := mk_vav (v_argv v) (S (v_nargv v)) (v_err v).
Definition fail_with (v : vav) (e : vav_err) : vav := mk_vav (v_argv v) (v_nargv v) (Some e).

(** The argument from [p] up to [b]. *)
Definition arg_text (p b : list Z) (flag : Z) : outcome slot :=
  let s := take (length p - length b) p in
  if has flag ARGV_NOESC then Ok (Arg (s ++ [0]))
  else
    d ← VAV_BackSlashDecode s;
    match d with Some d => Ok (Arg d) | None => Fault FAssert end.

(** Is [sep] a character that [f] accepts? *)
Definition sep_is (sep : option (list Z)) (f : Z -> bool) : outcome bool :=
  match sep with None => Ok false | Some s => c ← deref s; Ok (f c) end.

(** [b - sep]. *)
Definition from_sep (sep : option (list Z)) (b : list Z) : nat :=
  match sep with None => 0 | Some s => length s - length b end.

Fixpoint parse_loop (fuel : nat) (b : list Z) (sep : option (list Z)) (v : vav) (flag : Z)
    : outcome (option (list Z) * vav) :=
  match b with
  | [] => Ok (sep, v)
  | c :: b' =>
      match fuel with
      | O => Fault FFuel
      | S fuel =>
          if isspace c then parse_loop fuel b' sep v flag
          else
            sp ← sep_is sep isspace;
            qt ← sep_is sep (fun c => c =? 34);
            if (sp || qt) && (c =? 44) && has flag ARGV_COMMA then parse_loop fuel b' None v flag
            else if qt && (c =? 34) && (from_sep sep b <? 2)%nat then
              Ok (None, fail_with v missing_separator)
            else if has flag ARGV_COMMENT && (c =? 35) then Ok (None, v)
            else
              let quote := (c =? 34) && negb (has flag ARGV_NOESC) in
              let p := if quote then b' else b in
              r ← scan_arg (length p) p quote flag;
              match r with
              | inl e => Ok (None, fail_with v e)
              | inr (b, sep, quote) =>
                  if match sep with None => quote | Some _ => false end
                  then Ok (None, fail_with v missing_quote)
                  else
                    s ← arg_text p b flag;
                    v ← set_slot (grow v) s;
                    parse_loop fuel (tail b) sep (next_slot v) flag
              end
      end
  end.

Definition VAV_ParseTxt (b : list Z) (flag : Z) : outcome vav :=
  '(sep, v) ← parse_loop (length b) b None (mk_vav (replicate 16 Null) 1 None) flag;
  match v_err v with
  | Some _ => Ok v
  | None =>
      comma ← sep_is sep (fun c => c =? 44);
      v ← (if comma : bool then v ← set_slot v (Arg [0]); Ok (next_slot v) else Ok v);
      set_slot v Null
  end.

Definition VAV_Parse (s : list Z) (flag : Z) : outcome vav :=
  s ← string_at s; VAV_ParseTxt s flag.

(** The loop; freeing an indeterminate pointer is a fault. *)
Fixpoint free_args (fuel : nat) (a : list slot) (i : nat) : outcome unit :=
  s ← readC a i;
  match s with
  | Null => Ok tt
  | Garbage => Fault FFree
  | Arg _ => match fuel with O => Fault FFuel | S fuel => free_args fuel a (S i) end
  end.

Definition VAV_Free (v : vav) : outcome unit := free_args (length (v_argv v)) (v_argv v) 1.

(** What a caller sees: [argv[1]] up to the NULL, as C strings. *)
Definition arg_string (s : slot) : option (list Z) :=
  match s with Arg l => match string_at l with Ok s => Some s | _ => None end | _ => None end.
Definition args (v : vav) : list (option (list Z)) :=
  arg_string <$> take (v_nargv v - 1) (drop 1 (v_argv v)).
