(* ===== verification/VavSpec.v ===== *)
(** * Arguments survive quoting

    [escaped t d] says that the text [t] between quotes stands for the bytes
    [d].  VAV_ParseTxt gives back what any encoder with that property wrote,
    never faults on any input, and finds the arguments of a failing line
    unusable once the vector has grown. *)

From Stdlib Require Import ZArith Lia ZifyBool.
From stdpp Require Import base option numbers list.
From S2P Require Import Prelude CStr Vct Vnum Vav.
#[local] Open Scope Z_scope.

(** ** Escape sequences *)

Definition octal (c : Z) : Prop := 48 <= c <= 55.

Inductive escape : list Z -> Z -> Prop :=
  | esc_nl : escape [92; 110] 10
  | esc_cr : escape [92; 114] 13
  | esc_tab : escape [92; 116] 9
  | esc_quote : escape [92; 34] 34
  | esc_back : escape [92; 92] 92
  | esc_oct a b c : 48 <= a <= 51 -> octal b -> octal c ->
      escape [92; a; b; c] ((a - 48) * 64 + (b - 48) * 8 + (c - 48))
  | esc_hex a b : byte a -> byte b -> base_digit 16 a = true -> base_digit 16 b = true ->
      escape [92; 120; a; b] (hex_digit a * 16 + hex_digit b).

Inductive escaped : list Z -> list Z -> Prop :=
  | escaped_nil : escaped [] []
  | escaped_plain c t d : c <> 92 -> c <> 34 -> escaped t d -> escaped (c :: t) (c :: d)
  | escaped_seq e c t d : escape e c -> escaped t d -> escaped (e ++ t) (c :: d).

Lemma octal_facts a b c : 48 <= a <= 51 -> octal b -> octal c ->
  octal_loop 3 [a; b; c] 1 0 = (4, (a - 48) * 64 + (b - 48) * 8 + (c - 48)).
Proof.
  unfold octal. intros Ha Hb Hc.
  assert (forallb (fun a => forallb (fun b => forallb (fun c =>
    bool_decide (octal_loop 3 [a; b; c] 1 0 = (4, (a - 48) * 64 + (b - 48) * 8 + (c - 48))))
    (seqZ 48 8)) (seqZ 48 8)) (seqZ 48 4) = true) as Hall by by vm_compute.
  rewrite forallb_forall in Hall. specialize (Hall a). rewrite forallb_forall in Hall.
  specialize (fun H => Hall H b). rewrite forallb_forall in Hall.
  apply (bool_decide_eq_true_1 (octal_loop 3 [a; b; c] 1 0 = _)).
  apply Hall; apply list_elem_of_In, elem_of_seqZ; lia.
Qed.

Lemma octal_loop_cut a b c r : octal_loop 3 (a :: b :: c :: r) 1 0 = octal_loop 3 [a; b; c] 1 0.
Proof. cbn. by repeat case_match. Qed.

Lemma u8_hex a b : byte a -> byte b -> base_digit 16 a = true -> base_digit 16 b = true ->
  0 <= hex_digit a * 16 + hex_digit b < 256.
Proof.
  intros Ha Hb Hda Hdb. destruct (base_digit_hex 16 a Ha Hda), (base_digit_hex 16 b Hb Hdb). lia.
Qed.

Lemma land_above i : 0 <= i < 256 -> Z.land i (Z.lnot 255) = 0.
Proof.
  intros Hi. apply Z.bits_inj_0. intros k. rewrite Z.land_spec. destruct (decide (k < 0)); [by rewrite Z.testbit_neg_r by lia|].
  rewrite Z.lnot_spec by lia. change 255 with (Z.ones 8). destruct (decide (k < 8)).
  - rewrite Z.ones_spec_low by lia. by rewrite andb_false_r.
  - rewrite <-(Z.mod_small i (2 ^ 8)) by lia. by rewrite Z.mod_pow2_bits_high by lia.
Qed.

(** Two hexadecimal digits. *)
Lemma hex_pair a b r : byte a -> byte b ->
  base_digit 16 a = true -> base_digit 16 b = true ->
  VNUM_hex (a :: b :: r) (Some 2%nat) = Ok (hex_digit a * 16 + hex_digit b, r).
Proof.
  intros Ha Hb Hda Hdb. destruct (base_digit_hex 16 a Ha Hda) as [Hxa Hra], (base_digit_hex 16 b Hb Hdb) as [Hxb Hrb].
  unfold VNUM_hex, vnum_uint. cbn [mbind outcome_bind]. rewrite deref_cons. cbn [mbind outcome_bind].
  rewrite is_dig_ok by done. cbn [mbind outcome_bind]. rewrite Hda. cbn [negb uint_loop].
  rewrite deref_cons. cbn [mbind outcome_bind]. rewrite is_dig_ok by done. cbn [mbind outcome_bind].
  rewrite Hda, Hxa. cbn [mbind outcome_bind tail]. assert (SSIZE_MAX = 9223372036854775807) as HM by done.
  rewrite (proj2 (Z.ltb_ge (SSIZE_MAX / 16) 0)) by (rewrite HM; vm_compute; discriminate).
  rewrite (proj2 (Z.ltb_ge (SSIZE_MAX - _) (0 * 16))) by lia.
  rewrite deref_cons. cbn [mbind outcome_bind]. rewrite is_dig_ok by done. cbn [mbind outcome_bind].
  rewrite Hdb, Hxb. cbn [mbind outcome_bind tail].
  assert (SSIZE_MAX / 16 = 576460752303423487) as -> by done.
  rewrite (proj2 (Z.ltb_ge _ (0 * 16 + _))) by lia. rewrite (proj2 (Z.ltb_ge (SSIZE_MAX - _) _)) by lia. f_equal.
Qed.

Lemma escape_ok e c r : escape e c -> vav_backslash_txt (e ++ r) = Ok (Z.of_nat (length e), c).
Proof.
  intros He. assert (2 <= Z.of_nat (length (e ++ r))) as Hl
    by (rewrite length_app; destruct He; cbn [length]; lia).
  unfold vav_backslash_txt. rewrite (proj2 (Z.ltb_ge _ 2)) by done.
  destruct He as [| | | | |a b c Ha Hb Hc|a b Ha Hb Hda Hdb]; cbn [app]; rewrite deref_cons;
    cbn [mbind outcome_bind assertC Z.eqb Pos.eqb]; try done.
  - unfold octal in *. unfold readC. cbn [lookup list_lookup].
    cbn [mbind outcome_bind]. rewrite !(proj2 (Z.eqb_neq a _)) by lia. rewrite !(proj2 (Z.leb_le _ _)) by lia.
    cbn [drop]. simpl andb. cbv iota. rewrite octal_loop_cut, octal_facts by done. done.
  - unfold readC. cbn [lookup list_lookup]. cbn [mbind outcome_bind Z.eqb Pos.eqb Z.leb Z.compare Pos.compare Pos.compare_cont andb].
    rewrite (proj2 (Z.leb_le 4 _)) by (cbn [length]; lia). cbn [drop]. rewrite hex_pair by done.
    cbn [mbind outcome_bind]. pose proof (u8_hex a b Ha Hb Hda Hdb) as Hr.
    rewrite (proj2 (Z.leb_le 0 _)) by lia. rewrite (proj2 (Nat.eqb_eq _ _)) by (cbn [length]; lia).
    cbn [andb]. rewrite land_above by done. cbn. by rewrite wrapu_small by done.
Qed.

Lemma escape_head e c : escape e c -> exists e', e = 92 :: e' /\ (1 <= length e')%nat.
Proof. intros []; eexists; split; try done; simpl; lia. Qed.

Lemma escape_byte e c : escape e c -> byte c.
Proof.
  intros [| | | | |x y z Hx Hy Hz|x y Hx Hy Hdx Hdy]; [done..| |by apply u8_hex].
  unfold byte, octal in *. lia.
Qed.

(** ** Decoding *)

Lemma writeC_at {A} (pre x : list A) y c : writeC (pre ++ y :: x) (length pre) c = Ok (pre ++ c :: x).
Proof.
  rewrite writeC_lt by (rewrite length_app; simpl; lia). f_equal.
  rewrite <-(Nat.add_0_r (length pre)). by rewrite insert_app_r.
Qed.

Lemma decode_loop_ok t d : escaped t d -> forall fuel pre x,
  (length t <= fuel)%nat -> (length t < length x)%nat ->
  decode_loop fuel t (pre ++ x) (length pre) =
    Ok (Some (pre ++ d ++ drop (length d) x, length pre + length d)%nat) /\ (length d <= length t)%nat.
Proof.
  induction 1 as [|c t d Hc Hq He IH|e c t d Hec He IH]; intros fuel pre x Hf Hx.
  - rewrite Nat.add_0_r. by destruct fuel.
  - destruct fuel as [|fuel]; [simpl in Hf; lia|]. destruct x as [|y x]; [simpl in Hx; lia|].
    cbn [decode_loop length] in *. rewrite (proj2 (Z.eqb_neq c 92)) by done. cbn [negb].
    rewrite writeC_at. cbn [mbind outcome_bind].
    destruct (IH fuel (pre ++ [c]) x) as [E Hl]; [lia|lia|]. rewrite length_app, <-app_assoc in E. cbn [length app] in E.
    replace (S (length pre)) with (length pre + 1)%nat by lia. rewrite E. split; [|lia].
    rewrite <-app_assoc. cbn [app drop]. do 3 f_equal. lia.
  - destruct (escape_head e c Hec) as (e' & Ee & He'). rewrite length_app in Hf, Hx.
    destruct fuel as [|fuel]; [subst; simpl in Hf; lia|]. destruct x as [|y x]; [simpl in Hx; lia|].
    assert (decode_loop (S fuel) (e ++ t) (pre ++ y :: x) (length pre) =
      decode_loop fuel t ((pre ++ [c]) ++ x) (length (pre ++ [c]))) as ->.
    { rewrite Ee at 1. cbn [app decode_loop Z.eqb Pos.eqb negb].
      change (92 :: e' ++ t) with ((92 :: e') ++ t). rewrite <-Ee. rewrite (escape_ok e c t Hec). cbn [mbind outcome_bind].
      rewrite writeC_at. cbn [mbind outcome_bind]. rewrite (proj2 (Z.eqb_neq _ 0)) by (subst; cbn [length]; lia).
      rewrite Nat2Z.id, drop_app_length, length_app, <-app_assoc. cbn [length app].
      by replace (S (length pre)) with (length pre + 1)%nat by lia. }
    assert (1 < length e)%nat by (subst; simpl; lia).
    destruct (IH fuel (pre ++ [c]) x) as [E Hl]; [lia|simpl in Hx; lia|]. rewrite E. split; [|rewrite length_app; simpl; lia].
    rewrite <-app_assoc, length_app. cbn [length app drop]. do 3 f_equal. lia.
Qed.

(** The buffer holds the decoded bytes, and NULs up to its end. *)
Lemma decode_ok t d : escaped t d ->
  VAV_BackSlashDecode t = Ok (Some (d ++ replicate (S (length t) - length d) 0)) /\ (length d <= length t)%nat.
Proof.
  intros He. unfold VAV_BackSlashDecode.
  destruct (decode_loop_ok t d He (length t) [] (replicate (S (length t)) 0)) as [E Hl];
    [done|rewrite length_replicate; lia|].
  cbn [app length Nat.add] in E. rewrite E. cbn [mbind outcome_bind]. split; [|done].
  rewrite drop_replicate. replace (S (length t) - length d)%nat with (S (length t - length d)) by lia.
  cbn [replicate]. by rewrite writeC_at.
Qed.

(** ** Scanning *)

Lemma scan_escaped t d p flag : escaped t d -> has flag ARGV_NOESC = false -> forall fuel,
  (length t < fuel)%nat ->
  scan_arg fuel (t ++ 34 :: p) true flag = Ok (inr (34 :: p, Some (34 :: p), false)).
Proof.
  intros He Hn. induction He as [|c t d Hc Hq He IH|e c t d Hec He IH]; intros fuel Hf.
  - destruct fuel; [simpl in Hf; lia|]. cbn. by rewrite Hn.
  - destruct fuel as [|fuel]; [simpl in Hf; lia|]. cbn [app scan_arg length] in *.
    rewrite (proj2 (Z.eqb_neq c 92)), (proj2 (Z.eqb_neq c 34)) by done. cbn [andb negb]. apply IH. lia.
  - destruct (escape_head e c Hec) as (e' & Ee & He'). rewrite length_app in Hf.
    destruct fuel as [|fuel]; [simpl in Hf; lia|].
    rewrite <-app_assoc. rewrite Ee at 1. cbn [app scan_arg]. rewrite Hn. cbn [andb negb Z.eqb Pos.eqb].
    change (92 :: e' ++ t ++ 34 :: p) with ((92 :: e') ++ t ++ 34 :: p). rewrite <-Ee, (escape_ok e c _ Hec).
    cbn [mbind outcome_bind]. rewrite (proj2 (Z.eqb_neq _ 0)) by (subst; cbn [length]; lia).
    rewrite Nat2Z.id, drop_app_length. apply IH. subst. simpl in Hf. lia.
Qed.

(** ** A line of quoted arguments *)

(** The arguments are in their slots, with room for two more. *)
Definition slots (v : vav) (bufs : list (list Z)) : Prop :=
  exists x, v_argv v = Null :: (Arg <$> bufs) ++ x /\ v_nargv v = S (length bufs) /\
    (2 <= length x)%nat /\ v_err v = None.

Lemma slots_start : slots (mk_vav (replicate 16 Null) 1 None) [].
Proof. exists (replicate 15 Null). split; [done|]. split; [done|]. split; [simpl; lia|done]. Qed.

Lemma slots_set v bufs s : slots v bufs -> exists x,
  set_slot v s = Ok (mk_vav (Null :: (Arg <$> bufs) ++ s :: x) (S (length bufs)) None) /\ (1 <= length x)%nat.
Proof.
  intros (x & Ha & Hn & Hx & He). destruct x as [|y x]; [simpl in Hx; lia|]. exists x. unfold set_slot.
  rewrite Ha, Hn, He.
  replace (S (length bufs)) with (length (Null :: (Arg <$> bufs))) at 1 by (simpl; by rewrite length_fmap).
  change (Null :: (Arg <$> bufs) ++ y :: x) with ((Null :: (Arg <$> bufs)) ++ y :: x).
  rewrite writeC_at. split; [done|simpl in Hx; lia].
Qed.

Lemma slots_grow v bufs : slots v bufs -> exists x,
  grow v = mk_vav (Null :: (Arg <$> bufs) ++ x) (S (length bufs)) None /\ (3 <= length x)%nat.
Proof.
  intros (x & Ha & Hn & Hx & He). unfold grow. destruct (Nat.leb_spec (length (v_argv v)) (v_nargv v + 2)) as [Hle|Hgt].
  - exists (x ++ replicate (length (v_argv v)) Garbage). rewrite Hn, He, Ha at 1. split; [by rewrite app_comm_cons, <-app_assoc|].
    rewrite length_app, length_replicate, Ha. simpl. lia.
  - exists x. destruct v as [a n e]. simpl in *. subst. split; [done|].
    simpl in Hgt. rewrite length_app, length_fmap in Hgt. lia.
Qed.

(** Storing one more argument. *)
Lemma slots_add v bufs b : slots v bufs ->
  exists v', set_slot (grow v) (Arg b) = Ok v' /\ slots (next_slot v') (bufs ++ [b]).
Proof.
  intros Hv. destruct (slots_grow v bufs Hv) as (x & -> & Hx). destruct x as [|y x]; [simpl in Hx; lia|].
  eexists. split.
  - unfold set_slot. cbn [v_argv v_nargv v_err].
    replace (S (length bufs)) with (length (Null :: (Arg <$> bufs))) at 1 by (simpl; by rewrite length_fmap).
    rewrite app_comm_cons, writeC_at. done.
  - exists x. cbn [next_slot v_argv v_nargv v_err]. rewrite fmap_app, <-app_assoc, length_app. split; [done|].
    split; [simpl; lia|]. split; [simpl in Hx; lia|done].
Qed.

Definition vav_quoted (t : list Z) : list Z := 34 :: t ++ [34].

(** The texts between quotes, with [sc] between them. *)
Fixpoint vav_line (sc : Z) (ts : list (list Z)) : list Z :=
  match ts with
  | [] => []
  | [t] => vav_quoted t
  | t :: ts => vav_quoted t ++ sc :: vav_line sc ts
  end.

(** The buffer an argument is decoded into. *)
Definition arg_buffer (td : list Z * list Z) : list Z :=
  td.2 ++ replicate (S (length td.1) - length td.2) 0.

(** Nothing before [b] asks for a separator. *)
Definition separated (sep : option (list Z)) (b : list Z) : Prop :=
  sep = None \/ exists q, sep = Some (34 :: q) /\ (2 <= S (length q) - length b)%nat.

Section line.
Context (flag : Z) (Hn : has flag ARGV_NOESC = false).

Lemma parse_quoted fuel t d p sep v bufs :
  escaped t d -> separated sep (vav_quoted t ++ p) -> slots v bufs ->
  exists v', slots v' (bufs ++ [arg_buffer (t, d)]) /\
    parse_loop (S fuel) (vav_quoted t ++ p) sep v flag = parse_loop fuel p (Some (34 :: p)) v' flag.
Proof.
  intros He Hsep Hv. unfold vav_quoted in *. cbn [app] in *. rewrite <-app_assoc in *. cbn [app] in *.
  destruct (slots_add v bufs (arg_buffer (t, d)) Hv) as (v' & Hset & Hv'). exists (next_slot v'). split; [done|].
  cbn [parse_loop]. change (isspace 34) with false. cbv iota.
  assert (exists qt : bool, sep_is sep isspace = Ok false /\ sep_is sep (fun c => c =? 34) = Ok qt /\
    qt && Nat.ltb (from_sep sep (34 :: t ++ 34 :: p)) 2 = false) as (qt & -> & -> & Hqt).
  { destruct Hsep as [->|(q & -> & Hq)]; [by exists false|]. exists true. split; [done|]. split; [done|].
    cbn [from_sep andb]. apply Nat.ltb_ge. cbn [length] in *. lia. }
  cbn [mbind outcome_bind]. change (34 =? 44) with false. change (34 =? 34) with true. change (34 =? 35) with false.
  rewrite !andb_false_r, !andb_true_r, Hqt, Hn. cbn [andb negb].
  rewrite (scan_escaped t d p flag He Hn) by (rewrite length_app; simpl; lia). cbn [mbind outcome_bind].
  unfold arg_text. rewrite Hn. rewrite length_app, Nat.add_sub, take_app_length. destruct (decode_ok t d He) as [-> _]. cbn [mbind outcome_bind].
  fold (arg_buffer (t, d)). change (d ++ _) with (arg_buffer (t, d)). rewrite Hset. done.
Qed.

Lemma parse_line sc ts : forall fuel ds sep v bufs,
  sc = 32 \/ sc = 44 /\ has flag ARGV_COMMA = true ->
  Forall2 escaped ts ds -> (length (vav_line sc ts) <= fuel)%nat -> separated sep (vav_line sc ts) -> slots v bufs ->
  exists v' sep', parse_loop fuel (vav_line sc ts) sep v flag = Ok (sep', v') /\
    slots v' (bufs ++ (arg_buffer <$> zip ts ds)) /\
    match sep' with Some s => exists q, s = 34 :: q | None => True end.
Proof.
  induction ts as [|t ts IH]; intros fuel ds sep v bufs Hsc Hts Hf Hsep Hv.
  - apply Forall2_nil_inv_l in Hts as ->. exists v, sep. simpl. rewrite app_nil_r.
    split; [by destruct fuel|]. split; [done|]. destruct Hsep as [->|(q & -> & _)]; eauto.
  - apply Forall2_cons_inv_l in Hts as (d & ds' & Htd & Hts & ->).
    destruct fuel as [|fuel]; [destruct ts; simpl in Hf; lia|].
    assert (exists p, vav_line sc (t :: ts) = vav_quoted t ++ p /\
      (p = [] /\ ts = [] \/ p = sc :: vav_line sc ts)) as (p & Ep & Hp).
    { destruct ts as [|t2 ts]; [exists []|exists (sc :: vav_line sc (t2 :: ts))]; split; auto. simpl. by rewrite app_nil_r. }
    rewrite Ep in *. destruct (parse_quoted fuel t d p sep v bufs Htd Hsep Hv) as (v1 & Hv1 & ->).
    unfold vav_quoted in Hf. rewrite length_app in Hf. cbn [length] in Hf. rewrite length_app in Hf.
    destruct Hp as [[-> ->]| ->].
    + apply Forall2_nil_inv_l in Hts as ->. exists v1, (Some [34]). split; [by destruct fuel|]. split; [done|eauto].
    + cbn [length] in Hf. destruct fuel as [|fuel]; [lia|].
      assert (exists sep1, separated sep1 (vav_line sc ts) /\
        parse_loop (S fuel) (sc :: vav_line sc ts) (Some (34 :: sc :: vav_line sc ts)) v1 flag =
        parse_loop fuel (vav_line sc ts) sep1 v1 flag) as (sep1 & Hsep1 & ->).
      { destruct Hsc as [->|[-> Hcm]].
        - exists (Some (34 :: 32 :: vav_line 32 ts)). split; [|done]. right. eexists. split; [done|]. cbn [length]. lia.
        - exists None. split; [by left|]. cbn. by rewrite Hcm. }
      destruct (IH fuel ds' sep1 v1 (bufs ++ [arg_buffer (t, d)]) Hsc Hts ltac:(lia) Hsep1 Hv1)
        as (v' & sep' & -> & Hv' & Hs'). exists v', sep'. split; [done|]. split; [|done].
      by rewrite <-app_assoc in Hv'.
Qed.
End line.

Lemma arg_buffer_string t d : escaped t d -> no_nul d -> string_at (arg_buffer (t, d)) = Ok d.
Proof.
  intros He Hd. unfold arg_buffer. cbn [fst snd]. destruct (decode_ok t d He) as [_ Hl].
  replace (S (length t) - length d)%nat with (S (length t - length d)) by lia. by apply string_at_app.
Qed.

Lemma args_slots v bufs x n :
  v_argv v = Null :: (Arg <$> bufs) ++ x -> v_nargv v = S (length bufs) -> n = length bufs ->
  args v = (fun b => arg_string (Arg b)) <$> bufs.
Proof.
  intros Ha Hn ->. unfold args. rewrite Ha, Hn. cbn [drop]. rewrite Nat.sub_succ, Nat.sub_0_r.
  replace (length bufs) with (length (Arg <$> bufs)) by by rewrite length_fmap.
  by rewrite drop_0, take_app_length, <-list_fmap_compose.
Qed.

Lemma free_ok bufs y : forall fuel pre, (length bufs <= fuel)%nat ->
  free_args fuel (pre ++ (Arg <$> bufs) ++ Null :: y) (length pre) = Ok tt.
Proof.
  assert (forall pre (s : slot) z, readC (pre ++ s :: z) (length pre) = Ok s) as Hr
    by (intros; rewrite readC_ok; by apply list_lookup_middle).
  induction bufs as [|b bufs IH]; intros fuel pre Hf; cbn [fmap list_fmap app].
  - destruct fuel; cbn [free_args]; by rewrite Hr.
  - destruct fuel as [|fuel]; [simpl in Hf; lia|]. cbn [free_args]. rewrite Hr. cbn [mbind outcome_bind].
    replace (S (length pre)) with (length (pre ++ [Arg b])) by (rewrite length_app; simpl; lia).
    rewrite cons_middle, app_assoc. apply IH. simpl in Hf. lia.
Qed.

Lemma vav_line_ok flag sc ts ds
    (Hn : has flag ARGV_NOESC = false) (Hsc : sc = 32 \/ sc = 44 /\ has flag ARGV_COMMA = true)
    (Hts : Forall2 escaped ts ds) (Hds : Forall no_nul ds) :
  exists v, VAV_ParseTxt (vav_line sc ts) flag = Ok v /\ v_err v = None /\
    args v = Some <$> ds /\ v_argv v !! v_nargv v = Some Null /\ VAV_Free v = Ok tt.
Proof.
  unfold VAV_ParseTxt. destruct (parse_line flag Hn sc ts (length (vav_line sc ts)) ds None
    (mk_vav (replicate 16 Null) 1 None) [] Hsc Hts ltac:(done) ltac:(by left) slots_start)
    as (v & sep & -> & Hv & Hsep). cbn [mbind outcome_bind app] in *.
  pose proof Hv as (x & Ha & Hnv & Hx & ->).
  assert (sep_is sep (fun c => c =? 44) = Ok false) as ->
    by (destruct sep as [s|]; [destruct Hsep as [q ->]|]; done).
  cbn [mbind outcome_bind]. destruct (slots_set v _ Null Hv) as (y & -> & Hy). eexists. split; [done|].
  split; [done|]. set (bufs := arg_buffer <$> zip ts ds) in *. split; [|split].
  - rewrite (args_slots _ bufs (Null :: y) (length bufs)) by done. subst bufs.
    rewrite <-list_fmap_compose. clear -Hts Hds. induction Hts as [|t d ts ds Ht _ IH]; [done|].
    inversion_clear Hds. cbn [zip zip_with fmap list_fmap]. rewrite IH by done. f_equal.
    unfold compose, arg_string. by rewrite arg_buffer_string.
  - cbn [v_argv v_nargv]. rewrite lookup_cons_ne_0 by lia. rewrite Nat.pred_succ.
    rewrite lookup_app_r by by rewrite length_fmap. by rewrite length_fmap, Nat.sub_diag.
  - unfold VAV_Free. cbn [v_argv]. apply (free_ok bufs y _ [Null]).
    cbn [length]. rewrite length_app, length_fmap. lia.
Qed.

(** The bytes of the arguments come back.  A line of texts between quotes,
    with blanks or (with ARGV_COMMA) commas between them, is parsed without an
    error into the strings the texts stand for, with a NULL behind them. *)
Theorem vav_roundtrip flag sc ts ds
    (Hn : has flag ARGV_NOESC = false) (Hsc : sc = 32 \/ sc = 44 /\ has flag ARGV_COMMA = true)
    (Hts : Forall2 escaped ts ds) (Hds : Forall no_nul ds) :
  exists v, VAV_ParseTxt (vav_line sc ts) flag = Ok v /\ v_err v = None /\
    args v = Some <$> ds /\ v_argv v !! v_nargv v = Some Null /\ VAV_Free v = Ok tt.
Proof. by apply vav_line_ok. Qed.

Lemma vav_roundtrip_witness :
  exists v, VAV_ParseTxt [34; 97; 92; 34; 34; 44; 34; 32; 34] ARGV_COMMA = Ok v /\
    args v = [Some [97; 34]; Some [32]].
Proof.
  destruct (vav_roundtrip ARGV_COMMA 44 [[97; 92; 34]; [32]] [[97; 34]; [32]]) as (v & E & _ & Hv & _).
  - done.
  - by right.
  - constructor; [|constructor; [|constructor]].
    + apply escaped_plain; [done|done|]. apply (escaped_seq [92; 34] 34 [] []); [apply esc_quote|apply escaped_nil].
    + apply escaped_plain; [done|done|]. apply escaped_nil.
  - repeat constructor; done.
  - by exists v.
Defined.

(** ** Any line *)

Lemma octal_loop_take n : forall s r c, exists j c', octal_loop n s r c = (r + Z.of_nat j, c') /\
  (j <= length s)%nat /\
  (forall k, (j <= k)%nat -> octal_loop n (take k s) r c = (r + Z.of_nat j, c')) /\
  (forall d s', s = d :: s' -> (n <> 0)%nat -> octal d -> (1 <= j)%nat).
Proof.
  induction n as [|n IH]; intros s r c.
  - exists 0%nat, c. rewrite Z.add_0_r. split; [by destruct s|]. split; [lia|]. split; [|done].
    intros k _. by destruct (take k s).
  - destruct s as [|d s].
    { exists 0%nat, c. rewrite Z.add_0_r. split; [done|]. split; [lia|]. split; [|done]. by intros [|]. }
    cbn [octal_loop]. destruct (isdigit d) eqn:Ed; [cbn [negb]; destruct (Z.ltb_spec 7 (d - 48))|cbn [negb]].
    + exists 0%nat, c. rewrite Z.add_0_r. split; [done|]. split; [lia|]. split; [|unfold octal; intros ? ? [= <- <-]; lia].
      intros [|k] _; [done|]. cbn. rewrite Ed. cbn. by rewrite (proj2 (Z.ltb_lt 7 _)).
    + destruct (IH s (r + 1) (Z.lor (u8 (Z.shiftl c 3)) (d - 48))) as (j & c' & E & Hj & Ht & _).
      exists (S j), c'. rewrite E. split; [f_equal; lia|]. split; [simpl; lia|]. split; [|lia].
      intros [|k] Hk; [lia|]. cbn [take octal_loop]. rewrite Ed. cbn [negb].
      rewrite (proj2 (Z.ltb_ge 7 _)), Ht by lia. f_equal. lia.
    + exists 0%nat, c. rewrite Z.add_0_r. split; [done|]. split; [lia|]. split.
      * intros [|k] _; [done|]. cbn. by rewrite Ed.
      * unfold octal, isdigit in *. intros ? ? [= <- <-]. lia.
Qed.

Lemma hex_pair_cases a b r : byte a -> byte b ->
  VNUM_hex (a :: b :: r) (Some 2%nat) = Ok (
    if base_digit 16 a then
      if base_digit 16 b then (hex_digit a * 16 + hex_digit b, r) else (hex_digit a, b :: r)
    else (-1, a :: b :: r)).
Proof.
  intros Ha Hb. destruct (base_digit 16 a) eqn:Ea; [destruct (base_digit 16 b) eqn:Eb; [by apply hex_pair|]|].
  - pose proof (uint_loop_ok 16 [a] 1 (b :: r) 0 ltac:(lia)) as Hv. cbv zeta in Hv. cbn [foldl] in Hv.
    destruct (base_digit_hex 16 a Ha Ea) as [_ Hr]. assert (SSIZE_MAX = 9223372036854775807) as HM by done.
    rewrite (proj2 (Z.leb_le _ SSIZE_MAX)) in Hv by lia.
    unfold VNUM_hex, vnum_uint. cbn [mbind outcome_bind]. rewrite deref_cons. cbn [mbind outcome_bind].
    rewrite is_dig_ok by done. cbn [mbind outcome_bind]. rewrite Ea. cbn [negb].
    cbn [length Nat.add app] in Hv. rewrite Hv; [done|by apply Forall_singleton|by apply Forall_singleton|lia|].
    right. by exists b, r.
  - unfold VNUM_hex, vnum_uint. cbn [mbind outcome_bind]. rewrite deref_cons. cbn [mbind outcome_bind].
    rewrite is_dig_ok by done. cbn [mbind outcome_bind]. by rewrite Ea.
Qed.

(** A backslash sequence is found or not, and its length does not depend on
    what is behind it. *)
Definition sequence (s : list Z) (i c : Z) : Prop :=
  vav_backslash_txt s = Ok (i, c) /\ (i = 0 \/ 2 <= i <= Z.of_nat (length s)) /\
  (i <> 0 -> forall k, i <= Z.of_nat k -> vav_backslash_txt (take k s) = Ok (i, c)).

Lemma backslash_short s : (length s < 2)%nat -> vav_backslash_txt s = Ok (0, 0).
Proof. intros Hs. unfold vav_backslash_txt. by rewrite (proj2 (Z.ltb_lt _ 2)) by lia. Qed.

Lemma backslash_cut x r k : 2 <= Z.of_nat k -> exists k', k = S (S k') /\ take k (92 :: x :: r) = 92 :: x :: take k' r.
Proof. intros Hk. exists (k - 2)%nat. destruct k as [|[|k]]; [lia|lia|]. split; [lia|]. cbn. by rewrite Nat.sub_0_r. Qed.

(** [vav_backslash_txt] on a backslash and another character. *)
Lemma backslash_two x r :
  vav_backslash_txt (92 :: x :: r) =
    if x =? 110 then Ok (2, 10) else if x =? 114 then Ok (2, 13) else if x =? 116 then Ok (2, 9)
    else if x =? 34 then Ok (2, 34) else if x =? 92 then Ok (2, 92)
    else if (48 <=? x) && (x <=? 55) then Ok (octal_loop 3 (x :: r) 1 0)
    else if x =? 120 then
      if (2 <=? length r)%nat then
        '(i, p) ← VNUM_hex r (Some 2%nat);
        if (0 <=? i) && (length p =? length r - 2)%nat then
          _ ← assertC (Z.land i (Z.lnot 255) =? 0); Ok (4, u8 i)
        else Ok (0, 0)
      else Ok (0, 0)
    else Ok (0, 0).
Proof.
  unfold vav_backslash_txt. rewrite (proj2 (Z.ltb_ge _ 2)) by (cbn [length]; lia).
  rewrite deref_cons. cbn [mbind outcome_bind assertC Z.eqb Pos.eqb]. cbn [readC lookup list_lookup].
  cbn [mbind outcome_bind readC lookup list_lookup drop].
  change (length (92 :: x :: r)) with (S (S (length r))). replace (4 <=? Z.of_nat (S (S (length r)))) with (2 <=? length r)%nat by (cbn [length]; lia).
  change (length (92 :: x :: r)) with (S (S (length r))). replace (S (S (length r)) - 4)%nat with (length r - 2)%nat by lia.
  unfold readC. cbn [lookup list_lookup]. cbn [mbind outcome_bind]. done.
Qed.

Lemma backslash_total s : Bytes s -> exists i c, sequence (92 :: s) i c.
Proof.
  intros Hs. destruct s as [|x r].
  { exists 0, 0. split; [by apply backslash_short; simpl; lia|]. split; [by left|done]. }
  inversion_clear Hs as [|? ? Hx Hr].
  assert (2 <= 2 <= Z.of_nat (length (92 :: x :: r))) as Hl by (cbn [length]; lia).
  (* The sequences of two characters. *)
  assert (forall c, (forall r, vav_backslash_txt (92 :: x :: r) = Ok (2, c)) -> exists i c, sequence (92 :: x :: r) i c) as Htwo.
  { intros c Hc. exists 2, c. split; [done|]. split; [by right|]. intros _ k Hk.
    destruct (backslash_cut x r k Hk) as (k' & -> & ->). apply Hc. }
  assert (forall z, vav_backslash_txt (92 :: x :: r) = Ok (0, z) -> exists i c, sequence (92 :: x :: r) i c) as Hnone
    by (intros z Hz; exists 0, z; split; [done|]; split; [by left|done]).
  pose proof (backslash_two x) as Hb.
  destruct (Z.eqb_spec x 110); [by apply (Htwo 10)|]. destruct (Z.eqb_spec x 114); [by apply (Htwo 13)|].
  destruct (Z.eqb_spec x 116); [by apply (Htwo 9)|]. destruct (Z.eqb_spec x 34); [by apply (Htwo 34)|].
  destruct (Z.eqb_spec x 92); [by apply (Htwo 92)|].
  destruct ((48 <=? x) && (x <=? 55)) eqn:Eo.
  - destruct (octal_loop_take 3 (x :: r) 1 0) as (j & c & E & Hj & Ht & H1).
    assert (1 <= j)%nat by (apply (H1 x r); [done|done|unfold octal; lia]).
    exists (1 + Z.of_nat j), c. split; [by rewrite Hb, E|]. split; [right; cbn [length] in *; lia|].
    intros _ k Hk. destruct (backslash_cut x r k ltac:(lia)) as (k' & -> & ->). rewrite Hb.
    change (x :: take k' r) with (take (S k') (x :: r)). rewrite Ht by lia. done.
  - destruct (Z.eqb_spec x 120); [|by apply (Hnone 0)].
    destruct r as [|a [|b r]]; [by apply (Hnone 0)..|]. inversion_clear Hr as [|? ? Ha Hr']. inversion_clear Hr' as [|? ? Hb' _].
    specialize (Hb (a :: b :: r)) as Hb0. cbn [length] in Hb0. rewrite (proj2 (Nat.leb_le 2 _)) in Hb0 by lia.
    rewrite hex_pair_cases in Hb0 by done. cbn [mbind outcome_bind] in Hb0.
    destruct (base_digit 16 a) eqn:Ea; [|by apply (Hnone 0)].
    destruct (base_digit 16 b) eqn:Eb.
    + exists 4, (hex_digit a * 16 + hex_digit b). split; [|split; [right; cbn [length]; lia|]].
      * change (92 :: x :: a :: b :: r) with ([92; x; a; b] ++ r). subst x. by apply (escape_ok [92; 120; a; b]), esc_hex.
      * intros _ k Hk. assert (exists k', k = (4 + k')%nat) as (k' & ->) by (exists (k - 4)%nat; lia).
        subst x. cbn [Nat.add take]. apply (escape_ok [92; 120; a; b]). by apply esc_hex.
    + apply (Hnone 0). rewrite Hb0. cbn [length]. rewrite (proj2 (Nat.eqb_neq _ _)) by lia. by rewrite andb_false_r.
Qed.

(** A text that the decoder accepts to its end. *)
Inductive decodable : list Z -> Prop :=
  | decodable_nil : decodable []
  | decodable_plain c t : c <> 92 -> decodable t -> decodable (c :: t)
  | decodable_seq u t c : (2 <= length u)%nat -> head u = Some 92 ->
      vav_backslash_txt (u ++ t) = Ok (Z.of_nat (length u), c) -> decodable t -> decodable (u ++ t).

Lemma decode_loop_total t : decodable t -> forall fuel pre x,
  (length t <= fuel)%nat -> (length t < length x)%nat ->
  exists pre' x', decode_loop fuel t (pre ++ x) (length pre) = Ok (Some (pre' ++ x', length pre')) /\
    (0 < length x')%nat.
Proof.
  induction 1 as [|c t Hc _ IH|u t c Hu Hh Hs _ IH]; intros fuel pre x Hf Hx.
  - exists pre, x. split; [by destruct fuel|done].
  - destruct fuel as [|fuel]; [simpl in Hf; lia|]. destruct x as [|y x]; [simpl in Hx; lia|].
    cbn [decode_loop length] in *. rewrite (proj2 (Z.eqb_neq c 92)) by done. cbn [negb].
    rewrite writeC_at. cbn [mbind outcome_bind].
    destruct (IH fuel (pre ++ [c]) x) as (p' & x' & E & Hx'); [lia|lia|].
    rewrite length_app, <-app_assoc in E. cbn [length app] in E.
    replace (S (length pre)) with (length pre + 1)%nat by lia. rewrite E. eauto.
  - destruct u as [|c0 u]; [done|]. injection Hh as ->. rewrite length_app in Hf, Hx. cbn [length] in *.
    destruct fuel as [|fuel]; [lia|]. destruct x as [|y x]; [simpl in Hx; lia|].
    cbn [app decode_loop Z.eqb Pos.eqb negb] in *. rewrite Hs. cbn [mbind outcome_bind].
    rewrite writeC_at. cbn [mbind outcome_bind]. rewrite (proj2 (Z.eqb_neq _ 0)) by lia.
    rewrite Nat2Z.id. cbn [drop]. rewrite drop_app_length.
    destruct (IH fuel (pre ++ [c]) x) as (p' & x' & E & Hx'); [lia|simpl in Hx; lia|].
    rewrite length_app, <-app_assoc in E. cbn [length app] in E.
    replace (S (length pre)) with (length pre + 1)%nat by lia. rewrite E. eauto.
Qed.

Lemma decode_total t : decodable t -> exists d, VAV_BackSlashDecode t = Ok (Some d).
Proof.
  intros Ht. unfold VAV_BackSlashDecode.
  destruct (decode_loop_total t Ht (length t) [] (replicate (S (length t)) 0)) as (p & x & E & Hx);
    [done|rewrite length_replicate; lia|].
  cbn [app length] in E. rewrite E. cbn [mbind outcome_bind]. destruct x as [|y x]; [simpl in Hx; lia|].
  rewrite writeC_at. eauto.
Qed.

(** What [scan_arg] returns. *)
Definition scanned (flag : Z) (b : list Z) (r : scan_res) : Prop :=
  match r with
  | inl _ => True
  | inr (b', sep, _) => exists t, b = t ++ b' /\ (has flag ARGV_NOESC = false -> decodable t) /\
      (sep = None /\ b' = [] \/ sep = Some b' /\ b' <> [])
  end.

Lemma scanned_stop flag b sep q : sep = None /\ b = [] \/ sep = Some b /\ b <> [] -> scanned flag b (inr (b, sep, q)).
Proof. intros Hs. exists []. split; [done|]. split; [constructor|done]. Qed.

Lemma scanned_plain flag c b r : c <> 92 \/ has flag ARGV_NOESC = true -> scanned flag b r -> scanned flag (c :: b) r.
Proof.
  intros Hc. destruct r as [e|[[b' sep] q]]; [done|]. intros (t & -> & Ht & Hs). exists (c :: t).
  split; [done|]. split; [|done]. intros Hn. destruct Hc as [Hc|Hc]; [|congruence]. constructor; auto.
Qed.

Lemma scan_total flag fuel : forall b quote, Bytes b -> (length b <= fuel)%nat ->
  exists r, scan_arg fuel b quote flag = Ok r /\ scanned flag b r.
Proof.
  induction fuel as [|fuel IH]; intros b quote Hb Hf.
  { destruct b; [|simpl in Hf; lia]. eexists. split; [done|]. apply scanned_stop. auto. }
  destruct b as [|c b]; [eexists; split; [done|]; apply scanned_stop; auto|].
  cbn [scan_arg]. inversion_clear Hb as [|? ? Hc Hb']. cbn [length] in Hf.
  assert (forall q, (c <> 92 \/ has flag ARGV_NOESC = true) ->
    exists r, scan_arg fuel b q flag = Ok r /\ scanned flag (c :: b) r) as Hnext.
  { intros q Hp. destruct (IH b q Hb' ltac:(lia)) as (r & E & Hr). exists r. split; [done|]. by apply scanned_plain. }
  assert (forall q, exists r, Ok (inr (c :: b, Some (c :: b), q)) = Ok r /\ scanned flag (c :: b) r) as Hstop
    by (intros q; eexists; split; [done|]; apply scanned_stop; auto).
  destruct ((c =? 92) && negb (has flag ARGV_NOESC)) eqn:Eb.
  - assert (c = 92) as -> by lia. destruct (backslash_total b Hb') as (i & x & Es & Hi & Ht). rewrite Es.
    cbn [mbind outcome_bind]. destruct (Z.eqb_spec i 0) as [->|Hi0]; [by exists (inl invalid_backslash)|].
    destruct Hi as [|Hi]; [done|]. cbn [length] in Hi.
    assert (exists u t, 92 :: b = u ++ t /\ length u = Z.to_nat i) as (u & t & E & Hu).
    { exists (take (Z.to_nat i) (92 :: b)), (drop (Z.to_nat i) (92 :: b)). split; [by rewrite take_drop|].
      rewrite length_take. cbn [length]. lia. }
    rewrite E, <-Hu, drop_app_length. assert (Bytes (92 :: b)) as Hall by by constructor.
    rewrite E in Hall. apply Forall_app in Hall as [_ Hbt].
    assert (length u + length t = S (length b))%nat as Hlen by (change (S (length b)) with (length (92 :: b)); by rewrite E, length_app).
    destruct (IH t quote Hbt ltac:(lia)) as (r & Er & Hr). exists r. split; [done|].
    destruct r as [e|[[b' sep] q]]; [done|]. destruct Hr as (t' & -> & Hd & Hs). exists (u ++ t').
    split; [by rewrite app_assoc|]. split; [|done]. intros Hn. apply decodable_seq with x; [lia| | |by apply Hd].
    + destruct u; [simpl in Hu; lia|]. injection E as -> _. done.
    + replace (u ++ t') with (take (length u + length t') (92 :: b)).
      * rewrite Ht by lia. do 2 f_equal. lia.
      * rewrite E, app_assoc, <-length_app. by rewrite take_app_length.
  - assert (c <> 92 \/ has flag ARGV_NOESC = true) as Hp by (destruct (has flag ARGV_NOESC); [auto|lia]).
    destruct (negb quote).
    + destruct (isspace c); [apply Hstop|]. destruct (has flag ARGV_COMMA && (c =? 44)); [apply Hstop|].
      destruct (negb (has flag ARGV_NOESC) && (c =? 34)); [by exists (inl invalid_quote)|by apply Hnext].
    + destruct ((c =? 34) && negb (has flag ARGV_NOESC)); [apply Hstop|by apply Hnext].
Qed.

Lemma arg_text_total flag t b : (has flag ARGV_NOESC = false -> decodable t) ->
  exists s, arg_text (t ++ b) b flag = Ok (Arg s).
Proof.
  intros Ht. unfold arg_text. rewrite length_app, Nat.add_sub, take_app_length.
  destruct (has flag ARGV_NOESC); [eauto|]. destruct (decode_total t (Ht eq_refl)) as [d ->]. cbn. eauto.
Qed.

Definition sep_ok (sep : option (list Z)) : Prop := match sep with Some [] => False | _ => True end.

Lemma sep_is_total sep f : sep_ok sep -> exists r, sep_is sep f = Ok r.
Proof. destruct sep as [[|c s]|]; simpl; [done|eauto..]. Qed.

Lemma parse_total flag fuel : forall b sep v bufs,
  Bytes b -> (length b <= fuel)%nat -> sep_ok sep -> slots v bufs ->
  exists sep' v', parse_loop fuel b sep v flag = Ok (sep', v') /\ sep_ok sep' /\
    (v_err v' = None -> exists bufs', slots v' bufs').
Proof.
  induction fuel as [|fuel IH]; intros b sep v bufs Hb Hf Hs Hv.
  { destruct b; [|simpl in Hf; lia]. exists sep, v. eauto. }
  destruct b as [|c b]; [exists sep, v; eauto|]. inversion_clear Hb as [|? ? Hc Hb']. cbn [length] in Hf.
  cbn [parse_loop]. destruct (isspace c); [by apply (IH b sep v bufs); [|lia|..]|].
  destruct (sep_is_total sep isspace Hs) as [sp ->], (sep_is_total sep (fun c => c =? 34) Hs) as [qt ->].
  cbn [mbind outcome_bind].
  assert (forall e, exists sep' v', Ok (None, fail_with v e) = Ok (sep', v') /\ sep_ok sep' /\
    (v_err v' = None -> exists bufs', slots v' bufs')) as Hfail
    by (intros e; exists None, (fail_with v e); done).
  destruct ((sp || qt) && (c =? 44) && has flag ARGV_COMMA); [by apply (IH b None v bufs); [|lia|..]|].
  destruct (qt && (c =? 34) && _); [apply Hfail|].
  destruct (has flag ARGV_COMMENT && (c =? 35)); [exists None, v; split; [done|]; split; [done|]; eauto|].
  cbv zeta. set (q := (c =? 34) && negb (has flag ARGV_NOESC)). set (p := if q then b else c :: b).
  assert (Bytes p) as Hp by (subst p; destruct q; [done|by constructor]).
  assert (length p <= S (length b))%nat as Hpl by (subst p; destruct q; simpl; lia).
  destruct (scan_total flag (length p) p q Hp ltac:(done)) as (r & -> & Hr). cbn [mbind outcome_bind].
  destruct r as [e|[[b' sep'] q']]; [apply Hfail|]. destruct Hr as (t & Ep & Ht & Hsep).
  destruct (match sep' with None => q' | Some _ => false end); [apply Hfail|].
  destruct (arg_text_total flag t b' Ht) as [s E]. rewrite Ep, E. cbn [mbind outcome_bind].
  destruct (slots_add v bufs s Hv) as (v1 & -> & Hv1). cbn [mbind outcome_bind].
  rewrite Ep in Hp, Hpl. apply Forall_app in Hp as [_ Hp']. rewrite length_app in Hpl.
  apply (IH (tail b') sep' (next_slot v1) (bufs ++ [s])); [by destruct Hp'| |by destruct Hsep as [[-> _]|[-> ?]]; [|destruct b']|done].
  destruct Hsep as [[_ ->]|[_ Hne]]; [simpl; lia|]. destruct b' as [|x b']; [done|].
  (* A stop at the first byte consumes it. *)
  simpl in *. lia.
Qed.

(** On any bytes and any flags the parser terminates without touching
    memory outside the line or the vector, and what it returns for a line
    without an error can be freed. *)
Theorem vav_parse_total s flag (Hs : Bytes s) :
  exists v, VAV_ParseTxt s flag = Ok v /\
    (v_err v = None -> v_argv v !! v_nargv v = Some Null /\ VAV_Free v = Ok tt).
Proof.
  unfold VAV_ParseTxt.
  destruct (parse_total flag (length s) s None _ [] Hs ltac:(done) I slots_start) as (sep & v & -> & Hsep & Hv).
  cbn [mbind outcome_bind]. destruct (v_err v) as [e|] eqn:E; [exists v; split; [done|congruence]|].
  destruct (Hv eq_refl) as (bufs & Hb). destruct (sep_is_total sep (fun c => c =? 44) Hsep) as [cm ->].
  cbn [mbind outcome_bind].
  set (v2 := if cm then _ else _).
  assert (exists v3 bufs3 x, v2 = Ok v3 /\ v_argv v3 = Null :: (Arg <$> bufs3) ++ x /\
    v_nargv v3 = S (length bufs3) /\ (1 <= length x)%nat /\ v_err v3 = None)
    as (v3 & bufs3 & x & -> & Ha & Hn & Hx & He).
  { subst v2. destruct cm.
    - destruct (slots_set v bufs (Arg [0]) Hb) as (x & -> & Hx). cbn [mbind outcome_bind].
      do 3 eexists. split; [done|]. instantiate (1 := x). instantiate (1 := bufs ++ [[0]]).
      cbn [next_slot v_argv v_nargv v_err]. rewrite fmap_app, <-app_assoc, length_app. cbn [length].
      split; [done|]. split; [lia|done].
    - destruct Hb as (x & Ha & Hn & Hx & He). exists v, bufs, x. split; [done|]. split; [done|]. split; [done|].
      split; [lia|done]. }
  cbn [mbind outcome_bind]. destruct x as [|y x]; [simpl in Hx; lia|].
  unfold set_slot. rewrite Ha, Hn, He.
  assert (S (length bufs3) = length (Null :: (Arg <$> bufs3))) as HS by (simpl; by rewrite length_fmap).
  rewrite HS, app_comm_cons, writeC_at. eexists. split; [done|]. intros _. cbn [v_argv v_nargv].
  split; [by apply list_lookup_middle|]. unfold VAV_Free. cbn [v_argv].
  apply (free_ok bufs3 x _ [Null]). rewrite length_app. simpl. rewrite length_fmap. lia.
Qed.

Lemma vav_parse_total_witness : exists v, VAV_ParseTxt [97; 32; 34] 0 = Ok v.
Proof. destruct (vav_parse_total [97; 32; 34] 0) as (v & E & _); [repeat constructor; done|eauto]. Defined.

(** ** After an error *)

(** [n] arguments and a quote that is not closed. *)
Definition open_quote (n : nat) : list Z := concat (replicate n [97; 32]) ++ [34].

(** A line whose fifteenth argument is followed by an error: the vector has
    been reallocated, the slot behind the arguments is indeterminate, and
    VAV_Free, which looks for a NULL there, frees an indeterminate pointer. *)
Theorem vav_free_after_error :
  exists v, VAV_ParseTxt (open_quote 15) 0 = Ok v /\ v_err v = Some missing_quote /\
    v_argv v !! v_nargv v = Some Garbage /\ VAV_Free v = Fault FFree.
Proof. eexists. split; [by vm_compute|]. by vm_compute. Qed.
