(* ===== verification/Vsb.v ===== *)
(** * String buffers (lib/vsb.c)

    A buffer that is either of a fixed size or grows.  [malloc] is outside: it
    returns an object of the size asked for, or NULL. *)

From Stdlib Require Import ZArith Lia ZifyBool.
From stdpp Require Import base option numbers list.
From S2P Require Import Prelude CStr.
#[local] Open Scope Z_scope.

Definition VSB_FIXEDLEN : Z := 0.
Definition VSB_AUTOEXTEND : Z := 1.
Definition VSB_DYNAMIC : Z := 65536.
Definition VSB_FINISHED : Z := 131072.
Definition VSB_DYNSTRUCT : Z := 524288.

Definition ENOMEM : Z := 12.
Definition EINVAL : Z := 22.

(** [struct vsb]; [s_buf] is the object the pointer points to. *)
Record vsb := mk_vsb {
  s_error : Z;
  s_buf : list Z;
  s_size : Z;
  s_len : Z;
  s_flags : Z;
  s_indent : Z
}.

Definition upd_error (s : vsb) (e : Z) : vsb :=
  mk_vsb e (s_buf s) (s_size s) (s_len s) (s_flags s) (s_indent s).
Definition upd_buf (s : vsb) (b : list Z) (l : Z) : vsb :=
  mk_vsb (s_error s) b (s_size s) l (s_flags s) (s_indent s).
Definition upd_flags (s : vsb) (f : Z) : vsb :=
  mk_vsb (s_error s) (s_buf s) (s_size s) (s_len s) f (s_indent s).
Definition upd_indent (s : vsb) (i : Z) : vsb :=
  mk_vsb (s_error s) (s_buf s) (s_size s) (s_len s) (s_flags s) i.

Definition VSB_FLAG (s : vsb) (f : Z) : bool := truth (Z.land (s_flags s) f).
Definition VSB_ISDYNAMIC (s : vsb) : bool := VSB_FLAG s VSB_DYNAMIC.
Definition VSB_ISDYNSTRUCT (s : vsb) : bool := VSB_FLAG s VSB_DYNSTRUCT.
Definition VSB_HASROOM (s : vsb) : bool := s_len s <? s_size s - 1.
Definition VSB_FREESPACE (s : vsb) : Z := s_size s - (s_len s + 1).
Definition VSB_CANEXTEND (s : vsb) : bool := VSB_FLAG s VSB_AUTOEXTEND.
Definition VSB_SETFLAG (s : vsb) (f : Z) : vsb := upd_flags s (Z.lor (s_flags s) f).
Definition VSB_CLEARFLAG (s : vsb) (f : Z) : vsb := upd_flags s (Z.land (s_flags s) (Z.lnot f)).

Definition VSB_MINEXTENDSIZE : Z := 16.
Definition VSB_MAXEXTENDSIZE : Z := 4096.
Definition VSB_MAXEXTENDINCR : Z := 4096.
Definition rndup2 (x y : Z) : Z := Z.land (x + (y - 1)) (Z.lnot (y - 1)).

Definition assert_VSB_integrity (s : vsb) : outcome unit := assertC (s_len s <? s_size s).
Definition assert_VSB_state (s : vsb) (state : Z) : outcome unit :=
  assertC (Z.land (s_flags s) VSB_FINISHED =? state).

(** [while (newsize < size) newsize *= 2;]. *)
Fixpoint double_to (fuel : nat) (newsize size : Z) : outcome Z :=
  if newsize <? size then
    match fuel with O => Fault FFuel | S fuel => double_to fuel (newsize * 2) size end
  else Ok newsize.

Definition VSB_extendsize (size : Z) : outcome Z :=
  newsize ← (if size <? VSB_MAXEXTENDSIZE then double_to 8 VSB_MINEXTENDSIZE size
             else Ok (rndup2 size VSB_MAXEXTENDINCR));
  _ ← assertC (size <=? newsize);
  Ok newsize.

(** [memcpy] and [memset]: the bytes [t] written at offset [i]. *)
Definition blit (b : list Z) (i : Z) (t : list Z) : outcome (list Z) :=
  if (0 <=? i) && (i + Z.of_nat (length t) <=? Z.of_nat (length b))
  then Ok (take (Z.to_nat i) b ++ t ++ drop (Z.to_nat i + length t) b) else Fault FBounds.

Section malloc.
Context (malloc : Z -> option (list Z)).

(** *** Growing *)

(** The buffer and the value returned. *)
Definition VSB_extend (s : vsb) (addlen : Z) : outcome (vsb * Z) :=
  if negb (VSB_CANEXTEND s) then Ok (s, -1)
  else
    newsize ← VSB_extendsize (s_size s + addlen);
    match malloc newsize with
    | None => Ok (s, -1)
    | Some m =>
        (* [realloc] and [memcpy] both keep the bytes of the old buffer. *)
        b ← blit m 0 (take (Z.to_nat (s_size s)) (s_buf s));
        let s := if VSB_ISDYNAMIC s then s else VSB_SETFLAG s VSB_DYNAMIC in
        Ok (mk_vsb (s_error s) b newsize (s_len s) (s_flags s) (s_indent s), 0)
    end.

(** Is the last byte something else than a newline? *)
Definition mid_line (s : vsb) : outcome bool :=
  if 0 <? s_len s then c ← readC (s_buf s) (Z.to_nat (s_len s - 1)); Ok (negb (c =? 10)) else Ok false.

Definition _vsb_indent (s : vsb) : outcome vsb :=
  m ← (if s_indent s =? 0 then Ok true else if negb (s_error s =? 0) then Ok true else mid_line s);
  if m : bool then Ok s
  else
    '(s, r) ← (if VSB_FREESPACE s <=? s_indent s then VSB_extend s (s_indent s) else Ok (s, 0));
    if r <? 0 then Ok (upd_error s ENOMEM)
    else
      b ← blit (s_buf s) (s_len s) (replicate (Z.to_nat (s_indent s)) 32);
      Ok (upd_buf s b (s_len s + s_indent s)).

(** *** Making and clearing *)

Definition VSB_newbuf (buf : option (list Z)) (length flags : Z) : outcome (option vsb) :=
  let s := mk_vsb 0 [] length 0 flags 0 in
  _ ← assertC (negb (Z.land (s_flags s) VSB_AUTOEXTEND =? 0) || (1 <? s_size s));
  match buf with
  | Some b => Ok (Some (mk_vsb 0 b length 0 flags 0))
  | None =>
      size ← (if negb (Z.land flags VSB_AUTOEXTEND =? 0) then VSB_extendsize (s_size s) else Ok (s_size s));
      match malloc size with
      | None => Ok None
      | Some m => Ok (Some (VSB_SETFLAG (mk_vsb 0 m size 0 flags 0) VSB_DYNAMIC))
      end
  end.

Definition VSB_init (buf : list Z) (length : Z) : outcome (option vsb) :=
  _ ← assertC (0 <=? length); VSB_newbuf (Some buf) length VSB_FIXEDLEN.

Definition VSB_new_auto : outcome (option vsb) :=
  s ← VSB_newbuf None 0 VSB_AUTOEXTEND;
  Ok (match s with Some s => Some (VSB_SETFLAG s VSB_DYNSTRUCT) | None => None end).

Definition VSB_clear (s : vsb) : outcome vsb :=
  _ ← assert_VSB_integrity s;
  let s := VSB_CLEARFLAG s VSB_FINISHED in
  Ok (mk_vsb 0 (s_buf s) (s_size s) 0 (s_flags s) 0).

(** *** Appending *)

Definition VSB_put_byte (s : vsb) (c : Z) : outcome vsb :=
  _ ← assert_VSB_integrity s;
  _ ← assert_VSB_state s 0;
  if negb (s_error s =? 0) then Ok s
  else
    s ← _vsb_indent s;
    let put (s : vsb) : outcome vsb := b ← blit (s_buf s) (s_len s) [u8 c]; Ok (upd_buf s b (s_len s + 1)) in
    if VSB_FREESPACE s <=? 0 then
      '(s, r) ← VSB_extend s 1;
      let s := if r <? 0 then upd_error s ENOMEM else s in
      if negb (s_error s =? 0) then Ok s else put s
    else put s.

Definition VSB_bcat (s : vsb) (buf : list Z) : outcome (vsb * Z) :=
  let len := Z.of_nat (length buf) in
  _ ← assert_VSB_integrity s;
  _ ← assert_VSB_state s 0;
  if negb (s_error s =? 0) then Ok (s, -1)
  else if len =? 0 then Ok (s, 0)
  else
    s ← _vsb_indent s;
    let put (s : vsb) : outcome (vsb * Z) :=
      b ← blit (s_buf s) (s_len s) buf; Ok (upd_buf s b (s_len s + len), 0) in
    if VSB_FREESPACE s <? len then
      '(s, r) ← VSB_extend s (len - VSB_FREESPACE s);
      let s := if r <? 0 then upd_error s ENOMEM else s in
      if negb (s_error s =? 0) then Ok (s, -1) else put s
    else put s.

(** The bytes up to the first newline, and the rest. *)
Fixpoint to_newline (str : list Z) : option (list Z * list Z) :=
  match str with
  | [] => None
  | c :: str => if c =? 10 then Some ([c], str)
                else match to_newline str with Some (l, r) => Some (c :: l, r) | None => None end
  end.

(** [while (s->s_indent > 0 && (nl = strchr(str, '\n')) != NULL)]; the string is
    the bytes before its NUL, and [fuel] their number. *)
Fixpoint cat_lines (fuel : nat) (s : vsb) (str : list Z) : outcome (vsb * Z) :=
  match (if 0 <? s_indent s then to_newline str else None) with
  | Some (l, rest) =>
      match fuel with
      | O => Fault FFuel
      | S fuel => '(s, r) ← VSB_bcat s l; if r <? 0 then Ok (s, -1) else cat_lines fuel s rest
      end
  | None => VSB_bcat s str
  end.

Definition VSB_cat (s : vsb) (str : list Z) : outcome (vsb * Z) :=
  _ ← assert_VSB_integrity s;
  _ ← assert_VSB_state s 0;
  if negb (s_error s =? 0) then Ok (s, -1) else cat_lines (length str) s str.

(** What formatting gives: the bytes, or an error of [vsnprintf]. *)
Definition formatted : Type := list Z + Z.

(** The loop around [vsnprintf]; a second turn happens only after the buffer
    grew to what was missing. *)
Fixpoint print_loop (fuel : nat) (s : vsb) (t : list Z) : outcome vsb :=
  let len := Z.of_nat (length t) in
  b ← blit (s_buf s) (s_len s) (take (Z.to_nat (VSB_FREESPACE s)) t ++ [0]);
  let s := upd_buf s b (s_len s) in
  if VSB_FREESPACE s <? len then
    '(s, r) ← VSB_extend s (len - VSB_FREESPACE s);
    if r =? 0 then match fuel with O => Fault FFuel | S fuel => print_loop fuel s t end
    else Ok s
  else Ok s.

Definition VSB_vprintf (s : vsb) (f : formatted) : outcome (vsb * Z) :=
  _ ← assert_VSB_integrity s;
  _ ← assert_VSB_state s 0;
  if negb (s_error s =? 0) then Ok (s, -1)
  else
    s ← _vsb_indent s;
    match f with
    | inr e => Ok (upd_error s e, -1)
    | inl t =>
        s ← print_loop 1 s t;
        let s := upd_buf s (s_buf s) (s_len s + Z.min (Z.of_nat (length t)) (VSB_FREESPACE s)) in
        let s := if negb (VSB_HASROOM s) && negb (VSB_CANEXTEND s) then upd_error s ENOMEM else s in
        _ ← assertC (s_len s <? s_size s);
        Ok (s, if negb (s_error s =? 0) then -1 else 0)
    end.

Definition VSB_printf (s : vsb) (f : formatted) : outcome (vsb * Z) := VSB_vprintf s f.

Definition VSB_putc (s : vsb) (c : Z) : outcome (vsb * Z) :=
  s ← VSB_put_byte s c; Ok (s, if negb (s_error s =? 0) then -1 else 0).

(** *** The result *)

Definition VSB_error (s : vsb) : Z := s_error s.

Definition VSB_finish (s : vsb) : outcome (vsb * Z) :=
  _ ← assert_VSB_integrity s;
  _ ← assert_VSB_state s 0;
  b ← blit (s_buf s) (s_len s) [0];
  let s := VSB_SETFLAG (upd_buf s b (s_len s)) VSB_FINISHED in
  Ok (s, if truth (s_error s) then -1 else 0).

Definition VSB_data (s : vsb) : outcome (list Z) :=
  _ ← assert_VSB_integrity s; _ ← assert_VSB_state s VSB_FINISHED; Ok (s_buf s).

Definition VSB_len (s : vsb) : outcome Z :=
  _ ← assert_VSB_integrity s; Ok (if negb (s_error s =? 0) then -1 else s_len s).

Definition VSB_fini (s : vsb) : outcome unit :=
  _ ← assert_VSB_integrity s;
  _ ← assertC (negb (VSB_ISDYNAMIC s));
  assertC (negb (VSB_ISDYNSTRUCT s)).

Definition VSB_destroy (s : vsb) : outcome unit :=
  _ ← assert_VSB_integrity s;
  _ ← assertC (VSB_ISDYNAMIC s);
  assertC (VSB_ISDYNSTRUCT s).

Definition VSB_indent (s : vsb) (i : Z) : outcome vsb :=
  _ ← assert_VSB_integrity s;
  Ok (if s_indent s + i <? 0 then upd_error s EINVAL else upd_indent s (s_indent s + i)).
End malloc.
