(* ===== verification/VsbSpec.v ===== *)
(** * What a string buffer holds

    The invariant of [struct vsb], and the appending operations as operations
    on the bytes written so far: they append when there is room or the buffer
    can grow, and otherwise set [s_error]. *)

From Stdlib Require Import ZArith Lia ZifyBool.
From stdpp Require Import base option numbers list.
From S2P Require Import Prelude CStr Vsb.
#[local] Open Scope Z_scope.

(** ** The invariant *)

Record vsb_ok (s : vsb) : Prop := {
  vs_len : 0 <= s_len s < s_size s;
  vs_size : Z.of_nat (length (s_buf s)) = s_size s;
  vs_indent : 0 <= s_indent s
}.

(** The bytes written so far. *)
Definition content (s : vsb) : list Z := take (Z.to_nat (s_len s)) (s_buf s).

(** What stays the same when a buffer grows or is written to. *)
Definition same_mode (s s' : vsb) : Prop :=
  VSB_CANEXTEND s' = VSB_CANEXTEND s /\ s_indent s' = s_indent s /\
  Z.land (s_flags s') VSB_FINISHED = Z.land (s_flags s) VSB_FINISHED.

#[global] Instance same_mode_preorder : PreOrder same_mode.
Proof.
  split; [by intros s|]. intros s1 s2 s3 (H1 & H2 & H3) (H4 & H5 & H6).
  split; [congruence|]. split; congruence.
Qed.

Lemma content_length s : vsb_ok s -> Z.of_nat (length (content s)) = s_len s.
Proof. intros [H1 H2 _]. unfold content. rewrite length_take. lia. Qed.

(** ** Writing to the buffer *)

Lemma blit_ok b i t : 0 <= i -> i + Z.of_nat (length t) <= Z.of_nat (length b) ->
  exists b', blit b i t = Ok b' /\ length b' = length b /\
    take (Z.to_nat i + length t) b' = take (Z.to_nat i) b ++ t.
Proof.
  intros Hi Hl. unfold blit. replace ((0 <=? i) && _) with true by lia. eexists. split; [done|].
  assert (length (take (Z.to_nat i) b) = Z.to_nat i) as Ht by (rewrite length_take; lia).
  split; [rewrite !length_app, length_drop, Ht; lia|].
  rewrite app_assoc. rewrite <-Ht at 1. rewrite <-length_app. apply take_app_length.
Qed.

(** Appending [t] where it fits. *)
Lemma put_ok s t :
  vsb_ok s -> s_len s + Z.of_nat (length t) < s_size s ->
  exists b, blit (s_buf s) (s_len s) t = Ok b /\
    vsb_ok (upd_buf s b (s_len s + Z.of_nat (length t))) /\
    content (upd_buf s b (s_len s + Z.of_nat (length t))) = content s ++ t /\
    same_mode s (upd_buf s b (s_len s + Z.of_nat (length t))).
Proof.
  intros [H1 H2 H3] Hr. destruct (blit_ok (s_buf s) (s_len s) t) as (b & -> & Hl & Ht); [lia|lia|].
  exists b. split; [done|]. split; [split; simpl; lia|]. split; [|done].
  unfold content. simpl. by replace (Z.to_nat (s_len s + Z.of_nat (length t))) with (Z.to_nat (s_len s) + length t)%nat by lia.
Qed.

(** ** Growing *)

Lemma double_ok k : forall n size, 0 < n -> size <= n * 2 ^ Z.of_nat k ->
  exists m, double_to k n size = Ok m /\ size <= m.
Proof.
  induction k as [|k IH]; intros n size Hn Hs; cbn [double_to].
  - rewrite (proj2 (Z.ltb_ge n size)) by lia. exists n. split; [done|lia].
  - destruct (Z.ltb_spec n size); [|by exists n]. apply IH; [lia|].
    rewrite Nat2Z.inj_succ, Z.pow_succ_r in Hs by lia. lia.
Qed.

Lemma rndup2_ok x k : 0 <= x -> 0 <= k -> x <= rndup2 x (2 ^ k).
Proof.
  intros Hx Hk. unfold rndup2. rewrite <-Z.ldiff_land. replace (2 ^ k - 1) with (Z.ones k) by (rewrite Z.ones_equiv; lia).
  rewrite Z.ldiff_ones_r, Z.shiftr_div_pow2, Z.shiftl_mul_pow2, Z.ones_equiv by lia.
  assert (0 < 2 ^ k) by lia. pose proof (Z.div_mod (x + Z.pred (2 ^ k)) (2 ^ k) ltac:(lia)).
  pose proof (Z.mod_pos_bound (x + Z.pred (2 ^ k)) (2 ^ k) ltac:(lia)). lia.
Qed.

Lemma extendsize_ok size : 0 <= size -> exists m, VSB_extendsize size = Ok m /\ size <= m.
Proof.
  intros Hs. unfold VSB_extendsize.
  assert (exists m, (if size <? VSB_MAXEXTENDSIZE then double_to 8 VSB_MINEXTENDSIZE size
    else Ok (rndup2 size VSB_MAXEXTENDINCR)) = Ok m /\ size <= m) as (m & -> & Hm).
  { destruct (Z.ltb_spec size VSB_MAXEXTENDSIZE) as [Hlt|Hge].
    - apply double_ok; [done|]. change (VSB_MINEXTENDSIZE * 2 ^ Z.of_nat 8) with VSB_MAXEXTENDSIZE. lia.
    - eexists. split; [done|]. apply (rndup2_ok size 12); lia. }
  cbn [mbind outcome_bind]. rewrite assertC_true by lia. eauto.
Qed.

Section malloc.
Context (malloc : Z -> option (list Z)).
Context (malloc_size : forall n m, malloc n = Some m -> Z.of_nat (length m) = n).

(** Growing succeeds, or the buffer is of a fixed size, or memory is short. *)
Lemma extend_ok s add : vsb_ok s -> 0 <= add ->
  (VSB_extend malloc s add = Ok (s, -1) /\ (VSB_CANEXTEND s = false \/ exists n, 0 <= n /\ malloc n = None)) \/
  exists s', VSB_extend malloc s add = Ok (s', 0) /\ VSB_CANEXTEND s = true /\ vsb_ok s' /\ content s' = content s /\
    same_mode s s' /\ s_error s' = s_error s /\ s_len s' = s_len s /\ VSB_FREESPACE s + add <= VSB_FREESPACE s'.
Proof.
  intros Hok Ha. pose proof Hok as [H1 H2 H3]. unfold VSB_extend.
  destruct (VSB_CANEXTEND s) eqn:Ec; cbn [negb]; [|left; split; [done|by left]].
  destruct (extendsize_ok (s_size s + add)) as (m & -> & Hm); [lia|]. cbn [mbind outcome_bind].
  destruct (malloc m) as [o|] eqn:Em; [right|left; split; [done|right; exists m; split; [lia|done]]].
  pose proof (malloc_size _ _ Em) as Ho. rewrite (firstn_all2 (s_buf s)) by lia.
  destruct (blit_ok o 0 (s_buf s)) as (b & -> & Hl & Ht); [lia|lia|]. cbn [mbind outcome_bind].
  eexists. split; [done|]. split; [done|]. set (s1 := if VSB_ISDYNAMIC s then s else _).
  assert (s_len s1 = s_len s /\ s_error s1 = s_error s /\ s_indent s1 = s_indent s) as (E1 & E2 & E3)
    by (subst s1; by destruct (VSB_ISDYNAMIC s)).
  assert (Z.testbit (s_flags s1) 0 = Z.testbit (s_flags s) 0 /\
    Z.land (s_flags s1) VSB_FINISHED = Z.land (s_flags s) VSB_FINISHED) as [Ef1 Ef2].
  { subst s1. destruct (VSB_ISDYNAMIC s); [done|]. unfold VSB_SETFLAG. cbn [s_flags upd_flags]. split.
    - rewrite Z.lor_spec. change (Z.testbit VSB_DYNAMIC 0) with false. by rewrite orb_false_r.
    - rewrite Z.land_lor_distr_l. change (Z.land VSB_DYNAMIC VSB_FINISHED) with 0. by rewrite Z.lor_0_r. }
  split; [split; simpl; lia|]. split; [|split; [split; [|split; simpl; congruence]|]].
  - unfold content. cbn [s_len s_buf]. rewrite E1. change (Z.to_nat 0 + length (s_buf s))%nat with (length (s_buf s)) in Ht.
    rewrite take_0 in Ht. cbn [app] in Ht. rewrite <-Ht at 1. rewrite take_take. f_equal. lia.
  - unfold VSB_CANEXTEND, VSB_FLAG, VSB_AUTOEXTEND. cbn [s_flags]. change 1 with (2 ^ 0). rewrite !land_pow2_truth by done. done.
  - unfold VSB_FREESPACE. cbn. lia.
Qed.

(** ** Indentation *)

(** The blanks in front of the next bytes. *)
Definition padding (s : vsb) : list Z :=
  if bool_decide (content s = []) || bool_decide (last (content s) = Some 10)
  then replicate (Z.to_nat (s_indent s)) 32 else [].

Lemma mid_line_ok s : vsb_ok s -> mid_line s = Ok (negb (bool_decide (content s = []) || bool_decide (last (content s) = Some 10))).
Proof.
  intros [H1 H2 _]. unfold mid_line. destruct (Z.ltb_spec 0 (s_len s)) as [Hl|Hl].
  - destruct (lookup_lt_is_Some_2 (s_buf s) (Z.to_nat (s_len s - 1))) as [c Hc]; [lia|].
    assert (readC (s_buf s) (Z.to_nat (s_len s - 1)) = Ok c) as -> by by rewrite readC_ok.
    cbn [mbind outcome_bind]. f_equal. f_equal.
    assert (last (content s) = Some c) as ->.
    { unfold content. replace (Z.to_nat (s_len s)) with (S (Z.to_nat (s_len s - 1))) by lia.
      rewrite (take_S_r _ _ c Hc). apply last_snoc. }
    rewrite bool_decide_eq_false_2. 2: { intros E. apply (f_equal length) in E. unfold content in E. rewrite length_take in E. simpl in E. lia. }
    cbn [orb]. destruct (Z.eqb_spec c 10) as [->|Hne]; [by rewrite bool_decide_eq_true_2|].
    rewrite bool_decide_eq_false_2; [done|]. by intros [= ->].
  - rewrite bool_decide_eq_true_2; [done|]. unfold content. by replace (Z.to_nat (s_len s)) with 0%nat by lia.
Qed.

(** The buffer grows whenever it has to. *)
Definition growing (s : vsb) : Prop :=
  vsb_ok s /\ VSB_CANEXTEND s = true /\ s_error s = 0 /\ Z.land (s_flags s) VSB_FINISHED = 0.

Lemma state_ok s : vsb_ok s -> Z.land (s_flags s) VSB_FINISHED = 0 ->
  assert_VSB_integrity s = Ok tt /\ assert_VSB_state s 0 = Ok tt.
Proof.
  intros Hok Hf. unfold assert_VSB_integrity, assert_VSB_state. rewrite Hf. split; [|done].
  apply assertC_true. pose proof (vs_len s Hok). lia.
Qed.

Lemma indent_none s : vsb_ok s -> s_indent s = 0 -> _vsb_indent malloc s = Ok s /\ padding s = [].
Proof. intros _ Hi. unfold _vsb_indent, padding. rewrite Hi. split; [done|]. by destruct (_ || _). Qed.

(** *** With memory enough *)

Context (malloc_total : forall n, 0 <= n -> malloc n <> None).

Lemma grow_more s add : growing s -> 0 <= add ->
  exists s', VSB_extend malloc s add = Ok (s', 0) /\ growing s' /\ content s' = content s /\
    same_mode s s' /\ s_len s' = s_len s /\ VSB_FREESPACE s + add <= VSB_FREESPACE s'.
Proof.
  intros (Hok & Hc & He & Hf) Ha.
  destruct (extend_ok s add Hok Ha) as [[_ [Hn|(n & Hn0 & Hn)]]|(s' & -> & _ & Hok' & Hct & Hm & He' & Hl & Hfr)];
    [congruence|by destruct (malloc_total n)|].
  exists s'. split; [done|]. pose proof Hm as (Hm1 & Hm2 & Hm3).
  split; [split; [done|split; [congruence|split; congruence]]|done].
Qed.

Lemma growing_put s t : growing s -> s_len s + Z.of_nat (length t) < s_size s ->
  exists b, blit (s_buf s) (s_len s) t = Ok b /\
    growing (upd_buf s b (s_len s + Z.of_nat (length t))) /\
    content (upd_buf s b (s_len s + Z.of_nat (length t))) = content s ++ t /\
    same_mode s (upd_buf s b (s_len s + Z.of_nat (length t))).
Proof.
  intros (Hok & Hc & He & Hf) Hr. destruct (put_ok s t Hok Hr) as (b & E & Hok' & Hct & Hm).
  exists b. split; [done|]. split; [|done]. done.
Qed.

Lemma indent_ok s : growing s -> exists s', _vsb_indent malloc s = Ok s' /\ growing s' /\
  content s' = content s ++ padding s /\ same_mode s s'.
Proof.
  intros Hg. pose proof Hg as (Hok & Hc & He & Hf). unfold _vsb_indent, padding.
  destruct (Z.eqb_spec (s_indent s) 0) as [->|Hi].
  { cbn [mbind outcome_bind]. exists s. split; [done|]. split; [done|]. split; [|done].
    destruct (_ || _); by rewrite app_nil_r. }
  rewrite He. cbn [Z.eqb negb]. rewrite mid_line_ok by done. cbn [mbind outcome_bind].
  destruct (bool_decide (content s = []) || _); cbn [negb]; [|exists s; rewrite app_nil_r; done].
  pose proof (vs_indent s Hok) as Hin.
  assert (exists s', (if VSB_FREESPACE s <=? s_indent s then VSB_extend malloc s (s_indent s) else Ok (s, 0)) = Ok (s', 0) /\
    growing s' /\ content s' = content s /\ same_mode s s' /\ s_len s' + s_indent s < s_size s')
    as (s' & -> & Hg' & Hct & Hm & Hfr).
  { destruct (Z.leb_spec (VSB_FREESPACE s) (s_indent s)).
    - destruct (grow_more s (s_indent s) Hg Hin) as (s' & -> & Hg' & Hct & Hm & Hl & Hfr). exists s'.
      pose proof (vs_len s Hok). unfold VSB_FREESPACE in *. repeat (split; [done|]). lia.
    - exists s. unfold VSB_FREESPACE in *. repeat (split; [done|]). lia. }
  cbn [mbind outcome_bind Z.ltb Z.compare]. pose proof Hm as (_ & Hm2 & _).
  destruct (growing_put s' (replicate (Z.to_nat (s_indent s')) 32) Hg') as (b & -> & Hg2 & Hct2 & Hm3).
  { rewrite length_replicate. lia. }
  cbn [mbind outcome_bind]. rewrite length_replicate, Z2Nat.id in Hg2, Hct2, Hm3 by lia.
  eexists. split; [done|]. split; [done|]. rewrite Hct2, Hct, Hm2. split; [done|]. by transitivity s'.
Qed.

(** [put] after making room. *)
Lemma vsb_room_put s len : growing s -> 0 <= len ->
  exists s', (if VSB_FREESPACE s <? len then VSB_extend malloc s (len - VSB_FREESPACE s) else Ok (s, 0)) = Ok (s', 0) /\
    growing s' /\ content s' = content s /\ same_mode s s' /\ s_len s' + len < s_size s'.
Proof.
  intros Hg Hl. pose proof Hg as (Hok & _). pose proof (vs_len s Hok). unfold VSB_FREESPACE in *.
  destruct (Z.ltb_spec (s_size s - (s_len s + 1)) len).
  - destruct (grow_more s (len - (s_size s - (s_len s + 1))) Hg ltac:(lia)) as (s' & -> & Hg' & Hct & Hm & Hl' & Hfr).
    exists s'. repeat (split; [done|]). unfold VSB_FREESPACE in Hfr. lia.
  - exists s. repeat (split; [done|]). lia.
Qed.

Lemma vsb_bcat_grows s t : growing s -> t <> [] ->
  exists s', VSB_bcat malloc s t = Ok (s', 0) /\ growing s' /\ content s' = content s ++ padding s ++ t /\ same_mode s s'.
Proof.
  intros Hg Ht. pose proof Hg as (Hok & _ & He & Hf). destruct (state_ok s Hok Hf) as [E1 E2].
  unfold VSB_bcat. rewrite E1, E2, He. cbn [mbind outcome_bind Z.eqb negb].
  rewrite (proj2 (Z.eqb_neq _ 0)) by (destruct t; [done|simpl; lia]).
  destruct (indent_ok s Hg) as (s1 & -> & Hg1 & Hc1 & Hm1). cbn [mbind outcome_bind].
  destruct (vsb_room_put s1 (Z.of_nat (length t)) Hg1 ltac:(lia)) as (s2 & E & Hg2 & Hc2 & Hm2 & Hr).
  destruct (growing_put s2 t Hg2 Hr) as (b & Eb & Hg3 & Hc3 & Hm3).
  assert (s_error s2 = 0) as He2 by apply Hg2.
  exists (upd_buf s2 b (s_len s2 + Z.of_nat (length t))). split.
  - destruct (VSB_FREESPACE s1 <? Z.of_nat (length t)).
    + rewrite E. cbn [mbind outcome_bind Z.ltb Z.compare]. rewrite He2. cbn [Z.eqb negb]. by rewrite Eb.
    + injection E as ->. by rewrite Eb.
  - split; [done|]. rewrite Hc3, Hc2, Hc1, <-app_assoc. split; [done|].
    transitivity s1; [done|]. by transitivity s2.
Qed.

Lemma vsb_putc_grows s c : growing s ->
  exists s', VSB_putc malloc s c = Ok (s', 0) /\ growing s' /\ content s' = content s ++ padding s ++ [u8 c] /\ same_mode s s'.
Proof.
  intros Hg. pose proof Hg as (Hok & _ & He & Hf). destruct (state_ok s Hok Hf) as [E1 E2].
  unfold VSB_putc, VSB_put_byte. rewrite E1, E2, He. cbn [mbind outcome_bind Z.eqb negb].
  destruct (indent_ok s Hg) as (s1 & -> & Hg1 & Hc1 & Hm1). cbn [mbind outcome_bind].
  assert (exists s2, (if VSB_FREESPACE s1 <=? 0 then VSB_extend malloc s1 1 else Ok (s1, 0)) = Ok (s2, 0) /\
    growing s2 /\ content s2 = content s1 /\ same_mode s1 s2 /\ s_len s2 + 1 < s_size s2)
    as (s2 & E & Hg2 & Hc2 & Hm2 & Hr).
  { pose proof (vs_len s1 (proj1 Hg1)). destruct (Z.leb_spec (VSB_FREESPACE s1) 0).
    - destruct (grow_more s1 1 Hg1 ltac:(lia)) as (s2 & -> & Hg2 & Hc2 & Hm2 & Hl & Hfr). exists s2.
      unfold VSB_FREESPACE in *. repeat (split; [done|]). lia.
    - exists s1. unfold VSB_FREESPACE in *. repeat (split; [done|]). lia. }
  destruct (growing_put s2 [u8 c] Hg2 Hr) as (b & Eb & Hg3 & Hc3 & Hm3).
  assert (s_error s2 = 0) as He2 by apply Hg2. cbn [length] in *. change (Z.of_nat 1) with 1 in *.
  exists (upd_buf s2 b (s_len s2 + 1)). split.
  - destruct (VSB_FREESPACE s1 <=? 0).
    + rewrite E. cbn [mbind outcome_bind Z.ltb Z.compare]. rewrite He2. cbn [Z.eqb negb]. rewrite Eb.
      cbn [mbind outcome_bind]. cbn [s_error upd_buf]. by rewrite He2.
    + injection E as ->. rewrite Eb. cbn [mbind outcome_bind]. cbn [s_error upd_buf]. by rewrite He2.
  - split; [done|]. rewrite Hc3, Hc2, Hc1, <-app_assoc. split; [done|].
    transitivity s1; [done|]. by transitivity s2.
Qed.

(** *** Formatted output *)

Lemma scratch_ok s u : vsb_ok s -> s_len s + Z.of_nat (length u) <= s_size s ->
  exists b, blit (s_buf s) (s_len s) u = Ok b /\ Z.of_nat (length b) = s_size s /\
    forall j, (j <= length u)%nat -> take (Z.to_nat (s_len s) + j) b = content s ++ take j u.
Proof.
  intros [H1 H2 H3] Hr. destruct (blit_ok (s_buf s) (s_len s) u) as (b & -> & Hl & Ht); [lia|lia|].
  exists b. split; [done|]. split; [lia|]. intros j Hj.
  apply (f_equal (take (Z.to_nat (s_len s) + j))) in Ht. rewrite take_take in Ht.
  replace ((Z.to_nat (s_len s) + j) `min` (Z.to_nat (s_len s) + length u))%nat with (Z.to_nat (s_len s) + j)%nat in Ht by lia.
  rewrite Ht. fold (content s). assert (length (content s) = Z.to_nat (s_len s)) as Hc
    by (pose proof (content_length s); unfold content in *; rewrite length_take; lia).
  by rewrite <-Hc, take_app_add.
Qed.

(** The last turn of the loop. *)
Lemma print_fits s t fuel : vsb_ok s -> Z.of_nat (length t) <= VSB_FREESPACE s ->
  exists b, print_loop malloc fuel s t = Ok (upd_buf s b (s_len s)) /\ Z.of_nat (length b) = s_size s /\
    take (Z.to_nat (s_len s) + length t) b = content s ++ t /\ take (Z.to_nat (s_len s)) b = content s.
Proof.
  intros Hok Hf. pose proof (vs_len s Hok) as Hl. unfold VSB_FREESPACE in Hf.
  destruct (scratch_ok s (t ++ [0]) Hok) as (b & Eb & Hb & Ht); [rewrite length_app; simpl; lia|].
  exists b. split; [|split; [done|]].
  - destruct fuel; cbn [print_loop]; rewrite (firstn_all2 t) by (unfold VSB_FREESPACE; lia); rewrite Eb;
      cbn [mbind outcome_bind]; unfold VSB_FREESPACE; cbn [s_size s_len upd_buf];
      rewrite (proj2 (Z.ltb_ge _ _)) by lia; done.
  - split.
    + rewrite Ht by (rewrite length_app; lia). by rewrite take_app_length.
    + specialize (Ht 0%nat ltac:(lia)). by rewrite Nat.add_0_r, take_0, app_nil_r in Ht.
Qed.

Lemma print_loop_S fuel s t : print_loop malloc (S fuel) s t =
  b ← blit (s_buf s) (s_len s) (take (Z.to_nat (VSB_FREESPACE s)) t ++ [0]);
  let s := upd_buf s b (s_len s) in
  if VSB_FREESPACE s <? Z.of_nat (length t) then
    '(s, r) ← VSB_extend malloc s (Z.of_nat (length t) - VSB_FREESPACE s);
    if r =? 0 then print_loop malloc fuel s t else Ok s
  else Ok s.
Proof. done. Qed.

Lemma print_grows s t : growing s ->
  exists s1 b, print_loop malloc 1 s t = Ok (upd_buf s1 b (s_len s1)) /\ growing s1 /\ content s1 = content s /\
    same_mode s s1 /\ Z.of_nat (length t) <= VSB_FREESPACE s1 /\ Z.of_nat (length b) = s_size s1 /\
    take (Z.to_nat (s_len s1) + length t) b = content s1 ++ t.
Proof.
  intros Hg. pose proof Hg as (Hok & Hc & He & Hf). pose proof (vs_len s Hok) as Hl.
  destruct (Z.leb_spec (Z.of_nat (length t)) (VSB_FREESPACE s)) as [Hfit|Hno].
  - destruct (print_fits s t 1 Hok Hfit) as (b & E & Hb & Ht & _). exists s, b. done.
  - rewrite print_loop_S. destruct (scratch_ok s (take (Z.to_nat (VSB_FREESPACE s)) t ++ [0]) Hok) as (b & -> & Hb & Ht).
    { rewrite length_app, length_take. unfold VSB_FREESPACE in *. simpl. lia. }
    cbn [mbind outcome_bind]. set (s1 := upd_buf s b (s_len s)).
    assert (growing s1 /\ content s1 = content s /\ VSB_FREESPACE s1 = VSB_FREESPACE s) as (Hg1 & Hc1 & Hf1).
    { split; [split; [split; simpl; [lia|done|apply Hok]|done]|]. split; [|done].
      specialize (Ht 0%nat ltac:(lia)). rewrite Nat.add_0_r, take_0, app_nil_r in Ht. exact Ht. }
    rewrite Hf1, (proj2 (Z.ltb_lt _ _)) by lia.
    destruct (grow_more s1 (Z.of_nat (length t) - VSB_FREESPACE s) Hg1 ltac:(lia)) as (s2 & -> & Hg2 & Hc2 & Hm2 & Hl2 & Hr2).
    cbn [mbind outcome_bind Z.eqb]. destruct (print_fits s2 t 0 (proj1 Hg2)) as (b2 & E2 & Hb2 & Ht2 & _); [lia|].
    exists s2, b2. rewrite E2. split; [done|]. split; [done|]. split; [congruence|]. split; [done|].
    split; [lia|done].
Qed.

Lemma vsb_printf_grows s t : growing s ->
  exists s', VSB_printf malloc s (inl t) = Ok (s', 0) /\ growing s' /\ content s' = content s ++ padding s ++ t /\ same_mode s s'.
Proof.
  intros Hg. pose proof Hg as (Hok & _ & He & Hf). destruct (state_ok s Hok Hf) as [E1 E2].
  unfold VSB_printf, VSB_vprintf. rewrite E1, E2, He. cbn [mbind outcome_bind Z.eqb negb].
  destruct (indent_ok s Hg) as (s1 & -> & Hg1 & Hc1 & Hm1). cbn [mbind outcome_bind].
  destruct (print_grows s1 t Hg1) as (s2 & b & -> & Hg2 & Hc2 & Hm2 & Hr & Hb & Ht). cbn [mbind outcome_bind].
  pose proof Hg2 as (Hok2 & Hx2 & He2 & Hf2). pose proof (vs_len s2 Hok2).
  assert (VSB_CANEXTEND (upd_buf s2 b (s_len s2)) = true) as Hx by done.
  cbn [s_buf s_len upd_buf]. unfold VSB_FREESPACE in *. cbn [s_size s_len upd_buf].
  rewrite Z.min_l by lia. set (s3 := upd_buf _ b _).
  assert (VSB_CANEXTEND s3 = true) as -> by done. rewrite andb_false_r.
  rewrite assertC_true by (subst s3; simpl; lia). cbn [mbind outcome_bind].
  assert (s_error s3 = 0) as -> by done. exists s3. split; [done|].
  split; [split; [split; simpl; [lia|done|apply Hok2]|done]|]. split.
  - unfold content. subst s3. cbn [s_len s_buf upd_buf].
    replace (Z.to_nat (s_len s2 + Z.of_nat (length t))) with (Z.to_nat (s_len s2) + length t)%nat by lia.
    fold (content s). by rewrite Ht, Hc2, Hc1, <-app_assoc.
  - transitivity s1; [done|]. by transitivity s2.
Qed.

(** *** Lines *)

(** The text with [n] blanks in front of each line; [bol] says whether it
    begins a line. *)
Fixpoint indent_text (n : nat) (bol : bool) (str : list Z) : list Z :=
  match str with
  | [] => []
  | c :: str => (if bol then replicate n 32 else []) ++ c :: indent_text n (c =? 10) str
  end.

(** Is the next byte the first of a line? *)
Definition at_bol (s : vsb) : bool := bool_decide (content s = []) || bool_decide (last (content s) = Some 10).

Lemma indent_text_0 bol str : indent_text 0 bol str = str.
Proof. revert bol. induction str as [|c str IH]; intros bol; [done|]. simpl. rewrite IH. by destruct bol. Qed.

Lemma to_newline_none n str bol : to_newline str = None -> str <> [] ->
  indent_text n bol str = (if bol then replicate n 32 else []) ++ str.
Proof.
  revert bol. induction str as [|c str IH]; [done|]. intros bol Hn _. cbn [to_newline indent_text] in *.
  destruct (c =? 10) eqn:Ec; [done|]. destruct (to_newline str) as [[]|] eqn:Et; [done|].
  destruct str as [|d str]; [done|]. by rewrite IH.
Qed.

Lemma to_newline_some n str l r : to_newline str = Some (l, r) -> forall bol,
  str = l ++ r /\ l <> [] /\ last l = Some 10 /\
  indent_text n bol str = ((if bol then replicate n 32 else []) ++ l) ++ indent_text n true r.
Proof.
  revert l r. induction str as [|c str IH]; intros l r Hl bol; [done|]. cbn [to_newline indent_text] in *.
  destruct (c =? 10) eqn:Ec.
  - injection Hl as <- <-. assert (c = 10) as -> by lia. repeat (split; [done|]). by rewrite <-app_assoc.
  - destruct (to_newline str) as [[l' r']|] eqn:Et; [|done]. injection Hl as <- <-.
    destruct (IH l' r' eq_refl false) as (-> & Hne & Hlast & ->). split; [done|]. split; [done|].
    split; [destruct l'; done|]. cbn [app]. by rewrite <-app_assoc.
Qed.

Lemma bol_after s t s' : content s' = content s ++ t -> t <> [] ->
  at_bol s' = bool_decide (last t = Some 10).
Proof.
  intros E Hne. unfold at_bol. rewrite E. rewrite bool_decide_eq_false_2 by (intros []%app_eq_nil; done).
  cbn [orb]. rewrite last_app. destruct t as [|c t]; [done|]. by destruct (last (c :: t)) eqn:El; [|apply last_None in El].
Qed.

Lemma cat_lines_grows fuel : forall s str, growing s -> (length str <= fuel)%nat ->
  exists s', cat_lines malloc fuel s str = Ok (s', 0) /\ growing s' /\
    content s' = content s ++ indent_text (Z.to_nat (s_indent s)) (at_bol s) str /\ same_mode s s'.
Proof.
  assert (forall s, growing s -> VSB_bcat malloc s [] = Ok (s, 0)) as Hnil.
  { intros s (Hok & _ & He & Hf). destruct (state_ok s Hok Hf) as [E1 E2]. unfold VSB_bcat. by rewrite E1, E2, He. }
  assert (forall s str, growing s -> (s_indent s = 0 \/ to_newline str = None) ->
    exists s', VSB_bcat malloc s str = Ok (s', 0) /\ growing s' /\
    content s' = content s ++ indent_text (Z.to_nat (s_indent s)) (at_bol s) str /\ same_mode s s') as Hlast.
  { intros s str Hg Hn. destruct str as [|c str]; [exists s; rewrite Hnil, app_nil_r by done; done|].
    destruct (vsb_bcat_grows s (c :: str) Hg) as (s' & -> & Hg' & Hct & Hm); [done|]. exists s'.
    split; [done|]. split; [done|]. split; [|done]. rewrite Hct. f_equal. unfold padding. fold (at_bol s).
    destruct Hn as [Hn|Hn].
    - rewrite Hn. change (Z.to_nat 0) with 0%nat. rewrite indent_text_0. by destruct (at_bol s).
    - by rewrite (to_newline_none _ _ _ Hn). }
  induction fuel as [|fuel IH]; intros s str Hg Hf.
  - destruct str; [|simpl in Hf; lia]. cbn [cat_lines to_newline]. destruct (0 <? s_indent s); by apply Hlast; [|right].
  - cbn [cat_lines]. pose proof (vs_indent s (proj1 Hg)) as Hi.
    destruct (Z.ltb_spec 0 (s_indent s)); [|apply Hlast; [done|left; lia]].
    destruct (to_newline str) as [[l r]|] eqn:Et; [|by apply Hlast; [|right]].
    destruct (to_newline_some (Z.to_nat (s_indent s)) str l r Et (at_bol s)) as (-> & Hne & Hl10 & Hit).
    destruct (vsb_bcat_grows s l Hg Hne) as (s1 & -> & Hg1 & Hc1 & Hm1). cbn [mbind outcome_bind Z.ltb Z.compare].
    rewrite length_app in Hf. destruct l as [|c l]; [done|].
    destruct (IH s1 r Hg1) as (s2 & -> & Hg2 & Hc2 & Hm2); [simpl in Hf; lia|]. exists s2. split; [done|]. split; [done|].
    split; [|by transitivity s1]. rewrite Hc2, Hc1, Hit. rewrite <-!app_assoc. do 2 f_equal.
    f_equal. destruct Hm1 as (_ & -> & _). f_equal.
    rewrite (bol_after s (padding s ++ c :: l) s1); [|done|by destruct (padding s)].
    rewrite last_app. by rewrite Hl10, bool_decide_eq_true_2.
Qed.

Lemma vsb_cat_grows s str : growing s ->
  exists s', VSB_cat malloc s str = Ok (s', 0) /\ growing s' /\
    content s' = content s ++ indent_text (Z.to_nat (s_indent s)) (at_bol s) str /\ same_mode s s'.
Proof.
  intros Hg. pose proof Hg as (Hok & _ & He & Hf). destruct (state_ok s Hok Hf) as [E1 E2].
  unfold VSB_cat. rewrite E1, E2, He. cbn [mbind outcome_bind Z.eqb negb]. by apply cat_lines_grows.
Qed.

(** C39: a growing buffer, when memory does not run out, takes everything:
    [VSB_bcat], [VSB_putc] and [VSB_printf] append their bytes, behind the
    indentation when they begin a line, and [VSB_cat] indents every line of the
    text. *)
Theorem vsb_auto_appends s t c (Hg : growing s) (Ht : t <> []) :
  (exists s', VSB_bcat malloc s t = Ok (s', 0) /\ growing s' /\ content s' = content s ++ padding s ++ t) /\
  (exists s', VSB_putc malloc s c = Ok (s', 0) /\ growing s' /\ content s' = content s ++ padding s ++ [u8 c]) /\
  (exists s', VSB_printf malloc s (inl t) = Ok (s', 0) /\ growing s' /\ content s' = content s ++ padding s ++ t) /\
  (exists s', VSB_cat malloc s t = Ok (s', 0) /\ growing s' /\
     content s' = content s ++ indent_text (Z.to_nat (s_indent s)) (at_bol s) t).
Proof.
  destruct (vsb_bcat_grows s t Hg Ht) as (s1 & ? & ? & ? & _), (vsb_putc_grows s c Hg) as (s2 & ? & ? & ? & _).
  destruct (vsb_printf_grows s t Hg) as (s3 & ? & ? & ? & _), (vsb_cat_grows s t Hg) as (s4 & ? & ? & ? & _).
  split; [by exists s1|]. split; [by exists s2|]. split; [by exists s3|by exists s4].
Qed.

(** Making a growing buffer. *)
Lemma new_auto_ok : exists s, VSB_new_auto malloc = Ok (Some s) /\ growing s /\ content s = [] /\ s_indent s = 0.
Proof.
  unfold VSB_new_auto, VSB_newbuf. cbn [s_flags s_size]. change (negb (Z.land VSB_AUTOEXTEND VSB_AUTOEXTEND =? 0)) with true.
  cbn [orb]. cbn [mbind outcome_bind assertC]. change (VSB_extendsize 0) with (Ok 16). cbn [mbind outcome_bind].
  destruct (malloc 16) as [m|] eqn:Em; [|by destruct (malloc_total 16)]. eexists. split; [done|].
  pose proof (malloc_size _ _ Em). split; [|done]. split; [split; simpl; lia|done].
Qed.

(** The string that [VSB_finish] makes of a growing buffer is what was
    written to it, with a NUL behind it. *)
Theorem vsb_finish_ok s (Hg : growing s) :
  exists s' b, VSB_finish s = Ok (s', 0) /\ VSB_data s' = Ok b /\ VSB_len s' = Ok (Z.of_nat (length (content s))) /\
    content s ++ [0] `prefix_of` b /\ (no_nul (content s) -> string_at b = Ok (content s)).
Proof.
  destruct Hg as (Hok & _ & He & Hf). destruct (state_ok s Hok Hf) as [E1 E2]. pose proof (vs_len s Hok) as Hl.
  unfold VSB_finish. rewrite E1, E2. cbn [mbind outcome_bind].
  destruct (scratch_ok s [0] Hok) as (b & -> & Hb & Ht); [simpl; lia|]. cbn [mbind outcome_bind].
  assert (content s ++ [0] `prefix_of` b) as Hp
    by (change [0] with (take 1 [0]); rewrite <-(Ht 1%nat) by (simpl; lia); apply prefix_take).
  eexists _, b. split; [cbn; rewrite He; done|]. split.
  - unfold VSB_data, assert_VSB_integrity, assert_VSB_state. cbn [s_len s_size VSB_SETFLAG upd_flags upd_buf]. rewrite (assertC_true (s_len s <? s_size s)) by lia. cbn.
    rewrite Z.land_lor_distr_l, Hf. done.
  - split; [|split; [done|intros Hn; destruct Hp as [r ->]; rewrite <-app_assoc; by apply string_at_app]].
    unfold VSB_len, assert_VSB_integrity. cbn. rewrite assertC_true by lia. cbn. by rewrite He, content_length.
Qed.
End malloc.

(** ** With any memory and any size *)

Section total.
Context (malloc : Z -> option (list Z)).
Context (malloc_size : forall n m, malloc n = Some m -> Z.of_nat (length m) = n).

(** Open for writing. *)
Definition writable (s : vsb) : Prop := vsb_ok s /\ Z.land (s_flags s) VSB_FINISHED = 0.

Lemma writable_state s : writable s -> assert_VSB_integrity s = Ok tt /\ assert_VSB_state s 0 = Ok tt.
Proof. intros [Hok Hf]. by apply state_ok. Qed.

Lemma writable_error s e : writable s -> writable (upd_error s e).
Proof. intros [[H1 H2 H3] Hf]. done. Qed.

Lemma extend_total s add : writable s -> 0 <= add ->
  exists s' r, VSB_extend malloc s add = Ok (s', r) /\ writable s' /\
    (r = -1 /\ s' = s \/ r = 0 /\ s_error s' = s_error s /\ s_indent s' = s_indent s /\ s_len s' = s_len s /\
     VSB_FREESPACE s + add <= VSB_FREESPACE s').
Proof.
  intros [Hok Hf] Ha.
  destruct (extend_ok malloc malloc_size s add Hok Ha) as [[-> _]|(s' & -> & _ & Hok' & _ & (_ & Hi & Hf') & He & Hl & Hr)].
  - exists s, (-1). split; [done|]. split; [done|by left].
  - exists s', 0. split; [done|]. split; [split; [done|congruence]|]. right. done.
Qed.

Lemma put_total s t : writable s -> s_len s + Z.of_nat (length t) < s_size s ->
  exists b, blit (s_buf s) (s_len s) t = Ok b /\ writable (upd_buf s b (s_len s + Z.of_nat (length t))).
Proof. intros [Hok Hf] Hr. destruct (put_ok s t Hok Hr) as (b & E & Hok' & _). by exists b. Qed.

Lemma indent_total s : writable s -> exists s', _vsb_indent malloc s = Ok s' /\ writable s'.
Proof.
  intros Hw. pose proof Hw as [Hok Hf]. pose proof (vs_indent s Hok). pose proof (vs_len s Hok).
  unfold _vsb_indent.
  assert (exists m : bool, (if s_indent s =? 0 then Ok true else if negb (s_error s =? 0) then Ok true else mid_line s) = Ok m)
    as (m & ->) by (rewrite mid_line_ok by done; repeat case_match; eauto).
  cbn [mbind outcome_bind]. destruct m; [by exists s|].
  assert (forall s', writable s' -> s_indent s' = s_indent s -> s_len s' + s_indent s < s_size s' ->
    exists s2, (b ← blit (s_buf s') (s_len s') (replicate (Z.to_nat (s_indent s')) 32);
      Ok (upd_buf s' b (s_len s' + s_indent s'))) = Ok s2 /\ writable s2) as Hput.
  { intros s' Hw' Hi Hr. destruct (put_total s' (replicate (Z.to_nat (s_indent s')) 32) Hw') as (b & -> & Hw2).
    - rewrite length_replicate. lia.
    - rewrite length_replicate, Z2Nat.id in Hw2 by lia. cbn [mbind outcome_bind]. eauto. }
  unfold VSB_FREESPACE. destruct (Z.leb_spec (s_size s - (s_len s + 1)) (s_indent s)).
  - destruct (extend_total s (s_indent s) Hw ltac:(done)) as (s' & r & -> & Hw' & Hr). cbn [mbind outcome_bind].
    destruct Hr as [[-> ->]|(-> & He & Hi & Hl & Hfr)]; cbn [Z.ltb Z.compare].
    + eexists. split; [done|]. by apply writable_error.
    + apply Hput; [done|done|]. unfold VSB_FREESPACE in Hfr. lia.
  - cbn [mbind outcome_bind Z.ltb Z.compare]. apply Hput; [done|done|lia].
Qed.

(** Making room, or recording that there is none. *)
Lemma room_total s add : writable s -> 0 <= add ->
  exists s' r, VSB_extend malloc s add = Ok (s', r) /\
    let s2 := if r <? 0 then upd_error s' ENOMEM else s' in
    writable s2 /\ (negb (s_error s2 =? 0) = true \/ VSB_FREESPACE s + add <= VSB_FREESPACE s2).
Proof.
  intros Hw Ha. destruct (extend_total s add Hw Ha) as (s' & r & -> & Hw' & Hr). exists s', r. split; [done|].
  destruct Hr as [[-> ->]|(-> & He & Hi & Hl & Hfr)]; cbn [Z.ltb Z.compare]; cbv zeta.
  - split; [by apply writable_error|by left].
  - split; [done|by right].
Qed.

Definition keeps (o : outcome (vsb * Z)) : Prop := exists s r, o = Ok (s, r) /\ writable s.

Lemma keeps_ret s r : writable s -> keeps (Ok (s, r)).
Proof. by exists s, r. Qed.

Lemma bcat_total s t : writable s -> keeps (VSB_bcat malloc s t).
Proof.
  intros Hw. destruct (writable_state s Hw) as [E1 E2]. unfold VSB_bcat. rewrite E1, E2. cbn [mbind outcome_bind].
  destruct (negb (s_error s =? 0)); [by apply keeps_ret|]. destruct (Z.of_nat (length t) =? 0); [by apply keeps_ret|].
  destruct (indent_total s Hw) as (s1 & -> & Hw1). cbn [mbind outcome_bind].
  assert (forall s', writable s' -> Z.of_nat (length t) <= VSB_FREESPACE s' ->
    keeps (b ← blit (s_buf s') (s_len s') t; Ok (upd_buf s' b (s_len s' + Z.of_nat (length t)), 0))) as Hput.
  { intros s' Hw' Hr. unfold VSB_FREESPACE in Hr. destruct (put_total s' t Hw') as (b & -> & Hw2); [lia|].
    by apply keeps_ret. }
  destruct (Z.ltb_spec (VSB_FREESPACE s1) (Z.of_nat (length t))); [|by apply Hput].
  destruct (room_total s1 (Z.of_nat (length t) - VSB_FREESPACE s1) Hw1 ltac:(lia)) as (s' & r & -> & Hw2 & Hr).
  cbn [mbind outcome_bind]. set (s2 := if r <? 0 then _ else _) in *.
  destruct (negb (s_error s2 =? 0)); [by apply keeps_ret|]. destruct Hr as [|Hr]; [done|]. apply Hput; [done|lia].
Qed.

Lemma put_byte_total s c : writable s -> exists s', VSB_put_byte malloc s c = Ok s' /\ writable s'.
Proof.
  intros Hw. destruct (writable_state s Hw) as [E1 E2]. unfold VSB_put_byte. rewrite E1, E2. cbn [mbind outcome_bind].
  destruct (negb (s_error s =? 0)); [by exists s|].
  destruct (indent_total s Hw) as (s1 & -> & Hw1). cbn [mbind outcome_bind].
  assert (forall s', writable s' -> 1 <= VSB_FREESPACE s' ->
    exists s2, (b ← blit (s_buf s') (s_len s') [u8 c]; Ok (upd_buf s' b (s_len s' + 1))) = Ok s2 /\ writable s2) as Hput.
  { intros s' Hw' Hr. unfold VSB_FREESPACE in Hr. destruct (put_total s' [u8 c] Hw') as (b & -> & Hw2); [simpl; lia|].
    cbn [mbind outcome_bind]. eauto. }
  pose proof (vs_len s1 (proj1 Hw1)). destruct (Z.leb_spec (VSB_FREESPACE s1) 0); [|apply Hput; [done|lia]].
  destruct (room_total s1 1 Hw1 ltac:(lia)) as (s' & r & -> & Hw2 & Hr).
  cbn [mbind outcome_bind]. set (s2 := if r <? 0 then _ else _) in *.
  destruct (negb (s_error s2 =? 0)); [by exists s2|]. destruct Hr as [|Hr]; [done|]. apply Hput; [done|].
  unfold VSB_FREESPACE in *. lia.
Qed.

Lemma putc_total s c : writable s -> keeps (VSB_putc malloc s c).
Proof.
  intros Hw. unfold VSB_putc. destruct (put_byte_total s c Hw) as (s' & -> & Hw'). by apply keeps_ret.
Qed.

Lemma cat_total s str : writable s -> keeps (VSB_cat malloc s str).
Proof.
  intros Hw. destruct (writable_state s Hw) as [E1 E2]. unfold VSB_cat. rewrite E1, E2. cbn [mbind outcome_bind].
  destruct (negb (s_error s =? 0)); [by apply keeps_ret|]. clear E1 E2.
  assert (forall fuel s str, writable s -> (length str <= fuel)%nat -> keeps (cat_lines malloc fuel s str)) as Hl; [|by apply Hl].
  clear s str Hw. induction fuel as [|fuel IH]; intros s str Hw Hf; cbn [cat_lines].
  - destruct str; [|simpl in Hf; lia]. cbn [to_newline]. destruct (0 <? s_indent s); by apply bcat_total.
  - destruct (0 <? s_indent s); [|by apply bcat_total]. destruct (to_newline str) as [[l r]|] eqn:Et; [|by apply bcat_total].
    destruct (bcat_total s l Hw) as (s1 & i & -> & Hw1). cbn [mbind outcome_bind].
    destruct (i <? 0); [by apply keeps_ret|]. apply IH; [done|].
    destruct (to_newline_some 0 str l r Et true) as (-> & Hne & _). destruct l; [done|].
    rewrite length_app in Hf. simpl in Hf. lia.
Qed.

Lemma print_total s t : writable s ->
  exists s', print_loop malloc 1 s t = Ok s' /\ writable s' /\ s_indent s' = s_indent s.
Proof.
  intros Hw. assert (forall s, writable s -> exists b,
    blit (s_buf s) (s_len s) (take (Z.to_nat (VSB_FREESPACE s)) t ++ [0]) = Ok b /\ writable (upd_buf s b (s_len s))) as Hb.
  { intros s' [Hok Hf]. pose proof (vs_len s' Hok). destruct (scratch_ok s' (take (Z.to_nat (VSB_FREESPACE s')) t ++ [0]) Hok) as (b & E & Hl & _).
    - rewrite length_app, length_take. unfold VSB_FREESPACE. simpl. lia.
    - exists b. split; [done|]. split; [split; simpl; [lia|done|apply Hok]|done]. }
  rewrite print_loop_S. destruct (Hb s Hw) as (b & -> & Hw1). cbn [mbind outcome_bind].
  set (s1 := upd_buf s b (s_len s)) in *. destruct (Z.ltb_spec (VSB_FREESPACE s1) (Z.of_nat (length t))); [|by exists s1].
  destruct (extend_total s1 (Z.of_nat (length t) - VSB_FREESPACE s1) Hw1 ltac:(lia)) as (s2 & r & -> & Hw2 & Hr).
  cbn [mbind outcome_bind]. destruct Hr as [[-> ->]|(-> & He & Hi & Hl & Hfr)]; cbn [Z.eqb]; [by exists s1|].
  destruct (print_fits malloc s2 t 0 (proj1 Hw2)) as (b2 & -> & Hb2 & _); [lia|]. eexists. split; [done|].
  destruct Hw2 as [[L1 L2 L3] Hf2]. done.
Qed.

Lemma printf_total s f : writable s -> keeps (VSB_printf malloc s f).
Proof.
  intros Hw. destruct (writable_state s Hw) as [E1 E2]. unfold VSB_printf, VSB_vprintf. rewrite E1, E2. cbn [mbind outcome_bind].
  destruct (negb (s_error s =? 0)); [by apply keeps_ret|].
  destruct (indent_total s Hw) as (s1 & -> & Hw1). cbn [mbind outcome_bind].
  destruct f as [t|e]; [|by apply keeps_ret, writable_error].
  destruct (print_total s1 t Hw1) as (s2 & -> & [[L1 L2 L3] Hf2] & _). cbn [mbind outcome_bind].
  unfold VSB_FREESPACE. set (s3 := upd_buf s2 (s_buf s2) _).
  assert (writable s3) as Hw3 by (split; [split; subst s3; simpl; lia|done]).
  set (s4 := if _ && _ then _ else _). assert (writable s4 /\ s_len s4 = s_len s3 /\ s_size s4 = s_size s3) as (Hw4 & El & Es)
    by (subst s4; destruct (_ && _); [split; [by apply writable_error|done]|done]).
  rewrite assertC_true by (pose proof (vs_len s4 (proj1 Hw4)); lia). by apply keeps_ret.
Qed.

(** Whatever [malloc] returns and whatever the size of the buffer, on a
    buffer that is open for writing every appending operation returns, writes
    inside its memory only and leaves a buffer that is open for writing. *)
Theorem vsb_safe s t c f (Hw : writable s) :
  keeps (VSB_bcat malloc s t) /\ keeps (VSB_cat malloc s t) /\ keeps (VSB_putc malloc s c) /\
  keeps (VSB_printf malloc s f).
Proof.
  split; [by apply bcat_total|]. split; [by apply cat_total|]. split; [by apply putc_total|by apply printf_total].
Qed.

(** A buffer of a fixed size without indentation takes bytes as long as they
    fit, and otherwise takes none of them and records ENOMEM; but [VSB_printf]
    writes what fits, and records ENOMEM also when the bytes fit exactly. *)
Theorem vsb_fixed s t
    (Hw : writable s) (Hx : VSB_CANEXTEND s = false) (Hi : s_indent s = 0) (He : s_error s = 0) :
  exists s1 s2, VSB_bcat malloc s t = Ok (s1, if s_error s1 =? 0 then 0 else -1) /\
    VSB_printf malloc s (inl t) = Ok (s2, if s_error s2 =? 0 then 0 else -1) /\
    (s_error s1 = if Z.of_nat (length t) <=? VSB_FREESPACE s then 0 else ENOMEM) /\
    content s1 = content s ++ (if Z.of_nat (length t) <=? VSB_FREESPACE s then t else []) /\
    (s_error s2 = if Z.of_nat (length t) <? VSB_FREESPACE s then 0 else ENOMEM) /\
    content s2 = content s ++ take (Z.to_nat (VSB_FREESPACE s)) t.
Proof.
  destruct (writable_state s Hw) as [E1 E2]. destruct Hw as [Hok Hf]. pose proof (vs_len s Hok) as Hl.
  destruct (indent_none malloc s Hok Hi) as [Ein _].
  assert (forall s' add, VSB_CANEXTEND s' = false -> VSB_extend malloc s' add = Ok (s', -1)) as Hext
    by (intros s' add Hx'; unfold VSB_extend; by rewrite Hx').
  assert (exists s1, VSB_bcat malloc s t = Ok (s1, if s_error s1 =? 0 then 0 else -1) /\
    (s_error s1 = if Z.of_nat (length t) <=? VSB_FREESPACE s then 0 else ENOMEM) /\
    content s1 = content s ++ (if Z.of_nat (length t) <=? VSB_FREESPACE s then t else [])) as (s1 & B1 & B2 & B3).
  { unfold VSB_bcat. rewrite E1, E2, He. cbn [mbind outcome_bind Z.eqb negb]. unfold VSB_FREESPACE in *.
    destruct (Z.eqb_spec (Z.of_nat (length t)) 0) as [E0|_].
    { destruct t; [|simpl in E0; lia]. exists s. rewrite He, (proj2 (Z.leb_le _ _)), app_nil_r by (simpl; lia). done. }
    rewrite Ein. cbn [mbind outcome_bind]. destruct (Z.leb_spec (Z.of_nat (length t)) (s_size s - (s_len s + 1))) as [Hfit|Hno].
    - rewrite (proj2 (Z.ltb_ge _ _)) by lia. destruct (put_ok s t Hok ltac:(lia)) as (b & -> & _ & Hc & _).
      cbn [mbind outcome_bind]. exists (upd_buf s b (s_len s + Z.of_nat (length t))).
      cbn [s_error upd_buf]. by rewrite He.
    - rewrite (proj2 (Z.ltb_lt _ _)), Hext by done. cbn [mbind outcome_bind Z.ltb Z.compare s_error upd_error].
      exists (upd_error s ENOMEM). rewrite app_nil_r. done. }
  assert (exists s2, VSB_printf malloc s (inl t) = Ok (s2, if s_error s2 =? 0 then 0 else -1) /\
    (s_error s2 = if Z.of_nat (length t) <? VSB_FREESPACE s then 0 else ENOMEM) /\
    content s2 = content s ++ take (Z.to_nat (VSB_FREESPACE s)) t) as (s2 & P1 & P2 & P3); [|by exists s1, s2].
  unfold VSB_printf, VSB_vprintf. rewrite E1, E2, He. cbn [mbind outcome_bind Z.eqb negb]. rewrite Ein. cbn [mbind outcome_bind].
  rewrite print_loop_S. set (w := take (Z.to_nat (VSB_FREESPACE s)) t).
  assert (Z.of_nat (length w) = Z.min (Z.of_nat (length t)) (VSB_FREESPACE s)) as Hlw
    by (subst w; rewrite length_take; unfold VSB_FREESPACE in *; lia).
  destruct (scratch_ok s (w ++ [0]) Hok) as (b & -> & Hb & Ht).
  { rewrite length_app. unfold VSB_FREESPACE in Hlw. simpl. lia. }
  cbn [mbind outcome_bind]. set (sb := upd_buf s b (s_len s)).
  assert ((if VSB_FREESPACE sb <? Z.of_nat (length t) then
    '(s, r) ← VSB_extend malloc sb (Z.of_nat (length t) - VSB_FREESPACE sb);
    if r =? 0 then print_loop malloc 0 s t else Ok s else Ok sb) = Ok sb) as ->
    by (destruct (_ <? _); [rewrite Hext by done|]; done).
  cbn [mbind outcome_bind]. cbn [s_buf s_len upd_buf sb]. unfold VSB_FREESPACE at 1 2 3 4. cbn [s_size s_len upd_buf sb].
  fold (VSB_FREESPACE s). unfold VSB_HASROOM. cbn [s_size s_len upd_buf].
  change (VSB_CANEXTEND (upd_buf _ b _)) with (VSB_CANEXTEND s). rewrite Hx.
  change (negb false) with true. rewrite !andb_true_r. change (s_size sb) with (s_size s).
  assert (forall k, k = s_len s + Z.min (Z.of_nat (length t)) (VSB_FREESPACE s) ->
    content (upd_buf sb b k) = content s ++ w) as Hct.
  { intros k ->. unfold content. cbn [s_len s_buf upd_buf]. rewrite <-Hlw.
    replace (Z.to_nat (s_len s + Z.of_nat (length w))) with (Z.to_nat (s_len s) + length w)%nat by lia.
    rewrite Ht by (rewrite length_app; lia). by rewrite take_app_length. }
  set (k := s_len s + Z.min _ _) in *. assert (k = s_len s + Z.min (Z.of_nat (length t)) (VSB_FREESPACE s)) as Hk by done.
  specialize (Hct k Hk). clearbody k. destruct (Z.ltb_spec (Z.of_nat (length t)) (VSB_FREESPACE s)) as [Hlt|Hge]; unfold VSB_FREESPACE in *.
  - rewrite (proj2 (Z.ltb_lt k _)) by lia. cbn [negb]. rewrite assertC_true by (subst sb; cbn [s_len s_size upd_buf]; lia).
    cbn [mbind outcome_bind]. exists (upd_buf sb b k). cbn [s_error upd_buf sb]. rewrite He.
    split; [done|]. split; [done|exact Hct].
  - rewrite (proj2 (Z.ltb_ge k _)) by lia. cbn [negb]. rewrite assertC_true by (subst sb; cbn [s_len s_size upd_buf upd_error]; lia).
    cbn [mbind outcome_bind s_error upd_error]. exists (upd_error (upd_buf sb b k) ENOMEM).
    split; [done|]. split; [done|]. exact Hct.
Qed.
End total.

(** ** Short of memory *)

(** When a growing buffer cannot grow, [VSB_printf] writes what fits and
    reports no error, while [VSB_bcat] records ENOMEM. *)
Theorem vsb_printf_truncates s t
    (Hg : growing s) (Hi : s_indent s = 0) (Hlong : VSB_FREESPACE s < Z.of_nat (length t)) :
  (exists s', VSB_printf (fun _ => None) s (inl t) = Ok (s', 0) /\ s_error s' = 0 /\
     content s' = content s ++ take (Z.to_nat (VSB_FREESPACE s)) t) /\
  exists s', VSB_bcat (fun _ => None) s t = Ok (s', -1) /\ s_error s' = ENOMEM /\ content s' = content s.
Proof.
  destruct Hg as (Hok & Hx & He & Hf). destruct (state_ok s Hok Hf) as [E1 E2]. pose proof (vs_len s Hok) as Hl.
  destruct (indent_none (fun _ => None) s Hok Hi) as [Ein _].
  assert (forall s' add, VSB_CANEXTEND s' = true -> 0 <= s_size s' + add -> VSB_extend (fun _ => None) s' add = Ok (s', -1)) as Hext.
  { intros s' add Hx' Hs. unfold VSB_extend. rewrite Hx'. cbn [negb].
    by destruct (extendsize_ok (s_size s' + add) Hs) as (m & -> & _). }
  split.
  - unfold VSB_printf, VSB_vprintf. rewrite E1, E2, He. cbn [mbind outcome_bind Z.eqb negb]. rewrite Ein. cbn [mbind outcome_bind].
    rewrite print_loop_S. set (w := take (Z.to_nat (VSB_FREESPACE s)) t).
    assert (Z.of_nat (length w) = VSB_FREESPACE s) as Hlw
      by (subst w; rewrite length_take; unfold VSB_FREESPACE in *; lia).
    destruct (scratch_ok s (w ++ [0]) Hok) as (b & -> & Hb & Ht).
    { rewrite length_app. unfold VSB_FREESPACE in Hlw. simpl. lia. }
    cbn [mbind outcome_bind]. change (VSB_FREESPACE (upd_buf s b (s_len s))) with (VSB_FREESPACE s).
    rewrite (proj2 (Z.ltb_lt _ _)), Hext by (done || simpl; unfold VSB_FREESPACE in *; lia).
    cbn [mbind outcome_bind Z.eqb]. cbn [s_buf s_len upd_buf].
    change (VSB_FREESPACE (upd_buf s b (s_len s))) with (VSB_FREESPACE s). rewrite Z.min_r by lia.
    set (s3 := upd_buf _ b _). assert (VSB_CANEXTEND s3 = true) as -> by done. rewrite andb_false_r.
    rewrite assertC_true by (subst s3; cbn [s_len s_size upd_buf]; unfold VSB_FREESPACE; lia).
    cbn [mbind outcome_bind]. assert (s_error s3 = 0) as E3 by done. rewrite E3. exists s3. split; [done|]. split; [done|].
    unfold content. subst s3. cbn [s_len s_buf upd_buf]. rewrite <-Hlw.
    replace (Z.to_nat (s_len s + Z.of_nat (length w))) with (Z.to_nat (s_len s) + length w)%nat by lia.
    rewrite Ht by (rewrite length_app; lia). by rewrite take_app_length.
  - unfold VSB_bcat. rewrite E1, E2, He. cbn [mbind outcome_bind Z.eqb negb].
    rewrite (proj2 (Z.eqb_neq _ 0)) by (unfold VSB_FREESPACE in *; lia). rewrite Ein. cbn [mbind outcome_bind].
    rewrite (proj2 (Z.ltb_lt _ _)), Hext by (done || unfold VSB_FREESPACE in *; lia).
    cbn [mbind outcome_bind Z.ltb Z.compare s_error upd_error]. exists (upd_error s ENOMEM). done.
Qed.

(** ** Examples *)

(** Memory that does not run out. *)
Definition zero_malloc (n : Z) : option (list Z) := if 0 <=? n then Some (replicate (Z.to_nat n) 0) else None.

Lemma zero_malloc_size n m : zero_malloc n = Some m -> Z.of_nat (length m) = n.
Proof.
  unfold zero_malloc. destruct (Z.leb_spec 0 n); [|done]. intros [= <-]. rewrite length_replicate. lia.
Qed.

Lemma zero_malloc_total n : 0 <= n -> zero_malloc n <> None.
Proof. intros Hn. unfold zero_malloc. by rewrite (proj2 (Z.leb_le _ _)). Qed.

(** A new buffer of [VSB_new_auto]. *)
Definition example_vsb : vsb := mk_vsb 0 (replicate 16 0) 16 0 (VSB_AUTOEXTEND + VSB_DYNAMIC + VSB_DYNSTRUCT) 0.

Lemma example_growing : growing example_vsb.
Proof. split; [split; simpl; lia|done]. Qed.

Lemma vsb_auto_appends_witness : exists s', VSB_cat zero_malloc example_vsb [97; 98] = Ok (s', 0) /\ content s' = [97; 98].
Proof.
  destruct (vsb_auto_appends zero_malloc zero_malloc_size zero_malloc_total example_vsb [97; 98] 99 example_growing ltac:(done))
    as (_ & _ & _ & s' & E & _ & Hc). exists s'. split; [done|]. rewrite Hc. reflexivity.
Defined.

Lemma vsb_finish_ok_witness : exists s' b, VSB_finish example_vsb = Ok (s', 0) /\ VSB_data s' = Ok b /\ string_at b = Ok [].
Proof.
  destruct (vsb_finish_ok example_vsb example_growing) as (s' & b & E & Hd & _ & _ & Hs).
  exists s', b. split; [done|]. split; [done|]. apply Hs. constructor.
Defined.

Lemma vsb_safe_witness : keeps (VSB_bcat (fun _ => None) example_vsb (replicate 20 97)).
Proof. apply (vsb_safe (fun _ => None) ltac:(done) example_vsb (replicate 20 97) 0 (inr 0)). split; [split; simpl; lia|done]. Defined.

Lemma vsb_fixed_witness : exists s1, VSB_bcat zero_malloc (mk_vsb 0 [0; 0; 0] 3 0 0 0) [97; 98] = Ok (s1, 0) /\ content s1 = [97; 98].
Proof.
  destruct (vsb_fixed zero_malloc (mk_vsb 0 [0; 0; 0] 3 0 0 0) [97; 98]) as (s1 & s2 & E1 & _ & Es & Hc & _);
    [split; [split; simpl; lia|done]|done..|].
  exists s1. rewrite E1, Es, Hc. done.
Defined.

Lemma vsb_printf_truncates_witness :
  exists s', VSB_printf (fun _ => None) example_vsb (inl (replicate 20 97)) = Ok (s', 0) /\ content s' = replicate 15 97.
Proof.
  destruct (vsb_printf_truncates example_vsb (replicate 20 97) example_growing) as [(s' & E & _ & Hc) _]; [done|done|].
  exists s'. split; [done|]. rewrite Hc. reflexivity.
Defined.
