(* ===== verification/VsbQuote.v ===== *)
(** * Quoting (lib/vsb.c)

    [VSB_quote_pfx] and its formats.  The code writes piece by piece to a
    buffer; [quoted] is the text it writes. *)

From Stdlib Require Import ZArith Lia ZifyBool.
From stdpp Require Import base option numbers list.
From S2P Require Import Prelude CStr Vsb VsbSpec.
#[local] Open Scope Z_scope.

Definition VSB_QUOTE_PLAIN : Z := 0.
Definition VSB_QUOTE_NONL : Z := 1.
Definition VSB_QUOTE_JSON : Z := 2.
Definition VSB_QUOTE_HEX : Z := 4.
Definition VSB_QUOTE_CSTR : Z := 8.
Definition VSB_QUOTE_UNSAFE : Z := 16.
Definition VSB_QUOTE_ESCHEX : Z := 32.

Definition mode (how f : Z) : bool := truth (Z.land how f).

(** ** Formats of printf *)

Definition hexdig (d : Z) : Z := if d <? 10 then 48 + d else 87 + d.
(** [%02x], [%04x] and [%03o] of a byte. *)
Definition fmt_02x (c : Z) : list Z := [hexdig (c / 16); hexdig (c mod 16)].
Definition fmt_04x (c : Z) : list Z := [48; 48] ++ fmt_02x c.
Definition fmt_03o (c : Z) : list Z := [48 + c / 64; 48 + c / 8 mod 8; 48 + c mod 8].

Section quote.
Context (malloc : Z -> option (list Z)).

(** Calls whose result is not looked at. *)
Definition cat (s : vsb) (t : list Z) : outcome vsb := '(s, _) ← VSB_cat malloc s t; Ok s.
Definition bcat (s : vsb) (t : list Z) : outcome vsb := '(s, _) ← VSB_bcat malloc s t; Ok s.
Definition putc (s : vsb) (c : Z) : outcome vsb := '(s, _) ← VSB_putc malloc s c; Ok s.
Definition printf (s : vsb) (t : list Z) : outcome vsb := '(s, _) ← VSB_printf malloc s (inl t); Ok s.

(** [for (w = u; w < u + len; w++) VSB_printf(s, "%02x", w[0])]. *)
Fixpoint print_hex (s : vsb) (u : list Z) : outcome vsb :=
  match u with [] => Ok s | c :: u => s ← printf s (fmt_02x c); print_hex s u end.

Definition vsb_quote_hex (s : vsb) (u : list Z) : outcome vsb :=
  s ← cat s [48; 120];
  if forallb (fun c => c =? 0) u && (4 <? Z.of_nat (length u)) then cat s [48; 46; 46; 46; 48]
  else print_hex s u.

(** Does the byte make quoting necessary? *)
Definition must_quote (how c : Z) : bool :=
  (c <? 32) || (c =? 34) || (c =? 92) || ((c =? 63) && mode how VSB_QUOTE_CSTR) ||
  ((126 <? c) && negb (mode how VSB_QUOTE_JSON)).

(** The [switch], with the new value of [nl]. *)
Definition quote_byte (s : vsb) (pfx : list Z) (c how : Z) : outcome (vsb * bool) :=
  if c =? 63 then
    s ← (if mode how VSB_QUOTE_CSTR && negb (mode how VSB_QUOTE_JSON) then putc s 92 else Ok s);
    s ← putc s c; Ok (s, false)
  else if (c =? 92) || (c =? 34) then
    s ← (if negb (mode how VSB_QUOTE_UNSAFE) then putc s 92 else Ok s);
    s ← putc s c; Ok (s, false)
  else if c =? 10 then
    if mode how VSB_QUOTE_CSTR then s ← printf s ([92; 110; 34; 10] ++ pfx ++ [34]); Ok (s, false)
    else if mode how VSB_QUOTE_JSON then s ← cat s [92; 110]; Ok (s, false)
    else if mode how VSB_QUOTE_NONL then s ← putc s c; Ok (s, true)
    else s ← cat s [92; 110]; Ok (s, false)
  else if c =? 13 then s ← cat s [92; 114]; Ok (s, false)
  else if c =? 9 then s ← cat s [92; 116]; Ok (s, false)
  else
    s ← (if (32 <=? c) && (c <=? 126) then putc s c
         else if (126 <? c) && mode how VSB_QUOTE_JSON then putc s c
         else if mode how VSB_QUOTE_JSON then printf s ([92; 117] ++ fmt_04x c)
         else if mode how VSB_QUOTE_ESCHEX then printf s ([92; 120] ++ fmt_02x c)
         else printf s ([92] ++ fmt_03o c));
    Ok (s, false).

Fixpoint quote_loop (s : vsb) (pfx p : list Z) (nl : bool) (how : Z) : outcome (vsb * bool) :=
  match p with
  | [] => Ok (s, nl)
  | c :: p =>
      s ← (if nl then cat s pfx else Ok s);
      '(s, nl) ← quote_byte s pfx c how;
      quote_loop s pfx p nl how
  end.

(** The bytes [v] and [len] stand for. *)
Definition quote_data (v : list Z) (len : Z) : outcome (list Z) :=
  if len =? -1 then string_at v
  else if len <=? Z.of_nat (length v) then Ok (take (Z.to_nat len) v) else Fault FBounds.

Definition VSB_quote_pfx (s : vsb) (pfx v : list Z) (len how : Z) : outcome vsb :=
  let one := Z.land how (Z.lor (Z.lor VSB_QUOTE_JSON VSB_QUOTE_HEX) (Z.lor VSB_QUOTE_CSTR VSB_QUOTE_UNSAFE)) in
  _ ← assertC (Z.land one (one - 1) =? 0);
  _ ← (if mode how VSB_QUOTE_ESCHEX then assertC (Z.land how (Z.lor VSB_QUOTE_JSON VSB_QUOTE_HEX) =? 0) else Ok tt);
  let how := if mode how VSB_QUOTE_UNSAFE then Z.lor how VSB_QUOTE_NONL else how in
  p ← quote_data v len;
  let nonl := mode how VSB_QUOTE_NONL in
  let cstr := mode how VSB_QUOTE_CSTR in
  match p with
  | [] =>
      if cstr then
        s ← printf s (pfx ++ [34; 34]);
        if nonl then putc s 10 else Ok s
      else Ok s
  | _ =>
      s ← cat s pfx;
      if mode how VSB_QUOTE_HEX then
        s ← vsb_quote_hex s p;
        if nonl then putc s 10 else Ok s
      else
        s ← (if cstr then putc s 34 else Ok s);
        if negb (existsb (must_quote how) p) then
          s ← bcat s p;
          s ← (if nonl && negb (bool_decide (last p = Some 10)) then putc s 10 else Ok s);
          if cstr then putc s 34 else Ok s
        else
          '(s, nl) ← quote_loop s pfx p false how;
          s ← (if cstr then putc s 34 else Ok s);
          if nonl && negb nl then putc s 10 else Ok s
  end.

Definition VSB_quote (s : vsb) (v : list Z) (len how : Z) : outcome vsb := VSB_quote_pfx s [] v len how.
End quote.

(** ** The text it writes *)

Definition byte_text (pfx : list Z) (how c : Z) : list Z :=
  if c =? 63 then (if mode how VSB_QUOTE_CSTR && negb (mode how VSB_QUOTE_JSON) then [92] else []) ++ [c]
  else if (c =? 92) || (c =? 34) then (if mode how VSB_QUOTE_UNSAFE then [] else [92]) ++ [c]
  else if c =? 10 then
    if mode how VSB_QUOTE_CSTR then [92; 110; 34; 10] ++ pfx ++ [34]
    else if mode how VSB_QUOTE_JSON then [92; 110]
    else if mode how VSB_QUOTE_NONL then [10] else [92; 110]
  else if c =? 13 then [92; 114]
  else if c =? 9 then [92; 116]
  else if (32 <=? c) && (c <=? 126) then [c]
  else if (126 <? c) && mode how VSB_QUOTE_JSON then [c]
  else if mode how VSB_QUOTE_JSON then [92; 117] ++ fmt_04x c
  else if mode how VSB_QUOTE_ESCHEX then [92; 120] ++ fmt_02x c
  else [92] ++ fmt_03o c.

(** Does the byte leave the text at the beginning of a line? *)
Definition breaks (how c : Z) : bool :=
  (c =? 10) && negb (mode how VSB_QUOTE_CSTR) && negb (mode how VSB_QUOTE_JSON) && mode how VSB_QUOTE_NONL.

Fixpoint bytes_text (pfx : list Z) (how : Z) (nl : bool) (p : list Z) : list Z :=
  match p with
  | [] => []
  | c :: p => (if nl then pfx else []) ++ byte_text pfx how c ++ bytes_text pfx how (breaks how c) p
  end.

Definition ends_line (how : Z) (p : list Z) : bool :=
  match last p with Some c => breaks how c | None => false end.

Definition hex_text (p : list Z) : list Z :=
  [48; 120] ++ (if forallb (fun c => c =? 0) p && (4 <? Z.of_nat (length p)) then [48; 46; 46; 46; 48] else p ≫= fmt_02x).

(** [how] with VSB_QUOTE_UNSAFE completed. *)
Definition full_mode (how : Z) : Z := if mode how VSB_QUOTE_UNSAFE then Z.lor how VSB_QUOTE_NONL else how.

Definition quoted (pfx : list Z) (how : Z) (p : list Z) : list Z :=
  let how := full_mode how in
  let q := if mode how VSB_QUOTE_CSTR then [34] else [] in
  let n (b : bool) := if mode how VSB_QUOTE_NONL && b then [10] else [] in
  match p with
  | [] => if mode how VSB_QUOTE_CSTR then pfx ++ [34; 34] ++ n true else []
  | _ =>
      pfx ++ (if mode how VSB_QUOTE_HEX then hex_text p ++ n true
      else if existsb (must_quote how) p then q ++ bytes_text pfx how false p ++ q ++ n (negb (ends_line how p))
      else q ++ p ++ n (negb (bool_decide (last p = Some 10))) ++ q)
  end.

(** The combinations the assertions of VSB_quote_pfx allow. *)
Definition mode_ok (how : Z) : bool :=
  let one := Z.land how (Z.lor (Z.lor VSB_QUOTE_JSON VSB_QUOTE_HEX) (Z.lor VSB_QUOTE_CSTR VSB_QUOTE_UNSAFE)) in
  (Z.land one (one - 1) =? 0) &&
  (negb (mode how VSB_QUOTE_ESCHEX) || (Z.land how (Z.lor VSB_QUOTE_JSON VSB_QUOTE_HEX) =? 0)).

(** ** The code writes that text *)

Section writes.
Context (malloc : Z -> option (list Z)).
Context (malloc_size : forall n m, malloc n = Some m -> Z.of_nat (length m) = n).
Context (malloc_total : forall n, 0 <= n -> malloc n <> None).

(** A growing buffer without indentation. *)
Definition plain (s : vsb) : Prop := growing s /\ s_indent s = 0.

Definition wrote (s : vsb) (t : list Z) (o : outcome vsb) : Prop :=
  exists s', o = Ok s' /\ plain s' /\ content s' = content s ++ t.

Lemma wrote_nil s : plain s -> wrote s [] (Ok s).
Proof. intros Hp. exists s. by rewrite app_nil_r. Qed.

Lemma wrote_bind s t o (k : vsb -> outcome vsb) u :
  wrote s t o -> (forall s', plain s' -> content s' = content s ++ t -> wrote s' u (k s')) -> wrote s (t ++ u) (o ≫= k).
Proof.
  intros (s1 & -> & Hp & Hc) Hk. destruct (Hk s1 Hp Hc) as (s2 & E & Hp2 & Hc2). exists s2.
  split; [done|]. split; [done|]. by rewrite Hc2, Hc, app_assoc.
Qed.

Lemma wrote_if s (b : bool) t u o p :
  wrote s t o -> wrote s u p -> wrote s (if b then t else u) (if b then o else p).
Proof. by destruct b. Qed.

Lemma plain_padding s : plain s -> padding s = [].
Proof. intros [_ Hi]. unfold padding. rewrite Hi. by destruct (_ || _). Qed.

Lemma wrote_cat s t : plain s -> wrote s t (cat malloc s t).
Proof.
  intros [Hg Hi]. unfold cat. destruct (vsb_cat_grows malloc malloc_size malloc_total s t Hg) as (s' & -> & Hg' & Hc & (_ & Hi' & _)).
  exists s'. split; [done|]. split; [split; [done|congruence]|]. by rewrite Hc, Hi, indent_text_0.
Qed.

Lemma wrote_bcat s t : plain s -> t <> [] -> wrote s t (bcat malloc s t).
Proof.
  intros Hp Ht. pose proof Hp as [Hg Hi]. unfold bcat.
  destruct (vsb_bcat_grows malloc malloc_size malloc_total s t Hg Ht) as (s' & -> & Hg' & Hc & (_ & Hi' & _)).
  exists s'. split; [done|]. split; [split; [done|congruence]|]. by rewrite Hc, plain_padding.
Qed.

Lemma wrote_putc s c : plain s -> byte c -> wrote s [c] (putc malloc s c).
Proof.
  intros Hp Hc. pose proof Hp as [Hg Hi]. unfold putc.
  destruct (vsb_putc_grows malloc malloc_size malloc_total s c Hg) as (s' & -> & Hg' & Hct & (_ & Hi' & _)).
  exists s'. split; [done|]. split; [split; [done|congruence]|]. rewrite Hct, plain_padding, wrapu_small by done. done.
Qed.

Lemma wrote_printf s t : plain s -> wrote s t (printf malloc s t).
Proof.
  intros Hp. pose proof Hp as [Hg Hi]. unfold printf.
  destruct (vsb_printf_grows malloc malloc_size malloc_total s t Hg) as (s' & -> & Hg' & Hct & (_ & Hi' & _)).
  exists s'. split; [done|]. split; [split; [done|congruence]|]. by rewrite Hct, plain_padding.
Qed.

Lemma wrote_hex s u : plain s -> wrote s (u ≫= fmt_02x) (print_hex malloc s u).
Proof.
  revert s. induction u as [|c u IH]; intros s Hp; [by apply wrote_nil|]. rewrite bind_cons. cbn [print_hex].
  apply wrote_bind; [by apply wrote_printf|]. auto.
Qed.

Lemma wrote_quote_hex s u : plain s -> wrote s (hex_text u) (vsb_quote_hex malloc s u).
Proof.
  intros Hp. apply wrote_bind; [by apply wrote_cat|]. intros s' Hp' _.
  apply wrote_if; [by apply wrote_cat|by apply wrote_hex].
Qed.

(** A byte of the [switch]. *)
Lemma quote_byte_ok s pfx c how : plain s -> byte c ->
  exists s', quote_byte malloc s pfx c how = Ok (s', breaks how c) /\ plain s' /\
    content s' = content s ++ byte_text pfx how c.
Proof.
  intros Hp Hc. unfold quote_byte, byte_text, breaks.
  assert (forall t o (b : bool), wrote s t o -> exists s', (s ← o; Ok (s, b)) = Ok (s', b) /\ plain s' /\ content s' = content s ++ t) as Hret
    by (intros t o b (s' & -> & Hp' & Hc'); by exists s').
  assert (forall (q : bool) x, byte x -> exists s', (s ← (if q then putc malloc s 92 else Ok s); s ← putc malloc s x; Ok (s, false)) = Ok (s', false) /\
    plain s' /\ content s' = content s ++ (if q then [92] else []) ++ [x]) as Htwo.
  { intros q x Hx. destruct (wrote_if s q [92] [] (putc malloc s 92) (Ok s)) as (s1 & -> & Hp1 & Hc1); [by apply wrote_putc|by apply wrote_nil|].
    cbn [mbind outcome_bind]. destruct (wrote_putc s1 x Hp1 Hx) as (s2 & -> & Hp2 & Hc2). exists s2.
    split; [done|]. split; [done|]. by rewrite Hc2, Hc1, app_assoc. }
  destruct (Z.eqb_spec c 63) as [->|]; [by apply Htwo|].
  destruct ((c =? 92) || (c =? 34)) eqn:Eq.
  { replace (c =? 10) with false by lia. cbn [andb]. destruct (Htwo (negb (mode how VSB_QUOTE_UNSAFE)) c Hc) as (s' & -> & Hp' & Hc').
    exists s'. split; [done|]. split; [done|]. rewrite Hc'. by destruct (mode how VSB_QUOTE_UNSAFE). }
  destruct (c =? 10) eqn:E10.
  { cbn [andb]. destruct (mode how VSB_QUOTE_CSTR); cbn [negb andb]; [by apply Hret, wrote_printf|].
    destruct (mode how VSB_QUOTE_JSON); cbn [negb andb]; [by apply Hret, wrote_cat|].
    destruct (mode how VSB_QUOTE_NONL); [|by apply Hret, wrote_cat].
    replace c with 10 in * by lia. by apply Hret, wrote_putc. }
  cbn [andb]. destruct (c =? 13); [by apply Hret, wrote_cat|]. destruct (c =? 9); [by apply Hret, wrote_cat|].
  apply Hret. apply wrote_if; [by apply wrote_putc|]. apply wrote_if; [by apply wrote_putc|].
  apply wrote_if; [by apply wrote_printf|]. apply wrote_if; by apply wrote_printf.
Qed.

Lemma quote_loop_ok pfx how p : forall s nl, plain s -> Bytes p ->
  exists s', quote_loop malloc s pfx p nl how =
      Ok (s', match last p with Some c => breaks how c | None => nl end) /\ plain s' /\
    content s' = content s ++ bytes_text pfx how nl p.
Proof.
  induction p as [|c p IH]; intros s nl Hp Hb.
  - exists s. cbn [bytes_text]. by rewrite app_nil_r.
  - inversion_clear Hb as [|? ? Hc Hb']. cbn [quote_loop bytes_text].
    destruct (wrote_if s nl pfx [] (cat malloc s pfx) (Ok s)) as (s1 & -> & Hp1 & Hc1); [by apply wrote_cat|by apply wrote_nil|].
    cbn [mbind outcome_bind]. destruct (quote_byte_ok s1 pfx c how Hp1 Hc) as (s2 & -> & Hp2 & Hc2). cbn [mbind outcome_bind].
    destruct (IH s2 (breaks how c) Hp2 Hb') as (s3 & -> & Hp3 & Hc3). exists s3.
    split; [|split; [done|by rewrite Hc3, Hc2, Hc1, <-!app_assoc]].
    rewrite last_cons. by destruct (last p).
Qed.

Lemma wrote_nl s (b : bool) : plain s -> wrote s (if b then [10] else []) (if b then putc malloc s 10 else Ok s).
Proof. intros Hp. apply wrote_if; [by apply wrote_putc|by apply wrote_nil]. Qed.

Lemma wrote_quote s (b : bool) : plain s -> wrote s (if b then [34] else []) (if b then putc malloc s 34 else Ok s).
Proof. intros Hp. apply wrote_if; [by apply wrote_putc|by apply wrote_nil]. Qed.

Lemma quote_wrote s pfx p how : plain s -> Bytes p -> mode_ok how = true ->
  wrote s (quoted pfx how p) (VSB_quote_pfx malloc s pfx p (Z.of_nat (length p)) how).
Proof.
  intros Hp Hb Hm. unfold mode_ok in Hm. apply andb_true_iff in Hm as [Hm1 Hm2].
  unfold VSB_quote_pfx. rewrite Hm1. cbn [assertC mbind outcome_bind].
  assert ((if mode how VSB_QUOTE_ESCHEX then assertC (Z.land how (Z.lor VSB_QUOTE_JSON VSB_QUOTE_HEX) =? 0) else Ok tt) = Ok tt) as ->
    by (destruct (mode how VSB_QUOTE_ESCHEX); [cbn in Hm2; by rewrite Hm2|done]).
  cbn [mbind outcome_bind]. unfold quote_data. rewrite (proj2 (Z.eqb_neq _ (-1))) by lia.
  rewrite (proj2 (Z.leb_le _ _)), Nat2Z.id, firstn_all by lia. cbn [mbind outcome_bind].
  unfold quoted. fold (full_mode how). set (h := full_mode how). destruct p as [|c p'].
  - apply wrote_if; [|by apply wrote_nil]. rewrite app_assoc. apply wrote_bind; [by apply wrote_printf|].
    intros s' Hp' _. rewrite andb_true_r. by apply wrote_nl.
  - set (p := c :: p') in *. apply wrote_bind; [by apply wrote_cat|]. intros s1 Hp1 _. apply wrote_if.
    + apply wrote_bind; [by apply wrote_quote_hex|]. intros s2 Hp2 _. rewrite andb_true_r. by apply wrote_nl.
    + replace (if existsb (must_quote h) p then (if mode h VSB_QUOTE_CSTR then [34] else []) ++ _ else _) with
        ((if mode h VSB_QUOTE_CSTR then [34] else []) ++ (if existsb (must_quote h) p then
           bytes_text pfx h false p ++ (if mode h VSB_QUOTE_CSTR then [34] else []) ++
             (if mode h VSB_QUOTE_NONL && negb (ends_line h p) then [10] else [])
         else p ++ (if mode h VSB_QUOTE_NONL && negb (bool_decide (last p = Some 10)) then [10] else []) ++
           (if mode h VSB_QUOTE_CSTR then [34] else []))) by by destruct (existsb _ p).
      apply wrote_bind; [by apply wrote_quote|]. intros s2 Hp2 _.
      destruct (existsb (must_quote h) p) eqn:Eq; cbn [negb].
      * destruct (quote_loop_ok pfx h p s2 false Hp2 Hb) as (s3 & -> & Hp3 & Hc3). cbn [mbind outcome_bind].
        assert (match last p with Some c => breaks h c | None => false end = ends_line h p) as -> by done.
        destruct (wrote_quote s3 (mode h VSB_QUOTE_CSTR) Hp3) as (s4 & -> & Hp4 & Hc4). cbn [mbind outcome_bind].
        destruct (wrote_nl s4 (mode h VSB_QUOTE_NONL && negb (ends_line h p)) Hp4) as (s5 & -> & Hp5 & Hc5).
        exists s5. split; [done|]. split; [done|]. by rewrite Hc5, Hc4, Hc3, <-!app_assoc.
      * apply wrote_bind; [by apply wrote_bcat|]. intros s3 Hp3 _.
        apply wrote_bind; [by apply wrote_nl|]. intros s4 Hp4 _. by apply wrote_quote.
Qed.
End writes.

(** On a growing buffer without indentation and with memory enough,
    [VSB_quote_pfx] never fails and appends exactly the quoted text of its
    format: every branch of every format, the prefix after each line break and
    the newlines and quotes at the ends. *)
Theorem vsb_quote_ok malloc s pfx p how
    (Hsize : forall n m, malloc n = Some m -> Z.of_nat (length m) = n) (Htotal : forall n, 0 <= n -> malloc n <> None)
    (Hs : growing s) (Hi : s_indent s = 0) (Hp : Bytes p) (Hm : mode_ok how = true) :
  exists s', VSB_quote_pfx malloc s pfx p (Z.of_nat (length p)) how = Ok s' /\ growing s' /\
    content s' = content s ++ quoted pfx how p.
Proof.
  destruct (quote_wrote malloc Hsize Htotal s pfx p how) as (s' & E & [Hg _] & Hc); [done..|]. eauto.
Qed.

Lemma vsb_quote_ok_witness :
  exists s', VSB_quote_pfx zero_malloc example_vsb [62] [97; 10; 98] 3 VSB_QUOTE_CSTR = Ok s' /\
    content s' = [62; 34; 97; 92; 110; 34; 10; 62; 34; 98; 34].
Proof.
  destruct (vsb_quote_ok zero_malloc example_vsb [62] [97; 10; 98] VSB_QUOTE_CSTR zero_malloc_size zero_malloc_total
    example_growing) as (s' & E & _ & Hc); [done|by repeat constructor|done|]. exists s'. split; [done|]. rewrite Hc. reflexivity.
Defined.

(** With VSB_QUOTE_CSTR and VSB_QUOTE_NONL a text that needs no quoting gets its
    newline inside the literal, one that needs quoting behind it. *)
Lemma vsb_cstr_nonl :
  quoted [] (VSB_QUOTE_CSTR + VSB_QUOTE_NONL) [97] = [34; 97; 10; 34] /\
  quoted [] (VSB_QUOTE_CSTR + VSB_QUOTE_NONL) [97; 9] = [34; 97; 92; 116; 34; 10].
Proof. done. Qed.
