(* ===== verification/QuoteVav.v ===== *)
(** * Quoted arguments are parsed back (lib/vsb.c with lib/vav.c)

    The text VSB_quote writes, in its plain and hexadecimal formats, is one of
    the texts that stand for the quoted bytes in the parser's language. *)

From Stdlib Require Import ZArith Lia ZifyBool.
From stdpp Require Import base option numbers list.
From S2P Require Import Prelude CStr Vct Vnum Vav VavSpec Vsb VsbSpec VsbQuote.
#[local] Open Scope Z_scope.

(** The formats with no conventions of their own. *)
Definition plain_mode (how : Z) : Prop := how = VSB_QUOTE_PLAIN \/ how = VSB_QUOTE_ESCHEX.

Lemma byte_high c : byte c -> 0 <= c / 16 < 16.
Proof. intros [H1 H2]. split; [by apply Z.div_pos|by apply Z.div_lt_upper_bound]. Qed.

Lemma hexdig_digit d : 0 <= d < 16 -> byte (hexdig d) /\ base_digit 16 (hexdig d) = true /\ hex_digit (hexdig d) = d.
Proof.
  intros Hd. assert (forallb (fun d => bool_decide (byte (hexdig d)) && base_digit 16 (hexdig d) &&
    (hex_digit (hexdig d) =? d)) (seqZ 0 16) = true) as Hall by by vm_compute.
  rewrite forallb_forall in Hall. specialize (Hall d). rewrite <-list_elem_of_In, elem_of_seqZ in Hall.
  specialize (Hall ltac:(lia)). rewrite !andb_true_iff, bool_decide_eq_true in Hall. destruct Hall as [[? ?] ?]. split; [done|]. split; [done|lia].
Qed.

Lemma hex_escape c : byte c -> escape ([92; 120] ++ fmt_02x c) c.
Proof.
  intros Hc. unfold byte in Hc. unfold fmt_02x. cbn [app].
  destruct (hexdig_digit (c / 16)) as (H1 & H2 & H3); [by apply byte_high|].
  destruct (hexdig_digit (c mod 16)) as (H4 & H5 & H6); [by apply Z.mod_pos_bound|].
  replace c with (hex_digit (hexdig (c / 16)) * 16 + hex_digit (hexdig (c mod 16))) at 3
    by (rewrite H3, H6; pose proof (Z.div_mod c 16 ltac:(done)); lia).
  by constructor.
Qed.

Lemma oct_escape c : byte c -> escape ([92] ++ fmt_03o c) c.
Proof.
  intros Hc. unfold byte in Hc. unfold fmt_03o. cbn [app].
  replace c with ((48 + c / 64 - 48) * 64 + (48 + c / 8 mod 8 - 48) * 8 + (48 + c mod 8 - 48)) at 4
    by (Z.to_euclidean_division_equations; lia).
  constructor; unfold octal; Z.to_euclidean_division_equations; lia.
Qed.

(** A byte is written as itself or as an escape sequence for it. *)
Lemma byte_text_escaped how c : plain_mode how -> byte c ->
  escape (byte_text [] how c) c \/ byte_text [] how c = [c] /\ c <> 92 /\ c <> 34.
Proof.
  intros Hm Hc. assert (mode how VSB_QUOTE_CSTR = false /\ mode how VSB_QUOTE_UNSAFE = false /\
    mode how VSB_QUOTE_JSON = false /\ mode how VSB_QUOTE_NONL = false) as (E1 & E2 & E3 & E4) by by destruct Hm as [->| ->].
  unfold byte_text. rewrite E1, E2, E3, E4. cbn [andb app].
  destruct (Z.eqb_spec c 63) as [->|]; [by right|].
  destruct (Z.eqb_spec c 92) as [->|]; [left; constructor|]. destruct (Z.eqb_spec c 34) as [->|]; [left; constructor|]. cbn [orb].
  destruct (Z.eqb_spec c 10) as [->|]; [left; constructor|]. destruct (Z.eqb_spec c 13) as [->|]; [left; constructor|].
  destruct (Z.eqb_spec c 9) as [->|]; [left; constructor|].
  destruct ((32 <=? c) && (c <=? 126)); [by right|]. rewrite andb_false_r.
  left. destruct (mode how VSB_QUOTE_ESCHEX); [by apply hex_escape|by apply oct_escape].
Qed.

Lemma bytes_text_escaped how d nl : plain_mode how -> Bytes d -> escaped (bytes_text [] how nl d) d.
Proof.
  intros Hm Hd. revert nl. induction Hd as [|c d Hc _ IH]; intros nl; cbn [bytes_text]; [constructor|].
  replace (if nl then [] else []) with ([] : list Z) by by destruct nl. cbn [app].
  destruct (byte_text_escaped how c Hm Hc) as [He|(-> & H1 & H2)]; by constructor.
Qed.

Lemma plain_escaped d : Forall (fun c => c <> 92 /\ c <> 34) d -> escaped d d.
Proof. induction 1 as [|c d [] _ IH]; by constructor. Qed.

Lemma quoted_escaped how d : plain_mode how -> Bytes d -> escaped (quoted [] how d) d.
Proof.
  intros Hm Hd. unfold quoted. assert (full_mode how = how) as -> by by destruct Hm as [->| ->].
  assert (mode how VSB_QUOTE_CSTR = false /\ mode how VSB_QUOTE_HEX = false /\ mode how VSB_QUOTE_NONL = false)
    as (E1 & E2 & E3) by by destruct Hm as [->| ->]. rewrite E1, E2, E3. cbn [andb app].
  destruct d as [|c d]; [constructor|]. set (p := c :: d) in *. rewrite !app_nil_r.
  destruct (existsb (must_quote how) p) eqn:E; [by apply bytes_text_escaped|].
  apply plain_escaped, Forall_forall. intros x Hx.
  assert (must_quote how x = false) as Hq.
  { apply not_true_is_false. intros Ht. apply eq_true_false_abs with (existsb (must_quote how) p); [|done].
    apply existsb_exists. exists x. split; [by apply list_elem_of_In|done]. }
  unfold must_quote in Hq. rewrite !orb_false_iff in Hq. lia.
Qed.

(** ** Writing a line of arguments *)

Section line.
Context (malloc : Z -> option (list Z)).

(** [VSB_putc(s, '"'); VSB_quote(s, d, len, how); VSB_putc(s, '"');]. *)
Definition write_arg (s : vsb) (how : Z) (d : list Z) : outcome vsb :=
  s ← putc malloc s 34; s ← VSB_quote malloc s d (Z.of_nat (length d)) how; putc malloc s 34.

Fixpoint write_args (s : vsb) (how sc : Z) (ds : list (list Z)) : outcome vsb :=
  match ds with
  | [] => Ok s
  | d :: ds =>
      s ← write_arg s how d;
      match ds with [] => Ok s | _ => s ← putc malloc s sc; write_args s how sc ds end
  end.

Context (malloc_size : forall n m, malloc n = Some m -> Z.of_nat (length m) = n).
Context (malloc_total : forall n, 0 <= n -> malloc n <> None).

Lemma write_arg_wrote s how d : plain s -> Bytes d -> plain_mode how ->
  wrote s (vav_quoted (quoted [] how d)) (write_arg s how d).
Proof.
  intros Hp Hd Hm. unfold write_arg, vav_quoted. change (34 :: ?q) with ([34] ++ q).
  apply wrote_bind; [by apply wrote_putc|]. intros s1 Hp1 _.
  apply wrote_bind; [|intros s2 Hp2 _; by apply wrote_putc].
  apply quote_wrote; [done..|]. by destruct Hm as [->| ->].
Qed.

Lemma write_args_wrote how sc ds : plain_mode how -> byte sc -> forall s, plain s -> Forall Bytes ds ->
  wrote s (vav_line sc (quoted [] how <$> ds)) (write_args s how sc ds).
Proof.
  intros Hm Hsc. induction ds as [|d ds IH]; intros s Hp Hd; [by apply wrote_nil|].
  inversion_clear Hd as [|? ? Hd1 Hd2]. destruct ds as [|d2 ds].
  - cbn [write_args fmap list_fmap vav_line]. rewrite <-(app_nil_r (vav_quoted _)).
    apply wrote_bind; [by apply write_arg_wrote|]. intros s1 Hp1 _. by apply wrote_nil.
  - change (write_args s how sc (d :: d2 :: ds)) with
      (s ← write_arg s how d; s ← putc malloc s sc; write_args s how sc (d2 :: ds)).
    change (vav_line sc (quoted [] how <$> d :: d2 :: ds)) with
      (vav_quoted (quoted [] how d) ++ [sc] ++ vav_line sc (quoted [] how <$> d2 :: ds)).
    apply wrote_bind; [by apply write_arg_wrote|]. intros s1 Hp1 _.
    apply wrote_bind; [by apply wrote_putc|]. intros s2 Hp2 _. by apply IH.
Qed.
End line.

(** C38: arguments written with VSB_quote between double quotes, with blanks or
    commas between them, are what VAV_ParseTxt finds in the buffer: control
    characters, quotes, backslashes and 8-bit bytes all come back. *)
Theorem quote_vav_roundtrip malloc s how sc flag ds
    (Hsize : forall n m, malloc n = Some m -> Z.of_nat (length m) = n) (Htotal : forall n, 0 <= n -> malloc n <> None)
    (Hs : growing s) (Hi : s_indent s = 0) (Hempty : content s = []) (Hm : plain_mode how)
    (Hn : has flag ARGV_NOESC = false) (Hsc : sc = 32 \/ sc = 44 /\ has flag ARGV_COMMA = true)
    (Hds : Forall (fun d => Bytes d /\ no_nul d) ds) :
  exists s' v, write_args malloc s how sc ds = Ok s' /\ growing s' /\
    VAV_ParseTxt (content s') flag = Ok v /\ v_err v = None /\ args v = Some <$> ds /\ VAV_Free v = Ok tt.
Proof.
  apply Forall_and in Hds as [Hb Hz].
  destruct (write_args_wrote malloc Hsize Htotal how sc ds) with (s := s) as (s' & E & [Hg _] & Hc); [done| |done..|].
  { unfold byte. lia. }
  destruct (vav_line_ok flag sc (quoted [] how <$> ds) ds Hn Hsc) as (v & Ev & H1 & H2 & _ & H3); [|done|].
  { apply Forall2_fmap_l, Forall_Forall2_diag. eapply Forall_impl; [exact Hb|]. intros d Hd. by apply quoted_escaped. }
  exists s', v. split; [done|]. split; [done|]. rewrite Hc, Hempty. done.
Qed.

Lemma quote_vav_roundtrip_witness :
  exists s' v, write_args zero_malloc example_vsb VSB_QUOTE_PLAIN 32 [[10; 34; 200]; [92]] = Ok s' /\
    VAV_ParseTxt (content s') 0 = Ok v /\ args v = [Some [10; 34; 200]; Some [92]].
Proof.
  destruct (quote_vav_roundtrip zero_malloc example_vsb VSB_QUOTE_PLAIN 32 0 [[10; 34; 200]; [92]] zero_malloc_size
    zero_malloc_total example_growing eq_refl eq_refl) as (s' & v & E & _ & Ev & _ & Ha & _);
    [by left|exact eq_refl|by left|by repeat constructor|].
  exists s', v. exact (conj E (conj Ev Ha)).
Defined.
