(* ===== verification/Vjsn.v ===== *)
(** * The JSON parser (lib/vjsn.c, lib/vjsn.h)

    The parser works in place: [raw] is its copy of the text with a NUL behind
    it, white space and delimiters are overwritten by NULs as they are passed,
    and strings are decoded into the bytes they came from.  A pointer into the
    copy is an offset.  [live] counts the objects that are allocated and not
    freed; [malloc] succeeds (the code asserts it). *)

From Stdlib Require Import ZArith Lia ZifyBool.
From stdpp Require Import base option numbers list.
From S2P Require Import Prelude CStr.
#[local] Open Scope Z_scope.

Inductive vjsn_type := VJSN_OBJECT | VJSN_ARRAY | VJSN_NUMBER | VJSN_STRING | VJSN_TRUE | VJSN_FALSE | VJSN_NULL.
#[global] Instance vjsn_type_eq_dec : EqDecision vjsn_type.
Proof. solve_decision. Defined.

Inductive vjsn_err :=
  | expected (c : Z)
  | illegal_u
  | lone_second
  | bad_pair
  | unterminated
  | control_char
  | bad_escape
  | bad_number
  | unrecognized
  | garbage.
#[global] Instance vjsn_err_eq_dec : EqDecision vjsn_err.
Proof. solve_decision. Defined.

(** [struct vjsn_val], with the children in the order of their list. *)
Inductive vjsn_val := mk_val {
  vj_type : vjsn_type;
  vj_name : option nat;
  vj_name_e : option nat;
  vj_children : list vjsn_val;
  vj_value : option nat;
  vj_value_e : option nat
}.

(** [struct vjsn] while it parses. *)
Record vjsn := mk_vjsn { j_raw : list Z; j_ptr : nat; j_err : option vjsn_err; j_live : Z }.

Definition set_err (js : vjsn) (e : vjsn_err) : vjsn := mk_vjsn (j_raw js) (j_ptr js) (Some e) (j_live js).
Definition advance (js : vjsn) (n : nat) : vjsn := mk_vjsn (j_raw js) (j_ptr js + n) (j_err js) (j_live js).
Definition put_raw (js : vjsn) (i : nat) (c : Z) : outcome vjsn :=
  b ← writeC (j_raw js) i c; Ok (mk_vjsn b (j_ptr js) (j_err js) (j_live js)).
Definition failed (js : vjsn) : bool := match j_err js with Some _ => true | None => false end.

(** [js->ptr[i]]. *)
Definition peek (js : vjsn) (i : nat) : outcome Z := readC (j_raw js) (j_ptr js + i).

(** The macro; false when it makes the function return. *)
Definition VJSN_EXPECT (js : vjsn) (c : Z) : outcome (vjsn * bool) :=
  _ ← assertC (negb (failed js));
  d ← peek js 0;
  if negb (d =? c) then Ok (set_err js (expected c), false)
  else js ← put_raw js (j_ptr js) 0; Ok (advance js 1, true).

Definition vjsn_val_new (js : vjsn) (type : vjsn_type) : vjsn * vjsn_val :=
  (mk_vjsn (j_raw js) (j_ptr js) (j_err js) (j_live js + 1), mk_val type None None [] None None).

(** The objects left after the value is deleted. *)
Fixpoint vjsn_val_delete (live : Z) (jsv : vjsn_val) : Z :=
  (fix children live l := match l with [] => live | jsve :: l => children (vjsn_val_delete live jsve) l end)
    live (vj_children jsv) - 1.

Definition delete_val (js : vjsn) (jsv : option vjsn_val) : vjsn :=
  match jsv with
  | Some jsv => mk_vjsn (j_raw js) (j_ptr js) (j_err js) (vjsn_val_delete (j_live js) jsv)
  | None => js
  end.

Definition is_ws (c : Z) : bool := (c =? 9) || (c =? 10) || (c =? 13) || (c =? 32).

Fixpoint skip_ws_loop (fuel : nat) (js : vjsn) : outcome vjsn :=
  match fuel with
  | O => Fault FFuel
  | S fuel =>
      c ← peek js 0;
      if is_ws c then js ← put_raw js (j_ptr js) 0; skip_ws_loop fuel (advance js 1)
      else Ok js
  end.
Definition vjsn_skip_ws (js : vjsn) : outcome vjsn := skip_ws_loop (length (j_raw js)) js.

(** ** Strings *)

(** [for (i = 0; i < 4; i++)]; [n] turns are left. *)
Fixpoint unumber_loop (n : nat) (js : vjsn) (u : Z) : outcome (vjsn * Z) :=
  match n with
  | O => Ok (js, u)
  | S n =>
      let u := u32 (Z.shiftl u 4) in
      c ← peek js 0;
      if (48 <=? c) && (c <=? 57) then unumber_loop n (advance js 1) (Z.lor u (c - 48))
      else if (65 <=? c) && (c <=? 70) then unumber_loop n (advance js 1) (Z.lor u (c - 55))
      else if (97 <=? c) && (c <=? 102) then unumber_loop n (advance js 1) (Z.lor u (c - 87))
      else Ok (set_err js illegal_u, 0)
  end.

Definition vjsn_unumber (js : vjsn) : outcome (vjsn * Z) :=
  '(js, ok) ← VJSN_EXPECT js 92;
  if negb ok then Ok (js, 0)
  else
    '(js, ok) ← VJSN_EXPECT js 117;
    if negb ok then Ok (js, 0) else unumber_loop 4 js 0.

(** [*( *d)++ = c], with the new value of [*d]. *)
Definition emit (js : vjsn) (d : nat) (c : Z) : outcome (vjsn * nat) :=
  js ← put_raw js d (u8 c); Ok (js, S d).

Definition emit_utf8 (js : vjsn) (d : nat) (u1 : Z) : outcome (vjsn * nat) :=
  if u1 <? 128 then emit js d u1
  else if u1 <? 2048 then
    '(js, d) ← emit js d (192 + u1 / 64);
    emit js d (128 + u1 mod 64)
  else if u1 <? 65536 then
    '(js, d) ← emit js d (224 + u1 / 4096);
    '(js, d) ← emit js d (128 + u1 / 64 mod 64);
    emit js d (128 + u1 mod 64)
  else
    '(js, d) ← emit js d (240 + u1 / 262144);
    '(js, d) ← emit js d (128 + u1 / 4096 mod 64);
    '(js, d) ← emit js d (128 + u1 / 64 mod 64);
    emit js d (128 + u1 mod 64).

(** The code point of a surrogate pair. *)
Definition pair_value (u1 u2 : Z) : Z :=
  Z.lor (Z.lor (u32 (Z.shiftl (u1 - 55296) 10)) (u2 - 56320)) 65536.

Definition vjsn_unicode (js : vjsn) (d : nat) : outcome (vjsn * nat) :=
  '(js, u1) ← vjsn_unumber js;
  if failed js then Ok (js, d)
  else if (56320 <=? u1) && (u1 <=? 57343) then Ok (set_err js lone_second, d)
  else
    '(js, u1) ←
      (if (55296 <=? u1) && (u1 <=? 56320) then
         '(js, u2) ← vjsn_unumber js;
         if (u2 <? 56320) || (57343 <? u2) then Ok (set_err js bad_pair, u1)
         else Ok (js, pair_value u1 u2)
       else Ok (js, u1));
    if failed js then Ok (js, d)
    else
      _ ← assertC (u1 <? 1114112);
      emit_utf8 js d u1.

(** What [\c] stands for, but for [\u]. *)
Definition simple_escape (c : Z) : option Z :=
  if (c =? 92) || (c =? 47) || (c =? 34) then Some c
  else if c =? 98 then Some 8
  else if c =? 102 then Some 12
  else if c =? 116 then Some 9
  else if c =? 110 then Some 10
  else if c =? 114 then Some 13
  else None.

(** The loop; [None] when it returns with an error. *)
Fixpoint string_loop (fuel : nat) (js : vjsn) (p : nat) : outcome (vjsn * option nat) :=
  c ← peek js 0;
  if c =? 34 then Ok (js, Some p)
  else if c =? 0 then Ok (set_err js unterminated, None)
  else if c <=? 31 then Ok (set_err js control_char, None)
  else
    match fuel with
    | O => Fault FFuel
    | S fuel =>
        if negb (c =? 92) then js ← put_raw js p c; string_loop fuel (advance js 1) (S p)
        else
          c1 ← peek js 1;
          match simple_escape c1 with
          | Some x => js ← put_raw js p x; string_loop fuel (advance js 2) (S p)
          | None =>
              if c1 =? 117 then
                '(js, p) ← vjsn_unicode js p;
                if failed js then Ok (js, None) else string_loop fuel js p
              else Ok (set_err js bad_escape, None)
          end
    end.

(** The string and its end, [*e]. *)
Definition vjsn_string (js : vjsn) : outcome (vjsn * option (nat * nat)) :=
  js ← vjsn_skip_ws js;
  '(js, ok) ← VJSN_EXPECT js 34;
  if negb ok then Ok (js, None)
  else
    let b := j_ptr js in
    '(js, r) ← string_loop (length (j_raw js)) js b;
    match r with
    | None => Ok (js, None)
    | Some p =>
        '(js, ok) ← VJSN_EXPECT js 34;
        if negb ok then Ok (js, None)
        else js ← put_raw js p 0; Ok (js, Some (b, p))
    end.

(** ** Numbers *)

Fixpoint digits_loop (fuel : nat) (js : vjsn) : outcome vjsn :=
  match fuel with
  | O => Fault FFuel
  | S fuel => c ← peek js 0; if isdigit c then digits_loop fuel (advance js 1) else Ok js
  end.
(** [while ( *js->ptr >= '0' && *js->ptr <= '9') js->ptr++;]. *)
Definition digits (js : vjsn) : outcome vjsn := digits_loop (length (j_raw js)) js.

Definition number_frac (js : vjsn) : outcome vjsn :=
  c ← peek js 0;
  if c =? 46 then
    let js := advance js 1 in
    c ← peek js 0;
    if negb (isdigit c) then Ok (set_err js bad_number) else digits js
  else Ok js.

Definition number_exp (js : vjsn) : outcome vjsn :=
  c ← peek js 0;
  if (c =? 101) || (c =? 69) then
    let js := advance js 1 in
    c ← peek js 0;
    let js := if (c =? 45) || (c =? 43) then advance js 1 else js in
    c ← peek js 0;
    if negb (isdigit c) then Ok (set_err js bad_number) else digits js
  else Ok js.

(** [*js->ptr == '0'] in front of another digit. *)
Definition zero_first (js : vjsn) : outcome bool :=
  c ← peek js 0;
  if c =? 48 then c1 ← peek js 1; Ok (isdigit c1) else Ok false.

Definition vjsn_number (js : vjsn) : outcome (vjsn * option vjsn_val) :=
  let '(js, jsv) := vjsn_val_new js VJSN_NUMBER in
  let jsv := mk_val VJSN_NUMBER None None [] (Some (j_ptr js)) None in
  c ← peek js 0;
  let js := if c =? 45 then advance js 1 else js in
  c ← peek js 0;
  if negb (isdigit c) then Ok (set_err js bad_number, Some jsv)
  else
    z ← zero_first js;
    if z : bool then Ok (set_err js bad_number, Some jsv)
    else
      js ← digits js;
      js ← number_frac js;
      if failed js then Ok (js, Some jsv) else js ← number_exp js; Ok (js, Some jsv).

(** ** Objects and arrays *)

Definition add_child (jsv jsve : vjsn_val) : vjsn_val :=
  mk_val (vj_type jsv) (vj_name jsv) (vj_name_e jsv) (vj_children jsv ++ [jsve]) (vj_value jsv) (vj_value_e jsv).
Definition set_name (jsv : vjsn_val) (se : nat * nat) : vjsn_val :=
  mk_val (vj_type jsv) (Some se.1) (Some se.2) (vj_children jsv) (vj_value jsv) (vj_value_e jsv).

Section value.
Context (vjsn_value : vjsn -> outcome (vjsn * option vjsn_val)).

(** The loops; true when they [break], false when the function returns. *)
Fixpoint object_loop (fuel : nat) (js : vjsn) (jsv : vjsn_val) : outcome (vjsn * vjsn_val * bool) :=
  match fuel with
  | O => Fault FFuel
  | S fuel =>
      '(js, s) ← vjsn_string js;
      if failed js then Ok (js, jsv, false)
      else
        js ← vjsn_skip_ws js;
        '(js, ok) ← VJSN_EXPECT js 58;
        if negb ok then Ok (js, jsv, false)
        else
          '(js, jsve) ← vjsn_value js;
          if failed js then Ok (delete_val js jsve, jsv, false)
          else
            match jsve, s with
            | Some jsve, Some se =>
                let jsv := add_child jsv (set_name jsve se) in
                js ← vjsn_skip_ws js;
                c ← peek js 0;
                if c =? 125 then Ok (js, jsv, true)
                else
                  '(js, ok) ← VJSN_EXPECT js 44;
                  if negb ok then Ok (js, jsv, false) else object_loop fuel js jsv
            | _, _ => Fault FAssert
            end
  end.

Definition vjsn_object (js : vjsn) : outcome (vjsn * option vjsn_val) :=
  '(js, ok) ← VJSN_EXPECT js 123;
  if negb ok then Ok (js, None)
  else
    let '(js, jsv) := vjsn_val_new js VJSN_OBJECT in
    js ← vjsn_skip_ws js;
    c ← peek js 0;
    '(js, jsv, ok) ← (if negb (c =? 125) then object_loop (length (j_raw js)) js jsv else Ok (js, jsv, true));
    if negb ok then Ok (js, Some jsv)
    else '(js, _) ← VJSN_EXPECT js 125; Ok (js, Some jsv).

Fixpoint array_loop (fuel : nat) (js : vjsn) (jsv : vjsn_val) : outcome (vjsn * vjsn_val * bool) :=
  match fuel with
  | O => Fault FFuel
  | S fuel =>
      '(js, jsve) ← vjsn_value js;
      if failed js then Ok (delete_val js jsve, jsv, false)
      else
        match jsve with
        | Some jsve =>
            let jsv := add_child jsv jsve in
            js ← vjsn_skip_ws js;
            c ← peek js 0;
            if c =? 93 then Ok (js, jsv, true)
            else
              '(js, ok) ← VJSN_EXPECT js 44;
              if negb ok then Ok (js, jsv, false) else array_loop fuel js jsv
        | None => Fault FAssert
        end
  end.

Definition vjsn_array (js : vjsn) : outcome (vjsn * option vjsn_val) :=
  '(js, ok) ← VJSN_EXPECT js 91;
  if negb ok then Ok (js, None)
  else
    let '(js, jsv) := vjsn_val_new js VJSN_ARRAY in
    js ← vjsn_skip_ws js;
    c ← peek js 0;
    '(js, jsv, ok) ← (if negb (c =? 93) then array_loop (length (j_raw js)) js jsv else Ok (js, jsv, true));
    if negb ok then Ok (js, Some jsv)
    else '(js, _) ← VJSN_EXPECT js 93; Ok (js, Some jsv).
End value.

Definition vjsn_string_value (js : vjsn) : outcome (vjsn * option vjsn_val) :=
  let '(js, jsv) := vjsn_val_new js VJSN_STRING in
  '(js, r) ← vjsn_string js;
  match r with
  | Some (b, e) => Ok (js, Some (mk_val VJSN_STRING None None [] (Some b) (Some e)))
  | None => if failed js then Ok (js, Some jsv) else Fault FAssert
  end.

(** [strncmp(js->ptr, s, strlen(s)) == 0]. *)
Definition at_word (js : vjsn) (s : list Z) : outcome bool := strneq (drop (j_ptr js) (j_raw js)) s.
Definition word_value (js : vjsn) (n : nat) (type : vjsn_type) : outcome (vjsn * option vjsn_val) :=
  let '(js, jsv) := vjsn_val_new (advance js n) type in Ok (js, Some jsv).

(** The fuel bounds the depth. *)
Fixpoint vjsn_value (fuel : nat) (js : vjsn) : outcome (vjsn * option vjsn_val) :=
  match fuel with
  | O => Fault FFuel
  | S fuel =>
      _ ← assertC (negb (failed js));
      js ← vjsn_skip_ws js;
      c ← peek js 0;
      if c =? 123 then vjsn_object (vjsn_value fuel) js
      else if c =? 91 then vjsn_array (vjsn_value fuel) js
      else if c =? 34 then vjsn_string_value js
      else
        t ← at_word js [116; 114; 117; 101];
        if t : bool then word_value js 4 VJSN_TRUE
        else
          f ← at_word js [102; 97; 108; 115; 101];
          if f : bool then word_value js 5 VJSN_FALSE
          else
            n ← at_word js [110; 117; 108; 108];
            if n : bool then word_value js 4 VJSN_NULL
            else if (c =? 45) || isdigit c then vjsn_number js
            else Ok (set_err js unrecognized, None)
  end.

(** ** The whole text *)

(** [raw] and the [struct vjsn] are two more objects. *)
Definition vjsn_delete (js : vjsn) (value : option vjsn_val) : Z := j_live (delete_val js value) - 2.

(** The error and the objects left, or the parsed value. *)
Definition vjsn_parse_end (from : list Z) : outcome ((vjsn_err * Z) + (vjsn * vjsn_val)) :=
  let js := mk_vjsn (from ++ [0]) 0 None 2 in
  '(js, value) ← vjsn_value (length (j_raw js)) js;
  match j_err js with
  | Some e => Ok (inl (e, vjsn_delete js value))
  | None =>
      js ← vjsn_skip_ws js;
      if negb (j_ptr js =? length from)%nat then Ok (inl (garbage, vjsn_delete js value))
      else match value with Some v => Ok (inr (js, v)) | None => Fault FAssert end
  end.

Definition vjsn_parse (src : list Z) : outcome ((vjsn_err * Z) + (vjsn * vjsn_val)) :=
  s ← string_at src; vjsn_parse_end s.

(** ** Looking at the result *)

(** [strcmp(a, b) == 0] for [a] in the copy. *)
Fixpoint child_loop (raw : list Z) (key : list Z) (l : list vjsn_val) : outcome (option vjsn_val) :=
  match l with
  | [] => Ok None
  | vc :: l =>
      match vj_name vc with
      | None => child_loop raw key l
      | Some n => s ← string_at (drop n raw); if bool_decide (s = key) then Ok (Some vc) else child_loop raw key l
      end
  end.
Definition vjsn_child (raw : list Z) (vv : vjsn_val) (key : list Z) : outcome (option vjsn_val) :=
  child_loop raw key (vj_children vv).

Definition vjsn_is (t : vjsn_type) (jsv : vjsn_val) : bool := bool_decide (vj_type jsv = t).
