(* ===== verification/VjsnSpec.v ===== *)
(** * JSON texts, and the parser on its parts (lib/vjsn.c)

    The grammar of RFC 8259 as relations between texts and what they stand
    for, and equations for white space, strings and numbers.  [st pre rest n]
    is the parser in front of [rest]. *)

From Stdlib Require Import ZArith Lia ZifyBool.
From stdpp Require Import base option numbers list.
From S2P Require Import Prelude CStr Vjsn.
#[local] Open Scope Z_scope.

(** ** The grammar *)

(** Space, tab, line feed and carriage return. *)
Definition white (c : Z) : Prop := c = 32 \/ c = 9 \/ c = 10 \/ c = 13.
Definition ws (w : list Z) : Prop := Forall white w.

Lemma white_is_ws c : white c <-> is_ws c = true.
Proof. unfold white, is_ws. lia. Qed.
Lemma ws_is_ws w : ws w <-> Forall (fun c => is_ws c = true) w.
Proof. unfold ws. split; intros H; (eapply Forall_impl; [exact H|]); apply white_is_ws. Qed.

Definition utf8 (u : Z) : list Z :=
  if u <? 128 then [u]
  else if u <? 2048 then [192 + u / 64; 128 + u mod 64]
  else if u <? 65536 then [224 + u / 4096; 128 + u / 64 mod 64; 128 + u mod 64]
  else [240 + u / 262144; 128 + u / 4096 mod 64; 128 + u / 64 mod 64; 128 + u mod 64].

(** A hexadecimal digit and its value. *)
Inductive hex : Z -> Z -> Prop :=
  | hex_num c : 48 <= c <= 57 -> hex c (c - 48)
  | hex_upper c : 65 <= c <= 70 -> hex c (c - 55)
  | hex_lower c : 97 <= c <= 102 -> hex c (c - 87).

(** [\uXXXX]. *)
Inductive unit_text : list Z -> Z -> Prop :=
  | unit_hex a b c d v w x y : hex a v -> hex b w -> hex c x -> hex d y ->
      unit_text [92; 117; a; b; c; d] (v * 4096 + w * 256 + x * 16 + y).

Definition high_surrogate (u : Z) : Prop := 55296 <= u < 56320.
Definition low_surrogate (u : Z) : Prop := 56320 <= u < 57344.

Definition json_escapes : list (Z * Z) :=
  [(34, 34); (92, 92); (47, 47); (98, 8); (102, 12); (110, 10); (114, 13); (116, 9)].

(** The code point of a surrogate pair. *)
Definition utf16 (u1 u2 : Z) : Z := 65536 + (u1 - 55296) * 1024 + (u2 - 56320).

(** The one the parser reads: in the even planes, from U+20000 on, it loses 65536. *)
Definition read_pair (u1 u2 : Z) : Z := if Z.odd (utf16 u1 u2 / 65536) then utf16 u1 u2 else utf16 u1 u2 - 65536.

(** A character and its bytes.  A surrogate alone is none, where RFC 8259 leaves
    it open, and the bytes from 128 on need not be UTF-8. *)
Inductive char_text : list Z -> list Z -> Prop :=
  | ch_plain c : 32 <= c < 256 -> c <> 34 -> c <> 92 -> char_text [c] [c]
  | ch_simple c x : (c, x) ∈ json_escapes -> char_text [92; c] [x]
  | ch_unit t u : unit_text t u -> u < 55296 \/ 57344 <= u -> char_text t (utf8 u)
  | ch_pair t1 u1 t2 u2 : unit_text t1 u1 -> unit_text t2 u2 -> high_surrogate u1 -> low_surrogate u2 ->
      char_text (t1 ++ t2) (utf8 (read_pair u1 u2)).

Inductive string_text : list Z -> list Z -> Prop :=
  | str_nil : string_text [] []
  | str_char t d ts ds : char_text t d -> string_text ts ds -> string_text (t ++ ts) (d ++ ds).

Definition all_digits (ds : list Z) : Prop := Forall (fun c => isdigit c = true) ds.
Definition int_text (i : list Z) : Prop :=
  i = [48] \/ exists c ds, i = c :: ds /\ 49 <= c <= 57 /\ all_digits ds.
Definition frac_text (f : list Z) : Prop := f = [] \/ exists c ds, f = 46 :: c :: ds /\ all_digits (c :: ds).
Definition exp_text (e : list Z) : Prop :=
  e = [] \/ exists x s c ds, e = x :: s ++ c :: ds /\ (x = 101 \/ x = 69) /\ (s = [] \/ s = [45] \/ s = [43]) /\
    all_digits (c :: ds).
Definition number_text (t : list Z) : Prop :=
  exists m i f e, t = m ++ i ++ f ++ e /\ (m = [] \/ m = [45]) /\ int_text i /\ frac_text f /\ exp_text e.

Inductive json :=
  | JObject (l : list (list Z * json))
  | JArray (l : list json)
  | JNumber (t : list Z)
  | JString (d : list Z)
  | JTrue | JFalse | JNull.

Inductive value_text : list Z -> json -> Prop :=
  | v_true : value_text [116; 114; 117; 101] JTrue
  | v_false : value_text [102; 97; 108; 115; 101] JFalse
  | v_null : value_text [110; 117; 108; 108] JNull
  | v_number t : number_text t -> value_text t (JNumber t)
  | v_string t d : string_text t d -> value_text (34 :: t ++ [34]) (JString d)
  | v_array_nil w : ws w -> value_text (91 :: w ++ [93]) (JArray [])
  | v_array t l : items_text t l -> value_text (91 :: t ++ [93]) (JArray l)
  | v_object_nil w : ws w -> value_text (123 :: w ++ [125]) (JObject [])
  | v_object t l : members_text t l -> value_text (123 :: t ++ [125]) (JObject l)
with items_text : list Z -> list json -> Prop :=
  | i_one w1 t v w2 : ws w1 -> value_text t v -> ws w2 -> items_text (w1 ++ t ++ w2) [v]
  | i_more w1 t v w2 r l : ws w1 -> value_text t v -> ws w2 -> items_text r l ->
      items_text (w1 ++ t ++ w2 ++ 44 :: r) (v :: l)
with members_text : list Z -> list (list Z * json) -> Prop :=
  | m_one w k d w' w1 t v w2 : ws w -> string_text k d -> ws w' -> ws w1 -> value_text t v -> ws w2 ->
      members_text (w ++ 34 :: k ++ 34 :: w' ++ 58 :: w1 ++ t ++ w2) [(d, v)]
  | m_more w k d w' w1 t v w2 r l : ws w -> string_text k d -> ws w' -> ws w1 -> value_text t v -> ws w2 ->
      members_text r l ->
      members_text (w ++ 34 :: k ++ 34 :: w' ++ 58 :: w1 ++ t ++ w2 ++ 44 :: r) ((d, v) :: l).

Scheme value_text_mut := Minimality for value_text Sort Prop
  with items_text_mut := Minimality for items_text Sort Prop
  with members_text_mut := Minimality for members_text Sort Prop.
Combined Scheme json_text_ind from value_text_mut, items_text_mut, members_text_mut.

(** ** The state in front of a text *)

Definition st (pre rest : list Z) (n : Z) : vjsn := mk_vjsn (pre ++ rest) (length pre) None n.

(** Bytes with the NUL behind them. *)
Definition ends (rest : list Z) : Prop := exists x, rest = x ++ [0] /\ Bytes x.

Definition zeros (w : list Z) : list Z := replicate (length w) 0.

Lemma ends_cons c r : ends (c :: r) -> c <> 0 \/ r <> [] -> byte c /\ ends r.
Proof.
  intros (x & Hx & Hb) Hc. destruct x as [|y x].
  - injection Hx as -> ->. by destruct Hc.
  - injection Hx as -> ->. inversion_clear Hb. split; [done|]. by exists x.
Qed.

Lemma ends_ne r : ends r -> r <> [].
Proof. intros (x & -> & _). by destruct x. Qed.

Lemma ends_app t r : ends (t ++ r) -> r <> [] -> ends r.
Proof.
  induction t as [|c t IH]; [done|]. intros He Hr. apply IH; [|done]. apply (ends_cons c); [done|]. right. by destruct t.
Qed.

Lemma peek_0 pre c r n : peek (st pre (c :: r) n) 0 = Ok c.
Proof. unfold peek, st. simpl. rewrite Nat.add_0_r. apply readC_ok. by rewrite lookup_app_r, Nat.sub_diag by lia. Qed.

Lemma peek_1 pre c d r n : peek (st pre (c :: d :: r) n) 1 = Ok d.
Proof.
  unfold peek, st. simpl. apply readC_ok. rewrite lookup_app_r by lia.
  by replace (length pre + 1 - length pre)%nat with 1%nat by lia.
Qed.

Lemma advance_st pre t r n : advance (st pre (t ++ r) n) (length t) = st (pre ++ t) r n.
Proof. unfold advance, st. simpl. by rewrite length_app, app_assoc. Qed.

Lemma advance_1 pre c r n : advance (st pre (c :: r) n) 1 = st (pre ++ [c]) r n.
Proof. apply (advance_st pre [c] r n). Qed.

(** Writing before the pointer. *)
Lemma put_before a x b r n c : put_raw (st (a ++ x :: b) r n) (length a) c = Ok (st (a ++ c :: b) r n).
Proof.
  unfold put_raw, st. cbn [j_raw j_ptr j_err j_live]. rewrite <-!app_assoc. cbn [app].
  rewrite writeC_lt by (rewrite length_app; simpl; lia). cbn [mbind outcome_bind]. do 2 f_equal; [|by rewrite !length_app].
  rewrite <-(Nat.add_0_r (length a)). by rewrite insert_app_r.
Qed.

Lemma put_here pre c r n d : put_raw (st pre (c :: r) n) (length pre) d = Ok (st pre (d :: r) n).
Proof.
  unfold put_raw, st. cbn [j_raw j_ptr j_err j_live]. rewrite writeC_lt by (rewrite length_app; simpl; lia).
  cbn [mbind outcome_bind]. do 2 f_equal. rewrite <-(Nat.add_0_r (length pre)) at 1. by rewrite insert_app_r.
Qed.

Lemma put_advance {A} js i c k (f : vjsn -> outcome A) :
  (js ← put_raw js i c; f (advance js k)) = (js ← put_raw (advance js k) i c; f js).
Proof. unfold put_raw, advance. simpl. by destruct (writeC _ _ _). Qed.

Lemma expect_ok pre c r n : VJSN_EXPECT (st pre (c :: r) n) c = Ok (st (pre ++ [0]) r n, true).
Proof.
  unfold VJSN_EXPECT. cbn [assertC failed st j_err negb mbind outcome_bind]. fold (st pre (c :: r) n).
  rewrite peek_0. cbn [mbind outcome_bind]. rewrite Z.eqb_refl. cbn [negb j_ptr st]. fold (st pre (c :: r) n).
  rewrite put_here. cbn [mbind outcome_bind]. by rewrite advance_1.
Qed.

Lemma expect_no pre d r n c : d <> c -> VJSN_EXPECT (st pre (d :: r) n) c = Ok (set_err (st pre (d :: r) n) (expected c), false).
Proof.
  intros Hd. unfold VJSN_EXPECT. cbn [assertC failed st j_err negb mbind outcome_bind]. fold (st pre (d :: r) n).
  rewrite peek_0. cbn [mbind outcome_bind]. by rewrite (proj2 (Z.eqb_neq d c)).
Qed.

(** ** White space *)

Lemma skip_ws_loop_ok w : forall fuel pre c r n, ws w -> is_ws c = false -> (length w < fuel)%nat ->
  skip_ws_loop fuel (st pre (w ++ c :: r) n) = Ok (st (pre ++ zeros w) (c :: r) n).
Proof.
  induction w as [|d w IH]; intros fuel pre c r n Hw Hc Hf; (destruct fuel as [|fuel]; [simpl in Hf; lia|]); cbn [app skip_ws_loop].
  - rewrite peek_0. cbn [mbind outcome_bind zeros length replicate]. by rewrite Hc, app_nil_r.
  - inversion_clear Hw as [|? ? Hd%white_is_ws Hw']. rewrite peek_0. cbn [mbind outcome_bind]. rewrite Hd. cbn [j_ptr st]. fold (st pre (d :: w ++ c :: r) n).
    rewrite put_here. cbn [mbind outcome_bind]. rewrite advance_1, IH by (done || simpl in Hf; lia).
    by rewrite <-app_assoc.
Qed.

Lemma skip_ws_ok pre w c r n : ws w -> is_ws c = false ->
  vjsn_skip_ws (st pre (w ++ c :: r) n) = Ok (st (pre ++ zeros w) (c :: r) n).
Proof. intros Hw Hc. apply skip_ws_loop_ok; [done|done|]. cbn [st j_raw]. rewrite !length_app. simpl. lia. Qed.

Lemma skip_ws_none pre c r n : is_ws c = false -> vjsn_skip_ws (st pre (c :: r) n) = Ok (st pre (c :: r) n).
Proof. intros Hc. pose proof (skip_ws_ok pre [] c r n) as E. cbn [app] in E. rewrite E by (done || constructor). by rewrite app_nil_r. Qed.

(** Every text starts with white space, perhaps none. *)
Lemma split_at (f : Z -> bool) rest : ends rest -> f 0 = false ->
  exists w c r, rest = w ++ c :: r /\ Forall (fun c => f c = true) w /\ f c = false /\ ends (c :: r).
Proof.
  intros He Hf. induction rest as [|c r IH]; [by apply ends_ne in He|]. destruct (f c) eqn:E.
  - destruct IH as (w & d & r' & -> & Hw & Hd & He'); [apply (ends_cons c); [done|]; left; congruence|].
    exists (c :: w), d, r'. split; [done|]. split; [by constructor|done].
  - by exists [], c, r.
Qed.

(** ** Strings *)

(** [emit] into the gap between what was written and what was read. *)
Lemma emit_ok a x b r n c : byte c -> emit (st (a ++ x :: b) r n) (length a) c = Ok (st ((a ++ [c]) ++ b) r n, length (a ++ [c])).
Proof.
  intros Hc. unfold emit. rewrite wrapu_small by done. rewrite put_before. cbn [mbind outcome_bind].
  rewrite <-app_assoc, length_app. do 2 f_equal. simpl. lia.
Qed.

Lemma emit_utf8_ok a b r n u : 0 <= u < 1114112 -> (4 <= length b)%nat ->
  exists b', emit_utf8 (st (a ++ b) r n) (length a) u = Ok (st ((a ++ utf8 u) ++ b') r n, length (a ++ utf8 u)) /\
    (length (utf8 u) + length b' = length b)%nat.
Proof.
  intros Hu Hb. destruct b as [|x1 [|x2 [|x3 [|x4 b]]]]; try (simpl in Hb; lia).
  unfold emit_utf8, utf8. destruct (Z.ltb_spec u 128); [|destruct (Z.ltb_spec u 2048); [|destruct (Z.ltb_spec u 65536)]].
  all: repeat (rewrite emit_ok by (unfold byte; Z.to_euclidean_division_equations; lia); cbn [mbind outcome_bind]).
  all: rewrite <-!app_assoc; cbn [app]; eexists; (split; [by rewrite <-app_assoc|done]).
Qed.

(** What a function returns with an error set. *)
Definition fails {A} (n : Z) (a : A) (o : outcome (vjsn * A)) : Prop :=
  exists js, o = Ok (js, a) /\ failed js = true /\ j_live js = n.

Lemma fails_here {A} pre r n e (a : A) : fails n a (Ok (set_err (st pre r n) e, a)).
Proof. by eexists. Qed.

Lemma fails_bind {A B} n (a : A) (b : B) o (k : vjsn * A -> outcome (vjsn * B)) :
  fails n a o -> (forall js, failed js = true -> j_live js = n -> fails n b (k (js, a))) -> fails n b (o ≫= k).
Proof. intros (js & -> & Hf & Hn) Hk. by apply Hk. Qed.

(** One hexadecimal digit. *)
Lemma unumber_digit k pre c v r n u : hex c v -> 0 <= u < 4096 ->
  unumber_loop (S k) (st pre (c :: r) n) u = unumber_loop k (st (pre ++ [c]) r n) (u * 16 + v).
Proof.
  intros Hh Hu. cbn [unumber_loop]. rewrite peek_0. cbn [mbind outcome_bind]. rewrite advance_1.
  rewrite Z.shiftl_mul_pow2, wrapu_small by lia. change (2 ^ 4) with 16.
  assert (0 <= v < 16) by (destruct Hh; lia).
  rewrite <-(lor_add (u * 16) v 4) by (lia || apply Z_mod_mult).
  destruct Hh; repeat (rewrite (proj2 (andb_false_iff _ _)) by lia); by rewrite (proj2 (andb_true_iff _ _)) by lia.
Qed.

Lemma hex_dec c : (exists v, hex c v) \/ (48 <=? c) && (c <=? 57) = false /\ (65 <=? c) && (c <=? 70) = false /\ (97 <=? c) && (c <=? 102) = false.
Proof.
  destruct ((48 <=? c) && (c <=? 57)) eqn:E1; [left; exists (c - 48); constructor; lia|].
  destruct ((65 <=? c) && (c <=? 70)) eqn:E2; [left; exists (c - 55); constructor; lia|].
  destruct ((97 <=? c) && (c <=? 102)) eqn:E3; [left; exists (c - 87); constructor; lia|]. by right.
Qed.

Lemma hex_range c v : hex c v -> 0 <= v < 16 /\ c <> 0.
Proof. intros []; lia. Qed.

Lemma unit_range t u : unit_text t u -> 0 <= u < 65536 /\ length t = 6%nat.
Proof. intros [a b c d v w x y H1%hex_range H2%hex_range H3%hex_range H4%hex_range]. split; [lia|done]. Qed.

Lemma unumber_ok pre t u r n : unit_text t u -> exists t', length t' = length t /\
  vjsn_unumber (st pre (t ++ r) n) = Ok (st (pre ++ t') r n, u).
Proof.
  intros [a b c d v w x y H1 H2 H3 H4]. pose proof (hex_range _ _ H1). pose proof (hex_range _ _ H2). pose proof (hex_range _ _ H3).
  exists [0; 0; a; b; c; d]. split; [done|]. unfold vjsn_unumber. cbn [app].
  rewrite expect_ok. cbn [mbind outcome_bind negb]. rewrite expect_ok. cbn [mbind outcome_bind negb].
  rewrite (unumber_digit _ _ a v) by (done || lia). rewrite (unumber_digit _ _ b w) by (done || lia).
  rewrite (unumber_digit _ _ c x) by (done || lia). rewrite (unumber_digit _ _ d y) by (done || lia).
  cbn [unumber_loop]. rewrite <-!app_assoc. cbn [app]. do 2 f_equal. lia.
Qed.

(** The digits, or an error. *)
Lemma unumber_loop_total k : forall pre rest n u, ends rest ->
  fails n 0 (unumber_loop k (st pre rest n) u) \/
  exists t r, rest = t ++ r /\ length t = k /\ Forall (fun c => exists v, hex c v) t /\ ends r.
Proof.
  induction k as [|k IH]; intros pre rest n u He; [right; by exists [], rest|].
  destruct rest as [|c r]; [by apply ends_ne in He|]. cbn [unumber_loop]. rewrite peek_0. cbn [mbind outcome_bind]. rewrite advance_1.
  destruct (hex_dec c) as [[v Hv]|(-> & -> & ->)]; [|left; by eexists].
  apply ends_cons in He as [_ He]; [|left; by apply (hex_range c v)].
  assert (forall u, fails n 0 (unumber_loop k (st (pre ++ [c]) r n) u) \/
    exists t r', c :: r = t ++ r' /\ length t = S k /\ Forall (fun c => exists v, hex c v) t /\ ends r') as Hrec.
  { intros u'. destruct (IH (pre ++ [c]) r n u' He) as [Hf|(t & r' & -> & Hl & Ht & He')]; [by left|right].
    exists (c :: t), r'. split; [done|]. split; [simpl; lia|]. split; [constructor; eauto|done]. }
  destruct Hv as [c|c|c]; repeat (rewrite (proj2 (andb_false_iff _ _)) by lia); rewrite (proj2 (andb_true_iff _ _)) by lia; apply Hrec.
Qed.

Lemma unumber_total pre rest n : ends rest ->
  fails n 0 (vjsn_unumber (st pre rest n)) \/ exists t u r, rest = t ++ r /\ unit_text t u /\ ends r.
Proof.
  intros He. unfold vjsn_unumber. destruct rest as [|c rest]; [by apply ends_ne in He|].
  destruct (decide (c = 92)) as [->|Hc]; [|left; rewrite expect_no by done; by eexists].
  apply ends_cons in He as [_ He]; [|by left]. rewrite expect_ok. cbn [mbind outcome_bind negb].
  destruct rest as [|c rest]; [by apply ends_ne in He|].
  destruct (decide (c = 117)) as [->|Hc]; [|left; rewrite expect_no by done; by eexists].
  apply ends_cons in He as [_ He]; [|by left]. rewrite expect_ok. cbn [mbind outcome_bind negb].
  destruct (unumber_loop_total 4 ((pre ++ [0]) ++ [0]) rest n 0 He) as [Hf|(t & r & -> & Hl & Ht & He')]; [by left|right].
  destruct t as [|a [|b [|c [|d [|]]]]]; try done.
  repeat match goal with H : Forall _ (_ :: _) |- _ => apply Forall_cons in H as [[] H] end.
  eexists (92 :: 117 :: [a; b; c; d]), _, r. split; [done|]. split; [by constructor|done].
Qed.

(** ** The parser's own tests (lib/vjsn.c, VJSN_TEST)

    The texts of the test program, run through the model. *)

Definition good : list (list Z) :=
  [ [91; 91; 93; 32; 32; 32; 93];
    [91; 34; 34; 93];
    [91; 93];
    [91; 34; 97; 34; 93];
    [91; 102; 97; 108; 115; 101; 93];
    [91; 110; 117; 108; 108; 44; 32; 49; 44; 32; 34; 49; 34; 44; 32; 123; 125; 93];
    [91; 110; 117; 108; 108; 93];
    [91; 49; 10; 93];
    [32; 91; 49; 93];
    [91; 49; 44; 110; 117; 108; 108; 44; 110; 117; 108; 108; 44; 110; 117; 108; 108; 44; 50; 93];
    [91; 50; 93; 32];
    [91; 49; 50; 51; 101; 54; 53; 93];
    [91; 48; 101; 43; 49; 93];
    [91; 48; 101; 49; 93];
    [91; 32; 52; 93];
    [91; 45; 48; 46; 48; 48; 48; 48; 48; 48; 48; 48; 48; 48; 48; 48; 48; 48; 48; 48; 48; 48; 48; 48; 48; 48; 48;
      48; 48; 48; 48; 48; 48; 48; 48; 48; 48; 48; 48; 48; 48; 48; 48; 48; 48; 48; 48; 48; 48; 48; 48; 48; 48; 48;
      48; 48; 48; 48; 48; 48; 48; 48; 48; 48; 48; 48; 48; 48; 48; 48; 48; 48; 48; 48; 48; 48; 48; 48; 48; 48; 48;
      49; 93; 10];
    [91; 50; 48; 101; 49; 93];
    [91; 45; 48; 93];
    [91; 45; 49; 50; 51; 93];
    [91; 45; 49; 93];
    [91; 45; 48; 93];
    [91; 49; 69; 50; 50; 93];
    [91; 49; 69; 45; 50; 93];
    [91; 49; 69; 43; 50; 93];
    [91; 49; 50; 51; 101; 52; 53; 93];
    [91; 49; 50; 51; 46; 52; 53; 54; 101; 55; 56; 93];
    [91; 49; 101; 45; 50; 93];
    [91; 49; 101; 43; 50; 93];
    [91; 49; 50; 51; 93];
    [91; 49; 50; 51; 46; 52; 53; 54; 55; 56; 57; 93];
    [123; 34; 97; 115; 100; 34; 58; 34; 115; 100; 102; 34; 44; 32; 34; 100; 102; 103; 34; 58; 34; 102; 103; 104;
      34; 125];
    [123; 34; 97; 115; 100; 34; 58; 34; 115; 100; 102; 34; 125];
    [123; 34; 97; 34; 58; 34; 98; 34; 44; 34; 97; 34; 58; 34; 99; 34; 125];
    [123; 34; 97; 34; 58; 34; 98; 34; 44; 34; 97; 34; 58; 34; 98; 34; 125];
    [123; 125];
    [123; 34; 34; 58; 48; 125];
    [123; 34; 102; 111; 111; 92; 117; 48; 48; 48; 48; 98; 97; 114; 34; 58; 32; 52; 50; 125];
    [123; 32; 34; 109; 105; 110; 34; 58; 32; 45; 49; 46; 48; 101; 43; 50; 56; 44; 32; 34; 109; 97; 120; 34; 58;
      32; 49; 46; 48; 101; 43; 50; 56; 32; 125];
    [123; 34; 120; 34; 58; 91; 123; 34; 105; 100; 34; 58; 32; 34; 120; 120; 120; 120; 120; 120; 120; 120; 120;
      120; 120; 120; 120; 120; 120; 120; 120; 120; 120; 120; 120; 120; 120; 120; 120; 120; 120; 120; 120; 120; 120;
      120; 120; 120; 120; 120; 120; 120; 120; 120; 34; 125; 93; 44; 32; 34; 105; 100; 34; 58; 32; 34; 120; 120; 120;
      120; 120; 120; 120; 120; 120; 120; 120; 120; 120; 120; 120; 120; 120; 120; 120; 120; 120; 120; 120; 120; 120;
      120; 120; 120; 120; 120; 120; 120; 120; 120; 120; 120; 120; 120; 120; 120; 34; 125];
    [123; 34; 97; 34; 58; 91; 93; 125];
    [123; 34; 116; 105; 116; 108; 101; 34; 58; 34; 92; 117; 48; 52; 49; 102; 92; 117; 48; 52; 51; 101; 92; 117;
      48; 52; 51; 98; 92; 117; 48; 52; 52; 50; 92; 117; 48; 52; 51; 101; 92; 117; 48; 52; 52; 48; 92; 117; 48; 52;
      51; 48; 32; 92; 117; 48; 52; 49; 55; 92; 117; 48; 52; 51; 53; 92; 117; 48; 52; 51; 99; 92; 117; 48; 52; 51;
      98; 92; 117; 48; 52; 51; 53; 92; 117; 48; 52; 51; 97; 92; 117; 48; 52; 51; 101; 92; 117; 48; 52; 51; 102; 92;
      117; 48; 52; 51; 48; 34; 32; 125];
    [123; 10; 34; 97; 34; 58; 32; 34; 98; 34; 10; 125];
    [91; 34; 92; 117; 48; 48; 54; 48; 92; 117; 48; 49; 50; 97; 92; 117; 49; 50; 65; 66; 34; 93];
    [91; 34; 92; 117; 68; 56; 48; 49; 92; 117; 100; 99; 51; 55; 34; 93];
    [91; 34; 92; 117; 100; 56; 51; 100; 92; 117; 100; 101; 51; 57; 92; 117; 100; 56; 51; 100; 92; 117; 100; 99;
      56; 100; 34; 93];
    [91; 34; 92; 34; 92; 92; 92; 47; 92; 98; 92; 102; 92; 110; 92; 114; 92; 116; 34; 93];
    [91; 34; 92; 92; 117; 48; 48; 48; 48; 34; 93];
    [91; 34; 92; 34; 34; 93];
    [91; 34; 97; 47; 42; 98; 42; 47; 99; 47; 42; 100; 47; 47; 101; 34; 93];
    [91; 34; 92; 92; 97; 34; 93];
    [91; 34; 92; 92; 110; 34; 93];
    [91; 34; 92; 117; 48; 48; 49; 50; 34; 93];
    [91; 34; 92; 117; 70; 70; 70; 70; 34; 93];
    [91; 34; 97; 115; 100; 34; 93];
    [91; 32; 34; 97; 115; 100; 34; 93];
    [91; 34; 92; 117; 68; 66; 70; 70; 92; 117; 68; 70; 70; 70; 34; 93];
    [91; 34; 110; 101; 119; 92; 117; 48; 48; 65; 48; 108; 105; 110; 101; 34; 93];
    [91; 34; 244; 143; 191; 191; 34; 93];
    [91; 34; 239; 191; 191; 34; 93];
    [91; 34; 92; 117; 48; 48; 48; 48; 34; 93];
    [91; 34; 92; 117; 48; 48; 50; 99; 34; 93];
    [91; 34; 207; 128; 34; 93];
    [91; 34; 240; 155; 191; 191; 34; 93];
    [91; 34; 97; 115; 100; 32; 34; 93];
    [34; 32; 34];
    [91; 34; 92; 117; 68; 56; 51; 52; 92; 117; 68; 100; 49; 101; 34; 93];
    [91; 34; 92; 117; 48; 56; 50; 49; 34; 93];
    [91; 34; 92; 117; 48; 49; 50; 51; 34; 93];
    [91; 34; 226; 128; 168; 34; 93];
    [91; 34; 226; 128; 169; 34; 93];
    [91; 34; 92; 117; 48; 48; 54; 49; 92; 117; 51; 48; 97; 102; 92; 117; 51; 48; 69; 65; 92; 117; 51; 48; 98; 57;
      34; 93];
    [91; 34; 110; 101; 119; 92; 117; 48; 48; 48; 65; 108; 105; 110; 101; 34; 93];
    [91; 34; 127; 34; 93];
    [91; 34; 92; 117; 65; 54; 54; 68; 34; 93];
    [91; 34; 92; 117; 48; 48; 53; 67; 34; 93];
    [91; 34; 226; 141; 130; 227; 136; 180; 226; 141; 130; 34; 93];
    [91; 34; 92; 117; 68; 66; 70; 70; 92; 117; 68; 70; 70; 69; 34; 93];
    [91; 34; 92; 117; 68; 56; 51; 70; 92; 117; 68; 70; 70; 69; 34; 93];
    [91; 34; 92; 117; 50; 48; 48; 66; 34; 93];
    [91; 34; 92; 117; 50; 48; 54; 52; 34; 93];
    [91; 34; 92; 117; 70; 68; 68; 48; 34; 93];
    [91; 34; 92; 117; 70; 70; 70; 69; 34; 93];
    [91; 34; 92; 117; 48; 48; 50; 50; 34; 93];
    [91; 34; 226; 130; 172; 240; 157; 132; 158; 34; 93];
    [91; 34; 97; 127; 97; 34; 93];
    [102; 97; 108; 115; 101];
    [52; 50];
    [45; 48; 46; 49];
    [110; 117; 108; 108];
    [34; 97; 115; 100; 34];
    [116; 114; 117; 101];
    [34; 34];
    [91; 34; 97; 34; 93; 10];
    [91; 116; 114; 117; 101; 93];
    [32; 91; 93; 32] ].

Definition bad : list (list Z) :=
  [ [91; 49; 32; 116; 114; 117; 101; 93];
    [91; 97; 229; 93];
    [91; 34; 34; 58; 32; 49; 93];
    [91; 34; 34; 93; 44];
    [91; 44; 49; 93];
    [91; 49; 44; 44; 50; 93];
    [91; 34; 120; 34; 44; 44; 93];
    [91; 34; 120; 34; 93; 93];
    [91; 34; 34; 44; 93];
    [91; 34; 120; 34];
    [91; 120];
    [91; 51; 91; 52; 93; 93];
    [91; 255; 93];
    [91; 49; 58; 50; 93];
    [91; 44; 93];
    [91; 45; 93];
    [91; 32; 32; 32; 44; 32; 34; 34; 93];
    [91; 34; 97; 34; 44; 10; 52; 10; 44; 49; 44];
    [91; 49; 44; 93];
    [91; 49; 44; 44; 93];
    [91; 34; 11; 97; 34; 92; 102; 93];
    [91; 42; 93];
    [91; 34; 34];
    [91; 49; 44];
    [91; 49; 44; 10; 49; 10; 44; 49];
    [91; 123; 125];
    [91; 102; 97; 108; 115; 93];
    [91; 110; 117; 108; 93];
    [91; 116; 114; 117; 93];
    [91; 43; 43; 49; 50; 51; 52; 93];
    [91; 43; 49; 93];
    [91; 43; 73; 110; 102; 93];
    [91; 45; 48; 49; 93];
    [91; 45; 49; 46; 48; 46; 93];
    [91; 45; 50; 46; 93];
    [91; 45; 78; 97; 78; 93];
    [91; 46; 45; 49; 93];
    [91; 46; 50; 101; 45; 51; 93];
    [91; 48; 46; 49; 46; 50; 93];
    [91; 48; 46; 51; 101; 43; 93];
    [91; 48; 46; 51; 101; 93];
    [91; 48; 46; 101; 49; 93];
    [91; 48; 69; 43; 93];
    [91; 48; 69; 93];
    [91; 48; 101; 43; 93];
    [91; 48; 101; 93];
    [91; 49; 46; 48; 101; 43; 93];
    [91; 49; 46; 48; 101; 45; 93];
    [91; 49; 46; 48; 101; 93];
    [91; 49; 32; 48; 48; 48; 46; 48; 93];
    [91; 49; 101; 69; 50; 93];
    [91; 50; 46; 101; 43; 51; 93];
    [91; 50; 46; 101; 45; 51; 93];
    [91; 50; 46; 101; 51; 93];
    [91; 57; 46; 101; 43; 93];
    [91; 73; 110; 102; 93];
    [91; 78; 97; 78; 93];
    [91; 239; 188; 145; 93];
    [91; 49; 43; 50; 93];
    [91; 48; 120; 49; 93];
    [91; 48; 120; 52; 50; 93];
    [91; 73; 110; 102; 105; 110; 105; 116; 121; 93];
    [91; 48; 101; 43; 45; 49; 93];
    [91; 45; 49; 50; 51; 46; 49; 50; 51; 102; 111; 111; 93];
    [91; 49; 50; 51; 229; 93];
    [91; 49; 101; 49; 229; 93];
    [91; 48; 229; 93; 10];
    [91; 45; 73; 110; 102; 105; 110; 105; 116; 121; 93];
    [91; 45; 102; 111; 111; 93];
    [91; 45; 32; 49; 93];
    [91; 45; 48; 49; 50; 93];
    [91; 45; 46; 49; 50; 51; 93];
    [91; 45; 49; 120; 93];
    [91; 49; 101; 97; 93];
    [91; 49; 101; 229; 93];
    [91; 49; 46; 93];
    [91; 46; 49; 50; 51; 93];
    [91; 49; 46; 50; 97; 45; 51; 93];
    [91; 49; 46; 56; 48; 49; 49; 54; 55; 48; 48; 51; 51; 51; 55; 54; 53; 49; 52; 72; 45; 51; 48; 56; 93];
    [91; 48; 49; 50; 93];
    [91; 34; 120; 34; 44; 32; 116; 114; 117; 116; 104; 93];
    [123; 91; 58; 32; 34; 120; 34; 125; 10];
    [123; 34; 120; 34; 44; 32; 110; 117; 108; 108; 125];
    [123; 34; 120; 34; 58; 58; 34; 98; 34; 125];
    [123; 240; 159; 135; 168; 240; 159; 135; 173; 125];
    [123; 34; 97; 34; 58; 34; 97; 34; 32; 49; 50; 51; 125];
    [123; 107; 101; 121; 58; 32; 39; 118; 97; 108; 117; 101; 39; 125];
    [123; 34; 185; 34; 58; 34; 48; 34; 44; 125];
    [123; 34; 97; 34; 32; 98; 125];
    [123; 58; 34; 98; 34; 125];
    [123; 34; 97; 34; 32; 34; 98; 34; 125];
    [123; 34; 97; 34; 58];
    [123; 34; 97; 34];
    [123; 49; 58; 49; 125];
    [123; 57; 57; 57; 57; 69; 57; 57; 57; 57; 58; 49; 125];
    [123; 110; 117; 108; 108; 58; 110; 117; 108; 108; 44; 110; 117; 108; 108; 58; 110; 117; 108; 108; 125];
    [123; 34; 105; 100; 34; 58; 48; 44; 44; 44; 44; 44; 125];
    [123; 39; 97; 39; 58; 48; 125];
    [123; 34; 105; 100; 34; 58; 48; 44; 125];
    [123; 34; 97; 34; 58; 34; 98; 34; 125; 47; 42; 42; 47];
    [123; 34; 97; 34; 58; 34; 98; 34; 125; 47; 42; 42; 47; 47];
    [123; 34; 97; 34; 58; 34; 98; 34; 125; 47; 47];
    [123; 34; 97; 34; 58; 34; 98; 34; 125; 47];
    [123; 34; 97; 34; 58; 34; 98; 34; 44; 44; 34; 99; 34; 58; 34; 100; 34; 125];
    [123; 97; 58; 32; 34; 98; 34; 125];
    [123; 34; 97; 34; 58; 34; 97];
    [123; 32; 34; 102; 111; 111; 34; 32; 58; 32; 34; 98; 97; 114; 34; 44; 32; 34; 97; 34; 32; 125];
    [123; 34; 97; 34; 58; 34; 98; 34; 125; 35];
    [32];
    [91; 34; 92; 117; 68; 56; 48; 48; 92; 34; 93];
    [91; 34; 92; 117; 68; 56; 48; 48; 92; 117; 34; 93];
    [91; 34; 92; 117; 68; 56; 48; 48; 92; 117; 49; 34; 93];
    [91; 34; 92; 117; 68; 56; 48; 48; 92; 117; 49; 120; 34; 93];
    [91; 195; 169; 93];
    [91; 34; 92; 120; 48; 48; 34; 93];
    [91; 34; 92; 92; 92; 34; 93];
    [91; 34; 92; 9; 34; 93];
    [91; 34; 92; 240; 159; 140; 128; 34; 93];
    [91; 34; 92; 34; 93];
    [91; 34; 92; 117; 48; 48; 65; 34; 93];
    [91; 34; 92; 117; 68; 56; 51; 52; 92; 117; 68; 100; 34; 93];
    [91; 34; 92; 117; 68; 56; 48; 48; 92; 117; 68; 56; 48; 48; 92; 120; 34; 93];
    [91; 34; 92; 117; 229; 34; 93];
    [91; 34; 92; 97; 34; 93];
    [91; 34; 92; 117; 113; 113; 113; 113; 34; 93];
    [91; 34; 92; 229; 34; 93];
    [91; 92; 117; 48; 48; 50; 48; 34; 97; 115; 100; 34; 93];
    [91; 92; 110; 93];
    [34];
    [91; 39; 115; 105; 110; 103; 108; 101; 32; 113; 117; 111; 116; 101; 39; 93];
    [97; 98; 99];
    [91; 34; 92];
    [91; 34; 110; 101; 119; 10; 108; 105; 110; 101; 34; 93];
    [91; 34; 9; 34; 93];
    [34; 92; 85; 65; 54; 54; 68; 34];
    [34; 34; 120];
    [91; 226; 129; 160; 93];
    [239; 187; 191];
    [60; 46; 62];
    [91; 60; 110; 117; 108; 108; 62; 93];
    [91; 49; 93; 120];
    [91; 49; 93; 93];
    [91; 34; 97; 115; 100; 93];
    [97; 195; 165];
    [91; 84; 114; 117; 101; 93];
    [49; 93];
    [123; 34; 120; 34; 58; 32; 116; 114; 117; 101; 44];
    [91; 93; 91; 93];
    [93];
    [239; 187; 123; 125];
    [229];
    [91];
    [];
    [50; 64];
    [123; 125; 125];
    [123; 34; 34; 58];
    [123; 34; 97; 34; 58; 47; 42; 99; 111; 109; 109; 101; 110; 116; 42; 47; 34; 98; 34; 125];
    [123; 34; 97; 34; 58; 32; 116; 114; 117; 101; 125; 32; 34; 120; 34];
    [91; 39];
    [91; 44];
    [91; 123];
    [91; 34; 97];
    [91; 34; 97; 34];
    [123];
    [123; 93];
    [123; 44];
    [123; 91];
    [123; 34; 97];
    [123; 39; 97; 39];
    [91; 34; 92; 123; 91; 34; 92; 123; 91; 34; 92; 123; 91; 34; 92; 123];
    [233];
    [42];
    [123; 34; 97; 34; 58; 34; 98; 34; 125; 35; 123; 125];
    [91; 92; 117; 48; 48; 48; 65; 34; 34; 93];
    [91; 49];
    [91; 32; 102; 97; 108; 115; 101; 44; 32; 110; 117; 108];
    [91; 32; 116; 114; 117; 101; 44; 32; 102; 97; 108; 115];
    [91; 32; 102; 97; 108; 115; 101; 44; 32; 116; 114; 117];
    [123; 34; 97; 115; 100; 34; 58; 34; 97; 115; 100; 34];
    [195; 165];
    [91; 226; 129; 160; 93];
    [91; 12; 93] ].

(** The functions exit the program with status 1 where these are false. *)
Definition test_good (j : list Z) : bool :=
  match vjsn_parse (j ++ [0]) with Ok (inr _) => true | _ => false end.
Definition test_bad (j : list Z) : bool :=
  match vjsn_parse (j ++ [0]) with Ok (inl _) => true | _ => false end.

(** [main]: the two loops, and the text with a lone second surrogate. *)
Definition vjsn_test_main : bool :=
  forallb test_good good && forallb test_bad bad && test_bad [34; 92; 117; 68; 70; 65; 65; 34].

(** The model passes the test program at the end of vjsn.c: it accepts every
    text of [good] and refuses every text of [bad]. *)
Theorem vjsn_test_passes : vjsn_test_main = true.
Proof. by vm_compute. Qed.
