(* ===== verification/VjsnStr.v ===== *)
(** * JSON strings and numbers (lib/vjsn.c)

    [vjsn_string] decodes the strings of the grammar in place and refuses all
    other input; likewise [vjsn_number]. *)

From Stdlib Require Import ZArith Lia ZifyBool.
From stdpp Require Import base option numbers list.
From S2P Require Import Prelude CStr Vjsn VjsnSpec.
#[local] Open Scope Z_scope.

(** ** Unicode *)

Lemma pair_split u1 u2 : high_surrogate u1 -> low_surrogate u2 ->
  pair_value u1 u2 = Z.lor (u1 - 55296) 64 * 1024 + (u2 - 56320).
Proof.
  unfold high_surrogate, low_surrogate, pair_value. intros H1 H2.
  rewrite wrapu_small by (rewrite Z.shiftl_mul_pow2; lia).
  rewrite <-Z.lor_assoc, (Z.lor_comm (u2 - 56320)), Z.lor_assoc. change 65536 with (Z.shiftl 64 10).
  rewrite <-Z.shiftl_lor, Z.shiftl_mul_pow2 by lia. apply (lor_add _ _ 10); [lia|lia|]. apply Z_mod_mult.
Qed.

Lemma lor_64 h : 0 <= h < 1024 -> 64 <= Z.lor h 64 < 1024 /\
  Z.lor h 64 = if Z.testbit h 6 then h else h + 64.
Proof.
  intros Hh. assert (forallb (fun h => (64 <=? Z.lor h 64) && (Z.lor h 64 <? 1024) &&
    (Z.lor h 64 =? if Z.testbit h 6 then h else h + 64)) (seqZ 0 1024) = true) as Hall by by vm_compute.
  rewrite forallb_forall in Hall. specialize (Hall h). rewrite <-list_elem_of_In, elem_of_seqZ in Hall. specialize (Hall ltac:(lia)). lia.
Qed.

(** The code ors 65536 into the pair where UTF-16 adds it: that is the same in the
    odd planes only. *)
Lemma pair_value_read u1 u2 : high_surrogate u1 -> low_surrogate u2 -> pair_value u1 u2 = read_pair u1 u2.
Proof.
  intros H1 H2. rewrite pair_split by done. unfold high_surrogate, low_surrogate in *. destruct (lor_64 (u1 - 55296)) as [_ ->]; [lia|].
  unfold read_pair, utf16. replace ((65536 + (u1 - 55296) * 1024 + (u2 - 56320)) / 65536) with (1 + (u1 - 55296) / 64) by (Z.div_mod_to_equations; lia).
  rewrite Z.testbit_odd, Z.shiftr_div_pow2 by lia. change (2 ^ 6) with 64. rewrite Z.odd_add. change (Z.odd 1) with true.
  destruct (Z.odd ((u1 - 55296) / 64)); cbn [xorb]; lia.
Qed.

Lemma pair_range u1 u2 : high_surrogate u1 -> low_surrogate u2 -> 65536 <= pair_value u1 u2 < 1114112.
Proof.
  intros H1 H2. rewrite pair_split by done. unfold high_surrogate, low_surrogate in *.
  destruct (lor_64 (u1 - 55296)) as [H _]; lia.
Qed.

Lemma unicode_unit t u : unit_text t u -> u < 55296 \/ 57344 <= u -> forall a b r n,
  exists b', vjsn_unicode (st (a ++ b) (t ++ r) n) (length a) = Ok (st ((a ++ utf8 u) ++ b') r n, length (a ++ utf8 u)) /\
    (length (utf8 u) + length b' = length b + length t)%nat.
Proof.
  intros Ht Hu a b r n. destruct (unit_range t u Ht) as [Hr Hl].
  destruct (unumber_ok (a ++ b) t u r n Ht) as (t' & Hl' & E). unfold vjsn_unicode. rewrite E. cbn [mbind outcome_bind failed st j_err].
  repeat (rewrite (proj2 (andb_false_iff _ _)) by lia). cbn [mbind outcome_bind failed j_err].
  rewrite assertC_true by lia. cbn [mbind outcome_bind]. fold (st ((a ++ b) ++ t') r n). rewrite <-app_assoc.
  destruct (emit_utf8_ok a (b ++ t') r n u) as (b' & Eb & Hb); [lia|rewrite length_app; lia|].
  exists b'. split; [done|]. rewrite Hb, length_app. lia.
Qed.

Lemma unicode_pair t1 u1 t2 u2 : unit_text t1 u1 -> unit_text t2 u2 -> high_surrogate u1 -> low_surrogate u2 -> forall a b r n,
  let u := read_pair u1 u2 in
  exists b', vjsn_unicode (st (a ++ b) ((t1 ++ t2) ++ r) n) (length a) = Ok (st ((a ++ utf8 u) ++ b') r n, length (a ++ utf8 u)) /\
    (length (utf8 u) + length b' = length b + length (t1 ++ t2))%nat.
Proof.
  intros Ht1 Ht2 H1 H2 a b r n u. pose proof (pair_range u1 u2 H1 H2) as Hu. pose proof (pair_value_read u1 u2 H1 H2) as Ep. fold u in Ep. rewrite Ep in Hu.
  destruct (unit_range t1 u1 Ht1) as [_ Hl1], (unit_range t2 u2 Ht2) as [_ Hl2]. rewrite <-app_assoc.
  destruct (unumber_ok (a ++ b) t1 u1 (t2 ++ r) n Ht1) as (t1' & Hl1' & E1).
  destruct (unumber_ok ((a ++ b) ++ t1') t2 u2 r n Ht2) as (t2' & Hl2' & E2).
  unfold vjsn_unicode. rewrite E1. cbn [mbind outcome_bind failed st j_err]. unfold high_surrogate, low_surrogate in *.
  rewrite (proj2 (andb_false_iff _ _)) by lia. rewrite (proj2 (andb_true_iff _ _)) by lia.
  fold (st ((a ++ b) ++ t1') (t2 ++ r) n). rewrite E2. cbn [mbind outcome_bind].
  rewrite (proj2 (orb_false_iff _ _)) by lia. cbn [mbind outcome_bind failed st j_err]. rewrite Ep. rewrite assertC_true by lia. cbn [mbind outcome_bind].
  fold (st (((a ++ b) ++ t1') ++ t2') r n). rewrite <-!app_assoc.
  destruct (emit_utf8_ok a (b ++ t1' ++ t2') r n u) as (b' & Eb & Hb); [lia|rewrite !length_app; lia|].
  exists b'. split; [done|]. rewrite Hb, !length_app. lia.
Qed.

Lemma unicode_total pre rest n d : ends rest ->
  fails n d (vjsn_unicode (st pre rest n) d) \/
  exists t x r, rest = t ++ r /\ char_text t x /\ ends r /\ t <> [].
Proof.
  intros He. unfold vjsn_unicode.
  destruct (unumber_total pre rest n He) as [Hf|(t1 & u1 & r1 & -> & Ht1 & He1)].
  { left. apply (fails_bind n 0 d _ _ Hf). intros js Hfl Hn. rewrite Hfl. by exists js. }
  destruct (unumber_ok pre t1 u1 r1 n Ht1) as (t1' & _ & ->). cbn [mbind outcome_bind failed st j_err].
  destruct (unit_range t1 u1 Ht1) as [Hu1 Hl1].
  destruct ((56320 <=? u1) && (u1 <=? 57343)) eqn:El; [left; by eexists|].
  destruct ((55296 <=? u1) && (u1 <=? 56320)) eqn:Eh; cycle 1.
  { right. exists t1, (utf8 u1), r1. split; [done|]. split; [|split; [done|by destruct t1]]. constructor; [done|lia]. }
  fold (st (pre ++ t1') r1 n).
  destruct (unumber_total (pre ++ t1') r1 n He1) as [(js & -> & Hfl & Hn)|(t2 & u2 & r2 & -> & Ht2 & He2)]; [left; by eexists|].
  destruct (unumber_ok (pre ++ t1') t2 u2 r2 n Ht2) as (t2' & _ & ->). cbn [mbind outcome_bind].
  destruct ((u2 <? 56320) || (57343 <? u2)) eqn:E2; [left; by eexists|].
  right. exists (t1 ++ t2), (utf8 (read_pair u1 u2)), r2. rewrite app_assoc. split; [done|].
  split; [|split; [done|by destruct t1]]. constructor; [done|done|unfold high_surrogate; lia|unfold low_surrogate; lia].
Qed.

(** ** Strings *)

Lemma string_loop_unfold fuel pre c r n p : c <> 34 -> 32 <= c ->
  string_loop (S fuel) (st pre (c :: r) n) p =
    (if negb (c =? 92) then js ← put_raw (st pre (c :: r) n) p c; string_loop fuel (advance js 1) (S p)
     else c1 ← peek (st pre (c :: r) n) 1;
       match simple_escape c1 with
       | Some x => js ← put_raw (st pre (c :: r) n) p x; string_loop fuel (advance js 2) (S p)
       | None => if c1 =? 117 then
           '(js, p) ← vjsn_unicode (st pre (c :: r) n) p; if failed js then Ok (js, None) else string_loop fuel js p
         else Ok (set_err (st pre (c :: r) n) bad_escape, None)
       end).
Proof.
  intros H1 H2. cbn [string_loop]. rewrite peek_0. cbn [mbind outcome_bind].
  rewrite !(proj2 (Z.eqb_neq c _)) by lia. rewrite (proj2 (Z.leb_gt c 31)) by lia. done.
Qed.

(** Storing the byte for a sequence of the length of [t]. *)
Lemma store_ok {A} a b t r n x (f : vjsn -> outcome A) : t <> [] -> byte x ->
  exists b', (js ← put_raw (st (a ++ b) (t ++ r) n) (length a) x; f (advance js (length t))) =
      f (st ((a ++ [x]) ++ b') r n) /\ (1 + length b' = length b + length t)%nat.
Proof.
  intros Ht Hx. rewrite put_advance, advance_st, <-app_assoc.
  destruct (b ++ t) as [|y b'] eqn:E; [by apply app_eq_nil in E as [_ ?]|].
  exists b'. rewrite put_before. cbn [mbind outcome_bind]. rewrite <-app_assoc. split; [done|].
  apply (f_equal length) in E. rewrite length_app in E. simpl in E. lia.
Qed.

Lemma escape_in c x : (c, x) ∈ json_escapes -> simple_escape c = Some x /\ byte x /\ c <> 117.
Proof.
  assert (Forall (fun p => simple_escape p.1 = Some p.2 /\ byte p.2 /\ p.1 <> 117) json_escapes) as Hall
    by by (repeat constructor).
  rewrite Forall_forall in Hall. apply (Hall (c, x)).
Qed.

Lemma escape_out c x : simple_escape c = Some x -> (c, x) ∈ json_escapes.
Proof.
  unfold simple_escape. intros H. repeat case_match; simplify_eq;
    repeat match goal with H : _ || _ = true |- _ => apply orb_true_iff in H as [H|H] end;
    repeat match goal with H : (_ =? _) = true |- _ => apply Z.eqb_eq in H as -> end;
    apply (bool_decide_eq_true_1 (_ ∈ json_escapes)); reflexivity.
Qed.

Lemma unit_head t u : unit_text t u -> exists x, t = 92 :: 117 :: x.
Proof. intros []. eauto. Qed.

(** One turn of the loop. *)
Lemma string_step t d : char_text t d -> forall fuel a b r n,
  exists b', string_loop (S fuel) (st (a ++ b) (t ++ r) n) (length a) =
      string_loop fuel (st ((a ++ d) ++ b') r n) (length (a ++ d)) /\
    (length d + length b' = length b + length t)%nat.
Proof.
  intros Hc fuel a b r n.
  assert (forall x, S (length a) = length (a ++ [x : Z])) as Hs by (intros; rewrite length_app; simpl; lia).
  assert (forall t0 x, t0 = 92 :: 117 :: x -> string_loop (S fuel) (st (a ++ b) (t0 ++ r) n) (length a) =
    ('(js, p) ← vjsn_unicode (st (a ++ b) (t0 ++ r) n) (length a); if failed js then Ok (js, None) else string_loop fuel js p)) as Hu.
  { intros t0 x ->. cbn [app]. rewrite string_loop_unfold by done. cbn [negb Z.eqb Pos.eqb]. by rewrite peek_1. }
  destruct Hc as [c Hc H1 H2|c x Hx|t u Ht Hu'|t1 u1 t2 u2 Ht1 Ht2 H1 H2].
  - cbn [app]. rewrite string_loop_unfold by lia. rewrite (proj2 (Z.eqb_neq c 92)) by done. cbn [negb].
    destruct (store_ok a b [c] r n c (fun js => string_loop fuel js (S (length a)))) as (b' & E & Hl); [done|unfold byte; lia|].
    cbn [length] in E. exists b'. rewrite <-Hs. split; [exact E|done].
  - destruct (escape_in c x Hx) as (Es & Hb & _). cbn [app]. rewrite string_loop_unfold by done. cbn [negb Z.eqb Pos.eqb].
    rewrite peek_1. cbn [mbind outcome_bind]. rewrite Es.
    destruct (store_ok a b [92; c] r n x (fun js => string_loop fuel js (S (length a)))) as (b' & E & Hl); [done|done|].
    cbn [length] in E. exists b'. rewrite <-Hs. split; [exact E|done].
  - destruct (unicode_unit t u Ht Hu' a b r n) as (b' & E & Hl). exists b'. split; [|done].
    destruct (unit_head t u Ht) as [y Hy]. rewrite (Hu t y Hy). by rewrite E.
  - destruct (unicode_pair t1 u1 t2 u2 Ht1 Ht2 H1 H2 a b r n) as (b' & E & Hl). exists b'. split; [|done].
    destruct (unit_head t1 u1 Ht1) as [y Hy]. rewrite (Hu (t1 ++ t2) (y ++ t2)) by by rewrite Hy. by rewrite E.
Qed.

Lemma char_length t d : char_text t d -> (1 <= length t)%nat.
Proof.
  intros [| |? ? H|? ? ? ? H]; simpl; try lia; [by rewrite (proj2 (unit_range _ _ H)); lia|].
  rewrite length_app, (proj2 (unit_range _ _ H)). lia.
Qed.

Lemma string_loop_ok t d : string_text t d -> forall fuel a b r n, (length t <= fuel)%nat ->
  exists b', string_loop fuel (st (a ++ b) (t ++ 34 :: r) n) (length a) =
      Ok (st ((a ++ d) ++ b') (34 :: r) n, Some (length (a ++ d))) /\
    (length d + length b' = length b + length t)%nat.
Proof.
  induction 1 as [|t d ts ds Hc Hs IH]; intros fuel a b r n Hf.
  - exists b. cbn [app]. rewrite app_nil_r. split; [|simpl; lia]. destruct fuel; cbn [string_loop]; by rewrite peek_0.
  - pose proof (char_length _ _ Hc) as Hl. rewrite length_app in Hf. destruct fuel as [|fuel]; [lia|].
    rewrite <-app_assoc. destruct (string_step t d Hc fuel a b (ts ++ 34 :: r) n) as (b1 & -> & Hb1).
    destruct (IH fuel (a ++ d) b1 r n ltac:(lia)) as (b2 & -> & Hb2). exists b2. rewrite <-!app_assoc. split; [done|].
    rewrite !length_app. lia.
Qed.

Lemma string_loop_total fuel : forall a b rest n, ends rest -> (length rest <= fuel)%nat ->
  fails n None (string_loop fuel (st (a ++ b) rest n) (length a)) \/
  exists t d r, rest = t ++ 34 :: r /\ string_text t d /\ ends r.
Proof.
  induction fuel as [|fuel IH]; intros a b rest n He Hl.
  { destruct rest; [by apply ends_ne in He|simpl in Hl; lia]. }
  destruct rest as [|c rest]; [by apply ends_ne in He|].
  destruct (decide (c = 34)) as [->|H34].
  { right. exists [], [], rest. split; [done|]. split; [constructor|]. apply (ends_cons 34); [done|by left]. }
  destruct (decide (c < 32)) as [Hlt|Hge].
  { left. cbn [string_loop]. rewrite peek_0. cbn [mbind outcome_bind]. rewrite (proj2 (Z.eqb_neq c 34)) by done.
    destruct (c =? 0); [by eexists|]. rewrite (proj2 (Z.leb_le c 31)) by lia. by eexists. }
  assert ((exists t d r, c :: rest = t ++ r /\ char_text t d /\ ends r /\ t <> []) ->
    fails n None (string_loop (S fuel) (st (a ++ b) (c :: rest) n) (length a)) \/
    exists t d r, c :: rest = t ++ 34 :: r /\ string_text t d /\ ends r) as Hstep.
  { intros (t & d & r & E & Hc & Her & Hne). rewrite E in Hl |- *. pose proof (char_length _ _ Hc). rewrite length_app in Hl.
    destruct (string_step t d Hc fuel a b r n) as (b' & -> & _).
    destruct (IH (a ++ d) b' r n Her ltac:(lia)) as [Hf|(t2 & d2 & r2 & -> & Ht2 & He2)]; [by left|right].
    exists (t ++ t2), (d ++ d2), r2. rewrite <-app_assoc. split; [done|]. split; [by constructor|done]. }
  destruct (ends_cons c rest He ltac:(left; lia)) as [Hb Her].
  destruct (decide (c = 92)) as [->|H92]; cycle 1.
  { apply Hstep. exists [c], [c], rest. split; [done|]. split; [|done]. constructor; unfold byte in Hb; lia || done. }
  destruct rest as [|c1 rest]; [by apply ends_ne in Her|].
  destruct (simple_escape c1) as [x|] eqn:Es.
  { apply Hstep. pose proof (escape_out c1 x Es) as Hx. exists [92; c1], [x], rest. split; [done|]. split; [by constructor|]. split; [|done].
    apply (ends_cons c1); [done|]. left. intros ->. unfold simple_escape in Es. by simpl in Es. }
  destruct (Z.eqb_spec c1 117) as [->|H117].
  - destruct (unicode_total (a ++ b) (92 :: 117 :: rest) n (length a) He) as [Hf|Hc]; [|by apply Hstep].
    left. rewrite string_loop_unfold by done. cbn [negb Z.eqb Pos.eqb]. rewrite peek_1. cbn [mbind outcome_bind]. rewrite Es. cbn [Z.eqb Pos.eqb].
    apply (fails_bind n (length a) None _ _ Hf). intros js Hfl Hn. rewrite Hfl. by exists js.
  - left. rewrite string_loop_unfold by done. cbn [negb Z.eqb Pos.eqb]. rewrite peek_1. cbn [mbind outcome_bind]. rewrite Es.
    rewrite (proj2 (Z.eqb_neq c1 117)) by done. by eexists.
Qed.

(** A string with its NUL in the copy. *)
Definition holds (raw : list Z) (b : nat) (d : list Z) : Prop := exists x y, raw = x ++ d ++ 0 :: y /\ length x = b.

Lemma holds_app raw b d m : holds raw b d -> holds (raw ++ m) b d.
Proof. intros (x & y & -> & Hx). exists x, (y ++ m). by rewrite <-!app_assoc. Qed.

Lemma string_ok pre w k d r n : ws w -> string_text k d ->
  exists t' b, vjsn_string (st pre (w ++ 34 :: k ++ 34 :: r) n) = Ok (st (pre ++ t') r n, Some (b, b + length d)%nat) /\
    length t' = (length w + length k + 2)%nat /\ holds (pre ++ t') b d.
Proof.
  intros Hw Hk. unfold vjsn_string. rewrite skip_ws_ok by done. cbn [mbind outcome_bind]. rewrite expect_ok. cbn [mbind outcome_bind negb].
  set (a := (pre ++ zeros w) ++ [0]). cbn [st j_raw j_ptr]. fold (st a (k ++ 34 :: r) n).
  destruct (string_loop_ok k d Hk (length (a ++ k ++ 34 :: r)) a [] r n) as (b & E & Hb); [rewrite !length_app; lia|].
  rewrite app_nil_r in E. rewrite E. cbn [mbind outcome_bind]. rewrite expect_ok. cbn [mbind outcome_bind negb]. rewrite <-app_assoc.
  destruct (b ++ [0]) as [|y b'] eqn:Ey; [by destruct b|]. rewrite put_before. cbn [mbind outcome_bind].
  apply (f_equal length) in Ey. rewrite length_app in Ey. simpl in Ey, Hb.
  exists (zeros w ++ [0] ++ d ++ 0 :: b'), (length a). subst a. split; [|split].
  - rewrite (length_app _ d), <-!app_assoc. done.
  - unfold zeros. rewrite !length_app, length_replicate. simpl. lia.
  - exists ((pre ++ zeros w) ++ [0]), b'. by rewrite <-!app_assoc.
Qed.

Lemma string_total pre rest n : ends rest ->
  fails n None (vjsn_string (st pre rest n)) \/
  exists w k d r, rest = w ++ 34 :: k ++ 34 :: r /\ ws w /\ string_text k d /\ ends r.
Proof.
  intros He. destruct (split_at is_ws rest He eq_refl) as (w & c & r & -> & Hw%ws_is_ws & Hc & Her).
  unfold vjsn_string. rewrite skip_ws_ok by done. cbn [mbind outcome_bind].
  destruct (decide (c = 34)) as [->|H34]; [|left; rewrite expect_no by done; by eexists].
  rewrite expect_ok. cbn [mbind outcome_bind negb]. apply ends_cons in Her as [_ Her]; [|by left].
  set (a := (pre ++ zeros w) ++ [0]). cbn [st j_raw j_ptr]. fold (st a r n).
  pose proof (string_loop_total (length (a ++ r)) a [] r n Her) as Hs. rewrite app_nil_r in Hs.
  destruct Hs as [Hf|(k & d & r2 & -> & Hk & He2)]; [rewrite length_app; lia| |].
  - left. apply (fails_bind n None None _ _ Hf). intros js Hfl Hn. by exists js.
  - right. exists w, k, d, r2. done.
Qed.

(** ** Numbers *)

Lemma digits_loop_ok ds : forall fuel pre c r n, all_digits ds -> isdigit c = false -> (length ds < fuel)%nat ->
  digits_loop fuel (st pre (ds ++ c :: r) n) = Ok (st (pre ++ ds) (c :: r) n).
Proof.
  induction ds as [|d ds IH]; intros fuel pre c r n Hd Hc Hf; (destruct fuel as [|fuel]; [simpl in Hf; lia|]); cbn [app digits_loop].
  - rewrite peek_0. cbn [mbind outcome_bind]. by rewrite Hc, app_nil_r.
  - inversion_clear Hd as [|? ? Hdd Hd']. rewrite peek_0. cbn [mbind outcome_bind]. rewrite Hdd, advance_1, IH by (done || simpl in Hf; lia).
    by rewrite <-app_assoc.
Qed.

Lemma digits_ok pre ds c r n : all_digits ds -> isdigit c = false ->
  digits (st pre (ds ++ c :: r) n) = Ok (st (pre ++ ds) (c :: r) n).
Proof. intros Hd Hc. apply digits_loop_ok; [done|done|]. cbn [st j_raw]. rewrite !length_app. simpl. lia. Qed.

Definition number_stops (c : Z) : Prop := isdigit c = false /\ c <> 46 /\ c <> 101 /\ c <> 69.

Lemma frac_ok pre f c r n : frac_text f -> isdigit c = false -> c <> 46 ->
  number_frac (st pre (f ++ c :: r) n) = Ok (st (pre ++ f) (c :: r) n).
Proof.
  intros [->|(d & ds & -> & Hd)] Hc H46; unfold number_frac; cbn [app]; rewrite peek_0; cbn [mbind outcome_bind].
  - by rewrite (proj2 (Z.eqb_neq c 46)), app_nil_r.
  - cbn [Z.eqb Pos.eqb]. rewrite advance_1, peek_0. cbn [mbind outcome_bind]. rewrite (Forall_inv Hd). cbn [negb].
    change (d :: ds ++ c :: r) with ((d :: ds) ++ c :: r). rewrite digits_ok by done. by rewrite <-app_assoc.
Qed.

Lemma exp_ok pre e c r n : exp_text e -> number_stops c ->
  number_exp (st pre (e ++ c :: r) n) = Ok (st (pre ++ e) (c :: r) n).
Proof.
  intros [->|(x & s & d & ds & -> & Hx & Hs & Hd)] (Hc & H46 & H101 & H69); unfold number_exp; cbn [app]; rewrite peek_0; cbn [mbind outcome_bind].
  - by rewrite (proj2 (Z.eqb_neq c 101)), (proj2 (Z.eqb_neq c 69)), app_nil_r.
  - replace ((x =? 101) || (x =? 69)) with true by lia. rewrite advance_1. pose proof (Forall_inv Hd) as Hd0.
    assert (forall pre', digits (st pre' ((d :: ds) ++ c :: r) n) = Ok (st (pre' ++ d :: ds) (c :: r) n)) as Hds
      by (intros; by apply digits_ok).
    destruct Hs as [->|Hs]; cbn [app].
    + rewrite peek_0. cbn [mbind outcome_bind]. replace ((d =? 45) || (d =? 43)) with false by (unfold isdigit in Hd0; lia).
      rewrite peek_0. cbn [mbind outcome_bind]. rewrite Hd0. cbn [negb]. cbn [app] in Hds. rewrite Hds. by rewrite <-app_assoc.
    + assert (exists y, s = [y] /\ (y =? 45) || (y =? 43) = true) as (y & -> & Hy) by (destruct Hs as [->| ->]; by eexists).
      cbn [app]. rewrite peek_0. cbn [mbind outcome_bind]. rewrite Hy, advance_1, peek_0. cbn [mbind outcome_bind]. rewrite Hd0. cbn [negb].
      cbn [app] in Hds. rewrite Hds. by rewrite <-!app_assoc.
Qed.

(** A part of a number that is read, up to a byte that is no digit. *)
Definition reads (f : vjsn -> outcome vjsn) (P : list Z -> Prop) (pre rest : list Z) (n : Z) : Prop :=
  (exists js, f (st pre rest n) = Ok js /\ failed js = true /\ j_live js = n) \/
  exists t c r, rest = t ++ c :: r /\ P t /\ f (st pre rest n) = Ok (st (pre ++ t) (c :: r) n) /\ isdigit c = false /\ ends (c :: r).

Lemma digits_total pre d rest n : ends (d :: rest) -> isdigit d = true ->
  exists ds c r, d :: rest = (d :: ds) ++ c :: r /\ all_digits (d :: ds) /\
    digits (st pre (d :: rest) n) = Ok (st (pre ++ d :: ds) (c :: r) n) /\ isdigit c = false /\ ends (c :: r).
Proof.
  intros He Hd. destruct (split_at isdigit (d :: rest) He eq_refl) as (ds & c & r & E & Hds & Hc & Her).
  destruct ds as [|d' ds]; [simpl in E; congruence|]. injection E as <- ->. exists ds, c, r.
  split; [done|]. split; [done|]. split; [|done]. by apply (digits_ok pre (d :: ds)).
Qed.

Lemma reads_nil f (P : list Z -> Prop) pre c r n : ends (c :: r) -> isdigit c = false -> P [] ->
  f (st pre (c :: r) n) = Ok (st pre (c :: r) n) -> reads f P pre (c :: r) n.
Proof. intros He Hc HP Hf. right. exists [], c, r. rewrite app_nil_r. done. Qed.

Lemma frac_total pre c r n : ends (c :: r) -> isdigit c = false -> reads number_frac frac_text pre (c :: r) n.
Proof.
  intros He Hc. destruct (decide (c = 46)) as [->|H46].
  - unfold reads, number_frac. rewrite peek_0. cbn [mbind outcome_bind Z.eqb Pos.eqb]. rewrite advance_1.
    apply ends_cons in He as [_ He]; [|by left].
    destruct r as [|d r]; [by apply ends_ne in He|]. rewrite peek_0. cbn [mbind outcome_bind].
    destruct (isdigit d) eqn:Ed; cbn [negb]; [right|left; by eexists].
    destruct (digits_total (pre ++ [46]) d r n He Ed) as (ds & c2 & r2 & E & Hds & -> & Hc2 & He2).
    exists (46 :: d :: ds), c2, r2. rewrite E, <-app_assoc. split; [done|]. split; [right; by exists d, ds|done].
  - apply reads_nil; [done|done|by left|]. unfold number_frac. rewrite peek_0. cbn [mbind outcome_bind]. by rewrite (proj2 (Z.eqb_neq c 46)).
Qed.

Lemma exp_total pre c r n : ends (c :: r) -> isdigit c = false -> reads number_exp exp_text pre (c :: r) n.
Proof.
  intros He Hc. destruct ((c =? 101) || (c =? 69)) eqn:Ex.
  - unfold reads, number_exp. rewrite peek_0. cbn [mbind outcome_bind]. rewrite Ex, advance_1.
    apply ends_cons in He as [_ He]; [|left; lia]. destruct r as [|d r]; [by apply ends_ne in He|]. rewrite peek_0. cbn [mbind outcome_bind].
    assert (exists s d2 r2, d :: r = s ++ d2 :: r2 /\ (s = [] \/ s = [45] \/ s = [43]) /\ ends (d2 :: r2) /\
      (if (d =? 45) || (d =? 43) then advance (st (pre ++ [c]) (d :: r) n) 1 else st (pre ++ [c]) (d :: r) n) =
        st ((pre ++ [c]) ++ s) (d2 :: r2) n) as (s & d2 & r2 & -> & Hs & He2 & ->).
    { destruct ((d =? 45) || (d =? 43)) eqn:Es; [|exists [], d, r; rewrite app_nil_r; auto].
      apply ends_cons in He as [_ He]; [|left; lia]. destruct r as [|d2 r2]; [by apply ends_ne in He|].
      exists [d], d2, r2. rewrite advance_1. split; [done|]. split; [|done]. right.
      apply orb_true_iff in Es as [->%Z.eqb_eq| ->%Z.eqb_eq]; auto. }
    rewrite peek_0. cbn [mbind outcome_bind]. destruct (isdigit d2) eqn:Ed; cbn [negb]; [right|left; by eexists].
    destruct (digits_total ((pre ++ [c]) ++ s) d2 r2 n He2 Ed) as (ds & c2 & r3 & -> & Hds & -> & Hc2 & He3).
    exists (c :: s ++ d2 :: ds), c2, r3. rewrite <-!app_assoc. cbn [app]. rewrite <-app_assoc. split; [done|].
    split; [|done]. right. exists c, s, d2, ds. split; [done|]. split; [lia|done].
  - apply reads_nil; [done|done|by left|]. unfold number_exp. rewrite peek_0. cbn [mbind outcome_bind]. by rewrite Ex.
Qed.

Definition num_val (b : nat) : vjsn_val := mk_val VJSN_NUMBER None None [] (Some b) None.

Lemma val_new_st pre rest n t : vjsn_val_new (st pre rest n) t = (st pre rest (n + 1), mk_val t None None [] None None).
Proof. done. Qed.

(** What [vjsn_number] does after the sign. *)
Definition after_sign (v : vjsn_val) (js : vjsn) : outcome (vjsn * option vjsn_val) :=
  c ← peek js 0;
  if negb (isdigit c) then Ok (set_err js bad_number, Some v)
  else
    z ← zero_first js;
    if z : bool then Ok (set_err js bad_number, Some v)
    else
      js ← digits js;
      js ← number_frac js;
      if failed js then Ok (js, Some v) else js ← number_exp js; Ok (js, Some v).

Lemma number_sign pre c r n :
  vjsn_number (st pre (c :: r) n) = after_sign (num_val (length pre))
    (if c =? 45 then st (pre ++ [c]) r (n + 1) else st pre (c :: r) (n + 1)).
Proof.
  unfold vjsn_number. rewrite val_new_st. cbv iota beta. cbn [st j_ptr]. fold (st pre (c :: r) (n + 1)).
  rewrite peek_0. cbn [mbind outcome_bind]. by rewrite advance_1.
Qed.

Lemma int_ok pre i c r n : int_text i -> isdigit c = false ->
  exists d q, i ++ c :: r = d :: q /\ isdigit d = true /\ zero_first (st pre (d :: q) n) = Ok false /\
    digits (st pre (d :: q) n) = Ok (st (pre ++ i) (c :: r) n).
Proof.
  intros Hi Hc. unfold zero_first. destruct Hi as [->|(d & ds & -> & Hd & Hds)].
  - exists 48, (c :: r). split; [done|]. split; [done|]. split; [|by apply (digits_ok pre [48]); [constructor|]].
    rewrite peek_0. cbn [mbind outcome_bind Z.eqb Pos.eqb]. rewrite peek_1. cbn [mbind outcome_bind]. by rewrite Hc.
  - assert (isdigit d = true) as Hdd by (unfold isdigit; lia).
    exists d, (ds ++ c :: r). split; [done|]. split; [done|]. split; [|by apply (digits_ok pre (d :: ds)); [constructor|]].
    rewrite peek_0. cbn [mbind outcome_bind]. by rewrite (proj2 (Z.eqb_neq d 48)) by lia.
Qed.

(** The first byte of a fraction or an exponent. *)
Lemma part_head (P : list Z -> Prop) t c r : (P = frac_text \/ P = exp_text) -> P t -> isdigit c = false ->
  exists d q, t ++ c :: r = d :: q /\ isdigit d = false.
Proof.
  intros [-> | ->] Hp Hc.
  - destruct Hp as [->|(x & ds & -> & _)]; eauto.
  - destruct Hp as [->|(x & s & d & ds & -> & Hx & _)]; [eauto|]. exists x, ((s ++ d :: ds) ++ c :: r).
    split; [done|]. by destruct Hx as [->| ->].
Qed.

Lemma number_ok pre t c r n : number_text t -> number_stops c ->
  vjsn_number (st pre (t ++ c :: r) n) = Ok (st (pre ++ t) (c :: r) (n + 1), Some (num_val (length pre))).
Proof.
  intros (m & i & f & e & -> & Hm & Hi & Hf & He) Hc. pose proof (proj1 Hc) as Hcd. rewrite <-!app_assoc.
  destruct (part_head exp_text e c r (or_intror eq_refl) He Hcd) as (x & q & Ee & Hx).
  destruct (part_head frac_text f x q (or_introl eq_refl) Hf Hx) as (y & q2 & Ef & Hy).
  assert (vjsn_number (st pre (m ++ i ++ y :: q2) n) =
     after_sign (num_val (length pre)) (st (pre ++ m) (i ++ y :: q2) (n + 1))) as E1.
  { destruct (int_ok (pre ++ m) i y q2 n Hi Hy) as (d & q3 & Ei & Hd & _).
    destruct Hm as [->| ->]; cbn [app]; rewrite Ei, number_sign; [|done].
    rewrite (proj2 (Z.eqb_neq d 45)) by (unfold isdigit in Hd; lia). by rewrite app_nil_r. }
  rewrite Ee, Ef, E1. destruct (int_ok (pre ++ m) i y q2 (n + 1) Hi Hy) as (d & q3 & -> & Hd & Hz & Hds).
  unfold after_sign. rewrite peek_0. cbn [mbind outcome_bind]. rewrite Hd. cbn [negb]. rewrite Hz. cbn [mbind outcome_bind].
  rewrite Hds. cbn [mbind outcome_bind]. rewrite <-Ef.
  assert (number_frac (st ((pre ++ m) ++ i) (f ++ x :: q) (n + 1)) = Ok (st (((pre ++ m) ++ i) ++ f) (x :: q) (n + 1))) as ->.
  { destruct (decide (x = 46)) as [->|Hx46]; [|by apply frac_ok]. exfalso.
    destruct He as [->|(x' & s & d' & ds & -> & Hx' & _)]; injection Ee as Ex _; [by destruct Hc as (_ & ? & _)|lia]. }
  cbn [mbind outcome_bind failed st j_err]. fold (st (((pre ++ m) ++ i) ++ f) (x :: q) (n + 1)). rewrite <-Ee, exp_ok by done.
  cbn [mbind outcome_bind]. by rewrite <-!app_assoc.
Qed.

Lemma after_sign_total v pre rest n : ends rest ->
  fails n (Some v) (after_sign v (st pre rest n)) \/
  exists i f e c r, rest = (i ++ f ++ e) ++ c :: r /\ int_text i /\ frac_text f /\ exp_text e /\ ends (c :: r) /\
    after_sign v (st pre rest n) = Ok (st (pre ++ i ++ f ++ e) (c :: r) n, Some v).
Proof.
  intros He. destruct rest as [|d rest]; [by apply ends_ne in He|]. unfold after_sign. rewrite peek_0. cbn [mbind outcome_bind].
  destruct (isdigit d) eqn:Ed; cbn [negb]; [|left; by eexists].
  destruct (digits_total pre d rest n He Ed) as (ds & c & r & E & Hds & Edg & Hc & Her). apply Forall_cons in Hds as [_ Hds].
  assert (zero_first (st pre (d :: rest) n) = Ok true \/ zero_first (st pre (d :: rest) n) = Ok false /\ int_text (d :: ds)) as [Hz|[Hz Hi]].
  { unfold zero_first. rewrite peek_0. cbn [mbind outcome_bind]. injection E as ->. destruct (Z.eqb_spec d 48) as [->|].
    - destruct ds as [|d2 ds]; cbn [app]; rewrite peek_1; cbn [mbind outcome_bind]; [right|left].
      + rewrite Hc. split; [done|by left].
      + by rewrite (Forall_inv Hds).
    - right. split; [done|]. right. exists d, ds. unfold isdigit in Ed. split; [done|]. split; [lia|done]. }
  { rewrite Hz. left. by eexists. }
  rewrite Hz. cbn [mbind outcome_bind]. rewrite Edg. cbn [mbind outcome_bind].
  destruct (frac_total (pre ++ d :: ds) c r n Her Hc) as [(js & -> & Hf & Hn)|(f & c2 & r2 & E2 & Hft & -> & Hc2 & He2)].
  { left. cbn [mbind outcome_bind]. rewrite Hf. by exists js. }
  cbn [mbind outcome_bind failed st j_err]. fold (st ((pre ++ d :: ds) ++ f) (c2 :: r2) n).
  destruct (exp_total ((pre ++ d :: ds) ++ f) c2 r2 n He2 Hc2) as [(js & -> & Hf & Hn)|(e & c3 & r3 & E3 & Het & -> & Hc3 & He3)].
  { left. by exists js. }
  right. exists (d :: ds), f, e, c3, r3. rewrite E, E2, E3, <-!app_assoc. done.
Qed.

Lemma number_total pre rest n : ends rest ->
  fails (n + 1) (Some (num_val (length pre))) (vjsn_number (st pre rest n)) \/
  exists t c r, rest = t ++ c :: r /\ number_text t /\ t <> [] /\ ends (c :: r) /\
    vjsn_number (st pre rest n) = Ok (st (pre ++ t) (c :: r) (n + 1), Some (num_val (length pre))).
Proof.
  intros He. destruct rest as [|d rest]; [by apply ends_ne in He|]. rewrite number_sign.
  assert (exists m q, d :: rest = m ++ q /\ (m = [] \/ m = [45]) /\ ends q /\
    (if d =? 45 then st (pre ++ [d]) rest (n + 1) else st pre (d :: rest) (n + 1)) = st (pre ++ m) q (n + 1)) as (m & q & -> & Hm & Hq & ->).
  { destruct (Z.eqb_spec d 45) as [->|Hd]; [|exists [], (d :: rest); rewrite app_nil_r; auto].
    exists [45], rest. split; [done|]. split; [by right|]. split; [|done]. apply (ends_cons 45); [done|by left]. }
  destruct (after_sign_total (num_val (length pre)) (pre ++ m) q (n + 1) Hq) as [Hf|(i & f & e & c & r & -> & Hi & Hft & Het & Her & ->)]; [by left|right].
  exists (m ++ i ++ f ++ e), c, r. rewrite <-!app_assoc. split; [done|]. split; [by exists m, i, f, e|].
  split; [|done]. destruct Hm as [->| ->]; [|done]. by destruct Hi as [->|(x & ds & -> & _)].
Qed.
