(* ===== verification/VjsnSafe.v ===== *)
(** * The parser on any input (lib/vjsn.c)

    On any bytes [vjsn_parse_end] stays within its copy and terminates.  What
    it accepts is a JSON text, and when it refuses, nothing it allocated is
    left. *)

From Stdlib Require Import ZArith Lia ZifyBool.
From stdpp Require Import base option numbers list.
From S2P Require Import Prelude CStr Vjsn VjsnSpec VjsnStr.
#[local] Open Scope Z_scope.

(** ** Counting objects *)

Fixpoint val_size (v : vjsn_val) : Z :=
  (fix sizes l := match l with [] => 0 | c :: l => val_size c + sizes l end) (vj_children v) + 1.
Definition sizes (l : list vjsn_val) : Z := foldr (fun c s => val_size c + s) 0 l.
Definition opt_size (v : option vjsn_val) : Z := match v with Some v => val_size v | None => 0 end.

Lemma vjsn_val_nested (P : vjsn_val -> Prop)
    (HP : forall t n ne cs v e, Forall P cs -> P (mk_val t n ne cs v e)) : forall v, P v.
Proof.
  fix IH 1. intros [t n ne cs v e]. apply HP. induction cs as [|c cs IHcs]; constructor; [apply IH|exact IHcs].
Qed.

Lemma val_size_children v : val_size v = sizes (vj_children v) + 1.
Proof. by destruct v. Qed.

Lemma delete_size v : forall live, vjsn_val_delete live v = live - val_size v.
Proof.
  induction v as [t n ne cs v e Hcs] using vjsn_val_nested. intros live. rewrite val_size_children. cbn [vj_children vjsn_val_delete].
  enough (forall live, (fix children live l := match l with [] => live | jsve :: l => children (vjsn_val_delete live jsve) l end)
    live cs = live - sizes cs) as -> by lia.
  induction Hcs as [|c cs Hc _ IH]; intros l; [simpl; lia|]. rewrite IH, Hc. simpl. lia.
Qed.

Lemma delete_val_live js v : j_live (delete_val js v) = j_live js - opt_size v.
Proof. destruct v; simpl; [apply delete_size|lia]. Qed.

Lemma delete_val_failed js v : failed (delete_val js v) = failed js.
Proof. by destruct v. Qed.

Lemma add_child_size jsv c : val_size (add_child jsv c) = val_size jsv + val_size c.
Proof.
  rewrite (val_size_children (add_child _ _)), (val_size_children jsv). cbn [add_child vj_children].
  enough (forall l, sizes (l ++ [c]) = sizes l + val_size c) as -> by lia.
  intros l. induction l as [|d l IH]; unfold sizes in *; cbn [app foldr]; lia.
Qed.

Lemma set_name_size jsv se : val_size (set_name jsv se) = val_size jsv.
Proof. by rewrite !val_size_children. Qed.

(** ** The loops *)

(** What [vjsn_value] returns: an error, or the value of a text after white
    space.  In both cases every object is accounted for. *)
Definition value_post (pre rest : list Z) (n : Z) (o : outcome (vjsn * option vjsn_val)) : Prop :=
  exists js r, o = Ok (js, r) /\
    (failed js = true /\ j_live js = n + opt_size r \/
     exists w t t' rest' v j, r = Some v /\ rest = w ++ t ++ rest' /\ ws w /\ value_text t j /\ t <> [] /\
       length t' = length (w ++ t) /\ js = st (pre ++ t') rest' (n + val_size v) /\ ends rest').

(** What the loops return in front of the bracket [e]. *)
Definition loop_post {A} (text : list Z -> list A -> Prop) (e : Z) (pre rest : list Z) (n : Z) (jsv : vjsn_val)
    (o : outcome (vjsn * vjsn_val * bool)) : Prop :=
  exists js jsv' ok, o = Ok (js, jsv', ok) /\ j_live js = n + val_size jsv' - val_size jsv /\
    (ok = false /\ failed js = true \/
     ok = true /\ exists t t' r l, rest = t ++ e :: r /\ text t l /\ length t' = length t /\
       js = st (pre ++ t') (e :: r) (j_live js) /\ ends (e :: r)).

Lemma loop_fails {A} (text : list Z -> list A -> Prop) e pre rest n jsv js jsv' :
  failed js = true -> j_live js = n + val_size jsv' - val_size jsv -> loop_post text e pre rest n jsv (Ok (js, jsv', false)).
Proof. intros Hf Hl. exists js, jsv', false. auto. Qed.

(** White space in front of something. *)
Lemma ws_total pre rest n : ends rest -> exists w c r, rest = w ++ c :: r /\ ws w /\ is_ws c = false /\ ends (c :: r) /\
  vjsn_skip_ws (st pre rest n) = Ok (st (pre ++ zeros w) (c :: r) n).
Proof.
  intros He. destruct (split_at is_ws rest He eq_refl) as (w & c & r & -> & Hw%ws_is_ws & Hc & Her).
  exists w, c, r. split; [done|]. split; [done|]. split; [done|]. split; [done|]. by apply skip_ws_ok.
Qed.

Lemma zeros_length w : length (zeros w) = length w.
Proof. apply length_replicate. Qed.

(** A value, white space, and the next byte. *)
Section value.
Context (value : vjsn -> outcome (vjsn * option vjsn_val)) (m : nat).
Context (value_ok : forall pre rest n, ends rest -> (length rest <= m)%nat -> value_post pre rest n (value (st pre rest n))).

Lemma array_loop_total fuel : forall pre rest n jsv, ends rest -> (length rest <= fuel)%nat -> (length rest <= m)%nat ->
  loop_post items_text 93 pre rest n jsv (array_loop value fuel (st pre rest n) jsv).
Proof.
  induction fuel as [|fuel IH]; intros pre rest n jsv He Hf Hm; [destruct rest; [by apply ends_ne in He|simpl in Hf; lia]|].
  cbn [array_loop]. destruct (value_ok pre rest n He Hm) as (js & r & -> & [[Hfl Hl]|Hv]); cbn [mbind outcome_bind].
  { rewrite Hfl. apply loop_fails; [by rewrite delete_val_failed|rewrite delete_val_live; lia]. }
  destruct Hv as (w & t & t' & rest' & v & j & -> & -> & Hw & Ht & Hne & Hl & -> & He').
  cbn [failed st j_err]. fold (st (pre ++ t') rest' (n + val_size v)).
  destruct (ws_total (pre ++ t') rest' (n + val_size v) He') as (w2 & c & r & -> & Hw2 & Hc & Her & ->).
  cbn [mbind outcome_bind]. rewrite peek_0. cbn [mbind outcome_bind].
  destruct (Z.eqb_spec c 93) as [->|H93].
  - eexists _, _, true. split; [done|]. split; [rewrite add_child_size; simpl; lia|]. right. split; [done|].
    exists (w ++ t ++ w2), (t' ++ zeros w2), r, [j]. rewrite <-!app_assoc. split; [done|].
    split; [by constructor|]. split; [rewrite !length_app, zeros_length; rewrite length_app in Hl; lia|done].
  - destruct (decide (c = 44)) as [->|H44].
    + rewrite expect_ok. cbn [mbind outcome_bind negb]. apply ends_cons in Her as [_ Her]; [|by left].
      assert (length r < length (w ++ t ++ w2 ++ 44%Z :: r))%nat by (rewrite !length_app; simpl; lia).
      destruct (IH (((pre ++ t') ++ zeros w2) ++ [0]) r (n + val_size v) (add_child jsv v) Her ltac:(lia) ltac:(lia))
        as (js & jsv' & ok & -> & Hlive & Hpost).
      exists js, jsv', ok. split; [done|]. rewrite add_child_size in Hlive. split; [lia|].
      destruct Hpost as [Hfl|(-> & t2 & t2' & r2 & l & -> & Ht2 & Hl2 & Ejs & He2)]; [by left|right]. split; [done|].
      exists (w ++ t ++ w2 ++ 44 :: t2), (t' ++ zeros w2 ++ [0] ++ t2'), r2, (j :: l).
      split; [by rewrite <-!app_assoc|]. split; [by constructor|]. rewrite Ejs, <-!app_assoc. split; [|done].
      rewrite !length_app, zeros_length. rewrite length_app in Hl. simpl. lia.
    + rewrite expect_no by done. cbn [mbind outcome_bind negb]. apply loop_fails; [done|]. rewrite add_child_size. simpl. lia.
Qed.

Lemma object_loop_total fuel : forall pre rest n jsv, ends rest -> (length rest <= fuel)%nat -> (length rest <= m)%nat ->
  loop_post members_text 125 pre rest n jsv (object_loop value fuel (st pre rest n) jsv).
Proof.
  induction fuel as [|fuel IH]; intros pre rest n jsv He Hf Hm; [destruct rest; [by apply ends_ne in He|simpl in Hf; lia]|].
  cbn [object_loop]. destruct (string_total pre rest n He) as [(js & -> & Hfl & Hl)|(w & k & d & r & -> & Hw & Hk & Her)]; cbn [mbind outcome_bind].
  { rewrite Hfl. apply loop_fails; [done|lia]. }
  destruct (string_ok pre w k d r n Hw Hk) as (t1' & b & -> & Hl1 & _). cbn [mbind outcome_bind failed st j_err]. fold (st (pre ++ t1') r n).
  destruct (ws_total (pre ++ t1') r n Her) as (w' & c & r' & -> & Hw' & _ & Her' & ->). cbn [mbind outcome_bind].
  destruct (decide (c = 58)) as [->|H58]; [|rewrite expect_no by done; cbn [mbind outcome_bind negb]; apply loop_fails; [done|simpl; lia]].
  rewrite expect_ok. cbn [mbind outcome_bind negb]. apply ends_cons in Her' as [_ Her']; [|by left].
  repeat (rewrite length_app in Hf, Hm; cbn [length] in Hf, Hm). set (pre2 := ((pre ++ t1') ++ zeros w') ++ [0]).
  destruct (value_ok pre2 r' n Her' ltac:(lia)) as (js & rv & -> & [[Hfl Hl]|Hv]); cbn [mbind outcome_bind].
  { rewrite Hfl. apply loop_fails; [by rewrite delete_val_failed|rewrite delete_val_live; lia]. }
  destruct Hv as (w1 & t & t' & rest' & v & j & -> & -> & Hw1 & Ht & Hne & Hl & -> & He').
  cbn [failed st j_err]. fold (st (pre2 ++ t') rest' (n + val_size v)).
  destruct (ws_total (pre2 ++ t') rest' (n + val_size v) He') as (w2 & c & r2 & -> & Hw2 & Hc & Her2 & ->).
  cbn [mbind outcome_bind]. rewrite peek_0. cbn [mbind outcome_bind].
  assert (length (t1' ++ zeros w' ++ [0] ++ t' ++ zeros w2) = length (w ++ 34 :: k ++ 34 :: w' ++ 58 :: w1 ++ t ++ w2)) as Hlen.
  { repeat (rewrite length_app; cbn [length]). rewrite !zeros_length, Hl1, Hl, length_app. lia. }
  destruct (Z.eqb_spec c 125) as [->|H125].
  - eexists _, _, true. split; [done|]. split; [rewrite add_child_size, set_name_size; simpl; lia|]. right. split; [done|].
    exists (w ++ 34 :: k ++ 34 :: w' ++ 58 :: w1 ++ t ++ w2), (t1' ++ zeros w' ++ [0] ++ t' ++ zeros w2), r2, [(d, j)]. subst pre2.
    split; [by repeat (rewrite <-app_assoc; cbn [app])|]. split; [by constructor|]. split; [done|]. split; [by rewrite <-!app_assoc|done].
  - destruct (decide (c = 44)) as [->|H44].
    + rewrite expect_ok. cbn [mbind outcome_bind negb]. apply ends_cons in Her2 as [_ Her2]; [|by left].
      repeat (rewrite length_app in Hf, Hm; cbn [length] in Hf, Hm).
      destruct (IH (((pre2 ++ t') ++ zeros w2) ++ [0]) r2 (n + val_size v) (add_child jsv (set_name v (b, b + length d)%nat)) Her2 ltac:(lia) ltac:(lia))
        as (js & jsv' & ok & -> & Hlive & Hpost).
      exists js, jsv', ok. split; [done|]. rewrite add_child_size, set_name_size in Hlive. split; [lia|].
      destruct Hpost as [Hfl|(-> & t2 & t2' & r3 & l & -> & Ht2 & Hl2 & Ejs & He2)]; [by left|right]. split; [done|].
      exists (w ++ 34 :: k ++ 34 :: w' ++ 58 :: w1 ++ t ++ w2 ++ 44 :: t2), ((t1' ++ zeros w' ++ [0] ++ t' ++ zeros w2) ++ [0] ++ t2'), r3, ((d, j) :: l).
      split; [by repeat (rewrite <-app_assoc; cbn [app])|]. split; [by constructor|]. rewrite Ejs. subst pre2. split; [|by rewrite <-!app_assoc].
      rewrite (length_app (_ ++ _)), Hlen. repeat (rewrite length_app; cbn [length]). lia.
    + rewrite expect_no by done. cbn [mbind outcome_bind negb]. apply loop_fails; [done|]. rewrite add_child_size, set_name_size. simpl. lia.
Qed.

(** Between the brackets [a] and [e]. *)
Lemma bracket_total {A} (text : list Z -> list A -> Prop) (loop : nat -> vjsn -> vjsn_val -> outcome (vjsn * vjsn_val * bool))
    (type : vjsn_type) (mk : list A -> json) a e pre rest n :
  (forall pre rest n jsv, ends rest -> (length rest <= m)%nat ->
     loop_post text e pre rest n jsv (loop (length (pre ++ rest)) (st pre rest n) jsv)) ->
  (forall w t l, ws w -> text t l -> text (w ++ t) l) ->
  (forall w, ws w -> value_text (a :: w ++ [e]) (mk [])) -> (forall t l, text t l -> value_text (a :: t ++ [e]) (mk l)) ->
  ends rest -> (length rest <= m)%nat -> e <> 0 -> is_ws e = false ->
  value_post pre (a :: rest) n
    ('(js, ok) ← VJSN_EXPECT (st pre (a :: rest) n) a;
     if negb ok then Ok (js, None)
     else
       let '(js, jsv) := vjsn_val_new js type in
       js ← vjsn_skip_ws js;
       c ← peek js 0;
       '(js, jsv, ok) ← (if negb (c =? e) then loop (length (j_raw js)) js jsv else Ok (js, jsv, true));
       if negb ok then Ok (js, Some jsv)
       else '(js, _) ← VJSN_EXPECT js e; Ok (js, Some jsv)).
Proof.
  intros Hloop Hws Hnil Hcons He Hm Hz Hwe. rewrite expect_ok. cbn [mbind outcome_bind negb]. rewrite val_new_st. cbv iota beta.
  set (v0 := mk_val type None None [] None None). assert (val_size v0 = 1) as Hv0 by by rewrite val_size_children.
  destruct (ws_total (pre ++ [0]) rest (n + 1) He) as (w & c & r & -> & Hw & Hc & Her & ->). cbn [mbind outcome_bind].
  rewrite peek_0. cbn [mbind outcome_bind]. set (pre2 := (pre ++ [0]) ++ zeros w). destruct (Z.eqb_spec c e) as [->|Hce]; cbn [negb mbind outcome_bind].
  - rewrite expect_ok. cbn [mbind outcome_bind]. eexists _, _. split; [done|]. right.
    exists [], (a :: w ++ [e]), ([0] ++ zeros w ++ [0]), r, v0, (mk []). cbn [app]. rewrite <-app_assoc.
    split; [done|]. split; [done|]. split; [constructor|]. split; [by apply Hnil|]. split; [done|].
    split; [simpl; rewrite !length_app, zeros_length; done|]. subst pre2. rewrite Hv0, <-!app_assoc. split; [done|].
    by apply (ends_cons e); [|left].
  - rewrite length_app in Hm. destruct (Hloop pre2 (c :: r) (n + 1) v0 Her ltac:(simpl in *; lia)) as (js & jsv & ok & E & Hl & Hpost).
    cbn [st j_raw]. fold (st pre2 (c :: r) (n + 1)). rewrite E. cbn [mbind outcome_bind].
    destruct Hpost as [[-> Hfl]|(-> & t & t' & r2 & l & Ht & Htx & Hlt & Ejs & He2)]; cbn [negb].
    + eexists _, _. split; [done|]. left. split; [done|]. simpl. lia.
    + rewrite Ejs, expect_ok. cbn [mbind outcome_bind]. eexists _, _. split; [done|]. right.
      exists [], (a :: (w ++ t) ++ [e]), ([0] ++ zeros w ++ t' ++ [0]), r2, jsv, (mk l). cbn [app]. rewrite Ht, <-!app_assoc.
      split; [done|]. split; [done|]. split; [constructor|]. split; [rewrite app_assoc; by apply Hcons, Hws|]. split; [done|].
      split; [simpl; rewrite !length_app, zeros_length; simpl; lia|]. subst pre2. rewrite <-!app_assoc.
      split; [f_equal; lia|]. by apply (ends_cons e); [|left].
Qed.
End value.

Lemma items_ws w t l : ws w -> items_text t l -> items_text (w ++ t) l.
Proof. intros Hw []; rewrite app_assoc; constructor; try done; by apply Forall_app. Qed.

Lemma members_ws w t l : ws w -> members_text t l -> members_text (w ++ t) l.
Proof. intros Hw []; rewrite app_assoc; constructor; try done; by apply Forall_app. Qed.

(** ** Values *)

Lemma strneq_total s : forall p, ends p -> Forall (fun c => c <> 0) s ->
  strneq p s = Ok false \/ exists r, p = s ++ r /\ ends r /\ strneq p s = Ok true.
Proof.
  induction s as [|c s IH]; intros p He Hs; [right; by exists p|]. apply Forall_cons in Hs as [Hc Hs].
  destruct p as [|d p]; [by apply ends_ne in He|]. cbn [strneq]. destruct (Z.eqb_spec d c) as [->|]; [|by left].
  apply ends_cons in He as [_ He]; [|by left]. destruct (IH p He Hs) as [->|(r & -> & Hr & ->)]; [by left|right; by exists r].
Qed.

Lemma at_word_st pre rest n s : at_word (st pre rest n) s = strneq rest s.
Proof. unfold at_word, st. simpl. by rewrite drop_app_length. Qed.

Lemma word_post pre s r n type j : value_text s j -> s <> [] -> ends r ->
  value_post pre (s ++ r) n (word_value (st pre (s ++ r) n) (length s) type).
Proof.
  intros Hs Hne He. unfold word_value. rewrite advance_st, val_new_st. eexists _, _. split; [done|]. right.
  eexists [], s, s, r, _, j. split; [done|]. split; [done|]. split; [constructor|]. done.
Qed.

Lemma string_value_total pre rest n : ends rest -> hd 0 rest = 34 -> value_post pre rest n (vjsn_string_value (st pre rest n)).
Proof.
  intros He H34. unfold vjsn_string_value. rewrite val_new_st. cbv iota beta.
  destruct (string_total pre rest (n + 1) He) as [(js & -> & Hfl & Hl)|(w & k & d & r & -> & Hw & Hk & Her)]; cbn [mbind outcome_bind].
  { rewrite Hfl. eexists _, _. split; [done|]. left. split; [done|]. by rewrite Hl. }
  destruct (string_ok pre w k d r (n + 1) Hw Hk) as (t' & b & -> & Hl & _). cbn [mbind outcome_bind].
  eexists _, _. split; [done|]. right. exists w, (34 :: k ++ [34]), t', r, (mk_val VJSN_STRING None None [] (Some b) (Some (b + length d)%nat)), (JString d).
  split; [done|]. cbn [app]. rewrite <-app_assoc. split; [done|]. split; [done|]. split; [by constructor|]. split; [done|].
  split; [|done]. repeat (rewrite length_app; cbn [length]). lia.
Qed.

Lemma number_value_total pre rest n : ends rest -> value_post pre rest n (vjsn_number (st pre rest n)).
Proof.
  intros He. destruct (number_total pre rest n He) as [(js & -> & Hfl & Hl)|(t & c & r & -> & Ht & Hne & Her & ->)].
  - eexists _, _. split; [done|]. left. done.
  - eexists _, _. split; [done|]. right. eexists [], t, t, (c :: r), _, (JNumber t). split; [done|]. split; [done|].
    split; [constructor|]. split; [by constructor|]. done.
Qed.

(** White space in front of the text of a value. *)
Lemma post_ws pre w c r n o : ws w -> value_post (pre ++ zeros w) (c :: r) n o -> is_ws c = false ->
  value_post pre (w ++ c :: r) n o.
Proof.
  intros Hw (js & rv & -> & Hpost) Hc. exists js, rv. split; [done|]. destruct Hpost as [Hf|(w2 & t & t' & r2 & v & j & -> & E & Hw2 & Ht & Hne & Hl & -> & He)]; [by left|right].
  destruct w2 as [|d w2]; [|injection E as <- _; apply Forall_inv, white_is_ws in Hw2; congruence].
  exists w, t, (zeros w ++ t'), r2, v, j. rewrite E. split; [done|]. split; [done|]. split; [done|]. split; [done|]. split; [done|].
  split; [rewrite !length_app, zeros_length; simpl in Hl; lia|]. by rewrite app_assoc.
Qed.

Lemma value_total fuel : forall pre rest n, ends rest -> (length rest <= fuel)%nat ->
  value_post pre rest n (vjsn_value fuel (st pre rest n)).
Proof.
  induction fuel as [|fuel IH]; intros pre rest n He Hf; [destruct rest; [by apply ends_ne in He|simpl in Hf; lia]|].
  cbn [vjsn_value assertC failed st j_err negb mbind outcome_bind]. fold (st pre rest n).
  destruct (ws_total pre rest n He) as (w & c & r & -> & Hw & Hc & Her & ->). cbn [mbind outcome_bind].
  rewrite peek_0. cbn [mbind outcome_bind]. apply post_ws; [done| |done]. set (p := pre ++ zeros w). rewrite length_app in Hf. cbn [length] in Hf.
  destruct (Z.eqb_spec c 123) as [->|H1].
  { apply ends_cons in Her as [_ Her]; [|by left].
    apply (bracket_total fuel members_text (object_loop (vjsn_value fuel)) VJSN_OBJECT JObject 123 125 p r n); [|exact members_ws|by constructor..|done|lia|done|done].
    intros p' r' n' jsv He' Hl. apply object_loop_total with (m := fuel); [exact IH|done|rewrite length_app; lia|lia]. }
  destruct (Z.eqb_spec c 91) as [->|H2].
  { apply ends_cons in Her as [_ Her]; [|by left].
    apply (bracket_total fuel items_text (array_loop (vjsn_value fuel)) VJSN_ARRAY JArray 91 93 p r n); [|exact items_ws|by constructor..|done|lia|done|done].
    intros p' r' n' jsv He' Hl. apply array_loop_total with (m := fuel); [exact IH|done|rewrite length_app; lia|lia]. }
  destruct (Z.eqb_spec c 34) as [->|H3]; [by apply string_value_total|].
  rewrite !at_word_st.
  destruct (strneq_total [116; 114; 117; 101] (c :: r) Her) as [->|(r1 & E & Hr1 & ->)]; [by repeat constructor| |]; cbn [mbind outcome_bind]; cycle 1.
  { rewrite E. apply (word_post p [116; 114; 117; 101] r1 n VJSN_TRUE JTrue); [constructor|done|done]. }
  destruct (strneq_total [102; 97; 108; 115; 101] (c :: r) Her) as [->|(r1 & E & Hr1 & ->)]; [by repeat constructor| |]; cbn [mbind outcome_bind]; cycle 1.
  { rewrite E. apply (word_post p [102; 97; 108; 115; 101] r1 n VJSN_FALSE JFalse); [constructor|done|done]. }
  destruct (strneq_total [110; 117; 108; 108] (c :: r) Her) as [->|(r1 & E & Hr1 & ->)]; [by repeat constructor| |]; cbn [mbind outcome_bind]; cycle 1.
  { rewrite E. apply (word_post p [110; 117; 108; 108] r1 n VJSN_NULL JNull); [constructor|done|done]. }
  destruct ((c =? 45) || isdigit c); [by apply number_value_total|].
  eexists _, _. split; [done|]. left. split; [done|]. simpl. lia.
Qed.

(** A text: a value with white space around it. *)
Definition json_text (s : list Z) (j : json) : Prop :=
  exists w t w', s = w ++ t ++ w' /\ ws w /\ value_text t j /\ ws w'.

Lemma parse_total_ok s (Hs : Bytes s) :
  exists r, vjsn_parse_end s = Ok r /\
    match r with
    | inl (_, live) => live = 0
    | inr (js, v) => j_live js = val_size v + 2 /\ exists j, json_text s j
    end.
Proof.
  unfold vjsn_parse_end. cbn [j_raw]. change (mk_vjsn (s ++ [0]) 0 None 2) with (st [] (s ++ [0]) 2).
  assert (ends (s ++ [0])) as He by by exists s.
  destruct (value_total (length (s ++ [0])) [] (s ++ [0]) 2 He ltac:(done)) as (js & rv & -> & [[Hfl Hl]|Hv]); cbn [mbind outcome_bind].
  { destruct js as [raw ptr [e|] live]; [|done]. cbn [j_err]. eexists. split; [done|]. cbn. unfold vjsn_delete.
    rewrite delete_val_live. simpl in *. lia. }
  destruct Hv as (w & t & t' & rest & v & j & -> & E & Hw & Ht & Hne & Hl & -> & He'). cbn [app] in *. cbn [st j_err]. fold (st t' rest (2 + val_size v)).
  destruct (ws_total t' rest (2 + val_size v) He') as (w2 & c & r & -> & Hw2 & Hc & Her & ->). cbn [mbind outcome_bind].
  destruct (Nat.eqb_spec (j_ptr (st (t' ++ zeros w2) (c :: r) (2 + val_size v))) (length s)) as [Ep|_]; cbn [negb].
  - eexists. split; [done|]. cbn. split; [lia|]. exists j, w, t, w2.
    assert (r = []) as ->.
    { apply (f_equal length) in E. cbn [st j_ptr] in Ep. rewrite !length_app in *. rewrite zeros_length in Ep. simpl in *. by apply nil_length_inv; lia. }
    rewrite app_assoc, app_assoc in E. apply app_inj_2 in E as [-> _]; [|done]. by rewrite <-app_assoc.
  - eexists. split; [done|]. cbn. unfold vjsn_delete. rewrite delete_val_live. simpl. lia.
Qed.

Lemma parse_sound s js v : Bytes s -> vjsn_parse_end s = Ok (inr (js, v)) -> exists j, json_text s j.
Proof. intros Hs E. destruct (parse_total_ok s Hs) as (r & E' & Hr). rewrite E in E'. injection E' as <-. apply Hr. Qed.

(** C31: on any bytes the parser returns: it never leaves its copy of the text,
    never runs out of the depth it has, and fails no assertion.  If it returns
    a value, the bytes are a JSON text and the objects left are the value's and
    its own two; if it returns an error, everything has been freed. *)
Theorem vjsn_parse_total s (Hs : Bytes s) :
  exists r, vjsn_parse_end s = Ok r /\
    match r with
    | inl (_, live) => live = 0
    | inr (js, v) => j_live js = val_size v + 2 /\ exists j, json_text s j
    end.
Proof. by apply parse_total_ok. Qed.

Lemma vjsn_parse_total_witness : exists r, vjsn_parse_end [91; 49; 44] = Ok r.
Proof. destruct (vjsn_parse_total [91; 49; 44]) as (r & E & _); [by repeat constructor|by exists r]. Defined.
