(* ===== verification/VjsnParse.v ===== *)
(** * Every JSON text is parsed (lib/vjsn.c)

    A text of the grammar is accepted, and the tree that is returned stands for
    the value of the text: [rep raw v j] reads the strings and numbers of [v]
    out of the copy. *)

From Stdlib Require Import ZArith Lia ZifyBool.
From stdpp Require Import base option numbers list.
From S2P Require Import Prelude CStr Vjsn VjsnSpec VjsnStr VjsnSafe.
#[local] Open Scope Z_scope.

(** ** What a tree stands for *)

(** The name of a member. *)
Definition named (raw : list Z) (v : vjsn_val) (d : list Z) : Prop :=
  exists b, vj_name v = Some b /\ vj_name_e v = Some (b + length d)%nat /\ holds raw b d.

Inductive rep (raw : list Z) : vjsn_val -> json -> Prop :=
  | rep_true n e : rep raw (mk_val VJSN_TRUE n e [] None None) JTrue
  | rep_false n e : rep raw (mk_val VJSN_FALSE n e [] None None) JFalse
  | rep_null n e : rep raw (mk_val VJSN_NULL n e [] None None) JNull
  | rep_number n e b t : holds raw b t -> rep raw (mk_val VJSN_NUMBER n e [] (Some b) None) (JNumber t)
  | rep_string n e b d : holds raw b d ->
      rep raw (mk_val VJSN_STRING n e [] (Some b) (Some (b + length d)%nat)) (JString d)
  | rep_array n e cs l : Forall2 (rep raw) cs l -> rep raw (mk_val VJSN_ARRAY n e cs None None) (JArray l)
  | rep_object n e cs l : Forall2 (fun c kj => named raw c kj.1 /\ rep raw c kj.2) cs l ->
      rep raw (mk_val VJSN_OBJECT n e cs None None) (JObject l).

Definition member (raw : list Z) (c : vjsn_val) (kj : list Z * json) : Prop := named raw c kj.1 /\ rep raw c kj.2.

(** The parser only writes behind what it has read, so that what a value holds
    stays, once the byte behind it has become NUL. *)
Definition kept (pre : list Z) (P : list Z -> Prop) : Prop := forall x, P (pre ++ 0 :: x).

Lemma holds_kept pre b d y : holds pre b d -> kept (pre ++ y) (fun raw => holds raw b d).
Proof. intros H x. rewrite <-app_assoc. by apply holds_app. Qed.

Lemma rep_named raw v j se : rep raw v j -> rep raw (set_name v se) j.
Proof. intros []; by constructor. Qed.

Lemma kept_grow pre P w y : kept pre P -> kept (pre ++ zeros w ++ 0 :: y) P.
Proof.
  intros H x. rewrite <-app_assoc. destruct w as [|c w]; cbn [zeros length replicate app]; [apply H|].
  apply H.
Qed.

Lemma kept_later pre P y : kept pre P -> kept (pre ++ 0 :: y) P.
Proof. apply (kept_grow pre P [] y). Qed.

(** ** Parsing the parts *)

(** The byte behind a text ends it. *)
Definition follows (c : Z) : Prop := is_ws c = true \/ c = 44 \/ c = 93 \/ c = 125 \/ c = 0.

Lemma follows_number c : follows c -> number_stops c.
Proof.
  intros Hc. assert (c <> 46 /\ c <> 101 /\ c <> 69 /\ isdigit c = false) as (? & ? & ? & ?); [|done].
  unfold follows, is_ws, isdigit in *. lia.
Qed.

Lemma follows_ws w c r : ws w -> follows c -> exists d q, w ++ c :: r = d :: q /\ follows d.
Proof.
  intros Hw Hc. destruct w as [|d w]; [by exists c, r|]. exists d, (w ++ c :: r). split; [done|]. left. apply white_is_ws. by inversion Hw.
Qed.

(** The first byte of a value. *)
Lemma value_head t j : value_text t j -> exists c q, t = c :: q /\ is_ws c = false /\ c <> 93.
Proof.
  intros [| | |t' Ht| | | | |]; try (by eexists _, _); cycle 0.
  destruct Ht as (m & i & f & e & -> & Hm & Hi & _). destruct Hm as [->| ->]; [|by eexists _, _].
  destruct Hi as [->|(c & ds & -> & Hc & _)]; [by eexists _, _|]. eexists _, _. split; [done|]. unfold is_ws. lia.
Qed.

Lemma kept_ws pre P w : kept pre P -> kept (pre ++ zeros w) P.
Proof.
  intros H x. rewrite <-app_assoc. destruct w as [|c w]; cbn [zeros length replicate app]; apply H.
Qed.

Lemma sizes_cons c cs : sizes (c :: cs) = val_size c + sizes cs.
Proof. done. Qed.
Lemma sizes_nil : sizes [] = 0.
Proof. done. Qed.

(** What [vjsn_value] does with a text in front of [rest]. *)
Definition parsed (fuel : nat) (t : list Z) (j : json) : Prop :=
  forall w pre c r n, ws w -> follows c ->
  exists t' v, vjsn_value fuel (st pre (w ++ t ++ c :: r) n) = Ok (st (pre ++ t') (c :: r) (n + val_size v), Some v) /\
    length t' = length (w ++ t) /\ kept (pre ++ t') (fun raw => rep raw v j).

(** The loops, up to the bracket [e]. *)
Definition looped {A} (e : Z) (loop : nat -> vjsn -> vjsn_val -> outcome (vjsn * vjsn_val * bool))
    (R : list Z -> vjsn_val -> A -> Prop) (t : list Z) (l : list A) : Prop :=
  forall k pre r n jsv, (length t <= k)%nat ->
  exists t' cs, loop k (st pre (t ++ e :: r) n) jsv = Ok (st (pre ++ t') (e :: r) (n + sizes cs), foldl add_child jsv cs, true) /\
    length t' = length t /\ kept (pre ++ t') (fun raw => Forall2 (R raw) cs l).

Section loops.
Context (fuel : nat).

(** An item and the white space behind it. *)
Lemma item_ok w1 t v w2 d q pre n : ws w1 -> parsed fuel t v -> ws w2 -> follows d -> is_ws d = false ->
  exists t' c, vjsn_value fuel (st pre (w1 ++ t ++ w2 ++ d :: q) n) = Ok (st (pre ++ t') (w2 ++ d :: q) (n + val_size c), Some c) /\
    vjsn_skip_ws (st (pre ++ t') (w2 ++ d :: q) (n + val_size c)) = Ok (st ((pre ++ t') ++ zeros w2) (d :: q) (n + val_size c)) /\
    length (t' ++ zeros w2) = length (w1 ++ t ++ w2) /\ kept (pre ++ t') (fun raw => rep raw c v).
Proof.
  intros Hw1 Ht Hw2 Hd Hdw. destruct (follows_ws w2 d q Hw2 Hd) as (d' & q' & E & Hd').
  destruct (Ht w1 pre d' q' n Hw1 Hd') as (t' & c & Ev & Hl & Hk). rewrite <-E in Ev.
  exists t', c. split; [done|]. split; [by apply skip_ws_ok|]. split; [|done].
  rewrite !length_app, zeros_length. rewrite length_app in Hl. lia.
Qed.

Lemma array_one w1 t v w2 : ws w1 -> parsed fuel t v -> (1 <= length t)%nat -> ws w2 ->
  looped 93 (array_loop (vjsn_value fuel)) rep (w1 ++ t ++ w2) [v].
Proof.
  intros Hw1 Ht Hlt Hw2 k pre r n jsv Hk. rewrite !length_app in Hk. destruct k as [|k]; [lia|]. rewrite <-!app_assoc.
  destruct (item_ok w1 t v w2 93 r pre n Hw1 Ht Hw2) as (t' & c & Ev & Es & Hl & Hr); [by right; right; left|done|].
  cbn [array_loop]. rewrite Ev. cbn [mbind outcome_bind failed st j_err]. fold (st (pre ++ t') (w2 ++ 93 :: r) (n + val_size c)). rewrite Es.
  cbn [mbind outcome_bind]. rewrite peek_0. cbn [mbind outcome_bind Z.eqb Pos.eqb].
  exists (t' ++ zeros w2), [c]. rewrite sizes_cons, sizes_nil, Z.add_0_r, app_assoc. split; [done|]. split; [done|].
  intros x. constructor; [|constructor]. by apply (kept_ws _ (fun raw => rep raw c v)).
Qed.

Lemma array_more w1 t v w2 r0 l : ws w1 -> parsed fuel t v -> (1 <= length t)%nat -> ws w2 ->
  looped 93 (array_loop (vjsn_value fuel)) rep r0 l ->
  looped 93 (array_loop (vjsn_value fuel)) rep (w1 ++ t ++ w2 ++ 44 :: r0) (v :: l).
Proof.
  intros Hw1 Ht Hlt Hw2 Hrec k pre r n jsv Hk. repeat (rewrite length_app in Hk; cbn [length] in Hk). destruct k as [|k]; [lia|].
  repeat (rewrite <-app_assoc; cbn [app]).
  destruct (item_ok w1 t v w2 44 (r0 ++ 93 :: r) pre n Hw1 Ht Hw2) as (t' & c & Ev & Es & Hl & Hr); [by right; left|done|].
  cbn [array_loop]. rewrite Ev. cbn [mbind outcome_bind failed st j_err]. fold (st (pre ++ t') (w2 ++ 44 :: r0 ++ 93 :: r) (n + val_size c)). rewrite Es.
  cbn [mbind outcome_bind]. rewrite peek_0. cbn [mbind outcome_bind Z.eqb Pos.eqb]. rewrite expect_ok. cbn [mbind outcome_bind negb].
  destruct (Hrec k (((pre ++ t') ++ zeros w2) ++ [0]) r (n + val_size c) (add_child jsv c)) as (t2 & cs & -> & Hl2 & Hr2); [lia|].
  exists ((t' ++ zeros w2) ++ 0 :: t2), (c :: cs). rewrite sizes_cons, Z.add_assoc. cbn [foldl].
  assert (pre ++ (t' ++ zeros w2) ++ 0 :: t2 = (((pre ++ t') ++ zeros w2) ++ [0]) ++ t2) as Epre by by rewrite <-!app_assoc.
  rewrite Epre. split; [done|]. split; [rewrite length_app, Hl; repeat (rewrite length_app; cbn [length]); lia|].
  intros x. constructor; [|by apply Hr2]. rewrite <-Epre.
  assert (pre ++ (t' ++ zeros w2) ++ 0 :: t2 = (pre ++ t') ++ zeros w2 ++ 0 :: t2) as -> by by rewrite <-!app_assoc.
  by apply (kept_grow _ (fun raw => rep raw c v)).
Qed.

(** The name of a member, and its colon. *)
Definition key_text (w k w' : list Z) : list Z := w ++ 34 :: k ++ 34 :: w' ++ [58].

Lemma key_ok w k d w' pre r n : ws w -> string_text k d -> ws w' ->
  exists t' b t2', vjsn_string (st pre (key_text w k w' ++ r) n) = Ok (st (pre ++ t') (w' ++ 58 :: r) n, Some (b, b + length d)%nat) /\
    vjsn_skip_ws (st (pre ++ t') (w' ++ 58 :: r) n) = Ok (st ((pre ++ t') ++ zeros w') (58 :: r) n) /\
    t2' = t' ++ zeros w' ++ [0] /\ length t2' = length (key_text w k w') /\ holds (pre ++ t2') b d.
Proof.
  intros Hw Hk Hw'. unfold key_text. replace ((w ++ 34 :: k ++ 34 :: w' ++ [58]) ++ r) with (w ++ 34 :: k ++ 34 :: w' ++ 58 :: r)
    by (by repeat (rewrite <-app_assoc; cbn [app])).
  destruct (string_ok pre w k d (w' ++ 58 :: r) n Hw Hk) as (t' & b & E & Hl & Hh).
  exists t', b, (t' ++ zeros w' ++ [0]). split; [done|]. split; [by apply skip_ws_ok|]. split; [done|].
  split; [repeat (rewrite length_app; cbn [length]); rewrite zeros_length; lia|]. rewrite app_assoc. by apply holds_app.
Qed.

(** One member, up to the byte behind it. *)
Lemma member_ok w k d w' w1 t v w2 b0 q pre n jsv loop :
  ws w -> string_text k d -> ws w' -> ws w1 -> parsed fuel t v -> ws w2 -> follows b0 -> is_ws b0 = false ->
  exists t' c, length t' = length (key_text w k w' ++ w1 ++ t ++ w2) /\
    kept (pre ++ t') (fun raw => member raw c (d, v)) /\
    (forall y, kept (pre ++ t' ++ 0 :: y) (fun raw => member raw c (d, v))) /\
    object_loop (vjsn_value fuel) (S loop) (st pre ((key_text w k w' ++ w1 ++ t ++ w2) ++ b0 :: q) n) jsv =
      (if b0 =? 125 then Ok (st (pre ++ t') (b0 :: q) (n + val_size c), add_child jsv c, true)
       else '(js, ok) ← VJSN_EXPECT (st (pre ++ t') (b0 :: q) (n + val_size c)) 44;
         if negb ok then Ok (js, add_child jsv c, false)
         else object_loop (vjsn_value fuel) loop js (add_child jsv c)).
Proof.
  intros Hw Hk Hw' Hw1 Ht Hw2 Hb Hbw. rewrite <-!app_assoc.
  destruct (key_ok w k d w' pre (w1 ++ t ++ w2 ++ b0 :: q) n Hw Hk Hw') as (t1 & b & t2 & Es & Ew & Et2 & Hl2 & Hh).
  destruct (item_ok w1 t v w2 b0 q (pre ++ t2) n Hw1 Ht Hw2 Hb Hbw) as (t' & c & Ev & Ew2 & Hl & Hr).
  set (se := (b, b + length d)%nat).
  assert (kept ((pre ++ t2) ++ t') (fun raw => member raw (set_name c se) (d, v))) as Hm.
  { intros x. split; [|by apply rep_named, Hr]. exists b. split; [done|]. split; [done|]. rewrite <-!(app_assoc (pre ++ t2)). by apply holds_app. }
  exists (t2 ++ t' ++ zeros w2), (set_name c se). split; [rewrite !length_app in *; lia|].
  split; [rewrite !app_assoc; by apply kept_ws|]. split.
  { intros y. assert (pre ++ (t2 ++ t' ++ zeros w2) ++ 0 :: y = ((pre ++ t2) ++ t') ++ zeros w2 ++ 0 :: y) as -> by by rewrite <-!app_assoc.
    by apply kept_grow. }
  cbn [object_loop]. rewrite Es. cbn [mbind outcome_bind failed st j_err]. fold (st (pre ++ t1) (w' ++ 58 :: w1 ++ t ++ w2 ++ b0 :: q) n). rewrite Ew.
  cbn [mbind outcome_bind]. rewrite expect_ok. cbn [mbind outcome_bind negb].
  assert (((pre ++ t1) ++ zeros w') ++ [0] = pre ++ t2) as -> by by rewrite Et2, <-!app_assoc.
  rewrite Ev. cbn [mbind outcome_bind failed st j_err]. fold (st ((pre ++ t2) ++ t') (w2 ++ b0 :: q) (n + val_size c)). rewrite Ew2.
  cbn [mbind outcome_bind]. rewrite peek_0. cbn [mbind outcome_bind]. by rewrite set_name_size, !app_assoc.
Qed.

Lemma object_one w k d w' w1 t v w2 : ws w -> string_text k d -> ws w' -> ws w1 -> parsed fuel t v -> ws w2 ->
  looped 125 (object_loop (vjsn_value fuel)) member (key_text w k w' ++ w1 ++ t ++ w2) [(d, v)].
Proof.
  intros Hw Hk Hw' Hw1 Ht Hw2 j pre r n jsv Hj. destruct j as [|j]; [destruct w; simpl in Hj; lia|].
  destruct (member_ok w k d w' w1 t v w2 125 r pre n jsv j) as (t' & c & Hl & Hkc & _ & ->); [done..|by right; right; right; left|done|].
  cbn [Z.eqb Pos.eqb]. exists t', [c]. rewrite sizes_cons, sizes_nil, Z.add_0_r. split; [done|]. split; [done|].
  intros x. constructor; [apply Hkc|constructor].
Qed.

Lemma object_more w k d w' w1 t v w2 r0 l : ws w -> string_text k d -> ws w' -> ws w1 -> parsed fuel t v -> ws w2 ->
  looped 125 (object_loop (vjsn_value fuel)) member r0 l ->
  looped 125 (object_loop (vjsn_value fuel)) member ((key_text w k w' ++ w1 ++ t ++ w2) ++ 44 :: r0) ((d, v) :: l).
Proof.
  intros Hw Hk Hw' Hw1 Ht Hw2 Hrec j pre r n jsv Hj. rewrite length_app in Hj. cbn [length] in Hj.
  destruct j as [|j]; [lia|]. rewrite <-app_assoc. cbn [app].
  destruct (member_ok w k d w' w1 t v w2 44 (r0 ++ 125 :: r) pre n jsv j) as (t' & c & Hl & _ & Hkc & ->); [done..|by right; left|done|].
  cbn [Z.eqb Pos.eqb]. rewrite expect_ok. cbn [mbind outcome_bind negb].
  destruct (Hrec j ((pre ++ t') ++ [0]) r (n + val_size c) (add_child jsv c)) as (t2 & cs & -> & Hl2 & Hr2); [lia|].
  exists (t' ++ 0 :: t2), (c :: cs). rewrite sizes_cons, Z.add_assoc. cbn [foldl].
  assert (((pre ++ t') ++ [0]) ++ t2 = pre ++ t' ++ 0 :: t2) as Epre by by rewrite <-!app_assoc.
  rewrite Epre in *. split; [done|]. split; [rewrite !(length_app _ (_ :: _)); cbn [length]; lia|].
  intros x. constructor; [apply Hkc|apply Hr2].
Qed.
End loops.

(** ** Objects, arrays and the other values *)

Lemma foldl_children cs : forall t n e l v ve,
  foldl add_child (mk_val t n e l v ve) cs = mk_val t n e (l ++ cs) v ve.
Proof.
  induction cs as [|c cs IH]; intros; cbn [foldl]; [by rewrite app_nil_r|].
  unfold add_child at 2. cbn [vj_type vj_name vj_name_e vj_children vj_value vj_value_e]. by rewrite IH, <-app_assoc.
Qed.

(** Between the brackets [a] and [e]: white space, or the items behind it. *)
Lemma bracket_ok {A} (R : list Z -> vjsn_val -> A -> Prop) (loop : nat -> vjsn -> vjsn_val -> outcome (vjsn * vjsn_val * bool))
    type a e w t (l : list A) pre r n :
  ws w -> is_ws e = false -> (t = [] /\ l = [] \/ (exists c q, t = c :: q /\ is_ws c = false /\ c <> e) /\ looped e loop R t l) ->
  exists t' cs,
    ('(js, ok) ← VJSN_EXPECT (st pre (a :: (w ++ t) ++ e :: r) n) a;
     if negb ok then Ok (js, None)
     else
       let '(js, jsv) := vjsn_val_new js type in
       js ← vjsn_skip_ws js;
       c ← peek js 0;
       '(js, jsv, ok) ← (if negb (c =? e) then loop (length (j_raw js)) js jsv else Ok (js, jsv, true));
       if negb ok then Ok (js, Some jsv)
       else '(js, _) ← VJSN_EXPECT js e; Ok (js, Some jsv)) =
    Ok (st (pre ++ t') r (n + (sizes cs + 1)), Some (mk_val type None None cs None None)) /\
    length t' = length (a :: (w ++ t) ++ [e]) /\ kept (pre ++ t') (fun raw => Forall2 (R raw) cs l).
Proof.
  intros Hw He Ht. rewrite expect_ok. cbn [mbind outcome_bind negb]. rewrite val_new_st. cbv iota beta. rewrite <-app_assoc.
  destruct Ht as [[-> ->]|[(c & q & -> & Hc & Hce) Hloop]].
  - cbn [app]. rewrite skip_ws_ok by done. cbn [mbind outcome_bind]. rewrite peek_0. cbn [mbind outcome_bind]. rewrite Z.eqb_refl.
    cbn [negb mbind outcome_bind]. rewrite expect_ok. cbn [mbind outcome_bind]. exists ([0] ++ zeros w ++ [0]), [].
    rewrite sizes_nil, <-!app_assoc. split; [do 3 f_equal; lia|]. split; [simpl; rewrite !length_app, zeros_length; done|].
    intros x. constructor.
  - cbn [app]. rewrite skip_ws_ok by done. cbn [mbind outcome_bind]. rewrite peek_0. cbn [mbind outcome_bind].
    rewrite (proj2 (Z.eqb_neq c e)) by done. cbn [negb]. cbn [st j_raw]. set (pre2 := (pre ++ [0]) ++ zeros w).
    fold (st pre2 (c :: q ++ e :: r) (n + 1)).
    destruct (Hloop (length (pre2 ++ c :: q ++ e :: r)) pre2 r (n + 1) (mk_val type None None [] None None)) as (t' & cs & E & Hl & Hk).
    { simpl. rewrite !length_app. simpl. rewrite length_app. lia. }
    cbn [app] in E. rewrite E. cbn [mbind outcome_bind negb]. rewrite expect_ok. cbn [mbind outcome_bind]. rewrite foldl_children.
    exists ([0] ++ zeros w ++ t' ++ [0]), cs. subst pre2. rewrite <-!app_assoc. split; [do 3 f_equal; lia|]. split.
    + simpl. rewrite !length_app, zeros_length, Hl. simpl. rewrite length_app. simpl. lia.
    + intros x. pose proof (kept_later _ _ [] Hk x) as Hx. cbn beta in Hx. by rewrite <-!app_assoc in Hx |- *.
Qed.

(** A value whose first byte is in front. *)
Lemma parsed_here fuel t j : (exists c q, t = c :: q /\ is_ws c = false) ->
  (forall pre c r n, follows c ->
   exists t' v, vjsn_value fuel (st pre (t ++ c :: r) n) = Ok (st (pre ++ t') (c :: r) (n + val_size v), Some v) /\
     length t' = length t /\ kept (pre ++ t') (fun raw => rep raw v j)) -> parsed fuel t j.
Proof.
  intros (c0 & q & -> & Hc0) H w pre c r n Hw Hc. destruct (H (pre ++ zeros w) c r n Hc) as (t' & v & E & Hl & Hk).
  exists (zeros w ++ t'), v. rewrite (app_assoc pre (zeros w)). split; [|split; [by rewrite !length_app, zeros_length, Hl|done]]. rewrite <-E.
  destruct fuel as [|fuel]; [done|]. cbn [vjsn_value]. cbn [assertC failed st j_err negb mbind outcome_bind].
  fold (st pre (w ++ (c0 :: q) ++ c :: r) n). fold (st (pre ++ zeros w) ((c0 :: q) ++ c :: r) n). cbn [app].
  by rewrite skip_ws_ok, skip_ws_none by done.
Qed.

Lemma value_step fuel pre c r n : is_ws c = false ->
  vjsn_value (S fuel) (st pre (c :: r) n) =
    (if c =? 123 then vjsn_object (vjsn_value fuel) (st pre (c :: r) n)
     else if c =? 91 then vjsn_array (vjsn_value fuel) (st pre (c :: r) n)
     else if c =? 34 then vjsn_string_value (st pre (c :: r) n)
     else
       t ← at_word (st pre (c :: r) n) [116; 114; 117; 101];
       if t : bool then word_value (st pre (c :: r) n) 4 VJSN_TRUE
       else
         f ← at_word (st pre (c :: r) n) [102; 97; 108; 115; 101];
         if f : bool then word_value (st pre (c :: r) n) 5 VJSN_FALSE
         else
           m ← at_word (st pre (c :: r) n) [110; 117; 108; 108];
           if m : bool then word_value (st pre (c :: r) n) 4 VJSN_NULL
           else if (c =? 45) || isdigit c then vjsn_number (st pre (c :: r) n)
           else Ok (set_err (st pre (c :: r) n) unrecognized, None)).
Proof.
  intros Hc. cbn [vjsn_value]. cbn [assertC failed st j_err negb mbind outcome_bind]. fold (st pre (c :: r) n).
  rewrite skip_ws_none by done. cbn [mbind outcome_bind]. rewrite peek_0. done.
Qed.

Lemma word_ok pre s r n type : word_value (st pre (s ++ r) n) (length s) type =
  Ok (st (pre ++ s) r (n + 1), Some (mk_val type None None [] None None)).
Proof. unfold word_value. by rewrite advance_st, val_new_st. Qed.

(** A word that starts with another byte. *)
Lemma other_word pre c r n d s : c <> d -> at_word (st pre (c :: r) n) (d :: s) = Ok false.
Proof. intros Hc. rewrite at_word_st. cbn [strneq]. by rewrite (proj2 (Z.eqb_neq c d)). Qed.

Lemma word_parsed fuel s type j : s = [116; 114; 117; 101] /\ type = VJSN_TRUE /\ j = JTrue \/
    s = [102; 97; 108; 115; 101] /\ type = VJSN_FALSE /\ j = JFalse \/ s = [110; 117; 108; 108] /\ type = VJSN_NULL /\ j = JNull ->
  parsed (S fuel) s j.
Proof.
  intros Hs. apply parsed_here; [destruct Hs as [(-> & _)|[(-> & _)|(-> & _)]]; by eexists _, _|].
  intros pre c r n Hc. exists s, (mk_val type None None [] None None). split; [|split; [done|]].
  - change (val_size (mk_val type None None [] None None)) with 1. rewrite <-word_ok.
    destruct Hs as [(-> & -> & _)|[(-> & -> & _)|(-> & -> & _)]]; cbn [app]; rewrite value_step by done; cbn [Z.eqb Pos.eqb];
      rewrite !at_word_st; cbn [strneq Z.eqb Pos.eqb mbind outcome_bind]; done.
  - intros x. destruct Hs as [(_ & -> & ->)|[(_ & -> & ->)|(_ & -> & ->)]]; constructor.
Qed.

Lemma string_parsed fuel t d : string_text t d -> parsed (S fuel) (34 :: t ++ [34]) (JString d).
Proof.
  intros Ht. apply parsed_here; [by eexists _, _|]. intros pre c r n Hc.
  destruct (string_ok pre [] t d (c :: r) (n + 1)) as (t' & b & E & Hl & Hh); [constructor|done|].
  exists t', (mk_val VJSN_STRING None None [] (Some b) (Some (b + length d)%nat)). split; [|split].
  - cbn [app]. rewrite value_step by done. cbn [Z.eqb Pos.eqb]. unfold vjsn_string_value. rewrite val_new_st. cbv iota beta.
    rewrite <-app_assoc. cbn [app] in *. rewrite E. done.
  - rewrite Hl. simpl. rewrite length_app. simpl. lia.
  - intros x. constructor. by apply holds_app.
Qed.

Lemma number_parsed fuel t : number_text t -> parsed (S fuel) t (JNumber t).
Proof.
  intros Ht. destruct (value_head t (JNumber t)) as (d & q & -> & Hd & _); [by constructor|]. apply parsed_here; [by eexists _, _|].
  intros pre c r n Hc. exists (d :: q), (num_val (length pre)). split; [|split; [done|]].
  - change (val_size (num_val (length pre))) with 1. rewrite <-(number_ok pre _ c r n Ht) by by apply follows_number.
    assert ((d =? 45) || isdigit d = true) as Hdd.
    { destruct Ht as (m & i & f & e & E & Hm & Hi & _). destruct Hm as [->| ->]; [|by injection E as -> _].
      destruct Hi as [->|(c' & ds & -> & Hc' & _)]; injection E as -> _; [done|]. unfold isdigit. lia. }
    cbn [app]. rewrite value_step by done.
    assert (d <> 123 /\ d <> 91 /\ d <> 34 /\ d <> 116 /\ d <> 102 /\ d <> 110) as (H1 & H2 & H3 & H4 & H5 & H6)
      by (unfold isdigit in Hdd; lia).
    rewrite (proj2 (Z.eqb_neq d 123)), (proj2 (Z.eqb_neq d 91)), (proj2 (Z.eqb_neq d 34)) by done.
    rewrite !other_word by done. cbn [mbind outcome_bind]. by rewrite Hdd.
  - intros x. constructor. exists pre, x. by rewrite <-app_assoc.
Qed.

Lemma array_parsed fuel w t l : ws w ->
  (t = [] /\ l = [] \/ (exists c q, t = c :: q /\ is_ws c = false /\ c <> 93) /\ looped 93 (array_loop (vjsn_value fuel)) rep t l) ->
  parsed (S fuel) (91 :: (w ++ t) ++ [93]) (JArray l).
Proof.
  intros Hw Ht. apply parsed_here; [by eexists _, _|]. intros pre c r n Hc.
  destruct (bracket_ok rep (array_loop (vjsn_value fuel)) VJSN_ARRAY 91 93 w t l pre (c :: r) n Hw eq_refl Ht) as (t' & cs & E & Hl & Hk).
  exists t', (mk_val VJSN_ARRAY None None cs None None). rewrite val_size_children. cbn [vj_children]. split; [|split; [done|]].
  - cbn [app]. rewrite value_step by done. cbn [Z.eqb Pos.eqb]. rewrite <-app_assoc. exact E.
  - intros x. constructor. apply Hk.
Qed.

Lemma object_parsed fuel w t l : ws w ->
  (t = [] /\ l = [] \/ (exists c q, t = c :: q /\ is_ws c = false /\ c <> 125) /\ looped 125 (object_loop (vjsn_value fuel)) member t l) ->
  parsed (S fuel) (123 :: (w ++ t) ++ [125]) (JObject l).
Proof.
  intros Hw Ht. apply parsed_here; [by eexists _, _|]. intros pre c r n Hc.
  destruct (bracket_ok member (object_loop (vjsn_value fuel)) VJSN_OBJECT 123 125 w t l pre (c :: r) n Hw eq_refl Ht) as (t' & cs & E & Hl & Hk).
  exists t', (mk_val VJSN_OBJECT None None cs None None). rewrite val_size_children. cbn [vj_children]. split; [|split; [done|]].
  - cbn [app]. rewrite value_step by done. cbn [Z.eqb Pos.eqb]. rewrite <-app_assoc. exact E.
  - intros x. constructor. apply Hk.
Qed.

(** ** All texts *)

(** The items behind their white space. *)
Definition items_looped {A} (e : Z) (loop : nat -> nat -> vjsn -> vjsn_val -> outcome (vjsn * vjsn_val * bool))
    (R : list Z -> vjsn_val -> A -> Prop) (t : list Z) (l : list A) : Prop :=
  exists w t0, t = w ++ t0 /\ ws w /\ (exists c q, t0 = c :: q /\ is_ws c = false /\ c <> e) /\
    forall fuel w', (length t <= fuel)%nat -> ws w' -> looped e (loop fuel) R (w' ++ t0) l.

Lemma texts_parsed :
  (forall t j, value_text t j -> forall fuel, (length t <= fuel)%nat -> parsed fuel t j) /\
  (forall t l, items_text t l -> items_looped 93 (fun f => array_loop (vjsn_value f)) rep t l) /\
  (forall t l, members_text t l -> items_looped 125 (fun f => object_loop (vjsn_value f)) member t l).
Proof.
  apply json_text_ind.
  1-3: intros fuel Hf; destruct fuel as [|fuel]; [simpl in Hf; lia|]; eapply word_parsed; eauto 6.
  - intros t Ht fuel Hf. destruct fuel as [|fuel]; [|by apply number_parsed].
    destruct (value_head t (JNumber t)) as (d & q & -> & _); [by constructor|simpl in Hf; lia].
  - intros t d Ht fuel Hf. destruct fuel as [|fuel]; [simpl in Hf; lia|by apply string_parsed].
  - intros w Hw fuel Hf. destruct fuel as [|fuel]; [simpl in Hf; lia|].
    rewrite <-(app_nil_r w). apply array_parsed; auto.
  - intros t l Ht (w & t0 & -> & Hw & H0 & IH) fuel Hf. destruct fuel as [|fuel]; [simpl in Hf; lia|].
    apply array_parsed; [done|]. right. split; [done|]. apply (IH fuel []); [|constructor].
    simpl in Hf. rewrite length_app in Hf. simpl in Hf. lia.
  - intros w Hw fuel Hf. destruct fuel as [|fuel]; [simpl in Hf; lia|].
    rewrite <-(app_nil_r w). apply object_parsed; auto.
  - intros t l Ht (w & t0 & -> & Hw & H0 & IH) fuel Hf. destruct fuel as [|fuel]; [simpl in Hf; lia|].
    apply object_parsed; [done|]. right. split; [done|]. apply (IH fuel []); [|constructor].
    simpl in Hf. rewrite length_app in Hf. simpl in Hf. lia.
  - intros w1 t v w2 Hw1 Ht IH Hw2. destruct (value_head t v Ht) as (c & q & E & Hc & Hc93). exists w1, (t ++ w2).
    split; [done|]. split; [done|]. split; [rewrite E; by eexists _, _|]. intros fuel w' Hf Hw'. rewrite !length_app in Hf.
    apply array_one; [done|apply IH; lia|rewrite E; simpl; lia|done].
  - intros w1 t v w2 r l Hw1 Ht IH Hw2 Hr (w & t0 & -> & Hw & _ & IHr). destruct (value_head t v Ht) as (c & q & E & Hc & Hc93).
    exists w1, (t ++ w2 ++ 44 :: w ++ t0). split; [done|]. split; [done|]. split; [rewrite E; by eexists _, _|].
    intros fuel w' Hf Hw'. repeat (rewrite length_app in Hf; cbn [length] in Hf).
    apply array_more; [done|apply IH; lia|rewrite E; simpl; lia|done|]. apply IHr; [rewrite length_app; lia|done].
  - intros w k d w' w1 t v w2 Hw Hk Hw' Hw1 Ht IH Hw2. exists w, (34 :: k ++ 34 :: w' ++ 58 :: w1 ++ t ++ w2).
    split; [done|]. split; [done|]. split; [by eexists _, _|]. intros fuel w0 Hf Hw0. repeat (rewrite length_app in Hf; cbn [length] in Hf).
    replace (w0 ++ 34 :: k ++ 34 :: w' ++ 58 :: w1 ++ t ++ w2) with (key_text w0 k w' ++ w1 ++ t ++ w2)
      by (unfold key_text; by repeat (rewrite <-app_assoc; cbn [app])).
    apply object_one; try done. apply IH. lia.
  - intros w k d w' w1 t v w2 r l Hw Hk Hw' Hw1 Ht IH Hw2 Hr (wr & t0 & -> & Hwr & _ & IHr).
    exists w, (34 :: k ++ 34 :: w' ++ 58 :: w1 ++ t ++ w2 ++ 44 :: wr ++ t0).
    split; [done|]. split; [done|]. split; [by eexists _, _|]. intros fuel w0 Hf Hw0. repeat (rewrite length_app in Hf; cbn [length] in Hf).
    replace (w0 ++ 34 :: k ++ 34 :: w' ++ 58 :: w1 ++ t ++ w2 ++ 44 :: wr ++ t0) with ((key_text w0 k w' ++ w1 ++ t ++ w2) ++ 44 :: wr ++ t0)
      by (unfold key_text; by repeat (rewrite <-app_assoc; cbn [app])).
    apply object_more; try done; [apply IH; lia|]. apply IHr; [rewrite length_app; lia|done].
Qed.

Lemma parse_complete s j : json_text s j ->
  exists js v, vjsn_parse_end s = Ok (inr (js, v)) /\ rep (j_raw js) v j.
Proof.
  intros (w & t & w' & -> & Hw & Ht & Hw'). unfold vjsn_parse_end. cbn [j_raw].
  set (s := w ++ t ++ w'). change (mk_vjsn (s ++ [0]) 0 None 2) with (st [] (s ++ [0]) 2).
  destruct (follows_ws w' 0 [] Hw') as (d & q & E & Hd); [by right; right; right; right|].
  assert (s ++ [0] = w ++ t ++ d :: q) as Es by (subst s; rewrite <-!app_assoc; by rewrite E). rewrite Es.
  destruct (proj1 texts_parsed t j Ht (length (w ++ t ++ d :: q)) ltac:(rewrite !length_app; lia) w [] d q 2 Hw Hd)
    as (t' & v & -> & Hl & Hk). cbn [mbind outcome_bind st j_err]. fold (st ([] ++ t') (d :: q) (2 + val_size v)).
  rewrite <-E, skip_ws_ok by done. cbn [mbind outcome_bind st j_ptr].
  assert (length (([] ++ t') ++ zeros w') = length s) as ->
    by (subst s; rewrite !length_app, zeros_length; rewrite length_app in Hl; simpl; lia).
  rewrite Nat.eqb_refl. cbn [negb]. eexists _, v. split; [done|].
  exact (kept_ws _ _ w' Hk []).
Qed.

(** C30: [vjsn_parse_end] accepts exactly the JSON texts, and the tree it returns
    stands for the value: members and items in their order, and every name,
    string and number with its bytes in the copy and a NUL behind them.  The
    grammar is RFC 8259's, over bytes, but for three things: bytes from 128 on are
    taken as they are, UTF-8 or not; surrogates must be paired; and a pair stands
    for [read_pair], which is 65536 too small in the even planes, from U+20000 on. *)
Theorem vjsn_parse_json s (Hs : Bytes s) :
  (forall j, json_text s j -> exists js v, vjsn_parse_end s = Ok (inr (js, v)) /\ rep (j_raw js) v j) /\
  (forall js v, vjsn_parse_end s = Ok (inr (js, v)) -> exists j, json_text s j /\ rep (j_raw js) v j).
Proof.
  split; [intros j; apply parse_complete|]. intros js v E.
  destruct (parse_sound s js v Hs E) as (j & Hj). destruct (parse_complete s j Hj) as (js' & v' & E' & Hr).
  rewrite E in E'. injection E' as <- <-. by exists j.
Qed.

Lemma vjsn_parse_json_witness : exists js v, vjsn_parse_end [91; 49; 93; 32] = Ok (inr (js, v)) /\ rep (j_raw js) v (JArray [JNumber [49]]).
Proof.
  destruct (vjsn_parse_json [91; 49; 93; 32]) as [H _]; [by repeat constructor|]. apply H.
  exists [], [91; 49; 93], [32]. split; [done|]. split; [constructor|]. split; [|by repeat constructor].
  apply (v_array [49]), (i_one [] [49] (JNumber [49]) []); [constructor| |constructor].
  constructor. exists [], [49], [], []. split; [done|]. split; [by left|]. split; [|split; by left].
  right. exists 49, []. split; [done|]. split; [lia|constructor].
Defined.

(** U+10000 and U+10401 are read, U+20000 is read as U+10000. *)
Lemma surrogates_read : read_pair 55296 56320 = 65536 /\ read_pair 55297 56321 = 66561 /\ utf16 55360 56320 = 131072 /\ read_pair 55360 56320 = 65536.
Proof. by vm_compute. Qed.
