(* ===== verification/QuoteJson.v ===== *)
(** * Quoted strings are JSON (lib/vsb.c with lib/vjsn.c)

    What VSB_quote writes in its JSON format between double quotes is a JSON
    string for any bytes, and vjsn_parse_end gets the bytes back.  A member of
    an object is found under its name. *)

From Stdlib Require Import ZArith Lia ZifyBool.
From stdpp Require Import base option numbers list.
From S2P Require Import Prelude CStr Vnum Vav VavSpec Vsb VsbSpec VsbQuote QuoteVav Vjsn VjsnSpec VjsnStr VjsnSafe VjsnParse.
#[local] Open Scope Z_scope.

(** ** Quoting *)

Lemma hexdig_hex d : 0 <= d < 16 -> hex (hexdig d) d.
Proof.
  intros Hd. unfold hexdig. destruct (Z.ltb_spec d 10).
  - replace d with (48 + d - 48) at 2 by lia. constructor. lia.
  - replace d with (87 + d - 87) at 2 by lia. constructor. lia.
Qed.

Lemma json_byte c : byte c -> char_text (byte_text [] VSB_QUOTE_JSON c) [c].
Proof.
  intros Hc. unfold byte in Hc. unfold byte_text.
  replace (mode VSB_QUOTE_JSON VSB_QUOTE_CSTR) with false by done. replace (mode VSB_QUOTE_JSON VSB_QUOTE_UNSAFE) with false by done.
  replace (mode VSB_QUOTE_JSON VSB_QUOTE_JSON) with true by done. cbn [andb app].
  assert (forall x, (x, c) ∈ json_escapes -> char_text [92; x] [c]) as Hesc by (intros; by constructor).
  destruct (Z.eqb_spec c 63) as [->|]; [by constructor|].
  destruct (Z.eqb_spec c 92) as [->|]; [apply Hesc; by repeat constructor|].
  destruct (Z.eqb_spec c 34) as [->|]; [apply Hesc; by repeat constructor|]. cbn [orb].
  destruct (Z.eqb_spec c 10) as [->|]; [apply Hesc; by repeat constructor|].
  destruct (Z.eqb_spec c 13) as [->|]; [apply Hesc; by repeat constructor|].
  destruct (Z.eqb_spec c 9) as [->|]; [apply Hesc; by repeat constructor|].
  destruct ((32 <=? c) && (c <=? 126)) eqn:E; [constructor; lia|]. rewrite andb_true_r.
  destruct (Z.ltb_spec 126 c); [constructor; lia|].
  assert (utf8 c = [c]) as <- by (unfold utf8; by rewrite (proj2 (Z.ltb_lt c 128)) by lia).
  constructor; [|lia]. unfold fmt_04x, fmt_02x. cbn [app].
  replace c with (0 * 4096 + 0 * 256 + c / 16 * 16 + c mod 16) at 3 by (pose proof (Z.div_mod c 16 ltac:(done)); lia).
  constructor; [apply (hex_num 48)|apply (hex_num 48)|apply hexdig_hex, byte_high; done|apply hexdig_hex, Z.mod_pos_bound]; lia.
Qed.

Lemma json_bytes p nl : Bytes p -> string_text (bytes_text [] VSB_QUOTE_JSON nl p) p.
Proof.
  intros Hp. revert nl. induction Hp as [|c p Hc _ IH]; intros nl; cbn [bytes_text]; [constructor|].
  replace (if nl then [] else []) with ([] : list Z) by by destruct nl. cbn [app]. apply (str_char _ [c]); [by apply json_byte|apply IH].
Qed.

Lemma json_plain p : Forall (fun c => 32 <= c < 256 /\ c <> 34 /\ c <> 92) p -> string_text p p.
Proof. induction 1 as [|c p (H1 & H2 & H3) _ IH]; [constructor|]. apply (str_char [c] [c]); [by constructor|done]. Qed.

Lemma json_quoted p : Bytes p -> string_text (quoted [] VSB_QUOTE_JSON p) p.
Proof.
  intros Hp. destruct p as [|c p]; [constructor|]. unfold quoted. set (q := c :: p) in *.
  change (full_mode VSB_QUOTE_JSON) with VSB_QUOTE_JSON.
  change (mode VSB_QUOTE_JSON VSB_QUOTE_CSTR) with false. change (mode VSB_QUOTE_JSON VSB_QUOTE_HEX) with false.
  change (mode VSB_QUOTE_JSON VSB_QUOTE_NONL) with false. cbn [andb app]. rewrite !app_nil_r.
  destruct (existsb (must_quote VSB_QUOTE_JSON) q) eqn:E; [by apply json_bytes|].
  apply json_plain. apply Forall_forall. intros x Hx.
  pose proof (proj1 (Forall_forall _ _) Hp x Hx) as Hb. unfold byte in Hb.
  assert (must_quote VSB_QUOTE_JSON x = false) as Hq.
  { apply not_true_is_false. intros Ht. apply eq_true_false_abs with (existsb (must_quote VSB_QUOTE_JSON) q); [|done].
    apply existsb_exists. exists x. split; [by apply list_elem_of_In|done]. }
  unfold must_quote in Hq. rewrite !orb_false_iff in Hq. lia.
Qed.

(** C32: any bytes, NULs, control characters and 8-bit ones included, written by
    VSB_quote in its JSON format between double quotes, are parsed back from
    the buffer as one string with those bytes. *)
Theorem quote_json_roundtrip malloc s d
    (Hsize : forall n m, malloc n = Some m -> Z.of_nat (length m) = n) (Htotal : forall n, 0 <= n -> malloc n <> None)
    (Hs : growing s) (Hi : s_indent s = 0) (Hempty : content s = []) (Hd : Bytes d) :
  exists s' js v, write_arg malloc s VSB_QUOTE_JSON d = Ok s' /\ growing s' /\
    vjsn_parse_end (content s') = Ok (inr (js, v)) /\ rep (j_raw js) v (JString d).
Proof.
  assert (wrote s ([34] ++ quoted [] VSB_QUOTE_JSON d ++ [34]) (write_arg malloc s VSB_QUOTE_JSON d)) as (s' & E & [Hg _] & Hc).
  { unfold write_arg. apply wrote_bind; [by apply wrote_putc|]. intros s1 Hp1 _.
    apply wrote_bind; [by apply quote_wrote|]. intros s2 Hp2 _. by apply wrote_putc. }
  destruct (parse_complete (content s') (JString d)) as (js & v & Ep & Hr).
  { rewrite Hc, Hempty. exists [], (34 :: quoted [] VSB_QUOTE_JSON d ++ [34]), []. rewrite app_nil_r.
    split; [done|]. split; [constructor|]. split; [|constructor]. constructor. by apply json_quoted. }
  exists s', js, v. done.
Qed.

Lemma quote_json_roundtrip_witness :
  exists s' js v, write_arg zero_malloc example_vsb VSB_QUOTE_JSON [0; 34; 200] = Ok s' /\
    vjsn_parse_end (content s') = Ok (inr (js, v)) /\ rep (j_raw js) v (JString [0; 34; 200]).
Proof.
  destruct (quote_json_roundtrip zero_malloc example_vsb [0; 34; 200] zero_malloc_size
    zero_malloc_total example_growing eq_refl eq_refl) as (s' & js & v & E & _ & Ep & Hr); [by repeat constructor|].
  exists s', js, v. exact (conj E (conj Ep Hr)).
Defined.

(** ** Looking up members *)

Lemma holds_string raw b d : holds raw b d -> no_nul d -> string_at (drop b raw) = Ok d.
Proof. intros (x & y & -> & <-) Hd. rewrite drop_app_length. by apply string_at_app. Qed.

(** The first member with the name, among members whose names have no NUL. *)
Definition member_of (key : list Z) (l : list (list Z * json)) : option json :=
  snd <$> (snd <$> list_find (fun kj => kj.1 = key) l).

Lemma child_loop_ok raw key cs l : Forall2 (member raw) cs l -> Forall (fun kj => no_nul kj.1) l ->
  exists r, child_loop raw key cs = Ok r /\
    match r, member_of key l with Some c, Some j => c ∈ cs /\ rep raw c j | None, None => True | _, _ => False end.
Proof.
  induction 1 as [|c [k j] cs l [(b & Hn & _ & Hh) Hr] _ IH]; intros Hz; [by exists None|].
  apply Forall_cons in Hz as [Hk Hz]. cbn [child_loop fst] in *. rewrite Hn, (holds_string _ _ _ Hh Hk). cbn [mbind outcome_bind].
  unfold member_of in *. cbn [list_find fst]. destruct (decide (k = key)) as [->|Hne].
  - rewrite bool_decide_eq_true_2 by done. exists (Some c). split; [done|]. cbn. split; [left|done].
  - rewrite bool_decide_eq_false_2 by done. destruct (IH Hz) as (r & -> & Hm). exists r. split; [done|].
    destruct (list_find _ l) as [[i [k' j']]|]; cbn in *; destruct r; [|done..]. destruct Hm. split; [by right|done].
Qed.

(** [vjsn_child] finds in a parsed object the first member with the name
    that is asked for, with its value, and NULL when there is none. *)
Theorem vjsn_child_ok s l js v key
    (Hs : json_text s (JObject l)) (Hn : Forall (fun kj => no_nul kj.1) l) (Hp : vjsn_parse_end s = Ok (inr (js, v))) :
  exists r, vjsn_child (j_raw js) v key = Ok r /\ vjsn_is VJSN_OBJECT v = true /\
    match r, member_of key l with Some c, Some j => c ∈ vj_children v /\ rep (j_raw js) c j | None, None => True | _, _ => False end.
Proof.
  destruct (parse_complete s _ Hs) as (js' & v' & E & Hr). rewrite Hp in E. injection E as <- <-.
  inversion Hr as [| | | | | |n e cs l' Hcs]; subst. destruct (child_loop_ok (j_raw js) key cs l Hcs Hn) as (r & E & Hm).
  exists r. split; [exact E|]. split; [done|exact Hm].
Qed.

Lemma object_text : json_text [123; 34; 97; 34; 58; 48; 125] (JObject [([97], JNumber [48])]).
Proof.
  exists [], [123; 34; 97; 34; 58; 48; 125], []. split; [done|]. split; [constructor|]. split; [|constructor].
  apply (v_object [34; 97; 34; 58; 48]), (m_one [] [97] [97] [] [] [48] (JNumber [48]) []); try constructor.
  - apply (str_char [97] [97] [] []); by constructor.
  - exists [], [48], [], []. split; [done|]. split; [by left|]. split; [by left|]. split; by left.
Qed.

Lemma vjsn_child_ok_witness : exists js v c,
  vjsn_parse_end [123; 34; 97; 34; 58; 48; 125] = Ok (inr (js, v)) /\ vjsn_child (j_raw js) v [97] = Ok (Some c).
Proof.
  destruct (parse_complete _ _ object_text) as (js & v & E & _).
  destruct (vjsn_child_ok _ _ js v [97] object_text ltac:(by repeat constructor) E) as ([c|] & Ec & _ & Hm); [|by destruct Hm].
  exists js, v, c. exact (conj E Ec).
Defined.
