(* ===== verification/Macro.v ===== *)
(** * Macros (src/vtc.c, "Macro facility")

    The list of macros and the expansion of the references in a text.  Macros
    with a function call it with the parsed arguments; the functions belong to
    the programs that define them and are values of the model.  The mutex is
    held by every operation from its first access of the list to its last, so
    that operations are atomic.  [malloc] succeeds where the code asserts it. *)

From Stdlib Require Import ZArith Lia ZifyBool.
From stdpp Require Import base option numbers list.
From S2P Require Import Prelude CStr Vav Vsb VsbQuote.
#[local] Open Scope Z_scope.

(** The value, or an error text. *)
Definition macro_f : Type := list (list Z) -> option (list Z) * option (list Z).

Record macro := mk_macro { m_name : list Z; m_val : option (list Z); m_func : option macro_f }.

(** ** The list *)

Definition is_macro (name : list Z) (m : macro) : bool := bool_decide (m_name m = name).

(** [VTAILQ_FOREACH(m, &macro_list, list) if (!strcmp(name, m->name)) break;]. *)
Definition find_macro (ms : list macro) (name : list Z) : option macro := find (is_macro name) ms.

(** Changes the first macro with the name. *)
Fixpoint set_macro (ms : list macro) (name : list Z) (f : macro -> macro) : list macro :=
  match ms with
  | [] => []
  | m :: ms => if is_macro name m then f m :: ms else m :: set_macro ms name f
  end.

(** [func], or the formatted text for a buffer of 2048 bytes. *)
Definition macro_def_int (ms : list macro) (name : list Z) (func : option macro_f) (text : option (list Z))
    : outcome (list macro) :=
  let ms := match find_macro ms name with Some _ => ms | None => ms ++ [mk_macro name None None] end in
  match func, text with
  | Some f, None => Ok (set_macro ms name (fun m => mk_macro (m_name m) (m_val m) (Some f)))
  | None, Some buf =>
      _ ← assertC (Z.of_nat (length buf) <? 2048);
      Ok (set_macro ms name (fun m => mk_macro (m_name m) (Some buf) (m_func m)))
  | _, _ => Fault FAssert
  end.

Definition extmacro_def := macro_def_int.

(** [bprintf(buf1, "%s_%s", instance, name)]. *)
Definition macro_name (instance : option (list Z)) (name : list Z) : outcome (list Z) :=
  match instance with
  | None => Ok name
  | Some i =>
      let n := i ++ [95] ++ name in
      _ ← assertC (Z.of_nat (length n) <? 256); Ok n
  end.

Definition macro_def (ms : list macro) (instance : option (list Z)) (name text : list Z) : outcome (list macro) :=
  name ← macro_name instance name; macro_def_int ms name None (Some text).

(** [VTAILQ_REMOVE] of the first macro with the name. *)
Fixpoint remove_macro (ms : list macro) (name : list Z) : list macro :=
  match ms with
  | [] => []
  | m :: ms => if is_macro name m then ms else m :: remove_macro ms name
  end.

Definition macro_undef (ms : list macro) (instance : option (list Z)) (name : list Z) : outcome (list macro) :=
  name ← macro_name instance name;
  Ok (match find_macro ms name with Some _ => remove_macro ms name | None => ms end).

Definition macro_isdef (ms : list macro) (instance : option (list Z)) (name : list Z) : outcome bool :=
  name ← macro_name instance name;
  Ok (match find_macro ms name with Some _ => true | None => false end).

(** ** Expansion *)

(** The C strings [argv[1]] to [argv[argc - 1]]. *)
Fixpoint arg_strings (l : list slot) : outcome (list (list Z)) :=
  match l with
  | [] => Ok []
  | Arg b :: l => s ← string_at b; r ← arg_strings l; Ok (s :: r)
  | _ :: _ => Fault FBounds
  end.

(** What the macro gives: [retval], or [err]. *)
Definition macro_call (m : macro) (argv : list (list Z)) : outcome (option (list Z) * option (list Z)) :=
  match m_func m with
  | Some f =>
      _ ← assertC (match m_val m with None => true | Some _ => false end);
      let '(retval, err) := f argv in
      _ ← assertC (match err, retval with None, None => false | _, _ => true end);
      Ok (retval, err)
  | None =>
      match m_val m with
      | None => Fault FAssert
      | Some v =>
          if (length argv =? 1)%nat then Ok (Some v, None)
          else Ok (None, Some [])
      end
  end.

(** The value of the reference between [b] and [e]; None when there is no such
    macro.  An error ends the test case. *)
Definition macro_value (ms : list macro) (b : list Z) : outcome (option (list Z)) :=
  v ← VAV_ParseTxt b ARGV_COMMA;
  match v_err v with
  | Some _ => Fault FFatal
  | None =>
      _ ← assertC (2 <=? v_nargv v)%nat;
      argv ← arg_strings (take (v_nargv v - 1) (drop 1 (v_argv v)));
      r ← match find_macro ms (hd [] argv) with
          | Some m => macro_call m argv
          | None => Ok (None, None)
          end;
      _ ← VAV_Free v;
      match r with
      | (_, Some _) => Fault FFatal
      | (retval, None) => Ok retval
      end
  end.

Section malloc.
Context (malloc : Z -> option (list Z)) (ign_unknown_macro : bool).

Definition macro_cat (ms : list macro) (vsb : vsb) (b : list Z) : outcome Vsb.vsb :=
  retval ← macro_value ms b;
  match retval with
  | None =>
      if negb ign_unknown_macro then Fault FFatal
      else printf malloc vsb ([36; 123] ++ b ++ [125])
  | Some v => cat malloc vsb v
  end.

(** The loop; [fuel] bounds the references, each of which has three bytes. *)
Fixpoint expand_loop (fuel : nat) (ms : list macro) (vsb : vsb) (text : list Z) : outcome Vsb.vsb :=
  match text with
  | [] => Ok vsb
  | _ =>
      match str_find [36; 123] text with
      | None => cat malloc vsb text
      | Some i =>
          vsb ← bcat malloc vsb (take i text);
          let p := drop i text in
          match strchr 125 p with
          | None => cat malloc vsb text
          | Some q =>
              vsb ← macro_cat ms vsb (drop 2 (take q p));
              match fuel with O => Fault FFuel | S fuel => expand_loop fuel ms vsb (drop (S q) p) end
          end
      end
  end.

Definition macro_expand (ms : list macro) (text : list Z) : outcome vsb :=
  vsb ← VSB_new_auto malloc;
  match vsb with
  | None => Fault FAssert
  | Some vsb =>
      vsb ← expand_loop (length text) ms vsb text;
      '(vsb, r) ← VSB_finish vsb;
      _ ← assertC (r =? 0);
      Ok vsb
  end.

(** [VSB_data] of the result, as a string. *)
Definition expanded (ms : list macro) (text : list Z) : outcome (list Z) :=
  vsb ← macro_expand ms text; b ← VSB_data vsb; string_at b.
End malloc.
