(* ===== verification/MacroSpec.v ===== *)
(** * What macros do (src/vtc.c)

    The list of macros refines a finite map, and [macro_expand] replaces each
    reference by what the map gives for it.  Texts it does not expect are singled
    out. *)

From Stdlib Require Import ZArith Lia ZifyBool.
From stdpp Require Import base option numbers list gmap.
From S2P Require Import Prelude CStr Vct Vnum Vav VavSpec Vsb VsbSpec VsbQuote QuoteVav Macro.
#[local] Open Scope Z_scope.

(** ** The list as a map *)

Abbreviation env := (gmap (list Z) (option (list Z) * option macro_f)).

Definition binding (m : macro) : list Z * (option (list Z) * option macro_f) := (m_name m, (m_val m, m_func m)).

(** Names are unique, and a macro has a value or a function. *)
Record macros_ok (ms : list macro) : Prop := {
  mo_names : NoDup (m_name <$> ms);
  mo_kind : Forall (fun m => m_val m = None <-> m_func m <> None) ms
}.

Definition env_of (ms : list macro) : env := list_to_map (binding <$> ms).

Lemma env_cons m ms : env_of (m :: ms) = <[m_name m := (m_val m, m_func m)]> (env_of ms).
Proof. done. Qed.

Lemma env_none ms name : name ∉ m_name <$> ms -> env_of ms !! name = None.
Proof.
  intros Hn. unfold env_of. apply not_elem_of_list_to_map_1. intros Hi. apply Hn.
  apply list_elem_of_fmap in Hi as ([k x] & -> & Hi). apply list_elem_of_fmap in Hi as (m & E & Hm).
  injection E as -> _. apply list_elem_of_fmap. by exists m.
Qed.

Lemma find_env ms name : env_of ms !! name = (fun m => (m_val m, m_func m)) <$> find_macro ms name.
Proof.
  induction ms as [|m ms IH]; [done|]. rewrite env_cons. unfold find_macro in *. cbn [find]. unfold is_macro at 1.
  destruct (decide (m_name m = name)) as [->|Hn].
  - rewrite bool_decide_eq_true_2 by done. by rewrite lookup_insert_eq.
  - rewrite bool_decide_eq_false_2 by done. by rewrite lookup_insert_ne.
Qed.

Lemma find_name ms name m : find_macro ms name = Some m -> m_name m = name /\ m ∈ ms.
Proof.
  intros H. apply find_some in H as [Hm Hn]. apply bool_decide_eq_true in Hn. split; [done|by apply list_elem_of_In].
Qed.

Lemma find_none_names ms name : find_macro ms name = None -> name ∉ m_name <$> ms.
Proof.
  intros H Hi. apply list_elem_of_fmap in Hi as (m & -> & Hm). pose proof (find_none _ _ H m) as Hf.
  rewrite <-list_elem_of_In in Hf. specialize (Hf Hm). unfold is_macro in Hf. by rewrite bool_decide_eq_true_2 in Hf.
Qed.

Lemma set_names ms name f : (forall m, m_name (f m) = m_name m) -> m_name <$> set_macro ms name f = m_name <$> ms.
Proof.
  intros Hf. induction ms as [|m ms IH]; [done|]. cbn [set_macro]. destruct (is_macro name m); cbn [fmap list_fmap]; [by rewrite Hf|].
  f_equal. exact IH.
Qed.

Lemma set_env ms name f m : (forall m, m_name (f m) = m_name m) -> find_macro ms name = Some m ->
  env_of (set_macro ms name f) = <[name := (m_val (f m), m_func (f m))]> (env_of ms).
Proof.
  intros Hf. induction ms as [|m0 ms IH]; [done|]. unfold find_macro. cbn [find set_macro].
  destruct (is_macro name m0) eqn:E; intros H.
  - injection H as ->. apply bool_decide_eq_true in E. rewrite !env_cons, Hf, E. by rewrite insert_insert_eq.
  - apply bool_decide_eq_false in E. rewrite !env_cons, IH by done. by rewrite insert_insert_ne.
Qed.

Lemma remove_env ms name : NoDup (m_name <$> ms) -> env_of (remove_macro ms name) = delete name (env_of ms) /\
  NoDup (m_name <$> remove_macro ms name) /\ remove_macro ms name ⊆ ms.
Proof.
  induction ms as [|m ms IH]; intros Hd; [split; [symmetry; apply delete_empty|done]|]. cbn [fmap list_fmap] in Hd. apply NoDup_cons in Hd as [Hm Hd].
  destruct (IH Hd) as (IH1 & IH2 & IH3). cbn [remove_macro]. unfold is_macro. destruct (decide (m_name m = name)) as [<-|Hn].
  - rewrite bool_decide_eq_true_2 by done. rewrite env_cons, delete_insert_id by by apply env_none. split; [done|]. split; [done|]. by apply list_subseteq_cons.
  - rewrite bool_decide_eq_false_2 by done. rewrite !env_cons, IH1, delete_insert_ne by done. split; [done|].
    split; [|by apply list_subseteq_skip]. cbn [fmap list_fmap]. apply NoDup_cons. split; [|done].
    intros Hi. apply Hm. apply list_elem_of_fmap in Hi as (m' & -> & Hi). apply list_elem_of_fmap. exists m'. split; [done|]. by apply IH3.
Qed.

Lemma find_new ms m name : find_macro (ms ++ [m]) name = match find_macro ms name with Some m => Some m | None => find_macro [m] name end.
Proof. unfold find_macro. induction ms as [|m0 ms IH]; [done|]. cbn [app find]. by destruct (is_macro name m0). Qed.

Lemma def_env ms name func text ms' : macros_ok ms -> macro_def_int ms name func text = Ok ms' ->
  NoDup (m_name <$> ms') /\
  env_of ms' = <[name := match func, env_of ms !! name with
                         | Some f, Some (v, _) => (v, Some f)
                         | Some f, None => (None, Some f)
                         | None, Some (_, f) => (text, f)
                         | None, None => (text, None) end]> (env_of ms).
Proof.
  intros [Hd _]. unfold macro_def_int. rewrite find_env.
  set (ms1 := match find_macro ms name with Some _ => ms | None => ms ++ [mk_macro name None None] end).
  assert (NoDup (m_name <$> ms1) /\ exists m, find_macro ms1 name = Some m /\
    (m_val m, m_func m) = default (None, None) ((fun m => (m_val m, m_func m)) <$> find_macro ms name) /\
    forall x, <[name := x]> (env_of ms1) = <[name := x]> (env_of ms)) as (Hd1 & m & Hm & Hv & Hx).
  { subst ms1. destruct (find_macro ms name) as [m|] eqn:E; [split; [done|]; by exists m|].
    pose proof (find_none_names _ _ E) as Hn. split.
    - rewrite fmap_app. apply NoDup_app. split; [done|]. split; [|apply NoDup_singleton].
      intros n Hi Hn'. apply list_elem_of_singleton in Hn' as ->. done.
    - exists (mk_macro name None None). split; [|split; [done|]].
      + rewrite find_new, E. unfold find_macro. cbn [find]. unfold is_macro. by rewrite bool_decide_eq_true_2.
      + intros x. apply map_eq. intros i. destruct (decide (i = name)) as [->|Hi]; [by rewrite !lookup_insert_eq|].
        rewrite !lookup_insert_ne, !find_env, find_new by done. destruct (find_macro ms i); [done|].
        unfold find_macro. cbn [find]. unfold is_macro. by rewrite bool_decide_eq_false_2. }
  destruct func as [f|], text as [t|]; intros H; try done.
  - injection H as <-. split; [by rewrite set_names|]. rewrite (set_env _ _ _ m) by done. rewrite Hx. f_equal.
    apply (f_equal fst) in Hv. cbn in *. rewrite Hv. by destruct (find_macro ms name).
  - apply bind_ok in H as (_ & _ & H). injection H as <-. split; [by rewrite set_names|].
    rewrite (set_env _ _ _ m) by done. rewrite Hx. f_equal. apply (f_equal snd) in Hv. cbn in *. rewrite Hv. by destruct (find_macro ms name).
Qed.

(** The kinds are kept as long as a name does not change its own. *)
Lemma kind_env ms : NoDup (m_name <$> ms) ->
  (Forall (fun m => m_val m = None <-> m_func m <> None) ms <-> map_Forall (fun _ b => b.1 = None <-> b.2 <> None) (env_of ms)).
Proof.
  intros Hd. split.
  - intros Hf n [v f]. rewrite find_env. destruct (find_macro ms n) as [m|] eqn:E; [|done]. intros [= <- <-].
    apply find_name in E as [_ Hm]. exact (proj1 (Forall_forall _ _) Hf m Hm).
  - intros Hf. apply Forall_forall. intros m Hm. apply (Hf (m_name m) (m_val m, m_func m)). unfold env_of.
    apply elem_of_list_to_map_1; [|by apply (list_elem_of_fmap_2 binding)].
    rewrite <-list_fmap_compose. exact Hd.
Qed.

(** Defining, undefining and asking for a macro are insertion, deletion and
    look-up in a finite map from names to values and functions; names stay
    unique, and macros stay either values or functions while no name changes
    from one to the other.  A value must be shorter than 2048 bytes. *)
Theorem macros_refine ms name text (Hms : macros_ok ms) (Hlen : Z.of_nat (length text) < 2048) :
  (exists ms', macro_def ms None name text = Ok ms' /\ NoDup (m_name <$> ms') /\
     env_of ms' = <[name := (Some text, env_of ms !! name ≫= snd)]> (env_of ms) /\
     ((env_of ms !! name ≫= snd) = None -> macros_ok ms')) /\
  (exists ms', macro_undef ms None name = Ok ms' /\ macros_ok ms' /\ env_of ms' = delete name (env_of ms)) /\
  macro_isdef ms None name = Ok (bool_decide (is_Some (env_of ms !! name))).
Proof.
  split; [|split].
  - unfold macro_def. cbn [macro_name mbind outcome_bind].
    destruct (macro_def_int ms name None (Some text)) as [ms'|f] eqn:E.
    + destruct (def_env ms name None (Some text) ms' Hms E) as [Hd He].
      assert (env_of ms' = <[name := (Some text, env_of ms !! name ≫= snd)]> (env_of ms)) as He'
        by (rewrite He; by destruct (env_of ms !! name) as [[v [f|]]|]).
      exists ms'. split; [done|]. split; [done|]. split; [done|]. intros Hn. split; [done|].
      apply kind_env; [done|]. rewrite He', Hn. apply map_Forall_insert_2; [done|]. apply kind_env; apply Hms.
    + unfold macro_def_int in E. rewrite assertC_true in E by lia. done.
  - unfold macro_undef. cbn [macro_name mbind outcome_bind]. eexists. split; [done|].
    destruct (find_macro ms name) as [m|] eqn:E.
    + destruct (remove_env ms name) as (H1 & H2 & H3); [apply Hms|]. split; [|done]. split; [done|].
      apply Forall_forall. intros m' Hm'. exact (proj1 (Forall_forall _ _) (mo_kind ms Hms) m' (H3 m' Hm')).
    + split; [done|]. rewrite delete_id; [done|]. rewrite find_env, E. done.
  - unfold macro_isdef. cbn [macro_name mbind outcome_bind]. rewrite find_env. by destruct (find_macro ms name).
Qed.

(** ** One reference *)

(** A word the argument parser takes as it is. *)
Definition word (w : list Z) : Prop :=
  w <> [] /\ Forall (fun c => isspace c = false /\ c <> 44 /\ c <> 34 /\ c <> 92 /\ c <> 0) w.

Lemma scan_word w rest : Forall (fun c => isspace c = false /\ c <> 44 /\ c <> 34 /\ c <> 92 /\ c <> 0) w ->
  forall fuel, (length (w ++ rest) <= fuel)%nat -> rest = [] \/ head rest = Some 44 ->
  scan_arg fuel (w ++ rest) false ARGV_COMMA = Ok (inr (rest, match rest with [] => None | _ => Some rest end, false)).
Proof.
  induction 1 as [|c w (H1 & H2 & H3 & H4 & _) _ IH]; intros fuel Hf Hr.
  - cbn [app] in *. destruct Hr as [->|Hr]; [by destruct fuel|]. destruct rest as [|x rest]; [done|]. injection Hr as ->.
    destruct fuel as [|fuel]; [simpl in Hf; lia|]. done.
  - destruct fuel as [|fuel]; [simpl in Hf; lia|]. cbn [app scan_arg]. rewrite H1.
    rewrite (proj2 (Z.eqb_neq c 92)), (proj2 (Z.eqb_neq c 44)), (proj2 (Z.eqb_neq c 34)) by done. cbn [andb negb].
    rewrite !andb_false_r. apply IH; [|done]. simpl in Hf. lia.
Qed.

(** A reference: its words, with commas between them. *)
Fixpoint comma_line (ws : list (list Z)) : list Z :=
  match ws with [] => [] | [w] => w | w :: ws => w ++ 44 :: comma_line ws end.

Lemma parse_words ws : forall fuel sep v bufs, Forall word ws -> ws <> [] -> (length (comma_line ws) <= fuel)%nat ->
  (sep = None \/ exists q, sep = Some (44 :: q)) -> slots v bufs ->
  exists v', slots v' (bufs ++ map (fun w => arg_buffer (w, w)) ws) /\ parse_loop fuel (comma_line ws) sep v ARGV_COMMA = Ok (None, v').
Proof.
  induction ws as [|w ws IH]; intros fuel sep v bufs Hws Hne Hf Hsep Hv; [done|]. apply Forall_cons in Hws as [[Hwne Hw] Hws].
  destruct w as [|c w]; [done|]. set (u := c :: w) in *. pose proof (Forall_inv Hw) as (Hs & H44 & H34 & H92 & H0).
  assert (escaped u u) as He by (apply plain_escaped; eapply Forall_impl; [exact Hw|]; intros x (_ & _ & ? & ? & _); done).
  set (rest := match ws with [] => [] | _ => 44 :: comma_line ws end).
  assert (comma_line (u :: ws) = u ++ rest) as Hl by (subst rest; destruct ws; [by rewrite app_nil_r|done]). rewrite Hl in *.
  destruct (slots_add v bufs (arg_buffer (u, u)) Hv) as (v1 & Eset & Hv1).
  destruct fuel as [|fuel]; [unfold u in Hf; simpl in Hf; lia|]. change (parse_loop (S fuel) (u ++ rest)) with (parse_loop (S fuel) (c :: w ++ rest)). cbn [parse_loop]. rewrite Hs.
  assert (exists q, sep_is sep isspace = Ok false /\ sep_is sep (fun c => c =? 34) = Ok q /\ q = false) as (q & -> & -> & ->) by (destruct Hsep as [->|(q & ->)]; by eexists).
  cbn [mbind outcome_bind orb andb].
  change (has ARGV_COMMA ARGV_COMMENT) with false. rewrite (proj2 (Z.eqb_neq c 34)) by done. cbn [andb negb].
  change (c :: w ++ rest) with (u ++ rest). rewrite (scan_word u rest Hw) by (done || (subst rest; destruct ws; [by left|by right])). cbn [mbind outcome_bind].
  assert ((if match match rest with [] => None | _ => Some rest end with None => false | Some _ => false end then Ok (None, fail_with v missing_quote) else
      s ← arg_text (u ++ rest) rest ARGV_COMMA; v' ← set_slot (grow v) s; parse_loop fuel (tail rest) match rest with [] => None | _ => Some rest end (next_slot v') ARGV_COMMA) =
    parse_loop fuel (tail rest) match rest with [] => None | _ => Some rest end (next_slot v1) ARGV_COMMA) as Hstep.
  { destruct rest; unfold arg_text; change (has ARGV_COMMA ARGV_NOESC) with false; rewrite length_app, Nat.add_sub, take_app_length;
      destruct (decode_ok u u He) as [-> _]; cbn [mbind outcome_bind]; fold (arg_buffer (u, u)); change (u ++ replicate (S (length u) - length u) 0) with (arg_buffer (u, u)); by rewrite Eset. }
  assert (Hgoal : exists v', slots v' (bufs ++ map (fun w => arg_buffer (w, w)) (u :: ws)) /\
    parse_loop fuel (tail rest) match rest with [] => None | _ => Some rest end (next_slot v1) ARGV_COMMA = Ok (None, v')).
  { subst rest. destruct ws as [|w2 ws2]; [exists (next_slot v1); split; [done|by destruct fuel]|].
    destruct (IH fuel (Some (44 :: comma_line (w2 :: ws2))) (next_slot v1) (bufs ++ [arg_buffer (u, u)])) as (v' & Hv' & E); [done|done| |right; by eexists|done|].
    { rewrite length_app in Hf. unfold u in Hf. cbn [length] in Hf. lia. }
    exists v'. split; [by rewrite <-app_assoc in Hv'|exact E]. }
  destruct Hgoal as (v' & Hv' & E). exists v'. split; [done|]. rewrite <-E, <-Hstep. destruct rest; done.
Qed.

Lemma word_args ws : Forall word ws -> ws <> [] -> exists v,
  VAV_ParseTxt (comma_line ws) ARGV_COMMA = Ok v /\ v_err v = None /\ v_nargv v = S (length ws) /\
  arg_strings (take (v_nargv v - 1) (drop 1 (v_argv v))) = Ok ws /\ VAV_Free v = Ok tt.
Proof.
  intros Hws Hne. unfold VAV_ParseTxt. destruct (parse_words ws (length (comma_line ws)) None (mk_vav (replicate 16 Null) 1 None) [] Hws Hne) as (v & Hv & ->); [done|by left|apply slots_start|].
  cbn [mbind outcome_bind app] in *. pose proof Hv as (x0 & _ & _ & _ & ->). cbn [sep_is mbind outcome_bind].
  destruct (slots_set _ _ Null Hv) as (x & Elast & _). rewrite Elast, length_map. eexists. split; [done|]. cbn [v_err v_nargv v_argv]. do 2 (split; [done|]). split.
  - cbn [Nat.sub drop]. rewrite drop_0, Nat.sub_0_r.
    assert (forall y, arg_strings (take (length ws) ((Arg <$> map (fun w => arg_buffer (w, w)) ws) ++ y)) = Ok ws) as Hall; [|apply Hall].
    intros y. clear -Hws. induction Hws as [|w ws [_ Hw] _ IH]; [done|]. cbn [map fmap list_fmap app length take arg_strings]. rewrite arg_buffer_string.
    + cbn [mbind outcome_bind]. by rewrite IH.
    + apply plain_escaped. eapply Forall_impl; [exact Hw|]. intros z (_ & _ & ? & ? & _). done.
    + eapply Forall_impl; [exact Hw|]. intros z (_ & _ & _ & _ & ?). done.
  - unfold VAV_Free. cbn [v_argv]. apply (free_ok (map (fun w => arg_buffer (w, w)) ws) x _ [Null]). cbn [length]. rewrite length_app, length_fmap, !length_map. cbn [length]. lia.
Qed.

(** What a reference with these words stands for, by the map the macros are: the
    value of a macro, which takes no arguments, or what a function gives for all
    the words; and the reference itself if unknown macros are ignored. *)
Inductive stands_for (e : env) (ign : bool) : list (list Z) -> list Z -> Prop :=
  | ref_value n v f : e !! n = Some (Some v, f) -> stands_for e ign [n] v
  | ref_func n ws f v : e !! n = Some (None, Some f) -> f (n :: ws) = (Some v, None) -> stands_for e ign (n :: ws) v
  | ref_unknown n ws : e !! n = None -> ign = true -> stands_for e ign (n :: ws) ([36; 123] ++ comma_line (n :: ws) ++ [125]).

Lemma stands_value ms ign ws v : macros_ok ms -> Forall word ws -> stands_for (env_of ms) ign ws v ->
  (macro_value ms (comma_line ws) = Ok (Some v)) \/ (macro_value ms (comma_line ws) = Ok None /\ ign = true /\ v = [36; 123] ++ comma_line ws ++ [125]).
Proof.
  intros Hms Hws Hv. destruct (word_args ws Hws) as (a & Ev & He & Hn & Ha & Hf); [by destruct Hv|]. unfold macro_value. rewrite Ev. cbn [mbind outcome_bind].
  rewrite He, assertC_true by (rewrite Hn; destruct Hv; reflexivity). cbn [mbind outcome_bind]. rewrite Ha. cbn [mbind outcome_bind].
  assert (Hfind : forall n b, env_of ms !! n = Some b -> exists m, find_macro ms n = Some m /\ b = (m_val m, m_func m) /\ (m_val m = None <-> m_func m <> None)).
  { intros n b. rewrite find_env. destruct (find_macro ms n) as [m|] eqn:E; [|done]. intros [= <-]. exists m. do 2 (split; [done|]). apply find_name in E as [_ Hm]. exact (proj1 (Forall_forall _ _) (mo_kind ms Hms) m Hm). }
  destruct Hv as [n v f Hb|n ws f v Hb Hfv|n ws Hb Hign]; cbn [hd].
  - destruct (Hfind _ _ Hb) as (m & -> & E & Hk). injection E as E1 E2. left. unfold macro_call. destruct (m_func m) as [g|]; [exfalso; by rewrite <-E1 in Hk; destruct Hk as [_ Hk]; specialize (Hk ltac:(done))|].
    rewrite <-E1. cbn [length Nat.eqb mbind outcome_bind]. by rewrite Hf.
  - destruct (Hfind _ _ Hb) as (m & -> & E & _). injection E as E1 E2. left. unfold macro_call. rewrite <-E1, <-E2. cbn [assertC mbind outcome_bind]. rewrite Hfv. cbn [assertC mbind outcome_bind]. by rewrite Hf.
  - right. rewrite find_env in Hb. destruct (find_macro ms n); [done|]. cbn [mbind outcome_bind]. by rewrite Hf.
Qed.

(** ** Texts with references *)

(** No reference starts in the text. *)
Definition literal (t : list Z) : Prop := str_find [36; 123] t = None.

Lemma find_literal t p : literal t -> str_find [36; 123] (t ++ 36 :: 123 :: p) = Some (length t).
Proof.
  unfold literal. induction t as [|c t IH]; intros Ht; [done|]. cbn [app str_find length] in *.
  destruct (bool_decide_reflect (take 2 (c :: t) = [36; 123])) as [|Hn]; [done|].
  rewrite bool_decide_eq_false_2.
  - destruct (str_find [36; 123] t) eqn:E; [done|]. by rewrite IH.
  - intros E. apply Hn. destruct t as [|d t]; [|exact E]. injection E as _ E. done.
Qed.

Section expand.
Context (malloc : Z -> option (list Z)) (ign : bool) (ms : list macro).
Context (malloc_size : forall n m, malloc n = Some m -> Z.of_nat (length m) = n).
Context (malloc_total : forall n, 0 <= n -> malloc n <> None).

(** What a reference is replaced by. *)
Definition ref_text (b : list Z) : outcome (list Z) :=
  r ← macro_value ms b;
  match r with
  | Some v => Ok v
  | None => if ign then Ok ([36; 123] ++ b ++ [125]) else Fault FFatal
  end.

Lemma macro_cat_wrote s b v : plain s -> ref_text b = Ok v -> wrote s v (macro_cat malloc ign ms s b).
Proof.
  intros Hs. unfold ref_text, macro_cat. destruct (macro_value ms b) as [[r|]|]; cbn [mbind outcome_bind]; [| |done].
  - intros [= <-]. by apply wrote_cat.
  - destruct ign; cbn [negb]; [|done]. intros [= <-]. by apply wrote_printf.
Qed.

Lemma wrote_bcat_any s t : plain s -> wrote s t (bcat malloc s t).
Proof.
  intros Hs. destruct t as [|c t]; [|by apply wrote_bcat].
  pose proof Hs as [(Hok & _ & He & Hf) _]. destruct (state_ok s Hok Hf) as [E1 E2].
  unfold bcat, VSB_bcat. rewrite E1, E2, He. cbn. by apply wrote_nil.
Qed.

(** A text: literal parts with references behind them, and a last part. *)
Fixpoint template (l : list (list Z * list Z)) (last : list Z) : list Z :=
  match l with [] => last | (t, b) :: l => t ++ 36 :: 123 :: b ++ 125 :: template l last end.
Definition segment (tb : list Z * list Z) : Prop := literal tb.1 /\ 125 ∉ tb.2.

Lemma expand_step fuel s t b rest : literal t -> 125 ∉ b ->
  expand_loop malloc ign (S fuel) ms s (t ++ 36 :: 123 :: b ++ 125 :: rest) =
    (s ← bcat malloc s t; s ← macro_cat malloc ign ms s b; expand_loop malloc ign fuel ms s rest).
Proof.
  intros Ht Hb. set (p := 36 :: 123 :: b ++ 125 :: rest). set (text := t ++ p).
  assert (expand_loop malloc ign (S fuel) ms s text = match str_find [36; 123] text with
    | None => cat malloc s text
    | Some i => s ← bcat malloc s (take i text);
        match strchr 125 (drop i text) with
        | None => cat malloc s text
        | Some q => s ← macro_cat malloc ign ms s (drop 2 (take q (drop i text)));
            expand_loop malloc ign fuel ms s (drop (S q) (drop i text))
        end
    end) as -> by (subst text p; by destruct t).
  subst text p. rewrite (find_literal t (b ++ 125 :: rest) Ht), take_app_length, drop_app_length.
  change (36 :: 123 :: b ++ 125 :: rest) with ((36 :: 123 :: b) ++ 125 :: rest).
  rewrite strchr_app by (rewrite !not_elem_of_cons; auto). rewrite take_app_length.
  replace (drop (S (length (36 :: 123 :: b))) ((36 :: 123 :: b) ++ 125 :: rest)) with rest; [done|].
  rewrite cons_middle, app_assoc. replace (S (length (36 :: 123 :: b))) with (length ((36 :: 123 :: b) ++ [125])) by (rewrite length_app; simpl; lia).
  by rewrite drop_app_length.
Qed.

Lemma expand_wrote last tail_text : forall l vs fuel s, plain s -> Forall segment l ->
  Forall2 (fun tb v => ref_text tb.2 = Ok v) l vs -> (length l <= fuel)%nat ->
  (forall fuel s, plain s -> wrote s tail_text (expand_loop malloc ign fuel ms s last)) ->
  wrote s (concat (zip_with (fun tb v => tb.1 ++ v) l vs) ++ tail_text) (expand_loop malloc ign fuel ms s (template l last)).
Proof.
  induction l as [|[t b] l IH]; intros vs fuel s Hs Hl Hv Hf Hlast.
  - apply Forall2_nil_inv_l in Hv as ->. by apply Hlast.
  - apply Forall2_cons_inv_l in Hv as (v & vs' & Hbv & Hv & ->). apply Forall_cons in Hl as [[Ht Hb] Hl].
    destruct fuel as [|fuel]; [simpl in Hf; lia|]. cbn [template]. rewrite expand_step by done. cbn [zip_with concat fst snd].
    rewrite <-!app_assoc. apply wrote_bind; [by apply wrote_bcat_any|]. intros s1 Hs1 _.
    apply wrote_bind; [by apply macro_cat_wrote|]. intros s2 Hs2 _. apply IH; try done. simpl in Hf. lia.
Qed.

(** What [expanded] returns when the loop writes [t]. *)
Lemma expanded_wrote text t : no_nul t ->
  (forall s, plain s -> wrote s t (expand_loop malloc ign (length text) ms s text)) -> expanded malloc ign ms text = Ok t.
Proof.
  intros Hz Hw. unfold expanded, macro_expand. destruct (new_auto_ok malloc malloc_size malloc_total) as (s0 & -> & Hg & Hc & Hi). cbn [mbind outcome_bind].
  destruct (Hw s0) as (s1 & -> & [Hg1 _] & Hc1); [done|]. cbn [mbind outcome_bind]. rewrite Hc in Hc1. cbn [app] in Hc1.
  destruct (vsb_finish_ok s1 Hg1) as (s2 & b & -> & Hd & _ & _ & Hs). cbn [mbind outcome_bind Z.eqb assertC]. rewrite Hd.
  cbn [mbind outcome_bind]. rewrite Hc1 in Hs. by apply Hs.
Qed.

(** A reference without its closing brace. *)
Lemma unterminated_wrote fuel s t r : plain s -> literal t -> 125 ∉ r -> wrote s (t ++ t ++ 36 :: 123 :: r) (expand_loop malloc ign fuel ms s (t ++ 36 :: 123 :: r)).
Proof.
  intros Hs Ht Hr. set (p := 36 :: 123 :: r). set (text := t ++ p).
  assert (expand_loop malloc ign fuel ms s text = (s ← bcat malloc s t; cat malloc s text)) as ->.
  { assert (Hf : str_find [36; 123] text = Some (length t)) by (by apply find_literal). assert (Hc : strchr 125 (drop (length t) text) = None) by (subst text p; rewrite drop_app_length; apply strchr_none; rewrite !not_elem_of_cons; auto).
    assert (Htk : take (length t) text = t) by (subst text; by rewrite take_app_length). destruct text as [|c text'] eqn:Et; [by destruct t|].
    destruct fuel; cbn [expand_loop]; rewrite Hf, Hc, Htk; done. }
  apply wrote_bind; [by apply wrote_bcat_any|]. intros s1 Hs1 _. by apply wrote_cat.
Qed.

Lemma template_length l last : (length l <= length (template l last))%nat.
Proof. induction l as [|[t b] l IH]; [simpl; lia|]. cbn [template length]. repeat (rewrite length_app; cbn [length]). lia. Qed.
End expand.

(** The end of a text, and what becomes of it: a reference without its closing
    brace is copied, and what is in front of it is copied twice. *)
Inductive ends_as : list Z -> list Z -> Prop :=
  | end_literal t : literal t -> ends_as t t
  | end_open t r : literal t -> 125 ∉ r -> no_nul r -> ends_as (t ++ 36 :: 123 :: r) (t ++ t ++ 36 :: 123 :: r).
(** The text of a list of literal parts with the words of a reference behind
    each. *)
Definition in_template (p : list Z * list (list Z)) : list Z * list Z := (p.1, comma_line p.2).
Definition reference (p : list Z * list (list Z)) : Prop := literal p.1 /\ Forall word p.2 /\ 125 ∉ comma_line p.2.

(** C27: [macro_expand] copies the text and replaces each reference by its value,
    once: values are not expanded again.  A reference is a name, and words behind
    commas for a function; its value is that of the map from names to values and
    functions, and unknown macros stay as they are when they are to be ignored.
    A reference that is not closed stays too, but the text between it and the
    last reference is copied a second time. *)
Theorem macro_expand_ok malloc ign ms l last out vs
    (Hsize : forall n m, malloc n = Some m -> Z.of_nat (length m) = n) (Htotal : forall n, 0 <= n -> malloc n <> None) (Hms : macros_ok ms)
    (Hl : Forall reference l) (Hlast : ends_as last out) (Hv : Forall2 (fun p v => stands_for (env_of ms) ign p.2 v) l vs)
    (Hz : no_nul (concat (zip_with (fun p v => p.1 ++ v) l vs) ++ out)) :
  expanded malloc ign ms (template (in_template <$> l) last) = Ok (concat (zip_with (fun p v => p.1 ++ v) l vs) ++ out).
Proof.
  assert (concat (zip_with (fun p v => p.1 ++ v) l vs) = concat (zip_with (fun tb v => tb.1 ++ v) (in_template <$> l) vs)) as Ec.
  { f_equal. clear -Hv. induction Hv as [|p v l vs _ _ IH]; [done|]. cbn. by rewrite IH. }
  rewrite Ec in *. apply expanded_wrote; [done..|]. intros s Hs. apply expand_wrote; [done|done|done| | |apply template_length|].
  - clear -Hl. induction Hl as [|p l (Ht & _ & Hb) _ IH]; constructor; [by split|done].
  - clear -Hms Hl Hv. induction Hv as [|p v l vs Hp _ IH]; [constructor|]. apply Forall_cons in Hl as [(_ & Hw & _) Hl]. constructor; [|by apply IH].
    unfold ref_text. cbn [in_template snd]. by destruct (stands_value _ _ _ _ Hms Hw Hp) as [->|(-> & -> & ->)].
  - intros fuel s' Hs'. destruct Hlast as [t Ht|t r Ht Hr Hnr].
    + destruct t as [|c t]; [destruct fuel; by apply wrote_nil|].
      assert (expand_loop malloc ign fuel ms s' (c :: t) = cat malloc s' (c :: t)) as -> by (unfold literal in Ht; destruct fuel; cbn [expand_loop]; by rewrite Ht).
      by apply wrote_cat.
    + by apply unterminated_wrote.
Qed.

(** The macros of the witnesses. *)
Definition example_macros : list macro := [mk_macro [97] (Some [49; 50]) None].

Lemma example_macros_ok : macros_ok example_macros.
Proof. split; [apply NoDup_singleton|]. repeat constructor; done. Qed.

Lemma macro_expand_ok_witness : expanded zero_malloc false example_macros [120; 36; 123; 97; 125; 121; 36; 123; 97] = Ok [120; 49; 50; 121; 121; 36; 123; 97].
Proof.
  apply (macro_expand_ok zero_malloc false example_macros [([120], [[97]])] [121; 36; 123; 97] [121; 121; 36; 123; 97] [[49; 50]] zero_malloc_size zero_malloc_total example_macros_ok).
  - constructor; [|constructor]. split; [done|]. split; [by repeat constructor|]. cbn. rewrite list_elem_of_singleton. done.
  - apply (end_open [121] [97]); [done| |by repeat constructor]. rewrite list_elem_of_singleton. done.
  - constructor; [|constructor]. by apply (ref_value _ _ _ _ None).
  - by repeat constructor.
Defined.

Lemma macros_refine_witness : exists ms', macro_def example_macros None [98] [51] = Ok ms' /\ macros_ok ms'.
Proof.
  destruct (macros_refine example_macros [98] [51] example_macros_ok ltac:(done)) as [(ms' & E & _ & _ & H) _].
  exists ms'. split; [exact E|]. apply H. reflexivity.
Defined.

(** [${}] fails the assertion that a macro has a name, in place of an error, and
    so does a macro that was given a value after a function. *)
Lemma macro_asserts : macro_value [] [] = Fault FAssert /\
  forall f, exists ms, macro_def_int [mk_macro [97] None (Some f)] [97] None (Some [98]) = Ok ms /\ macro_value ms [97] = Fault FAssert.
Proof. split; [done|]. intros f. eexists. split; [done|]. by vm_compute. Qed.
