(* ===== verification/Interp.v ===== *)
(** * The interpreter of test cases (src/vtc.c)

    Commands, the tokens of a line, and the loop of [parse_string].  What a
    command does to the state of the test is a value of the model, since most
    commands run programs and threads.  The specification is copied to a buffer
    and cut into tokens in place: a pointer is an offset into the buffer. *)

From Stdlib Require Import ZArith Lia ZifyBool.
From stdpp Require Import base option numbers list.
From S2P Require Import Prelude CStr Vav Vsb Macro.
#[local] Open Scope Z_scope.

Definition MAX_TOKENS : nat := 200.
Definition CMDS_F_NONE : Z := 0.
Definition CMDS_F_GLOBAL : Z := 1.
Definition CMDS_F_SHUT : Z := 2.

(** [strtoul(s, NULL, 0)]: blanks, a sign, a prefix and digits. *)
Definition digit_of (base c : Z) : option Z :=
  let d := if (48 <=? c) && (c <=? 57) then c - 48
           else if (97 <=? c) && (c <=? 122) then c - 87
           else if (65 <=? c) && (c <=? 90) then c - 55 else 99 in
  if d <? base then Some d else None.
Fixpoint ul_digits (base v : Z) (s : list Z) : Z :=
  match s with
  | [] => v
  | c :: s => match digit_of base c with Some d => ul_digits base (v * base + d) s | None => v end
  end.
Definition strtoul0 (s : list Z) : Z :=
  let s := skip_to isspace s in
  let '(neg, s) := match s with 45 :: s => (true, s) | 43 :: s => (false, s) | _ => (false, s) end in
  let v := match s with
           | 48 :: x :: d :: r =>
               if ((x =? 120) || (x =? 88)) && bool_decide (is_Some (digit_of 16 d)) then ul_digits 16 0 (d :: r) else ul_digits 8 0 s
           | 48 :: _ => ul_digits 8 0 s
           | _ => ul_digits 10 0 s
           end in
  if 2 ^ 64 <=? v then 2 ^ 64 - 1 else u64 (if neg : bool then - v else v).

(** ** Tokens *)

(** The loop over a quoted string: [p] reads, [q] writes.  [VAV_BackSlash] does
    not write for less than two bytes. *)
Fixpoint quote_token (fuel : nat) (buf : list Z) (e p q : nat) : outcome (list Z * nat * nat) :=
  c ← readC buf p;
  if c =? 0 then Ok (buf, p, q)
  else
    _ ← assertC (p <? e)%nat;
    if c =? 34 then Ok (buf, p, q)
    else
      match fuel with
      | O => Fault FFuel
      | S fuel =>
          if c =? 92 then
            s ← string_at (drop p buf);
            '(i, x) ← vav_backslash_txt s;
            buf ← (if (length s <? 2)%nat then Ok buf else writeC buf q x);
            quote_token fuel buf e (p + Z.to_nat i) (S q)
          else if c =? 10 then Fault FFatal
          else buf ← writeC buf q c; quote_token fuel buf e (S p) (S q)
      end.

(** The loop over braces. *)
Fixpoint brace_token (fuel : nat) (buf : list Z) (e p : nat) (nest : Z) : outcome nat :=
  if (p <? e)%nat then
    c ← readC buf p;
    match fuel with
    | O => Fault FFuel
    | S fuel =>
        if c =? 123 then brace_token fuel buf e (S p) (nest + 1)
        else if c =? 125 then if nest - 1 =? 0 then Ok p else brace_token fuel buf e (S p) (nest - 1)
        else brace_token fuel buf e (S p) nest
    end
  else Ok p.

Fixpoint word_token (fuel : nat) (buf : list Z) (e p : nat) : outcome nat :=
  if (p <? e)%nat then
    c ← readC buf p;
    if isspace c then Ok p
    else match fuel with O => Fault FFuel | S fuel => word_token fuel buf e (S p) end
  else Ok p.

(** The tokens of a line as pairs of [token_s] and [token_e]. *)
Fixpoint collect (fuel : nat) (buf : list Z) (e p tn : nat) : outcome (list Z * nat * list (nat * nat)) :=
  if (p <? e)%nat then
    _ ← assertC (tn <? MAX_TOKENS)%nat;
    c ← readC buf p;
    if c =? 10 then Ok (buf, p, [])
    else
      match fuel with
      | O => Fault FFuel
      | S fuel =>
          if isspace c then collect fuel buf e (S p) tn
          else
            c1 ← (if c =? 92 then readC buf (S p) else Ok 0);
            if (c =? 92) && (c1 =? 10) then collect fuel buf e (p + 2) tn
            else if c =? 34 then
              '(buf, p', q) ← quote_token (length buf) buf e (S p) (S p);
              '(buf, p', l) ← collect fuel buf e (S p') (S tn);
              Ok (buf, p', (S p, q) :: l)
            else if c =? 123 then
              p' ← brace_token (length buf) buf e p 0;
              c' ← readC buf p';
              _ ← assertC (c' =? 125);
              '(buf, p'', l) ← collect fuel buf e (S p') (S tn);
              Ok (buf, p'', (S p, p') :: l)
            else
              p' ← word_token (length buf) buf e p;
              '(buf, p'', l) ← collect fuel buf e p' (S tn);
              Ok (buf, p'', (p, p') :: l)
      end
  else Ok (buf, p, []).

(** A token in the buffer, or its expansion. *)
Definition token : Type := nat + list Z.

Section expand.
Context (expand : list Z -> outcome (list Z)).

(** The loop that ends the tokens and expands their macros. *)
Fixpoint end_tokens (buf : list Z) (l : list (nat * nat)) : outcome (list Z * list token) :=
  match l with
  | [] => Ok (buf, [])
  | (s, e) :: l =>
      buf ← writeC buf e 0;
      t ← string_at (drop s buf);
      tok ← match str_find [36; 123] t with
            | Some _ => x ← expand t; Ok (inr x)
            | None => Ok (inl s)
            end;
      '(buf, toks) ← end_tokens buf l;
      Ok (buf, tok :: toks)
  end.

(** The strings a command sees. *)
Fixpoint token_strings (buf : list Z) (l : list token) : outcome (list (list Z)) :=
  match l with
  | [] => Ok []
  | inl s :: l => t ← string_at (drop s buf); r ← token_strings buf l; Ok (t :: r)
  | inr x :: l => r ← token_strings buf l; Ok (x :: r)
  end.
End expand.

(** ** Commands *)

Section state.
Context {St : Type}.

Record cmds := mk_cmds { c_name : list Z; c_cmd : list (list Z) -> St -> outcome St; c_flags : Z }.

Context (vtc_error : St -> bool) (vtc_stop : St -> bool) (icmds : St -> list cmds) (set_icmds : list cmds -> St -> St)
  (macros : St -> list macro) (autoload : list Z -> St -> option St) (malloc : Z -> option (list Z)) (ign_unknown_macro : bool).

Definition add_cmd (name : list Z) (cmd : list (list Z) -> St -> outcome St) (flags : Z) (st : St) : St :=
  set_icmds (mk_cmds name cmd flags :: icmds st) st.

Definition lookup_cmd (name : list Z) (l : list cmds) : option cmds := find (fun c => bool_decide (c_name c = name)) l.

(** [dlopen] may add commands. *)
Definition find_cmd (name : list Z) (st : St) : St * option cmds :=
  match lookup_cmd name (icmds st) with
  | Some c => (st, Some c)
  | None =>
      match autoload name st with
      | None => (st, None)
      | Some st => (st, lookup_cmd name (icmds st))
      end
  end.

(** ** A line *)

(** [cmds] is [vl->cmds], the commands of the object that is being specified. *)
Definition select_cmd (sub : option (list cmds)) (name : list Z) (st : St) : St * option cmds :=
  match sub ≫= lookup_cmd name with
  | Some c => (st, Some c)
  | None =>
      let '(st, cp) := find_cmd name st in
      match cp, sub with
      | Some c, Some _ => (st, if Z.land (c_flags c) CMDS_F_GLOBAL =? 0 then None else Some c)
      | _, _ => (st, cp)
      end
  end.

Section line.
Context (parse : list Z -> St -> outcome St) (sub : option (list cmds)).

(** [for (m = 0; m < n && !vtc_error && !vtc_stop; m++)]. *)
Fixpoint loop_body (n : nat) (spec : list Z) (st : St) : outcome St :=
  match n with
  | O => Ok st
  | S n => if vtc_error st || vtc_stop st then Ok st else st ← parse spec st; loop_body n spec st
  end.

(** A NULL token is a fault where it is used. *)
Definition run_tokens (av : list (list Z)) (st : St) : outcome St :=
  match av with
  | [] => Fault FBounds
  | t0 :: rest =>
      if bool_decide (t0 = [108; 111; 111; 112]) then
        match rest with
        | [] => Fault FBounds
        | t1 :: rest =>
            let n := Z.to_nat (u32 (strtoul0 t1)) in
            match rest, n with
            | [], O => Ok st
            | [], S _ => if vtc_error st || vtc_stop st then Ok st else Fault FAssert
            | t2 :: _, _ => loop_body n t2 st
            end
        end
      else
        let '(st, cp) := select_cmd sub t0 st in
        match cp with
        | None => Fault FFatal
        | Some c => c_cmd c av st
        end
  end.

(** The end of a comment. *)
Fixpoint skip_comment (fuel : nat) (buf : list Z) (p : nat) : outcome nat :=
  c ← readC buf p;
  if (c =? 0) || (c =? 10) then Ok p
  else match fuel with O => Fault FFuel | S fuel => skip_comment fuel buf (S p) end.

(** The loop over the lines. *)
Fixpoint parse_lines (fuel : nat) (buf : list Z) (e p : nat) (st : St) : outcome St :=
  if (p <? e)%nat then
    match fuel with
    | O => Fault FFuel
    | S fuel =>
        if vtc_error st || vtc_stop st then Ok st
        else
          c ← readC buf p;
          if isspace c then parse_lines fuel buf e (S p) st
          else if c =? 10 then parse_lines fuel buf e (S p) st
          else if c =? 35 then
            p ← skip_comment (length buf) buf p;
            c ← readC buf p;
            if c =? 0 then Ok st else parse_lines fuel buf e (S p) st
          else
            '(buf, p, l) ← collect (length buf) buf e p 0;
            _ ← assertC (p <=? e)%nat;
            _ ← assertC (length l <? MAX_TOKENS)%nat;
            '(buf, toks) ← end_tokens (expanded malloc ign_unknown_macro (macros st)) buf l;
            av ← token_strings buf toks;
            st ← run_tokens av st;
            parse_lines fuel buf e (S p) st
    end
  else Ok st.
End line.

(** The fuel bounds the nesting of loops. *)
Fixpoint parse_string (fuel : nat) (sub : option (list cmds)) (spec : list Z) (st : St) : outcome St :=
  match fuel with
  | O => Fault FFuel
  | S fuel => parse_lines (parse_string fuel sub) sub (S (length spec)) (spec ++ [0]) (length spec) 0 st
  end.

(** ** The end of a test *)

(** [cp->flags |= CMDS_F_SHUT] for the command that [find_cmd] finds. *)
Fixpoint set_shut (name : list Z) (l : list cmds) : list cmds :=
  match l with
  | [] => []
  | c :: l => if bool_decide (c_name c = name) then mk_cmds (c_name c) (c_cmd c) (Z.lor (c_flags c) CMDS_F_SHUT) :: l
              else c :: set_shut name l
  end.

Definition reset_cmd (name : list Z) (st : St) : outcome St :=
  let '(st, cp) := find_cmd name st in
  match cp with
  | None => Fault FAssert
  | Some c => st ← c_cmd c [] st; Ok (set_icmds (set_shut name (icmds st)) st)
  end.

(** The loop over the list; the commands called do not change it. *)
Fixpoint reset_loop (done todo : list cmds) (st : St) : outcome St :=
  match todo with
  | [] => Ok (set_icmds done st)
  | c :: todo =>
      if truth (Z.land (c_flags c) CMDS_F_SHUT)
      then reset_loop (done ++ [mk_cmds (c_name c) (c_cmd c) (Z.land (c_flags c) (Z.lnot CMDS_F_SHUT))]) todo st
      else st ← c_cmd c [] st; reset_loop (done ++ [c]) todo st
  end.

Definition reset_cmds (st : St) : outcome St :=
  st ← reset_cmd [99; 108; 105; 101; 110; 116] st;
  st ← reset_cmd [115; 101; 114; 118; 101; 114] st;
  reset_loop [] (icmds st) st.
End state.
Arguments cmds St : clear implicits.
