(* ===== verification/InterpSpec.v ===== *)
(** * Lines, tokens and commands (src/vtc.c)

    The language of test cases as relations, and [parse_string] as the
    execution of its lines; what happens to strings outside that language; the
    reset of the commands. *)

From Stdlib Require Import ZArith Lia ZifyBool.
From stdpp Require Import base option numbers list.
From S2P Require Import Prelude CStr Vnum Vav VavSpec Vsb VsbSpec VsbQuote Macro Interp.
#[local] Open Scope Z_scope.

(** ** The language *)

(** The text between braces, with [n] of them open. *)
Fixpoint nested (n : Z) (b : list Z) : Prop :=
  match b with
  | [] => n = 1
  | c :: b =>
      if c =? 123 then nested (n + 1) b
      else if c =? 125 then n <> 1 /\ nested (n - 1) b
      else nested n b
  end.

Definition blank (c : Z) : Prop := isspace c = true /\ c <> 10.
Definition solid (w : list Z) : Prop := Forall (fun c => isspace c = false) w.

(** The rest of a line and its tokens. *)
Inductive line_text : list Z -> list (list Z) -> Prop :=
  | l_nil : line_text [] []
  | l_blank c t ds : blank c -> line_text t ds -> line_text (c :: t) ds
  | l_cont t ds : line_text t ds -> line_text (92 :: 10 :: t) ds
  | l_word_end c w : solid (c :: w) -> c <> 34 -> c <> 123 -> (c = 92 -> w <> []) -> line_text (c :: w) [c :: w]
  | l_word c w b t ds : solid (c :: w) -> c <> 34 -> c <> 123 -> blank b -> line_text t ds ->
      line_text ((c :: w) ++ b :: t) ((c :: w) :: ds)
  | l_quoted x d t ds : escaped x d -> 10 ∉ x -> line_text t ds -> line_text (34 :: x ++ 34 :: t) (d :: ds)
  | l_braced b t ds : nested 1 b -> line_text t ds -> line_text (123 :: b ++ 125 :: t) (b :: ds).

(** A line starts with a token. *)
Definition starts (t : list Z) : Prop := match t with c :: _ => isspace c = false /\ c <> 35 | [] => False end.

Inductive script : list Z -> list (list (list Z)) -> Prop :=
  | s_nil : script [] []
  | s_space c t ls : isspace c = true -> script t ls -> script (c :: t) ls
  | s_comment x t ls : 10 ∉ x -> script t ls -> script (35 :: x ++ 10 :: t) ls
  | s_comment_end x : 10 ∉ x -> script (35 :: x) []
  | s_line t ds r ls : starts t -> line_text t ds -> script r ls -> script (t ++ 10 :: r) (ds :: ls)
  | s_last t ds : starts t -> line_text t ds -> script t [ds].

(** ** Tokens in the buffer *)

Definition tok (buf : list Z) (s e : nat) (d : list Z) : Prop :=
  exists x y z, buf = x ++ d ++ y :: z /\ length x = s /\ e = (s + length d)%nat.

Fixpoint laid (buf : list Z) (lo : nat) (l : list (nat * nat)) (ds : list (list Z)) : Prop :=
  match l, ds with
  | [], [] => True
  | (s, e) :: l, d :: ds => (lo <= s)%nat /\ tok buf s e d /\ laid buf (S e) l ds
  | _, _ => False
  end.

Lemma laid_weaken buf lo lo' l ds : laid buf lo l ds -> (lo' <= lo)%nat -> laid buf lo' l ds.
Proof. destruct l as [|[s e] l], ds as [|d ds]; try done. intros (H1 & H2 & H3) Hl. split; [lia|done]. Qed.

Lemma tok_lt buf s e d : tok buf s e d -> (s <= e < length buf)%nat.
Proof. intros (x & y & z & -> & <- & ->). rewrite !length_app. simpl. lia. Qed.

(** Writing before or behind a token. *)
Lemma tok_insert buf s e d i c : tok buf s e d -> (i < s)%nat \/ (e < i)%nat -> tok (<[i := c]> buf) s e d.
Proof.
  intros (x & y & z & -> & <- & ->) [Hi|Hi].
  - rewrite insert_app_l by lia. exists (<[i := c]> x), y, z. by rewrite length_insert.
  - exists x, y, (<[(i - (length x + length d) - 1)%nat := c]> z). split; [|done].
    replace i with (length x + (length d + S (i - (length x + length d) - 1)))%nat at 1 by lia.
    by rewrite !insert_app_r.
Qed.

Lemma laid_insert l : forall buf lo ds i c, laid buf lo l ds -> (i < lo)%nat -> laid (<[i := c]> buf) lo l ds.
Proof.
  induction l as [|[s e] l IH]; intros buf lo ds i c H Hi; destruct ds as [|d ds]; try done.
  destruct H as (H1 & H2 & H3). split; [done|]. pose proof (tok_lt _ _ _ _ H2). split; [apply tok_insert; [done|lia]|]. apply IH; [done|lia].
Qed.

(** A token with its NUL. *)
Definition ended (buf : list Z) (s e : nat) (d : list Z) : Prop := tok buf s e d /\ buf !! e = Some 0.

Lemma ended_string buf s e d : ended buf s e d -> no_nul d -> string_at (drop s buf) = Ok d.
Proof.
  intros [(x & y & z & -> & <- & ->) H0] Hd. rewrite drop_app_length.
  rewrite lookup_app_r in H0 by lia. replace (length x + length d - length x)%nat with (length d) in H0 by lia.
  rewrite lookup_app_r, Nat.sub_diag in H0 by lia. injection H0 as ->. by apply string_at_app.
Qed.

Lemma ended_write buf s e d : tok buf s e d -> ended (<[e := 0]> buf) s e d.
Proof.
  intros H. pose proof (tok_lt _ _ _ _ H) as Hl. split; [|by apply list_lookup_insert_eq; lia].
  destruct H as (x & y & z & -> & <- & ->). exists x, 0, z. split; [|done].
  rewrite <-(Nat.add_0_r (length d)). by rewrite !insert_app_r.
Qed.

(** ** Ending and expanding *)

Section expand.
Context (expand : list Z -> outcome (list Z)).

Definition expand_token (d : list Z) : outcome (list Z) :=
  match str_find [36; 123] d with Some _ => expand d | None => Ok d end.
Fixpoint expand_tokens (ds : list (list Z)) : outcome (list (list Z)) :=
  match ds with [] => Ok [] | d :: ds => v ← expand_token d; vs ← expand_tokens ds; Ok (v :: vs) end.

(** What does not change from [hi] on, nor before [lo]. *)
Definition outside (lo hi : nat) (buf buf' : list Z) : Prop :=
  length buf' = length buf /\ drop hi buf' = drop hi buf /\ forall s e d, tok buf s e d -> (e < lo)%nat -> tok buf' s e d /\ (buf !! e = Some 0 -> buf' !! e = Some 0).

Lemma end_tokens_ok l : forall buf lo hi ds, laid buf lo l ds -> Forall no_nul ds -> Forall (fun se => se.2 < hi)%nat l ->
  match expand_tokens ds with
  | Fault f => end_tokens expand buf l = Fault f
  | Ok vs => exists buf' toks, end_tokens expand buf l = Ok (buf', toks) /\ outside lo hi buf buf' /\
      token_strings buf' toks = Ok vs
  end.
Proof.
  induction l as [|[s e] l IH]; intros buf lo hi ds Hl Hz Hhi; destruct ds as [|d ds]; try done.
  - cbn [expand_tokens]. exists buf, []. split; [done|]. split; [|done]. split; [done|]. split; [done|auto].
  - destruct Hl as (Hlo & Ht & Hl). apply Forall_cons in Hz as [Hd Hz]. apply Forall_cons in Hhi as [He Hhi]. cbn [snd] in He.
    pose proof (tok_lt _ _ _ _ Ht) as Hb. cbn [end_tokens expand_tokens]. rewrite writeC_lt by lia. cbn [mbind outcome_bind].
    pose proof (ended_write _ _ _ _ Ht) as Hend. set (buf1 := <[e := 0]> buf) in *. rewrite (ended_string _ _ _ _ Hend Hd). cbn [mbind outcome_bind].
    specialize (IH buf1 (S e) hi ds (laid_insert _ buf _ _ e 0 Hl (Nat.lt_succ_diag_r e)) Hz Hhi).
    assert (forall v tk, (forall buf', tok buf' s e d -> buf' !! e = Some 0 -> forall toks r, token_strings buf' toks = Ok r -> token_strings buf' (tk :: toks) = Ok (v :: r)) ->
      match (vs ← expand_tokens ds; Ok (v :: vs)) with
      | Fault f => ('(buf, toks) ← end_tokens expand buf1 l; Ok (buf, tk :: toks)) = Fault f
      | Ok vs => exists buf' toks, ('(buf, toks) ← end_tokens expand buf1 l; Ok (buf, tk :: toks)) = Ok (buf', toks) /\ outside lo hi buf buf' /\
          token_strings buf' toks = Ok vs
      end) as Hgo.
    { intros v tk Htk. destruct (expand_tokens ds) as [vs|f]; cbn [mbind outcome_bind]; [|by rewrite IH].
      destruct IH as (buf' & toks & -> & (Hlen & Hdr & Hto) & Hs). cbn [mbind outcome_bind]. exists buf', (tk :: toks). split; [done|].
      destruct Hend as [Hend He0]. destruct (Hto s e d Hend) as [Ht' He']; [lia|]. split; [|by apply Htk; auto].
      split; [rewrite Hlen; apply length_insert|]. split; [rewrite Hdr; subst buf1; by rewrite drop_insert_lt by lia|].
      intros s2 e2 d2 H2 Hlt. destruct (Hto s2 e2 d2) as [H3 H4]; [apply tok_insert; [done|lia]|lia|]. split; [done|].
      intros H0. apply H4. subst buf1. by rewrite list_lookup_insert_ne by lia. }
    unfold expand_token. destruct (str_find [36; 123] d).
    + destruct (expand d) as [v|f]; cbn [mbind outcome_bind]; [|done]. apply (Hgo v (inr v)). intros buf' _ _ toks r Hr. cbn [token_strings]. by rewrite Hr.
    + cbn [mbind outcome_bind]. apply (Hgo d (inl s)). intros buf' Ht' He' toks r Hr. cbn [token_strings].
      rewrite (ended_string buf' s e d) by done. cbn [mbind outcome_bind]. by rewrite Hr.
Qed.
End expand.

(** ** The scanners *)

Lemma readC_at {A} (pre l : list A) c p : p = length pre -> readC (pre ++ c :: l) p = Ok c.
Proof. intros ->. apply readC_ok. by rewrite lookup_app_r, Nat.sub_diag by lia. Qed.

Definition stops (r : list Z) : Prop := match r with [] => True | c :: _ => isspace c = true end.

Lemma word_token_ok w : solid w -> forall fuel pre r p e, stops r -> (length w <= fuel)%nat -> p = length pre ->
  e = length (pre ++ w ++ r) -> word_token fuel (pre ++ w ++ r ++ [0]) e p = Ok (p + length w)%nat.
Proof.
  induction 1 as [|c w Hc Hw IH]; intros fuel pre r p e Hr Hf Hp He; rewrite Nat.add_comm.
  - assert (word_token fuel (pre ++ [] ++ r ++ [0]) e p = Ok p) as Hgo; [|exact Hgo].
    destruct r as [|c r]; [|assert ((p <? e)%nat = true) as Hlt by (rewrite !length_app in He; cbn [length] in He; lia)].
    + assert ((p <? e)%nat = false) as Hlt by (rewrite !length_app in He; cbn [length] in He; lia). destruct fuel; cbn [word_token]; by rewrite Hlt.
    + cbn [stops] in Hr. cbn [app]. destruct fuel; cbn [word_token]; rewrite Hlt, readC_at by done; cbn [mbind outcome_bind]; by rewrite Hr.
  - destruct fuel as [|fuel]; [simpl in Hf; lia|]. cbn [word_token length] in *.
    assert ((p <? e)%nat = true) as -> by (rewrite !length_app in He; cbn [length] in He; lia).
    cbn [app]. rewrite readC_at by done. cbn [mbind outcome_bind]. rewrite Hc.
    change (c :: w ++ r ++ [0]) with ([c] ++ w ++ r ++ [0]). rewrite app_assoc.
    rewrite (IH fuel (pre ++ [c]) r (S p) e Hr); [f_equal; lia|lia|rewrite length_app; simpl; lia|].
    rewrite He, !length_app. simpl. lia.
Qed.

Lemma brace_token_ok b : forall n fuel pre r p e, nested n b -> (length b < fuel)%nat -> p = length pre -> (p + length b < e)%nat ->
  brace_token fuel (pre ++ b ++ 125 :: r) e p n = Ok (p + length b)%nat.
Proof.
  induction b as [|c b IH]; intros n fuel pre r p e Hn Hf Hp He; destruct fuel as [|fuel]; try (simpl in Hf; lia); cbn [nested brace_token length] in *;
    rewrite (proj2 (Nat.ltb_lt p e)) by lia; cbn [app]; rewrite readC_at by done; cbn [mbind outcome_bind].
  - subst n. cbn. f_equal. lia.
  - assert (forall n, nested n b -> brace_token fuel (pre ++ c :: b ++ 125 :: r) e (S p) n = Ok (p + S (length b))%nat) as Hgo.
    { intros m Hm. change (c :: b ++ 125 :: r) with ([c] ++ b ++ 125 :: r). rewrite app_assoc.
      rewrite (IH m fuel (pre ++ [c]) r (S p) e Hm); [f_equal; lia|lia|rewrite length_app; simpl; lia|lia]. }
    destruct (c =? 123); [by apply Hgo|]. destruct (c =? 125); [|by apply Hgo]. destruct Hn as [Hn Hb].
    rewrite (proj2 (Z.eqb_neq (n - 1) 0)) by lia. by apply Hgo.
Qed.

(** A byte written to the front of a gap. *)
Lemma gap_write (A M R : list Z) c : M <> [] ->
  exists M', writeC (A ++ M ++ R) (length A) c = Ok ((A ++ [c]) ++ M' ++ R) /\ length M = S (length M').
Proof. destruct M as [|m M]; [done|]. exists M. split; [|done]. cbn [app]. by rewrite writeC_at, <-app_assoc. Qed.

Lemma length_snoc {A} (l : list A) c : length (l ++ [c]) = S (length l).
Proof. rewrite length_app. simpl. lia. Qed.

Lemma ok_triple {A B C} (a a' : A) (b b' : B) (c c' : C) : a = a' -> b = b' -> c = c' -> Ok (a, b, c) = Ok (a', b', c').
Proof. by intros -> -> ->. Qed.

Lemma quote_token_ok x d : escaped x d -> forall fuel A G z e p, no_nul x -> no_nul z -> 10 ∉ x -> (length x <= fuel)%nat ->
  p = (length A + length G)%nat -> (p + length x < e)%nat ->
  exists G', quote_token fuel (A ++ G ++ x ++ 34 :: z ++ [0]) e p (length A) =
      Ok ((A ++ d) ++ G' ++ 34 :: z ++ [0], (p + length x)%nat, (length A + length d)%nat) /\
    (length d + length G' = length G + length x)%nat.
Proof.
  induction 1 as [|c t d Hc Hq He IH|es c t d Hec He IH]; intros fuel A G z e p Hx Hz H10 Hf Hp Hpe.
  - exists G. rewrite app_nil_r. split; [|done]. cbn [app length]. rewrite !Nat.add_0_r. destruct fuel; cbn [quote_token];
      (rewrite app_assoc, readC_at by (rewrite length_app; done)); cbn [mbind outcome_bind]; rewrite (proj2 (Nat.ltb_lt p e)) by lia; done.
  - destruct fuel as [|fuel]; [simpl in Hf; lia|]. cbn [quote_token length] in *. apply not_elem_of_cons in H10 as [Hn H10].
    apply Forall_cons in Hx as [H0 Hx]. cbn [app]. rewrite (app_assoc A), readC_at by (rewrite length_app; done). cbn [mbind outcome_bind].
    rewrite (proj2 (Z.eqb_neq c _)) by done. rewrite (proj2 (Nat.ltb_lt p e)) by lia. cbn [assertC mbind outcome_bind].
    rewrite !(proj2 (Z.eqb_neq c _)) by done. rewrite <-app_assoc.
    destruct (gap_write A (G ++ [c]) (t ++ 34 :: z ++ [0]) c) as (M & HM & Hlen); [by destruct G|]. rewrite length_app in Hlen. simpl in Hlen.
    rewrite <-app_assoc in HM. cbn [app] in HM. rewrite HM. cbn [mbind outcome_bind].
    destruct (IH fuel (A ++ [c]) M z e (S p)) as (G' & HG & Hlg); [done..|lia|rewrite length_snoc; lia|lia|]. exists G'.
    rewrite length_snoc in HG. rewrite HG. split; [|simpl; lia]. apply ok_triple; [by rewrite <-!app_assoc|lia|simpl; lia].
  - destruct (escape_head es c Hec) as (e' & Ee & He'). rewrite length_app in *.
    apply not_elem_of_app in H10 as [_ H10]. apply Forall_app in Hx as [Hxe Hx].
    destruct fuel as [|fuel]; [subst; simpl in Hf; lia|]. cbn [quote_token].
    assert (readC (A ++ G ++ (es ++ t) ++ 34 :: z ++ [0]) p = Ok 92) as ->.
    { subst es. cbn [app]. rewrite (app_assoc A). apply readC_at. by rewrite length_app. }
    cbn [mbind outcome_bind]. change (92 =? 0) with false. cbv iota. rewrite (proj2 (Nat.ltb_lt p e)) by lia. cbn [assertC mbind outcome_bind].
    change (92 =? 34) with false. change (92 =? 92) with true. cbv iota.
    assert (string_at (drop p (A ++ G ++ (es ++ t) ++ 34 :: z ++ [0])) = Ok (es ++ t ++ 34 :: z)) as ->.
    { rewrite (app_assoc A), drop_app_length' by (rewrite length_app; done). rewrite <-!app_assoc.
      replace (es ++ t ++ 34 :: z ++ [0]) with ((es ++ t ++ 34 :: z) ++ 0 :: []) by by rewrite <-!app_assoc.
      apply string_at_app. apply Forall_app. split; [done|]. apply Forall_app. split; [done|]. by apply Forall_cons. }
    cbn [mbind outcome_bind]. rewrite (escape_ok es c _ Hec). cbn [mbind outcome_bind].
    rewrite (proj2 (Nat.ltb_ge _ 2)) by (rewrite !length_app; subst; simpl; lia). cbv iota.
    destruct (gap_write A (G ++ es) (t ++ 34 :: z ++ [0]) c) as (M & HM & Hlen); [subst; by destruct G|]. rewrite length_app in Hlen.
    rewrite <-app_assoc in HM. rewrite <-app_assoc, HM. cbn [mbind outcome_bind]. rewrite Nat2Z.id.
    destruct (IH fuel (A ++ [c]) M z e (p + length es)%nat) as (G' & HG & Hlg); [done..|subst; simpl in *; lia|rewrite length_snoc; lia|lia|]. exists G'.
    rewrite length_snoc in HG. rewrite HG. split; [|simpl; lia]. apply ok_triple; [by rewrite <-!app_assoc|lia|simpl; lia].
Qed.

(** ** The tokens of a line *)

(** The end of a line or of the text. *)
Definition line_end (r : list Z) : Prop := match r with [] => True | c :: _ => c = 10 end.

Definition collected (pre t r : list Z) (ds : list (list Z)) (res : outcome (list Z * nat * list (nat * nat))) : Prop :=
  exists t' l, res = Ok (pre ++ t' ++ r ++ [0], (length pre + length t)%nat, l) /\ length t' = length t /\
    laid (pre ++ t' ++ r ++ [0]) (length pre) l ds /\ Forall (fun se => se.2 <= length pre + length t)%nat l /\ length l = length ds.

Lemma collected_skip pre s t r ds res : collected (pre ++ s) t r ds res -> collected pre (s ++ t) r ds res.
Proof.
  intros (t' & l & Hr & Ht & Hl & Hf & Hn). exists (s ++ t'), l. rewrite !length_app in *. rewrite Nat.add_assoc, Ht, <-!app_assoc in *.
  split; [done|]. split; [done|]. split; [|done]. apply (laid_weaken _ (length pre + length s)); [done|lia].
Qed.

(** A token in front of what was collected; [u] is its text. *)
Lemma collected_cons pre a d b t r ds u res s e :
  collected (pre ++ a ++ d ++ b) t r ds res -> b <> [] -> length u = length (a ++ d ++ b) ->
  s = (length pre + length a)%nat -> e = (s + length d)%nat ->
  collected pre (u ++ t) r (d :: ds) ('(buf, p, l) ← res; Ok (buf, p, (s, e) :: l)).
Proof.
  intros (t' & l & -> & Ht & Hl & Hf & Hn) Hb Hu -> ->. exists ((a ++ d ++ b) ++ t'), ((length pre + length a, length pre + length a + length d)%nat :: l).
  rewrite !length_app in *. rewrite Hu, Ht, <-!app_assoc in *. cbn [mbind outcome_bind].
  assert (length b <> 0)%nat by (by destruct b).
  split; [apply ok_triple; [done|lia|done]|]. split; [lia|]. split.
  - split; [lia|]. split; [|eapply laid_weaken; [exact Hl|lia]]. destruct b as [|y b]; [done|].
    exists (pre ++ a), y, (b ++ t' ++ r ++ [0]). rewrite <-!app_assoc, length_app. done.
  - split; [|simpl; lia]. constructor; [simpl; lia|]. eapply Forall_impl; [exact Hf|]. intros [? ?]. simpl. lia.
Qed.

(** The step at a byte that does not end the line. *)
Lemma collect_at fuel pre c x e tn : (length pre < e)%nat -> (tn < MAX_TOKENS)%nat -> c <> 10 ->
  collect (S fuel) (pre ++ c :: x) e (length pre) tn =
    let buf := pre ++ c :: x in let p := length pre in
    if isspace c then collect fuel buf e (S p) tn
    else
      c1 ← (if c =? 92 then readC buf (S p) else Ok 0);
      if (c =? 92) && (c1 =? 10) then collect fuel buf e (p + 2) tn
      else if c =? 34 then
        '(buf, p', q) ← quote_token (length buf) buf e (S p) (S p);
        '(buf, p', l) ← collect fuel buf e (S p') (S tn);
        Ok (buf, p', (S p, q) :: l)
      else if c =? 123 then
        p' ← brace_token (length buf) buf e p 0;
        c' ← readC buf p';
        _ ← assertC (c' =? 125);
        '(buf, p'', l) ← collect fuel buf e (S p') (S tn);
        Ok (buf, p'', (S p, p') :: l)
      else
        p' ← word_token (length buf) buf e p;
        '(buf, p'', l) ← collect fuel buf e p' (S tn);
        Ok (buf, p'', (p, p') :: l).
Proof.
  intros He Ht Hc. cbn [collect]. rewrite (proj2 (Nat.ltb_lt _ e)), (proj2 (Nat.ltb_lt tn _)) by done. cbn [assertC mbind outcome_bind].
  rewrite (readC_at pre x c _ eq_refl). cbn [mbind outcome_bind]. by rewrite (proj2 (Z.eqb_neq c 10)).
Qed.

Lemma solid_not c w : solid (c :: w) -> isspace c = false /\ c <> 10.
Proof. intros [Hc _]%Forall_cons. split; [done|]. by intros ->. Qed.

Lemma collect_end fuel pre r tn buf e p : buf = pre ++ r ++ [0] -> e = length (pre ++ r) -> p = length pre -> line_end r -> (tn < MAX_TOKENS)%nat ->
  collected pre [] r [] (collect fuel buf e p tn).
Proof.
  intros -> -> -> Hr Ht. exists [], []. cbn [app length]. rewrite Nat.add_0_r. split; [|done].
  rewrite length_app. destruct r as [|c r].
  - cbn [length]. destruct fuel; cbn [collect]; by rewrite (proj2 (Nat.ltb_ge _ _)) by lia.
  - cbn [line_end] in Hr. subst c. cbn [length]. destruct fuel; cbn [collect]; rewrite (proj2 (Nat.ltb_lt (length pre) _)), (proj2 (Nat.ltb_lt tn _)) by lia;
      cbn [assertC mbind outcome_bind app]; by rewrite (readC_at pre (r ++ [0]) 10 _ eq_refl).
Qed.

Lemma readC_next {A} (pre l : list A) c d : readC (pre ++ c :: d :: l) (S (length pre)) = Ok d.
Proof. change (c :: d :: l) with ([c] ++ d :: l). rewrite app_assoc. apply readC_at. by rewrite length_snoc. Qed.

#[local] Tactic Notation "sizes" := rewrite ?length_app in *; cbn [length app] in *; rewrite ?length_app in *; cbn [length] in *; lia.
#[local] Tactic Notation "flat" := cbn [app]; rewrite <-?app_assoc; cbn [app]; rewrite <-?app_assoc; done.

Lemma word_scan pre c w r fuel e : solid (c :: w) -> stops r -> (length (pre ++ c :: w) <= fuel)%nat -> e = length (pre ++ (c :: w) ++ r) ->
  word_token fuel (pre ++ c :: w ++ r ++ [0]) e (length pre) = Ok (length pre + length (c :: w))%nat.
Proof. intros Hs Hr Hf He. change (c :: w ++ r ++ [0]) with ((c :: w) ++ r ++ [0]). apply word_token_ok; [done|done|sizes|done|done]. Qed.

Lemma not_cont {A} pre c x (a b : outcome A) : (c = 92 -> head x <> Some 10) -> x <> [] ->
  (c1 ← (if c =? 92 then readC (pre ++ c :: x) (S (length pre)) else Ok 0); if (c =? 92) && (c1 =? 10) then a else b) = b.
Proof.
  intros Hy Hx. destruct (c =? 92) eqn:E; [|done]. destruct x as [|y x]; [done|]. rewrite readC_next. cbn [mbind outcome_bind andb].
  rewrite (proj2 (Z.eqb_neq y 10)); [done|]. intros ->. apply Hy; [lia|done].
Qed.

Lemma collect_word fuel pre c w r tn : solid (c :: w) -> c <> 34 -> c <> 123 -> (c = 92 -> head (w ++ r ++ [0]) <> Some 10) -> stops r ->
  (tn < MAX_TOKENS)%nat ->
  let buf := pre ++ (c :: w) ++ r ++ [0] in let e := length (pre ++ (c :: w) ++ r) in
  collect (S fuel) buf e (length pre) tn =
    ('(buf, p, l) ← collect fuel buf e (length pre + length (c :: w)) (S tn);
     Ok (buf, p, (length pre, (length pre + length (c :: w))%nat) :: l)).
Proof.
  intros Hs Hq Hb H92 Hr Ht buf e. subst buf e. destruct (solid_not c w Hs) as [Hc Hc10]. cbn [app]. rewrite collect_at by (done || sizes). cbv zeta. rewrite Hc.
  rewrite not_cont by (done || by destruct w, r). rewrite (proj2 (Z.eqb_neq c 34)), (proj2 (Z.eqb_neq c 123)) by done.
  rewrite word_scan; [done|done|done|sizes|done].
Qed.

Lemma line_end_stops r : line_end r -> stops r.
Proof. destruct r as [|c r]; [done|]. by intros ->. Qed.

Lemma collect_ok t ds : line_text t ds -> forall fuel pre r tn buf e p, buf = pre ++ t ++ r ++ [0] -> e = length (pre ++ t ++ r) -> p = length pre ->
  no_nul t -> no_nul r -> line_end r -> (length t <= fuel)%nat -> (tn + length ds < MAX_TOKENS)%nat ->
  collected pre t r ds (collect fuel buf e p tn).
Proof.
  induction 1 as [|c t ds Hc _ IH|t ds _ IH|c w Hs Hq Hb H92|c w b t ds Hs Hq Hb Hbl _ IH|x d t ds Hx H10 _ IH|b t ds Hb _ IH];
    intros fuel pre r tn buf e p -> -> -> Hz Hr He Hf Htn.
  - apply collect_end; [done..|sizes].
  - destruct Hc as [Hc Hc10]. apply Forall_cons in Hz as [_ Hz]. destruct fuel as [|fuel]; [sizes|]. cbn [app].
    rewrite collect_at by (done || sizes). cbv zeta. rewrite Hc.
    apply (collected_skip pre [c]), IH; [flat|flat|by rewrite length_snoc|done..|sizes|sizes].
  - apply Forall_cons in Hz as [_ Hz]. apply Forall_cons in Hz as [_ Hz]. destruct fuel as [|fuel]; [sizes|]. cbn [app].
    rewrite collect_at by (done || sizes). cbv zeta. change (isspace 92) with false. cbv iota. cbn [Z.eqb Pos.eqb andb].
    rewrite readC_next. cbn [mbind outcome_bind Z.eqb Pos.eqb].
    apply (collected_skip pre [92; 10]), IH; [flat|flat|sizes|done..|sizes|sizes].
  - destruct fuel as [|fuel]; [sizes|]. rewrite collect_word; [|done..| |by apply line_end_stops|sizes].
    2:{ intros E. specialize (H92 E). destruct w as [|y w]; [done|]. intros [= ->]. apply Forall_cons in Hs as [_ Hs]. by destruct (solid_not _ _ Hs). }
    destruct (collect_end fuel (pre ++ c :: w) r (S tn) (pre ++ (c :: w) ++ r ++ [0]) (length (pre ++ (c :: w) ++ r)) (length pre + length (c :: w)))
      as (t' & l & E & Ht & Hl & _ & Hn); [by rewrite <-app_assoc|by rewrite <-app_assoc|by rewrite length_app|done|sizes|].
    destruct l; [|done]. destruct t'; [|done]. rewrite E. cbn [mbind outcome_bind].
    exists (c :: w), [(length pre, (length pre + length (c :: w))%nat)]. split; [apply ok_triple; [by rewrite <-app_assoc|sizes|done]|]. split; [done|].
    split; [|split; [by constructor; [simpl; lia|]|done]]. split; [done|]. split; [|done].
    destruct r as [|y r]; [exists pre, 0, []|exists pre, y, (r ++ [0])]; done.
  - destruct Hbl as [Hbl Hb10]. destruct fuel as [|[|fuel]]; [sizes..|]. apply Forall_app in Hz as [_ [_ Hz]%Forall_cons].
    pose proof (collect_word (S fuel) pre c w (b :: t ++ r) tn Hs Hq Hb) as E. cbv zeta in E.
    replace (pre ++ ((c :: w) ++ b :: t) ++ r) with (pre ++ (c :: w) ++ b :: t ++ r) by flat.
    replace (pre ++ ((c :: w) ++ b :: t) ++ r ++ [0]) with (pre ++ (c :: w) ++ (b :: t ++ r) ++ [0]) by flat.
    rewrite E; [|by intros _; destruct w as [|y w]; intros [= ->]; [|apply Forall_cons in Hs as [_ Hs]; destruct (solid_not _ _ Hs)]|done|sizes]. clear E.
    change ((c :: w) ++ b :: t) with ((c :: w) ++ [b] ++ t). rewrite (app_assoc (c :: w)).
    apply (collected_cons pre [] (c :: w) [b] t r ds); [|done|done|sizes|sizes].
    rewrite (app_assoc pre (c :: w)), <-length_app. cbn [app]. rewrite collect_at by (done || sizes). cbv zeta. rewrite Hbl.
    apply IH; [flat|flat|sizes|done..|sizes|sizes].
  - destruct fuel as [|fuel]; [sizes|]. apply Forall_cons in Hz as [_ Hz]. apply Forall_app in Hz as [Hzx [_ Hz]%Forall_cons].
    assert (34 :: x ++ 34 :: t = ([34] ++ x ++ [34]) ++ t) as Et by flat. rewrite Et at 1. clear Et. cbn [app].
    rewrite collect_at by (done || sizes). cbv zeta. change (isspace 34) with false. cbn [Z.eqb Pos.eqb andb mbind outcome_bind].
    destruct (quote_token_ok x d Hx (length (pre ++ 34 :: (x ++ 34 :: t) ++ r ++ [0])) (pre ++ [34]) [] (t ++ r)
      (length (pre ++ 34 :: (x ++ 34 :: t) ++ r)) (S (length pre))) as (G & E & HG); [done|by apply Forall_app|done|sizes..|].
    replace ((pre ++ [34]) ++ [] ++ x ++ 34 :: (t ++ r) ++ [0]) with (pre ++ 34 :: (x ++ 34 :: t) ++ r ++ [0]) in E by flat.
    rewrite length_snoc in E. rewrite E. cbn [mbind outcome_bind].
    apply (collected_cons pre [34] d (G ++ [34]) t r ds (34 :: x ++ [34])); [|by destruct G|sizes..].
    apply IH; [flat|sizes|sizes|done..|sizes|sizes].
  - destruct fuel as [|fuel]; [sizes|]. apply Forall_cons in Hz as [_ Hz]. apply Forall_app in Hz as [Hzb [_ Hz]%Forall_cons].
    assert (123 :: b ++ 125 :: t = ([123] ++ b ++ [125]) ++ t) as Et by flat. rewrite Et at 1. clear Et. cbn [app].
    rewrite collect_at by (done || sizes). cbv zeta. change (isspace 123) with false. cbn [Z.eqb Pos.eqb andb mbind outcome_bind].
    set (buf := pre ++ 123 :: (b ++ 125 :: t) ++ r ++ [0]). set (e := length (pre ++ 123 :: (b ++ 125 :: t) ++ r)).
    assert (length pre + length b + 1 < e)%nat as He2 by (subst e; sizes).
    assert (buf = (pre ++ [123]) ++ b ++ 125 :: t ++ r ++ [0]) as Eb by (subst buf; flat).
    assert (brace_token (length buf) buf e (length pre) 0 = Ok (length pre + S (length b))%nat) as ->.
    { replace (length buf) with (S (length pre + S (length b) + length (t ++ r ++ [0]))) by (rewrite Eb; sizes).
      cbn [brace_token]. rewrite (proj2 (Nat.ltb_lt _ e)) by lia. rewrite (readC_at pre _ 123 _ eq_refl : readC buf (length pre) = _). cbn [mbind outcome_bind Z.eqb Pos.eqb Z.add].
      rewrite Eb, brace_token_ok; [f_equal; lia|done|lia|by rewrite length_snoc|lia]. }
    cbn [mbind outcome_bind]. assert (readC buf (length pre + S (length b)) = Ok 125) as ->.
    { rewrite Eb, app_assoc. apply readC_at. sizes. }
    cbn [mbind outcome_bind Z.eqb Pos.eqb assertC].
    apply (collected_cons pre [123] b [125] t r ds (123 :: b ++ [125])); [|done|sizes..].
    apply IH; [rewrite Eb; flat|subst e; sizes|sizes|done..|sizes|sizes].
Qed.

(** ** The lines of a script *)

Section run.
Context {St : Type} (vtc_error vtc_stop : St -> bool) (icmds : St -> list (cmds St)) (set_icmds : list (cmds St) -> St -> St)
  (macros : St -> list macro) (autoload : list Z -> St -> option St) (malloc : Z -> option (list Z)) (ign_unknown_macro : bool).

Section line.
Context (parse : list Z -> St -> outcome St) (sub : option (list (cmds St))).
#[local] Abbreviation plines := (parse_lines vtc_error vtc_stop icmds macros autoload malloc ign_unknown_macro parse sub).
#[local] Abbreviation rtokens := (run_tokens vtc_error vtc_stop icmds autoload parse sub).

(** Expand the macros of a line and run it. *)
Fixpoint run_lines (ls : list (list (list Z))) (st : St) : outcome St :=
  match ls with
  | [] => Ok st
  | ds :: ls =>
      if vtc_error st || vtc_stop st then Ok st
      else
        av ← expand_tokens (expanded malloc ign_unknown_macro (macros st)) ds;
        st ← rtokens av st;
        run_lines ls st
  end.

Lemma run_lines_stop ls st : vtc_error st || vtc_stop st = true -> run_lines ls st = Ok st.
Proof. destruct ls as [|ds ls]; cbn [run_lines]; [done|]. by intros ->. Qed.

Lemma skip_comment_ok x : forall fuel pre r c p, 10 ∉ x -> no_nul x -> p = length pre -> (length x <= fuel)%nat -> (c = 0 \/ c = 10) ->
  skip_comment fuel (pre ++ x ++ c :: r) p = Ok (p + length x)%nat.
Proof.
  induction x as [|d x IH]; intros fuel pre r c p H10 Hz Hp Hf Hc; cbn [app length] in *.
  - rewrite Nat.add_0_r. destruct fuel; cbn [skip_comment]; rewrite (readC_at pre r c p Hp); cbn [mbind outcome_bind];
      by rewrite (proj2 (orb_true_iff (c =? 0) (c =? 10))) by lia.
  - apply not_elem_of_cons in H10 as [Hd H10]. apply Forall_cons in Hz as [H0 Hz]. destruct fuel as [|fuel]; [lia|]. cbn [skip_comment].
    rewrite (readC_at pre _ d p Hp). cbn [mbind outcome_bind]. rewrite (proj2 (orb_false_iff (d =? 0) (d =? 10))) by lia.
    change (d :: x ++ c :: r) with ([d] ++ x ++ c :: r). rewrite app_assoc, IH; [f_equal; lia|done..|rewrite length_snoc; lia|lia|done].
Qed.

Lemma drop_line (pre t r : list Z) n : length t = n -> drop (S (length pre + n)) (pre ++ t ++ r ++ [0]) = drop 1 (r ++ [0]).
Proof. intros <-. rewrite app_assoc. replace (S (length pre + length t)) with (length (pre ++ t) + 1)%nat by sizes. apply drop_app_add. Qed.

(** One line: [r] is its end and what follows. *)
Lemma line_ok fuel pre t ds r st buf e p : buf = pre ++ t ++ r ++ [0] -> e = length (pre ++ t ++ r) -> p = length pre ->
  starts t -> line_text t ds -> no_nul t -> no_nul r -> line_end r -> Forall no_nul ds -> (length ds < MAX_TOKENS)%nat ->
  vtc_error st || vtc_stop st = false ->
  exists buf', length buf' = length buf /\ drop (S (p + length t)) buf' = drop 1 (r ++ [0]) /\
  plines (S fuel) buf e p st =
    av ← expand_tokens (expanded malloc ign_unknown_macro (macros st)) ds;
    st ← rtokens av st;
    plines fuel buf' e (S (p + length t)) st.
Proof.
  intros -> -> -> Hs Ht Hz Hr He Hd Hn Hgo. destruct t as [|c t]; [done|]. destruct Hs as [Hc Hc35]. cbn [parse_lines].
  rewrite (proj2 (Nat.ltb_lt (length pre) _)) by sizes. rewrite Hgo. rewrite (readC_at pre _ c _ eq_refl : readC (pre ++ (c :: t) ++ r ++ [0]) _ = _).
  cbn [mbind outcome_bind]. rewrite Hc. rewrite (proj2 (Z.eqb_neq c 10)) by (intros ->; done). rewrite (proj2 (Z.eqb_neq c 35)) by done.
  destruct (collect_ok (c :: t) ds Ht (length (pre ++ (c :: t) ++ r ++ [0])) pre r 0 _ _ _ eq_refl eq_refl eq_refl) as (t' & l & -> & Hlt & Hl & Hlf & Hll);
    [done|done|done|sizes|done|]. cbn [mbind outcome_bind].
  rewrite (proj2 (Nat.leb_le _ (length (pre ++ (c :: t) ++ r)))) by sizes. rewrite Hll, (proj2 (Nat.ltb_lt _ MAX_TOKENS)) by done. cbn [assertC mbind outcome_bind].
  pose proof (end_tokens_ok (expanded malloc ign_unknown_macro (macros st)) l _ (length pre) (S (length pre + length (c :: t))) ds Hl Hd) as Hend.
  destruct (expand_tokens _ ds) as [vs|f].
  - destruct Hend as (buf' & toks & -> & (Hbl & Hbd & _) & Htok); [eapply Forall_impl; [exact Hlf|]; simpl; lia|].
    exists buf'. split; [rewrite Hbl; sizes|]. cbn [mbind outcome_bind]. rewrite Htok. split; [|done].
    rewrite Hbd. by apply drop_line.
  - exists (pre ++ (c :: t) ++ r ++ [0]). split; [done|]. rewrite Hend by (eapply Forall_impl; [exact Hlf|]; simpl; lia). split; [|done].
    by apply drop_line.
Qed.

Lemma plines_out fuel buf e p st : (e <= p)%nat -> plines fuel buf e p st = Ok st.
Proof. intros H. destruct fuel; cbn [parse_lines]; by rewrite (proj2 (Nat.ltb_ge p e)). Qed.

Lemma plines_stop fuel buf e p st : vtc_error st || vtc_stop st = true -> plines (S fuel) buf e p st = Ok st.
Proof. intros H. cbn [parse_lines]. rewrite H. by destruct (p <? e)%nat. Qed.

Definition plain (ls : list (list (list Z))) : Prop := Forall (fun ds => Forall no_nul ds /\ (length ds < MAX_TOKENS)%nat) ls.

Lemma parse_lines_ok text ls : script text ls -> forall fuel pre buf e p st, buf = pre ++ text ++ [0] -> e = length (pre ++ text) -> p = length pre ->
  no_nul text -> plain ls -> (length text <= fuel)%nat -> plines fuel buf e p st = run_lines ls st.
Proof.
  induction 1 as [|c t ls Hc _ IH|x t ls Hx _ IH|x Hx|t ds r ls Hs Ht _ IH|t ds Hs Ht]; intros fuel pre buf e p st -> -> -> Hz Hp Hf.
  - rewrite plines_out by sizes. done.
  - destruct fuel as [|fuel]; [sizes|]. destruct (vtc_error st || vtc_stop st) eqn:Est; [by rewrite plines_stop, run_lines_stop|].
    apply Forall_cons in Hz as [_ Hz]. cbn [parse_lines app]. rewrite (proj2 (Nat.ltb_lt _ _)) by sizes. rewrite Est, (readC_at pre _ c _ eq_refl). cbn [mbind outcome_bind].
    rewrite Hc. apply (IH fuel (pre ++ [c])); [flat|sizes|sizes|done..|sizes].
  - destruct fuel as [|fuel]; [sizes|]. destruct (vtc_error st || vtc_stop st) eqn:Est; [by rewrite plines_stop, run_lines_stop|].
    apply Forall_cons in Hz as [_ Hz]. apply Forall_app in Hz as [Hzx [_ Hz]%Forall_cons]. cbn [parse_lines app]. rewrite (proj2 (Nat.ltb_lt _ _)) by sizes.
    rewrite Est, (readC_at pre _ 35 _ eq_refl). cbn [mbind outcome_bind]. change (isspace 35) with false. cbn [Z.eqb Pos.eqb]. rewrite <-app_assoc.
    rewrite (skip_comment_ok (35 :: x) _ pre (t ++ [0]) 10) by (done || sizes || (by apply not_elem_of_cons) || (by apply Forall_cons) || lia).
    cbn [mbind outcome_bind].
    change (pre ++ 35 :: x ++ (10 :: t) ++ [0]) with (pre ++ (35 :: x) ++ 10 :: t ++ [0]). rewrite (app_assoc pre (35 :: x) (10 :: t ++ [0])), (readC_at _ _ 10) by sizes. cbn [mbind outcome_bind Z.eqb Pos.eqb].
    apply (IH fuel (pre ++ 35 :: x ++ [10])); [flat|sizes|sizes|done..|sizes].
  - destruct fuel as [|fuel]; [sizes|]. destruct (vtc_error st || vtc_stop st) eqn:Est; [by rewrite plines_stop, run_lines_stop|].
    apply Forall_cons in Hz as [_ Hz]. cbn [parse_lines app]. rewrite (proj2 (Nat.ltb_lt _ _)) by sizes.
    rewrite Est, (readC_at pre _ 35 _ eq_refl). cbn [mbind outcome_bind]. change (isspace 35) with false. cbn [Z.eqb Pos.eqb].
    rewrite (skip_comment_ok (35 :: x) _ pre [] 0) by (done || sizes || (by apply not_elem_of_cons) || (by apply Forall_cons) || lia).
    cbn [mbind outcome_bind]. change (pre ++ 35 :: x ++ [0]) with (pre ++ (35 :: x) ++ [0]). rewrite (app_assoc pre (35 :: x) [0]), (readC_at _ _ 0) by sizes. done.
  - destruct fuel as [|fuel]; [destruct t; [done|sizes]|]. destruct (vtc_error st || vtc_stop st) eqn:Est; [by rewrite plines_stop, run_lines_stop|].
    apply Forall_app in Hz as [Hzt [_ Hzr]%Forall_cons]. apply Forall_cons in Hp as [[Hd Hn] Hp].
    destruct (line_ok fuel pre t ds (10 :: r) st (pre ++ (t ++ 10 :: r) ++ [0]) (length (pre ++ t ++ 10 :: r)) (length pre)) as (buf' & Hl & Hdr & E);
      try done; [by rewrite <-app_assoc|by apply Forall_cons|].
    rewrite E. cbn [run_lines]. rewrite Est. destruct (expand_tokens _ ds) as [av|]; [|done]. cbn [mbind outcome_bind].
    destruct (rtokens av st) as [st'|]; [|done]. cbn [mbind outcome_bind]. change (drop 1 ((10 :: r) ++ [0])) with (r ++ [0]) in Hdr.
    apply (IH fuel (take (S (length pre + length t)) buf')); [by rewrite <-Hdr, take_drop|rewrite (length_app (take _ _)), length_take, Hl; sizes|rewrite length_take, Hl; sizes|done..|destruct t; [done|sizes]].
  - destruct fuel as [|fuel]; [destruct t; [done|sizes]|]. destruct (vtc_error st || vtc_stop st) eqn:Est; [by rewrite plines_stop, run_lines_stop|].
    apply Forall_cons in Hp as [[Hd Hn] Hp].
    destruct (line_ok fuel pre t ds [] st (pre ++ t ++ [0]) (length (pre ++ t)) (length pre)) as (buf' & Hl & Hdr & E); try done; [by rewrite app_nil_r|by constructor|].
    rewrite E. cbn [run_lines]. rewrite Est. destruct (expand_tokens _ ds) as [av|]; [|done]. cbn [mbind outcome_bind].
    destruct (rtokens av st) as [st'|]; [|done]. cbn [mbind outcome_bind]. apply plines_out. sizes.
Qed.
End line.

(** C26: [parse_string] runs the lines of a script in their order, until an error or
    a stop: each line is cut into the words of the language, whatever the
    expansion of one line does to the buffer does not touch the next, and a
    line is expanded with the macros that the lines before it have defined. *)
Theorem parse_script k sub text ls st : script text ls -> no_nul text -> plain ls ->
  parse_string vtc_error vtc_stop icmds macros autoload malloc ign_unknown_macro (S k) sub text st =
    run_lines (parse_string vtc_error vtc_stop icmds macros autoload malloc ign_unknown_macro k sub) sub ls st.
Proof. intros. cbn [parse_string]. by apply (parse_lines_ok _ _ text ls H (S (length text)) []); [..|lia]. Qed.
End run.

(** A command that keeps what it was called with. *)
Definition example_malloc (n : Z) : option (list Z) := Some (replicate (Z.to_nat n) 0).
Definition example_cmds : list (cmds (list (list (list Z)))) := [mk_cmds [102; 111; 111] (fun av st => Ok (st ++ [av])) CMDS_F_NONE].
Abbreviation example_parse := (parse_string (fun _ => false) (fun _ => false) (fun _ => example_cmds)
  (fun _ => [mk_macro [109] (Some [55]) None]) (fun _ _ => None) example_malloc false).

(** [foo "a\tb" {x}], a comment, and [foo ${m}]. *)
Definition example_script : list Z :=
  [102; 111; 111; 32; 34; 97; 92; 116; 98; 34; 32; 123; 120; 125; 10; 35; 33; 10; 102; 111; 111; 32; 36; 123; 109; 125].
Definition example_lines : list (list (list Z)) := [[[102; 111; 111]; [97; 9; 98]; [120]]; [[102; 111; 111]; [36; 123; 109; 125]]].

Lemma example_script_ok : script example_script example_lines.
Proof.
  apply (s_line [102; 111; 111; 32; 34; 97; 92; 116; 98; 34; 32; 123; 120; 125] _ [35; 33; 10; 102; 111; 111; 32; 36; 123; 109; 125]); [done| |].
  - apply (l_word 102 [111; 111] 32 [34; 97; 92; 116; 98; 34; 32; 123; 120; 125]); [by repeat constructor|done..|].
    apply (l_quoted [97; 92; 116; 98] [97; 9; 98] [32; 123; 120; 125]); [|by rewrite !not_elem_of_cons; split_and!; [..|apply not_elem_of_nil]|].
    + apply escaped_plain; [done..|]. apply (escaped_seq [92; 116] 9 [98]); [constructor|]. by repeat constructor.
    + apply l_blank; [done|]. apply (l_braced [120] []); [done|constructor].
  - apply (s_comment [33] [102; 111; 111; 32; 36; 123; 109; 125]); [by rewrite list_elem_of_singleton|]. apply s_last; [done|].
    apply (l_word 102 [111; 111] 32 [36; 123; 109; 125]); [by repeat constructor|done..|]. apply l_word_end; [by repeat constructor|done..].
Qed.

Lemma parse_script_witness : example_parse 1 None example_script [] =
  Ok [[[102; 111; 111]; [97; 9; 98]; [120]]; [[102; 111; 111]; [55]]].
Proof.
  rewrite (parse_script _ _ _ _ _ _ _ 0 None example_script example_lines [] example_script_ok); [by vm_compute|by repeat constructor|by repeat constructor].
Defined.

(** ** Strings that are not scripts *)

(** A quoted string that ends in a backslash at the end of the text is never
    left: [VAV_BackSlash] finds one byte and returns zero, which the loop adds
    to [p]. *)
Theorem quote_hang pre q fuel : quote_token fuel (pre ++ [92; 0]) (S (length pre)) (length pre) q = Fault FFuel.
Proof.
  revert q. induction fuel as [|fuel IH]; intros q; cbn [quote_token]; rewrite (readC_at pre [0] 92 _ eq_refl);
    cbn [mbind outcome_bind Z.eqb Pos.eqb]; rewrite (proj2 (Nat.ltb_lt _ _)) by lia; cbn [assertC mbind outcome_bind]; [done|].
  rewrite drop_app_length. cbn [string_at Z.eqb mbind outcome_bind length vav_backslash_txt Z.of_nat Pos.of_succ_nat Z.ltb Z.compare Nat.ltb Nat.leb].
  change (vav_backslash_txt [92]) with (Ok (0, 0)). cbn [mbind outcome_bind Z.to_nat]. rewrite Nat.add_0_r. apply IH.
Qed.

(** An invalid escape ends its token and empties the next, without a message;
    an unterminated string or brace fails an assertion; a line of a
    continuation and a [loop] without a count read a NULL token. *)
Lemma bad_lines :
  example_parse 1 None [102; 111; 111; 32; 34; 97; 92; 113; 98; 34; 32; 99] [] = Ok [[[102; 111; 111]; [97]; []; [99]]] /\
  example_parse 1 None [102; 111; 111; 32; 34; 97] [] = Fault FAssert /\
  example_parse 1 None [102; 111; 111; 32; 123; 97] [] = Fault FAssert /\
  example_parse 1 None [92; 10] [] = Fault FBounds /\
  example_parse 1 None [108; 111; 111; 112] [] = Fault FBounds /\
  example_parse 1 None [102; 111; 111; 32; 34; 92] [] = Fault FFuel.
Proof. by vm_compute. Qed.
