(* ===== verification/Vlu.v ===== *)
(** * Lines from a byte stream (lib/vlu.c)

    A buffer of [bufl + 1] bytes that collects what is read until a line is
    complete.  The function called for a line is a value of the model, with a
    state of its own; what [read] returns is an argument. *)

From Stdlib Require Import ZArith Lia ZifyBool.
From stdpp Require Import base option numbers list.
From S2P Require Import Prelude CStr.
#[local] Open Scope Z_scope.

Record vlu := mk_vlu { l_buf : list Z; l_bufl : nat; l_bufp : nat }.

Definition BUFSIZ : Z := 8192.

Section func.
Context {St : Type} (func : St -> list Z -> outcome (St * Z)).

(** [malloc] of the buffer; its bytes are indeterminate.  NULL is None. *)
Definition VLU_New (malloc : Z -> option (list Z)) (bufsize : Z) : option vlu :=
  let bufsize := if bufsize =? 0 then BUFSIZ else bufsize in
  let bufl := u32 (bufsize - 1) in
  b ← malloc (bufl + 1); Some (mk_vlu b (Z.to_nat bufl) 0).

Definition VLU_Reset (l : vlu) : vlu := mk_vlu (l_buf l) (l_bufl l) 0.

(** [for (q = p; *q != '\0'; q++) if ( *q == '\n' || *q == '\r') break;]. *)
Fixpoint find_eol (fuel : nat) (buf : list Z) (q : nat) : outcome nat :=
  c ← readC buf q;
  if c =? 0 then Ok q
  else if (c =? 10) || (c =? 13) then Ok q
  else match fuel with O => Fault FFuel | S fuel => find_eol fuel buf (S q) end.

(** The loop over the lines; the result is [p] at its end, or the value of the
    function that stopped it. *)
Fixpoint lines_loop (fuel : nat) (buf : list Z) (p : nat) (st : St) : outcome (list Z * St * (nat + Z)) :=
  c ← readC buf p;
  if c =? 0 then Ok (buf, st, inl p)
  else
    q ← find_eol (length buf) buf p;
    c ← readC buf q;
    if c =? 0 then Ok (buf, st, inl p)
    else
      buf ← writeC buf q 0;
      s ← string_at (drop p buf);
      '(st, i) ← func st s;
      if negb (i =? 0) then Ok (buf, st, inr i)
      else match fuel with O => Fault FFuel | S fuel => lines_loop fuel buf (S q) st end.

(** [memmove] and [memcpy] of [b] to [p]. *)
Definition copy_to (buf : list Z) (p : nat) (b : list Z) : outcome (list Z) :=
  if (p + length b <=? length buf)%nat then Ok (take p buf ++ b ++ drop (p + length b) buf) else Fault FBounds.

Definition LineUpProcess (l : vlu) (st : St) : outcome (vlu * St * Z) :=
  buf ← writeC (l_buf l) (l_bufp l) 0;
  '(buf, st, r) ← lines_loop (length buf) buf 0 st;
  match r with
  | inr i => Ok (mk_vlu buf (l_bufl l) (l_bufp l), st, i)
  | inl p =>
      c ← readC buf p;
      if negb (c =? 0) then
        s ← string_at (drop p buf);
        buf ← copy_to buf 0 s;
        buf ← writeC buf (length s) 0;
        Ok (mk_vlu buf (l_bufl l) (length s), st, 0)
      else Ok (mk_vlu buf (l_bufl l) 0, st, 0)
  end.

(** The result of [read(fd, p, sz)]: its bytes, or -1. *)
Definition VLU_Fd (l : vlu) (st : St) (read : nat -> option (list Z)) : outcome (vlu * St * Z) :=
  _ ← assertC (l_bufp l <=? l_bufl l)%nat;
  let sz := (l_bufl l - l_bufp l)%nat in
  match read sz with
  | None => Ok (l, st, -1)
  | Some [] => Ok (l, st, -2)
  | Some b =>
      buf ← copy_to (l_buf l) (l_bufp l) b;
      _ ← assertC (length b <=? sz)%nat;
      LineUpProcess (mk_vlu buf (l_bufl l) (l_bufp l + length b)) st
  end.

(** The loop of [VLU_File] over what [read] returns each time. *)
Fixpoint file_loop (reads : list (nat -> option (list Z))) (l : vlu) (st : St) : outcome (vlu * St * Z) :=
  match reads with
  | [] => Fault FFuel
  | read :: reads =>
      '(l, st, i) ← VLU_Fd l st read;
      if i =? 0 then file_loop reads l st else Ok (l, st, i)
  end.

Definition VLU_File (malloc : Z -> option (list Z)) (bufsize : Z) (reads : list (nat -> option (list Z))) (st : St) : outcome (St * Z) :=
  match VLU_New malloc bufsize with
  | None => Fault FAssert
  | Some l => '(_, st, i) ← file_loop reads l st; Ok (st, i)
  end.

(** The loop of [VLU_Feed]; [i] is the last result. *)
Fixpoint feed_loop (fuel : nat) (l : vlu) (st : St) (ptr : list Z) (i : Z) : outcome (vlu * St * Z) :=
  match ptr with
  | [] => Ok (l, st, i)
  | _ =>
      match fuel with
      | O => Fault FFuel
      | S fuel =>
          let u := Nat.min (length ptr) (l_bufl l - l_bufp l) in
          buf ← copy_to (l_buf l) (l_bufp l) (take u ptr);
          '(l, st, i) ← LineUpProcess (mk_vlu buf (l_bufl l) (l_bufp l + u)) st;
          if negb (i =? 0) then Ok (l, st, i) else feed_loop fuel l st (drop u ptr) i
      end
  end.

Definition VLU_Feed (fuel : nat) (l : vlu) (st : St) (ptr : list Z) : outcome (vlu * St * Z) :=
  _ ← assertC (0 <? length ptr)%nat; feed_loop fuel l st ptr 0.
End func.
