(* ===== verification/VluSpec.v ===== *)
(** * What the line buffer delivers (lib/vlu.c)

    [chop] cuts a stream at its line ends.  However the stream is cut into
    pieces, VLU_Feed calls the function once for each line of it, in order, as
    long as the lines fit in the buffer; a line that fills the buffer makes it
    loop for ever. *)

From Stdlib Require Import ZArith Lia ZifyBool.
From stdpp Require Import base option numbers list.
From S2P Require Import Prelude CStr Vlu.
#[local] Open Scope Z_scope.

Definition eol (c : Z) : bool := (c =? 10) || (c =? 13).

(** The lines of [acc ++ t] and what is left, where [acc] has no line end. *)
Fixpoint chop (acc t : list Z) : list (list Z) * list Z :=
  match t with
  | [] => ([], acc)
  | c :: t => if eol c then let '(ls, r) := chop [] t in (acc :: ls, r) else chop (acc ++ [c]) t
  end.

Definition text (s : list Z) : Prop := Forall (fun c => c <> 0 /\ eol c = false) s.

Lemma chop_app a : forall acc b, chop acc (a ++ b) = ((chop acc a).1 ++ (chop (chop acc a).2 b).1, (chop (chop acc a).2 b).2).
Proof.
  induction a as [|c a IH]; intros acc b; cbn [chop app]; [cbn [fst snd app]; by destruct (chop acc b)|].
  destruct (eol c); [|apply IH]. rewrite IH. destruct (chop [] a) as [l r]. cbn [fst snd]. by destruct (chop r b).
Qed.

Lemma chop_text s : forall acc, text s -> chop acc s = ([], acc ++ s).
Proof.
  induction s as [|c s IH]; intros acc H; cbn [chop]; [by rewrite app_nil_r|].
  apply Forall_cons in H as [[_ Hc] H]. rewrite Hc, IH by done. by rewrite <-app_assoc.
Qed.

Lemma chop_line acc s c t : text s -> eol c = true -> chop acc (s ++ c :: t) = ((acc ++ s) :: (chop [] t).1, (chop [] t).2).
Proof. intros Hs Hc. rewrite chop_app, chop_text by done. cbn [chop fst snd]. rewrite Hc. by destruct (chop [] t). Qed.

(** A text is its first line and the rest, or has no line end. *)
Lemma chop_cases t : no_nul t -> text t \/ exists s c t', t = s ++ c :: t' /\ text s /\ eol c = true /\ no_nul t'.
Proof.
  induction 1 as [|c t Hc Ht IH]; [by left; constructor|]. destruct (eol c) eqn:E.
  - right. exists [], c, t. split; [done|]. split; [constructor|done].
  - destruct IH as [H|(s & d & t' & -> & Hs & Hd & Ht')]; [left; by constructor|].
    right. exists (c :: s), d, t'. split; [done|]. split; [by constructor|done].
Qed.

Lemma chop_rest t : forall acc, text acc -> no_nul t -> text (chop acc t).2.
Proof.
  induction t as [|c t IH]; intros acc Ha Ht; [done|]. apply Forall_cons in Ht as [Hc Ht]. cbn [chop]. destruct (eol c) eqn:E.
  - specialize (IH [] ltac:(constructor) Ht). by destruct (chop [] t).
  - apply IH; [|done]. apply Forall_app. split; [done|]. by constructor.
Qed.

#[local] Tactic Notation "lens" := repeat (progress (rewrite ?length_app; cbn [length app])); lia.

Section func.
Context {St : Type} (func : St -> list Z -> outcome (St * Z)).

Fixpoint call_all (ls : list (list Z)) (st : St) : outcome (St * Z) :=
  match ls with
  | [] => Ok (st, 0)
  | s :: ls => '(st, i) ← func st s; if negb (i =? 0) then Ok (st, i) else call_all ls st
  end.

Lemma call_all_app l1 l2 st : call_all (l1 ++ l2) st =
  ('(st, i) ← call_all l1 st; if negb (i =? 0) then Ok (st, i) else call_all l2 st).
Proof.
  revert st. induction l1 as [|s l1 IH]; intros st; cbn [app call_all]; [done|].
  destruct (func st s) as [[st' i]|f]; [|done]. cbn [mbind outcome_bind]. destruct (negb (i =? 0)) eqn:E; [|apply IH].
  cbn [mbind outcome_bind]. by rewrite E.
Qed.

(** ** The buffer *)

Lemma readC_mid {A} (pre l : list A) c p : p = length pre -> readC (pre ++ c :: l) p = Ok c.
Proof. intros ->. apply readC_ok. by rewrite lookup_app_r, Nat.sub_diag by lia. Qed.

Lemma writeC_mid {A} (pre l : list A) c d p : p = length pre -> writeC (pre ++ c :: l) p d = Ok (pre ++ d :: l).
Proof.
  intros ->. rewrite writeC_lt by (rewrite length_app; simpl; lia). f_equal.
  rewrite <-(Nat.add_0_r (length pre)). by rewrite insert_app_r.
Qed.

Lemma find_eol_ok s : text s -> forall fuel pre c r p, p = length pre -> c = 0 \/ eol c = true -> (length s <= fuel)%nat ->
  find_eol fuel (pre ++ s ++ c :: r) p = Ok (p + length s)%nat.
Proof.
  induction 1 as [|d s [Hd He] _ IH]; intros fuel pre c r p Hp Hc Hf; cbn [app length] in *.
  - rewrite Nat.add_0_r. destruct fuel; cbn [find_eol]; rewrite (readC_mid pre r c p Hp); cbn [mbind outcome_bind]; fold (eol c);
      (destruct Hc as [->| ->]; [done|]; by destruct (c =? 0)).
  - destruct fuel as [|fuel]; [lia|]. cbn [find_eol]. rewrite (readC_mid pre _ d p Hp). cbn [mbind outcome_bind].
    fold (eol d). rewrite (proj2 (Z.eqb_neq d 0)), He by done.
    change (d :: s ++ c :: r) with ([d] ++ s ++ c :: r). rewrite app_assoc, IH; [f_equal; lia|rewrite length_app; simpl; lia|done|lia].
Qed.

(** [lines_loop] calls the function for the lines and stops at what is left. *)
Lemma lines_loop_ok fuel : forall t pre z buf p st, buf = pre ++ t ++ 0 :: z -> p = length pre -> no_nul t -> (length t <= fuel)%nat ->
  match call_all (chop [] t).1 st with
  | Fault f => lines_loop func fuel buf p st = Fault f
  | Ok (st', i) => exists buf' r, lines_loop func fuel buf p st = Ok (buf', st', r) /\ length buf' = length buf /\
      (if i =? 0 then exists pre', buf' = pre' ++ (chop [] t).2 ++ 0 :: z /\ r = inl (length pre') else r = inr i)
  end.
Proof.
  induction fuel as [|fuel IH]; intros t pre z buf p st -> -> Ht Hf.
  - destruct t; [|simpl in Hf; lia]. cbn [chop fst snd call_all]. cbn [lines_loop app]. rewrite (readC_mid pre z 0 _ eq_refl). cbn [mbind outcome_bind].
    eexists _, _. split; [done|]. split; [done|]. by exists pre.
  - destruct (chop_cases t Ht) as [Hs|(s & c & t' & -> & Hs & Hc & Ht')].
    + rewrite chop_text by done. cbn [fst snd call_all app]. exists (pre ++ t ++ 0 :: z), (inl (length pre)). split; [|split; [done|by exists pre]].
      cbn [lines_loop]. destruct t as [|c t].
      * cbn [app]. by rewrite (readC_mid pre z 0 _ eq_refl).
      * cbn [app]. rewrite (readC_mid pre _ c _ eq_refl). cbn [mbind outcome_bind]. inversion Hs as [|? ? [Hc _] _]; subst.
        rewrite (proj2 (Z.eqb_neq c 0)) by done. change (c :: t ++ 0 :: z) with ((c :: t) ++ 0 :: z).
        rewrite find_eol_ok by (done || (by left) || (rewrite !length_app; simpl; lia)). cbn [mbind outcome_bind].
        rewrite app_assoc, (readC_mid (pre ++ c :: t) z 0) by (by rewrite length_app). done.
    + rewrite chop_line by done. cbn [fst snd call_all app].
      assert (lines_loop func (S fuel) (pre ++ (s ++ c :: t') ++ 0 :: z) (length pre) st =
        '(st, i) ← func st s; if negb (i =? 0) then Ok ((pre ++ s ++ [0]) ++ t' ++ 0 :: z, st, inr i)
          else lines_loop func fuel ((pre ++ s ++ [0]) ++ t' ++ 0 :: z) (length (pre ++ s ++ [0])) st) as ->.
      { cbn [lines_loop]. assert (exists d x, (s ++ c :: t') ++ 0 :: z = d :: x /\ d <> 0) as (d & x & Ed & Hd).
        { apply Forall_app in Ht as [_ [Hc0 _]%Forall_cons]. destruct s as [|d s]; [by eexists _, _|]. inversion Hs as [|? ? [Hd _] _]; subst. by eexists _, _. }
        rewrite Ed, (readC_mid pre x d _ eq_refl). cbn [mbind outcome_bind]. rewrite (proj2 (Z.eqb_neq d 0)) by done. rewrite <-Ed, <-!app_assoc. cbn [app].
        rewrite find_eol_ok by (done || (by right) || (rewrite !length_app; simpl; lia)). cbn [mbind outcome_bind].
        rewrite (app_assoc pre s (c :: _)), (readC_mid (pre ++ s) _ c) by (by rewrite length_app). cbn [mbind outcome_bind].
        rewrite (proj2 (Z.eqb_neq c 0)) by (intros ->; done). rewrite (writeC_mid (pre ++ s)) by (by rewrite length_app). cbn [mbind outcome_bind].
        rewrite <-!app_assoc. cbn [app]. rewrite drop_app_length, string_at_app by (eapply Forall_impl; [exact Hs|]; by intros ? [? _]). cbn [mbind outcome_bind].
        destruct (func st s) as [[st' i]|f]; [|done]. cbn [mbind outcome_bind]. destruct (negb (i =? 0)); [done|]. f_equal. rewrite !length_app. simpl. lia. }
      destruct (func st s) as [[st' i]|f]; [|done]. cbn [mbind outcome_bind]. destruct (i =? 0) eqn:Ei; cbn [negb].
      * specialize (IH t' (pre ++ s ++ [0]) z _ _ st' eq_refl eq_refl Ht'). rewrite !length_app in Hf. simpl in Hf.
        specialize (IH ltac:(lia)). destruct (call_all _ st') as [[st'' i']|f]; [|done]. destruct IH as (buf' & r & E & Hl & Hr).
        exists buf', r. split; [exact E|]. split; [rewrite Hl; lens|done].
      * eexists _, _. split; [done|]. rewrite Ei. split; [lens|done].
Qed.

(** [r] is collected and not a line yet. *)
Definition holds (l : vlu) (r : list Z) : Prop :=
  length (l_buf l) = S (l_bufl l) /\ l_bufp l = length r /\ (length r <= l_bufl l)%nat /\ take (length r) (l_buf l) = r /\ text r.

Lemma copy_to_ok buf p b : (p + length b <= length buf)%nat -> copy_to buf p b = Ok (take p buf ++ b ++ drop (p + length b) buf).
Proof. intros H. unfold copy_to. by rewrite (proj2 (Nat.leb_le _ _)). Qed.

(** What the result of an operation must be when it sees the lines [ls] and
    leaves [r]. *)
Definition delivers (bufl : nat) (ls : list (list Z)) (r : list Z) (st : St) (res : outcome (vlu * St * Z)) : Prop :=
  match call_all ls st with
  | Fault f => res = Fault f
  | Ok (st', i) => exists l, res = Ok (l, st', i) /\ l_bufl l = bufl /\ (i = 0 -> holds l r)
  end.

Lemma LineUp_ok l st t z : l_buf l = t ++ z -> l_bufp l = length t -> (length t <= l_bufl l)%nat -> length (l_buf l) = S (l_bufl l) -> no_nul t ->
  delivers (l_bufl l) (chop [] t).1 (chop [] t).2 st (LineUpProcess func l st).
Proof.
  intros Hb Hp Hl Hlen Ht. unfold LineUpProcess. rewrite Hb, Hp in *. destruct z as [|y z]; [rewrite app_nil_r in Hlen; lia|].
  rewrite writeC_mid by done. cbn [mbind outcome_bind].
  pose proof (lines_loop_ok (length (t ++ 0 :: z)) t [] z _ 0%nat st eq_refl eq_refl Ht ltac:(lens)) as H. cbn [app] in H. unfold delivers.
  pose proof (chop_rest t [] ltac:(constructor) Ht) as Hr.
  destruct (call_all _ st) as [[st' i]|f]; [|by rewrite H]. destruct H as (buf' & r & -> & Hl' & H). cbn [mbind outcome_bind].
  destruct (i =? 0) eqn:Ei; [|subst r; eexists; split; [done|]; split; [done|intros ->; done]].
  destruct H as (pre & -> & ->). assert (i = 0) as -> by lia. set (r := (chop [] t).2) in *.
  assert (length (pre ++ r ++ 0 :: z) = S (l_bufl l)) as Hb' by (rewrite Hl'; revert Hlen; lens).
  destruct r as [|c r].
  - cbn [app] in *. rewrite (readC_mid pre z 0 _ eq_refl). cbn [mbind outcome_bind Z.eqb negb]. eexists. split; [done|]. split; [done|]. intros _.
    split; [done|]. split; [done|]. split; [simpl; lia|]. done.
  - cbn [app] in *. rewrite (readC_mid pre _ c _ eq_refl). cbn [mbind outcome_bind]. inversion Hr as [|? ? [Hc _] _]; subst.
    rewrite (proj2 (Z.eqb_neq c 0)) by done. cbn [negb]. rewrite drop_app_length. change (c :: r ++ 0 :: z) with ((c :: r) ++ 0 :: z).
    rewrite string_at_app by (eapply Forall_impl; [exact Hr|]; by intros ? [? _]). cbn [mbind outcome_bind].
    revert Hb'. change (c :: r ++ 0 :: z) with ((c :: r) ++ 0 :: z). set (s := c :: r) in *. clearbody s. intros Hb'.
    rewrite copy_to_ok by lens. cbn [mbind outcome_bind Nat.add]. rewrite take_0. cbn [app].
    assert (length (s ++ drop (length s) (pre ++ s ++ 0 :: z)) = S (l_bufl l)) as Hs by (rewrite length_app, length_drop, Hb'; revert Hb'; lens).
    rewrite writeC_lt by (rewrite Hs; revert Hb'; lens). cbn [mbind outcome_bind]. eexists. split; [done|]. split; [done|]. intros _. unfold holds. cbn [l_buf l_bufl l_bufp].
    split; [by rewrite length_insert|]. split; [done|]. split; [revert Hb'; lens|].
    split; [|done]. by rewrite take_insert_ge, take_app_length by done.
Qed.

(** Bytes appended behind what is collected. *)
Lemma fed_ok l st r b : holds l r -> no_nul b -> (length r + length b <= l_bufl l)%nat ->
  exists buf, copy_to (l_buf l) (l_bufp l) b = Ok buf /\
    delivers (l_bufl l) (chop r b).1 (chop r b).2 st (LineUpProcess func (mk_vlu buf (l_bufl l) (l_bufp l + length b)) st).
Proof.
  intros (Hlen & Hp & Hl & Htk & Hr) Hb Hfit. rewrite copy_to_ok by lia. eexists. split; [done|]. rewrite Hp, Htk.
  assert (chop r b = chop [] (r ++ b)) as -> by (rewrite chop_app, (chop_text r []) by done; cbn [fst snd app]; by destruct (chop r b)).
  apply (LineUp_ok (mk_vlu (r ++ b ++ drop (length r + length b) (l_buf l)) (l_bufl l) (length r + length b)) st (r ++ b) (drop (length r + length b) (l_buf l))); cbn [l_buf l_bufl l_bufp]; [by rewrite <-app_assoc|by rewrite length_app|by rewrite length_app| |].
  - rewrite !length_app, length_drop. lia.
  - apply Forall_app. split; [|done]. eapply Forall_impl; [exact Hr|]. by intros ? [? _].
Qed.

(** Every line is shorter than the buffer, and so is what is left. *)
Definition fits (bufl : nat) (r t : list Z) : Prop :=
  Forall (fun s => length s < bufl)%nat (chop r t).1 /\ (length (chop r t).2 <= bufl)%nat.


Lemma chop_longer t : forall acc, (exists s ls, (chop acc t).1 = s :: ls /\ (length acc <= length s)%nat) \/ (length acc <= length (chop acc t).2)%nat.
Proof.
  induction t as [|c t IH]; intros acc; cbn [chop]; [by right|]. destruct (eol c); [left; destruct (chop [] t); by eexists _, _|].
  destruct (IH (acc ++ [c])) as [(s & ls & E & Hl)|Hl]; rewrite length_app in Hl; cbn [length] in Hl; [left; exists s, ls; split; [done|lia]|right; lia].
Qed.

Lemma fits_room bufl r c t : fits bufl r (c :: t) -> (length r < bufl)%nat.
Proof.
  unfold fits. cbn [chop]. destruct (eol c).
  - destruct (chop [] t) as [ls r']. cbn [fst snd]. by intros [[H _]%Forall_cons _].
  - intros [H1 H2]. destruct (chop_longer t (r ++ [c])) as [(s & ls & E & Hl)|Hl]; rewrite length_app in Hl; cbn [length] in Hl; [|lia].
    rewrite E in H1. apply Forall_cons in H1. lia.
Qed.

Lemma fits_app bufl r a b : fits bufl r (a ++ b) -> fits bufl (chop r a).2 b.
Proof. unfold fits. rewrite chop_app. cbn [fst snd]. by intros [[_ H]%Forall_app Hr]. Qed.

(** What is delivered in two parts. *)
Lemma delivers_app bufl l1 r1 l2 r2 st res k : delivers bufl l1 r1 st res ->
  (forall l st, l_bufl l = bufl -> holds l r1 -> delivers bufl l2 r2 st (k l st)) ->
  delivers bufl (l1 ++ l2) r2 st ('(l, st, i) ← res; if negb (i =? 0) then Ok (l, st, i) else k l st).
Proof.
  unfold delivers. rewrite call_all_app. destruct (call_all l1 st) as [[st' i]|f]; [|by intros ->].
  intros (l & -> & Hb & Hh) Hk. cbn [mbind outcome_bind]. destruct (i =? 0) eqn:Ei; cbn [negb].
  - apply Hk; [done|]. apply Hh. lia.
  - exists l. split; [done|]. split; [done|lia].
Qed.

Lemma feed_loop_ok fuel : forall ptr l r st, holds l r -> no_nul ptr -> fits (l_bufl l) r ptr -> (length ptr <= fuel)%nat ->
  delivers (l_bufl l) (chop r ptr).1 (chop r ptr).2 st (feed_loop func fuel l st ptr 0).
Proof.
  induction fuel as [|fuel IH]; intros ptr l r st Hh Hz Hf Hl; (destruct ptr as [|c t]; [by exists l|]).
  - simpl in Hl. lia.
  - pose proof (fits_room _ _ _ _ Hf) as Hroom. cbn [feed_loop]. set (ptr := c :: t) in *. set (u := Nat.min (length ptr) (l_bufl l - l_bufp l)).
    assert (0 < u <= length ptr)%nat as Hu by (destruct Hh as (_ & ? & _); assert (length ptr = S (length t)) by done; subst u; lia).
    assert (length (take u ptr) = u) as Hlu by (rewrite length_take; lia).
    rewrite <-(take_drop u ptr) in Hz, Hf. apply Forall_app in Hz as [Hza Hzb].
    destruct (fed_ok l st r (take u ptr) Hh Hza) as (buf & -> & Hd); [destruct Hh as (_ & Hp & ?); subst u; lia|]. rewrite Hlu in Hd.
    cbn [mbind outcome_bind]. replace (chop r ptr) with (chop r (take u ptr ++ drop u ptr)) by (by rewrite take_drop). rewrite chop_app. cbn [fst snd].
    pose proof (delivers_app _ _ _ (chop (chop r (take u ptr)).2 (drop u ptr)).1 (chop (chop r (take u ptr)).2 (drop u ptr)).2 st _
      (fun l st => feed_loop func fuel l st (drop u ptr) 0) Hd) as H. clear Hd.
    match type of H with ?P -> _ => assert P as HP end.
    { intros l' st' E Hl'. rewrite <-E. apply IH; [done..|rewrite E; by apply fits_app in Hf|rewrite length_drop; lia]. }
    specialize (H HP). revert H. destruct (LineUpProcess func _ st) as [[[l' st'] i]|f]; [|done]. cbn [mbind outcome_bind]. destruct (i =? 0) eqn:Ei; cbn [negb]; [|done].
    by assert (i = 0) as -> by lia.
Qed.

Lemma vlu_feed l r st ptr fuel : holds l r -> ptr <> [] -> no_nul ptr -> fits (l_bufl l) r ptr -> (length ptr <= fuel)%nat ->
  delivers (l_bufl l) (chop r ptr).1 (chop r ptr).2 st (VLU_Feed func fuel l st ptr).
Proof. intros. unfold VLU_Feed. destruct ptr as [|c t]; [done|]. cbn [length Nat.ltb Nat.leb assertC mbind outcome_bind]. by apply feed_loop_ok. Qed.

(** VLU_Feed calls the function once for each line of what is in the buffer and
    the new bytes, in order, until it returns other than zero; otherwise it
    keeps what follows the last line. *)
Theorem vlu_feed_ok l r st ptr fuel (Hl : holds l r) (Hptr : ptr <> []) (Hz : no_nul ptr) (Hf : fits (l_bufl l) r ptr) (Hfuel : (length ptr <= fuel)%nat) :
  delivers (l_bufl l) (chop r ptr).1 (chop r ptr).2 st (VLU_Feed func fuel l st ptr).
Proof. by apply vlu_feed. Qed.

(** A line that fills the buffer: VLU_Feed copies nothing more and never
    returns. *)
Theorem vlu_feed_hang l r st ptr fuel (Hl : holds l r) (Hptr : text ptr) (Hlong : (l_bufl l < length r + length ptr)%nat) :
  VLU_Feed func fuel l st ptr = Fault FFuel.
Proof.
  unfold VLU_Feed. assert (0 < length ptr)%nat as Hp by (destruct Hl as (_ & _ & ? & _); lia). rewrite (proj2 (Nat.ltb_lt _ _) Hp). cbn [assertC mbind outcome_bind].
  revert l r ptr Hl Hptr Hlong Hp. induction fuel as [|fuel IH]; intros l r ptr Hl Hptr Hlong Hp; (destruct ptr as [|c t]; [simpl in Hp; lia|]); [done|].
  cbn [feed_loop]. set (ptr := c :: t) in *. set (u := Nat.min (length ptr) (l_bufl l - l_bufp l)).
  pose proof Hl as (_ & Hbp & Hle & _ & Hr).
  assert (u <= length ptr /\ u = Nat.min (length ptr) (l_bufl l - length r))%nat as [Hu1 Hu2] by (subst u; rewrite Hbp; lia). clearbody u.
  assert (length (take u ptr) = u) as Hlu by (rewrite length_take; lia). rewrite <-(take_drop u ptr) in Hptr. apply Forall_app in Hptr as [Ha Hb].
  destruct (fed_ok l st r (take u ptr) Hl) as (buf & -> & Hd); [eapply Forall_impl; [exact Ha|]; by intros ? [? _]|lia|].
  rewrite Hlu in Hd. cbn [mbind outcome_bind]. rewrite chop_text in Hd by done. destruct Hd as (l' & -> & Hb' & Hh). cbn [mbind outcome_bind Z.eqb negb].
  apply (IH l' (r ++ take u ptr)); [by apply Hh|done|rewrite Hb', length_app, length_drop, Hlu|rewrite length_drop]; lia.
Qed.

(** The cuts between the pieces make no difference. *)
Lemma vlu_feed_pieces l r st a b fuel : holds l r -> a <> [] -> b <> [] -> no_nul a -> no_nul b -> fits (l_bufl l) r (a ++ b) -> (length (chop r a).2 <= l_bufl l)%nat ->
  (length a <= fuel)%nat -> (length b <= fuel)%nat ->
  delivers (l_bufl l) (chop r (a ++ b)).1 (chop r (a ++ b)).2 st
    ('(l, st, i) ← VLU_Feed func fuel l st a; if negb (i =? 0) then Ok (l, st, i) else VLU_Feed func fuel l st b).
Proof.
  intros Hl Ha Hb Hza Hzb Hf Hr Hfa Hfb. rewrite chop_app. cbn [fst snd]. apply (delivers_app _ _ (chop r a).2).
  - apply vlu_feed; [done..| |done]. split; [|done]. unfold fits in Hf. rewrite chop_app in Hf. cbn [fst snd] in Hf. by destruct Hf as [[? _]%Forall_app _].
  - intros l' st' E Hl'. rewrite <-E. apply vlu_feed; [done..|rewrite E; by apply fits_app in Hf|done].
Qed.

(** A full buffer reads like the end of the file. *)
Lemma vlu_fd_full l r st read : holds l r -> length r = l_bufl l -> read 0%nat = Some [] -> VLU_Fd func l st read = Ok (l, st, -2).
Proof.
  intros (_ & Hp & _) Hr Hrd. unfold VLU_Fd. rewrite Hp, Hr, Nat.leb_refl, Nat.sub_diag. cbn [assertC mbind outcome_bind]. by rewrite Hrd.
Qed.
End func.

(** A function that keeps its lines; a buffer of seven bytes and its NUL. *)
Definition example_func (st : list (list Z)) (s : list Z) : outcome (list (list Z) * Z) := Ok (st ++ [s], 0).
Definition example_vlu : vlu := mk_vlu [97; 0; 0; 0; 0; 0; 0; 0] 7 1.
Lemma example_holds : holds example_vlu [97].
Proof. split; [done|]. split; [done|]. split; [simpl; lia|]. split; [done|]. by repeat constructor. Qed.

(** [a] is collected; [bc CR LF d LF ef] comes in. *)
Lemma vlu_feed_ok_witness : exists l, VLU_Feed example_func 8 example_vlu [] [98; 99; 13; 10; 100; 10; 101; 102] = Ok (l, [[97; 98; 99]; []; [100]], 0) /\ holds l [101; 102].
Proof.
  destruct (vlu_feed_ok example_func example_vlu [97] [] [98; 99; 13; 10; 100; 10; 101; 102] 8 example_holds) as (l & E & _ & H); [done|by repeat constructor|split; cbn; [repeat constructor; simpl; lia|lia]|done|].
  exists l. split; [exact E|]. by apply H.
Defined.

Lemma vlu_feed_hang_witness : VLU_Feed example_func 100 example_vlu [] [98; 98; 98; 98; 98; 98; 98] = Fault FFuel.
Proof. apply (vlu_feed_hang example_func example_vlu [97] [] _ 100 example_holds); [by repeat constructor|simpl; lia]. Defined.

(** A NUL hides the rest of what was read with it. *)
Lemma vlu_feed_nul : exists l, VLU_Feed example_func 8 example_vlu [] [98; 0; 99; 10; 100] = Ok (l, [], 0) /\ holds l [97; 98].
Proof.
  eexists. split; [by vm_compute|]. split; [done|]. split; [done|]. split; [simpl; lia|]. split; [done|]. by repeat constructor.
Qed.
