(* ===== verification/Logexp.v ===== *)
(** * Log expectations (src/vtc_logexp.c)

    The tests of a logexpect, the automaton that runs them over the records of a
    log, and the commands that add tests.  The log, the names and numbers of its
    tags and the regular expressions belong to libraries outside the repository
    and are values of the model.  The lists are intrusive: a test is known by
    its place in [tests], which never changes while the thread runs. *)

From Stdlib Require Import ZArith Lia ZifyBool.
From stdpp Require Import base option numbers list.
From S2P Require Import Prelude CStr.
#[local] Open Scope Z_scope.

Definition LE_ANY : Z := -1.
Definition LE_LAST : Z := -2.
Definition LE_ALT : Z := -3.
Definition LE_SEEN : Z := -4.
Definition LE_FAIL : Z := -5.
Definition LE_CLEAR : Z := -6.
Definition LE_ABORT : Z := -7.

Inductive le_match_e := LEM_OK | LEM_SKIP | LEM_FAIL.
#[global] Instance le_match_eq_dec : EqDecision le_match_e.
Proof. solve_decision. Defined.

(** A record of the log. *)
Record vsl_rec := mk_rec { r_vxid : Z; r_tag : Z; r_data : list Z }.

Section vsl.
Context {Re : Type} (VRE_nomatch : Re -> list Z -> bool) (SLT_End : Z) (skipped_tag : Z -> bool).

(** [vre] is NULL or a regular expression; [str] is for the messages. *)
Record logexp_test := mk_test { t_vxid : Z; t_tag : Z; t_vre : option Re; t_skip_max : Z }.

Record logexp := mk_logexp {
  tests : list logexp_test;
  test : option nat;
  skip_cnt : Z;
  vxid_last : Z;
  tag_last : Z;
  fail : list nat }.

Definition set_skip_max (t : logexp_test) (m : Z) : logexp_test := mk_test (t_vxid t) (t_tag t) (t_vre t) m.
Definition with_tests (le : logexp) (ts : list logexp_test) : logexp :=
  mk_logexp ts (test le) (skip_cnt le) (vxid_last le) (tag_last le) (fail le).
Definition with_test (le : logexp) (t : option nat) : logexp :=
  mk_logexp (tests le) t (skip_cnt le) (vxid_last le) (tag_last le) (fail le).
Definition with_fail (le : logexp) (f : list nat) : logexp :=
  mk_logexp (tests le) (test le) (skip_cnt le) (vxid_last le) (tag_last le) f.

Definition logexp_clean (ts : list logexp_test) : list logexp_test :=
  map (fun t => if t_skip_max t =? LE_SEEN then set_skip_max t LE_ALT else t) ts.

(** [VTAILQ_NEXT(test, list)]. *)
Definition next_test (ts : list logexp_test) (i : nat) : option nat :=
  if (S i <? length ts)%nat then Some (S i) else None.

(** The loop of [logexp_alt] from the test at [i] on. *)
Fixpoint unseen (ts : list logexp_test) (i : nat) : option nat :=
  match ts with
  | [] => None
  | t :: ts => if t_skip_max t =? LE_SEEN then unseen ts (S i) else Some i
  end.

Definition logexp_alt (ts : list logexp_test) (i : nat) : outcome (option nat) :=
  t ← readC ts i;
  _ ← assertC (t_skip_max t =? LE_ALT);
  match unseen (drop (S i) ts) (S i) with
  | None => Ok None
  | Some j => t ← readC ts j; Ok (if t_skip_max t =? LE_ALT then Some j else None)
  end.

(** The fuel bounds the tests that are left. *)
Fixpoint logexp_next (fuel : nat) (le : logexp) : outcome logexp :=
  le ← (match test le with
        | Some i =>
            t ← readC (tests le) i;
            Ok (if t_skip_max t =? LE_ALT then le else with_test le (next_test (tests le) i))
        | None =>
            let ts := logexp_clean (tests le) in
            Ok (mk_logexp ts (match ts with [] => None | _ => Some 0%nat end) (skip_cnt le) (vxid_last le) (tag_last le) [])
        end);
  match test le with
  | None => Ok le
  | Some i =>
      t ← readC (tests le) i;
      match fuel with
      | O => Fault FFuel
      | S fuel =>
          if t_skip_max t =? LE_SEEN then logexp_next fuel le
          else if t_skip_max t =? LE_CLEAR then logexp_next fuel (with_fail le [])
          else if t_skip_max t =? LE_FAIL then logexp_next fuel (with_fail le (fail le ++ [i]))
          else if t_skip_max t =? LE_ABORT then Fault FAssert
          else Ok le
      end
  end.

(** [vxid_ok] and [ok] after the vxid. *)
Definition match_vxid (le : logexp) (t : logexp_test) (vxid : Z) : bool * bool :=
  if t_vxid t =? LE_LAST then let ok := vxid_last le =? vxid in (ok, ok)
  else if 0 <=? t_vxid t then let ok := t_vxid t =? vxid in (ok, ok)
  else (false, true).

Definition match_tag (le : logexp) (t : logexp_test) (tag : Z) : bool :=
  if t_tag t =? LE_LAST then tag_last le =? tag
  else if 0 <=? t_tag t then t_tag t =? tag
  else true.

Definition match_vre (t : logexp_test) (r : vsl_rec) : bool :=
  match t_vre t with
  | Some re => negb ((0 <=? t_tag t) && (t_tag t =? r_tag r) && VRE_nomatch re (r_data r))
  | None => true
  end.

(** The recursion is over the alternatives. *)
Fixpoint logexp_match (fuel : nat) (le : logexp) (i : nat) (r : vsl_rec) : outcome (logexp * le_match_e) :=
  t ← readC (tests le) i;
  _ ← assertC (negb (t_skip_max t =? LE_SEEN));
  _ ← assertC (negb (t_skip_max t =? LE_CLEAR));
  let '(vxid_ok, ok) := match_vxid le t (r_vxid r) in
  let ok := ok && match_tag le t (r_tag r) && match_vre t r in
  let alt := t_skip_max t =? LE_ALT in
  let skip := negb ok && negb alt && ((t_skip_max t =? LE_ANY) || (skip_cnt le <? t_skip_max t)) in
  let fail := (t_skip_max t =? LE_FAIL) || (skip && vxid_ok && (r_tag r =? SLT_End)) in
  let skip := skip && negb (fail && negb ok) in
  if ok then Ok (if alt then with_tests le (<[i := set_skip_max t LE_SEEN]> (tests le)) else le, LEM_OK)
  else if alt then
    j ← logexp_alt (tests le) i;
    match j with
    | None => Ok (le, LEM_FAIL)
    | Some j => match fuel with O => Fault FFuel | S fuel => logexp_match fuel le j r end
    end
  else Ok (le, if skip then LEM_SKIP else LEM_FAIL).

(** The loop of [logexp_failchk]. *)
Fixpoint fail_loop (le : logexp) (l : list nat) (r : vsl_rec) : outcome (logexp * le_match_e) :=
  match l with
  | [] => Ok (le, LEM_OK)
  | i :: l =>
      '(le, m) ← logexp_match (length (tests le)) le i r;
      match m with
      | LEM_OK => Ok (le, LEM_FAIL)
      | _ => _ ← assertC (bool_decide (m = LEM_FAIL)); fail_loop le l r
      end
  end.

Definition logexp_failchk (le : logexp) (r : vsl_rec) : outcome (logexp * le_match_e) :=
  match fail le with
  | [] => Ok (le, LEM_SKIP)
  | l => fail_loop le l r
  end.

Definition logexp_done (le : logexp) : bool :=
  match fail le, test le with [], None => true | _, _ => false end.

(** What [logexp_dispatch] does with a record; the value is what it returns, or
    None to go on. *)
Definition dispatch_rec (le : logexp) (r : vsl_rec) : outcome (logexp * option Z) :=
  if skipped_tag (r_tag r) then Ok (le, None)
  else
    '(le, m) ← logexp_failchk le r;
    if bool_decide (m = LEM_FAIL) then Ok (le, Some 2)
    else
      match test le with
      | None => _ ← assertC (bool_decide (m = LEM_OK)); Ok (le, None)
      | Some i =>
          '(le, m) ← logexp_match (length (tests le)) le i r;
          match m with
          | LEM_FAIL => Ok (le, Some 2)
          | LEM_SKIP => Ok (mk_logexp (tests le) (test le) (i32 (skip_cnt le + 1)) (vxid_last le) (tag_last le) (fail le), None)
          | LEM_OK =>
              le ← logexp_next (S (length (tests le))) (mk_logexp (tests le) (test le) 0 (r_vxid r) (r_tag r) (fail le));
              Ok (le, if logexp_done le then Some 1 else None)
          end
      end.

(** The loops over the records that [VSL_Match] lets through. *)
Fixpoint logexp_dispatch (le : logexp) (rs : list vsl_rec) : outcome (logexp * Z * list vsl_rec) :=
  match rs with
  | [] => Ok (le, 0, [])
  | r :: rs =>
      '(le, res) ← dispatch_rec le r;
      match res with Some i => Ok (le, i, rs) | None => logexp_dispatch le rs end
  end.

(** What the thread ends with: the end of the expectations, a failure, or none
    while the records last.  [logexp_start] sets the fields. *)
Definition logexp_start (le : logexp) : logexp := mk_logexp (tests le) None 0 (-1) (-1) (fail le).
Definition logexp_thread (le : logexp) (rs : list vsl_rec) : outcome (logexp * Z) :=
  _ ← assertC (bool_decide (test le = None));
  le ← logexp_next (S (S (length (tests le)))) le;
  if logexp_done le then Ok (le, 1)
  else '(le, i, _) ← logexp_dispatch le rs; Ok (le, i).

(** ** The commands *)

Context (VSL_Name2Tag : list Z -> Z) (VRE_compile : list Z -> option Re).

(** [strtol(s, &end, 10)] for 64 bits, with what [end] points to. *)
Fixpoint dec_digits (v : Z) (s : list Z) : Z * list Z :=
  match s with
  | c :: r => if isdigit c then dec_digits (v * 10 + (c - 48)) r else (v, s)
  | [] => (v, [])
  end.
Definition strtol10 (s : list Z) : Z * list Z :=
  let p := skip_to isspace s in
  let '(neg, p) := match p with 45 :: p => (true, p) | 43 :: p => (false, p) | _ => (false, p) end in
  match p with
  | c :: _ =>
      if isdigit c then
        let '(v, e) := dec_digits 0 p in
        (if neg : bool then Z.max (- 2 ^ 63) (- v) else Z.min (2 ^ 63 - 1) v, e)
      else (0, s)
  | [] => (0, s)
  end.

(** [av[n]]; the vector ends in NULL. *)
Definition arg (av : list (list Z)) (n : nat) : outcome (list Z) :=
  match av !! n with Some s => Ok s | None => Fault FBounds end.

Definition cmd_logexp_common (le : logexp) (skip_max : Z) (av : list (list Z)) : outcome logexp :=
  a2 ← arg av 2;
  vxid ← (if bool_decide (a2 = [42]) then Ok LE_ANY
          else if bool_decide (a2 = [61]) then Ok LE_LAST
          else let '(v, e) := strtol10 a2 in
               if negb (bool_decide (e = [])) || (v <? 0) then Fault FFatal else Ok v);
  a3 ← arg av 3;
  tag ← (if bool_decide (a3 = [42]) then Ok LE_ANY
         else if bool_decide (a3 = [61]) then Ok LE_LAST
         else let t := VSL_Name2Tag a3 in if t <? 0 then Fault FFatal else Ok t);
  vre ← (match av !! 4%nat with
         | None => Ok None
         | Some p => match VRE_compile p with Some re => Ok (Some re) | None => Fault FFatal end
         end);
  Ok (with_tests le (tests le ++ [mk_test vxid tag vre skip_max])).

Definition cmd_logexp_expect (le : logexp) (av : list (list Z)) : outcome logexp :=
  if (length av <? 4)%nat then Fault FFatal
  else if (5 <? length av)%nat then Fault FFatal
  else
    a1 ← arg av 1;
    skip_max ← (if bool_decide (a1 = [42]) then Ok LE_ANY
                else if bool_decide (a1 = [63]) then Ok LE_ALT
                else let '(v, e) := strtol10 a1 in
                     if negb (bool_decide (e = [])) || (i32 v <? 0) then Fault FFatal else Ok (i32 v));
    cmd_logexp_common le skip_max av.

Definition cmd_logexp_fail (le : logexp) (av : list (list Z)) : outcome logexp :=
  match av !! 1%nat with
  | None => Fault FFatal
  | Some a1 =>
      if bool_decide (a1 = [99; 108; 101; 97; 114]) then Ok (with_tests le (tests le ++ [mk_test 0 0 None LE_CLEAR]))
      else if negb (bool_decide (a1 = [97; 100; 100])) then Fault FFatal
      else if (length av <? 4)%nat then Fault FFatal
      else cmd_logexp_common le LE_FAIL av
  end.

Definition cmd_logexp_abort (le : logexp) (av : list (list Z)) : outcome logexp := cmd_logexp_common le LE_ABORT av.

(** [logexp_spec] deletes the tests before it parses new ones. *)
Definition logexp_delete_tests (le : logexp) : logexp := with_tests le [].
End vsl.
