(* ===== verification/LogexpSpec.v ===== *)
(** * What a logexpect expects (src/vtc_logexp.c)

    [amach] is the automaton without marks and places: the expectations that
    are left, the active fail tests and the last match.  The C code refines it.
    A list of plain expectations then ends as its manual describes ([ends]), and
    a block of alternatives accepts its records in any order when no record
    fits two of them. *)

From Stdlib Require Import ZArith Lia ZifyBool.
From stdpp Require Import base option numbers list.
From S2P Require Import Prelude CStr Logexp.
#[local] Open Scope Z_scope.

Section vsl.
Context {Re : Type} (VRE_nomatch : Re -> list Z -> bool) (SLT_End : Z) (skipped_tag : Z -> bool).
#[local] Abbreviation ltest := (logexp_test (Re := Re)).
#[local] Abbreviation lexp := (logexp (Re := Re)).

Record amach := mk_amach { a_rest : list ltest; a_fails : list ltest; a_skip : Z; a_vxid : Z; a_tag : Z }.

Definition vxid_fits (vl : Z) (t : ltest) (r : vsl_rec) : bool :=
  if t_vxid t =? LE_LAST then vl =? r_vxid r else (t_vxid t <? 0) || (t_vxid t =? r_vxid r).
Definition tag_fits (tl : Z) (t : ltest) (r : vsl_rec) : bool :=
  if t_tag t =? LE_LAST then tl =? r_tag r else (t_tag t <? 0) || (t_tag t =? r_tag r).
(** The data must fit the regular expression of a test that names its tag; with
    the tag * or = the expression is ignored, which the manual does not say. *)
Definition data_fits (t : ltest) (r : vsl_rec) : bool :=
  match t_vre t with
  | Some re => if t_tag t <? 0 then true else negb (VRE_nomatch re (r_data r))
  | None => true
  end.
Definition hits (vl tl : Z) (t : ltest) (r : vsl_rec) : bool :=
  vxid_fits vl t r && tag_fits tl t r && data_fits t r.

Definition is_alt (t : ltest) : bool := t_skip_max t =? LE_ALT.

(** The fail tests on the way to the next expectation. *)
Fixpoint advance (rest fails : list ltest) : outcome (list ltest * list ltest) :=
  match rest with
  | [] => Ok ([], fails)
  | t :: ts =>
      if t_skip_max t =? LE_CLEAR then advance ts []
      else if t_skip_max t =? LE_FAIL then advance ts (fails ++ [t])
      else if t_skip_max t =? LE_ABORT then Fault FAssert
      else Ok (rest, fails)
  end.

(** The block of alternatives without the first that the record hits. *)
Fixpoint take_alt (vl tl : Z) (ts : list ltest) (r : vsl_rec) : option (list ltest) :=
  match ts with
  | t :: ts => if is_alt t then if hits vl tl t r then Some ts else option_map (cons t) (take_alt vl tl ts r) else None
  | [] => None
  end.

(** A record of the vxid asked for that ends its transaction is not skipped. *)
Definition may_skip (s : amach) (t : ltest) (r : vsl_rec) : bool :=
  ((t_skip_max t =? LE_ANY) || (a_skip s <? t_skip_max t)) &&
  negb (((t_vxid t =? LE_LAST) || (0 <=? t_vxid t)) && vxid_fits (a_vxid s) t r && (r_tag r =? SLT_End)).

Definition amatch (s : amach) (rest : list ltest) (r : vsl_rec) : outcome (amach * option Z) :=
  '(rest, fails) ← advance rest (a_fails s);
  Ok (mk_amach rest fails 0 (r_vxid r) (r_tag r), match rest, fails with [], [] => Some 1 | _, _ => None end).

Definition astep (s : amach) (r : vsl_rec) : outcome (amach * option Z) :=
  if skipped_tag (r_tag r) then Ok (s, None)
  else if existsb (fun t => hits (a_vxid s) (a_tag s) t r) (a_fails s) then Ok (s, Some 2)
  else
    match a_rest s with
    | [] => match a_fails s with [] => Fault FAssert | _ => Ok (s, None) end
    | t :: rest =>
        if is_alt t then
          match take_alt (a_vxid s) (a_tag s) (t :: rest) r with
          | Some ts => amatch s ts r
          | None => Ok (s, Some 2)
          end
        else if hits (a_vxid s) (a_tag s) t r then amatch s rest r
        else if may_skip s t r then Ok (mk_amach (a_rest s) (a_fails s) (i32 (a_skip s + 1)) (a_vxid s) (a_tag s), None)
        else Ok (s, Some 2)
    end.

(** ** The C code refines the automaton *)

Definition not_seen (t : ltest) : bool := negb (t_skip_max t =? LE_SEEN).
Definition live (ts : list ltest) (i : nat) : list ltest := filter (fun t => not_seen t = true) (drop i ts).

Definition expects (m : Z) : Prop := m <> LE_SEEN /\ m <> LE_CLEAR /\ m <> LE_FAIL /\ m <> LE_ABORT.

(** [test] is at the first of the expectations that are left. *)
Record rel (le : lexp) (s : amach) : Prop := {
  rel_test : match test le with
             | None => a_rest s = []
             | Some i => a_rest s = live (tests le) i /\ exists t, tests le !! i = Some t /\ expects (t_skip_max t)
             end;
  rel_fail : Forall2 (fun i t => tests le !! i = Some t /\ t_skip_max t = LE_FAIL) (fail le) (a_fails s);
  rel_skip : skip_cnt le = a_skip s;
  rel_vxid : vxid_last le = a_vxid s;
  rel_tag : tag_last le = a_tag s }.

Definition refines {A B} (R : A -> B -> Prop) (m : outcome A) (n : outcome B) : Prop :=
  match n with
  | Fault f => m = Fault f
  | Ok b => exists a, m = Ok a /\ R a b
  end.

Lemma match_hits le t r : let '(vxid_ok, ok) := match_vxid le t (r_vxid r) in
  ok && match_tag le t (r_tag r) && match_vre VRE_nomatch t r = hits (vxid_last le) (tag_last le) t r /\
  vxid_ok = ((t_vxid t =? LE_LAST) || (0 <=? t_vxid t)) && vxid_fits (vxid_last le) t r.
Proof.
  unfold match_vxid, match_tag, match_vre, hits, vxid_fits, tag_fits, data_fits, LE_LAST. rewrite !Z.leb_antisym.
  assert ((t_tag t =? -2) = true -> (t_tag t <? 0) = true) as Hl by lia.
  destruct (t_vxid t =? -2), (t_vxid t <? 0), (t_tag t =? -2), (t_tag t <? 0), (t_vre t), (t_tag t =? r_tag r);
    cbn; rewrite ?andb_false_r, ?andb_true_r; try done; by discriminate Hl.
Qed.

(** [logexp_match] on a test that is not an alternative. *)
Lemma match_plain fuel (le : lexp) i t r : tests le !! i = Some t -> t_skip_max t <> LE_SEEN -> t_skip_max t <> LE_CLEAR -> is_alt t = false ->
  logexp_match VRE_nomatch SLT_End fuel le i r = Ok (le,
    if hits (vxid_last le) (tag_last le) t r then LEM_OK
    else if ((t_skip_max t =? LE_ANY) || (skip_cnt le <? t_skip_max t)) &&
      negb ((t_skip_max t =? LE_FAIL) || ((t_vxid t =? LE_LAST) || (0 <=? t_vxid t)) && vxid_fits (vxid_last le) t r && (r_tag r =? SLT_End)) then LEM_SKIP
    else LEM_FAIL).
Proof.
  intros Ht Hs Hc Ha. pose proof (match_hits le t r) as Hm. destruct fuel; cbn [logexp_match]; rewrite (proj2 (readC_ok _ _ _) Ht); cbn [mbind outcome_bind];
    rewrite (proj2 (Z.eqb_neq _ LE_SEEN) Hs), (proj2 (Z.eqb_neq _ LE_CLEAR) Hc); cbn [negb assertC mbind outcome_bind];
    destruct (match_vxid le t (r_vxid r)) as [vo ok]; destruct Hm as [-> ->]; unfold is_alt in Ha; rewrite Ha; (destruct (hits _ _ t r); [done|]);
    cbn [negb andb]; rewrite !andb_true_r; do 3 f_equal; destruct (_ || (skip_cnt le <? _)); cbn [andb]; done.
Qed.

Lemma failchk_ok le s r : rel le s -> logexp_failchk VRE_nomatch SLT_End le r = Ok (le,
  match a_fails s with
  | [] => LEM_SKIP
  | l => if existsb (fun t => hits (a_vxid s) (a_tag s) t r) l then LEM_FAIL else LEM_OK
  end).
Proof.
  intros H. unfold logexp_failchk. rewrite <-(rel_vxid _ _ H), <-(rel_tag _ _ H). destruct (rel_fail _ _ H) as [|i t l ts Hi Hl]; [done|].
  assert (Forall2 (fun i t => tests le !! i = Some t /\ t_skip_max t = LE_FAIL) (i :: l) (t :: ts)) as Hf by by constructor. clear Hi Hl.
  revert Hf. generalize (i :: l) (t :: ts). clear. intros l ts. induction 1 as [|i t l ts [Ht Hm] _ IH]; [done|]. cbn [fail_loop existsb].
  rewrite (match_plain _ _ _ t) by (done || (unfold is_alt; by rewrite Hm) || by rewrite Hm). cbn [mbind outcome_bind]. rewrite Hm. cbn [Z.eqb Pos.eqb LE_FAIL orb negb]. rewrite andb_false_r.
  destruct (hits _ _ t r); [done|]. cbn [orb]. by rewrite bool_decide_true.
Qed.

(** ** The tests that are left *)

Lemma live_cons ts i t : ts !! i = Some t -> live ts i = if not_seen t then t :: live ts (S i) else live ts (S i).
Proof. intros H. unfold live. rewrite (drop_S ts t i H). rewrite filter_cons. by destruct (not_seen t); case_decide. Qed.

Lemma live_out ts i : (length ts <= i)%nat -> live ts i = [].
Proof. intros H. unfold live. by rewrite drop_ge. Qed.

(** Marking a test before [i] changes nothing, marking it at [i] takes it out. *)
Lemma live_insert_lt ts i j t : (j < i)%nat -> live (<[j := t]> ts) i = live ts i.
Proof. intros H. unfold live. by rewrite drop_insert_lt. Qed.

Lemma unseen_ok n : forall ts i, length (drop i ts) = n ->
  match unseen (drop i ts) i with
  | None => live ts i = []
  | Some j => (i <= j)%nat /\ live ts j = live ts i /\ (exists t, ts !! j = Some t /\ not_seen t = true) /\
      (forall k, (i <= k < j)%nat -> exists t, ts !! k = Some t /\ not_seen t = false)
  end.
Proof.
  induction n as [|n IH]; intros ts i Hn.
  - apply nil_length_inv in Hn. rewrite Hn. cbn [unseen]. unfold live. by rewrite Hn.
  - destruct (ts !! i) as [t|] eqn:Et; [|apply lookup_ge_None_1 in Et; rewrite drop_ge in Hn by lia; done].
    rewrite (drop_S ts t i Et) in *. cbn [unseen length] in *. rewrite (live_cons ts i t Et).
    assert (not_seen t = negb (t_skip_max t =? LE_SEEN)) as Hns by done. destruct (t_skip_max t =? LE_SEEN) eqn:Es; cbn [negb] in *; rewrite Hns.
    + specialize (IH ts (S i) ltac:(lia)). destruct (unseen _ _) as [j|]; [|done]. destruct IH as (Hj & Hlj & Ht & Hk). split; [lia|]. split; [done|]. split; [done|].
      intros k Hkk. destruct (decide (k = i)) as [->|]; [by exists t|]. apply Hk. lia.
    + split; [done|]. split; [by rewrite (live_cons ts i t Et), Hns|]. split; [by exists t|]. intros k Hk. lia.
Qed.

(** Seen tests do not count. *)
Lemma live_seen ts i j : (i <= j)%nat -> (forall k, (i <= k < j)%nat -> exists t, ts !! k = Some t /\ not_seen t = false) -> live ts i = live ts j.
Proof.
  intros Hij Hk. remember (j - i)%nat as n eqn:En. revert i Hij Hk En. induction n as [|n IH]; intros i Hij Hk En; [by assert (i = j) as -> by lia|].
  destruct (Hk i) as (u & Hu & Hs); [lia|]. rewrite (live_cons _ i u Hu), Hs. apply IH; [lia| |lia]. intros k ?. apply Hk. lia.
Qed.

(** Marking the test at [j] seen. *)
Lemma live_mark ts i j t : ts !! j = Some t -> not_seen t = true -> (i <= j)%nat -> (forall k, (i <= k < j)%nat -> exists t, ts !! k = Some t /\ not_seen t = false) ->
  live (<[j := set_skip_max t LE_SEEN]> ts) i = live ts (S j).
Proof.
  intros Ht Hn Hij Hk. assert (j < length ts)%nat by by eapply lookup_lt_Some. rewrite (live_seen _ i j); [|done|].
  - rewrite (live_cons _ j (set_skip_max t LE_SEEN)) by by apply list_lookup_insert_eq. cbn. by rewrite live_insert_lt by lia.
  - intros k Hkk. destruct (Hk k Hkk) as (u & Hu & Hs). exists u. by rewrite list_lookup_insert_ne by lia.
Qed.

Lemma match_alts n : forall (le : lexp) i t r fuel, tests le !! i = Some t -> is_alt t = true -> (length (tests le) - i <= n)%nat -> (n <= fuel)%nat ->
  match take_alt (vxid_last le) (tag_last le) (live (tests le) i) r with
  | None => logexp_match VRE_nomatch SLT_End fuel le i r = Ok (le, LEM_FAIL)
  | Some ts => exists j u, logexp_match VRE_nomatch SLT_End fuel le i r = Ok (with_tests le (<[j := set_skip_max u LE_SEEN]> (tests le)), LEM_OK) /\
      (i <= j)%nat /\ tests le !! j = Some u /\ is_alt u = true /\ live (<[j := set_skip_max u LE_SEEN]> (tests le)) i = ts
  end.
Proof.
  induction n as [|n IH]; intros le i t r fuel Ht Ha Hn Hf; [apply lookup_lt_Some in Ht; lia|].
  assert (not_seen t = true) as Hns by (unfold is_alt, not_seen, LE_ALT, LE_SEEN in *; lia).
  rewrite (live_cons _ i t Ht), Hns. cbn [take_alt]. rewrite Ha. pose proof (match_hits le t r) as Hm.
  destruct fuel as [|fuel]; [lia|]. cbn [logexp_match]. rewrite (proj2 (readC_ok _ _ _) Ht). cbn [mbind outcome_bind].
  unfold is_alt in Ha. assert (t_skip_max t = LE_ALT) as Ha' by (unfold LE_ALT in *; lia). rewrite Ha'. change (LE_ALT =? LE_SEEN) with false. change (LE_ALT =? LE_CLEAR) with false.
  change (LE_ALT =? LE_ALT) with true. cbn [negb assertC mbind outcome_bind]. destruct (match_vxid le t (r_vxid r)) as [vo ok]. destruct Hm as [-> ->].
  destruct (hits _ _ t r) eqn:Eh.
  - exists i, t. split; [done|]. split; [done|]. split; [done|]. split; [done|]. apply live_mark; [done..|]. intros k Hk. lia.
  - unfold logexp_alt. rewrite (proj2 (readC_ok _ _ _) Ht). cbn [mbind outcome_bind]. rewrite Ha'. change (LE_ALT =? LE_ALT) with true. cbn [assertC mbind outcome_bind].
    pose proof (unseen_ok _ (tests le) (S i) eq_refl) as Hu. destruct (unseen _ _) as [j|]; [|by rewrite Hu].
    destruct Hu as (Hij & Hlj & (u & Hu & Hnu) & Hk). rewrite (proj2 (readC_ok _ _ _) Hu). cbn [mbind outcome_bind]. rewrite <-Hlj.
    destruct (t_skip_max u =? LE_ALT) eqn:Eu; cbn [mbind outcome_bind].
    + specialize (IH le j u r fuel Hu Eu ltac:(lia) ltac:(lia)). rewrite (live_cons _ j u Hu), Hnu in IH |- *.
      destruct (take_alt _ _ (u :: _) r) as [ts|]; cbn [option_map]; [|done]. destruct IH as (j' & u' & E & Hj' & Hu' & Ha'' & Hl'). exists j', u'.
      split; [exact E|]. split; [lia|]. split; [done|]. split; [done|]. rewrite (live_cons _ i t), Hns by (rewrite list_lookup_insert_ne; [done|lia]). f_equal.
      rewrite (live_seen _ (S i) j); [done|lia|]. intros k Hkk. destruct (Hk k Hkk) as (v & Hv & Hs). exists v. by rewrite list_lookup_insert_ne by lia.
    + rewrite (live_cons _ j u Hu), Hnu. cbn [take_alt]. unfold is_alt. by rewrite Eu.
Qed.

(** ** The next test *)

(** [test] and [fail] as the automaton has them. *)
Definition at_rest (ts : list ltest) (cur : option nat) (rest : list ltest) : Prop :=
  match cur with
  | None => rest = []
  | Some i => rest = live ts i /\ exists t, ts !! i = Some t /\ expects (t_skip_max t)
  end.
Definition fails_at (ts : list ltest) (l : list nat) (fails : list ltest) : Prop :=
  Forall2 (fun i t => ts !! i = Some t /\ t_skip_max t = LE_FAIL) l fails.

Definition moved (le : lexp) (le' : lexp) (p : list ltest * list ltest) : Prop :=
  tests le' = tests le /\ skip_cnt le' = skip_cnt le /\ vxid_last le' = vxid_last le /\ tag_last le' = tag_last le /\
  at_rest (tests le) (test le') p.1 /\ fails_at (tests le) (fail le') p.2.

Lemma next_ok n : forall (le : lexp) i t fails fuel, test le = Some i -> tests le !! i = Some t -> is_alt t = false -> fails_at (tests le) (fail le) fails ->
  (length (tests le) - i <= n)%nat -> (n < fuel)%nat ->
  refines (moved le) (logexp_next fuel le) (advance (live (tests le) (S i)) fails).
Proof.
  induction n as [|n IH]; intros le i t fails fuel Hi Ht Ha Hf Hn Hfu; [apply lookup_lt_Some in Ht; lia|].
  destruct fuel as [|fuel]; [lia|]. cbn [logexp_next]. rewrite Hi, (proj2 (readC_ok _ _ _) Ht). cbn [mbind outcome_bind].
  unfold is_alt in Ha. rewrite Ha. unfold next_test. destruct (S i <? length (tests le))%nat eqn:El; cbn [test with_test tests].
  - destruct (tests le !! S i) as [u|] eqn:Eu; [|apply lookup_ge_None_1 in Eu; lia]. rewrite (proj2 (readC_ok _ _ _) Eu). cbn [mbind outcome_bind].
    rewrite (live_cons _ _ u Eu). unfold not_seen.
    assert (forall fl fs, fails_at (tests le) fl fs -> is_alt u = false ->
      refines (moved le) (logexp_next fuel (with_fail (with_test le (Some (S i))) fl)) (advance (live (tests le) (S (S i))) fs)) as Hgo.
    { intros fl fs Hfl Hu. apply (IH (with_fail (with_test le (Some (S i))) fl) (S i) u fs fuel eq_refl Eu Hu Hfl); cbn; lia. }
    destruct (t_skip_max u =? LE_SEEN) eqn:E1; cbn [negb].
    { assert (with_test le (Some (S i)) = with_fail (with_test le (Some (S i))) (fail le)) as -> by done. apply Hgo; [done|]. unfold is_alt, LE_ALT, LE_SEEN in *. lia. }
    cbn [advance]. destruct (t_skip_max u =? LE_CLEAR) eqn:E2; [apply Hgo; [by constructor|unfold is_alt, LE_ALT, LE_CLEAR in *; lia]|].
    destruct (t_skip_max u =? LE_FAIL) eqn:E3.
    { apply Hgo; [|unfold is_alt, LE_ALT, LE_FAIL in *; lia]. apply Forall2_app; [done|]. constructor; [|constructor]. split; [done|lia]. }
    destruct (t_skip_max u =? LE_ABORT) eqn:E4; [done|]. exists (with_test le (Some (S i))). split; [done|]. split; [done|]. split; [done|]. split; [done|]. split; [done|]. split; [|done].
    cbn [test with_test at_rest fst]. rewrite (live_cons _ _ u Eu). unfold not_seen. rewrite E1. split; [done|]. exists u. split; [done|]. unfold expects. lia.
  - rewrite live_out by lia. exists (with_test le None). by split.
Qed.

(** At an alternative that is left the place stays. *)
Lemma next_stays (le : lexp) i t fails fuel : test le = Some i -> tests le !! i = Some t -> is_alt t = true -> fails_at (tests le) (fail le) fails ->
  refines (moved le) (logexp_next (S fuel) le) (advance (live (tests le) i) fails).
Proof.
  intros Hi Ht Ha Hf. cbn [logexp_next]. rewrite Hi, (proj2 (readC_ok _ _ _) Ht). cbn [mbind outcome_bind]. pose proof Ha as Ha'. unfold is_alt in Ha'. rewrite Ha', Hi, (proj2 (readC_ok _ _ _) Ht).
  assert (t_skip_max t = LE_ALT) as Hm by lia. assert (not_seen t = true) as Hs by (unfold not_seen, LE_ALT, LE_SEEN in *; lia).
  cbn [mbind outcome_bind]. rewrite Hm. cbn. rewrite (live_cons _ _ t Ht), Hs. cbn [advance]. rewrite Hm. cbn.
  exists le. split; [done|]. split; [done|]. split; [done|]. split; [done|]. split; [done|]. split; [|done]. rewrite Hi. cbn.
  rewrite (live_cons _ _ t Ht), Hs. split; [done|]. exists t. split; [done|]. by rewrite Hm.
Qed.

Definition rel_step (p : lexp * option Z) (q : amach * option Z) : Prop := rel p.1 q.1 /\ p.2 = q.2.

(** Behind a match: [k] is the rest that was matched in [le]. *)
Lemma matched_ok (le : lexp) s rest r fuel : fails_at (tests le) (fail le) (a_fails s) ->
  refines (moved (mk_logexp (tests le) (test le) 0 (r_vxid r) (r_tag r) (fail le)))
    (logexp_next fuel (mk_logexp (tests le) (test le) 0 (r_vxid r) (r_tag r) (fail le))) (advance rest (a_fails s)) ->
  refines rel_step (le ← logexp_next fuel (mk_logexp (tests le) (test le) 0 (r_vxid r) (r_tag r) (fail le));
    Ok (le, if logexp_done le then Some 1 else None)) (amatch s rest r).
Proof.
  intros Hf H. unfold amatch. destruct (advance rest (a_fails s)) as [[rest' fails]|f]; [|by cbn in *; rewrite H].
  destruct H as (le' & -> & Ht & Hs & Hv & Hg & Hr & Hfl). cbn [mbind outcome_bind tests skip_cnt vxid_last tag_last fst snd] in *. exists (le', if logexp_done le' then Some 1 else None). split; [done|].
  split; [by split; cbn [fst a_rest a_fails a_skip a_vxid a_tag]; rewrite ?Ht|]. cbn [snd]. unfold logexp_done, at_rest, fails_at in *.
  destruct (test le') as [i|]; [|subst rest'; by destruct Hfl].
  destruct Hr as (-> & t & Hi & He). rewrite (live_cons _ _ t Hi). assert (not_seen t = true) as -> by (unfold expects, not_seen in *; lia). by destruct Hfl.
Qed.

Lemma fails_mark ts l fails j u v : fails_at ts l fails -> ts !! j = Some u -> is_alt u = true -> fails_at (<[j := v]> ts) l fails.
Proof.
  intros H Hj Hu. eapply Forall2_impl; [exact H|]. intros i t [Hi Hm]. split; [|done]. rewrite list_lookup_insert_ne; [done|].
  intros ->. rewrite Hj in Hi. injection Hi as ->. unfold is_alt, LE_ALT, LE_FAIL in *. lia.
Qed.

(** A record in the C code and in the automaton. *)
Lemma dispatch_rec_ok le s r : rel le s -> refines rel_step (dispatch_rec VRE_nomatch SLT_End skipped_tag le r) (astep s r).
Proof.
  intros H. unfold dispatch_rec, astep. destruct (skipped_tag (r_tag r)); [by exists (le, None)|]. rewrite (failchk_ok le s r H). cbn [mbind outcome_bind].
  assert (forall m, bool_decide (m = LEM_FAIL) = match m with LEM_FAIL => true | _ => false end) as Hbd by by intros [].
  rewrite Hbd. destruct (existsb _ (a_fails s)) eqn:Ef.
  { destruct (a_fails s); [done|]. rewrite Ef. by exists (le, Some 2). }
  assert (match match a_fails s with [] => LEM_SKIP | l => if existsb (fun t => hits (a_vxid s) (a_tag s) t r) l then LEM_FAIL else LEM_OK end with LEM_FAIL => true | _ => false end = false) as ->
    by (destruct (a_fails s); [done|by rewrite Ef]).
  pose proof (rel_test _ _ H) as Ht. pose proof (rel_fail _ _ H) as Hf. destruct (test le) as [i|] eqn:Ei.
  - destruct Ht as (Hr & t & Hi & He). assert (not_seen t = true) as Hns by (unfold expects, not_seen in *; lia).
    rewrite Hr, (live_cons _ _ t Hi), Hns. destruct (is_alt t) eqn:Ea.
    + pose proof (match_alts _ le i t r (length (tests le)) Hi Ea (Nat.le_refl _) ltac:(lia)) as Hm.
      rewrite (live_cons _ _ t Hi), Hns, (rel_vxid _ _ H), (rel_tag _ _ H) in Hm. destruct (take_alt _ _ _ r) as [ts|]; [|by rewrite Hm; exists (le, Some 2)].
      destruct Hm as (j & u & -> & Hij & Hj & Hu & Hl). cbn [mbind outcome_bind]. set (ts' := <[j := set_skip_max u LE_SEEN]> (tests le)) in *.
      assert (length ts' = length (tests le)) as Hlen by apply length_insert. assert (j < length (tests le))%nat as Hjl by by eapply lookup_lt_Some.
      assert (fails_at ts' (fail le) (a_fails s)) as Hf' by by eapply fails_mark.
      apply (matched_ok (with_tests le ts')); [done|]. cbn [tests with_tests test fail]. rewrite Ei.
      destruct (decide (j = i)) as [->|Hji].
      * assert (ts' !! i = Some (set_skip_max u LE_SEEN)) as Hs by by apply list_lookup_insert_eq.
        rewrite (live_cons _ _ _ Hs) in Hl. cbn in Hl. rewrite <-Hl.
        apply (next_ok (length ts') (mk_logexp ts' (Some i) 0 (r_vxid r) (r_tag r) (fail le)) i _ _ _ eq_refl Hs eq_refl Hf'); cbn [tests]; lia.
      * rewrite <-Hl. apply (next_stays (mk_logexp ts' (Some i) 0 (r_vxid r) (r_tag r) (fail le)) i t); [done| |done|done]. cbn [tests]. subst ts'. by rewrite list_lookup_insert_ne.
    + destruct He as (H1 & H2 & H3 & H4). rewrite (match_plain _ _ _ t) by done. cbn [mbind outcome_bind]. unfold may_skip. rewrite (rel_vxid _ _ H), (rel_tag _ _ H), (rel_skip _ _ H).
      destruct (hits _ _ t r).
      * apply matched_ok; [done|]. rewrite Ei. by apply (next_ok (length (tests le)) (mk_logexp (tests le) (Some i) 0 (r_vxid r) (r_tag r) (fail le)) i t); [..|cbn [tests]; lia|lia].
      * rewrite (proj2 (Z.eqb_neq _ LE_FAIL) H3). cbn [orb].
        destruct (((t_skip_max t =? LE_ANY) || (a_skip s <? t_skip_max t)) && _); [|by exists (le, Some 2)].
        eexists. split; [done|]. split; [|done]. split; cbn; [|done| |done|done]; rewrite ?Ei; [|done]. split; [|by exists t]. by rewrite (live_cons _ _ t Hi), Hns.
  - rewrite Ht. destruct (a_fails s); [done|]. rewrite Ef. by exists (le, None).
Qed.

(** ** A whole log *)

Fixpoint arun (s : amach) (rs : list vsl_rec) : outcome (amach * Z) :=
  match rs with
  | [] => Ok (s, 0)
  | r :: rs => '(s, res) ← astep s r; match res with Some i => Ok (s, i) | None => arun s rs end
  end.

(** The automaton for the tests of a logexpect, from its start. *)
Definition alog (ts : list ltest) (rs : list vsl_rec) : outcome Z :=
  '(rest, fails) ← advance ts [];
  match rest, fails with
  | [], [] => Ok 1
  | _, _ => '(_, i) ← arun (mk_amach rest fails 0 (-1) (-1)) rs; Ok i
  end.

Lemma dispatch_ok rs : forall le s, rel le s ->
  refines (fun p q => rel p.1.1 q.1 /\ p.1.2 = q.2) (logexp_dispatch VRE_nomatch SLT_End skipped_tag le rs) (arun s rs).
Proof.
  induction rs as [|r rs IH]; intros le s H; cbn [logexp_dispatch arun]; [by exists (le, 0, [])|].
  pose proof (dispatch_rec_ok le s r H) as Hr. destruct (astep s r) as [[s' res]|f]; cbn [refines] in Hr; [|by rewrite Hr].
  destruct Hr as ([le' res'] & -> & Hl & Hres). cbn [fst snd mbind outcome_bind] in *. subst res'. destruct res as [i|]; [|by apply IH]. by exists (le', i, rs).
Qed.

Lemma clean_unseen (ts : list ltest) : Forall (fun t => not_seen t = true) (logexp_clean ts).
Proof.
  unfold logexp_clean. induction ts as [|t ts IH]; cbn [map]; constructor; [|done]. unfold not_seen.
  destruct (t_skip_max t =? LE_SEEN) eqn:E; [done|by rewrite E].
Qed.

Lemma live_all ts : Forall (fun t => not_seen t = true) ts -> live ts 0 = ts.
Proof. unfold live. rewrite drop_0. induction 1 as [|t ts Ht _ IH]; [done|]. rewrite filter_cons, Ht, IH. by case_decide. Qed.

Lemma first_ok (le : lexp) : test le = None ->
  refines (moved (with_tests le (logexp_clean (tests le)))) (logexp_next (S (S (length (tests le)))) le) (advance (logexp_clean (tests le)) []).
Proof.
  intros Hn. pose proof (clean_unseen (tests le)) as Hc. assert (length (logexp_clean (tests le)) = length (tests le)) as Hl by apply length_map.
  cbn [logexp_next]. rewrite Hn. cbn [mbind outcome_bind]. rewrite <-Hl. set (ts := logexp_clean (tests le)) in *. clearbody ts.
  destruct ts as [|t ts]; cbn [test]; [eexists; split; [done|]; split_and!; [done..|by constructor]|]. cbn [tests advance]. rewrite (proj2 (readC_ok (t :: ts) 0%nat t) eq_refl). cbn [mbind outcome_bind].
  apply Forall_cons in Hc as [Ht Hc]. assert ((t_skip_max t =? LE_SEEN) = false) as Hs by (unfold not_seen in Ht; lia). rewrite Hs.
  assert (live (t :: ts) 1 = ts) as Hlive by by apply (live_all ts).
  assert (forall fl fs, fails_at (t :: ts) fl fs -> is_alt t = false ->
    refines (moved (with_tests le (t :: ts))) (logexp_next (S (length (t :: ts))) (mk_logexp (t :: ts) (Some 0%nat) (skip_cnt le) (vxid_last le) (tag_last le) fl)) (advance ts fs)) as Hgo.
  { intros fl fs Hfl Ha. pose proof (next_ok (length (t :: ts)) (mk_logexp (t :: ts) (Some 0%nat) (skip_cnt le) (vxid_last le) (tag_last le) fl) 0 t fs (S (length (t :: ts))) eq_refl eq_refl Ha Hfl) as E.
    cbn [tests] in E. rewrite Hlive in E. apply E; lia. }
  destruct (t_skip_max t =? LE_CLEAR) eqn:E2; [apply Hgo; [by constructor|unfold is_alt, LE_ALT, LE_CLEAR in *; lia]|].
  destruct (t_skip_max t =? LE_FAIL) eqn:E3.
  { apply Hgo; [|unfold is_alt, LE_ALT, LE_FAIL in *; lia]. constructor; [|constructor]. split; [done|lia]. }
  destruct (t_skip_max t =? LE_ABORT) eqn:E4; [done|]. eexists. split; [done|]. split; [done|]. split; [done|]. split; [done|]. split; [done|]. split; [|by constructor].
  split; [symmetry; apply (live_all (t :: ts)); by constructor|]. exists t. split; [done|]. unfold expects. lia.
Qed.

Lemma thread_alog (le : lexp) rs :
  refines (fun p i => p.2 = i) (logexp_thread VRE_nomatch SLT_End skipped_tag (logexp_start le) rs) (alog (logexp_clean (tests le)) rs).
Proof.
  unfold logexp_thread, alog. cbn [test logexp_start]. rewrite bool_decide_true by done. cbn [assertC mbind outcome_bind].
  pose proof (first_ok (logexp_start le) eq_refl) as H. cbn [tests logexp_start] in H |- *.
  destruct (advance _ []) as [[rest fails]|f]; [|by cbn in *; rewrite H].
  destruct H as (le' & -> & Ht & Hs & Hv & Hg & Hr & Hfl). cbn [mbind outcome_bind tests skip_cnt vxid_last tag_last fst snd logexp_start with_tests] in *.
  assert (rel le' (mk_amach rest fails 0 (-1) (-1))) as Hrel by (split; cbn [a_rest a_fails a_skip a_vxid a_tag]; rewrite ?Ht; done).
  assert (logexp_done le' = match rest, fails with [], [] => true | _, _ => false end) as ->.
  { unfold logexp_done, at_rest, fails_at in *. destruct (test le') as [i|]; [|subst rest; by destruct Hfl].
    destruct Hr as (-> & t & Hi & He). rewrite (live_cons _ _ t Hi). assert (not_seen t = true) as -> by (unfold expects, not_seen in *; lia). by destruct Hfl. }
  pose proof (dispatch_ok rs le' _ Hrel) as Hd.
  assert (refines (fun p i => p.2 = i) ('(le, i, _) ← logexp_dispatch VRE_nomatch SLT_End skipped_tag le' rs; Ok (le, i)) ('(_, i) ← arun (mk_amach rest fails 0 (-1) (-1)) rs; Ok i)) as Hgo.
  { destruct (arun _ rs) as [[s i]|f]; [|by cbn in *; rewrite Hd]. destruct Hd as ([[le2 i2] rs2] & -> & _ & Hi). cbn in *. eexists. by split. }
  destruct rest, fails; [by eexists|exact Hgo..].
Qed.

(** C28: The thread of a logexpect ends as the automaton for its tests says, however
    often it was started before.  A record hits a test when the vxid, the tag and
    the data fit ([hits]); the data of a test with the tag * or = is not looked at. *)
Theorem logexp_thread_ok (le : lexp) rs :
  refines (fun p i => p.2 = i) (logexp_thread VRE_nomatch SLT_End skipped_tag (logexp_start le) rs) (alog (logexp_clean (tests le)) rs).
Proof. apply thread_alog. Qed.

(** ** Plain expectations *)

Definition visible (rs : list vsl_rec) : list vsl_rec := filter (fun r => skipped_tag (r_tag r) = false) rs.

Lemma arun_visible rs : forall s, arun s rs = arun s (visible rs).
Proof.
  unfold visible. induction rs as [|r rs IH]; intros s; [done|]. rewrite filter_cons. cbn [arun]. case_decide as Hr.
  - cbn [arun]. destruct (astep s r) as [[s' [i|]]|f]; [done|apply IH|done].
  - apply not_false_is_true in Hr. unfold astep at 1. rewrite Hr. cbn [mbind outcome_bind]. apply IH.
Qed.

Definition plain (t : ltest) : Prop := t_skip_max t = LE_ANY \/ 0 <= t_skip_max t.

(** A record that is skipped on the way to [t]. *)
Definition passed (vl : Z) (tl : Z) (t : ltest) (r : vsl_rec) : Prop :=
  hits vl tl t r = false /\ ((t_vxid t =? LE_LAST) || (0 <=? t_vxid t)) && vxid_fits vl t r && (r_tag r =? SLT_End) = false.

(** The test lets [n] records pass. *)
Definition room (t : ltest) (n : Z) : Prop := t_skip_max t = LE_ANY \/ n <= t_skip_max t.

(** What becomes of expectations, by the records: each is met by the first record
    that fits it, behind at most as many others as it allows.  They end with 1
    when all are met, with 2 at a record that neither fits nor may be passed, and
    with 0 when the records do. *)
Inductive ends : Z -> Z -> list ltest -> list vsl_rec -> Z -> Prop :=
  | ends_done vl tl rs : ends vl tl [] rs 1
  | ends_met vl tl t ts sk r rs i : Forall (passed vl tl t) sk -> room t (Z.of_nat (length sk)) -> hits vl tl t r = true ->
      ends (r_vxid r) (r_tag r) ts rs i -> ends vl tl (t :: ts) (sk ++ r :: rs) i
  | ends_fail vl tl t ts sk r rs : Forall (passed vl tl t) sk -> room t (Z.of_nat (length sk)) -> hits vl tl t r = false ->
      ~ (passed vl tl t r /\ room t (Z.of_nat (length sk) + 1)) -> ends vl tl (t :: ts) (sk ++ r :: rs) 2
  | ends_open vl tl t ts sk : Forall (passed vl tl t) sk -> room t (Z.of_nat (length sk)) -> ends vl tl (t :: ts) sk 0.

Lemma advance_plain ts fs : Forall plain ts -> advance ts fs = Ok (ts, fs).
Proof.
  intros [|t ts' Ht _]; [done|]. cbn [advance]. unfold plain, LE_ANY, LE_CLEAR, LE_FAIL, LE_ABORT in *.
  by rewrite !(proj2 (Z.eqb_neq (t_skip_max t) _)) by lia.
Qed.

(** [ends] behind [k] records that the first test has let pass. *)
Definition ends_from (k vl tl : Z) (t : ltest) (ts : list ltest) (rs : list vsl_rec) (i : Z) : Prop :=
  (exists sk r rs', rs = sk ++ r :: rs' /\ Forall (passed vl tl t) sk /\ room t (k + Z.of_nat (length sk)) /\ hits vl tl t r = true /\
     ends (r_vxid r) (r_tag r) ts rs' i) \/
  (i = 2 /\ exists sk r rs', rs = sk ++ r :: rs' /\ Forall (passed vl tl t) sk /\ room t (k + Z.of_nat (length sk)) /\ hits vl tl t r = false /\
     ~ (passed vl tl t r /\ room t (k + Z.of_nat (length sk) + 1))) \/
  (i = 0 /\ Forall (passed vl tl t) rs /\ room t (k + Z.of_nat (length rs))).

Lemma ends_from_0 vl tl t ts rs i : ends vl tl (t :: ts) rs i <-> ends_from 0 vl tl t ts rs i.
Proof.
  split.
  - intros H. inversion H; subst; [left; eexists _, _, _|right; left; split; [done|]; eexists _, _, _|by right; right]; by rewrite ?Z.add_0_l.
  - intros [(sk & r & rs' & -> & H1 & H2 & H3 & H4)|[(-> & sk & r & rs' & -> & H1 & H2 & H3 & H4)|(-> & H1 & H2)]]; [by apply ends_met|by apply ends_fail|by apply ends_open].
Qed.

Lemma ends_from_nil k vl tl t ts i : room t k -> ends_from k vl tl t ts [] i <-> i = 0.
Proof.
  intros Hk. split; [|intros ->; right; right; split; [done|]; split; [done|]; cbn [length Z.of_nat]; by rewrite Z.add_0_r].
  intros [([|? ?] & r & rs' & [=] & _)|[(-> & [|? ?] & r & rs' & [=] & _)|[-> _]]]. done.
Qed.

Lemma ends_from_hit k vl tl t ts r rs i : room t k -> hits vl tl t r = true -> ends_from k vl tl t ts (r :: rs) i <-> ends (r_vxid r) (r_tag r) ts rs i.
Proof.
  intros Hk Hh. split.
  - intros [([|r1 sk] & r2 & rs' & [= <- E] & H1 & _ & _ & H4)|[(_ & [|r1 sk] & r2 & rs' & [= <- E] & H1 & _ & H3 & _)|(_ & H1 & _)]]; [by subst|..];
      try (apply Forall_cons in H1 as [[H1 _] _]; congruence). congruence.
  - intros H. left. exists [], r, rs. split; [done|]. split; [done|]. split; [|done]. cbn [length Z.of_nat]. by rewrite Z.add_0_r.
Qed.

Lemma ends_from_pass k vl tl t ts r rs i : passed vl tl t r -> room t (k + 1) -> ends_from k vl tl t ts (r :: rs) i <-> ends_from (k + 1) vl tl t ts rs i.
Proof.
  intros Hp Hk. assert (forall n : nat, k + Z.of_nat (S n) = k + 1 + Z.of_nat n) as Hn by lia. split.
  - intros [([|r1 sk] & r2 & rs' & [= <- E] & H1 & H2 & H3 & H4)|[(Ei & [|r1 sk] & r2 & rs' & [= <- E] & H1 & H2 & H3 & H4)|(Ei & H1 & H2)]]; try (apply Forall_cons in H1 as [_ H1]); cbn [length] in *; rewrite ?Hn in *.
    + destruct Hp. congruence.
    + left. by eexists _, _, _.
    + destruct H4. cbn [Z.of_nat]. by rewrite Z.add_0_r.
    + right. left. split; [done|]. by eexists _, _, _.
    + by right; right.
  - intros [(sk & r2 & rs' & -> & H1 & H2 & H3 & H4)|[(-> & sk & r2 & rs' & -> & H1 & H2 & H3 & H4)|(-> & H1 & H2)]]; rewrite <-Hn in *.
    + left. exists (r :: sk), r2, rs'. split; [done|]. split; [by constructor|]. done.
    + right. left. split; [done|]. exists (r :: sk), r2, rs'. split; [done|]. split; [by constructor|]. done.
    + right. right. split; [done|]. split; [by constructor|]. done.
Qed.

Lemma ends_from_fail k vl tl t ts r rs i : room t k -> hits vl tl t r = false -> ~ (passed vl tl t r /\ room t (k + 1)) ->
  ends_from k vl tl t ts (r :: rs) i <-> i = 2.
Proof.
  intros Hk Hh Hn. assert (forall n : nat, passed vl tl t r -> ~ room t (k + Z.of_nat (S n))) as Hn'.
  { intros n Hp Hr. apply Hn. split; [done|]. unfold room in *. lia. }
  split.
  - intros [([|r1 sk] & r2 & rs' & [= <- E] & H1 & H2 & H3 & H4)|[[Ei _]|(Ei & H1 & H2)]]; [congruence| |done|]; apply Forall_cons in H1 as [H1 _]; by destruct (Hn' _ H1 H2).
  - intros ->. right. left. split; [done|]. exists [], r, rs. cbn [length Z.of_nat]. rewrite Z.add_0_r. by split.
Qed.

Lemma arun_ends rs i : forall t ts k vl tl, Forall plain (t :: ts) -> Forall (fun r => skipped_tag (r_tag r) = false) rs -> 0 <= k -> room t k ->
  k + Z.of_nat (length rs) < 2 ^ 31 ->
  ((exists s, arun (mk_amach (t :: ts) [] k vl tl) rs = Ok (s, i)) <-> ends_from k vl tl t ts rs i).
Proof.
  induction rs as [|r rs IH]; intros t ts k vl tl Hp Hv Hk Hkm Hb; [rewrite ends_from_nil by done; split; [by intros (s & [= _ <-])|intros ->; by eexists]|].
  apply Forall_cons in Hv as [Hvr Hv]. inversion Hp as [|? ? Ht Hts]; subst. cbn [length] in Hb. cbn [arun]. unfold astep. rewrite Hvr. cbn [a_fails a_rest existsb a_vxid a_tag].
  assert (is_alt t = false) as -> by (unfold is_alt, plain, LE_ALT, LE_ANY in *; lia).
  destruct (hits vl tl t r) eqn:Eh.
  - rewrite ends_from_hit by done. unfold amatch. cbn [a_fails]. rewrite advance_plain by done. cbn [mbind outcome_bind]. destruct ts as [|u ts].
    + split; [intros (s & [= _ <-]); constructor|intros H; inversion H; subst; by eexists].
    + assert (plain u) as Hu by by apply Forall_cons in Hts as [? _]. rewrite IH by (done || unfold plain, room in *; lia). by rewrite ends_from_0.
  - unfold may_skip. cbn [a_skip a_vxid]. destruct (((t_skip_max t =? LE_ANY) || (k <? t_skip_max t)) && _) eqn:Es.
    + apply andb_true_iff in Es as [Es Hend]. apply negb_true_iff in Hend. cbn [mbind outcome_bind a_skip a_vxid a_tag a_rest a_fails].
      assert (room t (k + 1)) by (unfold room; lia). rewrite (wraps_small 32 (k + 1)) by lia.
      rewrite IH by (done || lia). by rewrite ends_from_pass.
    + rewrite ends_from_fail; [split; [by intros (s & [= _ <-])|intros ->; by eexists]|done..|].
      intros [[_ Hend] Hr]. unfold room in Hr. rewrite Hend in Es. cbn [negb] in Es. rewrite andb_true_r in Es. lia.
Qed.

Lemma clean_plain ts : Forall plain ts -> logexp_clean ts = ts.
Proof.
  unfold logexp_clean. induction 1 as [|t ts Ht _ IH]; [done|]. cbn [map]. rewrite IH. unfold plain, LE_ANY, LE_SEEN in *.
  by rewrite (proj2 (Z.eqb_neq (t_skip_max t) _)) by lia.
Qed.

Lemma alog_plain ts rs i (Hp : Forall plain ts) (Hb : Z.of_nat (length rs) < 2 ^ 31) : alog ts rs = Ok i <-> ends (-1) (-1) ts (visible rs) i.
Proof.
  unfold alog. rewrite advance_plain by done. cbn [mbind outcome_bind].
  destruct ts as [|t ts]; [split; [intros [= <-]; constructor|intros H; inversion H; by subst]|].
  rewrite arun_visible. pose proof (arun_ends (visible rs) i t ts 0 (-1) (-1) Hp) as H.
  assert (forall m : outcome (amach * Z), ('(_, i) ← m; Ok i) = Ok i <-> exists s, m = Ok (s, i)) as ->.
  { intros [[s j]|f]; split; [intros [= ->]; by eexists|by intros (s' & [= -> ->])|done|by intros (s' & [=])]. }
  rewrite H, ends_from_0; [done| |lia| |].
  - apply Forall_forall. by intros x [Hx _]%list_elem_of_filter.
  - inversion Hp; subst. unfold plain, room in *. lia.
  - pose proof (length_filter (fun r => skipped_tag (r_tag r) = false) rs). unfold visible. lia.
Qed.


(** ** Alternatives *)

(** A test that does not ask for the values of the last match. *)
Definition absolute (t : ltest) : Prop := t_vxid t <> LE_LAST /\ t_tag t <> LE_LAST.
Definition hit (t : ltest) (r : vsl_rec) : bool := hits (-1) (-1) t r.

Lemma hits_absolute vl tl t r : absolute t -> hits vl tl t r = hit t r.
Proof.
  intros [H1 H2]. unfold hit, hits, vxid_fits, tag_fits. by rewrite (proj2 (Z.eqb_neq _ _) H1), (proj2 (Z.eqb_neq _ _) H2).
Qed.

(** Each record hits its alternative and none of those that are met later. *)
Inductive told_apart : list ltest -> list vsl_rec -> Prop :=
  | ta_nil : told_apart [] []
  | ta_cons t ts r rs : hit t r = true -> Forall (fun u => hit u r = false) ts -> told_apart ts rs -> told_apart (t :: ts) (r :: rs).

Lemma take_alt_at vl tl a t b r : Forall (fun u => is_alt u = true /\ absolute u) (a ++ t :: b) -> Forall (fun u => hit u r = false) a -> hit t r = true ->
  forall rest, take_alt vl tl ((a ++ t :: b) ++ rest) r = Some ((a ++ b) ++ rest).
Proof.
  intros Hab Ha Ht rest. induction a as [|u a IH]; cbn [app take_alt] in *; apply Forall_cons in Hab as [[Hu1 Hu2] Hab]; rewrite Hu1, hits_absolute by done.
  - by rewrite Ht.
  - apply Forall_cons in Ha as [-> Ha]. by rewrite IH.
Qed.

Lemma arun_alts rest rest' fails more : advance rest [] = Ok (rest', fails) -> forall rs ts ts' k vl tl, ts' ≡ₚ ts -> ts <> [] ->
  Forall (fun u => is_alt u = true /\ absolute u) ts -> told_apart ts' rs -> Forall (fun r => skipped_tag (r_tag r) = false) rs ->
  exists vl' tl', arun (mk_amach (ts ++ rest) [] k vl tl) (rs ++ more) =
    let s := mk_amach rest' fails 0 vl' tl' in
    match rest', fails with [], [] => Ok (s, 1) | _, _ => arun s more end.
Proof.
  intros Hadv. induction rs as [|r rs IH]; intros ts ts' k vl tl Hperm Hne Hts Hta Hv; inversion Hta as [|t ts2 r2 rs2 Ht Hap Hta']; subst; [by apply Permutation_nil in Hperm|].
  apply Forall_cons in Hv as [Hvr Hv].
  assert (exists a b, ts = a ++ t :: b) as (a & b & ->) by (apply list_elem_of_split; rewrite <-Hperm; constructor).
  assert (ts2 ≡ₚ a ++ b) as Hp2 by (apply (Permutation_cons_inv (a := t)); rewrite Hperm; symmetry; apply Permutation_middle).
  assert (Forall (fun u => is_alt u = true /\ absolute u) (a ++ b)) as Hab.
  { apply Forall_app in Hts as [? [_ ?]%Forall_cons]. by apply Forall_app. }
  assert (Forall (fun u => hit u r = false) a) as Ha by (rewrite Hp2 in Hap; by apply Forall_app in Hap as [? _]).
  cbn [app arun]. unfold astep. rewrite Hvr. cbn [a_fails a_rest existsb a_vxid a_tag].
  assert (exists u us, (a ++ t :: b) ++ rest = u :: us /\ is_alt u = true) as (u & us & E & Hu).
  { destruct a as [|u a]; cbn [app] in *; eexists _, _; (split; [done|]); by apply Forall_cons in Hts as [[? _] _]. }
  pose proof (take_alt_at vl tl a t b r Hts Ha Ht rest) as Htk. rewrite E in Htk |- *. rewrite Hu, Htk. unfold amatch. cbn [a_fails].
  destruct (a ++ b) as [|w ab] eqn:Eab.
  - apply Permutation_nil_r in Hp2. subst ts2. inversion Hta'; subst. cbn [app]. rewrite Hadv. cbn [mbind outcome_bind]. exists (r_vxid r), (r_tag r). by destruct rest', fails.
  - cbn [app advance]. assert (t_skip_max w = LE_ALT) as Hw by (apply Forall_cons in Hab as [[Hw _] _]; unfold is_alt in Hw; lia). rewrite Hw. cbn [Z.eqb Pos.eqb LE_ALT LE_CLEAR LE_FAIL LE_ABORT mbind outcome_bind].
    change (w :: ab ++ rest) with ((w :: ab) ++ rest). by eapply IH.
Qed.

(** A block of alternatives is met by its records in any order, one behind the
    other, when each record can be told from the alternatives that are left;
    then the expectations behind the block follow. *)
Theorem logexp_alts_ok ts ts' rs more rest rest' fails (Hts : Forall (fun u => is_alt u = true /\ absolute u) ts) (Hne : ts <> [])
    (Hperm : ts' ≡ₚ ts) (Hta : told_apart ts' rs) (Hv : Forall (fun r => skipped_tag (r_tag r) = false) rs) (Hadv : advance rest [] = Ok (rest', fails)) :
  exists vl tl, alog (ts ++ rest) (rs ++ more) =
    match rest', fails with [], [] => Ok 1 | _, _ => '(_, i) ← arun (mk_amach rest' fails 0 vl tl) more; Ok i end.
Proof.
  destruct (arun_alts rest rest' fails more Hadv rs ts ts' 0 (-1) (-1) Hperm Hne Hts Hta Hv) as (vl & tl & E). exists vl, tl.
  unfold alog. assert (advance (ts ++ rest) [] = Ok (ts ++ rest, [])) as ->.
  { destruct ts as [|t ts]; [done|]. apply Forall_cons in Hts as [[Ht _] _]. unfold is_alt in Ht. assert (t_skip_max t = LE_ALT) as Hw by lia. cbn [app advance]. by rewrite Hw. }
  cbn [mbind outcome_bind]. rewrite E. destruct ts; [done|]. cbn [app]. by destruct rest', fails.
Qed.

(** The regular expression of a test without a tag name is never looked at. *)
Lemma regex_ignored vl tl v m re r : forall t, t < 0 -> hits vl tl (mk_test v t (Some re) m) r = hits vl tl (mk_test v t None m) r.
Proof. intros t Ht. unfold hits, data_fits. cbn [t_vre t_tag]. by rewrite (proj2 (Z.ltb_lt t 0)). Qed.
End vsl.

(** ** Examples *)

(** Tags are numbers, regular expressions are bytes to begin with. *)
Definition example_nomatch (re data : list Z) : bool := negb (bool_decide (take (length re) data = re)).
Abbreviation example_log := (alog example_nomatch 77 (fun t => t =? 99)).
Definition ex_any : logexp_test (Re := list Z) := mk_test 1001 5 (Some [71; 69; 84]) LE_ANY.
Definition ex_next : logexp_test (Re := list Z) := mk_test LE_LAST 6 None 0.
Definition ex_recs : list vsl_rec := [mk_rec 1000 5 [71; 69; 84]; mk_rec 1001 5 [80]; mk_rec 0 99 []; mk_rec 1001 5 [71; 69; 84; 32]; mk_rec 1001 6 []].

Definition ex_le : logexp := mk_logexp [ex_any; ex_next] None 0 (-1) (-1) [].


Definition ex_alt (v : Z) : logexp_test (Re := list Z) := mk_test v LE_ANY None LE_ALT.

Lemma logexp_alts_ok_witness : example_log [ex_alt 1; ex_alt 2; ex_alt 3] [mk_rec 3 0 []; mk_rec 1 0 []; mk_rec 2 0 []] = Ok 1.
Proof.
  destruct (logexp_alts_ok example_nomatch 77 (fun t => t =? 99) [ex_alt 1; ex_alt 2; ex_alt 3] [ex_alt 3; ex_alt 1; ex_alt 2] [mk_rec 3 0 []; mk_rec 1 0 []; mk_rec 2 0 []] [] [] [] [])
    as (vl & tl & E); [by repeat constructor|done| |by repeat constructor|by repeat constructor|done|exact E].
  apply (Permutation_cons_append [ex_alt 1; ex_alt 2] (ex_alt 3)).
Defined.

(** Alternatives that overlap depend on the order: the first that fits is taken. *)
Lemma alts_overlap : example_log [ex_alt LE_ANY; ex_alt 2] [mk_rec 2 0 []; mk_rec 3 0 []] = Ok 2 /\
  example_log [ex_alt LE_ANY; ex_alt 2] [mk_rec 3 0 []; mk_rec 2 0 []] = Ok 1.
Proof. by vm_compute. Qed.

(** [abort] alone reads past its arguments, and a count is cut to an [int]. *)
Lemma bad_commands : let le := mk_logexp [] None 0 (-1) (-1) [] in
  cmd_logexp_abort (fun _ => 0) (fun re => Some re) le [[97; 98; 111; 114; 116]] = Fault FBounds /\
  cmd_logexp_expect (fun _ => 0) (fun re => Some re) le [[101]; [52; 50; 57; 52; 57; 54; 55; 50; 57; 55]; [42]; [42]] =
    Ok (mk_logexp [mk_test LE_ANY LE_ANY None 1] None 0 (-1) (-1) []).
Proof. by vm_compute. Qed.
