(* ===== verification/VtcSubr.v ===== *)
(** * Helpers (src/vtc_subr.c, and strings as the commands use them)

    Words of a command line are lists of bytes without NUL; [cstr] cuts an
    object at its first NUL.  Regular expressions are parameters of
    [vtc_expect]. *)

From Stdlib Require Import ZArith Lia ZifyBool String.
From stdpp Require Import base option numbers list.
From S2P Require Import Prelude CStr HpackData Vct Interp Dbl VnumDec.
#[local] Open Scope Z_scope.

(** The string at the front of an object that has a NUL. *)
Fixpoint cstr (d : list Z) : list Z :=
  match d with
  | [] => []
  | c :: d => if c =? 0 then [] else c :: cstr d
  end.

(** [strcmp(s, "...") == 0]. *)
Definition streq (s : list Z) (w : string) : bool := bool_decide (s = str w).
Definition starts_with (s : list Z) (w : string) : bool := bool_decide (take (length (str w)) s = str w).

(** [strtoul(s, &end, base)] with what [end] points to. *)
Fixpoint ul_span (base v : Z) (s : list Z) : Z * list Z :=
  match s with
  | [] => (v, [])
  | c :: r => match digit_of base c with Some d => ul_span base (v * base + d) r | None => (v, s) end
  end.
Definition strtoul (base : Z) (s : list Z) : Z * list Z :=
  let p := skip_to isspace s in
  let '(neg, p) := match p with 45 :: p => (true, p) | 43 :: p => (false, p) | _ => (false, p) end in
  let '(b, p) := match p with
                 | 48 :: x :: d :: r =>
                     if ((base =? 0) || (base =? 16)) && ((x =? 120) || (x =? 88)) && bool_decide (is_Some (digit_of 16 d)) then (16, d :: r)
                     else (if base =? 0 then 8 else base, p)
                 | 48 :: _ => (if base =? 0 then 8 else base, p)
                 | _ => (if base =? 0 then 10 else base, p)
                 end in
  match p with
  | c :: _ =>
      match digit_of b c with
      | Some _ =>
          let '(v, e) := ul_span b 0 p in
          (if 2 ^ 64 <=? v then 2 ^ 64 - 1 else u64 (if neg : bool then - v else v), e)
      | None => (0, s)
      end
  | [] => (0, s)
  end.

(** "%d" and its kin, of any width. *)
Fixpoint dec_digits (fuel : nat) (n : Z) (acc : list Z) : list Z :=
  match fuel with
  | O => acc
  | S fuel => let acc := (48 + n `mod` 10) :: acc in if n <? 10 then acc else dec_digits fuel (n / 10) acc
  end.
Definition fmt_d (n : Z) : list Z := if n <? 0 then 45 :: dec_digits 20 (- n) [] else dec_digits 20 n [].

(** [snprintf(buf, n, ...)]. *)
Definition snprintf (n : nat) (s : list Z) : list Z := take (n - 1) s.

(** [vtc_log] at level [lvl], which ends the test at level 0. *)
Definition vtc_log (lvl : Z) : outcome unit := if lvl =? 0 then Fault FFatal else Ok tt.

(** The bytes [p[off]] to [p[off + n - 1]] of an object. *)
Definition slice (d : list Z) (off n : Z) : outcome (list Z) :=
  if off + n <=? Z.of_nat (length d) then Ok (take (Z.to_nat n) (drop (Z.to_nat off) d)) else Fault FBounds.

(** The lines of [synth_body] (src/vtc_http.c); [rnd] gives the random bytes. *)
Fixpoint synth_loop (rnd : option (Z -> Z)) (n : nat) (j k l : Z) : list Z :=
  match n with
  | O => []
  | S n =>
      if j `mod` 64 =? 63 then
        let k := if k + 1 =? 126 then 33 else k + 1 in 10 :: synth_loop rnd n (j + 1) k k
      else
        match rnd with
        | Some r => (r j `mod` 95 + 32) :: synth_loop rnd n (j + 1) k l
        | None => l :: synth_loop rnd n (j + 1) k (if l + 1 =? 126 then 33 else l + 1)
        end
  end.
Definition synth_body (len : list Z) (rnd : option (Z -> Z)) : outcome (list Z) :=
  let i := i32 (strtoul 0 len).1 in
  _ ← assertC (0 <? i);
  Ok (synth_loop rnd (Z.to_nat (i - 1)) 0 33 33 ++ [10]).

(** ** vtc_hex_to_bin *)

Definition hex_val (c : Z) : outcome Z :=
  if (48 <=? c) && (c <=? 57) then Ok (c - 48)
  else if (65 <=? c) && (c <=? 70) then Ok (c - 55)
  else if (97 <=? c) && (c <=? 102) then Ok (c - 87)
  else Fault FFatal.

(** [sh] is the shift of the next digit, [b] the byte so far. *)
Fixpoint hex_loop (arg : list Z) (sh b : Z) (vsb : list Z) : outcome (list Z) :=
  match arg with
  | [] => Ok (if negb (sh =? 4) then vsb ++ [b] else vsb)
  | c :: arg =>
      if vct_issp c || (c =? 10) then hex_loop arg sh b vsb
      else
        x ← hex_val c;
        let b := Z.lor b (Z.shiftl x sh) in
        let sh := 4 - sh in
        if sh =? 4 then hex_loop arg sh 0 (vsb ++ [b]) else hex_loop arg sh b vsb
  end.
Definition vtc_hex_to_bin (arg : list Z) : outcome (list Z) := hex_loop arg 4 0 [].

(** ** vtc_expect *)

Section expect.
Context (VRE_compile_ok : list Z -> bool) (VRE_match : list Z -> list Z -> bool).

(** The value of the comparison; None when there is no such. *)
Definition expect_cmp (lhs : option (list Z)) (cmp : list Z) (rhs : option (list Z)) : outcome (option bool) :=
  let j := match lhs, rhs with Some _, Some _ => false | _, _ => true end in
  let l := default (str "<undef>") lhs in
  let r := default (str "<undef>") rhs in
  let ul s := (strtoul 0 s).1 in
  if streq cmp "~" || streq cmp "!~" then
    if VRE_compile_ok r then
      let i := VRE_match r l in
      Ok (Some (i && bool_decide (head cmp = Some 126) || negb i && bool_decide (head cmp = Some 33)))
    else Fault FFatal
  else if streq cmp "==" then Ok (Some (bool_decide (l = r)))
  else if streq cmp "!=" then Ok (Some (negb (bool_decide (l = r))))
  else if streq cmp "-lt" then Ok (Some (ul l <? ul r))
  else if streq cmp "-le" then Ok (Some (ul l <=? ul r))
  else if streq cmp "-eq" then Ok (Some (ul l =? ul r))
  else if streq cmp "-ne" then Ok (Some (negb (ul l =? ul r)))
  else if streq cmp "-ge" then Ok (Some (ul r <=? ul l))
  else if streq cmp "-gt" then Ok (Some (ul r <? ul l))
  else if j then Ok (Some false)
  else
    fl ← VNUM (l ++ [0]);
    fr ← VNUM (r ++ [0]);
    Ok (if streq cmp "<" then Some (dlt fl fr)
        else if streq cmp ">" then Some (dlt fr fl)
        else if streq cmp "<=" then Some (dle fl fr)
        else if streq cmp ">=" then Some (dle fr fl)
        else None).

(** [vtc_expect] returns when the expectation holds. *)
Definition vtc_expect (lhs : option (list Z)) (cmp : list Z) (rhs : option (list Z)) : outcome unit :=
  r ← expect_cmp lhs cmp rhs;
  match r with Some true => Ok tt | _ => Fault FFatal end.
End expect.

(** ** vtc_wait4 *)

(** The macros of sys/wait.h. *)
Definition WTERMSIG (status : Z) : Z := Z.land status 127.
Definition WIFEXITED (status : Z) : bool := WTERMSIG status =? 0.
Definition WEXITSTATUS (status : Z) : Z := Z.shiftr (Z.land status 65280) 8.
Definition WIFSIGNALED (status : Z) : bool := 0 <? Z.shiftr (wraps 8 (WTERMSIG status + 1)) 1.
Definition WCOREDUMP (status : Z) : Z := Z.land status 128.

(** [status] is what [wait4] stored. *)
Definition vtc_wait4 (status expect_status expect_signal allow_core : Z) : outcome unit :=
  if WIFEXITED status && (expect_signal <=? 0) && (WEXITSTATUS status =? expect_status) then Ok tt
  else
    let expect_signal := if expect_signal <? 0 then - expect_signal else expect_signal in
    if WIFSIGNALED status && (WCOREDUMP status <=? allow_core) && (WTERMSIG status =? expect_signal) then Ok tt
    else Fault FFatal.

(** ** What the helpers compute *)

(** The digits of a text, blanks left out; None when there is another byte. *)
Fixpoint hex_digits (arg : list Z) : option (list Z) :=
  match arg with
  | [] => Some []
  | c :: arg =>
      if (c =? 32) || (c =? 9) || (c =? 10) then hex_digits arg
      else d ← digit_of 16 c; ds ← hex_digits arg; Some (d :: ds)
  end.

(** Two digits to a byte; the last may be alone, and counts for the high half. *)
Fixpoint paired (ds : list Z) : list Z :=
  match ds with
  | a :: b :: ds => (16 * a + b) :: paired ds
  | [a] => [16 * a]
  | [] => []
  end.

Lemma digit16_range c d : digit_of 16 c = Some d -> 0 <= d < 16.
Proof. unfold digit_of. intros H. repeat case_match; simplify_eq; lia. Qed.

Lemma hex_val_digit c : hex_val c = match digit_of 16 c with Some d => Ok d | None => Fault FFatal end.
Proof.
  unfold hex_val, digit_of.
  destruct ((48 <=? c) && (c <=? 57)) eqn:E1; [by replace (c - 48 <? 16) with true by lia|].
  destruct ((97 <=? c) && (c <=? 122)) eqn:E2.
  - replace ((65 <=? c) && (c <=? 70)) with false by lia. destruct ((97 <=? c) && (c <=? 102)) eqn:E3.
    + by replace (c - 87 <? 16) with true by lia.
    + by replace (c - 87 <? 16) with false by lia.
  - replace ((97 <=? c) && (c <=? 102)) with false by lia. destruct ((65 <=? c) && (c <=? 90)) eqn:E4.
    + destruct ((65 <=? c) && (c <=? 70)) eqn:E5; [by replace (c - 55 <? 16) with true by lia|by replace (c - 55 <? 16) with false by lia].
    + by replace ((65 <=? c) && (c <=? 70)) with false by lia.
Qed.

Lemma nibble b x : 0 <= b < 16 -> 0 <= x < 16 -> Z.lor (Z.lor 0 (Z.shiftl b 4)) (Z.shiftl x 0) = 16 * b + x.
Proof.
  intros Hb Hx. rewrite Z.lor_0_l, Z.shiftl_0_r, Z.shiftl_mul_pow2 by lia. change (2 ^ 4) with 16.
  assert (Z.land (b * 16) x = 0) as H.
  { apply Z.bits_inj'. intros k Hk. rewrite Z.land_spec, Z.bits_0. destruct (Z.lt_ge_cases k 4) as [H4|H4].
    - change 16 with (2 ^ 4). by rewrite Z.mul_pow2_bits_low.
    - rewrite <-(Z.mod_small x (2 ^ 4)) by lia. rewrite Z.mod_pow2_bits_high by lia. by rewrite andb_false_r. }
  rewrite <-Z.lxor_lor by done. rewrite <-Z.add_nocarry_lxor by done. lia.
Qed.

(** Both positions of the loop at once. *)
Lemma hex_loop_ok arg vsb : Forall byte arg ->
  hex_loop arg 4 0 vsb = match hex_digits arg with Some ds => Ok (vsb ++ paired ds) | None => Fault FFatal end /\
  forall a, 0 <= a < 16 -> hex_loop arg 0 (Z.lor 0 (Z.shiftl a 4)) vsb =
    match hex_digits arg with Some ds => Ok (vsb ++ paired (a :: ds)) | None => Fault FFatal end.
Proof.
  intros H. revert vsb. induction H as [|c arg Hc H IH]; intros vsb; cbn [hex_loop hex_digits].
  - split; [by rewrite app_nil_r|]. intros a Ha. cbn [Z.eqb negb paired]. do 3 f_equal. rewrite Z.lor_0_l, Z.shiftl_mul_pow2 by lia. lia.
  - assert (vct_issp c || (c =? 10) = (c =? 32) || (c =? 9) || (c =? 10)) as ->.
    { f_equal. unfold byte in Hc. pose proof (class_facts_ok c Hc) as Hf. unfold class_facts in Hf. repeat (apply andb_prop in Hf as [Hf ?]).
      match goal with H : Bool.eqb (vct_issp c) _ = true |- _ => by apply Bool.eqb_prop in H end. }
    destruct ((c =? 32) || (c =? 9) || (c =? 10)); [apply IH|]. rewrite hex_val_digit. destruct (digit_of 16 c) as [d|] eqn:Ed; [|split; [done|by intros]].
    apply digit16_range in Ed. cbn [mbind outcome_bind option_bind]. change (4 - 4) with 0. change (4 - 0) with 4. cbn [Z.eqb Pos.eqb]. split.
    + rewrite (proj2 (IH vsb) d Ed). by destruct (hex_digits arg).
    + intros a Ha. rewrite nibble by done. rewrite (proj1 (IH (vsb ++ [16 * a + d]))). destruct (hex_digits arg); [|done]. cbn [paired]. by rewrite <-app_assoc.
Qed.

(** [vtc_hex_to_bin] is the reading of a text as pairs of digits: it fails on
    exactly the texts that hold another byte than a digit or a blank. *)
Theorem vtc_hex_to_bin_ok arg : Forall byte arg ->
  vtc_hex_to_bin arg = match hex_digits arg with Some ds => Ok (paired ds) | None => Fault FFatal end.
Proof. intros H. apply (hex_loop_ok arg []). done. Qed.

Lemma vtc_hex_to_bin_ok_witness : vtc_hex_to_bin (str "00 8D 9") = Ok [0; 141; 144].
Proof. rewrite (vtc_hex_to_bin_ok (str "00 8D 9")); [reflexivity|]. by apply (bool_decide_unpack _). Defined.

(** A process that dumped core is never accepted, whatever [-allow-core] says:
    the bit that tells of the dump is 128, and [allow_core] is 0 or 1. *)
Theorem allow_core_dead status expect_status expect_signal allow_core : 0 <= allow_core <= 1 ->
  WIFSIGNALED status = true -> WCOREDUMP status <> 0 -> vtc_wait4 status expect_status expect_signal allow_core = Fault FFatal.
Proof.
  intros Ha Hs Hc. unfold vtc_wait4.
  assert (WIFEXITED status = false) as ->. { unfold WIFEXITED. destruct (WTERMSIG status =? 0) eqn:E; [|done]. apply Z.eqb_eq in E. unfold WIFSIGNALED in Hs. by rewrite E in Hs. }
  cbn [andb]. assert (WCOREDUMP status = 128) as ->.
  { unfold WCOREDUMP in *. assert (Z.land status 128 = if Z.testbit status 7 then 128 else 0) as E.
    { apply Z.bits_inj'. intros k Hk. rewrite Z.land_spec. change 128 with (2 ^ 7). rewrite Z.pow2_bits_eqb by lia. destruct (7 =? k) eqn:E7.
      - apply Z.eqb_eq in E7 as <-. rewrite andb_true_r. by destruct (Z.testbit status 7).
      - rewrite andb_false_r. destruct (Z.testbit status 7); [by rewrite Z.pow2_bits_eqb, E7 by lia|by rewrite Z.bits_0]. }
    rewrite E in *. by destruct (Z.testbit status 7). }
  rewrite (proj2 (Z.leb_gt 128 _)) by lia. by rewrite andb_false_r.
Qed.

Lemma allow_core_dead_witness : vtc_wait4 139 0 11 1 = Fault FFatal.
Proof. apply (allow_core_dead 139 0 11 1); [lia|reflexivity|discriminate]. Defined.
