(* ===== verification/Gzip.v ===== *)
(** * Compressed bodies (src/vtc_gzip.c)

    The calls of zlib are parameters: a call takes the input that is left and
    the room for output, and gives a code, the input it left, the output and the
    state.  The library is either zlib or the one of lib/vgz.h, which tells where
    the last bit is. *)

From Stdlib Require Import ZArith Lia ZifyBool String.
From stdpp Require Import base option numbers list.
From S2P Require Import Prelude CStr HpackData Vlu VtcSubr.
#[local] Open Scope Z_scope.

Definition Z_OK : Z := 0.
Definition Z_STREAM_END : Z := 1.
Definition Z_BUF_ERROR : Z := -5.
Inductive flush := Z_BLOCK | Z_FINISH.

(** The fields of [struct http] that bear on compression. *)
Record gz := mk_gz { gz_level : Z; gz_residual : Z }.

Section zlib.
Context (zst : Type).
Context (inflateInit2 : option zst) (inflate : zst -> list Z -> nat -> Z * list Z * list Z * zst).
Context (deflateInit2 : Z -> option zst) (deflate : flush -> zst -> list Z -> nat -> Z * list Z * list Z * zst).
Context (stop_bit : option (zst -> Z)) (rnd : Z -> Z).

(** ** Decompression *)

Fixpoint gunzip_loop (fuel : nat) (vz : zst) (inp vout : list Z) : outcome (Z * list Z) :=
  match fuel with
  | O => Fault FFuel
  | S fuel =>
      let '(i, inp, out, vz) := inflate vz inp (Z.to_nat BUFSIZ) in
      let vout := vout ++ out in
      if (i =? Z_OK) || (i =? Z_BUF_ERROR) then gunzip_loop fuel vz inp vout else Ok (i, vout)
  end.

Definition vtc_gunzip_vsb (fuel : nat) (fatal : Z) (vin : list Z) : outcome (list Z) :=
  match inflateInit2 with
  | None => Fault FAssert
  | Some vz =>
      '(i, vout) ← gunzip_loop fuel vz vin [];
      _ ← (if negb (i =? Z_STREAM_END) then vtc_log fatal else Ok tt);
      Ok vout
  end.

(** [body] is the block of memory, which the result is copied to. *)
Definition vtc_gunzip (fuel : nat) (fatal : Z) (body : option (list Z)) (bodylen : Z) : outcome (list Z * Z) :=
  match body with
  | None => Fault FAssert
  | Some body =>
      b0 ← readC body 0;
      b1 ← (if b0 =? 31 then readC body 1 else Ok 0);
      _ ← (if negb (b0 =? 31) || negb (b1 =? 139) then vtc_log fatal else Ok tt);
      vin ← slice body 0 bodylen;
      vout ← vtc_gunzip_vsb fuel fatal vin;
      let src := vout ++ [0] in
      if (length src <=? length body)%nat then Ok (src ++ drop (length src) body, Z.of_nat (length vout)) else Fault FBounds
  end.

(** ** Compression *)

Fixpoint chunk_loop (fuel : nat) (fl : flush) (vz : zst) (inp vout : list Z) : outcome (Z * zst * list Z) :=
  match fuel with
  | O => Fault FFuel
  | S fuel =>
      let '(i, inp, out, vz) := deflate fl vz inp (Z.to_nat BUFSIZ) in
      let vout := vout ++ out in
      if (i =? Z_OK) || (0 <? Z.of_nat (length inp)) then chunk_loop fuel fl vz inp vout else Ok (i, vz, vout)
  end.
Definition vtc_gzip_chunk (fuel : nat) (fl : flush) (vz : zst) (vout inp : list Z) := chunk_loop fuel fl vz inp vout.

(** [while (fragment && inlen > 3)]: a third of the input at a time. *)
Fixpoint fragments (n fuel : nat) (fatal : Z) (vz : zst) (vout input : list Z) : outcome (zst * list Z * list Z) :=
  match n with
  | O => Ok (vz, vout, input)
  | S n =>
      if (3 <? length input)%nat then
        let res := (length input / 3)%nat in
        '(i, vz, vout) ← vtc_gzip_chunk fuel Z_BLOCK vz vout (take res input);
        _ ← (if negb (i =? Z_OK) && negb (i =? Z_BUF_ERROR) then vtc_log fatal else Ok tt);
        fragments n fuel fatal vz vout (drop res input)
      else Ok (vz, vout, input)
  end.

(** The body, whose length is its number of bytes; a NUL is stored behind. *)
Definition vtc_gzip (fuel : nat) (g : gz) (fatal : Z) (input : list Z) (fragment : bool) : outcome (list Z) :=
  match deflateInit2 (gz_level g) with
  | None => Fault FAssert
  | Some vz =>
      '(vz, vout, input) ← (if fragment then fragments (length input) fuel fatal vz [] input else Ok (vz, [], input));
      '(i, vz, vout) ← vtc_gzip_chunk fuel Z_FINISH vz vout input;
      _ ← (if negb (i =? Z_STREAM_END) then vtc_log fatal else Ok tt);
      _ ← (match stop_bit with
           | Some f =>
               let res := Z.land (f vz) 7 in
               if (0 <=? gz_residual g) && negb (gz_residual g =? res) then vtc_log fatal else Ok tt
           | None => Ok tt
           end);
      Ok vout
  end.

(** The value, the settings and the new body. *)
Definition vtc_gzip_cmd (fuel : nat) (g : gz) (fatal : Z) (av : list (list Z)) : outcome (Z * gz * option (list Z)) :=
  match av with
  | [] => Fault FBounds
  | a :: av =>
      let arg := match av with s :: _ => Ok s | [] => Fault FBounds end in
      if streq a "-gzipresidual" then s ← arg; Ok (1, mk_gz (gz_level g) (i32 (strtoul 0 s).1), None)
      else if streq a "-gziplevel" then s ← arg; Ok (1, mk_gz (i32 (strtoul 0 s).1) (gz_residual g), None)
      else if streq a "-gzipbody" then s ← arg; b ← vtc_gzip fuel g fatal s false; Ok (2, g, Some b)
      else if streq a "-gziplen" then s ← arg; t ← synth_body s (Some rnd); b ← vtc_gzip fuel g fatal t true; Ok (2, g, Some b)
      else Ok (0, g, None)
  end.
End zlib.
