(* ===== verification/GzipSpec.v ===== *)
(** * What the compression glue guarantees

    [Deflater] is what zlib documents of [deflate]: input is consumed in order,
    output is appended, a call that leaves work undone makes progress, and the
    last call of a stream says so.  Under it [vtc_gzip] gives all of its input to
    the stream, whatever the fragments, and returns all of the output.  The two
    other theorems are about bodies that break [vtc_gunzip]. *)

From Stdlib Require Import ZArith Lia ZifyBool String.
From stdpp Require Import base option numbers list.
From S2P Require Import Prelude CStr HpackData Vlu VtcSubr Gzip.
#[local] Open Scope Z_scope.

(** [fed] and [made] are the input and the output of a stream so far, [work]
    bounds the calls that are left. *)
Class Deflater {zst : Type} (deflate : flush -> zst -> list Z -> nat -> Z * list Z * list Z * zst) := {
  fed : zst -> list Z;
  made : zst -> list Z;
  work : zst -> list Z -> nat;
  deflate_moves fl vz inp n i rest out vz' : deflate fl vz inp n = (i, rest, out, vz') ->
    exists used, inp = used ++ rest /\ fed vz' = fed vz ++ used /\ made vz' = made vz ++ out;
  deflate_works fl vz inp n i rest out vz' : (0 < n)%nat -> deflate fl vz inp n = (i, rest, out, vz') ->
    i = Z_OK \/ rest <> [] -> (work vz' rest < work vz inp)%nat;
  deflate_ends fl vz inp n i rest out vz' : (0 < n)%nat -> deflate fl vz inp n = (i, rest, out, vz') ->
    i <> Z_OK -> rest = [] -> i = (match fl with Z_BLOCK => Z_BUF_ERROR | Z_FINISH => Z_STREAM_END end) }.

Section deflater.
Context {zst : Type} {deflate : flush -> zst -> list Z -> nat -> Z * list Z * list Z * zst} `{!Deflater deflate}.
Context (deflateInit2 : Z -> option zst) (stop_bit : option (zst -> Z)).

Lemma chunk_ok fl vz inp vout : exists fuel, forall fuel', (fuel <= fuel')%nat -> exists vz' out,
  vtc_gzip_chunk _ deflate fuel' fl vz vout inp = Ok (match fl with Z_BLOCK => Z_BUF_ERROR | Z_FINISH => Z_STREAM_END end, vz', vout ++ out) /\
  fed vz' = fed vz ++ inp /\ made vz' = made vz ++ out.
Proof.
  remember (work vz inp) as w eqn:Hw. revert vz inp vout Hw. induction (lt_wf w) as [w _ IH]. intros vz inp vout ->.
  destruct (deflate fl vz inp (Z.to_nat BUFSIZ)) as [[[i rest] out] vz'] eqn:E. assert (0 < Z.to_nat BUFSIZ)%nat as Hn by (unfold BUFSIZ; lia).
  destruct (deflate_moves _ _ _ _ _ _ _ _ E) as (used & -> & Hf & Hm). destruct ((i =? Z_OK) || (0 <? Z.of_nat (length rest))) eqn:Hc.
  - assert (i = Z_OK \/ rest <> []) as Hp by (apply orb_prop in Hc as [?%Z.eqb_eq|Hr]; [by left|right; by destruct rest]).
    destruct (IH _ (deflate_works _ _ _ _ _ _ _ _ Hn E Hp) vz' rest (vout ++ out) eq_refl) as (fuel & Hfuel). exists (S fuel). intros [|fuel'] Hl; [lia|].
    destruct (Hfuel fuel' ltac:(lia)) as (vz'' & out' & Hr & Hf' & Hm'). exists vz'', (out ++ out'). unfold vtc_gzip_chunk in *. cbn [chunk_loop]. rewrite E, Hc, Hr.
    rewrite Hf', Hf, Hm', Hm, <-!app_assoc. done.
  - apply orb_false_elim in Hc as [Hi Hr]. assert (rest = []) as -> by (by destruct rest). rewrite app_nil_r in *. exists 1%nat. intros [|fuel'] Hl; [lia|].
    exists vz', out. unfold vtc_gzip_chunk. cbn [chunk_loop]. rewrite E, Hi. cbn [orb length Z.of_nat Z.ltb Z.compare].
    rewrite (deflate_ends _ _ _ _ _ _ _ _ Hn E) by (done || by apply Z.eqb_neq). done.
Qed.

(** More fuel changes nothing. *)
Lemma chunk_mono f f' fl vz inp vo r : chunk_loop _ deflate f fl vz inp vo = Ok r -> (f <= f')%nat -> chunk_loop _ deflate f' fl vz inp vo = Ok r.
Proof.
  revert f' vz inp vo. induction f as [|f IH]; intros [|f'] vz inp vo Hr Hl; try done; [lia|]. cbn [chunk_loop] in *.
  destruct (deflate fl vz inp (Z.to_nat BUFSIZ)) as [[[i x] y] z]. case_match; [|done]. apply IH; [done|lia].
Qed.
Lemma fragments_mono f f' n fatal vz vo inp r : fragments _ deflate n f fatal vz vo inp = Ok r -> (f <= f')%nat -> fragments _ deflate n f' fatal vz vo inp = Ok r.
Proof.
  revert vz vo inp. induction n as [|n IH]; intros vz vo inp Hr Hl; [done|]. cbn [fragments] in *. case_match; [|done]. cbv zeta in *. unfold vtc_gzip_chunk in *.
  destruct (chunk_loop _ deflate f Z_BLOCK vz (take (length inp / 3) inp) vo) as [[[i v] o]|] eqn:E; [|done]. rewrite (chunk_mono _ f' _ _ _ _ _ E) by done. cbn [mbind outcome_bind] in *.
  destruct (if negb (i =? Z_OK) && negb (i =? Z_BUF_ERROR) then vtc_log fatal else Ok tt); [|done]. cbn [mbind outcome_bind] in *. by apply IH.
Qed.

Lemma fragments_ok n fatal vz vout input : (length input <= n)%nat -> exists fuel, forall fuel', (fuel <= fuel')%nat -> exists vz' out used rest,
  fragments _ deflate n fuel' fatal vz vout input = Ok (vz', vout ++ out, rest) /\ input = used ++ rest /\
  fed vz' = fed vz ++ used /\ made vz' = made vz ++ out.
Proof.
  enough (forall input vz vout, (length input <= n)%nat -> exists fuel, forall fuel', (fuel <= fuel')%nat -> exists vz' out used rest,
    fragments _ deflate n fuel' fatal vz vout input = Ok (vz', vout ++ out, rest) /\ input = used ++ rest /\
    fed vz' = fed vz ++ used /\ made vz' = made vz ++ out) as G by auto. clear.
  induction n as [|n IH]; intros input vz vout Hn.
  - exists 0%nat. intros fuel' _. exists vz, [], [], input. by rewrite !app_nil_r.
  - cbn [fragments]. destruct (3 <? length input)%nat eqn:H3; [|exists 0%nat; intros fuel' _; exists vz, [], [], input; by rewrite !app_nil_r].
    apply Nat.ltb_lt in H3. set (res := (length input / 3)%nat). assert (1 <= res)%nat as Hres by (apply Nat.div_le_lower_bound; lia).
    destruct (chunk_ok Z_BLOCK vz (take res input) vout) as (f1 & H1). destruct (H1 f1 (le_n _)) as (v1 & o1 & E1 & Hf1 & Hm1).
    destruct (IH (drop res input) v1 (vout ++ o1)) as (f2 & H2); [rewrite length_drop; lia|]. exists (f1 + f2)%nat. intros fuel' Hl.
    destruct (H1 fuel' ltac:(lia)) as (v1' & o1' & E1' & _ & _).
    assert (v1' = v1 /\ vout ++ o1' = vout ++ o1) as [-> Ho].
    { unfold vtc_gzip_chunk in *. rewrite (chunk_mono _ fuel' _ _ _ _ _ E1) in E1' by lia. by simplify_eq. }
    rewrite Ho in E1'. rewrite E1'. cbn [mbind outcome_bind]. change (negb (Z_BUF_ERROR =? Z_OK) && negb (Z_BUF_ERROR =? Z_BUF_ERROR)) with false. cbn [mbind outcome_bind].
    destruct (H2 fuel' ltac:(lia)) as (v2 & o2 & used & rest & -> & Hd & Hf2 & Hm2). exists v2, (o1 ++ o2), (take res input ++ used), rest. split_and!.
    + by rewrite app_assoc.
    + by rewrite <-app_assoc, <-Hd, take_drop.
    + by rewrite Hf2, Hf1, app_assoc.
    + by rewrite Hm2, Hm1, app_assoc.
Qed.

(** C37: The stream is given the whole input, in order and however it is cut, and
    the body is the whole output; enough fuel always brings it to the end. *)
Theorem vtc_gzip_ok g fatal input fragment vz : deflateInit2 (gz_level g) = Some vz -> fed vz = [] -> made vz = [] ->
  stop_bit = None \/ gz_residual g < 0 ->
  exists fuel, forall fuel', (fuel <= fuel')%nat -> exists vz', vtc_gzip _ deflateInit2 deflate stop_bit fuel' g fatal input fragment = Ok (made vz') /\ fed vz' = input.
Proof.
  intros Hi Hf Hm Hr. unfold vtc_gzip. rewrite Hi.
  assert (exists fuel, forall fuel', (fuel <= fuel')%nat -> exists vz' out used rest,
    (if fragment then fragments _ deflate (length input) fuel' fatal vz [] input else Ok (vz, [], input)) = Ok (vz', out, rest) /\
    input = used ++ rest /\ fed vz' = used /\ made vz' = out) as (f1 & H1).
  { destruct fragment; [|exists 0%nat; intros; by exists vz, [], [], input]. destruct (fragments_ok (length input) fatal vz [] input (le_n _)) as (f & H). exists f. intros f' Hl.
    destruct (H f' Hl) as (v & o & u & r & E & Hd & Hfd & Hmd). exists v, o, u, r. by rewrite Hfd, Hmd, Hf, Hm. }
  destruct (H1 f1 (le_n _)) as (v1 & o1 & u1 & r1 & E1 & -> & Hf1 & Hm1). destruct (chunk_ok Z_FINISH v1 r1 o1) as (f2 & H2). exists (f1 + f2)%nat. intros fuel' Hl.
  destruct (H1 fuel' ltac:(lia)) as (v1' & o1' & u1' & r1' & E1' & Hd & Hf1' & Hm1').
  assert (v1' = v1 /\ r1' = r1) as [-> ->].
  { destruct fragment; [|by simplify_eq]. rewrite (fragments_mono _ fuel' _ _ _ _ _ _ E1) in E1' by lia. by simplify_eq. }
  rewrite E1'. cbn [mbind outcome_bind]. destruct (H2 fuel' ltac:(lia)) as (v2 & o2 & E2 & Hf2 & Hm2).
  destruct (chunk_ok Z_FINISH v1 r1 o1') as (f3 & H3).
  assert (o1' = o1) as -> by congruence. rewrite E2. cbn [mbind outcome_bind]. change (negb (Z_STREAM_END =? Z_STREAM_END)) with false. cbn [mbind outcome_bind].
  exists v2. split; [|by rewrite Hf2, Hf1]. rewrite Hm2, Hm1.
  destruct stop_bit as [sb|]; [|done]. destruct Hr as [?|Hr]; [done|]. cbv zeta. rewrite (proj2 (Z.leb_gt 0 _) Hr). done.
Qed.
End deflater.

(** A stream that stores its input, to have an instance. *)
Module Stored.
Definition st : Type := list Z * list Z.
Definition deflate (fl : flush) (vz : st) (inp : list Z) (n : nat) : Z * list Z * list Z * st :=
  let out := take n inp in
  let rest := drop n inp in
  let vz := (vz.1 ++ out, vz.2 ++ out) in
  match rest, fl, inp with
  | [], Z_FINISH, _ => (Z_STREAM_END, [], out, vz)
  | [], Z_BLOCK, [] => (Z_BUF_ERROR, [], out, vz)
  | _, _, _ => (Z_OK, rest, out, vz)
  end.
#[export] Instance stored_deflater : Deflater deflate.
Proof.
  refine {| fed := fst; made := snd; work := fun _ inp => length inp |}.
  - intros fl vz inp n i rest out vz' H. exists (take n inp). unfold deflate in H. pose proof (take_drop n inp) as E.
    destruct (drop n inp) as [|c l]; [destruct fl; [destruct inp as [|c inp]|]|]; simplify_eq; cbn [fst snd]; by rewrite E.
  - intros fl vz inp n i rest out vz' Hn H Hp. unfold deflate in H. pose proof (length_drop inp n) as E.
    destruct (drop n inp) as [|c l]; [destruct fl; [destruct inp as [|c inp]|]|]; simplify_eq; simpl in *; try lia; by destruct Hp as [?|?].
  - intros fl vz inp n i rest out vz' Hn H Hi ->. unfold deflate in H. destruct (drop n inp) as [|c l]; [destruct fl; [destruct inp as [|c inp]|]|]; by simplify_eq.
Defined.
End Stored.

Lemma vtc_gzip_ok_witness : exists fuel, forall fuel', (fuel <= fuel')%nat -> exists vz',
  vtc_gzip Stored.st (fun _ => Some ([], [])) Stored.deflate None fuel' (mk_gz 6 (-1)) 0 (str "a body to be cut into fragments") true = Ok (@made _ Stored.deflate Stored.stored_deflater vz') /\
  @fed _ Stored.deflate Stored.stored_deflater vz' = str "a body to be cut into fragments".
Proof. apply (vtc_gzip_ok (deflate := Stored.deflate) (fun _ => Some ([], [])) None (mk_gz 6 (-1)) 0 _ true ([], [])); [reflexivity|reflexivity|reflexivity|by left]. Defined.

(** ** Bodies that break the decompression *)

(** Zlib answers with [Z_BUF_ERROR] when it is asked to finish and the input
    ends too soon, and does so at each further call: the loop never ends on a
    body that was cut short. *)
Theorem gunzip_hang {zst} (inflateInit2 : option zst) inflate vz vz' vin out fatal :
  inflateInit2 = Some vz -> inflate vz vin (Z.to_nat BUFSIZ) = (Z_BUF_ERROR, [], out, vz') ->
  inflate vz' [] (Z.to_nat BUFSIZ) = (Z_BUF_ERROR, [], [], vz') ->
  forall fuel, vtc_gunzip_vsb _ inflateInit2 inflate fuel fatal vin = Fault FFuel.
Proof.
  intros Hi H1 H2 fuel. unfold vtc_gunzip_vsb. rewrite Hi. destruct fuel as [|fuel]; [done|]. cbn [gunzip_loop]. rewrite H1. cbn [Z.eqb Z_BUF_ERROR Z_OK Z_STREAM_END orb app].
  assert (forall vout, gunzip_loop _ inflate fuel vz' [] vout = Fault FFuel) as ->; [|done].
  induction fuel as [|fuel IH]; intros vout; [done|]. cbn [gunzip_loop]. rewrite H2. cbn [Z.eqb Z_BUF_ERROR Z_OK orb]. apply IH.
Qed.

(** A text that grows does not fit: the result is copied over the compressed
    body, to a block of the compressed size. *)
Theorem gunzip_overflow {zst} (inflateInit2 : option zst) inflate fuel fatal body bodylen vout :
  vtc_gunzip_vsb _ inflateInit2 inflate fuel fatal (31 :: 139 :: body) = Ok vout ->
  bodylen = Z.of_nat (length body) + 2 -> (length body + 2 < length vout)%nat ->
  vtc_gunzip _ inflateInit2 inflate fuel fatal (Some (31 :: 139 :: body ++ [0])) bodylen = Fault FBounds.
Proof.
  intros Hv -> Hl. unfold vtc_gunzip. cbn [readC lookup list_lookup mbind outcome_bind Z.eqb Pos.eqb negb orb].
  assert (slice (31 :: 139 :: body ++ [0]) 0 (Z.of_nat (length body) + 2) = Ok (31 :: 139 :: body)) as ->.
  { unfold slice. cbn [length]. rewrite length_app, (proj2 (Z.leb_le _ _)) by (simpl; lia). rewrite drop_0.
    replace (Z.to_nat (Z.of_nat (length body) + 2)) with (length (31 :: 139 :: body)) by (simpl; lia). f_equal. change (31 :: 139 :: body ++ [0]) with ((31 :: 139 :: body) ++ [0]). apply take_app_length. }
  cbn [mbind outcome_bind]. rewrite Hv. cbn [mbind outcome_bind]. cbn [length]. rewrite !length_app. cbn [length]. by rewrite (proj2 (Nat.leb_gt _ _)) by lia.
Qed.

(** An inflater of a format with one byte of text, repeated: the witness of
    both. *)
Module Repeat.
Definition inflate (vz : unit) (inp : list Z) (n : nat) : Z * list Z * list Z * unit :=
  match inp with
  | _ :: _ :: c :: k :: _ => (Z_STREAM_END, [], replicate (Z.to_nat k) c, tt)
  | _ => (Z_BUF_ERROR, [], [], tt)
  end.
End Repeat.

Lemma gunzip_hang_witness : vtc_gunzip_vsb _ (Some tt) Repeat.inflate 1000 0 [31; 139] = Fault FFuel.
Proof. apply (gunzip_hang (Some tt) Repeat.inflate tt tt [31; 139] [] 0); reflexivity. Defined.

Lemma gunzip_overflow_witness : vtc_gunzip _ (Some tt) Repeat.inflate 1 0 (Some [31; 139; 65; 9; 0]) 4 = Fault FBounds.
Proof. apply (gunzip_overflow (Some tt) Repeat.inflate 1 0 [65; 9] 4 (replicate 9 65)); [reflexivity|reflexivity|simpl; lia]. Defined.
