(* ===== verification/Vend.v ===== *)
(** * Integers in memory (lib/vend.h)

    The decoders read from the front of an object, the encoders write at an
    offset of one.  Bytes are unsigned. *)

From Stdlib Require Import ZArith Lia ZifyBool.
From stdpp Require Import base option numbers list.
From S2P Require Import Prelude CStr.
#[local] Open Scope Z_scope.

Definition vbe16dec (p : list Z) : outcome Z :=
  p0 ← readC p 0; p1 ← readC p 1; Ok (u16 (Z.lor (Z.shiftl p0 8) p1)).

Definition vbe32dec (p : list Z) : outcome Z :=
  p0 ← readC p 0; p1 ← readC p 1; p2 ← readC p 2; p3 ← readC p 3;
  Ok (u32 (Z.lor (Z.lor (Z.lor (u32 (Z.shiftl p0 24)) (Z.shiftl p1 16)) (Z.shiftl p2 8)) p3)).

Definition vbe64dec (p : list Z) : outcome Z :=
  h ← vbe32dec p; l ← vbe32dec (drop 4 p); Ok (u64 (Z.lor (u64 (Z.shiftl h 32)) l)).

Definition vle32dec (p : list Z) : outcome Z :=
  p0 ← readC p 0; p1 ← readC p 1; p2 ← readC p 2; p3 ← readC p 3;
  Ok (u32 (Z.lor (Z.lor (Z.lor (u32 (Z.shiftl p3 24)) (Z.shiftl p2 16)) (Z.shiftl p1 8)) p0)).

Definition vbe16enc (p : list Z) (i : nat) (u : Z) : outcome (list Z) :=
  p ← writeC p i (Z.land (Z.shiftr u 8) 255);
  writeC p (i + 1) (Z.land u 255).

Definition vbe32enc (p : list Z) (i : nat) (u : Z) : outcome (list Z) :=
  p ← writeC p i (Z.land (Z.shiftr u 24) 255);
  p ← writeC p (i + 1) (Z.land (Z.shiftr u 16) 255);
  p ← writeC p (i + 2) (Z.land (Z.shiftr u 8) 255);
  writeC p (i + 3) (Z.land u 255).

Definition vbe64enc (p : list Z) (i : nat) (u : Z) : outcome (list Z) :=
  p ← vbe32enc p i (u32 (Z.shiftr u 32));
  vbe32enc p (i + 4) (u32 (Z.land u 4294967295)).

Definition vle16enc (p : list Z) (i : nat) (u : Z) : outcome (list Z) :=
  p ← writeC p i (Z.land u 255);
  writeC p (i + 1) (Z.land (Z.shiftr u 8) 255).

Definition vle32enc (p : list Z) (i : nat) (u : Z) : outcome (list Z) :=
  p ← writeC p i (Z.land u 255);
  p ← writeC p (i + 1) (Z.land (Z.shiftr u 8) 255);
  p ← writeC p (i + 2) (Z.land (Z.shiftr u 16) 255);
  writeC p (i + 3) (Z.land (Z.shiftr u 24) 255).

(** ** What is written *)

(** The bytes of [u], most significant first. *)
Definition be16 (u : Z) : list Z := [(u `div` 256) `mod` 256; u `mod` 256].
Definition be32 (u : Z) : list Z := [(u `div` 2 ^ 24) `mod` 256; (u `div` 2 ^ 16) `mod` 256; (u `div` 2 ^ 8) `mod` 256; u `mod` 256].

Lemma land_255 u : Z.land u 255 = u `mod` 256.
Proof. change 255 with (Z.ones 8). by rewrite Z.land_ones. Qed.

Lemma shr_div u n : 0 <= n -> Z.shiftr u n = u `div` 2 ^ n.
Proof. apply Z.shiftr_div_pow2. Qed.

(** A byte written behind [pre]. *)
Lemma write_next (pre post : list Z) x k i : i = length pre -> writeC (pre ++ x :: post) i k = Ok (pre ++ k :: post).
Proof. intros ->. rewrite writeC_lt by (rewrite length_app; simpl; lia). f_equal. rewrite <-(Nat.add_0_r (length pre)). by rewrite insert_app_r. Qed.

Lemma vbe16enc_ok pre x y post u i : i = length pre -> vbe16enc (pre ++ x :: y :: post) i u = Ok (pre ++ be16 u ++ post).
Proof.
  intros ->. unfold vbe16enc, be16. rewrite write_next by done. cbn [mbind outcome_bind].
  change (pre ++ ?a :: y :: post) with (pre ++ [a] ++ y :: post). rewrite app_assoc, write_next by (rewrite length_app; simpl; lia).
  rewrite <-app_assoc, !land_255, shr_div by lia. done.
Qed.

Lemma vbe32enc_ok pre a b c d post u i : i = length pre -> vbe32enc (pre ++ a :: b :: c :: d :: post) i u = Ok (pre ++ be32 u ++ post).
Proof.
  intros ->. unfold vbe32enc, be32. rewrite write_next by done. cbn [mbind outcome_bind].
  set (w := Z.land (Z.shiftr u 24) 255). change (pre ++ w :: b :: c :: d :: post) with (pre ++ [w] ++ b :: c :: d :: post).
  rewrite app_assoc, write_next by (rewrite length_app; simpl; lia). cbn [mbind outcome_bind].
  set (x := Z.land (Z.shiftr u 16) 255). change ((pre ++ [w]) ++ x :: c :: d :: post) with ((pre ++ [w]) ++ [x] ++ c :: d :: post).
  rewrite app_assoc, write_next by (rewrite !length_app; simpl; lia). cbn [mbind outcome_bind].
  set (y := Z.land (Z.shiftr u 8) 255). change (((pre ++ [w]) ++ [x]) ++ y :: d :: post) with (((pre ++ [w]) ++ [x]) ++ [y] ++ d :: post).
  rewrite app_assoc, write_next by (rewrite !length_app; simpl; lia).
  rewrite <-!app_assoc. subst w x y. rewrite !land_255, !shr_div by lia. done.
Qed.

Lemma lor_low a b n : 0 <= n -> 0 <= b < 2 ^ n -> a `mod` 2 ^ n = 0 -> Z.lor a b = a + b.
Proof.
  intros Hn Hb Ha. assert (Z.land a b = 0) as H; [|by rewrite Z.add_nocarry_lxor, Z.lxor_lor].
  apply Z.bits_inj'. intros k Hk. rewrite Z.land_spec, Z.bits_0. destruct (Z.lt_ge_cases k n) as [Hkn|Hkn].
  - rewrite <-(Z.mod_pow2_bits_low a n k) by lia. by rewrite Ha, Z.bits_0.
  - rewrite <-(Z.mod_small b (2 ^ n)) by done. rewrite Z.mod_pow2_bits_high by lia. by rewrite andb_false_r.
Qed.

Lemma vbe16dec_ok a b r : byte a -> byte b -> vbe16dec (a :: b :: r) = Ok (a * 256 + b).
Proof.
  unfold byte. intros Ha Hb. unfold vbe16dec. cbn. rewrite Z.shiftl_mul_pow2 by lia. change (2 ^ 8) with 256.
  rewrite (lor_low (a * 256) b 8) by (try lia; apply Z.mod_mul; lia). rewrite wrapu_small by lia. done.
Qed.

Lemma vbe32dec_ok a b c d r : byte a -> byte b -> byte c -> byte d -> vbe32dec (a :: b :: c :: d :: r) = Ok (a * 2 ^ 24 + b * 2 ^ 16 + c * 2 ^ 8 + d).
Proof.
  unfold byte. intros Ha Hb Hc Hd. unfold vbe32dec. cbn [readC lookup list_lookup mbind outcome_bind]. rewrite !Z.shiftl_mul_pow2 by lia.
  rewrite (wrapu_small 32 (a * _)) by lia.
  rewrite (lor_low (a * 2 ^ 24) _ 24), (lor_low _ (c * 2 ^ 8) 16), (lor_low _ d 8) by (try lia; Z.to_euclidean_division_equations; lia).
  by rewrite wrapu_small by lia.
Qed.

Lemma be32_bytes u : Bytes (be32 u).
Proof. unfold be32. repeat constructor; apply Z.mod_pos_bound; lia. Qed.
Lemma be16_bytes u : Bytes (be16 u).
Proof. unfold be16. repeat constructor; apply Z.mod_pos_bound; lia. Qed.

(** A value read back is the value written. *)
Lemma be32_dec u r : 0 <= u < 2 ^ 32 -> vbe32dec (be32 u ++ r) = Ok u.
Proof.
  intros Hu. pose proof (be32_bytes u) as H. unfold be32 in *. cbn [app]. repeat (apply Forall_cons in H as [? H]).
  rewrite vbe32dec_ok by done. f_equal. Z.to_euclidean_division_equations; lia.
Qed.
Lemma be16_dec u r : 0 <= u < 2 ^ 16 -> vbe16dec (be16 u ++ r) = Ok u.
Proof.
  intros Hu. pose proof (be16_bytes u) as H. unfold be16 in *. cbn [app]. repeat (apply Forall_cons in H as [? H]).
  rewrite vbe16dec_ok by done. f_equal. Z.to_euclidean_division_equations; lia.
Qed.
