(* ===== verification/H2Recv.v ===== *)
(** * Frames (src/vtc_http2.c)

    The types of frames, their header, and the bytes of a connection.  A
    connection is the list of what successive calls of [read] find: a piece for
    each, of which a call takes what it asked for. *)

From Stdlib Require Import ZArith Lia ZifyBool.
From stdpp Require Import base option numbers list.
From S2P Require Import Prelude HpackData HpackTbl HuffGen HpackHdr CStr VtcSubr Gzip Vend.
#[local] Open Scope Z_scope.

(** tbl/h2_frames.h. *)
Definition TYPE_DATA : Z := 0.
Definition TYPE_HEADERS : Z := 1.
Definition TYPE_PRIORITY : Z := 2.
Definition TYPE_RST_STREAM : Z := 3.
Definition TYPE_SETTINGS : Z := 4.
Definition TYPE_PUSH_PROMISE : Z := 5.
Definition TYPE_PING : Z := 6.
Definition TYPE_GOAWAY : Z := 7.
Definition TYPE_WINDOW_UPDATE : Z := 8.
Definition TYPE_CONTINUATION : Z := 9.
Definition TYPE_MAX : Z := 10.

Definition ACK : Z := 1.
Definition END_STREAM : Z := 1.
Definition PADDED : Z := 8.
Definition END_HEADERS : Z := 4.
Definition PRIORITY : Z := 32.

(** tbl/h2_settings.h; [SETTINGS_MAX] comes after the last. *)
Definition SETTINGS_HEADER_TABLE_SIZE : Z := 1.
Definition SETTINGS_ENABLE_PUSH : Z := 2.
Definition SETTINGS_MAX_CONCURRENT_STREAMS : Z := 3.
Definition SETTINGS_INITIAL_WINDOW_SIZE : Z := 4.
Definition SETTINGS_MAX_FRAME_SIZE : Z := 5.
Definition SETTINGS_MAX_HEADER_LIST_SIZE : Z := 6.
Definition SETTINGS_NO_RFC7540_PRIORITIES : Z := 9.
Definition SETTINGS_MAX : Z := 17.

(** The union [md]: the member that was written last.  A setting is a double
    that holds an [int], or NAN. *)
Inductive frame_md :=
  | MdZero
  | MdPrio (stream exclusive weight : Z)
  | MdRst (err : Z)
  | MdSettings (settings : list (option Z))
  | MdPing (data : list Z) (ack : Z)
  | MdGoaway (err stream : Z) (debug : option (list Z))
  | MdWinup (size : Z)
  | MdPromised (stid : Z)
  | MdPadded (n : Z).

(** [data] is NULL or has a NUL behind its bytes. *)
Record frame := mk_frame {
  f_size : Z;
  f_stid : Z;
  f_type : Z;
  f_flags : Z;
  f_data : option (list Z);
  f_md : frame_md }.

Definition set_md (f : frame) (md : frame_md) : frame := mk_frame (f_size f) (f_stid f) (f_type f) (f_flags f) (f_data f) md.
Definition set_data (f : frame) (d : list Z) : frame := mk_frame (f_size f) (f_stid f) (f_type f) (f_flags f) (Some d) (f_md f).
Definition flag (f : frame) (b : Z) : bool := truth (Z.land (f_flags f) b).

(** [ALLOC_OBJ] before it. *)
Definition readFrameHeader (buf : list Z) : outcome frame :=
  b0 ← readC buf 0; b1 ← readC buf 1; b2 ← readC buf 2; b3 ← readC buf 3; b4 ← readC buf 4;
  stid ← vbe32dec (drop 5 buf);
  Ok (mk_frame (u32 (u32 (Z.shiftl b0 16 + Z.shiftl b1 8) + b2)) stid b3 b4 None MdZero).

Definition writeFrameHeader (buf : list Z) (f : frame) : outcome (list Z) :=
  buf ← writeC buf 0 (Z.land (Z.shiftr (f_size f) 16) 255);
  buf ← writeC buf 1 (Z.land (Z.shiftr (f_size f) 8) 255);
  buf ← writeC buf 2 (Z.land (f_size f) 255);
  buf ← writeC buf 3 (f_type f);
  buf ← writeC buf 4 (f_flags f);
  vbe32enc buf 5 (f_stid f).

Definition INIT_FRAME (ty sz id fl : Z) : frame := mk_frame sz id ty fl None MdZero.

(** ** The connection *)

(** [memcpy] to the front of the buffer. *)
Definition put_front (buf b : list Z) : outcome (list Z) :=
  if (length b <=? length buf)%nat then Ok (b ++ drop (length b) buf) else Fault FBounds.

(** The loop of [get_bytes] reads to [buf] each time; it does not advance.  The
    value says whether all [n] bytes came. *)
Fixpoint get_loop (fuel : nat) (buf : list Z) (n : nat) (rs : list (list Z)) : outcome (list Z * bool * list (list Z)) :=
  match n, rs with
  | O, _ => Ok (buf, true, rs)
  | _, [] => Ok (buf, false, [])
  | _, r :: rs =>
      match take n r, fuel with
      | [], _ => Ok (buf, false, rs)
      | _, O => Fault FFuel
      | d, S fuel =>
          buf ← put_front buf d;
          get_loop fuel buf (n - length d) (match drop n r with [] => rs | l => l :: rs end)
      end
  end.

Definition get_bytes (buf : list Z) (n : nat) (rs : list (list Z)) := get_loop n buf n rs.

(** A frame of the connection: the header to nine bytes of the stack, the
    payload to an allocated block with a NUL behind it.  None when the
    connection ends. *)
Definition read_frame (hdr : list Z) (malloc : Z -> list Z) (rs : list (list Z)) : outcome (option frame * list (list Z)) :=
  '(hdr, ok, rs) ← get_bytes hdr 9 rs;
  if negb (ok : bool) then Ok (None, rs)
  else
    f ← readFrameHeader hdr;
    if truth (f_size f) then
      let n := Z.to_nat (f_size f) in
      d ← writeC (malloc (f_size f + 1)) n 0;
      '(d, ok, rs) ← get_bytes d n rs;
      Ok (if ok : bool then Some (set_data f d) else None, rs)
    else Ok (Some f, rs).

(** ** Headers survive the trip *)

Definition frame_bytes (f : frame) (payload : list Z) : list Z :=
  [(f_size f `div` 2 ^ 16) `mod` 256; (f_size f `div` 2 ^ 8) `mod` 256; f_size f `mod` 256; f_type f; f_flags f] ++ be32 (f_stid f) ++ payload.

Lemma writeFrameHeader_ok f hdr : length hdr = 9%nat -> writeFrameHeader hdr f = Ok (frame_bytes f []).
Proof.
  intros H. do 9 (destruct hdr as [|? hdr]; [done|]). destruct hdr; [|done]. unfold writeFrameHeader, writeC, vbe32enc, writeC. cbn -[Z.land Z.shiftr].
  unfold frame_bytes, be32. rewrite !land_255, !shr_div by lia. done.
Qed.

Record frame_ok (f : frame) : Prop := {
  fo_size : 0 <= f_size f < 2 ^ 24;
  fo_stid : 0 <= f_stid f < 2 ^ 32;
  fo_type : byte (f_type f);
  fo_flags : byte (f_flags f) }.

Lemma readFrameHeader_ok f p : frame_ok f -> readFrameHeader (frame_bytes f p) = Ok (mk_frame (f_size f) (f_stid f) (f_type f) (f_flags f) None MdZero).
Proof.
  intros [Hs Hi _ _]. unfold readFrameHeader, frame_bytes. cbn [app readC lookup list_lookup mbind outcome_bind drop]. rewrite drop_0, be32_dec by done. cbn [mbind outcome_bind].
  rewrite !Z.shiftl_mul_pow2 by lia. rewrite (wrapu_small 32 (_ * _ + _)) by (Z.to_euclidean_division_equations; lia).
  rewrite wrapu_small by (Z.to_euclidean_division_equations; lia). do 2 f_equal. Z.to_euclidean_division_equations; lia.
Qed.

Lemma get_bytes_whole buf n r rest rs : length r = n -> (n <= length buf)%nat -> n <> 0%nat ->
  get_bytes buf n ((r ++ rest) :: rs) = Ok (r ++ drop n buf, true, match rest with [] => rs | _ => rest :: rs end).
Proof.
  intros <- Hb Hn. unfold get_bytes. destruct r as [|c r]; [done|]. cbn [length get_loop]. rewrite take_app_length' by done. rewrite drop_app_length' by done. unfold put_front.
  change (S (length r)) with (length (c :: r)) in *. rewrite (proj2 (Nat.leb_le _ _) Hb). cbn [mbind outcome_bind]. rewrite Nat.sub_diag.
  destruct (length r); by destruct rest.
Qed.

(** ** Receiving frames (src/vtc_http2.c)

    Streams and connections, and what the receiving thread does with a frame.
    A stream is known by its place in the list.  [fatal] is the level of the
    messages that end the test, or -1.  The header block is collected in a
    growing string buffer, which holds the bytes appended to it. *)

Definition MAX_HDR : nat := 64.
Abbreviation i64 := (wraps 64).

(** [body] is NULL or has [bodylen] bytes and a NUL; the queue has its newest
    frame first. *)
Record stream := mk_stream {
  s_id : Z;
  s_win_self : Z;
  s_win_peer : Z;
  s_wf : Z;
  s_body : option (list Z);
  s_req : list hdr_slots;
  s_resp : list hdr_slots;
  s_dependency : Z;
  s_weight : Z;
  s_frame : option frame;
  s_fq : list frame }.

Record h2_window := mk_window { w_init : Z; w_size : Z }.

Record http := mk_http {
  h_streams : list stream;
  h_win_self : h2_window;
  h_win_peer : h2_window;
  h_encctx : hpk_ctx;
  h_decctx : hpk_ctx;
  h_server : bool;
  h_fatal : Z;
  h_wf : Z;
  h_last_stream : Z;
  h_no_prio : Z;
  h_wire : list Z;
  h_gz : gz }.

Definition set_streams (hp : http) (l : list stream) : http :=
  mk_http l (h_win_self hp) (h_win_peer hp) (h_encctx hp) (h_decctx hp) (h_server hp) (h_fatal hp) (h_wf hp) (h_last_stream hp) (h_no_prio hp) (h_wire hp) (h_gz hp).
Definition set_wins (hp : http) (self peer : h2_window) : http :=
  mk_http (h_streams hp) self peer (h_encctx hp) (h_decctx hp) (h_server hp) (h_fatal hp) (h_wf hp) (h_last_stream hp) (h_no_prio hp) (h_wire hp) (h_gz hp).
Definition set_ctxs (hp : http) (enc dec : hpk_ctx) : http :=
  mk_http (h_streams hp) (h_win_self hp) (h_win_peer hp) enc dec (h_server hp) (h_fatal hp) (h_wf hp) (h_last_stream hp) (h_no_prio hp) (h_wire hp) (h_gz hp).
Definition set_hwf (hp : http) (wf : Z) : http :=
  mk_http (h_streams hp) (h_win_self hp) (h_win_peer hp) (h_encctx hp) (h_decctx hp) (h_server hp) (h_fatal hp) wf (h_last_stream hp) (h_no_prio hp) (h_wire hp) (h_gz hp).
Definition set_wire (hp : http) (w : list Z) : http :=
  mk_http (h_streams hp) (h_win_self hp) (h_win_peer hp) (h_encctx hp) (h_decctx hp) (h_server hp) (h_fatal hp) (h_wf hp) (h_last_stream hp) (h_no_prio hp) w (h_gz hp).

Definition set_hgz (hp : http) (g : gz) : http :=
  mk_http (h_streams hp) (h_win_self hp) (h_win_peer hp) (h_encctx hp) (h_decctx hp) (h_server hp) (h_fatal hp) (h_wf hp) (h_last_stream hp) (h_no_prio hp) (h_wire hp) g.

Definition set_win (s : stream) (self peer : Z) : stream :=
  mk_stream (s_id s) self peer (s_wf s) (s_body s) (s_req s) (s_resp s) (s_dependency s) (s_weight s) (s_frame s) (s_fq s).
Definition set_body (s : stream) (b : option (list Z)) : stream :=
  mk_stream (s_id s) (s_win_self s) (s_win_peer s) (s_wf s) b (s_req s) (s_resp s) (s_dependency s) (s_weight s) (s_frame s) (s_fq s).
Definition set_hdrs (s : stream) (req : bool) (h : list hdr_slots) : stream :=
  mk_stream (s_id s) (s_win_self s) (s_win_peer s) (s_wf s) (s_body s) (if req then h else s_req s) (if req then s_resp s else h) (s_dependency s) (s_weight s) (s_frame s) (s_fq s).
Definition set_prio (s : stream) (dep weight : Z) : stream :=
  mk_stream (s_id s) (s_win_self s) (s_win_peer s) (s_wf s) (s_body s) (s_req s) (s_resp s) dep weight (s_frame s) (s_fq s).
Definition set_frame (s : stream) (f : option frame) : stream :=
  mk_stream (s_id s) (s_win_self s) (s_win_peer s) (s_wf s) (s_body s) (s_req s) (s_resp s) (s_dependency s) (s_weight s) f (s_fq s).
Definition set_fq (s : stream) (wf : Z) (q : list frame) : stream :=
  mk_stream (s_id s) (s_win_self s) (s_win_peer s) wf (s_body s) (s_req s) (s_resp s) (s_dependency s) (s_weight s) (s_frame s) q.

Definition get_stream (hp : http) (i : nat) : outcome stream := readC (h_streams hp) i.
Definition put_stream (hp : http) (i : nat) (s : stream) : http := set_streams hp (<[i := s]> (h_streams hp)).

(** [vtc_log(vl, hp->fatal, ...)]. *)
Definition log_fatal (hp : http) : outcome unit := vtc_log (h_fatal hp).

Definition data_of (f : frame) : outcome (list Z) := match f_data f with Some d => Ok d | None => Fault FBounds end.

Definition clear_top (n : Z) : Z := Z.land n 2147483647.
Definition top_bit (n : Z) : bool := truth (Z.shiftr n 31).

Definition exclusive_stream_dependency (hp : http) (s : stream) : http :=
  if s_id s =? 0 then hp
  else set_streams hp (map (fun t => if negb (s_id t =? s_id s) && (s_dependency t =? s_dependency s)
                                     then set_prio t (s_id s) (s_weight t) else t) (h_streams hp)).

(** What [PADDED] does to the size: the padding is at least the payload in a
    bad frame. *)
Definition padding (hp : http) (f : frame) : outcome (Z * Z) :=
  d ← data_of f;
  p ← readC d 0;
  if f_size f <=? p then _ ← log_fatal hp; Ok (0, 0) else Ok (p, f_size f).

Definition parse_data (hp : http) (i : nat) (f : frame) : outcome (http * frame) :=
  s ← get_stream hp i;
  '(f, off, size) ← (if flag f PADDED then '(p, size) ← padding hp f; Ok (set_md f (MdPadded p), 1, u32 (size - (p + 1)))
                     else Ok (f, 0, f_size f));
  let s := if truth (s_id s) then set_win s (i64 (s_win_self s - size)) (s_win_peer s) else s in
  let hp := set_wins (put_stream hp i s) (mk_window (w_init (h_win_self hp)) (i64 (w_size (h_win_self hp) - size))) (h_win_peer hp) in
  if size =? 0 then
    _ ← assertC (match f_data f with None => true | Some _ => false end); Ok (hp, f)
  else
    d ← data_of f;
    b ← slice d off size;
    Ok (put_stream hp i (set_body s (Some (default [] (s_body s) ++ b))), f).

(** ** Header blocks *)

(** The first unused header. *)
Fixpoint first_unset (h : list hdr_slots) : nat :=
  match h with
  | [] => 0
  | x :: h => if bool_decide (hs_t x = hpk_unset) then 0 else S (first_unset h)
  end.

(** The loop frees the headers up to the first that is unset. *)
Fixpoint clean_headers (h : list hdr_slots) : outcome (list hdr_slots) :=
  match h with
  | [] => Ok []
  | x :: r =>
      if bool_decide (hs_t x = hpk_unset) then Ok h
      else
        _ ← (if truth (txt_len (sl_txt (hs_key x))) then free_slot (hs_key x) else Ok (hs_key x));
        _ ← free_slot (hs_value x);
        r ← clean_headers r;
        Ok (hdr_zero :: r)
  end.

Definition parse_hdr (hp : http) (i : nat) (f : frame) (vsb : list Z) : outcome (http * frame * list Z) :=
  s ← get_stream hp i;
  '(f, shift, size) ← (if flag f PADDED && negb (f_type f =? TYPE_CONTINUATION)
                       then '(p, size) ← padding hp f; Ok (set_md f (MdPadded p), 1, u32 (size - p))
                       else Ok (f, 0, f_size f));
  '(hp, f, shift) ← (if (f_type f =? TYPE_HEADERS) && flag f PRIORITY then
                       d ← data_of f;
                       n ← vbe32dec d;
                       w ← readC d 4;
                       let s := set_prio s (clear_top n) (wraps 8 w) in
                       let hp := put_stream hp i s in
                       Ok (if top_bit n then exclusive_stream_dependency hp s else hp, f, shift + 5)
                     else if f_type f =? TYPE_PUSH_PROMISE then
                       d ← data_of f; n ← vbe32dec d; Ok (hp, set_md f (MdPromised (clear_top n)), shift + 4)
                     else Ok (hp, f, shift));
  let n := u32 (size - shift) in
  b ← (if n =? 0 then Ok [] else d ← data_of f; slice d shift n);
  Ok (hp, f, vsb ++ b).

Section decoder.
Context (T : Z -> option stbl).

(** [while (n < MAX_HDR)]; None when the headers run out. *)
Fixpoint decode_loop (fuel : nat) (it : hpk_iter) (ctx : hpk_ctx) (h : list hdr_slots) (n : nat) :
    outcome (option hpk_result * hpk_ctx * list hdr_slots * nat) :=
  match fuel with
  | O => Ok (None, ctx, h, n)
  | S fuel =>
      x ← readC h n;
      '(r, it, ctx, x) ← HPK_DecHdr T it ctx x;
      let h := <[n := x]> h in
      match r with
      | hpk_err => Ok (Some hpk_err, ctx, h, n)
      | hpk_done => Ok (Some hpk_done, ctx, h, S n)
      | hpk_more => decode_loop fuel it ctx h (S n)
      end
  end.

Definition decode_hdr (hp : http) (h : list hdr_slots) (vsb : list Z) : outcome (http * list hdr_slots) :=
  match vsb with
  | [] => Ok (hp, h)
  | _ =>
      it ← HPK_NewIter vsb (Z.of_nat (length vsb));
      let n := first_unset h in
      '(r, ctx, h, n) ← decode_loop (MAX_HDR - n) it (h_decctx hp) h n;
      let hp := set_ctxs hp (h_encctx hp) ctx in
      _ ← (if bool_decide (r = Some hpk_done) then if (n =? MAX_HDR)%nat then log_fatal hp else Ok tt else log_fatal hp);
      Ok (hp, h)
  end.

(** ** The other frames *)

Definition parse_prio (hp : http) (i : nat) (f : frame) : outcome (http * frame) :=
  s ← get_stream hp i;
  if negb (f_size f =? 5) then Fault FFatal
  else
    d ← data_of f;
    n ← vbe32dec d;
    let s := set_prio s (clear_top n) (s_weight s) in
    let hp := put_stream hp i s in
    let hp := if top_bit n then exclusive_stream_dependency hp s else hp in
    w ← readC d 4;
    s ← get_stream hp i;
    Ok (put_stream hp i (set_prio s (s_dependency s) w), set_md f (MdPrio (clear_top n) (if top_bit n then 1 else 0) w)).

Definition parse_rst (f : frame) : outcome frame :=
  if negb (f_size f =? 4) then Fault FFatal
  else d ← data_of f; err ← vbe32dec d; Ok (set_md f (MdRst err)).

(** The loop over the payload, six bytes at a time. *)
Fixpoint settings_loop (fuel : nat) (d : list Z) (ctx : hpk_ctx) (l : list (option Z)) : outcome (hpk_ctx * list (option Z)) :=
  match fuel with
  | O => Ok (ctx, l)
  | S fuel =>
      t ← vbe16dec d;
      v ← vbe32dec (drop 2 d);
      let v := i32 v in
      l ← (if t <=? SETTINGS_MAX then writeC l (Z.to_nat t) (Some v) else Ok l);
      ctx ← (if t =? SETTINGS_HEADER_TABLE_SIZE then
               '(r, ctx) ← HPK_ResizeTbl ctx (u32 v); _ ← assertC (bool_decide (r = hpk_done)); Ok ctx
             else Ok ctx);
      settings_loop fuel (drop 6 d) ctx l
  end.

Definition parse_settings (hp : http) (i : nat) (f : frame) : outcome (http * frame) :=
  s ← get_stream hp i;
  if truth (f_size f `mod` 6) then Fault FFatal
  else if truth (s_id s) then Fault FFatal
  else
    '(ctx, l) ← settings_loop (Z.to_nat (f_size f / 6)) (default [] (f_data f)) (h_encctx hp) (replicate (S (Z.to_nat SETTINGS_MAX)) None);
    Ok (set_ctxs hp ctx (h_decctx hp), set_md f (MdSettings l)).

Definition parse_ping (f : frame) : outcome frame :=
  if negb (f_size f =? 8) then Fault FFatal
  else d ← data_of f; b ← slice d 0 8; Ok (set_md f (MdPing (b ++ [0]) (Z.land (f_flags f) ACK))).

Definition parse_goaway (f : frame) : outcome frame :=
  if f_size f <? 8 then Fault FFatal
  else
    d ← data_of f;
    c ← readC d 0;
    if truth (Z.land c 128) then Fault FFatal
    else
      stid ← vbe32dec d;
      err ← vbe32dec (drop 4 d);
      dbg ← (if 8 <? f_size f then b ← slice d 8 (f_size f - 8); Ok (Some (b ++ [0])) else Ok None);
      Ok (set_md f (MdGoaway err stid dbg)).

Definition parse_winup (hp : http) (f : frame) : outcome frame :=
  if negb (f_size f =? 4) then Fault FFatal
  else
    d ← data_of f;
    c ← readC d 0;
    _ ← (if truth (Z.land c 128) then log_fatal hp else Ok tt);
    size ← vbe32dec d;
    Ok (set_md f (MdWinup size)).

(** ** The receiving thread *)

(** [expect_cont], [vsb] and [hdrs]: the stream and which of its messages. *)
Record rx := mk_rx { rx_cont : Z; rx_vsb : option (list Z); rx_hdrs : option (nat * bool) }.

Fixpoint find_stream (l : list stream) (id : Z) : option nat :=
  match l with
  | [] => None
  | s :: l => if s_id s =? id then Some 0%nat else option_map S (find_stream l id)
  end.

Definition msg (s : stream) (req : bool) : list hdr_slots := if req then s_req s else s_resp s.

(** The frames of a header block. *)
Definition receive_hdr (hp : http) (st : rx) (i : nat) (f : frame) : outcome (http * rx * frame) :=
  s ← get_stream hp i;
  '(hp, st) ← (if (f_type f =? TYPE_PUSH_PROMISE) || (f_type f =? TYPE_HEADERS) then
                 let hd := if f_type f =? TYPE_PUSH_PROMISE then (i, true) else default (i, h_server hp) (rx_hdrs st) in
                 t ← get_stream hp hd.1;
                 h ← clean_headers (msg t hd.2);
                 x ← readC h 0;
                 let h := <[0%nat := mk_hdr_slots (hs_key x) (hs_value x) hpk_unset (hs_i x)]> h in
                 _ ← assertC (match rx_vsb st with None => true | Some _ => false end);
                 Ok (put_stream hp hd.1 (set_hdrs t hd.2 h), mk_rx (rx_cont st) (Some []) (Some hd))
               else Ok (hp, st));
  match rx_hdrs st, rx_vsb st with
  | Some hd, Some vsb =>
      '(hp, f, vsb) ← parse_hdr hp i f vsb;
      if flag f END_HEADERS then
        t ← get_stream hp hd.1;
        '(hp, h) ← decode_hdr hp (msg t hd.2) vsb;
        Ok (put_stream hp hd.1 (set_hdrs t hd.2 h), mk_rx 0 None None, f)
      else Ok (hp, mk_rx (i32 (s_id s)) (Some vsb) (Some hd), f)
  | _, _ => Fault FAssert
  end.

Definition parse_frame (hp : http) (st : rx) (i : nat) (f : frame) : outcome (http * rx * frame) :=
  let ty := f_type f in
  let keep m := '(hp, f) ← m : outcome (http * frame); Ok (hp, st, f) in
  let same m := f ← m : outcome frame; Ok (hp, st, f) in
  if ty =? TYPE_DATA then keep (parse_data hp i f)
  else if (ty =? TYPE_PUSH_PROMISE) || (ty =? TYPE_HEADERS) || (ty =? TYPE_CONTINUATION) then receive_hdr hp st i f
  else if ty =? TYPE_PRIORITY then keep (parse_prio hp i f)
  else if ty =? TYPE_RST_STREAM then same (parse_rst f)
  else if ty =? TYPE_SETTINGS then keep (parse_settings hp i f)
  else if ty =? TYPE_PING then same (parse_ping f)
  else if ty =? TYPE_GOAWAY then same (parse_goaway f)
  else if ty =? TYPE_WINDOW_UPDATE then same (parse_winup hp f)
  else Fault FAssert.

(** One turn of the loop of [receive_frame] with a frame that has been read.
    None when no stream has its number: the thread waits for one. *)
Definition receive_frame (hp : http) (st : rx) (f : frame) : outcome (option (http * rx)) :=
  match find_stream (h_streams hp) (f_stid f) with
  | None => Ok None
  | Some i =>
      s ← get_stream hp i;
      if truth (rx_cont st) && (negb (f_type f =? TYPE_CONTINUATION) || negb (rx_cont st =? i32 (s_id s))) then Fault FFatal
      else
        '(hp, st, f) ← parse_frame hp st i f;
        s ← get_stream hp i;
        let wf := s_wf s in
        let hp := put_stream hp i (set_fq s 0 (f :: s_fq s)) in
        if truth wf then _ ← assertC (0 <? h_wf hp); Ok (Some (set_hwf hp (h_wf hp - 1), st)) else Ok (Some (hp, st))
  end.
End decoder.
