(* ===== verification/H2Send.v ===== *)
(** * Sending frames (src/vtc_http2.c)

    The commands that write frames, from their arguments to the bytes on the
    connection, which takes all that is written.  [av] is what follows the name
    of the command; what comes behind its last string is NULL. *)

From Stdlib Require Import ZArith Lia ZifyBool String.
From stdpp Require Import base option numbers list.
From S2P Require Import Prelude CStr VtcSubr HpackData HpackTbl HpackHdr Vend H2Recv.
#[local] Open Scope Z_scope.

(** [STRTOU32] to an object of [w] bits. *)
Definition STRTOU32 (w : Z) (s : list Z) : outcome Z :=
  let '(v, e) := strtoul 0 s in if bool_decide (e = []) then Ok (wrapu w v) else Fault FFatal.

(** [STRTOU32_CHECK] with [sp] before the argument; [l] bits, or any. *)
Definition STRTOU32_CHECK (w : Z) (av : list (list Z)) (l : Z) : outcome (Z * list (list Z)) :=
  match av with
  | [] => Fault FAssert
  | s :: av => n ← STRTOU32 w s; if truth l && (2 ^ l <=? n) then Fault FFatal else Ok (n, av)
  end.

(** [*++av], which must not be NULL where it is used. *)
Definition next_arg (av : list (list Z)) : outcome (list Z * list (list Z)) :=
  match av with [] => Fault FBounds | s :: av => Ok (s, av) end.

Definition memcpy (buf : list Z) (i : nat) (b : list Z) : outcome (list Z) :=
  if (i + length b <=? length buf)%nat then Ok (take i buf ++ b ++ drop (i + length b) buf) else Fault FBounds.
(** [memmove(buf + i, buf, n)]. *)
Definition memmove (buf : list Z) (i n : nat) : outcome (list Z) := b ← slice buf 0 (Z.of_nat n); memcpy buf i b.

Definition write_frame (hp : http) (i : nat) (f : frame) : outcome http :=
  s ← get_stream hp i;
  hdr ← writeFrameHeader (replicate 9 0) f;
  let hp := if f_type f =? TYPE_DATA
            then set_wins (put_stream hp i (set_win s (s_win_self s) (i64 (s_win_peer s - f_size f))))
                   (h_win_self hp) (mk_window (w_init (h_win_peer hp)) (i64 (w_size (h_win_peer hp) - f_size f)))
            else hp in
  b ← (if truth (f_size f) then
         match f_data f with None => Fault FAssert | Some d => slice d 0 (f_size f) end
       else Ok []);
  Ok (set_wire hp (h_wire hp ++ hdr ++ b)).

(** ** txdata *)

Fixpoint txdata_args (fuel : nat) (av : list (list Z)) (body pad : option (list Z)) (flags : Z) : outcome (option (list Z) * option (list Z) * Z) :=
  match av, fuel with
  | [], _ => Ok (body, pad, flags)
  | _, O => Fault FFuel
  | a :: av, S fuel =>
      if streq a "-data" then _ ← assertC (bool_decide (body = None)); '(b, av) ← next_arg av; txdata_args fuel av (Some b) pad flags
      else if streq a "-datalen" then
        _ ← assertC (bool_decide (body = None));
        match av with [] => Fault FAssert | n :: av => b ← synth_body n None; txdata_args fuel av (Some b) pad flags end
      else if streq a "-pad" then
        _ ← assertC (bool_decide (pad = None));
        match av with [] => Fault FAssert | p :: av => txdata_args fuel av body (Some p) flags end
      else if streq a "-padlen" then
        _ ← assertC (bool_decide (pad = None));
        match av with [] => Fault FAssert | n :: av => p ← synth_body n None; txdata_args fuel av body (Some p) flags end
      else if streq a "-nostrend" then txdata_args fuel av body pad (Z.land flags (Z.lnot END_STREAM))
      else Fault FFatal
  end.

Definition cmd_txdata (hp : http) (i : nat) (av : list (list Z)) : outcome http :=
  s ← get_stream hp i;
  let f := INIT_FRAME TYPE_DATA 0 (s_id s) END_STREAM in
  '(body, pad, flags) ← txdata_args (length av) av None None (f_flags f);
  let body := default [] body in
  f ← (match pad with
       | Some pad =>
           let n := Z.of_nat (length pad) in
           if 255 <? n then Fault FFatal
           else
             let data := n :: body ++ pad in
             Ok (mk_frame (u32 (1 + Z.of_nat (length body) + n)) (s_id s) TYPE_DATA (Z.lor flags PADDED) (Some data) MdZero)
       | None => Ok (mk_frame (u32 (Z.of_nat (length body))) (s_id s) TYPE_DATA flags (Some body) MdZero)
       end);
  write_frame hp i f.

(** ** txrst, txprio *)

(** tbl/h2_error.h. *)
Definition h2_errs : list string :=
  ["NO_ERROR"; "PROTOCOL_ERROR"; "INTERNAL_ERROR"; "FLOW_CONTROL_ERROR"; "SETTINGS_TIMEOUT"; "STREAM_CLOSED"; "FRAME_SIZE_ERROR";
   "REFUSED_STREAM"; "CANCEL"; "COMPRESSION_ERROR"; "CONNECT_ERROR"; "ENHANCE_YOUR_CALM"; "INADEQUATE_SECURITY"; "HTTP_1_1_REQUIRED"]%string.
Fixpoint find_err (l : list string) (n : Z) (s : list Z) : option Z :=
  match l with [] => None | w :: l => if streq s w then Some n else find_err l (n + 1) s end.

(** The argument of [-err]. *)
Definition err_arg (av : list (list Z)) : outcome (Z * list (list Z)) :=
  '(s, av) ← next_arg av;
  match find_err h2_errs 0 s with
  | Some n => Ok (n, av)
  | None => n ← STRTOU32 32 s; Ok (n, av)
  end.

Fixpoint txrst_args (fuel : nat) (av : list (list Z)) (err : Z) : outcome Z :=
  match av, fuel with
  | [], _ => Ok err
  | _, O => Fault FFuel
  | a :: av, S fuel => if streq a "-err" then '(err, av) ← err_arg av; txrst_args fuel av err else Fault FFatal
  end.

(** [htonl] of the value, and its bytes. *)
Definition htonl (v : Z) : outcome (list Z) := vbe32enc (replicate 4 0) 0 v.

Definition cmd_txrst (hp : http) (i : nat) (av : list (list Z)) : outcome http :=
  s ← get_stream hp i;
  err ← txrst_args (length av) av 0;
  d ← htonl err;
  write_frame hp i (mk_frame 4 (s_id s) TYPE_RST_STREAM 0 (Some d) MdZero).

Fixpoint txprio_args (fuel : nat) (av : list (list Z)) (stid exclusive weight : Z) : outcome (Z * Z * Z) :=
  match av, fuel with
  | [], _ => Ok (stid, exclusive, weight)
  | _, O => Fault FFuel
  | a :: av, S fuel =>
      if streq a "-stream" then '(stid, av) ← STRTOU32_CHECK 32 av 0; txprio_args fuel av stid exclusive weight
      else if streq a "-ex" then txprio_args fuel av stid (2 ^ 31) weight
      else if streq a "-weight" then '(weight, av) ← STRTOU32_CHECK 32 av 8; txprio_args fuel av stid exclusive weight
      else Fault FFatal
  end.

Definition cmd_txprio (hp : http) (i : nat) (av : list (list Z)) : outcome http :=
  s ← get_stream hp i;
  '(stid, exclusive, weight) ← txprio_args (length av) av 0 0 0;
  let s := set_prio s (i32 stid) (Z.land weight 255) in
  let hp := put_stream hp i s in
  let hp := if truth exclusive then exclusive_stream_dependency hp s else hp in
  buf ← vbe32enc (replicate 5 0) 0 (Z.lor stid exclusive);
  buf ← writeC buf 4 (Z.land weight 255);
  write_frame hp i (mk_frame 5 (s_id s) TYPE_PRIORITY 0 (Some buf) MdZero).

(** ** txsettings *)

(** The state of the loop: [buf], [cursor], [f.size] and [f.flags]. *)
Record txset := mk_txset { ts_hp : http; ts_buf : list Z; ts_cursor : nat; ts_size : Z; ts_flags : Z }.

Definition put_setting (t : txset) (code val : Z) : outcome txset :=
  buf ← vbe16enc (ts_buf t) (ts_cursor t) code;
  buf ← vbe32enc buf (ts_cursor t + 2) val;
  Ok (mk_txset (ts_hp t) buf (ts_cursor t + 6) (u32 (ts_size t + 6)) (ts_flags t)).
Definition ts_set_hp (t : txset) (hp : http) : txset := mk_txset hp (ts_buf t) (ts_cursor t) (ts_size t) (ts_flags t).

(** [PUT_KV]. *)
Definition PUT_KV (t : txset) (av : list (list Z)) (code : Z) : outcome (txset * Z * list (list Z)) :=
  '(val, av) ← STRTOU32_CHECK 32 av 0; t ← put_setting t code val; Ok (t, val, av).

(** A new initial window: the windows of the streams change by the difference. *)
Definition init_win_self (hp : http) (val : Z) : http :=
  set_wins (set_streams hp (map (fun s => set_win s (i64 (s_win_self s + (val - w_init (h_win_self hp)))) (s_win_peer s)) (h_streams hp)))
    (mk_window val (w_size (h_win_self hp))) (h_win_peer hp).

Fixpoint txsettings_args (fuel : nat) (av : list (list Z)) (t : txset) : outcome txset :=
  match av, fuel with
  | [], _ => Ok t
  | _, O => Fault FFuel
  | a :: av, S fuel =>
      let kv code := '(t, _, av) ← PUT_KV t av code; txsettings_args fuel av t in
      if streq a "-push" then
        '(v, av) ← next_arg av;
        val ← (if streq v "false" then Ok 0 else if streq v "true" then Ok 1 else Fault FFatal);
        t ← put_setting t 2 val; txsettings_args fuel av t
      else if streq a "-hdrtbl" then
        '(t, val, av) ← PUT_KV t av 1;
        '(r, ctx) ← HPK_ResizeTbl (h_decctx (ts_hp t)) val;
        _ ← assertC (negb (bool_decide (r = hpk_err)));
        txsettings_args fuel av (ts_set_hp t (set_ctxs (ts_hp t) (h_encctx (ts_hp t)) ctx))
      else if streq a "-maxstreams" then kv 3
      else if streq a "-winsize" then
        '(t, val, av) ← PUT_KV t av 4; txsettings_args fuel av (ts_set_hp t (init_win_self (ts_hp t) val))
      else if streq a "-framesize" then kv 5
      else if streq a "-hdrsize" then kv 6
      else if starts_with a "-0x" then
        let p := drop 3 a in
        let '(u, e) := strtoul 16 p in
        if bool_decide (p = []) || negb (bool_decide (e = [])) || (65535 <? u) then Fault FFatal else kv u
      else if streq a "-ack" then txsettings_args fuel av (mk_txset (ts_hp t) (ts_buf t) (ts_cursor t) (ts_size t) (Z.lor (ts_flags t) 1))
      else Fault FFatal
  end.

Definition cmd_txsettings (hp : http) (i : nat) (av : list (list Z)) : outcome http :=
  s ← get_stream hp i;
  t ← txsettings_args (length av) av (mk_txset hp (replicate 512 0) 0 0 0);
  write_frame (ts_hp t) i (mk_frame (ts_size t) (s_id s) TYPE_SETTINGS (ts_flags t) (Some (ts_buf t)) MdZero).

(** ** txping, txgoaway, txwinup *)

Fixpoint txping_args (fuel : nat) (av : list (list Z)) (data : option (list Z)) (flags : Z) : outcome (option (list Z) * Z) :=
  match av, fuel with
  | [], _ => Ok (data, flags)
  | _, O => Fault FFuel
  | a :: av, S fuel =>
      if streq a "-data" then
        match data with
        | Some _ => Fault FFatal
        | None => '(d, av) ← next_arg av; if negb (length d =? 8)%nat then Fault FFatal else txping_args fuel av (Some d) flags
        end
      else if streq a "-ack" then txping_args fuel av data (Z.lor flags 1)
      else Fault FFatal
  end.

Definition cmd_txping (hp : http) (i : nat) (av : list (list Z)) : outcome http :=
  s ← get_stream hp i;
  '(data, flags) ← txping_args (length av) av None 0;
  write_frame hp i (mk_frame 8 (s_id s) TYPE_PING flags (Some (default (replicate 8 0) data)) MdZero).

Fixpoint txgoaway_args (fuel : nat) (av : list (list Z)) (err ls : Z) (debug : option (list Z)) : outcome (Z * Z * option (list Z)) :=
  match av, fuel with
  | [], _ => Ok (err, ls, debug)
  | _, O => Fault FFuel
  | a :: av, S fuel =>
      if streq a "-err" then '(err, av) ← err_arg av; txgoaway_args fuel av err ls debug
      else if streq a "-laststream" then '(ls, av) ← STRTOU32_CHECK 32 av 31; txgoaway_args fuel av err ls debug
      else if streq a "-debug" then
        match debug with
        | Some _ => Fault FFatal
        | None => '(d, av) ← next_arg av; txgoaway_args fuel av err ls (Some d)
        end
      else Fault FFatal
  end.

(** [malloc] of the payload; its first eight bytes are written last. *)
Definition cmd_txgoaway (hp : http) (i : nat) (av : list (list Z)) : outcome http :=
  s ← get_stream hp i;
  '(err, ls, debug) ← txgoaway_args (length av) av 0 0 None;
  let d := replicate 8 0 ++ default [] debug in
  d ← vbe32enc d 0 ls;
  d ← vbe32enc d 4 err;
  write_frame hp i (mk_frame (u32 (Z.of_nat (length d))) (s_id s) TYPE_GOAWAY 0 (Some d) MdZero).

Fixpoint txwinup_args (fuel : nat) (av : list (list Z)) (size : Z) : outcome Z :=
  match av, fuel with
  | [], _ => Ok size
  | _, O => Fault FFuel
  | a :: av, S fuel => if streq a "-size" then '(size, av) ← STRTOU32_CHECK 32 av 0; txwinup_args fuel av size else Fault FFatal
  end.

Definition cmd_txwinup (hp : http) (i : nat) (av : list (list Z)) : outcome http :=
  s ← get_stream hp i;
  _ ← assertC (2 <=? length av)%nat;
  size ← txwinup_args (length av) av 0;
  let hp := if s_id s =? 0 then set_wins hp (mk_window (w_init (h_win_self hp)) (i64 (w_size (h_win_self hp) + size))) (h_win_peer hp) else hp in
  let hp := put_stream hp i (set_win s (i64 (s_win_self s + size)) (s_win_peer s)) in
  d ← htonl size;
  write_frame hp i (mk_frame 4 (s_id s) TYPE_WINDOW_UPDATE 0 (Some d) MdZero).

(** The commands of [stream_cmds] above, by name. *)
Definition tx_cmd (hp : http) (i : nat) (av : list (list Z)) : outcome http :=
  match av with
  | [] => Fault FBounds
  | a :: av =>
      if streq a "txdata" then cmd_txdata hp i av
      else if streq a "txrst" then cmd_txrst hp i av
      else if streq a "txprio" then cmd_txprio hp i av
      else if streq a "txsettings" then cmd_txsettings hp i av
      else if streq a "txping" then cmd_txping hp i av
      else if streq a "txgoaway" then cmd_txgoaway hp i av
      else if streq a "txwinup" then cmd_txwinup hp i av
      else Fault FFatal
  end.
