(* ===== verification/H2Spec.v ===== *)
(** * Frames from end to end (src/vtc_http2.c)

    What a command writes is what the other end reads and parses; the windows
    of the two ends agree up to what is on the way; and the frames for which the
    code fails. *)

From Stdlib Require Import ZArith Lia ZifyBool String.
From stdpp Require Import base option numbers list.
From S2P Require Import Prelude HpackData HpackTbl HuffGen HpackHdr CStr VtcSubr Vend H2Recv H2Send.
#[local] Open Scope Z_scope.

(** ** The wire *)

Lemma slice_all d n rest : Z.of_nat (length d) = n -> slice (d ++ rest) 0 n = Ok d.
Proof.
  intros <-. unfold slice. rewrite length_app, (proj2 (Z.leb_le _ _)) by lia. cbn [Z.to_nat drop]. by rewrite Nat2Z.id, drop_0, take_app_length.
Qed.

(** What [write_frame] does to the windows. *)
Definition charged (hp : http) (i : nat) (s : stream) (f : frame) : http :=
  if f_type f =? TYPE_DATA
  then set_wins (put_stream hp i (set_win s (s_win_self s) (i64 (s_win_peer s - f_size f))))
         (h_win_self hp) (mk_window (w_init (h_win_peer hp)) (i64 (w_size (h_win_peer hp) - f_size f)))
  else hp.

Lemma write_frame_ok hp i s f p rest : get_stream hp i = Ok s -> f_data f = Some (p ++ rest) -> Z.of_nat (length p) = f_size f ->
  write_frame hp i f = Ok (set_wire (charged hp i s f) (h_wire hp ++ frame_bytes f p)).
Proof.
  intros Hs Hd Hp. unfold write_frame. rewrite Hs. cbn [mbind outcome_bind]. rewrite writeFrameHeader_ok by done. cbn [mbind outcome_bind]. rewrite Hd.
  assert ((if truth (f_size f) then slice (p ++ rest) 0 (f_size f) else Ok []) = Ok p) as ->.
  { unfold truth. destruct (f_size f =? 0) eqn:E; cbn [negb]; [|by apply slice_all]. destruct p; [done|simpl in Hp; lia]. }
  cbn [mbind outcome_bind]. fold (charged hp i s f). f_equal. unfold set_wire. f_equal.
  assert (h_wire (charged hp i s f) = h_wire hp) as -> by (unfold charged; by destruct (f_type f =? TYPE_DATA)).
  unfold frame_bytes. cbn [app]. by rewrite app_nil_r.
Qed.

(** A connection that brings a frame in one piece. *)
Lemma read_frame_ok hdr malloc f p : frame_ok f -> Z.of_nat (length p) = f_size f -> length hdr = 9%nat -> (forall n, 0 <= n -> Z.of_nat (length (malloc n)) = n) ->
  read_frame hdr malloc [frame_bytes f p] =
    Ok (Some (mk_frame (f_size f) (f_stid f) (f_type f) (f_flags f) (if truth (f_size f) then Some (p ++ [0]) else None) MdZero), []).
Proof.
  intros Hf Hp Hh Hm. unfold read_frame.
  assert (frame_bytes f p = frame_bytes f [] ++ p) as E by (unfold frame_bytes; cbn [app]; by rewrite app_nil_r).
  rewrite E, get_bytes_whole by (done || lia). cbn [mbind outcome_bind negb]. rewrite drop_ge by lia.
  rewrite app_nil_r, readFrameHeader_ok by done. cbn [mbind outcome_bind f_size]. unfold truth. destruct (f_size f =? 0) eqn:Es; cbn [negb].
  - destruct p; [done|simpl in Hp; lia].
  - specialize (Hm (f_size f + 1) ltac:(lia)). destruct p as [|c p]; [simpl in Hp; lia|]. set (n := Z.to_nat (f_size f)).
    rewrite writeC_lt by (unfold n; lia). cbn [mbind outcome_bind].
    assert (exists m, <[n := 0]> (malloc (f_size f + 1)) = m ++ [0] /\ length m = n) as (m & Em & Hlm).
    { assert (length (malloc (f_size f + 1)) = S n) as Hl by (unfold n; lia). destruct (malloc (f_size f + 1)) as [|x l] using rev_ind; [done|]. clear IHl0 || clear IHl.
      rewrite length_app in Hl. simpl in Hl. exists l. split; [|lia]. replace n with (length l + 0)%nat by lia. by rewrite insert_app_r. }
    rewrite Em. rewrite <-(app_nil_r (c :: p)). rewrite get_bytes_whole by (rewrite ?length_app; simpl in *; unfold n in *; lia). cbn [mbind outcome_bind].
    rewrite app_nil_r, <-Hlm, drop_app_length. done.
Qed.

(** ** Command lines *)

(** An argument that is a number, or the name of an error. *)
Definition num (s : list Z) (n : Z) : Prop := STRTOU32 32 s = Ok n.
Definition err (s : list Z) (n : Z) : Prop := match find_err h2_errs 0 s with Some m => n = m | None => num s n end.

Lemma num_range s n : num s n -> 0 <= n < 2 ^ 32.
Proof. unfold num, STRTOU32. destruct (strtoul 0 s) as [v e]. case_bool_decide; [|done]. intros [= <-]. by apply wrapu_range. Qed.

Lemma find_err_range l s n : 0 <= n -> match find_err l n s with Some m => n <= m < n + Z.of_nat (length l) | None => True end.
Proof.
  revert n. induction l as [|w l IH]; intros n Hn; cbn [find_err length]; [done|]. destruct (streq s w); [lia|].
  specialize (IH (n + 1) ltac:(lia)). destruct (find_err l (n + 1) s); [lia|done].
Qed.

Lemma err_range s n : err s n -> 0 <= n < 2 ^ 32.
Proof.
  unfold err. pose proof (find_err_range h2_errs s 0 ltac:(lia)) as H. destruct (find_err h2_errs 0 s); [|apply num_range].
  intros ->. change (length h2_errs) with 14%nat in H. lia.
Qed.

Lemma err_arg_ok s n av : err s n -> err_arg (s :: av) = Ok (n, av).
Proof. unfold err, err_arg. cbn [next_arg mbind outcome_bind]. destruct (find_err h2_errs 0 s); [by intros ->|]. by intros ->. Qed.

Lemma check_ok s n av l : num s n -> (l = 0 \/ n < 2 ^ l) -> STRTOU32_CHECK 32 (s :: av) l = Ok (n, av).
Proof.
  intros Hn Hl. unfold STRTOU32_CHECK. rewrite Hn. cbn [mbind outcome_bind].
  assert (truth l && (2 ^ l <=? n) = false) as -> by (unfold truth; destruct Hl as [->|]; [done|lia]). done.
Qed.

(** What a command line says: the type of the frame, its flags, its payload and
    what the other end has to make of it. *)
Inductive says : list (list Z) -> Z -> Z -> list Z -> frame_md -> Prop :=
  | says_rst e n : err e n -> says [str "txrst"; str "-err"; e] TYPE_RST_STREAM 0 (be32 n) (MdRst n)
  | says_prio st n w m : num st n -> n < 2 ^ 31 -> num w m -> m < 256 ->
      says [str "txprio"; str "-stream"; st; str "-weight"; w] TYPE_PRIORITY 0 (be32 n ++ [m]) (MdPrio n 0 m)
  | says_prio_ex st n w m : num st n -> n < 2 ^ 31 -> num w m -> m < 256 ->
      says [str "txprio"; str "-stream"; st; str "-weight"; w; str "-ex"] TYPE_PRIORITY 0 (be32 (n + 2 ^ 31) ++ [m]) (MdPrio n 1 m)
  | says_ping d : length d = 8%nat -> says [str "txping"; str "-data"; d] TYPE_PING 0 d (MdPing (d ++ [0]) 0)
  | says_pong d : length d = 8%nat -> says [str "txping"; str "-data"; d; str "-ack"] TYPE_PING 1 d (MdPing (d ++ [0]) 1)
  | says_winup s n : num s n -> n < 2 ^ 31 -> says [str "txwinup"; str "-size"; s] TYPE_WINDOW_UPDATE 0 (be32 n) (MdWinup n)
  | says_goaway e n ls m : err e n -> num ls m -> m < 2 ^ 31 ->
      says [str "txgoaway"; str "-err"; e; str "-laststream"; ls] TYPE_GOAWAY 0 (be32 m ++ be32 n) (MdGoaway n m None)
  | says_goaway_debug e n ls m d : err e n -> num ls m -> m < 2 ^ 31 -> d <> [] -> Z.of_nat (length d) < 2 ^ 24 - 8 ->
      says [str "txgoaway"; str "-err"; e; str "-laststream"; ls; str "-debug"; d] TYPE_GOAWAY 0 (be32 m ++ be32 n ++ d) (MdGoaway n m (Some (d ++ [0]))).

Lemma htonl_ok n : htonl n = Ok (be32 n).
Proof. unfold htonl. cbn [replicate]. rewrite (vbe32enc_ok [] 0 0 0 0 []) by done. cbn [app]. by rewrite app_nil_r. Qed.

Lemma num_bits n : 0 <= n < 2 ^ 31 -> Z.lor n (2 ^ 31) = n + 2 ^ 31.
Proof. intros H. rewrite Z.lor_comm, (lor_low (2 ^ 31) n 31) by (done || lia). lia. Qed.

Lemma outcome_assoc {A B C} (m : outcome A) (f : A -> outcome B) (g : B -> outcome C) : (m ≫= f) ≫= g = m ≫= (fun x => f x ≫= g).
Proof. by destruct m. Qed.

(** Compares the words of a command line. *)
#[local] Ltac words := repeat match goal with |- context [streq (str ?a) ?b] => let v := eval vm_compute in (streq (str a) b) in change (streq (str a) b) with v end; cbv iota.

Lemma get_put hp i s t : get_stream hp i = Ok s -> get_stream (put_stream hp i t) i = Ok t.
Proof. unfold get_stream, put_stream. cbn [h_streams set_streams]. rewrite !readC_ok. intros H. apply list_lookup_insert_eq. by eapply lookup_lt_Some. Qed.

Lemma get_exclusive hp i s t : get_stream hp i = Ok s -> exists u, get_stream (exclusive_stream_dependency (put_stream hp i t) t) i = Ok u /\ s_id u = s_id t.
Proof.
  intros H. pose proof (get_put hp i s t H) as Hp. unfold exclusive_stream_dependency. destruct (s_id t =? 0); [by exists t|].
  unfold get_stream in *. cbn [h_streams set_streams] in *. rewrite readC_ok in Hp. exists t. rewrite readC_ok, list_lookup_fmap, Hp. cbn. by rewrite Z.eqb_refl.
Qed.

Lemma exclusive_wire hp s : h_wire (exclusive_stream_dependency hp s) = h_wire hp.
Proof. unfold exclusive_stream_dependency. by destruct (s_id s =? 0). Qed.

Lemma prio_buf x m : 0 <= m < 256 -> (buf ← vbe32enc (replicate 5 0) 0 x; writeC buf 4 (Z.land m 255)) = Ok (be32 x ++ [m]).
Proof.
  intros Hm. cbn [replicate]. rewrite (vbe32enc_ok [] 0 0 0 0 [0]) by done. cbn [mbind outcome_bind app].
  rewrite (write_next (be32 x) [] 0) by done. by rewrite land_255, Z.mod_small.
Qed.

Lemma num_u8 s n : num s n -> n < 256 -> 0 <= n < 256.
Proof. intros H%num_range. lia. Qed.

(** The sending side: the frame is on the wire, and nothing else. *)
Lemma tx_ok hp i s av ty fl p md : says av ty fl p md -> get_stream hp i = Ok s -> exists hp',
  tx_cmd hp i av = Ok hp' /\ h_wire hp' = h_wire hp ++ frame_bytes (mk_frame (Z.of_nat (length p)) (s_id s) ty fl None MdZero) p.
Proof.
  intros H Hs. destruct H; unfold tx_cmd; words.
  - unfold cmd_txrst. rewrite Hs. cbn [length mbind outcome_bind txrst_args]. words. rewrite (err_arg_ok e n) by done. cbn [mbind outcome_bind txrst_args].
    rewrite htonl_ok. cbn [mbind outcome_bind]. rewrite (write_frame_ok hp i s _ (be32 n) []) by (done || by rewrite app_nil_r). by eexists.
  - unfold cmd_txprio. rewrite Hs. cbn [length mbind outcome_bind txprio_args]. words. rewrite (check_ok st n _ 0) by auto. cbn [mbind outcome_bind txprio_args]. words.
    rewrite (check_ok w m _ 8) by auto. cbn [mbind outcome_bind txprio_args]. cbn [truth Z.eqb negb]. rewrite Z.lor_0_r.
    rewrite <-outcome_assoc, prio_buf by by eapply num_u8. cbn [mbind outcome_bind].
    rewrite (write_frame_ok _ i (set_prio s (i32 n) (Z.land m 255)) _ (be32 n ++ [m]) []) by (done || (by eapply get_put) || by rewrite app_nil_r). by eexists.
  - unfold cmd_txprio. rewrite Hs. cbn [length mbind outcome_bind txprio_args]. words. rewrite (check_ok st n _ 0) by auto. cbn [mbind outcome_bind txprio_args]. words.
    rewrite (check_ok w m _ 8) by auto. cbn [mbind outcome_bind txprio_args]. words. cbn [txprio_args mbind outcome_bind]. change (truth (2 ^ 31)) with true. cbv iota.
    apply num_range in H as Hn. rewrite num_bits by lia. rewrite <-outcome_assoc, prio_buf by by eapply num_u8. cbn [mbind outcome_bind].
    destruct (get_exclusive hp i s (set_prio s (i32 n) (Z.land m 255)) Hs) as (u & Hu & Hid).
    rewrite (write_frame_ok _ i u _ (be32 (n + 2 ^ 31) ++ [m]) []) by (done || by rewrite app_nil_r). eexists. split; [done|]. cbn [h_wire set_wire charged f_type Z.eqb TYPE_PRIORITY TYPE_DATA].
    by rewrite exclusive_wire.
  - unfold cmd_txping. rewrite Hs. cbn [length mbind outcome_bind txping_args]. words. cbn [next_arg mbind outcome_bind]. rewrite H, Nat.eqb_refl. cbn [negb txping_args mbind outcome_bind default].
    rewrite (write_frame_ok hp i s _ d []) by (done || (by rewrite app_nil_r) || by cbn; lia). by eexists.
  - unfold cmd_txping. rewrite Hs. cbn [length mbind outcome_bind txping_args]. words. cbn [next_arg mbind outcome_bind]. rewrite H, Nat.eqb_refl. cbn [negb txping_args mbind outcome_bind default]. words. cbn [txping_args mbind outcome_bind default].
    rewrite (write_frame_ok hp i s _ d []) by (done || (by rewrite app_nil_r) || by cbn; lia). by eexists.
  - unfold cmd_txwinup. rewrite Hs. cbn [length mbind outcome_bind txwinup_args Nat.leb assertC]. words. rewrite (check_ok s0 n _ 0) by auto. cbn [mbind outcome_bind txwinup_args].
    rewrite htonl_ok. cbn [mbind outcome_bind].
    rewrite (write_frame_ok _ i (set_win s (i64 (s_win_self s + n)) (s_win_peer s)) _ (be32 n) []); [|destruct (s_id s =? 0); by eapply get_put|by rewrite app_nil_r|done].
    eexists. split; [done|]. by destruct (s_id s =? 0).
  - unfold cmd_txgoaway. rewrite Hs. cbn [length mbind outcome_bind txgoaway_args]. words. rewrite (err_arg_ok e n) by done. cbn [mbind outcome_bind txgoaway_args]. words.
    rewrite (check_ok ls m _ 31) by auto. cbn [mbind outcome_bind txgoaway_args default replicate app].
    rewrite (vbe32enc_ok [] 0 0 0 0 [0; 0; 0; 0]) by done. cbn [mbind outcome_bind app]. rewrite (vbe32enc_ok (be32 m) 0 0 0 0 []) by done. cbn [mbind outcome_bind].
    rewrite (write_frame_ok hp i s _ (be32 m ++ be32 n) []) by (done || by rewrite app_nil_r). by eexists.
  - unfold cmd_txgoaway. rewrite Hs. cbn [length mbind outcome_bind txgoaway_args]. words. rewrite (err_arg_ok e n) by done. cbn [mbind outcome_bind txgoaway_args]. words.
    rewrite (check_ok ls m _ 31) by auto. cbn [mbind outcome_bind txgoaway_args]. words. cbn [next_arg mbind outcome_bind txgoaway_args default replicate app].
    rewrite (vbe32enc_ok [] 0 0 0 0 (0 :: 0 :: 0 :: 0 :: d)) by done. cbn [mbind outcome_bind app]. rewrite (vbe32enc_ok (be32 m) 0 0 0 0 d) by done. cbn [mbind outcome_bind].
    rewrite (wrapu_small 32) by (rewrite !length_app; change (length (be32 m)) with 4%nat; change (length (be32 n)) with 4%nat; lia).
    rewrite (write_frame_ok hp i s _ (be32 m ++ be32 n ++ d) []) by (done || by rewrite app_nil_r). by eexists.
Qed.

(** ** The receiving side *)

Lemma be32_0 u r : readC (be32 u ++ r) 0 = Ok ((u `div` 2 ^ 24) `mod` 256).
Proof. done. Qed.

(** The top bit of a value of 31 bits is clear. *)
Lemma top_clear n : 0 <= n < 2 ^ 31 -> Z.land ((n `div` 2 ^ 24) `mod` 256) 128 = 0.
Proof.
  intros Hn. assert (0 <= (n `div` 2 ^ 24) `mod` 256 < 128) as Hb by (Z.to_euclidean_division_equations; lia).
  revert Hb. generalize ((n `div` 2 ^ 24) `mod` 256). intros z Hz. apply Z.bits_inj'. intros k Hk. rewrite Z.land_spec, Z.bits_0.
  destruct (decide (k = 7)) as [->|Hne].
  - rewrite Z.testbit_odd, Z.shiftr_div_pow2 by lia. rewrite (Z.div_small z) by lia. done.
  - change 128 with (2 ^ 7). rewrite Z.pow2_bits_false by lia. by rewrite andb_false_r.
Qed.

Lemma clear_top_small n : 0 <= n < 2 ^ 31 -> clear_top n = n /\ top_bit n = false.
Proof.
  intros Hn. unfold clear_top, top_bit. change 2147483647 with (Z.ones 31). rewrite Z.land_ones, Z.mod_small by lia. split; [done|].
  rewrite Z.shiftr_div_pow2, Z.div_small by lia. done.
Qed.
Lemma clear_top_set n : 0 <= n < 2 ^ 31 -> clear_top (n + 2 ^ 31) = n /\ top_bit (n + 2 ^ 31) = true.
Proof.
  intros Hn. unfold clear_top, top_bit. change 2147483647 with (Z.ones 31). rewrite Z.land_ones by lia. split; [Z.to_euclidean_division_equations; lia|].
  rewrite Z.shiftr_div_pow2 by lia. assert ((n + 2 ^ 31) `div` 2 ^ 31 = 1) as -> by (Z.to_euclidean_division_equations; lia). done.
Qed.

Definition incoming (id ty fl : Z) (p : list Z) : frame :=
  mk_frame (Z.of_nat (length p)) id ty fl (if truth (Z.of_nat (length p)) then Some (p ++ [0]) else None) MdZero.

Section peer.
Context (T : Z -> option stbl).

Lemma prio_rx peer st j id n x w m ex : get_stream peer j = Ok st -> 0 <= m < 256 -> 0 <= x < 2 ^ 32 -> clear_top x = n -> top_bit x = ex ->
  w = be32 x ++ [m] -> exists peer', parse_prio peer j (incoming id TYPE_PRIORITY 0 w) = Ok (peer', set_md (incoming id TYPE_PRIORITY 0 w) (MdPrio n (if ex then 1 else 0) m)).
Proof.
  intros Hs Hm Hx Hc Ht ->. unfold parse_prio. rewrite Hs. cbn [mbind outcome_bind]. change (f_size (incoming id TYPE_PRIORITY 0 (be32 x ++ [m]))) with 5. cbn [Z.eqb Pos.eqb negb].
  unfold data_of, incoming. cbn [f_data]. change (truth (Z.of_nat (length (be32 x ++ [m])))) with true. cbv iota. cbn [mbind outcome_bind]. rewrite <-!app_assoc, be32_dec by done. cbn [mbind outcome_bind].
  rewrite Hc, Ht. change (readC (be32 x ++ [m] ++ [0]) 4) with (@Ok Z m). cbn [mbind outcome_bind].
  destruct ex.
  - destruct (get_exclusive peer j st (set_prio st n (s_weight st)) Hs) as (u & -> & _). cbn [mbind outcome_bind]. by eexists.
  - rewrite (get_put peer j st) by done. cbn [mbind outcome_bind]. by eexists.
Qed.

#[local] Ltac by_type m := match goal with |- context [parse_frame T ?hp ?st ?j ?F] => change (parse_frame T hp st j F) with (m hp st F) end; cbv beta.
#[local] Ltac payload F n d := change (f_size F) with n; change (data_of F) with (Ok d); cbn [mbind outcome_bind Z.eqb Pos.eqb negb Z.ltb Z.compare].

Lemma rx_ok peer st j t id av ty fl p md : says av ty fl p md -> get_stream peer j = Ok t ->
  exists peer', parse_frame T peer st j (incoming id ty fl p) = Ok (peer', st, set_md (incoming id ty fl p) md).
Proof.
  intros H Ht. destruct H.
  - by_type (fun (hp : http) (st : rx) (F : frame) => f ← parse_rst F; Ok (hp, st, f)). unfold parse_rst. payload (incoming id TYPE_RST_STREAM 0 (be32 n)) 4 (be32 n ++ [0]).
    rewrite be32_dec by by eapply err_range. by eexists.
  - apply num_range in H as Hn. destruct (clear_top_small n) as [Hc Hb]; [lia|].
    destruct (prio_rx peer t j id n n _ m false Ht (num_u8 _ _ H1 H2) ltac:(lia) Hc Hb eq_refl) as (peer' & E).
    exists peer'. by_type (fun (hp : http) (st : rx) (F : frame) => '(hp, f) ← parse_prio hp j F; Ok (hp, st, f)). by rewrite E.
  - apply num_range in H as Hn. destruct (clear_top_set n) as [Hc Hb]; [lia|].
    destruct (prio_rx peer t j id n (n + 2 ^ 31) _ m true Ht (num_u8 _ _ H1 H2) ltac:(lia) Hc Hb eq_refl) as (peer' & E).
    exists peer'. by_type (fun (hp : http) (st : rx) (F : frame) => '(hp, f) ← parse_prio hp j F; Ok (hp, st, f)). by rewrite E.
  - by_type (fun (hp : http) (st : rx) (F : frame) => f ← parse_ping F; Ok (hp, st, f)). do 8 (destruct d as [|? d]; [done|]). destruct d; [|done]. by eexists.
  - by_type (fun (hp : http) (st : rx) (F : frame) => f ← parse_ping F; Ok (hp, st, f)). do 8 (destruct d as [|? d]; [done|]). destruct d; [|done]. by eexists.
  - apply num_range in H as Hn. by_type (fun (hp : http) (st : rx) (F : frame) => f ← parse_winup hp F; Ok (hp, st, f)). unfold parse_winup.
    payload (incoming id TYPE_WINDOW_UPDATE 0 (be32 n)) 4 (be32 n ++ [0]).
    rewrite be32_0. cbn [mbind outcome_bind]. rewrite top_clear by lia. cbn [truth Z.eqb negb mbind outcome_bind].
    rewrite be32_dec by lia. by eexists.
  - apply num_range in H0 as Hn. apply err_range in H as He. by_type (fun (hp : http) (st : rx) (F : frame) => f ← parse_goaway F; Ok (hp, st, f)). unfold parse_goaway.
    payload (incoming id TYPE_GOAWAY 0 (be32 m ++ be32 n)) 8 ((be32 m ++ be32 n) ++ [0]). rewrite <-app_assoc.
    rewrite be32_0. cbn [mbind outcome_bind]. rewrite top_clear by lia. cbn [truth Z.eqb negb mbind outcome_bind].
    rewrite be32_dec by lia. cbn [mbind outcome_bind]. change (drop 4 (be32 m ++ ?x)) with x. rewrite be32_dec by lia. cbn [mbind outcome_bind]. by eexists.
  - apply num_range in H0 as Hn. apply err_range in H as He. by_type (fun (hp : http) (st : rx) (F : frame) => f ← parse_goaway F; Ok (hp, st, f)). unfold parse_goaway.
    set (F := incoming id TYPE_GOAWAY 0 (be32 m ++ be32 n ++ d)). assert (Z.of_nat (length d) <> 0) as Hd by (destruct d; [done|simpl; lia]).
    assert (f_size F = 8 + Z.of_nat (length d)) as Hsz by (cbn [f_size F incoming]; rewrite !length_app; change (length (be32 m)) with 4%nat; change (length (be32 n)) with 4%nat; lia).
    assert (data_of F = Ok (be32 m ++ be32 n ++ d ++ [0])) as -> by (unfold data_of, F, incoming; cbn [f_data]; by rewrite <-!app_assoc).
    rewrite Hsz, (proj2 (Z.ltb_ge _ 8)) by lia. cbn [mbind outcome_bind].
    rewrite be32_0. cbn [mbind outcome_bind]. rewrite top_clear by lia. cbn [truth Z.eqb negb mbind outcome_bind].
    rewrite be32_dec by lia. cbn [mbind outcome_bind]. change (drop 4 (be32 m ++ ?x)) with x. rewrite be32_dec by lia. cbn [mbind outcome_bind].
    rewrite (proj2 (Z.ltb_lt 8 _)) by lia. unfold slice. rewrite !length_app. change (length (be32 m)) with 4%nat. change (length (be32 n)) with 4%nat. rewrite (proj2 (Z.leb_le _ _)) by (simpl; lia).
    replace (Z.to_nat (8 + Z.of_nat (length d) - 8)) with (length d) by lia. change (drop (Z.to_nat 8) (be32 m ++ be32 n ++ d ++ [0])) with (d ++ [0]). rewrite take_app_length. by eexists.
Qed.

(** *** DATA frames *)

(** The flags of [txdata] before padding. *)
Lemma txdata_flags n av body pad fl r : (fl = 0 \/ fl = 1) -> txdata_args n av body pad fl = Ok r -> r.2 = 0 \/ r.2 = 1.
Proof.
  revert av body pad fl. induction n as [|n IH]; intros av body pad fl Hfl; destruct av as [|a av]; cbn [txdata_args]; try (by intros [= <-]).
  repeat case_match; try done; unfold assertC; repeat case_match; cbn [mbind outcome_bind]; try done; try (by apply IH).
  - destruct av as [|b av]; cbn [next_arg mbind outcome_bind]; [done|by apply IH].
  - destruct (synth_body l); cbn [mbind outcome_bind]; [by apply IH|done].
  - destruct (synth_body l); cbn [mbind outcome_bind]; [by apply IH|done].
  - apply IH. destruct Hfl as [->| ->]; by left.
Qed.

(** What [txdata] puts into the frame. *)
Definition data_payload (body : list Z) (pad : option (list Z)) : list Z :=
  match pad with Some pad => Z.of_nat (length pad) :: body ++ pad | None => body end.
Definition data_flags (fl : Z) (pad : option (list Z)) : Z := match pad with Some _ => Z.lor fl PADDED | None => fl end.

(** The stream and the connection after [n] bytes with the body [b]. *)
Definition landed (peer : http) (j : nat) (t : stream) (b : list Z) : http :=
  let n := Z.of_nat (length b) in
  let t := if truth (s_id t) then set_win t (i64 (s_win_self t - n)) (s_win_peer t) else t in
  put_stream (set_wins (put_stream peer j t) (mk_window (w_init (h_win_self peer)) (i64 (w_size (h_win_self peer) - n))) (h_win_peer peer))
    j (set_body t (Some (default [] (s_body t) ++ b))).

Lemma txdata_sends hp i s av body pad fl : get_stream hp i = Ok s -> txdata_args (length av) av None None END_STREAM = Ok (body, pad, fl) ->
  Z.of_nat (length (default [] pad)) < 256 -> Z.of_nat (length (default [] body)) < 2 ^ 24 - 256 ->
  let p := data_payload (default [] body) pad in
  let f := mk_frame (Z.of_nat (length p)) (s_id s) TYPE_DATA (data_flags fl pad) (Some p) MdZero in
  cmd_txdata hp i av = Ok (set_wire (charged hp i s f) (h_wire hp ++ frame_bytes f p)).
Proof.
  intros Hs Ha Hp Hb p f. unfold cmd_txdata. rewrite Hs. cbn [mbind outcome_bind INIT_FRAME f_flags]. rewrite Ha. cbn [mbind outcome_bind].
  destruct pad as [pad|]; cbn [from_option id data_payload] in *.
  - rewrite (proj2 (Z.ltb_ge 255 _)) by lia. cbn [mbind outcome_bind].
    assert (u32 (1 + Z.of_nat (length (default [] body)) + Z.of_nat (length pad)) = Z.of_nat (length p)) as ->.
    { unfold p. cbn [data_payload length]. rewrite length_app, wrapu_small by lia. lia. }
    by apply write_frame_ok with (rest := []); [|rewrite app_nil_r|].
  - cbn [mbind outcome_bind]. rewrite wrapu_small by lia. by apply write_frame_ok with (rest := []); [|rewrite app_nil_r|].
Qed.

Lemma put_put hp i s t : put_stream (put_stream hp i s) i t = put_stream hp i t.
Proof. unfold put_stream, set_streams. cbn. by rewrite list_insert_insert_eq. Qed.

Lemma data_lands peer j t sid fl body pad : get_stream peer j = Ok t -> (fl = 0 \/ fl = 1) -> body <> [] ->
  Z.of_nat (length (default [] pad)) < 256 -> Z.of_nat (length body) < 2 ^ 24 - 256 ->
  let f := incoming sid TYPE_DATA (data_flags fl pad) (data_payload body pad) in
  parse_data peer j f = Ok (landed peer j t body, match pad with Some p => set_md f (MdPadded (Z.of_nat (length p))) | None => f end).
Proof.
  intros Ht Hfl Hne Hp Hb f. unfold parse_data. rewrite Ht. cbn [mbind outcome_bind].
  assert (0 < Z.of_nat (length body)) as Hpos by (destruct body; [done|simpl; lia]).
  assert (data_of f = Ok (data_payload body pad ++ [0])) as Hd.
  { unfold data_of, f, incoming. cbn [f_data]. unfold truth. replace (Z.of_nat (length (data_payload body pad)) =? 0) with false; [done|].
    destruct pad; cbn [data_payload length]; [|lia]. rewrite length_app. lia. }
  assert (f_data f = Some (data_payload body pad ++ [0])) as Hd' by (unfold data_of in Hd; destruct (f_data f); congruence).
  assert (flag f PADDED = match pad with Some _ => true | None => false end) as ->.
  { unfold flag, f. cbn [incoming f_flags]. by destruct pad; destruct Hfl as [-> | ->]. }
  destruct pad as [pad|]; cbn [from_option id data_payload] in *.
  - unfold padding. rewrite Hd. cbn [mbind outcome_bind app readC lookup list_lookup].
    assert (f_size f = 1 + Z.of_nat (length body) + Z.of_nat (length pad)) as Hsz by (unfold f; cbn [incoming f_size data_payload length]; rewrite length_app; lia).
    rewrite Hsz, (proj2 (Z.leb_gt _ _)) by lia. cbn [mbind outcome_bind].
    replace (1 + Z.of_nat (length body) + Z.of_nat (length pad) - (Z.of_nat (length pad) + 1)) with (Z.of_nat (length body)) by lia.
    rewrite wrapu_small by lia. cbv zeta. rewrite (proj2 (Z.eqb_neq _ 0)) by lia. change (data_of (set_md f ?m)) with (data_of f). rewrite Hd. cbn [mbind outcome_bind app].
    assert (slice (Z.of_nat (length pad) :: (body ++ pad) ++ [0]) 1 (Z.of_nat (length body)) = Ok body) as ->.
    { unfold slice. cbn [length]. rewrite !length_app. rewrite (proj2 (Z.leb_le _ _)) by lia. change (Z.to_nat 1) with 1%nat. cbn [drop]. rewrite drop_0, Nat2Z.id.
      by rewrite <-app_assoc, take_app_length. }
    cbn [mbind outcome_bind]. unfold landed; cbv zeta; by destruct (truth (s_id t)).
  - cbn [mbind outcome_bind]. cbv zeta. assert (f_size f = Z.of_nat (length body)) as -> by done. rewrite (proj2 (Z.eqb_neq _ 0)) by lia. rewrite Hd. cbn [mbind outcome_bind].
    rewrite slice_all by done. cbn [mbind outcome_bind]. unfold landed; cbv zeta; by destruct (truth (s_id t)).
Qed.
End peer.

(** ** From end to end *)

Lemma says_bounds av ty fl p md : says av ty fl p md -> 0 <= ty < 256 /\ 0 <= fl < 256 /\ Z.of_nat (length p) < 2 ^ 24.
Proof.
  intros []; unfold TYPE_RST_STREAM, TYPE_PRIORITY, TYPE_PING, TYPE_WINDOW_UPDATE, TYPE_GOAWAY; rewrite ?length_app; cbn [length be32]; lia.
Qed.

Section ends.
Context (T : Z -> option stbl) (hdr : list Z) (malloc : Z -> list Z).
Hypothesis (Hhdr : length hdr = 9%nat) (Hmalloc : forall n, 0 <= n -> Z.of_nat (length (malloc n)) = n).

Lemma arrives f p : frame_ok f -> Z.of_nat (length p) = f_size f ->
  read_frame hdr malloc [frame_bytes f p] = Ok (Some (incoming (f_stid f) (f_type f) (f_flags f) p), []).
Proof. intros Hf Hp. rewrite (read_frame_ok hdr malloc f p) by done. unfold incoming. by rewrite Hp. Qed.

(** C13: What a command says is what the other end gets: the frame that [tx_cmd]
    writes is read back with the same stream, type and flags, and the parser
    recovers the numbers and strings of the command line. *)
Theorem frames_ok hp i s av ty fl p md peer st j t : says av ty fl p md -> get_stream hp i = Ok s -> 0 <= s_id s < 2 ^ 32 -> get_stream peer j = Ok t ->
  exists hp' w f peer' f', tx_cmd hp i av = Ok hp' /\ h_wire hp' = h_wire hp ++ w /\ read_frame hdr malloc [w] = Ok (Some f, []) /\
    f_stid f = s_id s /\ parse_frame T peer st j f = Ok (peer', st, f') /\ f_type f' = ty /\ f_flags f' = fl /\ f_md f' = md.
Proof.
  intros H Hs Hid Ht. destruct (tx_ok hp i s av ty fl p md H Hs) as (hp' & Htx & Hw). destruct (rx_ok T peer st j t (s_id s) av ty fl p md H Ht) as (peer' & Hrx).
  apply says_bounds in H as (? & ? & ?). eexists hp', _, _, peer', _. split_and!; [exact Htx|exact Hw| |..].
  - apply arrives; [|done]. split; unfold byte; cbn [f_size f_stid f_type f_flags]; lia.
  - done.
  - exact Hrx.
  - done.
  - done.
  - done.
Qed.

Lemma data_frame_ok s fl pad body : 0 <= s_id s < 2 ^ 32 -> (fl = 0 \/ fl = 1) -> Z.of_nat (length (default [] pad)) < 256 -> Z.of_nat (length body) < 2 ^ 24 - 256 ->
  let p := data_payload body pad in
  frame_ok (mk_frame (Z.of_nat (length p)) (s_id s) TYPE_DATA (data_flags fl pad) (Some p) MdZero).
Proof.
  intros Hid Hfl Hp Hb p. split; cbn [f_size f_stid f_type f_flags]; [|done|unfold byte, TYPE_DATA; lia|].
  - unfold p. destruct pad; cbn [data_payload length from_option id] in *; [rewrite length_app|]; lia.
  - unfold byte. destruct pad; cbn [data_flags]; destruct Hfl as [-> | ->]; by vm_compute.
Qed.

(** C23: A body of [txdata], with padding or not, is appended to the body of the
    other end's stream.  The windows of the receiver shrink by the body, that of
    the sender by the whole payload, padding included. *)
Theorem data_ok hp i s av body pad fl peer j t : txdata_args (length av) av None None END_STREAM = Ok (body, pad, fl) ->
  default [] body <> [] -> Z.of_nat (length (default [] pad)) < 256 -> Z.of_nat (length (default [] body)) < 2 ^ 24 - 256 ->
  get_stream hp i = Ok s -> 0 <= s_id s < 2 ^ 32 -> get_stream peer j = Ok t -> s_id t <> 0 ->
  exists hp' w f peer' f' s' t', cmd_txdata hp i av = Ok hp' /\ h_wire hp' = h_wire hp ++ w /\ read_frame hdr malloc [w] = Ok (Some f, []) /\
    parse_data peer j f = Ok (peer', f') /\ get_stream hp' i = Ok s' /\ get_stream peer' j = Ok t' /\
    s_body t' = Some (default [] (s_body t) ++ default [] body) /\
    s_win_self t' = i64 (s_win_self t - Z.of_nat (length (default [] body))) /\
    w_size (h_win_self peer') = i64 (w_size (h_win_self peer) - Z.of_nat (length (default [] body))) /\
    s_win_peer s' = i64 (s_win_peer s - Z.of_nat (length (data_payload (default [] body) pad))) /\
    w_size (h_win_peer hp') = i64 (w_size (h_win_peer hp) - Z.of_nat (length (data_payload (default [] body) pad))).
Proof.
  intros Ha Hne Hp Hb Hs Hid Ht Hid'. pose proof (txdata_flags _ _ _ _ _ _ (or_intror eq_refl) Ha) as Hfl. cbn [snd] in Hfl.
  rewrite (txdata_sends hp i s av body pad fl) by done. set (f := mk_frame _ _ _ _ _ _).
  eexists _, _, _, _, _, _, _. split_and!; [done|done|by apply arrives; [apply data_frame_ok|]|by apply data_lands|..]; try done.
  - by eapply get_put.
  - unfold landed. eapply get_put. unfold get_stream. cbn [h_streams set_wins]. by eapply get_put.
  - cbn [s_body set_body]. by destruct (truth (s_id t)).
  - cbn [s_win_self set_body]. unfold truth. by rewrite (proj2 (Z.eqb_neq _ 0) Hid').
  - done.
Qed.

(** [txdata] with padding and no body is a valid frame, and the other end stops
    at an assertion when it gets one. *)
Theorem padding_only hp i s av pad fl peer j t : txdata_args (length av) av None None END_STREAM = Ok (None, Some pad, fl) ->
  Z.of_nat (length pad) < 256 -> get_stream hp i = Ok s -> 0 <= s_id s < 2 ^ 32 -> get_stream peer j = Ok t ->
  exists hp' w f, cmd_txdata hp i av = Ok hp' /\ h_wire hp' = h_wire hp ++ w /\ read_frame hdr malloc [w] = Ok (Some f, []) /\
    parse_data peer j f = Fault FAssert.
Proof.
  intros Ha Hp Hs Hid Ht. pose proof (txdata_flags _ _ _ _ _ _ (or_intror eq_refl) Ha) as Hfl. cbn [snd] in Hfl.
  rewrite (txdata_sends hp i s av None (Some pad) fl) by (done || (cbn; lia)). set (f := mk_frame _ _ _ _ _ _). eexists _, _, _. split_and!; [done|done| |].
  - apply arrives; [|done]. apply (data_frame_ok s fl (Some pad) []); try done.
  - unfold parse_data. rewrite Ht. cbn [mbind outcome_bind]. set (g := incoming _ _ _ _).
    assert (flag g PADDED = true) as -> by (unfold flag, g; cbn [incoming f_flags f data_flags]; by destruct Hfl as [-> | ->]).
    assert (f_size g = 1 + Z.of_nat (length pad)) as Hsz by (unfold g, f; cbn [incoming f_size data_payload length app from_option id]; lia).
    assert (f_data g = Some (Z.of_nat (length pad) :: pad ++ [0])) as Hd by done.
    unfold padding, data_of. rewrite Hd. cbn [mbind outcome_bind readC lookup list_lookup]. rewrite Hsz, (proj2 (Z.leb_gt _ _)) by lia. cbn [mbind outcome_bind].
    replace (1 + Z.of_nat (length pad) - (Z.of_nat (length pad) + 1)) with 0 by lia. rewrite wrapu_small by lia. cbv zeta. cbn [Z.eqb]. cbn [f_data set_md]. by rewrite Hd.
Qed.
End ends.

(** Bytes that come in two pieces overwrite each other: the second piece lands
    on the first, and what should follow it is never written. *)
Theorem get_bytes_split buf a b rs : a <> [] -> b <> [] -> (length a + length b <= length buf)%nat ->
  get_bytes buf (length a + length b) (a :: b :: rs) = Ok (b ++ drop (length b) (a ++ drop (length a) buf), true, rs).
Proof.
  intros Ha Hb Hl. destruct a as [|x a]; [done|]. destruct b as [|y b]; [done|]. unfold get_bytes. cbn [length Nat.add get_loop].
  rewrite take_ge, drop_ge by (cbn [length]; lia). unfold put_front at 1. rewrite (proj2 (Nat.leb_le _ _)) by (cbn [length] in *; lia). cbn [mbind outcome_bind].
  replace (S (length a + S (length b)) - S (length a))%nat with (S (length b)) by lia.
  replace (length a + S (length b))%nat with (S (length a + length b)) by lia. cbn [get_loop]. rewrite take_ge, drop_ge by (cbn [length]; lia). unfold put_front.
  rewrite (proj2 (Nat.leb_le _ _)) by (rewrite ?length_app, ?length_drop; cbn [length] in *; lia). cbn [mbind outcome_bind]. cbn [length]. rewrite Nat.sub_diag.
  by destruct (length a + length b)%nat.
Qed.

(** *** Examples *)

(** A connection with the streams 0 and 1. *)
Definition example_stream (id : Z) : stream := mk_stream id 65535 65535 0 None (replicate MAX_HDR hdr_zero) (replicate MAX_HDR hdr_zero) 0 16 None [].
Definition example_http (server : bool) : http :=
  mk_http [example_stream 1; example_stream 0] (mk_window 65535 65535) (mk_window 65535 65535) (HPK_NewCtx 4096) (HPK_NewCtx 4096) server 0 0 1 0 [] (Gzip.mk_gz 6 (-1)).
Definition example_malloc (n : Z) : list Z := replicate (Z.to_nat n) 0.

Lemma example_malloc_ok n : 0 <= n -> Z.of_nat (length (example_malloc n)) = n.
Proof. intros H. unfold example_malloc. rewrite length_replicate. lia. Qed.

Lemma frames_ok_witness : exists hp' w f peer' f',
  tx_cmd (example_http false) 0 [str "txgoaway"; str "-err"; str "CANCEL"; str "-laststream"; str "0x10"; str "-debug"; str "bye"] = Ok hp' /\ h_wire hp' = [] ++ w /\
  read_frame (replicate 9 0) example_malloc [w] = Ok (Some f, []) /\ f_stid f = 1 /\
  parse_frame (fun _ => None) (example_http true) (mk_rx 0 None None) 0 f = Ok (peer', mk_rx 0 None None, f') /\
  f_type f' = TYPE_GOAWAY /\ f_flags f' = 0 /\ f_md f' = MdGoaway 8 16 (Some (str "bye" ++ [0])).
Proof.
  apply (frames_ok (fun _ => None) (replicate 9 0) example_malloc) with (s := example_stream 1) (t := example_stream 1) (p := be32 16 ++ be32 8 ++ str "bye");
    [reflexivity|apply example_malloc_ok| |reflexivity|simpl; lia|reflexivity].
  apply says_goaway_debug; [reflexivity|reflexivity|lia|discriminate|simpl; lia].
Defined.

Lemma data_ok_witness : exists hp' w f peer' f' s' t',
  cmd_txdata (example_http false) 0 [str "-data"; str "hello"; str "-pad"; str "xy"] = Ok hp' /\ h_wire hp' = [] ++ w /\
  read_frame (replicate 9 0) example_malloc [w] = Ok (Some f, []) /\ parse_data (example_http true) 0 f = Ok (peer', f') /\
  get_stream hp' 0 = Ok s' /\ get_stream peer' 0 = Ok t' /\ s_body t' = Some (str "hello") /\ s_win_self t' = 65530 /\
  w_size (h_win_self peer') = 65530 /\ s_win_peer s' = 65527 /\ w_size (h_win_peer hp') = 65527.
Proof.
  apply (data_ok (replicate 9 0) example_malloc eq_refl example_malloc_ok (example_http false) 0 (example_stream 1) [str "-data"; str "hello"; str "-pad"; str "xy"] (Some (str "hello")) (Some (str "xy")) 1
    (example_http true) 0 (example_stream 1)); try reflexivity; try discriminate; simpl; lia.
Defined.

Lemma padding_only_witness : exists hp' w f, cmd_txdata (example_http false) 0 [str "-pad"; str "xy"] = Ok hp' /\ h_wire hp' = [] ++ w /\
  read_frame (replicate 9 0) example_malloc [w] = Ok (Some f, []) /\ parse_data (example_http true) 0 f = Fault FAssert.
Proof.
  apply (padding_only (replicate 9 0) example_malloc eq_refl example_malloc_ok (example_http false) 0 (example_stream 1) [str "-pad"; str "xy"] (str "xy") 1 (example_http true) 0 (example_stream 1));
    try reflexivity; simpl; lia.
Defined.

Lemma get_bytes_split_witness : get_bytes [0; 0; 0; 0] 4 [[1; 2; 3]; [4]] = Ok ([4; 2; 3; 0], true, []).
Proof. apply (get_bytes_split [0; 0; 0; 0] [1; 2; 3] [4] []); [discriminate|discriminate|simpl; lia]. Defined.

(** ** Settings from end to end (src/vtc_http2.c)

    The frame that [txsettings] writes is what the other end parses, and the
    header tables of the two ends keep the same bound and entries. *)

(** A setting of [txsettings]: its arguments, code and value. *)
Inductive setting : list (list Z) -> Z * Z -> Prop :=
  | set_push b : setting [str "-push"; str (if b : bool then "true" else "false")] (2, if b then 1 else 0)
  | set_hdrtbl s n : num s n -> setting [str "-hdrtbl"; s] (1, n)
  | set_maxstreams s n : num s n -> setting [str "-maxstreams"; s] (3, n)
  | set_winsize s n : num s n -> setting [str "-winsize"; s] (4, n)
  | set_framesize s n : num s n -> setting [str "-framesize"; s] (5, n)
  | set_hdrsize s n : num s n -> setting [str "-hdrsize"; s] (6, n).

(** A command line, without the command. *)
Inductive settings : list (list Z) -> list (Z * Z) -> Prop :=
  | settings_nil : settings [] []
  | settings_cons av kv avs kvs : setting av kv -> settings avs kvs -> settings (av ++ avs) (kv :: kvs).

Definition kv_bytes (kv : Z * Z) : list Z := be16 kv.1 ++ be32 kv.2.
Fixpoint kvs_bytes (kvs : list (Z * Z)) : list Z := match kvs with [] => [] | kv :: kvs => kv_bytes kv ++ kvs_bytes kvs end.

Lemma kvs_length kvs : length (kvs_bytes kvs) = (6 * length kvs)%nat.
Proof. induction kvs as [|kv kvs IH]; [done|]. cbn [kvs_bytes length]. rewrite length_app, IH. simpl. lia. Qed.

Lemma setting_range av kv : setting av kv -> 1 <= kv.1 < 7 /\ 0 <= kv.2 < 2 ^ 32 /\ length av = 2%nat.
Proof. intros []; cbn [fst snd length]; try (apply num_range in H); [destruct b|..]; lia. Qed.

(** What a setting does to the header table of the end that decodes, and of the
    end that encodes. *)
Definition resized (ctx : hpk_ctx) (kv : Z * Z) : hpk_ctx :=
  if kv.1 =? 1 then match HPK_ResizeTbl ctx kv.2 with Ok (_, ctx) => ctx | Fault _ => ctx end else ctx.

Lemma resized_ok ctx v : ctx_ok ctx -> 0 <= v < 2 ^ 32 -> HPK_ResizeTbl ctx v = Ok (hpk_done, resized ctx (1, v)) /\ ctx_ok (resized ctx (1, v)).
Proof.
  intros Hc Hv. destruct (resize_fit ctx v Hc) as (c & Hr & Hok & _); [unfold UINT32_MAX; lia|]. unfold resized. cbn [fst snd Z.eqb Pos.eqb]. by rewrite Hr.
Qed.

Lemma resized_ctx_ok ctx kv : ctx_ok ctx -> 0 <= kv.2 < 2 ^ 32 -> ctx_ok (resized ctx kv).
Proof. intros Hc Hv. destruct kv as [k v]. unfold resized. cbn [fst]. destruct (k =? 1) eqn:E; [|done]. apply Z.eqb_eq in E as ->. by apply (resized_ok ctx v). Qed.

(** Two tables treated alike stay alike. *)
Lemma resized_same kvs c c' : Forall (fun kv => 1 <= kv.1 < 7 /\ 0 <= kv.2 < 2 ^ 32) kvs -> ctx_ok c -> ctx_ok c' ->
  (entries c = entries c' -> entries (foldl resized c kvs) = entries (foldl resized c' kvs)) /\
  (maxsize c = maxsize c' -> maxsize (foldl resized c kvs) = maxsize (foldl resized c' kvs)).
Proof.
  intros Hr. revert c c'. induction Hr as [|[k v] kvs [Hk Hv] _ IH]; [done|]. intros c c' Hc Hc'. cbn [foldl fst snd] in *.
  destruct (IH (resized c (k, v)) (resized c' (k, v))) as [IHe IHm]; [by apply resized_ctx_ok..|].
  enough ((entries c = entries c' -> entries (resized c (k, v)) = entries (resized c' (k, v))) /\ (maxsize c = maxsize c' -> maxsize (resized c (k, v)) = maxsize (resized c' (k, v)))) as [? ?] by auto.
  unfold resized. cbn [fst snd]. destruct (k =? 1); [|done].
  destruct (resize_fit c v Hc) as (d & -> & _ & -> & _ & ->); [unfold UINT32_MAX; lia|]. destruct (resize_fit c' v Hc') as (d' & -> & _ & -> & _ & ->); [unfold UINT32_MAX; lia|].
  split; [by intros ->|done].
Qed.

(** ** The sending side *)

(** The settings [kvs] are in the buffer. *)
Record sent (t : txset) (bytes : list Z) : Prop := {
  st_buf : exists rest, ts_buf t = bytes ++ rest /\ length (ts_buf t) = 512%nat;
  st_cursor : ts_cursor t = length bytes;
  st_size : ts_size t = Z.of_nat (length bytes);
  st_flags : ts_flags t = 0;
  st_ctx : ctx_ok (h_decctx (ts_hp t)) }.

Lemma put_setting_ok t bytes k v : sent t bytes -> (length bytes + 6 <= 512)%nat ->
  exists t', put_setting t k v = Ok t' /\ sent t' (bytes ++ kv_bytes (k, v)) /\ ts_hp t' = ts_hp t.
Proof.
  intros [(rest & Hb & Hl) Hc Hs Hf Ho] Hn. rewrite Hb, length_app in Hl. do 6 (destruct rest as [|? rest]; [simpl in Hl; lia|]).
  unfold put_setting. rewrite Hb, Hc, vbe16enc_ok by done. cbn [mbind outcome_bind].
  rewrite app_assoc, vbe32enc_ok by (rewrite length_app; simpl; lia). cbn [mbind outcome_bind]. eexists. split; [done|]. split; [|done]. split; cbn [ts_buf ts_cursor ts_size ts_flags ts_hp]; try done.
  - exists rest. unfold kv_bytes. cbn [fst snd]. rewrite <-!app_assoc. split; [done|]. rewrite !length_app. simpl in *. lia.
  - rewrite length_app. simpl. lia.
  - rewrite Hs, length_app, wrapu_small by (simpl in *; lia). simpl. lia.
Qed.

Lemma put_kv_ok t bytes s k v av : sent t bytes -> (length bytes + 6 <= 512)%nat -> num s v ->
  exists t', PUT_KV t (s :: av) k = Ok (t', v, av) /\ sent t' (bytes ++ kv_bytes (k, v)) /\ ts_hp t' = ts_hp t.
Proof.
  intros Ht Hn Hv. unfold PUT_KV. rewrite (check_ok s v av 0) by auto. cbn [mbind outcome_bind].
  destruct (put_setting_ok t bytes k v Ht Hn) as (t' & -> & ? & ?). cbn [mbind outcome_bind]. by exists t'.
Qed.

Lemma sent_set_hp t bytes hp : sent t bytes -> ctx_ok (h_decctx hp) -> sent (ts_set_hp t hp) bytes.
Proof. by intros [] ?. Qed.

(** What a setting does to the sender. *)
Definition sender (hp : http) (kv : Z * Z) : http :=
  if kv.1 =? 1 then set_ctxs hp (h_encctx hp) (resized (h_decctx hp) kv)
  else if kv.1 =? 4 then init_win_self hp kv.2 else hp.

Lemma setting_sent n av kv rest t bytes : setting av kv -> sent t bytes -> (length bytes + 6 <= 512)%nat ->
  exists t', txsettings_args (S n) (av ++ rest) t = txsettings_args n rest t' /\ sent t' (bytes ++ kv_bytes kv) /\ ts_hp t' = sender (ts_hp t) kv.
Proof.
  intros Hav Ht Hn. destruct Hav as [b|s v Hv|s v Hv|s v Hv|s v Hv|s v Hv]; cbn [app txsettings_args]; words.
  - cbn [next_arg mbind outcome_bind]. assert ((if streq (str (if b then "true" else "false")) "false" then Ok 0 else if streq (str (if b then "true" else "false")) "true" then Ok 1 else Fault FFatal) = @Ok Z (if b then 1 else 0)) as -> by by destruct b.
    cbn [mbind outcome_bind]. destruct (put_setting_ok t bytes 2 (if b then 1 else 0) Ht Hn) as (t' & -> & Ht' & E). cbn [mbind outcome_bind]. by exists t'.
  - destruct (put_kv_ok t bytes s 1 v rest Ht Hn Hv) as (t' & -> & Ht' & E). cbn [mbind outcome_bind]. rewrite E.
    destruct (resized_ok (h_decctx (ts_hp t)) v (st_ctx _ _ Ht) (num_range _ _ Hv)) as [-> Hok]. cbn [mbind outcome_bind negb]. rewrite bool_decide_eq_false_2 by done. cbn [negb assertC mbind outcome_bind].
    eexists. split; [done|]. split; [by apply sent_set_hp|done].
  - destruct (put_kv_ok t bytes s 3 v rest Ht Hn Hv) as (t' & -> & Ht' & E). cbn [mbind outcome_bind]. by exists t'.
  - destruct (put_kv_ok t bytes s 4 v rest Ht Hn Hv) as (t' & -> & Ht' & E). cbn [mbind outcome_bind]. rewrite E. eexists. split; [done|]. split; [|done]. apply sent_set_hp; [done|]. cbn. apply (st_ctx _ _ Ht).
  - destruct (put_kv_ok t bytes s 5 v rest Ht Hn Hv) as (t' & -> & Ht' & E). cbn [mbind outcome_bind]. by exists t'.
  - destruct (put_kv_ok t bytes s 6 v rest Ht Hn Hv) as (t' & -> & Ht' & E). cbn [mbind outcome_bind]. by exists t'.
Qed.

Lemma settings_sent n av kvs t bytes : settings av kvs -> sent t bytes -> (length bytes + 6 * length kvs <= 512)%nat -> (length av <= n)%nat ->
  exists t', txsettings_args n av t = Ok t' /\ sent t' (bytes ++ kvs_bytes kvs) /\ ts_hp t' = foldl sender (ts_hp t) kvs.
Proof.
  intros H. revert n t bytes. induction H as [|av kv avs kvs Hav H IH]; intros n t bytes Ht Hb Hn.
  - exists t. rewrite app_nil_r. by destruct n.
  - pose proof (setting_range _ _ Hav) as (_ & _ & Hl). rewrite length_app in Hn. destruct n as [|n]; [lia|]. cbn [length] in Hb.
    destruct (setting_sent n av kv avs t bytes Hav Ht) as (t' & -> & Ht' & E); [lia|].
    destruct (IH n t' (bytes ++ kv_bytes kv) Ht') as (t'' & -> & Ht'' & E'); [rewrite length_app; simpl; lia|lia|].
    exists t''. split; [done|]. cbn [kvs_bytes foldl]. rewrite app_assoc. split; [done|]. by rewrite E', E.
Qed.

Lemma sender_get hp kv i s : get_stream hp i = Ok s -> exists s', get_stream (sender hp kv) i = Ok s' /\ s_id s' = s_id s.
Proof.
  intros Hs. unfold sender. case_match; [by exists s|]. case_match; [|by exists s]. unfold get_stream, init_win_self in *. cbn [h_streams set_wins set_streams].
  apply readC_ok in Hs. eexists. rewrite readC_ok, list_lookup_fmap, Hs. by split.
Qed.
Lemma senders_get kvs hp i s : get_stream hp i = Ok s -> exists s', get_stream (foldl sender hp kvs) i = Ok s' /\ s_id s' = s_id s.
Proof.
  revert hp s. induction kvs as [|kv kvs IH]; intros hp s Hs; [by exists s|]. cbn [foldl]. destruct (sender_get hp kv i s Hs) as (s' & Hs' & E).
  destruct (IH _ _ Hs') as (s'' & ? & ?). exists s''. split; [done|]. congruence.
Qed.
Lemma senders_wire kvs hp : h_wire (foldl sender hp kvs) = h_wire hp.
Proof. revert hp. induction kvs as [|kv kvs IH]; intros hp; [done|]. cbn [foldl]. rewrite IH. unfold sender. by repeat case_match. Qed.
Lemma senders_ctx kvs hp : h_decctx (foldl sender hp kvs) = foldl resized (h_decctx hp) kvs.
Proof. revert hp. induction kvs as [|kv kvs IH]; intros hp; [done|]. cbn [foldl]. rewrite IH. f_equal. unfold sender, resized. by repeat case_match. Qed.

Lemma txsettings_sends hp i s av kvs : settings av kvs -> get_stream hp i = Ok s -> ctx_ok (h_decctx hp) -> (length kvs <= 85)%nat ->
  cmd_txsettings hp i av = Ok (set_wire (foldl sender hp kvs) (h_wire hp ++ frame_bytes (mk_frame (6 * Z.of_nat (length kvs)) (s_id s) TYPE_SETTINGS 0 None MdZero) (kvs_bytes kvs))).
Proof.
  intros H Hs Hc Hn. unfold cmd_txsettings. rewrite Hs. cbn [mbind outcome_bind].
  destruct (settings_sent (length av) av kvs (mk_txset hp (replicate 512 0) 0 0 0) [] H) as (t & -> & [(rest & Hb & _) Hcu Hsz Hfl _] & E); [|cbn [length]; lia|lia|].
  { split; try done. by exists (replicate 512 0). }
  cbn [mbind outcome_bind app] in *. cbn [ts_hp] in E. destruct (senders_get kvs hp i s Hs) as (s' & Hs' & _).
  rewrite E, (write_frame_ok _ i s' _ (kvs_bytes kvs) rest); [| |by rewrite <-Hb|by rewrite Hsz]; [|done].
  rewrite senders_wire, Hsz, Hfl, kvs_length, (Nat2Z.inj_mul 6). done.
Qed.

(** ** The receiving side *)

Definition settled (l : list (option Z)) (kv : Z * Z) : list (option Z) := <[Z.to_nat kv.1 := Some (i32 kv.2)]> l.

Lemma i32_u32 v : 0 <= v < 2 ^ 32 -> u32 (i32 v) = v.
Proof. intros Hv. unfold wraps, wrapu. destruct (_ <? _); Z.to_euclidean_division_equations; lia. Qed.

Lemma settings_loop_ok kvs ctx l rest : Forall (fun kv => 1 <= kv.1 < 7 /\ 0 <= kv.2 < 2 ^ 32) kvs -> ctx_ok ctx -> length l = 18%nat ->
  settings_loop (length kvs) (kvs_bytes kvs ++ rest) ctx l = Ok (foldl resized ctx kvs, foldl settled l kvs).
Proof.
  intros H. revert ctx l. induction H as [|[k v] kvs [Hk Hv] H IH]; intros ctx l Hc Hl; [done|]. cbn [fst snd] in Hk, Hv.
  cbn [length settings_loop kvs_bytes foldl]. unfold kv_bytes. cbn [fst snd]. rewrite <-!app_assoc, be16_dec by lia. cbn [mbind outcome_bind].
  change (drop 2 (be16 k ++ ?x)) with x. rewrite be32_dec by done. cbn [mbind outcome_bind].
  rewrite (proj2 (Z.leb_le k SETTINGS_MAX)) by (unfold SETTINGS_MAX; lia). rewrite writeC_lt by lia. cbn [mbind outcome_bind].
  change (drop 6 (be16 k ++ be32 v ++ ?x)) with x. rewrite i32_u32 by done.
  assert (forall X (F : hpk_ctx -> outcome X), (ctx ← (if k =? SETTINGS_HEADER_TABLE_SIZE then '(r, ctx) ← HPK_ResizeTbl ctx v; _ ← assertC (bool_decide (r = hpk_done)); Ok ctx else Ok ctx); F ctx) = F (resized ctx (k, v))) as ->.
  { intros X F. unfold SETTINGS_HEADER_TABLE_SIZE. destruct (k =? 1) eqn:E; [|unfold resized; cbn [fst]; by rewrite E]. apply Z.eqb_eq in E as ->.
    destruct (resized_ok ctx v Hc Hv) as [-> _]. cbn [mbind outcome_bind]. by rewrite bool_decide_eq_true_2. }
  rewrite IH; [done| |by rewrite length_insert]. by apply resized_ctx_ok.
Qed.

Lemma settings_ranges av kvs : settings av kvs -> Forall (fun kv => 1 <= kv.1 < 7 /\ 0 <= kv.2 < 2 ^ 32) kvs.
Proof. induction 1 as [|av kv avs kvs H _ IH]; constructor; [|done]. by apply setting_range in H as (? & ? & _). Qed.

Lemma parse_settings_ok peer j t sid kvs : get_stream peer j = Ok t -> s_id t = 0 -> ctx_ok (h_encctx peer) ->
  Forall (fun kv => 1 <= kv.1 < 7 /\ 0 <= kv.2 < 2 ^ 32) kvs ->
  let f := incoming sid TYPE_SETTINGS 0 (kvs_bytes kvs) in
  parse_settings peer j f = Ok (set_ctxs peer (foldl resized (h_encctx peer) kvs) (h_decctx peer), set_md f (MdSettings (foldl settled (replicate 18 None) kvs))).
Proof.
  intros Ht Hid Hc Hr f. unfold parse_settings. rewrite Ht. cbn [mbind outcome_bind].
  assert (f_size f = 6 * Z.of_nat (length kvs)) as Hsz by (unfold f, incoming; cbn [f_size]; rewrite kvs_length; lia).
  rewrite Hsz, Hid. replace ((6 * Z.of_nat (length kvs)) `mod` 6) with 0 by (symmetry; rewrite Z.mul_comm; apply Z.mod_mul; lia). cbn [truth Z.eqb negb].
  replace (Z.to_nat (6 * Z.of_nat (length kvs) / 6)) with (length kvs) by (rewrite Z.mul_comm, Z.div_mul, Nat2Z.id by lia; done).
  change (replicate (S (Z.to_nat SETTINGS_MAX)) None) with (replicate 18 (@None Z)).
  assert (settings_loop (length kvs) (default [] (f_data f)) (h_encctx peer) (replicate 18 None) = Ok (foldl resized (h_encctx peer) kvs, foldl settled (replicate 18 None) kvs)) as ->; [|done].
  destruct kvs as [|kv kvs]; [done|]. assert (f_data f = Some (kvs_bytes (kv :: kvs) ++ [0])) as -> by done. by apply settings_loop_ok.
Qed.

(** ** Too many settings *)

Lemma settings_split av k1 k2 : settings av (k1 ++ k2) -> exists a1 a2, av = a1 ++ a2 /\ settings a1 k1 /\ settings a2 k2.
Proof.
  revert av. induction k1 as [|kv k1 IH]; intros av H; [exists [], av; split_and!; [done|constructor|done]|]. inversion H; subst. destruct (IH _ ltac:(eassumption)) as (a1 & a2 & -> & ? & ?).
  eexists (_ ++ a1), a2. rewrite <-app_assoc. split_and!; [done|by constructor|done].
Qed.

Lemma put_over t bytes k v : sent t bytes -> length bytes = 510%nat -> put_setting t k v = Fault FBounds.
Proof.
  intros [(rest & Hb & Hl) Hc _ _ _] Hn. rewrite Hb, length_app in Hl. do 2 (destruct rest as [|? rest]; [simpl in Hl; lia|]). destruct rest; [|simpl in Hl; lia].
  unfold put_setting. rewrite Hb, Hc, vbe16enc_ok by done. cbn [mbind outcome_bind]. unfold vbe32enc.
  assert (forall l x, (length l <= 512)%nat -> writeC l (length bytes + 2) x = @Fault (list Z) FBounds) as -> by (intros; unfold writeC; rewrite decide_False by lia; done); [done|].
  rewrite !length_app. simpl. lia.
Qed.

Lemma setting_over n av kv rest t bytes : setting av kv -> sent t bytes -> length bytes = 510%nat -> txsettings_args (S n) (av ++ rest) t = Fault FBounds.
Proof.
  intros Hav Ht Hn. destruct Hav as [b|s v Hv|s v Hv|s v Hv|s v Hv|s v Hv]; cbn [app txsettings_args]; words;
    try (unfold PUT_KV; rewrite (check_ok s v rest 0) by auto; cbn [mbind outcome_bind]; by rewrite (put_over t bytes) by done).
  cbn [next_arg mbind outcome_bind]. destruct b; words; cbn [mbind outcome_bind]; by rewrite (put_over t bytes) by done.
Qed.

Lemma txsettings_over hp i s av kvs : settings av kvs -> get_stream hp i = Ok s -> ctx_ok (h_decctx hp) -> (85 < length kvs)%nat -> cmd_txsettings hp i av = Fault FBounds.
Proof.
  intros H Hs Hc Hn. unfold cmd_txsettings. rewrite Hs. cbn [mbind outcome_bind]. rewrite <-(take_drop 85 kvs) in H. destruct (settings_split _ _ _ H) as (a1 & a2 & -> & H1 & H2).
  destruct (drop 85 kvs) as [|kv k2] eqn:E; [apply (f_equal length) in E; rewrite length_drop in E; simpl in E; lia|].
  inversion H2 as [|av' ? avs ? Hav Havs]; subst. set (t := mk_txset hp (replicate 512 0) 0 0 0).
  assert (forall n k a t bytes, settings a k -> sent t bytes -> (length bytes + 6 * length k = 510)%nat -> (length a < n)%nat ->
    txsettings_args n (a ++ av' ++ avs) t = Fault FBounds) as G.
  { intros n k a t' bytes Ha. revert n t' bytes. induction Ha as [|x kx xs ks Hx _ IH]; intros n t' bytes Ht' Hb Hl; (destruct n as [|n]; [simpl in Hl; lia|]).
    - cbn [app]. apply (setting_over n av' kv avs t' bytes); [done|done|simpl in Hb; lia].
    - pose proof (setting_range _ _ Hx) as (_ & _ & Hlx). rewrite length_app in Hl. cbn [length] in Hb. rewrite <-app_assoc.
      destruct (setting_sent n x kx (xs ++ av' ++ avs) t' bytes Hx Ht') as (t'' & -> & Ht'' & _); [lia|].
      eapply IH; [done|rewrite length_app; simpl; lia|lia]. }
  rewrite (G _ (take 85 kvs) a1 t []); [done|done| |rewrite length_take; cbn [length]; lia|].
  - split; try done. by exists (replicate 512 0).
  - rewrite !length_app. pose proof (setting_range _ _ Hav) as (_ & _ & Hlx). lia.
Qed.

(** ** From end to end *)
