(* ===== verification/H2Cmds.v ===== *)
(** * Receiving commands and expectations (src/vtc_http2.c)

    What the thread of a stream does with the frames the receiving thread
    queued for it.  A command that finds no frame waits; what the other threads
    do to the connection meanwhile, with a state of their own, is the parameter
    [wait]. *)

From Stdlib Require Import ZArith Lia ZifyBool String.
From stdpp Require Import base option numbers list.
From S2P Require Import Prelude CStr VtcSubr Gzip HpackData HpackTbl HpackInt HpackHuff HpackHdr Vend H2Recv H2Send.
#[local] Open Scope Z_scope.

(** [CHKFRAME]. *)
Definition CHKFRAME (rt wt : Z) : outcome unit := if rt =? wt then Ok tt else Fault FFatal.

(** ** Arguments *)

(** The options of [rxhdrs], [rxcont], [rxdata] and [rxpush]; [some] reads what
    follows "-some". *)
Fixpoint rx_args (some : list (list Z) -> outcome (Z * list (list Z))) (fuel : nat) (av : list (list Z)) (times : Z) (loop : bool) : outcome (Z * bool) :=
  match av, fuel with
  | [], _ => Ok (times, loop)
  | _, O => Fault FFuel
  | a :: av, S fuel =>
      if streq a "-some" then
        '(n, av) ← some av;
        if truth n then rx_args some fuel av n loop else Fault FFatal
      else if streq a "-all" then rx_args some fuel av times true
      else Fault FFatal
  end.

(** [STRTOU32_CHECK(times, av, ...)]; [STRTOU32(times, *av, ...)] at "-some"
    itself; and after [av++]. *)
Definition some_check (av : list (list Z)) : outcome (Z * list (list Z)) := STRTOU32_CHECK 64 av 0.
Definition some_here (av : list (list Z)) : outcome (Z * list (list Z)) := n ← STRTOU32 64 (str "-some"); Ok (n, av).
Definition some_next (av : list (list Z)) : outcome (Z * list (list Z)) := '(s, av) ← next_arg av; n ← STRTOU32 64 s; Ok (n, av).

Section waiting.
Context {W : Type} (wait : nat -> http * W -> outcome (http * W)).

(** ** Taking a frame *)

Definition rxstuff (i : nat) (st : http * W) : outcome (option frame * (http * W)) :=
  s ← get_stream st.1 i;
  st ← (match s_fq s with
        | [] =>
            _ ← assertC (0 <=? h_wf st.1);
            wait i (put_stream (set_hwf st.1 (i32 (h_wf st.1 + 1))) i (set_fq s 1 []), st.2)
        | _ => Ok st
        end);
  s ← get_stream st.1 i;
  match last (s_fq s) with
  | None => Ok (None, st)
  | Some f => Ok (Some f, (put_stream st.1 i (set_frame (set_fq s (s_wf s) (removelast (s_fq s))) None), st.2))
  end.

(** [s->frame = f]. *)
Definition keep_frame (i : nat) (f : option frame) (st : http * W) : outcome (http * W) :=
  s ← get_stream st.1 i; Ok (put_stream st.1 i (set_frame s f), st.2).

(** [do ... while (rcv < times || (loop && !(f->flags & bit)))]: the first frame
    is an [expect], those that follow are [next]. *)
Fixpoint rx_loop (fuel : nat) (i : nat) (expect next bit times : Z) (loop : bool) (rcv : Z) (st : http * W) : outcome (option frame * (http * W)) :=
  match fuel with
  | O => Fault FFuel
  | S fuel =>
      '(f, st) ← rxstuff i st;
      match f with
      | None => Ok (None, st)
      | Some f =>
          let rcv := u32 (rcv + 1) in
          _ ← CHKFRAME (f_type f) expect;
          if (rcv <? times) || loop && negb (flag f bit) then rx_loop fuel i next next bit times loop rcv st else Ok (Some f, st)
      end
  end.

Definition cmd_rxhdrs (fuel : nat) (i : nat) (av : list (list Z)) (st : http * W) : outcome (http * W) :=
  '(times, loop) ← rx_args some_check (length av) av 1 false;
  '(f, st) ← rx_loop fuel i TYPE_HEADERS TYPE_CONTINUATION END_HEADERS times loop 0 st;
  keep_frame i f st.

Definition cmd_rxcont (fuel : nat) (i : nat) (av : list (list Z)) (st : http * W) : outcome (http * W) :=
  '(times, loop) ← rx_args some_here (length av) av 1 false;
  '(f, st) ← rx_loop fuel i TYPE_CONTINUATION TYPE_CONTINUATION END_HEADERS times loop 0 st;
  keep_frame i f st.

Definition cmd_rxdata (fuel : nat) (i : nat) (av : list (list Z)) (st : http * W) : outcome (http * W) :=
  '(times, loop) ← rx_args some_next (length av) av 1 false;
  '(f, st) ← rx_loop fuel i TYPE_DATA TYPE_DATA END_STREAM times loop 0 st;
  keep_frame i f st.

Definition cmd_rxpush (fuel : nat) (i : nat) (av : list (list Z)) (st : http * W) : outcome (http * W) :=
  '(times, loop) ← rx_args some_check (length av) av 1 false;
  '(f, st) ← rx_loop fuel i TYPE_PUSH_PROMISE TYPE_CONTINUATION END_HEADERS times loop 0 st;
  match f with None => Ok st | Some _ => keep_frame i f st end.

(** [do ... while (f->type == TYPE_WINDOW_UPDATE)]. *)
Fixpoint skip_winup (fuel : nat) (i : nat) (st : http * W) : outcome (option frame * (http * W)) :=
  match fuel with
  | O => Fault FFuel
  | S fuel =>
      '(f, st) ← rxstuff i st;
      match f with
      | None => Ok (None, st)
      | Some f => if f_type f =? TYPE_WINDOW_UPDATE then skip_winup fuel i st else Ok (Some f, st)
      end
  end.

(** [while (!(f->flags & bit))] with frames of one type; the value is the last
    frame, or NULL. *)
Fixpoint rx_until (fuel : nat) (i : nat) (ty bit : Z) (f : frame) (st : http * W) : outcome (option frame * (http * W)) :=
  if flag f bit then Ok (Some f, st)
  else
    match fuel with
    | O => Fault FFuel
    | S fuel =>
        '(g, st) ← rxstuff i st;
        match g with
        | None => Ok (None, st)
        | Some g => _ ← CHKFRAME (f_type g) ty; rx_until fuel i ty bit g st
        end
    end.

(** [while (!end_stream)]: the first frame has no END_STREAM. *)
Definition rx_body (fuel : nat) (i : nat) (st : http * W) : outcome (option frame * (http * W)) :=
  '(g, st) ← rxstuff i st;
  match g with
  | None => Ok (None, st)
  | Some g => _ ← CHKFRAME (f_type g) TYPE_DATA; rx_until fuel i TYPE_DATA END_STREAM g st
  end.

(** [av] has the name of the command. *)
Definition cmd_rxmsg (fuel : nat) (i : nat) (av : list (list Z)) (st : http * W) : outcome (http * W) :=
  '(name, _) ← next_arg av;
  _ ← (if streq name "rxreq" then if h_server st.1 then Ok tt else Fault FFatal
       else if h_server st.1 then Fault FFatal else Ok tt);
  '(f, st) ← skip_winup fuel i st;
  match f with
  | None => Ok st
  | Some f =>
      _ ← CHKFRAME (f_type f) TYPE_HEADERS;
      let end_stream := flag f END_STREAM in
      '(g, st) ← rx_until fuel i TYPE_CONTINUATION END_HEADERS f st;
      match g with
      | None => Ok st
      | Some g =>
          '(g, st) ← (if end_stream then Ok (Some g, st) else rx_body fuel i st);
          keep_frame i g st
      end
  end.

(** ** Frames of one kind *)

Definition cmd_rxwinup (i : nat) (st : http * W) : outcome (http * W) :=
  '(f, st) ← rxstuff i st;
  st ← keep_frame i f st;
  match f with
  | None => Fault FAssert
  | Some f =>
      _ ← CHKFRAME (f_type f) TYPE_WINDOW_UPDATE;
      match f_md f with
      | MdWinup n =>
          s ← get_stream st.1 i;
          let hp := if s_id s =? 0 then set_wins st.1 (h_win_self st.1) (mk_window (w_init (h_win_peer st.1)) (i64 (w_size (h_win_peer st.1) + n))) else st.1 in
          Ok (put_stream hp i (set_win s (s_win_self s) (i64 (s_win_peer s + n))), st.2)
      | _ => Fault FUndef
      end
  end.

(** A negative double has no value as [uint32_t]. *)
Definition init_win_peer (hp : http) (val : Z) : http :=
  set_wins (set_streams hp (map (fun s => set_win s (s_win_self s) (i64 (s_win_peer s + (val - w_init (h_win_peer hp))))) (h_streams hp)))
    (h_win_self hp) (mk_window val (w_size (h_win_peer hp))).

Definition cmd_rxsettings (i : nat) (st : http * W) : outcome (http * W) :=
  '(f, st) ← rxstuff i st;
  st ← keep_frame i f st;
  match f with
  | None => Fault FAssert
  | Some f =>
      _ ← CHKFRAME (f_type f) TYPE_SETTINGS;
      match f_md f with
      | MdSettings l =>
          v ← readC l (Z.to_nat SETTINGS_INITIAL_WINDOW_SIZE);
          match v with
          | None => Ok st
          | Some v => if v <? 0 then Fault FUndef else Ok (init_win_peer st.1 v, st.2)
          end
      | _ => Fault FUndef
      end
  end.

(** [RXFUNC], for [rxrst], [rxping] and [rxgoaway]. *)
Definition RXFUNC (ty : Z) (i : nat) (st : http * W) : outcome (http * W) :=
  '(f, st) ← rxstuff i st;
  st ← keep_frame i f st;
  match f with
  | Some f => if f_type f =? ty then Ok st else Fault FFatal
  | None => Ok st
  end.

Definition cmd_rxprio (i : nat) (st : http * W) : outcome (http * W) :=
  if truth (h_no_prio st.1) then Ok st else RXFUNC TYPE_PRIORITY i st.

Definition cmd_rxframe (i : nat) (st : http * W) : outcome (http * W) :=
  '(f, st) ← rxstuff i st;
  match f with Some _ => Ok st | None => Fault FFatal end.
End waiting.
