(* ===== verification/H2Expect.v ===== *)
(** * Expectations and the life of a connection (src/vtc_http2.c)

    The words of [expect] are looked up in the state of the connection, and the
    rest of what a stream is asked for: raw bytes, decompression, its creation,
    and the settings of an upgrade. *)

From Stdlib Require Import ZArith Lia ZifyBool String.
From stdpp Require Import base option numbers list.
From S2P Require Import Prelude CStr VtcSubr Gzip HpackData HpackTbl HpackHdr Vend H2Recv H2Send.
#[local] Open Scope Z_scope.

(** What [cmd_var_resolve] returns: NULL, its argument [buf], or a string. *)
Inductive var := VNull | VBuf | VStr (s : list Z).

Definition tolower (c : Z) : Z := if (65 <=? c) && (c <=? 90) then c + 32 else c.

(** [h] runs to the end of the array. *)
Fixpoint find_header (h : list hdr_slots) (k : list Z) : outcome var :=
  match h with
  | [] => Fault FBounds
  | x :: h =>
      if bool_decide (hs_t x = hpk_unset) then Ok VNull
      else
        let key := sl_txt (hs_key x) in
        if (Z.of_nat (length k) =? txt_len key) && bool_decide (map tolower (default [] (txt_ptr key)) = map tolower k) then
          if sl_freed (hs_value x) then Fault FBounds
          else Ok (match txt_ptr (sl_txt (hs_value x)) with Some v => VStr (cstr v) | None => VNull end)
        else find_header h k
  end.

(** [1 == sscanf(spec, "[%u]<suffix>%n", &idx, &n) && spec[n] == '\0']. *)
Definition scan_idx (spec : list Z) (suffix : string) : option Z :=
  match spec with
  | 91 :: r =>
      let p := skip_to isspace r in
      let '(neg, p) := match p with 45 :: p => (true, p) | 43 :: p => (false, p) | _ => (false, p) end in
      match p with
      | c :: _ =>
          if isdigit c then
            let '(v, e) := ul_span 10 0 p in
            if bool_decide (e = str "]" ++ str suffix) then Some (u32 (if 2 ^ 64 <=? v then 2 ^ 64 - 1 else if neg : bool then - v else v)) else None
          else None
      | [] => None
      end
  | _ => None
  end.

Definition var_res : Type := var * list Z * http.

Section resolve.
Context (hp : http) (s : stream) (buf : list Z).

Definition ret (v : var) : outcome var_res := Ok (v, buf, hp).
Definition ret_str (o : option (list Z)) : outcome var_res := ret (match o with Some d => VStr (cstr d) | None => VNull end).
(** [snprintf(buf, 20, ...)]. *)
Definition ret_buf (t : list Z) : outcome var_res := Ok (VBuf, snprintf 20 t, hp).
Definition RETURN_BUFFED (v : Z) : outcome var_res := ret_buf (fmt_d v).
Definition ret_bool (b : bool) : outcome var_res := ret_buf (str (if b then "true" else "false")).
Definition CHECK_LAST_FRAME (ty : Z) : outcome frame :=
  match s_frame s with
  | Some f => if f_type f =? ty then Ok f else Fault FFatal
  | None => Fault FFatal
  end.
Definition RETURN_SETTINGS (l : list (option Z)) (idx : Z) : outcome var_res :=
  v ← readC l (Z.to_nat idx);
  match v with None => ret VNull | Some v => RETURN_BUFFED v end.

(** The first byte of the union [md]. *)
Definition md_padded (f : frame) : outcome Z :=
  match f_md f with
  | MdZero => Ok 0
  | MdPadded n => Ok n
  | MdPromised n => Ok (n `mod` 256)
  | _ => Fault FUndef
  end.

(** The sections of [cmd_var_resolve], last one first: each hands on to the
    next the part of the word it has not looked at. *)
Definition resolve_error (spec : list Z) : outcome var_res :=
  match find_err h2_errs 0 spec with Some n => ret (VStr (fmt_d n)) | None => ret (VStr spec) end.

Definition resolve_msg (spec : list Z) : outcome var_res :=
  if starts_with spec "req." || starts_with spec "resp." then
    q ← readC spec 2;
    let '(h, spec) := if q =? 113 then (s_req s, drop 4 spec) else (s_resp s, drop 5 spec) in
    let find k := v ← find_header h k; ret v in
    if streq spec "body" then ret_str (option_map (fun b => b ++ [0]) (s_body s))
    else if streq spec "bodylen" then RETURN_BUFFED (Z.of_nat (length (default [] (s_body s))))
    else if streq spec "status" then find (str ":status")
    else if streq spec "url" then find (str ":path")
    else if streq spec "method" then find (str ":method")
    else if streq spec "authority" then find (str ":authority")
    else if streq spec "scheme" then find (str ":scheme")
    else if starts_with spec "http." then find (drop 5 spec)
    else ret VNull
  else resolve_error spec.

Definition resolve_tbl (spec : list Z) : outcome var_res :=
  if starts_with spec "tbl.dec" || starts_with spec "tbl.enc" then
    let dec := bool_decide (spec !! 4%nat = Some 100) in
    let ctx := if dec then h_decctx hp else h_encctx hp in
    let spec := drop 7 spec in
    let get idx (field : hdr_ref -> option (list Z)) :=
      '(h, ctx) ← HPK_GetHdr ctx (u32 (idx + 61));
      let hp := if dec then set_ctxs hp (h_encctx hp) ctx else set_ctxs hp ctx (h_decctx hp) in
      Ok (match h with Some h => match field h with Some d => VStr (cstr d) | None => VNull end | None => VNull end, buf, hp) in
    match scan_idx spec ".key", scan_idx spec ".value" with
    | Some idx, _ => get idx ref_key
    | None, Some idx => get idx ref_value
    | None, None =>
        if streq spec ".size" then RETURN_BUFFED (HPK_GetTblSize ctx)
        else if streq spec ".maxsize" then RETURN_BUFFED (HPK_GetTblMaxSize ctx)
        else if streq spec ".length" then RETURN_BUFFED (HPK_GetTblLength ctx)
        else resolve_msg spec
    end
  else resolve_msg spec.

Definition resolve_stream (spec : list Z) : outcome var_res :=
  if streq spec "stream.window" then RETURN_BUFFED (if truth (s_id s) then s_win_self s else w_size (h_win_self hp))
  else if streq spec "stream.peer_window" then RETURN_BUFFED (if truth (s_id s) then s_win_peer s else w_size (h_win_peer hp))
  else if streq spec "stream.weight" then if truth (s_id s) then RETURN_BUFFED (s_weight s) else ret VNull
  else if streq spec "stream.dependency" then if truth (s_id s) then RETURN_BUFFED (s_dependency s) else ret VNull
  else resolve_tbl spec.

Definition resolve_frame (spec : list Z) : outcome var_res :=
  if starts_with spec "frame." then
    let spec := drop 6 spec in
    match s_frame s with
    | None => Fault FFatal
    | Some f =>
        if streq spec "data" then ret_str (f_data f)
        else if streq spec "type" then RETURN_BUFFED (f_type f)
        else if streq spec "size" then RETURN_BUFFED (f_size f)
        else if streq spec "stream" then RETURN_BUFFED (f_stid f)
        else if streq spec "padding" then
          if (f_type f =? TYPE_DATA) || (f_type f =? TYPE_HEADERS) || (f_type f =? TYPE_PUSH_PROMISE)
          then n ← md_padded f; RETURN_BUFFED n else Fault FFatal
        else resolve_stream spec
    end
  else resolve_stream spec.

Definition resolve_goaway (spec : list Z) : outcome var_res :=
  if starts_with spec "goaway." then
    let spec := drop 7 spec in
    f ← CHECK_LAST_FRAME TYPE_GOAWAY;
    match f_md f with
    | MdGoaway err stream debug =>
        if streq spec "err" then RETURN_BUFFED err
        else if streq spec "laststream" then RETURN_BUFFED stream
        else if streq spec "debug" then ret_str debug
        else resolve_frame spec
    | _ => Fault FUndef
    end
  else resolve_frame spec.

Definition resolve_push (spec : list Z) : outcome var_res :=
  if streq spec "push.id" then
    f ← CHECK_LAST_FRAME TYPE_PUSH_PROMISE;
    match f_md f with MdPromised n => RETURN_BUFFED n | _ => Fault FUndef end
  else resolve_goaway spec.

Definition resolve_settings (spec : list Z) : outcome var_res :=
  if starts_with spec "settings." then
    f ← CHECK_LAST_FRAME TYPE_SETTINGS;
    let spec := drop 9 spec in
    match f_md f with
    | MdSettings l =>
        if streq spec "ack" then ret_bool (flag f ACK)
        else if streq spec "push" then
          v ← readC l (Z.to_nat SETTINGS_ENABLE_PUSH);
          match v with None => ret VNull | Some v => ret_bool (v =? 1) end
        else if streq spec "hdrtbl" then RETURN_SETTINGS l 1
        else if streq spec "maxstreams" then RETURN_SETTINGS l 3
        else if streq spec "winsize" then RETURN_SETTINGS l 4
        else if streq spec "framesize" then RETURN_SETTINGS l 5
        else if streq spec "hdrsize" then RETURN_SETTINGS l 6
        else resolve_push spec
    | _ => Fault FUndef
    end
  else resolve_push spec.

Definition cmd_var_resolve (spec : list Z) : outcome var_res :=
  if streq spec "ping.data" then
    f ← CHECK_LAST_FRAME TYPE_PING;
    match f_md f with MdPing d _ => ret (VStr (cstr d)) | _ => Fault FUndef end
  else if streq spec "ping.ack" then f ← CHECK_LAST_FRAME TYPE_PING; ret_bool (flag f ACK)
  else if streq spec "winup.size" then
    f ← CHECK_LAST_FRAME TYPE_WINDOW_UPDATE;
    match f_md f with MdWinup n => RETURN_BUFFED n | _ => Fault FUndef end
  else if streq spec "prio.stream" then
    f ← CHECK_LAST_FRAME TYPE_PRIORITY;
    match f_md f with MdPrio n _ _ => RETURN_BUFFED n | _ => Fault FUndef end
  else if streq spec "prio.exclusive" then
    f ← CHECK_LAST_FRAME TYPE_PRIORITY;
    match f_md f with MdPrio _ x _ => ret_bool (truth x) | _ => Fault FUndef end
  else if streq spec "prio.weight" then
    f ← CHECK_LAST_FRAME TYPE_PRIORITY;
    match f_md f with MdPrio _ _ w => RETURN_BUFFED w | _ => Fault FUndef end
  else if streq spec "rst.err" then
    f ← CHECK_LAST_FRAME TYPE_RST_STREAM;
    match f_md f with MdRst e => RETURN_BUFFED e | _ => Fault FUndef end
  else resolve_settings spec.
End resolve.

(** The string a result stands for once [buf] holds [buf]. *)
Definition var_str (v : var) (buf : list Z) : option (list Z) :=
  match v with VNull => None | VBuf => Some buf | VStr s => Some s end.

Section expect.
Context (VRE_compile_ok : list Z -> bool) (VRE_match : list Z -> list Z -> bool).

(** Both words are resolved to the same [buf], which is [buf0] before. *)
Definition cmd_expect (buf0 : list Z) (hp : http) (i : nat) (av : list (list Z)) : outcome http :=
  match av with
  | [a0; cmp; a2] =>
      s ← get_stream hp i;
      '(lhs, buf, hp) ← cmd_var_resolve hp s buf0 a0;
      '(rhs, buf, hp) ← cmd_var_resolve hp s buf a2;
      _ ← vtc_expect VRE_compile_ok VRE_match (var_str lhs buf) cmp (var_str rhs buf);
      Ok hp
  | _ => Fault FAssert
  end.
End expect.

(** ** Other commands *)

Definition cmd_sendhex (hp : http) (av : list (list Z)) : outcome http :=
  match av with
  | [a] => d ← vtc_hex_to_bin a; Ok (set_wire hp (h_wire hp ++ d))
  | _ => Fault FAssert
  end.

(** [s->body] is a block of [bodylen] bytes and a NUL. *)
Definition cmd_gunzip {zst} (inflateInit2 : option zst) inflate (fuel : nat) (hp : http) (i : nat) : outcome http :=
  s ← get_stream hp i;
  '(d, n) ← vtc_gunzip zst inflateInit2 inflate fuel (h_fatal hp) (option_map (fun b => b ++ [0]) (s_body s)) (Z.of_nat (length (default [] (s_body s))));
  Ok (put_stream hp i (set_body s (Some (take (Z.to_nat n) d)))).

(** ** Streams and connections *)

(** A stream from [ALLOC_OBJ]. *)
Definition stream_zero : stream := mk_stream 0 0 0 0 None (replicate MAX_HDR hdr_zero) (replicate MAX_HDR hdr_zero) 0 0 None [].

Definition stream_new (name : list Z) (h : http) : outcome http :=
  let name := if streq name "next" then if 0 <? h_last_stream h then snprintf 20 (fmt_d (i32 (h_last_stream h + 2))) else str "1" else name in
  id ← STRTOU32 32 name;
  if truth (Z.land id (2 ^ 31)) then Fault FFatal
  else
    let s := mk_stream id (i64 (w_init (h_win_self h))) (i64 (w_init (h_win_peer h))) 0 None (s_req stream_zero) (s_resp stream_zero) 0 16 None [] in
    Ok (mk_http (s :: h_streams h) (h_win_self h) (h_win_peer h) (h_encctx h) (h_decctx h) (h_server h) (h_fatal h) (h_wf h) id (h_no_prio h) (h_wire h) (h_gz h)).

(** [stream_wait] after its thread has ended: the queue and the frame go. *)
Definition stream_wait (hp : http) (i : nat) : outcome http :=
  s ← get_stream hp i; Ok (put_stream hp i (set_frame (set_fq s (s_wf s) []) None)).

(** [stream_delete] of the stream [i], with its headers. *)
Definition stream_delete (hp : http) (i : nat) : outcome http :=
  s ← get_stream hp i;
  _ ← clean_headers (s_req s);
  _ ← clean_headers (s_resp s);
  _ ← assertC (match s_frame s with None => true | Some _ => false end);
  Ok (set_streams hp (delete i (h_streams hp))).

Definition start_h2 (server : bool) (fatal no_prio : Z) (g : gz) (wire : list Z) : http :=
  mk_http [] (mk_window 65535 65535) (mk_window 65535 65535) (HPK_NewCtx 4096) (HPK_NewCtx 4096) server fatal 0 0 no_prio wire g.

(** *** The settings of an upgrade *)

Definition b64_val (c : Z) : outcome Z :=
  if (65 <=? c) && (c <=? 90) then Ok (c - 65)
  else if (97 <=? c) && (c <=? 122) then Ok (c - 97 + 26)
  else if (48 <=? c) && (c <=? 57) then Ok (c - 48 + 52)
  else if c =? 45 then Ok 62
  else if c =? 95 then Ok 63
  else Fault FFatal.

(** [for (shift = 42; shift >= 0; shift -= 6)]; the end of the string is a NUL. *)
Fixpoint b64_group (n : nat) (s : list Z) (v : Z) : outcome (Z * list Z) :=
  match n with
  | O => Ok (v, s)
  | S n =>
      vv ← b64_val (default 0 (head s));
      b64_group n (tail s) (Z.lor v (u64 (Z.shiftl vv (6 * Z.of_nat n))))
  end.

Fixpoint b64_settings (fuel : nat) (hp : http) (s : list Z) : outcome http :=
  match s, fuel with
  | [], _ => Ok hp
  | _, O => Fault FFuel
  | _, S fuel =>
      '(v, s) ← b64_group 8 s 0;
      let i := u16 (Z.shiftr v 32) in
      let v := Z.land v 65535 in
      let hp := if i =? SETTINGS_NO_RFC7540_PRIORITIES
                then mk_http (h_streams hp) (h_win_self hp) (h_win_peer hp) (h_encctx hp) (h_decctx hp) (h_server hp) (h_fatal hp) (h_wf hp) (h_last_stream hp) (i32 v) (h_wire hp) (h_gz hp)
                else hp in
      hp ← (if i =? SETTINGS_HEADER_TABLE_SIZE then
              '(r, ctx) ← HPK_ResizeTbl (if h_server hp then h_encctx hp else h_decctx hp) v;
              if bool_decide (r = hpk_done)
              then Ok (if h_server hp then set_ctxs hp ctx (h_decctx hp) else set_ctxs hp (h_encctx hp) ctx) else Fault FFatal
            else Ok hp);
      b64_settings fuel hp s
  end.
