(* ===== verification/H2Obj.v ===== *)
(** * Sending messages (src/vtc_http2.c, cmd_tx11obj)

    [txreq], [txresp], [txpush] and [txcont]: the options, the header block they
    encode into a buffer, and the frames.  [mem] is the block of [BUF_SIZE] bytes
    that [malloc] gives; the contents of files and zlib are parameters. *)

From Stdlib Require Import ZArith Lia ZifyBool String.
From stdpp Require Import base option numbers list.
From S2P Require Import Prelude CStr VtcSubr Gzip HpackData HpackInt HpackTbl HpackHuff HpackHdr Vend H2Recv H2Send.
#[local] Open Scope Z_scope.

Definition BUF_SIZE : Z := 1024 * 2048.

(** The variables of the function: [to_pre] is what comes before the memory of
    the iterator, the four bytes of the promised stream. *)
Record txobj := mk_txobj {
  to_hp : http;
  to_pre : list Z;
  to_iter : hpk_iter;
  to_flags : Z;
  to_status_done : bool;
  to_path_done : bool;
  to_method_done : bool;
  to_scheme_done : bool;
  to_stid : Z;
  to_weight : Z;
  to_exclusive : Z;
  to_body : option (list Z);
  to_pad : option (list Z) }.

Definition to_enc (o : txobj) (hp : http) (it : hpk_iter) : txobj :=
  mk_txobj hp (to_pre o) it (to_flags o) (to_status_done o) (to_path_done o) (to_method_done o) (to_scheme_done o) (to_stid o) (to_weight o) (to_exclusive o) (to_body o) (to_pad o).
Definition to_fl (o : txobj) (fl : Z) : txobj :=
  mk_txobj (to_hp o) (to_pre o) (to_iter o) fl (to_status_done o) (to_path_done o) (to_method_done o) (to_scheme_done o) (to_stid o) (to_weight o) (to_exclusive o) (to_body o) (to_pad o).
Definition to_done (o : txobj) (st pa me sc : bool) : txobj :=
  mk_txobj (to_hp o) (to_pre o) (to_iter o) (to_flags o) (st || to_status_done o) (pa || to_path_done o) (me || to_method_done o) (sc || to_scheme_done o) (to_stid o) (to_weight o) (to_exclusive o) (to_body o) (to_pad o).
Definition to_set_body (o : txobj) (b : option (list Z)) : txobj :=
  mk_txobj (to_hp o) (to_pre o) (to_iter o) (to_flags o) (to_status_done o) (to_path_done o) (to_method_done o) (to_scheme_done o) (to_stid o) (to_weight o) (to_exclusive o) b (to_pad o).
Definition to_set_pad (o : txobj) (p : list Z) : txobj :=
  mk_txobj (to_hp o) (to_pre o) (to_iter o) (to_flags o) (to_status_done o) (to_path_done o) (to_method_done o) (to_scheme_done o) (to_stid o) (to_weight o) (to_exclusive o) (to_body o) (Some p).
Definition to_set_pre (o : txobj) (p : list Z) : txobj :=
  mk_txobj (to_hp o) p (to_iter o) (to_flags o) (to_status_done o) (to_path_done o) (to_method_done o) (to_scheme_done o) (to_stid o) (to_weight o) (to_exclusive o) (to_body o) (to_pad o).
Definition to_prio (o : txobj) (stid weight exclusive : Z) : txobj :=
  mk_txobj (to_hp o) (to_pre o) (to_iter o) (Z.lor (to_flags o) PRIORITY) (to_status_done o) (to_path_done o) (to_method_done o) (to_scheme_done o) stid weight exclusive (to_body o) (to_pad o).

(** [assert(HPK_EncHdr(iter, &hdr) != hpk_err)]. *)
Definition enc_hdr (o : txobj) (h : hpk_hdr) : outcome txobj :=
  '(r, it, ctx) ← HPK_EncHdr (to_iter o) (h_encctx (to_hp o)) h;
  _ ← assertC (negb (bool_decide (r = hpk_err)));
  Ok (to_enc o (set_ctxs (to_hp o) ctx (h_decctx (to_hp o))) it).

(** [ENC] of a header that is [hpk_not] and plain. *)
Definition plain_hdr (k v : list Z) : hpk_hdr := mk_hdr (mk_txt (Some k) 0) (mk_txt (Some v) 0) hpk_not 0.
Definition ENC (o : txobj) (k v : list Z) : outcome txobj := enc_hdr o (plain_hdr k v).
Definition ENC_arg (o : txobj) (k : string) (av : list (list Z)) : outcome (txobj * list (list Z)) :=
  match av with
  | [] => Fault FAssert
  | v :: av => o ← ENC o (str k) v; Ok (o, av)
  end.

(** [STR_ENC]: the value of [huff] and the string. *)
Definition STR_ENC (av : list (list Z)) : outcome (hpk_txt * list (list Z)) :=
  '(a, av) ← next_arg av;
  huff ← (if streq a "plain" then Ok 0 else if streq a "huf" then Ok 1 else Fault FFatal);
  match av with
  | [] => Fault FAssert
  | s :: av => Ok (mk_txt (Some s) huff, av)
  end.

(** The first argument of [-litIdxHdr] and [-litHdr]. *)
Definition lit_type (av : list (list Z)) : outcome (hpk_indexed * list (list Z)) :=
  '(a, av) ← next_arg av;
  if streq a "inc" then Ok (hpk_inc, av)
  else if streq a "not" then Ok (hpk_not, av)
  else if streq a "never" then Ok (hpk_never, av)
  else Fault FFatal.

Section tx11.
Context (zst : Type) (deflateInit2 : Z -> option zst) (deflate : flush -> zst -> list Z -> nat -> Z * list Z * list Z * zst).
Context (stop_bit : option (zst -> Z)) (rnd : Z -> Z) (zfuel : nat).
Context (readfile : list Z -> option (list Z)).

(** The options of all four. *)
Definition tx_option (cmd : string) (o : txobj) (a : list Z) (av : list (list Z)) : outcome (option (txobj * list (list Z))) :=
  let isc (c : string) := (cmd =? c)%string in
  let enc k (don : txobj -> txobj) := '(o, av) ← ENC_arg o k av; Ok (Some (don o, av)) in
  if streq a "-noadd" then Ok (Some (to_done o true true true true, av))
  else if streq a "-status" && isc "txresp"%string then enc ":status"%string (fun o => to_done o true false false false)
  else if streq a "-url" && (isc "txreq"%string || isc "txpush"%string) then enc ":path"%string (fun o => to_done o false true false false)
  else if (streq a "-method" || streq a "-req") && (isc "txreq"%string || isc "txpush"%string) then enc ":method"%string (fun o => to_done o false false true false)
  else if streq a "-scheme" && (isc "txreq"%string || isc "txpush"%string) then enc ":scheme"%string (fun o => to_done o false false false true)
  else if streq a "-hdr" then
    match av with
    | [] => Fault FBounds
    | [_] => Fault FFatal
    | k :: v :: av => o ← ENC o k v; Ok (Some (o, av))
    end
  else if streq a "-idxHdr" then
    '(i, av) ← STRTOU32_CHECK 32 av 0;
    o ← enc_hdr o (mk_hdr txt_null txt_null hpk_idx i); Ok (Some (o, av))
  else if streq a "-litIdxHdr" then
    '(t, av) ← lit_type av;
    '(i, av) ← STRTOU32_CHECK 32 av 0;
    '(v, av) ← STR_ENC av;
    o ← enc_hdr o (mk_hdr txt_null v t i); Ok (Some (o, av))
  else if streq a "-litHdr" then
    '(t, av) ← lit_type av;
    '(k, av) ← STR_ENC av;
    '(v, av) ← STR_ENC av;
    o ← enc_hdr o (mk_hdr k v t 0); Ok (Some (o, av))
  else if streq a "-nostrend" then Ok (Some (to_fl o (Z.land (to_flags o) (Z.lnot END_STREAM)), av))
  else if streq a "-nohdrend" then Ok (Some (to_fl o (Z.land (to_flags o) (Z.lnot END_HEADERS)), av))
  else if streq a "-promised" && isc "txpush"%string then
    '(pstid, av) ← STRTOU32_CHECK 32 av 31;
    p ← vbe32enc (to_pre o) 0 pstid; Ok (Some (to_set_pre o p, av))
  else if streq a "-pad" && negb (isc "txcont"%string) then
    _ ← assertC (bool_decide (to_pad o = None));
    match av with [] => Fault FAssert | p :: av => Ok (Some (to_set_pad o p, av)) end
  else if streq a "-padlen" && negb (isc "txcont"%string) then
    _ ← assertC (bool_decide (to_pad o = None));
    match av with [] => Fault FAssert | n :: av => p ← synth_body n None; Ok (Some (to_set_pad o p, av)) end
  else Ok None.

(** The options of [txreq] and [txresp] that are left. *)
Definition body_option (o : txobj) (a : list Z) (av : list (list Z)) : outcome (option (txobj * list (list Z))) :=
  let with_body b av := Ok (Some (to_set_body (to_fl o (Z.land (to_flags o) (Z.lnot END_STREAM))) (Some b), av)) in
  if streq a "-body" then
    _ ← assertC (bool_decide (to_body o = None));
    match av with [] => Fault FAssert | b :: av => with_body b av end
  else if streq a "-bodyfrom" then
    _ ← assertC (bool_decide (to_body o = None));
    '(n, av) ← next_arg av;
    match readfile n with
    | None => Fault FAssert
    | Some b => _ ← assertC (Z.of_nat (length b) <? 2147483647); with_body b av
    end
  else if streq a "-bodylen" then
    _ ← assertC (bool_decide (to_body o = None));
    match av with [] => Fault FAssert | n :: av => b ← synth_body n None; with_body b av end
  else if starts_with a "-gzip" then
    '(i, g, b) ← vtc_gzip_cmd zst deflateInit2 deflate stop_bit rnd zfuel (h_gz (to_hp o)) (h_fatal (to_hp o)) (a :: av);
    let o := to_enc o (set_hgz (to_hp o) g) (to_iter o) in
    if i =? 0 then Ok None
    else
      '(_, av) ← next_arg av;
      match b with
      | Some b =>
          o ← ENC (to_set_body o (Some b)) (str ":content-encoding") (str "gzip");
          Ok (Some (to_fl o (Z.land (to_flags o) (Z.lnot END_STREAM)), av))
      | None => Ok (Some (o, av))
      end
  else if streq a "-dep" then
    '(n, av) ← STRTOU32_CHECK 32 av 0; Ok (Some (to_prio o n (to_weight o) (to_exclusive o), av))
  else if streq a "-ex" then Ok (Some (to_prio o (to_stid o) (to_weight o) (2 ^ 31), av))
  else if streq a "-weight" then
    '(n, av) ← STRTOU32_CHECK 32 av 8; Ok (Some (to_prio o (to_stid o) n (to_exclusive o), av))
  else Ok None.

Fixpoint tx_options (fuel : nat) (cmd : string) (o : txobj) (av : list (list Z)) : outcome txobj :=
  match av, fuel with
  | [], _ => Ok o
  | _, O => Fault FFuel
  | a :: av, S fuel =>
      r ← tx_option cmd o a av;
      r ← (match r with
           | Some _ => Ok r
           | None => if (cmd =? "txreq")%string || (cmd =? "txresp")%string then body_option o a av else Ok None
           end);
      match r with Some (o, av) => tx_options fuel cmd o av | None => Fault FFatal end
  end.

(** The headers that no option gave. *)
Definition tx_defaults (o : txobj) : outcome txobj :=
  o ← (if to_status_done o then Ok o else ENC o (str ":status") (str "200"));
  o ← (if to_path_done o then Ok o else ENC o (str ":path") (str "/"));
  o ← (if to_method_done o then Ok o else ENC o (str ":method") (str "GET"));
  if to_scheme_done o then Ok o else ENC o (str ":scheme") (str "http").

(** The priority before the header block. *)
Definition tx_priority (o : txobj) (i : nat) (buf : list Z) (size : Z) : outcome (http * list Z * Z) :=
  if truth (Z.land (to_flags o) PRIORITY) then
    s ← get_stream (to_hp o) i;
    let s := set_prio s (i32 (to_stid o)) (Z.land (to_weight o) 255) in
    let hp := put_stream (to_hp o) i s in
    _ ← assertC (size + 5 <? BUF_SIZE);
    buf ← memmove buf 5 (Z.to_nat size);
    buf ← vbe32enc buf 0 (Z.lor (to_stid o) (to_exclusive o));
    buf ← writeC buf 4 (s_weight s);
    Ok (if truth (to_exclusive o) then exclusive_stream_dependency hp s else hp, buf, size + 5)
  else Ok (to_hp o, buf, size).

(** The padding around what is there. *)
Definition tx_padding (pad : option (list Z)) (flags : Z) (buf : list Z) (size : Z) : outcome (list Z * Z * Z) :=
  match pad with
  | None => Ok (buf, size, flags)
  | Some pad =>
      let n := Z.of_nat (length pad) in
      if 255 <? n then Fault FFatal
      else
        _ ← assertC (size + n <? BUF_SIZE);
        buf ← memmove buf 1 (Z.to_nat size);
        buf ← writeC buf 0 n;
        buf ← memcpy buf (Z.to_nat (size + 1)) pad;
        Ok (buf, size + 1 + n, Z.lor flags PADDED)
  end.

(** The type, the flags and what is done from the start, by the command. *)
Definition tx_start (cmd : string) (hp : http) (mem : list Z) : outcome (Z * txobj) :=
  let o fl done_st done_m := mk_txobj hp [] (mk_iter mem 0) fl done_st done_m done_m done_m 0 16 0 None None in
  if (cmd =? "txreq")%string then
    if h_server hp then Fault FFatal else Ok (TYPE_HEADERS, o (Z.lor END_HEADERS END_STREAM) true false)
  else if (cmd =? "txresp")%string then
    if h_server hp then Ok (TYPE_HEADERS, o (Z.lor END_HEADERS END_STREAM) false true) else Fault FFatal
  else if (cmd =? "txpush")%string then
    if h_server hp then
      mem ← writeC mem 0 0;
      Ok (TYPE_PUSH_PROMISE, mk_txobj hp (take 4 mem) (mk_iter (drop 4 mem) 0) END_HEADERS true false false false 0 16 0 None None)
    else Fault FFatal
  else Ok (TYPE_CONTINUATION, o END_HEADERS true true).

Definition cmd_tx11obj (cmd : string) (mem : list Z) (hp : http) (i : nat) (av : list (list Z)) : outcome http :=
  '(ty, o) ← tx_start cmd hp mem;
  o ← tx_options (length av) cmd o av;
  o ← tx_defaults o;
  s ← get_stream hp i;
  let buf := to_pre o ++ it_mem (to_iter o) in
  '(hp, buf, size) ← tx_priority o i buf (gethpk_iterLen (to_iter o));
  '(buf, size, flags) ← tx_padding (to_pad o) (to_flags o) buf size;
  let size := if ty =? TYPE_PUSH_PROMISE then size + 4 else size in
  hp ← write_frame hp i (mk_frame (u32 size) (s_id s) ty flags (Some buf) MdZero);
  match to_body o with
  | None => Ok hp
  | Some body => write_frame hp i (mk_frame (u32 (Z.of_nat (length body))) (s_id s) TYPE_DATA END_STREAM (Some body) MdZero)
  end.
End tx11.
