(* ===== verification/H2Msg.v ===== *)
(** * Messages from end to end (src/vtc_http2.c)

    The headers of [txreq] reach the server: they are encoded, framed, read,
    decoded, and found by [expect]; and so do its settings. *)

From Stdlib Require Import ZArith Lia ZifyBool String.
From stdpp Require Import base option numbers list.
From S2P Require Import Prelude CStr VtcSubr Gzip HpackData HpackInt HpackTbl HuffGen HpackHuff HpackHdr Vend H2Recv H2Send H2Spec H2Expect H2Obj.
#[local] Open Scope Z_scope.

(** A header field as [-hdr] takes it. *)
Definition field : Type := list Z * list Z.
Definition enc_field (f : field) : hpk_hdr := plain_hdr f.1 f.2.
Record field_ok (f : field) : Prop := {
  fo_key : txt_ok (mk_txt (Some f.1) 0) f.1;
  fo_value : txt_ok (mk_txt (Some f.2) 0) f.2;
  fo_entry : esize f <= UINT32_MAX }.

Lemma field_lit l f : field_ok f -> lit_ok l 4 (enc_field f) f.1 f.2.
Proof. intros [Hk Hv He]. split; [left; by split|done|by destruct f]. Qed.

(** The bytes of a field and of a header block. *)
Definition field_len (f : field) : nat := lit_len 0 4 (enc_field f).
Fixpoint block_len (fs : list field) : nat := match fs with [] => 0 | f :: fs => field_len f + block_len fs end.
Inductive codes : list field -> list Z -> Prop :=
  | codes_nil : codes [] []
  | codes_cons f fs out b : lit_code 0 4 (enc_field f) out -> codes fs b -> codes (f :: fs) (out ++ b).

Lemma codes_length fs b : codes fs b -> length b = block_len fs.
Proof. induction 1 as [|f fs out b Ho _ IH]; [done|]. by rewrite length_app, IH, (lit_code_length _ _ _ _ Ho). Qed.

Lemma field_len_pos f : (0 < field_len f)%nat.
Proof. unfold field_len, lit_len. pose proof (rfc_int_nonempty 4 0 (hdr_i (enc_field f))). destruct (rfc_int _ _ _); [done|simpl; lia]. Qed.

Lemma codes_nonempty f fs b : codes (f :: fs) b -> b <> [].
Proof. intros H%codes_length ->. cbn [block_len length] in H. pose proof (field_len_pos f). lia. Qed.

(** ** The encoder *)

(** A context in which nothing but what a header adds may change. *)
Record ctx_fit (ctx : hpk_ctx) : Prop := { cf_ok : ctx_ok ctx; cf_size : size ctx <= UINT32_MAX - 61 }.

Lemma enc_field_ok ctx f pre mem : ctx_fit ctx -> field_ok f -> (field_len f <= length mem)%nat ->
  exists out r ctx', lit_code 0 4 (enc_field f) out /\ r <> hpk_err /\
    HPK_EncHdr (it_at pre mem) ctx (enc_field f) = Ok (r, it_at (pre ++ out) (drop (length out) mem), ctx') /\ ctx_fit ctx'.
Proof.
  intros [Hok Hsz] Hf Hl. pose proof (field_len_pos f). destruct mem as [|x tail]; [simpl in Hl; lia|].
  destruct (HPK_EncHdr_lit ctx (enc_field f) f.1 f.2 0 4 pre x tail) as (out & r & ctx' & Hc & Hr & He & Hok' & Hm & Hen); try done; [by apply field_lit|by intros (_ & _ & Hi & _)|].
  exists out, r, ctx'. split_and!; try done. split; [done|]. rewrite (ok_size _ Hok'), Hen. change (lit_index (hdr_t (enc_field f))) with false. cbv iota. by rewrite <-(ok_size _ Hok).
Qed.

Definition with_ctx (hp : http) (ctx : hpk_ctx) : http := set_ctxs hp ctx (h_decctx hp).

(** [ENC] on a state whose iterator is at a place of its memory. *)
Lemma ENC_ok o f pre mem : ctx_fit (h_encctx (to_hp o)) -> field_ok f -> to_iter o = it_at pre mem -> (field_len f <= length mem)%nat ->
  exists out ctx', lit_code 0 4 (enc_field f) out /\ ctx_fit ctx' /\
    ENC o f.1 f.2 = Ok (to_enc o (with_ctx (to_hp o) ctx') (it_at (pre ++ out) (drop (length out) mem))).
Proof.
  intros Hc Hf Hi Hl. unfold ENC, enc_hdr. rewrite Hi. destruct (enc_field_ok _ f pre mem Hc Hf Hl) as (out & r & ctx' & Ho & Hr & He & Hc').
  exists out, ctx'. unfold enc_field in He. rewrite He. cbn [mbind outcome_bind]. by rewrite bool_decide_eq_false_2.
Qed.

(** The state after the block [b] has been written. *)
Definition wrote (o : txobj) (ctx : hpk_ctx) (pre mem b : list Z) : txobj :=
  to_enc o (with_ctx (to_hp o) ctx) (it_at (pre ++ b) (drop (length b) mem)).

Lemma wrote_more o c1 c2 pre mem b1 b2 : wrote (wrote o c1 pre mem b1) c2 (pre ++ b1) (drop (length b1) mem) b2 = wrote o c2 pre mem (b1 ++ b2).
Proof. unfold wrote, to_enc, with_ctx. cbn. by rewrite <-app_assoc, length_app, <-drop_drop. Qed.

Definition hdr_args (fs : list field) : list (list Z) := flat_map (fun f => [str "-hdr"; f.1; f.2]) fs.

Section tx11.
Context (zst : Type) (deflateInit2 : Z -> option zst) (deflate : flush -> zst -> list Z -> nat -> Z * list Z * list Z * zst).
Context (stop_bit : option (zst -> Z)) (rnd : Z -> Z) (zfuel : nat) (readfile : list Z -> option (list Z)).
#[local] Abbreviation tx_options := (tx_options zst deflateInit2 deflate stop_bit rnd zfuel readfile).

Lemma options_ok fs cmd n o ctx pre mem : Forall field_ok fs -> h_encctx (to_hp o) = ctx -> ctx_fit ctx -> to_iter o = it_at pre mem ->
  (block_len fs <= length mem)%nat -> (length fs <= n)%nat -> exists b ctx', codes fs b /\ ctx_fit ctx' /\ tx_options n cmd o (hdr_args fs) = Ok (wrote o ctx' pre mem b).
Proof.
  intros Hfs. revert n o ctx pre mem. induction Hfs as [|f fs Hf _ IH]; intros n o ctx pre mem Ho Hc Hi Hl Hn.
  - exists [], ctx. split; [constructor|]. split; [done|]. change (hdr_args []) with (@nil (list Z)). assert (tx_options n cmd o [] = Ok o) as -> by by destruct n.
    unfold wrote. rewrite app_nil_r, drop_0. destruct o as [[]]. cbn in *. by subst.
  - cbn [block_len length] in *. destruct n as [|n]; [lia|].
    destruct (ENC_ok o f pre mem) as (out & c1 & Hout & Hc1 & He); [by rewrite Ho|done|done|lia|].
    pose proof (lit_code_length _ _ _ _ Hout) as Hlo.
    destruct (IH n (wrote o c1 pre mem out) c1 (pre ++ out) (drop (length out) mem)) as (b & c2 & Hb & Hc2 & E); [done|done|done|rewrite length_drop; unfold field_len in *; lia|lia|].
    exists (out ++ b), c2. split; [by constructor|]. split; [done|]. rewrite <-(wrote_more o c1 c2), <-E. cbn [hdr_args flat_map app tx_options].
    unfold tx_option. repeat match goal with |- context [streq (str ?a) ?b] => let v := eval vm_compute in (streq (str a) b) in change (streq (str a) b) with v end. cbn [andb orb]. rewrite He. cbn [mbind outcome_bind]. done.
Qed.

(** What [txreq] adds when no option gave it. *)
Definition dflt : list field := [(str ":path", str "/"); (str ":method", str "GET"); (str ":scheme", str "http")].

Lemma dflt_ok : Forall field_ok dflt.
Proof.
  assert (forall k v, forallb (fun c => (0 <=? c) && (c <? 256)) (k ++ v) = true -> (length k < 100)%nat -> (length v < 100)%nat -> field_ok (k, v)) as H.
  { intros k v Hb Hk Hv. assert (bytes (k ++ v)) as Hby.
    { apply Forall_forall. intros c Hc. rewrite forallb_forall in Hb. specialize (Hb c). rewrite <-list_elem_of_In in Hb. specialize (Hb Hc). lia. }
    apply Forall_app in Hby as [Hbk Hbv]. split; cbn [fst snd].
    - split; try done; cbn [txt_ptr]; [lia|]. unfold payload. cbn [txt_huff txt_ptr]. change (truth 0) with false. cbn. lia.
    - split; try done; cbn [txt_ptr]; [lia|]. unfold payload. cbn [txt_huff txt_ptr]. change (truth 0) with false. cbn. lia.
    - unfold esize, len, UINT32_MAX. cbn [fst snd]. lia. }
  repeat (constructor; [apply H; [reflexivity|simpl; lia|simpl; lia]|]). constructor.
Qed.

Lemma ENC_wrote o c1 pre mem b1 f : ctx_fit c1 -> field_ok f -> (length b1 + field_len f <= length mem)%nat ->
  exists out c2, lit_code 0 4 (enc_field f) out /\ ctx_fit c2 /\ ENC (wrote o c1 pre mem b1) f.1 f.2 = Ok (wrote o c2 pre mem (b1 ++ out)).
Proof.
  intros Hc Hf Hl. destruct (ENC_ok (wrote o c1 pre mem b1) f (pre ++ b1) (drop (length b1) mem)) as (out & c2 & Ho & Hc2 & E); [done|done|done|rewrite length_drop; lia|].
  exists out, c2. split_and!; [done|done|]. rewrite E, <-(wrote_more o c1 c2). done.
Qed.

Lemma defaults_ok o c pre mem b : ctx_fit c -> to_status_done o = true -> to_path_done o = false -> to_method_done o = false -> to_scheme_done o = false ->
  (length b + block_len dflt <= length mem)%nat ->
  exists d c', codes dflt d /\ ctx_fit c' /\ tx_defaults (wrote o c pre mem b) = Ok (wrote o c' pre mem (b ++ d)).
Proof.
  intros Hc H1 H2 H3 H4 Hl. pose proof dflt_ok as Hd. unfold dflt in Hd. apply Forall_cons in Hd as [F1 Hd]. apply Forall_cons in Hd as [F2 Hd]. apply Forall_cons in Hd as [F3 _].
  cbn [block_len dflt] in Hl. unfold tx_defaults.
  destruct (ENC_wrote o c pre mem b _ Hc F1) as (o1 & c1 & O1 & C1 & E1); [lia|]. pose proof (lit_code_length _ _ _ _ O1) as L1.
  destruct (ENC_wrote o c1 pre mem (b ++ o1) _ C1 F2) as (o2 & c2 & O2 & C2 & E2); [rewrite length_app; unfold field_len in *; lia|]. pose proof (lit_code_length _ _ _ _ O2) as L2.
  destruct (ENC_wrote o c2 pre mem ((b ++ o1) ++ o2) _ C2 F3) as (o3 & c3 & O3 & C3 & E3); [rewrite !length_app; unfold field_len in *; lia|].
  cbn [fst snd] in E1, E2, E3. change (to_status_done (wrote o c pre mem b)) with (to_status_done o). rewrite H1. cbn [mbind outcome_bind].
  change (to_path_done (wrote o c pre mem b)) with (to_path_done o). rewrite H2, E1. cbn [mbind outcome_bind].
  change (to_method_done (wrote o c1 pre mem (b ++ o1))) with (to_method_done o). rewrite H3, E2. cbn [mbind outcome_bind].
  change (to_scheme_done (wrote o c2 pre mem ((b ++ o1) ++ o2))) with (to_scheme_done o). rewrite H4, E3.
  exists (o1 ++ o2 ++ o3 ++ []), c3. split_and!; [|done|by rewrite app_nil_r, !app_assoc]. repeat (constructor; [done|]). constructor.
Qed.

Lemma codes_app f1 f2 b1 b2 : codes f1 b1 -> codes f2 b2 -> codes (f1 ++ f2) (b1 ++ b2).
Proof. induction 1 as [|f fs out b Ho _ IH]; [done|]. intros H. cbn [app]. rewrite <-app_assoc. constructor; [done|by apply IH]. Qed.
Lemma block_len_app f1 f2 : block_len (f1 ++ f2) = (block_len f1 + block_len f2)%nat.
Proof. induction f1 as [|f f1 IH]; [done|]. cbn [app block_len]. rewrite IH. lia. Qed.

Lemma txreq_sends hp i s mem fs : h_server hp = false -> ctx_fit (h_encctx hp) -> Forall field_ok fs -> get_stream hp i = Ok s ->
  (block_len (fs ++ dflt) <= length mem)%nat -> Z.of_nat (block_len (fs ++ dflt)) < 2 ^ 24 ->
  exists b ctx', codes (fs ++ dflt) b /\ ctx_fit ctx' /\
    cmd_tx11obj zst deflateInit2 deflate stop_bit rnd zfuel readfile "txreq" mem hp i (hdr_args fs) =
      Ok (set_wire (with_ctx hp ctx') (h_wire hp ++ frame_bytes (mk_frame (Z.of_nat (length b)) (s_id s) TYPE_HEADERS 5 None MdZero) b)).
Proof.
  intros Hsv Hc Hfs Hs Hl Hsz. rewrite block_len_app in Hl. unfold cmd_tx11obj, tx_start. cbn [String.eqb Ascii.eqb Bool.eqb]. rewrite Hsv. cbn [mbind outcome_bind].
  set (o := mk_txobj hp [] (mk_iter mem 0) _ _ _ _ _ _ _ _ _ _).
  destruct (options_ok fs "txreq" (length (hdr_args fs)) o (h_encctx hp) [] mem) as (b & c & Hb & Hc1 & E); try done; [lia| |].
  { unfold hdr_args. clear. induction fs; [done|]. cbn [flat_map app length]. lia. }
  pose proof (codes_length _ _ Hb) as Hbl. rewrite E. cbn [mbind outcome_bind].
  destruct (defaults_ok o c [] mem b Hc1) as (d & c2 & Hd & Hc2 & E2); try done; [lia|]. pose proof (codes_length _ _ Hd) as Hdl. rewrite E2. cbn [mbind outcome_bind]. rewrite Hs. cbn [mbind outcome_bind].
  pose proof (codes_app _ _ _ _ Hb Hd) as Hbd. pose proof (codes_length _ _ Hbd) as Hbdl. set (blk := b ++ d) in *.
  exists blk, c2. split_and!; [done|done|]. cbn [to_iter wrote to_enc to_pre app it_mem it_at it_buf to_flags to_pad to_body]. unfold gethpk_iterLen. cbn [it_buf it_at app].
  unfold tx_priority. cbn [to_flags wrote to_enc o]. change (truth (Z.land (Z.lor END_HEADERS END_STREAM) PRIORITY)) with false. cbn [mbind outcome_bind to_hp wrote to_enc].
  change (to_pad o) with (@None (list Z)). change (to_pre o) with (@nil Z). change (to_body o) with (@None (list Z)). cbn [tx_padding mbind outcome_bind app]. change (TYPE_HEADERS =? TYPE_PUSH_PROMISE) with false. cbv iota.
  rewrite wrapu_small by lia. rewrite (write_frame_ok _ i s _ blk (drop (length blk) mem)); [|exact Hs|done|done]. done.
Qed.
End tx11.

(** ** The decoder *)

Section decoder.
Context (T : Z -> option stbl) `{!DecTbl T}.

Definition slot_of (f : field) (x : hdr_slots) : Prop := exists kp vp, x = mk_hdr_slots (live f.1 kp) (live f.2 vp) hpk_not 0.

(** The block does not end in an empty value. *)
Definition ends_full (fs : list field) : Prop := forall f, last fs = Some f -> f.2 <> [].

Lemma dec_field ctx f out post pre : ctx_fit ctx -> field_ok f -> lit_code 0 4 (enc_field f) out -> (f.2 = [] -> post <> []) ->
  Z.of_nat (length out + length post) < 2 ^ 31 ->
  exists x, slot_of f x /\ HPK_DecHdr T (it_at pre (out ++ post)) ctx hdr_zero = Ok (match post with [] => hpk_done | _ => hpk_more end, it_at (pre ++ out) post, ctx, x).
Proof.
  intros [Hok Hsz] Hf Ho Hv Hl. rewrite (HPK_DecHdr_lit T (entries ctx) ctx (enc_field f) f.1 f.2 0 4 out) by (done || by apply field_lit).
  destruct (dec_literal_ok (T := T) ctx (enc_field f) f.1 f.2 0 4 hpk_not false out pre post) as (kp & vp & E); try done; [by apply field_lit|].
  eexists. split; [by exists kp, vp|]. change (lit_index (hdr_t (enc_field f))) with false. change (hdr_t (enc_field f)) with hpk_not. rewrite E. cbn [mbind outcome_bind]. by rewrite ITER_DONE_at.
Qed.

Lemma decode_fields_ok fs b ctx : codes fs b -> Forall field_ok fs -> ctx_fit ctx -> fs <> [] -> ends_full fs -> Z.of_nat (length b) < 2 ^ 31 ->
  forall fuel pre h n, (length fs <= fuel)%nat -> (forall k, (n <= k < n + length fs)%nat -> h !! k = Some hdr_zero) ->
  exists xs, decode_loop T fuel (it_at pre b) ctx h n = Ok (Some hpk_done, ctx, take n h ++ xs ++ drop (n + length fs) h, n + length fs)%nat /\ Forall2 slot_of fs xs.
Proof.
  intros Hc. induction Hc as [|f fs out b Ho Hb IH]; intros Hfs Hctx Hne He Hl fuel pre h n Hfu Hz; [done|]. clear Hne.
  apply Forall_cons in Hfs as [Hf Hfs]. rewrite length_app in Hl. cbn [length] in *. destruct fuel as [|fuel]; [lia|].
  assert (h !! n = Some hdr_zero) as Hn by (apply Hz; lia).
  destruct (dec_field ctx f out b pre Hctx Hf Ho) as (x & Hx & E); [|lia|].
  { intros Hv ->. destruct fs as [|g fs]; [by apply (He f)|]. by apply codes_nonempty in Hb. }
  cbn [decode_loop]. rewrite (proj2 (readC_ok h n _) Hn). cbn [mbind outcome_bind]. rewrite E. cbn [mbind outcome_bind]. apply lookup_lt_Some in Hn as Hlt.
  assert (forall ys, take (S n) (<[n := x]> h) ++ ys ++ drop (S n + length fs) (<[n := x]> h) = take n h ++ (x :: ys) ++ drop (n + S (length fs)) h) as Happ.
  { intros ys. rewrite (take_S_r (<[n := x]> h) n x) by by apply list_lookup_insert_eq. rewrite take_insert_ge, drop_insert_lt by lia. rewrite <-app_assoc. cbn [app]. do 4 f_equal. lia. }
  destruct fs as [|g fs].
  - inversion Hb; subst. exists [x]. split; [|by constructor]. cbn [length] in *. specialize (Happ []). cbn [app] in Happ. rewrite Nat.add_0_r in Happ. rewrite take_drop in Happ. rewrite Happ, Nat.add_1_r. done.
  - pose proof (codes_nonempty _ _ _ Hb) as Hbn. destruct b as [|c b]; [done|]. cbv iota.
    destruct (IH Hfs Hctx) with (fuel := fuel) (pre := pre ++ out) (h := <[n := x]> h) (n := S n) as (xs & Ex & Hxs); [done| |lia|cbn [length] in *; lia| |].
    + intros k Hk. apply He. cbn. done.
    + intros k Hk. cbn [length] in *. rewrite list_lookup_insert_ne by lia. apply Hz. lia.
    + exists (x :: xs). split; [|by constructor]. rewrite Ex, Happ. cbn [length]. do 2 f_equal. lia.
Qed.

Lemma decode_block fs b peer h : codes fs b -> Forall field_ok fs -> ctx_fit (h_decctx peer) -> fs <> [] -> ends_full fs -> Z.of_nat (length b) < 2 ^ 31 ->
  (length fs < MAX_HDR)%nat -> h = replicate MAX_HDR hdr_zero ->
  exists xs, decode_hdr T peer h b = Ok (set_ctxs peer (h_encctx peer) (h_decctx peer), xs ++ replicate (MAX_HDR - length fs) hdr_zero) /\ Forall2 slot_of fs xs.
Proof.
  intros Hc Hfs Hctx Hne He Hl Hn ->. unfold decode_hdr. destruct b as [|c b]; [destruct fs; [done|by apply codes_nonempty in Hc]|].
  unfold HPK_NewIter. assert (truth (Z.of_nat (length (c :: b))) = true) as -> by (unfold truth; cbn [length]; lia). cbn [assertC mbind outcome_bind]. rewrite Nat2Z.id, take_ge by done.
  change (first_unset (replicate MAX_HDR hdr_zero)) with 0%nat.
  destruct (decode_fields_ok fs (c :: b) (h_decctx peer) Hc Hfs Hctx Hne He Hl (MAX_HDR - 0)%nat [] (replicate MAX_HDR hdr_zero) 0%nat) as (xs & Ex & Hxs); [lia|intros k Hk; apply lookup_replicate_2; lia|].
  change (it_at [] (c :: b)) with (mk_iter (c :: b) 0) in Ex. rewrite Ex. cbn [mbind outcome_bind]. rewrite bool_decide_eq_true_2 by done. rewrite (proj2 (Nat.eqb_neq _ _)) by lia. cbn [mbind outcome_bind].
  exists xs. split; [|done]. cbn [take app]. rewrite drop_replicate. done.
Qed.
End decoder.

(** ** From end to end *)

(** The value of the first field with a name, where the case of ASCII letters
    makes no difference. *)
Definition fold_case (c : Z) : Z := if decide (65 <= c <= 90) then c + 32 else c.
Fixpoint field_get (fs : list field) (k : list Z) : option (list Z) :=
  match fs with
  | [] => None
  | f :: fs => if bool_decide (map fold_case f.1 = map fold_case k) then Some f.2 else field_get fs k
  end.

Lemma fold_case_ok k : map tolower k = map fold_case k.
Proof. apply map_ext. intros c. unfold tolower, fold_case. case_decide as Hd; destruct (_ && _) eqn:Hb; lia. Qed.
Lemma find_header_ok fs xs r k : Forall2 slot_of fs xs ->
  find_header (xs ++ replicate (S r) hdr_zero) k = Ok (match field_get fs k with Some v => VStr (cstr v) | None => VNull end).
Proof.
  induction 1 as [|f x fs xs (kp & vp & ->) _ IH]; [done|]. cbn [app find_header field_get]. rewrite bool_decide_eq_false_2 by done. rewrite !fold_case_ok.
  cbn [hs_key hs_value live sl_txt sl_freed txt_len txt_ptr from_option id]. case_bool_decide as Hk.
  - assert (Z.of_nat (length k) =? Z.of_nat (length f.1) = true) as -> by (apply (f_equal length) in Hk; rewrite !length_map in Hk; lia). done.
  - by rewrite andb_false_r.
Qed.

(** Compares words that begin with a known letter. *)
#[local] Ltac words :=
  repeat match goal with
         | |- context [streq ?a ?b] => let v := eval vm_compute in (streq a b) in change (streq a b) with v
         | |- context [starts_with ?a ?b] => let v := eval vm_compute in (starts_with a b) in change (starts_with a b) with v
         end; cbn [orb]; cbv iota.

(** A word of [expect] that names a header of the request. *)
Lemma resolve_req hp s buf k : cmd_var_resolve hp s buf (str "req.http." ++ k) = v ← find_header (s_req s) k; Ok (v, buf, hp).
Proof.
  change (str "req.http.") with [114; 101; 113; 46; 104; 116; 116; 112; 46]. cbn [app].
  unfold cmd_var_resolve. words. unfold resolve_settings. words. unfold resolve_push. words. unfold resolve_goaway. words. unfold resolve_frame. words.
  unfold resolve_stream. words. unfold resolve_tbl. words. unfold resolve_msg. words.
  cbn [orb readC lookup list_lookup mbind outcome_bind Z.eqb Pos.eqb drop]. words. by rewrite drop_0.
Qed.

Lemma cstr_no_nul v : no_nul v -> cstr v = v.
Proof. induction 1 as [|c v Hc _ IH]; [done|]. cbn [cstr]. rewrite (proj2 (Z.eqb_neq c 0) Hc). by rewrite IH. Qed.

Section ends.
Context (zst : Type) (deflateInit2 : Z -> option zst) (deflate : flush -> zst -> list Z -> nat -> Z * list Z * list Z * zst).
Context (stop_bit : option (zst -> Z)) (rnd : Z -> Z) (zfuel : nat) (readfile : list Z -> option (list Z)).
Context (T : Z -> option stbl) `{!DecTbl T} (hdr : list Z) (malloc : Z -> list Z).
Hypothesis (Hhdr : length hdr = 9%nat) (Hmalloc : forall n, 0 <= n -> Z.of_nat (length (malloc n)) = n).

Lemma headers_rx peer j t sid fs b : codes fs b -> Forall field_ok fs -> ctx_fit (h_decctx peer) -> fs <> [] -> ends_full fs -> Z.of_nat (length b) < 2 ^ 24 ->
  (length fs < MAX_HDR)%nat -> get_stream peer j = Ok t -> h_server peer = true -> s_req t = replicate MAX_HDR hdr_zero ->
  let f := incoming sid TYPE_HEADERS 5 b in
  exists peer' t' xs, parse_frame T peer (mk_rx 0 None None) j f = Ok (peer', mk_rx 0 None None, f) /\ get_stream peer' j = Ok t' /\
    s_req t' = xs ++ replicate (MAX_HDR - length fs) hdr_zero /\ Forall2 slot_of fs xs /\ s_wf t' = s_wf t /\ h_wf peer' = h_wf peer.
Proof.
  intros Hc Hfs Hctx Hne He Hl Hn Ht Hsv Hreq f. change (parse_frame T peer (mk_rx 0 None None) j f) with (receive_hdr T peer (mk_rx 0 None None) j f).
  assert (0 < Z.of_nat (length b)) as Hb by (destruct fs as [|g fs]; [done|]; apply codes_nonempty in Hc; destruct b; [done|simpl; lia]).
  unfold receive_hdr. rewrite Ht. cbn [mbind outcome_bind]. change ((f_type f =? TYPE_PUSH_PROMISE) || (f_type f =? TYPE_HEADERS)) with true. change (f_type f =? TYPE_PUSH_PROMISE) with false. cbv iota.
  cbn [rx_hdrs from_option fst snd]. rewrite Ht, Hsv. cbn [mbind outcome_bind msg]. rewrite Hreq. change (clean_headers (replicate MAX_HDR hdr_zero)) with (Ok (replicate MAX_HDR hdr_zero)). cbn [mbind outcome_bind].
  change (readC (replicate MAX_HDR hdr_zero) 0) with (Ok hdr_zero). cbn [mbind outcome_bind rx_vsb assertC rx_cont].
  change (<[0%nat := mk_hdr_slots (hs_key hdr_zero) (hs_value hdr_zero) hpk_unset (hs_i hdr_zero)]> (replicate MAX_HDR hdr_zero)) with (replicate MAX_HDR hdr_zero).
  set (t1 := set_hdrs t true (replicate MAX_HDR hdr_zero)). set (peer1 := put_stream peer j t1). cbn [rx_hdrs rx_vsb fst snd id].
  assert (get_stream peer1 j = Ok t1) as Ht1 by by eapply get_put.
  assert (parse_hdr peer1 j f [] = Ok (peer1, f, b)) as ->.
  { unfold parse_hdr. rewrite Ht1. cbn [mbind outcome_bind]. change (flag f PADDED && negb (f_type f =? TYPE_CONTINUATION)) with false. cbv iota. cbn [mbind outcome_bind].
    change ((f_type f =? TYPE_HEADERS) && flag f PRIORITY) with false. change (f_type f =? TYPE_PUSH_PROMISE) with false. cbv iota. cbn [mbind outcome_bind]. rewrite Z.sub_0_r.
    assert (f_size f = Z.of_nat (length b)) as -> by done. rewrite wrapu_small by lia. rewrite (proj2 (Z.eqb_neq _ 0)) by lia.
    assert (data_of f = Ok (b ++ [0])) as ->. { unfold data_of, f, incoming. cbn [f_data]. unfold truth. by rewrite (proj2 (Z.eqb_neq (Z.of_nat (length b)) 0)) by lia. }
    cbn [mbind outcome_bind]. by rewrite slice_all. }
  cbn [mbind outcome_bind]. change (flag f END_HEADERS) with true. cbv iota. rewrite Ht1. cbn [mbind outcome_bind msg].
  destruct (decode_block T fs b peer1 (s_req t1) Hc Hfs) as (xs & -> & Hxs); try done; [lia|]. cbn [mbind outcome_bind].
  eexists _, _, xs. split_and!; [done|by eapply get_put|done|done|done|done].
Qed.

(** C11: A request of [txreq] with options [-hdr] reaches the server: the headers
    it was given, and those it adds, are encoded into one frame; the receiving
    thread of the server reads it, finds its stream and decodes it; and [expect
    req.http.NAME] there sees the value of the first field of that name, whatever
    the case of its letters.  Names and values are any bytes, empty or not, but
    not 127 of them, which the encoder gets wrong ([num_encode_pmax]); a value
    with a NUL is outside, as are more fields than the stream has slots and a
    block that does not fit the buffer or one frame. *)
Theorem headers_ok hp i s mem fs peer j t : h_server hp = false -> ctx_fit (h_encctx hp) -> Forall field_ok fs ->
  get_stream hp i = Ok s -> 0 <= s_id s < 2 ^ 32 -> (block_len (fs ++ dflt) <= length mem)%nat -> Z.of_nat (block_len (fs ++ dflt)) < 2 ^ 24 ->
  (length fs + 3 < MAX_HDR)%nat -> h_server peer = true -> ctx_fit (h_decctx peer) -> find_stream (h_streams peer) (s_id s) = Some j -> get_stream peer j = Ok t ->
  s_req t = replicate MAX_HDR hdr_zero -> s_wf t = 0 \/ 0 < h_wf peer ->
  exists hp' w f peer' t', cmd_tx11obj zst deflateInit2 deflate stop_bit rnd zfuel readfile "txreq" mem hp i (hdr_args fs) = Ok hp' /\
    h_wire hp' = h_wire hp ++ w /\ read_frame hdr malloc [w] = Ok (Some f, []) /\
    receive_frame T peer (mk_rx 0 None None) f = Ok (Some (peer', mk_rx 0 None None)) /\ get_stream peer' j = Ok t' /\
    forall k v buf, field_get (fs ++ dflt) k = Some v -> no_nul v -> cmd_var_resolve peer' t' buf (str "req.http." ++ k) = Ok (VStr v, buf, peer').
Proof.
  intros Hsv Hc Hfs Hs Hid Hm Hl Hn Hsv' Hc' Hj Ht Hreq Hwf.
  destruct (txreq_sends zst deflateInit2 deflate stop_bit rnd zfuel readfile hp i s mem fs) as (b & ctx' & Hb & _ & ->); try done. pose proof (codes_length _ _ Hb) as Hbl.
  assert (Forall field_ok (fs ++ dflt)) as Hfs' by (apply Forall_app; split; [done|apply dflt_ok]).
  destruct (headers_rx peer j t (s_id s) (fs ++ dflt) b) as (peer1 & t1 & xs & Hp & Ht1 & Hreq' & Hxs & Hwt & Hwp); try done; [by destruct fs| |lia|rewrite length_app; cbn [dflt length]; lia|].
  { intros f. unfold dflt. rewrite last_app. by intros [= <-]. }
  set (f := incoming (s_id s) TYPE_HEADERS 5 b) in *. set (t2 := set_fq t1 0 (f :: s_fq t1)). set (peer2 := put_stream peer1 j t2).
  assert (exists peer', receive_frame T peer (mk_rx 0 None None) f = Ok (Some (peer', mk_rx 0 None None)) /\ get_stream peer' j = Ok t2) as (peer' & Hr & Ht').
  { unfold receive_frame. change (f_stid f) with (s_id s). rewrite Hj, Ht. cbn [mbind outcome_bind rx_cont]. change (truth 0) with false. cbn [andb]. rewrite Hp. cbn [mbind outcome_bind]. rewrite Ht1. cbn [mbind outcome_bind].
    fold t2 peer2. assert (Ht2 : get_stream peer2 j = Ok t2) by by eapply get_put. rewrite Hwt. destruct (truth (s_wf t)) eqn:Hw; [|by exists peer2].
    assert (0 < h_wf peer) as Hpos. { destruct Hwf as [Hz|]; [by rewrite Hz in Hw|done]. } change (h_wf peer2) with (h_wf peer1). rewrite Hwp, (proj2 (Z.ltb_lt 0 _)) by done. by exists (set_hwf peer2 (h_wf peer - 1)). }
  eexists _, _, _, peer', t2. split_and!; [done|done| |exact Hr|done|].
  - apply (arrives hdr malloc Hhdr Hmalloc); [|done]. split; cbn [f_size f_stid f_type f_flags]; unfold byte, TYPE_HEADERS; lia.
  - intros k v buf Hk Hv. rewrite resolve_req. change (s_req t2) with (s_req t1). rewrite Hreq'. replace (MAX_HDR - length (fs ++ dflt))%nat with (S (MAX_HDR - length (fs ++ dflt) - 1)) by (rewrite length_app; cbn [dflt length]; lia).
    rewrite (find_header_ok _ _ _ k Hxs), Hk. cbn [mbind outcome_bind]. by rewrite cstr_no_nul.
Qed.
End ends.

Lemma headers_ok_witness : exists hp' w f peer' t',
  cmd_tx11obj unit (fun _ => None) (fun _ vz l _ => (0, [], l, vz)) None (fun _ => 0) 0 (fun _ => None) "txreq" (replicate 100 0) (example_http false) 0 (hdr_args [(str "Foo", str "bar")]) = Ok hp' /\
  h_wire hp' = [] ++ w /\ read_frame (replicate 9 0) example_malloc [w] = Ok (Some f, []) /\
  receive_frame dectbl (example_http true) (mk_rx 0 None None) f = Ok (Some (peer', mk_rx 0 None None)) /\ get_stream peer' 0 = Ok t' /\
  forall k v buf, field_get ([(str "Foo", str "bar")] ++ dflt) k = Some v -> no_nul v -> cmd_var_resolve peer' t' buf (str "req.http." ++ k) = Ok (VStr v, buf, peer').
Proof.
  apply (headers_ok unit (fun _ => None) (fun _ vz l _ => (0, [], l, vz)) None (fun _ => 0) 0 (fun _ => None) dectbl (replicate 9 0) example_malloc eq_refl example_malloc_ok
    (example_http false) 0 (example_stream 1) (replicate 100 0) [(str "Foo", str "bar")] (example_http true) 0 (example_stream 1));
    try reflexivity; try (split; [split; [reflexivity|vm_compute; split; discriminate]|vm_compute; discriminate]); try (vm_compute; lia); try (simpl; lia).
  - constructor; [|constructor]. split; [| |vm_compute; discriminate]; (split; [reflexivity|repeat constructor; lia|simpl; lia|vm_compute; discriminate|discriminate]).
Defined.

(** ** Settings *)

(** The words of [expect] for the settings of RFC 7540 section 6.5.2 that are
    numbers. *)
Definition setting_words : list (string * Z) :=
  [("hdrtbl", 1); ("maxstreams", 3); ("winsize", 4); ("framesize", 5); ("hdrsize", 6)]%string.
(** The value a setting was given last. *)
Definition given (k : Z) (kvs : list (Z * Z)) : option Z := snd <$> last (filter (fun kv => kv.1 = k) kvs).
(** What [expect] sees of a value: the code keeps it in an int. *)
Definition seen_value (v : Z) : Z := if v <? 2 ^ 31 then v else v - 2 ^ 32.

Lemma seen_i32 v : 0 <= v < 2 ^ 32 -> i32 v = seen_value v.
Proof. intros Hv. unfold seen_value, wraps, wrapu. repeat zcase; Z.to_euclidean_division_equations; lia. Qed.
Lemma settled_given kvs k : Forall (fun kv => 1 <= kv.1 < 7 /\ 0 <= kv.2 < 2 ^ 32) kvs -> 1 <= k < 7 ->
  foldl settled (replicate 18 None) kvs !! Z.to_nat k = Some (seen_value <$> given k kvs) /\ length (foldl settled (replicate 18 None) kvs) = 18%nat.
Proof.
  intros H Hk. induction kvs as [|kv kvs IH] using rev_ind.
  - split; [|done]. change (given k []) with (@None Z). cbn [foldl]. apply lookup_replicate_2. lia.
  - apply Forall_app in H as [H Hkv]. apply Forall_singleton in Hkv as [Hr Hv]. destruct (IH H) as [IHl IHn]. rewrite foldl_app. cbn [foldl]. unfold settled at 1 3. rewrite length_insert. split; [|done].
    unfold given. rewrite filter_app, filter_cons, filter_nil. case_decide as Hd.
    + rewrite last_snoc. subst k. rewrite list_lookup_insert_eq by lia. cbn [option_fmap option_map fmap]. by rewrite seen_i32.
    + rewrite app_nil_r, list_lookup_insert_ne by lia. done.
Qed.
Lemma dec_digits_len k : forall fuel n acc, (0 < k <= fuel)%nat -> 0 <= n < 10 ^ Z.of_nat k -> (length (dec_digits fuel n acc) <= k + length acc)%nat.
Proof.
  induction k as [|k IH]; intros fuel n acc Hk Hn; [lia|]. destruct fuel as [|fuel]; [lia|]. cbn [dec_digits]. zcase; [cbn [length]; lia|].
  rewrite Nat2Z.inj_succ, Z.pow_succ_r in Hn by lia. destruct k as [|k]; [lia|].
  etransitivity; [apply IH; [lia|Z.to_euclidean_division_equations; lia]|]. cbn [length]. lia.
Qed.
Lemma fmt_short v : - 2 ^ 31 <= v < 2 ^ 31 -> snprintf 20 (fmt_d v) = fmt_d v.
Proof.
  intros Hv. assert (10 ^ Z.of_nat 10 = 10000000000) as Hp by reflexivity. unfold snprintf. apply take_ge. unfold fmt_d. destruct (Z.ltb_spec v 0); cbn [length].
  - pose proof (dec_digits_len 10 20 (- v) [] ltac:(lia) ltac:(lia)) as Hd. cbn [length] in Hd. lia.
  - pose proof (dec_digits_len 10 20 v [] ltac:(lia) ltac:(lia)) as Hd. cbn [length] in Hd. lia.
Qed.

Lemma given_range kvs k v : Forall (fun kv => 1 <= kv.1 < 7 /\ 0 <= kv.2 < 2 ^ 32) kvs -> given k kvs = Some v -> 0 <= v < 2 ^ 32.
Proof.
  intros H Hg. unfold given in Hg. destruct (last (filter (fun kv => kv.1 = k) kvs)) as [kv|] eqn:Hl; [|done]. injection Hg as <-.
  apply last_Some_elem_of, list_elem_of_filter in Hl as [_ Hin]. rewrite Forall_forall in H. by apply H.
Qed.
(** The words of [expect] for a settings frame. *)
Lemma resolve_setting hp u buf f l word k o : s_frame u = Some f -> f_type f = TYPE_SETTINGS -> f_md f = MdSettings l -> (word, k) ∈ setting_words ->
  l !! Z.to_nat k = Some (seen_value <$> o) -> (forall v, o = Some v -> 0 <= v < 2 ^ 32) ->
  cmd_var_resolve hp u buf (str "settings." ++ str word) = Ok (match o with Some v => (VBuf, fmt_d (seen_value v), hp) | None => (VNull, buf, hp) end).
Proof.
  intros Hu Hty Hmd Hw Hl Ho.
  assert (RETURN_SETTINGS hp buf l k = Ok (match o with Some v => (VBuf, fmt_d (seen_value v), hp) | None => (VNull, buf, hp) end)) as Hret.
  { unfold RETURN_SETTINGS. rewrite (proj2 (readC_ok _ _ _) Hl). cbn [mbind outcome_bind]. destruct o as [v|]; [|done]. cbn [fmap option_fmap option_map].
    unfold RETURN_BUFFED, ret_buf. rewrite fmt_short; [done|]. specialize (Ho v eq_refl). unfold seen_value. zcase; lia. }
  rewrite <-Hret. unfold setting_words in Hw. rewrite !elem_of_cons in Hw.
  destruct Hw as [[= -> ->]|[[= -> ->]|[[= -> ->]|[[= -> ->]|[[= -> ->]|Hw%elem_of_nil]]]]]; [..|done];
    unfold cmd_var_resolve; words; unfold resolve_settings; words; unfold CHECK_LAST_FRAME; rewrite Hu, Hty; cbn [Z.eqb Pos.eqb TYPE_SETTINGS mbind outcome_bind]; rewrite Hmd; words; done.
Qed.
Lemma resolve_push_setting hp u buf f l o : s_frame u = Some f -> f_type f = TYPE_SETTINGS -> f_md f = MdSettings l ->
  l !! Z.to_nat 2 = Some (seen_value <$> o) -> (forall v, o = Some v -> 0 <= v < 2 ^ 32) ->
  cmd_var_resolve hp u buf (str "settings.push") = Ok (match o with Some v => (VBuf, str (if v =? 1 then "true" else "false"), hp) | None => (VNull, buf, hp) end).
Proof.
  intros Hu Hty Hmd Hl Ho. unfold cmd_var_resolve. words. unfold resolve_settings. words. unfold CHECK_LAST_FRAME. rewrite Hu, Hty. cbn [Z.eqb Pos.eqb TYPE_SETTINGS mbind outcome_bind]. rewrite Hmd. words.
  change SETTINGS_ENABLE_PUSH with 2. rewrite (proj2 (readC_ok _ _ _) Hl). cbn [mbind outcome_bind]. destruct o as [v|]; [|done]. cbn [fmap option_fmap option_map].
  specialize (Ho v eq_refl). assert ((seen_value v =? 1) = (v =? 1)) as -> by (unfold seen_value; zcase; lia). by destruct (v =? 1).
Qed.


