(* ===== verification/H2Faults.v ===== *)
(** * Where the commands of a stream go wrong (src/vtc_http2.c)

    Expectations that compare a buffer with itself, an option that cannot be
    used, settings that lose their upper half, and padding that overwrites the
    header block it should follow. *)

From Stdlib Require Import ZArith Lia ZifyBool String.
From stdpp Require Import base option numbers list.
From S2P Require Import Prelude CStr VtcSubr Gzip HpackData HpackInt HpackTbl HpackHuff HpackHdr Vend H2Recv H2Send H2Spec H2Cmds H2Expect H2Obj.
#[local] Open Scope Z_scope.

#[local] Ltac words :=
  repeat match goal with
         | |- context [streq ?a ?b] => let v := eval vm_compute in (streq a b) in change (streq a b) with v
         | |- context [starts_with ?a ?b] => let v := eval vm_compute in (starts_with a b) in change (starts_with a b) with v
         end; cbn [orb]; cbv iota.

(** ** Expectations *)

(** The words of [expect] that stand for a number of the connection, whatever its
    state. *)
Definition printed_words : list string :=
  ["stream.window"; "stream.peer_window"; "tbl.dec.size"; "tbl.dec.maxsize"; "tbl.dec.length"; "tbl.enc.size"; "tbl.enc.maxsize"; "tbl.enc.length";
   "req.bodylen"; "resp.bodylen"]%string.
(** Each is printed to the buffer. *)
Lemma resolve_printed hp s buf word : word ∈ printed_words -> exists t, cmd_var_resolve hp s buf (str word) = Ok (VBuf, t, hp).
Proof.
  intros Hw. unfold printed_words in Hw. rewrite !elem_of_cons in Hw.
  repeat (destruct Hw as [->|Hw]; [unfold cmd_var_resolve; words; unfold resolve_settings; words; unfold resolve_push; words; unfold resolve_goaway; words; unfold resolve_frame; words; unfold resolve_stream; words;
    first [by eexists|unfold resolve_tbl; words; first [by eexists|unfold resolve_msg; words; cbn [readC lookup list_lookup mbind outcome_bind]; by eexists]]|]).
  by apply elem_of_nil in Hw.
Qed.

Section expect.
Context (VRE_compile_ok : list Z -> bool) (VRE_match : list Z -> list Z -> bool).
#[local] Abbreviation expect := (cmd_expect VRE_compile_ok VRE_match).
#[local] Abbreviation compare := (vtc_expect VRE_compile_ok VRE_match).

Lemma cmd_expect_two buf0 hp i s a0 cmp a2 lhs buf1 hp1 rhs buf2 hp2 : get_stream hp i = Ok s ->
  cmd_var_resolve hp s buf0 a0 = Ok (lhs, buf1, hp1) -> cmd_var_resolve hp1 s buf1 a2 = Ok (rhs, buf2, hp2) ->
  expect buf0 hp i [a0; cmp; a2] = _ ← compare (var_str lhs buf2) cmp (var_str rhs buf2); Ok hp2.
Proof. intros Hs H1 H2. unfold cmd_expect. rewrite Hs. cbn [mbind outcome_bind]. rewrite H1. cbn [mbind outcome_bind]. rewrite H2. done. Qed.

Lemma compare_eq l r : compare (Some l) (str "==") (Some r) = if bool_decide (l = r) then Ok tt else Fault FFatal.
Proof. unfold vtc_expect, expect_cmp. words. cbn [mbind outcome_bind from_option id]. by case_bool_decide. Qed.
Lemma compare_ne l r : compare (Some l) (str "!=") (Some r) = if bool_decide (l = r) then Fault FFatal else Ok tt.
Proof. unfold vtc_expect, expect_cmp. words. cbn [mbind outcome_bind from_option id]. by case_bool_decide. Qed.
End expect.



(** ** Options *)

(** [rxcont -some N] reads "-some" where it means [N], and always fails. *)
Lemma rxcont_some {W} wait fuel i n (st : http * W) : cmd_rxcont wait fuel i [str "-some"; n] st = Fault FFatal.
Proof. done. Qed.

(** ** The settings of an upgrade *)

(** The character of a digit, and the eight characters of 48 bits. *)
Definition b64_char (d : Z) : Z :=
  if d <? 26 then d + 65 else if d <? 52 then d - 26 + 97 else if d <? 62 then d - 52 + 48 else if d =? 62 then 45 else 95.
Fixpoint b64_enc (n : nat) (w : Z) : list Z :=
  match n with
  | O => []
  | S n => b64_char (w / 64 ^ Z.of_nat n) :: b64_enc n (w `mod` 64 ^ Z.of_nat n)
  end.

Lemma b64_char_val d : 0 <= d < 64 -> b64_val (b64_char d) = Ok d.
Proof.
  intros Hd. unfold b64_char, b64_val.
  destruct (d <? 26) eqn:E1; [replace ((65 <=? d + 65) && (d + 65 <=? 90)) with true by lia; f_equal; lia|].
  destruct (d <? 52) eqn:E2.
  { replace ((65 <=? d - 26 + 97) && (d - 26 + 97 <=? 90)) with false by lia. replace ((97 <=? d - 26 + 97) && (d - 26 + 97 <=? 122)) with true by lia. f_equal. lia. }
  destruct (d <? 62) eqn:E3.
  { replace ((65 <=? d - 52 + 48) && (d - 52 + 48 <=? 90)) with false by lia. replace ((97 <=? d - 52 + 48) && (d - 52 + 48 <=? 122)) with false by lia.
    replace ((48 <=? d - 52 + 48) && (d - 52 + 48 <=? 57)) with true by lia. f_equal. lia. }
  assert (d = 62 \/ d = 63) as [-> | ->] by lia; done.
Qed.

Lemma b64_group_enc n w v s : (n <= 10)%nat -> 0 <= w < 64 ^ Z.of_nat n -> b64_group n (b64_enc n w ++ s) v = Ok (Z.lor v w, s).
Proof.
  revert w v. induction n as [|n IH]; intros w v Hn Hw; cbn [b64_group b64_enc app].
  - assert (w = 0) as -> by (simpl in Hw; lia). by rewrite Z.lor_0_r.
  - rewrite Nat2Z.inj_succ, Z.pow_succ_r in Hw by lia. set (p := 64 ^ Z.of_nat n) in *. assert (0 < p) as Hp by (apply Z.pow_pos_nonneg; lia).
    cbn [head from_option id tail]. assert (0 <= w / p < 64) as Hd by (split; [apply Z.div_pos; lia|apply Z.div_lt_upper_bound; lia]).
    rewrite b64_char_val by done. cbn [mbind outcome_bind].
    assert (2 ^ (6 * Z.of_nat n) = p) as E by (unfold p; change 64 with (2 ^ 6); rewrite <-Z.pow_mul_r by lia; done).
    rewrite Z.shiftl_mul_pow2, E by lia.
    assert (64 * p <= 2 ^ 60) as Hb by (rewrite <-E; change 64 with (2 ^ 6); rewrite <-Z.pow_add_r by lia; apply Z.pow_le_mono_r; lia).
    rewrite wrapu_small by (assert (w / p * p <= 63 * p) by (apply Z.mul_le_mono_nonneg_r; lia); nia).
    rewrite IH by (try lia; apply Z.mod_pos_bound; lia). f_equal. f_equal. rewrite <-Z.lor_assoc. f_equal.
    assert (Z.lor (w / p * p) (w `mod` p) = w / p * p + w `mod` p) as -> by (apply (lor_low _ _ (6 * Z.of_nat n)); [lia|rewrite E; apply Z.mod_pos_bound; lia|rewrite E; apply Z.mod_mul; lia]).
    pose proof (Z.div_mod w p ltac:(lia)). lia.
Qed.

(** The value of a setting in an [HTTP2-Settings] header is cut to 16 bits: a
    header table of 2^16 bytes is taken as one of none. *)
Theorem b64_settings_cut hp v : h_server hp = false -> ctx_ok (h_decctx hp) -> 0 <= v < 2 ^ 32 ->
  exists hp', b64_settings 1 hp (b64_enc 8 (2 ^ 32 + v)) = Ok hp' /\ maxsize (h_decctx hp') = v `mod` 2 ^ 16.
Proof.
  intros Hsv Hc Hv. pose proof (b64_group_enc 8 (2 ^ 32 + v) 0 []) as G. rewrite app_nil_r in G.
  cbn [b64_settings]. destruct (b64_enc 8 (2 ^ 32 + v)) as [|c l] eqn:E; [done|]. rewrite <-E in *. rewrite G by (simpl; lia). cbn [mbind outcome_bind]. rewrite Z.lor_0_l.
  assert (u16 (Z.shiftr (2 ^ 32 + v) 32) = 1) as -> by (rewrite Z.shiftr_div_pow2 by lia; unfold wrapu; Z.to_euclidean_division_equations; lia).
  change 65535 with (Z.ones 16). rewrite Z.land_ones by lia. assert ((2 ^ 32 + v) `mod` 2 ^ 16 = v `mod` 2 ^ 16) as -> by (Z.to_euclidean_division_equations; lia).
  change (1 =? SETTINGS_NO_RFC7540_PRIORITIES) with false. change (1 =? SETTINGS_HEADER_TABLE_SIZE) with true. cbv iota. rewrite Hsv.
  assert (0 <= v `mod` 2 ^ 16 < 2 ^ 16) as Hm by (apply Z.mod_pos_bound; lia).
  destruct (resize_fit (h_decctx hp) (v `mod` 2 ^ 16) Hc) as (c' & -> & _ & Hmax & _); [unfold UINT32_MAX; lia|]. cbn [mbind outcome_bind]. rewrite bool_decide_eq_true_2 by done.
  cbn [mbind outcome_bind b64_settings]. eexists. split; [done|]. done.
Qed.

Lemma b64_settings_cut_witness : exists hp', b64_settings 1 (example_http false) (b64_enc 8 (2 ^ 32 + 65536)) = Ok hp' /\ maxsize (h_decctx hp') = 0.
Proof. apply (b64_settings_cut (example_http false) 65536); [reflexivity|split; [reflexivity|vm_compute; split; discriminate]|lia]. Defined.

(** ** Padding of a promise *)

Lemma memcpy_at a b c d i : i = length a -> length b = length c -> memcpy (a ++ b ++ d) i c = Ok (a ++ c ++ d).
Proof.
  intros -> Hl. unfold memcpy. rewrite !length_app, (proj2 (Nat.leb_le _ _)) by lia. by rewrite <-Hl, take_app_length, drop_app_add, drop_app_length.
Qed.

(** The padding is put where the header block of a frame without a promised
    stream would end: the last four bytes of the block of [txpush] are gone, and
    four stray bytes end the frame. *)
Theorem push_pad_cut pre blk rest pad flags : length pre = 4%nat -> (4 <= length blk)%nat -> (0 < length pad <= 255)%nat ->
  (length pad + 1 <= length rest)%nat -> Z.of_nat (length blk) + 255 < BUF_SIZE ->
  exists buf' stray, tx_padding (Some pad) flags (pre ++ blk ++ rest) (Z.of_nat (length blk)) =
      Ok (buf', Z.of_nat (length blk) + 1 + Z.of_nat (length pad), Z.lor flags PADDED) /\
    take (length blk + 1 + length pad + 4) buf' = Z.of_nat (length pad) :: pre ++ take (length blk - 4) blk ++ pad ++ stray /\ length stray = 4%nat.
Proof.
  intros H4 Hb Hp Hr Hsz. unfold tx_padding. rewrite (proj2 (Z.ltb_ge 255 _)) by lia. cbv zeta.
  rewrite (proj2 (Z.ltb_lt _ BUF_SIZE)) by lia. cbn [assertC mbind outcome_bind].
  set (m := take (length blk - 4) blk). set (tl := drop (length blk - 4) blk).
  assert (blk = m ++ tl) as Eblk by (unfold m, tl; by rewrite take_drop). assert (length m = (length blk - 4)%nat) as Hm by (unfold m; rewrite length_take; lia).
  assert (length tl = 4%nat) as Htl by (unfold tl; rewrite length_drop; lia). set (k := length blk) in *.
  (* the whole buffer, one byte further *)
  destruct pre as [|p0 pre']; [done|]. assert (exists x r1, tl ++ rest = x ++ r1 /\ length x = 1%nat /\ length r1 = (3 + length rest)%nat) as (x & r1 & Ex & Hx & Hr1).
  { destruct tl as [|x tl']; [done|]. exists [x], (tl' ++ rest). split; [done|]. split; [done|]. rewrite length_app. simpl in Htl. lia. }
  assert ((p0 :: pre') ++ blk ++ rest = [p0] ++ (pre' ++ m ++ x) ++ r1) as Ebuf by (rewrite Eblk; cbn [app]; rewrite <-!app_assoc; do 3 f_equal; by rewrite <-Ex).
  unfold memmove. assert (slice ((p0 :: pre') ++ blk ++ rest) 0 (Z.of_nat (Z.to_nat (Z.of_nat k))) = Ok ((p0 :: pre') ++ m)) as ->.
  { rewrite Eblk, <-app_assoc, app_assoc. apply slice_all. rewrite length_app, Hm, H4. lia. }
  cbn [mbind outcome_bind]. rewrite Ebuf, (memcpy_at [p0] (pre' ++ m ++ x) ((p0 :: pre') ++ m) r1) by (done || (rewrite !length_app; simpl in *; lia)). cbn [mbind outcome_bind].
  change ([p0] ++ ((p0 :: pre') ++ m) ++ r1) with ([] ++ p0 :: ((p0 :: pre') ++ m) ++ r1).
  rewrite (write_next [] _ p0 (Z.of_nat (length pad)) 0) by done. cbn [mbind outcome_bind app].
  assert (exists y r2, r1 = y ++ r2 /\ length y = length pad /\ (4 <= length r2)%nat) as (y & r2 & -> & Hy & Hr2).
  { exists (take (length pad) r1), (drop (length pad) r1). rewrite take_drop, length_take, length_drop. split_and!; [done|lia|lia]. }
  change (Z.of_nat (length pad) :: p0 :: (pre' ++ m) ++ y ++ r2) with ((Z.of_nat (length pad) :: p0 :: pre' ++ m) ++ y ++ r2).
  rewrite (memcpy_at _ y pad r2) by (done || (simpl in *; rewrite length_app; lia)). cbn [mbind outcome_bind].
  exists ((Z.of_nat (length pad) :: p0 :: pre' ++ m) ++ pad ++ r2), (take 4 r2). split_and!; [done| |rewrite length_take; lia].
  assert (k + 1 + length pad + 4 = length ((Z.of_nat (length pad) :: p0 :: pre' ++ m) ++ pad) + 4)%nat as -> by (rewrite ?length_app; simpl in *; rewrite ?length_app; lia).
  rewrite app_assoc, take_app_add. cbn [app]. by rewrite <-!app_assoc.
Qed.

Lemma push_pad_cut_witness : exists buf' stray, tx_padding (Some [7; 7]) 4 ([0; 0; 0; 2] ++ [1; 2; 3; 4; 5] ++ [0; 0; 0]) 5 = Ok (buf', 8, 12) /\
  take 12 buf' = 2 :: [0; 0; 0; 2] ++ [1] ++ [7; 7] ++ stray /\ length stray = 4%nat.
Proof. apply (push_pad_cut [0; 0; 0; 2] [1; 2; 3; 4; 5] [0; 0; 0] [7; 7] 4); [reflexivity|simpl; lia|simpl; lia|simpl; lia|reflexivity]. Defined.
