(* ===== verification/H2Flow.v ===== *)
(** * Flow control between two ends (src/vtc_http2.c)

    One end sends data on a stream and the other gives credit back.  The steps
    are the commands and the receiving threads of both, in any order; what one
    end thinks it may send and what the other thinks it will take differ by
    exactly what is on the way. *)

From Stdlib Require Import ZArith Lia ZifyBool String.
From stdpp Require Import base option numbers list relations.
From S2P Require Import Prelude CStr VtcSubr HpackData HpackTbl HuffGen HpackHdr Vend H2Recv H2Send H2Spec H2Cmds.
#[local] Open Scope Z_scope.

(** The sender of the data, the receiver, and the state of their threads. *)
Record flow := mk_flow { fl_a : http; fl_b : http; fl_rxa : rx; fl_rxb : rx }.

Section flow.
Context (T : Z -> option stbl) (hdr : list Z) (malloc : Z -> list Z).
Hypothesis (Hhdr : length hdr = 9%nat) (Hmalloc : forall n, 0 <= n -> Z.of_nat (length (malloc n)) = n).
(** The stream, and its place at both ends. *)
Context (sid : Z) (i j : nat).

(** A command that finds its frame does not wait. *)
Definition no_wait (_ : nat) (_ : http * unit) : outcome (http * unit) := Fault FAssert.

Inductive fstep : flow -> flow -> Prop :=
  | step_txdata a b ra rb av body fl a' :
      txdata_args (length av) av None None END_STREAM = Ok (Some body, None, fl) -> body <> [] -> Z.of_nat (length body) < 2 ^ 24 - 256 ->
      cmd_txdata a i av = Ok a' -> fstep (mk_flow a b ra rb) (mk_flow a' b ra rb)
  | step_data_in a b ra rb f rs b' rb' :
      read_frame hdr malloc [h_wire a] = Ok (Some f, rs) -> receive_frame T b rb f = Ok (Some (b', rb')) ->
      fstep (mk_flow a b ra rb) (mk_flow (set_wire a (concat rs)) b' ra rb')
  | step_txwinup a b ra rb s n b' :
      num s n -> n < 2 ^ 31 -> cmd_txwinup b j [str "-size"; s] = Ok b' -> fstep (mk_flow a b ra rb) (mk_flow a b' ra rb)
  | step_winup_in a b ra rb f rs a' ra' :
      read_frame hdr malloc [h_wire b] = Ok (Some f, rs) -> receive_frame T a ra f = Ok (Some (a', ra')) ->
      fstep (mk_flow a b ra rb) (mk_flow a' (set_wire b (concat rs)) ra' rb)
  | step_rxwinup a b ra rb a' :
      cmd_rxwinup no_wait i (a, tt) = Ok (a', tt) -> fstep (mk_flow a b ra rb) (mk_flow a' b ra rb)
  | step_rxdata a b ra rb f b' :
      rxstuff no_wait j (b, tt) = Ok (Some f, (b', tt)) -> fstep (mk_flow a b ra rb) (mk_flow a b' ra rb).

(** ** What is on the way *)

Definition data_bytes (d : Z * list Z) : list Z := frame_bytes (mk_frame (Z.of_nat (length d.2)) sid TYPE_DATA d.1 None MdZero) d.2.
Definition winup_bytes (n : Z) : list Z := frame_bytes (mk_frame 4 sid TYPE_WINDOW_UPDATE 0 None MdZero) (be32 n).
Definition sum (l : list Z) : Z := foldr Z.add 0 l.
Definition data_len (d : Z * list Z) : Z := Z.of_nat (length d.2).
Definition data_fine (d : Z * list Z) : Prop := (d.1 = 0 \/ d.1 = 1) /\ d.2 <> [] /\ Z.of_nat (length d.2) < 2 ^ 24 - 256.
Definition is_winup (f : frame) (n : Z) : Prop := f_type f = TYPE_WINDOW_UPDATE /\ f_md f = MdWinup n.

(** An end knows the stream, whose state satisfies [P]. *)
Definition knows (hp : http) (k : nat) (P : stream -> Prop) : Prop :=
  exists s, get_stream hp k = Ok s /\ s_id s = sid /\ find_stream (h_streams hp) sid = Some k /\ P s.
(** The sender with the window [w] and window updates it has not taken yet. *)
Definition sender (hp : http) (w : Z) (qs : list Z) : Prop := knows hp i (fun s => s_win_peer s = w /\ Forall2 is_winup (s_fq s) qs).
Definition receiver (hp : http) (w : Z) : Prop := knows hp j (fun t => s_win_self t = w).

(** The two ends, with the frames [ds] and [ms] on the two wires. *)
Record agrees (st : flow) (ds : list (Z * list Z)) (ms qs : list Z) : Prop := {
  ag_ends : exists w, sender (fl_a st) w qs /\ receiver (fl_b st) (i64 (w + sum (data_len <$> ds) + sum ms + sum qs));
  ag_wire_a : h_wire (fl_a st) = concat (data_bytes <$> ds);
  ag_wire_b : h_wire (fl_b st) = concat (winup_bytes <$> ms);
  ag_ds : Forall data_fine ds;
  ag_ms : Forall (fun n => 0 <= n < 2 ^ 31) ms;
  ag_rx : rx_cont (fl_rxa st) = 0 /\ rx_cont (fl_rxb st) = 0 }.

(** ** The wires *)

Lemma read_frame_first f p rest : frame_ok f -> Z.of_nat (length p) = f_size f ->
  read_frame hdr malloc [frame_bytes f p ++ rest] = Ok (Some (incoming (f_stid f) (f_type f) (f_flags f) p), match rest with [] => [] | _ => [rest] end).
Proof.
  intros Hf Hp. unfold read_frame.
  assert (frame_bytes f p ++ rest = frame_bytes f [] ++ p ++ rest) as -> by (unfold frame_bytes; cbn [app]; rewrite !app_nil_r, <-!app_assoc; done).
  rewrite get_bytes_whole by (done || lia). cbn [mbind outcome_bind negb]. rewrite drop_ge by lia. rewrite app_nil_r, readFrameHeader_ok by done. cbn [mbind outcome_bind f_size].
  unfold incoming. unfold truth. rewrite Hp. destruct (f_size f =? 0) eqn:Es; cbn [negb].
  - assert (p = []) as -> by (destruct p; [done|simpl in Hp; lia]). by destruct rest.
  - assert (0 <= f_size f) by (destruct Hf; lia). destruct p as [|c p]; [simpl in Hp; lia|]. set (n := Z.to_nat (f_size f)). pose proof (Hmalloc (f_size f + 1) ltac:(lia)) as Hm.
    rewrite writeC_lt by (unfold n; lia). cbn [mbind outcome_bind]. change ((c :: p) ++ rest) with (c :: p ++ rest). cbv iota. change (c :: p ++ rest) with ((c :: p) ++ rest).
    rewrite get_bytes_whole by (rewrite ?length_insert; unfold n; simpl in *; lia). cbn [mbind outcome_bind]. unfold set_data. cbn [f_size f_stid f_type f_flags f_md].
    assert (drop n (<[n := 0]> (malloc (f_size f + 1))) = [0]) as ->; [|done].
    assert (length (malloc (f_size f + 1)) = S n) as Hl by (unfold n; lia). rewrite drop_insert_ge, Nat.sub_diag by done.
    destruct (drop n (malloc (f_size f + 1))) as [|y [|? ?]] eqn:E; try done; apply (f_equal length) in E; rewrite length_drop in E; simpl in E; lia.
Qed.

Lemma concat_rest (rest : list Z) : concat (match rest with [] => [] | _ => [rest] end) = rest.
Proof. destruct rest; [done|]. cbn. by rewrite app_nil_r. Qed.

Lemma find_stream_put l k (s t : stream) : l !! k = Some s -> s_id t = s_id s -> find_stream (<[k := t]> l) sid = find_stream l sid.
Proof.
  revert k. induction l as [|x l IH]; intros [|k] Hk Ht; try done; simpl in *; simplify_eq; [by rewrite Ht|]. case_match; [done|]. f_equal. by apply IH.
Qed.

Lemma sum_app l1 l2 : sum (l1 ++ l2) = sum l1 + sum l2.
Proof. induction l1 as [|x l1 IH]; simpl; [done|]. lia. Qed.

Lemma i64_add x y : i64 (i64 x + y) = i64 (x + y).
Proof.
  assert (exists k, i64 x = x + k * 2 ^ 64) as [k ->].
  { unfold wraps, wrapu. destruct (_ <? _); [exists (- (x / 2 ^ 64))|exists (- (x / 2 ^ 64) - 1)]; Z.to_euclidean_division_equations; lia. }
  unfold wraps, wrapu. replace (x + k * 2 ^ 64 + y) with (x + y + k * 2 ^ 64) by lia. by rewrite Z_mod_plus_full.
Qed.

Lemma i64_i64 x : i64 (i64 x) = i64 x.
Proof. pose proof (i64_add x 0) as H. by rewrite !Z.add_0_r in H. Qed.

(** ** One end *)

Lemma knows_put hp k s t P : get_stream hp k = Ok s -> s_id s = sid -> find_stream (h_streams hp) sid = Some k -> s_id t = sid -> P t -> knows (put_stream hp k t) k P.
Proof.
  intros Hs Hid Hf Ht HP. exists t. split_and!; [by eapply get_put|done| |done]. unfold put_stream. cbn [h_streams set_streams].
  unfold get_stream in Hs. apply readC_ok in Hs. rewrite (find_stream_put _ _ s) by congruence. done.
Qed.

Lemma knows_wire hp k P w : knows hp k P -> knows (set_wire hp w) k P.
Proof. done. Qed.
Lemma knows_wins hp k P w v : knows hp k P -> knows (set_wins hp w v) k P.
Proof. done. Qed.
Lemma knows_hwf hp k P w : knows hp k P -> knows (set_hwf hp w) k P.
Proof. done. Qed.

Hypothesis (Hsid : 0 < sid < 2 ^ 32).

Lemma sender_txdata a w qs av body fl a' : sender a w qs -> txdata_args (length av) av None None END_STREAM = Ok (Some body, None, fl) ->
  Z.of_nat (length body) < 2 ^ 24 - 256 -> cmd_txdata a i av = Ok a' ->
  sender a' (i64 (w - Z.of_nat (length body))) qs /\ h_wire a' = h_wire a ++ data_bytes (fl, body).
Proof.
  intros (s & Hs & Hid & Hf & Hw & Hq) Ha Hl. rewrite (txdata_sends a i s av (Some body) None fl) by (done || (cbn; lia)). cbn [data_payload data_flags from_option id]. intros [= <-].
  split; [|unfold data_bytes; by rewrite Hid]. apply knows_wire. unfold charged. cbn [f_type Z.eqb TYPE_DATA f_size]. apply knows_wins. eapply knows_put; try done.
  cbn [set_win s_win_peer s_fq]. by rewrite Hw.
Qed.

Lemma receiver_data b w rb d b' rb' : receiver b w -> rx_cont rb = 0 -> data_fine d -> receive_frame T b rb (incoming sid TYPE_DATA d.1 d.2) = Ok (Some (b', rb')) ->
  receiver b' (i64 (w - data_len d)) /\ h_wire b' = h_wire b /\ rx_cont rb' = 0.
Proof.
  intros (t & Ht & Hid & Hf & Hw) Hr (Hfl & Hne & Hl). unfold receive_frame. cbn [incoming f_stid]. rewrite Hf, Ht. cbn [mbind outcome_bind]. rewrite Hr. cbn [truth Z.eqb negb andb].
  assert (parse_frame T b rb j (incoming sid TYPE_DATA d.1 d.2) = '(hp, f) ← parse_data b j (incoming sid TYPE_DATA d.1 d.2); Ok (hp, rb, f)) as -> by done.
  pose proof (data_lands b j t sid d.1 d.2 None Ht Hfl Hne ltac:(cbn; lia) Hl) as E. cbn [data_payload data_flags] in E. rewrite E. cbn [mbind outcome_bind].
  set (hp := landed b j t d.2). assert (exists u, get_stream hp j = Ok u /\ s_id u = sid /\ find_stream (h_streams hp) sid = Some j /\ s_win_self u = i64 (w - data_len d)) as (u & Hu & Hui & Huf & Huw).
  { unfold hp, landed. cbv zeta. unfold truth. rewrite Hid, (proj2 (Z.eqb_neq sid 0)) by lia. cbn [negb]. set (v := set_win t _ _).
    destruct (knows_put b j t v (fun x => x = v) Ht Hid Hf Hid eq_refl) as (v' & Hv & Hvi & Hvf & ->).
    assert (knows (put_stream (set_wins (put_stream b j v) (mk_window (w_init (h_win_self b)) (i64 (w_size (h_win_self b) - Z.of_nat (length d.2)))) (h_win_peer b)) j (set_body v (Some (default [] (s_body v) ++ d.2)))) j
              (fun u => s_win_self u = i64 (w - data_len d))) as (u & H); [|by exists u].
    eapply knows_put; [exact Hv|exact Hvi|exact Hvf|done|]. cbn. by rewrite Hw. }
  assert (h_wire hp = h_wire b) as Hwire by done.
  rewrite Hu. cbn [mbind outcome_bind]. destruct (truth (s_wf u)); unfold assertC; [destruct (0 <? h_wf _); cbn [mbind outcome_bind]; [|done]|]; intros [= <- <-].
  - split; [|done]. apply knows_hwf. eapply knows_put; [exact Hu|done|done|done|]. done.
  - split; [|done]. eapply knows_put; [exact Hu|done|done|done|]. done.
Qed.

Lemma receiver_txwinup b w s n b' : receiver b w -> num s n -> cmd_txwinup b j [str "-size"; s] = Ok b' ->
  receiver b' (i64 (w + n)) /\ h_wire b' = h_wire b ++ winup_bytes n.
Proof.
  intros (t & Ht & Hid & Hf & Hw) Hn. unfold cmd_txwinup. rewrite Ht. cbn [length mbind outcome_bind txwinup_args Nat.leb assertC].
  change (streq (str "-size") "-size") with true. cbv iota. rewrite (check_ok s n _ 0) by auto. cbn [mbind outcome_bind txwinup_args].
  rewrite htonl_ok. cbn [mbind outcome_bind]. rewrite Hid, (proj2 (Z.eqb_neq sid 0)) by lia. set (u := set_win t _ _).
  rewrite (write_frame_ok _ j u _ (be32 n) []) by (done || (by eapply get_put) || by rewrite app_nil_r). intros [= <-].
  split; [|unfold winup_bytes; by cbn [charged f_type Z.eqb TYPE_WINDOW_UPDATE TYPE_DATA Pos.eqb h_wire set_wire put_stream set_streams]]. apply knows_wire. cbn [charged f_type Z.eqb TYPE_WINDOW_UPDATE TYPE_DATA].
  eapply knows_put; try done. cbn. by rewrite Hw.
Qed.

Lemma sender_winup a w qs ra n a' ra' : sender a w qs -> rx_cont ra = 0 -> 0 <= n < 2 ^ 31 ->
  receive_frame T a ra (incoming sid TYPE_WINDOW_UPDATE 0 (be32 n)) = Ok (Some (a', ra')) ->
  sender a' w (n :: qs) /\ h_wire a' = h_wire a /\ rx_cont ra' = 0.
Proof.
  intros (s & Hs & Hid & Hf & Hw & Hq) Hr Hn. unfold receive_frame. cbn [incoming f_stid]. rewrite Hf, Hs. cbn [mbind outcome_bind]. rewrite Hr. cbn [truth Z.eqb negb andb].
  set (f := incoming sid TYPE_WINDOW_UPDATE 0 (be32 n)).
  assert (parse_frame T a ra i f = Ok (a, ra, set_md f (MdWinup n))) as ->.
  { change (parse_frame T a ra i f) with (f ← parse_winup a f; Ok (a, ra, f)). unfold parse_winup. change (f_size f) with 4. cbn [Z.eqb Pos.eqb negb].
    change (data_of f) with (Ok (be32 n ++ [0])). cbn [mbind outcome_bind]. rewrite be32_0. cbn [mbind outcome_bind]. rewrite top_clear by lia. cbn [truth Z.eqb negb mbind outcome_bind].
    by rewrite be32_dec by lia. }
  cbn [mbind outcome_bind]. rewrite Hs. cbn [mbind outcome_bind]. assert (Forall2 is_winup (set_md f (MdWinup n) :: s_fq s) (n :: qs)) as Hq' by (constructor; [done|exact Hq]).
  destruct (truth (s_wf s)); unfold assertC; [destruct (0 <? h_wf _); cbn [mbind outcome_bind]; [|done]|]; intros [= <- <-].
  - split; [|done]. apply knows_hwf. eapply knows_put; [exact Hs|done|done|done|done].
  - split; [|done]. eapply knows_put; [exact Hs|done|done|done|done].
Qed.

(** A frame that is there: the oldest leaves the queue. *)
Lemma rxstuff_takes hp k P f st : knows hp k P -> rxstuff no_wait k (hp, tt) = Ok (f, st) ->
  exists s g q, P s /\ get_stream hp k = Ok s /\ s_fq s = q ++ [g] /\ f = Some g /\ st.1 = put_stream hp k (set_frame (set_fq s (s_wf s) q) None).
Proof.
  intros (s & Hs & Hid & Hf & HP). unfold rxstuff. cbn [fst]. rewrite Hs. cbn [mbind outcome_bind].
  destruct (s_fq s) as [|x l] eqn:Eq.
  - unfold assertC. destruct (0 <=? h_wf hp); done.
  - cbn [mbind outcome_bind fst]. rewrite Hs. cbn [mbind outcome_bind]. rewrite Eq. destruct (exists_last (l := x :: l)) as (q & g & E); [done|]. rewrite E, last_snoc, removelast_last.
    intros [= <- <-]. exists s, g, q. split_and!; try done. by rewrite Eq.
Qed.

Lemma receiver_rxdata b w f b' : receiver b w -> rxstuff no_wait j (b, tt) = Ok (f, (b', tt)) -> receiver b' w /\ h_wire b' = h_wire b.
Proof.
  intros Hb H. destruct (rxstuff_takes b j _ _ _ Hb H) as (t & g & q & Hw & Ht & _ & _ & E). cbn [fst] in E. subst b'. split; [|done].
  destruct Hb as (t' & Ht' & Hid & Hf & _). rewrite Ht in Ht'. injection Ht' as <-. by eapply knows_put.
Qed.

Lemma sender_rxwinup a w qs a' : sender a w qs -> cmd_rxwinup no_wait i (a, tt) = Ok (a', tt) ->
  exists n qs', qs = qs' ++ [n] /\ sender a' (i64 (w + n)) qs' /\ h_wire a' = h_wire a.
Proof.
  intros Ha. unfold cmd_rxwinup. destruct (rxstuff no_wait i (a, tt)) as [[f [a1 []]]|] eqn:E; [|done]. cbn [mbind outcome_bind].
  destruct (rxstuff_takes a i _ _ _ Ha E) as (s & g & q & [Hw Hq] & Hs & Eq & -> & E1). cbn [fst] in E1. subst a1. destruct Ha as (s' & Hs' & Hid & Hf & _). rewrite Hs in Hs'. injection Hs' as <-.
  rewrite Eq in Hq. apply Forall2_app_inv_l in Hq as (qs' & l & Hq & Hl & ->). inversion Hl as [|? n ? ? [Hty Hmd] Hl']; subst. inversion Hl'; subst.
  unfold keep_frame. cbn [fst snd]. rewrite (get_put a i s) by done. cbn [mbind outcome_bind]. rewrite put_put. unfold CHKFRAME. rewrite Hty. cbn [Z.eqb TYPE_WINDOW_UPDATE Pos.eqb mbind outcome_bind]. rewrite Hmd. cbn [fst snd].
  rewrite (get_put a i s) by done. cbn [mbind outcome_bind]. cbn [s_id set_frame set_fq]. rewrite (proj2 (Z.eqb_neq _ 0)) by lia. rewrite put_put. intros [= <-].
  exists n, qs'. split_and!; [done| |done]. eapply knows_put; [exact Hs|done|done|done|]. done.
Qed.

(** ** Both ends *)

Lemma read_nothing : read_frame hdr malloc [[]] = Ok (None, []).
Proof. done. Qed.

Lemma i64_shift x y z : x = y + z -> i64 x = i64 (i64 y + z).
Proof. intros ->. by rewrite i64_add. Qed.

Lemma agrees_step st ds ms qs st' : agrees st ds ms qs -> fstep st st' -> exists ds' ms' qs', agrees st' ds' ms' qs'.
Proof.
  intros [(w & Ha & Hb) Hwa Hwb Hds Hms [Hra Hrb]] H. destruct H as [a b ra rb av body fl a' Hav Hne Hl Hc|a b ra rb f rs b' rb' Hread Hrecv|a b ra rb s n b' Hn Hl Hc|a b ra rb f rs a' ra' Hread Hrecv|a b ra rb a' Hc|a b ra rb f b' Hc]; cbn [fl_a fl_b fl_rxa fl_rxb] in *.
  - destruct (sender_txdata a w qs av body fl a' Ha Hav Hl Hc) as [Ha' Hw']. exists (ds ++ [(fl, body)]), ms, qs. split; cbn [fl_a fl_b fl_rxa fl_rxb]; [| |done| |done|done].
    + eexists. split; [exact Ha'|]. rewrite <-!Z.add_assoc, i64_add, fmap_app, sum_app. replace (w - _ + _) with (w + sum (data_len <$> ds) + sum ms + sum qs) by (unfold data_len; simpl; lia). done.
    + by rewrite Hw', Hwa, fmap_app, concat_app; cbn; rewrite app_nil_r.
    + apply Forall_app. split; [done|]. constructor; [|done]. split_and!; [|done|done]. exact (txdata_flags _ _ _ _ _ _ (or_intror eq_refl) Hav).
  - rewrite Hwa in Hread. destruct ds as [|d ds]; [discriminate (eq_trans (eq_sym read_nothing) Hread)|]. inversion Hds as [|? ? Hd Hds']; subst. cbn [fmap list_fmap concat] in Hread. unfold data_bytes at 1 in Hread.
    destruct Hd as (Hfl & Hne & Hl). rewrite read_frame_first in Hread; [|split; cbn; unfold byte, TYPE_DATA; lia|done]. cbn [f_stid f_type f_flags] in Hread. injection Hread as <- <-.
    destruct (receiver_data b _ rb d b' rb' Hb Hrb (conj Hfl (conj Hne Hl)) Hrecv) as (Hb' & Hw' & Hr'). exists ds, ms, qs. split; cbn [fl_a fl_b fl_rxa fl_rxb]; [|..|done|done|done].
    + exists w. split; [by apply knows_wire|]. unfold Z.sub in Hb'. rewrite i64_add in Hb'. cbn [fmap list_fmap sum foldr] in Hb'. fold (sum (data_len <$> ds)) in Hb'.
      replace (w + _ + sum ms + sum qs + - data_len d) with (w + sum (data_len <$> ds) + sum ms + sum qs) in Hb' by (simpl; lia). done.
    + cbn [h_wire set_wire]. by rewrite concat_rest.
    + by rewrite Hw'.
  - destruct (receiver_txwinup b _ s n b' Hb Hn Hc) as [Hb' Hw']. apply num_range in Hn. exists ds, (ms ++ [n]), qs. split; cbn [fl_a fl_b fl_rxa fl_rxb]; [|done| |done| |done].
    + exists w. split; [done|]. rewrite i64_add in Hb'. rewrite sum_app. replace (w + _ + (sum ms + _) + _) with (w + sum (data_len <$> ds) + sum ms + sum qs + n) by (simpl; lia). done.
    + by rewrite Hw', Hwb, fmap_app, concat_app.
    + apply Forall_app. split; [done|]. constructor; [lia|done].
  - rewrite Hwb in Hread. destruct ms as [|n ms]; [discriminate (eq_trans (eq_sym read_nothing) Hread)|]. inversion Hms as [|? ? Hn Hms']; subst. cbn [fmap list_fmap concat] in Hread. unfold winup_bytes at 1 in Hread.
    rewrite read_frame_first in Hread; [|split; cbn; unfold byte, TYPE_WINDOW_UPDATE; lia|done]. cbn [f_stid f_type f_flags] in Hread. injection Hread as <- <-.
    destruct (sender_winup a w qs ra n a' ra' Ha Hra Hn Hrecv) as (Ha' & Hw' & Hr'). exists ds, ms, (n :: qs). split; cbn [fl_a fl_b fl_rxa fl_rxb]; [| | |done|done|done].
    + exists w. split; [done|]. apply knows_wire. replace (w + sum (data_len <$> ds) + sum ms + sum (n :: qs)) with (w + sum (data_len <$> ds) + sum (n :: ms) + sum qs) by (simpl; lia). done.
    + by rewrite Hw'.
    + cbn [h_wire set_wire]. by rewrite concat_rest.
  - destruct (sender_rxwinup a w qs a' Ha Hc) as (n & qs' & -> & Ha' & Hw'). exists ds, ms, qs'. split; cbn [fl_a fl_b fl_rxa fl_rxb]; [| |done|done|done|done].
    + eexists. split; [exact Ha'|]. rewrite <-!Z.add_assoc, i64_add. rewrite sum_app in Hb. replace (w + n + _) with (w + sum (data_len <$> ds) + sum ms + (sum qs' + sum [n])) by (simpl; lia). done.
    + by rewrite Hw'.
  - destruct (receiver_rxdata b _ _ b' Hb Hc) as [Hb' Hw']. exists ds, ms, qs. split; cbn [fl_a fl_b fl_rxa fl_rxb]; [|done| |done|done|done].
    + by exists w.
    + by rewrite Hw'.
Qed.

(** C14: Data and credit on one stream, other than stream 0: one end sends data
    that is not empty and not padded ([txdata -data]) and takes credit
    ([rxwinup]), the other takes data ([rxdata]) and gives credit ([txwinup]), and
    frames arrive, all in any order.  From ends with the same window and nothing
    under way on, the window the receiver counts is always the one the sender
    counts, plus the data and the credit that are on the wires, plus the credit
    the sender's stream has queued.  When nothing is under way they are the same
    again.  Padding, which only the sender counts
    ([data_ok]), is outside, and so are settings that change the windows. *)
Theorem flow_agrees st st' w : sender (fl_a st) (i64 w) [] -> receiver (fl_b st) (i64 w) -> h_wire (fl_a st) = [] -> h_wire (fl_b st) = [] ->
  rx_cont (fl_rxa st) = 0 -> rx_cont (fl_rxb st) = 0 -> rtc fstep st st' ->
  exists ds ms qs v, h_wire (fl_a st') = concat (data_bytes <$> ds) /\ h_wire (fl_b st') = concat (winup_bytes <$> ms) /\
    sender (fl_a st') v qs /\ receiver (fl_b st') (i64 (v + sum (data_len <$> ds) + sum ms + sum qs)) /\
    (h_wire (fl_a st') = [] -> h_wire (fl_b st') = [] -> qs = [] -> receiver (fl_b st') (i64 v)).
Proof.
  intros Ha Hb Hwa Hwb Hra Hrb Hsteps. assert (exists ds ms qs, agrees st' ds ms qs) as (ds & ms & qs & [(v & Hs & Hr) H1 H2 H3 H4 H5]).
  { assert (exists ds ms qs, agrees st ds ms qs) as Hst.
    { exists [], [], []. split; try done. exists (i64 w). split; [done|]. cbn. by rewrite !Z.add_0_r, i64_i64. }
    clear -Hhdr Hmalloc Hsid Hst Hsteps. induction Hsteps as [|st1 st2 st3 H _ IH]; [done|]. destruct Hst as (ds & ms & qs & Hst). apply IH. by eapply agrees_step. }
  exists ds, ms, qs, v. split_and!; try done. intros E1 E2 ->. rewrite H1 in E1. rewrite H2 in E2.
  assert (ds = []) as -> by by destruct ds. assert (ms = []) as -> by by destruct ms. cbn in Hr. by rewrite !Z.add_0_r in Hr.
Qed.
End flow.

(** Data, and credit for it: every step of the way. *)
Definition ok_or {A} (d : A) (m : outcome A) : A := match m with Ok x => x | Fault _ => d end.
Definition example_T (_ : Z) : option stbl := None.
Definition rx0 : rx := mk_rx 0 None None.
Definition deliver (from to : http) : http * http :=
  ok_or (from, to) ('(f, rs) ← read_frame (replicate 9 0) example_malloc [h_wire from];
                    match f with
                    | Some f => r ← receive_frame example_T to rx0 f; Ok (set_wire from (concat rs), match r with Some (to, _) => to | None => to end)
                    | None => Fault FAssert
                    end).
Definition flow_a0 : http := example_http false.
Definition flow_b0 : http := example_http true.
Definition flow_a1 : http := ok_or flow_a0 (cmd_txdata flow_a0 0 [str "-data"; str "hello"]).
Definition flow_ab2 : http * http := deliver flow_a1 flow_b0.
Definition flow_b3 : http := ok_or flow_b0 (cmd_txwinup flow_ab2.2 0 [str "-size"; str "2"]).
Definition flow_ba4 : http * http := deliver flow_b3 flow_ab2.1.
Definition flow_a5 : http := ok_or flow_a0 (st ← cmd_rxwinup no_wait 0 (flow_ba4.2, tt); Ok st.1).

Definition flow_start : flow := mk_flow flow_a0 flow_b0 rx0 rx0.
Definition flow_end : flow := mk_flow flow_a5 flow_ba4.1 rx0 rx0.

Lemma flow_agrees_witness : exists ds ms qs v, h_wire (fl_a flow_end) = concat (data_bytes 1 <$> ds) /\ h_wire (fl_b flow_end) = concat (winup_bytes 1 <$> ms) /\
  sender 1 0 (fl_a flow_end) v qs /\ receiver 1 0 (fl_b flow_end) (i64 (v + sum (data_len <$> ds) + sum ms + sum qs)) /\
  (h_wire (fl_a flow_end) = [] -> h_wire (fl_b flow_end) = [] -> qs = [] -> receiver 1 0 (fl_b flow_end) (i64 v)).
Proof.
  apply (flow_agrees example_T (replicate 9 0) example_malloc eq_refl example_malloc_ok 1 0 0 ltac:(lia) flow_start flow_end 65535).
  - exists (example_stream 1). split_and!; [vm_compute; reflexivity..|constructor].
  - exists (example_stream 1). split_and!; vm_compute; reflexivity.
  - reflexivity.
  - reflexivity.
  - reflexivity.
  - reflexivity.
  - eapply (rtc_l _ _ (mk_flow flow_a1 flow_b0 rx0 rx0)); [apply (step_txdata _ _ _ _ _ _ _ _ _ [str "-data"; str "hello"] (str "hello") 1); [reflexivity|discriminate|reflexivity|vm_compute; reflexivity]|].
    eapply (rtc_l _ _ (mk_flow flow_ab2.1 flow_ab2.2 rx0 rx0)).
    { apply (step_data_in example_T (replicate 9 0) example_malloc 0 0 flow_a1 flow_b0 rx0 rx0 (incoming 1 TYPE_DATA 1 (str "hello")) [] flow_ab2.2 rx0); vm_compute; reflexivity. }
    eapply (rtc_l _ _ (mk_flow flow_ab2.1 flow_b3 rx0 rx0)); [apply (step_txwinup _ _ _ _ _ _ _ _ _ (str "2") 2); vm_compute; reflexivity|].
    eapply (rtc_l _ _ (mk_flow flow_ba4.2 flow_ba4.1 rx0 rx0)).
    { apply (step_winup_in example_T (replicate 9 0) example_malloc 0 0 flow_ab2.1 flow_b3 rx0 rx0 (incoming 1 TYPE_WINDOW_UPDATE 0 (be32 2)) [] flow_ba4.2 rx0); vm_compute; reflexivity. }
    eapply (rtc_l _ _ (mk_flow flow_a5 flow_ba4.1 rx0 rx0)); [apply step_rxwinup; vm_compute; reflexivity|apply rtc_refl].
Defined.
