(* ===== verification/Barrier.v ===== *)
(** * Barriers (src/vtc_barrier.c)

    A barrier, its two kinds and the command.  What a thread does between two
    waits is a function; [cstep] interleaves the calls of [sync] at those
    points, with the time-outs of the waits, the broadcast, waits that return for
    no reason and the end of the waits when the test is being stopped. *)

From Stdlib Require Import ZArith Lia ZifyBool String.
From stdpp Require Import base option numbers list relations.
From S2P Require Import Prelude CStr VtcSubr.
#[local] Open Scope Z_scope.

Inductive barrier_e := BARRIER_NONE | BARRIER_COND | BARRIER_SOCK.
#[export] Instance barrier_e_eq_dec : EqDecision barrier_e.
Proof. solve_decision. Defined.

(** [cond_cycle] is a member of a union: it counts for [BARRIER_COND] only. *)
Record barrier := mk_barrier {
  b_name : list Z;
  waiters : Z;
  expected : Z;
  cyclic : Z;
  b_type : barrier_e;
  cond_cycle : Z }.

Definition set_waiters (b : barrier) (w : Z) : barrier := mk_barrier (b_name b) w (expected b) (cyclic b) (b_type b) (cond_cycle b).
Definition set_type (b : barrier) (n : Z) (t : barrier_e) : barrier := mk_barrier (b_name b) (waiters b) n (cyclic b) t (cond_cycle b).
Definition set_cyclic (b : barrier) (c : Z) : barrier := mk_barrier (b_name b) (waiters b) (expected b) c (b_type b) (cond_cycle b).
Definition set_cycle (b : barrier) (c : Z) : barrier := mk_barrier (b_name b) (waiters b) (expected b) (cyclic b) (b_type b) c.

Definition barrier_new (name : list Z) : barrier := mk_barrier name 0 0 0 BARRIER_NONE 0.

(** The number of waiters, as an [int]. *)
Definition barrier_expect (b : barrier) (av : list Z) : outcome Z :=
  if negb (bool_decide (b_type b = BARRIER_NONE)) then Fault FFatal
  else
    _ ← assertC (expected b =? 0);
    _ ← assertC (waiters b =? 0);
    let n := u32 (strtoul 0 av).1 in
    if n <? 2 then Fault FFatal else Ok (i32 n).

Definition barrier_cond (b : barrier) (av : list Z) : outcome barrier :=
  n ← barrier_expect b av; Ok (set_type b n BARRIER_COND).
(** [listen]: whether the thread got its socket. *)
Definition barrier_sock (listen : bool) (b : barrier) (av : list Z) : outcome barrier :=
  n ← barrier_expect b av; if listen then Ok (set_type b n BARRIER_SOCK) else Fault FFatal.

Definition barrier_cyclic (b : barrier) : outcome barrier :=
  if bool_decide (b_type b = BARRIER_NONE) then Fault FFatal
  else if negb (waiters b =? 0) then Fault FFatal
  else Ok (set_cyclic b 1).

(** ** sync of a cond barrier *)

(** The first critical section: the new [w], and [c]. *)
Definition cond_arrive (b : barrier) : outcome (barrier * Z * Z) :=
  let w := waiters b in
  _ ← assertC (w <=? expected b);
  let '(b, w) := if w =? expected b then (b, -1) else (set_waiters b (i32 (w + 1)), i32 (w + 1)) in
  Ok (b, w, cond_cycle b).

(** The second one up to its wait; true when the call wakes the others instead. *)
Definition cond_enter (b : barrier) (w : Z) : outcome (barrier * bool) :=
  if w <? 0 then Fault FFatal
  else if w =? expected b then
    let b := set_cycle b (i32 (cond_cycle b + 1)) in
    Ok (if truth (cyclic b) then set_waiters b 0 else b, true)
  else Ok (b, false).

(** Whether the call leaves its loop after a wait: [timeout] tells [ETIMEDOUT]
    from zero, [stop] is [vtc_stop || vtc_error]. *)
Definition cond_leave (b : barrier) (c : Z) (timeout stop : bool) : bool := negb (negb stop && timeout && (c =? cond_cycle b)).

(** ** A sock barrier *)

(** What [poll] and [accept] find. *)
Inductive poll_ev := PollTimeout | PollIntr | PollErr | PollConn (fd : Z) | AcceptErr.

(** The loop until [vtc_stop || vtc_error], where the events end; the last
    component lists the connections that were closed, in order. *)
Fixpoint sock_loop (evs : list poll_ev) (b : barrier) (conns closed : list Z) : outcome (barrier * list Z * list Z) :=
  match evs with
  | [] => Ok (b, conns, closed)
  | PollTimeout :: evs | PollIntr :: evs => sock_loop evs b conns closed
  | PollErr :: _ => Fault FFatal
  | ev :: evs =>
      _ ← assertC (waiters b <=? expected b);
      if waiters b =? expected b then Fault FFatal
      else
        match ev with
        | PollConn i =>
            conns ← writeC conns (Z.to_nat (waiters b)) i;
            let b := set_waiters b (i32 (waiters b + 1)) in
            if waiters b <? expected b then sock_loop evs b conns closed
            else
              let closed := closed ++ take (Z.to_nat (expected b)) conns in
              if truth (cyclic b) then sock_loop evs (set_waiters b 0) (map (fun _ => -1) conns) closed
              else Ok (b, map (fun _ => -1) conns, closed)
        | _ => Fault FFatal
        end
  end.

(** The thread; the value lists the connections it closed. *)
Definition barrier_sock_thread (evs : list poll_ev) (error : bool) (b : barrier) : outcome (barrier * list Z) :=
  _ ← assertC (bool_decide (b_type b = BARRIER_SOCK));
  '(b, conns, closed) ← sock_loop evs b (replicate (Z.to_nat (expected b)) 0) [];
  if 0 <? Z.rem (waiters b) (expected b) then
    if error then Ok (b, closed ++ take (Z.to_nat (waiters b)) conns) else Fault FFatal
  else Ok (b, closed).

(** What [read] says to a caller of [sync]. *)
Definition barrier_sock_sync (connected : bool) (sz : Z) : outcome unit :=
  if negb connected then Fault FFatal else if negb (sz =? 0) then Fault FFatal else Ok tt.

(** ** The command *)

(** [sync] stands for the call of [barrier_cond_sync] or [barrier_sock_sync] on
    the barrier at an index, and what the other threads do meanwhile. *)
Section cmd.
Context (listen : bool) (sync : nat -> list barrier -> outcome (list barrier)).

Definition barrier_sync (i : nat) (bs : list barrier) : outcome (list barrier) :=
  b ← readC bs i;
  match b_type b with
  | BARRIER_NONE => Fault FFatal
  | BARRIER_COND | BARRIER_SOCK => sync i bs
  end.

Definition upd_barrier (i : nat) (bs : list barrier) (f : barrier -> outcome barrier) : outcome (list barrier) :=
  b ← readC bs i; b ← f b; writeC bs i b.

Fixpoint barrier_args (fuel : nat) (i : nat) (bs : list barrier) (av : list (list Z)) : outcome (list barrier) :=
  match av, fuel with
  | [], _ => Ok bs
  | _, O => Fault FFuel
  | a :: av, S fuel =>
      if streq a "cond" then
        match av with [] => Fault FAssert | n :: av => bs ← upd_barrier i bs (fun b => barrier_cond b n); barrier_args fuel i bs av end
      else if streq a "sock" then
        match av with [] => Fault FAssert | n :: av => bs ← upd_barrier i bs (fun b => barrier_sock listen b n); barrier_args fuel i bs av end
      else if streq a "sync" then bs ← barrier_sync i bs; barrier_args fuel i bs av
      else if streq a "-cyclic" then bs ← upd_barrier i bs barrier_cyclic; barrier_args fuel i bs av
      else Fault FFatal
  end.

Fixpoint find_barrier (bs : list barrier) (name : list Z) : option nat :=
  match bs with
  | [] => None
  | b :: bs => if bool_decide (b_name b = name) then Some 0%nat else S <$> find_barrier bs name
  end.

(** [top]: whether the caller is the top thread. *)
Definition cmd_barrier (top : bool) (bs : list barrier) (av : list (list Z)) : outcome (list barrier) :=
  match av with
  | _ :: name :: av =>
      if negb (bool_decide (head name = Some 98)) then Fault FFatal
      else
        '(i, bs) ← (match find_barrier bs name with
                    | Some i => Ok (i, bs)
                    | None => if top then Ok (length bs, bs ++ [barrier_new name]) else Fault FFatal
                    end);
        barrier_args (length av) i bs av
  | _ => Fault FAssert
  end.

(** [cmd_barrier] without arguments, at the end of a test. *)
Fixpoint barrier_reset (bs : list barrier) : outcome unit :=
  match bs with
  | [] => Ok tt
  | b :: bs => match b_type b with BARRIER_NONE => Fault FAssert | _ => barrier_reset bs end
  end.
End cmd.

(** ** Calls side by side *)

(** A call of [barrier_cond_sync]: not begun, between its critical sections,
    waiting (and whether a broadcast has reached it), or returned (and whether
    its wait was cut short). *)
Inductive call := Before | Between (w c : Z) | Waiting (c : Z) (signalled : bool) | Returned (c : Z) (cut : bool).
Definition wake (p : call) : call := match p with Waiting c _ => Waiting c true | _ => p end.
Record sys := mk_sys { sy_b : barrier; sy_calls : list call }.

(** No broadcast has reached a wait that returns zero, which POSIX allows, or that
    ends while [vtc_stop] or [vtc_error] is set. *)
Definition cut_short (signalled timeout stop : bool) : bool := negb signalled && (negb timeout || stop).
(** [timeout]: what [pthread_cond_timedwait] returns; [stop]: whether [vtc_stop]
    or [vtc_error] is set then. *)
Inductive cstep : sys -> sys -> Prop :=
  | step_arrive b l k b' w c : l !! k = Some Before -> cond_arrive b = Ok (b', w, c) ->
      cstep (mk_sys b l) (mk_sys b' (<[k := Between w c]> l))
  | step_last b l k w c b' : l !! k = Some (Between w c) -> cond_enter b w = Ok (b', true) ->
      cstep (mk_sys b l) (mk_sys b' (wake <$> <[k := Returned c false]> l))
  | step_wait b l k w c b' : l !! k = Some (Between w c) -> cond_enter b w = Ok (b', false) ->
      cstep (mk_sys b l) (mk_sys b' (<[k := Waiting c false]> l))
  | step_leave b l k c s timeout stop : l !! k = Some (Waiting c s) ->
      cstep (mk_sys b l) (mk_sys b (if cond_leave b c timeout stop then <[k := Returned c (cut_short s timeout stop)]> l else l)).
