(* ===== verification/BarrierSpec.v ===== *)
(** * What barriers promise (src/vtc_barrier.c)

    No call of [sync] returns before as many calls as expected have arrived in
    its round, and when as many calls are made as are expected all of them
    return; both for every interleaving.  A call whose wait is cut short, for no
    reason or by the end of the test, may pass early.  A sock barrier closes connections round by round. *)

From Stdlib Require Import ZArith Lia ZifyBool String.
From stdpp Require Import base option numbers list relations.
From S2P Require Import Prelude CStr VtcSubr HpackData Barrier.
#[local] Open Scope Z_scope.

(** ** Counting calls *)

Definition bit (b : bool) : Z := if b then 1 else 0.
Fixpoint tally (f : call -> bool) (l : list call) : Z := match l with [] => 0 | p :: l => bit (f p) + tally f l end.

Lemma tally_bounds f l : 0 <= tally f l <= Z.of_nat (length l).
Proof. induction l as [|p l IH]; simpl; [lia|]. unfold bit. destruct (f p); lia. Qed.

Lemma tally_insert f l k p q : l !! k = Some p -> tally f (<[k := q]> l) = tally f l - bit (f p) + bit (f q).
Proof. revert k. induction l as [|x l IH]; intros [|k] H; simpl in *; simplify_eq; [lia|]. rewrite (IH k H). lia. Qed.

Lemma tally_wake f l : (forall p, f (wake p) = f p) -> tally f (wake <$> l) = tally f l.
Proof. intros H. induction l as [|p l IH]; simpl; [done|]. rewrite H. f_equal. exact IH. Qed.

Lemma tally_pos f l k p : l !! k = Some p -> f p = true -> 0 < tally f l.
Proof.
  revert k. induction l as [|x l IH]; intros [|k] H Hp; simpl in *; simplify_eq; pose proof (tally_bounds f l); [rewrite Hp; simpl; lia|].
  specialize (IH k H Hp). unfold bit. destruct (f x); lia.
Qed.

Lemma tally_find f l : 0 < tally f l -> exists k p, l !! k = Some p /\ f p = true.
Proof.
  induction l as [|x l IH]; simpl; [lia|]. destruct (f x) eqn:E; [by exists 0%nat, x|]. simpl. intros H. destruct (IH ltac:(lia)) as (k & p & ? & ?). by exists (S k), p.
Qed.

Lemma tally_all f l : tally f l = Z.of_nat (length l) -> forall k p, l !! k = Some p -> f p = true.
Proof.
  induction l as [|x l IH]; [done|]. cbn [tally length]. intros H. pose proof (tally_bounds f l) as Hb.
  assert (f x = true /\ tally f l = Z.of_nat (length l)) as [Hx Hl] by (destruct (f x); simpl in H; lia).
  intros [|k] p Hk; simpl in Hk; [by simplify_eq|by apply (IH Hl k)].
Qed.

Lemma tally_le f g l : (forall p, f p = true -> g p = true) -> tally f l <= tally g l.
Proof. intros H. induction l as [|p l IH]; simpl; [done|]. specialize (H p). unfold bit. destruct (f p), (g p); try lia; by discriminate (H eq_refl). Qed.

(** The round of a call that has arrived. *)
Definition in_round (r : Z) (p : call) : bool :=
  match p with Before => false | Between w c => (0 <? w) && (c =? r) | Waiting c _ | Returned c _ => c =? r end.
Definition is_last (n : Z) (p : call) : bool := match p with Between w _ => w =? n | _ => false end.

Lemma in_round_wake r p : in_round r (wake p) = in_round r p.
Proof. by destruct p. Qed.
Lemma is_last_wake n p : is_last n (wake p) = is_last n p.
Proof. by destruct p. Qed.

(** ** The invariant *)

(** The round that is running is full, and its last call has not woken the
    others. *)
Definition full (b : barrier) : bool := (waiters b =? expected b) && (truth (cyclic b) || (cond_cycle b =? 0)).

(** Where a call may be. *)
Definition call_fine (b : barrier) (p : call) : Prop :=
  match p with
  | Before => True
  | Between w c => w = -1 \/ 1 <= w <= expected b /\ 0 <= c <= cond_cycle b /\ (w = expected b -> c = cond_cycle b)
  | Waiting c s => 0 <= c <= cond_cycle b /\ (s = true -> c < cond_cycle b)
  | Returned c cut => 0 <= c <= cond_cycle b /\ (cut = false -> c < cond_cycle b)
  end.

(** Calls that have not decided yet whether they are the last of their round. *)
Definition undecided (p : call) : bool := match p with Before | Between _ _ => true | _ => false end.
(** The round whose calls [waiters] counts. *)
Definition this_round (b : barrier) : Z := if truth (cyclic b) then cond_cycle b else 0.

Record fine (b : barrier) (l : list call) : Prop := {
  fi_expected : 2 <= expected b < 2 ^ 31;
  fi_waiters : 0 <= waiters b <= expected b;
  fi_few : Z.of_nat (length l) < 2 ^ 31 - 1;
  fi_turn : 0 <= cond_cycle b /\ cond_cycle b + tally undecided l <= Z.of_nat (length l);
  fi_now : waiters b = tally (in_round (this_round b)) l;
  fi_once : truth (cyclic b) = false -> cond_cycle b <= 1 /\ (cond_cycle b = 1 -> waiters b = expected b /\ tally (in_round 1) l = 0);
  fi_past : forall r, 0 <= r < cond_cycle b -> tally (in_round r) l = expected b;
  fi_future : forall r, cond_cycle b < r -> tally (in_round r) l = 0;
  fi_last : tally (is_last (expected b)) l = bit (full b);
  fi_calls : forall k p, l !! (k : nat) = Some p -> call_fine b p }.

Lemma calls_insert (b b' : barrier) (l : list call) (k : nat) (q : call) : (forall (j : nat) p, l !! j = Some p -> j <> k -> call_fine b' p) -> call_fine b' q ->
  forall (j : nat) p, <[k := q]> l !! j = Some p -> call_fine b' p.
Proof.
  intros Hl Hq j p Hj. destruct (decide (j = k)) as [->|Hne].
  - apply list_lookup_insert_Some in Hj as [(_ & <- & _)|(? & ?)]; done.
  - rewrite list_lookup_insert_ne in Hj by done. by apply (Hl j).
Qed.

(** A step that changes neither the barrier nor any count. *)
Lemma fine_move b l k p q : fine b l -> l !! k = Some p -> (forall r, 0 <= r -> in_round r p = in_round r q) ->
  is_last (expected b) p = is_last (expected b) q -> (undecided q = true -> undecided p = true) -> call_fine b q -> fine b (<[k := q]> l).
Proof.
  intros [] Hk Hr Hl Hu Hq. assert (forall r, 0 <= r -> tally (in_round r) (<[k := q]> l) = tally (in_round r) l) as Ht.
  { intros r Hr0. rewrite (tally_insert _ l k p) by done. rewrite (Hr r Hr0). lia. }
  split; try done.
  - by rewrite length_insert.
  - split; [lia|]. rewrite length_insert, (tally_insert _ l k p) by done. unfold bit. destruct (undecided q); [rewrite (Hu eq_refl)|destruct (undecided p)]; lia.
  - rewrite Ht; [done|]. unfold this_round. case_match; lia.
  - intros Hc. destruct (fi_once0 Hc). split; [done|]. rewrite Ht; [done|lia].
  - intros r H. rewrite Ht; [by apply fi_past0|lia].
  - intros r H. rewrite Ht; [by apply fi_future0|lia].
  - rewrite (tally_insert _ l k p) by done. rewrite Hl. lia.
  - apply (calls_insert b); [|done]. intros j x Hj _. by eapply fi_calls0.
Qed.

Lemma fine_arrive b l k b' w c : fine b l -> l !! k = Some Before -> cond_arrive b = Ok (b', w, c) -> fine b' (<[k := Between w c]> l).
Proof.
  intros Hf Hk. pose proof Hf as []. unfold cond_arrive. rewrite (proj2 (Z.leb_le _ _)) by lia. cbn [assertC mbind outcome_bind].
  destruct (waiters b =? expected b) eqn:Ew; intros [= <- <- <-].
  { apply (fine_move b l k Before); try done; [cbn [is_last]; symmetry; apply Z.eqb_neq; lia|by left]. }
  rewrite wraps_small by lia. assert (this_round b = cond_cycle b) as Ht.
  { unfold this_round. destruct (truth (cyclic b)) eqn:Ec; [done|]. destruct (fi_once0 eq_refl) as [? Hone]. destruct (decide (cond_cycle b = 1)) as [E|]; [apply Hone in E as []; lia|lia]. }
  assert (forall f, f Before = false -> tally f (<[k := Between (waiters b + 1) (cond_cycle b)]> l) = tally f l + bit (f (Between (waiters b + 1) (cond_cycle b)))) as Hi.
  { intros f E. rewrite (tally_insert f l k Before) by done. rewrite E. simpl. lia. }
  assert (forall r, r <> cond_cycle b -> tally (in_round r) (<[k := Between (waiters b + 1) (cond_cycle b)]> l) = tally (in_round r) l) as Hr.
  { intros r Hr. rewrite Hi by done. cbn. rewrite (proj2 (Z.eqb_neq _ r)) by lia. rewrite andb_false_r. simpl. lia. }
  split; cbn [set_waiters expected waiters cyclic cond_cycle]; try done.
  - lia.
  - by rewrite length_insert.
  - rewrite length_insert, (tally_insert _ l k Before) by done. simpl. lia.
  - change (this_round (set_waiters b (waiters b + 1))) with (this_round b). rewrite Ht in *. rewrite Hi by done. cbn. rewrite Z.eqb_refl, (proj2 (Z.ltb_lt 0 _)) by lia. simpl. lia.
  - intros Hc. destruct (fi_once0 Hc) as [? Hone]. split; [done|]. intros E. destruct (Hone E). lia.
  - intros r H. rewrite Hr by lia. by apply fi_past0.
  - intros r H. rewrite Hr by lia. by apply fi_future0.
  - rewrite Hi by done. rewrite fi_last0. unfold full. cbn [set_waiters expected waiters cyclic cond_cycle]. rewrite Ew. cbn [andb bit is_last].
    destruct (waiters b + 1 =? expected b) eqn:E; cbn [andb bit]; [|lia]. unfold this_round in Ht. destruct (truth (cyclic b)); [done|]. by rewrite <-Ht.
  - apply (calls_insert b); [intros j p Hj _; exact (fi_calls0 j p Hj)|]. right. cbn [set_waiters expected waiters cyclic cond_cycle]. lia.
Qed.

Lemma fine_last b l k w c b' : fine b l -> l !! k = Some (Between w c) -> cond_enter b w = Ok (b', true) -> fine b' (wake <$> <[k := Returned c false]> l).
Proof.
  intros Hf Hk. pose proof Hf as []. unfold cond_enter. destruct (w <? 0) eqn:Ew; [done|]. destruct (w =? expected b) eqn:E; [|done]. apply Z.eqb_eq in E. subst w.
  assert (0 < tally undecided l) as Hu by by eapply tally_pos. assert (0 < tally (is_last (expected b)) l) as Hl by (eapply tally_pos; [done|]; cbn; lia).
  rewrite wraps_small by lia.
  assert (full b = true) as Hfull by (rewrite fi_last0 in Hl; by destruct (full b)). pose proof Hfull as Hfull'. unfold full in Hfull'. apply andb_true_iff in Hfull' as [Hw Hc].
  apply Z.eqb_eq in Hw. destruct (fi_calls0 k _ Hk) as [?|(? & ? & Hcc)]; [lia|]. specialize (Hcc eq_refl). subst c.
  assert (this_round b = cond_cycle b) as Ht by (unfold this_round; destruct (truth (cyclic b)); [done|]; simpl in Hc; lia).
  set (l' := <[k := Returned (cond_cycle b) false]> l).
  assert (forall r, tally (in_round r) (wake <$> l') = tally (in_round r) l) as Hr.
  { intros r. rewrite tally_wake by (intros p; apply in_round_wake). unfold l'. rewrite (tally_insert _ l k _ _ Hk). cbn. rewrite (proj2 (Z.ltb_lt 0 _)) by lia. cbn. lia. }
  assert (length (wake <$> l') = length l) as Hlen by (rewrite length_fmap; unfold l'; by rewrite length_insert).
  assert (tally undecided (wake <$> l') = tally undecided l - 1) as Hun by (rewrite tally_wake by (by intros []); unfold l'; rewrite (tally_insert _ l k _ _ Hk); simpl; lia).
  assert (tally (is_last (expected b)) (wake <$> l') = 0) as Hla.
  { rewrite tally_wake by (intros p; apply is_last_wake). unfold l'. rewrite (tally_insert _ l k _ _ Hk), fi_last0, Hfull. cbn. rewrite Z.eqb_refl. simpl. lia. }
  intros [= <-]. set (b' := if truth (cyclic b) then _ else _).
  assert (expected b' = expected b /\ cyclic b' = cyclic b /\ cond_cycle b' = cond_cycle b + 1 /\ waiters b' = (if truth (cyclic b) then 0 else waiters b)) as (Ee & Ec & Ecc & Eww) by (unfold b'; by destruct (truth (cyclic b))).
  split; rewrite ?Ee, ?Ec, ?Ecc, ?Eww, ?Hlen, ?Hun, ?Hla; try done.
  - destruct (truth (cyclic b)); lia.
  - lia.
  - unfold this_round in *. rewrite Ec, Ecc. rewrite Hr. destruct (truth (cyclic b)); [symmetry; apply fi_future0; lia|done].
  - intros Hcy. rewrite Hcy in Hc. simpl in Hc. split; [lia|]. intros _. rewrite Hcy, Hr. split; [done|]. apply fi_future0. lia.
  - intros r Hlt. rewrite Hr. destruct (decide (r = cond_cycle b)) as [->|]; [rewrite <-Ht, <-fi_now0; done|apply fi_past0; lia].
  - intros r Hlt. rewrite Hr. apply fi_future0. lia.
  - unfold full. rewrite Ee, Ec, Ecc, Eww. destruct (truth (cyclic b)); [rewrite (proj2 (Z.eqb_neq 0 _)) by lia; done|]. rewrite (proj2 (Z.eqb_neq _ 0)) by lia. simpl. by rewrite andb_false_r.
  - intros j p Hj. rewrite list_lookup_fmap in Hj. destruct (l' !! j) as [q|] eqn:Eq; [|done]. injection Hj as <-.
    assert (is_last (expected b) (wake q) = false) as Hnl.
    { destruct (is_last _ _) eqn:E1; [|done]. assert (0 < tally (is_last (expected b)) (wake <$> l')) by (eapply tally_pos; [rewrite list_lookup_fmap, Eq; done|done]). lia. }
    assert (call_fine b q \/ q = Returned (cond_cycle b) false) as Hq.
    { unfold l' in Eq. apply list_lookup_insert_Some in Eq as [(_ & <- & _)|(_ & Eq)]; [by right|left; by eapply fi_calls0]. }
    destruct Hq as [Hq| ->]; [|cbn; rewrite Ecc; lia]. destruct q as [|w c|c s|c cut]; cbn in *; rewrite ?Ee, ?Ecc; try done; lia.
Qed.

Lemma fine_wait b l k w c b' : fine b l -> l !! k = Some (Between w c) -> cond_enter b w = Ok (b', false) -> fine b' (<[k := Waiting c false]> l).
Proof.
  intros Hf Hk. pose proof Hf as []. unfold cond_enter. destruct (w <? 0) eqn:Ew; [done|]. destruct (w =? expected b) eqn:E; [done|]. intros [= <-].
  destruct (fi_calls0 k _ Hk) as [?|(? & ? & _)]; [lia|]. apply (fine_move b l k (Between w c)); try done; cbn.
  - intros r _. rewrite (proj2 (Z.ltb_lt 0 w)) by lia. done.
Qed.

Lemma fine_return b l k c s cut : fine b l -> l !! k = Some (Waiting c s) -> (cut = false -> c < cond_cycle b) -> fine b (<[k := Returned c cut]> l).
Proof. intros Hf Hk Hc. pose proof Hf as []. pose proof (fi_calls0 k _ Hk) as Hp. cbn in Hp. apply (fine_move b l k (Waiting c s)); try done. cbn. split; [lia|done]. Qed.

(** A wait that is not cut short ends behind its round. *)
Lemma leave_past b c s timeout stop : 0 <= c <= cond_cycle b /\ (s = true -> c < cond_cycle b) -> cond_leave b c timeout stop = true -> cut_short s timeout stop = false -> c < cond_cycle b.
Proof. unfold cond_leave, cut_short. intros [Hc Hs] Hl Hcut. destruct s; [by apply Hs|]. destruct timeout, stop; try done. simpl in Hl. lia. Qed.

Lemma fine_step st st' : fine (sy_b st) (sy_calls st) -> cstep st st' -> fine (sy_b st') (sy_calls st').
Proof.
  intros Hf H. destruct H as [b l k b' w c Hk Ha|b l k w c b' Hk He|b l k w c b' Hk He|b l k c s timeout stop Hk]; cbn [sy_b sy_calls] in *.
  - by eapply fine_arrive.
  - by eapply fine_last.
  - by eapply fine_wait.
  - destruct (cond_leave b c timeout stop) eqn:E; [|done]. apply (fine_return b l k c s); try done. intros Hcut. by apply (leave_past b c s timeout stop); [exact (fi_calls _ _ Hf k (Waiting c s) Hk)| |].
Qed.

Lemma tally_before f n : f Before = false -> tally f (replicate n Before) = 0.
Proof. intros E. induction n as [|n IH]; simpl; [done|]. rewrite E. simpl. lia. Qed.

(** A barrier with its settings, and [n] calls to be made. *)
Definition ready (b : barrier) (n : nat) : sys := mk_sys b (replicate n Before).
Definition set_up (b : barrier) : Prop := 2 <= expected b < 2 ^ 31 /\ waiters b = 0 /\ cond_cycle b = 0.

Lemma fine_ready b n : set_up b -> Z.of_nat n < 2 ^ 31 - 1 -> fine b (replicate n Before).
Proof.
  intros (He & Hw & Hc) Hn. split; rewrite ?length_replicate, ?Hw, ?Hc; try lia.
  - split; [lia|]. pose proof (tally_bounds undecided (replicate n Before)) as H. rewrite length_replicate in H. lia.
  - by rewrite tally_before.
  - intros r H. by rewrite tally_before.
  - rewrite tally_before by (cbn; done). unfold full. rewrite Hw. by rewrite (proj2 (Z.eqb_neq 0 _)) by lia.
  - intros k p H. apply lookup_replicate in H as [-> _]. done.
Qed.

Lemma fine_run b n st : set_up b -> Z.of_nat n < 2 ^ 31 - 1 -> rtc cstep (ready b n) st -> fine (sy_b st) (sy_calls st).
Proof.
  intros Hb Hn H. assert (fine (sy_b (ready b n)) (sy_calls (ready b n))) as Hf by by apply fine_ready. revert Hf. clear Hb. generalize dependent (ready b n).
  intros st0 H. induction H as [st0|st1 st2 st3 Hs _ IH]; [done|]. intros Hf. apply IH. by eapply fine_step.
Qed.

(** ** Safety *)

(** A cond barrier as the command makes it. *)
Definition declared (b : barrier) : Prop :=
  exists name av b0, barrier_cond (barrier_new name) av = Ok b0 /\ 0 <= expected b0 /\ (b = b0 \/ barrier_cyclic b0 = Ok b).

Lemma declared_set_up b : declared b -> set_up b.
Proof.
  intros (name & av & b0 & H & Hn & Hb). unfold barrier_cond, barrier_expect in H. cbn in H. destruct (_ <? 2) eqn:E; [done|]. injection H as <-.
  pose proof (wrapu_range 32 (strtoul 0 av).1 ltac:(lia)) as Hr. cbn in Hn. set (m := u32 _) in *.
  assert (m < 2 ^ 31) as Hm by (unfold wraps, wrapu in Hn; rewrite (Z.mod_small m) in Hn by lia; case_match; lia). rewrite wraps_small in * by lia.
  destruct Hb as [->|Hb]; [|unfold barrier_cyclic in Hb; cbn in Hb; injection Hb as <-]; split; cbn; lia.
Qed.

Lemma cstep_keeps st st' : cstep st st' -> expected (sy_b st') = expected (sy_b st) /\ length (sy_calls st') = length (sy_calls st).
Proof.
  intros []; cbn [sy_b sy_calls]; rewrite ?length_fmap, ?length_insert; try done.
  - unfold cond_arrive, assertC in H0. destruct (_ <=? _); [|done]. cbn [mbind outcome_bind] in H0. by destruct (_ =? _); injection H0 as <- _ _.
  - unfold cond_enter in H0. destruct (w <? 0); [done|]. destruct (w =? _); [|done]. injection H0 as <-. by destruct (truth _).
  - unfold cond_enter in H0. destruct (w <? 0); [done|]. destruct (w =? _); [done|]. by injection H0 as <-.
  - by destruct (cond_leave b c timeout stop); rewrite ?length_insert.
Qed.

Lemma run_keeps st st' : rtc cstep st st' -> expected (sy_b st') = expected (sy_b st) /\ length (sy_calls st') = length (sy_calls st).
Proof. induction 1 as [|st1 st2 st3 H _ [IH1 IH2]]; [done|]. apply cstep_keeps in H as [? ?]. split; congruence. Qed.

(** C17: When a call has returned and its wait was not cut short, exactly as many
    calls as the barrier expects have arrived in its round: none is let through
    early, and none too many.  A wait is cut short when it ends without a
    broadcast, as POSIX allows, or while [vtc_stop] or [vtc_error] is set. *)
Theorem barrier_waits b n st k c : declared b -> Z.of_nat n < 2 ^ 31 - 1 -> rtc cstep (ready b n) st ->
  sy_calls st !! k = Some (Returned c false) -> tally (in_round c) (sy_calls st) = expected b.
Proof.
  intros Hb Hn H Hk. destruct (run_keeps _ _ H) as [He _]. apply declared_set_up in Hb. pose proof (fine_run b n st Hb Hn H) as [].
  pose proof (fi_calls0 k _ Hk) as [Hc0 Hc]. cbn in Hc. rewrite (fi_past0 c); [exact He|]. specialize (Hc eq_refl). lia.
Qed.

(** ** Liveness *)

Definition call_weight (p : call) : Z := match p with Before => 3 | Between _ _ => 2 | Waiting _ _ => 1 | Returned _ _ => 0 end.
Fixpoint weight (l : list call) : Z := match l with [] => 0 | p :: l => call_weight p + weight l end.
Definition through (st : sys) : Prop := forall k p, sy_calls st !! (k : nat) = Some p -> exists c cut, p = Returned c cut.

Lemma weight_insert l k p q : l !! k = Some p -> weight (<[k := q]> l) = weight l - call_weight p + call_weight q.
Proof. revert k. induction l as [|x l IH]; intros [|k] H; simpl in *; simplify_eq; [lia|]. rewrite (IH k H). lia. Qed.
Lemma weight_wake l : weight (wake <$> l) = weight l.
Proof. induction l as [|p l IH]; [done|]. cbn [fmap list_fmap weight]. f_equal; [by destruct p|exact IH]. Qed.
Lemma weight_nonneg l : 0 <= weight l.
Proof. induction l as [|p l IH]; [done|]. cbn [weight]. destruct p; simpl; lia. Qed.

(** The calls whose wait was cut short, and a step on without another such. *)
Definition was_cut (p : call) : bool := match p with Returned _ cut => cut | _ => false end.
Definition cuts (st : sys) : Z := tally was_cut (sy_calls st).
Definition onward (st st' : sys) : Prop := cstep st st' /\ weight (sy_calls st') < weight (sy_calls st) /\ cuts st' = cuts st.

(** Every step is a wait that times out in vain or brings the calls on. *)
Lemma step_weight st st' : cstep st st' -> st' = st \/ weight (sy_calls st') < weight (sy_calls st).
Proof.
  intros [b l k b' w c Hk Ha|b l k w c b' Hk He|b l k w c b' Hk He|b l k c s' timeout stop Hk]; cbn [sy_b sy_calls].
  - right. rewrite (weight_insert l k _ _ Hk). simpl. lia.
  - right. rewrite weight_wake, (weight_insert l k _ _ Hk). simpl. lia.
  - right. rewrite (weight_insert l k _ _ Hk). simpl. lia.
  - destruct (cond_leave b c timeout stop); [right|by left]. rewrite (weight_insert l k _ _ Hk). simpl. lia.
Qed.

Lemma tally_full f l : (forall k p, l !! (k : nat) = Some p -> f p = true) -> tally f l = Z.of_nat (length l).
Proof. induction l as [|p l IH]; intros H; [done|]. cbn [tally length]. rewrite (H 0%nat p eq_refl), IH; [simpl; lia|]. intros k q Hk. by apply (H (S k)). Qed.

Lemma tally_none f l : tally f l = 0 -> forall k p, l !! (k : nat) = Some p -> f p = false.
Proof. intros H k p Hk. destruct (f p) eqn:E; [|done]. pose proof (tally_pos f l k p Hk E). lia. Qed.

Definition is_before (p : call) : bool := match p with Before => true | _ => false end.
Lemma tally_disjoint f l : f Before = false -> tally f l + tally is_before l <= Z.of_nat (length l).
Proof. intros H. induction l as [|p l IH]; [done|]. cbn [tally length]. destruct p; simpl; rewrite ?H; unfold bit; repeat case_match; lia. Qed.

(** As many calls as are expected: none is turned away. *)
Definition accepted (l : list call) : Prop := forall k w c, l !! (k : nat) = Some (Between w c) -> w <> -1.

Lemma room b l k : fine b l -> Z.of_nat (length l) = expected b -> l !! k = Some Before -> waiters b < expected b.
Proof.
  intros [] Hn Hk. assert (0 < tally is_before l) as H by by eapply tally_pos. pose proof (tally_disjoint (in_round (this_round b)) l eq_refl). lia.
Qed.

Lemma arrive_room b : 0 <= waiters b < expected b -> expected b < 2 ^ 31 -> cond_arrive b = Ok (set_waiters b (waiters b + 1), waiters b + 1, cond_cycle b).
Proof. intros H He. unfold cond_arrive. rewrite (proj2 (Z.leb_le _ _)) by lia. cbn [assertC mbind outcome_bind]. rewrite (proj2 (Z.eqb_neq _ _)) by lia. by rewrite wraps_small by lia. Qed.

Lemma accepted_step st st' : fine (sy_b st) (sy_calls st) -> Z.of_nat (length (sy_calls st)) = expected (sy_b st) -> accepted (sy_calls st) -> cstep st st' -> accepted (sy_calls st').
Proof.
  intros Hf Hn Ha H. destruct H as [b l k b' w c Hk Hc|b l k w c b' Hk He|b l k w c b' Hk He|b l k c s timeout stop Hk]; cbn [sy_b sy_calls] in *; intros j w' c' Hj.
  - pose proof (room b l k Hf Hn Hk) as Hr. pose proof Hf as []. rewrite arrive_room in Hc by lia. injection Hc as <- <- <-.
    apply list_lookup_insert_Some in Hj as [(_ & [= <- <-] & _)|(_ & Hj)]; [lia|by eapply Ha].
  - rewrite list_lookup_fmap in Hj. destruct (<[k := Returned c false]> l !! j) as [q|] eqn:E; [|done]. injection Hj as Hq.
    apply list_lookup_insert_Some in E as [(_ & <- & _)|(_ & E)]; [done|]. destruct q; try done. injection Hq as -> ->. by eapply Ha.
  - apply list_lookup_insert_Some in Hj as [(_ & [=] & _)|(_ & Hj)]. by eapply Ha.
  - destruct (cond_leave b c timeout stop); [apply list_lookup_insert_Some in Hj as [(_ & [=] & _)|(_ & Hj)]|]; by eapply Ha.
Qed.

(** Something can always be done. *)
Lemma progress st : fine (sy_b st) (sy_calls st) -> Z.of_nat (length (sy_calls st)) = expected (sy_b st) -> accepted (sy_calls st) ->
  through st \/ exists st', onward st st'.
Proof.
  destruct st as [b l]. cbn [sy_b sy_calls]. intros Hf Hn Ha. pose proof Hf as [].
  destruct (decide (0 < tally is_before l)) as [Hb|Hb].
  { right. destruct (tally_find _ _ Hb) as (k & p & Hk & Hp). destruct p; try done. pose proof (room b l k Hf Hn Hk) as Hr.
    eexists. split; [eapply step_arrive; [exact Hk|apply arrive_room; lia]|]. unfold cuts. cbn [sy_calls]. rewrite (weight_insert l k _ _ Hk), (tally_insert _ l k _ _ Hk). simpl. lia. }
  destruct (decide (0 < tally undecided l)) as [Hu|Hu].
  { right. destruct (tally_find _ _ Hu) as (k & p & Hk & Hp). destruct p as [|w c|c s|c cut]; try done.
    { pose proof (tally_pos is_before l k _ Hk eq_refl). lia. }
    pose proof (Ha k w c Hk) as Hw. destruct (fi_calls0 k _ Hk) as [?|(? & _)]; [done|].
    assert (exists b' r, cond_enter b w = Ok (b', r)) as (b' & r & He) by (unfold cond_enter; rewrite (proj2 (Z.ltb_ge w 0)) by lia; destruct (w =? expected b); by eexists _, _).
    destruct r; eexists; (split; [first [eapply step_last; [exact Hk|exact He]|eapply step_wait; [exact Hk|exact He]]|]); unfold cuts; cbn [sy_calls]; rewrite ?weight_wake, ?(tally_wake was_cut) by (by intros []); rewrite (weight_insert l k _ _ Hk), (tally_insert _ l k _ _ Hk); simpl; lia. }
  pose proof (tally_bounds undecided l) as Hub. assert (tally undecided l = 0) as Hu0 by lia. pose proof (tally_none _ _ Hu0) as Hun.
  assert (0 < cond_cycle b) as Hpos.
  { destruct (decide (0 < cond_cycle b)) as [|Hz]; [done|exfalso]. assert (cond_cycle b = 0) as Hz0 by lia.
    assert (tally (in_round 0) l = Z.of_nat (length l)) as Hall.
    { apply tally_full. intros k p Hk. specialize (Hun k p Hk). pose proof (fi_calls0 k p Hk) as Hc. destruct p as [|w c|c s|c cut]; try done; cbn in *; lia. }
    assert (this_round b = 0) as Hr by (unfold this_round; destruct (truth (cyclic b)); lia). rewrite Hr in fi_now0.
    assert (full b = true) as Hfull by (unfold full; rewrite Hz0; rewrite (proj2 (Z.eqb_eq _ _)) by lia; by rewrite orb_true_r).
    rewrite Hfull in fi_last0. destruct (tally_find (is_last (expected b)) l ltac:(simpl in fi_last0; lia)) as (k & p & Hk & Hp). specialize (Hun k p Hk). by destruct p. }
  assert (forall k p, l !! k = Some p -> in_round 0 p = true) as Hall by (apply tally_all; rewrite fi_past0; lia).
  destruct (decide (Exists (fun p => call_weight p <> 0) l)) as [He|He].
  - right. apply Exists_exists in He as (p & Hp & Hw). apply list_elem_of_lookup in Hp as (k & Hk). specialize (Hall k p Hk). specialize (Hun k p Hk). destruct p as [|w c|c s|c cut]; try done.
    cbn in Hall. assert (c = 0) as -> by lia. eexists. split; [apply (step_leave b l k 0 s true false Hk)|]. unfold cond_leave, cuts. rewrite (proj2 (Z.eqb_neq 0 _)) by lia. cbn [andb negb sy_calls].
    rewrite (weight_insert l k _ _ Hk), (tally_insert _ l k _ _ Hk). destruct s; simpl; lia.
  - left. intros k p Hk. destruct p as [|w c|c s|c cut]; [..|by eexists _, _]; exfalso; apply He, Exists_exists; eexists; (split; [by eapply list_elem_of_lookup_2|done]).
Qed.

Lemma all_through st : fine (sy_b st) (sy_calls st) -> Z.of_nat (length (sy_calls st)) = expected (sy_b st) -> accepted (sy_calls st) ->
  exists st', rtc cstep st st' /\ through st' /\ cuts st' = cuts st.
Proof.
  remember (Z.to_nat (weight (sy_calls st))) as n eqn:E. revert st E. induction n as [n IH] using (well_founded_induction lt_wf). intros st -> Hf Hn Ha.
  destruct (progress st Hf Hn Ha) as [H|(st1 & Hs & Hw & Hcut)]; [by exists st|]. pose proof (cstep_keeps _ _ Hs) as [He Hl]. pose proof (weight_nonneg (sy_calls st1)).
  destruct (IH (Z.to_nat (weight (sy_calls st1))) ltac:(lia) st1 eq_refl) as (st' & Hr & Ht & He'); [by eapply fine_step|lia|by eapply accepted_step|].
  exists st'. split; [by eapply rtc_l|]. split; [done|congruence].
Qed.

(** C20: As many calls as the barrier expects: whatever has happened so far, each
    step is a time-out without effect or brings the calls closer to their end,
    of which there are finitely many, and all of them can be brought to return
    without another wait being cut short.  The steps include waits that end
    without a broadcast and those that end because the test is being stopped. *)
Theorem barrier_opens b n st : declared b -> Z.of_nat n = expected b -> Z.of_nat n < 2 ^ 31 - 1 -> rtc cstep (ready b n) st ->
  (forall st', cstep st st' -> st' = st \/ weight (sy_calls st') < weight (sy_calls st)) /\
  (through st \/ exists st', onward st st') /\
  exists st', rtc cstep st st' /\ through st' /\ cuts st' = cuts st.
Proof.
  intros Hb Hn Hn' H. destruct (run_keeps _ _ H) as [He Hl]. cbn [ready sy_b sy_calls] in He, Hl. rewrite length_replicate in Hl. apply declared_set_up in Hb.
  pose proof (fine_run b n st Hb Hn' H) as Hf.
  assert (accepted (sy_calls st)) as Ha.
  { clear Hf. assert (accepted (sy_calls (ready b n))) as H0 by (intros k w c Hk; apply lookup_replicate in Hk as [? _]; done).
    assert (fine (sy_b (ready b n)) (sy_calls (ready b n))) as Hf by by apply fine_ready. assert (Z.of_nat (length (sy_calls (ready b n))) = expected (sy_b (ready b n))) as Hn0 by (cbn; rewrite length_replicate; lia).
    clear He Hl. induction H as [st0|st1 st2 st3 Hs _ IH]; [done|]. pose proof (cstep_keeps _ _ Hs) as [? ?]. apply IH; [by eapply accepted_step|by eapply fine_step|lia]. }
  split; [intros st'; apply step_weight|]. split; [apply progress|apply all_through]; try done; lia.
Qed.

(** ** Waits that return for no reason *)

(** The loop of a call that waits takes every wait that returns zero for the
    broadcast: one that returns for no reason lets the call through alone. *)
Theorem barrier_spurious b n : declared b -> exists st,
  rtc cstep (ready b (S n)) st /\ sy_calls st !! 0%nat = Some (Returned 0 true) /\ tally (in_round 0) (sy_calls st) = 1 /\ 1 < expected b.
Proof.
  intros Hb%declared_set_up. destruct Hb as (He & Hw & Hc). set (b1 := set_waiters b 1).
  exists (mk_sys b1 (Returned 0 true :: replicate n Before)). cbn [sy_calls]. split_and!; [|done| |lia].
  - eapply rtc_l; [apply (step_arrive b _ 0 b1 1 0); [done|]|].
    { rewrite arrive_room, Hw, Hc by lia. done. }
    eapply rtc_l; [apply (step_wait b1 _ 0 1 0 b1); [done|]|].
    { unfold cond_enter, b1. cbn [Z.ltb Z.compare set_waiters expected]. by rewrite (proj2 (Z.eqb_neq 1 _)) by lia. }
    eapply rtc_l; [apply (step_leave b1 _ 0 0 false false false); done|]. unfold cond_leave, cut_short. rewrite andb_false_r. apply rtc_refl.
  - cbn. by rewrite tally_before.
Qed.

(** A cyclic barrier turns a call of the next round away when it comes before
    the last call of this one has woken the others. *)
Lemma cyclic_race b : declared b -> exists st, rtc cstep (ready b (S (Z.to_nat (expected b)))) st /\ exists c, sy_calls st !! Z.to_nat (expected b) = Some (Between (-1) c).
Proof.
  intros Hb%declared_set_up. destruct Hb as (He & Hw & Hc).
  assert (forall m, (m <= Z.to_nat (expected b))%nat -> exists l, rtc cstep (ready b (S (Z.to_nat (expected b)))) (mk_sys (set_waiters b (Z.of_nat m)) l) /\
    length l = S (Z.to_nat (expected b)) /\ forall k, (m <= k < length l)%nat -> l !! k = Some Before) as H.
  { intros m. induction m as [|m IH]; intros Hm.
    - exists (replicate (S (Z.to_nat (expected b))) Before). assert (set_waiters b (Z.of_nat 0) = b) as -> by (unfold set_waiters; change (Z.of_nat 0) with 0; rewrite <-Hw; by destruct b).
      split; [apply rtc_refl|]. rewrite length_replicate. split; [done|]. intros k Hk. apply lookup_replicate_2. lia.
    - destruct IH as (l & Hr & Hl & Hbe); [lia|]. exists (<[m := Between (Z.of_nat (S m)) (cond_cycle b)]> l). split; [|split; [by rewrite length_insert|]].
      + eapply rtc_r; [exact Hr|]. apply (step_arrive (set_waiters b (Z.of_nat m)) l m); [apply Hbe; lia|]. rewrite arrive_room by (cbn; lia). cbn. repeat f_equal; lia.
      + intros k Hk. rewrite length_insert in Hk. rewrite list_lookup_insert_ne by lia. apply Hbe. lia. }
  destruct (H (Z.to_nat (expected b)) ltac:(lia)) as (l & Hr & Hl & Hbe). eexists. split.
  - eapply rtc_r; [exact Hr|]. eapply (step_arrive _ l (Z.to_nat (expected b))); [apply Hbe; lia|]. unfold cond_arrive. cbn [set_waiters waiters expected cond_cycle].
    rewrite (proj2 (Z.leb_le _ _)) by lia. cbn [assertC mbind outcome_bind]. rewrite (proj2 (Z.eqb_eq _ _)) by lia. done.
  - exists (cond_cycle b). cbn [sy_calls]. apply list_lookup_insert_eq. lia.
Qed.

(** ** Sock barriers *)

(** Events without errors, and the connections among them. *)
Definition quiet (e : poll_ev) : Prop := match e with PollErr | AcceptErr => False | _ => True end.
Fixpoint conns_of (evs : list poll_ev) : list Z := match evs with [] => [] | PollConn i :: evs => i :: conns_of evs | _ :: evs => conns_of evs end.

(** What has been closed after the connections [cs]: whole rounds. *)
Definition rounds (e : Z) (cs : list Z) : nat := (Z.to_nat e * (length cs / Z.to_nat e))%nat.

Lemma rounds_short e cs : Z.of_nat (length cs) < e -> rounds e cs = 0%nat.
Proof. intros H. unfold rounds. rewrite Nat.div_small by lia. lia. Qed.

Lemma rounds_app e p cs : 0 < e -> Z.of_nat (length p) = e -> rounds e (p ++ cs) = (Z.to_nat e + rounds e cs)%nat.
Proof.
  intros He Hp. unfold rounds. rewrite length_app. replace (length p + length cs)%nat with (1 * Z.to_nat e + length cs)%nat by lia. rewrite Nat.div_add_l by lia. lia.
Qed.

Lemma rounds_le e cs : 0 < e -> (rounds e cs <= length cs)%nat.
Proof. intros He. unfold rounds. apply Nat.Div0.mul_div_le. Qed.

Lemma sock_loop_cyclic evs b conns closed p : Forall quiet evs -> truth (cyclic b) = true -> 2 <= expected b < 2 ^ 31 ->
  Z.of_nat (length p) = waiters b -> waiters b < expected b -> Z.of_nat (length conns) = expected b -> take (length p) conns = p ->
  let cs := p ++ conns_of evs in
  exists conns', sock_loop evs b conns closed = Ok (set_waiters b (Z.of_nat (length cs - rounds (expected b) cs)), conns', closed ++ take (rounds (expected b) cs) cs) /\
    take (length cs - rounds (expected b) cs) conns' = drop (rounds (expected b) cs) cs.
Proof.
  intros Hq Hc He. revert b conns closed p Hc He. induction Hq as [|ev evs Hev Hq IH]; intros b conns closed p Hc He Hw Hlt Hl Hp cs.
  - unfold cs. cbn [conns_of]. rewrite app_nil_r. rewrite rounds_short by lia. exists conns. cbn [sock_loop take drop]. rewrite drop_0, app_nil_r, Nat.sub_0_r, Hw. split; [by destruct b|done].
  - destruct ev as [| | |fd|]; try done; [by apply IH|by apply IH|]. cbn [sock_loop]. rewrite (proj2 (Z.leb_le _ _)) by lia. cbn [assertC mbind outcome_bind]. rewrite (proj2 (Z.eqb_neq _ _)) by lia.
    assert (Z.to_nat (waiters b) = length p) as Hi by lia. rewrite Hi. rewrite writeC_lt by lia. cbn [mbind outcome_bind]. rewrite wraps_small by lia. cbn [set_waiters waiters expected cyclic].
    assert (take (S (length p)) (<[length p := fd]> conns) = p ++ [fd]) as Ht.
    { rewrite (take_S_r _ _ fd) by (apply list_lookup_insert_eq; lia). by rewrite take_insert_ge, Hp. }
    unfold cs. cbn [conns_of]. change (p ++ fd :: conns_of evs) with (p ++ [fd] ++ conns_of evs). rewrite app_assoc.
    destruct (waiters b + 1 <? expected b) eqn:E.
    + change (set_waiters b (waiters b + 1)) with (set_waiters b (waiters b + 1)).
      destruct (IH (set_waiters b (waiters b + 1)) (<[length p := fd]> conns) closed (p ++ [fd])) as (conns' & E1 & E2);
        [done|done|cbn; rewrite length_app; simpl; lia|cbn; lia|by rewrite length_insert|by rewrite length_app, Nat.add_1_r|].
      exists conns'. split; [|exact E2]. exact E1.
    + change (truth (cyclic (set_waiters b (waiters b + 1)))) with (truth (cyclic b)). rewrite Hc.
      assert (Z.to_nat (expected b) = S (length p)) as Hn by lia. rewrite Hn, Ht.
      destruct (IH (set_waiters b 0) (map (fun _ => -1) (<[length p := fd]> conns)) (closed ++ p ++ [fd]) []) as (conns' & E1 & E2);
        [done|done|done|cbn; lia|by rewrite length_map, length_insert|done|].
      cbn [app set_waiters expected] in E1, E2. exists conns'. rewrite (rounds_app _ (p ++ [fd])) by (rewrite ?length_app; simpl; lia). rewrite Hn.
      assert (length (p ++ [fd]) = S (length p)) as Hpf by (rewrite length_app; simpl; lia).
      rewrite take_app_add', drop_app_add' by done. rewrite length_app, Hpf.
      replace (S (length p) + length (conns_of evs) - (S (length p) + rounds (expected b) (conns_of evs)))%nat with (length (conns_of evs) - rounds (expected b) (conns_of evs))%nat by lia.
      split; [|exact E2]. rewrite (app_assoc closed (p ++ [fd])). exact E1.
Qed.

(** A cyclic sock barrier answers its callers round by round: after any
    connections it has closed those of the whole rounds, in order, and holds the
    others; when the test ends it closes these too, and reports them. *)
Theorem sock_rounds b evs error : b_type b = BARRIER_SOCK -> truth (cyclic b) = true -> 2 <= expected b < 2 ^ 31 -> waiters b = 0 -> Forall quiet evs ->
  let cs := conns_of evs in
  (exists b' conns, sock_loop evs b (replicate (Z.to_nat (expected b)) 0) [] = Ok (b', conns, take (rounds (expected b) cs) cs)) /\
  (Z.of_nat (length cs) `mod` expected b = 0 -> exists b', barrier_sock_thread evs error b = Ok (b', cs)) /\
  (Z.of_nat (length cs) `mod` expected b <> 0 -> match barrier_sock_thread evs error b with Ok (_, closed) => error = true /\ closed = cs | Fault f => error = false /\ f = FFatal end).
Proof.
  intros Hty Hc He Hw Hq cs. destruct (sock_loop_cyclic evs b (replicate (Z.to_nat (expected b)) 0) [] [] Hq Hc He) as (conns & E & Ec); [by rewrite Hw|lia|rewrite length_replicate; lia|done|].
  cbn [app] in E, Ec. fold cs in E, Ec. set (m := (length cs - rounds (expected b) cs)%nat) in *.
  assert (Z.of_nat m = Z.of_nat (length cs) `mod` expected b) as Hm.
  { unfold m. pose proof (rounds_le (expected b) cs ltac:(lia)). rewrite Nat2Z.inj_sub by done. unfold rounds. rewrite Nat2Z.inj_mul, Nat2Z.inj_div, Z2Nat.id by lia. Z.to_euclidean_division_equations; lia. }
  assert (Z.of_nat m < expected b) as Hlt by (rewrite Hm; apply Z.mod_pos_bound; lia).
  split; [by eexists _, _|]. unfold barrier_sock_thread. rewrite bool_decide_eq_true_2 by done. cbn [assertC mbind outcome_bind]. rewrite E. cbn [mbind outcome_bind set_waiters waiters expected].
  rewrite Z.rem_small by lia. split; intros H.
  - rewrite (proj2 (Z.ltb_ge 0 _)) by lia. eexists. do 2 f_equal. apply take_ge. unfold m in *. lia.
  - rewrite (proj2 (Z.ltb_lt 0 _)) by lia. destruct error; [|done]. split; [done|]. rewrite Nat2Z.id, Ec. apply take_drop.
Qed.

(** ** Examples *)

Definition example_barrier (cyc : Z) : barrier := mk_barrier (str "b1") 0 2 cyc BARRIER_COND 0.

Lemma example_declared cyc : cyc = 0 \/ cyc = 1 -> declared (example_barrier cyc).
Proof.
  intros H. exists (str "b1"), (str "2"), (example_barrier 0). split; [reflexivity|]. split; [done|]. destruct H as [->| ->]; [by left|by right].
Qed.

(** Two threads meet. *)
Definition example_met : sys := mk_sys (mk_barrier (str "b1") 2 2 0 BARRIER_COND 1) [Waiting 0 true; Returned 0 false].

Lemma example_run : rtc cstep (ready (example_barrier 0) 2) example_met.
Proof.
  eapply rtc_l; [apply (step_arrive _ _ 0); reflexivity|].
  eapply rtc_l; [apply (step_wait _ _ 0 1 0); reflexivity|].
  eapply rtc_l; [apply (step_arrive _ _ 1); reflexivity|].
  eapply rtc_l; [apply (step_last _ _ 1 2 0); reflexivity|]. apply rtc_refl.
Qed.

Lemma barrier_waits_witness : sy_calls example_met !! 1%nat = Some (Returned 0 false) /\ tally (in_round 0) (sy_calls example_met) = 2.
Proof. split; [reflexivity|]. apply (barrier_waits (example_barrier 0) 2 example_met 1 0 (example_declared 0 (or_introl eq_refl)) ltac:(lia) example_run). reflexivity. Defined.

Lemma barrier_opens_witness : (forall st', cstep example_met st' -> st' = example_met \/ weight (sy_calls st') < weight (sy_calls example_met)) /\
  (through example_met \/ exists st', onward example_met st') /\
  exists st', rtc cstep example_met st' /\ through st' /\ cuts st' = cuts example_met.
Proof. apply (barrier_opens (example_barrier 0) 2 example_met (example_declared 0 (or_introl eq_refl))); [reflexivity|lia|exact example_run]. Defined.

Lemma barrier_spurious_witness : exists st, rtc cstep (ready (example_barrier 0) 1) st /\ sy_calls st !! 0%nat = Some (Returned 0 true) /\
  tally (in_round 0) (sy_calls st) = 1 /\ 1 < expected (example_barrier 0).
Proof. apply (barrier_spurious (example_barrier 0) 0 (example_declared 0 (or_introl eq_refl))). Defined.

Lemma sock_rounds_witness : let b := mk_barrier (str "b1") 0 2 1 BARRIER_SOCK 0 in let evs := [PollConn 7; PollTimeout; PollConn 8; PollConn 9] in
  (exists b' conns, sock_loop evs b [0; 0] [] = Ok (b', conns, [7; 8])) /\
  (3 `mod` 2 = 0 -> exists b', barrier_sock_thread evs true b = Ok (b', [7; 8; 9])) /\
  (3 `mod` 2 <> 0 -> match barrier_sock_thread evs true b with Ok (_, closed) => true = true /\ closed = [7; 8; 9] | Fault f => true = false /\ f = FFatal end).
Proof. apply (sock_rounds (mk_barrier (str "b1") 0 2 1 BARRIER_SOCK 0) [PollConn 7; PollTimeout; PollConn 8; PollConn 9] true); [reflexivity|reflexivity|simpl; lia|reflexivity|by repeat constructor]. Defined.
