(* ===== verification/Http1.v ===== *)
(** * HTTP/1 messages (src/vtc_http.c)

    The scripts of clients and servers: receiving, taking apart and sending
    messages.  The receive buffer is a list of bytes and the pointers into it
    are offsets; [rx_e] is its end.  A connection brings events, one for each
    [poll] and [read], and takes whatever is written. *)

From Stdlib Require Import ZArith Lia ZifyBool String.
From stdpp Require Import base option numbers list.
From S2P Require Import Prelude CStr Vct VtcSubr Gzip HpackData HpackTbl HpackHdr H2Recv H2Send H2Expect.
#[local] Open Scope Z_scope.

(** What [poll] and [read] find; [RData] holds bytes that are there, and [REof]
    stays. *)
Inductive rx_ev := RData (d : list Z) | REof | RErr | RPollIntr | RPollTimeout | RPollErr.

(** [h_h2] is the part of the structure that HTTP/2 uses, once it runs. *)
Record http1 := mk_http1 {
  h_rx_b : list Z;
  h_rx_p : nat;
  h_body : option nat;
  h_bodyl : Z;
  h_bodylen : list Z;
  h_chunklen : list Z;
  h_req : list (option nat);
  h_resp : list (option nat);
  h_in : list rx_ev;
  h_out : list Z;
  h_vsb : list Z;
  h_head_method : bool;
  h_fatal1 : Z;
  h_sfd : bool;
  h_gz1 : gz;
  h_h2 : option http;
  h_rem_ip : list Z;
  h_rem_port : list Z;
  h_rem_path : option (list Z) }.

Definition set_rx (hp : http1) (b : list Z) (p : nat) (es : list rx_ev) : http1 :=
  mk_http1 b p (h_body hp) (h_bodyl hp) (h_bodylen hp) (h_chunklen hp) (h_req hp) (h_resp hp) es (h_out hp) (h_vsb hp) (h_head_method hp) (h_fatal1 hp) (h_sfd hp) (h_gz1 hp) (h_h2 hp) (h_rem_ip hp) (h_rem_port hp) (h_rem_path hp).
Definition set_bodies (hp : http1) (body : option nat) (bodyl : Z) (bodylen : list Z) : http1 :=
  mk_http1 (h_rx_b hp) (h_rx_p hp) body bodyl bodylen (h_chunklen hp) (h_req hp) (h_resp hp) (h_in hp) (h_out hp) (h_vsb hp) (h_head_method hp) (h_fatal1 hp) (h_sfd hp) (h_gz1 hp) (h_h2 hp) (h_rem_ip hp) (h_rem_port hp) (h_rem_path hp).
Definition set_chunklen (hp : http1) (s : list Z) : http1 :=
  mk_http1 (h_rx_b hp) (h_rx_p hp) (h_body hp) (h_bodyl hp) (h_bodylen hp) s (h_req hp) (h_resp hp) (h_in hp) (h_out hp) (h_vsb hp) (h_head_method hp) (h_fatal1 hp) (h_sfd hp) (h_gz1 hp) (h_h2 hp) (h_rem_ip hp) (h_rem_port hp) (h_rem_path hp).
Definition set_hh (hp : http1) (req : bool) (hh : list (option nat)) : http1 :=
  mk_http1 (h_rx_b hp) (h_rx_p hp) (h_body hp) (h_bodyl hp) (h_bodylen hp) (h_chunklen hp) (if req then hh else h_req hp) (if req then h_resp hp else hh) (h_in hp) (h_out hp) (h_vsb hp) (h_head_method hp) (h_fatal1 hp) (h_sfd hp) (h_gz1 hp) (h_h2 hp) (h_rem_ip hp) (h_rem_port hp) (h_rem_path hp).
Definition set_out (hp : http1) (o : list Z) : http1 :=
  mk_http1 (h_rx_b hp) (h_rx_p hp) (h_body hp) (h_bodyl hp) (h_bodylen hp) (h_chunklen hp) (h_req hp) (h_resp hp) (h_in hp) o (h_vsb hp) (h_head_method hp) (h_fatal1 hp) (h_sfd hp) (h_gz1 hp) (h_h2 hp) (h_rem_ip hp) (h_rem_port hp) (h_rem_path hp).
Definition set_vsb (hp : http1) (v : list Z) : http1 :=
  mk_http1 (h_rx_b hp) (h_rx_p hp) (h_body hp) (h_bodyl hp) (h_bodylen hp) (h_chunklen hp) (h_req hp) (h_resp hp) (h_in hp) (h_out hp) v (h_head_method hp) (h_fatal1 hp) (h_sfd hp) (h_gz1 hp) (h_h2 hp) (h_rem_ip hp) (h_rem_port hp) (h_rem_path hp).
Definition set_head (hp : http1) (b : bool) : http1 :=
  mk_http1 (h_rx_b hp) (h_rx_p hp) (h_body hp) (h_bodyl hp) (h_bodylen hp) (h_chunklen hp) (h_req hp) (h_resp hp) (h_in hp) (h_out hp) (h_vsb hp) b (h_fatal1 hp) (h_sfd hp) (h_gz1 hp) (h_h2 hp) (h_rem_ip hp) (h_rem_port hp) (h_rem_path hp).
Definition set_gz1 (hp : http1) (g : gz) : http1 :=
  mk_http1 (h_rx_b hp) (h_rx_p hp) (h_body hp) (h_bodyl hp) (h_bodylen hp) (h_chunklen hp) (h_req hp) (h_resp hp) (h_in hp) (h_out hp) (h_vsb hp) (h_head_method hp) (h_fatal1 hp) (h_sfd hp) g (h_h2 hp) (h_rem_ip hp) (h_rem_port hp) (h_rem_path hp).
Definition set_fatal1 (hp : http1) (n : Z) : http1 :=
  mk_http1 (h_rx_b hp) (h_rx_p hp) (h_body hp) (h_bodyl hp) (h_bodylen hp) (h_chunklen hp) (h_req hp) (h_resp hp) (h_in hp) (h_out hp) (h_vsb hp) (h_head_method hp) n (h_sfd hp) (h_gz1 hp) (h_h2 hp) (h_rem_ip hp) (h_rem_port hp) (h_rem_path hp).
Definition set_h2 (hp : http1) (h : option http) : http1 :=
  mk_http1 (h_rx_b hp) (h_rx_p hp) (h_body hp) (h_bodyl hp) (h_bodylen hp) (h_chunklen hp) (h_req hp) (h_resp hp) (h_in hp) (h_out hp) (h_vsb hp) (h_head_method hp) (h_fatal1 hp) (h_sfd hp) (h_gz1 hp) h (h_rem_ip hp) (h_rem_port hp) (h_rem_path hp).

Definition log_fatal1 (hp : http1) : outcome unit := vtc_log (h_fatal1 hp).
Definition is_h2 (hp : http1) : bool := match h_h2 hp with Some _ => true | None => false end.
Definition ONLY_CLIENT (hp : http1) : outcome unit := if is_h2 hp || h_sfd hp then Fault FFatal else Ok tt.
Definition ONLY_SERVER (hp : http1) : outcome unit := if is_h2 hp || negb (h_sfd hp) then Fault FFatal else Ok tt.

Definition nl : list Z := [13; 10].
(** [bprintf] to an array of twenty. *)
Definition bprintf20 (s : list Z) : outcome (list Z) := _ ← assertC (length s <? 20)%nat; Ok s.

(** ** Header fields *)

(** [strncasecmp(s, t, n) == 0]. *)
Definition strncaseeq (n : nat) (s t : list Z) : bool := bool_decide (map tolower (take n s) = map tolower (take n t)).
(** [strcasecmp(s, t) == 0]. *)
Definition strcaseeq (s t : list Z) : bool := bool_decide (map tolower s = map tolower t).

(** The string a pointer into the buffer stands for. *)
Definition str_at (b : list Z) (p : nat) : outcome (list Z) := string_at (drop p b).

(** Whether a line is the field [hdr], and what is behind the colon. *)
Definition field_value (line hdr : list Z) : option (list Z) :=
  if strncaseeq (length hdr) hdr line && bool_decide (line !! length hdr = Some 58) then Some (drop (S (length hdr)) line) else None.

(** [for (n = 3; hh[n] != NULL; n++)] from an [hh + n]. *)
Fixpoint find_header_loop (b : list Z) (hh : list (option nat)) (hdr : list Z) : outcome (option (list Z)) :=
  match hh with
  | [] => Fault FBounds
  | None :: _ => Ok None
  | Some p :: hh =>
      s ← str_at b p;
      match field_value s hdr with
      | Some v => Ok (Some (skip_to vct_issp v))
      | None => find_header_loop b hh hdr
      end
  end.
Definition http_find_header (b : list Z) (hh : list (option nat)) (hdr : list Z) : outcome (option (list Z)) := find_header_loop b (drop 3 hh) hdr.

Fixpoint count_header_loop (b : list Z) (hh : list (option nat)) (hdr : list Z) (r : Z) : outcome Z :=
  match hh with
  | [] => Fault FBounds
  | None :: _ => Ok r
  | Some p :: hh => s ← str_at b p; count_header_loop b hh hdr (match field_value s hdr with Some _ => r + 1 | None => r end)
  end.
Definition http_count_header (b : list Z) (hh : list (option nat)) (hdr : list Z) : outcome Z := count_header_loop b (drop 3 hh) hdr 0.

(** ** expect *)

Definition hh_str (hp : http1) (hh : list (option nat)) (n : nat) : outcome (option (list Z)) :=
  p ← readC hh n;
  match p with Some p => s ← str_at (h_rx_b hp) p; Ok (Some s) | None => Ok None end.

(** NULL, or the string that the word stands for. *)
Definition cmd_var_resolve1 (hp : http1) (spec : list Z) : outcome (option (list Z)) :=
  let body := match h_body hp with Some p => s ← str_at (h_rx_b hp) p; Ok (Some s) | None => Ok (Some spec) end in
  if streq spec "remote.ip" then Ok (Some (h_rem_ip hp))
  else if streq spec "remote.port" then Ok (Some (h_rem_port hp))
  else if streq spec "remote.path" then Ok (h_rem_path hp)
  else if streq spec "req.method" then hh_str hp (h_req hp) 0
  else if streq spec "req.url" then hh_str hp (h_req hp) 1
  else if streq spec "req.proto" then hh_str hp (h_req hp) 2
  else if streq spec "resp.proto" then hh_str hp (h_resp hp) 0
  else if streq spec "resp.status" then hh_str hp (h_resp hp) 1
  else if streq spec "resp.reason" then hh_str hp (h_resp hp) 2
  else if streq spec "resp.chunklen" then Ok (Some (h_chunklen hp))
  else if streq spec "req.bodylen" then Ok (Some (h_bodylen hp))
  else if streq spec "req.body" then body
  else if streq spec "resp.bodylen" then Ok (Some (h_bodylen hp))
  else if streq spec "resp.body" then body
  else if starts_with spec "req.http." then http_find_header (h_rx_b hp) (h_req hp) (drop 9 spec)
  else if starts_with spec "resp.http." then http_find_header (h_rx_b hp) (h_resp hp) (drop 10 spec)
  else if streq spec "h2.state" then Ok (Some (str (if is_h2 hp then "true" else "false")))
  else Ok (Some spec).

Section expect.
Context (VRE_compile_ok : list Z -> bool) (VRE_match : list Z -> list Z -> bool).

Definition cmd_http_expect (hp : http1) (av : list (list Z)) : outcome http1 :=
  match av with
  | [a0; cmp; a2] =>
      lhs ← cmd_var_resolve1 hp a0;
      rhs ← cmd_var_resolve1 hp a2;
      _ ← vtc_expect VRE_compile_ok VRE_match lhs cmp rhs;
      Ok hp
  | _ => Fault FAssert
  end.
End expect.

(** The loop over the body; [t] is the byte that is due. *)
Fixpoint pattern_loop (p : list Z) (t : Z) : outcome unit :=
  match p with
  | [] => Fault FBounds
  | c :: p => if c =? 0 then Ok tt else if negb (c =? t) then Fault FFatal else pattern_loop p (Z.land (t + 1) (Z.lnot 8))
  end.
Definition cmd_http_expect_pattern (hp : http1) (av : list (list Z)) : outcome http1 :=
  _ ← assertC (length av =? 0)%nat;
  match h_body hp with
  | Some p => _ ← pattern_loop (drop p (h_rx_b hp)) 48; Ok hp
  | None => Fault FBounds
  end.

(** ** Taking a header apart *)

(** [while (f ( *p)) p++] and [while (!vct_iscrlf(p, rx_e)) p++]. *)
Definition skip_at (f : Z -> bool) (b : list Z) (p : nat) : outcome nat := r ← skip f (drop p b); Ok (length b - length r)%nat.
Fixpoint to_crlf (r : list Z) : outcome nat :=
  match r with
  | [] => Fault FAssert
  | _ :: r' => if truth (vct_iscrlf r) then Ok 0%nat else n ← to_crlf r'; Ok (S n)
  end.
Definition crlf_at (b : list Z) (p : nat) : Z := vct_iscrlf (drop p b).
Definition past_crlf (b : list Z) (p : nat) : nat := (p + Z.to_nat (crlf_at b p))%nat.

(** [while ( *p != '\0' && !vct_iscrlf(p, rx_e)) p++]. *)
Fixpoint to_line_end (r : list Z) : outcome nat :=
  match r with
  | [] => Fault FBounds
  | c :: r' => if (c =? 0) || truth (vct_iscrlf r) then Ok 0%nat else n ← to_line_end r'; Ok (S n)
  end.

(** The loop over the lines of the header. *)
Fixpoint split_lines (fuel : nat) (b : list Z) (hh : list (option nat)) (n p : nat) : outcome (list Z * list (option nat) * nat) :=
  match fuel with
  | O => Fault FFuel
  | S fuel =>
      c ← readC b p;
      if c =? 0 then Ok (b, hh, p)
      else
        _ ← assertC (n <? MAX_HDR)%nat;
        if truth (crlf_at b p) then Ok (b, hh, p)
        else
          let hh := <[n := Some p]> hh in
          k ← to_line_end (drop (S p) b);
          let q := (S p + k)%nat in
          c ← readC b q;
          if c =? 0 then Ok (b, hh, q)
          else let p := past_crlf b q in b ← writeC b q 0; split_lines fuel b hh (S n) p
  end.

(** The lines of the log, up to the first pointer that is NULL. *)
Fixpoint log_lines (n : nat) (hh : list (option nat)) : outcome unit :=
  match n, hh with
  | _, [] => Fault FBounds
  | S n, _ :: hh => log_lines n hh
  | O, Some _ :: hh => log_lines O hh
  | O, None :: _ => Ok tt
  end.

Definition http_splitheader (hp : http1) (req : bool) : outcome http1 :=
  let b := h_rx_b hp in
  let hh := replicate MAX_HDR None in
  c ← readC b 0;
  if c =? 0 then Ok (set_hh hp req hh)
  else
    p ← skip_at vct_islws b 0;
    let hh := <[0%nat := Some p]> hh in
    p ← skip_at (fun c => negb (vct_islws c)) b p;
    _ ← assertC (crlf_at b p =? 0);
    b ← writeC b p 0;
    p ← skip_at vct_issp b (S p);
    _ ← assertC (crlf_at b p =? 0);
    let hh := <[1%nat := Some p]> hh in
    p ← skip_at (fun c => negb (vct_islws c)) b p;
    '(b, hh, p) ← (if truth (crlf_at b p) then
                     let q := p in let p := past_crlf b p in b ← writeC b q 0; Ok (b, hh, p)
                   else
                     b ← writeC b p 0;
                     p ← skip_at vct_issp b (S p);
                     let hh := <[2%nat := Some p]> hh in
                     k ← to_crlf (drop p b);
                     let q := (p + k)%nat in let p := past_crlf b q in b ← writeC b q 0; Ok (b, hh, p));
    '(b, hh, p) ← split_lines (length b) b hh 3 p;
    let p := past_crlf b p in
    c ← readC b p;
    _ ← assertC (c =? 0);
    _ ← log_lines 3 hh;
    Ok (set_hh (set_rx hp b (h_rx_p hp) (h_in hp)) req hh).

(** ** Receiving *)

(** The bytes [d] at [rx_p], with a NUL behind them. *)
Definition rx_put (hp : http1) (d : list Z) (es : list rx_ev) : outcome http1 :=
  b ← memcpy (h_rx_b hp) (h_rx_p hp) d;
  let p := (h_rx_p hp + length d)%nat in
  b ← writeC b p 0;
  Ok (set_rx hp b p es).
Definition set_in (hp : http1) (es : list rx_ev) : http1 := set_rx hp (h_rx_b hp) (h_rx_p hp) es.

(** [while (n > 0)]; a connection that brings nothing more times out again and
    again. *)
Fixpoint rxchar_loop (fuel : nat) (hp : http1) (n : Z) (eof : bool) : outcome (http1 * Z) :=
  if n <=? 0 then Ok (hp, 1)
  else
    match h_in hp, fuel with
    | [], _ => _ ← log_fatal1 hp; Fault FFuel
    | _, O => Fault FFuel
    | e :: es, S fuel =>
        let room := assertC (Z.of_nat (h_rx_p hp) + n <? Z.of_nat (length (h_rx_b hp))) in
        let at_eof := _ ← room; if eof : bool then Ok (hp, 0) else _ ← log_fatal1 hp; Ok (hp, -1) in
        match e with
        | RPollIntr => rxchar_loop fuel (set_in hp es) n eof
        | RPollTimeout | RPollErr => _ ← log_fatal1 hp; rxchar_loop fuel (set_in hp es) n eof
        | RErr => _ ← room; _ ← log_fatal1 (set_in hp es); Ok (set_in hp es, -1)
        | REof | RData [] => at_eof
        | RData d =>
            _ ← room;
            let got := take (Z.to_nat n) d in
            hp ← rx_put hp got (match drop (Z.to_nat n) d with [] => es | r => RData r :: es end);
            rxchar_loop fuel hp (n - Z.of_nat (length got)) eof
        end
    end.
Definition http_rxchar (hp : http1) (n : Z) (eof : bool) : outcome (http1 * Z) := rxchar_loop (S (length (h_in hp))) hp n eof.

(** [do ... while (hp->rx_p[-1] != '\n')]; false when the connection ends. *)
Fixpoint rx_line (fuel : nat) (hp : http1) : outcome (http1 * bool) :=
  match fuel with
  | O => Fault FFuel
  | S fuel =>
      '(hp, i) ← http_rxchar hp 1 false;
      if i <? 0 then Ok (hp, false)
      else c ← readC (h_rx_b hp) (h_rx_p hp - 1); if c =? 10 then Ok (hp, true) else rx_line fuel hp
  end.

(** Moves [rx_p] back to [old]. *)
Definition rx_back (hp : http1) (old : nat) : http1 := set_rx hp (h_rx_b hp) old (h_in hp).

Definition http_rxchunk (hp : http1) : outcome (http1 * Z) :=
  let old := h_rx_p hp in
  '(hp, ok) ← rx_line (length (h_rx_b hp)) hp;
  if negb ok then Ok (hp, -1)
  else
    s ← str_at (h_rx_b hp) old;
    let '(v, r) := strtoul 16 s in
    let i := i32 v in
    cl ← bprintf20 (fmt_d i);
    let hp := set_chunklen hp cl in
    let q := (old + (length s - length r))%nat in
    if (length r =? length s)%nat || (q =? h_rx_p hp)%nat || match r with c :: _ => negb (vct_islws c) | [] => false end
    then _ ← log_fatal1 hp; Ok (hp, -1)
    else
      let hp := rx_back hp old in
      '(hp, j) ← (if 0 <? i then http_rxchar hp i false else Ok (hp, 1));
      if j <? 0 then Ok (hp, -1)
      else
        let old := h_rx_p hp in
        '(hp, j) ← http_rxchar hp 2 false;
        if j <? 0 then Ok (hp, -1)
        else if crlf_at (h_rx_b hp) old =? 0 then _ ← log_fatal1 hp; Ok (hp, -1)
        else b ← writeC (h_rx_b hp) old 0; Ok (set_rx hp b old (h_in hp), i).

(** [while (http_rxchunk(hp) > 0)]; [from] is where the body is, [l] what it
    had. *)
Fixpoint chunks_loop (fuel : nat) (hp : http1) (from : nat) (l max ll : Z) : outcome (http1 * Z) :=
  match fuel with
  | O => Fault FFuel
  | S fuel =>
      '(hp, i) ← http_rxchunk hp;
      if i <=? 0 then Ok (hp, ll)
      else
        let ll := Z.of_nat (h_rx_p hp) - Z.of_nat from - l in
        if truth max && (max <=? ll) then Ok (hp, ll) else chunks_loop fuel hp from l max ll
  end.

(** [do ... while (i > 0)]; None when reading fails. *)
Fixpoint eof_loop (fuel : nat) (hp : http1) (max ll : Z) : outcome (http1 * option Z) :=
  match fuel with
  | O => Fault FFuel
  | S fuel =>
      '(hp, i) ← http_rxchar hp 1 true;
      if i <? 0 then Ok (hp, None)
      else
        let ll := ll + i in
        if truth max && (max <=? ll) then Ok (hp, Some ll)
        else if 0 <? i then eof_loop fuel hp max ll else Ok (hp, Some ll)
  end.

Definition http_swallow_body (hp : http1) (hh : list (option nat)) (body : bool) (max : Z) : outcome http1 :=
  match h_body hp with
  | None => Fault FUndef
  | Some from =>
      let l := Z.of_nat (h_rx_p hp) - Z.of_nat from in
      p ← http_find_header (h_rx_b hp) hh (str "transfer-encoding");
      q ← http_find_header (h_rx_b hp) hh (str "content-length");
      let fuel := S (length (h_rx_b hp)) in
      let fin (hp : http1) (l : Z) := s ← bprintf20 (fmt_d l); Ok (set_bodies hp (h_body hp) l s) in
      let rest :=
        match q with
        | Some q =>
            let ll := i32 (strtoul 10 q).1 in
            let ll := if truth max && (l + max <? ll) then max else i32 (ll - l) in
            '(hp, i) ← http_rxchar hp ll false;
            if i <? 0 then Ok hp else fin hp (i32 (l + ll))
        | None =>
            if body then
              '(hp, ll) ← eof_loop fuel hp max 0;
              match ll with Some ll => fin hp (l + ll) | None => Ok hp end
            else fin hp 0
        end in
      match p with
      | Some p =>
          if strcaseeq p (str "chunked") then
            match q with
            | Some _ => _ ← log_fatal1 hp; Ok hp
            | None => '(hp, ll) ← chunks_loop fuel hp from l max 0; fin hp (l + ll)
            end
          else rest
      | None => rest
      end
  end.

(** The state [s] of the loop, and [i] when it ends. *)
Definition hdr_state (s c : Z) : option Z :=
  if (s =? 0) && (c =? 13) then Some 1
  else if ((s =? 0) || (s =? 1)) && (c =? 10) then Some 2
  else if (s =? 2) && (c =? 13) then Some 3
  else if ((s =? 2) || (s =? 3)) && (c =? 10) then None
  else Some 0.
Fixpoint rxhdr_loop (fuel : nat) (hp : http1) (s : Z) : outcome (http1 * Z) :=
  match fuel with
  | O => Fault FFuel
  | S fuel =>
      let p := h_rx_p hp in
      '(hp, i) ← http_rxchar hp 1 true;
      if i <? 1 then Ok (hp, i)
      else
        c ← readC (h_rx_b hp) p;
        match hdr_state s c with Some s => rxhdr_loop fuel hp s | None => Ok (hp, i) end
  end.

Definition http_rxhdr (hp : http1) : outcome http1 :=
  b ← writeC (h_rx_b hp) 0 0;
  let hp := set_rx hp b 0 (h_in hp) in
  let hp := set_bodies hp None (h_bodyl hp) (str "<undef>") in
  '(hp, i) ← rxhdr_loop (S (length (h_rx_b hp))) hp 0;
  _ ← (if i <? 1 then log_fatal1 hp else Ok tt);
  b ← writeC (h_rx_b hp) (h_rx_p hp) 0;
  let hp := set_rx hp b (h_rx_p hp) (h_in hp) in
  Ok (set_bodies hp (Some (h_rx_p hp)) (h_bodyl hp) (h_bodylen hp)).

Definition one_length (hp : http1) (hh : list (option nat)) : outcome unit :=
  n ← http_count_header (h_rx_b hp) hh (str "Content-Length"); if 1 <? n then Fault FFatal else Ok tt.

(** [av] is what follows the name of the command. *)
Fixpoint rxresp_args (av : list (list Z)) (has_obj : bool) : outcome bool :=
  match av with
  | [] => Ok has_obj
  | a :: av => if streq a "-no_obj" then rxresp_args av false else Fault FFatal
  end.

Definition cmd_http_rxresp (hp : http1) (av : list (list Z)) : outcome http1 :=
  _ ← ONLY_CLIENT hp;
  has_obj ← rxresp_args av true;
  hp ← http_rxhdr hp;
  hp ← http_splitheader hp false;
  _ ← one_length hp (h_resp hp);
  s0 ← hh_str hp (h_resp hp) 0;
  s1 ← hh_str hp (h_resp hp) 1;
  match s0, s1 with
  | Some _, Some st => if negb has_obj || h_head_method hp then Ok hp else http_swallow_body hp (h_resp hp) (streq st "200") 0
  | _, _ => Ok hp
  end.

Definition cmd_http_rxresphdrs (hp : http1) (av : list (list Z)) : outcome http1 :=
  _ ← ONLY_CLIENT hp;
  match av with
  | [] => hp ← http_rxhdr hp; hp ← http_splitheader hp false; _ ← one_length hp (h_resp hp); Ok hp
  | _ => Fault FFatal
  end.

Definition cmd_http_rxreq (hp : http1) (av : list (list Z)) : outcome http1 :=
  _ ← ONLY_SERVER hp;
  match av with
  | [] => hp ← http_rxhdr hp; hp ← http_splitheader hp true; _ ← one_length hp (h_req hp); http_swallow_body hp (h_req hp) false 0
  | _ => Fault FFatal
  end.

Definition cmd_http_rxreqhdrs (hp : http1) (av : list (list Z)) : outcome http1 :=
  match av with
  | [] => hp ← http_rxhdr hp; hp ← http_splitheader hp true; _ ← one_length hp (h_req hp); Ok hp
  | _ => Fault FFatal
  end.

Definition cmd_http_rxreqbody (hp : http1) (av : list (list Z)) : outcome http1 :=
  _ ← ONLY_SERVER hp;
  match av with [] => http_swallow_body hp (h_req hp) false 0 | _ => Fault FFatal end.

(** [atoi]. *)
Definition atoi (s : list Z) : Z :=
  let p := skip_to isspace s in
  let '(neg, p) := match p with 45 :: p => (true, p) | 43 :: p => (false, p) | _ => (false, p) end in
  let v := (ul_span 10 0 p).1 in
  let v := if neg : bool then - v else v in
  i32 (if v <? - 2 ^ 63 then - 2 ^ 63 else if 2 ^ 63 - 1 <? v then 2 ^ 63 - 1 else v).

Fixpoint rxrespbody_args (fuel : nat) (av : list (list Z)) (max : Z) : outcome Z :=
  match av, fuel with
  | [], _ => Ok max
  | _, O => Fault FFuel
  | a :: av, S fuel => if streq a "-max" then '(n, av) ← next_arg av; rxrespbody_args fuel av (atoi n) else Fault FFatal
  end.
Definition cmd_http_rxrespbody (hp : http1) (av : list (list Z)) : outcome http1 :=
  _ ← ONLY_CLIENT hp;
  max ← rxrespbody_args (length av) av 0;
  http_swallow_body hp (h_resp hp) true max.

Definition cmd_http_rxchunk (hp : http1) : outcome http1 :=
  _ ← ONLY_CLIENT hp;
  '(hp, i) ← http_rxchunk hp;
  if i =? 0 then
    match h_body hp with
    | Some from => let ll := i32 (Z.of_nat (h_rx_p hp) - Z.of_nat from) in s ← bprintf20 (fmt_d ll); Ok (set_bodies hp (h_body hp) ll s)
    | None => Fault FUndef
    end
  else Ok hp.

(** The body is decompressed where it lies. *)
Definition cmd_http_gunzip {zst} (inflateInit2 : option zst) inflate (fuel : nat) (hp : http1) : outcome http1 :=
  match h_body hp with
  | None => Fault FAssert
  | Some from =>
      '(d, n) ← vtc_gunzip zst inflateInit2 inflate fuel (h_fatal1 hp) (Some (drop from (h_rx_b hp))) (h_bodyl hp);
      s ← bprintf20 (fmt_d n);
      Ok (set_bodies (set_rx hp (take from (h_rx_b hp) ++ d) (h_rx_p hp) (h_in hp)) (Some from) n s)
  end.
