(* ===== verification/Http1Tx.v ===== *)
(** * Sending HTTP/1 messages (src/vtc_http.c)

    The commands that write to the connection and those that switch it to
    HTTP/2.  [vsb] holds the bytes that were appended to it.  Files, the macros,
    zlib and the interpreter of scripts are parameters. *)

From Stdlib Require Import ZArith Lia ZifyBool String.
From stdpp Require Import base option numbers list.
From S2P Require Import Prelude CStr Vct VtcSubr Gzip HpackData HpackTbl HpackHdr H2Recv H2Send H2Expect Http1.
#[local] Open Scope Z_scope.

(** [VSB_printf] and its kin. *)
Definition put (hp : http1) (s : list Z) : http1 := set_vsb hp (h_vsb hp ++ s).
Definition http_write (hp : http1) : http1 := set_out hp (h_out hp ++ h_vsb hp).

(** ** The arguments of both messages *)

(** [nolen], [nohost], [nodate], [noserver] and [nouseragent]. *)
Record tx_no := mk_tx_no { no_len : bool; no_host : bool; no_date : bool; no_server : bool; no_agent : bool }.

Definition no_hdr (n : tx_no) (h : list Z) : tx_no :=
  let named (w : string) := strncaseeq (length (str w)) h (str w) in
  mk_tx_no (no_len n || named "Content-Length:"%string || named "Transfer-Encoding:"%string) (no_host n || named "Host:"%string)
    (no_date n || named "Date:"%string) (no_server n || named "Server:"%string) (no_agent n || named "User-Agent:"%string).

(** [while (l-- > 0) VSB_putc('0' + l % 10)]. *)
Fixpoint hdrlen_value (l : nat) : list Z := match l with O => [] | S l => (48 + Z.of_nat l `mod` 10) :: hdrlen_value l end.

(** The first loop: options and header fields. *)
Fixpoint tx_hdrs (fuel : nat) (hp : http1) (n : tx_no) (av : list (list Z)) : outcome (http1 * tx_no * list (list Z)) :=
  match av, fuel with
  | [], _ => Ok (hp, n, [])
  | _, O => Fault FFuel
  | a :: rest, S fuel =>
      if streq a "-nolen" then tx_hdrs fuel hp (mk_tx_no true (no_host n) (no_date n) (no_server n) (no_agent n)) rest
      else if streq a "-nohost" then tx_hdrs fuel hp (mk_tx_no (no_len n) true (no_date n) (no_server n) (no_agent n)) rest
      else if streq a "-nodate" then tx_hdrs fuel hp (mk_tx_no (no_len n) (no_host n) true (no_server n) (no_agent n)) rest
      else if streq a "-hdr" then '(h, rest) ← next_arg rest; tx_hdrs fuel (put hp (h ++ nl)) (no_hdr n h) rest
      else if streq a "-hdrlen" then
        '(h, rest) ← next_arg rest;
        '(l, rest) ← next_arg rest;
        tx_hdrs fuel (put hp (h ++ str ": " ++ hdrlen_value (Z.to_nat (atoi l)) ++ nl)) n rest
      else Ok (hp, n, av)
  end.

(** The loop of [-body] that turns [\0] into a NUL. *)
Fixpoint body_nuls (fuel : nat) (b : list Z) : list Z :=
  match fuel with
  | O => b
  | S fuel =>
      match b with
      | [] => []
      | 92 :: 48 :: r => 0 :: take 1 r ++ body_nuls fuel (drop 1 r)
      | c :: r => c :: body_nuls fuel r
      end
  end.

Section tx.
Context (zst : Type) (deflateInit2 : Z -> option zst) (deflate : flush -> zst -> list Z -> nat -> Z * list Z * list Z * zst).
Context (stop_bit : option (zst -> Z)) (rnd : Z -> Z) (zfuel : nat).
Context (readfile : list Z -> option (list Z)).
(** The macros [localhost] and [date], the name of the session, and whether the
    allocator gives the block of the first body to the second. *)
Context (localhost date sess_name : list Z) (reuse : bool).

(** The second loop: the body.  [same] tells whether [body == nullbody]. *)
Fixpoint tx_body (fuel : nat) (hp : http1) (body : option (list Z)) (bodylen : Z) (same : bool) (av : list (list Z)) :
    outcome (http1 * option (list Z) * Z * list (list Z)) :=
  match av, fuel with
  | [], _ => Ok (hp, body, bodylen, [])
  | _, O => Fault FFuel
  | a :: rest, S fuel =>
      let again := match body with Some _ => reuse && same | None => false end in
      if streq a "-body" then
        _ ← assertC same;
        match rest with
        | [] => Fault FAssert
        | s :: rest => let b := body_nuls (length s) s in tx_body fuel hp (Some b) (Z.of_nat (length b)) again rest
        end
      else if streq a "-bodyfrom" then
        _ ← assertC same;
        '(f, rest) ← next_arg rest;
        match readfile f with
        | None => Fault FAssert
        | Some b => _ ← assertC (Z.of_nat (length b) <? 2147483647); tx_body fuel hp (Some b) (Z.of_nat (length b)) again rest
        end
      else if streq a "-bodylen" then
        _ ← assertC same;
        match rest with
        | [] => Fault FAssert
        | l :: rest => b ← synth_body l None; tx_body fuel hp (Some b) (Z.of_nat (length b)) again rest
        end
      else if starts_with a "-gzip" then
        '(l, g, b) ← vtc_gzip_cmd zst deflateInit2 deflate stop_bit rnd zfuel (h_gz1 hp) (h_fatal1 hp) av;
        let hp := set_gz1 hp g in
        if l =? 0 then Ok (hp, body, bodylen, av)
        else
          '(_, rest) ← next_arg rest;
          match b with
          | Some b => tx_body fuel (if 1 <? l then put hp (str "Content-Encoding: gzip" ++ nl) else hp) (Some b) (Z.of_nat (length b)) again rest
          | None => tx_body fuel hp body bodylen same rest
          end
      else Ok (hp, body, bodylen, av)
  end.

Definition http_tx_parse_args (av : list (list Z)) (hp : http1) (body : option (list Z)) (n : tx_no) : outcome (http1 * list (list Z)) :=
  '(hp, n, av) ← tx_hdrs (length av) hp n av;
  '(hp, body, bodylen, av) ← tx_body (length av) hp body 0 true av;
  let hp := if no_host n then hp else put hp (str "Host: " ++ localhost ++ nl) in
  let hp := if no_date n then hp else put hp (str "Date: " ++ date ++ nl) in
  let hp := if no_server n then hp else put hp (str "Server: " ++ sess_name ++ nl) in
  let hp := if no_agent n then hp else put hp (str "User-Agent: " ++ sess_name ++ nl) in
  let hp := match body with Some _ => if no_len n then hp else put hp (str "Content-Length: " ++ fmt_d bodylen ++ nl) | None => hp end in
  let hp := put hp nl in
  let hp := match body with Some b => put hp (take (Z.to_nat bodylen) b) | None => hp end in
  Ok (hp, av).

(** ** txreq, txresp *)

Section script.
(** [parse_string] on a script of its own. *)
Context (parse_string : list Z -> http1 -> outcome http1).

(** [req], [url], [proto], [up], [nouseragent] and [head_method]. *)
Fixpoint txreq_args (fuel : nat) (av : list (list Z)) (req url proto : list Z) (up : option (list Z)) (agent head : bool) :
    outcome (list Z * list Z * list Z * option (list Z) * bool * bool * list (list Z)) :=
  match av, fuel with
  | [], _ => Ok (req, url, proto, up, agent, head, [])
  | _, O => Fault FFuel
  | a :: rest, S fuel =>
      if streq a "-url" then '(s, rest) ← next_arg rest; txreq_args fuel rest req s proto up agent head
      else if streq a "-proto" then '(s, rest) ← next_arg rest; txreq_args fuel rest req url s up agent head
      else if streq a "-method" || streq a "-req" then '(s, rest) ← next_arg rest; txreq_args fuel rest s url proto up agent (streq s "HEAD")
      else if streq a "-up" then '(s, rest) ← next_arg rest; txreq_args fuel rest req url proto (Some s) agent head
      else if streq a "-nouseragent" then txreq_args fuel rest req url proto up true head
      else Ok (req, url, proto, up, agent, head, av)
  end.

Definition cmd_http_txreq (hp : http1) (av : list (list Z)) : outcome http1 :=
  _ ← ONLY_CLIENT hp;
  let hp := set_vsb hp [] in
  '(req, url, proto, up, agent, head, av) ← txreq_args (length av) av (str "GET") (str "/") (str "HTTP/1.1") None false false;
  let hp := set_head hp head in
  let hp := put hp (req ++ [32] ++ url ++ [32] ++ proto ++ nl) in
  let hp := match up with
            | Some up => put hp (str "Connection: Upgrade, HTTP2-Settings" ++ nl ++ str "Upgrade: h2c" ++ nl ++ str "HTTP2-Settings: " ++ up ++ nl)
            | None => hp
            end in
  '(hp, av) ← http_tx_parse_args av hp None (mk_tx_no false (negb (streq proto "HTTP/1.1")) true true agent);
  match av with
  | _ :: _ => Fault FFatal
  | [] =>
      let hp := http_write hp in
      match up with
      | None => Ok hp
      | Some up =>
          hp ← parse_string (str "rxresp
expect resp.status == 101
expect resp.http.connection == Upgrade
expect resp.http.upgrade == h2c
txpri
") hp;
          hp ← (match h_h2 hp with Some h => h ← b64_settings (length up) h up; Ok (set_h2 hp (Some h)) | None => Fault FUndef end);
          parse_string (str "stream 0 {
    txsettings
    rxsettings
    txsettings -ack
    rxsettings
    expect settings.ack == true} -start
") hp
      end
  end.

Fixpoint txresp_args (fuel : nat) (av : list (list Z)) (proto status reason : list Z) (server : bool) : outcome (list Z * list Z * list Z * bool * list (list Z)) :=
  match av, fuel with
  | [], _ => Ok (proto, status, reason, server, [])
  | _, O => Fault FFuel
  | a :: rest, S fuel =>
      if streq a "-proto" then '(s, rest) ← next_arg rest; txresp_args fuel rest s status reason server
      else if streq a "-status" then '(s, rest) ← next_arg rest; txresp_args fuel rest proto s reason server
      else if streq a "-reason" then '(s, rest) ← next_arg rest; txresp_args fuel rest proto status s server
      else if streq a "-noserver" then txresp_args fuel rest proto status reason true
      else Ok (proto, status, reason, server, av)
  end.

Definition cmd_http_txresp (hp : http1) (av : list (list Z)) : outcome http1 :=
  _ ← ONLY_SERVER hp;
  let hp := set_vsb hp [] in
  '(proto, status, reason, server, av) ← txresp_args (length av) av (str "HTTP/1.1") (str "200") (str "OK") false;
  let hp := put hp (proto ++ [32] ++ status ++ [32] ++ reason ++ nl) in
  '(hp, av) ← http_tx_parse_args av hp (Some []) (mk_tx_no false true false server true);
  match av with _ :: _ => Fault FFatal | [] => Ok (http_write hp) end.

Definition cmd_http_upgrade (hp : http1) : outcome http1 :=
  _ ← ONLY_SERVER hp;
  u ← http_find_header (h_rx_b hp) (h_req hp) (str "Upgrade");
  if negb (bool_decide (u = Some (str "h2c"))) then Fault FFatal
  else
    c ← http_find_header (h_rx_b hp) (h_req hp) (str "Connection");
    if negb (bool_decide (c = Some (str "Upgrade, HTTP2-Settings"))) then Fault FFatal
    else
      h ← http_find_header (h_rx_b hp) (h_req hp) (str "HTTP2-Settings");
      match h with
      | None => Fault FFatal
      | Some h =>
          hp ← parse_string (str "txresp -status 101 -hdr " ++ [34] ++ str "Connection: Upgrade" ++ [34] ++ str " -hdr " ++ [34] ++ str "Upgrade: h2c" ++ [34; 10]) hp;
          hp ← parse_string (str "rxpri
stream 0 {
    txsettings
    rxsettings
    txsettings -ack
    rxsettings
    expect settings.ack == true
} -start
") hp;
          match h_h2 hp with Some h2 => h2 ← b64_settings (length h) h2 h; Ok (set_h2 hp (Some h2)) | None => Fault FUndef end
      end.

Definition cmd_http_stream (cmd_stream : http1 -> outcome http1) (hp : http1) : outcome http1 :=
  hp ← (if is_h2 hp then Ok hp
        else
          hp ← parse_string (str (if h_sfd hp then "rxpri" else "txpri")) hp;
          parse_string (str "stream 0 {
    txsettings
    rxsettings
    txsettings -ack
    rxsettings
    expect settings.ack == true} -run
") hp);
  cmd_stream hp.
End script.
End tx.

(** ** Bytes on the connection *)

Definition one_arg (av : list (list Z)) : outcome (list Z) := match av with [a] => Ok a | _ => Fault FAssert end.

Definition cmd_http_send (hp : http1) (av : list (list Z)) : outcome http1 := a ← one_arg av; Ok (set_out hp (h_out hp ++ a)).
Definition cmd_http_sendhex (hp : http1) (av : list (list Z)) : outcome http1 :=
  a ← one_arg av; d ← vtc_hex_to_bin a; Ok (set_out hp (h_out hp ++ d)).

(** [while (n--)]: a negative number counts down through all integers. *)
Definition cmd_http_send_n (hp : http1) (av : list (list Z)) : outcome http1 :=
  match av with
  | [n; s] =>
      let n := i32 (strtoul 0 n).1 in
      if n <? 0 then Fault FUndef else Ok (set_out hp (h_out hp ++ concat (replicate (Z.to_nat n) s)))
  | _ => Fault FAssert
  end.

(** "%jx". *)
Fixpoint hex_digits_of (fuel : nat) (n : Z) (acc : list Z) : list Z :=
  match fuel with
  | O => acc
  | S fuel => let d := n `mod` 16 in let acc := (if d <? 10 then 48 + d else 87 + d) :: acc in if n <? 16 then acc else hex_digits_of fuel (n / 16) acc
  end.
Definition fmt_x (n : Z) : list Z := hex_digits_of 16 n [].

Definition cmd_http_chunked (hp : http1) (av : list (list Z)) : outcome http1 :=
  a ← one_arg av;
  Ok (http_write (put (set_vsb hp []) (fmt_x (Z.of_nat (length a)) ++ nl ++ a ++ nl))).

(** The pattern of [chunkedlen]. *)
Definition pattern (n : nat) : list Z := map (fun u => Z.land (Z.of_nat u) 7 + 48) (seq 0 n).
Definition cmd_http_chunkedlen (hp : http1) (av : list (list Z)) : outcome http1 :=
  a ← one_arg av;
  let len := u32 (atoi a) in
  Ok (http_write (put (set_vsb hp []) (if len =? 0 then [48] ++ nl ++ nl else fmt_x len ++ nl ++ pattern (Z.to_nat len) ++ nl))).

(** The loop of [recv], 32 bytes at a time; [read] waits for bytes. *)
Fixpoint recv_loop (fuel : nat) (hp : http1) (n : Z) : outcome http1 :=
  if n <=? 0 then Ok hp
  else
    match h_in hp, fuel with
    | [], _ | _, O => Fault FFuel
    | e :: es, S fuel =>
        match e with
        | RPollIntr | RPollTimeout | RPollErr => recv_loop fuel (set_in hp es) n
        | RErr => _ ← log_fatal1 hp; recv_loop fuel (set_in hp es) (n + 1)
        | REof | RData [] => _ ← log_fatal1 hp; recv_loop fuel hp n
        | RData d =>
            let k := Z.to_nat (Z.min 32 n) in
            recv_loop fuel (set_in hp (match drop k d with [] => es | r => RData r :: es end)) (n - Z.of_nat (length (take k d)))
        end
    end.
Definition cmd_http_recv (fuel : nat) (hp : http1) (av : list (list Z)) : outcome http1 :=
  a ← one_arg av; recv_loop fuel hp (i32 (strtoul 0 a).1).

Definition cmd_http_fatal (hp : http1) (name : list Z) (av : list (list Z)) : outcome http1 :=
  match av with
  | [] => if streq name "fatal" then Ok (set_fatal1 hp 0) else if streq name "non_fatal" then Ok (set_fatal1 hp (-1)) else Fault FAssert
  | _ => Fault FAssert
  end.

(** ** HTTP/2 *)

Definition PREFACE : list Z := [80; 82; 73; 32; 42; 32; 72; 84; 84; 80; 47; 50; 46; 48; 13; 10; 13; 10; 83; 77; 13; 10; 13; 10].

(** What [start_h2] finds of [no_rfc7540_priorities], and makes of the rest. *)
Definition begin_h2 (hp : http1) : http1 := set_h2 hp (Some (start_h2 (h_sfd hp) (h_fatal1 hp) 0 (h_gz1 hp) (h_out hp))).

Definition cmd_http_txpri (hp : http1) : outcome http1 :=
  _ ← ONLY_CLIENT hp; Ok (begin_h2 (set_out hp (h_out hp ++ PREFACE))).

(** [memcmp] on the buffer. *)
Definition cmd_http_rxpri (hp : http1) : outcome http1 :=
  _ ← ONLY_SERVER hp;
  '(hp, i) ← http_rxchar (rx_back hp 0) (Z.of_nat (length PREFACE)) false;
  if i =? 0 then Fault FFatal
  else
    eq ← memeq (h_rx_b hp) PREFACE;
    if negb eq then Fault FFatal else Ok (begin_h2 hp).

(** [av] starts with the name of the command. *)
Fixpoint settings_args (fuel : nat) (ctx : hpk_ctx) (av : list (list Z)) : outcome hpk_ctx :=
  match av, fuel with
  | [], _ => Ok ctx
  | _, O => Fault FFuel
  | a :: av, S fuel =>
      if streq a "-dectbl" then
        '(s, av) ← next_arg av;
        n ← STRTOU32 32 s;
        '(r, ctx) ← HPK_ResizeTbl ctx n;
        _ ← assertC (negb (bool_decide (r = hpk_err)));
        settings_args fuel ctx av
      else Fault FFatal
  end.
Definition cmd_http_settings (hp : http1) (av : list (list Z)) : outcome http1 :=
  match h_h2 hp with
  | None => Fault FFatal
  | Some h => ctx ← settings_args (length av) (h_decctx h) av; Ok (set_h2 hp (Some (set_ctxs h (h_encctx h) ctx)))
  end.

(** ** A connection *)

(** [mem] is what [malloc] gives for [rx_b]. *)
Definition http_process_new (mem : list Z) (sfd : bool) (ip port : list Z) (path : option (list Z)) (es : list rx_ev) : outcome http1 :=
  b ← writeC mem 0 0;
  Ok (mk_http1 b 0 None 0 [] [] (replicate MAX_HDR None) (replicate MAX_HDR None) es [] [] false 0 sfd (mk_gz 0 (-1)) None ip port path).
