(* ===== verification/Http1Rx.v ===== *)
(** * Receiving in pieces (src/vtc_http.c)

    Bytes reach the buffer in order however [read] cuts them, and the end of a
    header is found where the first empty line is. *)

From Stdlib Require Import ZArith Lia ZifyBool String.
From stdpp Require Import base option numbers list.
From S2P Require Import Prelude HpackData HpackTbl HpackHdr CStr Vct VtcSubr Gzip H2Recv H2Send H2Expect Http1.
#[local] Open Scope Z_scope.

(** ** Connections *)

(** Nothing but bytes and interrupted calls. *)
Definition calm_ev (e : rx_ev) : Prop := match e with RData (_ :: _) | RPollIntr => True | _ => False end.
Abbreviation calm := (Forall calm_ev).
Fixpoint bytes_of (es : list rx_ev) : list Z := match es with [] => [] | RData d :: es => d ++ bytes_of es | _ :: es => bytes_of es end.

Lemma memcpy_app a b c d : length b = length c -> memcpy (a ++ b ++ d) (length a) c = Ok (a ++ c ++ d).
Proof. intros Hl. unfold memcpy. rewrite !length_app, (proj2 (Nat.leb_le _ _)) by lia. by rewrite <-Hl, take_app_length, drop_app_add, drop_app_length. Qed.

(** A buffer that holds [a] up to [rx_p], which the rest follows. *)
Definition holds1 (hp : http1) (a : list Z) (r : list Z) : Prop := h_rx_b hp = a ++ r /\ h_rx_p hp = length a.

(** The buffer after [got] has been read behind [a]. *)
Definition took (hp : http1) (a got r : list Z) (es : list rx_ev) : http1 :=
  set_rx hp (a ++ got ++ 0 :: drop (S (length got)) r) (length a + length got) es.

Lemma rx_put_ok hp a r d es : holds1 hp a r -> (length d < length r)%nat -> rx_put hp d es = Ok (took hp a d r es).
Proof.
  intros [Hb Hp] Hl. unfold rx_put. rewrite Hb, Hp. rewrite <-(take_drop (length d) r) at 1. rewrite memcpy_app by (rewrite length_take; lia). cbn [mbind outcome_bind].
  destruct (drop (length d) r) as [|x t] eqn:E; [apply (f_equal length) in E; rewrite length_drop in E; simpl in E; lia|].
  rewrite writeC_lt by (rewrite !length_app; simpl; lia). cbn [mbind outcome_bind]. unfold took. do 2 f_equal.
  assert (t = drop (S (length d)) r) as -> by (replace (S (length d)) with (length d + 1)%nat by lia; by rewrite <-drop_drop, E).
  rewrite app_assoc, insert_app_r_alt by (rewrite length_app; lia). rewrite length_app, Nat.sub_diag. cbn. by rewrite <-app_assoc.
Qed.

Lemma took_took hp a g1 g2 r es1 es2 : took (took hp a g1 r es1) (a ++ g1) g2 (0 :: drop (S (length g1)) r) es2 = took hp a (g1 ++ g2) r es2.
Proof.
  unfold took, set_rx. cbn. rewrite !length_app. rewrite <-!app_assoc. rewrite drop_drop.
  replace (S (length g1) + length g2)%nat with (S (length g1 + length g2)) by lia. f_equal. lia.
Qed.

Lemma rxchar_loop_ok fuel hp a r n eof : holds1 hp a r -> calm (h_in hp) -> (0 < n)%nat -> (n <= length (bytes_of (h_in hp)))%nat -> (n < length r)%nat -> (length (h_in hp) < fuel)%nat ->
  exists es, rxchar_loop fuel hp (Z.of_nat n) eof = Ok (took hp a (take n (bytes_of (h_in hp))) r es, 1) /\ calm es /\ bytes_of es = drop n (bytes_of (h_in hp)).
Proof.
  revert hp a r n. induction fuel as [|fuel IH]; intros hp a r n Hh Hc Hn Hb Hr Hf; [lia|]. cbn [rxchar_loop]. rewrite (proj2 (Z.leb_gt _ 0)) by lia.
  destruct (h_in hp) as [|e es] eqn:Ein; [simpl in Hb; lia|]. apply Forall_cons in Hc as [He Hc]. destruct e as [[|c d]| | | | |]; try done.
  - unfold assertC. pose proof Hh as [Hbuf Hp]. rewrite (proj2 (Z.ltb_lt _ _)) by (rewrite Hbuf, length_app, Hp; lia). cbn [mbind outcome_bind]. rewrite Nat2Z.id.
    set (got := take n (c :: d)). assert (length got <= n)%nat as Hgn by (unfold got; rewrite length_take; lia). assert (0 < length got)%nat as Hg0 by (unfold got; rewrite length_take; simpl; lia).
    rewrite (rx_put_ok hp a r) by (done || lia). cbn [mbind outcome_bind].
    assert (bytes_of (RData (c :: d) :: es) = (c :: d) ++ bytes_of es) as -> by done.
    destruct (decide (n <= length (c :: d))%nat) as [Hle|Hle].
    + assert (length got = n) as Hgl by (unfold got; rewrite length_take; lia). rewrite Hgl, Z.sub_diag.
      eexists. split; [|split].
      * destruct fuel; cbn [rxchar_loop Z.leb Z.compare]; rewrite take_app_le by done; done.
      * destruct (drop n (c :: d)) eqn:E; [done|]. by constructor.
      * rewrite drop_app_le by done. by destruct (drop n (c :: d)).
    + assert (got = c :: d) as Hg by (unfold got; apply take_ge; lia). rewrite (drop_ge (c :: d)) by lia. rewrite Hg in *. set (hp1 := took hp a (c :: d) r es).
      cbn [bytes_of] in Hb. rewrite length_app in Hb.
      destruct (IH hp1 (a ++ c :: d) (0 :: drop (S (length (c :: d))) r) (n - length (c :: d))%nat) as (es' & E & Hc' & Hb').
      * split; unfold hp1, took; cbn [h_rx_b h_rx_p set_rx]; [by rewrite <-app_assoc|by rewrite length_app].
      * done.
      * lia.
      * cbn [h_in hp1 took set_rx]. lia.
      * cbn [length] in *. rewrite length_drop. lia.
      * cbn [h_in hp1 took set_rx]. simpl in Hf. lia.
      * exists es'. cbn [h_in hp1 took set_rx] in E, Hb'. replace (Z.of_nat n - Z.of_nat (length (c :: d))) with (Z.of_nat (n - length (c :: d))) by lia. rewrite E. split; [|split].
        -- unfold hp1. rewrite took_took, take_app_ge by lia. done.
        -- done.
        -- rewrite Hb', drop_app_ge by lia. done.
  - apply (IH (set_in hp es)); try done. simpl in Hf. cbn. lia.
Qed.

Lemma rxchar_ok hp a r n eof : holds1 hp a r -> calm (h_in hp) -> (0 < n)%nat -> (n <= length (bytes_of (h_in hp)))%nat -> (n < length r)%nat ->
  exists es, http_rxchar hp (Z.of_nat n) eof = Ok (took hp a (take n (bytes_of (h_in hp))) r es, 1) /\ calm es /\ bytes_of es = drop n (bytes_of (h_in hp)).
Proof. intros. apply rxchar_loop_ok; try done. lia. Qed.

Lemma took_holds hp a got r es : holds1 (took hp a got r es) (a ++ got) (0 :: drop (S (length got)) r).
Proof. split; cbn; [by rewrite <-app_assoc|by rewrite length_app]. Qed.

(** ** The end of a header *)

(** The bytes that the loop takes from state [s] on. *)
Fixpoint hdr_len (s : Z) (bs : list Z) : option nat :=
  match bs with
  | [] => None
  | c :: bs => match hdr_state s c with None => Some 1%nat | Some s => S <$> hdr_len s bs end
  end.

(** An empty line at the end, with or without carriage return. *)
Definition empty_line (h : list Z) : Prop := exists t, h = t ++ [10; 10] \/ h = t ++ [10; 13; 10].

(** What the state says of the bytes so far, last one first. *)
Definition state_ok (rp : list Z) (s : Z) : Prop :=
  match rp with
  | 10 :: _ => s = 2
  | 13 :: 10 :: _ => s = 3
  | _ => s = 0 \/ s = 1
  end.
Definition rev_empty (rp : list Z) : bool := match rp with 10 :: 10 :: _ | 10 :: 13 :: 10 :: _ => true | _ => false end.

Lemma rev_empty_ok h : rev_empty (rev h) = true <-> empty_line h.
Proof.
  split.
  - intros H. assert (exists t, rev h = 10 :: 10 :: t \/ rev h = 10 :: 13 :: 10 :: t) as (t & E).
    { destruct (rev h) as [|c1 [|c2 l]]; cbn in H; try done; repeat case_match; try done; subst; eexists; first [by left|by right]. }
    exists (rev t). destruct E as [E|E]; [left|right]; rewrite <-(rev_involutive h), E; cbn; by rewrite <-!app_assoc.
  - intros (t & [-> | ->]); by rewrite rev_app_distr.
Qed.

Lemma hdr_state_ok rp s c : state_ok rp s -> match hdr_state s c with None => rev_empty (c :: rp) = true | Some s' => rev_empty (c :: rp) = false /\ state_ok (c :: rp) s' end.
Proof.
  intros H. assert (c = 10 \/ c = 13 \/ c <> 10 /\ c <> 13) as [-> | [-> | [H10 H13]]] by lia.
  - destruct rp as [|x rp]; [destruct H as [-> | ->]; done|]. assert (x = 10 \/ x = 13 \/ x <> 10 /\ x <> 13) as [-> | [-> | [X1 X2]]] by lia.
    + cbn in H. by subst.
    + destruct rp as [|y rp]; [destruct H as [-> | ->]; done|]. destruct (decide (y = 10)) as [->|Y]; [cbn in H; by subst|].
      assert (s = 0 \/ s = 1) as Hs by (cbn in H; repeat case_match; try done; lia). assert (rev_empty (10 :: 13 :: y :: rp) = false) as -> by (cbn; repeat case_match; try done; lia). by destruct Hs as [-> | ->].
    + assert (s = 0 \/ s = 1) as Hs by (cbn in H; repeat case_match; try done; lia). assert (rev_empty (10 :: x :: rp) = false) as -> by (cbn; repeat case_match; try done; lia). by destruct Hs as [-> | ->].
  - assert (rev_empty (13 :: rp) = false) as -> by done. destruct rp as [|x rp]; [destruct H as [-> | ->]; cbn; auto|].
    destruct (decide (x = 10)) as [->|X]; [cbn in H; by subst|].
    assert (s = 0 \/ s = 1 \/ s = 3) as Hs by (cbn in H; repeat case_match; try done; lia). assert (state_ok (13 :: x :: rp) 0 /\ state_ok (13 :: x :: rp) 1) as [? ?] by (cbn; repeat case_match; try lia; auto).
    by destruct Hs as [-> | [-> | ->]].
  - assert (rev_empty (c :: rp) = false) as -> by (cbn; repeat case_match; try done; lia).
    assert (state_ok (c :: rp) 0) as H0 by (cbn; repeat case_match; try lia; auto).
    assert (hdr_state s c = Some 0) as ->; [|done]. unfold hdr_state. rewrite (proj2 (Z.eqb_neq c 10)), (proj2 (Z.eqb_neq c 13)) by done. by rewrite !andb_false_r.
Qed.

Lemma hdr_len_ok bs rp s n : state_ok rp s -> (hdr_len s bs = Some n <->
  (0 < n <= length bs)%nat /\ rev_empty (rev (take n bs) ++ rp) = true /\ forall m, (0 < m < n)%nat -> rev_empty (rev (take m bs) ++ rp) = false).
Proof.
  revert rp s n. induction bs as [|c bs IH]; intros rp s n Hs; cbn [hdr_len].
  { split; [done|]. intros ([H1 H2] & _). simpl in H2. lia. }
  pose proof (hdr_state_ok rp s c Hs) as H. destruct (hdr_state s c) as [s'|].
  - destruct H as [Hc Hs']. split.
    + destruct (hdr_len s' bs) as [k|] eqn:E; [|done]. intros [= <-]. apply (IH (c :: rp) s' k Hs') in E as (Hk & He & Hm).
      split; [simpl; lia|]. cbn [take rev]. split; [by rewrite <-app_assoc|]. intros [|[|m]] Hlt; [lia|done|]. cbn [take rev]. rewrite <-app_assoc. apply (Hm (S m)). lia.
    + intros (Hn & He & Hm). destruct n as [|[|n]]; [lia|change (rev_empty (c :: rp) = true) in He; congruence|]. cbn [take rev] in He. rewrite <-app_assoc in He.
      assert (hdr_len s' bs = Some (S n)) as ->; [|done]. apply (IH (c :: rp) s' (S n) Hs'). split; [simpl in Hn; lia|]. split; [done|].
      intros m Hlt. specialize (Hm (S m) ltac:(lia)). cbn [take rev] in Hm. by rewrite <-app_assoc in Hm.
  - split.
    + intros [= <-]. split; [simpl; lia|]. split; [done|]. lia.
    + intros (Hn & He & Hm). destruct n as [|[|n]]; [lia|done|]. specialize (Hm 1%nat ltac:(lia)). change (rev_empty (c :: rp) = false) in Hm. congruence.
Qed.

(** The header ends with the first empty line. *)
Lemma hdr_end bs n : hdr_len 0 bs = Some n <-> (n <= length bs)%nat /\ empty_line (take n bs) /\ forall m, (m < n)%nat -> ~ empty_line (take m bs).
Proof.
  rewrite (hdr_len_ok bs [] 0 n (or_introl eq_refl)). setoid_rewrite app_nil_r. split.
  - intros (Hn & He & Hm). split; [lia|]. split; [by apply rev_empty_ok|]. intros m Hlt Hem. apply rev_empty_ok in Hem. destruct m as [|m]; [done|]. rewrite Hm in Hem by lia. done.
  - intros (Hn & He & Hm). apply rev_empty_ok in He. split; [destruct n; [done|lia]|]. split; [done|]. intros m Hlt. destruct (rev_empty (rev (take m bs))) eqn:E; [|done]. apply rev_empty_ok in E. exfalso. apply (Hm m); [lia|done].
Qed.

Lemma rxhdr_loop_ok fuel hp a r s n : holds1 hp a r -> calm (h_in hp) -> hdr_len s (bytes_of (h_in hp)) = Some n -> (n < length r)%nat -> (n < fuel)%nat ->
  exists es, rxhdr_loop fuel hp s = Ok (took hp a (take n (bytes_of (h_in hp))) r es, 1) /\ calm es /\ bytes_of es = drop n (bytes_of (h_in hp)).
Proof.
  revert hp a r s n. induction fuel as [|fuel IH]; intros hp a r s n Hh Hc Hl Hr Hf; [lia|]. cbn [rxhdr_loop].
  destruct (bytes_of (h_in hp)) as [|c bs] eqn:Eb; [done|]. cbn [hdr_len] in Hl.
  assert (0 < n)%nat as Hn by (destruct (hdr_state s c); [destruct (hdr_len z bs); [injection Hl as <-; lia|done]|injection Hl as <-; lia]).
  destruct (rxchar_ok hp a r 1 true Hh Hc) as (es & E & Hc' & Hb'); rewrite ?Eb; simpl; try lia. change (Z.of_nat 1) with 1 in E. rewrite E. cbn [mbind outcome_bind Z.ltb Z.compare Pos.compare Pos.compare_cont].
  rewrite Eb in E |- *. rewrite Eb in Hb'. cbn [take drop] in *. rewrite take_0. rewrite drop_0 in Hb'. set (hp1 := took hp a [c] r es).
  assert (readC (h_rx_b hp1) (h_rx_p hp) = Ok c) as ->.
  { destruct Hh as [_ ->]. apply readC_ok. cbn. rewrite lookup_app_r, Nat.sub_diag by lia. done. }
  cbn [mbind outcome_bind]. destruct (hdr_state s c) as [s'|].
  - destruct (hdr_len s' bs) as [k|] eqn:Ek; [|done]. injection Hl as <-.
    destruct (IH hp1 (a ++ [c]) (0 :: drop 2 r) s' k) as (es' & E' & Hc'' & Hb''); [exact (took_holds hp a [c] r es)|done|cbn; by rewrite Hb'|cbn; rewrite length_drop; lia|lia|].
    exists es'. cbn [h_in hp1 took set_rx] in E', Hb''. rewrite Hb' in E', Hb''. rewrite E'. split; [|done]. unfold hp1. by rewrite took_took.
  - injection Hl as <-. exists es. cbn [take drop]. by rewrite drop_0.
Qed.

(** The header is in the buffer, and what follows it still on its way. *)
Definition rx_header (hp : http1) (h : list Z) (es : list rx_ev) : http1 :=
  set_bodies (set_rx hp (h ++ 0 :: drop (S (length h)) (h_rx_b hp)) (length h) es) (Some (length h)) (h_bodyl hp) (str "<undef>").

Lemma http_rxhdr_ok hp n : calm (h_in hp) -> hdr_len 0 (bytes_of (h_in hp)) = Some n -> (n < length (h_rx_b hp))%nat ->
  exists es, http_rxhdr hp = Ok (rx_header hp (take n (bytes_of (h_in hp))) es) /\ calm es /\ bytes_of es = drop n (bytes_of (h_in hp)).
Proof.
  intros Hc Hl Hn. pose proof (proj1 (hdr_len_ok _ [] 0 n (or_introl eq_refl)) Hl) as ((_ & Hnb) & _). unfold http_rxhdr. rewrite writeC_lt by lia. cbn [mbind outcome_bind].
  set (hp0 := set_bodies _ _ _ _). destruct (rxhdr_loop_ok (S (length (h_rx_b (set_rx hp (<[0%nat := 0]> (h_rx_b hp)) 0 (h_in hp))))) hp0 [] (<[0%nat := 0]> (h_rx_b hp)) 0 n) as (es & E & Hc' & Hb').
  - by split.
  - done.
  - done.
  - by rewrite length_insert.
  - cbn. rewrite length_insert. lia.
  - change (h_in hp0) with (h_in hp) in *. exists es. change (length (h_rx_b hp0)) with (length (h_rx_b (set_rx hp (<[0%nat := 0]> (h_rx_b hp)) 0 (h_in hp)))). rewrite E. cbn [mbind outcome_bind Z.ltb Z.compare Pos.compare Pos.compare_cont].
    split; [|done]. set (h := take n (bytes_of (h_in hp))). assert (length h = n) as Hh by (unfold h; rewrite length_take; lia).
    assert (h_rx_b (took hp0 [] h (<[0%nat := 0]> (h_rx_b hp)) es) = h ++ 0 :: drop (S (length h)) (h_rx_b hp)) as Eb.
    { cbn. do 2 f_equal. destruct (h_rx_b hp); done. }
    rewrite Eb. change (h_rx_p (took _ _ h _ _)) with (length h). rewrite writeC_lt by (rewrite length_app; simpl; lia). cbn [mbind outcome_bind].
    rewrite insert_app_r_alt by lia. rewrite Nat.sub_diag. done.
Qed.

(** ** Taking a header apart (src/vtc_http.c)

    What [http_splitheader] makes of a header that is well formed: where its
    pointers point, and what the look-up of a field finds. *)

(** ** Well-formed headers *)

Definition plain_char (c : Z) : Prop := byte c /\ c <> 0 /\ c <> 10 /\ c <> 13.
Definition blank (c : Z) : bool := (c =? 32) || (c =? 9).
(** A word has no blank; a line begins with none. *)
Definition word1 (s : list Z) : Prop := s <> [] /\ Forall (fun c => plain_char c /\ blank c = false) s.
Definition line_ok (s : list Z) : Prop := s <> [] /\ Forall plain_char s.

Definition with_nl (ls : list (list Z)) : list Z := concat (map (fun l => l ++ nl) ls).
Definition with_nul (ls : list (list Z)) : list Z := concat (map (fun l => l ++ [0; 10]) ls).

(** The text of a header, and what is left of it in the buffer. *)
Definition head_text (m u p : list Z) (ls : list (list Z)) : list Z := m ++ 32 :: u ++ 32 :: p ++ nl ++ with_nl ls ++ nl.
Definition head_split (m u p : list Z) (ls : list (list Z)) : list Z := m ++ 0 :: u ++ 0 :: p ++ 0 :: 10 :: with_nul ls ++ nl.

Lemma with_len ls : length (with_nul ls) = length (with_nl ls).
Proof. unfold with_nl, with_nul. induction ls as [|l ls IH]; [done|]. cbn [map concat]. rewrite !length_app, IH. done. Qed.
Lemma head_len m u p ls : length (head_split m u p ls) = length (head_text m u p ls).
Proof. unfold head_split, head_text. cbn [app]. rewrite !length_app. cbn [length]. rewrite !length_app. cbn [length]. rewrite !length_app. cbn [length nl]. rewrite !length_app, with_len. cbn [length nl]. lia. Qed.

Lemma plain_issp c : plain_char c -> vct_issp c = blank c.
Proof. intros (Hb & _). pose proof (class_facts_ok c Hb) as H. unfold class_facts in H. rewrite !andb_true_iff, !eqb_true_iff in H. tauto. Qed.
Lemma plain_islws c : plain_char c -> vct_islws c = blank c.
Proof.
  intros (Hb & H0 & H10 & H13). pose proof (class_facts_ok c Hb) as H. unfold class_facts in H. rewrite !andb_true_iff, !eqb_true_iff in H.
  destruct H as [[[[[[_ H] _] _] _] _] _]. rewrite H. unfold blank. rewrite (proj2 (Z.eqb_neq c 13)), (proj2 (Z.eqb_neq c 10)) by done. by rewrite !orb_false_r.
Qed.

Lemma plain_crlf c r : plain_char c -> vct_iscrlf (c :: r) = 0.
Proof. intros (_ & _ & H10 & H13). cbn. repeat case_match; try done; lia. Qed.

(** ** Loops over the buffer *)

Lemma skip_at_ok f a w c r : Forall (fun c => f c = true) w -> f c = false -> skip_at f (a ++ w ++ c :: r) (length a) = Ok (length a + length w)%nat.
Proof.
  intros Hw Hc. unfold skip_at. rewrite drop_app_length, skip_app by done. rewrite skip_stop by done. cbn [mbind outcome_bind]. f_equal. rewrite !length_app. lia.
Qed.

Lemma skip_at_none f a c r : f c = false -> skip_at f (a ++ c :: r) (length a) = Ok (length a).
Proof. intros Hc. pose proof (skip_at_ok f a [] c r) as E. cbn [app length] in E. rewrite E by done. f_equal. lia. Qed.

Lemma to_crlf_ok s r : Forall plain_char s -> to_crlf (s ++ 13 :: 10 :: r) = Ok (length s).
Proof. induction 1 as [|c s Hc _ IH]; [done|]. cbn [app to_crlf]. rewrite plain_crlf by done. cbn [truth Z.eqb negb]. by rewrite IH. Qed.

Lemma to_line_end_ok s r : Forall plain_char s -> to_line_end (s ++ 13 :: 10 :: r) = Ok (length s).
Proof.
  induction 1 as [|c s Hc _ IH]; [done|]. cbn [app to_line_end]. rewrite plain_crlf by done. destruct Hc as (_ & H0 & _). rewrite (proj2 (Z.eqb_neq c 0)) by done. cbn [truth Z.eqb negb orb]. by rewrite IH.
Qed.

Lemma write_at (a : list Z) x y r : writeC (a ++ x :: r) (length a) y = Ok (a ++ y :: r).
Proof. rewrite writeC_lt by (rewrite length_app; simpl; lia). by rewrite insert_app_r_alt, Nat.sub_diag by lia. Qed.
Lemma read_at (a : list Z) x r : readC (a ++ x :: r) (length a) = Ok x.
Proof. apply readC_ok. by rewrite lookup_app_r, Nat.sub_diag by lia. Qed.
Lemma crlf_at_ok a r : crlf_at (a ++ r) (length a) = vct_iscrlf r.
Proof. unfold crlf_at. by rewrite drop_app_length. Qed.

(** ** The lines *)

(** Pointers to lines that begin at [p]. *)
Fixpoint offs (p : nat) (ls : list (list Z)) : list (option nat) := match ls with [] => [] | l :: ls => Some p :: offs (p + length l + 2) ls end.

Lemma offs_len p ls : length (offs p ls) = length ls.
Proof. revert p. induction ls as [|l ls IH]; intros p; [done|]. cbn [offs length]. by rewrite IH. Qed.

Lemma split_lines_ok ls : Forall line_ok ls -> forall fuel pre ps k rest, (length ls < fuel)%nat -> (length ps + length ls < MAX_HDR)%nat -> (length ls <= k)%nat ->
  split_lines fuel (pre ++ with_nl ls ++ nl ++ 0 :: rest) (ps ++ replicate k None) (length ps) (length pre) =
    Ok (pre ++ with_nul ls ++ nl ++ 0 :: rest, ps ++ offs (length pre) ls ++ replicate (k - length ls) None, (length pre + length (with_nul ls))%nat).
Proof.
  induction 1 as [|l ls [Hne Hl] Hls IH]; intros fuel pre ps k rest Hf Hm Hk; (destruct fuel as [|fuel]; [simpl in Hf; lia|]); cbn [split_lines].
  - cbn [with_nl with_nul map concat app nl offs length]. rewrite read_at. cbn [mbind outcome_bind Z.eqb]. rewrite (proj2 (Nat.ltb_lt _ _)) by (simpl in Hm; lia). cbn [assertC mbind outcome_bind].
    rewrite crlf_at_ok. cbn [vct_iscrlf truth Z.eqb negb]. rewrite Nat.sub_0_r, Nat.add_0_r. done.
  - destruct l as [|c l]; [done|]. apply Forall_cons in Hl as [Hc Hl]. pose proof Hc as (_ & H0 & _).
    assert (pre ++ with_nl ((c :: l) :: ls) ++ nl ++ 0 :: rest = pre ++ c :: (l ++ 13 :: 10 :: with_nl ls ++ nl ++ 0 :: rest)) as ->.
    { unfold with_nl. cbn [map concat app nl]. rewrite <-!app_assoc. done. }
    set (tl := with_nl ls ++ nl ++ 0 :: rest). rewrite read_at. cbn [mbind outcome_bind]. rewrite (proj2 (Z.eqb_neq c 0)) by done. rewrite (proj2 (Nat.ltb_lt _ _)) by (simpl in Hm; lia). cbn [assertC mbind outcome_bind].
    rewrite crlf_at_ok, plain_crlf by done. cbn [truth Z.eqb negb].
    assert (drop (S (length pre)) (pre ++ c :: l ++ 13 :: 10 :: tl) = l ++ 13 :: 10 :: tl) as ->.
    { rewrite (cons_middle c), app_assoc. apply drop_app_length'. rewrite length_app. simpl. lia. }
    rewrite to_line_end_ok by done. cbn [mbind outcome_bind].
    assert (pre ++ c :: l ++ 13 :: 10 :: tl = (pre ++ c :: l) ++ 13 :: 10 :: tl) as -> by by rewrite <-app_assoc.
    assert (S (length pre) + length l = length (pre ++ c :: l))%nat as -> by (rewrite length_app; simpl; lia).
    rewrite read_at. cbn [mbind outcome_bind Z.eqb]. unfold past_crlf. rewrite crlf_at_ok. cbn [vct_iscrlf]. change (Z.to_nat 2) with 2%nat. rewrite write_at. cbn [mbind outcome_bind].
    assert (length (pre ++ c :: l) + 2 = length (pre ++ (c :: l) ++ [0; 10]%Z))%nat as -> by (rewrite !length_app; simpl; lia).
    assert ((pre ++ c :: l) ++ 0 :: 10 :: tl = (pre ++ (c :: l) ++ [0; 10]) ++ tl) as -> by by rewrite <-!app_assoc.
    assert (<[length ps := Some (length pre)]> (ps ++ replicate k None) = (ps ++ [Some (length pre)]) ++ replicate (k - 1) None) as ->.
    { destruct k as [|k]; [simpl in Hk; lia|]. rewrite insert_app_r_alt, Nat.sub_diag by lia. cbn. by rewrite <-app_assoc, Nat.sub_0_r. }
    assert (S (length ps) = length (ps ++ [Some (length pre)])) as -> by (rewrite length_app; simpl; lia).
    unfold tl. rewrite IH by (rewrite ?length_app; simpl in *; lia). f_equal. f_equal; [f_equal|].
    + unfold with_nul. cbn [map concat]. by rewrite <-!app_assoc.
    + cbn [offs]. rewrite <-!app_assoc. cbn [app]. assert (length (pre ++ c :: l ++ [0; 10]%Z) = length pre + length (c :: l) + 2)%nat as -> by (rewrite !length_app; cbn [length]; rewrite !length_app; simpl; lia).
      do 4 f_equal. simpl. lia.
    + unfold with_nul. cbn [map concat]. rewrite !length_app. lia.
Qed.

Lemma log_lines_offs ls p k : (0 < k)%nat -> log_lines 0 (offs p ls ++ replicate k None) = Ok tt.
Proof. revert p. induction ls as [|l ls IH]; intros p Hk; [destruct k; [lia|done]|]. cbn [offs app log_lines]. by apply IH. Qed.

(** ** The header *)

Definition head_ptrs (m u p : list Z) (ls : list (list Z)) : list (option nat) :=
  [Some 0%nat; Some (S (length m)); Some (length m + length u + 2)%nat] ++ offs (length m + length u + length p + 4) ls ++ replicate (61 - length ls) None.

Lemma skip_word s c r a : word1 s -> c = 32 -> skip_at (fun c => negb (vct_islws c)) (a ++ s ++ c :: r) (length a) = Ok (length a + length s)%nat.
Proof.
  intros [_ Hs] ->. apply skip_at_ok; [|done]. eapply Forall_impl; [exact Hs|]. intros c [Hc Hb]. by rewrite plain_islws, Hb.
Qed.

Lemma splitheader_ok hp req m u p ls rest : word1 m -> word1 u -> line_ok p -> blank (default 0 (head p)) = false -> Forall line_ok ls -> (length ls < 61)%nat ->
  h_rx_b hp = head_text m u p ls ++ 0 :: rest ->
  http_splitheader hp req = Ok (set_hh (set_rx hp (head_split m u p ls ++ 0 :: rest) (h_rx_p hp) (h_in hp)) req (head_ptrs m u p ls)).
Proof.
  intros Hm Hu Hp Hpb Hls Hn Hb. unfold http_splitheader. rewrite Hb. unfold head_text.
  destruct m as [|m0 m]; [by destruct Hm|]. pose proof Hm as [_ Hm']. apply Forall_cons in Hm' as [[Hm0 Hm0b] _].
  destruct u as [|u0 u]; [by destruct Hu|]. pose proof Hu as [_ Hu']. apply Forall_cons in Hu' as [[Hu0 Hu0b] _].
  destruct p as [|p0 p]; [by destruct Hp|]. destruct Hp as [_ Hp]. pose proof Hp as Hp'. apply Forall_cons in Hp' as [Hp0 _]. cbn [head default from_option id] in Hpb.
  set (t3 := (p0 :: p) ++ nl ++ with_nl ls ++ nl). set (M := m0 :: m) in *. set (U := u0 :: u) in *. set (P := p0 :: p) in *.
  assert ((M ++ 32 :: U ++ 32 :: t3) ++ 0 :: rest = M ++ 32 :: U ++ 32 :: (t3 ++ 0 :: rest)) as -> by by rewrite <-app_assoc; cbn [app]; rewrite <-app_assoc.
  set (t4 := t3 ++ 0 :: rest).
  assert (readC (M ++ 32 :: U ++ 32 :: t4) 0 = Ok m0) as -> by done. cbn [mbind outcome_bind]. destruct Hm0 as (Hby & Hm00 & Hm010 & Hm013). rewrite (proj2 (Z.eqb_neq m0 0)) by done.
  assert (skip_at vct_islws (M ++ 32 :: U ++ 32 :: t4) 0 = Ok 0%nat) as -> by (apply (skip_at_none vct_islws [] m0); by rewrite plain_islws). cbn [mbind outcome_bind].
  pose proof (skip_word M 32 (U ++ 32 :: t4) [] Hm eq_refl) as E. cbn [app length Nat.add] in E. rewrite E. clear E. cbn [mbind outcome_bind].
  rewrite crlf_at_ok. cbn [vct_iscrlf Z.eqb assertC mbind outcome_bind]. rewrite write_at. cbn [mbind outcome_bind].
  (* the second word *)
  assert (M ++ 0 :: U ++ 32 :: t4 = (M ++ [0]) ++ U ++ 32 :: t4) as -> by by rewrite <-app_assoc.
  assert (S (length M) = length (M ++ [0]%Z)) as -> by (rewrite length_app; simpl; lia).
  assert (skip_at vct_issp ((M ++ [0]%Z) ++ U ++ 32 :: t4) (length (M ++ [0]%Z)) = Ok (length (M ++ [0]%Z))) as -> by (apply (skip_at_none vct_issp (M ++ [0]%Z) u0); by rewrite plain_issp). cbn [mbind outcome_bind].
  assert (crlf_at ((M ++ [0]%Z) ++ U ++ 32 :: t4) (length (M ++ [0]%Z)) = 0) as -> by (rewrite crlf_at_ok; by apply plain_crlf). cbn [Z.eqb assertC mbind outcome_bind].
  rewrite (skip_word U 32 t4 (M ++ [0]) Hu eq_refl). cbn [mbind outcome_bind]. rewrite (app_assoc (M ++ [0]) U). rewrite <-(length_app (M ++ [0]) U). rewrite crlf_at_ok. cbn [vct_iscrlf truth Z.eqb negb]. rewrite write_at. cbn [mbind outcome_bind].
  (* the rest of the line *)
  set (A := (M ++ [0]%Z) ++ U). assert (A ++ 0 :: t4 = (A ++ [0]%Z) ++ t4) as -> by by rewrite <-app_assoc. assert (S (length A) = length (A ++ [0]%Z)) as -> by (rewrite length_app; simpl; lia).
  assert (skip_at vct_issp ((A ++ [0]%Z) ++ t4) (length (A ++ [0]%Z)) = Ok (length (A ++ [0]%Z))) as -> by (apply (skip_at_none vct_issp (A ++ [0]%Z) p0); by rewrite plain_issp). cbn [mbind outcome_bind].
  assert (t4 = P ++ 13 :: 10 :: (with_nl ls ++ nl ++ 0 :: rest)) as -> by (unfold t4, t3; rewrite <-!app_assoc; done).
  rewrite drop_app_length, to_crlf_ok by done. cbn [mbind outcome_bind]. rewrite (app_assoc (A ++ [0]) P). rewrite <-(length_app (A ++ [0]) P). unfold past_crlf. rewrite crlf_at_ok. cbn [vct_iscrlf]. change (Z.to_nat 2) with 2%nat.
  rewrite write_at. cbn [mbind outcome_bind]. set (B := (A ++ [0]) ++ P).
  assert (B ++ 0 :: 10 :: with_nl ls ++ nl ++ 0 :: rest = (B ++ [0; 10]) ++ with_nl ls ++ nl ++ 0 :: rest) as -> by by rewrite <-app_assoc.
  assert (length B + 2 = length (B ++ [0; 10]%Z))%nat as -> by (rewrite length_app; simpl; lia).
  (* the lines *)
  pose proof (split_lines_ok ls Hls (length ((B ++ [0; 10]%Z) ++ with_nl ls ++ nl ++ 0 :: rest)) (B ++ [0; 10]%Z) [Some 0%nat; Some (length (M ++ [0]%Z)); Some (length (A ++ [0]%Z))] 61 rest) as E.
  change (<[2%nat := Some (length (A ++ [0]%Z))]> (<[1%nat := Some (length (M ++ [0]%Z))]> (<[0%nat := Some 0%nat]> (replicate MAX_HDR None)))) with ([Some 0%nat; Some (length (M ++ [0]%Z)); Some (length (A ++ [0]%Z))] ++ replicate 61 None).
  change (length [Some 0%nat; Some (length (M ++ [0]%Z)); Some (length (A ++ [0]%Z))]) with 3%nat in E. rewrite E; clear E; [|assert (length ls <= length (with_nl ls))%nat; [|rewrite !length_app; simpl; lia]|unfold MAX_HDR; simpl; lia|lia].
  2:{ unfold with_nl. clear. induction ls as [|l ls IH]; [done|]. cbn [map concat]. rewrite !length_app. simpl. lia. }
  cbn [mbind outcome_bind]. rewrite !(app_assoc (B ++ [0; 10])). rewrite <-(length_app (B ++ [0; 10]) (with_nul ls)). rewrite crlf_at_ok. cbn [nl app vct_iscrlf]. change (Z.to_nat 2) with 2%nat.
  set (C := (B ++ [0; 10]) ++ with_nul ls). assert (C ++ 13 :: 10 :: 0 :: rest = (C ++ [13; 10]) ++ 0 :: rest) as -> by by rewrite <-app_assoc.
  assert (length C + 2 = length (C ++ [13; 10]%Z))%nat as -> by (rewrite length_app; simpl; lia). rewrite read_at. cbn [mbind outcome_bind Z.eqb assertC].
  cbn [app log_lines]. rewrite log_lines_offs by lia. cbn [mbind outcome_bind]. f_equal. unfold set_hh, head_ptrs. cbn [app].
  assert ((C ++ [13; 10]) ++ 0 :: rest = head_split M U P ls ++ 0 :: rest) as ->.
  { f_equal. unfold C, B, A, head_split. rewrite <-!app_assoc. done. }
  assert (length (M ++ [0]%Z) = S (length M)) as -> by (rewrite length_app; simpl; lia).
  assert (length (A ++ [0]%Z) = (length M + length U + 2)%nat) as -> by (unfold A; rewrite !length_app; simpl; lia).
  assert (length (B ++ [0; 10]) = (length M + length U + length P + 4)%nat) as -> by (unfold B, A; rewrite !length_app; simpl; lia).
  done.
Qed.
