(* ===== verification/Http1Spec.v ===== *)
(** * HTTP/1 from end to end (src/vtc_http.c)

    A request of [txreq] is what [rxreq] of a server takes apart, however the
    connection cuts it; and the commands that fail. *)

From Stdlib Require Import ZArith Lia ZifyBool String.
From stdpp Require Import base option numbers list.
From S2P Require Import Prelude CStr Vct Interp VtcSubr Gzip HpackData HpackTbl HpackHdr H2Recv H2Send H2Expect Http1 Http1Tx Http1Rx.
#[local] Open Scope Z_scope.

(** ** Decimal numbers *)

Lemma dec_digits_ok fuel k n acc : (0 < k <= fuel)%nat -> 0 <= n < 10 ^ Z.of_nat k -> exists ds, dec_digits fuel n acc = ds ++ acc /\
  (0 < length ds <= k)%nat /\ Forall (fun c => isdigit c = true) ds /\ forall v t, ul_span 10 v (ds ++ t) = ul_span 10 (v * 10 ^ Z.of_nat (length ds) + n) t.
Proof.
  revert k n acc. induction fuel as [|fuel IH]; intros k n acc Hk Hn; [lia|]. cbn [dec_digits].
  assert (isdigit (48 + n `mod` 10) = true /\ digit_of 10 (48 + n `mod` 10) = Some (n `mod` 10)) as [Hd Hv].
  { assert (0 <= n `mod` 10 < 10) as Hm by (apply Z.mod_pos_bound; lia). unfold isdigit, digit_of. split; [lia|]. rewrite (proj2 (Z.leb_le 48 _)), (proj2 (Z.leb_le _ 57)) by lia. cbn [andb].
    replace (48 + n `mod` 10 - 48) with (n `mod` 10) by lia. by rewrite (proj2 (Z.ltb_lt _ 10)) by lia. }
  destruct (n <? 10) eqn:E.
  - exists [48 + n `mod` 10]. split; [done|]. split; [simpl; lia|]. split; [by constructor|]. intros v t. cbn [app ul_span]. rewrite Hv. f_equal. rewrite Z.mod_small by lia. simpl. lia.
  - destruct k as [|[|k]]; [lia|simpl in Hn; lia|]. destruct (IH (S k) (n / 10) ((48 + n `mod` 10) :: acc)) as (ds & -> & Hl & Hf & Hu); [lia| |].
    { rewrite (Nat2Z.inj_succ (S k)), Z.pow_succ_r in Hn by lia. split; [apply Z.div_pos; lia|]. apply Z.div_lt_upper_bound; lia. }
    exists (ds ++ [48 + n `mod` 10]). split; [by rewrite <-app_assoc|]. rewrite length_app. split; [simpl; lia|]. split; [apply Forall_app; split; [done|by constructor]|].
    intros v t. rewrite <-app_assoc, Hu. cbn [app ul_span]. rewrite Hv. f_equal. replace (Z.of_nat (length ds + length [48 + n `mod` 10])) with (Z.succ (Z.of_nat (length ds))) by (simpl; lia).
    rewrite Z.pow_succ_r by lia. rewrite (Z.div_mod n 10) at 3 by lia. lia.
Qed.

Lemma digit_plain c : isdigit c = true -> plain_char c /\ blank c = false /\ isspace c = false.
Proof. unfold isdigit, plain_char, byte, blank, isspace. lia. Qed.

Lemma sign_none c s p : c <> 45 -> c <> 43 -> p = c :: s -> (match p with 45 :: p => (true, p) | 43 :: p => (false, p) | _ => (false, p) end) = (false, p).
Proof. intros ? ? ->. repeat case_match; try done; exfalso; simplify_eq/=; done. Qed.
Lemma base_10 (p : list Z) : (match p with
    | 48 :: x :: d :: r => if ((10 =? 0) || (10 =? 16)) && ((x =? 120) || (x =? 88)) && bool_decide (is_Some (digit_of 16 d)) then (16, d :: r) else (if 10 =? 0 then 8 else 10, p)
    | 48 :: _ => (if 10 =? 0 then 8 else 10, p)
    | _ => (if 10 =? 0 then 10 else 10, p)
    end) = (10, p).
Proof. by repeat case_match. Qed.

(** A number that is printed is read back. *)
Lemma fmt_d_ok n : 0 <= n < 2 ^ 31 -> (0 < length (fmt_d n) < 20)%nat /\ Forall (fun c => isdigit c = true) (fmt_d n) /\ strtoul 10 (fmt_d n) = (n, []).
Proof.
  intros Hn. unfold fmt_d. rewrite (proj2 (Z.ltb_ge n 0)) by lia. destruct (dec_digits_ok 20 10 n [] ltac:(lia) ltac:(simpl; lia)) as (ds & -> & Hl & Hf & Hu). rewrite app_nil_r.
  split; [lia|]. split; [done|]. destruct ds as [|c ds]; [simpl in Hl; lia|]. pose proof Hf as Hf'. apply Forall_cons in Hf' as [Hc _]. destruct (digit_plain c Hc) as (_ & _ & Hsp).
  specialize (Hu 0 []). rewrite app_nil_r in Hu. change (ul_span 10 (0 * 10 ^ Z.of_nat (length (c :: ds)) + n) []) with (0 * 10 ^ Z.of_nat (length (c :: ds)) + n, @nil Z) in Hu. rewrite Z.mul_0_l, Z.add_0_l in Hu.
  assert (c <> 45 /\ c <> 43) as [H45 H43] by (unfold isdigit in Hc; lia). set (p := c :: ds) in *.
  assert (exists d, digit_of 10 c = Some d) as (d & Hd).
  { unfold isdigit in Hc. unfold digit_of. apply andb_true_iff in Hc as [H1 H2]. rewrite H1, H2. cbn [andb]. rewrite (proj2 (Z.ltb_lt _ 10)) by lia. by eexists. }
  unfold strtoul. assert (skip_to isspace p = p) as -> by (cbn; by rewrite Hsp). rewrite (sign_none c ds p) by done. rewrite base_10. unfold p at 1. rewrite Hd, Hu.
  rewrite (proj2 (Z.leb_gt (2 ^ 64) _)) by lia. by rewrite wrapu_small by lia.
Qed.

(** ** Fields *)

(** The first field of the name, and how many there are. *)
Fixpoint first_field (ls : list (list Z)) (name : list Z) : option (list Z) :=
  match ls with
  | [] => None
  | l :: ls => match field_value l name with Some v => Some (skip_to vct_issp v) | None => first_field ls name end
  end.
Definition fields (ls : list (list Z)) (name : list Z) : Z := Z.of_nat (length (omap (fun l => field_value l name) ls)).

Lemma str_at_ok a l r : Forall plain_char l -> str_at (a ++ l ++ 0 :: r) (length a) = Ok l.
Proof. intros Hl. unfold str_at. rewrite drop_app_length. apply string_at_app. eapply Forall_impl; [exact Hl|]. by intros c (_ & ? & _). Qed.

Lemma find_header1_ok name ls : Forall line_ok ls -> forall a t more, find_header_loop (a ++ with_nul ls ++ t) (offs (length a) ls ++ None :: more) name = Ok (first_field ls name).
Proof.
  induction 1 as [|l ls [_ Hl] _ IH]; intros a t more; [done|]. cbn [offs app find_header_loop first_field].
  assert (a ++ with_nul (l :: ls) ++ t = a ++ l ++ 0 :: 10 :: with_nul ls ++ t) as -> by (unfold with_nul; cbn [map concat]; by rewrite <-!app_assoc).
  rewrite str_at_ok by done. cbn [mbind outcome_bind]. destruct (field_value l name); [done|].
  assert (a ++ l ++ 0 :: 10 :: with_nul ls ++ t = (a ++ l ++ [0; 10]) ++ with_nul ls ++ t) as -> by by rewrite <-!app_assoc.
  assert (length a + length l + 2 = length (a ++ l ++ [0; 10]%Z))%nat as -> by (rewrite !length_app; simpl; lia). apply IH.
Qed.

Lemma count_header_ok name ls : Forall line_ok ls -> forall a t more k, count_header_loop (a ++ with_nul ls ++ t) (offs (length a) ls ++ None :: more) name k = Ok (k + fields ls name).
Proof.
  induction 1 as [|l ls [_ Hl] _ IH]; intros a t more k; [cbn; by rewrite Z.add_0_r|]. cbn [offs app count_header_loop].
  assert (a ++ with_nul (l :: ls) ++ t = a ++ l ++ 0 :: 10 :: with_nul ls ++ t) as -> by (unfold with_nul; cbn [map concat]; by rewrite <-!app_assoc).
  rewrite str_at_ok by done. cbn [mbind outcome_bind].
  assert (a ++ l ++ 0 :: 10 :: with_nul ls ++ t = (a ++ l ++ [0; 10]) ++ with_nul ls ++ t) as -> by by rewrite <-!app_assoc.
  assert (length a + length l + 2 = length (a ++ l ++ [0; 10]%Z))%nat as -> by (rewrite !length_app; simpl; lia). rewrite IH. f_equal.
  unfold fields. cbn [omap list_omap]. destruct (field_value l name); cbn [length]; lia.
Qed.

(** ** A header on the connection *)

Lemma hdr_len_plain s l t : l <> [] -> Forall plain_char l -> hdr_len s (l ++ t) = (fun n => length l + n)%nat <$> hdr_len 0 t.
Proof.
  intros Hne Hl. revert s Hne. induction Hl as [|c l Hc _ IH]; intros s Hne; [done|]. cbn [app hdr_len length].
  assert (hdr_state s c = Some 0) as ->. { destruct Hc as (_ & _ & H10 & H13). unfold hdr_state. rewrite (proj2 (Z.eqb_neq c 10)), (proj2 (Z.eqb_neq c 13)) by done. by rewrite !andb_false_r. }
  destruct l as [|d l]; [cbn [app length]; by destruct (hdr_len 0 t)|]. rewrite IH by done. by destruct (hdr_len 0 t).
Qed.

Lemma hdr_len_lines ls s t : Forall line_ok ls -> s = 2 \/ ls <> [] -> hdr_len s (with_nl ls ++ nl ++ t) = Some (length (with_nl ls) + 2)%nat.
Proof.
  intros Hls. revert s. induction Hls as [|l ls [Hne Hl] _ IH]; intros s Hs; [destruct Hs as [->|]; done|].
  unfold with_nl. cbn [map concat]. change (concat (map (fun l => l ++ nl) ls)) with (with_nl ls). rewrite <-!app_assoc. rewrite hdr_len_plain by done.
  change (hdr_len 0 (nl ++ with_nl ls ++ nl ++ t)) with (S <$> (S <$> hdr_len 2 (with_nl ls ++ nl ++ t))). rewrite IH by auto. cbn. f_equal. rewrite !length_app. simpl. lia.
Qed.

Lemma head_lines m u p ls : head_text m u p ls = with_nl ((m ++ 32 :: u ++ 32 :: p) :: ls) ++ nl.
Proof. unfold head_text, with_nl. cbn [map concat]. rewrite <-!app_assoc. cbn [app]. by rewrite <-!app_assoc. Qed.

Lemma space_plain : plain_char 32.
Proof. unfold plain_char, byte. lia. Qed.

Lemma first_line_ok m u p : word1 m -> word1 u -> line_ok p -> line_ok (m ++ 32 :: u ++ 32 :: p).
Proof.
  intros [Hm Hm'] [_ Hu] [_ Hp]. split; [by destruct m|]. apply Forall_app. split; [eapply Forall_impl; [exact Hm'|]; by intros c []|]. constructor; [apply space_plain|].
  apply Forall_app. split; [eapply Forall_impl; [exact Hu|]; by intros c []|]. constructor; [apply space_plain|done].
Qed.

Lemma head_end m u p ls t : word1 m -> word1 u -> line_ok p -> Forall line_ok ls -> hdr_len 0 (head_text m u p ls ++ t) = Some (length (head_text m u p ls)).
Proof.
  intros Hm Hu Hp Hls. rewrite head_lines, <-app_assoc, hdr_len_lines; [f_equal; rewrite length_app; simpl; lia| |by right]. constructor; [by apply first_line_ok|done].
Qed.

(** ** Fields by name *)

Lemma field_value_cons c l d w : tolower c <> tolower d -> field_value (c :: l) (d :: w) = None.
Proof.
  intros Hne. unfold field_value, strncaseeq. cbn [length take map]. by rewrite bool_decide_eq_false_2 by (intros [=]; congruence).
Qed.

(** A line that is no field [w] with its colon is not found. *)
Lemma field_value_other l w v : map tolower w = map tolower v -> strncaseeq (length (v ++ [58])) l (v ++ [58]) = false -> field_value l w = None.
Proof.
  intros Hw. unfold strncaseeq, field_value. rewrite bool_decide_eq_false. intros Hne. assert (length w = length v) as Hl by (apply (f_equal length) in Hw; by rewrite !length_map in Hw).
  destruct (strncaseeq (length w) w l && bool_decide (l !! length w = Some 58)) eqn:E; [|done]. exfalso. apply Hne. apply andb_true_iff in E as [E1 E2].
  unfold strncaseeq in E1. rewrite bool_decide_eq_true in E1, E2. rewrite Hl in E1, E2. rewrite length_app. cbn [length]. rewrite Nat.add_1_r.
  erewrite take_S_r by exact E2. rewrite (take_ge (v ++ [58])) by (rewrite length_app; simpl; lia). rewrite !map_app, <-E1, <-Hl, take_ge by lia. by rewrite Hw.
Qed.

Lemma first_field_app ls1 ls2 w : first_field (ls1 ++ ls2) w = match first_field ls1 w with Some v => Some v | None => first_field ls2 w end.
Proof. induction ls1 as [|l ls1 IH]; [done|]. cbn [app first_field]. by destruct (field_value l w). Qed.

Lemma fields_app ls1 ls2 w : fields (ls1 ++ ls2) w = fields ls1 w + fields ls2 w.
Proof. unfold fields. rewrite omap_app, length_app. lia. Qed.

Lemma no_field ls w : Forall (fun l => field_value l w = None) ls -> first_field ls w = None /\ fields ls w = 0.
Proof.
  induction 1 as [|l ls H _ [IH1 IH2]]; [done|]. cbn [first_field]. rewrite H. split; [done|]. unfold fields in *. cbn [omap list_omap]. by rewrite H.
Qed.

(** ** Sending *)

Lemma with_nl_app ls1 ls2 : with_nl (ls1 ++ ls2) = with_nl ls1 ++ with_nl ls2.
Proof. unfold with_nl. by rewrite map_app, concat_app. Qed.
Lemma put_put1 hp a b : put (put hp a) b = put hp (a ++ b).
Proof. unfold put, set_vsb. cbn. by rewrite app_assoc. Qed.
Lemma put_nil hp : put hp [] = hp.
Proof. destruct hp. unfold put, set_vsb. cbn. by rewrite app_nil_r. Qed.

(** The arguments of a message: fields in their order, and a body. *)
Definition hdr_args (users : list (list Z)) : list (list Z) := concat (map (fun h => [str "-hdr"; h]) users).
Definition body_args (body : option (list Z)) : list (list Z) := match body with Some s => [str "-body"; s] | None => [] end.
Definition body_sent (body : option (list Z)) : list Z := match body with Some s => body_nuls (length s) s | None => [] end.

Lemma tx_hdrs_ok users body : forall fuel hp n, (length (hdr_args users ++ body_args body) <= fuel)%nat ->
  tx_hdrs fuel hp n (hdr_args users ++ body_args body) = Ok (put hp (with_nl users), fold_left no_hdr users n, body_args body).
Proof.
  induction users as [|h users IH]; intros fuel hp n Hf.
  - cbn [with_nl map concat hdr_args app fold_left]. rewrite put_nil. destruct body; cbn [body_args]; [|by destruct fuel]. by destruct fuel; [simpl in Hf; lia|].
  - unfold hdr_args in *. cbn [map concat app length] in Hf |- *. destruct fuel as [|fuel]; [lia|]. cbn [tx_hdrs].
    change (streq (str "-hdr") "-nolen") with false. change (streq (str "-hdr") "-nohost") with false. change (streq (str "-hdr") "-nodate") with false. change (streq (str "-hdr") "-hdr") with true.
    cbn [next_arg mbind outcome_bind]. rewrite IH by lia. rewrite put_put1. unfold with_nl. cbn [map concat fold_left]. by rewrite <-app_assoc.
Qed.

Section sent.
Context (zst : Type) (deflateInit2 : Z -> option zst) (deflate : flush -> zst -> list Z -> nat -> Z * list Z * list Z * zst).
Context (stop_bit : option (zst -> Z)) (rnd : Z -> Z) (zfuel : nat).
Context (readfile : list Z -> option (list Z)).
Context (localhost date sess_name : list Z) (reuse : bool).

(** The lines that the code adds. *)
Definition std_lines (n : tx_no) : list (list Z) :=
  (if no_host n then [] else [str "Host: " ++ localhost]) ++ (if no_date n then [] else [str "Date: " ++ date]) ++
  (if no_server n then [] else [str "Server: " ++ sess_name]) ++ (if no_agent n then [] else [str "User-Agent: " ++ sess_name]).
Definition len_line (n : tx_no) (body : option (list Z)) : list (list Z) :=
  match body with Some _ => if no_len n then [] else [str "Content-Length: " ++ fmt_d (Z.of_nat (length (body_sent body)))] | None => [] end.
Definition sent_lines (users : list (list Z)) (n : tx_no) (body : option (list Z)) : list (list Z) :=
  let n := fold_left no_hdr users n in users ++ std_lines n ++ len_line n body.

Lemma put_if (c : bool) hp a : (if c then hp else put hp (a ++ nl)) = put hp (with_nl (if c then [] else [a])).
Proof. destruct c; [by rewrite put_nil|]. unfold with_nl. cbn [map concat]. by rewrite app_nil_r. Qed.

Lemma tx_parse_ok hp n users body :
  http_tx_parse_args zst deflateInit2 deflate stop_bit rnd zfuel readfile localhost date sess_name reuse (hdr_args users ++ body_args body) hp None n =
    Ok (put hp (with_nl (sent_lines users n body) ++ nl ++ body_sent body), []).
Proof.
  unfold http_tx_parse_args. rewrite tx_hdrs_ok by done. cbn [mbind outcome_bind]. set (n' := fold_left no_hdr users n).
  assert (tx_body zst deflateInit2 deflate stop_bit rnd zfuel readfile reuse (length (body_args body)) (put hp (with_nl users)) None 0 true (body_args body) =
    Ok (put hp (with_nl users), match body with Some _ => Some (body_sent body) | None => None end, Z.of_nat (length (body_sent body)), [])) as ->.
  { destruct body as [s|]; [|done]. cbn [body_args length tx_body]. change (streq (str "-body") "-body") with true. cbn [assertC mbind outcome_bind]. done. }
  cbn [mbind outcome_bind]. rewrite (app_assoc (str "Host: ")), (app_assoc (str "Date: ")), (app_assoc (str "Server: ")), (app_assoc (str "User-Agent: ")), (app_assoc (str "Content-Length: ")).
  rewrite !put_if, !put_put1. unfold sent_lines, std_lines. fold n'. rewrite !with_nl_app. destruct body as [s|]; cbn [len_line].
  - rewrite !put_put1, Nat2Z.id, firstn_all. rewrite <-!app_assoc. done.
  - cbn [body_sent]. rewrite ?put_put1. change (with_nl []) with (@nil Z). rewrite app_nil_r, <-!app_assoc. done.
Qed.
End sent.

(** ** What is left of a header *)

Ltac app_norm := repeat first [rewrite <-app_assoc | progress cbn [app]].

Section header.
Context (m u p : list Z) (ls : list (list Z)) (Hm : word1 m) (Hu : word1 u) (Hp : line_ok p) (Hls : Forall line_ok ls) (Hn : (length ls < 61)%nat).

Lemma word_plain w : word1 w -> Forall plain_char w.
Proof. intros [_ H]. eapply Forall_impl; [exact H|]. by intros c []. Qed.

Definition first_line : list Z := m ++ 0 :: u ++ 0 :: p ++ [0; 10].
Lemma head_first t : head_split m u p ls ++ t = first_line ++ with_nul ls ++ nl ++ t.
Proof. unfold head_split, first_line. app_norm. done. Qed.
Lemma first_len : length first_line = (length m + length u + length p + 4)%nat.
Proof. unfold first_line. rewrite length_app. cbn [length]. rewrite length_app. cbn [length]. rewrite length_app. simpl. lia. Qed.

Lemma ptrs_tail : drop 3 (head_ptrs m u p ls) = offs (length first_line) ls ++ None :: replicate (60 - length ls) None.
Proof using Hn. unfold head_ptrs. rewrite first_len. replace (61 - length ls)%nat with (S (60 - length ls)) by lia. done. Qed.

Lemma head_find name t : http_find_header (head_split m u p ls ++ t) (head_ptrs m u p ls) name = Ok (first_field ls name).
Proof using Hls Hn. unfold http_find_header. rewrite ptrs_tail, head_first. by apply find_header1_ok. Qed.
Lemma head_count name t : http_count_header (head_split m u p ls ++ t) (head_ptrs m u p ls) name = Ok (fields ls name).
Proof using Hls Hn. unfold http_count_header. rewrite ptrs_tail, head_first. by rewrite count_header_ok. Qed.

Lemma head_words hp t : h_rx_b hp = head_split m u p ls ++ t ->
  hh_str hp (head_ptrs m u p ls) 0 = Ok (Some m) /\ hh_str hp (head_ptrs m u p ls) 1 = Ok (Some u) /\ hh_str hp (head_ptrs m u p ls) 2 = Ok (Some p).
Proof using Hm Hu Hp Hn.
  intros Hb. unfold hh_str. rewrite Hb, head_first. change (readC (head_ptrs m u p ls) 0) with (Ok (Some 0%nat)). change (readC (head_ptrs m u p ls) 1) with (Ok (Some (S (length m)))).
  change (readC (head_ptrs m u p ls) 2) with (Ok (Some (length m + length u + 2)%nat)). cbn [mbind outcome_bind]. set (e := with_nul ls ++ nl ++ t). unfold first_line. split; [|split].
  - rewrite <-app_assoc. pose proof (str_at_ok [] m ((u ++ 0 :: p ++ [0; 10]) ++ e) (word_plain m Hm)) as E. cbn [app length] in E. cbn [app]. by rewrite E.
  - assert ((m ++ 0 :: u ++ 0 :: p ++ [0; 10]) ++ e = (m ++ [0]) ++ u ++ 0 :: (p ++ [0; 10]) ++ e) as -> by (app_norm; done).
    replace (S (length m)) with (length (m ++ [0]%Z)) by (rewrite length_app; simpl; lia). rewrite str_at_ok by by apply word_plain. done.
  - assert ((m ++ 0 :: u ++ 0 :: p ++ [0; 10]) ++ e = (m ++ 0 :: u ++ [0]) ++ p ++ 0 :: 10 :: e) as -> by (app_norm; done).
    replace (length m + length u + 2)%nat with (length (m ++ 0 :: u ++ [0]%Z)) by (rewrite length_app; cbn [length]; rewrite length_app; simpl; lia). destruct Hp. rewrite str_at_ok by done. done.
Qed.
End header.

(** ** Swallowing the body *)

Lemma cstr_at a d t : str_at (a ++ d ++ 0 :: t) (length a) = Ok (cstr d).
Proof.
  unfold str_at. rewrite drop_app_length. induction d as [|c d IH]; [done|]. cbn [app string_at cstr]. destruct (c =? 0); [done|]. by rewrite IH.
Qed.

(** The body that [rxreq] leaves behind the header. *)
Definition with_body (hp : http1) (hdr got r : list Z) (es : list rx_ev) : http1 :=
  set_bodies (set_rx hp (hdr ++ got ++ 0 :: drop (length got) r) (length hdr + length got) es) (Some (length hdr)) (Z.of_nat (length got)) (fmt_d (Z.of_nat (length got))).

Lemma swallow_len hp hh hdr r n : holds1 hp hdr (0 :: r) -> h_body hp = Some (length hdr) -> calm (h_in hp) ->
  http_find_header (h_rx_b hp) hh (str "transfer-encoding") = Ok None -> http_find_header (h_rx_b hp) hh (str "content-length") = Ok (Some (fmt_d (Z.of_nat n))) ->
  (n <= length (bytes_of (h_in hp)))%nat -> (n <= length r)%nat -> Z.of_nat n < 2 ^ 31 ->
  exists es, http_swallow_body hp hh false 0 = Ok (with_body hp hdr (take n (bytes_of (h_in hp))) r es) /\ calm es /\ bytes_of es = drop n (bytes_of (h_in hp)).
Proof.
  intros Hh Hbody Hc Ht Hl Hb Hr Hn. unfold http_swallow_body. rewrite Hbody, Ht. cbn [mbind outcome_bind]. rewrite Hl. cbn [mbind outcome_bind].
  pose proof Hh as [Hbuf ->]. rewrite Z.sub_diag. destruct (fmt_d_ok (Z.of_nat n) ltac:(lia)) as (Hfl & _ & ->). cbn [truth Z.eqb negb andb fst]. rewrite !Z.sub_0_r. assert (i32 (Z.of_nat n) = Z.of_nat n) as Hi by (apply wraps_small; simpl; lia). rewrite !Hi.
  assert (exists es, http_rxchar hp (Z.of_nat n) false = Ok (took hp hdr (take n (bytes_of (h_in hp))) (0 :: r) es, 1) /\ calm es /\ bytes_of es = drop n (bytes_of (h_in hp))) as (es & E & Hc' & Hb').
  { destruct n as [|n]; [|apply rxchar_ok; try done; simpl; lia]. exists (h_in hp). split; [|by rewrite drop_0]. unfold http_rxchar. cbn [rxchar_loop Z.of_nat Z.leb Z.compare]. do 2 f_equal.
    unfold took. rewrite take_0. change (hp = set_rx hp (hdr ++ 0 :: r) (length hdr + 0) (h_in hp)). rewrite Nat.add_0_r, <-Hbuf. destruct Hh as [_ <-]. by destruct hp. }
  rewrite E. exists es. split; [|done]. cbn [mbind outcome_bind Z.ltb Z.compare]. rewrite Z.add_0_l, Hi. unfold bprintf20. rewrite (proj2 (Nat.ltb_lt _ _)) by lia. cbn [assertC mbind outcome_bind].
  change (h_body (took hp hdr (take n (bytes_of (h_in hp))) (0 :: r) es)) with (h_body hp). rewrite Hbody. f_equal. unfold with_body, took. by rewrite length_take, Nat.min_l by done.
Qed.

Lemma swallow_none hp hh hdr r : holds1 hp hdr (0 :: r) -> h_body hp = Some (length hdr) ->
  http_find_header (h_rx_b hp) hh (str "transfer-encoding") = Ok None -> http_find_header (h_rx_b hp) hh (str "content-length") = Ok None ->
  http_swallow_body hp hh false 0 = Ok (with_body hp hdr [] r (h_in hp)).
Proof.
  intros [Hb Hp] Hbody Ht Hl. unfold http_swallow_body. rewrite Hbody, Ht. cbn [mbind outcome_bind]. rewrite Hl. cbn [mbind outcome_bind].
  change (bprintf20 (fmt_d 0)) with (Ok (fmt_d 0)). cbn [mbind outcome_bind]. 
  change (Ok (set_bodies hp (Some (length hdr)) 0 (fmt_d 0)) = Ok (set_bodies (set_rx hp (hdr ++ 0 :: r) (length hdr + 0) (h_in hp)) (Some (length hdr)) 0 (fmt_d 0))).
  rewrite Nat.add_0_r, <-Hb, <-Hp. by destruct hp.
Qed.

(** ** Receiving a request *)

(** The length that is announced. *)
Definition announced (ls : list (list Z)) (n : nat) : Prop :=
  first_field ls (str "transfer-encoding") = None /\ fields ls (str "Content-Length") <= 1 /\
  (first_field ls (str "content-length") = Some (fmt_d (Z.of_nat n)) \/ first_field ls (str "content-length") = None /\ n = 0%nat).

Lemma rxreq_ok hs m u p ls body later : h_h2 hs = None -> h_sfd hs = true -> word1 m -> word1 u -> line_ok p -> blank (default 0 (head p)) = false ->
  Forall line_ok ls -> (length ls < 61)%nat -> announced ls (length body) -> Z.of_nat (length body) < 2 ^ 31 ->
  calm (h_in hs) -> bytes_of (h_in hs) = head_text m u p ls ++ body ++ later -> (length (head_text m u p ls ++ body) < length (h_rx_b hs))%nat ->
  exists hs' t, cmd_http_rxreq hs [] = Ok hs' /\ calm (h_in hs') /\ bytes_of (h_in hs') = later /\ h_h2 hs' = None /\
    h_rx_b hs' = head_split m u p ls ++ body ++ 0 :: t /\ h_rx_p hs' = length (head_split m u p ls ++ body) /\ h_body hs' = Some (length (head_split m u p ls)) /\
    h_req hs' = head_ptrs m u p ls /\ h_bodyl hs' = Z.of_nat (length body) /\ h_bodylen hs' = fmt_d (Z.of_nat (length body)).
Proof.
  intros Hh2 Hsfd Hm Hu Hp Hpb Hls Hn (Hte & Hcl & Hlen) H31 Hc Hbytes Hroom. rewrite length_app in Hroom. unfold cmd_http_rxreq, ONLY_SERVER, is_h2. rewrite Hh2, Hsfd. cbn [orb negb mbind outcome_bind].
  destruct (http_rxhdr_ok hs (length (head_text m u p ls)) Hc) as (es & -> & Hc1 & Hb1); [rewrite Hbytes; by apply head_end|lia|]. rewrite Hbytes in Hb1 |- *. rewrite drop_app_length in Hb1. rewrite take_app_length.
  cbn [mbind outcome_bind]. set (rest := drop (S (length (head_text m u p ls))) (h_rx_b hs)). rewrite (splitheader_ok _ true m u p ls rest) by done. cbn [mbind outcome_bind].
  set (hp := set_hh _ _ _). change (h_req hp) with (head_ptrs m u p ls). 
  unfold one_length. change (h_rx_b hp) with (head_split m u p ls ++ 0 :: rest). rewrite head_count by done. cbn [mbind outcome_bind]. rewrite (proj2 (Z.ltb_ge 1 _)) by done. cbn [mbind outcome_bind].
  assert (length (head_text m u p ls) = length (head_split m u p ls)) as HL by by rewrite head_len.
  assert (length body <= length rest)%nat as Hr by (unfold rest; rewrite length_drop; lia).
  assert (exists es', http_swallow_body hp (head_ptrs m u p ls) false 0 = Ok (with_body hp (head_split m u p ls) body rest es') /\ calm es' /\ bytes_of es' = later) as (es' & -> & Hc2 & Hb2).
  { destruct Hlen as [Hlen|[Hlen Hz]].
    - destruct (swallow_len hp (head_ptrs m u p ls) (head_split m u p ls) rest (length body)) as (es' & E & Hc2 & Hb2); try done.
      + rewrite <-HL. reflexivity.
      + change (h_rx_b hp) with (head_split m u p ls ++ 0 :: rest). rewrite head_find by done. by rewrite Hte.
      + change (h_rx_b hp) with (head_split m u p ls ++ 0 :: rest). rewrite head_find by done. by rewrite Hlen.
      + change (h_in hp) with es. rewrite Hb1, length_app. lia.
      + change (h_in hp) with es in E, Hb2. rewrite Hb1 in E, Hb2. rewrite take_app_length in E. rewrite drop_app_length in Hb2. by exists es'.
    - assert (body = []) as -> by by destruct body. exists es. split; [|done]. apply (swallow_none hp).
      + split; [done|]. exact HL.
      + rewrite <-HL. reflexivity.
      + change (h_rx_b hp) with (head_split m u p ls ++ 0 :: rest). rewrite head_find by done. by rewrite Hte.
      + change (h_rx_b hp) with (head_split m u p ls ++ 0 :: rest). rewrite head_find by done. by rewrite Hlen. }
  exists (with_body hp (head_split m u p ls) body rest es'), (drop (length body) rest). cbn. by rewrite length_app.
Qed.

(** ** The length of a body that is sent *)

Definition no_length (l : list Z) : Prop :=
  field_value l (str "transfer-encoding") = None /\ field_value l (str "content-length") = None /\ field_value l (str "Content-Length") = None.

Lemma no_len_fields users : forall n, no_len (fold_left no_hdr users n) = false -> no_len n = false /\ Forall no_length users.
Proof.
  induction users as [|h users IH]; intros n H; [done|]. cbn [fold_left] in H. apply IH in H as [H1 H2]. cbn [no_hdr no_len] in H1. rewrite !orb_false_iff in H1. destruct H1 as [[Hn Hc] Ht].
  split; [done|]. constructor; [|done]. change (str "Content-Length:") with (str "Content-Length" ++ [58]) in Hc. change (str "Transfer-Encoding:") with (str "Transfer-Encoding" ++ [58]) in Ht.
  split; [|split]; [by apply (field_value_other h _ (str "Transfer-Encoding"))|by apply (field_value_other h _ (str "Content-Length"))..].
Qed.

Lemma no_length_head c l : negb (tolower c =? 116) && negb (tolower c =? 99) = true -> no_length (c :: l).
Proof.
  intros H. apply andb_true_iff in H as [H1 H2]. apply negb_true_iff, Z.eqb_neq in H1, H2.
  split; [|split]; apply field_value_cons; [change (tolower 116) with 116|change (tolower 99) with 99|change (tolower 67) with 99]; done.
Qed.

Lemma std_no_length localhost date sess_name n : Forall no_length (std_lines localhost date sess_name n).
Proof. unfold std_lines. repeat (apply Forall_app; split); case_match; constructor; try constructor; by apply no_length_head. Qed.

Lemma sent_announced localhost date sess_name users n body : no_len (fold_left no_hdr users n) = false -> Z.of_nat (length (body_sent body)) < 2 ^ 31 ->
  announced (sent_lines localhost date sess_name users n body) (length (body_sent body)).
Proof.
  intros Hn H31. unfold announced, sent_lines. set (n' := fold_left no_hdr users n) in *. destruct (no_len_fields users n Hn) as [_ Hu]. rewrite app_assoc. set (l1 := users ++ std_lines localhost date sess_name n').
  assert (Forall no_length l1) as H1 by (apply Forall_app; split; [done|apply std_no_length]).
  assert (forall w, Forall (fun l => field_value l w = None) l1 -> first_field (l1 ++ len_line n' body) w = first_field (len_line n' body) w /\ fields (l1 ++ len_line n' body) w = fields (len_line n' body) w) as Hw.
  { intros w Hl. destruct (no_field _ _ Hl) as [Ha Hb]. rewrite first_field_app, fields_app, Ha, Hb. done. }
  destruct (Hw (str "transfer-encoding")) as [-> _]; [eapply Forall_impl; [exact H1|]; by intros l []|].
  destruct (Hw (str "content-length")) as [-> _]; [eapply Forall_impl; [exact H1|]; by intros l (_ & ? & _)|].
  destruct (Hw (str "Content-Length")) as [_ ->]; [eapply Forall_impl; [exact H1|]; by intros l (_ & _ & ?)|].
  destruct body as [s|]; cbn [len_line]; [rewrite Hn|split; [done|]; split; [done|]; by right]. destruct (fmt_d_ok (Z.of_nat (length (body_sent (Some s)))) ltac:(lia)) as (Hl & Hd & _).
  set (ds := fmt_d _) in *. split; [done|]. split; [done|]. left. change (first_field [str "Content-Length: " ++ ds] (str "content-length")) with (Some (skip_to vct_issp (32 :: ds))).
  cbn [skip_to]. change (vct_issp 32) with true. cbn [andb]. destruct ds as [|c ds]; [done|]. apply Forall_cons in Hd as [Hc _]. destruct (digit_plain c Hc) as (Hp & Hb & _). cbn [skip_to]. by rewrite plain_issp, Hb.
Qed.

(** ** A request from end to end *)

Definition req_line_args (m u p : list Z) : list (list Z) := [str "-method"; m; str "-url"; u; str "-proto"; p].
Definition req_no (p : list Z) : tx_no := mk_tx_no false (negb (streq p "HTTP/1.1")) true true false.

(** What a script sees of a request. *)
Definition sees (hp : http1) (var : string) (v : option (list Z)) : Prop := cmd_var_resolve1 hp (str var) = Ok v.

Lemma args_stop users body fuel m u p head : let rest := hdr_args users ++ body_args body in (length rest <= fuel)%nat ->
  txreq_args fuel rest m u p None false head = Ok (m, u, p, None, false, head, rest).
Proof.
  intros rest Hf. unfold rest in *. destruct users as [|h users].
  - destruct body as [s|]; [|by destruct fuel]. by destruct fuel; [simpl in Hf; lia|].
  - unfold hdr_args in *. cbn [map concat app] in *. by destruct fuel; [simpl in Hf; lia|].
Qed.

Lemma arg_method fuel s rest m u p up agent head : txreq_args (S fuel) (str "-method" :: s :: rest) m u p up agent head = txreq_args fuel rest s u p up agent (streq s "HEAD").
Proof. reflexivity. Qed.
Lemma arg_url fuel s rest m u p up agent head : txreq_args (S fuel) (str "-url" :: s :: rest) m u p up agent head = txreq_args fuel rest m s p up agent head.
Proof. reflexivity. Qed.
Lemma arg_proto fuel s rest m u p up agent head : txreq_args (S fuel) (str "-proto" :: s :: rest) m u p up agent head = txreq_args fuel rest m u s up agent head.
Proof. reflexivity. Qed.

Lemma txreq_args_ok m u p users body : let rest := hdr_args users ++ body_args body in
  txreq_args (length (req_line_args m u p ++ rest)) (req_line_args m u p ++ rest) (str "GET") (str "/") (str "HTTP/1.1") None false false = Ok (m, u, p, None, false, streq m "HEAD", rest).
Proof.
  intros rest. set (k := length rest).
  change (length (req_line_args m u p ++ rest)) with (S (S (S (S (S (S k)))))). unfold req_line_args. cbn [app].
  rewrite arg_method, arg_url, arg_proto. apply args_stop. unfold k, rest. lia.
Qed.

Definition plain_b (c : Z) : bool := (0 <? c) && (c <? 256) && negb (c =? 10) && negb (c =? 13).
Lemma plain_lit w : forallb plain_b w = true -> Forall plain_char w.
Proof.
  induction w as [|c w IH]; [done|]. cbn [forallb]. intros [Hc Hf]%andb_true_iff. constructor; [unfold plain_b in Hc; unfold plain_char, byte; lia|by apply IH].
Qed.
Lemma word_lit w : w <> [] -> forallb (fun c => plain_b c && negb (blank c)) w = true -> word1 w.
Proof.
  intros Hne Hf. split; [done|]. clear Hne. induction w as [|c w IH]; [done|]. cbn [forallb] in Hf. apply andb_true_iff in Hf as [Hc Hf]. constructor; [|by apply IH].
  unfold plain_b in Hc. unfold plain_char, byte. destruct (blank c); lia.
Qed.
Lemma literal_line w v : w <> [] -> forallb plain_b w = true -> Forall plain_char v -> line_ok (w ++ v).
Proof. intros Hne Hf Hv. split; [by destruct w|]. apply Forall_app. split; [by apply plain_lit|done]. Qed.

Lemma len_line_ok n body : Z.of_nat (length (body_sent body)) < 2 ^ 31 -> Forall line_ok (len_line n body).
Proof.
  intros H31. unfold len_line. destruct body as [s|]; [|done]. destruct (no_len n); [done|]. destruct (fmt_d_ok (Z.of_nat (length (body_sent (Some s)))) ltac:(lia)) as (_ & Hd & _).
  constructor; [|done]. apply literal_line; [done|done|]. eapply Forall_impl; [exact Hd|]. intros c Hc. by destruct (digit_plain c Hc).
Qed.

Lemma resolve_field hp name : cmd_var_resolve1 hp (str "req.http." ++ name) = http_find_header (h_rx_b hp) (h_req hp) name.
Proof. reflexivity. Qed.

Section trip.
Context (zst : Type) (deflateInit2 : Z -> option zst) (deflate : flush -> zst -> list Z -> nat -> Z * list Z * list Z * zst).
Context (stop_bit : option (zst -> Z)) (rnd : Z -> Z) (zfuel : nat) (readfile : list Z -> option (list Z)).
Context (localhost date sess_name : list Z) (reuse : bool) (parse_string : list Z -> http1 -> outcome http1).
#[local] Abbreviation txreq := (cmd_http_txreq zst deflateInit2 deflate stop_bit rnd zfuel readfile localhost date sess_name reuse parse_string).
#[local] Abbreviation sent := (sent_lines localhost date sess_name).

Lemma txreq_ok hc m u p users body : h_h2 hc = None -> h_sfd hc = false ->
  exists hc', txreq hc (req_line_args m u p ++ hdr_args users ++ body_args body) = Ok hc' /\
    h_out hc' = h_out hc ++ head_text m u p (sent users (req_no p) body) ++ body_sent body.
Proof.
  intros H2 Hs. unfold cmd_http_txreq, ONLY_CLIENT, is_h2. rewrite H2, Hs. cbn [orb mbind outcome_bind].
  rewrite txreq_args_ok. cbn [mbind outcome_bind]. fold (req_no p). rewrite tx_parse_ok. cbn [mbind outcome_bind]. eexists. split; [done|]. cbn [http_write h_out set_out put h_vsb set_vsb set_head app].
  f_equal. unfold head_text. app_norm. done.
Qed.

Lemma std_lines_ok n : Forall plain_char localhost -> Forall plain_char date -> Forall plain_char sess_name -> Forall line_ok (std_lines localhost date sess_name n).
Proof using.
  intros Hl Hd Hs. unfold std_lines.
  repeat (apply Forall_app; split); case_match; constructor; try constructor; by apply literal_line.
Qed.

(** C12: A request of a client script comes out at a server script.  [txreq]
    with any method, URL, protocol, header fields and body is received by
    [rxreq] whatever pieces the connection delivers and whatever interrupts it,
    and nothing behind the request is touched: the script sees the method, the
    URL, the protocol, for each name the first field of that name, among those
    given and those the code adds, the length of the body and the body.
    No given field may announce a length itself; there may be 60 fields, and
    the receive buffer must hold the message. *)
Theorem http1_roundtrip hc m u p users body ls : h_h2 hc = None -> h_sfd hc = false ->
  word1 m -> word1 u -> line_ok p -> blank (default 0 (head p)) = false -> Forall line_ok users ->
  Forall plain_char localhost -> Forall plain_char date -> Forall plain_char sess_name ->
  no_len (fold_left no_hdr users (req_no p)) = false -> ls = sent users (req_no p) body -> (length ls < 61)%nat -> Z.of_nat (length (body_sent body)) < 2 ^ 31 ->
  exists hc' msg, txreq hc (req_line_args m u p ++ hdr_args users ++ body_args body) = Ok hc' /\ h_out hc' = h_out hc ++ msg /\
    forall hs later, h_h2 hs = None -> h_sfd hs = true -> calm (h_in hs) -> bytes_of (h_in hs) = msg ++ later -> (length msg < length (h_rx_b hs))%nat ->
      exists hs', cmd_http_rxreq hs [] = Ok hs' /\ calm (h_in hs') /\ bytes_of (h_in hs') = later /\
        sees hs' "req.method" (Some m) /\ sees hs' "req.url" (Some u) /\ sees hs' "req.proto" (Some p) /\
        (forall name, cmd_var_resolve1 hs' (str "req.http." ++ name) = Ok (first_field ls name)) /\
        sees hs' "req.bodylen" (Some (fmt_d (Z.of_nat (length (body_sent body))))) /\ sees hs' "req.body" (Some (cstr (body_sent body))) /\
        exists from, h_body hs' = Some from /\ take (Z.to_nat (h_bodyl hs')) (drop from (h_rx_b hs')) = body_sent body.
Proof.
  intros Hc2 Hcs Hm Hu Hp Hpb Hus Hlo Hda Hse Hnl -> Hn H31. destruct (txreq_ok hc m u p users body Hc2 Hcs) as (hc' & E & Eo). exists hc'. eexists. split; [exact E|]. split; [exact Eo|].
  intros hs later Hs2 Hss Hcalm Hb Hroom. set (ls := sent users (req_no p) body) in *. pose proof (sent_announced localhost date sess_name users (req_no p) body Hnl H31) as Ha. fold ls in Ha.
  assert (Forall line_ok ls) as Hls by (apply Forall_app; split; [done|]; apply Forall_app; split; [by apply std_lines_ok|by apply len_line_ok]).
  rewrite <-app_assoc in Hb. destruct (rxreq_ok hs m u p ls (body_sent body) later) as (hs' & t & Er & Hc' & Hb' & _ & Hbuf & _ & Hbody & Hreq & Hbl & Hbn); try done.
  exists hs'. split; [exact Er|]. split; [done|]. split; [done|]. destruct (head_words m u p ls Hm Hu Hp Hn hs' _ Hbuf) as (W0 & W1 & W2). rewrite <-Hreq in W0, W1, W2.
  split; [exact W0|]. split; [exact W1|]. split; [exact W2|]. split.
  { intros name. rewrite resolve_field, Hreq, Hbuf. by apply head_find. }
  split; [unfold sees; by rewrite <-Hbn|]. split.
  { unfold sees. change (cmd_var_resolve1 hs' (str "req.body")) with (match h_body hs' with Some p => s ← str_at (h_rx_b hs') p; Ok (Some s) | None => Ok (Some (str "req.body")) end).
    rewrite Hbody, Hbuf, cstr_at. done. }
  exists (length (head_split m u p ls)). split; [done|]. rewrite Hbl, Nat2Z.id, Hbuf, drop_app_length, take_app_length. done.
Qed.
End trip.

(** A request with a field of its own, cut in three and interrupted. *)
Definition trip_users : list (list Z) := [str "X-Test: a b"; str "host: me"].
Definition trip_body : option (list Z) := Some (str "one\0two").
Definition trip_msg : list Z :=
  str "POST /url HTTP/1.1" ++ nl ++ str "X-Test: a b" ++ nl ++ str "host: me" ++ nl ++ str "User-Agent: c1" ++ nl ++ str "Content-Length: 7" ++ nl ++ nl ++ str "one" ++ [0] ++ str "two".
Definition trip_http (sfd : bool) (b : list Z) (es : list rx_ev) : http1 :=
  mk_http1 b 0 None 0 [] [] (replicate MAX_HDR None) (replicate MAX_HDR None) es [] [] false 0 sfd (mk_gz 0 (-1)) None [] [] None.
Definition trip_hs : http1 :=
  trip_http true (replicate 256 165) [RData (take 10 trip_msg); RPollIntr; RData (take 79 (drop 10 trip_msg)); RData (drop 89 trip_msg ++ str "GET")].

Lemma http1_roundtrip_witness : exists hs', cmd_http_rxreq trip_hs [] = Ok hs' /\ bytes_of (h_in hs') = str "GET" /\
  sees hs' "req.method" (Some (str "POST")) /\ sees hs' "req.http.x-test" (Some (str "a b")) /\ sees hs' "req.http.Host" (Some (str "me")) /\ sees hs' "req.bodylen" (Some (str "7")) /\ sees hs' "req.body" (Some (str "one")).
Proof.
  destruct (http1_roundtrip unit (fun _ => None) (fun _ z _ _ => (0, [], [], z)) None (fun _ => 0) 0 (fun _ => None) (str "localhost") (str "now") (str "c1") true (fun _ _ => Fault FFatal)
    (trip_http false (replicate 8 0) []) (str "POST") (str "/url") (str "HTTP/1.1") trip_users trip_body
    (sent_lines (str "localhost") (str "now") (str "c1") trip_users (req_no (str "HTTP/1.1")) trip_body)) as (hc' & msg & E & Eo & H).
  1,2: done.
  1,2: by apply word_lit.
  1: split; [done|]; by apply plain_lit.
  1: done.
  1: repeat constructor; try done; by apply plain_lit.
  1,2,3: by apply plain_lit.
  1,2: done.
  1,2: vm_compute; lia || done.
  assert (msg = trip_msg) as Em. { vm_compute in E. injection E as <-. by vm_compute in Eo. }
  rewrite Em in H. clear E Eo Em. destruct (H trip_hs (str "GET")) as (hs' & Er & _ & Hl & H1 & H2 & H3 & H4 & H5 & H6 & _).
  1,2: done.
  1: repeat constructor.
  1: done.
  1: vm_compute; lia.
  exists hs'. split; [exact Er|]. split; [exact Hl|]. split; [exact H1|]. split; [exact (H4 (str "x-test"))|]. split; [exact (H4 (str "Host"))|]. split; [exact H5|exact H6].
Defined.

(** ** Commands that fail *)

(** [settings] never takes an option, as its own name is the first word it
    looks at. *)
Lemma settings_dead hp av : cmd_http_settings hp (str "settings" :: av) = Fault FFatal.
Proof. unfold cmd_http_settings. by destruct (h_h2 hp). Qed.

(** Of two escapes in a row only the first becomes a NUL. *)
Lemma body_nul_pair : body_nuls 4 (str "\0\0") = 0 :: str "\0".
Proof. by vm_compute. Qed.

(** A chunk of 2^32 bytes ends the body, as does one of 2^32 - 1; and the byte
    behind a line feed at the end of a chunk is lost. *)
Definition chunk_of (s : list Z) : outcome Z := '(_, i) ← http_rxchunk (trip_http false (replicate 64 0) [RData s]); Ok i.
Lemma chunk_lengths : chunk_of (str "100000000" ++ nl ++ nl) = Ok 0 /\ chunk_of (str "ffffffff" ++ nl ++ nl) = Ok (-1) /\ chunk_of (str "1" ++ nl ++ str "a" ++ [10; 120]) = Ok 1.
Proof. by vm_compute. Qed.

(** A negative length leaves the body unread. *)
Lemma negative_length : exists hp', cmd_http_rxreq (trip_http true (replicate 128 0) [RData (str "GET / HTTP/1.1" ++ nl ++ str "content-length: 4294967295" ++ nl ++ nl ++ str "abc")]) [] = Ok hp' /\
  h_bodyl hp' = -1 /\ bytes_of (h_in hp') = str "abc".
Proof. eexists. by vm_compute. Qed.

(** Without a URL the header fails an assertion. *)
Lemma no_url : cmd_http_rxreq (trip_http true (replicate 128 0) [RData (str "GET" ++ nl ++ nl)]) [] = Fault FAssert.
Proof. by vm_compute. Qed.
