(* ===== verification/Vsa.v ===== *)
(** * Addresses (lib/vsa.c)

    A [struct suckaddr] is the family and the bytes behind it in the union:
    port, address and the rest, as Linux on a little-endian machine lays them
    out.  NULL is None.  What the names of a socket are is outside. *)

From Stdlib Require Import ZArith Lia ZifyBool.
From stdpp Require Import base option numbers list.
From S2P Require Import Prelude CStr Vend.
#[local] Open Scope Z_scope.

Definition AF_UNIX : Z := 1.
Definition PF_INET : Z := 2.
Definition PF_INET6 : Z := 10.

(** [sa_data] has the 26 bytes of the largest member. *)
Record suckaddr := mk_suckaddr { sa_family : Z; sa_data : list Z }.
Definition sa_room : nat := 26.

(** The members [sin_port], [sin_addr] and [sin6_addr]. *)
Definition sin_port (s : suckaddr) : list Z := take 2 (sa_data s).
Definition sin_addr (s : suckaddr) : list Z := take 4 (drop 2 (sa_data s)).
Definition sin6_addr (s : suckaddr) : list Z := take 16 (drop 6 (sa_data s)).

(** The sizes of the structures. *)
Definition sua_len (fam : Z) : Z :=
  if fam =? PF_INET then 16 else if fam =? PF_INET6 then 28 else if fam =? AF_UNIX then 110 else 0.

(** [errno] on failure is left out; [d] is what follows the family in [s]. *)
Definition VSA_Build (fam : Z) (d : list Z) (sal : Z) : outcome (option suckaddr) :=
  let l := sua_len fam in
  if (l =? 0) || negb (l =? sal) then Ok None
  else if (l =? 16) || (l =? 28) then Ok (Some (mk_suckaddr fam (take (Z.to_nat l - 2) d ++ replicate (28 - Z.to_nat l) 0)))
  else Fault FAssert.
Definition VSA_Malloc (fam : Z) (d : list Z) (sal : Z) : outcome (option suckaddr) := VSA_Build fam d sal.

(** The bytes of an argument of [n] bytes, zeros without one, None when it has
    another length. *)
Definition part (n : nat) (a : option (list Z)) : option (list Z) :=
  match a with
  | None | Some [] => Some (replicate n 0)
  | Some a => if (length a =? n)%nat then Some a else None
  end.
Definition VSA_BuildFAP (fam : Z) (a p : option (list Z)) : outcome (option suckaddr) :=
  if fam =? PF_INET then
    match part 4 a, part 2 p with
    | Some a, Some p => VSA_Build fam (p ++ a ++ replicate 8 0) 16
    | _, _ => Ok None
    end
  else if fam =? PF_INET6 then
    match part 16 a, part 2 p with
    | Some a, Some p => VSA_Build fam (p ++ replicate 4 0 ++ a ++ replicate 4 0) 28
    | _, _ => Ok None
    end
  else Ok None.

(** The family and the address, or -1. *)
Definition VSA_GetPtr (s : option suckaddr) : Z * option (list Z) :=
  match s with
  | None => (-1, None)
  | Some s =>
      if sa_family s =? PF_INET then (PF_INET, Some (sin_addr s))
      else if sa_family s =? PF_INET6 then (PF_INET6, Some (sin6_addr s)) else (-1, None)
  end.

(** The length of what [VSA_Get_Sockaddr] returns a pointer to. *)
Definition VSA_Get_Sockaddr (s : suckaddr) : option Z := let sl := sua_len (sa_family s) in if sl =? 0 then None else Some sl.
Definition VSA_Get_Proto (s : suckaddr) : Z := sa_family s.
Definition VSA_Sane (s : suckaddr) : bool := negb (sua_len (sa_family s) =? 0).

(** [memcmp], up to the magnitude of its result. *)
Fixpoint memcmp (a b : list Z) : Z :=
  match a, b with
  | x :: a, y :: b => if x <? y then -1 else if y <? x then 1 else memcmp a b
  | _, _ => 0
  end.
Definition VSA_Compare (s t : suckaddr) : Z :=
  memcmp (sa_family s `mod` 256 :: sa_family s `div` 256 :: sa_data s) (sa_family t `mod` 256 :: sa_family t `div` 256 :: sa_data t).
Definition VSA_Compare_IP (s t : suckaddr) : outcome Z :=
  _ ← assertC (VSA_Sane s);
  _ ← assertC (VSA_Sane t);
  if negb (sa_family s =? sa_family t) then Ok (-1)
  else if sa_family s =? PF_INET then Ok (memcmp (sin_addr s) (sin_addr t))
  else if sa_family s =? PF_INET6 then Ok (memcmp (sin6_addr s) (sin6_addr t))
  else Fault FAssert.

Definition VSA_Clone (s : suckaddr) : outcome suckaddr := _ ← assertC (VSA_Sane s); Ok s.

Definition VSA_Port (s : suckaddr) : outcome Z :=
  if (sa_family s =? PF_INET) || (sa_family s =? PF_INET6) then vbe16dec (sin_port s) else Ok 0.

(** ** Addresses that are built *)

Definition ip_len (fam : Z) : nat := if fam =? PF_INET then 4 else 16.
Definition inet (fam : Z) : Prop := fam = PF_INET \/ fam = PF_INET6.

(** An address with its port. *)
Definition holds_ip (s : suckaddr) (fam : Z) (a : list Z) (port : Z) : Prop :=
  sa_family s = fam /\ inet fam /\ length a = ip_len fam /\ 0 <= port < 65536 /\
  VSA_GetPtr (Some s) = (fam, Some a) /\ sin_port s = be16 port.

Lemma BuildFAP_ok fam a port : inet fam -> length a = ip_len fam -> 0 <= port < 65536 ->
  exists s, VSA_BuildFAP fam (Some a) (Some (be16 port)) = Ok (Some s) /\ holds_ip s fam a port.
Proof.
  intros Hf Hl Hp. unfold VSA_BuildFAP, holds_ip. destruct Hf as [-> | ->]; cbn [Z.eqb PF_INET PF_INET6 Pos.eqb ip_len] in *.
  - destruct a as [|a0 [|a1 [|a2 [|a3 [|a4 a]]]]]; try done. eexists. split; [reflexivity|]. split; [done|]. split; [by left|]. done.
  - do 17 (destruct a as [|? a]; [try done|]); [|done]. eexists. split; [reflexivity|]. split; [done|]. split; [by right|]. done.
Qed.

Lemma port_ok s fam a port : holds_ip s fam a port -> VSA_Port s = Ok port.
Proof.
  intros (Hf & Hi & _ & Hp & _ & Hs). unfold VSA_Port. rewrite Hs.
  assert ((sa_family s =? PF_INET) || (sa_family s =? PF_INET6) = true) as -> by (destruct Hi as [Hi|Hi]; subst fam; rewrite Hi; done).
  unfold be16. rewrite vbe16dec_ok by (unfold byte; Z.to_euclidean_division_equations; lia). f_equal. Z.to_euclidean_division_equations; lia.
Qed.

(** A socket address of another family has a size but cannot be stored. *)
Lemma build_unix d : VSA_Build AF_UNIX d 110 = Fault FAssert.
Proof. done. Qed.
