(* ===== verification/Proxy.v ===== *)
(** * The PROXY header (src/vtc_proxy.c, and client_proxy of src/vtc_client.c)

    The header a client sends in front of its connection, in version 1 and 2.
    The names of addresses and their resolution are parameters; the connection
    takes all that is written. *)

From Stdlib Require Import ZArith Lia ZifyBool String.
From stdpp Require Import base option numbers list.
From S2P Require Import Prelude CStr Vct HpackData VtcSubr Vend Vsa.
#[local] Open Scope Z_scope.

Definition vpx1_sig : list Z := str "PROXY".
Definition vpx2_sig : list Z := [13; 10; 13; 10; 0; 13; 10; 81; 85; 73; 84; 10].

Definition pp2_types : list (string * Z) :=
  [("alpn", 1); ("authority", 2); ("crc32c", 3); ("netns", 48); ("noop", 4); ("unique_id", 5)]%string.

(** [bsearch] on the table, which is sorted. *)
Definition pp2_find (p : list Z) : option Z := match list_find (fun e => streq p e.1 = true) pp2_types with Some (_, (_, x)) => Some x | None => None end.

(** [strtok_r]: the token, and what is behind its delimiter. *)
Fixpoint strtok_word (delim s : list Z) : list Z * list Z :=
  match s with
  | [] => ([], [])
  | c :: s => if bool_decide (c ∈ delim) then ([], s) else let '(t, r) := strtok_word delim s in (c :: t, r)
  end.
Definition strtok_r (delim s : list Z) : option (list Z * list Z) :=
  match skip_to (fun c => bool_decide (c ∈ delim)) s with [] => None | s => Some (strtok_word delim s) end.

(** Appends to [vsb]. *)
Definition vtc_proxy_tlv (vsb kva : list Z) : outcome (list Z) :=
  match strtok_r [61] kva with
  | None => Fault FAssert
  | Some (p, save) =>
      ty ← (if starts_with p "0x" then
              b ← vtc_hex_to_bin (drop 2 p);
              match b with [x] => Ok x | _ => Fault FFatal end
            else match pp2_find p with Some x => Ok x | None => Fault FFatal end);
      match strtok_r [] save with
      | None => Fault FFatal
      | Some (p, _) =>
          v ← (if starts_with p "0x" then vtc_hex_to_bin (drop 2 p) else Ok p);
          let sz := Z.of_nat (length v) in
          _ ← assertC (sz <=? 65535);
          le ← vbe16enc [0; 0] 0 (u16 sz);
          Ok (vsb ++ ty :: le ++ v)
      end
  end.

(** The [n] bytes of the member, when the socket address is large enough. *)
Definition vpx_enc_addr (vsb : list Z) (proto : Z) (s : suckaddr) : outcome (list Z) :=
  match VSA_Get_Sockaddr s with
  | None => Fault FAssert
  | Some sl =>
      if proto =? PF_INET6 then _ ← assertC (28 <=? sl); Ok (vsb ++ sin6_addr s)
      else _ ← assertC (16 <=? sl); Ok (vsb ++ sin_addr s)
  end.
Definition vpx_enc_port (vsb : list Z) (s : suckaddr) : outcome (list Z) :=
  p ← VSA_Port s; b ← vbe16enc [0; 0] 0 (u16 p); Ok (vsb ++ b).

Section names.
(** [VTCP_name]: address and port in print. *)
Context (VTCP_name : suckaddr -> list Z * list Z).

(** The bytes that are written. *)
Definition vtc_send_proxy (version : Z) (sac sas : suckaddr) (tlv : option (list Z)) : outcome (list Z) :=
  _ ← assertC ((version =? 1) || (version =? 2));
  let proto := VSA_Get_Proto sas in
  _ ← assertC ((proto =? PF_INET6) || (proto =? PF_INET));
  let l := match tlv with Some t => u16 (Z.of_nat (length t)) | None => 0 end in
  _ ← assertC (l <=? 65535 - 36);
  let tail := default [] tlv in
  if version =? 1 then
    let '(hc, pc) := VTCP_name sac in
    let '(hs, ps) := VTCP_name sas in
    Ok (vpx1_sig ++ str (if proto =? PF_INET6 then " TCP6 " else " TCP4 ") ++ hc ++ [32] ++ hs ++ [32] ++ pc ++ [32] ++ ps ++ [13; 10] ++ tail)
  else
    let vsb := vpx2_sig ++ [33] ++ [if proto =? PF_INET6 then 33 else 17] in
    le ← vbe16enc [0; 0] 0 (l + (if proto =? PF_INET6 then 36 else 12));
    vsb ← vpx_enc_addr (vsb ++ le) proto sac;
    vsb ← vpx_enc_addr vsb proto sas;
    vsb ← vpx_enc_port vsb sac;
    vsb ← vpx_enc_port vsb sas;
    Ok (vsb ++ tail).

(** [VSS_ResolveOne]. *)
Context (resolve : list Z -> option suckaddr).

(** [while ((p = strtok_r(NULL, " ", &save)) != NULL)]. *)
Fixpoint tlv_loop (fuel : nat) (save tlv : list Z) : outcome (list Z) :=
  match strtok_r [32] save, fuel with
  | None, _ => Ok tlv
  | _, O => Fault FFuel
  | Some (p, save), S fuel => tlv ← vtc_proxy_tlv tlv p; tlv_loop fuel save tlv
  end.

Definition client_proxy (version : Z) (spec : list Z) : outcome (list Z) :=
  match strtok_r [32] spec with
  | None => Fault FAssert
  | Some (p, save) =>
      match resolve p with
      | None => Fault FFatal
      | Some sac =>
          match strtok_r [32] save with
          | None => Fault FAssert
          | Some (p, save) =>
              match resolve p with
              | None => Fault FFatal
              | Some sas => tlv ← tlv_loop (length save) save []; vtc_send_proxy version sac sas (Some tlv)
              end
          end
      end
  end.
End names.
