(* ===== verification/ProxySpec.v ===== *)
(** * What a PROXY header says (src/vtc_proxy.c)

    [pp2_decode] reads a header as the specification of the protocol, version 2,
    has it; what [client_proxy] writes is read back.  The last part is about
    addresses of two families, and values that are too long in sum. *)

From Stdlib Require Import ZArith Lia ZifyBool String.
From stdpp Require Import base option numbers sets list.
From S2P Require Import Prelude CStr Vct HpackData VtcSubr Vend Vsa Proxy.
#[local] Open Scope Z_scope.

(** ** Reading a header *)

Record pp2 := mk_pp2 { pp_fam : Z; pp_src : list Z; pp_dst : list Z; pp_sport : Z; pp_dport : Z; pp_tlvs : list (Z * list Z) }.

Fixpoint decode_tlvs (fuel : nat) (bs : list Z) : option (list (Z * list Z)) :=
  match bs, fuel with
  | [], _ => Some []
  | t :: h :: l :: r, S fuel =>
      let n := Z.to_nat (h * 256 + l) in
      if (n <=? length r)%nat then cons (t, take n r) <$> decode_tlvs fuel (drop n r) else None
  | _, _ => None
  end.

(** CR LF CR LF NUL CR LF QUIT LF. *)
Definition pp2_sig : list Z := [13; 10; 13; 10; 0; 13; 10] ++ str "QUIT" ++ [10].

(** The header, and what is behind it. *)
Definition pp2_decode (bs : list Z) : option (pp2 * list Z) :=
  if bool_decide (take 12 bs = pp2_sig) then
    match drop 12 bs with
    | ver :: f :: h :: l :: r =>
        let len := Z.to_nat (h * 256 + l) in
        let fam := if f =? 17 then Some PF_INET else if f =? 33 then Some PF_INET6 else None in
        match fam with
        | Some fam =>
            let n := ip_len fam in
            let r1 := take len r in
            if (ver =? 33) && (len <=? length r)%nat && (2 * n + 4 <=? len)%nat then
              match drop (2 * n) r1 with
              | p0 :: p1 :: q0 :: q1 :: t =>
                  match decode_tlvs (length t) t with
                  | Some tlvs => Some (mk_pp2 fam (take n r1) (take n (drop n r1)) (p0 * 256 + p1) (q0 * 256 + q1) tlvs, drop len r)
                  | None => None
                  end
              | _ => None
              end
            else None
        | None => None
        end
    | _ => None
    end
  else None.

Definition tlv_bytes (tv : Z * list Z) : list Z := tv.1 :: be16 (Z.of_nat (length tv.2)) ++ tv.2.
Definition tlvs_bytes (tvs : list (Z * list Z)) : list Z := concat (map tlv_bytes tvs).

Lemma be16_ok u : 0 <= u < 65536 -> exists h l, be16 u = [h; l] /\ h * 256 + l = u.
Proof. intros Hu. do 2 eexists. split; [done|]. Z.to_euclidean_division_equations; lia. Qed.

Lemma decode_tlvs_ok tvs : Forall (fun tv => Z.of_nat (length tv.2) < 65536) tvs -> forall fuel, (length (tlvs_bytes tvs) <= fuel)%nat -> decode_tlvs fuel (tlvs_bytes tvs) = Some tvs.
Proof.
  induction 1 as [|[t v] tvs Hv _ IH]; intros fuel Hf; [by destruct fuel|]. unfold tlvs_bytes in *. cbn [map concat fst snd] in *.
  destruct (be16_ok (Z.of_nat (length v)) ltac:(simpl in Hv; lia)) as (h & l & Eb & El). unfold tlv_bytes in *. cbn [fst snd] in *. rewrite Eb in *. cbn [app length] in *.
  rewrite length_app in Hf. destruct fuel as [|fuel]; [lia|]. cbn [decode_tlvs]. rewrite El, Nat2Z.id, length_app, (proj2 (Nat.leb_le _ _)) by lia.
  rewrite drop_app_length, take_app_length, IH by lia. done.
Qed.

(** A header in pieces. *)
Definition fam_byte (fam : Z) : Z := if fam =? PF_INET6 then 33 else 17.
Definition head2 (fam len : Z) (a b : list Z) (pa pb : Z) (tail : list Z) : list Z :=
  pp2_sig ++ 33 :: fam_byte fam :: be16 len ++ a ++ b ++ be16 pa ++ be16 pb ++ tail.

Lemma pp2_decode_ok fam a b pa pb tvs later t len : inet fam -> length a = ip_len fam -> length b = ip_len fam -> 0 <= pa < 65536 -> 0 <= pb < 65536 ->
  decode_tlvs (length t) t = Some tvs -> len = Z.of_nat (2 * ip_len fam + 4 + length t) -> len < 65536 ->
  pp2_decode (head2 fam len a b pa pb (t ++ later)) = Some (mk_pp2 fam a b pa pb tvs, later).
Proof.
  intros Hf Ha Hb Hpa Hpb Ht Hl Hl2. unfold pp2_decode, head2. change 12%nat with (length pp2_sig). rewrite take_app_length, drop_app_length. rewrite bool_decide_eq_true_2 by done.
  destruct (be16_ok len ltac:(lia)) as (h & l & -> & Ehl). destruct (be16_ok pa Hpa) as (p0 & p1 & -> & Epa). destruct (be16_ok pb Hpb) as (q0 & q1 & -> & Epb).
  cbn [app]. rewrite Ehl, Hl, Nat2Z.id. set (n := ip_len fam) in *. assert (a ++ b ++ p0 :: p1 :: q0 :: q1 :: t ++ later = (a ++ b ++ p0 :: p1 :: q0 :: q1 :: t) ++ later) as -> by (rewrite <-!app_assoc; done).
  assert (length (a ++ b ++ p0 :: p1 :: q0 :: q1 :: t) = (2 * n + 4 + length t)%nat) as HL by (rewrite !length_app; cbn [length]; lia).
  assert ((if fam_byte fam =? 17 then Some PF_INET else if fam_byte fam =? 33 then Some PF_INET6 else None) = Some fam) as -> by (destruct Hf as [-> | ->]; done). cbn [Z.eqb Pos.eqb andb].
  fold n. rewrite (take_app_length' _ later), (drop_app_length' _ later) by done. rewrite length_app, HL. rewrite (proj2 (Nat.leb_le _ (_ + _ + _ + _))), (proj2 (Nat.leb_le (2 * n + 4) _)) by lia. cbn [andb]. assert (drop (2 * n) (a ++ b ++ p0 :: p1 :: q0 :: q1 :: t) = p0 :: p1 :: q0 :: q1 :: t) as ->.
  { rewrite app_assoc. apply drop_app_length'. rewrite length_app. lia. }
  rewrite Ht. rewrite <-Ha at 1. rewrite take_app_length. rewrite drop_app_length' by done. rewrite take_app_length' by done. by rewrite Epa, Epb.
Qed.

(** ** Writing one *)

Lemma enc_addr_ok vsb s fam a port : holds_ip s fam a port -> vpx_enc_addr vsb fam s = Ok (vsb ++ a).
Proof.
  intros (Hf & Hi & _ & _ & Hg & _). unfold vpx_enc_addr, VSA_Get_Sockaddr. rewrite Hf. unfold VSA_GetPtr in Hg. rewrite Hf in Hg. destruct Hi as [-> | ->]; by injection Hg as ->.
Qed.
Lemma enc16 u : 0 <= u < 65536 -> vbe16enc [0; 0] 0 u = Ok (be16 u).
Proof. intros Hu. pose proof (vbe16enc_ok [] 0 0 [] u 0 eq_refl) as E. cbn [app] in E. by rewrite app_nil_r in E. Qed.
Lemma enc_port_ok vsb s fam a port : holds_ip s fam a port -> vpx_enc_port vsb s = Ok (vsb ++ be16 port).
Proof. intros H. unfold vpx_enc_port. rewrite (port_ok s fam a port H). destruct H as (_ & _ & _ & Hp & _). cbn [mbind outcome_bind]. by rewrite wrapu_small, enc16 by lia. Qed.

Lemma send_proxy_ok name sac sas fam a b pa pb t : holds_ip sac fam a pa -> holds_ip sas fam b pb -> u16 (Z.of_nat (length t)) <= 65535 - 36 ->
  vtc_send_proxy name 2 sac sas (Some t) = Ok (head2 fam (u16 (Z.of_nat (length t)) + Z.of_nat (2 * ip_len fam + 4)) a b pa pb t).
Proof.
  intros Ha Hb Hl. unfold vtc_send_proxy. cbn [Z.eqb Pos.eqb orb assertC mbind outcome_bind]. unfold VSA_Get_Proto. pose proof Ha as (_ & Hi & _). pose proof Hb as (-> & _).
  assert ((fam =? PF_INET6) || (fam =? PF_INET) = true) as -> by (destruct Hi as [-> | ->]; done). cbn [assertC mbind outcome_bind]. set (l := u16 _) in *. rewrite (proj2 (Z.leb_le l _)) by lia. cbn [assertC mbind outcome_bind].
  assert (0 <= l) by (unfold l; apply wrapu_range; lia).
  assert ((if fam =? PF_INET6 then 36 else 12) = Z.of_nat (2 * ip_len fam + 4)) as -> by (destruct Hi as [-> | ->]; done).
  rewrite enc16 by (destruct Hi as [-> | ->]; simpl; lia). cbn [mbind outcome_bind]. rewrite (enc_addr_ok _ sac fam a pa Ha). cbn [mbind outcome_bind]. rewrite (enc_addr_ok _ sas fam b pb Hb). cbn [mbind outcome_bind].
  rewrite (enc_port_ok _ sac fam a pa Ha). cbn [mbind outcome_bind]. rewrite (enc_port_ok _ sas fam b pb Hb). cbn [mbind outcome_bind default from_option id]. unfold head2, fam_byte. f_equal.
  rewrite <-!app_assoc. done.
Qed.

(** ** Words *)

Definition word_of (delim w : list Z) : Prop := w <> [] /\ Forall (fun c => c ∉ delim) w.

Lemma token_ok delim w r : Forall (fun c => c ∉ delim) w -> (r = [] \/ exists c t, r = c :: t /\ c ∈ delim) -> strtok_word delim (w ++ r) = (w, drop 1 r).
Proof.
  induction 1 as [|c w Hc _ IH]; intros Hr; [destruct Hr as [->|(c & t & -> & Hc)]; [done|]; cbn; by rewrite bool_decide_eq_true_2|].
  cbn [app strtok_word]. rewrite bool_decide_eq_false_2 by done. by rewrite IH.
Qed.

Lemma strtok_ok delim w r : word_of delim w -> (r = [] \/ exists c t, r = c :: t /\ c ∈ delim) -> strtok_r delim (w ++ r) = Some (w, drop 1 r).
Proof.
  intros [Hne Hw] Hr. unfold strtok_r. destruct w as [|c w]; [done|]. pose proof Hw as Hw'. apply Forall_cons in Hw' as [Hc _]. cbn [app skip_to]. rewrite bool_decide_eq_false_2 by done.
  change (c :: w ++ r) with ((c :: w) ++ r). by rewrite token_ok.
Qed.

Definition blanks (args : list (list Z)) : list Z := concat (map (cons 32) args).

Lemma blanks_tail args : blanks args = [] \/ exists c t, blanks args = c :: t /\ c ∈ [32].
Proof. destruct args as [|a args]; [by left|]. right. do 2 eexists. split; [done|]. set_solver. Qed.

Lemma word_first w args : word_of [32] w -> strtok_r [32] (w ++ blanks args) = Some (w, drop 1 (blanks args)).
Proof. intros Hw. apply strtok_ok; [done|apply blanks_tail]. Qed.

(** ** Values *)

(** The types that have names, as the specification of the protocol numbers them. *)
Definition pp2_names : list (string * Z) :=
  [("alpn", 1); ("authority", 2); ("crc32c", 3); ("noop", 4); ("unique_id", 5); ("netns", 48)]%string.

(** An argument and the type and value it stands for. *)
Definition tlv_name (n : list Z) (t : Z) : Prop := (exists s, (s, t) ∈ pp2_names /\ n = str s) \/ exists h ds, n = str "0x" ++ h /\ Bytes h /\ hex_digits h = Some ds /\ paired ds = [t].
Definition tlv_value (w v : list Z) : Prop := w = v /\ take 2 w <> str "0x" \/ exists h ds, w = str "0x" ++ h /\ Bytes h /\ hex_digits h = Some ds /\ paired ds = v.
Definition tlv_arg (k : list Z) (tv : Z * list Z) : Prop :=
  exists n w, k = n ++ 61 :: w /\ word_of [61; 32] n /\ word_of [32] w /\ tlv_name n tv.1 /\ tlv_value w tv.2.

Lemma hex_bin h ds : Bytes h -> hex_digits h = Some ds -> vtc_hex_to_bin h = Ok (paired ds).
Proof. intros Hh Hd. unfold vtc_hex_to_bin. rewrite (proj1 (hex_loop_ok h [] Hh)), Hd. done. Qed.

Lemma starts_0x h : starts_with (str "0x" ++ h) "0x" = true.
Proof. unfold starts_with. by rewrite take_app_length, bool_decide_eq_true_2. Qed.

Lemma names_find s t : (s, t) ∈ pp2_names -> starts_with (str s) "0x" = false /\ pp2_find (str s) = Some t.
Proof. unfold pp2_names. intros H. repeat (apply elem_of_cons in H as [[= -> ->]|H]; [done|]). by apply elem_of_nil in H. Qed.

Lemma tlv_ok vsb k tv : tlv_arg k tv -> Z.of_nat (length tv.2) < 65536 -> vtc_proxy_tlv vsb k = Ok (vsb ++ tlv_bytes tv).
Proof.
  intros (n & w & -> & [Hn Hn'] & [Hw Hw'] & Ht & Hv) H16. destruct tv as [t v]. cbn [fst snd] in *. unfold vtc_proxy_tlv.
  rewrite strtok_ok; [|split; [done|]; eapply Forall_impl; [exact Hn'|]; intros c Hc; set_solver|right; do 2 eexists; split; [done|set_solver]]. change (drop 1 (61 :: w)) with w.
  assert ((if starts_with n "0x" then b ← vtc_hex_to_bin (drop 2 n); match b with [x] => Ok x | _ => Fault FFatal end else match pp2_find n with Some x => Ok x | None => Fault FFatal end) = Ok t) as ->.
  { destruct Ht as [(s & Hs & ->)|(h & ds & -> & Hh & Hd & Hp)]; [by apply names_find in Hs as [-> ->]|]. rewrite starts_0x. change (drop 2 (str "0x" ++ h)) with h. rewrite (hex_bin h ds) by done. cbn [mbind outcome_bind]. by rewrite Hp. }
  cbn [mbind outcome_bind]. assert (strtok_r [] w = Some (w, [])) as ->.
  { pose proof (strtok_ok [] w []) as E. rewrite app_nil_r in E. apply E; [|by left]. split; [done|]. eapply Forall_impl; [exact Hw'|]. intros c _. set_solver. }
  assert ((if starts_with w "0x" then vtc_hex_to_bin (drop 2 w) else Ok w) = Ok v) as ->.
  { destruct Hv as [[-> Hv]|(h & ds & -> & Hh & Hd & Hp)]; [unfold starts_with; by rewrite bool_decide_eq_false_2|]. rewrite starts_0x. change (drop 2 (str "0x" ++ h)) with h. by rewrite (hex_bin h ds), Hp by done. }
  cbn [mbind outcome_bind]. rewrite (proj2 (Z.leb_le _ 65535)) by lia. cbn [assertC mbind outcome_bind]. rewrite wrapu_small, enc16 by lia. done.
Qed.

Lemma tlv_word k tv : tlv_arg k tv -> word_of [32] k.
Proof.
  intros (n & w & -> & [Hn Hn'] & [Hw Hw'] & _). split; [by destruct n|]. apply Forall_app. split; [eapply Forall_impl; [exact Hn'|]; intros c Hc; set_solver|]. constructor; [set_solver|done].
Qed.

Lemma tlv_loop_ok args tvs : Forall2 tlv_arg args tvs -> Forall (fun tv => Z.of_nat (length tv.2) < 65536) tvs ->
  forall fuel tlv, (length (blanks args) <= S fuel)%nat -> tlv_loop fuel (drop 1 (blanks args)) tlv = Ok (tlv ++ tlvs_bytes tvs).
Proof.
  induction 1 as [|k tv args tvs Hk _ IH]; intros Hlen fuel tlv Hf; [unfold tlvs_bytes; rewrite app_nil_r; by destruct fuel|]. apply Forall_cons in Hlen as [Htv Hlen].
  unfold blanks in Hf |- *. cbn [map concat app length drop skipn] in *. fold (blanks args) in *. rewrite drop_0. pose proof (tlv_word k tv Hk) as Hw. rewrite length_app in Hf.
  assert (0 < length k)%nat by (destruct Hw; destruct k; [done|simpl; lia]). destruct fuel as [|fuel]; [lia|]. cbn [tlv_loop]. rewrite word_first by done. rewrite (tlv_ok _ k tv) by done. cbn [mbind outcome_bind].
  rewrite IH by (done || lia). unfold tlvs_bytes. cbn [map concat]. by rewrite <-app_assoc.
Qed.

Lemma tlvs_lengths tvs n : (length (tlvs_bytes tvs) <= n)%nat -> Forall (fun tv => (length tv.2 <= n)%nat) tvs.
Proof.
  unfold tlvs_bytes. induction tvs as [|tv tvs IH]; intros Hn; [done|]. cbn [map concat] in Hn. unfold tlv_bytes in Hn at 1. rewrite length_app in Hn. cbn [length] in Hn. rewrite length_app in Hn.
  constructor; [lia|apply IH; lia].
Qed.

Section client.
Context (name : suckaddr -> list Z * list Z) (resolve : list Z -> option suckaddr).

(** C36: a header of version 2 says what the client was told.  [client_proxy]
    on two addresses of one family, which resolve to [a] and [b], and on types
    with their values, by name or in hexadecimal, writes a header from which
    the specification of the protocol reads the addresses, the ports and the
    values, in order, and which ends where the data of the connection begins;
    the values may take 65499 bytes. *)
Theorem client_proxy_ok wa wb args sac sas fam a b pa pb tvs : word_of [32] wa -> word_of [32] wb ->
  resolve wa = Some sac -> resolve wb = Some sas -> holds_ip sac fam a pa -> holds_ip sas fam b pb ->
  Forall2 tlv_arg args tvs -> Z.of_nat (length (tlvs_bytes tvs)) <= 65499 ->
  exists bs, client_proxy name resolve 2 (wa ++ blanks (wb :: args)) = Ok bs /\
    forall later, pp2_decode (bs ++ later) = Some (mk_pp2 fam a b pa pb tvs, later).
Proof.
  intros Hwa Hwb Hra Hrb Ha Hb Hargs Hsz. unfold client_proxy. rewrite word_first by done. rewrite Hra.
  assert (drop 1 (blanks (wb :: args)) = wb ++ blanks args) as -> by done. rewrite word_first by done. rewrite Hrb.
  pose proof (tlvs_lengths tvs (length (tlvs_bytes tvs)) ltac:(lia)) as Hlen. assert (Forall (fun tv => Z.of_nat (length tv.2) < 65536) tvs) as Hl16 by (eapply Forall_impl; [exact Hlen|]; intros tv Htv; cbn beta in *; lia).
  rewrite (tlv_loop_ok args tvs) by (done || (rewrite length_drop; lia)). cbn [mbind outcome_bind app]. assert (u16 (Z.of_nat (length (tlvs_bytes tvs))) = Z.of_nat (length (tlvs_bytes tvs))) as Hu by (apply wrapu_small; lia).
  rewrite (send_proxy_ok name sac sas fam a b pa pb) by (done || lia). rewrite Hu. eexists. split; [done|]. intros later.
  pose proof Ha as (_ & Hf & Hla & Hpa & _). pose proof Hb as (_ & _ & Hlb & Hpb & _).
  assert (forall l, head2 fam l a b pa pb (tlvs_bytes tvs) ++ later = head2 fam l a b pa pb (tlvs_bytes tvs ++ later)) as ->.
  { intros l. unfold head2. rewrite <-!app_assoc. cbn [app]. by rewrite <-!app_assoc. }
  apply pp2_decode_ok; try done; [by apply decode_tlvs_ok|lia|]. assert (ip_len fam <= 16)%nat by (destruct Hf as [-> | ->]; unfold ip_len, PF_INET, PF_INET6; cbn [Z.eqb Pos.eqb]; lia). lia.
Qed.
End client.

(** ** A header, and what goes wrong *)

Definition example_v4 : suckaddr := mk_suckaddr PF_INET ([1; 187] ++ [192; 0; 2; 1] ++ replicate 20 0).
Definition example_v6 : suckaddr := mk_suckaddr PF_INET6 ([0; 80] ++ replicate 4 0 ++ ([32; 1; 13; 184] ++ replicate 11 0 ++ [1]) ++ replicate 4 0).
Definition example_resolve (p : list Z) : option suckaddr := if streq p "A" then Some example_v4 else if streq p "B" then Some example_v6 else None.
Definition example_name (s : suckaddr) : list Z * list Z := ([], []).

Lemma client_proxy_ok_witness : exists bs, client_proxy example_name example_resolve 2 (str "A A alpn=h2 0x30=0x0102") = Ok bs /\
  pp2_decode (bs ++ [71]) = Some (mk_pp2 PF_INET [192; 0; 2; 1] [192; 0; 2; 1] 443 443 [(1, str "h2"); (48, [1; 2])], [71]).
Proof.
  assert (word_of [32] (str "A")) as Hw by (split; [done|]; by apply (bool_decide_unpack _)).
  assert (holds_ip example_v4 PF_INET [192; 0; 2; 1] 443) as Ha by (split; [done|]; split; [by left|]; done).
  destruct (client_proxy_ok example_name example_resolve (str "A") (str "A") [str "alpn=h2"; str "0x30=0x0102"] example_v4 example_v4 PF_INET [192; 0; 2; 1] [192; 0; 2; 1] 443 443
    [(1, str "h2"); (48, [1; 2])] Hw Hw eq_refl eq_refl Ha Ha) as (bs & E & H).
  - repeat constructor.
    + exists (str "alpn"), (str "h2"). split; [done|]. split; [split; [done|]; by apply (bool_decide_unpack _)|]. split; [split; [done|]; by apply (bool_decide_unpack _)|]. split; left; [exists "alpn"%string; split; [left|done]|by split].
    + exists (str "0x30"), (str "0x0102"). split; [done|]. split; [split; [done|]; by apply (bool_decide_unpack _)|]. split; [split; [done|]; by apply (bool_decide_unpack _)|].
      split; right; [exists (str "30"), [3; 0]|exists (str "0102"), [0; 1; 0; 2]]; (split; [done|]; split; [by apply (bool_decide_unpack _)|done]).
  - vm_compute. done.
  - exists bs. split; [exact E|]. apply (H [71]).
Defined.

(** With addresses of two families the header has the flow label for an
    address, or the code stops. *)
Lemma mixed_families :
  (exists bs, client_proxy example_name example_resolve 2 (str "B A") = Ok bs /\ pp2_decode bs = Some (mk_pp2 PF_INET [0; 0; 0; 0] [192; 0; 2; 1] 80 443 [], [])) /\
  client_proxy example_name example_resolve 2 (str "A B") = Fault FAssert.
Proof. split; [eexists; split|]; vm_compute; reflexivity. Qed.

(** Values of 65536 bytes or a little more pass the check, as their length is cut
    to 16 bits, and are not part of the header. *)
Lemma values_cut name sac sas fam a b pa pb t later : holds_ip sac fam a pa -> holds_ip sas fam b pb -> Z.of_nat (length t) = 65536 ->
  exists bs, vtc_send_proxy name 2 sac sas (Some t) = Ok bs /\ pp2_decode (bs ++ later) = Some (mk_pp2 fam a b pa pb [], t ++ later).
Proof.
  intros Ha Hb Hl. rewrite (send_proxy_ok name sac sas fam a b pa pb) by (done || (rewrite Hl; done)). rewrite Hl. change (u16 65536) with 0. rewrite Z.add_0_l. eexists. split; [done|].
  pose proof Ha as (_ & Hf & Hla & Hpa & _). pose proof Hb as (_ & _ & Hlb & Hpb & _).
  assert (head2 fam (Z.of_nat (2 * ip_len fam + 4)) a b pa pb t ++ later = head2 fam (Z.of_nat (2 * ip_len fam + 4)) a b pa pb ([] ++ t ++ later)) as ->.
  { unfold head2. rewrite <-!app_assoc. cbn [app]. by rewrite <-!app_assoc. }
  apply pp2_decode_ok; try done; [simpl; lia|]. by destruct Hf as [-> | ->].
Qed.
