(* ===== verification/Tunnel.v ===== *)
(** * Tunnels (src/vtc_tunnel.c)

    A tunnel passes the bytes of two connections on.  Two threads share it: the
    thread of the script pauses and resumes the transfer and lets bytes through,
    the other one polls both ends.  What a thread does under the lock is a
    function; [tstep] interleaves the threads at those points.  A lane keeps the
    bytes that were read from its connection and those that were written to the
    other. *)

From Stdlib Require Import ZArith Lia ZifyBool String.
From stdpp Require Import base option numbers list relations.
From S2P Require Import Prelude CStr HpackData VtcSubr Http1.
#[local] Open Scope Z_scope.

Inductive tunnel_state_e := TUNNEL_ACCEPT | TUNNEL_RUNNING | TUNNEL_PAUSED | TUNNEL_SPEC_DONE | TUNNEL_POLL_DONE | TUNNEL_STOPPED.
#[export] Instance tunnel_state_e_eq_dec : EqDecision tunnel_state_e.
Proof. solve_decision. Defined.

(** [ln_buf] has the first [buf_len] bytes of [buf]; [ln_got] was read from
    [rfd] and [ln_put] written to [wfd]. *)
Record tunnel_lane := mk_lane { ln_buf : list Z; buf_len : Z; wrk_len : Z; ln_got : list Z; ln_put : list Z }.
Definition lane_size : Z := 1024.

(** [t_socks] has [csock], [lsock] and [asock]. *)
Record tunnel := mk_tunnel {
  t_name : list Z;
  t_state : tunnel_state_e;
  start_paused : bool;
  t_spec : list Z;
  t_connect : list Z;
  t_listen : list Z;
  t_socks : Z * Z * Z;
  send_lane : tunnel_lane;
  recv_lane : tunnel_lane }.

Definition csock (t : tunnel) : Z := (t_socks t).1.1.
Definition lsock (t : tunnel) : Z := (t_socks t).1.2.
Definition asock (t : tunnel) : Z := (t_socks t).2.

(** The lane of bytes to the destination, or the other one. *)
Definition lane_of (t : tunnel) (s : bool) : tunnel_lane := if s then send_lane t else recv_lane t.
Definition set_lane (t : tunnel) (s : bool) (l : tunnel_lane) : tunnel :=
  mk_tunnel (t_name t) (t_state t) (start_paused t) (t_spec t) (t_connect t) (t_listen t) (t_socks t) (if s then l else send_lane t) (if s then recv_lane t else l).
Definition set_state (t : tunnel) (st : tunnel_state_e) : tunnel :=
  mk_tunnel (t_name t) st (start_paused t) (t_spec t) (t_connect t) (t_listen t) (t_socks t) (send_lane t) (recv_lane t).
Definition set_socks (t : tunnel) (c l a : Z) : tunnel :=
  mk_tunnel (t_name t) (t_state t) (start_paused t) (t_spec t) (t_connect t) (t_listen t) (c, l, a) (send_lane t) (recv_lane t).
Definition set_paused (t : tunnel) (p : bool) : tunnel :=
  mk_tunnel (t_name t) (t_state t) p (t_spec t) (t_connect t) (t_listen t) (t_socks t) (send_lane t) (recv_lane t).
Definition set_texts (t : tunnel) (spec connect listen : list Z) : tunnel :=
  mk_tunnel (t_name t) (t_state t) (start_paused t) spec connect listen (t_socks t) (send_lane t) (recv_lane t).

Definition in_state (t : tunnel) (st : tunnel_state_e) : bool := bool_decide (t_state t = st).
Definition set_wrk (t : tunnel) (s : bool) (n : Z) : tunnel :=
  let l := lane_of t s in set_lane t s (mk_lane (ln_buf l) (buf_len l) n (ln_got l) (ln_put l)).

Definition tunnel_is_open (t : tunnel) : bool := (0 <=? buf_len (send_lane t)) && (0 <=? buf_len (recv_lane t)).

(** ** The commands of a script, between the check that the tunnel is open and
    their wait *)

Inductive tunnel_cmd := TPause | TSend (s : bool) (len : Z) | TResume.

Definition cmd_tunnel_pause (t : tunnel) : outcome tunnel :=
  if in_state t TUNNEL_PAUSED then Fault FFatal
  else _ ← assertC (in_state t TUNNEL_RUNNING); Ok (set_state t TUNNEL_PAUSED).
Definition cmd_tunnel_send (t : tunnel) (s : bool) (len : Z) : outcome tunnel :=
  if in_state t TUNNEL_RUNNING then Fault FFatal
  else
    _ ← assertC (in_state t TUNNEL_PAUSED);
    _ ← assertC (wrk_len (send_lane t) =? 0);
    _ ← assertC (wrk_len (recv_lane t) =? 0);
    Ok (set_wrk t s len).
Definition cmd_tunnel_resume (t : tunnel) : outcome tunnel :=
  if in_state t TUNNEL_RUNNING then Fault FFatal
  else _ ← assertC (in_state t TUNNEL_PAUSED); Ok (set_state t TUNNEL_RUNNING).

(** The command of a line. *)
Definition tunnel_command (av : list (list Z)) : outcome tunnel_cmd :=
  match av with
  | name :: av =>
      if streq name "pause" then match av with [] => Ok TPause | _ => Fault FAssert end
      else if streq name "resume" then match av with [] => Ok TResume | _ => Fault FAssert end
      else if streq name "send" || streq name "recv" then
        match av with [n] => Ok (TSend (streq name "send") (u32 (atoi n))) | _ => Fault FAssert end
      else Fault FFatal
  | [] => Fault FBounds
  end.

Definition run_cmd (t : tunnel) (c : tunnel_cmd) : outcome tunnel :=
  match c with TPause => cmd_tunnel_pause t | TSend s n => cmd_tunnel_send t s n | TResume => cmd_tunnel_resume t end.

(** ** The thread that polls *)

(** [tunnel_read] up to [read]: how much is asked for, None when the lane is
    paused. *)
Definition tunnel_read_look (t : tunnel) (s : bool) : outcome (option Z) :=
  let l := lane_of t s in
  _ ← assertC (buf_len l =? 0);
  let len := wrk_len l in
  if (len =? 0) && in_state t TUNNEL_PAUSED then Ok None
  else Ok (Some (if (len =? 0) || (lane_size <? len) then lane_size else len)).
(** What [read] found: no bytes at the end of the connection. *)
Definition tunnel_read_fill (t : tunnel) (s : bool) (d : list Z) : tunnel :=
  let l := lane_of t s in
  set_lane t s (mk_lane (match d with [] => ln_buf l | _ => d end) (match d with [] => -1 | _ => Z.of_nat (length d) end) (wrk_len l) (ln_got l ++ d) (ln_put l)).

(** All is written; otherwise the test fails. *)
Definition tunnel_write (t : tunnel) (s : bool) : outcome tunnel :=
  let l := lane_of t s in
  let len := buf_len l in
  let put := if 0 <? len then ln_put l ++ ln_buf l else ln_put l in
  wrk ← (if (0 <? wrk_len l) && negb (len =? -1) then
           _ ← assertC (0 <=? len);
           _ ← assertC (len <=? wrk_len l);
           Ok (wrk_len l - len)
         else Ok (wrk_len l));
  Ok (set_lane t s (mk_lane (ln_buf l) (if 0 <? len then 0 else len) wrk (ln_got l) put)).

(** The section behind the reads: whether the thread signals and waits. *)
Definition poll_pause (t : tunnel) : outcome bool :=
  if in_state t TUNNEL_PAUSED && (wrk_len (send_lane t) =? 0) && (wrk_len (recv_lane t) =? 0) then
    _ ← assertC (buf_len (send_lane t) =? 0);
    _ ← assertC (buf_len (recv_lane t) =? 0);
    Ok true
  else Ok false.

(** ** Both threads *)

(** Where [tunnel_poll_thread] is: at the test of its loop, at the lock behind
    it, waiting there, before [poll], in [tunnel_read] of a lane ([more]: the
    other lane has bytes too) before the lock and before [read], at the pause
    and waiting there, in [tunnel_write] of a lane, behind the loop, waiting
    there, before its last assignment, ended. *)
Inductive poll_pc :=
  | PTop | PAccept | PWaitAccept | PPoll
  | PRead (s more : bool) | PFill (s more : bool) (len : Z)
  | PMid | PWaitPaused | PWrite (s : bool)
  | PEnd | PWaitEnd | PFin | PDone.
(** Where [tunnel_spec_thread] is: before [tunnel_accept], in front of a command
    ([last]: of the implied resume), at its lock, waiting in it, behind the
    script, ended. *)
Inductive spec_pc :=
  | SAccept | SNext (cmds : list tunnel_cmd) (last : bool) | SCmd (c : tunnel_cmd) (cmds : list tunnel_cmd) (last : bool)
  | SWait (c : tunnel_cmd) (cmds : list tunnel_cmd) (last : bool) | SLast | SDone.

Record tsys := mk_tsys { ts_t : tunnel; ts_poll : poll_pc; ts_spec : spec_pc }.

(** [pthread_cond_signal] from the other thread. *)
Definition signal_poll (p : poll_pc) : poll_pc :=
  match p with PWaitAccept => PAccept | PWaitPaused => PWrite true | PWaitEnd => PFin | _ => p end.
Definition signal_spec (p : spec_pc) : spec_pc := match p with SWait _ cmds last => SNext cmds last | _ => p end.

(** [tunnel_accept] behind its calls of accept and VTCP_open. *)
Definition tunnel_accept (t : tunnel) (afd cfd : Z) : outcome tunnel :=
  _ ← assertC (0 <=? lsock t);
  _ ← assertC (asock t <? 0);
  _ ← assertC (csock t <? 0);
  _ ← assertC (in_state t TUNNEL_ACCEPT);
  let zero (l : tunnel_lane) := mk_lane (ln_buf l) 0 0 (ln_got l) (ln_put l) in
  let t := set_lane (set_lane (set_socks t cfd (lsock t) afd) true (zero (send_lane t))) false (zero (recv_lane t)) in
  Ok (if start_paused t then set_paused (set_state t TUNNEL_PAUSED) false else set_state t TUNNEL_RUNNING).

(** The next step of the thread of the script on command [c]. *)
Definition after_cmd (c : tunnel_cmd) (cmds : list tunnel_cmd) (last : bool) : spec_pc :=
  match c with TResume => SNext cmds last | _ => SWait c cmds last end.

(** A step of either thread; None when it waits, or for another thread.  [d] is
    what its call of the system finds: the bytes of [read], and which ends
    [poll] finds ready. *)
Definition poll_step (t : tunnel) (p : poll_pc) (ready : bool * bool) (d : list Z) : outcome (option (tunnel * poll_pc * bool)) :=
  let go t p := Ok (Some (t, p, false)) in
  match p with
  | PTop => go t (if tunnel_is_open t then PAccept else PEnd)
  | PAccept =>
      if in_state t TUNNEL_ACCEPT then go t PWaitAccept
      else _ ← assertC (negb (in_state t TUNNEL_POLL_DONE || in_state t TUNNEL_STOPPED)); go t PPoll
  | PPoll => go t (if ready.1 then PRead true ready.2 else if ready.2 then PRead false false else PMid)
  | PRead s more =>
      len ← tunnel_read_look t s;
      let next := if more then PRead false false else PMid in
      go t (match len with Some len => PFill s more len | None => next end)
  | PFill s more len =>
      if Z.of_nat (length d) <=? len then go (tunnel_read_fill t s d) (if more then PRead false false else PMid) else Ok None
  | PMid => w ← poll_pause t; if w : bool then Ok (Some (t, PWaitPaused, true)) else go t (PWrite true)
  | PWrite true => t ← tunnel_write t true; go t (PWrite false)
  | PWrite false => t ← tunnel_write t false; go t PTop
  | PEnd => if in_state t TUNNEL_SPEC_DONE then go t PFin else Ok (Some (t, PWaitEnd, true))
  | PFin => go (set_state t TUNNEL_POLL_DONE) PDone
  | PWaitAccept | PWaitPaused | PWaitEnd | PDone => Ok None
  end.

Definition spec_step (t : tunnel) (p : spec_pc) (script : list tunnel_cmd) (afd cfd : Z) : outcome (option (tunnel * spec_pc * bool)) :=
  match p with
  | SAccept => t ← tunnel_accept t afd cfd; Ok (Some (t, SNext script false, true))
  | SNext (c :: cmds) last => if tunnel_is_open t then Ok (Some (t, SCmd c cmds last, false)) else Fault FFatal
  | SNext [] last => Ok (Some (t, if negb last && in_state t TUNNEL_PAUSED then SNext [TResume] true else SLast, false))
  | SCmd c cmds last => t ← run_cmd t c; Ok (Some (t, after_cmd c cmds last, true))
  | SLast => Ok (Some (set_state t TUNNEL_SPEC_DONE, SDone, true))
  | SWait _ _ _ | SDone => Ok None
  end.

(** [others]: whether the waits may end without a signal of the other thread,
    for no reason or by the signal of [-wait]. *)
Inductive tstep (script : list tunnel_cmd) (others : bool) : tsys -> tsys -> Prop :=
  | step_poll t p s ready d t' p' w : poll_step t p ready d = Ok (Some (t', p', w)) ->
      tstep script others (mk_tsys t p s) (mk_tsys t' p' (if w then signal_spec s else s))
  | step_spec t p s afd cfd t' s' w : spec_step t s script afd cfd = Ok (Some (t', s', w)) ->
      tstep script others (mk_tsys t p s) (mk_tsys t' (if w then signal_poll p else p) s')
  | step_wake_poll t p s : others = true -> tstep script others (mk_tsys t p s) (mk_tsys t (signal_poll p) s)
  | step_wake_spec t p s : others = true -> tstep script others (mk_tsys t p s) (mk_tsys t p (signal_spec s)).

(** ** The command *)

(** [bprintf] to an array of 256. *)
Definition bprintf256 (s : list Z) : outcome (list Z) := _ ← assertC (length s <? 256)%nat; Ok s.

Definition zero_lane : tunnel_lane := mk_lane [] 0 0 [] [].

Section manage.
(** The default address; what a listening socket is bound to, with whether it
    is of IPv4, address and port; and what a tunnel is once both of its threads
    have ended. *)
Context (default_listen_addr : list Z) (VTCP_listen_on : list Z -> option (Z * bool * list Z * list Z)) (join : tunnel -> outcome tunnel).

Definition tunnel_new (name : list Z) : tunnel :=
  mk_tunnel name TUNNEL_STOPPED false [] (str "${v1_sock}") default_listen_addr (-1, -1, -1) zero_lane zero_lane.

Definition tunnel_delete (t : tunnel) : outcome unit := _ ← assertC (asock t <? 0); assertC (csock t <? 0).

(** The macros of address and port are left out. *)
Definition tunnel_listen (t : tunnel) : outcome tunnel :=
  match VTCP_listen_on (t_listen t) with
  | None => Fault FFatal
  | Some (fd, v4, laddr, lport) =>
      _ ← assertC (0 <? fd);
      l ← bprintf256 (if v4 : bool then laddr ++ [58] ++ lport else [91] ++ laddr ++ [93; 58] ++ lport);
      Ok (set_texts (set_socks t (csock t) fd (asock t)) (t_spec t) (t_connect t) l)
  end.

(** Both threads begin, at [PTop] and [SAccept]. *)
Definition tunnel_start (t : tunnel) : outcome tunnel :=
  t ← tunnel_listen t;
  _ ← assertC (in_state t TUNNEL_STOPPED);
  let zero (l : tunnel_lane) := mk_lane (ln_buf l) 0 0 (ln_got l) (ln_put l) in
  Ok (set_lane (set_lane (set_state t TUNNEL_ACCEPT) true (zero (send_lane t))) false (zero (recv_lane t))).
Definition tunnel_start_pause (t : tunnel) : outcome tunnel := tunnel_start (set_paused t true).

Definition tunnel_wait (t : tunnel) : outcome tunnel :=
  t ← join t;
  let closed (fd : Z) := if 0 <=? fd then -1 else fd in
  Ok (set_state (set_socks t (closed (csock t)) (lsock t) (closed (asock t))) TUNNEL_STOPPED).

Definition stopped (t : tunnel) : outcome tunnel := if in_state t TUNNEL_STOPPED then Ok t else tunnel_wait t.

Fixpoint tunnel_reset (ts : list tunnel) : outcome unit :=
  match ts with
  | [] => Ok tt
  | t :: ts => t ← stopped t; _ ← tunnel_delete t; tunnel_reset ts
  end.

(** [error]: whether [vtc_error] is set. *)
Fixpoint tunnel_args (fuel : nat) (error : bool) (t : tunnel) (av : list (list Z)) : outcome tunnel :=
  match av, fuel with
  | [], _ => Ok t
  | _, O => Fault FFuel
  | a :: av, S fuel =>
      if error then Ok t
      else if streq a "-wait" then
        if in_state t TUNNEL_STOPPED then Fault FFatal else t ← tunnel_wait t; tunnel_args fuel error t av
      else
        t ← stopped t;
        _ ← assertC (in_state t TUNNEL_STOPPED);
        let text := match av with [] => Fault FBounds | s :: av => s ← bprintf256 s; Ok (s, av) end in
        if streq a "-connect" then '(s, av) ← text; tunnel_args fuel error (set_texts t (t_spec t) s (t_listen t)) av
        else if streq a "-listen" then '(s, av) ← text; tunnel_args fuel error (set_texts t (t_spec t) (t_connect t) s) av
        else if streq a "-start" then t ← tunnel_start t; tunnel_args fuel error t av
        else if streq a "-start+pause" then t ← tunnel_start_pause t; tunnel_args fuel error t av
        else if bool_decide (head a = Some 45) then Fault FFatal
        else tunnel_args fuel error (set_texts t a (t_connect t) (t_listen t)) av
  end.

Fixpoint find_tunnel (ts : list tunnel) (name : list Z) : option nat :=
  match ts with
  | [] => None
  | t :: ts => if bool_decide (t_name t = name) then Some 0%nat else S <$> find_tunnel ts name
  end.

Definition cmd_tunnel (error : bool) (ts : list tunnel) (av : list (list Z)) : outcome (list tunnel) :=
  match av with
  | _ :: name :: av =>
      if negb (bool_decide (head name = Some 116)) then Fault FFatal
      else
        let '(i, ts) := match find_tunnel ts name with Some i => (i, ts) | None => (length ts, ts ++ [tunnel_new name]) end in
        t ← readC ts i;
        t ← tunnel_args (length av) error t av;
        writeC ts i t
  | _ => Fault FAssert
  end.
End manage.
