(* ===== verification/TunnelSpec.v ===== *)
(** * What a tunnel promises (src/vtc_tunnel.c)

    In every interleaving of its threads a tunnel passes the bytes on unchanged.
    A command that lets bytes through returns when exactly as many have passed,
    and nothing moves while the tunnel is paused; both as long as no wait ends
    without the signal of the other thread. *)

From Stdlib Require Import ZArith Lia ZifyBool String.
From stdpp Require Import base option numbers list relations.
From S2P Require Import Prelude CStr HpackData VtcSubr Http1 Tunnel.
#[local] Open Scope Z_scope.

(** ** Lanes *)

(** What has been read and not yet written. *)
Definition pending (l : tunnel_lane) : list Z := if 0 <? buf_len l then ln_buf l else [].
Record lane_ok (l : tunnel_lane) : Prop := {
  lo_len : -1 <= buf_len l;
  lo_buf : 0 < buf_len l -> buf_len l = Z.of_nat (length (ln_buf l));
  lo_flow : ln_got l = ln_put l ++ pending l }.

Lemma lane_set t s l s' : lane_of (set_lane t s l) s' = if Bool.eqb s s' then l else lane_of t s'.
Proof. by destruct s, s'. Qed.
Lemma lane_state t st s : lane_of (set_state t st) s = lane_of t s.
Proof. done. Qed.

Lemma fill_ok t s d : lane_ok (lane_of t s) -> buf_len (lane_of t s) = 0 -> lane_ok (lane_of (tunnel_read_fill t s d) s).
Proof.
  intros [Hl Hb Hf] H0. unfold tunnel_read_fill. rewrite lane_set, Bool.eqb_reflx. unfold pending in Hf. rewrite H0 in Hf. cbn [Z.ltb Z.compare] in Hf. rewrite app_nil_r in Hf.
  destruct d as [|c d]; constructor; cbn [ln_got ln_put ln_buf buf_len]; unfold pending; cbn [buf_len ln_buf length]; try lia; [cbn [Z.ltb Z.compare]; by rewrite !app_nil_r|].
  rewrite (proj2 (Z.ltb_lt 0 _)) by lia. by rewrite Hf.
Qed.
Lemma fill_other t s d s' : s' <> s -> lane_of (tunnel_read_fill t s d) s' = lane_of t s'.
Proof. intros Hs. unfold tunnel_read_fill. rewrite lane_set. destruct (Bool.eqb s s') eqn:E; [|done]. by apply Bool.eqb_prop in E. Qed.

(** The lane behind [tunnel_write]. *)
Definition written (l : tunnel_lane) (wrk : Z) : tunnel_lane :=
  mk_lane (ln_buf l) (if 0 <? buf_len l then 0 else buf_len l) wrk (ln_got l) (ln_put l ++ pending l).
Lemma write_ok t s t' : tunnel_write t s = Ok t' -> exists wrk, t' = set_lane t s (written (lane_of t s) wrk) /\
  (wrk_len (lane_of t s) <= 0 \/ buf_len (lane_of t s) = -1 -> wrk = wrk_len (lane_of t s)) /\
  (0 < wrk_len (lane_of t s) -> buf_len (lane_of t s) <> -1 -> 0 <= buf_len (lane_of t s) <= wrk_len (lane_of t s) /\ wrk = wrk_len (lane_of t s) - buf_len (lane_of t s)).
Proof.
  unfold tunnel_write. set (l := lane_of t s). intros H. apply bind_ok in H as (wrk & Hw & [= <-]). exists wrk. split.
  - unfold written, pending. destruct (0 <? buf_len l); [done|]. by rewrite app_nil_r.
  - destruct ((0 <? wrk_len l) && negb (buf_len l =? -1)) eqn:E.
    + apply bind_ok in Hw as (u1 & H1%assertC_ok & Hw). apply bind_ok in Hw as (u2 & H2%assertC_ok & [= <-]). split; [lia|]. intros. split; lia.
    + injection Hw as <-. split; [done|]. lia.
Qed.
Lemma written_ok l wrk : lane_ok l -> lane_ok (written l wrk).
Proof.
  intros [Hl Hb Hf]. unfold written. constructor; cbn [buf_len ln_buf ln_got ln_put]; [destruct (0 <? buf_len l) eqn:E; lia|destruct (0 <? buf_len l) eqn:E; lia|].
  unfold pending at 2. cbn [buf_len ln_buf]. rewrite Hf. destruct (0 <? buf_len l) eqn:E; [|rewrite E]; by rewrite app_nil_r.
Qed.

(** ** Bytes pass unchanged *)

Definition early (p : poll_pc) : Prop := p = PTop \/ p = PAccept \/ p = PWaitAccept.

(** A tunnel that has been started. *)
Definition started (t : tunnel) : tsys := mk_tsys (set_lane (set_lane (set_state t TUNNEL_ACCEPT) true zero_lane) false zero_lane) PTop SAccept.

Record flows (x : tsys) : Prop := {
  fl_lanes : forall s, lane_ok (lane_of (ts_t x) s);
  fl_accept : ts_spec x = SAccept -> early (ts_poll x) /\ in_state (ts_t x) TUNNEL_ACCEPT = true /\ forall s, buf_len (lane_of (ts_t x) s) = 0;
  fl_fill : forall s more len, ts_poll x = PFill s more len -> buf_len (lane_of (ts_t x) s) = 0 }.

Lemma flows_started t : flows (started t).
Proof. constructor; [by intros []|split; [by left|]; split; [done|by intros []]|done]. Qed.

Lemma flows_same t p s p' s' : flows (mk_tsys t p s) -> (s' = SAccept -> s = SAccept /\ early p') -> (forall b m len, p' = PFill b m len -> p = p') -> flows (mk_tsys t p' s').
Proof.
  intros [Hl Ha Hf] Hs Hp. constructor; cbn in *; [done| |].
  - intros E. destruct (Hs E) as [E' Hp']. split; [done|]. by destruct (Ha E').
  - intros b m len ->. apply (Hf b m len). by apply (Hp b m len).
Qed.
Lemma signal_poll_fill p b m len : signal_poll p = PFill b m len -> p = signal_poll p.
Proof. by destruct p. Qed.
Lemma signal_poll_early p : early p -> early (signal_poll p).
Proof. intros [-> | [-> | ->]]; unfold early; cbn; auto. Qed.
Lemma signal_spec_accept s : signal_spec s = SAccept -> s = SAccept.
Proof. by destruct s. Qed.

(** What a step of the polling thread does. *)
Inductive polls (t : tunnel) : poll_pc -> tunnel -> poll_pc -> bool -> Prop :=
  | po_top : polls t PTop t (if tunnel_is_open t then PAccept else PEnd) false
  | po_wait : in_state t TUNNEL_ACCEPT = true -> polls t PAccept t PWaitAccept false
  | po_poll : in_state t TUNNEL_ACCEPT = false -> polls t PAccept t PPoll false
  | po_skip p q : (p = PPoll \/ exists s more, p = PRead s more /\ buf_len (lane_of t s) = 0) -> (q = PMid \/ exists s more, q = PRead s more) -> polls t p t q false
  | po_look s more len : buf_len (lane_of t s) = 0 -> (wrk_len (lane_of t s) = 0 -> in_state t TUNNEL_PAUSED = false) -> (0 < wrk_len (lane_of t s) -> len <= wrk_len (lane_of t s)) ->
      polls t (PRead s more) t (PFill s more len) false
  | po_fill s more len d q : Z.of_nat (length d) <= len -> (q = PMid \/ exists s more, q = PRead s more) -> polls t (PFill s more len) (tunnel_read_fill t s d) q false
  | po_pause : in_state t TUNNEL_PAUSED = true -> (forall s, wrk_len (lane_of t s) = 0 /\ buf_len (lane_of t s) = 0) -> polls t PMid t PWaitPaused true
  | po_go : polls t PMid t (PWrite true) false
  | po_write s t' : tunnel_write t s = Ok t' -> polls t (PWrite s) t' (if s then PWrite false else PTop) false
  | po_end p q w : (p = PEnd /\ (q = PFin \/ q = PWaitEnd)) -> polls t p t q w
  | po_done : polls t PFin (set_state t TUNNEL_POLL_DONE) PDone false.

Lemma poll_step_polls t p ready d t' p' w : poll_step t p ready d = Ok (Some (t', p', w)) -> polls t p t' p' w.
Proof.
  destruct p as [| | | |s more|s more len| | |[]| | | |]; cbn [poll_step]; intros H; try done.
  - injection H as <- <- <-. apply po_top.
  - destruct (in_state t TUNNEL_ACCEPT) eqn:E; [injection H as <- <- <-; by apply po_wait|]. apply bind_ok in H as (u & _ & [= <- <- <-]). by apply po_poll.
  - injection H as <- <- <-. apply po_skip; [by left|]. destruct ready as [[] []]; cbn; eauto.
  - apply bind_ok in H as (len & Hl & [= <- <- <-]). unfold tunnel_read_look in Hl. apply bind_ok in Hl as (u & Hb%assertC_ok & Hl). apply Z.eqb_eq in Hb.
    destruct ((wrk_len (lane_of t s) =? 0) && in_state t TUNNEL_PAUSED) eqn:E; injection Hl as <-; [apply po_skip; [right; eauto|destruct more; eauto]|].
    apply po_look; [done|destruct (in_state t TUNNEL_PAUSED); lia|]. intros Hw. destruct ((wrk_len (lane_of t s) =? 0) || (lane_size <? wrk_len (lane_of t s))) eqn:E'; lia.
  - destruct (Z.of_nat (length d) <=? len) eqn:E; [|done]. injection H as <- <- <-. apply po_fill; [lia|destruct more; eauto].
  - apply bind_ok in H as (u & Hp & H). unfold poll_pause in Hp. destruct (in_state t TUNNEL_PAUSED && _ && _) eqn:E; [|injection Hp as <-; injection H as <- <- <-; apply po_go].
    apply bind_ok in Hp as (u1 & H1%assertC_ok & Hp). apply bind_ok in Hp as (u2 & H2%assertC_ok & [= <-]). injection H as <- <- <-. destruct (in_state t TUNNEL_PAUSED) eqn:E'; [|done]. apply po_pause; [done|]. intros []; cbn [lane_of]; lia.
  - apply bind_ok in H as (t1 & Hw & [= <- <- <-]). by apply (po_write t true).
  - apply bind_ok in H as (t1 & Hw & [= <- <- <-]). by apply (po_write t false).
  - destruct (in_state t TUNNEL_SPEC_DONE); injection H as <- <- <-; apply po_end; eauto.
  - injection H as <- <- <-. apply po_done.
Qed.

(** What a step of the thread of the script does. *)
Inductive specs (script : list tunnel_cmd) (t : tunnel) : spec_pc -> tunnel -> spec_pc -> Prop :=
  | sp_accept afd cfd t' : tunnel_accept t afd cfd = Ok t' -> specs script t SAccept t' (SNext script false)
  | sp_next c cmds last : tunnel_is_open t = true -> specs script t (SNext (c :: cmds) last) t (SCmd c cmds last)
  | sp_resume : in_state t TUNNEL_PAUSED = true -> specs script t (SNext [] false) t (SNext [TResume] true)
  | sp_last last : specs script t (SNext [] last) t SLast
  | sp_cmd c cmds last t' : run_cmd t c = Ok t' -> specs script t (SCmd c cmds last) t' (after_cmd c cmds last)
  | sp_done : specs script t SLast (set_state t TUNNEL_SPEC_DONE) SDone.

Lemma spec_step_specs script t s afd cfd t' s' w : spec_step t s script afd cfd = Ok (Some (t', s', w)) ->
  specs script t s t' s' /\ w = match s with SNext _ _ => false | _ => true end.
Proof.
  destruct s as [|[|c cmds] last|c cmds last| | |]; cbn [spec_step]; intros H; try done.
  - apply bind_ok in H as (t1 & Ha & [= <- <- <-]). split; [by apply (sp_accept _ _ afd cfd)|done].
  - injection H as <- <- <-. split; [|done]. destruct (negb last && in_state t TUNNEL_PAUSED) eqn:E; [|constructor]. apply andb_true_iff in E as [E1 E2]. destruct last; [done|]. by constructor.
  - destruct (tunnel_is_open t) eqn:E; [|done]. injection H as <- <- <-. split; [by constructor|done].
  - apply bind_ok in H as (t1 & Ha & [= <- <- <-]). split; [by constructor|done].
  - injection H as <- <- <-. split; [constructor|done].
Qed.

Lemma accept_lanes t afd cfd t' : tunnel_accept t afd cfd = Ok t' ->
  (forall s, lane_of t' s = mk_lane (ln_buf (lane_of t s)) 0 0 (ln_got (lane_of t s)) (ln_put (lane_of t s))) /\ (in_state t' TUNNEL_RUNNING = true \/ in_state t' TUNNEL_PAUSED = true).
Proof.
  unfold tunnel_accept. intros H. do 4 (apply bind_ok in H as (? & _ & H)). injection H as <-. split; [intros []; by destruct (start_paused _)|].
  unfold in_state. destruct (start_paused _); [right|left]; cbn; by rewrite bool_decide_eq_true_2.
Qed.
Lemma run_cmd_lanes t c t' : run_cmd t c = Ok t' -> forall s, ln_buf (lane_of t' s) = ln_buf (lane_of t s) /\ buf_len (lane_of t' s) = buf_len (lane_of t s) /\
  ln_got (lane_of t' s) = ln_got (lane_of t s) /\ ln_put (lane_of t' s) = ln_put (lane_of t s).
Proof.
  destruct c as [|s' n|]; cbn [run_cmd]; [unfold cmd_tunnel_pause|unfold cmd_tunnel_send|unfold cmd_tunnel_resume]; destruct (in_state t _); try done; intros H s.
  - apply bind_ok in H as (? & _ & [= <-]). done.
  - do 3 (apply bind_ok in H as (? & _ & H)). injection H as <-. unfold set_wrk. rewrite lane_set. destruct (Bool.eqb s' s) eqn:E; [|done]. apply Bool.eqb_prop in E as ->. done.
  - apply bind_ok in H as (? & _ & [= <-]). done.
Qed.

Lemma flows_poll t p s t' p' w s' : flows (mk_tsys t p s) -> polls t p t' p' w -> (s' = SAccept -> s = SAccept) -> flows (mk_tsys t' p' s').
Proof.
  intros HF Hp Hs. pose proof HF as [Hl Ha Hf]. cbn in Hl, Ha, Hf.
  assert (s' = SAccept -> early p /\ in_state t TUNNEL_ACCEPT = true /\ forall b, buf_len (lane_of t b) = 0) as Ha' by (intros E; by apply Ha, Hs).
  destruct Hp as [ | | |p q Hpq Hq|b m len H0 _ _|b m len d q Hd Hq|Hst H0| |b t' Hw|p q w [-> Hq]| ].
  - apply (flows_same t PTop s); [done| |by destruct (tunnel_is_open t)]. intros E. split; [by apply Hs|]. destruct (Ha' E) as (_ & _ & H0). unfold tunnel_is_open. change (send_lane t) with (lane_of t true). change (recv_lane t) with (lane_of t false). rewrite !H0. cbn. unfold early. auto.
  - apply (flows_same t PAccept s); [done| |done]. intros E. split; [by apply Hs|]. unfold early. auto.
  - apply (flows_same t PAccept s); [done| |done]. intros E. destruct (Ha' E) as (_ & Hst & _). congruence.
  - apply (flows_same t p s); [done| |]; [|intros b m len ->; destruct Hq as [?|(? & ? & ?)]; done]. intros E. destruct (Ha' E) as ([-> | [-> | ->]] & _); destruct Hpq as [?|(? & ? & ? & _)]; done.
  - constructor; cbn; [done|intros E; destruct (Ha' E) as ([? | [? | ?]] & _); done|]. by intros b' m' len' [= <- <- <-].
  - specialize (Hf b m len eq_refl). constructor; cbn.
    + intros b'. destruct (Bool.bool_dec b' b) as [->|Hne]; [by apply fill_ok|by rewrite fill_other].
    + intros E; destruct (Ha' E) as ([? | [? | ?]] & _); done.
    + intros b' m' len' ->. destruct Hq as [?|(? & ? & ?)]; done.
  - apply (flows_same t PMid s); [done| |done]. intros E; destruct (Ha' E) as ([? | [? | ?]] & _); done.
  - apply (flows_same t PMid s); [done| |done]. intros E; destruct (Ha' E) as ([? | [? | ?]] & _); done.
  - apply write_ok in Hw as (wrk & -> & _). constructor; cbn.
    + intros b'. rewrite lane_set. destruct (Bool.eqb b b'); [by apply written_ok|done].
    + intros E; destruct (Ha' E) as ([? | [? | ?]] & _); done.
    + by destruct b.
  - apply (flows_same t PEnd s); [done| |by destruct Hq as [-> | ->]]. intros E; destruct (Ha' E) as ([? | [? | ?]] & _); done.
  - constructor; cbn; [done| |done]. intros E; destruct (Ha' E) as ([? | [? | ?]] & _); done.
Qed.

Lemma flows_spec script t p s t' s' p' : flows (mk_tsys t p s) -> specs script t s t' s' -> (p' = p \/ p' = signal_poll p) -> flows (mk_tsys t' p' s').
Proof.
  intros [Hl Ha Hf] Hs Hp. cbn in *.
  assert (forall b m len, p' = PFill b m len -> buf_len (lane_of t b) = 0) as Hf' by (intros b m len E; apply (Hf b m len); destruct Hp as [-> | ->]; [done|by rewrite (signal_poll_fill p b m len E)]).
  destruct Hs as [afd cfd t' Hacc| | | |c cmds last t' Hc| ].
  - destruct (accept_lanes t afd cfd t' Hacc) as [Hlanes _]. destruct (Ha eq_refl) as (_ & _ & H0). constructor; cbn; [|done|intros b m len _; by rewrite Hlanes].
    intros b. rewrite Hlanes. destruct (Hl b) as [H1 H2 H3]. constructor; cbn; [lia|lia|]. rewrite H3. unfold pending. by rewrite H0.
  - by constructor.
  - by constructor.
  - by constructor.
  - pose proof (run_cmd_lanes t c t' Hc) as HL. constructor; cbn.
    + intros b. destruct (HL b) as (E1 & E2 & E3 & E4). destruct (Hl b) as [H1 H2 H3]. unfold pending in H3. constructor; unfold pending; rewrite ?E1, ?E2, ?E3, ?E4; done.
    + by destruct c.
    + intros b m len E. destruct (HL b) as (_ & -> & _). by apply (Hf' b m len).
  - by constructor.
Qed.

Lemma flows_step script others x y : flows x -> tstep script others x y -> flows y.
Proof.
  intros HF Hst. destruct Hst as [t p s ready d t' p' w Hp|t p s afd cfd t' s' w Hs|t p s _|t p s _].
  - apply poll_step_polls in Hp. apply (flows_poll t p s t' p' w); [done|done|]. destruct w; [apply signal_spec_accept|done].
  - apply spec_step_specs in Hs as [Hs _]. apply (flows_spec script t p s t' s'); [done|done|]. destruct w; auto.
  - pose proof HF as [Hl Ha Hf]. apply (flows_same t p s); [done| |]; [intros E; split; [done|]; by apply signal_poll_early, Ha|]. intros b m len E. by apply (signal_poll_fill p b m len).
  - apply (flows_same t p s); [done| |done]. intros E. apply signal_spec_accept in E. split; [done|]. by apply HF.
Qed.

Lemma flows_reach script others x y : rtc (tstep script others) x y -> flows x -> flows y.
Proof. induction 1 as [x|x y z Hxy _ IH]; [done|]. intros Hx. by apply IH, (flows_step script others x). Qed.

(** C22: the bytes pass a tunnel unchanged and in order.  Whatever the script
    pauses and lets through, in any interleaving of the threads, and even when
    waits end early, what was read from one connection is what was written to
    the other followed by what is still in the buffer, in both directions. *)
Theorem tunnel_bytes script others t x : rtc (tstep script others) (started t) x ->
  forall s, let l := lane_of (ts_t x) s in ln_got l = ln_put l ++ pending l.
Proof.
  intros Hr. pose proof (flows_reach script others _ _ Hr (flows_started t)) as HF.
  intros s l. by destruct HF as [Hl _ _]; destruct (Hl s).
Qed.

(** ** A tunnel that is open *)

(** The lane whose bytes the script waits for, and whether it waits for the
    pause. *)
Definition active (sp : spec_pc) (s : bool) : bool := match sp with SWait (TSend s' _) _ _ => Bool.eqb s' s | _ => false end.
Definition pausing (sp : spec_pc) : bool := match sp with SWait TPause _ _ => true | _ => false end.
Definition cmd_fine (c : tunnel_cmd) : Prop := match c with TSend _ n => 0 <= n | _ => True end.
Definition script_fine (sp : spec_pc) : Prop :=
  match sp with SNext cmds _ => Forall cmd_fine cmds | SCmd c cmds _ => cmd_fine c /\ Forall cmd_fine cmds | SWait _ cmds _ => Forall cmd_fine cmds | _ => True end.

(** A lane on which nothing is to move, and one that is let through. *)
Definition filling (p : poll_pc) (s : bool) : Prop := exists more len, p = PFill s more len.
Definition quiet (t : tunnel) (p : poll_pc) (s : bool) : Prop := buf_len (lane_of t s) = 0 /\ ~ filling p s.
Definition moving (t : tunnel) (p : poll_pc) (s : bool) : Prop :=
  0 <= buf_len (lane_of t s) <= wrk_len (lane_of t s) /\ forall more len, p = PFill s more len -> buf_len (lane_of t s) = 0 /\ len <= wrk_len (lane_of t s).

Definition state_fine (t : tunnel) (p : poll_pc) (sp : spec_pc) : Prop :=
  match sp with
  | SAccept => t_state t = TUNNEL_ACCEPT /\ early p
  | SWait c _ _ => t_state t = TUNNEL_PAUSED /\ c <> TResume
  | SNext _ _ | SCmd _ _ _ | SLast => t_state t = TUNNEL_RUNNING \/ t_state t = TUNNEL_PAUSED
  | SDone => t_state t = TUNNEL_SPEC_DONE
  end.
Definition still (t : tunnel) : Prop := t_state t = TUNNEL_PAUSED \/ t_state t = TUNNEL_ACCEPT.

Record steady (t : tunnel) (p : poll_pc) (sp : spec_pc) : Prop := {
  st_end : p <> PEnd /\ p <> PWaitEnd /\ p <> PFin /\ p <> PDone;
  st_state : state_fine t p sp;
  st_wrk : forall s, 0 <= wrk_len (lane_of t s) /\ (active sp s = false -> wrk_len (lane_of t s) = 0);
  st_quiet : forall s, still t -> pausing sp = false -> active sp s = false -> quiet t p s;
  st_moving : forall s, active sp s = true -> moving t p s;
  st_wait : p = PWaitPaused -> t_state t = TUNNEL_PAUSED /\ signal_spec sp = sp;
  st_script : script_fine sp }.

Lemma open_lane t s : tunnel_is_open t = true -> 0 <= buf_len (lane_of t s).
Proof. unfold tunnel_is_open. destruct s; cbn; lia. Qed.
Lemma in_state_eq t st : in_state t st = true <-> t_state t = st.
Proof. apply bool_decide_eq_true. Qed.
Lemma active_still sp t p s : state_fine t p sp -> active sp s = true -> t_state t = TUNNEL_PAUSED.
Proof. destruct sp as [| | |[] ? ?| |]; try done. by intros []. Qed.

(** Moving on without touching the lanes. *)
Lemma steady_go t p sp p' : steady t p sp -> (p' <> PEnd /\ p' <> PWaitEnd /\ p' <> PFin /\ p' <> PDone) -> (forall s, ~ filling p' s) -> p' <> PWaitPaused -> (early p -> early p') \/ sp <> SAccept -> steady t p' sp.
Proof.
  intros [He Hs Hw Hq Hm Hwt Hsc] He' Hf Hw' Ha. constructor; try done.
  - destruct sp; try done. destruct Hs as [? ?]. split; [done|]. destruct Ha as [Ha|?]; [by apply Ha|done].
  - intros s H1 H2 H3. destruct (Hq s H1 H2 H3) as [H0 _]. by split.
  - intros s H1. destruct (Hm s H1) as [H0 _]. split; [done|]. intros more len ->. destruct (Hf s). by exists more, len.
Qed.
Lemma not_filling p : (forall s more len, p <> PFill s more len) -> forall s, ~ filling p s.
Proof. intros H s (more & len & ->). by apply (H s more len). Qed.

Lemma steady_poll t p sp t' p' w : steady t p sp -> tunnel_is_open t' = true -> tunnel_is_open t = true -> polls t p t' p' w -> steady t' p' (if w then signal_spec sp else sp).
Proof.
  intros HS Ho' Ho Hp. pose proof HS as [He Hs Hw Hq Hm Hwt Hsc].
  assert (~ early p -> sp <> SAccept) as Hacc by (intros Hne ->; by destruct Hs).
  destruct Hp as [ | | |p q Hpq Hrd|b m len H0 Hst Hle|b m len d q Hd Hrd|Hst H0| |b t' Hwr|p q w [-> Hrd]| ].
  - rewrite Ho. apply (steady_go t PTop sp); [done|done|by apply not_filling|done|]. left. unfold early. auto.
  - apply (steady_go t PAccept sp); [done|done|by apply not_filling|done|]. left. unfold early. auto.
  - apply (steady_go t PAccept sp); [done|done|by apply not_filling|done|]. right. intros ->. destruct Hs as [Hs _]. apply in_state_eq in Hs. congruence.
  - assert (~ early p) as Hne by (destruct Hpq as [->|(? & ? & -> & _)]; intros [?|[?|?]]; done). apply (steady_go t p sp); [done|by destruct Hrd as [->|(? & ? & ->)]|by destruct Hrd as [->|(? & ? & ->)]; apply not_filling|by destruct Hrd as [->|(? & ? & ->)]|auto].
  - assert (sp <> SAccept) as Hns by (apply Hacc; intros [?|[?|?]]; done). constructor; try done.
    + destruct sp; try done.
    + intros s H1 H2 H3. split; [apply (Hq s H1 H2 H3)|]. intros (m' & len' & [= <- <- <-]). destruct (Hw b) as [_ Hwb]. specialize (Hst (Hwb H3)). destruct H1 as [H1|H1]; [apply in_state_eq in H1; congruence|].
      destruct sp; try done; cbn in Hs; rewrite H1 in Hs; first [done|by destruct Hs].
    + intros s H1. destruct (Hm s H1) as [H2 _]. split; [done|]. intros m' len' [= <- <- <-]. split; [done|]. destruct (Hw b) as [Hw0 _]. destruct (decide (wrk_len (lane_of t b) = 0)) as [E|E]; [|apply Hle; lia].
      specialize (Hst E). apply (active_still sp t (PRead b m)) in H1; [|done]. apply in_state_eq in H1. congruence.
  - assert (sp <> SAccept) as Hns by (apply Hacc; intros [?|[?|?]]; done). set (t1 := tunnel_read_fill t b d) in *.
    assert (t_state t1 = t_state t) as Est by (unfold t1, tunnel_read_fill; by destruct b).
    assert (forall s, wrk_len (lane_of t1 s) = wrk_len (lane_of t s)) as Ewrk by (intros s; unfold t1, tunnel_read_fill; rewrite lane_set; destruct (Bool.eqb b s) eqn:E; [apply Bool.eqb_prop in E as ->|]; done).
    constructor.
    + by destruct Hrd as [->|(? & ? & ->)].
    + destruct sp; try done; cbn in *; by rewrite Est.
    + intros s. by rewrite Ewrk.
    + intros s H1 H2 H3. unfold still in H1. rewrite Est in H1. destruct (Hq s H1 H2 H3) as [H4 H5]. split; [|by destruct Hrd as [->|(? & ? & ->)]; apply not_filling].
      unfold t1. rewrite fill_other; [done|]. intros ->. apply H5. by exists m, len.
    + intros s H1. destruct (Hm s H1) as [H2 H3]. split; [|by destruct Hrd as [->|(? & ? & ->)]]. rewrite Ewrk. pose proof (open_lane t1 s Ho') as Ho1. split; [done|]. destruct (Bool.bool_dec s b) as [->|Hne]; [|unfold t1; rewrite fill_other by done; lia].
      destruct (H3 m len eq_refl) as [H4 H5]. unfold t1, tunnel_read_fill in *. rewrite lane_set, Bool.eqb_reflx in *. cbn [buf_len] in *. destruct d; [lia|lia].
    + by destruct Hrd as [->|(? & ? & ->)].
    + done.
  - apply in_state_eq in Hst. constructor; try done.
    + destruct sp; try done; cbn in *; rewrite Hst in Hs; first [by right|done|by destruct Hs].
    + intros s. destruct (H0 s) as [H1 _]. by rewrite H1.
    + intros s _ _ _. split; [apply H0|]. by intros (? & ? & ?).
    + destruct sp; done.
    + intros _. split; [done|]. by destruct sp.
    + destruct sp; done.
  - assert (sp <> SAccept) as Hns by (apply Hacc; intros [?|[?|?]]; done). apply (steady_go t PMid sp); [done|done|by apply not_filling|done|auto].
  - assert (sp <> SAccept) as Hns by (apply Hacc; intros [?|[?|?]]; done). apply write_ok in Hwr as (wrk & -> & Hw1 & Hw2). set (l := lane_of t b) in *. pose proof (open_lane t b Ho) as Hob. fold l in Hob. destruct (Hw b) as [Hwb Hwb']. fold l in Hwb, Hwb'.
    assert (0 <= wrk /\ (wrk_len l = 0 -> wrk = 0)) as [Hwrk0 Hwrk] by (destruct (decide (0 < wrk_len l)); [destruct Hw2; lia|rewrite Hw1 by lia; lia]).
    constructor.
    + by destruct b.
    + destruct sp; done.
    + intros s. rewrite lane_set. destruct (Bool.eqb b s) eqn:E; [|apply Hw]. apply Bool.eqb_prop in E as <-. cbn [written wrk_len]. split; [done|]. intros H1. apply Hwrk. by apply Hwb'.
    + intros s H1 H2 H3. destruct (Hq s H1 H2 H3) as [H4 _]. split; [|by destruct b; apply not_filling]. rewrite lane_set. destruct (Bool.eqb b s) eqn:E; [|done]. apply Bool.eqb_prop in E as <-. cbn [written buf_len]. fold l in H4. by rewrite H4.
    + intros s H1. destruct (Hm s H1) as [H2 _]. split; [|by destruct b]. rewrite lane_set. destruct (Bool.eqb b s) eqn:E; [|done]. apply Bool.eqb_prop in E as <-. cbn [written buf_len wrk_len]. destruct (0 <? buf_len l) eqn:E'; lia.
    + by destruct b.
    + done.
  - destruct He as (He & _). done.
  - destruct He as (_ & _ & He & _). done.
Qed.

Lemma signal_poll_not p : signal_poll p <> PWaitPaused.
Proof. by destruct p. Qed.
Lemma signal_poll_ends p : p <> PEnd /\ p <> PWaitEnd /\ p <> PFin /\ p <> PDone -> signal_poll p <> PEnd /\ signal_poll p <> PWaitEnd /\ signal_poll p <> PFin /\ signal_poll p <> PDone.
Proof. by destruct p; intros (? & ? & ? & ?). Qed.
Lemma signal_poll_filling p s : filling (signal_poll p) s -> filling p s.
Proof. intros (more & len & E). exists more, len. rewrite <-E. by apply (signal_poll_fill p s more len). Qed.
Lemma signal_poll_quiet t p s : quiet t p s -> quiet t (signal_poll p) s.
Proof. intros [H1 H2]. split; [done|]. intros H. by apply H2, signal_poll_filling. Qed.

(** The thread of the script takes the lock for a command. *)
Lemma steady_cmd t p c cmds last t' : steady t p (SCmd c cmds last) -> run_cmd t c = Ok t' -> steady t' (signal_poll p) (after_cmd c cmds last).
Proof.
  intros [He Hs Hw Hq Hm Hwt [Hc Hsc]] Hr. apply signal_poll_ends in He. pose proof (signal_poll_not p) as Hnp. destruct c as [|b n|]; cbn [run_cmd after_cmd] in *.
  - unfold cmd_tunnel_pause in Hr. destruct (in_state t TUNNEL_PAUSED) eqn:E; [done|]. apply bind_ok in Hr as (u & H1%assertC_ok & [= <-]). by constructor.
  - unfold cmd_tunnel_send in Hr. destruct (in_state t TUNNEL_RUNNING) eqn:E; [done|]. apply bind_ok in Hr as (u & Hst%assertC_ok & Hr). do 2 (apply bind_ok in Hr as (? & _ & Hr)). injection Hr as <-. apply in_state_eq in Hst.
    assert (forall s, quiet t p s) as Hqt by (intros s; apply Hq; [by left|done..]).
    assert (forall s, lane_of (set_wrk t b n) s = if Bool.eqb b s then mk_lane (ln_buf (lane_of t b)) (buf_len (lane_of t b)) n (ln_got (lane_of t b)) (ln_put (lane_of t b)) else lane_of t s) as HL by (intros s; unfold set_wrk; apply lane_set).
    constructor; try done.
    + intros s. cbn [active]. rewrite HL. destruct (Bool.eqb b s) eqn:Eb; [split; [exact Hc|done]|]. destruct (Hw s) as [H2 H3]. split; [done|]. intros _. by apply H3.
    + intros s _ _ Hb. cbn [active] in Hb. destruct (signal_poll_quiet t p s (Hqt s)) as [H1 H2]. split; [|done]. by rewrite HL, Hb.
    + intros s Hb. cbn [active] in Hb. apply Bool.eqb_prop in Hb as <-. destruct (signal_poll_quiet t p b (Hqt b)) as [H1 H2]. split; [|intros more len Hf; destruct H2; by exists more, len].
      rewrite HL, Bool.eqb_reflx. cbn [buf_len wrk_len]. cbn in Hc. lia.
  - unfold cmd_tunnel_resume in Hr. destruct (in_state t TUNNEL_RUNNING) eqn:E; [done|]. apply bind_ok in Hr as (u & H1%assertC_ok & [= <-]). constructor; try done.
    + by left.
    + intros s [?|?]; done.
Qed.

Lemma steady_spec script t p sp t' sp' w : Forall cmd_fine script -> steady t p sp -> specs script t sp t' sp' -> w = match sp with SNext _ _ => false | _ => true end ->
  steady t' (if w then signal_poll p else p) sp'.
Proof.
  intros Hfine HS Hs ->. pose proof HS as [He Hst Hw Hq Hm Hwt Hsc]. destruct Hs as [afd cfd t' Hacc|c cmds last Ho|Hp|last|c cmds last t' Hc| ].
  - destruct (accept_lanes t afd cfd t' Hacc) as [HL Hst']. destruct Hst as [_ Hearly]. constructor; try done.
    + by apply signal_poll_ends.
    + cbn. rewrite <-!in_state_eq. done.
    + intros s. rewrite HL. cbn. done.
    + intros s _ _ _. split; [by rewrite HL|]. intros H%signal_poll_filling. destruct H as (? & ? & ->). by destruct Hearly as [?|[?|?]].
    + intros Hx. by destruct (signal_poll_not p).
  - apply Forall_cons in Hsc as [Hc Hsc]. constructor; try done. intros E. by destruct (Hwt E).
  - constructor; try done; [intros E; by destruct (Hwt E)|by repeat constructor].
  - constructor; try done. intros E. by destruct (Hwt E).
  - by apply (steady_cmd t p c cmds last).
  - cbn in *. constructor; try done.
    + by apply signal_poll_ends.
    + intros s [?|?]; done.
    + intros Hx. by destruct (signal_poll_not p).
Qed.

(** ** The invariant on runs *)

Definition steady_if (x : tsys) : Prop := tunnel_is_open (ts_t x) = true -> steady (ts_t x) (ts_poll x) (ts_spec x).

Lemma lane_closed t s : buf_len (lane_of t s) < 0 -> tunnel_is_open t = false.
Proof. unfold tunnel_is_open. destruct s; cbn; intros; lia. Qed.

(** A tunnel that is closed does not open again. *)
Lemma open_before script x y : flows x -> tstep script false x y -> tunnel_is_open (ts_t y) = true -> tunnel_is_open (ts_t x) = true.
Proof.
  intros [Hl Ha Hf] Hst Ho. destruct (tunnel_is_open (ts_t x)) eqn:E; [done|]. exfalso.
  assert (exists s, buf_len (lane_of (ts_t x) s) < 0) as (s & Hs).
  { unfold tunnel_is_open in E. destruct (0 <=? buf_len (send_lane (ts_t x))) eqn:E1; [exists false|exists true]; cbn; [cbn in E|]; lia. }
  destruct Hst as [t p sp ready d t' p' w Hp|t p sp afd cfd t' s' w Hsp|t p sp Hx|t p sp Hx]; [| |done..]; cbn in *.
  - apply poll_step_polls in Hp. pose proof (open_lane t' s Ho) as Hge. destruct Hp as [ | | | | |b m len d' q Hd Hrd| | |b t' Hw| | ]; try lia.
    + specialize (Hf b m len eq_refl). unfold tunnel_read_fill in Hge. rewrite lane_set in Hge. destruct (Bool.eqb b s) eqn:Eb; [apply Bool.eqb_prop in Eb as ->; lia|lia].
    + apply write_ok in Hw as (wrk & -> & _). rewrite lane_set in Hge. destruct (Bool.eqb b s) eqn:Eb; [apply Bool.eqb_prop in Eb as ->; cbn [written buf_len] in Hge; destruct (0 <? buf_len (lane_of t s)) eqn:E'; lia|lia].
    + rewrite lane_state in Hge. lia.
  - apply spec_step_specs in Hsp as [Hsp _]. pose proof (open_lane t' s Ho) as Hge. destruct Hsp as [afd' cfd' t' Hacc| | | |c cmds last t' Hc| ]; try lia.
    + destruct (Ha eq_refl) as (_ & _ & H0). specialize (H0 s). lia.
    + destruct (run_cmd_lanes t c t' Hc s) as (_ & E2 & _). lia.
    + rewrite lane_state in Hge. lia.
Qed.

Lemma steady_step script x y : Forall cmd_fine script -> flows x -> steady_if x -> tstep script false x y -> steady_if y.
Proof.
  intros Hfine HF HS Hst Ho. pose proof (open_before script x y HF Hst Ho) as Hox. specialize (HS Hox). destruct Hst as [t p sp ready d t' p' w Hp|t p sp afd cfd t' s' w Hsp|t p sp Hx|t p sp Hx]; [| |done..]; cbn in *.
  - apply poll_step_polls in Hp. by apply (steady_poll t p).
  - apply spec_step_specs in Hsp as [Hsp Hw]. by apply (steady_spec script t p sp).
Qed.

Lemma steady_started t : steady_if (started t).
Proof.
  intros _. constructor; cbn; try done.
  - split; [done|]. by left.
  - by intros [].
  - intros [] _ _ _; (split; [done|]); by intros (? & ? & ?).
Qed.

Lemma steady_reach script x y : Forall cmd_fine script -> rtc (tstep script false) x y -> flows x -> steady_if x -> flows y /\ steady_if y.
Proof. intros Hfine. induction 1 as [x|x y z Hxy _ IH]; [done|]. intros Hx HS. apply IH; [by apply (flows_step script false x)|by apply (steady_step script x)]. Qed.

(** ** Bytes that are let through *)

(** How far a thread has still to go. *)
Definition rank (sp : spec_pc) : Z :=
  let later (last : bool) := if last then 0 else 5 in
  match sp with
  | SAccept => 0
  | SNext cmds last => 3 * Z.of_nat (length cmds) + 1 + later last
  | SCmd _ cmds last => 3 * Z.of_nat (length cmds) + 3 + later last
  | SWait _ cmds last => 3 * Z.of_nat (length cmds) + 2 + later last
  | SLast | SDone => 0
  end.

Definition puts (t : tunnel) (s : bool) : Z := Z.of_nat (length (ln_put (lane_of t s))).

(** The command that waits for [n] bytes on a lane, from its lock on: [a] and [b]
    bytes had been written when it began. *)
Definition sending (s : bool) (n : Z) (cmds : list tunnel_cmd) (last : bool) (a b : Z) (x : tsys) : Prop :=
  let t := ts_t x in
  ts_spec x <> SAccept /\
  (rank (ts_spec x) < rank (SNext cmds last) \/
   t_state t = TUNNEL_PAUSED /\ puts t (negb s) = b /\
   (ts_spec x = SCmd (TSend s n) cmds last /\ puts t s = a \/
    ts_spec x = SWait (TSend s n) cmds last /\ puts t s + wrk_len (lane_of t s) = a + n \/
    ts_spec x = SNext cmds last /\ puts t s = a + n)).

(** Writing moves what it takes off the bytes to come. *)
Lemma write_puts t p sp s t' b : flows (mk_tsys t p sp) -> steady t p sp -> tunnel_write t b = Ok t' -> t_state t = TUNNEL_PAUSED -> pausing sp = false ->
  puts t' s + (if active sp s then wrk_len (lane_of t' s) else 0) = puts t s + (if active sp s then wrk_len (lane_of t s) else 0) /\ t_state t' = t_state t.
Proof.
  intros [Hl _ _] [_ Hst Hw Hq Hm _ _] Hwr Hp Hnp. cbn in Hl. apply write_ok in Hwr as (wrk & -> & Hw1 & Hw2). split; [|by destruct b]. unfold puts. rewrite lane_set. destruct (Bool.eqb b s) eqn:E; [|done]. apply Bool.eqb_prop in E as ->.
  set (l := lane_of t s) in *. destruct (Hl s) as [Hl1 Hl2 _]. fold l in Hl1, Hl2. cbn [written ln_put wrk_len]. rewrite length_app. unfold pending. destruct (active sp s) eqn:Ea.
  - destruct (Hm s Ea) as [H1 _]. fold l in H1. destruct (0 <? buf_len l) eqn:E; [specialize (Hl2 ltac:(lia)); destruct Hw2; lia|].
    assert (buf_len l = 0) as E0 by lia. cbn [length]. destruct (decide (0 < wrk_len l)); [destruct Hw2; lia|rewrite Hw1; lia].
  - destruct (Hq s (or_introl Hp) Hnp Ea) as [H0 _]. fold l in H0. rewrite H0. cbn. lia.
Qed.

Lemma sending_poll s n cmds last a b t p sp t' p' w : flows (mk_tsys t p sp) -> steady t p sp -> tunnel_is_open t' = true -> polls t p t' p' w ->
  sending s n cmds last a b (mk_tsys t p sp) -> sending s n cmds last a b (mk_tsys t' p' (if w then signal_spec sp else sp)).
Proof.
  intros HF HS Ho Hp [Hna HK]. unfold sending in *. cbn [ts_t ts_spec] in *.
  assert (rank (signal_spec sp) <= rank sp) as Hrank by (destruct sp as [| | |? ? []| |]; cbn; lia).
  split; [destruct w; [by intros ?%signal_spec_accept|done]|]. destruct HK as [HK|(Hst & Hb & HK)]; [left; destruct w; lia|].
  assert (pausing sp = false) as Hnp by (destruct HK as [[-> _]|[[-> _]|[-> _]]]; done).
  right. destruct Hp as [ | | | | |m m' len d q Hd Hrd|Hst' H0| |m t' Hw| | ].
  1-5,8: done.
  - assert (forall s', puts (tunnel_read_fill t m d) s' = puts t s' /\ wrk_len (lane_of (tunnel_read_fill t m d) s') = wrk_len (lane_of t s')) as HP.
    { intros s'. unfold puts, tunnel_read_fill. rewrite lane_set. destruct (Bool.eqb m s') eqn:E; [apply Bool.eqb_prop in E as ->|]; done. }
    destruct (HP s) as [-> ->]. destruct (HP (negb s)) as [-> _]. split; [by destruct m|]. done.
  - split; [done|]. split; [done|]. destruct HK as [[-> Ha]|[[-> Ha]|[-> Ha]]]; [by left|right; right|by right; right]. split; [done|]. destruct (H0 s) as [E _]. lia.
  - destruct (write_puts t (PWrite m) sp s t' m HF HS Hw Hst Hnp) as [H1 H2]. destruct (write_puts t (PWrite m) sp (negb s) t' m HF HS Hw Hst Hnp) as [H3 _]. rewrite H2.
    destruct HK as [[-> Ha]|[[-> Ha]|[-> Ha]]]; cbn [active] in *; rewrite ?Bool.eqb_reflx, ?eqb_negb2 in *; (split; [done|]; split; [lia|]); [left|right; left|right; right]; (split; [done|]); lia.
  - destruct HS as [(H1 & _) _ _ _ _ _ _]. by destruct H as [-> _].
  - destruct HS as [(? & ? & ? & ?) _ _ _ _ _ _]. done.
Qed.

Lemma sending_spec script s n cmds last a b t p sp t' sp' p' : specs script t sp t' sp' -> sending s n cmds last a b (mk_tsys t p sp) -> sending s n cmds last a b (mk_tsys t' p' sp').
Proof.
  intros Hs [Hna HK]. unfold sending in *. cbn [ts_t ts_spec] in *.
  assert (sp' <> SAccept /\ rank sp' <= rank sp /\ (forall cmds last, sp = SNext cmds last -> rank sp' < rank sp)) as (H1 & H2 & H3).
  { destruct Hs as [afd cfd t' Hacc|c cmds' last' Ho|Hp|last'|c cmds' last' t' Hc| ]; [done| | | | | ]; cbn [rank length].
    - split; [done|]. split; [lia|]. intros; lia.
    - split; [done|]. split; [lia|]. intros; lia.
    - split; [done|]. destruct last'; split; try lia; intros; lia.
    - split; [by destruct c|]. split; [destruct c; cbn [after_cmd rank]; lia|done].
    - split; [done|]. split; [lia|done]. }
  split; [done|]. destruct HK as [HK|(Hst & Hb & HK)]; [left; lia|]. destruct HK as [[-> Ha]|[[-> Ha]|[-> Ha]]].
  - right. inversion Hs; subst. cbn [after_cmd run_cmd] in *. match goal with H : cmd_tunnel_send _ _ _ = _ |- _ => rename H into Hr end. unfold cmd_tunnel_send in Hr.
    destruct (in_state t TUNNEL_RUNNING) eqn:E; [done|]. apply bind_ok in Hr as (u & _ & Hr). do 2 (apply bind_ok in Hr as (? & _ & Hr)). injection Hr as <-. split; [by destruct s|].
    unfold puts, set_wrk. rewrite !lane_set, Bool.eqb_reflx, eqb_negb2. split; [done|]. right; left. done.
  - inversion Hs.
  - left. by apply H3 with cmds last.
Qed.

Lemma open_reach script x y : rtc (tstep script false) x y -> flows x -> tunnel_is_open (ts_t y) = true -> tunnel_is_open (ts_t x) = true.
Proof. induction 1 as [x|x y z Hxy _ IH]; [done|]. intros Hx Hz. apply (open_before script x y Hx Hxy), IH; [by apply (flows_step script false x)|done]. Qed.

Lemma sending_reach script s n cmds last a b x y : Forall cmd_fine script -> rtc (tstep script false) x y -> flows x -> steady_if x -> tunnel_is_open (ts_t y) = true ->
  sending s n cmds last a b x -> sending s n cmds last a b y.
Proof.
  intros Hfine. induction 1 as [x|x y z Hxy Hyz IH]; [done|]. intros HF HS Hz HK. assert (flows y) as HFy by by apply (flows_step script false x).
  assert (steady_if y) as HSy by by apply (steady_step script x). apply IH; [done..|]. pose proof (open_reach script y z Hyz HFy Hz) as Hoy. pose proof (open_before script x y HF Hxy Hoy) as Hox. specialize (HS Hox). clear IH Hyz.
  destruct Hxy as [t p sp ready d t' p' w Hp|t p sp afd cfd t' sp' w Hs|t p sp Hx|t p sp Hx]; [| |done..]; cbn [ts_t ts_poll ts_spec] in *.
  - apply poll_step_polls in Hp. by apply (sending_poll s n cmds last a b t p sp).
  - apply spec_step_specs in Hs as [Hs _]. by apply (sending_spec script s n cmds last a b t p sp).
Qed.

(** C21: a command lets exactly as many bytes through as it says.  Let the
    thread of a script be about to let [n] bytes through on a lane, the tunnel
    paused; when it comes to the next command the lane has passed exactly [n]
    bytes on, the other lane none, nothing is left in the buffers and the tunnel
    is paused, provided that no connection has ended; for every way in which the
    bytes arrive and every interleaving of the threads in which a wait ends only
    by the signal of the other thread.  A wait can also end for no reason, or by
    the signal of [tunnel_wait], and may then cut a command short ([send_cut]). *)
Theorem tunnel_sends script t x y s n cmds last : Forall cmd_fine script -> rtc (tstep script false) (started t) x ->
  ts_spec x = SCmd (TSend s n) cmds last -> t_state (ts_t x) = TUNNEL_PAUSED ->
  rtc (tstep script false) x y -> ts_spec y = SNext cmds last -> tunnel_is_open (ts_t y) = true ->
  puts (ts_t y) s = puts (ts_t x) s + n /\ puts (ts_t y) (negb s) = puts (ts_t x) (negb s) /\
  t_state (ts_t y) = TUNNEL_PAUSED /\ forall s', buf_len (lane_of (ts_t y) s') = 0.
Proof.
  intros Hfine Hrx Hx Hst Hxy Hy Ho. destruct (steady_reach script _ _ Hfine Hrx (flows_started t) (steady_started t)) as [HFx HSx].
  destruct (steady_reach script _ _ Hfine Hxy HFx HSx) as [HFy HSy]. specialize (HSy Ho).
  assert (sending s n cmds last (puts (ts_t x) s) (puts (ts_t x) (negb s)) x) as HK by (split; [by rewrite Hx|]; right; split; [done|]; split; [done|]; by left).
  apply (sending_reach script s n cmds last _ _ x y Hfine Hxy HFx HSx Ho) in HK. destruct HK as [_ [HK|(H1 & H2 & HK)]]; [rewrite Hy in HK; lia|].
  split; [destruct HK as [[E _]|[[E _]|[_ E]]]; [congruence|congruence|done]|]. split; [done|]. split; [done|]. intros s'. rewrite Hy in HSy. by destruct (st_quiet _ _ _ HSy s' (or_introl H1) eq_refl eq_refl).
Qed.

(** ** Runs *)

Inductive move := MPoll (d : list Z) | MSpec | MWake.
Definition next_of {A} (m : outcome (option A)) : option A := match m with Ok r => r | Fault _ => None end.
Definition moved (script : list tunnel_cmd) (others : bool) (x : tsys) (m : move) : option tsys :=
  let '(mk_tsys t p s) := x in
  match m with
  | MPoll d => '(t, p, w) ← next_of (poll_step t p (true, false) d); Some (mk_tsys t p (if w : bool then signal_spec s else s))
  | MSpec => '(t, s, w) ← next_of (spec_step t s script 4 5); Some (mk_tsys t (if w : bool then signal_poll p else p) s)
  | MWake => if others then Some (mk_tsys t p (signal_spec s)) else None
  end.
Fixpoint moves (script : list tunnel_cmd) (others : bool) (x : tsys) (ms : list move) : option tsys :=
  match ms with [] => Some x | m :: ms => y ← moved script others x m; moves script others y ms end.

Lemma moves_steps script others x ms y : moves script others x ms = Some y -> rtc (tstep script others) x y.
Proof.
  revert x. induction ms as [|m ms IH]; intros x; cbn [moves]; [intros [= <-]; constructor|]. destruct (moved script others x m) as [z|] eqn:E; [|done]. intros H. apply rtc_l with z; [|by apply IH]. clear IH H.
  destruct x as [t p s], m as [d| |]; cbn [moved] in E.
  - destruct (poll_step t p (true, false) d) as [[[[t' p'] w]|]|f] eqn:Ep; try done. injection E as <-. by eapply step_poll.
  - destruct (spec_step t s script 4 5) as [[[[t' s'] w]|]|f] eqn:Es; try done. injection E as <-. by eapply step_spec.
  - destruct others; [|done]. injection E as <-. by apply step_wake_spec.
Qed.

Definition example_tunnel (paused : bool) : tunnel := mk_tunnel (str "t1") TUNNEL_ACCEPT paused [] [] [] (-1, 3, -1) zero_lane zero_lane.
Definition example_script : list tunnel_cmd := [TSend true 2; TResume].
(** Once round the loop, with one byte that arrives. *)
Definition round (d : list Z) : list move := [MPoll []; MPoll []; MPoll []; MPoll []; MPoll d; MPoll []; MPoll []; MPoll []].
Definition tunnel0 : tsys := started (example_tunnel true).
Definition example_moves : list move := MSpec :: round [65] ++ round [66] ++ [MPoll []; MPoll []; MPoll []; MPoll []; MPoll []].

(** Before the command, and behind it. *)
Definition example_x : tsys := Eval vm_compute in default (started (example_tunnel true)) (moves example_script false (started (example_tunnel true)) [MSpec; MSpec]).
Definition example_y : tsys := Eval vm_compute in default example_x (moves example_script false example_x example_moves).
Lemma example_run_x : rtc (tstep example_script false) (started (example_tunnel true)) example_x.
Proof. apply (moves_steps _ _ _ [MSpec; MSpec]). by vm_compute. Qed.
Lemma example_run_y : rtc (tstep example_script false) example_x example_y.
Proof. apply (moves_steps _ _ _ example_moves). by vm_compute. Qed.

Lemma tunnel_run : rtc (tstep example_script false) (started (example_tunnel true)) example_y.
Proof. etrans; [exact example_run_x|exact example_run_y]. Qed.

Lemma tunnel_bytes_witness : ln_got (lane_of (ts_t example_y) true) = ln_put (lane_of (ts_t example_y) true) ++ pending (lane_of (ts_t example_y) true).
Proof. exact (tunnel_bytes example_script false (example_tunnel true) example_y tunnel_run true). Defined.

Lemma tunnel_sends_witness : puts (ts_t example_y) true = puts (ts_t example_x) true + 2 /\ puts (ts_t example_y) false = puts (ts_t example_x) false.
Proof.
  assert (Forall cmd_fine example_script) as Hf by (constructor; [cbn; lia|by repeat constructor]).
  destruct (tunnel_sends example_script (example_tunnel true) example_x example_y true 2 [TResume] false Hf example_run_x eq_refl eq_refl example_run_y eq_refl eq_refl) as (H1 & H2 & _).
  by split.
Defined.

(** ** Where the threads get in each other's way *)

(** A [pause] that comes while bytes are in the buffer fails an assertion of the
    polling thread, which should wait for them to be written. *)
Lemma pause_race : exists x, rtc (tstep [TPause] false) (started (example_tunnel false)) x /\ poll_step (ts_t x) (ts_poll x) (false, false) [] = Fault FAssert /\
  pending (send_lane (ts_t x)) = [65].
Proof.
  exists (default tunnel0 (moves [TPause] false (started (example_tunnel false)) ([MSpec; MSpec] ++ take 5 (round [65]) ++ [MSpec]))).
  split; [apply (moves_steps _ _ _ ([MSpec; MSpec] ++ take 5 (round [65]) ++ [MSpec])); by vm_compute|by vm_compute].
Qed.

(** The signal of [-wait] ends a [send] before its bytes have passed. *)
Lemma send_cut : exists x, rtc (tstep example_script true) (started (example_tunnel true)) x /\ ts_spec x = SNext [TResume] false /\ puts (ts_t x) true = 0.
Proof.
  exists (default tunnel0 (moves example_script true (started (example_tunnel true)) [MSpec; MSpec; MSpec; MWake])).
  split; [apply (moves_steps _ _ _ [MSpec; MSpec; MSpec; MWake]); by vm_compute|by vm_compute].
Qed.
