(* ===== verification/Vtim.v ===== *)
(** * Dates (lib/vtim.c)

    Printing a time and parsing the four formats of dates.  A time is the whole
    number of seconds that the double holds: the parser computes no other, and
    the fraction is cut off before printing.  A date is a C string with its NUL;
    the parsers of its parts return what they read and the pointer behind it, or
    None where the code returns zero. *)

From Stdlib Require Import ZArith Lia ZifyBool String SpecFloat.
From stdpp Require Import base option numbers list.
From S2P Require Import Prelude CStr HpackData VtcSubr Dbl.
#[local] Open Scope Z_scope.

Definition weekday_name : list (list Z) := map str ["Sun"; "Mon"; "Tue"; "Wed"; "Thu"; "Fri"; "Sat"]%string.
Definition more_weekday : list (list Z) := map str ["day"; "day"; "sday"; "nesday"; "rsday"; "day"; "urday"]%string.
Definition month_name : list (list Z) := map str ["Jan"; "Feb"; "Mar"; "Apr"; "May"; "Jun"; "Jul"; "Aug"; "Sep"; "Oct"; "Nov"; "Dec"]%string.
Definition days_in_month : list Z := [31; 29; 31; 30; 31; 30; 31; 31; 30; 31; 30; 31].
Definition days_before_month : list Z := [0; 31; 59; 90; 120; 151; 181; 212; 243; 273; 304; 334].

(** ** Parsing *)

(** What is read, None where [FAIL] returns. *)
Definition parser (A : Type) : Type := list Z -> outcome (option (A * list Z)).
Definition then_ {A B} (m : outcome (option (A * list Z))) (k : A -> parser B) : outcome (option (B * list Z)) :=
  r ← m; match r with Some (a, p) => k a p | None => Ok None end.
Declare Scope vtim_scope.
Notation "x <~ m ;; k" := (fun p => then_ (m p) (fun x => k)) (at level 100, m at next level, right associativity) : vtim_scope.
#[local] Open Scope vtim_scope.
Definition done_ {A} (a : A) : parser A := fun p => Ok (Some (a, p)).
Definition FAIL {A} : parser A := fun _ => Ok None.

Definition DIGIT (mult fld : Z) : parser Z :=
  fun p => c ← readC p 0; if (c <? 48) || (57 <? c) then Ok None else Ok (Some (fld + (c - 48) * mult, drop 1 p)).
Definition MUSTBE (chr : Z) : parser unit := fun p => c ← readC p 0; if negb (c =? chr) then Ok None else Ok (Some (tt, drop 1 p)).

(** The index of the name that stands at [p]. *)
Fixpoint find_name (names : list (list Z)) (i : Z) : parser Z :=
  fun p =>
    match names with
    | [] => Ok None
    | n :: names => eq ← memeq p n; if eq : bool then Ok (Some (i, drop (length n) p)) else find_name names (i + 1) p
    end.
Definition WEEKDAY : parser Z := find_name weekday_name 0.
Definition MONTH : parser Z := find_name month_name 1.
(** [hour], [min] and [sec]. *)
Definition TIMESTAMP : parser (Z * Z * Z) :=
  h <~ DIGIT 10 0;; h <~ DIGIT 1 h;; _ <~ MUSTBE 58;; m <~ DIGIT 10 0;; m <~ DIGIT 1 m;; _ <~ MUSTBE 58;; s <~ DIGIT 10 0;; s <~ DIGIT 1 s;; done_ (h, m, s).
Definition YEAR4 : parser Z := y <~ DIGIT 1000 0;; y <~ DIGIT 100 y;; y <~ DIGIT 10 y;; DIGIT 1 y.
Definition MDAY2 : parser Z := d <~ DIGIT 10 0;; DIGIT 1 d.
Definition GMT : parser unit := _ <~ MUSTBE 32;; _ <~ MUSTBE 71;; _ <~ MUSTBE 77;; MUSTBE 84.

(** [year], [month], [mday] and the time of a date in each format. *)
Definition date : Type := Z * Z * Z * (Z * Z * Z).
Definition iso8601 : parser date :=
  y <~ YEAR4;; _ <~ MUSTBE 45;; m <~ MDAY2;; _ <~ MUSTBE 45;; d <~ MDAY2;; _ <~ MUSTBE 84;; t <~ TIMESTAMP;; done_ (y, m, d, t).
Definition rfc1123 (postel : bool) : parser date :=
  _ <~ MUSTBE 32;;
  d <~ (fun p => c ← readC p 0;
                 short ← (if postel && negb (c =? 0) then c1 ← readC p 1; Ok (c1 =? 32) else Ok false);
                 if short : bool then DIGIT 1 0 p else MDAY2 p);;
  _ <~ MUSTBE 32;; m <~ MONTH;; _ <~ MUSTBE 32;; y <~ YEAR4;; _ <~ MUSTBE 32;; t <~ TIMESTAMP;; _ <~ GMT;; done_ (y, m, d, t).
Definition asctime : parser date :=
  m <~ MONTH;; _ <~ MUSTBE 32;;
  d <~ (fun p => c ← readC p 0; if negb (c =? 32) then DIGIT 10 0 p else Ok (Some (0, drop 1 p)));;
  d <~ DIGIT 1 d;; _ <~ MUSTBE 32;; t <~ TIMESTAMP;; _ <~ MUSTBE 32;; y <~ YEAR4;; done_ (y, m, d, t).
Definition rfc850 : parser date :=
  _ <~ MUSTBE 44;; _ <~ MUSTBE 32;; d <~ MDAY2;; _ <~ MUSTBE 45;; m <~ MONTH;; _ <~ MUSTBE 45;;
  y <~ DIGIT 10 0;; y <~ DIGIT 1 y;;
  let y := y + 1900 in
  let y := if y <? 1969 then y + 100 else y in
  _ <~ MUSTBE 32;; t <~ TIMESTAMP;; _ <~ GMT;; done_ (y, m, d, t).

(** The weekday, or -1, with the date. *)
Definition date_of (postel : bool) : parser (Z * date) :=
  fun p =>
    c ← readC p 0;
    if (48 <=? c) && (c <=? 57) then (d <~ iso8601;; done_ (-1, d)) p
    else
      (w <~ WEEKDAY;;
       (fun p =>
          _ ← assertC ((0 <=? w) && (w <=? 6));
          c ← readC p 0;
          if c =? 44 then (d <~ rfc1123 postel;; done_ (w, d)) (drop 1 p)
          else if c =? 32 then (d <~ asctime;; done_ (w, d)) (drop 1 p)
          else
            more ← readC more_weekday (Z.to_nat w);
            eq ← memeq p more;
            if eq : bool then (d <~ rfc850;; done_ (w, d)) (drop (length more) p) else Ok None)) p.

(** ** Days *)

Definition is_leap (y : Z) : bool := (Z.rem y 4 =? 0) && (negb (Z.rem y 100 =? 0) || (Z.rem y 400 =? 0)).

(** [d], the days since 2000-01-01. *)
Definition day_number (y m md : Z) : outcome Z :=
  b ← readC days_before_month (Z.to_nat (m - 1));
  let d := md - 1 + b in
  let d := if (2 <? m) && is_leap y then d + 1 else d in
  let d := d + Z.rem y 100 * 365 in
  let d := if 0 <? Z.rem y 100 then d + Z.quot (Z.rem y 100 - 1) 4 else d in
  let d := d + (Z.quot y 100 - 20) * (100 * 365 + 24) in
  Ok (d + (Z.quot (y - 1) 400 - 4)).

(** The checks of the parts, and the time. *)
Definition time_of (w : Z) (dt : date) : outcome (option Z) :=
  let '(y, m, md, (h, mi, s)) := dt in
  if (s <? 0) || (60 <? s) then Ok None
  else if (mi <? 0) || (59 <? mi) then Ok None
  else if (h <? 0) || (23 <? h) then Ok None
  else if (m <? 1) || (12 <? m) then Ok None
  else
    dim ← readC days_in_month (Z.to_nat (m - 1));
    if (md <? 1) || (dim <? md) then Ok None
    else if y <? 1899 then Ok None
    else if (m =? 2) && (28 <? md) && negb (is_leap y) then Ok None
    else
      let s := if s =? 60 then s - 1 else s in
      d ← day_number y m md;
      if negb (w =? -1) && negb (Z.rem (d + 6 + 7 * 10000) 7 =? w) then Ok None
      else Ok (Some ((h * 60 + mi) * 60 + s + d * 86400 + 10957 * 86400)).

(** Zero on failure. *)
Definition VTIM_parse (postel : bool) (p : option (list Z)) : outcome Z :=
  match p with
  | None => Ok 0
  | Some p =>
      c ← readC p 0;
      if c =? 0 then Ok 0
      else
        p ← skip (fun c => c =? 32) p;
        r ← date_of postel p;
        match r with
        | None => Ok 0
        | Some ((w, dt), p) =>
            p ← skip (fun c => c =? 32) p;
            c ← readC p 0;
            if negb (c =? 0) then Ok 0 else t ← time_of w dt; Ok (default 0 t)
        end
  end.

(** ** Printing *)

(** [gmtime_r]: the day within its year, the year within the calendar. *)
Definition leap_year (y : Z) : bool := (y `mod` 4 =? 0) && (negb (y `mod` 100 =? 0) || (y `mod` 400 =? 0)).
Definition year_len (y : Z) : Z := if leap_year y then 366 else 365.
Definition month_len (y m : Z) : Z := if (m =? 2) && negb (leap_year y) then 28 else nth (Z.to_nat (m - 1)) [31; 29; 31; 30; 31; 30; 31; 31; 30; 31; 30; 31] 0.
(** The year of the [d]-th day from the first of [y], and the day in it. *)
Fixpoint find_year (fuel : nat) (y d : Z) : option (Z * Z) :=
  match fuel with
  | O => None
  | S fuel =>
      if d <? 0 then find_year fuel (y - 1) (d + year_len (y - 1))
      else if year_len y <=? d then find_year fuel (y + 1) (d - year_len y) else Some (y, d)
  end.
Fixpoint find_month (fuel : nat) (y m d : Z) : option (Z * Z) :=
  match fuel with
  | O => None
  | S fuel => if month_len y m <=? d then find_month fuel y (m + 1) (d - month_len y m) else Some (m, d)
  end.
(** [tm_year + 1900], [tm_mon + 1], [tm_mday], [tm_wday] and the time of day; years
    that do not fit in [tm_year] are NULL. *)
Definition gmtime_r (fuel : nat) (tt : Z) : outcome (option (Z * Z * Z * Z * (Z * Z * Z))) :=
  let days := tt `div` 86400 in
  let s := tt `mod` 86400 in
  match find_year fuel 1970 days with
  | None => Fault FFuel
  | Some (y, d) =>
      if (y - 1900 <? - 2 ^ 31) || (2 ^ 31 <=? y - 1900) then Ok None
      else
        match find_month 12 y 1 d with
        | None => Fault FFuel
        | Some (m, d) => Ok (Some (y, m, d + 1, (days + 4) `mod` 7, (s `div` 3600, (s `div` 60) `mod` 60, s `mod` 60)))
        end
  end.

(** "%02d" and "%4d". *)
Definition pad (c : Z) (n : nat) (s : list Z) : list Z := replicate (n - length s) c ++ s.
Definition VTIM_FORMAT_SIZE : nat := 30.

(** The string that is in [p]. *)
Definition VTIM_format (fuel : nat) (t : Z) : outcome (list Z) :=
  if (t <? - 2 ^ 63) || (2 ^ 63 <? t) then Ok []
  else if t =? 2 ^ 63 then Fault FUndef
  else
    tm ← gmtime_r fuel t;
    match tm with
    | None => Ok []
    | Some (y, m, d, w, (h, mi, s)) =>
        wn ← readC weekday_name (Z.to_nat w);
        mn ← readC month_name (Z.to_nat (m - 1));
        Ok (snprintf VTIM_FORMAT_SIZE (wn ++ [44; 32] ++ pad 48 2 (fmt_d d) ++ [32] ++ mn ++ [32] ++ pad 32 4 (fmt_d y) ++ [32] ++
              pad 48 2 (fmt_d h) ++ [58] ++ pad 48 2 (fmt_d mi) ++ [58] ++ pad 48 2 (fmt_d s) ++ str " GMT"))
    end.

(** ** Durations for the system's calls *)

(** The seconds, and the rest in units of which a second has [per]. *)
Definition split_seconds (per : Z) (t : dbl) : outcome (Z * Z) :=
  _ ← assertC (negb (isnan t));
  sec ← to_int (- 2 ^ 63) (2 ^ 63 - 1) t;
  rest ← to_int (- 2 ^ 31) (2 ^ 31 - 1) (dmul (d_of per) (dsub t (d_of sec)));
  Ok (sec, rest).
Definition VTIM_timeval (t : dbl) : outcome (Z * Z) := split_seconds (10 ^ 6) t.
Definition VTIM_timespec (t : dbl) : outcome (Z * Z) := split_seconds (10 ^ 9) t.
Definition vmax (a b : dbl) : dbl := if dlt b a then a else b.
Definition VTIM_timeval_sock (t : dbl) : outcome (Z * Z) := VTIM_timeval (if isinf t then d_of 0 else vmax t (d_lit 1 1000)).
Definition VTIM_poll_tmo (tmo : dbl) : outcome Z :=
  if isinf tmo then Ok (-1)
  else _ ← assertC (negb (isnan tmo)); v ← to_int (- 2 ^ 31) (2 ^ 31 - 1) (dmul tmo (d_of 1000)); Ok (Z.max 0 v).

(** 1.5 and 0.0001 seconds, and waiting for ever when a time without end has passed. *)
Lemma durations : VTIM_timespec (d_lit 3 2) = Ok (1, 500000000) /\ VTIM_timeval_sock (d_lit 1 10000) = Ok (0, 1000) /\ VTIM_poll_tmo (d_lit (-3) 2) = Ok 0 /\ VTIM_poll_tmo (S754_infinity true) = Ok (-1).
Proof. by vm_compute. Qed.
