(* ===== verification/VtimSpec.v ===== *)
(** * Dates and seconds (lib/vtim.c)

    [before] counts the days before a year in the Gregorian calendar.  What
    VTIM_format prints for a time is read back, and so is the same second in
    each of the other formats. *)

From Stdlib Require Import ZArith Lia ZifyBool String.
From stdpp Require Import base option numbers list.
From S2P Require Import Prelude CStr HpackData VtcSubr Vtim.
#[local] Open Scope Z_scope.
#[local] Open Scope vtim_scope.

(** ** The calendar *)

Definition before (y : Z) : Z := 365 * y + (y - 1) `div` 4 - (y - 1) `div` 100 + (y - 1) `div` 400.
(** The days of a year before a month. *)
Fixpoint months_before (y : Z) (n : nat) : Z := match n with O => 0 | S n => months_before y n + month_len y (Z.of_nat n + 1) end.
(** Days since 1970-01-01. *)
Definition day_of (y m d : Z) : Z := before y - before 1970 + months_before y (Z.to_nat (m - 1)) + d - 1.
Definition valid_date (y m d : Z) : Prop := 1899 <= y <= 9999 /\ 1 <= m <= 12 /\ 1 <= d <= month_len y m.
Definition valid_time (h mi s : Z) : Prop := 0 <= h < 24 /\ 0 <= mi < 60 /\ 0 <= s < 60.
Definition seconds (y m d h mi s : Z) : Z := day_of y m d * 86400 + h * 3600 + mi * 60 + s.

Lemma before_next y : before (y + 1) = before y + year_len y.
Proof. unfold before, year_len, leap_year. replace (y + 1 - 1) with y by lia. destruct ((y `mod` 4 =? 0) && (negb (y `mod` 100 =? 0) || (y `mod` 400 =? 0))) eqn:E; Z.to_euclidean_division_equations; lia. Qed.

Lemma year_len_range y : 365 <= year_len y <= 366.
Proof. unfold year_len. destruct (leap_year y); lia. Qed.

Lemma before_mono a b : a <= b -> before a <= before b.
Proof.
  intros H. replace b with (a + Z.of_nat (Z.to_nat (b - a))) by lia. induction (Z.to_nat (b - a)) as [|n IH]; [by rewrite Z.add_0_r|].
  rewrite Nat2Z.inj_succ. replace (a + Z.succ (Z.of_nat n)) with (a + Z.of_nat n + 1) by lia. rewrite before_next. pose proof (year_len_range (a + Z.of_nat n)). lia.
Qed.

(** A fact about each number of a range. *)
Lemma all_in (f : Z -> bool) (lo : Z) (n : nat) x : forallb (fun k => f (lo + Z.of_nat k)) (seq 0 n) = true -> lo <= x < lo + Z.of_nat n -> f x = true.
Proof.
  intros H Hx. rewrite forallb_forall in H. specialize (H (Z.to_nat (x - lo))). rewrite in_seq in H. replace (lo + Z.of_nat (Z.to_nat (x - lo))) with x in H by lia. apply H. lia.
Qed.

(** The year in [day_number]. *)
Definition year_days (y : Z) : Z :=
  Z.rem y 100 * 365 + (if 0 <? Z.rem y 100 then Z.quot (Z.rem y 100 - 1) 4 else 0) + (Z.quot y 100 - 20) * (100 * 365 + 24) + (Z.quot (y - 1) 400 - 4).
Lemma year_days_ok y : 1899 <= y <= 9999 -> year_days y = before y - before 2000 /\ is_leap y = leap_year y.
Proof.
  intros Hy. assert ((year_days y =? before y - before 2000) && Bool.eqb (is_leap y) (leap_year y) = true) as H by (apply (all_in (fun y => (year_days y =? before y - before 2000) && Bool.eqb (is_leap y) (leap_year y)) 1899 (Z.to_nat 8101)); [by vm_compute|lia]).
  apply andb_true_iff in H as [H1 H2]. split; [lia|by apply Bool.eqb_prop].
Qed.

Ltac by_month m :=
  let H := fresh in
  assert (m = 1 \/ m = 2 \/ m = 3 \/ m = 4 \/ m = 5 \/ m = 6 \/ m = 7 \/ m = 8 \/ m = 9 \/ m = 10 \/ m = 11 \/ m = 12) as H by lia;
  repeat destruct H as [H|H]; subst m;
  repeat match goal with |- context [Z.to_nat (?a - 1)] => let k := eval vm_compute in (Z.to_nat (a - 1)) in change (Z.to_nat (a - 1)) with k end.
Lemma months_before_ok y m : 1 <= m <= 12 -> exists b, readC days_before_month (Z.to_nat (m - 1)) = Ok b /\ b + (if (2 <? m) && leap_year y then 1 else 0) = months_before y (Z.to_nat (m - 1)).
Proof.
  intros Hm. by_month m; (eexists; split; [reflexivity|]); cbn [months_before]; unfold month_len; destruct (leap_year y); reflexivity.
Qed.

Lemma day_number_ok y m d : 1899 <= y <= 9999 -> 1 <= m <= 12 -> day_number y m d = Ok (day_of y m d - 10957).
Proof.
  intros Hy Hm. unfold day_number. destruct (months_before_ok y m Hm) as (b & -> & Hb). destruct (year_days_ok y Hy) as [Hyd ->]. cbn [mbind outcome_bind]. f_equal. unfold day_of, year_days in *.
  change (before 2000) with (before 1970 + 10957) in Hyd. destruct ((2 <? m) && leap_year y), (0 <? Z.rem y 100); lia.
Qed.

Lemma month_len_max y m : 1 <= m <= 12 -> exists n, readC days_in_month (Z.to_nat (m - 1)) = Ok n /\ month_len y m <= n /\ (m <> 2 -> n = month_len y m) /\ (m = 2 -> n = 29 /\ month_len y m = if leap_year y then 29 else 28).
Proof.
  intros Hm. by_month m; (eexists; split; [reflexivity|]); unfold month_len; destruct (leap_year y); cbn; repeat match goal with |- context [Z.to_nat ?a] => let k := eval vm_compute in (Z.to_nat a) in change (Z.to_nat a) with k end; cbn; repeat split; lia.
Qed.

(** The time of a date with its weekday, or without. *)
Lemma time_of_ok w y m d h mi s : valid_date y m d -> valid_time h mi s -> w = -1 \/ w = (day_of y m d + 4) `mod` 7 -> time_of w (y, m, d, (h, mi, s)) = Ok (Some (seconds y m d h mi s)).
Proof.
  intros (Hy & Hm & Hd) (Hh & Hmi & Hs) Hw. unfold time_of. destruct (month_len_max y m Hm) as (n & -> & Hn & Hn1 & Hn2).
  replace ((s <? 0) || (60 <? s)) with false by lia. replace ((mi <? 0) || (59 <? mi)) with false by lia. replace ((h <? 0) || (23 <? h)) with false by lia. replace ((m <? 1) || (12 <? m)) with false by lia. cbn [mbind outcome_bind].
  replace ((d <? 1) || (n <? d)) with false by lia. replace (y <? 1899) with false by lia. destruct (year_days_ok y Hy) as [Hyd ->].
  assert ((m =? 2) && (28 <? d) && negb (leap_year y) = false) as -> by (destruct (leap_year y) eqn:E; [by rewrite andb_false_r|]; destruct (m =? 2) eqn:E2; [destruct Hn2 as [_ Hn2]; lia|done]).
  replace (s =? 60) with false by lia. rewrite day_number_ok by done. cbn [mbind outcome_bind].
  assert (0 <= day_of y m d + 25932) as Hge.
  { unfold day_of. assert (before 1899 <= before y) by (apply before_mono; lia). change (before 1899) with (before 1970 - 25932) in *. assert (0 <= months_before y (Z.to_nat (m - 1))); [|lia].
    destruct (months_before_ok y m Hm) as (b & Hb & <-). assert (0 <= b); [|destruct (_ && _); lia]. apply readC_ok in Hb. assert (Forall (fun b => 0 <= b) days_before_month) as Hf by (repeat constructor; lia). eapply Forall_lookup in Hf; [|exact Hb]. done. }
  assert (negb (w =? -1) && negb (Z.rem (day_of y m d - 10957 + 6 + 7 * 10000) 7 =? w) = false) as ->.
  { destruct Hw as [->| ->]; [done|]. rewrite Z.rem_mod_nonneg by lia. apply andb_false_iff. right. apply negb_false_iff, Z.eqb_eq. Z.to_euclidean_division_equations; lia. }
  do 2 f_equal. unfold seconds. lia.
Qed.

(** ** The date of a time *)

Lemma month_len_pos y m : 0 <= month_len y m.
Proof.
  unfold month_len. destruct (_ && _); [lia|]. destruct (nth_in_or_default (Z.to_nat (m - 1)) [31; 29; 31; 30; 31; 30; 31; 31; 30; 31; 30; 31] 0) as [H| ->]; [|done].
  revert H. generalize (nth (Z.to_nat (m - 1)) [31; 29; 31; 30; 31; 30; 31; 31; 30; 31; 30; 31] 0). intros z H. repeat destruct H as [<-|H]; try lia. destruct H.
Qed.
Lemma months_before_pos y n : 0 <= months_before y n <= months_before y (S n).
Proof. induction n as [|n IH]; cbn [months_before] in *; [pose proof (month_len_pos y (Z.of_nat 0 + 1))|pose proof (month_len_pos y (Z.of_nat (S n) + 1))]; lia. Qed.
Lemma months_before_mono y a b : (a <= b)%nat -> months_before y a <= months_before y b.
Proof. induction 1 as [|b _ IH]; [done|]. pose proof (months_before_pos y b). lia. Qed.
Lemma months_before_year y : months_before y 12 = year_len y.
Proof. cbn [months_before]. unfold month_len, year_len. destruct (leap_year y); reflexivity. Qed.

(** The step in which a sequence passes a number. *)
Lemma passed (f : nat -> Z) x n : f O <= x < f n -> exists i, (i < n)%nat /\ f i <= x < f (S i).
Proof. induction n as [|n IH]; [lia|]. intros H. destruct (Z_lt_dec x (f n)); [destruct IH as (i & Hi & H'); [lia|]; exists i; auto with lia|exists n; lia]. Qed.

Lemma find_year_ok fuel Y D y d : 0 <= D < year_len Y -> before y + d = before Y + D -> (Z.to_nat (Z.abs (y - Y)) < fuel)%nat -> find_year fuel y d = Some (Y, D).
Proof.
  intros HD. revert y d. induction fuel as [|fuel IH]; intros y d He Hf; [lia|]. cbn [find_year]. pose proof (before_next Y). pose proof (before_next y). pose proof (before_next (y - 1)) as Hp. replace (y - 1 + 1) with y in Hp by lia.
  destruct (d <? 0) eqn:E.
  - assert (Y < y) by (destruct (Z_lt_dec Y y); [done|]; pose proof (before_mono y Y); lia). apply IH; lia.
  - destruct (year_len y <=? d) eqn:E2.
    + assert (y < Y) by (destruct (Z_lt_dec y Y); [done|]; pose proof (before_mono (Y + 1) (y + 1)); lia). apply IH; lia.
    + assert (y = Y) as ->; [|do 2 f_equal; lia]. destruct (Z.lt_trichotomy y Y) as [H1|[H1|H1]]; [|done|]; [pose proof (before_mono (y + 1) Y)|pose proof (before_mono (Y + 1) y)]; lia.
Qed.

Lemma find_month_ok y m d fuel k : 1 <= d <= month_len y m -> 1 <= k <= m -> (Z.to_nat (m - k) < fuel)%nat -> find_month fuel y k (months_before y (Z.to_nat (m - 1)) - months_before y (Z.to_nat (k - 1)) + d - 1) = Some (m, d - 1).
Proof.
  intros Hd. revert k. induction fuel as [|fuel IH]; intros k Hk Hf; [lia|]. cbn [find_month]. destruct (decide (k = m)) as [->|Hne].
  - replace (_ - _ + d - 1) with (d - 1) by lia. by replace (month_len y m <=? d - 1) with false by lia.
  - assert (months_before y (Z.to_nat k) = months_before y (Z.to_nat (k - 1)) + month_len y k) as Hs by (replace (Z.to_nat k) with (S (Z.to_nat (k - 1))) by lia; cbn [months_before]; do 2 f_equal; lia).
    pose proof (months_before_mono y (Z.to_nat k) (Z.to_nat (m - 1))). replace (month_len y k <=? _) with true by lia. rewrite <-(IH (k + 1)) by lia. f_equal. replace (k + 1 - 1) with k by lia. lia.
Qed.

Definition weekday (y m d : Z) : Z := (day_of y m d + 4) `mod` 7.

Lemma gmtime_r_ok fuel y m d h mi s : (Z.to_nat 10000 <= fuel)%nat -> valid_date y m d -> valid_time h mi s -> gmtime_r fuel (seconds y m d h mi s) = Ok (Some (y, m, d, weekday y m d, (h, mi, s))).
Proof.
  intros Hf (Hy & Hm & Hd) (Hh & Hmi & Hs). unfold gmtime_r. assert (seconds y m d h mi s `div` 86400 = day_of y m d /\ seconds y m d h mi s `mod` 86400 = h * 3600 + mi * 60 + s) as [-> ->] by (unfold seconds; Z.to_euclidean_division_equations; lia).
  assert (0 <= months_before y (Z.to_nat (m - 1)) + d - 1 < year_len y) as Hr.
  { rewrite <-months_before_year. pose proof (months_before_pos y (Z.to_nat (m - 1))). assert (months_before y (S (Z.to_nat (m - 1))) <= months_before y 12) by (apply months_before_mono; lia). cbn [months_before] in *. replace (Z.of_nat (Z.to_nat (m - 1)) + 1) with m in * by lia. lia. }
  rewrite (find_year_ok _ y (months_before y (Z.to_nat (m - 1)) + d - 1)) by (try (unfold day_of); lia). replace (_ || _) with false by lia.
  pose proof (find_month_ok y m d 12 1) as Hfm. cbn [months_before Z.to_nat Z.sub Z.opp Z.add Z.pos_sub] in Hfm. rewrite Z.sub_0_r in Hfm. rewrite Hfm by lia.
  replace (d - 1 + 1) with d by lia. unfold weekday. do 4 f_equal; [f_equal|]; Z.to_euclidean_division_equations; lia.
Qed.

(** Each time is the time of a date. *)
Lemma date_exists t : seconds 1899 1 1 0 0 0 <= t < seconds 10000 1 1 0 0 0 -> exists y m d h mi s, valid_date y m d /\ valid_time h mi s /\ t = seconds y m d h mi s.
Proof.
  intros Ht. destruct (passed (fun i => before (1899 + Z.of_nat i) - before 1970) (t `div` 86400) (Z.to_nat 8101)) as (i & Hi & Hy); [change (seconds 1899 1 1 0 0 0) with ((before 1899 - before 1970) * 86400) in Ht; change (seconds 10000 1 1 0 0 0) with ((before 10000 - before 1970) * 86400) in Ht; replace (1899 + Z.of_nat 0) with 1899 by lia; replace (1899 + Z.of_nat (Z.to_nat 8101)) with 10000 by lia; Z.to_euclidean_division_equations; lia|].
  set (y := 1899 + Z.of_nat i) in *. replace (1899 + Z.of_nat (S i)) with (y + 1) in Hy by lia. rewrite before_next in Hy.
  destruct (passed (months_before y) (t `div` 86400 - (before y - before 1970)) 12) as (j & Hj & Hd); [rewrite months_before_year; cbn [months_before]; lia|]. cbn [months_before] in Hd.
  exists y, (Z.of_nat j + 1), (t `div` 86400 - (before y - before 1970) - months_before y j + 1), ((t `mod` 86400) `div` 3600), ((t `div` 60) `mod` 60), (t `mod` 60).
  unfold valid_date, valid_time, seconds, day_of. replace (Z.to_nat (Z.of_nat j + 1 - 1)) with j by lia. repeat split; try lia; Z.to_euclidean_division_equations; lia.
Qed.

(** ** The texts of a date *)

Definition d2 (n : Z) : list Z := [48 + n `div` 10; 48 + n `mod` 10].
Definition d4 (n : Z) : list Z := [48 + n `div` 1000; 48 + (n `div` 100) `mod` 10; 48 + (n `div` 10) `mod` 10; 48 + n `mod` 10].
Definition day_names : list string := ["Sunday"; "Monday"; "Tuesday"; "Wednesday"; "Thursday"; "Friday"; "Saturday"]%string.
Definition month_names : list string :=
  ["January"; "February"; "March"; "April"; "May"; "June"; "July"; "August"; "September"; "October"; "November"; "December"]%string.
(** The first three letters of a name, and the others. *)
Definition wday (w : Z) : list Z := take 3 (str (nth (Z.to_nat w) day_names EmptyString)).
Definition wday_more (w : Z) : list Z := drop 3 (str (nth (Z.to_nat w) day_names EmptyString)).
Definition mname (m : Z) : list Z := take 3 (str (nth (Z.to_nat (m - 1)) month_names EmptyString)).
Definition clock (h mi s : Z) : list Z := d2 h ++ [58] ++ d2 mi ++ [58] ++ d2 s.

Definition rfc1123_text (y m d h mi s : Z) : list Z :=
  wday (weekday y m d) ++ str ", " ++ d2 d ++ str " " ++ mname m ++ str " " ++ d4 y ++ str " " ++ clock h mi s ++ str " GMT".
Definition iso8601_text (y m d h mi s : Z) : list Z := d4 y ++ str "-" ++ d2 m ++ str "-" ++ d2 d ++ str "T" ++ clock h mi s.
Definition asctime_text (y m d h mi s : Z) : list Z :=
  wday (weekday y m d) ++ str " " ++ mname m ++ str " " ++ (if d <? 10 then [32; 48 + d] else d2 d) ++ str " " ++ clock h mi s ++ str " " ++ d4 y.
Definition rfc850_text (y m d h mi s : Z) : list Z :=
  wday (weekday y m d) ++ wday_more (weekday y m d) ++ str ", " ++ d2 d ++ str "-" ++ mname m ++ str "-" ++ d2 (y `mod` 100) ++ str " " ++ clock h mi s ++ str " GMT".

Lemma d2_pad n : 0 <= n < 100 -> pad 48 2 (fmt_d n) = d2 n.
Proof. intros H. refine (bool_decide_eq_true_1 _ (all_in (fun n => bool_decide (pad 48 2 (fmt_d n) = d2 n)) 0 100 n _ _)); [by vm_compute|lia]. Qed.
Lemma d4_pad n : 1899 <= n <= 9999 -> pad 32 4 (fmt_d n) = d4 n.
Proof. intros H. refine (bool_decide_eq_true_1 _ (all_in (fun n => bool_decide (pad 32 4 (fmt_d n) = d4 n)) 1899 (Z.to_nat 8101) n _ _)); [by vm_compute|lia]. Qed.

Lemma readC_0 {A} (c : A) p : readC (c :: p) 0 = Ok c.
Proof. reflexivity. Qed.
Lemma then_some {A B} (a : A) p (k : A -> parser B) : then_ (Ok (Some (a, p))) k = k a p.
Proof. reflexivity. Qed.
Lemma DIGIT_ok mult fld k p : 0 <= k <= 9 -> DIGIT mult fld (48 + k :: p) = Ok (Some (fld + k * mult, p)).
Proof. intros H. unfold DIGIT. rewrite readC_0. cbn [mbind outcome_bind drop]. replace (_ || _) with false by lia. by replace (48 + k - 48) with k by lia. Qed.
Lemma MUSTBE_ok c p : MUSTBE c (c :: p) = Ok (Some (tt, p)).
Proof. unfold MUSTBE. rewrite readC_0. cbn [mbind outcome_bind]. by rewrite Z.eqb_refl. Qed.

Lemma two_digits {A} n p (k : Z -> parser A) : 0 <= n < 100 -> then_ (DIGIT 10 0 (d2 n ++ p)) (fun x => fun p => then_ (DIGIT 1 x p) k) = k n p.
Proof. intros H. unfold d2. cbn [app]. rewrite DIGIT_ok by (Z.to_euclidean_division_equations; lia). rewrite then_some, DIGIT_ok by (Z.to_euclidean_division_equations; lia). rewrite then_some. f_equal. Z.to_euclidean_division_equations; lia. Qed.
Lemma MDAY2_ok n p : 0 <= n < 100 -> MDAY2 (d2 n ++ p) = Ok (Some (n, p)).
Proof. intros H. unfold MDAY2, d2. cbn [app]. rewrite DIGIT_ok by (Z.to_euclidean_division_equations; lia). rewrite then_some, DIGIT_ok by (Z.to_euclidean_division_equations; lia). do 3 f_equal. Z.to_euclidean_division_equations; lia. Qed.
Lemma YEAR4_ok n p : 0 <= n <= 9999 -> YEAR4 (d4 n ++ p) = Ok (Some (n, p)).
Proof. intros H. unfold YEAR4, d4. cbn [app]. do 3 rewrite DIGIT_ok, then_some by (Z.to_euclidean_division_equations; lia). rewrite DIGIT_ok by (Z.to_euclidean_division_equations; lia). do 3 f_equal. Z.to_euclidean_division_equations; lia. Qed.
Lemma TIMESTAMP_ok h mi s p : valid_time h mi s -> TIMESTAMP (clock h mi s ++ p) = Ok (Some ((h, mi, s), p)).
Proof.
  intros (Hh & Hm & Hs). unfold TIMESTAMP, clock. rewrite <-!app_assoc. rewrite two_digits by lia. cbn [app]. rewrite MUSTBE_ok, then_some, two_digits by lia. cbn [app]. rewrite MUSTBE_ok, then_some, two_digits by lia. done.
Qed.
Lemma GMT_ok p : GMT (32 :: 71 :: 77 :: 84 :: p) = Ok (Some (tt, p)).
Proof. reflexivity. Qed.

Lemma MONTH_ok m p : 1 <= m <= 12 -> MONTH (mname m ++ p) = Ok (Some (m, p)).
Proof. intros Hm. by_month m; reflexivity. Qed.
Lemma week_cases w : 0 <= w < 7 -> w = 0 \/ w = 1 \/ w = 2 \/ w = 3 \/ w = 4 \/ w = 5 \/ w = 6.
Proof. lia. Qed.
Lemma WEEKDAY_ok w p : 0 <= w < 7 -> WEEKDAY (wday w ++ p) = Ok (Some (w, p)).
Proof. intros [->|[->|[->|[->|[->|[->| ->]]]]]]%week_cases; reflexivity. Qed.

(** ** Reading a date back *)

Ltac literals := repeat match goal with |- context [str ?s] => let v := eval vm_compute in (str s) in change (str s) with v end; rewrite <-?app_assoc; cbn [app].
(** One part of a date. *)
Ltac part := (first [rewrite MUSTBE_ok|rewrite MDAY2_ok by lia|rewrite YEAR4_ok by lia|rewrite TIMESTAMP_ok by done|rewrite MONTH_ok by done|rewrite WEEKDAY_ok by done|rewrite GMT_ok|rewrite two_digits by lia]); rewrite ?then_some.

Lemma iso8601_ok y m d h mi s p : 0 <= y <= 9999 -> 0 <= m < 100 -> 0 <= d < 100 -> valid_time h mi s -> iso8601 (iso8601_text y m d h mi s ++ p) = Ok (Some ((y, m, d, (h, mi, s)), p)).
Proof. intros Hy Hm Hd Ht. unfold iso8601, iso8601_text. literals. repeat part. done. Qed.

Lemma rfc1123_ok postel y m d h mi s p : 0 <= y <= 9999 -> 1 <= m <= 12 -> 0 <= d < 100 -> valid_time h mi s ->
  rfc1123 postel (str " " ++ d2 d ++ str " " ++ mname m ++ str " " ++ d4 y ++ str " " ++ clock h mi s ++ str " GMT" ++ p) = Ok (Some ((y, m, d, (h, mi, s)), p)).
Proof.
  intros Hy Hm Hd Ht. unfold rfc1123. literals. part.
  assert (forall q, readC (d2 d ++ q) 0 = Ok (48 + d `div` 10) /\ readC (d2 d ++ q) 1 = Ok (48 + d `mod` 10)) as Hr by done. destruct (Hr (32 :: mname m ++ 32 :: d4 y ++ 32 :: clock h mi s ++ 32 :: 71 :: 77 :: 84 :: p)) as [-> ->]. cbn [mbind outcome_bind].
  replace (48 + d `mod` 10 =? 32) with false by (Z.to_euclidean_division_equations; lia). destruct (postel && _); cbn [mbind outcome_bind]; repeat part; done.
Qed.

Lemma asctime_ok y m d h mi s p : 0 <= y <= 9999 -> 1 <= m <= 12 -> 0 <= d < 100 -> valid_time h mi s ->
  asctime (mname m ++ str " " ++ (if d <? 10 then [32; 48 + d] else d2 d) ++ str " " ++ clock h mi s ++ str " " ++ d4 y ++ p) = Ok (Some ((y, m, d, (h, mi, s)), p)).
Proof.
  intros Hy Hm Hd Ht. unfold asctime. literals. part. part. destruct (d <? 10) eqn:E.
  - cbn [app]. rewrite readC_0. cbn [mbind outcome_bind drop]. change (negb (32 =? 32)) with false. cbn match. rewrite then_some, DIGIT_ok by lia. rewrite then_some. repeat part. replace (0 + d * 1) with d by lia. done.
  - unfold d2. cbn [app]. rewrite readC_0. cbn [mbind outcome_bind]. replace (negb _) with true by (Z.to_euclidean_division_equations; lia). rewrite DIGIT_ok by (Z.to_euclidean_division_equations; lia). rewrite then_some, DIGIT_ok by (Z.to_euclidean_division_equations; lia). rewrite then_some.
    repeat part. replace (_ + _) with d by (Z.to_euclidean_division_equations; lia). done.
Qed.

Lemma rfc850_ok y m d h mi s p : 1969 <= y <= 2068 -> 1 <= m <= 12 -> 0 <= d < 100 -> valid_time h mi s ->
  rfc850 (str ", " ++ d2 d ++ str "-" ++ mname m ++ str "-" ++ d2 (y `mod` 100) ++ str " " ++ clock h mi s ++ str " GMT" ++ p) = Ok (Some ((y, m, d, (h, mi, s)), p)).
Proof.
  intros Hy Hm Hd Ht. unfold rfc850. literals. assert (0 <= y `mod` 100 < 100) by (Z.to_euclidean_division_equations; lia). repeat part. unfold done_.
  do 6 f_equal. destruct (_ <? 1969) eqn:E; Z.to_euclidean_division_equations; lia.
Qed.

Lemma weekday_name_ok w : 0 <= w < 7 -> readC weekday_name (Z.to_nat w) = Ok (wday w).
Proof. intros [->|[->|[->|[->|[->|[->| ->]]]]]]%week_cases; reflexivity. Qed.
Lemma month_name_ok m : 1 <= m <= 12 -> readC month_name (Z.to_nat (m - 1)) = Ok (mname m).
Proof. intros Hm. by_month m; reflexivity. Qed.

Lemma wday_len w : 0 <= w < 7 -> length (wday w) = 3%nat.
Proof. intros [->|[->|[->|[->|[->|[->| ->]]]]]]%week_cases; reflexivity. Qed.
Lemma mname_len m : 1 <= m <= 12 -> length (mname m) = 3%nat.
Proof. intros Hm. by_month m; reflexivity. Qed.

Lemma format_ok y m d h mi s : valid_date y m d -> 0 <= d < 100 -> valid_time h mi s -> -2 ^ 63 <= seconds y m d h mi s < 2 ^ 63 -> VTIM_format (Z.to_nat 10000) (seconds y m d h mi s) = Ok (rfc1123_text y m d h mi s).
Proof.
  intros Hv Hd Ht Hr. unfold VTIM_format. replace (_ || _) with false by lia. replace (_ =? 2 ^ 63) with false by lia. rewrite gmtime_r_ok by done. cbn [mbind outcome_bind].
  destruct Hv as (Hy & Hm & _). destruct Ht as (Hh & Hmi & Hs). assert (0 <= weekday y m d < 7) as Hw by (apply Z.mod_pos_bound; lia).
  rewrite weekday_name_ok, month_name_ok by done. cbn [mbind outcome_bind]. rewrite !d2_pad, d4_pad by lia. f_equal. unfold snprintf. rewrite firstn_all2; [unfold rfc1123_text, clock; literals; done|].
  rewrite !length_app, wday_len, mname_len by done. cbn. lia.
Qed.

(** What [VTIM_parse] does with the parts. *)
Lemma date_of_digit postel k p dt q : 0 <= k <= 9 -> iso8601 (48 + k :: p) = Ok (Some (dt, q)) -> date_of postel (48 + k :: p) = Ok (Some ((-1, dt), q)).
Proof. intros Hk He. unfold date_of. rewrite readC_0. cbn [mbind outcome_bind]. replace (_ && _) with true by lia. by rewrite He, then_some. Qed.
Lemma wday_alpha w p : 0 <= w < 7 -> exists c q, wday w ++ p = c :: q /\ 65 <= c <= 90.
Proof. intros [->|[->|[->|[->|[->|[->| ->]]]]]]%week_cases; do 2 eexists; (split; [reflexivity|split; by vm_compute]). Qed.
Lemma date_of_name postel w p : 0 <= w < 7 ->
  date_of postel (wday w ++ p) =
  (c ← readC p 0;
   if c =? 44 then (d <~ rfc1123 postel;; done_ (w, d)) (drop 1 p)
   else if c =? 32 then (d <~ asctime;; done_ (w, d)) (drop 1 p)
   else more ← readC more_weekday (Z.to_nat w); eq ← memeq p more; if eq : bool then (d <~ rfc850;; done_ (w, d)) (drop (length more) p) else Ok None).
Proof.
  intros Hw. unfold date_of. destruct (wday_alpha w p Hw) as (c & q & He & Hc). rewrite He, readC_0, <-He. cbn [mbind outcome_bind]. replace (_ && _) with false by lia.
  rewrite WEEKDAY_ok, then_some by done. cbn beta. unfold assertC. by replace ((0 <=? w) && (w <=? 6)) with true by lia.
Qed.
Lemma date_of_more postel w p : 0 <= w < 7 -> date_of postel (wday w ++ wday_more w ++ p) = (d <~ rfc850;; done_ (w, d)) p.
Proof. intros Hw. rewrite date_of_name by done. apply week_cases in Hw as [->|[->|[->|[->|[->|[->| ->]]]]]]; reflexivity. Qed.

Lemma parse_date postel s w y m d h mi sec : date_of postel (s ++ [0]) = Ok (Some ((w, (y, m, d, (h, mi, sec))), [0])) -> (exists c q, s = c :: q /\ 33 <= c) ->
  valid_date y m d -> valid_time h mi sec -> w = -1 \/ w = weekday y m d -> VTIM_parse postel (Some (s ++ [0])) = Ok (seconds y m d h mi sec).
Proof.
  intros Hd (c & q & -> & Hc) Hv Ht Hw. unfold VTIM_parse. cbn [app] in *. rewrite readC_0. cbn [mbind outcome_bind]. replace (c =? 0) with false by lia. rewrite skip_stop by lia. cbn [mbind outcome_bind]. rewrite Hd. cbn [mbind outcome_bind].
  rewrite skip_stop by done. cbn [mbind outcome_bind]. rewrite readC_0. cbn [mbind outcome_bind]. change (negb (0 =? 0)) with false. cbn match. by rewrite time_of_ok.
Qed.

(** The text of a lemma as it stands in the goal. *)
Ltac read_back H := let Hp := fresh in epose proof H as Hp; revert Hp; literals; intros Hp; rewrite Hp by (done || lia); by rewrite then_some.

(** C35: Every time from the years 1899 to 9999 is printed as the RFC1123 text of its date
    in the Gregorian calendar, and parsing that text, its ISO8601 and asctime
    forms, and its RFC850 form in the years 1969 to 2068, which the code takes two
    digits for, gives the same time back.  Times are whole seconds. *)
Theorem vtim_roundtrip postel t : seconds 1899 1 1 0 0 0 <= t < seconds 10000 1 1 0 0 0 ->
  exists y m d h mi s, valid_date y m d /\ valid_time h mi s /\ seconds y m d h mi s = t /\
    VTIM_format (Z.to_nat 10000) t = Ok (rfc1123_text y m d h mi s) /\
    VTIM_parse postel (Some (rfc1123_text y m d h mi s ++ [0])) = Ok t /\
    VTIM_parse postel (Some (iso8601_text y m d h mi s ++ [0])) = Ok t /\
    VTIM_parse postel (Some (asctime_text y m d h mi s ++ [0])) = Ok t /\
    (1969 <= y <= 2068 -> VTIM_parse postel (Some (rfc850_text y m d h mi s ++ [0])) = Ok t).
Proof.
  intros H. destruct (date_exists t H) as (y & m & d & h & mi & s & Hv & Ht & ->). exists y, m, d, h, mi, s. do 3 (split; [done|]).
  assert (0 <= d < 100) as Hd. { destruct Hv as (_ & Hm & Hd). destruct (month_len_max y m Hm) as (n & Hn & Hl & _). apply readC_ok in Hn. assert (Forall (fun n => n <= 31) days_in_month) as Hf by (repeat constructor; lia). eapply Forall_lookup in Hf; [|exact Hn]. cbn in Hf. lia. }
  assert (0 <= weekday y m d < 7) as Hw by (apply Z.mod_pos_bound; lia). pose proof Hv as (Hy & Hm & _).
  assert (forall p, exists c q, wday (weekday y m d) ++ p = c :: q /\ 33 <= c) as Hc by (intros p; destruct (wday_alpha _ p Hw) as (c & q & He & Hc); exists c, q; split; [done|lia]).
  repeat split.
  - apply format_ok; [done..|]. change (seconds 1899 1 1 0 0 0) with (-2240524800) in H. change (seconds 10000 1 1 0 0 0) with 253402300800 in H. lia.
  - eapply parse_date; [|apply Hc|done..|by right]. unfold rfc1123_text. rewrite <-!app_assoc, date_of_name by done. literals. rewrite readC_0. cbn [mbind outcome_bind drop]. change (44 =? 44) with true. cbn match. read_back (rfc1123_ok postel y m d h mi s [0]).
  - eapply parse_date; [|by do 2 eexists; split; [reflexivity|Z.to_euclidean_division_equations; lia]|done..|by left]. apply date_of_digit; [Z.to_euclidean_division_equations; lia|]. apply (iso8601_ok y m d h mi s [0]); done || lia.
  - eapply parse_date; [|apply Hc|done..|by right]. unfold asctime_text. rewrite <-!app_assoc, date_of_name by done. literals. rewrite readC_0. cbn [mbind outcome_bind drop]. change (32 =? 44) with false. change (32 =? 32) with true. cbn match. rewrite drop_0. read_back (asctime_ok y m d h mi s [0]).
  - intros Hy2. eapply parse_date; [|apply Hc|done..|by right]. unfold rfc850_text. rewrite <-!app_assoc, date_of_more by done. read_back (rfc850_ok y m d h mi s [0]).
Qed.

(** 2024-02-29 12:34:56. *)
Lemma vtim_roundtrip_witness :
  exists y m d h mi s, valid_date y m d /\ valid_time h mi s /\ seconds y m d h mi s = 1709210096 /\
    VTIM_format (Z.to_nat 10000) 1709210096 = Ok (rfc1123_text y m d h mi s) /\
    VTIM_parse false (Some (rfc1123_text y m d h mi s ++ [0])) = Ok 1709210096 /\
    VTIM_parse false (Some (iso8601_text y m d h mi s ++ [0])) = Ok 1709210096 /\
    VTIM_parse false (Some (asctime_text y m d h mi s ++ [0])) = Ok 1709210096 /\
    (1969 <= y <= 2068 -> VTIM_parse false (Some (rfc850_text y m d h mi s ++ [0])) = Ok 1709210096).
Proof. apply (vtim_roundtrip false 1709210096). split; [by vm_compute|reflexivity]. Defined.
