(* ===== verification/Main.v ===== *)
(** * The main program (src/vtc_main.c)

    Options and files, and the scheduling of tests: a test runs in a child
    process whose output is an event of the loop of vev.c, and the callback of
    the event counts how it ended.  What tests print and the directories they
    leave are not modelled; the kernel is a world [E] of its own. *)

From Stdlib Require Import ZArith Lia ZifyBool.
From Stdlib Require Import String.
From stdpp Require Import base option numbers list gmap.
From S2P Require Import Prelude HpackData Vbh Vev CStr Vct Vnum VnumDec Vav Vsb VsbQuote Macro VtcSubr Http1 Vtim.
#[local] Open Scope Z_scope.
#[local] Open Scope list_scope.

(** ** The state *)

(** [struct vtc_tst]; a test is known by its place in the list of all. *)
Record vtc_tst := mk_tst { t_filename : list Z; t_script : list Z; t_ntodo : Z; t_nwait : Z }.
(** [struct vtc_job]; the file descriptor is that of the event [ev]. *)
Record vtc_job := mk_job { j_tst : nat; j_child : Z; j_ev : Z; j_evt : Z; j_fd : Z; j_killed : bool }.
(** The first line of the file for automake. *)
Inductive trs := Trs_FAIL | Trs_SKIP | Trs_PASS.

(** The variables that options set, and the macros. *)
Record conf := mk_conf {
  c_bufsiz : Z;
  c_use_cleaner : bool;
  c_macros : list macro;
  c_extensions : list (list Z);
  c_iflg : bool;
  c_npar : Z;
  c_leave_temp : Z;
  c_continue : bool;
  c_ntest : Z;
  c_params : list Z;
  c_verbosity : Z;
  c_maxdur : Z;
  c_td : list (string * list Z)
}.
(** Its fields one by one. *)
Definition set_bufsiz c x := mk_conf x (c_use_cleaner c) (c_macros c) (c_extensions c) (c_iflg c) (c_npar c) (c_leave_temp c) (c_continue c) (c_ntest c) (c_params c) (c_verbosity c) (c_maxdur c) (c_td c).
Definition set_use_cleaner c x := mk_conf (c_bufsiz c) x (c_macros c) (c_extensions c) (c_iflg c) (c_npar c) (c_leave_temp c) (c_continue c) (c_ntest c) (c_params c) (c_verbosity c) (c_maxdur c) (c_td c).
Definition set_macros c x := mk_conf (c_bufsiz c) (c_use_cleaner c) x (c_extensions c) (c_iflg c) (c_npar c) (c_leave_temp c) (c_continue c) (c_ntest c) (c_params c) (c_verbosity c) (c_maxdur c) (c_td c).
Definition set_extensions c x := mk_conf (c_bufsiz c) (c_use_cleaner c) (c_macros c) x (c_iflg c) (c_npar c) (c_leave_temp c) (c_continue c) (c_ntest c) (c_params c) (c_verbosity c) (c_maxdur c) (c_td c).
Definition set_iflg c x := mk_conf (c_bufsiz c) (c_use_cleaner c) (c_macros c) (c_extensions c) x (c_npar c) (c_leave_temp c) (c_continue c) (c_ntest c) (c_params c) (c_verbosity c) (c_maxdur c) (c_td c).
Definition set_npar c x := mk_conf (c_bufsiz c) (c_use_cleaner c) (c_macros c) (c_extensions c) (c_iflg c) x (c_leave_temp c) (c_continue c) (c_ntest c) (c_params c) (c_verbosity c) (c_maxdur c) (c_td c).
Definition set_leave_temp c x := mk_conf (c_bufsiz c) (c_use_cleaner c) (c_macros c) (c_extensions c) (c_iflg c) (c_npar c) x (c_continue c) (c_ntest c) (c_params c) (c_verbosity c) (c_maxdur c) (c_td c).
Definition set_continue c x := mk_conf (c_bufsiz c) (c_use_cleaner c) (c_macros c) (c_extensions c) (c_iflg c) (c_npar c) (c_leave_temp c) x (c_ntest c) (c_params c) (c_verbosity c) (c_maxdur c) (c_td c).
Definition set_ntest c x := mk_conf (c_bufsiz c) (c_use_cleaner c) (c_macros c) (c_extensions c) (c_iflg c) (c_npar c) (c_leave_temp c) (c_continue c) x (c_params c) (c_verbosity c) (c_maxdur c) (c_td c).
Definition set_params c x := mk_conf (c_bufsiz c) (c_use_cleaner c) (c_macros c) (c_extensions c) (c_iflg c) (c_npar c) (c_leave_temp c) (c_continue c) (c_ntest c) x (c_verbosity c) (c_maxdur c) (c_td c).
Definition set_verbosity c x := mk_conf (c_bufsiz c) (c_use_cleaner c) (c_macros c) (c_extensions c) (c_iflg c) (c_npar c) (c_leave_temp c) (c_continue c) (c_ntest c) (c_params c) x (c_maxdur c) (c_td c).
Definition set_maxdur c x := mk_conf (c_bufsiz c) (c_use_cleaner c) (c_macros c) (c_extensions c) (c_iflg c) (c_npar c) (c_leave_temp c) (c_continue c) (c_ntest c) (c_params c) (c_verbosity c) x (c_td c).
Definition set_td c x := mk_conf (c_bufsiz c) (c_use_cleaner c) (c_macros c) (c_extensions c) (c_iflg c) (c_npar c) (c_leave_temp c) (c_continue c) (c_ntest c) (c_params c) (c_verbosity c) (c_maxdur c) x.
(** The tests, of which those that are freed are None, and [tst_head]; the jobs
    and the counters. *)
Record mstate := mk_main {
  m_conf : conf;
  m_tests : list (option vtc_tst);
  m_head : list nat;
  m_jobs : list vtc_job;
  m_njob : Z;
  m_good : Z;
  m_fail : Z;
  m_skip : Z;
  m_trs : option trs
}.
Definition set_conf m c := mk_main c (m_tests m) (m_head m) (m_jobs m) (m_njob m) (m_good m) (m_fail m) (m_skip m) (m_trs m).
Definition set_tests m t h := mk_main (m_conf m) t h (m_jobs m) (m_njob m) (m_good m) (m_fail m) (m_skip m) (m_trs m).
Definition set_jobs m j n := mk_main (m_conf m) (m_tests m) (m_head m) j n (m_good m) (m_fail m) (m_skip m) (m_trs m).
Definition set_counts m g f k := mk_main (m_conf m) (m_tests m) (m_head m) (m_jobs m) (m_njob m) g f k (m_trs m).
Definition set_trs m t := mk_main (m_conf m) (m_tests m) (m_head m) (m_jobs m) (m_njob m) (m_good m) (m_fail m) (m_skip m) t.

(** ** Reading files *)

(** [for (q = p; q != NULL && *q != '\0'; q++)]: blanks and comments; None is
    NULL. *)
Fixpoint skip_comments (fuel : nat) (q : list Z) : outcome (option (list Z)) :=
  match fuel with
  | O => Fault FFuel
  | S fuel =>
      c ← deref q;
      if c =? 0 then Ok (Some q)
      else if vct_islws c then skip_comments fuel (drop 1 q)
      else if negb (c =? 35) then Ok (Some q)
      else
        s ← string_at q;
        match strchr 10 s with None => Ok None | Some k => skip_comments fuel (drop (S k) q) end
  end.
(** [!strncmp(q, word, strlen(word)) && isspace(q[strlen(word)])]. *)
Definition starts_test (q : list Z) (word : string) : outcome bool :=
  b ← strneq q (str word);
  if b : bool then c ← readC q (length (str word)); Ok (isspace c) else Ok false.

(** [script] is what VFIL_readfile returns, with its NUL. *)
Definition read_file (m : mstate) (fn : list Z) (script : option (list Z)) : outcome (mstate * Z) :=
  match script with
  | None => Ok (m, 2)
  | Some p =>
      q ← skip_comments (S (length p)) p;
      match q with
      | None => Ok (m, 2)
      | Some q =>
          c ← deref q;
          if c =? 0 then Ok (m, 2)
          else
            a ← starts_test q "varnishtest";
            b ← starts_test q "vtest";
            if negb a && negb b then Ok (set_counts m (m_good m) (m_fail m) (m_skip m + 1), 2)
            else
              let n := u32 (c_ntest (m_conf m)) in
              Ok (set_tests m (m_tests m ++ [Some (mk_tst fn p n n)]) (m_head m ++ [length (m_tests m)]), 0)
      end
  end.

(** ** Arguments *)

(** A state, or the status the program exits with. *)
Definition args : Type := mstate + Z.

(** [usage] exits with 1. *)
Definition usage : outcome args := Ok (inr 1).

(** [tail] holds the name and what follows the equals sign. *)
Definition parse_D_opt (ms : list macro) (arg : list Z) : outcome (option (list macro)) :=
  match strchr 61 arg with
  | None => Ok None
  | Some q => ms ← extmacro_def ms (take q arg) None (Some (drop (S q) arg)); Ok (Some ms)
  end.

Section args.
(** Whether a file can be opened, and what VFIL_readfile finds in one. *)
Context (open_ok : list Z -> bool) (readfile : list Z -> option (list Z)).

(** [add_extension], as far as here: it opens the file. *)
Definition add_extension (c : conf) (name : list Z) : conf + Z := if open_ok name then inl (set_extensions c (name :: c_extensions c)) else inr 2.

(** One turn of the loop over getopt, which returned [ch] with [optarg]. *)
Definition usual_option (c : conf) (ch : Z) (optarg : list Z) : outcome (conf + Z) :=
  let set c := Ok (inl c) in
  if ch =? 98 then
    r ← VNUM_2bytes (Some (optarg ++ [0])) 0;
    match r with
    | inl _ => Ok (inr 2)
    | inr n => if 2 ^ 32 - 1 <? n then Ok (inr 2) else set (set_bufsiz c n)
    end
  else if ch =? 67 then set (set_use_cleaner c (negb (c_use_cleaner c)))
  else if ch =? 68 then
    r ← parse_D_opt (c_macros c) optarg;
    match r with None => Ok (inr 2) | Some ms => set (set_macros c ms) end
  else if ch =? 69 then Ok (add_extension c optarg)
  else if ch =? 105 then set (set_iflg c true)
  else if ch =? 106 then set (set_npar c (i32 (strtoul 0 optarg).1))
  else if ch =? 76 then set (set_leave_temp c 2)
  else if ch =? 108 then set (set_leave_temp c 1)
  else if ch =? 107 then set (set_continue c (negb (c_continue c)))
  else if ch =? 110 then set (set_ntest c (i32 (strtoul 0 optarg).1))
  else if ch =? 112 then set (set_params c (c_params c ++ str " -p " ++ quoted [] 0 optarg))
  else if ch =? 113 then set (set_verbosity c (if 0 <? c_verbosity c then c_verbosity c - 1 else c_verbosity c))
  else if ch =? 116 then set (set_maxdur c (strtoul 0 optarg).1)
  else if ch =? 118 then set (set_verbosity c (if c_verbosity c <? 2 then c_verbosity c + 1 else c_verbosity c))
  else Ok (inr 1).
Fixpoint usual_options (c : conf) (opts : list (Z * list Z)) : outcome (conf + Z) :=
  match opts with
  | [] => Ok (inl c)
  | (ch, optarg) :: opts => r ← usual_option c ch optarg; match r with inl c => usual_options c opts | inr x => Ok (inr x) end
  end.
(** [for (; argc > 0; argc--, argv++)]. *)
Fixpoint read_files (m : mstate) (files : list (list Z)) : outcome args :=
  match files with
  | [] => Ok (inl m)
  | fn :: files => '(m, r) ← read_file m fn (readfile fn); if (r =? 0) || c_continue (m_conf m) then read_files m files else Ok (inr 2)
  end.
(** [opts] and [files] are what getopt makes of the arguments. *)
Definition usual_arguments (m : mstate) (opts : list (Z * list Z)) (files : list (list Z)) : outcome args :=
  r ← usual_options (m_conf m) opts;
  match r with
  | inr x => Ok (inr x)
  | inl c => if (length files =? 0)%nat then usage else read_files (set_conf m c) files
  end.

Definition TDARGS : list string := ["--test-name"; "--log-file"; "--trs-file"; "--color-tests"; "--collect_skipped_logs"; "--expect-failure"; "--enable-hard-errors"]%string.
(** The loop; [argv] has a NULL after its last element. *)
Fixpoint driver_loop (fuel : nat) (m : mstate) (argv : list (list Z)) : outcome args :=
  match fuel with
  | O => Fault FFuel
  | S fuel =>
      match argv with
      | a :: b :: argv =>
          match find (fun w => streq a w) TDARGS with
          | Some w => driver_loop fuel (set_conf m (set_td (m_conf m) ((w, b) :: c_td (m_conf m)))) argv
          | None =>
              if streq a "--extension" then
                match add_extension (m_conf m) b with inl c => driver_loop fuel (set_conf m c) argv | inr x => Ok (inr x) end
              else if negb (streq a "--") then usage
              else '(m, r) ← read_file m b (readfile b); if r =? 0 then Ok (inl m) else usage
          end
      | _ => Ok (inl m)
      end
  end.
(** [argv] from its second element on. *)
Definition automake_test_driver_arguments (m : mstate) (argv : list (list Z)) : outcome args :=
  r ← driver_loop (S (length argv)) m argv;
  Ok (match r with inl m => inl (set_conf m (set_verbosity (m_conf m) 0)) | inr x => inr x end).
Definition td_trs_file (m : mstate) : option (list Z) := snd <$> find (fun p => bool_decide (fst p = "--trs-file"%string)) (c_td (m_conf m)).
End args.

(** ** Macros *)

(** The texts of their errors are left out. *)
Definition macro_res : Type := option (list Z).
Definition macro_func_date (now : Z) (argv : list (list Z)) : outcome macro_res :=
  _ ← assertC (2 <=? length argv)%nat;
  if (2 <? length argv)%nat then Ok None else s ← VTIM_format 12 now; Ok (Some s).
(** [while (i > 0) { AZ(VSB_cat(vsb, argv[3])); i--; }] for [i] turns. *)
Fixpoint repeat_loop (i : nat) (v : vsb) (s : list Z) : outcome vsb :=
  match i with
  | O => Ok v
  | S i => '(v, r) ← VSB_cat (fun _ => None) v s; _ ← assertC (r =? 0); repeat_loop i v s
  end.
Definition macro_func_string_repeat (argv : list (list Z)) : outcome macro_res :=
  if negb (length argv =? 4)%nat then Ok None
  else
    n ← readC argv 2; s ← readC argv 3;
    '(v, p, err) ← SF_Parse_Integer (n ++ [0]);
    let i := i32 v in
    match err with
    | Some _ => Ok None
    | None =>
        c ← deref p;
        if negb (c =? 0) || (i <? 0) then Ok None
        else
          let l := u64 (Z.of_nat (length s) * i + 1) in
          vsb ← VSB_init (fun _ => None) (replicate (Z.to_nat l) 0) l;
          match vsb with
          | None => Fault FAssert
          | Some v => v ← repeat_loop (Z.to_nat i) v s; '(v, r) ← VSB_finish v; _ ← assertC (r =? 0); _ ← VSB_fini v; Ok (Some (take (Z.to_nat (s_len v)) (s_buf v)))
          end
    end.
Definition macro_func_string (argv : list (list Z)) : outcome macro_res :=
  _ ← assertC (2 <=? length argv)%nat;
  match argv with
  | _ :: _ :: [] => Ok None
  | _ :: ((a :: _) as rest) => a ← readC argv 2; if streq a "repeat" then macro_func_string_repeat rest else Ok None
  | _ => Ok None
  end.

(** ** Jobs *)

(** How the program ended. *)
Inductive ending := Exited (code : Z) | Failed (f : fault).
(** The kernel, the state, whether the program has ended, and the calls of
    callbacks so far. *)
Record world (E T : Type) := mk_world { w_env : E; w_main : mstate; w_end : option ending; w_calls : list (Z * Z * list (vop (T:=T))) }.
Arguments mk_world {E T}. Arguments w_env {E T}. Arguments w_main {E T}. Arguments w_end {E T}. Arguments w_calls {E T}.

Section jobs.
(** System calls and malloc: pipe with its two descriptors, fork, read (None is
    -1), kill, wait4 with the process and its status, close, poll, the clock,
    and where a new event is. *)
Context {T E : Type} `{!Time T} (maxdur : T).
Context (sys_pipe : E -> E * (Z * Z)) (sys_fork : E -> E * Z) (sys_read : E -> Z -> E * option (list Z)) (sys_kill : E -> Z -> E * Z).
Context (sys_wait : E -> Z -> E * (Z * Z)) (sys_close : E -> Z -> E * Z) (sys_poll : E -> list pollfd -> Z -> E * list Z * poll_res) (sys_mono : E -> E * T).
Context (malloc : gset Z -> Z) (calloc_ok sigaction_ok : Z -> bool).

(** [ecode = WTERMSIG(stx); if (ecode == 0) ecode = WEXITSTATUS(stx);]. *)
Definition exit_code (stx : Z) : Z := if WTERMSIG stx =? 0 then WEXITSTATUS stx else WTERMSIG stx.

(** The job whose event is at [a]: [ve->priv]. *)
Definition has_event (a : Z) (j : vtc_job) : bool := (a =? j_ev j) || (a =? j_evt j).
Definition job_of (m : mstate) (a : Z) : option vtc_job := find (has_event a) (m_jobs m).
Definition drop_job (a : Z) (l : list vtc_job) : list vtc_job := List.filter (fun j => negb (has_event a j)) l.
Definition set_killed (a : Z) (l : list vtc_job) : list vtc_job :=
  map (fun j => if has_event a j then mk_job (j_tst j) (j_child j) (j_ev j) (j_evt j) (j_fd j) true else j) l.
Definition tst_at (m : mstate) (i : nat) : outcome vtc_tst := match m_tests m !! i with Some (Some t) => Ok t | _ => Fault FAssert end.

(** Counting how a test ended, and the file for automake. *)
Definition count_test (m : mstate) (ecode : Z) : mstate :=
  if ecode =? 0 then set_counts m (m_good m + 1) (m_fail m) (m_skip m)
  else if ecode =? 1 then set_counts m (m_good m) (m_fail m) (m_skip m + 1)
  else set_counts m (m_good m) (m_fail m + 1) (m_skip m).
Definition trs_of (killed : bool) (ecode : Z) : trs := if killed || (1 <? ecode) then Trs_FAIL else if negb (ecode =? 0) then Trs_SKIP else Trs_PASS.
Definition write_trs (m : mstate) (killed : bool) (ecode : Z) : mstate := match td_trs_file m with None => m | Some _ => set_trs m (Some (trs_of killed ecode)) end.
(** [jp->tst->nwait--], and freeing the test. *)
Definition tst_done (m : mstate) (i : nat) : outcome mstate :=
  t ← tst_at m i;
  let n := u32 (t_nwait t - 1) in
  Ok (set_tests m (<[i := if n =? 0 then None else Some (mk_tst (t_filename t) (t_script t) (t_ntodo t) n)]> (m_tests m)) (m_head m)).

(** The end of the output: the state, and the status when the program exits. *)
Definition job_done (env : E) (m : mstate) (j : vtc_job) : outcome (E * mstate * option Z) :=
  let '(env, (px, stx)) := sys_wait env (j_child j) in
  _ ← assertC (px =? j_child j);
  let '(env, c) := sys_close env (j_fd j) in
  _ ← assertC (c =? 0);
  let ecode := exit_code stx in
  let m := count_test (set_jobs m (m_jobs m) (m_njob m - 1)) ecode in
  let m := write_trs m (j_killed j) ecode in
  if (1 <? ecode) && negb (c_continue (m_conf m)) && bool_decide (td_trs_file m = None) then Ok (env, m, Some 2)
  else m ← tst_done m (j_tst j); Ok (env, set_jobs m (drop_job (j_ev j) (m_jobs m)) (m_njob m), None).
(** Before the read: the state and the job, which may be marked as killed. *)
Definition job_event (env : E) (m : mstate) (a what : Z) (j : vtc_job) : outcome (E * mstate * vtc_job) :=
  if what =? 0 then
    let '(env, r) := sys_kill env (- j_child j) in
    _ ← assertC (r =? 0);
    Ok (env, set_jobs m (set_killed a (m_jobs m)) (m_njob m), mk_job (j_tst j) (j_child j) (j_ev j) (j_evt j) (j_fd j) true)
  else _ ← assertC (negb (Z.land what (Z.lor VEV__RD VEV__HUP) =? 0)); Ok (env, m, j).
(** The timer's descriptor is -1, which cannot be read. *)
Definition job_read (env : E) (a : Z) (j : vtc_job) : E * option (list Z) := if a =? j_ev j then sys_read env (j_fd j) else (env, None).
Definition tst_cb_run (env : E) (m : mstate) (a what : Z) : outcome (E * mstate * list (vop (T:=T)) * Z * option Z) :=
  match job_of m a with
  | None => Fault FUndef
  | Some j =>
      _ ← tst_at m (j_tst j);
      '(env, m, j) ← job_event env m a what j;
      let '(env, r) := job_read env a j in
      match r with
      | Some [] => '(env, m, x) ← job_done env m j; Ok (env, m, [Stop (j_evt j)], 1, x)
      | _ => Ok (env, m, [], 0, None)
      end
  end.
(** As the event loop calls it: once the program has ended nothing happens. *)
Definition tst_cb (w : world E T) (a what : Z) : world E T * list (vop (T:=T)) * Z :=
  let stop w_end env m := (mk_world env m (Some w_end) (w_calls w ++ [(a, what, [])]), [], 0) in
  match w_end w with
  | Some x => stop x (w_env w) (w_main w)
  | None =>
      match tst_cb_run (w_env w) (w_main w) a what with
      | Fault f => stop (Failed f) (w_env w) (w_main w)
      | Ok (env, m, _, _, Some c) => stop (Exited c) env m
      | Ok (env, m, ops, k, None) => (mk_world env m None (w_calls w ++ [(a, what, ops)]), ops, k)
      end
  end.
Definition w_mono (w : world E T) : world E T * T := let '(env, t) := sys_mono (w_env w) in (mk_world env (w_main w) (w_end w) (w_calls w), t).
Definition w_poll (w : world E T) (fds : list pollfd) (tmo : Z) : world E T * list Z * poll_res :=
  let '(env, sigs, r) := sys_poll (w_env w) fds tmo in (mk_world env (w_main w) (w_end w) (w_calls w), sigs, r).

(** ** Starting *)

(** [VEV_Alloc], the fields, and [VEV_Start]. *)
Definition start_event (env : E) (s : vstate T) (a : Z) (e : vev T) : outcome (E * vstate T) :=
  let '(env, now) := sys_mono env in
  '(r, s) ← VEV_Start calloc_ok sigaction_ok (put_event s a e) a now;
  _ ← assertC (r =? 0); Ok (env, s).
Definition job_ev_event (fd : Z) : vev T := mk_vev false fd (Z.lor VEV__RD (Z.lor VEV__HUP VEV__ERR)) 0 0 0 tzero true false tzero 0 false.
Definition job_evt_event : vev T := mk_vev false (-1) 0 0 0 0 maxdur true false tzero 0 false.
(** [tp] leaves the head of the queue, and goes to its end if it has more to do. *)
Definition next_test (m : mstate) : outcome (nat * mstate) :=
  match m_head m with
  | [] => Fault FAssert
  | i :: h =>
      t ← tst_at m i;
      _ ← assertC (negb (t_ntodo t =? 0));
      let t := mk_tst (t_filename t) (t_script t) (u32 (t_ntodo t - 1)) (t_nwait t) in
      Ok (i, set_tests m (<[i := Some t]> (m_tests m)) (if 0 <? t_ntodo t then h ++ [i] else h))
  end.
(** The parent's side of the fork. *)
Definition start_test (env : E) (m : mstate) (s : vstate T) : outcome (E * mstate * vstate T) :=
  '(i, m) ← next_test m;
  let '(env, (p0, p1)) := sys_pipe env in
  _ ← assertC (2 <? p0); _ ← assertC (2 <? p1);
  let '(env, child) := sys_fork env in
  _ ← assertC (0 <=? child);
  let ev := malloc (dom (s_events s)) in
  '(env, s) ← start_event env s ev (job_ev_event p0);
  let evt := malloc (dom (s_events s)) in
  '(env, s) ← start_event env s evt job_evt_event;
  Ok (env, set_jobs m (m_jobs m ++ [mk_job i child ev evt p0 false]) (m_njob m), s).

(** ** The loop *)

(** [while (!VTAILQ_EMPTY(&tst_head) || i)]; [k] bounds the turns. *)
Fixpoint main_loop (k n b : nat) (w : world E T) (s : vstate T) (i : Z) : outcome (world E T * vstate T) :=
  match k with
  | O => Fault FFuel
  | S k =>
      let m := w_main w in
      if bool_decide (w_end w <> None) then Ok (w, s)
      else if bool_decide (m_head m = []) && (i =? 0) then Ok (w, s)
      else if negb (bool_decide (m_head m = [])) && (m_njob m <? c_npar (m_conf m)) then
        '(env, m, s) ← start_test (w_env w) m s;
        main_loop k n b (mk_world env (set_jobs m (m_jobs m) (m_njob m + 1)) (w_end w) (w_calls w)) s 1
      else '(w, s, i) ← VEV_Once calloc_ok sigaction_ok tst_cb w_mono w_poll n b w s; main_loop k n b w s i
  end.
(** What main returns. *)
Definition main_status (m : mstate) : Z :=
  if negb (bool_decide (td_trs_file m = None)) then 0
  else if negb (m_fail m =? 0) then 1
  else if negb (m_skip m =? 0) && (m_good m =? 0) then 77 else 0.
(** From the arguments on. *)
Definition run_main (k n b : nat) (pagesz : Z) (env : E) (m : mstate) : outcome Z :=
  vb ← VEV_New (T:=T) pagesz;
  '(w, s) ← main_loop k n b (mk_world env m None []) (mk_vstate ∅ vb []) 0;
  match w_end w with
  | Some (Exited c) => Ok c
  | Some (Failed f) => Fault f
  | None => Ok (main_status (w_main w))
  end.
End jobs.
