(* ===== verification/MainSpec.v ===== *)
(** * The books of the main program

    Whatever the tests print and however long they take, the main program keeps
    count: no assertion fails, and when it ends its status is the verdict on the
    statuses that [wait4] has given for every run of every test. *)

From Stdlib Require Import ZArith Lia ZifyBool.
From Stdlib Require Import String.
From stdpp Require Import base option numbers list gmap.
From S2P Require Import Prelude HpackData Vbh VbhShape VbhHeap VbhSpec Vev VevSpec VevLoop CStr VtcSubr Main.
#[local] Open Scope Z_scope.
#[local] Open Scope list_scope.

(** ** The books *)

Definition events_of (l : list vtc_job) : list Z := flat_map (fun j => [j_ev j; j_evt j]) l.
(** The jobs of a test, and the runs that are not counted yet. *)
Definition jobs_of (i : nat) (l : list vtc_job) : Z := Z.of_nat (length (filter (fun j => j_tst j = i) l)).
Definition nwait_of (t : option vtc_tst) : Z := match t with Some t => t_nwait t | None => 0 end.
Fixpoint runs_left (l : list (option vtc_tst)) : Z := match l with [] => 0 | t :: l => nwait_of t + runs_left l end.

Record test_ok (m : mstate) (i : nat) (t : vtc_tst) : Prop := {
  to_nwait : t_nwait t = t_ntodo t + jobs_of i (m_jobs m);
  to_ntodo : 0 <= t_ntodo t;
  to_some : 0 < t_nwait t < 2 ^ 32;
  to_queue : 0 < t_ntodo t <-> i ∈ m_head m
}.
Record books (c : conf) (total : Z) (m : mstate) (A : gset Z) : Prop := {
  bk_conf : m_conf m = c;
  bk_addrs : A = list_to_set (events_of (m_jobs m));
  bk_nodup : NoDup (events_of (m_jobs m));
  bk_njob : m_njob m = Z.of_nat (length (m_jobs m));
  bk_npar : m_njob m <= Z.max 0 (c_npar c);
  bk_tests : forall i t, m_tests m !! i = Some (Some t) -> test_ok m i t;
  bk_head : NoDup (m_head m);
  bk_queue : forall i, i ∈ m_head m -> exists t, m_tests m !! i = Some (Some t);
  bk_jobs : forall j, j ∈ m_jobs m -> exists t, m_tests m !! j_tst j = Some (Some t);
  bk_total : m_good m + m_fail m + m_skip m + runs_left (m_tests m) = total
}.

(** *** Lists of jobs *)

Lemma jobs_of_cons i j l : jobs_of i (j :: l) = (if decide (j_tst j = i) then 1 else 0) + jobs_of i l.
Proof. unfold jobs_of. rewrite filter_cons. case_decide; cbn [length]; lia. Qed.
Lemma jobs_of_perm i l l' : l ≡ₚ l' -> jobs_of i l = jobs_of i l'.
Proof. intros H. unfold jobs_of. by rewrite H. Qed.
Lemma jobs_of_nonneg i l : 0 <= jobs_of i l.
Proof. unfold jobs_of. lia. Qed.
Lemma events_of_perm l l' : l ≡ₚ l' -> events_of l ≡ₚ events_of l'.
Proof.
  induction 1 as [|j l l' _ IH|j k l|l1 l2 l3 _ IH1 _ IH2]; cbn [events_of flat_map] in *; [done|by rewrite IH| |by rewrite IH1].
  rewrite !app_assoc. apply Permutation_app_tail. apply Permutation_app_comm.
Qed.
Lemma elem_of_events a l : a ∈ events_of l <-> exists j, j ∈ l /\ has_event a j = true.
Proof.
  unfold events_of, has_event. rewrite list_elem_of_In, in_flat_map. split; intros (j & Hj & Ha); exists j.
  - rewrite list_elem_of_In. split; [done|]. cbn in Ha. lia.
  - rewrite <-list_elem_of_In. split; [done|]. cbn. lia.
Qed.
Lemma drop_other a l : a ∉ events_of l -> drop_job a l = l.
Proof.
  intros Ha. unfold drop_job. induction l as [|j l IH]; [done|]. assert (has_event a j = false) as Hj.
  { destruct (has_event a j) eqn:E; [|done]. exfalso. apply Ha, elem_of_events. exists j. split; [left|done]. }
  cbn [List.filter]. rewrite Hj. cbn [negb]. rewrite IH; [done|]. intros (k & Hk & Hak)%elem_of_events. apply Ha, elem_of_events. exists k. split; [by right|done].
Qed.
(** The job with an event is one, and dropping it leaves the others. *)
Lemma drop_job_perm a j l : NoDup (events_of l) -> j ∈ l -> has_event a j = true -> l ≡ₚ j :: drop_job a l.
Proof.
  induction l as [|k l IH]; intros Hnd Hj Ha; [by apply not_elem_of_nil in Hj|]. change (events_of (k :: l)) with ([j_ev k; j_evt k] ++ events_of l) in Hnd. apply NoDup_app in Hnd as (_ & Hd & Hnd).
  apply elem_of_cons in Hj as [<-|Hj].
  - unfold drop_job. cbn [List.filter]. rewrite Ha. cbn [negb]. f_equiv. assert (a ∉ events_of l) as Hna. { apply Hd. unfold has_event in Ha. rewrite !elem_of_cons. lia. } pose proof (drop_other a l Hna) as Hdr. unfold drop_job in Hdr. by rewrite Hdr.
  - assert (has_event a k = false) as Hk. { destruct (has_event a k) eqn:E; [|done]. exfalso. apply (Hd a); [unfold has_event in E; rewrite !elem_of_cons; lia|]. apply elem_of_events. eauto. }
    unfold drop_job. cbn [List.filter]. rewrite Hk. cbn [negb]. rewrite (IH Hnd Hj Ha) at 1. apply Permutation_swap.
Qed.
Lemma find_job a l : a ∈ events_of l -> exists j, find (has_event a) l = Some j /\ j ∈ l /\ has_event a j = true.
Proof.
  intros (j & Hj & Ha)%elem_of_events. destruct (find (has_event a) l) as [k|] eqn:E.
  - apply find_some in E as [Hk Hak]. exists k. rewrite list_elem_of_In. done.
  - apply list_elem_of_In in Hj. by rewrite (find_none _ _ E j Hj) in Ha.
Qed.
Lemma runs_left_set i t t' l : l !! i = Some t -> runs_left (<[i := t']> l) = runs_left l - nwait_of t + nwait_of t'.
Proof.
  revert i. induction l as [|x l IH]; intros [|i]; [done|done|intros [= ->]; cbn; lia|]. intros Hi. change (<[S i := t']> (x :: l)) with (x :: <[i := t']> l). cbn [runs_left]. rewrite (IH i Hi). lia.
Qed.
Lemma events_killed a l : events_of (set_killed a l) = events_of l.
Proof. induction l as [|j l IH]; [done|]. unfold set_killed, events_of in *. cbn [map flat_map]. rewrite IH. by destruct (has_event a j). Qed.
Lemma jobs_killed a i l : jobs_of i (set_killed a l) = jobs_of i l.
Proof. induction l as [|j l IH]; [done|]. unfold set_killed in *. cbn [map]. rewrite !jobs_of_cons, IH. by destruct (has_event a j). Qed.
Lemma elem_of_killed a j l : j ∈ set_killed a l -> exists k, k ∈ l /\ j_tst j = j_tst k.
Proof. unfold set_killed. rewrite list_elem_of_fmap. intros (k & -> & Hk). exists k. split; [done|]. by destruct (has_event a k). Qed.

(** *** How tests end *)

(** A test passes when its process exits with zero and is skipped when it exits with
    one, or dies of signal one; all others fail. *)
Definition st_pass (st : Z) : bool := (WTERMSIG st =? 0) && (WEXITSTATUS st =? 0).
Definition st_skip (st : Z) : bool := (WTERMSIG st =? 0) && (WEXITSTATUS st =? 1) || (WTERMSIG st =? 1).
Definition st_fail (st : Z) : bool := negb (st_pass st || st_skip st).
Definition count (f : Z -> bool) (l : list Z) : Z := Z.of_nat (length (filter (fun st => f st = true) l)).
(** What the program is to return when [l] are the ends of its tests and [skipped]
    files were no tests. *)
Definition verdict (automake : bool) (skipped : Z) (l : list Z) : Z :=
  if automake then 0
  else if existsb st_fail l then 1
  else if negb (existsb st_pass l) && (existsb st_skip l || negb (skipped =? 0)) then 77 else 0.
(** There is a file for automake. *)
Definition for_automake (m : mstate) : bool := match td_trs_file m with Some _ => true | None => false end.
(** The counts are those of [l]. *)
Definition tally (skipped : Z) (l : list Z) (m : mstate) : Prop :=
  m_good m = count st_pass l /\ m_skip m = skipped + count st_skip l /\ m_fail m = count st_fail l.

Lemma count_snoc f l st : count f (l ++ [st]) = count f l + if f st then 1 else 0.
Proof. unfold count. rewrite filter_app, length_app, filter_cons, filter_nil. destruct (f st); case_decide; cbn [length]; done || lia. Qed.
Lemma count_cons f l st : count f (st :: l) = (if f st then 1 else 0) + count f l.
Proof. unfold count. rewrite filter_cons. destruct (f st); case_decide; cbn [length]; done || lia. Qed.
Lemma count_nonneg f l : 0 <= count f l.
Proof. unfold count. lia. Qed.
Lemma existsb_count f l : existsb f l = negb (count f l =? 0).
Proof. induction l as [|st l IH]; [done|]. cbn [existsb]. rewrite count_cons, IH. pose proof (count_nonneg f l). destruct (f st); cbn [orb]; lia. Qed.
Lemma st_skip_pass st : st_skip st = true -> st_pass st = false.
Proof. unfold st_skip, st_pass. lia. Qed.
Lemma count_all l : count st_pass l + count st_skip l + count st_fail l = Z.of_nat (length l).
Proof.
  induction l as [|st l IH]; [done|]. rewrite !count_cons. unfold st_fail at 1. pose proof (st_skip_pass st). destruct (st_pass st), (st_skip st); cbn [orb negb length]; lia || by discriminate H.
Qed.
Lemma exit_code_ok stx : (exit_code stx =? 0) = st_pass stx /\ (exit_code stx =? 1) = st_skip stx /\ (1 <? exit_code stx) = st_fail stx.
Proof.
  unfold exit_code, st_fail, st_pass, st_skip. assert (0 <= WTERMSIG stx /\ 0 <= WEXITSTATUS stx) as [? ?]; [|destruct (WTERMSIG stx =? 0) eqn:E; lia].
  unfold WTERMSIG, WEXITSTATUS. split; [|apply Z.shiftr_nonneg]; apply Z.land_nonneg; right; lia.
Qed.
Lemma count_test_ok sk l m stx : tally sk l m -> tally sk (l ++ [stx]) (count_test m (exit_code stx)).
Proof.
  intros (H1 & H2 & H3). unfold tally, count_test. rewrite !count_snoc. destruct (exit_code_ok stx) as (-> & -> & _). unfold st_fail at 2. pose proof (st_skip_pass stx).
  destruct (st_pass stx), (st_skip stx); cbn [m_good m_skip m_fail set_counts orb negb]; repeat split; lia || by discriminate H.
Qed.

(** ** One step *)

(** A job is marked as killed. *)
Lemma books_killed c total m A a : books c total m A -> books c total (set_jobs m (set_killed a (m_jobs m)) (m_njob m)) A.
Proof.
  intros [H1 H2 H3 H4 H5 H6 H7 H8 H9 H10]. split; cbn; try done.
  - by rewrite events_killed.
  - by rewrite events_killed.
  - unfold set_killed. by rewrite length_map.
  - intros i t Ht. destruct (H6 i t Ht) as [T1 T2 T3 T4]. split; try done. cbn. by rewrite jobs_killed.
  - intros j (k & Hk & ->)%elem_of_killed. auto.
Qed.

(** A run is over. *)
Lemma books_done c total m m1 A j : books c total m A -> j ∈ m_jobs m ->
  m_conf m1 = c -> m_tests m1 = m_tests m -> m_head m1 = m_head m -> m_jobs m1 = m_jobs m -> m_njob m1 = m_njob m - 1 -> m_good m1 + m_fail m1 + m_skip m1 = m_good m + m_fail m + m_skip m + 1 ->
  exists m2, tst_done m1 (j_tst j) = Ok m2 /\ m_jobs m2 = m_jobs m /\ m_njob m2 = m_njob m - 1 /\ books c total (set_jobs m2 (drop_job (j_ev j) (m_jobs m2)) (m_njob m2)) (A ∖ {[j_evt j]} ∖ {[j_ev j]}).
Proof.
  intros [H1 H2 H3 H4 H5 H6 H7 H8 H9 H10] Hj E1 E2 E3 E4 E5 E6. destruct (H9 j Hj) as [t Ht]. pose proof (H6 _ _ Ht) as [T1 T2 T3 T4]. unfold tst_done, tst_at. rewrite E2, Ht. cbn [mbind outcome_bind]. rewrite wrapu_small by lia. eexists. split; [done|]. cbn [m_jobs m_njob set_tests]. rewrite E4, E5. split; [done|]. split; [done|].
  assert (has_event (j_ev j) j = true) as Hev by (unfold has_event; lia). pose proof (drop_job_perm (j_ev j) j (m_jobs m) H3 Hj Hev) as Hp. set (l := drop_job (j_ev j) (m_jobs m)) in *. pose proof (events_of_perm _ _ Hp) as Hpe. change (events_of (j :: l)) with (j_ev j :: j_evt j :: events_of l) in Hpe.
  rewrite Hpe in H3. apply NoDup_cons in H3 as [Hn1 H3]. apply NoDup_cons in H3 as [Hn2 H3]. rewrite elem_of_cons in Hn1.
  assert (forall i, jobs_of i (m_jobs m) = (if decide (j_tst j = i) then 1 else 0) + jobs_of i l) as Hjo by (intros i; rewrite (jobs_of_perm i _ _ Hp); apply jobs_of_cons). pose proof (jobs_of_nonneg (j_tst j) l) as Hnn. pose proof (Hjo (j_tst j)) as Hjj. rewrite decide_True in Hjj by done.
  assert (forall i x, (<[j_tst j := if t_nwait t - 1 =? 0 then None else Some (mk_tst (t_filename t) (t_script t) (t_ntodo t) (t_nwait t - 1))]> (m_tests m)) !! i = Some (Some x) -> (i <> j_tst j /\ m_tests m !! i = Some (Some x)) \/ (i = j_tst j /\ t_nwait t - 1 <> 0 /\ x = mk_tst (t_filename t) (t_script t) (t_ntodo t) (t_nwait t - 1))) as Hlk.
  { intros i x Hx. destruct (decide (i = j_tst j)) as [->|Hne]; [|rewrite list_lookup_insert_ne in Hx by done; by left]. rewrite list_lookup_insert_eq in Hx by (by eapply lookup_lt_Some). right. split; [done|]. destruct (t_nwait t - 1 =? 0) eqn:E; [done|]. injection Hx as <-. split; [lia|done]. }
  assert (forall i, (exists x, m_tests m !! i = Some (Some x)) -> (i <> j_tst j \/ t_nwait t - 1 <> 0) -> exists x, (<[j_tst j := if t_nwait t - 1 =? 0 then None else Some (mk_tst (t_filename t) (t_script t) (t_ntodo t) (t_nwait t - 1))]> (m_tests m)) !! i = Some (Some x)) as Hkeep.
  { intros i [x Hx] Hor. destruct (decide (i = j_tst j)) as [->|Hne]; [|exists x; by rewrite list_lookup_insert_ne]. rewrite list_lookup_insert_eq by (by eapply lookup_lt_Some). replace (t_nwait t - 1 =? 0) with false by (destruct Hor; lia || done). by eexists. }
  split; cbn [m_conf m_tests m_head m_jobs m_njob m_good m_fail m_skip set_jobs set_tests]; rewrite ?E3.
  - done.
  - rewrite H2. apply leibniz_equiv. intros x. rewrite !elem_of_difference, !elem_of_list_to_set, !elem_of_singleton, Hpe, !elem_of_cons. split; [tauto|]. intros Hx. split; [split; [tauto|]|]; intros ->; tauto.
  - done.
  - rewrite H4, Hp. cbn [length]. lia.
  - lia.
  - intros i x Hx. destruct (Hlk i x Hx) as [[Hne Hx']|(-> & Hnz & ->)].
    + destruct (H6 i x Hx') as [X1 X2 X3 X4]. split; try done. cbn. rewrite X1, Hjo, decide_False by congruence. lia.
    + split; cbn; try done; lia.
  - done.
  - intros i Hi. apply Hkeep; [by apply H8|]. destruct (decide (i = j_tst j)) as [->|]; [right|by left]. apply T4 in Hi. lia.
  - intros k Hk. assert (k ∈ m_jobs m) as Hkm by (rewrite Hp; by right). apply Hkeep; [by apply H9|]. destruct (decide (j_tst k = j_tst j)) as [Heq|]; [right|by left].
    assert (1 <= jobs_of (j_tst j) l); [|lia]. unfold jobs_of. destruct (filter _ l) as [|y f] eqn:Ef; [|cbn; lia]. assert (k ∈ filter (fun k => j_tst k = j_tst j) l) as Hin by (by apply list_elem_of_filter). rewrite Ef in Hin. by apply not_elem_of_nil in Hin.
  - rewrite (runs_left_set _ (Some t)) by done. rewrite <-H10, E6. cbn. destruct (t_nwait t - 1 =? 0) eqn:E; cbn; lia.
Qed.

(** A run begins. *)
Lemma books_start c total m A child ev evt fd : books c total m A -> m_head m <> [] -> m_njob m < c_npar c -> ev ∉ A -> evt ∉ {[ev]} ∪ A ->
  exists i m1, next_test m = Ok (i, m1) /\ m_conf m1 = c /\ books c total (set_jobs m1 (m_jobs m1 ++ [mk_job i child ev evt fd false]) (m_njob m1 + 1)) ({[evt]} ∪ ({[ev]} ∪ A)).
Proof.
  intros [H1 H2 H3 H4 H5 H6 H7 H8 H9 H10] Hne Hlt Hev Hevt. destruct (m_head m) as [|i h] eqn:Eh; [done|]. destruct (H8 i ltac:(left)) as [t Ht]. pose proof (H6 _ _ Ht) as [T1 T2 T3 T4]. rewrite Eh in T4. assert (0 < t_ntodo t) as Hpos by (apply T4; left).
  pose proof (jobs_of_nonneg i (m_jobs m)) as Hnn. unfold next_test, tst_at. rewrite Eh, Ht. cbn [mbind outcome_bind]. rewrite assertC_true by lia. cbn [mbind outcome_bind t_ntodo]. rewrite wrapu_small by lia. eexists i, _. split; [done|]. split; [done|].
  set (j := mk_job i child ev evt fd false). set (t' := mk_tst _ _ _ _). assert (m_jobs m ++ [j] ≡ₚ j :: m_jobs m) as Hp by (symmetry; apply Permutation_cons_append). pose proof (events_of_perm _ _ Hp) as Hpe. change (events_of (j :: m_jobs m)) with (ev :: evt :: events_of (m_jobs m)) in Hpe.
  apply NoDup_cons in H7 as [Hih Hh]. rewrite H2 in Hev, Hevt. rewrite elem_of_union, elem_of_singleton, elem_of_list_to_set in Hevt. rewrite elem_of_list_to_set in Hev.
  assert (forall k, k ∈ (if 0 <? t_ntodo t - 1 then h ++ [i] else h) <-> (k <> i /\ k ∈ i :: h) \/ (k = i /\ 0 < t_ntodo t - 1)) as Hq.
  { intros k. rewrite elem_of_cons. clear - Hih. destruct (0 <? t_ntodo t - 1) eqn:E; rewrite ?elem_of_app, ?list_elem_of_singleton; destruct (decide (k = i)) as [->|Hki].
    - split; [intros _; right; split; [done|lia]|intros _; by right].
    - split; [intros [?|?]; [left; auto|done]|intros [[_ [?|?]]|[? _]]; [done|by left|done]].
    - split; [done|intros [[? _]|[_ ?]]; [done|lia]].
    - split; [auto|intros [[_ [?|?]]|[? _]]; done]. }
  assert (forall k x, (<[i := Some t']> (m_tests m)) !! k = Some (Some x) -> (k <> i /\ m_tests m !! k = Some (Some x)) \/ (k = i /\ x = t')) as Hlk.
  { intros k x Hx. destruct (decide (k = i)) as [->|Hki]; [|rewrite list_lookup_insert_ne in Hx by done; by left]. rewrite list_lookup_insert_eq in Hx by (by eapply lookup_lt_Some). injection Hx as <-. by right. }
  assert (forall k, (exists x, m_tests m !! k = Some (Some x)) -> exists x, (<[i := Some t']> (m_tests m)) !! k = Some (Some x)) as Hkeep.
  { intros k [x Hx]. destruct (decide (k = i)) as [->|Hki]; [|exists x; by rewrite list_lookup_insert_ne]. rewrite list_lookup_insert_eq by (by eapply lookup_lt_Some). by eexists. }
  assert (forall k, jobs_of k (m_jobs m ++ [j]) = (if decide (i = k) then 1 else 0) + jobs_of k (m_jobs m)) as Hjo by (intros k; rewrite (jobs_of_perm k _ _ Hp); apply jobs_of_cons).
  split; cbn [m_conf m_tests m_head m_jobs m_njob m_good m_fail m_skip set_jobs set_tests].
  - done.
  - rewrite H2. apply leibniz_equiv. intros x. rewrite !elem_of_union, !elem_of_singleton, !elem_of_list_to_set, Hpe, !elem_of_cons. tauto.
  - rewrite Hpe. apply NoDup_cons. split; [rewrite elem_of_cons; naive_solver|]. apply NoDup_cons. split; [tauto|done].
  - rewrite Hp. cbn [length]. lia.
  - lia.
  - intros k x Hx. destruct (Hlk k x Hx) as [[Hki Hx']|[-> ->]].
    + destruct (H6 k x Hx') as [X1 X2 X3 X4]. rewrite Eh in X4. split; cbn [m_jobs m_head set_jobs set_tests]; [rewrite X1, Hjo, decide_False by congruence; lia|done|done|]. rewrite X4, Hq. naive_solver.
    + split; cbn [m_jobs m_head set_jobs set_tests t_nwait t_ntodo t']; [rewrite Hjo, decide_True by done; lia|lia|lia|]. rewrite Hq. naive_solver.
  - destruct (0 <? t_ntodo t - 1); [|done]. apply NoDup_app. split; [done|]. split; [|apply NoDup_singleton]. intros x Hx. rewrite list_elem_of_singleton. by intros ->.
  - intros k Hk. apply Hkeep. apply Hq in Hk as [[_ Hk]|[-> _]]; [by apply H8|by exists t].
  - intros k Hk. apply Hkeep. rewrite Hp in Hk. apply elem_of_cons in Hk as [->|Hk]; [by exists t|by apply H9].
  - rewrite (runs_left_set _ (Some t)) by done. rewrite <-H10. cbn. lia.
Qed.

(** ** The callback *)

Section main.
Context {T E : Type} `{!Time T} (maxdur : T).
Context (sys_pipe : E -> E * (Z * Z)) (sys_fork : E -> E * Z) (sys_read : E -> Z -> E * option (list Z)) (sys_kill : E -> Z -> E * Z).
Context (sys_wait : E -> Z -> E * (Z * Z)) (sys_close : E -> Z -> E * Z) (sys_poll : E -> list pollfd -> Z -> E * list Z * poll_res) (sys_mono : E -> E * T).
Context (malloc : gset Z -> Z) (calloc_ok sigaction_ok : Z -> bool).
(** The statuses that wait4 has given so far. *)
Context (ends : E -> list Z).
(** What the calls promise; nothing is said about what is read, how children
    end, and the time; poll may be interrupted.  No signal has a handler, as the
    program starts no event for one. *)
Definition readable (what : Z) : Prop := Z.land what (Z.lor VEV__RD VEV__HUP) <> 0.
Record kernel_ok : Prop := {
  ko_pipe : forall e, 2 < (sys_pipe e).2.1 /\ 2 < (sys_pipe e).2.2;
  ko_fork : forall e, 0 <= (sys_fork e).2;
  ko_kill : forall e p, (sys_kill e p).2 = 0;
  ko_wait : forall e p, (sys_wait e p).2.1 = p;
  ko_close : forall e fd, (sys_close e fd).2 = 0;
  ko_malloc : forall A, malloc A ∉ A;
  ko_poll : forall e fds tmo e' sigs res, sys_poll e fds tmo = (e', sigs, res) -> sigs = [] /\
    (match res with PollOk n rev => length rev = length fds /\ (forall r, r ∈ rev -> r = 0 \/ readable r) /\ n = Z.of_nat (length (filter (fun r => r <> 0) rev)) /\ (n = 0 -> tmo <> INFTIM) | _ => True end);
  ko_maxdur : tlt maxdur tzero = false;
  ko_ends_wait : forall e p, ends (sys_wait e p).1 = ends e ++ [(sys_wait e p).2.2];
  ko_ends : forall e, ends (sys_pipe e).1 = ends e /\ ends (sys_fork e).1 = ends e /\ ends (sys_mono e).1 = ends e /\
    (forall fd, ends (sys_read e fd).1 = ends e) /\ (forall p, ends (sys_kill e p).1 = ends e) /\ (forall fd, ends (sys_close e fd).1 = ends e) /\
    (forall fds tmo, ends (sys_poll e fds tmo).1.1 = ends e)
}.
Context (HK : kernel_ok) (c : conf) (total skipped : Z) (ends0 : list Z).
Abbreviation cb := (tst_cb (T:=T) sys_read sys_kill sys_wait sys_close).
Abbreviation once := (VEV_Once calloc_ok sigaction_ok cb (w_mono sys_mono) (w_poll sys_poll)).
Abbreviation loop := (main_loop maxdur sys_pipe sys_fork sys_read sys_kill sys_wait sys_close sys_poll sys_mono malloc calloc_ok sigaction_ok).

(** What the world knows of the events. *)
Definition knows (w : world E T) (A : gset Z) : Prop :=
  exists l, ends (w_env w) = ends0 ++ l /\
  match w_end w with
  | None => books c total (w_main w) A /\ tally skipped l (w_main w)
  | Some (Exited x) => x = 2 /\ c_continue c = false /\ exists l' st, l = l' ++ [st] /\ st_fail st = true
  | Some (Failed _) => False
  end.

Lemma job_event_ok env m A a what j : books c total m A -> j ∈ m_jobs m -> has_event a j = true -> (what = 0 \/ readable what) ->
  exists env' m' j', job_event sys_kill env m a what j = Ok (env', m', j') /\ ends env' = ends env /\ (forall l, tally skipped l m -> tally skipped l m') /\ books c total m' A /\ j' ∈ m_jobs m' /\ j_ev j' = j_ev j /\ j_evt j' = j_evt j /\ j_child j' = j_child j /\ j_tst j' = j_tst j.
Proof.
  intros Hb Hj Ha Hw. unfold job_event. destruct (what =? 0) eqn:Ew.
  - destruct (sys_kill env (- j_child j)) as [env' r] eqn:Ek. pose proof (ko_kill HK env (- j_child j)) as Hk. rewrite Ek in Hk. cbn in Hk. subst r. pose proof (ko_ends HK env) as (_ & _ & _ & _ & Hg & _). specialize (Hg (- j_child j)). rewrite Ek in Hg. cbn [Z.eqb assertC mbind outcome_bind]. eexists _, _, _. split; [done|]. split; [done|]. split; [done|]. split; [by apply books_killed|]. split; [|done]. cbn [m_jobs set_jobs]. unfold set_killed. apply list_elem_of_fmap. exists j. by rewrite Ha.
  - destruct Hw as [|Hw]; [lia|]. unfold readable in Hw. rewrite assertC_true by lia. cbn [mbind outcome_bind]. by exists env, m, j.
Qed.

Lemma job_done_ok env m A j : books c total m A -> j ∈ m_jobs m ->
  exists env' m' x st, job_done sys_wait sys_close env m j = Ok (env', m', x) /\ ends env' = ends env ++ [st] /\
    match x with
    | Some x => x = 2 /\ c_continue c = false /\ st_fail st = true
    | None => books c total m' (A ∖ {[j_evt j]} ∖ {[j_ev j]}) /\ forall l, tally skipped l m -> tally skipped (l ++ [st]) m'
    end.
Proof.
  intros Hb Hj. unfold job_done. destruct (sys_wait env (j_child j)) as [env1 [px stx]] eqn:Ew. pose proof (ko_wait HK env (j_child j)) as Hw. pose proof (ko_ends_wait HK env (j_child j)) as Hg. rewrite Ew in Hw, Hg. cbn in Hw, Hg. subst px. rewrite Z.eqb_refl. cbn [assertC mbind outcome_bind].
  destruct (sys_close env1 (j_fd j)) as [env2 r] eqn:Ec. pose proof (ko_close HK env1 (j_fd j)) as Hc. pose proof (ko_ends HK env1) as (_ & _ & _ & _ & _ & Hg2 & _). specialize (Hg2 (j_fd j)). rewrite Ec in Hc, Hg2. cbn in Hc, Hg2. subst r. cbn [Z.eqb assertC mbind outcome_bind]. set (m1 := write_trs _ _ _).
  assert (forall l, tally skipped l m -> tally skipped (l ++ [stx]) m1) as Htl by (intros l Hl; apply (count_test_ok _ _ (set_jobs m (m_jobs m) (m_njob m - 1)) stx) in Hl; unfold m1, write_trs; by destruct (td_trs_file _)). rewrite Hg in Hg2. destruct (exit_code_ok stx) as (_ & _ & Hfail).
  assert (m_conf m1 = c /\ m_tests m1 = m_tests m /\ m_head m1 = m_head m /\ m_jobs m1 = m_jobs m /\ m_njob m1 = m_njob m - 1 /\ m_good m1 + m_fail m1 + m_skip m1 = m_good m + m_fail m + m_skip m + 1) as (E1 & E2 & E3 & E4 & E5 & E6).
  { rewrite <-(bk_conf _ _ _ _ Hb). unfold m1, write_trs, count_test. destruct (td_trs_file _); destruct (exit_code stx =? 0); try destruct (exit_code stx =? 1); cbn; (do 5 (split; [done|]); lia). }
  destruct (_ && _ && _) eqn:Ex; [eexists _, _, (Some 2), stx; split; [done|]; split; [done|]; split; [done|]; rewrite E1, Hfail in Ex; destruct (c_continue c); [by rewrite andb_false_r in Ex|]; apply andb_true_iff in Ex as [[Ex _]%andb_true_iff _]; done|]. destruct (books_done c total m m1 A j Hb Hj E1 E2 E3 E4 E5 E6) as (m2 & Hm2 & Hj2 & Hn2 & Hb2). rewrite Hm2. cbn [mbind outcome_bind]. eexists _, _, None, stx. split; [done|]. split; [done|]. split; [done|]. intros l Hl. apply Htl in Hl. unfold tst_done in Hm2. destruct (tst_at _ _); cbn [mbind outcome_bind] in Hm2; [|done]. by injection Hm2 as <-.
Qed.

Lemma knows_job w A a : w_end w = None -> knows w A -> a ∈ A -> exists j, job_of (w_main w) a = Some j /\ j ∈ m_jobs (w_main w) /\ has_event a j = true /\ exists t, tst_at (w_main w) (j_tst j) = Ok t.
Proof.
  intros He (l & _ & Hk) Ha. rewrite He in Hk. destruct Hk as [[_ H2 _ _ _ _ _ _ H9 _] _]. rewrite H2, elem_of_list_to_set in Ha. destruct (find_job a _ Ha) as (j & Hf & Hj & Haj). exists j. split; [done|]. split; [done|]. split; [done|]. destruct (H9 j Hj) as [t Ht]. exists t. unfold tst_at. by rewrite Ht.
Qed.

Lemma tst_cb_ok LIM w A a what w' ops k : knows w A -> a ∈ A -> (what = 0 \/ readable what) -> cb w a what = (w', ops, k) ->
  allowed LIM a A ops /\ knows w' (remaining k a (after A ops)) /\ w_calls w' = w_calls w ++ [(a, what, ops)].
Proof.
  intros Hk Ha Hwh. unfold tst_cb. destruct (w_end w) as [x|] eqn:He; [intros [= <- <- <-]; split; [done|]; split; [|done]; destruct Hk as (l & Hl & Hk); exists l; split; [done|]; by rewrite He in Hk|]. destruct (knows_job w A a He Hk Ha) as (j & Hf & Hj & Haj & t & Ht). destruct Hk as (l & Hl & Hk). rewrite He in Hk. destruct Hk as [Hk Htl].
  unfold tst_cb_run. rewrite Hf, Ht. cbn [mbind outcome_bind]. destruct (job_event_ok (w_env w) (w_main w) A a what j Hk Hj Haj Hwh) as (env1 & m1 & j1 & -> & Hg1 & Hm1 & Hb1 & Hj1 & E1 & E2 & E3 & E4). cbn [mbind outcome_bind]. apply Hm1 in Htl. rewrite Hl in Hg1.
  destruct (job_read sys_read env1 a j1) as [env2 r] eqn:Er. assert (ends env2 = ends0 ++ l) as Hg2.
  { rewrite <-Hg1. unfold job_read in Er. destruct (a =? j_ev j1); [|by injection Er as <- _]. pose proof (ko_ends HK env1) as (_ & _ & _ & Hg & _). specialize (Hg (j_fd j1)). by rewrite Er in Hg. }
  assert ((mk_world env2 m1 None (w_calls w ++ [(a, what, [])]), [], 0) = (w', ops, k) -> allowed LIM a A ops /\ knows w' (remaining k a (after A ops)) /\ w_calls w' = w_calls w ++ [(a, what, ops)]) as Hquiet by (intros [= <- <- <-]; split; [done|]; split; [by exists l|done]).
  destruct r as [[|b bs]|]; [|exact Hquiet|exact Hquiet].
  destruct (job_done_ok env2 m1 A j1 Hb1 Hj1) as (env3 & m2 & x & st & -> & Hg3 & Hx). rewrite Hg2, <-app_assoc in Hg3. cbn [mbind outcome_bind].
  destruct x as [x|]; intros [= <- <- <-]; [split; [done|]; split; [|done]; exists (l ++ [st]); split; [done|]; cbn; destruct Hx as (-> & Hc & Hst); split; [done|]; split; [done|]; by exists l, st|].
  destruct Hx as [Hx Htl2]. assert (a = j_ev j1) as ->. { unfold job_read in Er. destruct (a =? j_ev j1) eqn:Ea; [lia|done]. } assert (j_evt j1 ∈ A /\ j_evt j1 <> j_ev j1) as [Hevt Hne].
  { pose proof Hb1 as [_ H2 H3 _ _ _ _ _ _ _]. rewrite H2, elem_of_list_to_set, elem_of_events. split; [exists j1; split; [done|unfold has_event; lia]|]. assert (has_event (j_ev j1) j1 = true) as Hev by (unfold has_event; lia).
    pose proof (events_of_perm _ _ (drop_job_perm (j_ev j1) j1 _ H3 Hj1 Hev)) as Hpe. rewrite Hpe in H3. apply NoDup_cons in H3 as [H3 _]. intros Heq. apply H3. rewrite Heq. left. }
  split; [cbn; done|]. split; [|done]. exists (l ++ [st]). split; [done|]. cbn [w_end w_main]. split; [exact Hx|auto].
Qed.

Lemma main_world_ok LIM : world_ok LIM cb (w_mono sys_mono) (w_poll sys_poll) readable knows w_calls.
Proof.
  split.
  - intros w A a what w' ops k Hk Ha Hwh Hcb. by eapply tst_cb_ok.
  - intros w w' t. unfold w_mono. pose proof (ko_ends HK (w_env w)) as (_ & _ & Hg & _). destruct (sys_mono _) as [env x]. cbn in Hg. intros [= <- <-]. split; [|done]. intros A (l & Hl & Hk). exists l. cbn. by rewrite Hg.
  - intros w fds tmo w' sigs res. unfold w_poll. destruct (sys_poll _ fds tmo) as [[env sg] r] eqn:Ep. intros [= <- <- <-]. destruct (ko_poll HK _ _ _ _ _ _ Ep) as [-> Hr]. pose proof (ko_ends HK (w_env w)) as (_ & _ & _ & _ & _ & _ & Hg). specialize (Hg fds tmo). rewrite Ep in Hg. cbn in Hg.
    split; [intros A (l & Hl & Hk); exists l; cbn; by rewrite Hg|]. do 2 (split; [done|]). exact Hr.
Qed.

(** ** The loop *)

Context (LIM : Z) (Hlim : LIM < 2 ^ 30) (Hroom : 2 * Z.max 0 (c_npar c) + 2 < LIM).
Abbreviation fine := (idle sigaction_ok LIM knows).

Lemma events_size m A : books c total m A -> Z.of_nat (size A) = 2 * m_njob m.
Proof.
  intros [_ H2 H3 H4 _ _ _ _ _ _]. rewrite H2, H4, size_list_to_set by done. unfold events_of. clear. induction (m_jobs m) as [|j l IH]; [done|]. cbn [flat_map app length] in *. lia.
Qed.
Lemma tlt_irrefl x : tlt x x = false.
Proof. destruct (tlt x x) eqn:Ex; [|done]. by rewrite (tlt_asym x x Ex) in Ex. Qed.
Lemma ev_plain fd : plain (job_ev_event (T:=T) fd).
Proof. split; try done; [apply tlt_irrefl|by right]. Qed.
Lemma evt_plain : plain (job_evt_event maxdur).
Proof. split; try done; [apply HK|by left]. Qed.

Lemma start_event_ok env s a e : tidy sigaction_ok s -> a ∉ addrs s -> plain e -> r_lpfd (s_root s) < 2 ^ 30 -> (forall b, found s b = 0) ->
  exists env' s', start_event sys_mono calloc_ok sigaction_ok env s a e = Ok (env', s') /\ ends env' = ends env /\ tidy sigaction_ok s' /\ addrs s' = {[a]} ∪ addrs s /\ r_psig (s_root s') = r_psig (s_root s) /\ forall b, found s' b = 0.
Proof.
  intros Ht Ha He Hl Hf. unfold start_event. pose proof (ko_ends HK env) as (_ & _ & Hg & _). destruct (sys_mono env) as [env' now]. destruct (start_ok calloc_ok sigaction_ok s a e now Ht Ha (plain_startable _ _ _ _ He) Hl) as (s' & -> & Ht' & Hd' & Hp' & Hf' & Hk'). cbn [mbind outcome_bind Z.eqb assertC]. exists env', s'. do 5 (split; [done|]). intros b. destruct (decide (b = a)) as [->|Hne]; [done|]. by rewrite (keeps_found _ _ _ (Hk' b Hne)).
Qed.

Lemma start_test_ok w s : fine w s -> w_end w = None -> m_head (w_main w) <> [] -> m_njob (w_main w) < c_npar c ->
  exists env' m' s', start_test maxdur sys_pipe sys_fork sys_mono malloc calloc_ok sigaction_ok (w_env w) (w_main w) s = Ok (env', m', s') /\ fine (mk_world env' (set_jobs m' (m_jobs m') (m_njob m' + 1)) None (w_calls w)) s'.
Proof.
  intros [Ht Hl (l & Hends & HJ) Hps Hz] He Hh Hn. rewrite He in HJ. destruct HJ as [HJ Htl]. pose proof (events_size _ _ HJ) as Hsz. pose proof (lpfd_size _ s Ht) as Hlp. pose proof (bk_npar _ _ _ _ HJ) as Hnp. unfold start_test.
  set (ev := malloc (addrs s)). pose proof (ko_malloc HK (addrs s)) as Hev. fold ev in Hev. set (evt := malloc ({[ev]} ∪ addrs s)). pose proof (ko_malloc HK ({[ev]} ∪ addrs s)) as Hevt. fold evt in Hevt.
  pose proof (ko_pipe HK (w_env w)) as Hpp. pose proof (proj1 (ko_ends HK (w_env w))) as Hg1. destruct (sys_pipe (w_env w)) as [env1 [p0 p1]]. cbn in Hpp, Hg1. pose proof (ko_fork HK env1) as Hfk. pose proof (proj1 (proj2 (ko_ends HK env1))) as Hg2. destruct (sys_fork env1) as [env2 child] eqn:Ef. cbn in Hfk, Hg2.
  destruct (books_start c total _ _ child ev evt p0 HJ Hh Hn Hev Hevt) as (i & m1 & Hm1 & _ & Hb1). rewrite Hm1. cbn [mbind outcome_bind]. rewrite !assertC_true by lia. cbn [mbind outcome_bind]. rewrite ?Ef, ?assertC_true by lia. cbn [mbind outcome_bind].
  assert (forall b, found s b = 0) as Hf0 by (intros b; by eapply idle_found). change (malloc (dom (s_events s))) with ev.
  destruct (start_event_ok env2 s ev (job_ev_event p0) Ht Hev (ev_plain p0)) as (env3 & s1 & -> & Hg3 & Ht1 & Hd1 & Hp1 & Hf1); [lia|done|]. cbn [mbind outcome_bind]. pose proof (lpfd_size _ s1 Ht1) as Hlp1. rewrite Hd1, (size_add _ _ Hev) in Hlp1.
  change (malloc (dom (s_events s1))) with (malloc (addrs s1)). rewrite Hd1. fold evt. destruct (start_event_ok env3 s1 evt (job_evt_event maxdur) Ht1) as (env4 & s2 & -> & Hg4 & Ht2 & Hd2 & Hp2 & Hf2); [by rewrite Hd1|apply evt_plain|lia|done|]. cbn [mbind outcome_bind]. eexists _, _, s2. split; [done|].
  rewrite Hd1 in Hd2. split; [done| | |by rewrite Hp2, Hp1|by apply (found_idle sigaction_ok)].
  - rewrite Hd2, (size_add _ _ Hevt), (size_add _ _ Hev). lia.
  - exists l. cbn [w_env w_end w_main]. split; [by rewrite Hg4, Hg3, Hg2, Hg1|]. rewrite Hd2. split; [exact Hb1|]. unfold next_test in Hm1. destruct (m_head (w_main w)); [done|]. destruct (tst_at _ _); cbn [mbind outcome_bind] in Hm1; [|done].
    destruct (assertC _); cbn [mbind outcome_bind] in Hm1; [|done]. by injection Hm1 as _ <-.
Qed.

Lemma main_loop_ok n b (Hn : LIM <= Z.of_nat n) (Hb : LIM <= Z.of_nat b) k : forall w s i, fine w s -> (i = 0 -> addrs s = ∅) ->
  loop k n b w s i = Fault FFuel \/
  exists w' s', loop k n b w s i = Ok (w', s') /\ fine w' s' /\ (w_end w' = None -> addrs s' = ∅ /\ m_head (w_main w') = []).
Proof.
  induction k as [|k IH]; intros w s i Hf Hi; [by left|]. cbn [main_loop]. case_bool_decide as He; [right; exists w, s; split; [done|]; split; [done|]; intros He'; by destruct He|].
  pose proof He as Hen. destruct (id_world _ _ _ _ _ Hf) as (l0 & _ & HJ). rewrite Hen in HJ. pose proof (bk_conf _ _ _ _ (proj1 HJ)) as Hc.
  destruct (bool_decide (m_head (w_main w) = [])) eqn:Eh; cbn [andb negb].
  - apply bool_decide_eq_true in Eh. destruct (i =? 0) eqn:Ei; [right; exists w, s; split; [done|]; split; [done|]; intros _; split; [apply Hi; lia|done]|].
    destruct (VEV_Once_ok calloc_ok sigaction_ok LIM Hlim cb (w_mono sys_mono) (w_poll sys_poll) readable knows w_calls (main_world_ok LIM) w s n b Hf Hn Hb) as (w' & s' & j & l & -> & Hf' & _ & _ & Hj & _). cbn [mbind outcome_bind]. by apply IH.
  - apply bool_decide_eq_false in Eh. rewrite Hc. destruct (_ <? c_npar c) eqn:En.
    + destruct (start_test_ok w s Hf Hen Eh) as (env' & m' & s' & -> & Hf'); [lia|]. cbn [mbind outcome_bind]. rewrite Hen. by apply IH.
    + destruct (VEV_Once_ok calloc_ok sigaction_ok LIM Hlim cb (w_mono sys_mono) (w_poll sys_poll) readable knows w_calls (main_world_ok LIM) w s n b Hf Hn Hb) as (w' & s' & j & l & -> & Hf' & _ & _ & Hj & _). cbn [mbind outcome_bind]. by apply IH.
Qed.

(** Nothing is left to run. *)
Lemma books_closed m : books c total m ∅ -> m_head m = [] -> m_njob m = 0 /\ m_good m + m_fail m + m_skip m = total.
Proof.
  intros Hb Hh. pose proof (events_size _ _ Hb) as Hsz. rewrite size_empty in Hsz. destruct Hb as [_ _ _ H4 _ H6 _ _ _ H10]. split; [lia|]. assert (m_jobs m = []) as Hj by (apply length_zero_iff_nil; lia).
  assert (forall i t, m_tests m !! i = Some (Some t) -> False) as Hno. { intros i t Ht. destruct (H6 i t Ht) as [T1 T2 T3 T4]. rewrite Hh, Hj in *. unfold jobs_of in T1. cbn in T1. assert (~ 0 < t_ntodo t) by (rewrite T4; apply not_elem_of_nil). lia. }
  assert (runs_left (m_tests m) = 0) as Hr; [|lia]. clear - Hno. induction (m_tests m) as [|t l IH]; [done|]. cbn [runs_left]. rewrite IH; [|intros i x Hx; by apply (Hno (S i) x)]. destruct t as [t|]; [|done]. by destruct (Hno 0%nat t).
Qed.

(** The status is that of the ends of the tests. *)
Lemma status_verdict l m : tally skipped l m -> 0 <= skipped -> main_status m = verdict (for_automake m) skipped l.
Proof.
  intros (H1 & H2 & H3) Hs. unfold main_status, verdict. rewrite !existsb_count, H1, H2, H3. pose proof (count_nonneg st_skip l). pose proof (count_nonneg st_pass l).
  unfold for_automake. destruct (td_trs_file m); [done|]. rewrite bool_decide_true by done. cbn [negb]. destruct (count st_fail l =? 0); cbn [negb]; [|done]. destruct (count st_pass l =? 0), (count st_skip l =? 0) eqn:Q1, (skipped =? 0) eqn:Q2; cbn [negb andb orb]; rewrite ?andb_false_r; try done; (destruct (skipped + count st_skip l =? 0) eqn:Q3; cbn [negb andb]; done || lia).
Qed.

(** The run of the loop, and how it ends. *)
Definition run_ends (env : E) (automake : bool) (runs : Z) (o : outcome Z) (w : world E T) : Prop :=
  exists l, ends (w_env w) = ends env ++ l /\
    ((o = Ok 2 /\ c_continue c = false /\ exists l' st, l = l' ++ [st] /\ st_fail st = true) \/
     (o = Ok (verdict automake skipped l) /\ Z.of_nat (length l) = runs /\ m_njob (w_main w) = 0)).

Lemma run_main_books k n b pg env m (Hn : LIM <= Z.of_nat n) (Hb : LIM <= Z.of_nat b) (Hpg : 2 <= pg <= 19) : ends0 = ends env -> books c total m ∅ -> tally skipped [] m -> 0 <= skipped ->
  let o := run_main maxdur sys_pipe sys_fork sys_read sys_kill sys_wait sys_close sys_poll sys_mono malloc calloc_ok sigaction_ok k n b (2 ^ (pg + 3)) env m in
  exists r, VEV_New (T:=T) (2 ^ (pg + 3)) = Ok r /\
    match loop k n b (mk_world env m None []) (mk_vstate ∅ r []) 0 with
    | Fault f => f = FFuel /\ o = Fault FFuel
    | Ok (w, _) => run_ends env (for_automake m) (total - skipped) o w
    end.
Proof.
  intros He Hbk Htl Hsk o. destruct (new_ok (T:=T) sigaction_ok pg Hpg) as (r & Hr & Ht & Hd & Hz & Hp). exists r. split; [done|]. unfold o, run_main. rewrite Hr. cbn [mbind outcome_bind]. set (w := mk_world env m None []). set (s := mk_vstate ∅ r []) in *.
  assert (fine w s) as Hf by (split; [done|rewrite Hd, size_empty; lia|exists []; rewrite Hd, app_nil_r; by split|done|done]). destruct (main_loop_ok n b Hn Hb k w s 0 Hf) as [->|(w' & s' & -> & Hf' & Hend)]; [done|done|]. cbn [mbind outcome_bind].
  destruct (id_world _ _ _ _ _ Hf') as (l & Hl & HJ). rewrite He in Hl. exists l. split; [done|]. destruct (w_end w') as [[x|x]|]; [destruct HJ as (-> & Hc & Hx); by left|done|]. right. destruct Hend as [Ha Hh]; [done|]. rewrite Ha in HJ. destruct HJ as [HJ Htl'].
  destruct (books_closed _ HJ Hh) as [Hj Ht']. rewrite (status_verdict l (w_main w')) by done. assert (for_automake (w_main w') = for_automake m) as -> by (unfold for_automake, td_trs_file; by rewrite (bk_conf _ _ _ _ HJ), (bk_conf _ _ _ _ Hbk)). split; [done|]. split; [|done].
  destruct Htl' as (H1 & H2 & H3). pose proof (count_all l). lia.
Qed.
End main.

(** ** From the arguments on *)

Definition no_tests (c : conf) : mstate := mk_main c [] [] [] 0 0 0 0 None.
(** Tests that have been read and not begun. *)
Record fresh_tests (m : mstate) : Prop := {
  ft_books : books (m_conf m) (m_skip m + Z.of_nat (length (m_tests m)) * u32 (c_ntest (m_conf m))) m ∅;
  ft_jobs : m_jobs m = [];
  ft_counts : m_good m = 0 /\ m_fail m = 0;
  ft_skip : 0 <= m_skip m
}.
Lemma no_tests_fresh c : fresh_tests (no_tests c).
Proof.
  split; [|done|done|done]. split; cbn; try done; [constructor|lia|constructor|intros i Hi|intros j Hj]; [by apply not_elem_of_nil in Hi|by apply not_elem_of_nil in Hj].
Qed.
Lemma runs_left_app l t : runs_left (l ++ [t]) = runs_left l + nwait_of t.
Proof. induction l as [|x l IH]; cbn [app runs_left]; [lia|rewrite IH; lia]. Qed.

Lemma read_file_conf m fn script m' r : read_file m fn script = Ok (m', r) -> m_conf m' = m_conf m.
Proof.
  unfold read_file. destruct script as [p|]; [|by intros [= <- <-]]. destruct (skip_comments _ p) as [[q|]|]; cbn [mbind outcome_bind]; [|by intros [= <- <-]|done]. destruct (deref q) as [x|]; cbn [mbind outcome_bind]; [|done]. destruct (x =? 0); [by intros [= <- <-]|].
  destruct (starts_test q "varnishtest") as [va|]; cbn [mbind outcome_bind]; [|done]. destruct (starts_test q "vtest") as [vb|]; cbn [mbind outcome_bind]; [|done]. by destruct (negb va && negb vb); intros [= <- <-].
Qed.
Lemma read_file_fresh m fn script m' r : 0 < u32 (c_ntest (m_conf m)) -> fresh_tests m -> read_file m fn script = Ok (m', r) -> fresh_tests m' /\ m_conf m' = m_conf m.
Proof.
  intros Hpos Hft. unfold read_file. destruct script as [p|]; [|by intros [= <- <-]]. destruct (skip_comments _ p) as [[q|]|]; cbn [mbind outcome_bind]; [|by intros [= <- <-]|done]. destruct (deref q) as [x|]; cbn [mbind outcome_bind]; [|done]. destruct (x =? 0); [by intros [= <- <-]|].
  destruct (starts_test q "varnishtest") as [va|]; cbn [mbind outcome_bind]; [|done]. destruct (starts_test q "vtest") as [vb|]; cbn [mbind outcome_bind]; [|done]. destruct Hft as [[H1 H2 H3 H4 H5 H6 H7 H8 H9 H10] Hj [Hg Hfl] Hsk].
  destruct (negb va && negb vb); intros [= <- <-].
  - split; [|done]. split; [|done|done|cbn; lia]. split; try done; [intros i t Ht; by destruct (H6 i t Ht)|]. cbn [m_good m_fail m_skip m_tests m_conf set_counts]. lia.
  - split; [|done]. set (t := mk_tst _ _ _ _). assert (forall i x, (m_tests m ++ [Some t]) !! i = Some (Some x) -> m_tests m !! i = Some (Some x) \/ (i = length (m_tests m) /\ x = t)) as Hlk.
    { intros i y Hy. apply lookup_app_Some in Hy as [Hy|[Hy1 Hy2]]; [by left|]. apply list_lookup_singleton_Some in Hy2 as [Hi Hy2]. right. split; [lia|by injection Hy2]. }
    assert (length (m_tests m) ∉ m_head m) as Hnew. { intros Hin. destruct (H8 _ Hin) as [y Hy]. apply lookup_lt_Some in Hy. lia. }
    split; [|done|done|done]. split; cbn [m_conf m_tests m_head m_jobs m_njob m_good m_fail m_skip set_tests]; try done.
    + intros i y Hy. destruct (Hlk i y Hy) as [Hy'|[-> ->]].
      * destruct (H6 i y Hy') as [X1 X2 X3 X4]. split; try done. cbn. rewrite elem_of_app, X4, list_elem_of_singleton. apply lookup_lt_Some in Hy'. split; [auto|intros [?|?]; [done|lia]].
      * split; cbn; [rewrite Hj; unfold jobs_of; cbn; lia|lia|split; [lia|apply wrapu_range; lia]|]. rewrite elem_of_app, list_elem_of_singleton. split; auto.
    + apply NoDup_app. split; [done|]. split; [|apply NoDup_singleton]. intros i Hi. rewrite list_elem_of_singleton. by intros ->.
    + intros i. rewrite elem_of_app, list_elem_of_singleton. intros [Hi| ->]; [|exists t; by rewrite lookup_app_r, Nat.sub_diag by lia]. destruct (H8 i Hi) as [y Hy]. exists y. by rewrite lookup_app_l by (by eapply lookup_lt_Some).
    + intros j Hj'. rewrite Hj in Hj'. by apply not_elem_of_nil in Hj'.
    + rewrite runs_left_app, length_app. cbn. lia.
Qed.
Lemma read_files_fresh readfile files : forall m m', 0 < u32 (c_ntest (m_conf m)) -> fresh_tests m -> read_files readfile m files = Ok (inl m') -> fresh_tests m' /\ m_conf m' = m_conf m.
Proof.
  induction files as [|fn files IH]; intros m m' Hpos Hft; cbn [read_files]; [by intros [= <-]|]. destruct (read_file m fn (readfile fn)) as [[m1 r]|] eqn:Er; cbn [mbind outcome_bind]; [|done]. destruct (read_file_fresh m fn _ m1 r Hpos Hft Er) as [Hft1 Hc1]. destruct (_ || _); [|done]. rewrite <-Hc1. apply IH; [by rewrite Hc1|done].
Qed.


(** *** An example

    Two files, each run twice, two jobs at once, and going on behind failures; the
    first poll is interrupted, every child ends at once, the second is skipped and
    the third fails.  The kernel knows the ends it has given. *)

Definition example_malloc (A : gset Z) : Z := 1 + foldr Z.max 0 (elements A).
Definition kstate : Type := list Z * bool.
Definition example_read (e : kstate) (fd : Z) : kstate * option (list Z) := (e, Some []).
Definition example_wait (e : kstate) (p : Z) : kstate * (Z * Z) := let st := nth (length e.1) [0; 256; 512] 0 in ((e.1 ++ [st], e.2), (p, st)).
Definition example_kernel_poll (e : kstate) (fds : list pollfd) (tmo : Z) : kstate * list Z * poll_res :=
  ((e.1, true), [], if e.2 then match fds with [] => PollErr | _ => PollOk (Z.of_nat (length fds)) (map (fun _ => 1) fds) end else PollIntr).
Definition example_conf : conf := mk_conf 1048576 false [] [] false 1 0 false 1 [] 1 60 [].
Definition example_file (fn : list Z) : option (list Z) := Some (str "vtest x" ++ [0]).
Definition example_opts : list (Z * list Z) := [(106, str "2"); (110, str "2"); (107, [])].
Definition example_args : outcome args := usual_arguments (fun _ => true) example_file (no_tests example_conf) example_opts [str "a"; str "b"].
Definition example_main : mstate := match example_args with Ok (inl m) => m | _ => no_tests example_conf end.
Definition example_pipe (e : kstate) : kstate * (Z * Z) := (e, (10, 11)).
Definition example_fork (e : kstate) : kstate * Z := (e, 100).
Definition example_zero (e : kstate) (x : Z) : kstate * Z := (e, 0).
Definition example_clock (e : kstate) : kstate * Z := (e, 5).
Definition example_start : kstate := ([], false).
Abbreviation example_run k :=
  (run_main (T:=Z) 60000 example_pipe example_fork example_read example_zero example_wait example_zero example_kernel_poll example_clock example_malloc (fun _ => true) (fun _ => true) k 8 8 (2 ^ (9 + 3)) example_start example_main).

Lemma example_kernel_ok : kernel_ok (T:=Z) 60000 example_pipe example_fork example_read example_zero example_wait example_zero example_kernel_poll example_clock example_malloc fst.
Proof.
  split; try done.
  - intros A Hin. unfold example_malloc in Hin. assert (forall l x, x ∈ l -> x <= foldr Z.max 0 l) as Hmax. { induction l as [|y l IH]; intros x Hx; [by apply not_elem_of_nil in Hx|]. apply elem_of_cons in Hx as [->|Hx]; cbn; [lia|]. specialize (IH x Hx). lia. }
    apply elem_of_elements in Hin. specialize (Hmax _ _ Hin). lia.
  - intros e fds tmo e' sigs res [= <- <- <-]. split; [done|]. destruct (e.2); [|done]. destruct fds as [|f fds]; [done|]. split; [by rewrite length_map|]. split; [intros r Hr; right|].
    + change (map _ (f :: fds)) with ((fun _ => 1) <$> (f :: fds)) in Hr. apply list_elem_of_fmap in Hr as (x & -> & _). done.
    + split; [|cbn; lia]. assert (forall l : list pollfd, filter (fun r : Z => r <> 0) (map (fun _ => 1) l) = map (fun _ => 1) l) as -> by (induction l as [|? l IH]; [done|]; cbn [map]; rewrite filter_cons, decide_True by done; by rewrite IH). by rewrite length_map.
Qed.
Lemma example_args_ok : example_args = Ok (inl example_main).
Proof. vm_compute. reflexivity. Qed.
Example example_run_ok : example_run 30 = Ok 1.
Proof. vm_compute. reflexivity. Qed.
Lemma example_conf_ok : c_npar (m_conf example_main) = 2 /\ u32 (c_ntest (m_conf example_main)) = 2 /\ m_skip example_main = 0 /\ length (m_tests example_main) = 2%nat /\
  c_continue (m_conf example_main) = true /\ for_automake example_main = false.
Proof. vm_compute. done. Qed.


(** ** Where it fails *)

(** With [-j 0] and a test to run the loop goes on for ever, and nothing happens. *)
Theorem no_jobs_spins {T E} `{!Time T} (maxdur : T) sys_pipe sys_fork sys_read sys_kill sys_wait sys_close sys_poll sys_mono malloc calloc_ok sigaction_ok n b k (w : world E T) s i :
  tidy sigaction_ok s -> addrs s = ∅ -> r_psig (s_root s) = 0 -> w_end w = None -> m_head (w_main w) <> [] -> m_njob (w_main w) = 0 -> c_npar (m_conf (w_main w)) <= 0 ->
  main_loop maxdur sys_pipe sys_fork sys_read sys_kill sys_wait sys_close sys_poll sys_mono malloc calloc_ok sigaction_ok k n b w s i = Fault FFuel.
Proof.
  intros Ht Ha Hp He Hh Hn Hc. revert i. induction k as [|k IH]; intros i; [done|]. cbn [main_loop]. rewrite bool_decide_false by tauto. rewrite (bool_decide_false (m_head (w_main w) = [])) by done. cbn [andb negb]. replace (_ <? _) with false by lia.
  assert (VEV_Once calloc_ok sigaction_ok (tst_cb (T:=T) sys_read sys_kill sys_wait sys_close) (w_mono sys_mono) (w_poll sys_poll) n b w s = Ok (w, s, 0)) as ->; [|cbn [mbind outcome_bind]; apply IH].
  pose proof (lpfd_size sigaction_ok s Ht) as Hl. rewrite Ha, size_empty in Hl. pose proof Ht as [[[[Hr _] _ _ _ _] _] _]. unfold VEV_Once. rewrite assertC_true by lia. cbn [mbind outcome_bind]. rewrite Hp. cbn [Z.eqb negb].
  destruct (root_ok sigaction_ok s Ht) as (r & -> & Hroot). cbn [mbind outcome_bind]. destruct r as [a|]; [destruct Hroot as [[Hin _] _]; rewrite Ha in Hin; set_solver|]. unfold wait_events. rewrite Hl. done.
Qed.
(** With [-n 0] the first test fails an assertion. *)
Theorem no_iterations m i h t : m_head m = i :: h -> m_tests m !! i = Some (Some t) -> t_ntodo t = 0 -> next_test m = Fault FAssert.
Proof. intros Hh Ht Hz. unfold next_test, tst_at. rewrite Hh, Ht. cbn [mbind outcome_bind]. by rewrite Hz. Qed.
(** A test that is killed, and ends with status zero none the less, passes and fails. *)
Lemma killed_passes m : m_good (count_test m 0) = m_good m + 1 /\ trs_of true 0 = Trs_FAIL.
Proof. done. Qed.
(** No repetition fails an assertion of VSB_init, and the count loses its high
    bits. *)
Example repeat_none : macro_func_string [[]; str "string"; str "repeat"; str "0"; str "x"] = Fault FAssert.
Proof. vm_compute. reflexivity. Qed.
Example repeat_some : macro_func_string [[]; str "string"; str "repeat"; str "3"; str "ab"] = Ok (Some (str "ababab")).
Proof. vm_compute. reflexivity. Qed.
Example repeat_wraps : macro_func_string [[]; str "string"; str "repeat"; str "4294967297"; str "ab"] = Ok (Some (str "ab")).
Proof. vm_compute. reflexivity. Qed.
