(* ===== verification/Sess.v ===== *)
(** * Sessions, clients and servers (src/vtc_sess.c, vtc_client.c, vtc_server.c)

    The commands that make clients and servers and start their threads, and what
    the threads do around the scripts they run.  Sockets and threads belong to a
    kernel, which the class [Kernel] states; running a script, which Http1.v and
    H2Cmds.v model, is an argument.  Log lines are left out. *)

From Stdlib Require Import ZArith Lia ZifyBool.
From Stdlib Require Import String.
From stdpp Require Import base option numbers list.
From S2P Require Import Prelude HpackData CStr Vct Vsb VsbQuote Macro VtcSubr Http1 Vsa Proxy Tunnel.
#[local] Open Scope Z_scope.
#[local] Open Scope list_scope.

(** ** The kernel *)

(** Sockets are numbers, -1 when a call failed.  [k_write], [k_unlink],
    [k_shutdown] and [k_close] say whether the result passes the test behind the
    call (all was written; gone or never there; VTCP_Check of vtcp.c for the last
    two).  [k_listen_uds] and [k_listen_tcp] return None where [*errp] is set.
    Threads are numbers that are not 0; [k_join] and [k_cancel] are undefined,
    None, for a thread that was not created or was joined, and [k_join] says
    whether the thread returned NULL. *)
Class Kernel (E : Type) := {
  k_connect : E -> list Z -> E * Z;
  k_write : E -> Z -> list Z -> E * bool;
  k_accept : E -> Z -> E * Z;
  k_unlink : E -> list Z -> E * bool;
  k_listen_uds : E -> list Z -> E * option Z;
  k_listen_tcp : E -> list Z -> E * option Z;
  k_sockname : E -> Z -> suckaddr;
  k_shutdown : E -> Z -> E * bool;
  k_close : E -> Z -> E * bool;
  k_create : E -> E * Z;
  k_cancel : E -> Z -> option E;
  k_join : E -> Z -> option (E * bool);
  vtc_error : E -> bool;
  vtc_stop : E -> bool
}.

(** ** Sessions *)

(** [struct vtc_sess]; [fd] belongs to the thread. *)
Record vtc_sess := mk_sess { v_name : list Z; v_repeat : Z; v_keepalive : bool; v_rcvbuf : Z }.
Definition Sess_New (name : list Z) : vtc_sess := mk_sess name 1 false 0.

(** The session and the arguments that are left, None when there is no option of
    a session; [av] has a NULL after its last element. *)
Definition Sess_GetOpt (vsp : vtc_sess) (av : list (list Z)) : outcome (option (vtc_sess * list (list Z))) :=
  match av with
  | [] => Fault FAssert
  | a :: av =>
      if streq a "-rcvbuf" then
        match av with [] => Fault FAssert | n :: av => Ok (Some (mk_sess (v_name vsp) (v_repeat vsp) (v_keepalive vsp) (atoi n), av)) end
      else if streq a "-repeat" then
        match av with [] => Fault FAssert | n :: av => Ok (Some (mk_sess (v_name vsp) (atoi n) (v_keepalive vsp) (v_rcvbuf vsp), av)) end
      else if streq a "-keepalive" then Ok (Some (mk_sess (v_name vsp) (v_repeat vsp) true (v_rcvbuf vsp), av))
      else Ok None
  end.

(** ** The thread of a session *)

Section thread.
Context {E : Type} (conn_f : E -> outcome (E * Z)) (disc_f : E -> Z -> outcome (E * Z)) (process : E -> Z -> outcome (E * Z)).

(** [for (i = 0; i < vsp->repeat; i++)], for [n] turns. *)
Fixpoint sess_loop (n : nat) (keepalive : bool) (e : E) (fd : Z) : outcome (E * Z) :=
  match n with
  | O => Ok (e, fd)
  | S n =>
      '(e, fd) ← (if fd <? 0 then conn_f e else Ok (e, fd));
      '(e, fd) ← process e fd;
      '(e, fd) ← (if keepalive then Ok (e, fd) else disc_f e fd);
      sess_loop n keepalive e fd
  end.
Definition sess_thread (vsp : vtc_sess) (e : E) : outcome E :=
  _ ← assertC (0 <? v_repeat vsp);
  '(e, fd) ← sess_loop (Z.to_nat (v_repeat vsp)) (v_keepalive vsp) e (-1);
  if v_keepalive vsp then '(e, _) ← disc_f e fd; Ok e else Ok e.
End thread.

(** ** Clients and servers *)

(** [struct client] and [struct server]; the thread is 0 when there is none. *)
Record client := mk_client {
  c_name : list Z;
  c_vsp : vtc_sess;
  c_spec : option (list Z);
  c_connect : list Z;
  c_addr : option (list Z);
  c_proxy : option (list Z * Z);
  c_running : bool;
  c_tp : Z
}.
Record server := mk_server {
  s_name : list Z;
  s_vsp : vtc_sess;
  s_run : bool;
  s_spec : option (list Z);
  s_sock : Z;
  s_fd : Z;
  s_is_dispatch : bool;
  s_listen : list Z;
  s_addr : list Z * list Z;
  s_tp : Z
}.
Definition set_c_vsp c x := mk_client (c_name c) x (c_spec c) (c_connect c) (c_addr c) (c_proxy c) (c_running c) (c_tp c).
Definition set_c_spec c x := mk_client (c_name c) (c_vsp c) (Some x) (c_connect c) (c_addr c) (c_proxy c) (c_running c) (c_tp c).
Definition set_c_connect c x := mk_client (c_name c) (c_vsp c) (c_spec c) x (c_addr c) (c_proxy c) (c_running c) (c_tp c).
Definition set_c_proxy c x := mk_client (c_name c) (c_vsp c) (c_spec c) (c_connect c) (c_addr c) (Some x) (c_running c) (c_tp c).
Definition set_c_thread c addr r tp := mk_client (c_name c) (c_vsp c) (c_spec c) (c_connect c) addr (c_proxy c) r tp.
Definition set_s_vsp s x := mk_server (s_name s) x (s_run s) (s_spec s) (s_sock s) (s_fd s) (s_is_dispatch s) (s_listen s) (s_addr s) (s_tp s).
Definition set_s_spec s x := mk_server (s_name s) (s_vsp s) (s_run s) (Some x) (s_sock s) (s_fd s) (s_is_dispatch s) (s_listen s) (s_addr s) (s_tp s).
Definition set_s_fd s x := mk_server (s_name s) (s_vsp s) (s_run s) (s_spec s) (s_sock s) x (s_is_dispatch s) (s_listen s) (s_addr s) (s_tp s).
Definition set_s_sock s x l a := mk_server (s_name s) (s_vsp s) (s_run s) (s_spec s) x (s_fd s) (s_is_dispatch s) l a (s_tp s).
Definition set_s_thread s r tp := mk_server (s_name s) (s_vsp s) r (s_spec s) (s_sock s) (s_fd s) (s_is_dispatch s) (s_listen s) (s_addr s) tp.

(** [VUS_is]. *)
Definition VUS_is (path : list Z) : bool := match path with c :: _ => (c =? 47) || (c =? 64) | [] => false end.
(** [VTC_CHECK_NAME] of a name that is not NULL. *)
Definition VTC_CHECK_NAME (nm : list Z) (chr : Z) : outcome unit := if bool_decide (head nm = Some chr) then Ok tt else Fault FFatal.
(** [**av == '-']. *)
Definition dashed (a : list Z) : bool := bool_decide (head a = Some 45).

(** The lists [clients] and [servers], the counter [sn] of dispatched servers,
    the macros and the kernel. *)
Record sstate (E : Type) := mk_sstate {
  st_clients : list client;
  st_servers : list server;
  st_sn : Z;
  st_macros : list macro;
  st_env : E
}.
Arguments mk_sstate {E}. Arguments st_clients {E}. Arguments st_servers {E}. Arguments st_sn {E}. Arguments st_macros {E}. Arguments st_env {E}.

Section cmds.
Context {E : Type} `{Kernel E}.
(** [VTCP_name], [VSS_ResolveOne], [malloc], and a variable of vtc_main.c. *)
Context (VTCP_name : suckaddr -> list Z * list Z) (resolve : list Z -> option suckaddr) (malloc : Z -> option (list Z)) (ign_unknown_macro : bool) (default_listen_addr : list Z).
(** [sess_process]: the descriptor it is given and the one it returns. *)
Context (process : option (list Z) -> E -> Z -> outcome (E * Z)).
Abbreviation state := (sstate E).
Implicit Types (st : state) (e : E) (c : client) (s : server).

(** [VTCP_close]: the descriptor becomes -1. *)
Definition VTCP_close e (fd : Z) : outcome (E * Z) := let '(e, ok) := k_close e fd in _ ← assertC ok; Ok (e, -1).
(** [VTCP_close] of a descriptor that is open. *)
Definition close_open e (fd : Z) : outcome (E * Z) := if 0 <=? fd then VTCP_close e fd else Ok (e, fd).
Definition pthread_join e (tp : Z) : outcome (E * bool) := match k_join e tp with Some x => Ok x | None => Fault FUndef end.
Definition pthread_cancel e (tp : Z) : outcome E := match k_cancel e tp with Some e => Ok e | None => Fault FUndef end.

(** *** The thread of a client *)

Definition client_connect c e : outcome (E * Z) :=
  match c_addr c with
  | None => Fault FUndef
  | Some addr =>
      let '(e, fd) := k_connect e addr in
      if fd <? 0 then Fault FFatal
      else
        match c_proxy c with
        | None => Ok (e, fd)
        | Some (spec, version) =>
            b ← client_proxy VTCP_name resolve version spec;
            let '(e, ok) := k_write e fd b in
            if ok : bool then Ok (e, fd) else Fault FFatal
        end
  end.
Definition client_conn := client_connect.
Definition client_disc e (fd : Z) : outcome (E * Z) := VTCP_close e fd.
Definition client_thread c e : outcome E := sess_thread (client_conn c) client_disc (process (c_spec c)) (c_vsp c) e.

(** *** The thread of a server *)

Definition server_conn s e : outcome (E * Z) := let '(e, fd) := k_accept e (s_sock s) in if fd <? 0 then Fault FFatal else Ok (e, fd).
Definition server_disc e (fd : Z) : outcome (E * Z) :=
  let '(e, ok) := k_shutdown e fd in
  if negb (vtc_stop e) && negb ok then Fault FFatal else VTCP_close e fd.
Definition server_thread s e : outcome E := sess_thread (server_conn s) server_disc (process (s_spec s)) (s_vsp s) e.
Definition server_dispatch_wrk s e : outcome (E * server) :=
  _ ← assertC (s_sock s <? 0);
  '(e, fd) ← process (s_spec s) e (s_fd s);
  let '(e, ok) := k_shutdown e fd in
  if negb ok then Fault FFatal
  else '(e, fd) ← VTCP_close e (s_fd s); Ok (e, set_s_fd s fd).

(** *** The client command *)

Definition client_new (name : list Z) : outcome client := b ← bprintf256 (str "${v1_sock}"); Ok (mk_client name (Sess_New name) None b None None false 0).
Definition client_start (ms : list macro) e c : outcome (E * client) :=
  vsb ← macro_expand malloc ign_unknown_macro ms (c_connect c);
  b ← VSB_data vsb;
  addr ← string_at b;
  let '(e, tp) := k_create e in
  Ok (e, set_c_thread c (Some addr) true tp).
Definition client_wait e c : outcome (E * client) :=
  '(e, null) ← pthread_join e (c_tp c);
  if negb null then Fault FFatal else Ok (e, set_c_thread c (c_addr c) false 0).
Definition client_run (ms : list macro) e c : outcome (E * client) := '(e, c) ← client_start ms e c; client_wait e c.

(** One turn of the loop over the options, at [a] with [av] behind it: what is
    left of them.  [av] has a NULL after its last element: [REPLACE] takes it, and
    the loop runs past it; [bprintf] of it is undefined. *)
Definition client_option (ms : list macro) e c (a : list Z) (av : list (list Z)) : outcome (E * client * list (list Z)) :=
  if streq a "-wait" then '(e, c) ← client_wait e c; Ok (e, c, av)
  else
    '(e, c) ← (if c_running c then client_wait e c else Ok (e, c));
    _ ← assertC (negb (c_running c));
    o ← Sess_GetOpt (c_vsp c) (a :: av);
    match o with
    | Some (vsp, av) => Ok (e, set_c_vsp c vsp, av)
    | None =>
        if streq a "-connect" then match av with x :: av => b ← bprintf256 x; Ok (e, set_c_connect c b, av) | [] => Fault FUndef end
        else if streq a "-proxy1" then match av with x :: av => Ok (e, set_c_proxy c (x, 1), av) | [] => Fault FBounds end
        else if streq a "-proxy2" then match av with x :: av => Ok (e, set_c_proxy c (x, 2), av) | [] => Fault FBounds end
        else if streq a "-start" then '(e, c) ← client_start ms e c; Ok (e, c, av)
        else if streq a "-run" then '(e, c) ← client_run ms e c; Ok (e, c, av)
        else if dashed a then Fault FFatal
        else Ok (e, set_c_spec c a, av)
    end.
(** The loop; [fuel] bounds the words. *)
Fixpoint client_args (fuel : nat) (ms : list macro) e c (av : list (list Z)) : outcome (E * client) :=
  match av, fuel with
  | [], _ => Ok (e, c)
  | _, O => Fault FFuel
  | a :: av, S fuel =>
      if vtc_error e then Ok (e, c)
      else '(e, c, av) ← client_option ms e c a av; client_args fuel ms e c av
  end.

(** [VTAILQ_FOREACH] up to the one with the name, which is split off. *)
Fixpoint split_at {A} (name_of : A -> list Z) (name : list Z) (l : list A) : option (list A * A * list A) :=
  match l with
  | [] => None
  | x :: l => if bool_decide (name_of x = name) then Some ([], x, l) else '(p, y, q) ← split_at name_of name l; Some (x :: p, y, q)
  end.
(** [av] without the name of the command. *)
Definition cmd_client st (av : list (list Z)) : outcome state :=
  match av with
  | [] => Fault FAssert
  | name :: av =>
      _ ← VTC_CHECK_NAME name 99;
      '(p, c, q) ← (match split_at c_name name (st_clients st) with Some x => Ok x | None => c ← client_new name; Ok (st_clients st, c, []) end);
      '(e, c) ← client_args (length av) (st_macros st) (st_env st) c av;
      Ok (mk_sstate (p ++ c :: q) (st_servers st) (st_sn st) (st_macros st) e)
  end.
(** [av == NULL]. *)
Fixpoint clients_reset e (l : list client) : outcome E :=
  match l with
  | [] => Ok e
  | c :: l => '(e, _) ← (if negb (c_tp c =? 0) then client_wait e c else Ok (e, c)); clients_reset e l
  end.
Definition cmd_client_reset st : outcome state := e ← clients_reset (st_env st) (st_clients st); Ok (mk_sstate [] (st_servers st) (st_sn st) (st_macros st) e).

(** *** The server command *)

(** The backlog, [depth], is part of [k_listen_uds] and [k_listen_tcp]. *)
Definition server_new (name : list Z) : outcome server :=
  _ ← VTC_CHECK_NAME name 115;
  l ← bprintf256 default_listen_addr;
  Ok (mk_server name (Sess_New name) false None (-1) (-1) false l ([], []) 0).
Definition server_delete (ms : list macro) s : outcome (list macro) :=
  ms ← macro_undef ms (Some (s_name s)) (str "addr");
  ms ← macro_undef ms (Some (s_name s)) (str "port");
  macro_undef ms (Some (s_name s)) (str "sock").

(** The three macros of a server. *)
Definition server_macros (ms : list macro) s (addr port sock : list Z) : outcome (list macro) :=
  ms ← macro_def ms (Some (s_name s)) (str "addr") addr;
  ms ← macro_def ms (Some (s_name s)) (str "port") port;
  macro_def ms (Some (s_name s)) (str "sock") sock.
(** Both return with [s] as it was, and None, where [*errp] is set. *)
Definition server_listen_uds (ms : list macro) e s : outcome (E * list macro * option server) :=
  let '(e, ok) := k_unlink e (s_listen s) in
  if negb ok then Fault FFatal
  else
    let '(e, sock) := k_listen_uds e (s_listen s) in
    match sock with
    | None => Ok (e, ms, None)
    | Some sock =>
        _ ← assertC (0 <? sock);
        ms ← server_macros ms s (str "0.0.0.0") (str "0") (s_listen s);
        Ok (e, ms, Some (set_s_sock s sock (s_listen s) (s_addr s)))
    end.
Definition server_listen_tcp (ms : list macro) e s : outcome (E * list macro * option server) :=
  let '(e, sock) := k_listen_tcp e (s_listen s) in
  match sock with
  | None => Ok (e, ms, None)
  | Some sock =>
      _ ← assertC (0 <? sock);
      let sua := k_sockname e sock in
      let '(aaddr, aport) := VTCP_name sua in
      l ← bprintf256 (if VSA_Get_Proto sua =? PF_INET then aaddr ++ [58] ++ aport else [91] ++ aaddr ++ [93; 58] ++ aport);
      ms ← server_macros ms s aaddr aport l;
      Ok (e, ms, Some (set_s_sock s sock l (aaddr, aport)))
  end.
Definition server_listen (ms : list macro) e s : outcome (E * list macro * server) :=
  '(e, sock) ← close_open e (s_sock s);
  let s := set_s_sock s sock (s_listen s) (s_addr s) in
  '(e, ms, r) ← (if VUS_is (s_listen s) then server_listen_uds ms e s else server_listen_tcp ms e s);
  match r with Some s => Ok (e, ms, s) | None => Fault FFatal end.

(** [server_start_thread] creates a thread that runs [server_thread], and
    [server_dispatch] one that takes the step [dispatch_accept] again and
    again. *)
Definition server_start_thread e s : E * server := let '(e, tp) := k_create e in (e, set_s_thread s true tp).
Definition server_start (ms : list macro) e s : outcome (E * list macro * server) :=
  '(e, ms, s) ← server_listen ms e s;
  let '(e, s) := server_start_thread e s in
  Ok (e, ms, s).
Definition server_dispatch (ms : list macro) e s : outcome (E * list macro * server) :=
  '(e, ms, s) ← server_listen ms e s;
  let '(e, tp) := k_create e in
  Ok (e, ms, set_s_thread s true tp).
Definition server_break e s : outcome (E * server) :=
  e ← pthread_cancel e (s_tp s);
  '(e, _) ← pthread_join e (s_tp s);
  '(e, sock) ← VTCP_close e (s_sock s);
  Ok (e, set_s_thread (set_s_sock s sock (s_listen s) (s_addr s)) false 0).
Definition server_wait e s : outcome (E * server) :=
  '(e, null) ← pthread_join e (s_tp s);
  if negb null && negb (vtc_stop e) then Fault FFatal else Ok (e, set_s_thread s false 0).

Definition server_option (ms : list macro) e s (a : list Z) (av : list (list Z)) : outcome (E * list macro * server * list (list Z)) :=
  if streq a "-wait" then if negb (s_run s) then Fault FFatal else '(e, s) ← server_wait e s; Ok (e, ms, s, av)
  else if streq a "-break" then '(e, s) ← server_break e s; Ok (e, ms, s, av)
  else
    '(e, s) ← (if s_run s then server_wait e s else Ok (e, s));
    _ ← assertC (negb (s_run s));
    o ← Sess_GetOpt (s_vsp s) (a :: av);
    match o with
    | Some (vsp, av) => Ok (e, ms, set_s_vsp s vsp, av)
    | None =>
        if streq a "-listen" then
          '(e, sock) ← close_open e (s_sock s);
          match av with x :: av => l ← bprintf256 x; Ok (e, ms, set_s_sock s sock l (s_addr s), av) | [] => Fault FUndef end
        else if streq a "-start" then '(e, ms, s) ← server_start ms e s; Ok (e, ms, s, av)
        else if streq a "-dispatch" then
          if negb (streq (s_name s) "s0") then Fault FFatal else '(e, ms, s) ← server_dispatch ms e s; Ok (e, ms, s, av)
        else if dashed a then Fault FFatal
        else Ok (e, ms, set_s_spec s a, av)
    end.
Fixpoint server_args (fuel : nat) (ms : list macro) e s (av : list (list Z)) : outcome (E * list macro * server) :=
  match av, fuel with
  | [], _ => Ok (e, ms, s)
  | _, O => Fault FFuel
  | a :: av, S fuel =>
      if vtc_error e then Ok (e, ms, s)
      else '(e, ms, s, av) ← server_option ms e s a av; server_args fuel ms e s av
  end.
(** [strcmp] with the NULL of a missing name is undefined. *)
Definition cmd_server st (av : list (list Z)) : outcome state :=
  match av with
  | [] => Fault (match st_servers st with [] => FAssert | _ => FUndef end)
  | name :: av =>
      '(p, s, q) ← (match split_at s_name name (st_servers st) with Some x => Ok x | None => s ← server_new name; Ok (st_servers st, s, []) end);
      '(e, ms, s) ← server_args (length av) (st_macros st) (st_env st) s av;
      Ok (mk_sstate (st_clients st) (p ++ s :: q) (st_sn st) ms e)
  end.
Fixpoint servers_reset (ms : list macro) e (l : list server) : outcome (E * list macro) :=
  match l with
  | [] => Ok (e, ms)
  | s :: l =>
      '(e, s) ← (if s_run s then e ← pthread_cancel e (s_tp s); server_wait e s else Ok (e, s));
      '(e, _) ← close_open e (s_sock s);
      ms ← server_delete ms s;
      servers_reset ms e l
  end.
Definition cmd_server_reset st : outcome state := '(e, ms) ← servers_reset (st_macros st) (st_env st) (st_servers st); Ok (mk_sstate (st_clients st) [] (st_sn st) ms e).

(** One turn of the loop of [server_dispatch_thread] for [s], while [vtc_stop] is
    not set; [snbuf] has eight bytes. *)
Definition dispatch_accept st s : outcome state :=
  _ ← assertC (0 <=? s_sock s);
  let '(e, fd) := k_accept (st_env st) (s_sock s) in
  if fd <? 0 then Fault FFatal
  else
    let snbuf := str "s" ++ fmt_d (st_sn st) in
    _ ← assertC (length snbuf <? 8)%nat;
    s2 ← server_new snbuf;
    let '(e, tp) := k_create e in
    Ok (mk_sstate (st_clients st) (st_servers st ++ [mk_server (s_name s2) (s_vsp s2) true (s_spec s) (s_sock s2) fd true (s_listen s) (s_addr s2) tp]) (i32 (st_sn st + 1)) (st_macros st) e).

(** *** Configuration of other programs *)

(** The text that is appended. *)
Fixpoint cmd_server_gen_vcl (l : list server) : list Z :=
  match l with
  | [] => []
  | s :: l =>
      (if s_is_dispatch s then []
       else if VUS_is (s_listen s) then str "backend " ++ s_name s ++ str " { .path = " ++ [34] ++ s_listen s ++ [34] ++ str "; }" ++ [10]
       else str "backend " ++ s_name s ++ str " { .host = " ++ [34] ++ (s_addr s).1 ++ [34] ++ str "; .port = " ++ [34] ++ (s_addr s).2 ++ [34] ++ str "; }" ++ [10])
      ++ cmd_server_gen_vcl l
  end.
Fixpoint haproxy_part (part : server -> list Z) (l : list server) : outcome (list Z) :=
  match l with
  | [] => Ok []
  | s :: l => if VUS_is (s_listen s) then Fault FIncompl else t ← haproxy_part part l; Ok (part s ++ t)
  end.
(** [s->name + 1]. *)
Definition number_of s : list Z := drop 1 (s_name s).
Definition cmd_server_gen_haproxy_conf (l : list server) : outcome (list Z) :=
  b ← haproxy_part (fun s => [10] ++ str "    backend be" ++ number_of s ++ [10; 9] ++ str "server srv" ++ number_of s ++ [32] ++ (s_addr s).1 ++ [58] ++ (s_addr s).2 ++ [10]) l;
  f ← haproxy_part (fun s => [10] ++ str "    frontend http" ++ number_of s ++ [10; 9] ++ str "use_backend be" ++ number_of s ++ [10; 9] ++ str "bind " ++ [34] ++ str "fd@${fe" ++ number_of s ++ str "}" ++ [34; 10]) l;
  Ok (b ++ f).
End cmds.
