(* ===== verification/SessSpec.v ===== *)
(** * Threads and sockets of clients and servers

    Every thread that is started is joined once, and every socket that listens is
    closed once, at the latest when the test is reset; and the thread of a session
    closes the connections it makes. *)

From Stdlib Require Import ZArith Lia ZifyBool.
From Stdlib Require Import String.
From stdpp Require Import base option numbers list gmap sets.
From S2P Require Import Prelude HpackData CStr Vct Vsb VsbSpec VsbQuote Macro VtcSubr Http1 Vsa Proxy Tunnel Sess.
#[local] Open Scope Z_scope.
#[local] Open Scope list_scope.

(** ** The thread of a session *)

Section thread.
Context {E : Type} (conn_f : E -> outcome (E * Z)) (disc_f : E -> Z -> outcome (E * Z)) (process : E -> Z -> outcome (E * Z)).
(** The connections that are open, and how many were made so far. *)
Context (conns : E -> gset Z) (made : E -> nat).
Record endpoints : Prop := {
  ep_conn : forall e, exists e' fd, conn_f e = Ok (e', fd) /\ 0 <= fd /\ fd ∉ conns e /\ conns e' = {[fd]} ∪ conns e /\ made e' = S (made e);
  ep_disc : forall e fd, fd ∈ conns e -> exists e', disc_f e fd = Ok (e', -1) /\ conns e' = conns e ∖ {[fd]} /\ made e' = made e;
  ep_process : forall e fd, fd ∈ conns e -> exists e' fd', process e fd = Ok (e', fd') /\ 0 <= fd' /\ fd' ∉ conns e ∖ {[fd]} /\ conns e' = {[fd']} ∪ (conns e ∖ {[fd]}) /\ made e' = made e
}.
Context (Hep : endpoints).

Lemma sess_loop_close n e : exists e',
  sess_loop conn_f disc_f process n false e (-1) = Ok (e', -1) /\ conns e' = conns e /\ (made e' = n + made e)%nat.
Proof.
  revert e. induction n as [|n IH]; intros e; [by exists e|]. cbn [sess_loop Z.ltb Z.compare].
  destruct (ep_conn Hep e) as (e1 & fd & E1 & H0 & Hn & Hc & Hm). rewrite E1. cbn [mbind outcome_bind].
  destruct (ep_process Hep e1 fd) as (e2 & fd2 & E2 & H2 & Hn2 & Hc2 & Hm2); [set_solver|]. rewrite E2. cbn [mbind outcome_bind].
  destruct (ep_disc Hep e2 fd2) as (e3 & E3 & Hc3 & Hm3); [set_solver|]. rewrite E3. cbn [mbind outcome_bind].
  destruct (IH e3) as (e' & Er & He & Hm'). exists e'. split; [done|]. split; [|lia]. rewrite He, Hc3, Hc2, Hc. set_solver.
Qed.
Lemma sess_loop_keep n e fd : 0 <= fd -> fd ∈ conns e -> exists e' fd',
  sess_loop conn_f disc_f process n true e fd = Ok (e', fd') /\ 0 <= fd' /\ fd' ∈ conns e' /\ conns e' ∖ {[fd']} = conns e ∖ {[fd]} /\ made e' = made e.
Proof.
  revert e fd. induction n as [|n IH]; intros e fd H0 Hfd; [by exists e, fd|]. cbn [sess_loop]. rewrite (proj2 (Z.ltb_ge fd 0) H0). cbn [mbind outcome_bind].
  destruct (ep_process Hep e fd Hfd) as (e2 & fd2 & E2 & H2 & Hn2 & Hc2 & Hm2). rewrite E2. cbn [mbind outcome_bind].
  destruct (IH e2 fd2) as (e' & fd' & Er & H' & Hin & He & Hm); [done|set_solver|]. exists e', fd'. do 3 (split; [done|]). split; [|lia]. rewrite He, Hc2. set_solver.
Qed.

(** The thread of a session makes as many connections as it is told to
    repeat its script, or one when it keeps it alive, and closes each of them. *)
Lemma sess_thread_ok vsp e : 0 < v_repeat vsp ->
  exists e', sess_thread conn_f disc_f process vsp e = Ok e' /\ conns e' = conns e /\
    made e' = ((if v_keepalive vsp then 1 else Z.to_nat (v_repeat vsp)) + made e)%nat.
Proof.
  intros Hr. unfold sess_thread. rewrite (proj2 (Z.ltb_lt _ _) Hr). cbn [assertC mbind outcome_bind]. destruct (v_keepalive vsp).
  - destruct (Z.to_nat (v_repeat vsp)) as [|n] eqn:En; [lia|]. cbn [sess_loop Z.ltb Z.compare].
    destruct (ep_conn Hep e) as (e1 & fd & E1 & H0 & Hn & Hc & Hm). rewrite E1. cbn [mbind outcome_bind].
    destruct (ep_process Hep e1 fd) as (e2 & fd2 & E2 & H2 & Hn2 & Hc2 & Hm2); [set_solver|]. rewrite E2. cbn [mbind outcome_bind].
    destruct (sess_loop_keep n e2 fd2) as (e3 & fd3 & E3 & H3 & Hin & He & Hm3); [done|set_solver|]. rewrite E3. cbn [mbind outcome_bind].
    destruct (ep_disc Hep e3 fd3 Hin) as (e4 & E4 & Hc4 & Hm4). rewrite E4. cbn [mbind outcome_bind]. exists e4. split; [done|]. split; [|lia].
    rewrite Hc4, He, Hc2, Hc. set_solver.
  - destruct (sess_loop_close (Z.to_nat (v_repeat vsp)) e) as (e' & Er & He & Hm). rewrite Er. cbn [mbind outcome_bind]. by exists e'.
Qed.
Lemma sess_thread_none vsp e : v_repeat vsp <= 0 -> sess_thread conn_f disc_f process vsp e = Fault FAssert.
Proof. intros Hr. unfold sess_thread. by rewrite (proj2 (Z.ltb_ge _ _) Hr). Qed.
End thread.

(** ** The kernel *)

(** [kept e e']: the same threads and the same listening sockets. *)
Class KernelOk (E : Type) `{Kernel E} := {
  threads : E -> gset Z;
  listening : E -> gset Z;
  cancelled : E -> gset Z;
  kept e e' := threads e' = threads e /\ listening e' = listening e /\ cancelled e' = cancelled e /\ (vtc_stop e = true -> vtc_stop e' = true);
  ko_accept e fd : kept e (k_accept e fd).1;
  ko_unlink e p : kept e (k_unlink e p).1;
  ko_uds e p e' fd : k_listen_uds e p = (e', Some fd) -> fd ∉ listening e /\ threads e' = threads e /\ listening e' = {[fd]} ∪ listening e /\ cancelled e' = cancelled e;
  ko_tcp e p e' fd : k_listen_tcp e p = (e', Some fd) -> fd ∉ listening e /\ threads e' = threads e /\ listening e' = {[fd]} ∪ listening e /\ cancelled e' = cancelled e;
  ko_close e fd : fd ∈ listening e -> exists e', k_close e fd = (e', true) /\ threads e' = threads e /\ listening e' = listening e ∖ {[fd]} /\
    cancelled e' = cancelled e /\ (vtc_stop e = true -> vtc_stop e' = true);
  ko_create e : let '(e', tp) := k_create e in tp <> 0 /\ tp ∉ threads e /\ threads e' = {[tp]} ∪ threads e /\ listening e' = listening e /\ cancelled e' = cancelled e;
  ko_cancel e tp : tp ∈ threads e -> exists e', k_cancel e tp = Some e' /\ threads e' = threads e /\ listening e' = listening e /\
    cancelled e' = {[tp]} ∪ cancelled e /\ (vtc_stop e = true -> vtc_stop e' = true);
  ko_join e tp : tp ∈ threads e -> exists e' null, k_join e tp = Some (e', null) /\ threads e' = threads e ∖ {[tp]} /\ listening e' = listening e /\
    cancelled e' = cancelled e ∖ {[tp]} /\ (tp ∉ cancelled e -> null = true) /\ (vtc_stop e = true -> vtc_stop e' = true);
  ko_none e tp : tp ∉ threads e -> k_join e tp = None /\ k_cancel e tp = None;
  ko_zero e : 0 ∉ threads e;
  ko_bad e fd : fd < 0 -> (k_close e fd).2 = false
}.

(** ** Which threads and sockets belong to whom *)

Definition holds (A : gset Z) (l : list Z) : Prop := NoDup l /\ A = list_to_set l.
Lemma holds_perm A l l' : l ≡ₚ l' -> holds A l -> holds A l'.
Proof. intros Hp [Hn ->]. split; [by rewrite <-Hp|]. apply leibniz_equiv. intros x. by rewrite !elem_of_list_to_set, Hp. Qed.
Lemma holds_add A l x : x ∉ A -> holds A l -> holds ({[x]} ∪ A) (x :: l).
Proof. intros Hx [Hn ->]. split; [|done]. constructor; [|done]. by rewrite elem_of_list_to_set in Hx. Qed.
Lemma holds_drop A l x : holds A (x :: l) -> x ∈ A /\ holds (A ∖ {[x]}) l.
Proof. intros [Hn ->]. apply NoDup_cons in Hn as [Hx Hn]. split; [set_solver|]. split; [done|]. cbn [list_to_set]. set_solver. Qed.

(** The thread, or the socket, there is. *)
Definition thread_of (tp : Z) : list Z := if tp =? 0 then [] else [tp].
Definition socket_of (fd : Z) : list Z := if fd <? 0 then [] else [fd].
Definition threads_c (l : list client) : list Z := flat_map (fun c => thread_of (c_tp c)) l.
Definition threads_s (l : list server) : list Z := flat_map (fun s => thread_of (s_tp s)) l.
Definition sockets_s (l : list server) : list Z := flat_map (fun s => socket_of (s_sock s)) l.

Section books.
Context {E : Type} {K : Kernel E} {KO : KernelOk E}.
Context (VTCP_name : suckaddr -> list Z * list Z) (malloc : Z -> option (list Z)) (ign_unknown_macro : bool) (default_listen_addr : list Z).
Implicit Types (e : E) (c : client) (s : server).

(** A name that leaves room for those of its macros. *)
Definition short (name : list Z) : Prop := (length name <= 250)%nat.
(** No cancelled thread is left, the flag says whether there is a thread, and
    each thread and each socket has one owner. *)
Record quiet (T L : list Z) e : Prop := { qu_t : holds (threads e) T; qu_l : holds (listening e) L; qu_c : cancelled e = ∅ }.
Definition client_ok c : Prop := c_running c = negb (c_tp c =? 0).
Definition server_ok s : Prop := s_run s = negb (s_tp s =? 0) /\ short (s_name s).
Record sess_ok (st : sstate E) : Prop := {
  so_quiet : quiet (threads_c (st_clients st) ++ threads_s (st_servers st)) (sockets_s (st_servers st)) (st_env st);
  so_clients : Forall client_ok (st_clients st);
  so_servers : Forall server_ok (st_servers st)
}.

Lemma quiet_perm T T' L L' e : T ≡ₚ T' -> L ≡ₚ L' -> quiet T L e -> quiet T' L' e.
Proof. intros HT HL [Ht Hl Hc]. split; [by eapply holds_perm|by eapply holds_perm|done]. Qed.
Lemma quiet_kept T L e e' : kept e e' -> quiet T L e -> quiet T L e'.
Proof. intros (E1 & E2 & E3 & _) [Ht Hl Hc]. split; by rewrite ?E1, ?E2, ?E3. Qed.

(** *** What each call does to them *)

Lemma quiet_create T L e e' tp : k_create e = (e', tp) -> quiet T L e -> quiet (thread_of tp ++ T) L e' /\ tp <> 0.
Proof.
  intros Ec [Ht Hl Hc]. pose proof (ko_create e) as Hk. rewrite Ec in Hk. destruct Hk as (H0 & Hn & E1 & E2 & E3). split; [|done].
  unfold thread_of. rewrite (proj2 (Z.eqb_neq tp 0) H0). split; [rewrite E1; by apply holds_add|by rewrite E2|by rewrite E3].
Qed.
Lemma quiet_join T L e tp : tp <> 0 -> quiet (thread_of tp ++ T) L e ->
  exists e', pthread_join e tp = Ok (e', true) /\ quiet T L e' /\ (vtc_stop e = true -> vtc_stop e' = true).
Proof.
  intros H0 [Ht Hl Hc]. unfold thread_of in Ht. rewrite (proj2 (Z.eqb_neq tp 0) H0) in Ht. destruct (holds_drop _ _ _ Ht) as [Hin Ht'].
  destruct (ko_join e tp Hin) as (e' & null & Ej & E1 & E2 & E3 & Hnull & Hs). rewrite Hnull in Ej by (rewrite Hc; set_solver).
  exists e'. unfold pthread_join. rewrite Ej. split; [done|]. split; [|done]. split; [by rewrite E1|by rewrite E2|]. rewrite E3, Hc. set_solver.
Qed.
(** A thread is cancelled only to be joined. *)
Lemma quiet_cancel T L e tp : tp <> 0 -> quiet (thread_of tp ++ T) L e ->
  exists e1 e2 null, pthread_cancel e tp = Ok e1 /\ pthread_join e1 tp = Ok (e2, null) /\ quiet T L e2 /\ (vtc_stop e = true -> vtc_stop e2 = true).
Proof.
  intros H0 [Ht Hl Hc]. unfold thread_of in Ht. rewrite (proj2 (Z.eqb_neq tp 0) H0) in Ht. destruct (holds_drop _ _ _ Ht) as [Hin Ht'].
  destruct (ko_cancel e tp Hin) as (e1 & Ec & E1 & E2 & E3 & Hs1). destruct (ko_join e1 tp) as (e2 & null & Ej & F1 & F2 & F3 & _ & Hs2); [by rewrite E1|].
  exists e1, e2, null. unfold pthread_cancel, pthread_join. rewrite Ec, Ej. do 2 (split; [done|]). split; [|auto].
  split; [by rewrite F1, E1|by rewrite F2, E2|]. rewrite F3, E3, Hc. set_solver.
Qed.
Lemma quiet_close T L e fd : 0 <= fd -> quiet T (socket_of fd ++ L) e ->
  exists e', VTCP_close e fd = Ok (e', -1) /\ quiet T L e' /\ (vtc_stop e = true -> vtc_stop e' = true).
Proof.
  intros H0 [Ht Hl Hc]. unfold socket_of in Hl. rewrite (proj2 (Z.ltb_ge fd 0) H0) in Hl. destruct (holds_drop _ _ _ Hl) as [Hin Hl'].
  destruct (ko_close e fd Hin) as (e' & Ec & E1 & E2 & E3 & Hs). exists e'. unfold VTCP_close. rewrite Ec. split; [done|]. split; [|done].
  split; [by rewrite E1|by rewrite E2|by rewrite E3].
Qed.
Lemma quiet_close_open T L e fd : quiet T (socket_of fd ++ L) e ->
  exists e' fd', close_open e fd = Ok (e', fd') /\ fd' < 0 /\ quiet T L e' /\ (vtc_stop e = true -> vtc_stop e' = true).
Proof.
  intros Hq. unfold close_open. destruct (0 <=? fd) eqn:H0.
  - destruct (quiet_close T L e fd) as (e' & Ec & Hq' & Hs); [lia|done|]. exists e', (-1). by split.
  - exists e, fd. split; [done|]. split; [lia|]. split; [|done]. unfold socket_of in Hq. by rewrite (proj2 (Z.ltb_lt fd 0)) in Hq by lia.
Qed.

(** *** Commands *)

Lemma joined T L e tp e' null : pthread_join e tp = Ok (e', null) -> quiet (thread_of tp ++ T) L e -> tp <> 0 /\ quiet T L e'.
Proof.
  intros Ej Hq. destruct (decide (tp = 0)) as [->|H0].
  - unfold pthread_join in Ej. destruct (ko_none e 0 (ko_zero e)) as [Hn _]. by rewrite Hn in Ej.
  - split; [done|]. destruct (quiet_join T L e tp H0 Hq) as (e2 & E2 & Hq2 & _). rewrite E2 in Ej. by simplify_eq.
Qed.
Lemma client_wait_ok T L e c e' c' : client_wait e c = Ok (e', c') -> quiet (thread_of (c_tp c) ++ T) L e -> quiet T L e' /\ c_tp c' = 0 /\ c_running c' = false.
Proof.
  unfold client_wait. intros Hw Hq. apply bind_ok in Hw as ([e1 null] & Ej & Hw). destruct (joined _ _ _ _ _ _ Ej Hq) as [_ Hq1].
  destruct null; [|done]. cbn in Hw. by simplify_eq.
Qed.
Lemma client_start_ok ms T L e c e' c' : client_start malloc ign_unknown_macro ms e c = Ok (e', c') -> quiet T L e ->
  quiet (thread_of (c_tp c') ++ T) L e' /\ client_ok c'.
Proof.
  unfold client_start. intros Hw Hq. apply bind_ok in Hw as (vsb & _ & Hw). apply bind_ok in Hw as (b & _ & Hw). apply bind_ok in Hw as (addr & _ & Hw).
  destruct (k_create e) as [e1 tp] eqn:Ec. simplify_eq. destruct (quiet_create _ _ _ _ _ Ec Hq) as [Hq1 H0]. split; [done|].
  unfold client_ok. cbn. by rewrite (proj2 (Z.eqb_neq tp 0) H0).
Qed.
(** What [client_option] and [client_args] keep. *)
Definition client_fits T L e c : Prop := quiet (thread_of (c_tp c) ++ T) L e /\ client_ok c.
Lemma client_fits_idle T L e c : quiet T L e -> c_tp c = 0 -> c_running c = false -> client_fits T L e c.
Proof. intros Hq H0 Hr. split; [by rewrite H0|]. unfold client_ok. by rewrite H0. Qed.
Lemma client_option_ok ms T L e c a av e' c' av' : client_option malloc ign_unknown_macro ms e c a av = Ok (e', c', av') ->
  client_fits T L e c -> client_fits T L e' c'.
Proof.
  unfold client_option. intros Ho [Hq Hc]. destruct (streq a "-wait").
  { apply bind_ok in Ho as ([e1 c1] & Hw & Ho). simplify_eq. destruct (client_wait_ok _ _ _ _ _ _ Hw Hq) as (Hq1 & H0 & Hr). by apply client_fits_idle. }
  apply bind_ok in Ho as ([e1 c1] & Hw & Ho). assert (Hf : quiet T L e1 /\ c_tp c1 = 0 /\ c_running c1 = false).
  { destruct (c_running c) eqn:Hr.
    - by apply (client_wait_ok _ _ _ _ _ _ Hw).
    - simplify_eq. unfold client_ok in Hc. rewrite Hr in Hc. assert (H0 : c_tp c1 = 0) by lia. rewrite H0 in Hq. by split. }
  clear Hw Hq Hc. destruct Hf as (Hq & H0 & Hr). apply bind_ok in Ho as ([] & _ & Ho). apply bind_ok in Ho as (o & _ & Ho). destruct o as [[vsp av1]|].
  { simplify_eq. by apply client_fits_idle. }
  destruct (streq a "-connect"). { destruct av as [|x av]; [done|]. apply bind_ok in Ho as (b & _ & Ho). simplify_eq. by apply client_fits_idle. }
  destruct (streq a "-proxy1"). { destruct av as [|x av]; [done|]. simplify_eq. by apply client_fits_idle. }
  destruct (streq a "-proxy2"). { destruct av as [|x av]; [done|]. simplify_eq. by apply client_fits_idle. }
  destruct (streq a "-start"). { apply bind_ok in Ho as ([e2 c2] & Hs & Ho). simplify_eq. by apply (client_start_ok _ _ _ _ _ _ _ Hs). }
  destruct (streq a "-run").
  { apply bind_ok in Ho as ([e2 c2] & Hs & Ho). simplify_eq. apply bind_ok in Hs as ([e3 c3] & Hs & Hw).
    destruct (client_start_ok _ _ _ _ _ _ _ Hs Hq) as [Hq3 _]. destruct (client_wait_ok _ _ _ _ _ _ Hw Hq3) as (Hq4 & H4 & Hr4). by apply client_fits_idle. }
  destruct (dashed a); [done|]. simplify_eq. by apply client_fits_idle.
Qed.
Lemma client_args_ok ms fuel T L e c av e' c' : client_args malloc ign_unknown_macro fuel ms e c av = Ok (e', c') -> client_fits T L e c -> client_fits T L e' c'.
Proof.
  revert e c av. induction fuel as [|fuel IH]; intros e c [|a av]; cbn [client_args]; intros Ha Hf; try done; try by simplify_eq.
  destruct (vtc_error e); [by simplify_eq|]. apply bind_ok in Ha as ([[e1 c1] av1] & Ho & Ha). apply (IH _ _ _ Ha). by apply (client_option_ok _ _ _ _ _ _ _ _ _ _ Ho).
Qed.

(** *** The server command *)

Definition server_fits T L e s : Prop := quiet (thread_of (s_tp s) ++ T) (socket_of (s_sock s) ++ L) e /\ server_ok s.
(** A server without a thread. *)
Definition server_idle T L e s : Prop := quiet T (socket_of (s_sock s) ++ L) e /\ s_tp s = 0 /\ s_run s = false /\ short (s_name s).
Lemma server_idle_fits T L e s : server_idle T L e s -> server_fits T L e s.
Proof. intros (Hq & H0 & Hr & Hs). split; [by rewrite H0|]. split; [by rewrite H0|done]. Qed.
Lemma server_fits_idle T L e s : server_fits T L e s -> s_run s = false -> server_idle T L e s.
Proof. intros [Hq [Hs Hn]] Hr. rewrite Hr in Hs. assert (H0 : s_tp s = 0) by lia. rewrite H0 in Hq. by split. Qed.
Lemma server_wait_ok T L e s e' s' : server_wait e s = Ok (e', s') -> server_fits T L e s -> server_idle T L e' s'.
Proof.
  unfold server_wait. intros Hw [Hq [_ Hn]]. apply bind_ok in Hw as ([e1 null] & Ej & Hw). destruct (joined _ _ _ _ _ _ Ej Hq) as [_ Hq1].
  destruct (negb null && _); [done|]. by simplify_eq.
Qed.
Lemma server_break_ok T L e s e' s' : server_break e s = Ok (e', s') -> server_fits T L e s -> server_idle T L e' s'.
Proof.
  unfold server_break. intros Hb [Hq [_ Hn]]. apply bind_ok in Hb as (e1 & Ec & Hb). apply bind_ok in Hb as ([e2 null] & Ej & Hb). apply bind_ok in Hb as ([e3 fd] & Ef & Hb).
  simplify_eq. assert (H0 : s_tp s <> 0).
  { intros H0. rewrite H0 in Ec. unfold pthread_cancel in Ec. destruct (ko_none e 0 (ko_zero e)) as [_ Hz]. by rewrite Hz in Ec. }
  destruct (quiet_cancel _ _ _ _ H0 Hq) as (f1 & f2 & n & Ec' & Ej' & Hq2 & _). rewrite Ec' in Ec. simplify_eq. rewrite Ej' in Ej. simplify_eq.
  assert (Hs : 0 <= s_sock s).
  { destruct (Z.neg_nonneg_cases (s_sock s)) as [Hneg|]; [|done]. pose proof (ko_bad e2 (s_sock s) Hneg) as Hb. unfold VTCP_close in Ef. destruct (k_close e2 (s_sock s)) as [f ok]. cbn in Hb. by subst ok. }
  destruct (quiet_close _ _ _ _ Hs Hq2) as (f3 & Ef' & Hq3 & _). rewrite Ef' in Ef. by simplify_eq.
Qed.
Lemma listened T L e sock e1 : sock ∉ listening e -> threads e1 = threads e -> listening e1 = {[sock]} ∪ listening e -> cancelled e1 = cancelled e ->
  (0 <? sock) = true -> quiet T L e -> quiet T (socket_of sock ++ L) e1.
Proof.
  intros Hn Et El Ec Hp [Ht Hl Hc]. unfold socket_of. rewrite (proj2 (Z.ltb_ge sock 0)) by lia.
  split; [by rewrite Et|rewrite El; by apply holds_add|by rewrite Ec].
Qed.
Lemma server_listen_ok ms T L e s e' ms' s' : server_listen VTCP_name ms e s = Ok (e', ms', s') -> server_idle T L e s -> server_idle T L e' s'.
Proof.
  unfold server_listen. intros Hl (Hq & H0 & Hr & Hn). destruct (quiet_close_open _ _ _ _ Hq) as (e1 & fd & Ef & Hfd & Hq1 & _). rewrite Ef in Hl. cbn [mbind outcome_bind] in Hl.
  apply bind_ok in Hl as ([[e2 ms2] r] & Hl & Hd). destruct r as [s2|]; [|done]. simplify_eq. cbn [s_listen set_s_sock] in Hl. destruct (VUS_is (s_listen s)).
  - unfold server_listen_uds in Hl. cbn [s_listen set_s_sock] in Hl. pose proof (ko_unlink e1 (s_listen s)) as Hu. destruct (k_unlink e1 (s_listen s)) as [e3 ok]. cbn in Hu.
    destruct ok; [|done]. apply (quiet_kept _ _ _ _ Hu) in Hq1. cbn [negb] in Hl. destruct (k_listen_uds e3 (s_listen s)) as [e4 [sock|]] eqn:El; [|by inv_ok].
    inv_ok. simplify_eq. destruct (ko_uds _ _ _ _ El) as (L1 & L2 & L3 & L4). split; [|by split]. by apply (listened T L e3 sock e').
  - unfold server_listen_tcp in Hl. cbn [s_listen set_s_sock] in Hl. destruct (k_listen_tcp e1 (s_listen s)) as [e4 [sock|]] eqn:El; [|by inv_ok].
    apply bind_ok in Hl as ([] & Hp & Hl). apply assertC_ok in Hp. destruct (VTCP_name (k_sockname e4 sock)) as [aaddr aport].
    inv_ok. simplify_eq. destruct (ko_tcp _ _ _ _ El) as (L1 & L2 & L3 & L4). split; [|by split]. by apply (listened T L e1 sock e').
Qed.
Lemma started T L e s e' tp : k_create e = (e', tp) -> server_idle T L e s -> server_fits T L e' (set_s_thread s true tp).
Proof.
  intros Ec (Hq & H0 & Hr & Hn). destruct (quiet_create _ _ _ _ _ Ec Hq) as [Hq' Htp]. split; [done|]. split; [|done]. cbn. by rewrite (proj2 (Z.eqb_neq tp 0) Htp).
Qed.
Lemma server_option_ok ms T L e s a av e' ms' s' av' : server_option VTCP_name ms e s a av = Ok (e', ms', s', av') ->
  server_fits T L e s -> server_fits T L e' s'.
Proof.
  unfold server_option. intros Ho Hf. destruct (streq a "-wait").
  { destruct (s_run s); [|done]. apply bind_ok in Ho as ([e1 s1] & Hw & Ho). simplify_eq. apply server_idle_fits. by apply (server_wait_ok _ _ _ _ _ _ Hw). }
  destruct (streq a "-break").
  { apply bind_ok in Ho as ([e1 s1] & Hw & Ho). simplify_eq. apply server_idle_fits. by apply (server_break_ok _ _ _ _ _ _ Hw). }
  apply bind_ok in Ho as ([e1 s1] & Hw & Ho). assert (Hi : server_idle T L e1 s1).
  { destruct (s_run s) eqn:Hr; [by apply (server_wait_ok _ _ _ _ _ _ Hw)|]. simplify_eq. by apply server_fits_idle. }
  clear Hw Hf. apply bind_ok in Ho as ([] & _ & Ho). apply bind_ok in Ho as (o & _ & Ho). destruct o as [[vsp av1]|].
  { simplify_eq. by apply server_idle_fits. }
  destruct (streq a "-listen").
  { destruct Hi as (Hq & H0 & Hr & Hn). destruct (quiet_close_open _ _ _ _ Hq) as (e2 & fd & Ef & Hfd & Hq2 & _). rewrite Ef in Ho. cbn [mbind outcome_bind] in Ho.
    destruct av as [|x av]; [done|]. apply bind_ok in Ho as (b & _ & Ho). simplify_eq. apply server_idle_fits. split; [|by split].
    cbn [s_sock set_s_sock]. unfold socket_of. by rewrite (proj2 (Z.ltb_lt fd 0) Hfd). }
  destruct (streq a "-start").
  { apply bind_ok in Ho as ([[e2 ms2] s2] & Hs & Ho). simplify_eq. unfold server_start in Hs. apply bind_ok in Hs as ([[e3 ms3] s3] & Hs & Hd).
    unfold server_start_thread in Hd. destruct (k_create e3) as [e4 tp] eqn:Ec. simplify_eq. apply (started _ _ _ _ _ _ Ec). by apply (server_listen_ok _ _ _ _ _ _ _ _ Hs). }
  destruct (streq a "-dispatch").
  { destruct (streq (s_name s1) "s0"); [|done]. apply bind_ok in Ho as ([[e2 ms2] s2] & Hs & Ho). simplify_eq. unfold server_dispatch in Hs. apply bind_ok in Hs as ([[e3 ms3] s3] & Hs & Hd).
    destruct (k_create e3) as [e4 tp] eqn:Ec. simplify_eq. apply (started _ _ _ _ _ _ Ec). by apply (server_listen_ok _ _ _ _ _ _ _ _ Hs). }
  destruct (dashed a); [done|]. simplify_eq. by apply server_idle_fits.
Qed.
Lemma server_args_ok ms fuel T L e s av e' ms' s' : server_args VTCP_name fuel ms e s av = Ok (e', ms', s') -> server_fits T L e s -> server_fits T L e' s'.
Proof.
  revert ms e s av. induction fuel as [|fuel IH]; intros ms e s [|a av]; cbn [server_args]; intros Ha Hf; try done; try by simplify_eq.
  destruct (vtc_error e); [by simplify_eq|]. apply bind_ok in Ha as ([[[e1 ms1] s1] av1] & Ho & Ha). apply (IH _ _ _ _ Ha). by apply (server_option_ok _ _ _ _ _ _ _ _ _ _ _ Ho).
Qed.

(** Waiting for a client that was not started, or breaking such a server, joins
    thread 0. *)
Lemma client_wait_none e c : c_tp c = 0 -> client_wait e c = Fault FUndef.
Proof. intros H0. unfold client_wait, pthread_join. rewrite H0. by destruct (ko_none e 0 (ko_zero e)) as [-> _]. Qed.
Lemma server_break_none e s : s_tp s = 0 -> server_break e s = Fault FUndef.
Proof. intros H0. unfold server_break, pthread_cancel. rewrite H0. by destruct (ko_none e 0 (ko_zero e)) as [_ ->]. Qed.
(** The socket of a script that ended with [close] cannot be closed again. *)
Lemma server_disc_closed e : exists f, server_disc e (-1) = Fault f.
Proof.
  unfold server_disc. destruct (k_shutdown e (-1)) as [e1 ok]. destruct (_ && _); [by eexists|]. unfold VTCP_close.
  pose proof (ko_bad e1 (-1) ltac:(lia)) as Hb. destruct (k_close e1 (-1)) as [e2 ok2]. cbn in Hb. subst ok2. by eexists.
Qed.

(** ** Tests *)

(** What happens to clients and servers in a test: their commands, connections
    to the dispatching server, what its workers do to the server they run for,
    and whatever changes neither their threads nor their sockets. *)
Context (resolve : list Z -> option suckaddr) (process : option (list Z) -> E -> Z -> outcome (E * Z)).
Inductive test_run : sstate E -> sstate E -> Prop :=
  | run_nil st : test_run st st
  | run_client st st1 av st2 : cmd_client malloc ign_unknown_macro st av = Ok st1 -> test_run st1 st2 -> test_run st st2
  | run_server st st1 name av st2 : short name -> cmd_server VTCP_name default_listen_addr st (name :: av) = Ok st1 -> test_run st1 st2 -> test_run st st2
  | run_accept st st1 s st2 : s ∈ st_servers st -> dispatch_accept default_listen_addr st s = Ok st1 -> test_run st1 st2 -> test_run st st2
  | run_worker cs p s q sn ms e s' e' st2 : server_dispatch_wrk process s e = Ok (e', s') -> kept e e' ->
      test_run (mk_sstate cs (p ++ s' :: q) sn ms e') st2 -> test_run (mk_sstate cs (p ++ s :: q) sn ms e) st2
  | run_other st ms e st2 : kept (st_env st) e -> test_run (mk_sstate (st_clients st) (st_servers st) (st_sn st) ms e) st2 -> test_run st st2.

Lemma split_at_ok {A} (f : A -> list Z) name l p x q : split_at f name l = Some (p, x, q) -> l = p ++ x :: q /\ f x = name.
Proof.
  revert p. induction l as [|y l IH]; intros p; cbn [split_at]; [done|]. case_bool_decide; [intros; by simplify_eq|].
  destruct (split_at f name l) as [[[p' y'] q']|]; [|done]. cbn. intros [= <- <- <-]. destruct (IH p' eq_refl) as [-> Hf]. done.
Qed.
Lemma threads_c_mid p c q : threads_c (p ++ c :: q) ≡ₚ thread_of (c_tp c) ++ threads_c (p ++ q).
Proof. unfold threads_c. rewrite !flat_map_app. cbn [flat_map]. by rewrite Permutation_app_swap_app. Qed.
Lemma threads_s_mid p s q : threads_s (p ++ s :: q) ≡ₚ thread_of (s_tp s) ++ threads_s (p ++ q).
Proof. unfold threads_s. rewrite !flat_map_app. cbn [flat_map]. by rewrite Permutation_app_swap_app. Qed.
Lemma sockets_s_mid p s q : sockets_s (p ++ s :: q) ≡ₚ socket_of (s_sock s) ++ sockets_s (p ++ q).
Proof. unfold sockets_s. rewrite !flat_map_app. cbn [flat_map]. by rewrite Permutation_app_swap_app. Qed.

(** A client, or a server, in its place. *)
Lemma sess_client p c q ss sn ms e : sess_ok (mk_sstate (p ++ c :: q) ss sn ms e) <->
  client_fits (threads_c (p ++ q) ++ threads_s ss) (sockets_s ss) e c /\ Forall client_ok (p ++ q) /\ Forall server_ok ss.
Proof.
  split.
  - intros [Hq Hc Hs]. cbn in *. apply Forall_app in Hc as [Hp Hc]. apply Forall_cons in Hc as [Hc Hq']. split; [split; [|done]|by rewrite Forall_app].
    eapply quiet_perm; [| |exact Hq]; [|done]. by rewrite threads_c_mid, app_assoc.
  - intros ([Hq Hc] & Hpq & Hs). apply Forall_app in Hpq as [Hp Hq']. split; cbn; [|by rewrite Forall_app, Forall_cons|done].
    eapply quiet_perm; [| |exact Hq]; [|done]. by rewrite threads_c_mid, app_assoc.
Qed.
Lemma sess_server cs p s q sn ms e : sess_ok (mk_sstate cs (p ++ s :: q) sn ms e) <->
  server_fits (threads_c cs ++ threads_s (p ++ q)) (sockets_s (p ++ q)) e s /\ Forall client_ok cs /\ Forall server_ok (p ++ q).
Proof.
  assert (HT : threads_c cs ++ threads_s (p ++ s :: q) ≡ₚ thread_of (s_tp s) ++ threads_c cs ++ threads_s (p ++ q)) by (rewrite threads_s_mid; apply Permutation_app_swap_app).
  split.
  - intros [Hq Hc Hs]. cbn in *. apply Forall_app in Hs as [Hp Hs]. apply Forall_cons in Hs as [Hs Hq']. split; [split; [|done]|by rewrite Forall_app].
    eapply quiet_perm; [exact HT|apply sockets_s_mid|exact Hq].
  - intros ([Hq Hs] & Hc & Hpq). apply Forall_app in Hpq as [Hp Hq']. split; cbn; [|done|by rewrite Forall_app, Forall_cons].
    eapply quiet_perm; [symmetry; exact HT|symmetry; apply sockets_s_mid|exact Hq].
Qed.
Lemma cmd_client_ok st av st' : cmd_client malloc ign_unknown_macro st av = Ok st' -> sess_ok st -> sess_ok st'.
Proof.
  destruct st as [cs ss sn ms e]. unfold cmd_client. destruct av as [|name av]; [done|]. cbn [st_clients st_servers st_sn st_macros st_env]. intros Hd Hok.
  apply bind_ok in Hd as ([] & _ & Hd). apply bind_ok in Hd as ([[p c] q] & Hf & Hd). apply bind_ok in Hd as ([e' c'] & Ha & Hd). simplify_eq.
  assert (H0 : client_fits (threads_c (p ++ q) ++ threads_s ss) (sockets_s ss) e c /\ Forall client_ok (p ++ q) /\ Forall server_ok ss).
  { destruct (split_at c_name name cs) as [x|] eqn:Es.
    - injection Hf as ->. apply split_at_ok in Es as [-> _]. by apply (sess_client p c q ss sn ms e).
    - unfold client_new in Hf. inv_ok. simplify_eq. destruct Hok as [Hq Hc Hs]. cbn in *. rewrite app_nil_r. split; [|done]. by split. }
  destruct H0 as (Hfit & Hc & Hs). apply sess_client. split; [|done]. by apply (client_args_ok _ _ _ _ _ _ _ _ _ Ha).
Qed.
Lemma cmd_server_ok st name av st' : short name -> cmd_server VTCP_name default_listen_addr st (name :: av) = Ok st' -> sess_ok st -> sess_ok st'.
Proof.
  destruct st as [cs ss sn ms e]. unfold cmd_server. cbn [st_clients st_servers st_sn st_macros st_env]. intros Hn Hd Hok.
  apply bind_ok in Hd as ([[p s] q] & Hf & Hd). apply bind_ok in Hd as ([[e' ms'] s'] & Ha & Hd). simplify_eq.
  assert (H0 : server_fits (threads_c cs ++ threads_s (p ++ q)) (sockets_s (p ++ q)) e s /\ Forall client_ok cs /\ Forall server_ok (p ++ q)).
  { destruct (split_at s_name name ss) as [x|] eqn:Es.
    - injection Hf as ->. apply split_at_ok in Es as [-> _]. by apply (sess_server cs p s q sn ms e).
    - unfold server_new in Hf. inv_ok. simplify_eq. destruct Hok as [Hq Hc Hs]. cbn in *. rewrite app_nil_r. split; [|done]. by split. }
  destruct H0 as (Hfit & Hc & Hs). apply sess_server. split; [|done]. by apply (server_args_ok _ _ _ _ _ _ _ _ _ _ Ha).
Qed.
Lemma dispatch_accept_ok st s st' : dispatch_accept default_listen_addr st s = Ok st' -> sess_ok st -> sess_ok st'.
Proof.
  destruct st as [cs ss sn ms e]. unfold dispatch_accept. cbn [st_clients st_servers st_sn st_macros st_env]. intros Hd Hok.
  apply bind_ok in Hd as ([] & _ & Hd). pose proof (ko_accept e (s_sock s)) as Hk. destruct (k_accept e (s_sock s)) as [e1 fd]. cbn in Hk.
  destruct (fd <? 0); [done|]. apply bind_ok in Hd as ([] & Hl & Hd). apply assertC_ok in Hl. apply bind_ok in Hd as (s2 & Hs & Hd).
  destruct (k_create e1) as [e2 tp] eqn:Ec. simplify_eq. unfold server_new in Hs. inv_ok. simplify_eq.
  destruct Hok as [Hq Hc Hsv]. cbn in *. apply (quiet_kept _ _ _ _ Hk) in Hq. destruct (quiet_create _ _ _ _ _ Ec Hq) as [Hq' Htp].
  apply sess_server. rewrite app_nil_r. split; [|done]. split; [done|]. split; cbn; [by rewrite (proj2 (Z.eqb_neq tp 0) Htp)|]. unfold short. cbn [length] in *. lia.
Qed.
Lemma test_run_ok st st' : test_run st st' -> sess_ok st -> sess_ok st'.
Proof.
  induction 1 as [st|st st1 av st2 Hc _ IH|st st1 name av st2 Hn Hc _ IH|st st1 s st2 _ Hc _ IH|cs p s q sn ms e s' e' st2 Hw Hk _ IH|st ms e st2 Hk _ IH]; intros Hok; [done| | | | |].
  - apply IH. by apply (cmd_client_ok _ _ _ Hc).
  - apply IH. by apply (cmd_server_ok _ _ _ _ Hn Hc).
  - apply IH. by apply (dispatch_accept_ok _ _ _ Hc).
  - apply IH. apply sess_server. apply sess_server in Hok as ([Hq Hs] & Hr). split; [|done]. apply (quiet_kept _ _ _ _ Hk) in Hq.
    unfold server_dispatch_wrk in Hw. apply bind_ok in Hw as ([] & _ & Hw). apply bind_ok in Hw as ([e1 fd] & _ & Hw). destruct (k_shutdown e1 fd) as [e2 ok].
    destruct ok; [|done]. apply bind_ok in Hw as ([e3 fd'] & _ & Hw). by simplify_eq.
  - apply IH. destruct Hok as [Hq Hc Hs]. split; cbn; [|done|done]. by apply (quiet_kept _ _ _ _ Hk).
Qed.

(** *** The reset *)

Lemma clients_reset_ok l T L e : quiet (threads_c l ++ T) L e -> Forall client_ok l -> vtc_stop e = true ->
  exists e', clients_reset e l = Ok e' /\ quiet T L e' /\ vtc_stop e' = true.
Proof.
  revert e. induction l as [|c l IH]; intros e Hq Hc Hs; [by exists e|]. apply Forall_cons in Hc as [_ Hc]. cbn [threads_c flat_map] in Hq. rewrite <-app_assoc in Hq.
  cbn [clients_reset]. destruct (c_tp c =? 0) eqn:H0; cbn [negb].
  - cbn [mbind outcome_bind]. apply IH; [|done|done]. unfold thread_of in Hq. by rewrite H0 in Hq.
  - destruct (quiet_join (threads_c l ++ T) L e (c_tp c)) as (e1 & Ej & Hq1 & Hs1); [lia|done|]. unfold client_wait. rewrite Ej. cbn [mbind outcome_bind negb]. by apply IH; [| |apply Hs1].
Qed.
Lemma macro_undef_ok ms name w : short name -> (length w <= 4)%nat -> exists ms', macro_undef ms (Some name) w = Ok ms'.
Proof.
  unfold short. intros Hn Hw. unfold macro_undef, macro_name. replace (Z.of_nat (length (name ++ [95] ++ w)) <? 256) with true by (rewrite !length_app; cbn [length]; lia).
  cbn. by eexists.
Qed.
Lemma server_delete_ok ms s : short (s_name s) -> exists ms', server_delete ms s = Ok ms'.
Proof.
  intros Hn. unfold server_delete. destruct (macro_undef_ok ms (s_name s) (str "addr")) as [m1 ->]; [done|cbn; lia|]. cbn [mbind outcome_bind].
  destruct (macro_undef_ok m1 (s_name s) (str "port")) as [m2 ->]; [done|cbn; lia|]. cbn [mbind outcome_bind]. apply macro_undef_ok; [done|cbn; lia].
Qed.
Lemma servers_reset_ok l ms e : quiet (threads_s l) (sockets_s l) e -> Forall server_ok l -> vtc_stop e = true ->
  exists e' ms', servers_reset ms e l = Ok (e', ms') /\ quiet [] [] e'.
Proof.
  revert ms e. induction l as [|s l IH]; intros ms e Hq Hc Hs; [by exists e, ms|]. apply Forall_cons in Hc as [[Hr Hn] Hc]. cbn [threads_s sockets_s flat_map] in Hq.
  fold (threads_s l) (sockets_s l) in Hq. cbn [servers_reset].
  assert (Hj : exists e1 s1, (if s_run s then e1 ← pthread_cancel e (s_tp s); server_wait e1 s else Ok (e, s)) = Ok (e1, s1) /\
    quiet (threads_s l) (socket_of (s_sock s) ++ sockets_s l) e1 /\ vtc_stop e1 = true /\ s_sock s1 = s_sock s /\ s_name s1 = s_name s).
  { rewrite Hr. destruct (s_tp s =? 0) eqn:H0; cbn [negb].
    - exists e, s. unfold thread_of in Hq. by rewrite H0 in Hq.
    - destruct (quiet_cancel (threads_s l) (socket_of (s_sock s) ++ sockets_s l) e (s_tp s)) as (e1 & e2 & null & Ec & Ej & Hq2 & Hs2); [lia|done|].
      exists e2, (set_s_thread s false 0). rewrite Ec. cbn [mbind outcome_bind]. unfold server_wait. rewrite Ej. cbn [mbind outcome_bind]. rewrite (Hs2 Hs), andb_false_r. auto. }
  destruct Hj as (e1 & s1 & -> & Hq1 & Hs1 & Hk & Hm). cbn [mbind outcome_bind]. rewrite Hk.
  destruct (quiet_close_open _ _ _ _ Hq1) as (e2 & fd & -> & _ & Hq2 & Hs2). cbn [mbind outcome_bind].
  destruct (server_delete_ok ms s1) as [ms' ->]; [by rewrite Hm|]. cbn [mbind outcome_bind]. apply IH; [done|done|by apply Hs2].
Qed.

(** C19: While a test runs, the threads that can be joined and the sockets that
    listen are those of the clients and servers, each of one of them; and once
    [vtc_stop] is set, the reset ends without a failure, every thread joined and
    every socket closed. *)
Theorem sessions_cleaned st0 st : test_run st0 st -> st_clients st0 = [] -> st_servers st0 = [] -> quiet [] [] (st_env st0) ->
  quiet (threads_c (st_clients st) ++ threads_s (st_servers st)) (sockets_s (st_servers st)) (st_env st) /\
  (vtc_stop (st_env st) = true -> exists st1 st2, cmd_client_reset st = Ok st1 /\ cmd_server_reset st1 = Ok st2 /\
    st_clients st2 = [] /\ st_servers st2 = [] /\ threads (st_env st2) = ∅ /\ listening (st_env st2) = ∅).
Proof.
  intros Hrun Hc Hs Hq. assert (Hok : sess_ok st).
  { apply (test_run_ok _ _ Hrun). split; rewrite ?Hc, ?Hs; [done|constructor|constructor]. }
  split; [apply Hok|]. intros Hstop. destruct st as [cs ss sn ms e]. destruct Hok as [Hqu Hcs Hss]. cbn in *.
  destruct (clients_reset_ok _ _ _ _ Hqu Hcs Hstop) as (e1 & E1 & Hq1 & Hs1). destruct (servers_reset_ok ss ms e1 Hq1 Hss Hs1) as (e2 & ms2 & E2 & Hq2).
  exists (mk_sstate [] ss sn ms e1), (mk_sstate [] [] sn ms2 e2). unfold cmd_client_reset, cmd_server_reset. cbn. rewrite E1. cbn. rewrite E2. cbn. do 4 (split; [done|]).
  destruct Hq2 as [[_ Ht] [_ Hl] _]. by rewrite Ht, Hl.
Qed.
End books.

(** ** An example *)

(** A kernel that numbers threads and sockets. *)
Record toy := mk_toy { y_threads : gset Z; y_sockets : gset Z; y_cancelled : gset Z; y_stop : bool }.
Definition next (A : gset Z) : Z := foldr Z.max 0 (elements A) + 1.
Lemma next_pos A : 0 < next A.
Proof. unfold next. induction (elements A); cbn; lia. Qed.
Lemma next_fresh A : next A ∉ A.
Proof.
  rewrite <-elem_of_elements. unfold next. assert (Hl : forall l x, x ∈ l -> x <= foldr Z.max 0 l).
  { induction l as [|y l IH]; intros x Hx; [by apply elem_of_nil in Hx|]. apply elem_of_cons in Hx as [->|Hx]; cbn; [lia|]. specialize (IH x Hx). lia. }
  intros Hin. specialize (Hl _ _ Hin). lia.
Qed.
Definition toy_listen (e : toy) : toy * option Z := (mk_toy (y_threads e) ({[next (y_sockets e)]} ∪ y_sockets e) (y_cancelled e) (y_stop e), Some (next (y_sockets e))).
Definition toy_live (e : toy) (tp : Z) : bool := bool_decide (tp <> 0 /\ tp ∈ y_threads e).
#[local] Instance toy_kernel : Kernel toy := {|
  k_connect e _ := (e, 7); k_write e _ _ := (e, true); k_accept e _ := (e, 8); k_unlink e _ := (e, true); k_shutdown e _ := (e, true);
  k_listen_uds e _ := toy_listen e; k_listen_tcp e _ := toy_listen e;
  k_sockname e fd := mk_suckaddr PF_INET [0; 80; 127; 0; 0; 1];
  k_close e fd := (mk_toy (y_threads e) (y_sockets e ∖ {[fd]}) (y_cancelled e) (y_stop e), bool_decide (0 <= fd));
  k_create e := (mk_toy ({[next (y_threads e)]} ∪ y_threads e) (y_sockets e) (y_cancelled e) (y_stop e), next (y_threads e));
  k_cancel e tp := if toy_live e tp then Some (mk_toy (y_threads e) (y_sockets e) ({[tp]} ∪ y_cancelled e) (y_stop e)) else None;
  k_join e tp := if toy_live e tp then Some (mk_toy (y_threads e ∖ {[tp]}) (y_sockets e) (y_cancelled e ∖ {[tp]}) (y_stop e), bool_decide (tp ∉ y_cancelled e)) else None;
  vtc_error _ := false; vtc_stop := y_stop |}.
Lemma toy_live_spec e tp : toy_live e tp = true <-> tp ∈ y_threads e ∖ {[0]}.
Proof. unfold toy_live. rewrite bool_decide_eq_true. set_solver. Qed.
Lemma toy_dead e tp : tp ∉ y_threads e ∖ {[0]} -> toy_live e tp = false.
Proof. rewrite <-toy_live_spec. by destruct (toy_live e tp). Qed.
#[local] Program Instance toy_ok : KernelOk toy := {| threads e := y_threads e ∖ {[0]}; listening e := filter (fun fd => 0 <= fd) (y_sockets e); cancelled := y_cancelled |}.
Next Obligation. done. Qed.
Next Obligation. done. Qed.
Next Obligation. intros e p e' fd [= <- <-]. pose proof (next_pos (y_sockets e)). pose proof (next_fresh (y_sockets e)). cbn. repeat split; set_solver by lia. Qed.
Next Obligation. intros e p e' fd [= <- <-]. pose proof (next_pos (y_sockets e)). pose proof (next_fresh (y_sockets e)). cbn. repeat split; set_solver by lia. Qed.
Next Obligation. intros e fd Hin. eexists. cbn. rewrite bool_decide_eq_true_2 by set_solver. repeat split; [set_solver|done]. Qed.
Next Obligation. intros e. pose proof (next_pos (y_threads e)). pose proof (next_fresh (y_threads e)). cbn. repeat split; set_solver by lia. Qed.
Next Obligation. intros e tp Hin. cbn. rewrite (proj2 (toy_live_spec e tp) Hin). eexists. repeat split; done. Qed.
Next Obligation. intros e tp Hin. cbn. rewrite (proj2 (toy_live_spec e tp) Hin). eexists _, _. repeat split; [set_solver|intros; by apply bool_decide_eq_true_2|done]. Qed.
Next Obligation. intros e tp Hin. cbn. by rewrite (toy_dead e tp Hin). Qed.
Next Obligation. set_solver. Qed.
Next Obligation. intros e fd Hfd. cbn. rewrite bool_decide_eq_false. lia. Qed.

Definition toy_name (a : suckaddr) : list Z * list Z := (str "127.0.0.1", str "80").
Definition toy_process (spec : option (list Z)) (e : toy) (fd : Z) : outcome (toy * Z) := Ok (e, fd).
#[local] Abbreviation toy_run := (test_run toy_name zero_malloc false (str "127.0.0.1:0") toy_process).
Definition toy_start : sstate toy := mk_sstate [] [] 1 [] (mk_toy ∅ ∅ ∅ false).
Definition toy_stopped (st : sstate toy) : sstate toy :=
  mk_sstate (st_clients st) (st_servers st) (st_sn st) (st_macros st) (mk_toy (y_threads (st_env st)) (y_sockets (st_env st)) (y_cancelled (st_env st)) true).
(** A server, a client of it, and the dispatching server with a connection. *)
Definition toy_test : outcome (sstate toy) :=
  st ← cmd_server toy_name (str "127.0.0.1:0") toy_start [str "s1"; str "rxreq"; str "-start"];
  st ← cmd_client zero_malloc false st [str "c1"; str "-connect"; str "${s1_sock}"; str "-start"];
  st ← cmd_server toy_name (str "127.0.0.1:0") st [str "s0"; str "rxreq"; str "-dispatch"];
  match st_servers st with
  | [_; s0] => st ← dispatch_accept (str "127.0.0.1:0") st s0; Ok (toy_stopped st)
  | _ => Fault FAssert
  end.
Lemma toy_test_run st : toy_test = Ok st -> toy_run toy_start st /\ vtc_stop (st_env st) = true.
Proof.
  unfold toy_test. intros Ht. apply bind_ok in Ht as (st1 & E1 & Ht). apply bind_ok in Ht as (st2 & E2 & Ht). apply bind_ok in Ht as (st3 & E3 & Ht).
  destruct (st_servers st3) as [|s1 [|s0 [|? ?]]] eqn:Es; try done. apply bind_ok in Ht as (st4 & E4 & Ht). simplify_eq. split; [|done].
  eapply run_server; [|exact E1|]; [unfold short; cbn; lia|]. eapply run_client; [exact E2|]. eapply run_server; [|exact E3|]; [unfold short; cbn; lia|].
  eapply run_accept; [|exact E4|]; [rewrite Es; set_solver|]. eapply run_other; [|apply run_nil]. by repeat split.
Qed.
Lemma toy_quiet : quiet [] [] (st_env toy_start).
Proof. split; [split; [constructor|set_solver]|split; [constructor|set_solver]|done]. Qed.
Lemma sessions_cleaned_witness : exists st st1 st2, toy_test = Ok st /\ length (threads_c (st_clients st) ++ threads_s (st_servers st)) = 4%nat /\
  cmd_client_reset st = Ok st1 /\ cmd_server_reset st1 = Ok st2 /\ threads (st_env st2) = ∅ /\ listening (st_env st2) = ∅.
Proof.
  destruct toy_test as [st|] eqn:Et; [|exfalso; vm_compute in Et; discriminate].
  destruct (toy_test_run st Et) as [Hrun Hstop].
  destruct (sessions_cleaned toy_name zero_malloc false (str "127.0.0.1:0") toy_process toy_start st Hrun eq_refl eq_refl toy_quiet) as [_ Hend].
  destruct (Hend Hstop) as (st1 & st2 & E1 & E2 & _ & _ & Ht & Hl). exists st, st1, st2. refine (conj eq_refl (conj _ (conj E1 (conj E2 (conj Ht Hl))))).
  clear -Et. vm_compute in Et. injection Et as <-. reflexivity.
Defined.

(** A session whose connections are counted, with a script that leaves them
    open. *)
Definition count_conn (e : nat * gset Z) : outcome (nat * gset Z * Z) := Ok ((S e.1, {[next e.2]} ∪ e.2), next e.2).
Definition count_disc (e : nat * gset Z) (fd : Z) : outcome (nat * gset Z * Z) := Ok ((e.1, e.2 ∖ {[fd]}), -1).
Definition count_process (e : nat * gset Z) (fd : Z) : outcome (nat * gset Z * Z) := Ok (e, fd).
Definition count_open (e : nat * gset Z) : gset Z := filter (fun fd => 0 <= fd) e.2.
Lemma count_endpoints : endpoints count_conn count_disc count_process count_open fst.
Proof.
  split; unfold count_open.
  - intros e. eexists _, _. split; [done|]. pose proof (next_pos e.2). pose proof (next_fresh e.2). cbn. repeat split; set_solver by lia.
  - intros e fd Hfd. eexists. split; [done|]. cbn. split; [set_solver|done].
  - intros e fd Hfd. eexists _, _. split; [done|]. split; [set_solver|]. split; [set_solver|]. split; [|done]. apply set_eq. intros x. destruct (decide (x = fd)); set_solver.
Qed.
Lemma sess_thread_ok_witness : exists e, sess_thread count_conn count_disc count_process (mk_sess (str "c1") 3 false 0) (0%nat, ∅) = Ok e /\ e.1 = 3%nat /\ count_open e = ∅.
Proof.
  destruct (sess_thread_ok _ _ _ _ _ count_endpoints (mk_sess (str "c1") 3 false 0) (0%nat, ∅)) as (e & He & Hc & Hm); [cbn; lia|].
  exists e. split; [exact He|]. split; [exact Hm|exact Hc].
Defined.
